(* ===== verification/_CoqProject ===== *)
-Q . S2P
Prelude.v
Mem.v
Trapframe.v
Block.v
StringC.v
Spinlock.v
Locks.v
Riscv.v
Csr.v
Kalloc.v
Vm.v
PageTable.v
UserMem.v
UserCopy.v
UserFork.v
VmSpec.v
Bio.v
Bcache.v
BcacheSpec.v
BcacheThms.v
Log.v
LogSpec.v
LogCrash.v
LogTxn.v
LogConc.v
BlockIO.v
Fs.v
FsBlocks.v
FsInode.v
FsFile.v
FsIO.v
FsTable.v
FsDir.v
FsPath.v
FsCheck.v
FsTrunc.v
FsDemo.v
FsDirThms.v
Mkfs.v
MkfsSpec.v
MkfsThms.v
FsThms.v
UserVm.v
Pipe.v
PipeVm.v
File.v
FileThms.v
Sysfile.v
SysfileThms.v
Proc.v
ProcThms.v
Exec.v
Syscall.v
Trap.v
TrapThms.v
Asm.v
AsmSpec.v
Trampoline.v
TrapPath.v
Switch.v
Initcode.v
PageMap.v
KvmThms.v
UserinitThms.v
Sleep.v
Grep.v
Printf.v
Console.v
Virtio.v
Umalloc.v
Sh.v
User.v
UserThms.v
ShRun.v
Devices.v
DeviceThms.v
Boot.v
BootThms.v
