(* ===== verification/Prelude.v ===== *)
(** * xv6 (RISC-V): a verification development

    The kernel under src/kernel, the user library and programs under src/user and
    mkfs, as definitions that run and theorems about them.  The sources are
    built for the lab "util": a user stack of 2 pages, 64 processes, a disk of
    2000 blocks.

    ** How code becomes definitions

    A C function is a function in the monad [M] of this file: from the state it
    can reach to an outcome, [Ok] with a result, [Panic] with the message, or
    [Diverge] where the code does not return.  Integers are [Z] and every
    conversion and addition that can wrap is written with [u8] to [u64], [i32] and
    [i64].  Pointers are addresses, or indices where they point into one table;
    NULL is 0 or -1.  Code that runs as one thread calls the functions of this
    monad in sequence, and where it would sleep until another thread acts it is
    [Diverge]; the code whose correctness is about interleaving is a step relation
    instead (the spin lock in Spinlock.v, pipes in Pipe.v, sleep and wakeup in
    Sleep.v, operations on the log in LogConc.v, the disk driver and its device in
    Virtio.v, the processes of a shell command in ShRun.v, the harts in [main] in
    Boot.v).

    Components are joined by type classes: a client is proved against the class
    and the component provides the instance.  [PageAllocator] stands between
    kalloc.c and vm.c, [BufCache] between bio.c and log.c, [BlockIO] between log.c
    and fs.c, [UserIO] between the copies of vm.c and everything that takes user
    addresses, [UserMem] and [UserBytes] between those copies and pipes, [Thread] between a
    component and the locks of its thread, [Mmio] and [Devices] between the code
    that programs device registers and what the manuals say of them.

    ** The files and what they prove

    - Machine and memory.  Prelude.v: the monad, machine integers, tactics.
      Mem.v: byte-addressed memory.  Block.v: fields of byte arrays.  Riscv.v:
      the address macros of riscv.h and memlayout.h.  Csr.v: a hart and the
      registers that riscv.h reads and writes.  Trapframe.v: struct trapframe of
      proc.h.  StringC.v: string.c.
    - Locks.  Spinlock.v: spinlock.c in both readings; mutual exclusion over any
      number of harts (C1), and that the functions are runs of the steps.
      Locks.v: locks as one thread sees them, implemented by spinlock.c, and
      sleeplock.c.
    - Memory.  Kalloc.v: kalloc.c; its free list holds every page once and no page
      is lost or handed out twice (C4).  Vm.v: vm.c.  PageTable.v, UserMem.v,
      UserCopy.v and UserFork.v: a page table in memory as a map; VmSpec.v: the
      theorems on mapping, growing, shrinking, copying and freeing address spaces
      and on copies between user and kernel, failures included (C6, C8, C10 to C12).
      UserVm.v: the same copies on lists of bytes, which agree with them.
      PageMap.v: an address space as a list of regions, and the pages its tables
      take; KvmThms.v: what the kernel's page table maps (C16).
    - Disk.  Virtio.v: virtio_disk.c with overlapping requests, the notification of
      the device, its interrupts and their acknowledgement, and the sleeps and
      wakeups of the callers; requests transfer their own block and all calls can
      finish (C39).  Bio.v: bio.c.  Bcache.v, BcacheSpec.v and
      BcacheThms.v: the cache as an abstract map; reads, recycling order and round
      trips (C19).  Log.v: log.c.  LogSpec.v, LogCrash.v and LogTxn.v: a
      commit and a whole transaction are atomic with a crash between any two disk
      writes, also of the recovery (C17), and the admission test of begin_op
      is off by one block (C18).  LogConc.v: any number of threads in begin_op,
      log_write and end_op; operations within the limit never panic and a commit
      has whole operations (C21).  BlockIO.v: the two layers as fs.c uses them, and
      the atomicity of an operation (C22).
    - Files.  Fs.v: fs.c.  FsBlocks.v, FsInode.v, FsFile.v and FsIO.v: bitmap,
      inodes, block map and contents; FsThms.v: first fit, and what writei and
      readi do to bytes (C23, C24), at the file system of FsDemo.v.  FsTable.v,
      FsDir.v, FsPath.v, FsCheck.v and FsTrunc.v: the inode table, directories as
      lists of entries, paths and what freeing a file does; FsDirThms.v: iput,
      dirlink and dirlookup, namex and ialloc (C3, C13, C14).  Mkfs.v: mkfs.c;
      MkfsSpec.v and MkfsThms.v: the image it makes is well formed and holds the
      files (C9, C32).  Pipe.v:
      pipe.c; the bytes in readers' memory are those of the writers' in order,
      wakeups, and the one that is missing (C26 to C28); PipeVm.v: address
      spaces as the memory of readers and writers.
      File.v: file.c; FileThms.v: filewrite down to the disk (C29).  Sysfile.v:
      sysfile.c and the arguments of syscall.c; SysfileThms.v: sys_pipe in a
      process with its address space (C30).
    - Processes.  Proc.v: proc.c; ProcThms.v: exit up to sched (C33).
      Sleep.v: no wakeup is lost (C31).  Exec.v: exec.c.  Syscall.v: sysproc.c and
      the dispatcher.  Trap.v: trap.c; TrapThms.v: usertrap on a system call.
    - Assembly.  Asm.v: instructions, Sv39 translation and traps of a hart, and
      entry.S, kernelvec.S, swtch.S, trampoline.S and the stubs of usys.pl as lists
      of instructions; AsmSpec.v: runs of loads and stores.  Trampoline.v: uservec
      and userret; TrapPath.v: any system call from the ecall to the function
      that serves it, and from there to the instruction after it (C34).  Switch.v: swtch resumes a thread where it left off (C2), and
      kernelvec hides an interrupt (C15).  Initcode.v: the bytes in proc.c
      execute as initcode.S.
    - Start-up.  Boot.v: start.c, and main.c with the functions that it calls and
      that are in no other file.  UserinitThms.v: userinit makes the first process,
      which comes to exec("/init") (C25).  Devices.v: plic.c, uartinit and
      virtio_disk_init, on device registers that are reached through the page table;
      DeviceThms.v: the registers as the manuals describe them, and what the code
      leaves in them.  BootThms.v: in every interleaving of up to 8 harts in [main]
      none panics, the others wait for hart 0, and all come to [scheduler] with the
      kernel up (C20).
    - Console and printing.  Console.v: console.c and uart.c; the line discipline
      (C38) and the order of output.  Printf.v: both printf.c; what printint prints
      and when it overruns its buffer (C37).
    - User code.  Sh.v: the parser of sh.c; it ends, its words are strings in the
      line, and it reads back what is printed (C7).  User.v: the programs, as trees
      of system calls; UserThms.v: what cat and wc write.  ShRun.v: the processes
      that [runcmd] of sh.c starts, over the calls fork, pipe, dup, close, open,
      exec, wait and exit, carry out the command (C5).  Grep.v: grep.c; the matcher
      decides its language (C35) and the lines are the right ones (C36).  Umalloc.v:
      umalloc.c; the heap stays in order and no byte is lost or handed out twice
      (C40).

    ** States

    The state of a system call grows by records: the page allocator and memory
    ([uvm] of UserVm.v), the file system over the block layer ([fstate] of Fs.v),
    the file table and pipes with the current process ([kst] of File.v), the
    process table ([pst] of Proc.v), and the control registers ([tst] of Trap.v).
    The running process's fields are kept once, in the innermost record that uses
    them, and [the_proc] shows them in the process table.  The registers of a
    process are in its trapframe page in memory and nowhere else.
    At start-up the process table is in the record [kernel] of Boot.v, next to the
    kernel's page table, and that in the [board] of Devices.v with the devices and
    the harts.

    ** Fuel

    Loops that are not counted take fuel, computed from the data they run over:
    the pages or bytes to copy in Vm.v and UserVm.v, the buffers in Bio.v, the
    blocks of the bitmap, the bytes of a file or the entries of a directory in
    Fs.v and Sysfile.v, MAXPATH for a path, the bytes to write in File.v and
    Pipe.v.  A loop that ran out of it would be [Diverge]; the theorems on these
    loops show that it does not.  In
    Virtio.v a chain has at most 8 descriptors and the used ring at most 8 new
    entries, which the invariant shows; in Printf.v a number has at most 64 digits;
    in Grep.v every round takes a byte of the input; in Console.v a line has at
    most 128 bytes and a read of n bytes has at most n rounds.  The loops of
    Umalloc.v are given fuel by the caller, and the theorem says how much is
    enough, and so are the loops of User.v that go on until a call says that they
    are at the end; the parser in Sh.v is given four calls for each byte of the line.

    ** Parameters

    Code that is not under src/ is a parameter: device registers (laws of the class
    [Devices] of DeviceThms.v, with a device that satisfies them in BootThms.v), the
    contents the linker gives (addresses of end, etext, trampoline and of string
    literals; C20 asks for 202 pages of memory behind the kernel), the sizes that
    the assembler gives to instructions, what compiled C code does between two
    pieces of assembly (the calling convention), the virtio device (a record of what
    its specification says, with a device that satisfies it), what [read] gives to a
    user program, and whether the kernel grants a request of [sbrk].

    ** Not modelled

    - Compiled code: the functions in the monad are the C source, and where one of
      them calls [swtch] it is cut in two; Switch.v is about the assembly alone.
    - Interrupts during start-up: [main] runs with interrupts off, and a call of
      [main] is one step of its hart.
    - Weak memory: steps are interleaved sequentially; the fences of the code are
      where the order of steps is fixed.
    - The device registers that printf writes in [main]: its output there is a
      list of bytes; Console.v has the path to the UART.
    - The kernel below the shell in ShRun.v: the calls there are what sysfile.c and
      proc.c promise of descriptors and processes, without what the started
      programs read and write.
    - The connection of the disk as Virtio.v drives it with the map of blocks that
      Bio.v reads and writes is by the statement of C39, not by a definition.
    - [forkret], [procdump], [mycpu] and [myproc] of proc.c, and what [panic] prints.
    - The rest of user/: the main of grep.c; the string functions of ulib.c repeat
      those of string.c; usertests.c and grind.c are tests of the kernel. *)

From stdpp Require Import base gmap list numbers strings.

Open Scope Z_scope.

(** ** Outcomes of C code

    A C function of the kernel is a function from the state it can reach to
    an outcome: it returns a value ([Ok]), it calls [panic()] with a message
    ([Panic], printf.c:panic never returns), or it does not return at all
    ([Diverge]: spinning on a lock nobody releases, or a loop that runs past
    the fuel of its model). *)
Inductive outcome (S A : Type) : Type :=
| Ok (a : A) (s : S)
| Panic (msg : string)
| Diverge.

Arguments Ok {S A} a s.
Arguments Panic {S A} msg.
Arguments Diverge {S A}.

(** Stateful, fallible code over the state type [S]. *)
Definition M (S A : Type) : Type := S -> outcome S A.

#[export] Instance M_ret S : MRet (M S) := fun A a s => Ok a s.

#[export] Instance M_bind S : MBind (M S) := fun A B k c s =>
  match c s with
  | Ok a s' => k a s'
  | Panic msg => Panic msg
  | Diverge => Diverge
  end.

Definition gets {S A} (f : S -> A) : M S A := fun s => Ok (f s) s.

Definition modify {S} (f : S -> S) : M S unit := fun s => Ok tt (f s).

Definition panic {S A} (msg : string) : M S A := fun _ => Panic msg.

Definition diverge {S A} : M S A := fun _ => Diverge.

(** [for(i = 0; i < n; i++) body i], with no early exit. *)
Fixpoint for_loop {S} (n : nat) (i : Z) (body : Z -> M S unit) : M S unit :=
  match n with
  | O => mret tt
  | S n' => body i;; for_loop n' (i + 1) body
  end.

(** ** Machine integers

    A w-bit C integer is a [Z] in its range; the source's conversions and
    arithmetic wrap with these functions. *)
Definition u8 (x : Z) : Z := x mod 2^8.
Definition u16 (x : Z) : Z := x mod 2^16.
Definition u32 (x : Z) : Z := x mod 2^32.
Definition u64 (x : Z) : Z := x mod 2^64.

(** Two's-complement reading of the low bits: conversion to a signed type. *)
Definition i8 (x : Z) : Z := (x + 2^7) mod 2^8 - 2^7.
Definition i16 (x : Z) : Z := (x + 2^15) mod 2^16 - 2^15.
Definition i32 (x : Z) : Z := (x + 2^31) mod 2^32 - 2^31.
Definition i64 (x : Z) : Z := (x + 2^63) mod 2^64 - 2^63.

Definition is_u8 (x : Z) : Prop := 0 <= x < 2^8.
Definition is_u32 (x : Z) : Prop := 0 <= x < 2^32.
Definition is_u64 (x : Z) : Prop := 0 <= x < 2^64.

(** C truth value of an integer. *)
Definition truthy (x : Z) : bool := negb (x =? 0).

(** ** Automation *)

Create HintDb xv6 discriminated.

(** Case analysis on the first [if] or [match] of the goal or a hypothesis. *)
Ltac case_goal :=
  match goal with
  | |- context [if ?b then _ else _] => destruct b eqn:?
  | |- context [match ?b with _ => _ end] => destruct b eqn:?
  end.

(** Turn boolean comparisons on [Z] into arithmetic hypotheses. *)
Ltac zbool :=
  repeat match goal with
  | H : (_ && _) = true |- _ => apply andb_true_iff in H; destruct H
  | H : (_ && _) = false |- _ => apply andb_false_iff in H
  | H : (_ || _) = true |- _ => apply orb_true_iff in H
  | H : (_ || _) = false |- _ => apply orb_false_iff in H; destruct H
  | H : negb _ = true |- _ => apply negb_true_iff in H
  | H : negb _ = false |- _ => apply negb_false_iff in H
  | H : (_ =? _) = true |- _ => apply Z.eqb_eq in H
  | H : (_ =? _) = false |- _ => apply Z.eqb_neq in H
  | H : (_ <=? _) = true |- _ => apply Z.leb_le in H
  | H : (_ <=? _) = false |- _ => apply Z.leb_gt in H
  | H : (_ <? _) = true |- _ => apply Z.ltb_lt in H
  | H : (_ <? _) = false |- _ => apply Z.ltb_ge in H
  end.

(** Decide a boolean comparison of the goal by [lia]. *)
Ltac zdecide :=
  repeat match goal with
  | |- context [?a =? ?b] =>
      first [ rewrite (proj2 (Z.eqb_eq a b)) by lia
            | rewrite (proj2 (Z.eqb_neq a b)) by lia ]
  | |- context [?a <=? ?b] =>
      first [ rewrite (proj2 (Z.leb_le a b)) by lia
            | rewrite (proj2 (Z.leb_gt a b)) by lia ]
  | |- context [?a <? ?b] =>
      first [ rewrite (proj2 (Z.ltb_lt a b)) by lia
            | rewrite (proj2 (Z.ltb_ge a b)) by lia ]
  end.

(** [lia] with [/] and [mod] by constants. *)
Ltac dlia := Z.to_euclidean_division_equations; lia.

(** Run the monad one step: unfold [mret], [mbind] and the state accessors. *)
Ltac run := cbn [mret M_ret mbind M_bind gets modify panic diverge].

Lemma bind_ok {S A B} (c : M S A) (k : A -> M S B) s a s' :
  c s = Ok a s' -> (c ≫= k) s = k a s'.
Proof. intros H. unfold mbind, M_bind. now rewrite H. Qed.

(** A loop keeps an invariant that may mention its variable. *)
Lemma for_loop_ok {S} (I : Z -> S -> Prop) n : forall i body s,
  I i s -> (forall k s, i <= k < i + Z.of_nat n -> I k s -> exists s', body k s = Ok tt s' /\ I (k + 1) s') ->
  exists s', for_loop n i body s = Ok tt s' /\ I (i + Z.of_nat n) s'.
Proof.
  induction n as [|n IH]; intros i body s HI Hb.
  - exists s. split; [done|]. now rewrite Z.add_0_r.
  - destruct (Hb i s ltac:(lia) HI) as (s1 & E1 & H1).
    destruct (IH (i + 1) body s1 H1) as (s2 & E2 & H2); [intros k s0 Hk; apply Hb; lia|].
    exists s2. cbn [for_loop]. rewrite (bind_ok _ _ _ _ _ E1). split; [exact E2|].
    now replace (i + Z.of_nat (Datatypes.S n)) with (i + 1 + Z.of_nat n) by lia.
Qed.

Lemma bind_assoc {S A B C} (c : M S A) (k : A -> M S B) (k' : B -> M S C) s :
  ((c ≫= k) ≫= k') s = (c ≫= (fun a => k a ≫= k')) s.
Proof. unfold mbind, M_bind. now destruct (c s). Qed.

(** The state a run ends in; [s] if it does not end. *)
Definition after {S A} (c : M S A) (s : S) : S := match c s with Ok _ s' => s' | _ => s end.

Lemma after_ok {S A} (c : M S A) s a s' : c s = Ok a s' -> after c s = s'.
Proof. intros E. unfold after. now rewrite E. Qed.

Lemma bind_panic {S A B} (c : M S A) (k : A -> M S B) s msg :
  c s = Panic msg -> (c ≫= k) s = Panic msg.
Proof. intros H. unfold mbind, M_bind. now rewrite H. Qed.

Lemma bind_ok_inv {S A B} (c : M S A) (k : A -> M S B) s b s' :
  (c ≫= k) s = Ok b s' -> exists a s1, c s = Ok a s1 /\ k a s1 = Ok b s'.
Proof. unfold mbind, M_bind. destruct (c s); naive_solver. Qed.

(** A loop that returns has kept what its rounds keep. *)
Lemma for_loop_keeps {S} (I : Z -> S -> Prop) body n : forall i s s',
  (forall k s s', i <= k < i + Z.of_nat n -> I k s -> body k s = Ok tt s' -> I (k + 1) s') ->
  I i s -> for_loop n i body s = Ok tt s' -> I (i + Z.of_nat n) s'.
Proof.
  induction n as [|n IH]; intros i s s' Hb HI E.
  - injection E as <-. now rewrite Z.add_0_r.
  - apply bind_ok_inv in E as ([] & s1 & E1 & E2). replace (i + Z.of_nat (Datatypes.S n)) with (i + 1 + Z.of_nat n) by lia.
    apply (IH (i + 1) s1 s'); [intros k s0 s2 Hk; apply Hb; lia| |exact E2]. apply (Hb i s s1); (done || lia).
Qed.

(** ** Integer lemmas *)

Lemma u64_small x : is_u64 x -> u64 x = x.
Proof. apply Z.mod_small. Qed.

Lemma u32_small x : is_u32 x -> u32 x = x.
Proof. apply Z.mod_small. Qed.

Lemma u64_range x : is_u64 (u64 x).
Proof. apply Z.mod_pos_bound; lia. Qed.

Lemma u32_range x : is_u32 (u32 x).
Proof. apply Z.mod_pos_bound; lia. Qed.

Lemma i32_range x : - 2^31 <= i32 x < 2^31.
Proof. unfold i32. pose proof (Z.mod_pos_bound (x + 2^31) (2^32)). lia. Qed.

Lemma i32_small x : - 2^31 <= x < 2^31 -> i32 x = x.
Proof. intros. unfold i32. rewrite Z.mod_small; lia. Qed.

#[export] Hint Resolve u64_range u32_range i32_range : xv6.

(** A mask of low bits is a remainder. *)
Lemma land_low_mod x n : 0 <= n -> Z.land x (2^n - 1) = x mod 2^n.
Proof.
  intros. replace (2^n - 1) with (Z.ones n) by (rewrite Z.ones_equiv; lia).
  now apply Z.land_ones.
Qed.

(** Clearing low bits rounds down to a multiple. *)
Lemma land_clear_low x n :
  0 <= n -> Z.land x (Z.lnot (2^n - 1)) = x - x mod 2^n.
Proof.
  intros Hn. replace (2^n - 1) with (Z.ones n) by (rewrite Z.ones_equiv; lia).
  rewrite <- Z.ldiff_land, Z.ldiff_ones_r by lia.
  rewrite Z.shiftl_mul_pow2, Z.shiftr_div_pow2 by lia.
  pose proof (Z.div_mod x (2^n)). lia.
Qed.

(** ** Sums *)

Fixpoint zsum {A} (f : A -> Z) (l : list A) : Z :=
  match l with
  | [] => 0
  | a :: l' => f a + zsum f l'
  end.

Lemma zsum_app {A} (f : A -> Z) l l' : zsum f (l ++ l') = zsum f l + zsum f l'.
Proof. induction l as [|a l IH]; cbn; lia. Qed.

Lemma zsum_ext {A} (f g : A -> Z) l : (forall a, a ∈ l -> f a = g a) -> zsum f l = zsum g l.
Proof.
  induction l as [|a l IH]; [done|]. intros H. cbn. rewrite (H a (list_elem_of_here _ _)). f_equal. apply IH.
  intros b Hb. apply H. now apply list_elem_of_further.
Qed.

Lemma zsum_le {A} (f g : A -> Z) l : (forall a, a ∈ l -> f a <= g a) -> zsum f l <= zsum g l.
Proof.
  induction l as [|a l IH]; [done|]. intros H. cbn. pose proof (H a (list_elem_of_here _ _)).
  assert (zsum f l <= zsum g l) by (apply IH; intros b Hb; apply H; now apply list_elem_of_further). lia.
Qed.

Lemma zsum_zero {A} l : zsum (fun _ : A => 0) l = 0.
Proof. now induction l. Qed.

Lemma zsum_nonneg {A} (f : A -> Z) l : (forall a, a ∈ l -> 0 <= f a) -> 0 <= zsum f l.
Proof. intros H. rewrite <- (zsum_zero l). now apply zsum_le. Qed.

(** A positive sum of terms has a positive term. *)
Lemma zsum_pos {A} (f : A -> Z) l : 0 < zsum f l -> exists a, a ∈ l /\ 0 < f a.
Proof.
  induction l as [|a l IH]; cbn; [lia|]. intros H. destruct (Z_lt_le_dec 0 (f a)); [exists a; split; [apply list_elem_of_here|done]|].
  destruct IH as (b & Hb & Hf); [lia|]. exists b. split; [now apply list_elem_of_further|done].
Qed.

(** One term of the sum changes: the function at one element of the list, or
    one element of the list. *)
Lemma zsum_change {A} (f g : A -> Z) l a :
  NoDup l -> a ∈ l -> (forall b, b <> a -> f b = g b) -> zsum f l = zsum g l - g a + f a.
Proof.
  intros Hn Ha He. induction Hn as [|b l Hb Hn IH]; [now apply not_elem_of_nil in Ha|]. cbn.
  apply elem_of_cons in Ha as [->|Ha].
  - rewrite (zsum_ext f g l); [lia|]. intros c Hc. apply He. intros ->. done.
  - rewrite IH by done. rewrite (He b); [lia|]. intros ->. done.
Qed.

Lemma zsum_insert {A} (f : A -> Z) (l : list A) : forall k a b,
  l !! k = Some a -> zsum f (<[k := b]> l) = zsum f l - f a + f b.
Proof.
  induction l as [|c l IH]; intros k a b Hk; [done|]. destruct k as [|k]; [injection Hk as ->; cbn; lia|].
  change (<[S k := b]> (c :: l)) with (c :: <[k := b]> l). cbn [zsum]. rewrite (IH k a b Hk). lia.
Qed.
