(* ===== verification/Mem.v ===== *)
(** * Byte-addressed physical memory

    The C abstract machine's memory as the kernel sees it through its direct
    map: a finite map from addresses to bytes, where an address never written
    reads as zero.  [char] is unsigned on RISC-V, so a byte is a [Z] in
    [0, 256).  Words are little endian. *)

From stdpp Require Import base gmap list numbers.
From S2P Require Import Prelude.

Open Scope Z_scope.

Abbreviation memory := (gmap Z Z).

(** The byte a [uchar] pointer [a] reads. *)
Definition rd (m : memory) (a : Z) : Z := u8 (default 0 (m !! a)).

(** The store of [v] through a [char] pointer [a]. *)
Definition wr (m : memory) (a v : Z) : memory := <[a := u8 v]> m.

Fixpoint rd_bytes (m : memory) (a : Z) (n : nat) : list Z :=
  match n with
  | O => []
  | S n' => rd m a :: rd_bytes m (a + 1) n'
  end.

Fixpoint wr_bytes (m : memory) (a : Z) (bs : list Z) : memory :=
  match bs with
  | [] => m
  | b :: bs' => wr_bytes (wr m a b) (a + 1) bs'
  end.

(** Little-endian encoding of [v] in [n] bytes, and its value. *)
Fixpoint le_bytes (n : nat) (v : Z) : list Z :=
  match n with
  | O => []
  | S n' => u8 v :: le_bytes n' (v / 2^8)
  end.

Fixpoint le_val (bs : list Z) : Z :=
  match bs with
  | [] => 0
  | b :: bs' => b + 2^8 * le_val bs'
  end.

Definition load64 (m : memory) (a : Z) : Z := le_val (rd_bytes m a 8).
Definition store64 (m : memory) (a v : Z) : memory := wr_bytes m a (le_bytes 8 v).
Definition load32 (m : memory) (a : Z) : Z := le_val (rd_bytes m a 4).
Definition store32 (m : memory) (a v : Z) : memory := wr_bytes m a (le_bytes 4 v).
Definition load16 (m : memory) (a : Z) : Z := le_val (rd_bytes m a 2).
Definition store16 (m : memory) (a v : Z) : memory := wr_bytes m a (le_bytes 2 v).

#[global] Arguments rd : simpl never.
#[global] Arguments wr : simpl never.
#[global] Arguments load64 : simpl never.
#[global] Arguments store64 : simpl never.
#[global] Arguments load32 : simpl never.
#[global] Arguments store32 : simpl never.
#[global] Arguments load16 : simpl never.
#[global] Arguments store16 : simpl never.

(** [m] and [m'] agree on the [n] bytes from [a]. *)
Definition same_bytes (m m' : memory) (a n : Z) : Prop :=
  forall x, a <= x < a + n -> rd m' x = rd m x.

(** [m'] differs from [m] at most on the [n] bytes from [a]. *)
Definition frame_bytes (m m' : memory) (a n : Z) : Prop :=
  forall x, x < a \/ a + n <= x -> rd m' x = rd m x.

(** ** Bytes *)

Lemma u8_range x : 0 <= u8 x < 256.
Proof. apply Z.mod_pos_bound; lia. Qed.

Lemma u8_small x : 0 <= x < 256 -> u8 x = x.
Proof. apply Z.mod_small. Qed.

Lemma u8_idem x : u8 (u8 x) = u8 x.
Proof. apply u8_small, u8_range. Qed.

Lemma rd_range m a : 0 <= rd m a < 256.
Proof. apply u8_range. Qed.

#[export] Hint Resolve u8_range rd_range : xv6.

Lemma rd_unwritten m a : m !! a = None -> rd m a = 0.
Proof. intros E. unfold rd. now rewrite E. Qed.

Lemma rd_wr m a v x : rd (wr m a v) x = if x =? a then u8 v else rd m x.
Proof.
  unfold rd, wr. destruct (Z.eqb_spec x a) as [->|Hne].
  - rewrite lookup_insert_eq. cbn. apply u8_idem.
  - now rewrite lookup_insert_ne by congruence.
Qed.

Lemma rd_wr_eq m a v : rd (wr m a v) a = u8 v.
Proof. now rewrite rd_wr, Z.eqb_refl. Qed.

Lemma rd_wr_ne m a v x : x <> a -> rd (wr m a v) x = rd m x.
Proof. intros. rewrite rd_wr. now zdecide. Qed.

Lemma length_rd_bytes m a n : length (rd_bytes m a n) = n.
Proof. revert a; induction n; intros; cbn; auto. Qed.

Lemma length_le_bytes n v : length (le_bytes n v) = n.
Proof. revert v; induction n; intros; cbn; auto. Qed.

Lemma rd_bytes_ext m m' a n :
  same_bytes m m' a (Z.of_nat n) -> rd_bytes m' a n = rd_bytes m a n.
Proof.
  revert a; induction n as [|n IH]; intros a H; [done|]. cbn.
  rewrite (H a) by lia. f_equal. apply IH. intros x Hx. apply H. lia.
Qed.

Lemma lookup_rd_bytes m a n i :
  (i < n)%nat -> rd_bytes m a n !! i = Some (rd m (a + Z.of_nat i)).
Proof.
  revert a i; induction n as [|n IH]; intros a i Hi; [lia|].
  destruct i as [|i]; cbn.
  - do 2 f_equal. lia.
  - rewrite IH by lia. do 2 f_equal. lia.
Qed.

Lemma rd_wr_bytes_out bs m a x :
  x < a \/ a + Z.of_nat (length bs) <= x -> rd (wr_bytes m a bs) x = rd m x.
Proof.
  revert m a; induction bs as [|b bs IH]; intros m a H; cbn in *; [done|].
  rewrite IH by lia. apply rd_wr_ne. lia.
Qed.

Lemma wr_bytes_app bs bs' m a : wr_bytes m a (bs ++ bs') = wr_bytes (wr_bytes m a bs) (a + Z.of_nat (length bs)) bs'.
Proof.
  revert m a; induction bs as [|b bs IH]; intros m a; cbn [wr_bytes app length]; [now rewrite Z.add_0_r|].
  rewrite IH. f_equal. lia.
Qed.

Lemma rd_bytes_wr_bytes bs m a :
  rd_bytes (wr_bytes m a bs) a (length bs) = u8 <$> bs.
Proof.
  revert m a; induction bs as [|b bs IH]; intros m a; cbn; [done|].
  rewrite IH. f_equal. rewrite rd_wr_bytes_out by lia. apply rd_wr_eq.
Qed.

Lemma rd_wr_bytes_in bs m a i b :
  bs !! i = Some b -> rd (wr_bytes m a bs) (a + Z.of_nat i) = u8 b.
Proof.
  intros Hi. pose proof (lookup_lt_Some _ _ _ Hi) as Hlt.
  pose proof (lookup_rd_bytes (wr_bytes m a bs) a _ _ Hlt) as H.
  rewrite rd_bytes_wr_bytes, list_lookup_fmap, Hi in H. cbn in H. congruence.
Qed.

(** ** Little-endian words *)

Lemma le_bytes_u8 n v : u8 <$> le_bytes n v = le_bytes n v.
Proof.
  revert v; induction n as [|n IH]; intros; [done|].
  cbn. now rewrite u8_idem, IH.
Qed.

Lemma le_val_bytes n v : le_val (le_bytes n v) = v mod 2^(8 * Z.of_nat n).
Proof.
  revert v; induction n as [|n IH]; intros v.
  - cbn. now rewrite Z.mod_1_r.
  - cbn [le_bytes le_val]. rewrite IH. unfold u8.
    replace (8 * Z.of_nat (S n)) with (8 + 8 * Z.of_nat n) by lia.
    rewrite Z.pow_add_r by lia. rewrite (Z.rem_mul_r v (2^8)) by lia. lia.
Qed.

Lemma le_val_range bs :
  Forall (fun b => 0 <= b < 256) bs -> 0 <= le_val bs < 2^(8 * Z.of_nat (length bs)).
Proof.
  induction 1 as [|b bs Hb Hbs IH]; [cbn; lia|].
  cbn [le_val length]. replace (8 * Z.of_nat (S (length bs)))
    with (8 + 8 * Z.of_nat (length bs)) by lia.
  rewrite Z.pow_add_r by lia. change (2^8) with 256. lia.
Qed.

Lemma le_bytes_val bs :
  Forall (fun b => 0 <= b < 256) bs -> le_bytes (length bs) (le_val bs) = bs.
Proof.
  induction 1 as [|b bs Hb Hbs IH]; [done|].
  cbn [le_val length le_bytes]. unfold u8. change (2^8) with 256.
  rewrite (Z.mul_comm 256), Z.mod_add, Z.mod_small by lia.
  rewrite Z.div_add, Z.div_small by lia. now rewrite Z.add_0_l, IH.
Qed.

Lemma rd_bytes_range m a n : Forall (fun b => 0 <= b < 256) (rd_bytes m a n).
Proof. revert a; induction n; intros; cbn; constructor; auto with xv6. Qed.

Lemma load64_range m a : is_u64 (load64 m a).
Proof.
  pose proof (le_val_range _ (rd_bytes_range m a 8)) as H.
  now rewrite length_rd_bytes in H.
Qed.

#[export] Hint Resolve load64_range : xv6.

Lemma load64_ext m m' a : same_bytes m m' a 8 -> load64 m' a = load64 m a.
Proof. intros H. unfold load64. f_equal. now apply rd_bytes_ext. Qed.

Lemma load64_store64_eq m a v : load64 (store64 m a v) a = u64 v.
Proof.
  unfold load64, store64. change 8%nat with (length (le_bytes 8 v)) at 1.
  rewrite rd_bytes_wr_bytes, le_bytes_u8, le_val_bytes. done.
Qed.

Lemma rd_store64_out m a v x :
  x < a \/ a + 8 <= x -> rd (store64 m a v) x = rd m x.
Proof. intros. apply rd_wr_bytes_out. rewrite length_le_bytes. lia. Qed.

Lemma load64_store64_ne m a b v :
  a + 8 <= b \/ b + 8 <= a -> load64 (store64 m a v) b = load64 m b.
Proof. intros. apply load64_ext. intros x Hx. apply rd_store64_out. lia. Qed.

Lemma load64_zero m a :
  (forall x, a <= x < a + 8 -> rd m x = 0) -> load64 m a = 0.
Proof. intros H. unfold load64. cbn [rd_bytes le_val]. rewrite !H by lia. done. Qed.

Lemma same_bytes_sub m m' a n b k :
  same_bytes m m' a n -> a <= b -> b + k <= a + n -> same_bytes m m' b k.
Proof. intros H ? ? x ?. apply H. lia. Qed.

Lemma same_bytes_trans m1 m2 m3 a n :
  same_bytes m1 m2 a n -> same_bytes m2 m3 a n -> same_bytes m1 m3 a n.
Proof. intros H1 H2 x ?. rewrite H2, H1; auto. Qed.

Lemma frame_same m m' a n b k :
  frame_bytes m m' a n -> b + k <= a \/ a + n <= b -> same_bytes m m' b k.
Proof. intros H ? x ?. apply H. lia. Qed.

#[global] Opaque rd wr load64 store64 load32 store32.
