(* ===== verification/Trapframe.v ===== *)
(** * kernel/proc.h: the trapframe

    The page where trampoline.S saves the registers of a process: 36 words in
    memory, one for each field. *)

From stdpp Require Import base numbers list.
From S2P Require Import Prelude Mem.

Open Scope Z_scope.

Inductive tf_field :=
  | tf_kernel_satp | tf_kernel_sp | tf_kernel_trap | tf_epc | tf_kernel_hartid | tf_ra
  | tf_sp | tf_gp | tf_tp | tf_t0 | tf_t1 | tf_t2
  | tf_s0 | tf_s1 | tf_a0 | tf_a1 | tf_a2 | tf_a3
  | tf_a4 | tf_a5 | tf_a6 | tf_a7 | tf_s2 | tf_s3
  | tf_s4 | tf_s5 | tf_s6 | tf_s7 | tf_s8 | tf_s9
  | tf_s10 | tf_s11 | tf_t3 | tf_t4 | tf_t5 | tf_t6.

#[export] Instance tf_field_eq_dec : EqDecision tf_field.
Proof. solve_decision. Defined.

(** The fields in the order of the structure. *)
Definition tf_fields : list tf_field :=
  [tf_kernel_satp; tf_kernel_sp; tf_kernel_trap; tf_epc; tf_kernel_hartid; tf_ra;
   tf_sp; tf_gp; tf_tp; tf_t0; tf_t1; tf_t2;
   tf_s0; tf_s1; tf_a0; tf_a1; tf_a2; tf_a3;
   tf_a4; tf_a5; tf_a6; tf_a7; tf_s2; tf_s3;
   tf_s4; tf_s5; tf_s6; tf_s7; tf_s8; tf_s9;
   tf_s10; tf_s11; tf_t3; tf_t4; tf_t5; tf_t6].

Fixpoint tf_index (f : tf_field) (l : list tf_field) : Z :=
  match l with
  | [] => 0
  | g :: l' => if decide (f = g) then 0 else 1 + tf_index f l'
  end.

Definition tf_off (f : tf_field) : Z := 8 * tf_index f tf_fields.

Definition TF_SIZE : Z := 8 * Z.of_nat (length tf_fields).

Definition tf_get (m : memory) (tf : Z) (f : tf_field) : Z := load64 m (tf + tf_off f).
Definition tf_set (m : memory) (tf : Z) (f : tf_field) (v : Z) : memory := store64 m (tf + tf_off f) v.

Lemma tf_off_range f : 0 <= tf_off f /\ tf_off f + 8 <= TF_SIZE.
Proof. destruct f; vm_compute; split; discriminate. Qed.

(** The offsets that the comments of the structure give. *)
Lemma tf_offsets : map tf_off tf_fields = map (fun k => 8 * Z.of_nat k) (seq 0 36).
Proof. vm_compute. reflexivity. Qed.

Lemma tf_off_inj f g : f <> g -> tf_off f + 8 <= tf_off g \/ tf_off g + 8 <= tf_off f.
Proof. destruct f, g; try done; intros _; vm_compute; (left; discriminate) || (right; discriminate). Qed.

Lemma tf_get_set m tf f v : tf_get (tf_set m tf f v) tf f = u64 v.
Proof. apply load64_store64_eq. Qed.

Lemma tf_get_set_ne m tf f g v : f <> g -> tf_get (tf_set m tf f v) tf g = tf_get m tf g.
Proof. intros Hf. apply load64_store64_ne. destruct (tf_off_inj f g Hf); lia. Qed.

Lemma rd_tf_set m tf f v x : x < tf \/ tf + TF_SIZE <= x -> rd (tf_set m tf f v) x = rd m x.
Proof. intros Hx. apply rd_store64_out. destruct (tf_off_range f). lia. Qed.
