(* ===== verification/Block.v ===== *)
(** * Fields of a byte array

    A disk block or a structure on disk is a list of bytes; the C code reads
    and writes its integer fields through casts of a pointer into it.  Here
    are those reads and writes, with the laws of arrays. *)

From stdpp Require Import base numbers list.
From Stdlib Require Import ZifyBool.
From S2P Require Import Prelude Mem.

Open Scope Z_scope.

(** The [n] bytes of [d] from offset [i], and [d] with [bs] at offset [i]. *)
Definition slice (i n : Z) (d : list Z) : list Z := take (Z.to_nat n) (drop (Z.to_nat i) d).
Definition splice (i : Z) (bs d : list Z) : list Z :=
  take (Z.to_nat i) d ++ bs ++ drop (Z.to_nat i + length bs) d.

(** Little-endian fields. *)
Definition get16 (off : Z) (d : list Z) : Z := le_val (slice off 2 d).
Definition put16 (off v : Z) (d : list Z) : list Z := splice off (le_bytes 2 v) d.
Definition get32 (off : Z) (d : list Z) : Z := le_val (slice off 4 d).
Definition put32 (off v : Z) (d : list Z) : list Z := splice off (le_bytes 4 v) d.

(** A byte. *)
Definition get8 (off : Z) (d : list Z) : Z := default 0 (d !! Z.to_nat off).
Definition put8 (off v : Z) (d : list Z) : list Z := <[Z.to_nat off := u8 v]> d.

Lemma length_splice i bs d :
  0 <= i -> i + Z.of_nat (length bs) <= Z.of_nat (length d) -> length (splice i bs d) = length d.
Proof. intros. unfold splice. rewrite !length_app, length_take, length_drop. lia. Qed.

Lemma lookup_splice i bs d k :
  0 <= i -> i + Z.of_nat (length bs) <= Z.of_nat (length d) ->
  splice i bs d !! k =
  if decide (Z.to_nat i <= k < Z.to_nat i + length bs)%nat then bs !! (k - Z.to_nat i)%nat else d !! k.
Proof.
  intros Hi Hl. unfold splice. rewrite lookup_app. destruct (decide (k < Z.to_nat i)%nat) as [Hk|Hk].
  - rewrite lookup_take_lt by done. rewrite decide_False by lia.
    destruct (d !! k) eqn:E; [done|]. apply lookup_ge_None in E. lia.
  - rewrite lookup_take_ge by lia. rewrite lookup_app, length_take.
    replace (Z.to_nat i `min` length d)%nat with (Z.to_nat i) by lia.
    destruct (decide (k < Z.to_nat i + length bs)%nat) as [Hk'|Hk'].
    + rewrite decide_True by lia. destruct (bs !! (k - Z.to_nat i)%nat) eqn:E; [done|].
      apply lookup_ge_None in E. lia.
    + rewrite decide_False by lia. rewrite (proj2 (lookup_ge_None bs _)) by lia.
      rewrite lookup_drop. f_equal. lia.
Qed.

Lemma lookup_slice i n d k :
  0 <= i -> slice i n d !! k = if decide (k < Z.to_nat n)%nat then d !! (Z.to_nat i + k)%nat else None.
Proof.
  intros. unfold slice. destruct (decide (k < Z.to_nat n)%nat).
  - rewrite lookup_take_lt by done. apply lookup_drop.
  - now rewrite lookup_take_ge by lia.
Qed.

Lemma slice_splice i bs d :
  0 <= i -> i + Z.of_nat (length bs) <= Z.of_nat (length d) ->
  slice i (Z.of_nat (length bs)) (splice i bs d) = bs.
Proof.
  intros Hi Hl. apply list_eq. intros k. rewrite lookup_slice, lookup_splice by done.
  destruct (decide (k < Z.to_nat (Z.of_nat (length bs)))%nat).
  - rewrite decide_True by lia. f_equal. lia.
  - symmetry. apply lookup_ge_None. lia.
Qed.

Lemma slice_splice_other i n j bs d :
  0 <= i -> 0 <= n -> 0 <= j -> j + Z.of_nat (length bs) <= Z.of_nat (length d) ->
  i + n <= j \/ j + Z.of_nat (length bs) <= i ->
  slice i n (splice j bs d) = slice i n d.
Proof.
  intros Hi Hn Hj Hl Hdis. apply list_eq. intros k. rewrite !lookup_slice, lookup_splice by done.
  destruct (decide (k < Z.to_nat n)%nat); [|done]. now rewrite decide_False by lia.
Qed.

Lemma length_slice i n d :
  0 <= i -> 0 <= n -> i + n <= Z.of_nat (length d) -> Z.of_nat (length (slice i n d)) = n.
Proof. intros. unfold slice. rewrite length_take, length_drop. lia. Qed.

Section fields.
Context (off : Z) (d : list Z) (Hoff : 0 <= off).

Lemma get32_put32 v : off + 4 <= Z.of_nat (length d) -> get32 off (put32 off v d) = u32 v.
Proof.
  intros H. unfold get32, put32. pose proof (slice_splice off (le_bytes 4 v) d Hoff) as E.
  rewrite length_le_bytes in E. change (Z.of_nat 4) with 4 in E. rewrite E by done.
  apply le_val_bytes.
Qed.

Lemma get16_put16 v : off + 2 <= Z.of_nat (length d) -> get16 off (put16 off v d) = u16 v.
Proof.
  intros H. unfold get16, put16. pose proof (slice_splice off (le_bytes 2 v) d Hoff) as E.
  rewrite length_le_bytes in E. change (Z.of_nat 2) with 2 in E. rewrite E by done.
  apply le_val_bytes.
Qed.

Lemma length_put32 v : off + 4 <= Z.of_nat (length d) -> length (put32 off v d) = length d.
Proof. intros. apply length_splice; [done|]. rewrite length_le_bytes. lia. Qed.

Lemma length_put16 v : off + 2 <= Z.of_nat (length d) -> length (put16 off v d) = length d.
Proof. intros. apply length_splice; [done|]. rewrite length_le_bytes. lia. Qed.

Lemma slice_put32 i n v :
  0 <= i -> 0 <= n -> off + 4 <= Z.of_nat (length d) -> i + n <= off \/ off + 4 <= i ->
  slice i n (put32 off v d) = slice i n d.
Proof. intros. apply slice_splice_other; rewrite ?length_le_bytes; lia. Qed.

Lemma slice_put16 i n v :
  0 <= i -> 0 <= n -> off + 2 <= Z.of_nat (length d) -> i + n <= off \/ off + 2 <= i ->
  slice i n (put16 off v d) = slice i n d.
Proof. intros. apply slice_splice_other; rewrite ?length_le_bytes; lia. Qed.
End fields.

Lemma get32_ne off off' v d :
  0 <= off -> 0 <= off' -> off' + 4 <= Z.of_nat (length d) -> off + 4 <= off' \/ off' + 4 <= off ->
  get32 off (put32 off' v d) = get32 off d.
Proof. intros. unfold get32. now rewrite slice_put32 by lia. Qed.
