(* ===== verification/StringC.v ===== *)
(** * kernel/string.c

    The kernel's memory and string routines, over the memory of [Mem].  The
    copying routines also return their first argument in C; the model returns
    the memory they leave.  Each loop is the source's loop, byte by byte; the
    theorems give the effect on the whole range, for overlapping ranges too. *)

From stdpp Require Import base gmap list numbers.
From S2P Require Import Prelude Mem.

Open Scope Z_scope.

(** ** Definitions *)

Fixpoint memset_loop (m : memory) (cdst c i : Z) (n : nat) : memory :=
  match n with
  | O => m
  | S n' => memset_loop (wr m (cdst + i) c) cdst c (i + 1) n'
  end.

Definition memset (m : memory) (dst c n : Z) : memory :=
  memset_loop m dst c 0 (Z.to_nat n).

Fixpoint memcmp_loop (m : memory) (s1 s2 : Z) (n : nat) : Z :=
  match n with
  | O => 0
  | S n' =>
      if negb (rd m s1 =? rd m s2) then rd m s1 - rd m s2
      else memcmp_loop m (s1 + 1) (s2 + 1) n'
  end.

Definition memcmp (m : memory) (v1 v2 n : Z) : Z :=
  memcmp_loop m v1 v2 (Z.to_nat n).

(** [while(n-- > 0) *--d = *--s;] *)
Fixpoint copy_backward (m : memory) (d s : Z) (n : nat) : memory :=
  match n with
  | O => m
  | S n' => copy_backward (wr m (d - 1) (rd m (s - 1))) (d - 1) (s - 1) n'
  end.

(** [while(n-- > 0) *d++ = *s++;] *)
Fixpoint copy_forward (m : memory) (d s : Z) (n : nat) : memory :=
  match n with
  | O => m
  | S n' => copy_forward (wr m d (rd m s)) (d + 1) (s + 1) n'
  end.

Definition memmove (m : memory) (dst src n : Z) : memory :=
  if n =? 0 then m
  else if (src <? dst) && (dst <? src + n)
  then copy_backward m (dst + n) (src + n) (Z.to_nat n)
  else copy_forward m dst src (Z.to_nat n).

Definition memcpy (m : memory) (dst src n : Z) : memory := memmove m dst src n.

Fixpoint strncmp_loop (m : memory) (p q : Z) (n : nat) : Z :=
  match n with
  | O => 0
  | S n' =>
      if truthy (rd m p) && (rd m p =? rd m q)
      then strncmp_loop m (p + 1) (q + 1) n'
      else rd m p - rd m q
  end.

Definition strncmp (m : memory) (p q n : Z) : Z :=
  strncmp_loop m p q (Z.to_nat n).

(** [while(n-- > 0) *s++ = 0;] *)
Fixpoint strncpy_pad (m : memory) (s : Z) (n : nat) : memory :=
  match n with
  | O => m
  | S n' => strncpy_pad (wr m s 0) (s + 1) n'
  end.

Fixpoint strncpy_loop (m : memory) (s t : Z) (n : nat) : memory :=
  match n with
  | O => m
  | S n' =>
      let c := rd m t in
      let m' := wr m s c in
      if negb (c =? 0) then strncpy_loop m' (s + 1) (t + 1) n'
      else strncpy_pad m' (s + 1) n'
  end.

Definition strncpy (m : memory) (s t n : Z) : memory :=
  strncpy_loop m s t (Z.to_nat n).

(** The [n] of this loop is the source's after its [--n]: the copies left. *)
Fixpoint safestrcpy_loop (m : memory) (s t : Z) (n : nat) : memory :=
  match n with
  | O => wr m s 0
  | S n' =>
      let c := rd m t in
      let m' := wr m s c in
      if negb (c =? 0) then safestrcpy_loop m' (s + 1) (t + 1) n'
      else wr m' (s + 1) 0
  end.

Definition safestrcpy (m : memory) (s t n : Z) : memory :=
  if n <=? 0 then m else safestrcpy_loop m s t (Z.to_nat (n - 1)).

Fixpoint strlen_loop (fuel : nat) (m : memory) (s n : Z) : Z :=
  match fuel with
  | O => n
  | S fuel' => if truthy (rd m (s + n)) then strlen_loop fuel' m s (n + 1) else n
  end.

(** A string of non-NUL bytes lies inside the written part of memory, so
    its length is at most the number of written bytes: the fuel is enough. *)
Definition strlen (m : memory) (s : Z) : Z := strlen_loop (S (size m)) m s 0.

(** The C string at [p], without its NUL, cut at [n] bytes. *)
Fixpoint cstrn (m : memory) (p : Z) (n : nat) : list Z :=
  match n with
  | O => []
  | S n' => if rd m p =? 0 then [] else rd m p :: cstrn m (p + 1) n'
  end.

#[global] Arguments memset : simpl never.
#[global] Arguments memmove : simpl never.

(** ** memset *)

Lemma rd_memset_loop n m d c i x :
  rd (memset_loop m d c i n) x =
  if (d + i <=? x) && (x <? d + i + Z.of_nat n) then u8 c else rd m x.
Proof.
  revert m i; induction n as [|n IH]; intros m i; cbn [memset_loop].
  - destruct (Z.leb_spec (d + i) x), (Z.ltb_spec x (d + i + Z.of_nat 0)); cbn; lia || done.
  - rewrite IH, rd_wr. destruct (Z.eqb_spec x (d + i)).
    + destruct (Z.leb_spec (d + (i + 1)) x); [lia|]. cbn. now zdecide.
    + destruct (Z.leb_spec (d + (i + 1)) x), (Z.leb_spec (d + i) x);
        cbn; try lia; try done.
      destruct (Z.ltb_spec x (d + (i + 1) + Z.of_nat n)); now zdecide.
Qed.

Lemma rd_memset m d c n x :
  0 <= n ->
  rd (memset m d c n) x = if (d <=? x) && (x <? d + n) then u8 c else rd m x.
Proof.
  intros. unfold memset. rewrite rd_memset_loop, Z2Nat.id by lia.
  now rewrite Z.add_0_r.
Qed.

Lemma memset_frame m d c n : 0 <= n -> frame_bytes m (memset m d c n) d n.
Proof.
  intros ? x Hx. rewrite rd_memset by lia.
  destruct (Z.leb_spec d x), (Z.ltb_spec x (d + n)); cbn; lia || done.
Qed.

Lemma memset_in m d c n x : 0 <= n -> d <= x < d + n -> rd (memset m d c n) x = u8 c.
Proof. intros. rewrite rd_memset by lia. now zdecide. Qed.

(** ** memmove *)

Lemma rd_copy_forward n m d s x :
  d <= s \/ s + Z.of_nat n <= d ->
  rd (copy_forward m d s n) x =
  if (d <=? x) && (x <? d + Z.of_nat n) then rd m (s + (x - d)) else rd m x.
Proof.
  revert m d s; induction n as [|n IH]; intros m d s H; cbn [copy_forward].
  - destruct (Z.leb_spec d x), (Z.ltb_spec x (d + Z.of_nat 0)); cbn; lia || done.
  - rewrite IH by lia. rewrite !rd_wr, u8_small by apply rd_range.
    destruct (Z.eqb_spec x d) as [->|]; [|destruct (Z.leb_spec d x)].
    + destruct (Z.leb_spec (d + 1) d); [lia|]. cbn. zdecide. cbn.
      f_equal. lia.
    + destruct (Z.leb_spec (d + 1) x); [|lia]. cbn.
      destruct (Z.ltb_spec x (d + 1 + Z.of_nat n)); zdecide; [|done].
      f_equal. lia.
    + destruct (Z.leb_spec (d + 1) x); [lia|]. done.
Qed.

Lemma rd_copy_backward n m d s x :
  s <= d ->
  rd (copy_backward m d s n) x =
  if (d - Z.of_nat n <=? x) && (x <? d) then rd m (s + (x - d)) else rd m x.
Proof.
  revert m d s; induction n as [|n IH]; intros m d s H; cbn [copy_backward].
  - destruct (Z.leb_spec (d - Z.of_nat 0) x), (Z.ltb_spec x d); cbn; lia || done.
  - rewrite IH by lia. rewrite !rd_wr, u8_small by apply rd_range.
    destruct (Z.eqb_spec x (d - 1)) as [->|]; [|destruct (Z.ltb_spec x d)].
    + destruct (Z.ltb_spec (d - 1) (d - 1)); [lia|].
      rewrite andb_false_r. zdecide. cbn. f_equal. lia.
    + destruct (Z.ltb_spec x (d - 1)); [|lia]. rewrite !andb_true_r.
      destruct (Z.leb_spec (d - 1 - Z.of_nat n) x); zdecide; [|done].
      f_equal. lia.
    + destruct (Z.ltb_spec x (d - 1)); [lia|]. rewrite !andb_false_r. done.
Qed.

(** The destination holds what the source held before the call, whether or
    not the ranges overlap; every other byte is untouched. *)
Theorem rd_memmove m dst src n x :
  0 <= n ->
  rd (memmove m dst src n) x =
  if (dst <=? x) && (x <? dst + n) then rd m (src + (x - dst)) else rd m x.
Proof.
  intros Hn. unfold memmove. destruct (Z.eqb_spec n 0) as [->|].
  { destruct (Z.leb_spec dst x), (Z.ltb_spec x (dst + 0)); cbn; lia || done. }
  destruct (Z.ltb_spec src dst), (Z.ltb_spec dst (src + n)); cbn [andb].
  1: rewrite rd_copy_backward, Z2Nat.id by lia;
     replace (dst + n - n) with dst by lia;
     destruct (_ && _); [f_equal; lia | done].
  all: rewrite rd_copy_forward, Z2Nat.id by (try rewrite Z2Nat.id; lia); done.
Qed.

Lemma memmove_frame m d s n : 0 <= n -> frame_bytes m (memmove m d s n) d n.
Proof.
  intros ? x Hx. rewrite rd_memmove by lia.
  destruct (Z.leb_spec d x), (Z.ltb_spec x (d + n)); cbn; lia || done.
Qed.

Lemma memmove_in m d s n i :
  0 <= i < n -> rd (memmove m d s n) (d + i) = rd m (s + i).
Proof. intros. rewrite rd_memmove by lia. zdecide. cbn. f_equal. lia. Qed.

(** ** memcmp *)

Lemma memcmp_eq0 m v1 v2 n :
  0 <= n ->
  memcmp m v1 v2 n = 0 <-> forall i, 0 <= i < n -> rd m (v1 + i) = rd m (v2 + i).
Proof.
  intros Hn. unfold memcmp.
  replace (forall i, 0 <= i < n -> rd m (v1 + i) = rd m (v2 + i)) with
    (forall i, 0 <= i < Z.of_nat (Z.to_nat n) -> rd m (v1 + i) = rd m (v2 + i))
    by (rewrite Z2Nat.id by lia; done).
  generalize (Z.to_nat n) as k. clear n Hn. intros k. revert v1 v2.
  induction k as [|k IH]; intros v1 v2; cbn [memcmp_loop].
  { split; [lia|done]. }
  destruct (Z.eqb_spec (rd m v1) (rd m v2)) as [E|E]; cbn [negb].
  - rewrite IH. split; intros H i Hi.
    + destruct (Z.eq_dec i 0) as [->|]; [now rewrite !Z.add_0_r|].
      specialize (H (i - 1)). rewrite <- !Z.add_assoc in H.
      replace (1 + (i - 1)) with i in H by lia. apply H. lia.
    + rewrite <- !Z.add_assoc. apply H. lia.
  - split; intros H; [lia|]. exfalso. apply E.
    specialize (H 0). rewrite !Z.add_0_r in H. apply H. lia.
Qed.

(** ** strncmp, strncpy, safestrcpy, strlen *)

Lemma strncmp_loop_eq0 n m p q :
  strncmp_loop m p q n = 0 <-> cstrn m p n = cstrn m q n.
Proof.
  revert p q; induction n as [|n IH]; intros p q; cbn [strncmp_loop cstrn]; [done|].
  unfold truthy.
  destruct (Z.eqb_spec (rd m p) 0), (Z.eqb_spec (rd m p) (rd m q)),
    (Z.eqb_spec (rd m q) 0); cbn; try (split; [lia|congruence]); try (split; [done|lia]).
  - rewrite IH. split; congruence.
Qed.

(** [strncmp] (hence [namecmp]) returns 0 exactly when the two strings agree
    up to their NUL or the first [n] bytes. *)
Lemma strncmp_eq0 m p q n :
  strncmp m p q n = 0 <-> cstrn m p (Z.to_nat n) = cstrn m q (Z.to_nat n).
Proof. apply strncmp_loop_eq0. Qed.

Lemma cstrn_length n m p : (length (cstrn m p n) <= n)%nat.
Proof. revert p; induction n; intros; cbn; [lia|]. case_goal; cbn; [lia|]. specialize (IHn (p+1)). lia. Qed.

Lemma cstrn_frame n m m' p :
  same_bytes m m' p (Z.of_nat n) -> cstrn m' p n = cstrn m p n.
Proof.
  revert p; induction n as [|n IH]; intros p H; [done|]. cbn.
  rewrite (H p) by lia. case_goal; [done|]. f_equal. apply IH.
  intros x Hx. apply H. lia.
Qed.

Lemma rd_strncpy_pad n m s x :
  rd (strncpy_pad m s n) x =
  if (s <=? x) && (x <? s + Z.of_nat n) then 0 else rd m x.
Proof.
  revert m s; induction n as [|n IH]; intros m s; cbn [strncpy_pad].
  - destruct (Z.leb_spec s x), (Z.ltb_spec x (s + Z.of_nat 0)); cbn; lia || done.
  - rewrite IH, rd_wr. change (u8 0) with 0.
    destruct (Z.eqb_spec x s), (Z.leb_spec (s + 1) x), (Z.leb_spec s x),
      (Z.ltb_spec x (s + 1 + Z.of_nat n)), (Z.ltb_spec x (s + Z.of_nat (S n)));
      cbn; lia || done.
Qed.

Lemma strncpy_loop_bytes n m s t :
  s + Z.of_nat n <= t \/ t + Z.of_nat n <= s ->
  rd_bytes (strncpy_loop m s t n) s n =
    cstrn m t n ++ replicate (n - length (cstrn m t n)) 0 /\
  frame_bytes m (strncpy_loop m s t n) s (Z.of_nat n).
Proof.
  revert m s t; induction n as [|n IH]; intros m s t Hd; [done|].
  cbn [strncpy_loop rd_bytes cstrn].
  destruct (Z.eqb_spec (rd m t) 0) as [E|E]; cbn [negb].
  - rewrite E. split.
    + cbn [length app replicate Nat.sub].
      rewrite rd_strncpy_pad, rd_wr_eq. change (u8 0) with 0.
      replace (if _ && _ then 0 else 0) with 0 by (destruct (_ && _); done).
      f_equal. apply list_eq_same_length with n; rewrite ?length_rd_bytes, ?length_replicate; try lia.
      intros i x y Hi Hx Hy.
      rewrite lookup_rd_bytes in Hx by lia. apply lookup_replicate in Hy as [-> _].
      rewrite rd_strncpy_pad in Hx.
      rewrite (proj2 (Z.leb_le (s + 1) (s + 1 + Z.of_nat i))) in Hx by lia.
      rewrite (proj2 (Z.ltb_lt (s + 1 + Z.of_nat i) (s + 1 + Z.of_nat n))) in Hx by lia.
      cbn in Hx. congruence.
    + intros x Hx. rewrite rd_strncpy_pad.
      destruct (Z.leb_spec (s + 1) x), (Z.ltb_spec x (s + 1 + Z.of_nat n)); cbn;
        try lia; apply rd_wr_ne; lia.
  - assert (same_bytes m (wr m s (rd m t)) (t + 1) (Z.of_nat n)) as Hs.
    { intros x Hx. apply rd_wr_ne. lia. }
    destruct (IH (wr m s (rd m t)) (s + 1) (t + 1)) as [H1 H2]; [lia|].
    rewrite (cstrn_frame _ _ _ _ Hs) in H1. split.
    + rewrite H2 by lia. rewrite rd_wr_eq, u8_small by apply rd_range.
      cbn [app length]. rewrite H1. done.
    + intros x Hx. rewrite H2 by lia. apply rd_wr_ne. lia.
Qed.

(** [strncpy] of non-overlapping strings writes exactly [n] bytes: the source
    string and then NULs. *)
Lemma strncpy_bytes m s t n :
  0 <= n -> s + n <= t \/ t + n <= s ->
  rd_bytes (strncpy m s t n) s (Z.to_nat n) =
    cstrn m t (Z.to_nat n) ++ replicate (Z.to_nat n - length (cstrn m t (Z.to_nat n))) 0 /\
  frame_bytes m (strncpy m s t n) s n.
Proof.
  intros Hn Hd. unfold strncpy.
  destruct (strncpy_loop_bytes (Z.to_nat n) m s t) as [H1 H2];
    rewrite Z2Nat.id in *; auto; lia.
Qed.

Lemma cstrn_wr_out n m p a v :
  a < p \/ p + Z.of_nat n <= a -> cstrn (wr m a v) p n = cstrn m p n.
Proof. intros. apply cstrn_frame. intros x Hx. apply rd_wr_ne. lia. Qed.

Lemma safestrcpy_loop_spec n m s t :
  s + Z.of_nat n < t \/ t + Z.of_nat n <= s ->
  cstrn (safestrcpy_loop m s t n) s (S n) = cstrn m t n /\
  frame_bytes m (safestrcpy_loop m s t n) s (Z.of_nat n + 1).
Proof.
  revert m s t; induction n as [|n IH]; intros m s t Hd; cbn [safestrcpy_loop].
  - split.
    + cbn [cstrn]. now rewrite rd_wr_eq.
    + intros x Hx. apply rd_wr_ne. lia.
  - destruct (Z.eqb_spec (rd m t) 0) as [E|E]; cbn [negb].
    + split.
      * cbn [cstrn]. rewrite E. cbn. rewrite rd_wr_ne, rd_wr_eq by lia. done.
      * intros x Hx. rewrite !rd_wr_ne by lia. done.
    + destruct (IH (wr m s (rd m t)) (s + 1) (t + 1)) as [H1 H2]; [lia|].
      rewrite cstrn_wr_out in H1 by lia. split.
      * remember (S n) as k. cbn [cstrn]. rewrite H2, rd_wr_eq by lia.
        rewrite u8_small by apply rd_range. subst k.
        rewrite H1. cbn [cstrn]. now zdecide.
      * intros x Hx. rewrite H2 by lia. apply rd_wr_ne. lia.
Qed.

(** [safestrcpy] writes inside its [n] bytes and always leaves a NUL-terminated
    string there: the source string cut at [n - 1] bytes. *)
Lemma safestrcpy_spec m s t n :
  0 < n -> s + n <= t \/ t + n <= s ->
  cstrn (safestrcpy m s t n) s (Z.to_nat n) = cstrn m t (Z.to_nat (n - 1)) /\
  frame_bytes m (safestrcpy m s t n) s n.
Proof.
  intros Hn Hd. unfold safestrcpy. zdecide.
  destruct (safestrcpy_loop_spec (Z.to_nat (n - 1)) m s t) as [H1 H2];
    rewrite ?Z2Nat.id in * by lia; [lia|].
  replace (S (Z.to_nat (n - 1))) with (Z.to_nat n) in H1 by lia.
  split; [done|]. now replace n with (n - 1 + 1) at 2 by lia.
Qed.

Lemma strlen_loop_spec fuel m s n k :
  n <= k < n + Z.of_nat fuel -> rd m (s + k) = 0 ->
  (forall i, n <= i < k -> rd m (s + i) <> 0) ->
  strlen_loop fuel m s n = k.
Proof.
  revert n; induction fuel as [|f IH]; intros n Hk H0 Hne; [lia|]. cbn. unfold truthy.
  destruct (Z.eqb_spec (rd m (s + n)) 0) as [E|E]; cbn [negb].
  - destruct (Z.eq_dec n k); [done|]. exfalso. apply (Hne n); [lia|done].
  - assert (n <> k) by congruence. apply IH; [lia|done|]. intros; apply Hne; lia.
Qed.

(** Non-zero bytes are written bytes, so there are at most [size m] in a row. *)
Lemma nonzero_run m s k :
  (forall i, 0 <= i < k -> rd m (s + i) <> 0) -> k <= Z.of_nat (size m).
Proof.
  intros H. destruct (Z.le_gt_cases k 0); [lia|].
  assert (list_to_set ((fun i => s + i) <$> seqZ 0 k) ⊆@{gset Z} dom m) as Hsub.
  { intros x. rewrite elem_of_list_to_set, list_elem_of_fmap.
    intros (i & -> & Hi%elem_of_seqZ). apply elem_of_dom.
    destruct (m !! (s + i)) eqn:E; [eauto|]. exfalso. apply (H i); [lia|].
    now apply rd_unwritten. }
  apply subseteq_size in Hsub. rewrite size_list_to_set, size_dom in Hsub.
  - rewrite length_fmap, length_seqZ in Hsub. lia.
  - apply NoDup_fmap_2; [intros ???; lia|]. apply NoDup_seqZ.
Qed.

(** [strlen] returns the position of the first NUL. *)
Lemma strlen_spec m s k :
  0 <= k -> rd m (s + k) = 0 -> (forall i, 0 <= i < k -> rd m (s + i) <> 0) ->
  strlen m s = k.
Proof.
  intros Hk H0 Hne. apply strlen_loop_spec; [|done|done].
  pose proof (nonzero_run m s k Hne). lia.
Qed.

#[global] Opaque memset memmove memcmp strncmp strncpy safestrcpy strlen.
