(* ===== verification/Spinlock.v ===== *)
(** * kernel/spinlock.c

    Two readings of the same code.  [acquire], [release], [push_off] and
    [pop_off] are the functions as one hart runs them, over any state that
    holds the hart's [struct cpu] and the lock; the other components call
    these.  [sstep] is the same code cut at its memory accesses, for any number of harts
    that interleave; its reachable states give mutual exclusion, that no
    [panic()] of the code can fire under the matched use of the lock, and
    that interrupts are off in the critical section.  [noff] counts the locks
    that a hart has taken and is not wrapped. *)

From stdpp Require Import base gmap list numbers strings functions relations.
From S2P Require Import Prelude.

Open Scope Z_scope.

(** ** Data *)

(** The fields of [struct cpu] that the lock code uses; [intr] is SIE of the
    hart's sstatus register, which [intr_on], [intr_off] and [intr_get] use. *)
Record cpu := Cpu { noff : Z; intena : bool; intr : bool }.

(** [struct spinlock]; [lk_cpu] is the index of the holder's [struct cpu]. *)
Record spinlock := Spinlock { locked : Z; name : string; lk_cpu : option nat }.

(** Where a state keeps a field. *)
Record field (S A : Type) := Field { fget : S -> A; fset : A -> S -> S }.
Arguments Field {S A}.
Arguments fget {S A}.
Arguments fset {S A}.

(** States in which code runs on a hart: its id (the tp register) and its
    [struct cpu]. *)
Class Hart (S : Type) := { cpuid : S -> nat; mycpu : field S cpu }.

(** ** Operations *)

Definition initlock (nm : string) : spinlock := Spinlock 0 nm None.

Definition intr_off (c : cpu) : cpu := Cpu (noff c) (intena c) false.
Definition intr_on (c : cpu) : cpu := Cpu (noff c) (intena c) true.

Definition push_off_cpu (c : cpu) : cpu :=
  let old := intr c in
  let c := intr_off c in
  let c := if noff c =? 0 then Cpu (noff c) old (intr c) else c in
  Cpu (noff c + 1) (intena c) (intr c).

Definition pop_off_cpu (c : cpu) : cpu + string :=
  if intr c then inr "pop_off - interruptible"%string
  else if noff c <? 1 then inr "pop_off"%string
  else
    let c := Cpu (noff c - 1) (intena c) (intr c) in
    inl (if (noff c =? 0) && intena c then intr_on c else c).

Definition holding_lock (me : nat) (lk : spinlock) : bool :=
  truthy (locked lk) && bool_decide (lk_cpu lk = Some me).

Section ops.
Context {S : Type} `{Hart S}.

Definition push_off : M S unit :=
  modify (fun s => fset mycpu (push_off_cpu (fget mycpu s)) s).

Definition pop_off : M S unit :=
  c ← gets (fget mycpu);
  match pop_off_cpu c with
  | inl c' => modify (fset mycpu c')
  | inr msg => panic msg
  end.

Definition holding (lk : field S spinlock) : M S bool :=
  gets (fun s => holding_lock (cpuid s) (fget lk s)).

(** With no other hart to release it, a taken lock is spun on for ever. *)
Definition acquire (lk : field S spinlock) : M S unit :=
  push_off;;
  h ← holding lk;
  if (h : bool) then panic "acquire" else
  old ← gets (fun s => locked (fget lk s));
  modify (fun s => fset lk (Spinlock 1 (name (fget lk s)) (lk_cpu (fget lk s))) s);;
  if truthy old then diverge else
  modify (fun s => fset lk (Spinlock (locked (fget lk s)) (name (fget lk s)) (Some (cpuid s))) s).

Definition release (lk : field S spinlock) : M S unit :=
  h ← holding lk;
  if negb h then panic "release" else
  modify (fun s => fset lk (Spinlock (locked (fget lk s)) (name (fget lk s)) None) s);;
  modify (fun s => fset lk (Spinlock 0 (name (fget lk s)) (lk_cpu (fget lk s))) s);;
  pop_off.

End ops.

(** ** Interleaved execution

    The places where a hart can be with respect to one lock. *)
Inductive pc :=
| Idle        (* not using the lock *)
| AcqCheck    (* acquire: push_off() done, before holding(lk) *)
| AcqCpu      (* acquire: holding(lk) has read lk->locked, before it reads lk->cpu *)
| AcqSwap     (* acquire: in the test-and-set loop *)
| AcqOwner    (* acquire: swap won, before lk->cpu = mycpu() *)
| Critical    (* acquire returned *)
| RelCpu      (* release: holding(lk) has read lk->locked, before it reads lk->cpu *)
| RelOwner    (* release: holding(lk) passed, before lk->cpu = 0 *)
| RelSwap     (* release: before the releasing swap *)
| RelPop      (* release: before pop_off() *)
| Panicked.

#[export] Instance pc_eq_dec : EqDecision pc.
Proof. solve_decision. Defined.

Record sys := Sys { the_lock : spinlock; the_cpu : nat -> cpu; the_pc : nat -> pc }.

Definition at_pc (s : sys) (h : nat) (p : pc) : sys :=
  Sys (the_lock s) (the_cpu s) (<[h := p]> (the_pc s)).

Definition with_lock (s : sys) (lk : spinlock) : sys :=
  Sys lk (the_cpu s) (the_pc s).

Definition with_cpu (s : sys) (h : nat) (c : cpu) : sys :=
  Sys (the_lock s) (<[h := c]> (the_cpu s)) (the_pc s).

(** One memory access of [acquire] or [release] by hart [h]; between its
    uses of the lock a hart may switch its interrupts on or off while no
    other lock is held. *)
Inductive sstep (h : nat) : sys -> sys -> Prop :=
| step_intr s b :
    the_pc s h = Idle -> noff (the_cpu s h) = 0 ->
    sstep h s (with_cpu s h (Cpu 0 (intena (the_cpu s h)) b))
| step_push_off s :
    the_pc s h = Idle ->
    sstep h s (at_pc (with_cpu s h (push_off_cpu (the_cpu s h))) h AcqCheck)
| step_check s :
    the_pc s h = AcqCheck ->
    sstep h s (at_pc s h (if truthy (locked (the_lock s)) then AcqCpu else AcqSwap))
| step_check_cpu s :
    the_pc s h = AcqCpu ->
    sstep h s (at_pc s h (if bool_decide (lk_cpu (the_lock s) = Some h) then Panicked else AcqSwap))
| step_swap s :
    the_pc s h = AcqSwap ->
    sstep h s
      (at_pc (with_lock s (Spinlock 1 (name (the_lock s)) (lk_cpu (the_lock s)))) h
         (if truthy (locked (the_lock s)) then AcqSwap else AcqOwner))
| step_owner s :
    the_pc s h = AcqOwner ->
    sstep h s
      (at_pc (with_lock s (Spinlock (locked (the_lock s)) (name (the_lock s)) (Some h))) h Critical)
| step_release s :
    the_pc s h = Critical ->
    sstep h s (at_pc s h (if truthy (locked (the_lock s)) then RelCpu else Panicked))
| step_release_cpu s :
    the_pc s h = RelCpu ->
    sstep h s (at_pc s h (if bool_decide (lk_cpu (the_lock s) = Some h) then RelOwner else Panicked))
| step_clear s :
    the_pc s h = RelOwner ->
    sstep h s
      (at_pc (with_lock s (Spinlock (locked (the_lock s)) (name (the_lock s)) None)) h RelSwap)
| step_unlock s :
    the_pc s h = RelSwap ->
    sstep h s
      (at_pc (with_lock s (Spinlock 0 (name (the_lock s)) (lk_cpu (the_lock s)))) h RelPop)
| step_pop_off s :
    the_pc s h = RelPop ->
    sstep h s
      (match pop_off_cpu (the_cpu s h) with
       | inl c => at_pc (with_cpu s h c) h Idle
       | inr _ => at_pc s h Panicked
       end).

(** Any hart may take the next step. *)
Definition sys_step (s s' : sys) : Prop := exists h, sstep h s s'.

(** The lock just initialised, every hart outside it; a hart that holds other
    locks ([noff] > 0) has its interrupts off. *)
Definition initial (s : sys) : Prop :=
  locked (the_lock s) = 0 /\ lk_cpu (the_lock s) = None /\
  forall h, the_pc s h = Idle /\ 0 <= noff (the_cpu s h) /\
    (noff (the_cpu s h) <> 0 -> intr (the_cpu s h) = false).

Definition reachable (s : sys) : Prop :=
  exists s0, initial s0 /\ rtc sys_step s0 s.

(** The hart owns the lock word. *)
Definition owns (p : pc) : bool :=
  match p with AcqOwner | Critical | RelCpu | RelOwner | RelSwap => true | _ => false end.

(** The lock's owner field names the hart. *)
Definition named (p : pc) : bool :=
  match p with Critical | RelCpu | RelOwner => true | _ => false end.

(** What [struct spinlock] holds when [o] is the owner. *)
Definition owner_inv (o : option nat) (s : sys) : Prop :=
  locked (the_lock s) = match o with Some _ => 1 | None => 0 end /\
  lk_cpu (the_lock s) =
    match o with
    | Some h => if named (the_pc s h) then Some h else None
    | None => None
    end /\
  forall h, owns (the_pc s h) = bool_decide (o = Some h).

(** A hart inside the lock code has its interrupts off. *)
Definition cpu_inv (c : cpu) (p : pc) : Prop :=
  p <> Panicked /\ 0 <= noff c /\ (noff c <> 0 -> intr c = false) /\
  (p <> Idle -> 1 <= noff c).

Definition lock_inv (s : sys) : Prop :=
  (exists o, owner_inv o s) /\ forall h, cpu_inv (the_cpu s h) (the_pc s h).

(** The interleaving's state seen from hart [h], for the functions above. *)
Definition sys_hart (h : nat) : Hart sys :=
  {| cpuid := fun _ => h;
     mycpu := Field (fun s => the_cpu s h) (fun c s => with_cpu s h c) |}.

Definition sys_lock : field sys spinlock := Field the_lock (fun lk s => with_lock s lk).

(** ** The functions, uncontended *)

(** [push_off] and [pop_off] are matched: a nested pair restores the cpu, and
    so does an outermost pair up to the saved [intena]. *)
Lemma pop_push_off c :
  0 <= noff c -> (noff c <> 0 -> intr c = false) ->
  exists c', pop_off_cpu (push_off_cpu c) = inl c' /\
    noff c' = noff c /\ intr c' = intr c /\
    intena c' = (if noff c =? 0 then intr c else intena c).
Proof.
  destruct c as [n e i]; cbn. intros Hn Hi. unfold pop_off_cpu, push_off_cpu; cbn.
  destruct (Z.eqb_spec n 0) as [->|Hne]; cbn.
  - destruct i; cbn; eauto.
  - rewrite Hi by done. destruct (Z.ltb_spec (n + 1) 1); [lia|].
    replace (n + 1 - 1) with n by lia.
    destruct (Z.eqb_spec n 0); [lia|]. cbn. eauto.
Qed.

(** ** The invariant *)

Lemma owner_keep o s s' h p :
  owner_inv o s -> locked (the_lock s') = locked (the_lock s) ->
  lk_cpu (the_lock s') = lk_cpu (the_lock s) ->
  the_pc s' = <[h := p]> (the_pc s) ->
  owns p = owns (the_pc s h) -> named p = named (the_pc s h) -> owner_inv o s'.
Proof.
  intros (Hl & Hc & Ho) El Ec Ep Eo En. split; [congruence|]. split.
  - rewrite Ec, Hc, Ep. destruct o as [h'|]; [|done].
    destruct (decide (h = h')) as [->|];
      [now rewrite fn_lookup_insert, En | now rewrite fn_lookup_insert_ne].
  - intros h'. rewrite <- Ho, Ep. destruct (decide (h = h')) as [->|];
      [now rewrite fn_lookup_insert | now rewrite fn_lookup_insert_ne].
Qed.

Lemma cpu_keep s s' h :
  (forall h', cpu_inv (the_cpu s h') (the_pc s h')) ->
  (forall h', h' <> h -> the_cpu s' h' = the_cpu s h' /\ the_pc s' h' = the_pc s h') ->
  cpu_inv (the_cpu s' h) (the_pc s' h) ->
  forall h', cpu_inv (the_cpu s' h') (the_pc s' h').
Proof.
  intros H Hne Hh h'. destruct (decide (h' = h)) as [->|n]; [done|].
  destruct (Hne h' n) as [-> ->]. apply H.
Qed.

Lemma owner_of o s h : owner_inv o s -> owns (the_pc s h) = true -> o = Some h.
Proof. intros (_ & _ & Ho) H. rewrite Ho in H. now apply bool_decide_eq_true in H. Qed.

Lemma named_owns p : named p = true -> owns p = true.
Proof. now destruct p. Qed.

Lemma cpu_iff o s h : owner_inv o s -> bool_decide (lk_cpu (the_lock s) = Some h) = named (the_pc s h).
Proof.
  intros (_ & Hc & Ho). rewrite Hc. apply eq_true_iff_eq. rewrite bool_decide_eq_true. split.
  - destruct o as [h'|]; [|done]. destruct (named (the_pc s h')) eqn:E; [|done]. now intros [= <-].
  - intros Hn. pose proof (named_owns _ Hn) as Hw. rewrite Ho in Hw. apply bool_decide_eq_true in Hw as ->. now rewrite Hn.
Qed.

Lemma locked_named o s h : owner_inv o s -> named (the_pc s h) = true -> truthy (locked (the_lock s)) = true.
Proof. intros Hi Hn%named_owns. rewrite (owner_of _ _ _ Hi Hn) in Hi. destruct Hi as [-> _]. done. Qed.

Lemma holding_iff o s h :
  owner_inv o s -> holding_lock h (the_lock s) = named (the_pc s h).
Proof.
  intros Hi. unfold holding_lock. rewrite (cpu_iff _ _ _ Hi).
  destruct (named (the_pc s h)) eqn:E; [now rewrite (locked_named _ _ _ Hi E)|apply andb_false_r].
Qed.

(** Solves the part of the invariant about the harts other than [h]. *)
Ltac others :=
  intros ? ?; cbn; rewrite ?fn_lookup_insert_ne by congruence; done.

Lemma push_off_inv c : cpu_inv c Idle -> cpu_inv (push_off_cpu c) AcqCheck.
Proof.
  intros (_ & Hn & Hi & _). unfold cpu_inv, push_off_cpu; cbn.
  destruct (noff c =? 0); cbn; repeat split; done || lia.
Qed.

Lemma pop_off_inv c :
  cpu_inv c RelPop -> exists c', pop_off_cpu c = inl c' /\ cpu_inv c' Idle.
Proof.
  intros (_ & Hn & Hi & H1). specialize (H1 ltac:(done)). unfold pop_off_cpu.
  rewrite Hi by lia. destruct (Z.ltb_spec (noff c) 1); [lia|]. eexists; split; [done|].
  unfold cpu_inv; cbn. destruct (Z.eqb_spec (noff c - 1) 0), (intena c); cbn;
    repeat split; try done; try lia; intros; apply Hi; lia.
Qed.

Lemma sstep_cpu h s s' o :
  sstep h s s' -> owner_inv o s ->
  (forall h', cpu_inv (the_cpu s h') (the_pc s h')) ->
  forall h', cpu_inv (the_cpu s' h') (the_pc s' h').
Proof.
  intros Hs Hi Hc. pose proof (Hc h) as Hh.
  destruct Hs as [s b Hp Hz|s Hp|s Hp|s Hp|s Hp|s Hp|s Hp|s Hp|s Hp|s Hp|s Hp]; rewrite Hp in Hh.
  1: { eapply cpu_keep with (h := h); [exact Hc|others|].
       cbn. rewrite fn_lookup_insert, Hp. destruct Hh as (?&?&?&?).
       unfold cpu_inv; cbn; repeat split; done || lia. }
  1: { eapply cpu_keep with (h := h); [exact Hc|others|].
       cbn. rewrite !fn_lookup_insert. now apply push_off_inv. }
  9: { destruct (pop_off_inv _ Hh) as (c' & -> & Hc').
       eapply cpu_keep with (h := h); [exact Hc|others|].
       cbn. now rewrite !fn_lookup_insert. }
  all: eapply cpu_keep with (h := h); [exact Hc|others|]; cbn;
       rewrite fn_lookup_insert; try rewrite (locked_named _ s h Hi) by (now rewrite Hp);
       rewrite ?(cpu_iff _ _ _ Hi), ?Hp; cbn;
       destruct Hh as (?&?&?&?); unfold cpu_inv; repeat split; auto; try done;
       case_goal; done.
Qed.

Lemma sstep_owner h s s' o :
  sstep h s s' -> owner_inv o s ->
  (forall h', cpu_inv (the_cpu s h') (the_pc s h')) -> exists o', owner_inv o' s'.
Proof.
  intros Hs Hi Hc. pose proof (Hc h) as Hh. pose proof Hi as (Hl & Hk & Ho).
  destruct Hs as [s b Hp Hz|s Hp|s Hp|s Hp|s Hp|s Hp|s Hp|s Hp|s Hp|s Hp|s Hp].
  - exists o. done.
  - exists o. eapply owner_keep; eauto; cbn; now rewrite Hp.
  - exists o. eapply owner_keep; eauto; cbn; rewrite Hp; now destruct (truthy _).
  - exists o. eapply owner_keep; eauto; cbn; rewrite (cpu_iff _ _ _ Hi), Hp; done.
  - destruct o as [h'|]; rewrite Hl; cbn.
    + exists (Some h'). eapply owner_keep; eauto; cbn; rewrite ?Hl, ?Hp; done.
    + exists (Some h). split; [done|]. cbn. rewrite fn_lookup_insert. split; [done|].
      intros h'. destruct (decide (h = h')) as [->|Hne].
      * rewrite fn_lookup_insert, bool_decide_true; done.
      * rewrite fn_lookup_insert_ne by done. rewrite Ho, !bool_decide_false; congruence.
  - assert (o = Some h) as -> by (eapply owner_of; [eauto|now rewrite Hp]).
    exists (Some h). split; [done|]. cbn. rewrite fn_lookup_insert. split; [done|].
    intros h'. rewrite <- Ho. destruct (decide (h = h')) as [->|];
      [now rewrite fn_lookup_insert, Hp | now rewrite fn_lookup_insert_ne].
  - exists o. eapply owner_keep; eauto; cbn; rewrite (locked_named o s h Hi) by (now rewrite Hp); now rewrite Hp.
  - exists o. eapply owner_keep; eauto; cbn; rewrite (cpu_iff _ _ _ Hi), Hp; done.
  - assert (o = Some h) as -> by (eapply owner_of; [eauto|now rewrite Hp]).
    exists (Some h). split; [done|]. cbn. rewrite fn_lookup_insert. split; [done|].
    intros h'. rewrite <- Ho. destruct (decide (h = h')) as [->|];
      [now rewrite fn_lookup_insert, Hp | now rewrite fn_lookup_insert_ne].
  - assert (o = Some h) as -> by (eapply owner_of; [eauto|now rewrite Hp]).
    exists None. split; [done|]. cbn. rewrite Hk, Hp. split; [done|].
    intros h'. destruct (decide (h = h')) as [->|Hne].
    + rewrite fn_lookup_insert, bool_decide_false; done.
    + rewrite fn_lookup_insert_ne by done. rewrite Ho, !bool_decide_false; congruence.
  - rewrite Hp in Hh. destruct (pop_off_inv _ Hh) as (c' & -> & _).
    exists o. eapply owner_keep; eauto; cbn; now rewrite Hp.
Qed.

Lemma initial_inv s : initial s -> lock_inv s.
Proof.
  intros (Hl & Hc & Hh). split.
  - exists None. split; [done|]. split; [done|]. intros h. destruct (Hh h) as [-> _]. done.
  - intros h. destruct (Hh h) as (-> & ? & ?). split; [done|]. split; [done|]. now split.
Qed.

(** Every reachable state satisfies the invariant. *)
Lemma reachable_inv s : reachable s -> lock_inv s.
Proof.
  intros (s0 & H0 & Hr). apply initial_inv in H0.
  induction Hr as [|s1 s2 s3 [h Hs] _ IH]; [done|]. apply IH.
  destruct H0 as [[o Ho] Hc]. split; [eapply sstep_owner; eauto|].
  eapply sstep_cpu; eauto.
Qed.

(** C1: mutual exclusion, for any number of interleaved harts: a hart between
    the winning swap of [acquire] and the clearing swap of [release] is the
    only such hart; the hart whose [acquire] returned is the one that
    [holding] reports, and its interrupts are off; no [panic()] of the lock
    code fires. *)
Theorem spinlock_mutual_exclusion s h :
  reachable s ->
  the_pc s h <> Panicked /\
  (owns (the_pc s h) = true ->
    locked (the_lock s) = 1 /\ forall h', owns (the_pc s h') = true -> h' = h) /\
  (the_pc s h = Critical ->
    holding_lock h (the_lock s) = true /\ intr (the_cpu s h) = false).
Proof.
  intros [[o Ho] Hc]%reachable_inv. destruct (Hc h) as (Hp & Hn & Hi & H1).
  split; [done|]. split.
  - intros Hh. pose proof (owner_of _ _ _ Ho Hh) as ->. split; [apply Ho|].
    intros h' Hh'. pose proof (owner_of _ _ _ Ho Hh'). congruence.
  - intros E. rewrite (holding_iff _ _ _ Ho), E. split; [done|].
    apply Hi. rewrite E in H1. specialize (H1 ltac:(done)). lia.
Qed.

Definition demo_sys : sys := Sys (initlock "demo") (fun _ => Cpu 0 false true) (fun _ => Idle).

(** Two harts: hart 0 takes the lock while hart 1 has started to. *)
Lemma spinlock_mutual_exclusion_witness :
  exists s, the_pc s 0%nat = Critical /\ the_pc s 1%nat = AcqCheck /\
    holding_lock 0 (the_lock s) = true /\ intr (the_cpu s 0%nat) = false.
Proof.
  eexists. split; [|split]; [| |apply (spinlock_mutual_exclusion _ 0%nat)].
  3: { exists demo_sys. split.
       { split; [done|]. split; [done|]. intros h. repeat split; done. }
       eapply rtc_l; [exists 0%nat; now apply step_push_off|].
       eapply rtc_l; [exists 1%nat; now apply step_push_off|].
       eapply rtc_l; [exists 0%nat; now apply step_check|].
       eapply rtc_l; [exists 0%nat; now apply step_swap|].
       eapply rtc_l; [exists 0%nat; now apply step_owner|].
       apply rtc_refl. }
  all: reflexivity.
Defined.

(** [acquire] as one function is what the interleaved steps of one hart do
    when the lock is free: it returns, and the hart reaches [Critical] with
    the same lock word, owner and cpu. *)
Theorem acquire_refines_steps s h :
  the_pc s h = Idle -> locked (the_lock s) = 0 ->
  exists s' t, acquire (H := sys_hart h) sys_lock s = Ok tt s' /\
    rtc (sstep h) s t /\ the_pc t h = Critical /\
    the_lock t = the_lock s' /\ the_cpu t h = the_cpu s' h.
Proof.
  intros Hp Hl. destruct s as [[l nm oc] cp pcs]; cbn in *. subst l.
  eexists _, _. split; [reflexivity|]. split.
  { eapply rtc_l; [apply step_push_off; done|].
    eapply rtc_l; [apply step_check; cbn; now rewrite fn_lookup_insert|]. cbn.
    eapply rtc_l; [apply step_swap; cbn; now rewrite fn_lookup_insert|]. cbn.
    eapply rtc_l; [apply step_owner; cbn; now rewrite fn_lookup_insert|]. cbn.
    apply rtc_refl. }
  cbn. rewrite !fn_lookup_insert. done.
Qed.

Lemma acquire_refines_steps_witness :
  exists s' t, acquire (H := sys_hart 0) sys_lock demo_sys = Ok tt s' /\
    rtc (sstep 0) demo_sys t /\ the_pc t 0%nat = Critical /\
    the_lock t = the_lock s' /\ the_cpu t 0%nat = the_cpu s' 0%nat.
Proof. apply (acquire_refines_steps demo_sys 0); reflexivity. Defined.
