(* ===== verification/Locks.v ===== *)
(** * Locks as a kernel thread sees them; kernel/sleeplock.c

    The components above the lock layer run as one thread.  For them a spin
    lock is in one of two states, held by this thread or not, so a thread's
    state keeps the set of the locks it holds: taking a lock twice and
    releasing one that is not held panic, as the checks of spinlock.c do.
    [spinlock_refines_held] proves that spinlock.c on a hart implements this
    view, with the interrupt state put back when the last lock is released.

    A sleep lock is data protected by its spin lock.  Where the code would
    sleep, only another thread could let it go on; alone it does not return. *)

From stdpp Require Import base gmap list numbers strings functions.
From S2P Require Import Prelude Spinlock.

Open Scope Z_scope.

(** A lock: the name given to [initlock] and which of that name. *)
Abbreviation lockid := (string * Z)%type.

(** States of a running thread: the spin locks it holds, and its pid. *)
Class Thread (S : Type) := { held : field S (gset lockid); mypid : S -> Z }.

Section threads.
Context {S : Type} `{Thread S}.

Definition lock (l : lockid) : M S unit :=
  h ← gets (fget held);
  if decide (l ∈ h) then panic "acquire" else modify (fset held ({[l]} ∪ h)).

Definition unlock (l : lockid) : M S unit :=
  h ← gets (fget held);
  if decide (l ∈ h) then modify (fset held (h ∖ {[l]})) else panic "release".
End threads.

(** ** sleeplock.c *)

Record sleeplock := Sleeplock { sl_locked : Z; sl_name : string; sl_pid : Z }.

Definition initsleeplock (nm : string) : sleeplock := Sleeplock 0 nm 0.

Section sleeplocks.
Context {S : Type} `{Thread S}.

(** [id] is the lock's spin lock [lk->lk]. *)
Definition acquiresleep (lk : field S sleeplock) (id : lockid) : M S unit :=
  lock id;;
  sl ← gets (fget lk);
  if truthy (sl_locked sl) then diverge else
  modify (fun s => fset lk (Sleeplock 1 (sl_name sl) (mypid s)) s);;
  unlock id.

Definition releasesleep (lk : field S sleeplock) (id : lockid) : M S unit :=
  lock id;;
  modify (fun s => fset lk (Sleeplock 0 (sl_name (fget lk s)) 0) s);;
  unlock id.

Definition holdingsleep (lk : field S sleeplock) (id : lockid) : M S bool :=
  lock id;;
  r ← gets (fun s => truthy (sl_locked (fget lk s)) && (sl_pid (fget lk s) =? mypid s));
  unlock id;;
  mret r.
End sleeplocks.

(** ** spinlock.c implements the held set *)

(** A hart with all the spin locks of the kernel. *)
Record hart_locks := HartLocks { hl_me : nat; hl_cpu : cpu; hl_locks : lockid -> spinlock }.

#[export] Instance hart_locks_hart : Hart hart_locks :=
  {| cpuid := hl_me;
     mycpu := Field hl_cpu (fun c s => HartLocks (hl_me s) c (hl_locks s)) |}.

Definition hl_lock (l : lockid) : field hart_locks spinlock :=
  Field (fun s => hl_locks s l)
        (fun k s => HartLocks (hl_me s) (hl_cpu s) (<[l := k]> (hl_locks s))).

(** The hart holds exactly the locks [h]; interrupts were [i0] before the first. *)
Record holds_locks (i0 : bool) (h : gset lockid) (s : hart_locks) : Prop := HoldsLocks {
  hl_in l : l ∈ h -> locked (hl_locks s l) = 1 /\ lk_cpu (hl_locks s l) = Some (hl_me s);
  hl_out l : l ∉ h -> locked (hl_locks s l) = 0 /\ lk_cpu (hl_locks s l) = None;
  hl_noff : noff (hl_cpu s) = Z.of_nat (size h);
  hl_intr : if decide (h = ∅) then intr (hl_cpu s) = i0
            else intr (hl_cpu s) = false /\ intena (hl_cpu s) = i0;
}.

Lemma holding_lock_iff i0 h s l :
  holds_locks i0 h s -> holding_lock (hl_me s) (hl_locks s l) = bool_decide (l ∈ h).
Proof.
  intros [Hin Hout _ _]. unfold holding_lock. destruct (decide (l ∈ h)) as [Hl|Hl].
  - destruct (Hin l Hl) as [-> ->]. now rewrite !bool_decide_eq_true_2.
  - destruct (Hout l Hl) as [-> ->]. now rewrite (bool_decide_eq_false_2 (l ∈ h)).
Qed.

Lemma push_off_holds i0 h s l :
  holds_locks i0 h s -> l ∉ h ->
  let c := push_off_cpu (hl_cpu s) in
  noff c = Z.of_nat (size ({[l]} ∪ h)) /\ intr c = false /\ intena c = i0.
Proof.
  intros [_ _ Hn Hi] Hl. rewrite size_union_alt, size_singleton, difference_disjoint_L by set_solver.
  unfold push_off_cpu. cbn. rewrite Hn. destruct (decide (h = ∅)) as [->|Hne].
  - cbn. subst. done.
  - destruct Hi as [Hi He]. assert (size h <> 0%nat) by (intros E0%size_empty_inv; apply leibniz_equiv in E0; congruence).
    zdecide. cbn. split; [lia|done].
Qed.

Lemma pop_off_holds i0 h s l :
  holds_locks i0 h s -> l ∈ h ->
  exists c, pop_off_cpu (hl_cpu s) = inl c /\ noff c = Z.of_nat (size (h ∖ {[l]})) /\
    if decide (h ∖ {[l]} = ∅) then intr c = i0 else intr c = false /\ intena c = i0.
Proof.
  intros [_ _ Hn Hi] Hl. assert (h <> ∅) as Hne by set_solver.
  rewrite decide_False in Hi by done. destruct Hi as [Hi He].
  assert (size h = (size (h ∖ {[l]}) + 1)%nat) as Hs.
  { rewrite size_difference, size_singleton by set_solver.
    assert (size h <> 0%nat) by (intros E0%size_empty_inv; apply leibniz_equiv in E0; congruence). lia. }
  unfold pop_off_cpu. rewrite Hi, Hn. rewrite (proj2 (Z.ltb_ge _ _)) by lia.
  eexists. split; [reflexivity|]. cbn. destruct (decide (h ∖ {[l]} = ∅)) as [E|E].
  - rewrite E, size_empty in *. rewrite Hs. cbn. rewrite He. destruct i0; done.
  - assert (size (h ∖ {[l]}) <> 0%nat) by (intros E0%size_empty_inv; apply leibniz_equiv in E0; congruence).
    rewrite (proj2 (Z.eqb_neq _ 0)) by lia. cbn. split; [lia|done].
Qed.

(** spinlock.c implements the held set.  On a hart that holds exactly
    the locks [h], [acquire] of a lock outside [h] returns with that lock added and
    [acquire] of one in [h] panics; [release] of a lock in [h] returns with it
    removed and of any other panics; interrupts are off while a lock is held
    and as they were before the first when none is. *)
Theorem spinlock_refines_held i0 h s l :
  holds_locks i0 h s ->
  (l ∉ h -> exists s', acquire (hl_lock l) s = Ok tt s' /\ holds_locks i0 ({[l]} ∪ h) s') /\
  (l ∈ h -> acquire (hl_lock l) s = Panic "acquire") /\
  (l ∈ h -> exists s', release (hl_lock l) s = Ok tt s' /\ holds_locks i0 (h ∖ {[l]}) s') /\
  (l ∉ h -> release (hl_lock l) s = Panic "release").
Proof.
  intros Hs. pose proof Hs as [Hin Hout _ _]. pose proof (holding_lock_iff i0 h s l Hs) as Hh.
  repeat split; intros Hl.
  - destruct (push_off_holds i0 h s l Hs Hl) as (Hn & Hi & He). destruct (Hout l Hl) as [Hlk _].
    rewrite bool_decide_eq_false_2 in Hh by done. unfold acquire, holding.
    do 2 erewrite bind_ok by reflexivity. cbn. rewrite Hh.
    do 2 erewrite bind_ok by reflexivity. cbn. rewrite Hlk. cbn.
    eexists. split; [reflexivity|]. split; cbn; rewrite ?fn_lookup_insert.
    + intros k Hk. destruct (decide (k = l)) as [->|Hne]; [now rewrite fn_lookup_insert|].
      rewrite !fn_lookup_insert_ne by done. apply Hin. set_solver.
    + intros k Hk. rewrite !fn_lookup_insert_ne by set_solver. apply Hout. set_solver.
    + exact Hn.
    + rewrite decide_False by set_solver. done.
  - rewrite bool_decide_eq_true_2 in Hh by done. unfold acquire, holding.
    do 2 erewrite bind_ok by reflexivity. cbn. now rewrite Hh.
  - destruct (pop_off_holds i0 h s l Hs Hl) as (c & Hc & Hn & Hi).
    rewrite bool_decide_eq_true_2 in Hh by done. unfold release, holding, pop_off.
    erewrite bind_ok by reflexivity. cbn. rewrite Hh. cbn [negb].
    do 3 erewrite bind_ok by reflexivity. cbn. rewrite Hc.
    eexists. split; [reflexivity|]. split; cbn; rewrite ?fn_lookup_insert.
    + intros k Hk. rewrite !fn_lookup_insert_ne by set_solver. apply Hin. set_solver.
    + intros k Hk. destruct (decide (k = l)) as [->|Hne]; [now rewrite fn_lookup_insert|].
      rewrite !fn_lookup_insert_ne by done. apply Hout. set_solver.
    + exact Hn.
    + exact Hi.
  - rewrite bool_decide_eq_false_2 in Hh by done. unfold release, holding.
    erewrite bind_ok by reflexivity. cbn. now rewrite Hh.
Qed.

Lemma spinlock_refines_held_witness :
  exists s', acquire (hl_lock ("log", 0)%string)
      (HartLocks 3 (Cpu 0 false true) (fun l => initlock l.1)) = Ok tt s' /\
    holds_locks true {[ ("log", 0)%string ]} s'.
Proof.
  destruct (spinlock_refines_held true ∅ (HartLocks 3 (Cpu 0 false true) (fun l => initlock l.1))
    ("log", 0)%string) as (H & _); [split; [set_solver|done|done|done]|].
  destruct (H ltac:(set_solver)) as (s' & Ha & Hs). rewrite union_empty_r_L in Hs. eauto.
Defined.
