(* ===== verification/Riscv.v ===== *)
(** * Address-space constants and page-table-entry macros

    The macros of kernel/riscv.h and kernel/memlayout.h that the memory code
    uses, with the facts about their bit manipulation: page rounding, the
    round trip between a physical address and a PTE, and the split of a
    virtual address into its three 9-bit indices. *)

From stdpp Require Import base numbers.
From S2P Require Import Prelude.

Open Scope Z_scope.

Definition PGSIZE : Z := 4096.
Definition PGSHIFT : Z := 12.

Definition PGROUNDUP (sz : Z) : Z :=
  Z.land (u64 (sz + PGSIZE - 1)) (u64 (Z.lnot (PGSIZE - 1))).
Definition PGROUNDDOWN (a : Z) : Z := Z.land a (u64 (Z.lnot (PGSIZE - 1))).

Definition PTE_V : Z := Z.shiftl 1 0.
Definition PTE_R : Z := Z.shiftl 1 1.
Definition PTE_W : Z := Z.shiftl 1 2.
Definition PTE_X : Z := Z.shiftl 1 3.
Definition PTE_U : Z := Z.shiftl 1 4.

Definition PA2PTE (pa : Z) : Z := u64 (Z.shiftl (Z.shiftr pa 12) 10).
Definition PTE2PA (pte : Z) : Z := u64 (Z.shiftl (Z.shiftr pte 10) 12).
Definition PTE_FLAGS (pte : Z) : Z := Z.land pte 0x3FF.

Definition PXMASK : Z := 0x1FF.
Definition PXSHIFT (level : Z) : Z := PGSHIFT + 9 * level.
Definition PX (level va : Z) : Z := Z.land (Z.shiftr va (PXSHIFT level)) PXMASK.

Definition MAXVA : Z := Z.shiftl 1 (9 + 9 + 9 + 12 - 1).

Definition SATP_SV39 : Z := Z.shiftl 8 60.
Definition MAKE_SATP (pagetable : Z) : Z := Z.lor SATP_SV39 (Z.shiftr pagetable 12).

Definition KERNBASE : Z := 0x80000000.
Definition PHYSTOP : Z := KERNBASE + 128 * 1024 * 1024.
Definition TRAMPOLINE : Z := MAXVA - PGSIZE.
Definition TRAPFRAME : Z := TRAMPOLINE - PGSIZE.
Definition KSTACK (p : Z) : Z := TRAMPOLINE - (p + 1) * 2 * PGSIZE.

(** A physical page address that a PTE can hold. *)
Definition pte_page (pa : Z) : Prop := pa mod PGSIZE = 0 /\ 0 <= pa < 2^54.

(** ** Page rounding *)

Lemma land_mask_eq x : is_u64 x -> Z.land x (u64 (Z.lnot (PGSIZE - 1))) = x - x mod PGSIZE.
Proof.
  intros Hx. unfold u64. rewrite <- (Z.land_ones (Z.lnot _)) by dlia.
  rewrite Z.land_assoc, (Z.land_comm x), <- Z.land_assoc, Z.land_ones by dlia.
  rewrite Z.mod_small by apply Hx. rewrite Z.land_comm. change PGSIZE with (2^12).
  apply land_clear_low. dlia.
Qed.

Lemma PGROUNDDOWN_eq a : is_u64 a -> PGROUNDDOWN a = a - a mod PGSIZE.
Proof. apply land_mask_eq. Qed.

Lemma PGROUNDUP_eq sz :
  0 <= sz -> sz + PGSIZE <= 2^64 ->
  PGROUNDUP sz = sz + PGSIZE - 1 - (sz + PGSIZE - 1) mod PGSIZE.
Proof.
  intros. unfold PGROUNDUP. rewrite land_mask_eq by apply u64_range.
  rewrite u64_small; [done|]. unfold is_u64, PGSIZE in *. dlia.
Qed.

(** Rounding up reaches the next page boundary and no further. *)
Lemma PGROUNDUP_spec sz :
  0 <= sz -> sz + PGSIZE <= 2^64 ->
  PGROUNDUP sz mod PGSIZE = 0 /\ sz <= PGROUNDUP sz < sz + PGSIZE.
Proof.
  intros H1 H2. rewrite PGROUNDUP_eq by done.
  unfold PGSIZE in *. split; [|dlia].
  rewrite Zminus_mod_idemp_r, Z.sub_diag. done.
Qed.

Lemma PGROUNDUP_aligned sz :
  0 <= sz -> sz + PGSIZE <= 2^64 -> sz mod PGSIZE = 0 -> PGROUNDUP sz = sz.
Proof. intros. rewrite PGROUNDUP_eq by done. unfold PGSIZE in *. dlia. Qed.

Lemma PGROUNDDOWN_spec a :
  is_u64 a ->
  PGROUNDDOWN a mod PGSIZE = 0 /\ PGROUNDDOWN a <= a < PGROUNDDOWN a + PGSIZE /\
  is_u64 (PGROUNDDOWN a).
Proof.
  intros H. rewrite PGROUNDDOWN_eq by done. unfold is_u64, PGSIZE in *.
  split; [|dlia]. rewrite Zminus_mod_idemp_r, Z.sub_diag. done.
Qed.

(** ** Page-table entries *)

Lemma PA2PTE_eq pa : pte_page pa -> PA2PTE pa = pa / 4.
Proof.
  intros [Ha Hr]. unfold PA2PTE, PGSIZE in *.
  rewrite Z.shiftr_div_pow2, Z.shiftl_mul_pow2 by dlia.
  change (2^12) with 4096; change (2^10) with 1024.
  unfold u64. rewrite Z.mod_small; dlia.
Qed.

(** The flag bits of an entry: the bits below 10, PTE_V set. *)
Definition pte_flags_ok (f : Z) : Prop := 0 <= f < 1024.

Lemma PA2PTE_lor pa f :
  pte_page pa -> pte_flags_ok f -> Z.lor (PA2PTE pa) f = PA2PTE pa + f.
Proof.
  intros [Ha Hr] Hf. rewrite PA2PTE_eq by done. unfold PGSIZE, pte_flags_ok in *.
  assert (Z.land (pa / 4) f = 0) as Hz.
  { replace (pa / 4) with (Z.shiftl (pa / 4096) 10)
      by (rewrite Z.shiftl_mul_pow2 by dlia; dlia).
    apply Z.bits_inj'. intros n Hn. rewrite Z.land_spec, Z.bits_0.
    destruct (Z.lt_ge_cases n 10).
    - rewrite Z.shiftl_spec_low by dlia. done.
    - replace f with (f mod 2^10) by (rewrite Z.mod_small; dlia).
      rewrite Z.mod_pow2_bits_high by dlia. apply andb_false_r. }
  rewrite <- Z.lxor_lor by done. symmetry. now apply Z.add_nocarry_lxor.
Qed.

(** Round trip: the address and the flags of an entry built by [mappages] or
    [walk] come back. *)
Lemma PTE2PA_PA2PTE pa f :
  pte_page pa -> pte_flags_ok f -> PTE2PA (Z.lor (PA2PTE pa) f) = pa.
Proof.
  intros Hp Hf. rewrite PA2PTE_lor by done. rewrite PA2PTE_eq by done.
  destruct Hp as [Ha Hr]. unfold PTE2PA, PGSIZE, pte_flags_ok in *.
  rewrite Z.shiftr_div_pow2, Z.shiftl_mul_pow2 by dlia.
  change (2^12) with 4096; change (2^10) with 1024.
  replace ((pa / 4 + f) / 1024) with (pa / 4096) by dlia.
  unfold u64. rewrite Z.mod_small; dlia.
Qed.

Lemma PTE_FLAGS_PA2PTE pa f :
  pte_page pa -> pte_flags_ok f -> PTE_FLAGS (Z.lor (PA2PTE pa) f) = f.
Proof.
  intros Hp Hf. rewrite PA2PTE_lor by done. rewrite PA2PTE_eq by done.
  destruct Hp as [Ha Hr]. unfold PTE_FLAGS, PGSIZE, pte_flags_ok in *.
  change 0x3FF with (2^10 - 1). rewrite land_low_mod by dlia.
  change (2^10) with 1024. dlia.
Qed.

Lemma pte_range pa f :
  pte_page pa -> pte_flags_ok f -> is_u64 (Z.lor (PA2PTE pa) f).
Proof.
  intros Hp Hf. rewrite PA2PTE_lor, PA2PTE_eq by done.
  destruct Hp. unfold is_u64, pte_flags_ok in *. dlia.
Qed.

(** A test of a low bit sees only the flags. *)
Lemma land_flags pte b : 0 <= b < 1024 -> Z.land pte b = Z.land (PTE_FLAGS pte) b.
Proof.
  intros Hb. unfold PTE_FLAGS. rewrite <- Z.land_assoc. f_equal.
  rewrite Z.land_comm. change 0x3FF with (Z.ones 10). rewrite Z.land_ones by dlia.
  rewrite Z.mod_small by dlia. done.
Qed.

(** ** Virtual-address indices *)

Lemma PX_eq level va : 0 <= level -> PX level va = (va / 2^(12 + 9 * level)) mod 512.
Proof.
  intros. unfold PX, PXMASK, PXSHIFT, PGSHIFT.
  change 0x1FF with (2^9 - 1). rewrite land_low_mod by dlia.
  now rewrite Z.shiftr_div_pow2 by dlia.
Qed.

Lemma PX_range level va : 0 <= level -> 0 <= PX level va < 512.
Proof. intros. rewrite PX_eq by done. apply Z.mod_pos_bound. dlia. Qed.

#[export] Hint Resolve PX_range : xv6.

(** The three indices determine the page. *)
Lemma PX_page va :
  0 <= va < MAXVA ->
  va / PGSIZE = PX 2 va * 512 * 512 + PX 1 va * 512 + PX 0 va.
Proof.
  intros H. rewrite !PX_eq by dlia. change MAXVA with 274877906944 in H.
  unfold PGSIZE. change (2^(12 + 9 * 0)) with 4096.
  change (2^(12 + 9 * 1)) with (4096 * 512). change (2^(12 + 9 * 2)) with (4096 * 512 * 512).
  rewrite <- !Z.div_div by dlia.
  assert (0 <= va / 4096 < 512 * 512 * 512) by dlia.
  generalize dependent (va / 4096). intros q Hq. dlia.
Qed.

Lemma PX_inj va va' :
  0 <= va < MAXVA -> 0 <= va' < MAXVA ->
  PX 2 va = PX 2 va' -> PX 1 va = PX 1 va' -> PX 0 va = PX 0 va' ->
  va / PGSIZE = va' / PGSIZE.
Proof. intros H H' E2 E1 E0. rewrite !PX_page by done. congruence. Qed.

Lemma PX_same_page va va' :
  0 <= va < MAXVA -> 0 <= va' < MAXVA -> va / PGSIZE = va' / PGSIZE ->
  PX 2 va = PX 2 va' /\ PX 1 va = PX 1 va' /\ PX 0 va = PX 0 va'.
Proof.
  intros Hv Hv' E. rewrite (PX_page va), (PX_page va') in E by done.
  pose proof (PX_range 0 va ltac:(lia)). pose proof (PX_range 0 va' ltac:(lia)).
  pose proof (PX_range 1 va ltac:(lia)). pose proof (PX_range 1 va' ltac:(lia)).
  lia.
Qed.

(** MAXVA is half of what Sv39 has: the top index stays below 256. *)
Lemma PX_low va : 0 <= va < MAXVA -> PX 2 va < 256.
Proof.
  intros Hv. pose proof (PX_page va Hv) as E.
  pose proof (PX_range 0 va ltac:(lia)). pose proof (PX_range 1 va ltac:(lia)).
  change MAXVA with (256 * 512 * 512 * 4096) in Hv. unfold PGSIZE in E. dlia.
Qed.

(** Every triple of indices with a low top index is an address. *)
Lemma PX_surj i2 i1 i0 :
  0 <= i2 < 256 -> 0 <= i1 < 512 -> 0 <= i0 < 512 ->
  exists va, 0 <= va < MAXVA /\ PX 2 va = i2 /\ PX 1 va = i1 /\ PX 0 va = i0.
Proof.
  intros H2 H1 H0. pose (va := ((i2 * 512 + i1) * 512 + i0) * 4096).
  assert (0 <= va < MAXVA) as Hv by (change MAXVA with (256 * 512 * 512 * 4096); unfold va; lia).
  exists va. split; [done|]. pose proof (PX_page va Hv) as E.
  assert (va / PGSIZE = (i2 * 512 + i1) * 512 + i0) as E' by (unfold va, PGSIZE; now apply Z.div_mul).
  pose proof (PX_range 0 va ltac:(lia)). pose proof (PX_range 1 va ltac:(lia)). lia.
Qed.
