(* ===== verification/Csr.v ===== *)
(** * kernel/riscv.h: the registers of a hart

    The control and general registers, the privilege mode and the program counter,
    with the functions of riscv.h that read and write them. *)

From stdpp Require Import base gmap list numbers functions strings.
From S2P Require Import Prelude.

Open Scope Z_scope.

(** ** Registers *)

(** The general registers, without the one that is always 0. *)
Inductive xreg :=
  | Ra | Sp | Gp | Tp
  | T0 | T1 | T2 | T3 | T4 | T5 | T6
  | S0 | S1 | S2 | S3 | S4 | S5 | S6 | S7 | S8 | S9 | S10 | S11
  | A0 | A1 | A2 | A3 | A4 | A5 | A6 | A7.

#[export] Instance xreg_eq_dec : EqDecision xreg.
Proof. solve_decision. Defined.

Inductive reg :=
  | Mhartid | Mstatus | Mepc | Sstatus | Sip | Sie | Mie | Sepc | Medeleg | Mideleg | Stvec | Stimecmp | Menvcfg
  | Pmpcfg0 | Pmpaddr0 | Satp | Scause | Stval | Mcounteren | Time | Sscratch
  | X (r : xreg).

#[export] Instance reg_eq_dec : EqDecision reg.
Proof. solve_decision. Defined.

Inductive mode := MMode | SMode | UMode.

(** The registers, the privilege mode and the program counter. *)
Record hart := Hart { h_reg : reg -> Z; h_mode : mode; h_pc : Z }.

Local Abbreviation H := (M hart).

Definition csrr (r : reg) : H Z := gets (fun h => h_reg h r).
Definition csrw (r : reg) (x : Z) : H unit := modify (fun h => Hart (<[r := u64 x]> (h_reg h)) (h_mode h) (h_pc h)).

Definition r_mhartid : H Z := csrr Mhartid.
Definition r_mstatus : H Z := csrr Mstatus.
Definition w_mstatus : Z -> H unit := csrw Mstatus.
Definition w_mepc : Z -> H unit := csrw Mepc.
Definition r_sstatus : H Z := csrr Sstatus.
Definition w_sstatus : Z -> H unit := csrw Sstatus.
Definition r_sip : H Z := csrr Sip.
Definition w_sip : Z -> H unit := csrw Sip.
Definition r_sie : H Z := csrr Sie.
Definition w_sie : Z -> H unit := csrw Sie.
Definition r_mie : H Z := csrr Mie.
Definition w_mie : Z -> H unit := csrw Mie.
Definition w_sepc : Z -> H unit := csrw Sepc.
Definition r_sepc : H Z := csrr Sepc.
Definition r_medeleg : H Z := csrr Medeleg.
Definition w_medeleg : Z -> H unit := csrw Medeleg.
Definition r_mideleg : H Z := csrr Mideleg.
Definition w_mideleg : Z -> H unit := csrw Mideleg.
Definition w_stvec : Z -> H unit := csrw Stvec.
Definition r_stvec : H Z := csrr Stvec.
Definition r_stimecmp : H Z := csrr Stimecmp.
Definition w_stimecmp : Z -> H unit := csrw Stimecmp.
Definition r_menvcfg : H Z := csrr Menvcfg.
Definition w_menvcfg : Z -> H unit := csrw Menvcfg.
Definition w_pmpcfg0 : Z -> H unit := csrw Pmpcfg0.
Definition w_pmpaddr0 : Z -> H unit := csrw Pmpaddr0.
Definition w_satp : Z -> H unit := csrw Satp.
Definition r_satp : H Z := csrr Satp.
Definition r_scause : H Z := csrr Scause.
Definition r_stval : H Z := csrr Stval.
Definition w_mcounteren : Z -> H unit := csrw Mcounteren.
Definition r_mcounteren : H Z := csrr Mcounteren.
Definition r_time : H Z := csrr Time.
Definition r_sp : H Z := csrr (X Sp).
Definition r_fp : H Z := csrr (X S0).
Definition r_tp : H Z := csrr (X Tp).
Definition w_tp : Z -> H unit := csrw (X Tp).
Definition r_ra : H Z := csrr (X Ra).

Definition MSTATUS_MPP_MASK : Z := Z.shiftl 3 11.
Definition MSTATUS_MPP_M : Z := Z.shiftl 3 11.
Definition MSTATUS_MPP_S : Z := Z.shiftl 1 11.
Definition SIE_SEIE : Z := Z.shiftl 1 9.
Definition SIE_STIE : Z := Z.shiftl 1 5.
Definition SIE_SSIE : Z := Z.shiftl 1 1.
Definition MIE_STIE : Z := Z.shiftl 1 5.

(** The instruction [mret]: to [mepc], in the mode that the field MPP of
    [mstatus] holds.  The interrupt-enable bits that it moves do not matter here. *)
Definition mret_ : H unit := modify (fun h =>
  let mpp := Z.land (Z.shiftr (h_reg h Mstatus) 11) 3 in
  Hart (h_reg h) (if mpp =? 3 then MMode else if mpp =? 1 then SMode else UMode) (h_reg h Mepc)).
