(* ===== verification/Kalloc.v ===== *)
(** * kernel/kalloc.c

    The physical page allocator.  Its free list is threaded through the free
    pages themselves: [r->next] is the word at the page's address.  The state
    is the hart that runs, [kmem.lock], [kmem.freelist] and the memory.

    [PageAllocator] is what the allocator promises to its clients (vm.c,
    proc.c, pipe.c); [kmem_allocator_spec] proves the code keeps it. *)

From stdpp Require Import base gmap list numbers strings.
From S2P Require Import Prelude Mem StringC Spinlock Riscv.

Open Scope Z_scope.

(** ** The interface *)

(** The operations of a page allocator over a state [S] with memory. *)
Class PageAllocator (S : Type) := {
  mem_of : S -> memory;
  set_mem : memory -> S -> S;
  pa_kalloc : M S Z;
  pa_kfree : Z -> M S unit;
}.

(** Their contract.  [pa_inv s F]: the allocator's state is consistent and
    exactly the pages [F] are free.  Nothing is promised about the contents
    of a free page, and the owner of [s] keeps its hands off them. *)
Class PageAllocatorSpec (S : Type) `{PageAllocator S} := {
  valid_page : Z -> Prop;
  pa_inv : S -> gset Z -> Prop;
  valid_page_range p : valid_page p -> p mod PGSIZE = 0 /\ 0 < p /\ p + PGSIZE <= 2^54;
  mem_set_mem m s : mem_of (set_mem m s) = m;
  set_mem_mem s : set_mem (mem_of s) s = s;
  set_set_mem m m' s : set_mem m' (set_mem m s) = set_mem m' s;
  pa_free_valid s F p : pa_inv s F -> p ∈ F -> valid_page p;
  pa_set_mem s F m :
    pa_inv s F -> (forall p, p ∈ F -> same_bytes (mem_of s) m p PGSIZE) ->
    pa_inv (set_mem m s) F;
  pa_kalloc_none s :
    pa_inv s ∅ ->
    exists s', pa_kalloc s = Ok 0 s' /\ pa_inv s' ∅ /\ mem_of s' = mem_of s;
  pa_kalloc_some s F :
    pa_inv s F -> F ≠ ∅ ->
    exists p s', pa_kalloc s = Ok p s' /\ p ∈ F /\ pa_inv s' (F ∖ {[p]}) /\
      frame_bytes (mem_of s) (mem_of s') p PGSIZE;
  pa_kfree_ok s F p :
    pa_inv s F -> valid_page p -> p ∉ F ->
    exists s', pa_kfree p s = Ok tt s' /\ pa_inv s' ({[p]} ∪ F) /\
      frame_bytes (mem_of s) (mem_of s') p PGSIZE;
}.

(** ** State *)

Record kstate := KState {
  k_hart : nat;
  k_cpu : cpu;
  k_lock : spinlock;
  k_freelist : Z;
  k_mem : memory;
}.

#[export] Instance kstate_hart : Hart kstate :=
  {| cpuid := k_hart;
     mycpu := Field k_cpu (fun c s => KState (k_hart s) c (k_lock s) (k_freelist s) (k_mem s)) |}.

Definition kmem_lock : field kstate spinlock :=
  Field k_lock (fun l s => KState (k_hart s) (k_cpu s) l (k_freelist s) (k_mem s)).

Definition set_freelist (v : Z) (s : kstate) : kstate :=
  KState (k_hart s) (k_cpu s) (k_lock s) v (k_mem s).

Definition set_kmem (m : memory) (s : kstate) : kstate :=
  KState (k_hart s) (k_cpu s) (k_lock s) (k_freelist s) m.

(** ** Operations *)

Section ops.
(** The address of the linker's [end] symbol. *)
Context (kend : Z).

Definition kfree (pa : Z) : M kstate unit :=
  if negb (pa mod PGSIZE =? 0) || (pa <? kend) || (PHYSTOP <=? pa)
  then panic "kfree" else
  modify (fun s => set_kmem (memset (k_mem s) pa 1 PGSIZE) s);;
  acquire kmem_lock;;
  modify (fun s => set_kmem (store64 (k_mem s) pa (k_freelist s)) s);;
  modify (set_freelist pa);;
  release kmem_lock.

Definition kalloc : M kstate Z :=
  acquire kmem_lock;;
  r ← gets k_freelist;
  (if truthy r then modify (fun s => set_freelist (load64 (k_mem s) r) s) else mret tt);;
  release kmem_lock;;
  (if truthy r then modify (fun s => set_kmem (memset (k_mem s) r 5 PGSIZE) s) else mret tt);;
  mret r.

(** [for(; p + PGSIZE <= pa_end; p += PGSIZE) kfree(p);] *)
Fixpoint freerange_loop (fuel : nat) (p pa_end : Z) : M kstate unit :=
  match fuel with
  | O => diverge
  | S fuel' =>
      if p + PGSIZE <=? pa_end
      then kfree p;; freerange_loop fuel' (p + PGSIZE) pa_end
      else mret tt
  end.

(** The loop takes one round per page of the range, so this fuel suffices. *)
Definition freerange (pa_start pa_end : Z) : M kstate unit :=
  let p := PGROUNDUP pa_start in
  freerange_loop (S (Z.to_nat ((pa_end - p) / PGSIZE))) p pa_end.

Definition kinit : M kstate unit :=
  modify (fun s => fset kmem_lock (initlock "kmem") s);;
  freerange kend PHYSTOP.

(** ** Clients *)

(** What a client of the allocator can do, [o] being the pages it holds:
    allocate, free a page it holds, write inside one. *)
Inductive client_step : gset Z * kstate -> gset Z * kstate -> Prop :=
| client_alloc o s p s' :
    kalloc s = Ok p s' -> p <> 0 -> client_step (o, s) ({[p]} ∪ o, s')
| client_no_memory o s s' :
    kalloc s = Ok 0 s' -> client_step (o, s) (o, s')
| client_free o s p s' :
    p ∈ o -> kfree p s = Ok tt s' -> client_step (o, s) (o ∖ {[p]}, s')
| client_write o s p a v :
    p ∈ o -> p <= a < p + PGSIZE ->
    client_step (o, s) (o, set_kmem (wr (k_mem s) a v) s).

(** The [n] pages from [p]. *)
Fixpoint page_run (p : Z) (n : nat) : list Z :=
  match n with
  | O => []
  | S n' => p :: page_run (p + PGSIZE) n'
  end.

(** ** Invariant *)

(** The pages [kfree] accepts. *)
Definition kpage (p : Z) : Prop := p mod PGSIZE = 0 /\ kend <= p < PHYSTOP.

(** The free list from [head] visits the pages [fl]. *)
Fixpoint free_chain (m : memory) (head : Z) (fl : list Z) : Prop :=
  match fl with
  | [] => head = 0
  | p :: fl' => head = p /\ free_chain m (load64 m p) fl'
  end.

(** The lock is free and the hart's interrupt bookkeeping is consistent. *)
Definition lock_free (s : kstate) : Prop :=
  locked (k_lock s) = 0 /\ 0 <= noff (k_cpu s) /\
  (noff (k_cpu s) <> 0 -> intr (k_cpu s) = false).

Record kinv (s : kstate) (fl : list Z) : Prop := KInv {
  kinv_chain : free_chain (k_mem s) (k_freelist s) fl;
  kinv_nodup : NoDup fl;
  kinv_pages : Forall kpage fl;
  kinv_lock : lock_free s;
}.

#[export] Instance kmem_allocator : PageAllocator kstate :=
  {| mem_of := k_mem; set_mem := set_kmem; pa_kalloc := kalloc; pa_kfree := kfree |}.

(** ** Lemmas *)

Hypothesis kend_pos : 0 < kend.

Lemma kpage_pos p : kpage p -> 0 < p.
Proof. intros [_ ?]. lia. Qed.

Lemma kpage_u64 p : kpage p -> is_u64 p.
Proof. intros [_ ?]. unfold is_u64. change PHYSTOP with 2281701376 in *. lia. Qed.

(** Distinct pages do not overlap. *)
Lemma aligned_apart p q :
  p mod PGSIZE = 0 -> q mod PGSIZE = 0 -> p <> q -> p + PGSIZE <= q \/ q + PGSIZE <= p.
Proof. unfold PGSIZE. intros. dlia. Qed.

Lemma kpages_apart p q : kpage p -> kpage q -> p <> q -> p + PGSIZE <= q \/ q + PGSIZE <= p.
Proof. intros [? _] [? _]. now apply aligned_apart. Qed.

(** The chain lives in the first words of its pages. *)
Lemma free_chain_ext m m' head fl :
  (forall p, p ∈ fl -> same_bytes m m' p 8) -> free_chain m head fl -> free_chain m' head fl.
Proof.
  revert head; induction fl as [|p fl IH]; intros head Hs; cbn; [done|].
  intros [E Hc]. split; [done|]. rewrite (load64_ext m m' p) by (apply Hs; left).
  apply IH; [|done]. intros q Hq. apply Hs. now right.
Qed.

(** The state inside the critical section entered from [s]. *)
Definition held (s : kstate) : kstate :=
  KState (k_hart s) (push_off_cpu (k_cpu s))
    (Spinlock 1 (name (k_lock s)) (Some (k_hart s))) (k_freelist s) (k_mem s).

Lemma acquire_held s : lock_free s -> acquire kmem_lock s = Ok tt (held s).
Proof. intros (Hl & _). destruct s as [h c [l nm oc] fr m]; cbn in *. now subst l. Qed.

Lemma release_held s fr m :
  lock_free s ->
  exists s', release kmem_lock (set_freelist fr (set_kmem m (held s))) = Ok tt s' /\
    lock_free s' /\ k_freelist s' = fr /\ k_mem s' = m.
Proof.
  intros (Hl & Hn & Hi). destruct (pop_push_off _ Hn Hi) as (c' & Hpop & En & Ei & _).
  eexists. split.
  { unfold release, holding, pop_off, mbind, M_bind, gets, modify, holding_lock. cbn.
    rewrite bool_decide_true by done. cbn. rewrite Hpop. reflexivity. }
  unfold lock_free. cbn. rewrite En, Ei. auto.
Qed.

Lemma kfree_kinv s fl p :
  kinv s fl -> kpage p -> p ∉ fl ->
  exists s', kfree p s = Ok tt s' /\ kinv s' (p :: fl) /\
    frame_bytes (k_mem s) (k_mem s') p PGSIZE.
Proof.
  intros [Hc Hnd Hp Hl] Hk Hni. unfold kfree.
  pose proof Hk as [Ha Hr]. zdecide. cbn [negb orb].
  set (s0 := set_kmem (memset (k_mem s) p 1 PGSIZE) s).
  assert (lock_free s0) as Hl0 by done.
  destruct (release_held s0 p (store64 (k_mem s0) p (k_freelist s)) Hl0)
    as (s' & Hrel & Hl' & Hf' & Hm').
  assert (frame_bytes (k_mem s) (k_mem s') p PGSIZE) as Hfr.
  { intros x Hx. rewrite Hm', rd_store64_out by (unfold PGSIZE in *; lia).
    apply memset_frame; [done|done]. }
  exists s'. split; [|split; [|done]].
  - erewrite bind_ok by reflexivity. fold s0.
    rewrite (bind_ok _ _ _ _ _ (acquire_held _ Hl0)).
    do 2 (erewrite bind_ok by reflexivity). exact Hrel.
  - assert (forall q, q ∈ fl -> same_bytes (k_mem s) (k_mem s') q 8) as Hs.
    { intros q Hq. rewrite Forall_forall in Hp.
      apply (frame_same _ _ p PGSIZE); [done|].
      assert (p <> q) as Hne by (intros E; apply Hni; rewrite E; exact Hq).
      pose proof (kpages_apart p q Hk (Hp q Hq) Hne). unfold PGSIZE in *. lia. }
    split; [|now constructor|constructor; done|done].
    cbn. split; [done|]. rewrite Hm', load64_store64_eq.
    assert (u64 (k_freelist s) = k_freelist s) as ->.
    { apply u64_small. destruct fl as [|q fl]; cbn in Hc.
      - rewrite Hc. unfold is_u64. lia.
      - destruct Hc as [-> _]. inversion Hp; subst. now apply kpage_u64. }
    rewrite <- Hm'. now apply (free_chain_ext (k_mem s)).
Qed.

Lemma kfree_bad p s : ~ kpage p -> kfree p s = Panic "kfree".
Proof.
  intros Hk. unfold kfree.
  destruct (negb (p mod PGSIZE =? 0) || (p <? kend) || (PHYSTOP <=? p)) eqn:E; [done|].
  exfalso. apply Hk. zbool. split; lia.
Qed.

Lemma kalloc_nil s :
  kinv s [] -> exists s', kalloc s = Ok 0 s' /\ kinv s' [] /\ k_mem s' = k_mem s.
Proof.
  intros [Hc _ _ Hl]. cbn in Hc.
  destruct (release_held s 0 (k_mem s) Hl) as (s' & Hrel & Hl' & Hf' & Hm').
  exists s'. split; [|split; [|first [exact Hm' | reflexivity]]].
  - unfold kalloc. rewrite (bind_ok _ _ _ _ _ (acquire_held _ Hl)).
    erewrite bind_ok by reflexivity. cbn [held k_freelist]. rewrite Hc. cbn [truthy Z.eqb negb].
    erewrite bind_ok by reflexivity.
    assert (held s = set_freelist 0 (set_kmem (k_mem s) (held s))) as Eh.
    { unfold held, set_freelist, set_kmem. cbn. now rewrite Hc. }
    rewrite Eh. rewrite (bind_ok _ _ _ _ _ Hrel). reflexivity.
  - split; [done|constructor|constructor|done].
Qed.

Lemma kalloc_cons s p fl :
  kinv s (p :: fl) ->
  exists s', kalloc s = Ok p s' /\ kinv s' fl /\ k_mem s' = memset (k_mem s) p 5 PGSIZE.
Proof.
  intros [[Hh Hc] [Hni Hnd']%NoDup_cons [Hk Hp']%Forall_cons Hl].
  destruct (release_held s (load64 (k_mem s) p) (k_mem s) Hl) as (s' & Hrel & Hl' & Hf' & Hm').
  exists (set_kmem (memset (k_mem s) p 5 PGSIZE) s'). split; [|split; [|first [exact Hm' | reflexivity]]].
  - unfold kalloc. rewrite (bind_ok _ _ _ _ _ (acquire_held _ Hl)).
    erewrite bind_ok by reflexivity. cbn [held k_freelist]. rewrite Hh.
    assert (truthy p = true) as Ht.
    { unfold truthy. pose proof (kpage_pos _ Hk). now zdecide. }
    rewrite Ht. erewrite bind_ok by reflexivity.
    change (set_freelist _ (held s)) with
      (set_freelist (load64 (k_mem s) p) (set_kmem (k_mem s) (held s))).
    rewrite (bind_ok _ _ _ _ _ Hrel). erewrite bind_ok by reflexivity.
    rewrite Hm'. reflexivity.
  - split; [|done|done|done]. cbn. rewrite Hf'.
    apply (free_chain_ext (k_mem s)); [|done]. intros q Hq.
    apply (frame_same _ _ p PGSIZE); [now apply memset_frame|].
    rewrite Forall_forall in Hp'.
    assert (p <> q) as Hne by (intros E; apply Hni; rewrite E; exact Hq).
    pose proof (kpages_apart p q Hk (Hp' q Hq) Hne). unfold PGSIZE in *. lia.
Qed.

#[local] Opaque kalloc kfree.

Lemma elem_of_page_run p n q : q ∈ page_run p n -> p <= q < p + Z.of_nat n * PGSIZE.
Proof.
  revert p; induction n as [|n IH]; intros p; cbn [page_run].
  - intros []%not_elem_of_nil.
  - rewrite elem_of_cons. intros [->|Hq%IH]; unfold PGSIZE in *; lia.
Qed.

Lemma freerange_loop_kinv n fuel p pe s fl :
  kinv s fl -> p mod PGSIZE = 0 -> kend <= p -> pe <= PHYSTOP ->
  p + Z.of_nat n * PGSIZE <= pe < p + Z.of_nat n * PGSIZE + PGSIZE ->
  (n < fuel)%nat -> (forall q, q ∈ fl -> q < p) ->
  exists s', freerange_loop fuel p pe s = Ok tt s' /\ kinv s' (reverse (page_run p n) ++ fl) /\ (forall x, x < p \/ pe <= x -> rd (k_mem s') x = rd (k_mem s) x).
Proof.
  revert fuel p s fl; induction n as [|n IH]; intros fuel p s fl Hi Ha He Hp Hr Hf Hlt;
    (destruct fuel as [|fuel]; [lia|]); cbn [freerange_loop page_run].
  - destruct (Z.leb_spec (p + PGSIZE) pe); [lia|]. exists s. auto.
  - destruct (Z.leb_spec (p + PGSIZE) pe) as [Hle|]; [|unfold PGSIZE in *; lia].
    destruct (kfree_kinv s fl p) as (s1 & Hk & Hi1 & Hf1); [done| |intros Hin; specialize (Hlt p Hin); lia|].
    { split; [done|]. unfold PGSIZE in *. lia. }
    destruct (IH fuel (p + PGSIZE) s1 (p :: fl)) as (s2 & Hl & Hi2 & Hf2); try done.
    { unfold PGSIZE in *. dlia. }
    { unfold PGSIZE in *. lia. }
    { unfold PGSIZE in *. lia. }
    { lia. }
    { intros q [->|Hq]%elem_of_cons; [|specialize (Hlt q Hq)]; unfold PGSIZE; lia. }
    exists s2. rewrite (bind_ok _ _ _ _ _ Hk). split; [exact Hl|].
    split; [rewrite reverse_cons, <- app_assoc; exact Hi2|].
    intros x Hx. rewrite Hf2 by (unfold PGSIZE; lia). apply Hf1. unfold PGSIZE in *. lia.
Qed.

Lemma client_step_inv o s o' s' F :
  client_step (o, s) (o', s') -> (forall q, q ∈ F -> kpage q) ->
  (exists fl, kinv s fl /\ o ## list_to_set fl /\ o ∪ list_to_set fl = F) ->
  exists fl, kinv s' fl /\ o' ## list_to_set fl /\ o' ∪ list_to_set fl = F.
Proof.
  intros Hs HFp (fl & Hi & Hd & HF).
  inversion Hs as [? ? p ? Hk Hp|? ? ? Hk|? ? p ? Hp Hk|? ? p a v Hp Ha]; subst.
  - destruct fl as [|q fl].
    { destruct (kalloc_nil s Hi) as (? & Hk' & _). congruence. }
    destruct (kalloc_cons s q fl Hi) as (? & Hk' & Hi' & _).
    assert (p = q) as -> by congruence. assert (s' = x) as -> by congruence.
    exists fl. split; [done|]. destruct Hi as [_ [Hni _]%NoDup_cons _ _].
    split; set_solver.
  - destruct fl as [|q fl].
    { destruct (kalloc_nil s Hi) as (? & Hk' & Hi' & _).
      assert (s' = x) as -> by congruence. exists []. auto. }
    destruct (kalloc_cons s q fl Hi) as (? & Hk' & Hi' & _).
    destruct Hi as [_ _ [Hq _]%Forall_cons _]. apply kpage_pos in Hq.
    assert (q = 0) by congruence. lia.
  - assert (kpage p) as Hkp by (apply HFp; set_solver).
    destruct (kfree_kinv s fl p) as (? & Hk' & Hi' & _); [done|done|set_solver|].
    assert (s' = x) as -> by congruence. exists (p :: fl). split; [done|].
    split; [set_solver|]. cbn. apply set_eq. intros x'.
    destruct (decide (x' = p)); set_solver.
  - exists fl. split; [|done]. destruct Hi as [Hc Hnd Hpg Hl]. split; [|done|done|done].
    cbn. apply (free_chain_ext (k_mem s)); [|done]. intros q Hq x Hx.
    apply rd_wr_ne. assert (p <> q) as Hne by set_solver.
    assert (kpage p) as Hkp by (apply HFp; set_solver).
    rewrite Forall_forall in Hpg.
    pose proof (kpages_apart p q Hkp (Hpg q Hq) Hne). unfold PGSIZE in *. lia.
Qed.

Lemma client_steps_inv st st' F :
  rtc client_step st st' -> (forall q, q ∈ F -> kpage q) ->
  (exists fl, kinv st.2 fl /\ st.1 ## list_to_set fl /\ st.1 ∪ list_to_set fl = F) ->
  exists fl, kinv st'.2 fl /\ st'.1 ## list_to_set fl /\ st'.1 ∪ list_to_set fl = F.
Proof.
  intros Hr HF. induction Hr as [|[o s] [o' s'] st3 Hs _ IH]; [done|].
  intros Hi. apply IH. eapply client_step_inv; eauto.
Qed.

#[export] Instance kmem_allocator_spec : PageAllocatorSpec kstate.
Proof.
  refine {| valid_page := kpage;
            pa_inv := fun s F => exists fl, kinv s fl /\ F = list_to_set fl |}.
  - intros p [Ha Hr]. change PHYSTOP with 2281701376 in Hr. unfold PGSIZE in *. lia.
  - done.
  - intros []. done.
  - done.
  - intros s F p (fl & [_ _ Hp _] & ->). rewrite elem_of_list_to_set, Forall_forall in *. auto.
  - intros s F m (fl & [Hc Hnd Hp Hl] & ->) Hs. exists fl. split; [|done].
    split; [|done|done|done]. cbn. apply (free_chain_ext (k_mem s)); [|done].
    intros p Hin. eapply same_bytes_sub; [apply (Hs p), elem_of_list_to_set; exact Hin|lia|unfold PGSIZE; lia].
  - intros s (fl & Hi & HF). destruct fl as [|q fl]; [|set_solver].
    destruct (kalloc_nil s Hi) as (s' & ? & ? & ?). eauto 10.
  - intros s F (fl & Hi & ->) Hne. destruct fl as [|q fl]; [done|].
    destruct (kalloc_cons s q fl Hi) as (s' & Hk & Hi' & Hm). exists q, s'.
    split; [exact Hk|]. split; [now apply elem_of_list_to_set; left|]. split.
    + exists fl. split; [exact Hi'|]. destruct Hi as [_ [Hni _]%NoDup_cons _ _].
      clear Hk Hm. set_solver.
    + cbn. rewrite Hm. apply memset_frame. unfold PGSIZE. lia.
  - intros s F p (fl & Hi & ->) Hp Hni. rewrite elem_of_list_to_set in Hni.
    destruct (kfree_kinv s fl p Hi Hp Hni) as (s' & ? & ? & ?). exists s'. eauto 10.
Defined.

(** Boot: [kinit] returns, and the free list then holds every whole page
    between [end] and [PHYSTOP], each once, highest first; the memory below is as
    it was. *)
Theorem kinit_frees_all_memory s :
  kend + 2 * PGSIZE <= PHYSTOP -> k_freelist s = 0 ->
  0 <= noff (k_cpu s) -> (noff (k_cpu s) <> 0 -> intr (k_cpu s) = false) ->
  let first := PGROUNDUP kend in
  exists s', kinit s = Ok tt s' /\
    kinv s' (reverse (page_run first (Z.to_nat ((PHYSTOP - first) / PGSIZE)))) /\
    first mod PGSIZE = 0 /\ kend <= first < kend + PGSIZE /\ (forall x, x < kend -> rd (k_mem s') x = rd (k_mem s) x).
Proof.
  intros He Hf Hn Hi first. change PHYSTOP with 2281701376 in *.
  destruct (PGROUNDUP_spec kend) as [Ha Hr]; [unfold PGSIZE in *; lia..|].
  fold first in Ha, Hr. unfold kinit, freerange. fold first.
  erewrite bind_ok by reflexivity.
  edestruct (freerange_loop_kinv (Z.to_nat ((2281701376 - first) / PGSIZE))
    (S (Z.to_nat ((2281701376 - first) / PGSIZE))) first 2281701376) as (s' & Hl & Hs' & Hm').
  8: { exists s'. split; [exact Hl|]. rewrite app_nil_r in Hs'. split; [done|]. split; [done|]. split; [done|]. intros x Hx. apply Hm'. lia. }
  - split; [exact Hf|constructor|constructor|]. repeat split; done.
  - done.
  - lia.
  - done.
  - rewrite Z2Nat.id by (unfold PGSIZE in *; dlia). unfold PGSIZE in *. dlia.
  - lia.
  - intros q []%not_elem_of_nil.
Qed.

(** C4: no page is lost or handed out twice.  Whatever a client allocates,
    frees and writes inside its own pages, the pages it holds and the pages
    on the free list stay disjoint and together are the pages the allocator
    started with; the next [kalloc] returns, and gives 0 only when the free
    list is empty; freeing any page the client holds returns. *)
Theorem kalloc_conserves_pages s fl o s' :
  kinv s fl -> rtc client_step (∅, s) (o, s') ->
  exists fl', kinv s' fl' /\ o ## list_to_set fl' /\ o ∪ list_to_set fl' = list_to_set fl /\
    (exists s2, kalloc s' = Ok (default 0 (head fl')) s2 /\ kinv s2 (tail fl')) /\
    (forall p, p ∈ o -> exists s2, kfree p s' = Ok tt s2 /\ kinv s2 (p :: fl')).
Proof.
  intros Hi Hr.
  assert (forall q, q ∈ (list_to_set fl : gset Z) -> kpage q) as HF.
  { intros q. rewrite elem_of_list_to_set. destruct Hi as [_ _ Hp _].
    rewrite Forall_forall in Hp. apply Hp. }
  destruct (client_steps_inv _ _ (list_to_set fl) Hr HF) as (fl' & Hi' & Hd & HU).
  { exists fl. split; [exact Hi|]. set_solver. }
  cbn in *. exists fl'. split; [done|]. split; [done|]. split; [done|]. split.
  - destruct fl' as [|q fl']; cbn.
    + destruct (kalloc_nil s' Hi') as (s2 & ? & ? & _). eauto.
    + destruct (kalloc_cons s' q fl' Hi') as (s2 & ? & ? & _). eauto.
  - intros p Hp. destruct (kfree_kinv s' fl' p) as (s2 & ? & ? & _); eauto; set_solver.
Qed.

(** [kfree] panics, and changes nothing, exactly on the addresses that are
    not page-aligned or lie outside [end, PHYSTOP); after an accepted [kfree p] the
    next [kalloc] returns [p], filled with the byte 5. *)
Theorem kfree_guard_and_lifo s fl p :
  kinv s fl -> p ∉ fl ->
  (kfree p s = Panic "kfree" <-> ~ kpage p) /\
  (kpage p -> exists s1 s2, kfree p s = Ok tt s1 /\ kalloc s1 = Ok p s2 /\ kinv s2 fl /\
     forall a, p <= a < p + PGSIZE -> rd (k_mem s2) a = 5).
Proof.
  intros Hi Hni. split.
  - split; [|apply kfree_bad]. intros Hp Hk.
    destruct (kfree_kinv s fl p Hi Hk Hni) as (? & Hk' & _). congruence.
  - intros Hk. destruct (kfree_kinv s fl p Hi Hk Hni) as (s1 & Hf & Hi1 & _).
    destruct (kalloc_cons s1 p fl Hi1) as (s2 & Ha & Hi2 & Hm).
    exists s1, s2. refine (conj Hf (conj Ha (conj Hi2 _))). intros a Hr.
    rewrite Hm. apply memset_in; [unfold PGSIZE; lia|exact Hr].
Qed.
Lemma length_page_run p n : length (page_run p n) = n.
Proof. revert p. induction n as [|n IH]; intros p; cbn; [done|]. now rewrite IH. Qed.

(** With [n] pages and one more there are more than [n] free. *)
Lemma kinit_room s n : k_freelist s = 0 -> noff (k_cpu s) = 0 -> 0 <= n -> kend + (n + 2) * PGSIZE <= PHYSTOP ->
  exists s' fl, kinit s = Ok tt s' /\ kinv s' fl /\ n < Z.of_nat (length fl) /\ (forall x, x < kend -> rd (k_mem s') x = rd (k_mem s) x).
Proof.
  intros Hf Hc Hn He. destruct (kinit_frees_all_memory s) as (s' & E & Hi & Ha & Hr & Hm); [unfold PGSIZE in *; lia|done|lia|lia|].
  exists s'. eexists. split; [exact E|]. split; [exact Hi|]. split; [|exact Hm]. rewrite length_reverse, length_page_run.
  assert (n + 1 <= (PHYSTOP - PGROUNDUP kend) / PGSIZE) by (apply Z.div_le_lower_bound; unfold PGSIZE in *; lia). lia.
Qed.
End ops.

(** ** Witnesses: a kernel that ends 2.5 pages below PHYSTOP *)

Definition demo_end : Z := PHYSTOP - 10000.
Definition demo_kstate : kstate := KState 0 (Cpu 0 false true) (initlock "") 0 ∅.

Lemma kinit_frees_all_memory_witness :
  exists s', kinit demo_end demo_kstate = Ok tt s' /\
    kinv demo_end s' [PHYSTOP - 4096; PHYSTOP - 8192].
Proof.
  destruct (kinit_frees_all_memory demo_end ltac:(done) demo_kstate) as (s' & H & Hi & _);
    [vm_compute; congruence|done|done|done|].
  exists s'. split; [exact H|exact Hi].
Defined.

(** One free page: allocate it, write in it, free it again. *)
Lemma kalloc_conserves_pages_witness :
  exists s s' fl', kinv demo_end s [PHYSTOP - 4096] /\
    rtc (client_step demo_end) (∅, s) (∅ ∪ ({[PHYSTOP - 4096]} ∪ ∅) ∖ {[PHYSTOP - 4096]}, s') /\
    kinv demo_end s' fl' /\ list_to_set fl' = ({[PHYSTOP - 4096]} : gset Z).
Proof.
  set (p := PHYSTOP - 4096).
  assert (kpage demo_end p) as Hp by (split; [done|vm_compute; split; congruence]).
  assert (kinv demo_end demo_kstate []) as H0 by (split; [done|constructor|constructor|done]).
  destruct (kfree_kinv demo_end ltac:(done) demo_kstate [] p H0 Hp (not_elem_of_nil p)) as (s & _ & Hi & _).
  destruct (kalloc_cons demo_end ltac:(done) s p [] Hi) as (s1 & Ha & Hi1 & _).
  pose (s2 := set_kmem (wr (k_mem s1) (p + 7) 42) s1).
  assert (kinv demo_end s2 []) as Hi2 by (destruct Hi1; split; assumption).
  destruct (kfree_kinv demo_end ltac:(done) s2 [] p Hi2 Hp (not_elem_of_nil p)) as (s3 & Hf & Hi3 & _).
  assert (rtc (client_step demo_end) (∅, s) (∅ ∪ ({[p]} ∪ ∅) ∖ {[p]}, s3)) as Hr.
  { rewrite union_empty_l_L.
    eapply rtc_l; [apply (client_alloc _ _ _ p s1); [exact Ha|discriminate]|].
    eapply rtc_l; [apply (client_write _ _ _ p (p + 7) 42); [set_solver|unfold PGSIZE; lia]|].
    eapply rtc_l; [apply (client_free _ _ _ p s3); [set_solver|exact Hf]|apply rtc_refl]. }
  destruct (kalloc_conserves_pages demo_end ltac:(done) s [p] _ s3 Hi Hr)
    as (fl' & Hi' & Hd & HU & _).
  exists s, s3, fl'. split; [exact Hi|]. split; [exact Hr|]. split; [exact Hi'|].
  clear -HU. set_solver.
Defined.

Lemma kfree_guard_and_lifo_witness :
  exists s1 s2, kfree demo_end (PHYSTOP - 4096) demo_kstate = Ok tt s1 /\
    kalloc s1 = Ok (PHYSTOP - 4096) s2.
Proof.
  destruct (kfree_guard_and_lifo demo_end ltac:(done) demo_kstate [] (PHYSTOP - 4096))
    as [_ H]; [split; [done|constructor|constructor|done]|apply not_elem_of_nil|].
  destruct H as (s1 & s2 & ? & ? & _); [split; [done|vm_compute; split; congruence]|].
  eauto.
Defined.
