(* ===== verification/Vm.v ===== *)
(** * kernel/vm.c: the operations

    The page-table code over any page allocator: a state is what [Kalloc]'s
    interface [PageAllocator] says, so page tables live in the same memory
    as the pages they map.  Pointers are addresses, 0 is the null pointer,
    and an [int] result is 0 or -1 as in the source.  Loops that are not
    counted take fuel; the theorems show the fuel is never exhausted. *)

From stdpp Require Import base gmap list numbers strings.
From S2P Require Import Prelude Mem StringC Riscv Kalloc.

Open Scope Z_scope.

Section vm.
Context {St : Type} `{PA : PageAllocator St}.

(** [*pte] and [*pte = v] *)
Definition get_pte (pte : Z) : M St Z := gets (fun s => load64 (mem_of s) pte).
Definition put_pte (pte v : Z) : M St unit :=
  modify (fun s => set_mem (store64 (mem_of s) pte v) s).

(** The memory routines of string.c on this state. *)
Definition do_memset (dst c n : Z) : M St unit :=
  modify (fun s => set_mem (memset (mem_of s) dst c n) s).
Definition do_memmove (dst src n : Z) : M St unit :=
  modify (fun s => set_mem (memmove (mem_of s) dst src n) s).

(** [&pagetable[i]] *)
Definition pte_at (pagetable i : Z) : Z := pagetable + 8 * i.

(** The loop of [walk] from [level] down to the return. *)
Fixpoint walk_loop (level : nat) (pagetable va : Z) (alloc : bool) : M St Z :=
  match level with
  | O => mret (pte_at pagetable (PX 0 va))
  | S l =>
      let pte := pte_at pagetable (PX (Z.of_nat level) va) in
      v ← get_pte pte;
      if truthy (Z.land v PTE_V) then walk_loop l (PTE2PA v) va alloc
      else if negb alloc then mret 0
      else
        pagetable ← pa_kalloc;
        if pagetable =? 0 then mret 0
        else
          do_memset pagetable 0 PGSIZE;;
          put_pte pte (Z.lor (PA2PTE pagetable) PTE_V);;
          walk_loop l pagetable va alloc
  end.

Definition walk (pagetable va : Z) (alloc : bool) : M St Z :=
  if MAXVA <=? va then panic "walk" else walk_loop 2 pagetable va alloc.

Definition walkaddr (pagetable va : Z) : M St Z :=
  if MAXVA <=? va then mret 0 else
  pte ← walk pagetable va false;
  if pte =? 0 then mret 0 else
  v ← get_pte pte;
  if Z.land v PTE_V =? 0 then mret 0 else
  if Z.land v PTE_U =? 0 then mret 0 else
  mret (PTE2PA v).

(** [for(;;){ ... if(a == last) break; a += PGSIZE; pa += PGSIZE; }] *)
Fixpoint mappages_loop (fuel : nat) (pagetable a last pa perm : Z) : M St Z :=
  match fuel with
  | O => diverge
  | S fuel' =>
      pte ← walk pagetable a true;
      if pte =? 0 then mret (-1) else
      v ← get_pte pte;
      if truthy (Z.land v PTE_V) then panic "mappages: remap" else
      put_pte pte (Z.lor (Z.lor (PA2PTE pa) perm) PTE_V);;
      if a =? last then mret 0
      else mappages_loop fuel' pagetable (u64 (a + PGSIZE)) last (u64 (pa + PGSIZE)) perm
  end.

Definition mappages (pagetable va size pa perm : Z) : M St Z :=
  if negb (va mod PGSIZE =? 0) then panic "mappages: va not aligned" else
  if negb (size mod PGSIZE =? 0) then panic "mappages: size not aligned" else
  if size =? 0 then panic "mappages: size" else
  mappages_loop (Z.to_nat (size / PGSIZE)) pagetable va (u64 (va + size - PGSIZE)) pa perm.

Definition kvmmap (kpgtbl va pa sz perm : Z) : M St unit :=
  r ← mappages kpgtbl va sz pa perm;
  if negb (r =? 0) then panic "kvmmap" else mret tt.

(** [for(a = va; a < va + npages*PGSIZE; a += PGSIZE)] *)
Fixpoint uvmunmap_loop (fuel : nat) (pagetable a stop : Z) (do_free : bool) : M St unit :=
  match fuel with
  | O => diverge
  | S fuel' =>
      if a <? stop then
        pte ← walk pagetable a false;
        if pte =? 0 then panic "uvmunmap: walk" else
        v ← get_pte pte;
        if Z.land v PTE_V =? 0 then panic "uvmunmap: not mapped" else
        if PTE_FLAGS v =? PTE_V then panic "uvmunmap: not a leaf" else
        (if do_free then pa_kfree (PTE2PA v) else mret tt);;
        put_pte pte 0;;
        uvmunmap_loop fuel' pagetable (u64 (a + PGSIZE)) stop do_free
      else mret tt
  end.

Definition uvmunmap (pagetable va npages : Z) (do_free : bool) : M St unit :=
  if negb (va mod PGSIZE =? 0) then panic "uvmunmap: not aligned" else
  let stop := u64 (va + u64 (npages * PGSIZE)) in
  uvmunmap_loop (1 + Z.to_nat npages) pagetable va stop do_free.

Definition uvmcreate : M St Z :=
  pagetable ← pa_kalloc;
  if pagetable =? 0 then mret 0 else
  do_memset pagetable 0 PGSIZE;;
  mret pagetable.

Definition uvmfirst (pagetable src sz : Z) : M St unit :=
  if PGSIZE <=? sz then panic "uvmfirst: more than a page" else
  mem ← pa_kalloc;
  do_memset mem 0 PGSIZE;;
  _ ← mappages pagetable 0 PGSIZE mem (Z.lor (Z.lor (Z.lor PTE_W PTE_R) PTE_X) PTE_U);
  do_memmove mem src sz.

Definition uvmdealloc (pagetable oldsz newsz : Z) : M St Z :=
  if oldsz <=? newsz then mret oldsz else
  (if PGROUNDUP newsz <? PGROUNDUP oldsz then
     let npages := i32 ((PGROUNDUP oldsz - PGROUNDUP newsz) / PGSIZE) in
     uvmunmap pagetable (PGROUNDUP newsz) (u64 npages) true
   else mret tt);;
  mret newsz.

(** [for(a = oldsz; a < newsz; a += PGSIZE)], [oldsz] rounded up. *)
Fixpoint uvmalloc_loop (fuel : nat) (pagetable a oldsz newsz xperm : Z) : M St Z :=
  match fuel with
  | O => diverge
  | S fuel' =>
      if a <? newsz then
        mem ← pa_kalloc;
        if mem =? 0 then (_ ← uvmdealloc pagetable a oldsz; mret 0) else
        do_memset mem 0 PGSIZE;;
        r ← mappages pagetable a PGSIZE mem (Z.lor (Z.lor PTE_R PTE_U) xperm);
        if negb (r =? 0) then
          (pa_kfree mem;; _ ← uvmdealloc pagetable a oldsz; mret 0)
        else uvmalloc_loop fuel' pagetable (u64 (a + PGSIZE)) oldsz newsz xperm
      else mret newsz
  end.

Definition uvmalloc (pagetable oldsz newsz xperm : Z) : M St Z :=
  if newsz <? oldsz then mret oldsz else
  let oldsz := PGROUNDUP oldsz in
  uvmalloc_loop (1 + Z.to_nat ((newsz - oldsz + PGSIZE - 1) / PGSIZE))
    pagetable oldsz oldsz newsz xperm.

(** The recursion is as deep as the page table: Sv39 has three levels. *)
Fixpoint freewalk (depth : nat) (pagetable : Z) : M St unit :=
  match depth with
  | O => diverge
  | S d =>
      for_loop 512 0 (fun i =>
        pte ← get_pte (pte_at pagetable i);
        if truthy (Z.land pte PTE_V) &&
           (Z.land pte (Z.lor (Z.lor PTE_R PTE_W) PTE_X) =? 0)
        then freewalk d (PTE2PA pte);; put_pte (pte_at pagetable i) 0
        else if truthy (Z.land pte PTE_V) then panic "freewalk: leaf"
        else mret tt);;
      pa_kfree pagetable
  end.

Definition uvmfree (pagetable sz : Z) : M St unit :=
  (if 0 <? sz then uvmunmap pagetable 0 (PGROUNDUP sz / PGSIZE) true else mret tt);;
  freewalk 3 pagetable.

(** [for(i = 0; i < sz; i += PGSIZE)], with the [err:] exit at its [goto]s. *)
Fixpoint uvmcopy_loop (fuel : nat) (old new i sz : Z) : M St Z :=
  match fuel with
  | O => diverge
  | S fuel' =>
      if i <? sz then
        pte ← walk old i false;
        if pte =? 0 then panic "uvmcopy: pte should exist" else
        v ← get_pte pte;
        if Z.land v PTE_V =? 0 then panic "uvmcopy: page not present" else
        let pa := PTE2PA v in
        let flags := PTE_FLAGS v in
        mem ← pa_kalloc;
        if mem =? 0 then (uvmunmap new 0 (i / PGSIZE) true;; mret (-1)) else
        do_memmove mem pa PGSIZE;;
        r ← mappages new i PGSIZE mem flags;
        if negb (r =? 0) then
          (pa_kfree mem;; uvmunmap new 0 (i / PGSIZE) true;; mret (-1))
        else uvmcopy_loop fuel' old new (u64 (i + PGSIZE)) sz
      else mret 0
  end.

Definition uvmcopy (old new sz : Z) : M St Z :=
  uvmcopy_loop (1 + Z.to_nat ((sz + PGSIZE - 1) / PGSIZE)) old new 0 sz.

Definition uvmclear (pagetable va : Z) : M St unit :=
  pte ← walk pagetable va false;
  if pte =? 0 then panic "uvmclear" else
  v ← get_pte pte;
  put_pte pte (Z.land v (u64 (Z.lnot PTE_U))).

(** Every round of [copyout] and [copyin] but the first and the last copies
    a whole page. *)
Definition copy_fuel (len : Z) : nat := Z.to_nat (len / PGSIZE + 3).

Fixpoint copyout_loop (fuel : nat) (pagetable dstva src len : Z) : M St Z :=
  match fuel with
  | O => diverge
  | S fuel' =>
      if 0 <? len then
        let va0 := PGROUNDDOWN dstva in
        if MAXVA <=? va0 then mret (-1) else
        pte ← walk pagetable va0 false;
        if pte =? 0 then mret (-1) else
        v ← get_pte pte;
        if (Z.land v PTE_V =? 0) || (Z.land v PTE_U =? 0) || (Z.land v PTE_W =? 0)
        then mret (-1) else
        let pa0 := PTE2PA v in
        let n := PGSIZE - (dstva - va0) in
        let n := if len <? n then len else n in
        do_memmove (pa0 + (dstva - va0)) src n;;
        copyout_loop fuel' pagetable (u64 (va0 + PGSIZE)) (src + n) (len - n)
      else mret 0
  end.

Definition copyout (pagetable dstva src len : Z) : M St Z :=
  copyout_loop (copy_fuel len) pagetable dstva src len.

Fixpoint copyin_loop (fuel : nat) (pagetable dst srcva len : Z) : M St Z :=
  match fuel with
  | O => diverge
  | S fuel' =>
      if 0 <? len then
        let va0 := PGROUNDDOWN srcva in
        pa0 ← walkaddr pagetable va0;
        if pa0 =? 0 then mret (-1) else
        let n := PGSIZE - (srcva - va0) in
        let n := if len <? n then len else n in
        do_memmove dst (pa0 + (srcva - va0)) n;;
        copyin_loop fuel' pagetable (dst + n) (u64 (va0 + PGSIZE)) (len - n)
      else mret 0
  end.

Definition copyin (pagetable dst srcva len : Z) : M St Z :=
  copyin_loop (copy_fuel len) pagetable dst srcva len.

(** [while(n > 0){ ... }]: copy bytes until a NUL or [n] of them; the result
    is whether a NUL was copied. *)
Fixpoint copyinstr_page (n : nat) (p dst : Z) : M St bool :=
  match n with
  | O => mret false
  | S n' =>
      c ← gets (fun s => rd (mem_of s) p);
      if c =? 0 then
        (modify (fun s => set_mem (wr (mem_of s) dst 0) s);; mret true)
      else
        (modify (fun s => set_mem (wr (mem_of s) dst c) s);;
         copyinstr_page n' (p + 1) (dst + 1))
  end.

Fixpoint copyinstr_loop (fuel : nat) (pagetable dst srcva max : Z) : M St Z :=
  match fuel with
  | O => diverge
  | S fuel' =>
      if 0 <? max then
        let va0 := PGROUNDDOWN srcva in
        pa0 ← walkaddr pagetable va0;
        if pa0 =? 0 then mret (-1) else
        let n := PGSIZE - (srcva - va0) in
        let n := if max <? n then max else n in
        got_null ← copyinstr_page (Z.to_nat n) (pa0 + (srcva - va0)) dst;
        if (got_null : bool) then mret 0
        else copyinstr_loop fuel' pagetable (dst + n) (u64 (va0 + PGSIZE)) (max - n)
      else mret (-1)
  end.

Definition copyinstr (pagetable dst srcva max : Z) : M St Z :=
  copyinstr_loop (copy_fuel max) pagetable dst srcva max.

End vm.
