(* ===== verification/PageTable.v ===== *)
(** * kernel/vm.c: page tables as maps

    What the bytes of a page table mean.  A page table in memory is described
    by the map [T] from paths of indices (root [[]], level 1 [[i2]], level 0
    [[i2; i1]]) to the page that holds the table.  [pt_inv] says the memory
    is that tree, every table in a page of its own; [leaf T m va] is the
    entry for [va], 0 if there is no level-0 table.  The theorems state the
    operations of [Vm] on [leaf]. *)

From stdpp Require Import base gmap list numbers strings.
From S2P Require Import Prelude Mem StringC Riscv Kalloc Vm.

Open Scope Z_scope.

Abbreviation ptree := (gmap (list Z) Z).

(** The two indices that lead to the level-0 table of [va]. *)
Definition path (va : Z) : list Z := [PX 2 va; PX 1 va].

(** The address of the level-0 entry of [va], 0 if its table is missing. *)
Definition slot (T : ptree) (va : Z) : Z :=
  match T !! path va with
  | Some a => pte_at a (PX 0 va)
  | None => 0
  end.

(** The level-0 entry of [va]. *)
Definition leaf (T : ptree) (m : memory) (va : Z) : Z :=
  match T !! path va with
  | Some a => load64 m (pte_at a (PX 0 va))
  | None => 0
  end.

(** [x] and [y] are in the same virtual page. *)
Definition same_page (x y : Z) : bool := x / PGSIZE =? y / PGSIZE.

Section pagetable.
Context {St : Type} `{PA : PageAllocator St} `{PS : !PageAllocatorSpec St}.

#[local] Abbreviation vpage := (valid_page (S := St)).

Record pt_inv (m : memory) (root : Z) (T : ptree) : Prop := PtInv {
  pt_root : T !! [] = Some root;
  pt_page p a : T !! p = Some a -> vpage a;
  pt_inj p q a : T !! p = Some a -> T !! q = Some a -> p = q;
  pt_parent p i a :
    T !! (p ++ [i]) = Some a -> is_Some (T !! p) /\ (length p < 2)%nat /\ 0 <= i < 512;
  pt_low i p a : T !! (i :: p) = Some a -> i < 256;
  pt_entry p a i :
    T !! p = Some a -> (length p < 2)%nat -> 0 <= i < 512 ->
    match T !! (p ++ [i]) with
    | Some b => load64 m (pte_at a i) = Z.lor (PA2PTE b) PTE_V
    | None => Z.land (load64 m (pte_at a i)) PTE_V = 0
    end;
}.

(** A page-table tree next to the allocator's free pages. *)
Record vm_inv (s : St) (root : Z) (T : ptree) (F : gset Z) : Prop := VmInv {
  vm_alloc : pa_inv s F;
  vm_pt : pt_inv (mem_of s) root T;
  vm_apart p a : T !! p = Some a -> a ∉ F;
}.

(** What the operations that allocate page tables may change: the tree grows
    by pages that were free, and no byte outside the free pages and the tables
    changes.  What happens to the level-0 entries is stated next to it. *)
Record grown (root : Z) (s : St) (T : ptree) (F : gset Z) (s' : St) (T' : ptree) (F' : gset Z)
  : Prop := Grown {
  grown_inv : vm_inv s' root T' F';
  grown_tree : T ⊆ T';
  grown_free : F' ⊆ F;
  grown_new p a : T' !! p = Some a -> T !! p = Some a \/ (a ∈ F /\ a ∉ F');
  grown_used a : a ∈ F -> a ∉ F' -> exists p, T' !! p = Some a;
  grown_bytes x :
    (forall q, q ∈ F -> x < q \/ q + PGSIZE <= x) -> (forall p q, T !! p = Some q -> x < q \/ q + PGSIZE <= x) ->
    rd (mem_of s') x = rd (mem_of s) x;
}.

(** ** Geometry of pages and entries *)

Lemma vpage_apart a b : vpage a -> vpage b -> a <> b -> a + PGSIZE <= b \/ b + PGSIZE <= a.
Proof.
  intros [Ha _]%valid_page_range [Hb _]%valid_page_range. now apply aligned_apart.
Qed.

Lemma vpage_pte a : vpage a -> pte_page a.
Proof. intros (?&?&?)%valid_page_range. unfold pte_page, PGSIZE in *. lia. Qed.

Lemma vpage_pos a : vpage a -> 0 < a.
Proof. now intros (?&?&?)%valid_page_range. Qed.

Lemma pte_in_page a i : 0 <= i < 512 -> a <= pte_at a i /\ pte_at a i + 8 <= a + PGSIZE.
Proof. unfold pte_at, PGSIZE. lia. Qed.

Lemma pte_apart_same a i j : i <> j -> pte_at a i + 8 <= pte_at a j \/ pte_at a j + 8 <= pte_at a i.
Proof. unfold pte_at. lia. Qed.

Lemma pte_apart a b i j :
  vpage a -> vpage b -> 0 <= i < 512 -> 0 <= j < 512 -> (a, i) <> (b, j) ->
  pte_at a i + 8 <= pte_at b j \/ pte_at b j + 8 <= pte_at a i.
Proof.
  intros Ha Hb Hi Hj Hne. destruct (Z.eq_dec a b) as [->|Hab].
  - apply pte_apart_same. congruence.
  - pose proof (vpage_apart a b Ha Hb Hab). pose proof (pte_in_page a i Hi).
    pose proof (pte_in_page b j Hj). lia.
Qed.

Lemma flags_V : pte_flags_ok PTE_V.
Proof. unfold pte_flags_ok. change PTE_V with 1. lia. Qed.

(** An entry that points to a table is valid and leads to it. *)
Lemma ptr_valid b : vpage b -> truthy (Z.land (Z.lor (PA2PTE b) PTE_V) PTE_V) = true.
Proof.
  intros Hb%vpage_pte. rewrite land_flags by apply flags_V.
  rewrite PTE_FLAGS_PA2PTE by auto using flags_V. done.
Qed.

Lemma ptr_target b : vpage b -> PTE2PA (Z.lor (PA2PTE b) PTE_V) = b.
Proof. intros Hb%vpage_pte. apply PTE2PA_PA2PTE; auto using flags_V. Qed.

Lemma ptr_range b : vpage b -> u64 (Z.lor (PA2PTE b) PTE_V) = Z.lor (PA2PTE b) PTE_V.
Proof. intros Hb%vpage_pte. apply u64_small, pte_range; auto using flags_V. Qed.

Lemma path_split va : path va = [PX 2 va] ++ [PX 1 va].
Proof. done. Qed.

(** ** The tree *)

Lemma child_page m root T p a i b :
  pt_inv m root T -> T !! p = Some a -> (length p < 2)%nat -> 0 <= i < 512 ->
  T !! (p ++ [i]) = Some b ->
  truthy (Z.land (load64 m (pte_at a i)) PTE_V) = true /\ PTE2PA (load64 m (pte_at a i)) = b.
Proof.
  intros Hi Hp Hl Hr Hb. pose proof (pt_entry _ _ _ Hi p a i Hp Hl Hr) as He.
  rewrite Hb in He. rewrite He. pose proof (pt_page _ _ _ Hi _ _ Hb).
  split; [now apply ptr_valid | now apply ptr_target].
Qed.

Lemma child_none m root T p a i :
  pt_inv m root T -> T !! p = Some a -> (length p < 2)%nat -> 0 <= i < 512 ->
  T !! (p ++ [i]) = None -> truthy (Z.land (load64 m (pte_at a i)) PTE_V) = false.
Proof.
  intros Hi Hp Hl Hr Hb. pose proof (pt_entry _ _ _ Hi p a i Hp Hl Hr) as He.
  rewrite Hb in He. now rewrite He.
Qed.

Lemma no_grandchild m root T p i j :
  pt_inv m root T -> T !! (p ++ [i]) = None -> T !! (p ++ [i] ++ [j]) = None.
Proof.
  intros Hi Hn. destruct (T !! (p ++ [i] ++ [j])) eqn:E; [|done].
  rewrite app_assoc in E. apply (pt_parent _ _ _ Hi) in E as [[x Hx] _]. congruence.
Qed.

(** [walk] without allocation reads the tree. *)
Lemma walk_slot s root T va :
  pt_inv (mem_of s) root T -> 0 <= va < MAXVA -> walk root va false s = Ok (slot T va) s.
Proof.
  intros Hi Hv. unfold walk. zdecide. unfold slot.
  pose proof (PX_range 2 va ltac:(lia)) as H2. pose proof (PX_range 1 va ltac:(lia)) as H1.
  cbn [walk_loop]. erewrite bind_ok by reflexivity. change (Z.of_nat 2) with 2.
  destruct (T !! [PX 2 va]) as [a|] eqn:Ea.
  - destruct (child_page _ _ _ [] root (PX 2 va) a Hi (pt_root _ _ _ Hi) ltac:(cbn; lia) H2 Ea)
      as [-> ->].
    erewrite bind_ok by reflexivity. change (Z.of_nat 1) with 1. rewrite path_split.
    destruct (T !! ([PX 2 va] ++ [PX 1 va])) as [b|] eqn:Eb.
    + destruct (child_page _ _ _ _ a (PX 1 va) b Hi Ea ltac:(cbn; lia) H1 Eb) as [-> ->]. done.
    + rewrite (child_none _ _ _ _ a (PX 1 va) Hi Ea ltac:(cbn; lia) H1 Eb). done.
  - rewrite (child_none _ _ _ [] root (PX 2 va) Hi (pt_root _ _ _ Hi) ltac:(cbn; lia) H2 Ea).
    pose proof (no_grandchild _ _ _ [] _ (PX 1 va) Hi Ea) as Hn.
    cbn [app] in Hn. unfold path. now rewrite Hn.
Qed.

Lemma leaf_slot T m va : leaf T m va = match T !! path va with
  | Some _ => load64 m (slot T va) | None => 0 end.
Proof. unfold leaf, slot. now destruct (T !! path va). Qed.

(** ** Storing in a table *)

(** A store in the level-0 table at [p] leaves the rest of the tree alone. *)
Lemma pt_inv_store m root T p a i v :
  pt_inv m root T -> T !! p = Some a -> length p = 2%nat -> 0 <= i < 512 ->
  pt_inv (store64 m (pte_at a i) v) root T.
Proof.
  intros Hi Hp Hl Hr. pose proof Hi as [H1 H2 H3 H4 H6 H5]. split; auto.
  intros q b j Hq Hlq Hj. specialize (H5 q b j Hq Hlq Hj).
  rewrite load64_store64_ne; [done|].
  apply pte_apart; eauto. intros [= -> ->]. assert (p = q) as -> by eauto. lia.
Qed.

Lemma load64_other m m' a i q :
  frame_bytes m m' q PGSIZE -> vpage a -> vpage q -> a <> q -> 0 <= i < 512 ->
  load64 m' (pte_at a i) = load64 m (pte_at a i).
Proof.
  intros Hf Ha Hq Hne Hi. apply load64_ext. apply (frame_same _ _ _ _ _ _ Hf).
  pose proof (vpage_apart a q Ha Hq Hne). pose proof (pte_in_page a i Hi). lia.
Qed.

(** Linking the zeroed page [b] as entry [i] of the table at [p]. *)
Lemma pt_inv_link m m1 root T p a i b :
  pt_inv m root T -> T !! p = Some a -> (length p < 2)%nat -> 0 <= i < 512 -> (p = [] -> i < 256) ->
  T !! (p ++ [i]) = None -> vpage b -> (forall q, T !! q <> Some b) ->
  frame_bytes m m1 b PGSIZE -> (forall x, b <= x < b + PGSIZE -> rd m1 x = 0) ->
  pt_inv (store64 m1 (pte_at a i) (Z.lor (PA2PTE b) PTE_V)) root (<[p ++ [i] := b]> T).
Proof.
  intros Hi Hp Hl Hr Hlow Hn Hb Hnew Hf Hz. pose proof Hi as [H1 H2 H3 H4 H6 H5].
  assert (a <> b) as Hab by (intros ->; now apply (Hnew p)).
  split.
  - rewrite lookup_insert_ne; [done|]. now destruct p.
  - intros q c. rewrite lookup_insert_Some. naive_solver.
  - intros q q' c. rewrite !lookup_insert_Some. naive_solver.
  - intros q j c. rewrite lookup_insert_Some. intros [[E <-]|[Hne Hc]].
    + apply app_inj_tail in E as [<- <-]. split; [|done].
      destruct (decide (p ++ [i] = p)) as [E|]; [|rewrite lookup_insert_ne by done; eauto].
      apply (f_equal length) in E. rewrite length_app in E. cbn in E. lia.
    + apply H4 in Hc as (Hs & ? & ?). split; [|done].
      destruct (decide (p ++ [i] = q)) as [<-|]; [rewrite lookup_insert_eq; eauto|].
      now rewrite lookup_insert_ne.
  - intros j q c. rewrite lookup_insert_Some. intros [[E <-]|[_ Hc]]; [|eauto].
    destruct p as [|j' p]; injection E as <- E; [auto|eauto].
  - intros q c j. rewrite lookup_insert_Some. intros [[<- <-]|[Hne Hc]] Hlq Hj.
    + rewrite lookup_insert_ne by (intros E; apply (f_equal length) in E;
        rewrite !length_app in E; cbn in E; lia).
      rewrite <- app_assoc, (no_grandchild _ _ _ _ _ _ Hi Hn).
      rewrite load64_store64_ne by (apply pte_apart; eauto; congruence).
      rewrite load64_zero; [done|]. intros x Hx. apply Hz.
      pose proof (pte_in_page b j Hj). lia.
    + assert (c <> b) as Hcb by (intros ->; now apply (Hnew q)).
      destruct (decide (p ++ [i] = q ++ [j])) as [E|E].
      * apply app_inj_tail in E as [<- <-]. rewrite lookup_insert_eq.
        assert (c = a) as -> by congruence. now rewrite load64_store64_eq, ptr_range.
      * rewrite lookup_insert_ne by done. specialize (H5 q c j Hc Hlq Hj).
        rewrite load64_store64_ne.
        { rewrite (load64_other m m1 c j b); eauto. }
        apply pte_apart; eauto. intros [= -> ->]. assert (p = q) as -> by eauto. done.
Qed.

(** ** Growing the tree *)

Lemma grown_refl root s T F : vm_inv s root T F -> grown root s T F s T F.
Proof. intros Hv. split; try done; naive_solver. Qed.


(** A page that was neither free nor a table. *)
Lemma grown_frame root s T F s' T' F' : grown root s T F s' T' F' -> forall q, vpage q -> q ∉ F -> (forall p, T !! p <> Some q) ->
  same_bytes (mem_of s) (mem_of s') q PGSIZE.
Proof.
  intros [Hi Ht Hf Hn Hu Hm] q Hq HqF HqT x Hx. apply Hm.
  - intros a Ha. assert (vpage a) as Va.
    { destruct (decide (a ∈ F')) as [H|H]; [exact (pa_free_valid _ _ _ (vm_alloc _ _ _ _ Hi) H)|]. destruct (Hu a Ha H) as [p Hp]. exact (pt_page _ _ _ (vm_pt _ _ _ _ Hi) _ _ Hp). }
    assert (a <> q) as Hne by congruence. pose proof (vpage_apart a q Va Hq Hne). lia.
  - intros p a Ha. pose proof (pt_page _ _ _ (vm_pt _ _ _ _ Hi) p a (lookup_weaken _ _ _ _ Ha Ht)) as Va.
    assert (a <> q) as Hne by (intros ->; now apply (HqT p)). pose proof (vpage_apart a q Va Hq Hne). lia.
Qed.

Lemma grown_trans root s1 T1 F1 s2 T2 F2 s3 T3 F3 :
  vm_inv s1 root T1 F1 ->
  grown root s1 T1 F1 s2 T2 F2 -> grown root s2 T2 F2 s3 T3 F3 -> grown root s1 T1 F1 s3 T3 F3.
Proof.
  intros Hv [Hi1 Ht1 Hf1 Hn1 Hu1 Hm1] [Hi2 Ht2 Hf2 Hn2 Hu2 Hm2]. split.
  - done.
  - now transitivity T2.
  - now transitivity F2.
  - intros p a [H|[H H']]%Hn2; [|right; set_solver].
    apply Hn1 in H as [H|[H H']]; [now left|right; set_solver].
  - intros a Ha Ha'. destruct (decide (a ∈ F2)) as [H2|H2]; [now apply Hu2|].
    destruct (Hu1 a Ha H2) as [p Hp]. exists p. now apply (lookup_weaken T2).
  - intros x HF HT. rewrite Hm2, Hm1; try done; [intros q Hq; apply HF; set_solver|].
    intros p q [H|[H _]]%Hn1; [now apply (HT p)|now apply HF].
Qed.

Lemma vm_kalloc s root T F :
  vm_inv s root T F ->
  (F = ∅ /\ exists s', pa_kalloc s = Ok 0 s' /\ grown root s T F s' T F /\
     mem_of s' = mem_of s) \/
  (exists b s', pa_kalloc s = Ok b s' /\ b ∈ F /\ vpage b /\ pa_inv s' (F ∖ {[b]}) /\
     frame_bytes (mem_of s) (mem_of s') b PGSIZE).
Proof.
  intros Hv. pose proof Hv as [Ha Hp Hd]. destruct (decide (F = ∅)) as [->|Hne].
  - left. split; [done|]. destruct (pa_kalloc_none s Ha) as (s' & Hk & Ha' & Hm).
    exists s'. split; [exact Hk|]. split; [|exact Hm].
    split; [split; [exact Ha'|now rewrite Hm|done]|..]; rewrite ?Hm; try done; naive_solver.
  - right. destruct (pa_kalloc_some s F Ha Hne) as (b & s' & Hk & Hb & Ha' & Hf).
    exists b, s'. split; [exact Hk|]. split; [exact Hb|].
    split; [exact (pa_free_valid s F b Ha Hb)|]. now split.
Qed.

(** Entries of level-0 tables after linking the zeroed page [b]. *)
Lemma leaf_link m m1 root T p a i b va :
  pt_inv m root T -> T !! p = Some a -> (length p < 2)%nat -> 0 <= i < 512 ->
  T !! (p ++ [i]) = None -> vpage b -> (forall q, T !! q <> Some b) ->
  frame_bytes m m1 b PGSIZE -> (forall x, b <= x < b + PGSIZE -> rd m1 x = 0) ->
  leaf (<[p ++ [i] := b]> T) (store64 m1 (pte_at a i) (Z.lor (PA2PTE b) PTE_V)) va = leaf T m va.
Proof.
  intros Hi Hp Hl Hr Hn Hb Hnew Hf Hz. pose proof Hi as [H1 H2 H3 H4 H6 H5].
  pose proof (PX_range 0 va ltac:(lia)) as H0.
  assert (a <> b) as Hab by (intros ->; now apply (Hnew p)).
  unfold leaf. destruct (decide (p ++ [i] = path va)) as [E|E].
  - rewrite <- E, lookup_insert_eq, Hn.
    rewrite load64_store64_ne by (apply pte_apart; eauto; congruence).
    apply load64_zero. intros x Hx. apply Hz. pose proof (pte_in_page b _ H0). lia.
  - rewrite lookup_insert_ne by done. destruct (T !! path va) as [c|] eqn:Ec; [|done].
    assert (c <> b) by (intros ->; now apply (Hnew (path va))).
    rewrite load64_store64_ne; [now apply (load64_other m m1 c _ b); eauto|].
    apply pte_apart; eauto. intros [= -> _]. assert (p = path va) as -> by eauto. cbn in Hl. lia.
Qed.

Lemma in_minus (q b : Z) (F : gset Z) : q ∈ F ∖ {[b]} <-> q ∈ F /\ q <> b.
Proof. set_solver. Qed.

Lemma page_store_out m a i v q :
  vpage a -> vpage q -> q <> a -> 0 <= i < 512 -> same_bytes m (store64 m (pte_at a i) v) q PGSIZE.
Proof.
  intros Ha Hq Hne Hi x Hx. apply rd_store64_out.
  pose proof (vpage_apart q a Hq Ha Hne). pose proof (pte_in_page a i Hi). lia.
Qed.

Lemma page_frame m m' b q :
  vpage b -> vpage q -> q <> b -> frame_bytes m m' b PGSIZE -> same_bytes m m' q PGSIZE.
Proof.
  intros Hb Hq Hne Hf. apply (frame_same _ _ b PGSIZE); [exact Hf|].
  pose proof (vpage_apart q b Hq Hb Hne). lia.
Qed.

(** Linking the zeroed page [b], on memories. *)
Lemma link_grown s s2 root T F p a i b :
  vm_inv s root T F -> T !! p = Some a -> (length p < 2)%nat -> 0 <= i < 512 -> (p = [] -> i < 256) ->
  T !! (p ++ [i]) = None -> b ∈ F -> vpage b -> pa_inv s2 (F ∖ {[b]}) ->
  frame_bytes (mem_of s) (mem_of s2) b PGSIZE ->
  (forall x, b <= x < b + PGSIZE -> rd (mem_of s2) x = 0) ->
  grown root s T F
    (set_mem (store64 (mem_of s2) (pte_at a i) (Z.lor (PA2PTE b) PTE_V)) s2)
    (<[p ++ [i] := b]> T) (F ∖ {[b]}).
Proof.
  intros [Ha Hp Hd] HTp Hl Hr Hlow Hn Hb Hvb Ha2 Hf Hz.
  assert (forall q, T !! q <> Some b) as Hnew by (intros q Hq; now apply (Hd q b)).
  pose proof (pt_page _ _ _ Hp p a HTp) as Hva. pose proof (Hd p a HTp) as HaF.
  split.
  - split.
    + apply pa_set_mem; [exact Ha2|]. intros q [HqF Hqb]%in_minus.
      apply page_store_out; [exact Hva|exact (pa_free_valid s F q Ha HqF)| |exact Hr].
      intros ->. now apply HaF.
    + rewrite mem_set_mem. eapply pt_inv_link; eauto.
    + intros q c. rewrite lookup_insert_Some, in_minus. intros [[_ <-]|[_ Hc]]; [tauto|].
      apply Hd in Hc. tauto.
  - apply insert_subseteq. exact Hn.
  - intros q. rewrite in_minus. tauto.
  - intros q c. rewrite lookup_insert_Some, in_minus. intros [[_ <-]|[_ Hc]]; [right; tauto|now left].
  - intros c Hc. rewrite in_minus. intros Hc'. exists (p ++ [i]).
    destruct (decide (c = b)) as [->|]; [apply lookup_insert_eq|tauto].
  - intros x HF HT. pose proof (pte_in_page a i Hr). pose proof (HT p a HTp). rewrite mem_set_mem, rd_store64_out by lia. apply Hf. specialize (HF b Hb). lia.
Qed.

(** Zeroing a page that is not free. *)
Lemma zero_page s s1 F b :
  pa_inv s1 (F ∖ {[b]}) -> vpage b -> frame_bytes (mem_of s) (mem_of s1) b PGSIZE ->
  let s2 := set_mem (memset (mem_of s1) b 0 PGSIZE) s1 in
  pa_inv s2 (F ∖ {[b]}) /\ frame_bytes (mem_of s) (mem_of s2) b PGSIZE /\
  (forall x, b <= x < b + PGSIZE -> rd (mem_of s2) x = 0).
Proof.
  intros Ha1 Hb Hf1 s2. unfold s2. clear s2. rewrite mem_set_mem.
  assert (frame_bytes (mem_of s1) (memset (mem_of s1) b 0 PGSIZE) b PGSIZE) as Hf2.
  { intros x Hx. apply memset_frame; [unfold PGSIZE; lia|exact Hx]. }
  split; [|split].
  - apply pa_set_mem; [exact Ha1|]. intros q Hq. pose proof Hq as [HqF Hqb]%in_minus.
    apply (page_frame _ _ b); [exact Hb|exact (pa_free_valid _ _ _ Ha1 Hq)|exact Hqb|exact Hf2].
  - intros x Hx. rewrite (Hf2 x Hx). exact (Hf1 x Hx).
  - intros x Hx. apply memset_in; [unfold PGSIZE; lia|exact Hx].
Qed.

(** One round of [walk]'s loop with allocation: out of memory, or one level
    down in a tree that has grown by at most one page. *)
Lemma walk_step s root T F p a l va :
  vm_inv s root T F -> T !! p = Some a -> (length p < 2)%nat -> 0 <= Z.of_nat (S l) <= 2 ->
  (p = [] -> PX (Z.of_nat (S l)) va < 256) ->
  (exists s', walk_loop (S l) a va true s = Ok 0 s' /\ F = ∅ /\ grown root s T F s' T F /\
     mem_of s' = mem_of s) \/
  (exists b s' T' F', walk_loop (S l) a va true s = walk_loop l b va true s' /\
     grown root s T F s' T' F' /\ T' !! (p ++ [PX (Z.of_nat (S l)) va]) = Some b /\
     (forall v, leaf T' (mem_of s') v = leaf T (mem_of s) v) /\
     (forall q, is_Some (T' !! q) -> is_Some (T !! q) \/ q = p ++ [PX (Z.of_nat (S l)) va])).
Proof.
  intros Hv Hp Hl Hlev Hlow. pose proof Hv as [Ha Hpt Hd].
  pose proof (PX_range (Z.of_nat (S l)) va ltac:(lia)) as Hr.
  cbn [walk_loop]. erewrite bind_ok by reflexivity.
  set (i := PX (Z.of_nat (S l)) va) in *.
  destruct (T !! (p ++ [i])) as [b|] eqn:Eb.
  - destruct (child_page _ _ _ p a i b Hpt Hp Hl Hr Eb) as [-> ->].
    right. exists b, s, T, F. auto 6 using grown_refl.
  - rewrite (child_none _ _ _ p a i Hpt Hp Hl Hr Eb). cbn [negb].
    destruct (vm_kalloc s root T F Hv) as [(HF & s' & Hk & Hg & Hm)|(b & s1 & Hk & Hb & Hvb & Ha1 & Hf)].
    + rewrite (bind_ok _ _ _ _ _ Hk). left. exists s'. auto.
    + rewrite (bind_ok _ _ _ _ _ Hk). pose proof (vpage_pos b Hvb). zdecide.
      destruct (zero_page s s1 F b Ha1 Hvb Hf) as (Ha2 & Hf2 & Hz).
      erewrite bind_ok by reflexivity. erewrite bind_ok by reflexivity.
      right. eexists b, _, (<[p ++ [i] := b]> T), (F ∖ {[b]}). split; [reflexivity|].
      split; [eapply link_grown; eauto|]. split; [apply lookup_insert_eq|]. split.
      * intros v. rewrite mem_set_mem. eapply leaf_link; eauto.
        intros q Hq. now apply (Hd q b).
      * intros q [x Hx]. apply lookup_insert_Some in Hx as [[<- _]|[_ Hx]]; eauto.
Qed.

(** The tables that [walk] may add for [va]. *)
Definition on_path (va : Z) (q : list Z) : Prop := q = [PX 2 va] \/ q = path va.

(** [walk] with allocation: the entry of [va], in a grown tree, unless the
    pages ran out. *)
Lemma walk_alloc s root T F va :
  vm_inv s root T F -> 0 <= va < MAXVA ->
  exists r s' T' F', walk root va true s = Ok r s' /\ grown root s T F s' T' F' /\
    (forall q, is_Some (T' !! q) -> is_Some (T !! q) \/ on_path va q) /\
    (forall v, leaf T' (mem_of s') v = leaf T (mem_of s) v) /\
    (r = 0 /\ F' = ∅ \/ exists t, T' !! path va = Some t /\ r = pte_at t (PX 0 va) /\ r <> 0).
Proof.
  intros Hv Hva. unfold walk. zdecide.
  destruct (walk_step s root T F [] root 1 va Hv (pt_root _ _ _ (vm_pt _ _ _ _ Hv)) ltac:(cbn; lia) ltac:(lia)
      (fun _ => PX_low va Hva))
    as [(s' & -> & HF & Hg & Hm)|(b & s1 & T1 & F1 & -> & Hg1 & Hb & Hl1 & Hq1)].
  { exists 0, s', T, F. rewrite Hm. split; [done|]. auto 6. }
  pose proof (grown_inv _ _ _ _ _ _ _ Hg1) as Hv1.
  destruct (walk_step s1 root T1 F1 [PX 2 va] b 0 va Hv1 Hb ltac:(cbn; lia) ltac:(lia) ltac:(done))
    as [(s' & -> & HF & Hg & Hm)|(c & s2 & T2 & F2 & -> & Hg2 & Hc & Hl2 & Hq2)].
  { exists 0, s', T1, F1. rewrite Hm. split; [done|]. split; [now apply (grown_trans _ _ _ _ s1 T1 F1)|].
    split; [|auto]. intros q [H| ->]%Hq1; [auto|right; now left]. }
  exists (pte_at c (PX 0 va)), s2, T2, F2. split; [reflexivity|].
  split; [now apply (grown_trans _ _ _ _ s1 T1 F1)|].
  split; [intros q [[H| ->]%Hq1| ->]%Hq2; [auto|right; now left|right; now right]|].
  split; [intros v; now rewrite Hl2|]. right. exists c. split; [exact Hc|]. split; [done|].
  pose proof (vpage_pos c (pt_page _ _ _ (vm_pt _ _ _ _ (grown_inv _ _ _ _ _ _ _ Hg2)) _ _ Hc)).
  pose proof (pte_in_page c (PX 0 va) (PX_range 0 va ltac:(lia))). lia.
Qed.

(** ** Level-0 entries *)

Lemma leaf_store T m root va v x :
  pt_inv m root T -> is_Some (T !! path va) -> 0 <= va < MAXVA -> 0 <= v < MAXVA ->
  leaf T (store64 m (slot T va) x) v = if same_page va v then u64 x else leaf T m v.
Proof.
  intros Hi [t Ht] Hva Hv. unfold leaf, slot. rewrite Ht.
  destruct (same_page va v) eqn:E; unfold same_page in E; zbool.
  - assert (path v = path va /\ PX 0 v = PX 0 va) as [-> ->].
    { unfold path. now destruct (PX_same_page va v Hva Hv E) as (-> & -> & ->). }
    now rewrite Ht, load64_store64_eq.
  - destruct (T !! path v) as [c|] eqn:Ec; [|done]. apply load64_store64_ne.
    apply pte_apart; eauto using pt_page; try (apply PX_range; lia).
    intros [= -> E0]. assert (path va = path v) as [= E2 E1] by (eapply pt_inj; eauto).
    apply E. symmetry. now apply PX_inj.
Qed.

(** A store to a level-0 entry keeps the tree and the allocator. *)
Lemma put_leaf s root T F va x :
  vm_inv s root T F -> is_Some (T !! path va) -> 0 <= va < MAXVA ->
  grown root s T F (set_mem (store64 (mem_of s) (slot T va) x) s) T F /\
  forall v, 0 <= v < MAXVA ->
    leaf T (store64 (mem_of s) (slot T va) x) v =
    if same_page va v then u64 x else leaf T (mem_of s) v.
Proof.
  intros Hv [t Ht] Hva. pose proof Hv as [Ha Hp Hd].
  split; [|intros v Hv'; eapply leaf_store; eauto].
  unfold slot. rewrite Ht. pose proof (PX_range 0 va ltac:(lia)) as H0.
  pose proof (pt_page _ _ _ Hp _ _ Ht) as Hvt.
  split; try done; try naive_solver.
  - split; [|rewrite mem_set_mem; eapply pt_inv_store; eauto|exact Hd].
    apply pa_set_mem; [exact Ha|]. intros q Hq.
    apply page_store_out; [exact Hvt|exact (pa_free_valid _ _ _ Ha Hq)| |exact H0].
    intros ->. exact (Hd _ _ Ht Hq).
  - intros y HF HT. pose proof (pte_in_page t (PX 0 va) H0). pose proof (HT _ t Ht). rewrite mem_set_mem. apply rd_store64_out. lia.
Qed.

(** ** Mapping a range *)

(** The entry for [pa] with permissions [perm] that [mappages] writes. *)
Definition perm_pte (pa perm : Z) : Z := Z.lor (PA2PTE pa) (Z.lor perm PTE_V).

Lemma flags_lor f g : pte_flags_ok f -> pte_flags_ok g -> pte_flags_ok (Z.lor f g).
Proof.
  unfold pte_flags_ok. intros Hf Hg. split; [apply Z.lor_nonneg; lia|].
  rewrite <- (Z.mod_small f 1024), <- (Z.mod_small g 1024) by lia.
  change 1024 with (2^10) at 1 2. rewrite <- !Z.land_ones, <- Z.land_lor_distr_l, Z.land_ones by lia.
  now apply Z.mod_pos_bound.
Qed.

Lemma perm_pte_range pa perm : pte_page pa -> pte_flags_ok perm -> is_u64 (perm_pte pa perm).
Proof. intros. apply pte_range; auto using flags_lor, flags_V. Qed.

(** The entries of [va, va + n pages) point to [pa, pa + n pages). *)
Definition mapped (va n pa perm v old : Z) : Z :=
  if (va <=? v) && (v <? va + n * PGSIZE)
  then perm_pte (pa + (v / PGSIZE - va / PGSIZE) * PGSIZE) perm else old.

Lemma mapped_0 va pa perm v old : mapped va 0 pa perm v old = old.
Proof. unfold mapped. case_goal; zbool; [lia|done]. Qed.

Lemma mapped_step va n pa perm v old :
  va mod PGSIZE = 0 -> 0 <= n ->
  mapped (va + PGSIZE) n (pa + PGSIZE) perm v
    (if same_page va v then perm_pte pa perm else old) = mapped va (n + 1) pa perm v old.
Proof.
  intros Ha Hn. unfold mapped, same_page, PGSIZE in *.
  repeat case_goal; zbool; try (exfalso; dlia); try done; f_equal; dlia.
Qed.

Lemma MAXVA_eq : MAXVA = 2^26 * PGSIZE.
Proof. done. Qed.

Lemma mappages_loop_spec n : forall s root T F a last pa perm,
  vm_inv s root T F -> a mod PGSIZE = 0 -> 0 <= a ->
  last = a + (Z.of_nat n - 1) * PGSIZE -> last < MAXVA -> (1 <= n)%nat ->
  pa mod PGSIZE = 0 -> 0 <= pa -> pa + Z.of_nat n * PGSIZE <= 2^54 -> pte_flags_ok perm ->
  (forall v, a <= v < a + Z.of_nat n * PGSIZE -> truthy (Z.land (leaf T (mem_of s) v) PTE_V) = false) ->
  exists r s' T' F' k, mappages_loop n root a last pa perm s = Ok r s' /\
    grown root s T F s' T' F' /\
    (forall q, is_Some (T' !! q) -> is_Some (T !! q) \/ exists v, a <= v < a + Z.of_nat n * PGSIZE /\ on_path v q) /\
    (forall v, 0 <= v < MAXVA ->
       leaf T' (mem_of s') v = mapped a k pa perm v (leaf T (mem_of s) v)) /\
    (r = 0 /\ k = Z.of_nat n \/ r = -1 /\ 0 <= k < Z.of_nat n /\ F' = ∅).
Proof.
  induction n as [|n IH]; intros s root T F a last pa perm Hv Ha Ha0 Hlast HM Hn Hpa Hpa0 Hpa1 Hfl Hun; [lia|].
  assert (0 <= a < MAXVA) as Hra by (unfold PGSIZE in *; lia).
  cbn [mappages_loop].
  destruct (walk_alloc s root T F a Hv Hra) as (r & s1 & T1 & F1 & Hw & Hg1 & Hq1 & Hl1 & Hr).
  rewrite (bind_ok _ _ _ _ _ Hw).
  assert (forall q, is_Some (T1 !! q) -> is_Some (T !! q) \/ exists v, a <= v < a + Z.of_nat (S n) * PGSIZE /\ on_path v q) as Hq1'.
  { intros q [H|H]%Hq1; [auto|right]. exists a. split; [unfold PGSIZE; lia|done]. }
  destruct Hr as [[-> HF]|(t & Ht & Hr & Hr0)].
  { exists (-1), s1, T1, F1, 0. split; [done|]. split; [exact Hg1|]. split; [exact Hq1'|].
    split; [intros v _; now rewrite mapped_0|right; split; [done|split; [lia|exact HF]]]. }
  assert (r = slot T1 a) as Hsl by (unfold slot; now rewrite Ht). zdecide.
  assert (load64 (mem_of s1) r = leaf T (mem_of s) a) as Hold.
  { rewrite <- Hl1, leaf_slot, Ht. now rewrite Hsl. }
  erewrite bind_ok by reflexivity. rewrite Hold, Hun by (unfold PGSIZE; lia).
  rewrite <- Z.lor_assoc. fold (perm_pte pa perm).
  assert (pte_page pa) as Hpp by (unfold pte_page, PGSIZE in *; lia).
  pose proof (grown_inv _ _ _ _ _ _ _ Hg1) as Hv1.
  destruct (put_leaf s1 root T1 F1 a (perm_pte pa perm) Hv1 ltac:(eauto) Hra) as [Hg2 Hl2].
  erewrite bind_ok by reflexivity. rewrite Hsl.
  set (s2 := set_mem _ s1) in *.
  assert (forall v, 0 <= v < MAXVA -> leaf T1 (mem_of s2) v =
    if same_page a v then perm_pte pa perm else leaf T (mem_of s) v) as Hl2'.
  { intros v Hv'. unfold s2. rewrite mem_set_mem, Hl2, Hl1 by done.
    rewrite u64_small by now apply perm_pte_range. done. }
  clearbody s2. assert (grown root s T F s2 T1 F1) as Hg by now apply (grown_trans _ _ _ _ s1 T1 F1).
  destruct (a =? last) eqn:El; zbool.
  { assert (n = 0%nat) as -> by (unfold PGSIZE in *; lia). exists 0, s2, T1, F1, 1.
    split; [done|]. split; [exact Hg|]. split; [exact Hq1'|]. split; [|left; lia].
    intros v Hv'. rewrite Hl2' by done.
    now rewrite <- (mapped_step a 0), mapped_0 by (unfold PGSIZE in *; lia). }
  rewrite !u64_small by (pose proof MAXVA_eq; unfold is_u64, PGSIZE in *; lia).
  destruct (IH s2 root T1 F1 (a + PGSIZE) last (pa + PGSIZE) perm) as
    (r' & s' & T' & F' & k & HIH & HgI & HqI & HlI & HrI);
    [exact (grown_inv _ _ _ _ _ _ _ Hg2)|unfold PGSIZE in *; try dlia..|exact Hfl| |].
  { intros v Hv'. rewrite Hl2' by (rewrite MAXVA_eq in *; unfold PGSIZE in *; dlia). unfold same_page, PGSIZE in *.
    destruct (_ =? _) eqn:E; zbool; [dlia|]. apply Hun. lia. }
  exists r', s', T', F', (k + 1). split; [exact HIH|].
  split; [exact (grown_trans _ _ _ _ s2 T1 F1 _ _ _ Hv Hg HgI)|].
  split; [intros q [H|(v & Hv' & H)]%HqI; [auto|right; exists v; split; [unfold PGSIZE in *; lia|done]]|].
  split; [|destruct HrI as [[? ?]|(? & ? & ?)]; [left; lia|right; split; [done|split; [lia|done]]]].
  intros v Hv'. rewrite HlI, Hl2' by done. apply mapped_step; [done|lia].
Qed.

Lemma mappages_ok s root T F va size pa perm :
  vm_inv s root T F -> va mod PGSIZE = 0 -> size mod PGSIZE = 0 ->
  0 <= va -> 0 < size -> va + size <= MAXVA ->
  pa mod PGSIZE = 0 -> 0 <= pa -> pa + size <= 2^54 -> pte_flags_ok perm ->
  (forall v, va <= v < va + size -> truthy (Z.land (leaf T (mem_of s) v) PTE_V) = false) ->
  exists r s' T' F' k, mappages root va size pa perm s = Ok r s' /\
    grown root s T F s' T' F' /\
    (forall q, is_Some (T' !! q) -> is_Some (T !! q) \/ exists v, va <= v < va + size /\ on_path v q) /\
    (forall v, 0 <= v < MAXVA ->
       leaf T' (mem_of s') v = mapped va k pa perm v (leaf T (mem_of s) v)) /\
    (r = 0 /\ k * PGSIZE = size \/ r = -1 /\ 0 <= k /\ k * PGSIZE < size /\ F' = ∅).
Proof.
  intros Hv Ha Hs Ha0 Hs0 HM Hp Hp0 Hp1 Hf Hun. unfold mappages. zdecide. cbn [negb].
  assert (exists n, size = Z.of_nat n * PGSIZE /\ (1 <= n)%nat) as (n & -> & Hn).
  { exists (Z.to_nat (size / PGSIZE)). unfold PGSIZE in *. dlia. }
  rewrite Z.div_mul, Nat2Z.id by done.
  rewrite u64_small by (rewrite MAXVA_eq in *; unfold is_u64, PGSIZE in *; lia).
  destruct (mappages_loop_spec n s root T F va (va + Z.of_nat n * PGSIZE - PGSIZE) pa perm)
    as (r & s' & T' & F' & k & Hm & Hg & Hq & Hl & Hr); try done; try (unfold PGSIZE in *; lia).
  exists r, s', T', F', k. split; [exact Hm|]. split; [exact Hg|]. split; [exact Hq|]. split; [exact Hl|].
  destruct Hr as [[? ->]|(? & ? & ?)]; [left|right]; split; try done.
  repeat split; try done; unfold PGSIZE; lia.
Qed.

(** ** Reading a translation *)

Lemma slot_pos m root T va : pt_inv m root T -> is_Some (T !! path va) -> slot T va <> 0.
Proof.
  intros Hi [t Ht]. unfold slot. rewrite Ht. pose proof (vpage_pos t (pt_page _ _ _ Hi _ _ Ht)).
  pose proof (pte_in_page t (PX 0 va) (PX_range 0 va ltac:(lia))). lia.
Qed.

(** A missing table and an entry without [PTE_V] look alike to [walk]'s
    callers that test both. *)
Lemma slot_leaf m root T va :
  pt_inv m root T ->
  slot T va = 0 /\ leaf T m va = 0 \/ slot T va <> 0 /\ load64 m (slot T va) = leaf T m va.
Proof.
  intros Hi. rewrite leaf_slot. destruct (T !! path va) as [t|] eqn:E.
  - right. split; [eapply slot_pos; eauto|done].
  - left. unfold slot. now rewrite E.
Qed.

(** The user translation of [va]. *)
Definition uaddr (pte : Z) : Z :=
  if (Z.land pte PTE_V =? 0) || (Z.land pte PTE_U =? 0) then 0 else PTE2PA pte.

Lemma walkaddr_leaf s root T va :
  pt_inv (mem_of s) root T -> 0 <= va ->
  walkaddr root va s = Ok (if MAXVA <=? va then 0 else uaddr (leaf T (mem_of s) va)) s.
Proof.
  intros Hi Hva. unfold walkaddr. destruct (MAXVA <=? va) eqn:E; zbool; [done|].
  rewrite (bind_ok _ _ _ _ _ (walk_slot s root T va Hi ltac:(lia))).
  destruct (slot_leaf _ _ _ va Hi) as [[-> ->]|[H0 Hl]]; [done|]. zdecide.
  erewrite bind_ok by reflexivity. rewrite Hl. unfold uaddr.
  now destruct (Z.land _ PTE_V =? 0), (Z.land _ PTE_U =? 0).
Qed.

Lemma perm_pte_flags pa perm b :
  pte_page pa -> pte_flags_ok perm -> 0 <= b < 1024 ->
  Z.land (perm_pte pa perm) b = Z.land (Z.lor perm PTE_V) b.
Proof.
  intros. rewrite land_flags by done. unfold perm_pte.
  now rewrite PTE_FLAGS_PA2PTE by auto using flags_lor, flags_V.
Qed.

Lemma perm_pte_valid pa perm :
  pte_page pa -> pte_flags_ok perm -> truthy (Z.land (perm_pte pa perm) PTE_V) = true.
Proof.
  intros. rewrite perm_pte_flags by (done || (change PTE_V with 1; lia)).
  rewrite Z.land_lor_distr_l. change (Z.land PTE_V PTE_V) with 1. unfold truthy.
  destruct (Z.eqb_spec (Z.lor (Z.land perm PTE_V) 1) 0) as [E|]; [|done].
  now apply Z.lor_eq_0_iff in E as [_ E].
Qed.

Lemma perm_pte_pa pa perm : pte_page pa -> pte_flags_ok perm -> PTE2PA (perm_pte pa perm) = pa.
Proof. intros. apply PTE2PA_PA2PTE; auto using flags_lor, flags_V. Qed.

(** With the tables in place [walk] allocates nothing. *)
Lemma walk_hit s root T va alloc :
  pt_inv (mem_of s) root T -> 0 <= va < MAXVA -> is_Some (T !! path va) ->
  walk root va alloc s = Ok (slot T va) s.
Proof.
  intros Hi Hv [b Eb]. unfold walk. zdecide. unfold slot. rewrite Eb.
  pose proof (PX_range 2 va ltac:(lia)) as H2. pose proof (PX_range 1 va ltac:(lia)) as H1.
  destruct (pt_parent _ _ _ Hi [PX 2 va] (PX 1 va) b Eb) as ([a Ea] & _).
  cbn [walk_loop]. erewrite bind_ok by reflexivity. change (Z.of_nat 2) with 2.
  destruct (child_page _ _ _ [] root (PX 2 va) a Hi (pt_root _ _ _ Hi) ltac:(cbn; lia) H2 Ea)
    as [-> ->].
  erewrite bind_ok by reflexivity. change (Z.of_nat 1) with 1.
  destruct (child_page _ _ _ _ a (PX 1 va) b Hi Ea ltac:(cbn; lia) H1 Eb) as [-> ->]. done.
Qed.
End pagetable.
