(* ===== verification/UserMem.v ===== *)
(** * kernel/vm.c: user address spaces

    A process's memory as its page table describes it.  [U] maps the number
    of a virtual page below TRAPFRAME to the physical page and the flags the
    entry holds; [uspace] says that [U] is what the tree says, and that the
    pages, the tables and the free list are all distinct.  [umem] is the
    byte a user address names.  The operations of [Vm] are stated on [U],
    [umem] and the set of free pages. *)

From stdpp Require Import base gmap list numbers strings.
From S2P Require Import Prelude Mem StringC Riscv Kalloc Vm PageTable.

Open Scope Z_scope.

Abbreviation umap := (gmap Z (Z * Z)).

(** The number of user pages below the trapframe. *)
Definition UPAGES : Z := TRAPFRAME / PGSIZE.

Lemma UPAGES_eq : UPAGES = 2^26 - 2 /\ TRAPFRAME = UPAGES * PGSIZE /\ TRAPFRAME < MAXVA.
Proof. done. Qed.

(** [q] is a table of [T] or a page of [U]. *)
Definition holds (T : ptree) (U : umap) (q : Z) : Prop :=
  (exists p, T !! p = Some q) \/ (exists n fl, U !! n = Some (q, fl)).

Section usermem.
Context {St : Type} `{PA : PageAllocator St} `{PS : !PageAllocatorSpec St}.

#[local] Abbreviation vpage := (valid_page (S := St)).

Record uspace (s : St) (root : Z) (T : ptree) (F : gset Z) (U : umap) : Prop := USpace {
  us_vm : vm_inv s root T F;
  us_entry va : 0 <= va < TRAPFRAME ->
    match U !! (va / PGSIZE) with
    | Some (pa, fl) => leaf T (mem_of s) va = perm_pte pa fl
    | None => truthy (Z.land (leaf T (mem_of s) va) PTE_V) = false
    end;
  us_key n x : U !! n = Some x -> 0 <= n < UPAGES;
  us_flags n pa fl : U !! n = Some (pa, fl) -> pte_flags_ok fl /\ Z.lor fl PTE_V <> PTE_V;
  us_page n pa fl : U !! n = Some (pa, fl) ->
    vpage pa /\ (pa ∉ F) /\ (forall p, T !! p <> Some pa);
  us_inj n n' pa fl fl' : U !! n = Some (pa, fl) -> U !! n' = Some (pa, fl') -> n = n';
}.

(** The byte at user address [va]. *)
Definition umem (s : St) (U : umap) (va : Z) : Z :=
  match U !! (va / PGSIZE) with
  | Some (pa, _) => rd (mem_of s) (pa + va mod PGSIZE)
  | None => 0
  end.

(** What an operation on the space may do: the tree grows, no page is lost,
    and the pages that are neither free nor in the space and the entries of the
    trapframe and the trampoline are left alone. *)
Record ustep (root : Z) (s : St) (T : ptree) (F : gset Z) (U : umap)
    (s' : St) (T' : ptree) (F' : gset Z) (U' : umap) : Prop := UStep {
  st_space : uspace s' root T' F' U';
  st_tree : T ⊆ T';
  st_conserve q : q ∈ F' \/ holds T' U' q <-> q ∈ F \/ holds T U q;
  st_frame q : vpage q -> ~ (q ∈ F \/ holds T U q) ->
    same_bytes (mem_of s) (mem_of s') q PGSIZE;
  st_above va : TRAPFRAME <= va < MAXVA -> leaf T' (mem_of s') va = leaf T (mem_of s) va;
}.

Lemma same_bytes_refl m a n : same_bytes m m a n.
Proof. intros x _. reflexivity. Qed.

Lemma ustep_refl root s T F U : uspace s root T F U -> ustep root s T F U s T F U.
Proof. intros H. split; [done|done|done| |done]. intros q _ _. apply same_bytes_refl. Qed.

Lemma ustep_trans root s1 T1 F1 U1 s2 T2 F2 U2 s3 T3 F3 U3 :
  ustep root s1 T1 F1 U1 s2 T2 F2 U2 -> ustep root s2 T2 F2 U2 s3 T3 F3 U3 ->
  ustep root s1 T1 F1 U1 s3 T3 F3 U3.
Proof.
  intros [H1 H2 H3 H4 H5] [J1 J2 J3 J4 J5]. split; [done|now transitivity T2| | |].
  - intros q. now rewrite J3.
  - intros q Hq Hn. eapply same_bytes_trans; [now apply H4|]. apply J4; [done|].
    now rewrite H3.
  - intros va Hva. now rewrite J5, H5.
Qed.

(** ** Frames *)

Lemma leaf_same T m m' root va :
  pt_inv m root T -> (forall p a, T !! p = Some a -> same_bytes m m' a PGSIZE) ->
  leaf T m' va = leaf T m va.
Proof.
  intros Hi Hs. unfold leaf. destruct (T !! path va) as [a|] eqn:E; [|done].
  apply load64_ext. pose proof (pte_in_page a (PX 0 va) (PX_range 0 va ltac:(lia))).
  eapply same_bytes_sub; [exact (Hs _ _ E)|lia|lia].
Qed.

Lemma pt_inv_same m m' root T :
  pt_inv m root T -> (forall p a, T !! p = Some a -> same_bytes m m' a PGSIZE) ->
  pt_inv m' root T.
Proof.
  intros [H1 H2 H3 H4 H6 H5] Hs. split; auto. intros p a i Hp Hl Hi.
  pose proof (pte_in_page a i Hi). rewrite (load64_ext m m' (pte_at a i)); [now apply H5|].
  eapply same_bytes_sub; [exact (Hs _ _ Hp)|lia|lia].
Qed.

(** The space depends on its tables and the allocator only. *)
Lemma us_frame s s2 root T F F2 U :
  uspace s root T F U -> pa_inv s2 F2 ->
  (forall q, q ∈ F2 -> ~ holds T U q) ->
  (forall p a, T !! p = Some a -> same_bytes (mem_of s) (mem_of s2) a PGSIZE) ->
  uspace s2 root T F2 U.
Proof.
  intros [[Ha Hp Hd] He Hk Hf Hpg Hin] Ha2 Hd2 Hs. split; auto.
  - split; [done|now apply (pt_inv_same (mem_of s))|].
    intros p a Ht HF. apply (Hd2 a HF). left. now exists p.
  - intros va Hva. rewrite (leaf_same T (mem_of s) (mem_of s2) root) by done. now apply He.
  - intros n pa fl Hn. destruct (Hpg n pa fl Hn) as (H1 & H2 & H3).
    split; [done|]. split; [|done]. intros HF. apply (Hd2 pa HF). right. now exists n, fl.
Qed.

Lemma us_apart s root T F U q : uspace s root T F U -> q ∈ F -> ~ holds T U q.
Proof.
  intros Hu HF [[p Hp]|(n & fl & Hn)].
  - exact (vm_apart _ _ _ _ (us_vm _ _ _ _ _ Hu) _ _ Hp HF).
  - now apply (us_page _ _ _ _ _ Hu) in Hn as (_ & Hn & _).
Qed.

Lemma us_valid s root T F U q : uspace s root T F U -> q ∈ F \/ holds T U q -> vpage q.
Proof.
  intros Hu [HF|[[p Hp]|(n & fl & Hn)]].
  - exact (pa_free_valid _ _ _ (vm_alloc _ _ _ _ (us_vm _ _ _ _ _ Hu)) HF).
  - exact (pt_page _ _ _ (vm_pt _ _ _ _ (us_vm _ _ _ _ _ Hu)) _ _ Hp).
  - now apply (us_page _ _ _ _ _ Hu) in Hn as (Hn & _).
Qed.

(** Bytes of the user's pages that did not change. *)
Lemma umem_same s s' U va :
  (forall n pa fl, U !! n = Some (pa, fl) -> same_bytes (mem_of s) (mem_of s') pa PGSIZE) ->
  umem s' U va = umem s U va.
Proof.
  intros Hs. unfold umem. destruct (U !! _) as [[pa fl]|] eqn:E; [|done].
  apply (Hs _ _ _ E). unfold PGSIZE. dlia.
Qed.

(** ** Unmapping *)

Lemma vpn_range n : 0 <= n < UPAGES -> 0 <= n * PGSIZE < TRAPFRAME /\ n * PGSIZE < MAXVA.
Proof. destruct UPAGES_eq as (E & E' & ?). unfold PGSIZE in *. lia. Qed.

Lemma vpn_div n : n * PGSIZE / PGSIZE = n.
Proof. now apply Z.div_mul. Qed.

Lemma above_other n va : 0 <= n < UPAGES -> TRAPFRAME <= va -> same_page (n * PGSIZE) va = false.
Proof.
  intros Hn Hva. destruct UPAGES_eq as (_ & ET & _). unfold same_page. rewrite vpn_div.
  apply Z.eqb_neq. unfold PGSIZE in *. dlia.
Qed.

Lemma us_lookup s root T F U n pa fl :
  uspace s root T F U -> U !! n = Some (pa, fl) ->
  is_Some (T !! path (n * PGSIZE)) /\ slot T (n * PGSIZE) <> 0 /\
  load64 (mem_of s) (slot T (n * PGSIZE)) = perm_pte pa fl.
Proof.
  intros Hu Hn. pose proof (us_key _ _ _ _ _ Hu _ _ Hn) as Hk.
  pose proof (vpn_range n Hk) as [Hr HM].
  pose proof (us_entry _ _ _ _ _ Hu (n * PGSIZE) Hr) as He. rewrite vpn_div, Hn in He.
  destruct (us_flags _ _ _ _ _ Hu _ _ _ Hn) as [Hf _].
  destruct (us_page _ _ _ _ _ Hu _ _ _ Hn) as (Hp%vpage_pte & _).
  pose proof (perm_pte_valid pa fl Hp Hf) as Hv. rewrite <- He in Hv.
  pose proof (vm_pt _ _ _ _ (us_vm _ _ _ _ _ Hu)) as Hpt.
  rewrite <- He. rewrite leaf_slot in *.
  destruct (T !! path (n * PGSIZE)) eqn:E; [|done].
  split; [done|]. split; [|done]. eapply slot_pos; eauto.
Qed.

Lemma us_delete s s' root T F U n pa fl :
  uspace s root T F U -> U !! n = Some (pa, fl) -> vm_inv s' root T ({[pa]} ∪ F) ->
  (forall va, 0 <= va < MAXVA -> leaf T (mem_of s') va =
     if same_page (n * PGSIZE) va then 0 else leaf T (mem_of s) va) ->
  uspace s' root T ({[pa]} ∪ F) (delete n U).
Proof.
  intros Hu Hn Hv Hl. pose proof Hu as [_ He Hk Hf Hp Hi]. split; [exact Hv|..].
  - intros va Hva. destruct UPAGES_eq as (_ & _ & HM). rewrite Hl by lia. unfold same_page.
    rewrite vpn_div. destruct (Z.eqb_spec n (va / PGSIZE)) as [<-|Hne].
    + now rewrite lookup_delete_eq.
    + rewrite lookup_delete_ne by done. now apply He.
  - intros n' x [_ H]%lookup_delete_Some. eauto.
  - intros n' pa' fl' [_ H]%lookup_delete_Some. eauto.
  - intros n' pa' fl' [Hne H]%lookup_delete_Some. destruct (Hp _ _ _ H) as (H1 & H2 & H3).
    split; [done|]. split; [|done]. intros [->%elem_of_singleton|HF]%elem_of_union; [|done].
    apply Hne. eauto.
  - intros n1 n2 pa' f1 f2 [_ H1]%lookup_delete_Some [_ H2]%lookup_delete_Some. eauto.
Qed.

Lemma holds_delete s root T F U n pa fl q :
  uspace s root T F U -> U !! n = Some (pa, fl) ->
  q ∈ {[pa]} ∪ F \/ holds T (delete n U) q <-> q ∈ F \/ holds T U q.
Proof.
  intros Hu Hn. rewrite elem_of_union, elem_of_singleton. unfold holds. split.
  - intros [[->|H]|[H|(n' & fl' & [_ H]%lookup_delete_Some)]]; eauto 6.
  - intros [H|[H|(n' & fl' & H)]]; eauto. destruct (decide (n' = n)) as [->|Hne].
    + left. left. congruence.
    + right. right. exists n', fl'. now rewrite lookup_delete_ne.
Qed.

(** Freeing the page at virtual page [n] and clearing its entry. *)
Lemma unmap_page s root T F U n pa fl :
  uspace s root T F U -> U !! n = Some (pa, fl) ->
  exists s1, pa_kfree pa s = Ok tt s1 /\
    let s' := set_mem (store64 (mem_of s1) (slot T (n * PGSIZE)) 0) s1 in
    ustep root s T F U s' T ({[pa]} ∪ F) (delete n U) /\
    forall va, umem s' (delete n U) va = if va / PGSIZE =? n then 0 else umem s U va.
Proof.
  intros Hu Hn. pose proof (us_page _ _ _ _ _ Hu _ _ _ Hn) as (Hvp & HpF & HpT).
  pose proof (us_vm _ _ _ _ _ Hu) as [Ha Hpt Hd].
  destruct (pa_kfree_ok s F pa Ha Hvp HpF) as (s1 & Hk & Ha1 & Hf).
  exists s1. split; [exact Hk|].
  assert (forall q, vpage q -> q <> pa -> same_bytes (mem_of s) (mem_of s1) q PGSIZE) as Hsame.
  { intros q Hq Hne. now apply (page_frame _ _ pa). }
  assert (forall p a, T !! p = Some a -> same_bytes (mem_of s) (mem_of s1) a PGSIZE) as HsT.
  { intros p a Ht. apply Hsame; [exact (pt_page _ _ _ Hpt _ _ Ht)|]. intros ->. exact (HpT p Ht). }
  assert (vm_inv s1 root T ({[pa]} ∪ F)) as Hv1.
  { split; [exact Ha1|now apply (pt_inv_same (mem_of s))|]. intros p a Ht.
    rewrite elem_of_union, elem_of_singleton. intros [->|HF]; [exact (HpT p Ht)|exact (Hd p a Ht HF)]. }
  destruct (us_lookup s root T F U n pa fl Hu Hn) as (Hpath & Hsl & _).
  pose proof (vpn_range n (us_key _ _ _ _ _ Hu _ _ Hn)) as [Hr HM].
  destruct (put_leaf s1 root T _ (n * PGSIZE) 0 Hv1 Hpath ltac:(lia)) as [Hg Hl].
  set (s' := set_mem _ s1) in *.
  assert (mem_of s' = store64 (mem_of s1) (slot T (n * PGSIZE)) 0) as Em by apply mem_set_mem.
  rewrite <- Em in Hl. clearbody s'.
  assert (forall q, vpage q -> q <> pa -> q ∉ F -> (forall p, T !! p <> Some q) ->
    same_bytes (mem_of s) (mem_of s') q PGSIZE) as Hframe.
  { intros q Hq Hne HF HT. eapply same_bytes_trans; [now apply Hsame|].
    apply (grown_frame _ _ _ _ _ _ _ Hg); [done| |done].
    rewrite elem_of_union, elem_of_singleton. tauto. }
  split; [split|].
  - apply (us_delete s s' root T F U n pa fl Hu Hn (grown_inv _ _ _ _ _ _ _ Hg)).
    intros va Hva. rewrite Hl by done. now rewrite (leaf_same T (mem_of s) (mem_of s1) root).
  - done.
  - intros q. eapply holds_delete; eauto.
  - intros q Hq Hno. apply Hframe; [done|intros ->; apply Hno; right; right; eauto|tauto|].
    intros p Ht. apply Hno. right. left. eauto.
  - intros va Hva. destruct UPAGES_eq as (_ & ET & _).
    rewrite Hl, above_other by (eauto using us_key || lia).
    now apply (leaf_same T (mem_of s) (mem_of s1) root).
  - intros va. unfold umem. destruct (Z.eqb_spec (va / PGSIZE) n) as [->|Hne].
    + now rewrite lookup_delete_eq.
    + rewrite lookup_delete_ne by done. destruct (U !! (va / PGSIZE)) as [[p' f']|] eqn:E; [|done].
      destruct (us_page _ _ _ _ _ Hu _ _ _ E) as (H1 & H2 & H3).
      apply (Hframe p'); try done; [|unfold PGSIZE; dlia]. intros ->. apply Hne.
      exact (us_inj _ _ _ _ _ Hu _ _ _ _ _ E Hn).
Qed.

(** [U] without the pages [lo, hi). *)
Definition drop_range (lo hi : Z) (U : umap) : umap :=
  filter (fun kv => ~ (lo <= kv.1 < hi)) U.

Lemma lookup_drop_range lo hi U n :
  drop_range lo hi U !! n = if (lo <=? n) && (n <? hi) then None else U !! n.
Proof.
  unfold drop_range. rewrite map_lookup_filter. case_goal; zbool.
  - destruct (U !! n); cbn; [|done]. now rewrite option_guard_False by (cbn; lia).
  - destruct (U !! n); cbn; [|done]. now rewrite option_guard_True by (cbn; lia).
Qed.

Lemma drop_range_nil lo hi U : hi <= lo -> drop_range lo hi U = U.
Proof. intros. apply map_eq. intros n. rewrite lookup_drop_range. case_goal; zbool; [lia|done]. Qed.

Lemma drop_range_cons lo hi U :
  lo < hi -> drop_range (lo + 1) hi (delete lo U) = drop_range lo hi U.
Proof.
  intros. apply map_eq. intros n. rewrite !lookup_drop_range.
  destruct (decide (lo = n)) as [<-|]; [rewrite lookup_delete_eq|rewrite lookup_delete_ne by done];
    repeat case_goal; zbool; lia || done.
Qed.

Lemma uvmunmap_loop_ok k : forall s root T F U n fuel,
  uspace s root T F U -> (forall i, n <= i < n + Z.of_nat k -> is_Some (U !! i)) ->
  0 <= n -> n + Z.of_nat k <= UPAGES -> (k < fuel)%nat ->
  exists s' F', let U' := drop_range n (n + Z.of_nat k) U in
    uvmunmap_loop fuel root (n * PGSIZE) ((n + Z.of_nat k) * PGSIZE) true s = Ok tt s' /\
    ustep root s T F U s' T F' U' /\
    forall va, umem s' U' va =
      if (n <=? va / PGSIZE) && (va / PGSIZE <? n + Z.of_nat k) then 0 else umem s U va.
Proof.
  induction k as [|k IH]; intros s root T F U n fuel Hu Hin H0 Hk Hf;
    (destruct fuel as [|fuel]; [lia|]); cbn [uvmunmap_loop].
  - zdecide. exists s, F. rewrite drop_range_nil by lia. split; [done|].
    split; [now apply ustep_refl|]. intros va. case_goal; zbool; [lia|done].
  - destruct (Hin n ltac:(lia)) as [[pa fl] Hn].
    destruct (us_lookup s root T F U n pa fl Hu Hn) as (Hpath & Hsl & Hld).
    destruct (us_flags _ _ _ _ _ Hu _ _ _ Hn) as [Hfl Hnv].
    destruct (us_page _ _ _ _ _ Hu _ _ _ Hn) as (Hpp%vpage_pte & _).
    pose proof (vpn_range n ltac:(lia)) as [Hr HM].
    rewrite (proj2 (Z.ltb_lt (n * PGSIZE) _)) by (unfold PGSIZE; lia).
    rewrite (bind_ok _ _ _ _ _ (walk_slot s root T (n * PGSIZE) (vm_pt _ _ _ _ (us_vm _ _ _ _ _ Hu)) ltac:(lia))).
    rewrite (proj2 (Z.eqb_neq (slot T (n * PGSIZE)) 0)) by done.
    erewrite bind_ok by reflexivity. rewrite Hld.
    pose proof (perm_pte_valid pa fl Hpp Hfl) as Hval. unfold truthy in Hval. zbool.
    rewrite (proj2 (Z.eqb_neq _ _) Hval).
    assert ((PTE_FLAGS (perm_pte pa fl) =? PTE_V) = false) as ->.
    { apply Z.eqb_neq. unfold perm_pte. now rewrite PTE_FLAGS_PA2PTE by auto using flags_lor, flags_V. }
    rewrite (perm_pte_pa pa fl Hpp Hfl).
    destruct (unmap_page s root T F U n pa fl Hu Hn) as (s1 & Hk1 & Hst & Hum).
    rewrite (bind_ok _ _ _ _ _ Hk1). erewrite bind_ok by reflexivity.
    set (s2 := set_mem _ s1) in *. clearbody s2.
    rewrite u64_small by (rewrite MAXVA_eq in HM; unfold is_u64, PGSIZE in *; lia).
    replace (n * PGSIZE + PGSIZE) with ((n + 1) * PGSIZE) by lia.
    replace (n + Z.of_nat (S k)) with (n + 1 + Z.of_nat k) by lia.
    destruct (IH s2 root T ({[pa]} ∪ F) (delete n U) (n + 1) fuel) as (s' & F' & Hl & Hst' & Hum');
      [apply Hst| |lia..|].
    { intros i Hi. rewrite lookup_delete_ne by lia. apply Hin. lia. }
    exists s', F'. rewrite drop_range_cons in Hst', Hum' by lia. split; [exact Hl|].
    split; [eapply ustep_trans; eassumption|]. intros va. rewrite Hum', Hum.
    repeat case_goal; zbool; lia || done.
Qed.

Lemma uvmunmap_ok s root T F U n k :
  uspace s root T F U -> (forall i, n <= i < n + k -> is_Some (U !! i)) ->
  0 <= n -> 0 <= k -> n + k <= UPAGES ->
  exists s' F', let U' := drop_range n (n + k) U in
    uvmunmap root (n * PGSIZE) k true s = Ok tt s' /\ ustep root s T F U s' T F' U' /\
    forall va, umem s' U' va =
      if (n <=? va / PGSIZE) && (va / PGSIZE <? n + k) then 0 else umem s U va.
Proof.
  intros Hu Hin Hn Hk HU. unfold uvmunmap.
  rewrite Z.mod_mul by done. cbn [negb Z.eqb]. destruct UPAGES_eq as (EU & _ & _).
  rewrite !u64_small by (rewrite ?u64_small; unfold is_u64, PGSIZE in *; lia).
  rewrite <- Z.mul_add_distr_r. rewrite <- (Z2Nat.id k) in Hin, HU |- * by done.
  rewrite Nat2Z.id. apply uvmunmap_loop_ok; try done; lia.
Qed.

(** ** Mapping one page *)

Lemma mapped_1 va pa perm v old :
  va mod PGSIZE = 0 ->
  mapped va 1 pa perm v old = if same_page va v then perm_pte pa perm else old.
Proof. intros. now rewrite <- (mapped_step va 0), mapped_0 by lia. Qed.

(** The space of [s] in a state [s2] where the free page [b] has been taken
    and filled. *)
Lemma us_take s s2 root T F U b :
  uspace s root T F U -> b ∈ F -> pa_inv s2 (F ∖ {[b]}) ->
  frame_bytes (mem_of s) (mem_of s2) b PGSIZE ->
  uspace s2 root T (F ∖ {[b]}) U /\
  forall q, vpage q -> q <> b -> same_bytes (mem_of s) (mem_of s2) q PGSIZE.
Proof.
  intros Hu Hb Ha Hf. pose proof (us_valid _ _ _ _ _ b Hu ltac:(tauto)) as Hvb.
  assert (forall q, vpage q -> q <> b -> same_bytes (mem_of s) (mem_of s2) q PGSIZE) as Hs.
  { intros q Hq Hne. now apply (page_frame _ _ b). }
  split; [|exact Hs]. eapply us_frame; [exact Hu|exact Ha| |].
  - intros q [Hq _]%in_minus. eapply us_apart; eauto.
  - intros p a Ht. apply Hs.
    + apply (us_valid _ _ _ _ _ a Hu). right. left. eauto.
    + intros ->. eapply us_apart; [exact Hu|exact Hb|]. left. eauto.
Qed.

Lemma us_insert s s' root T T' F F' U n b perm :
  uspace s root T F U -> vm_inv s' root T' F' ->
  (forall p a, T' !! p = Some a -> T !! p = Some a \/ a ∈ F) -> F' ⊆ F ->
  (forall va, 0 <= va < MAXVA -> leaf T' (mem_of s') va =
     if same_page (n * PGSIZE) va then perm_pte b perm else leaf T (mem_of s) va) ->
  0 <= n < UPAGES -> vpage b -> b ∉ F -> ~ holds T U b ->
  pte_flags_ok perm -> Z.lor perm PTE_V <> PTE_V ->
  uspace s' root T' F' (<[n := (b, perm)]> U).
Proof.
  intros Hu Hv HT HF Hl Hn Hvb HbF Hbh Hp Hp'. pose proof Hu as [_ He Hk Hf Hpg Hi].
  split; [exact Hv|..].
  - intros va Hva. destruct UPAGES_eq as (_ & _ & HM). rewrite Hl by lia. unfold same_page.
    rewrite vpn_div. destruct (Z.eqb_spec n (va / PGSIZE)) as [<-|Hne].
    + now rewrite lookup_insert_eq.
    + rewrite lookup_insert_ne by done. now apply He.
  - intros n' x [[<- _]|[_ H]]%lookup_insert_Some; eauto.
  - intros n' pa' fl' [[<- [= <- <-]]|[_ H]]%lookup_insert_Some; eauto.
  - intros n' pa' fl' [[<- [= <- <-]]|[_ H]]%lookup_insert_Some.
    + split; [done|]. split; [auto|]. intros p [H|H]%HT; [|done]. apply Hbh. left. eauto.
    + destruct (Hpg _ _ _ H) as (H1 & H2 & H3). split; [done|]. split; [auto|].
      intros p [Hc|Hc]%HT; [now apply (H3 p)|done].
  - assert (forall n' fl', U !! n' <> Some (b, fl')) as Hno.
    { intros n' fl' H. apply Hbh. right. eauto. }
    intros n1 n2 pa' f1 f2. rewrite !lookup_insert_Some.
    intros [[<- [= <- <-]]|[_ H1]] [[<- E2]|[_ H2]]; [done| | |eauto].
    + now apply Hno in H2.
    + injection E2 as <- <-. now apply Hno in H1.
Qed.

Lemma holds_grown s root T F U s' T' F' q :
  grown root s T F s' T' F' -> q ∈ F' \/ holds T' U q <-> q ∈ F \/ holds T U q.
Proof.
  intros [_ HT HF Hnew Hused _]. unfold holds. split.
  - intros [H|[[p H]|H]]; auto. apply Hnew in H as [H|[H _]]; eauto.
  - intros [H|[[p H]|H]]; auto.
    + destruct (decide (q ∈ F')) as [|Hn]; [auto|]. right. left. now apply Hused.
    + right. left. exists p. now apply (lookup_weaken T).
Qed.

(** A page not free and not in the space keeps its bytes; so do the user's. *)
Lemma us_grown_user s root T F U s' T' F' n pa fl :
  uspace s root T F U -> grown root s T F s' T' F' -> U !! n = Some (pa, fl) ->
  same_bytes (mem_of s) (mem_of s') pa PGSIZE.
Proof.
  intros Hu Hg Hn. destruct (us_page _ _ _ _ _ Hu _ _ _ Hn) as (? & ? & ?).
  now apply (grown_frame _ _ _ _ _ _ _ Hg).
Qed.

Lemma us_grown s root T F U s' T' F' :
  uspace s root T F U -> grown root s T F s' T' F' ->
  (forall va, 0 <= va < MAXVA -> leaf T' (mem_of s') va = leaf T (mem_of s) va) ->
  uspace s' root T' F' U.
Proof.
  intros [_ He Hk Hf Hpg Hi] Hg Hl. split; auto.
  - apply Hg.
  - intros va Hva. rewrite Hl; [now apply He|]. destruct UPAGES_eq as (_ & _ & ?). lia.
  - intros n pa fl Hn. destruct (Hpg _ _ _ Hn) as (H1 & H2 & H3). split; [done|].
    split; [intros H; apply H2, (grown_free _ _ _ _ _ _ _ Hg), H|].
    intros p [H|[H _]]%(grown_new _ _ _ _ _ _ _ Hg); [now apply (H3 p)|done].
Qed.

(** A failed allocation. *)
Lemma ustep_kalloc_none root s T F U s' :
  uspace s root T F U -> grown root s T F s' T F -> mem_of s' = mem_of s ->
  ustep root s T F U s' T F U.
Proof.
  intros Hu Hg Hm. split; [|done|done|intros; rewrite Hm; apply same_bytes_refl|intros; now rewrite Hm].
  eapply us_grown; [exact Hu|exact Hg|]. intros; now rewrite Hm.
Qed.

(** [mappages] of the page [b], which is outside the space, at the virtual
    page [n], which is free. *)
Lemma us_map s root T F U n b perm :
  uspace s root T F U -> vpage b -> b ∉ F -> ~ holds T U b ->
  0 <= n < UPAGES -> U !! n = None -> pte_flags_ok perm -> Z.lor perm PTE_V <> PTE_V ->
  exists r s' T' F', mappages root (n * PGSIZE) PGSIZE b perm s = Ok r s' /\
    grown root s T F s' T' F' /\
    (forall va, TRAPFRAME <= va < MAXVA -> leaf T' (mem_of s') va = leaf T (mem_of s) va) /\
    (r = 0 /\ uspace s' root T' F' (<[n := (b, perm)]> U) \/
     r = -1 /\ F' = ∅ /\ uspace s' root T' F' U).
Proof.
  intros Hu Hvb HbF Hbh Hn Hno Hp Hp'.
  pose proof (valid_page_range b Hvb) as (Hb1 & Hb2 & Hb3).
  pose proof (vpn_range n Hn) as [Hr HM]. destruct UPAGES_eq as (EU & ET & _).
  destruct (mappages_ok s root T F (n * PGSIZE) PGSIZE b perm)
    as (r & s' & T' & F' & k & Hm & Hg & _ & Hl & Hres); try done; try lia.
  { apply Hu. }
  { now apply Z.mod_mul. }
  { rewrite MAXVA_eq in *. unfold PGSIZE in *. lia. }
  { intros v Hv. pose proof (us_entry _ _ _ _ _ Hu v) as He.
    replace (v / PGSIZE) with n in He by (unfold PGSIZE in *; dlia). rewrite Hno in He.
    apply He. unfold PGSIZE in *. lia. }
  assert (k = 0 \/ k = 1) as Hk01 by (unfold PGSIZE in Hres; lia).
  exists r, s', T', F'. split; [exact Hm|]. split; [exact Hg|]. split.
  { intros va Hva. rewrite Hl by lia. destruct Hk01 as [->| ->]; [apply mapped_0|].
    rewrite mapped_1 by now apply Z.mod_mul. rewrite above_other by (done || lia). done. }
  destruct Hres as [[-> Hk]|(-> & Hk0 & Hk & HF')]; [left|right]; (split; [done|]).
  - assert (k = 1) as -> by (unfold PGSIZE in Hk; lia).
    eapply us_insert; [exact Hu|apply Hg|..]; try done.
    + intros p a [H|[H _]]%(grown_new _ _ _ _ _ _ _ Hg); auto.
    + apply Hg.
    + intros va Hva. rewrite Hl by done. apply mapped_1. now apply Z.mod_mul.
  - split; [done|]. assert (k = 0) as -> by (unfold PGSIZE in Hk; lia).
    eapply us_grown; [exact Hu|exact Hg|]. intros va Hva. now rewrite Hl, mapped_0.
Qed.

Lemma holds_insert T U n b perm q :
  U !! n = None -> holds T (<[n := (b, perm)]> U) q <-> q = b \/ holds T U q.
Proof.
  intros Hn. unfold holds. split.
  - intros [H|(m & fl & [[_ [= <- _]]|[_ H]]%lookup_insert_Some)]; eauto.
  - intros [->|[H|(m & fl & H)]]; [right; exists n, perm; apply lookup_insert_eq|eauto|].
    right. exists m, fl. rewrite lookup_insert_ne; [done|]. intros ->. congruence.
Qed.

(** Giving back a page that is outside the space. *)
Lemma us_giveback s root T F U b :
  uspace s root T F U -> vpage b -> b ∉ F -> ~ holds T U b ->
  exists s', pa_kfree b s = Ok tt s' /\ uspace s' root T ({[b]} ∪ F) U /\
    forall q, vpage q -> q <> b -> same_bytes (mem_of s) (mem_of s') q PGSIZE.
Proof.
  intros Hu Hvb HbF Hbh.
  destruct (pa_kfree_ok s F b (vm_alloc _ _ _ _ (us_vm _ _ _ _ _ Hu)) Hvb HbF) as (s' & Hk & Ha & Hf).
  assert (forall q, vpage q -> q <> b -> same_bytes (mem_of s) (mem_of s') q PGSIZE) as Hs.
  { intros q Hq Hne. now apply (page_frame _ _ b). }
  exists s'. split; [exact Hk|]. split; [|exact Hs]. eapply us_frame; [exact Hu|exact Ha| |].
  - intros q. rewrite elem_of_union, elem_of_singleton. intros [->|H]; [done|].
    eapply us_apart; eauto.
  - intros p a Ht. apply Hs; [|intros ->; apply Hbh; left; eauto].
    apply (us_valid _ _ _ _ _ a Hu). right. left. eauto.
Qed.

Lemma vpage_user s root T F U n pa fl :
  uspace s root T F U -> U !! n = Some (pa, fl) -> vpage pa.
Proof. intros Hu Hn. now apply (us_page _ _ _ _ _ Hu) in Hn. Qed.

(** [mappages] of the free page [b] after it has been taken and filled: it is
    in the space, or it can be given back. *)
Lemma map_page s s2 root T F U n b perm :
  uspace s root T F U -> b ∈ F -> pa_inv s2 (F ∖ {[b]}) ->
  frame_bytes (mem_of s) (mem_of s2) b PGSIZE ->
  0 <= n < UPAGES -> U !! n = None -> pte_flags_ok perm -> Z.lor perm PTE_V <> PTE_V ->
  exists r s' T', mappages root (n * PGSIZE) PGSIZE b perm s2 = Ok r s' /\
    (r = 0 /\ (exists F', ustep root s T F U s' T' F' (<[n := (b, perm)]> U)) /\
       same_bytes (mem_of s2) (mem_of s') b PGSIZE /\
       (forall va, umem s' U va = umem s U va) \/
     r = -1 /\ exists s3, pa_kfree b s' = Ok tt s3 /\ ustep root s T F U s3 T' {[b]} U /\
       forall va, umem s3 U va = umem s U va).
Proof.
  intros Hu Hb Ha Hf Hn Hno Hp Hp'.
  destruct (us_take s s2 root T F U b Hu Hb Ha Hf) as [Hu2 Hs2].
  pose proof (us_valid _ _ _ _ _ b Hu ltac:(tauto)) as Hvb.
  pose proof (us_apart _ _ _ _ _ b Hu Hb) as Hbh.
  assert (b ∉ F ∖ {[b]}) as HbF by (rewrite in_minus; tauto).
  destruct (us_map s2 root T (F ∖ {[b]}) U n b perm) as (r & s' & T' & F' & Hm & Hg & Hab & Hres); try done.
  assert (forall p a, T !! p = Some a -> vpage a /\ a <> b) as HTb.
  { intros p a Ht. split; [apply (us_valid _ _ _ _ _ a Hu); right; left; eauto|].
    intros ->. apply Hbh. left. eauto. }
  assert (forall va, TRAPFRAME <= va < MAXVA -> leaf T' (mem_of s') va = leaf T (mem_of s) va) as Hab'.
  { intros va Hva. rewrite Hab by done. apply (leaf_same T (mem_of s) (mem_of s2) root); [apply Hu|].
    intros p a Ht. apply Hs2; now apply (HTb p). }
  pose proof (fun q => holds_grown s2 root T _ U s' T' F' q Hg) as Hcons. setoid_rewrite in_minus in Hcons.
  assert (forall q, vpage q -> q <> b -> q ∉ F -> (forall p, T !! p <> Some q) ->
    same_bytes (mem_of s) (mem_of s') q PGSIZE) as Hfr.
  { intros q Hq Hne HqF HqT. eapply same_bytes_trans; [now apply Hs2|].
    apply (grown_frame _ _ _ _ _ _ _ Hg); [done|rewrite in_minus; tauto|done]. }
  assert (forall m pa fl, U !! m = Some (pa, fl) -> pa <> b /\ same_bytes (mem_of s) (mem_of s') pa PGSIZE) as Hus.
  { intros m pa fl Hm'. destruct (us_page _ _ _ _ _ Hu _ _ _ Hm') as (? & ? & ?).
    assert (pa <> b) by (intros ->; done). auto. }
  exists r, s', T'. split; [exact Hm|]. destruct Hres as [[-> Hu']|(-> & -> & Hu')].
  - left. split; [done|]. split; [exists F'; split; [exact Hu'|apply Hg| | |exact Hab']|split].
    + intros q. rewrite holds_insert by done. specialize (Hcons q).
      destruct (decide (q = b)) as [->|]; tauto.
    + intros q Hq Hqn. apply Hfr; [done|intros ->; tauto|tauto|]. intros p H. apply Hqn. right. left. eauto.
    + apply (grown_frame _ _ _ _ _ _ _ Hg); [done|done|]. intros p H. apply Hbh. left. eauto.
    + intros va. apply umem_same. intros m pa fl Hm'. exact (proj2 (Hus _ _ _ Hm')).
  - right. split; [done|].
    assert (~ holds T' U b) as Hbh' by (intros H; specialize (Hcons b); tauto).
    destruct (us_giveback s' root T' ∅ U b Hu' Hvb ltac:(set_solver) Hbh') as (s3 & Hk3 & Hu3 & Hs3).
    rewrite union_empty_r_L in Hu3. exists s3. split; [exact Hk3|]. split; [split|].
    + exact Hu3.
    + apply Hg.
    + intros q. rewrite elem_of_singleton. specialize (Hcons q). rewrite elem_of_empty in Hcons.
      destruct (decide (q = b)) as [->|]; tauto.
    + intros q Hq Hqn. assert (q <> b) by (intros ->; tauto).
      eapply same_bytes_trans; [|now apply Hs3].
      apply Hfr; [done|done|tauto|]. intros p H'. apply Hqn. right. left. eauto.
    + intros va Hva. rewrite <- Hab' by done. apply (leaf_same T' (mem_of s') (mem_of s3) root); [apply Hu'|].
      intros p a Ht. apply Hs3; [apply (us_valid _ _ _ _ _ a Hu'); right; left; eauto|].
      intros ->. apply Hbh'. left. eauto.
    + intros va. apply umem_same. intros m pa fl Hm'. destruct (Hus _ _ _ Hm') as [Hne Hs].
      eapply same_bytes_trans; [exact Hs|]. apply Hs3; [eapply vpage_user; eauto|done].
Qed.

(** ** Growing and shrinking *)

(** The number of pages of a memory of [sz] bytes. *)
Definition upages (sz : Z) : Z := PGROUNDUP sz / PGSIZE.

Lemma upages_spec sz :
  0 <= sz <= TRAPFRAME ->
  PGROUNDUP sz = upages sz * PGSIZE /\ 0 <= upages sz <= UPAGES /\
  upages sz * PGSIZE - PGSIZE < sz <= upages sz * PGSIZE.
Proof.
  intros Hs. destruct UPAGES_eq as (EU & ET & _). unfold upages.
  destruct (PGROUNDUP_spec sz) as [Ha Hr]; [lia|unfold PGSIZE in *; lia|].
  unfold PGSIZE in *. dlia.
Qed.

Lemma upages_exact n : 0 <= n <= UPAGES -> upages (n * PGSIZE) = n.
Proof.
  intros Hn. destruct UPAGES_eq as (EU & ET & _). unfold upages.
  rewrite PGROUNDUP_aligned; [now apply Z.div_mul|unfold PGSIZE in *; lia..|now apply Z.mod_mul].
Qed.

Lemma uvmdealloc_ok s root T F U oldsz newsz :
  uspace s root T F U -> 0 <= newsz <= oldsz -> oldsz <= TRAPFRAME ->
  (forall i, upages newsz <= i < upages oldsz -> is_Some (U !! i)) ->
  exists s' F', let U' := drop_range (upages newsz) (upages oldsz) U in
    uvmdealloc root oldsz newsz s = Ok newsz s' /\ ustep root s T F U s' T F' U' /\
    forall va, umem s' U' va =
      if (upages newsz <=? va / PGSIZE) && (va / PGSIZE <? upages oldsz) then 0 else umem s U va.
Proof.
  intros Hu Hn Ho Hin. destruct UPAGES_eq as (EU & ET & _). unfold uvmdealloc.
  assert (upages oldsz <= upages newsz ->
    ustep root s T F U s T F (drop_range (upages newsz) (upages oldsz) U) /\
    forall va, umem s (drop_range (upages newsz) (upages oldsz) U) va =
      if (upages newsz <=? va / PGSIZE) && (va / PGSIZE <? upages oldsz) then 0 else umem s U va) as Hnop.
  { intros Hle. rewrite drop_range_nil by done. split; [now apply ustep_refl|].
    intros va. case_goal; zbool; [lia|done]. }
  destruct (upages_spec oldsz ltac:(lia)) as (Eo & ? & ?).
  destruct (upages_spec newsz ltac:(lia)) as (En & ? & ?).
  destruct (Z.leb_spec oldsz newsz) as [Hle|Hlt].
  { exists s, F. replace newsz with oldsz in * by lia. split; [done|]. now apply Hnop. }
  destruct (Z.ltb_spec (PGROUNDUP newsz) (PGROUNDUP oldsz)) as [Hpg|Hpg].
  - rewrite Eo, En in *. rewrite <- Z.mul_sub_distr_r, Z.div_mul by done.
    rewrite i32_small, u64_small by (unfold is_u64, PGSIZE in *; lia).
    destruct (uvmunmap_ok s root T F U (upages newsz) (upages oldsz - upages newsz))
      as (s' & F' & Hun & Hst & Hum); try done; try (unfold PGSIZE in *; lia).
    { intros i Hi. apply Hin. lia. }
    replace (upages newsz + (upages oldsz - upages newsz)) with (upages oldsz) in * by lia.
    exists s', F'. split; [|auto]. now rewrite (bind_ok _ _ _ _ _ Hun).
  - exists s, F. split; [done|]. apply Hnop. unfold PGSIZE in *. lia.
Qed.

(** The flags of a user page. *)
Definition uperm (xperm : Z) : Z := Z.lor (Z.lor PTE_R PTE_U) xperm.

Lemma uperm_ok xperm :
  pte_flags_ok xperm -> pte_flags_ok (uperm xperm) /\ Z.lor (uperm xperm) PTE_V <> PTE_V.
Proof.
  intros Hx. split.
  - apply flags_lor; [unfold pte_flags_ok; split; [vm_compute; congruence|done]|done].
  - intros E. apply (f_equal (fun z => Z.testbit z 1)) in E. unfold uperm in E.
    rewrite !Z.lor_spec in E. vm_compute in E. discriminate.
Qed.

(** A new page, zeroed, at virtual page [n]. *)
Lemma zero_map s s1 root T F U n b xperm :
  uspace s root T F U -> b ∈ F -> pa_inv s1 (F ∖ {[b]}) ->
  frame_bytes (mem_of s) (mem_of s1) b PGSIZE ->
  0 <= n < UPAGES -> U !! n = None -> pte_flags_ok xperm ->
  exists r s' T', mappages root (n * PGSIZE) PGSIZE b (uperm xperm)
      (set_mem (memset (mem_of s1) b 0 PGSIZE) s1) = Ok r s' /\
    (r = 0 /\ (exists F', let U' := <[n := (b, uperm xperm)]> U in
       ustep root s T F U s' T' F' U' /\ forall va, umem s' U' va = umem s U va) \/
     r = -1 /\ exists s3, pa_kfree b s' = Ok tt s3 /\ ustep root s T F U s3 T' {[b]} U /\
       forall va, umem s3 U va = umem s U va).
Proof.
  intros Hu Hb Ha1 Hf Hn Hno Hx. destruct (uperm_ok xperm Hx) as [Hp Hp'].
  pose proof (us_valid _ _ _ _ _ b Hu ltac:(tauto)) as Hvb.
  destruct (zero_page s s1 F b Ha1 Hvb Hf) as (Ha2 & Hf2 & Hz).
  set (s2 := set_mem _ s1) in *. clearbody s2.
  destruct (map_page s s2 root T F U n b (uperm xperm)) as (r & s' & T' & Hm & Hres); try done.
  exists r, s', T'. split; [exact Hm|].
  destruct Hres as [(-> & [F' Hst] & Hs & Hum)|Hres]; [left|right; exact Hres].
  split; [done|]. exists F'. split; [exact Hst|]. intros va. rewrite <- Hum. unfold umem.
  destruct (decide (n = va / PGSIZE)) as [->|Hne]; [|now rewrite lookup_insert_ne].
  rewrite lookup_insert_eq, Hno. rewrite Hs by (unfold PGSIZE; dlia). apply Hz. unfold PGSIZE. dlia.
Qed.

Lemma drop_range_snoc n0 n x U :
  U !! n = None -> n0 <= n -> drop_range n0 (n + 1) (<[n := x]> U) = drop_range n0 n U.
Proof.
  intros Hn Hle. apply map_eq. intros i. rewrite !lookup_drop_range.
  destruct (decide (n = i)) as [<-|]; [rewrite lookup_insert_eq, Hn|rewrite lookup_insert_ne by done];
    repeat case_goal; zbool; lia || done.
Qed.

(** How [uvmalloc] ends: with [k] new pages from page [n] on that read as
    zero, or, out of memory, back at the [n0] pages it began with. *)
Inductive alloc_end (s : St) (U : umap) (n0 n k newsz perm : Z) (s' : St) (U' : umap) : Z -> Prop :=
| alloc_done :
    (forall va, umem s' U' va = umem s U va) -> U ⊆ U' ->
    (forall i, is_Some (U' !! i) <-> is_Some (U !! i) \/ n <= i < n + k) ->
    (forall i x, U' !! i = Some x -> U !! i = None -> x.2 = perm) ->
    alloc_end s U n0 n k newsz perm s' U' newsz
| alloc_back :
    U' = drop_range n0 n U ->
    (forall va, umem s' U' va =
       if (n0 <=? va / PGSIZE) && (va / PGSIZE <? n) then 0 else umem s U va) ->
    alloc_end s U n0 n k newsz perm s' U' 0.

(** The rollback, from a state with the pages up to [n]. *)
Lemma uvmalloc_rollback root s T F U s1 T1 F1 n0 n k newsz perm :
  ustep root s T F U s1 T1 F1 U -> (forall va, umem s1 U va = umem s U va) ->
  0 <= n0 <= n -> n <= UPAGES -> (forall i, n0 <= i < n -> is_Some (U !! i)) ->
  exists s' F', (_ ← uvmdealloc root (n * PGSIZE) (n0 * PGSIZE); mret 0) s1 = Ok 0 s' /\
    ustep root s T F U s' T1 F' (drop_range n0 n U) /\
    alloc_end s U n0 n k newsz perm s' (drop_range n0 n U) 0.
Proof.
  intros Hst Hum Hn HU Hin. destruct UPAGES_eq as (EU & ET & _).
  destruct (uvmdealloc_ok s1 root T1 F1 U (n * PGSIZE) (n0 * PGSIZE)) as (s' & F' & Hd & Hst' & Hum');
    [apply Hst|unfold PGSIZE in *; lia..| |].
  { rewrite !upages_exact by lia. exact Hin. }
  rewrite !upages_exact in * by lia. exists s', F'. rewrite (bind_ok _ _ _ _ _ Hd).
  split; [done|]. split; [eapply ustep_trans; eassumption|]. apply alloc_back; [done|].
  intros va. rewrite Hum'. case_goal; auto.
Qed.

(** One more page in front of an [alloc_end]. *)
Lemma alloc_end_cons s s2 U b n0 n k newsz perm s' U' r :
  U !! n = None -> n0 <= n -> 0 <= k ->
  (forall va, umem s2 (<[n := (b, perm)]> U) va = umem s U va) ->
  alloc_end s2 (<[n := (b, perm)]> U) n0 (n + 1) k newsz perm s' U' r ->
  alloc_end s U n0 n (k + 1) newsz perm s' U' r.
Proof.
  intros Hnn Hn Hk Hum [Hum' Hsub Hdom Hperm|HU' Hum'].
  - apply alloc_done.
    + intros va. now rewrite Hum'.
    + etransitivity; [|exact Hsub]. now apply insert_subseteq.
    + intros i. rewrite Hdom, lookup_insert_is_Some'. intuition lia.
    + intros i x Hi Hno. destruct (decide (i = n)) as [->|].
      * assert (U' !! n = Some (b, perm)) as E
          by (eapply lookup_weaken; [apply lookup_insert_eq|exact Hsub]).
        rewrite E in Hi. now injection Hi as <-.
      * apply (Hperm i x Hi). now rewrite lookup_insert_ne.
  - apply alloc_back.
    + now rewrite HU', drop_range_snoc.
    + intros va. rewrite Hum', Hum. unfold umem.
      destruct (decide (va / PGSIZE = n)) as [->|]; [rewrite Hnn|]; repeat case_goal; zbool; lia || done.
Qed.

Lemma uvmalloc_loop_ok k : forall s root T F U n0 n newsz xperm fuel,
  uspace s root T F U -> pte_flags_ok xperm ->
  0 <= n0 <= n -> n + Z.of_nat k <= UPAGES -> 0 <= newsz ->
  (n + Z.of_nat k) * PGSIZE - PGSIZE < newsz \/ k = 0%nat -> newsz <= (n + Z.of_nat k) * PGSIZE ->
  (forall i, n0 <= i < n -> is_Some (U !! i)) ->
  (forall i, n <= i < n + Z.of_nat k -> U !! i = None) -> (k < fuel)%nat ->
  exists r s' T' F' U',
    uvmalloc_loop fuel root (n * PGSIZE) (n0 * PGSIZE) newsz xperm s = Ok r s' /\
    ustep root s T F U s' T' F' U' /\
    alloc_end s U n0 n (Z.of_nat k) newsz (uperm xperm) s' U' r.
Proof.
  induction k as [|k IH]; intros s root T F U n0 n newsz xperm fuel Hu Hx Hn HU Hs0 Hs1 Hs2 Hin Hout Hf;
    (destruct fuel as [|fuel]; [lia|]); cbn [uvmalloc_loop].
  { zdecide. exists newsz, s, T, F, U. split; [done|]. split; [now apply ustep_refl|].
    apply alloc_done; [done|done| |congruence]. intros i. intuition lia. }
  rewrite (proj2 (Z.ltb_lt (n * PGSIZE) newsz)) by (unfold PGSIZE in *; lia).
  destruct (vm_kalloc s root T F (us_vm _ _ _ _ _ Hu))
    as [(HF & s1 & Hk & Hg & Hm)|(b & s1 & Hk & Hb & Hvb & Ha1 & Hfr)]; rewrite (bind_ok _ _ _ _ _ Hk).
  { destruct (uvmalloc_rollback root s T F U s1 T F n0 n (Z.of_nat (S k)) newsz (uperm xperm))
      as (s' & F' & He & Hst & Hres); try done; try lia; [| |eauto 10].
    - now apply ustep_kalloc_none.
    - intros va. unfold umem. now rewrite Hm. }
  pose proof (vpage_pos b Hvb). rewrite (proj2 (Z.eqb_neq b 0)) by lia. erewrite bind_ok by reflexivity.
  fold (uperm xperm). pose proof (Hout n ltac:(lia)) as Hnn.
  destruct (zero_map s s1 root T F U n b xperm) as (r & s2 & T2 & Hm & Hres); try done; try lia.
  rewrite (bind_ok _ _ _ _ _ Hm).
  destruct Hres as [(-> & F2 & Hst & Hum)|(-> & s3 & Hk3 & Hst & Hum)]; cbn [negb Z.eqb].
  - rewrite u64_small by (destruct UPAGES_eq as (EU & _); unfold is_u64, PGSIZE in *; lia).
    replace (n * PGSIZE + PGSIZE) with ((n + 1) * PGSIZE) by lia.
    destruct (IH s2 root T2 F2 (<[n := (b, uperm xperm)]> U) n0 (n + 1) newsz xperm fuel)
      as (r & s' & T' & F' & U' & Hl & Hst' & Hres); [apply Hst|done|lia..| | |lia|].
    { intros i Hi. rewrite lookup_insert_is_Some'. destruct (decide (n = i)); [auto|].
      right. apply Hin. lia. }
    { intros i Hi. rewrite lookup_insert_ne by lia. apply Hout. lia. }
    exists r, s', T', F', U'. split; [exact Hl|]. split; [eapply ustep_trans; eassumption|].
    replace (Z.of_nat (S k)) with (Z.of_nat k + 1) by lia.
    eapply alloc_end_cons; [exact Hnn|lia|lia|exact Hum|exact Hres].
  - rewrite (bind_ok _ _ _ _ _ Hk3).
    destruct (uvmalloc_rollback root s T F U s3 T2 {[b]} n0 n (Z.of_nat (S k)) newsz (uperm xperm))
      as (s' & F' & He & Hst' & Hres); try done; try lia. eauto 10.
Qed.
End usermem.
