(* ===== verification/UserCopy.v ===== *)
(** * kernel/vm.c: copyout, copyin, copyinstr

    The copies between the kernel and a user address space, stated on the
    bytes [umem] of the space.  A copy stops with -1 at the first page the
    user cannot access and returns 0 when all bytes are copied. *)

From stdpp Require Import base gmap list numbers strings.
From S2P Require Import Prelude Mem StringC Riscv Kalloc Vm PageTable UserMem.

Open Scope Z_scope.

(** The entry of virtual page [n] is present and has flag [b]. *)
Definition uflag (U : umap) (n b : Z) : bool :=
  match U !! n with
  | Some (_, fl) => truthy (Z.land (Z.lor fl PTE_V) b)
  | None => false
  end.

(** What [copyout] and [copyin] ask of a page. *)
Definition can_write (U : umap) (n : Z) : bool := uflag U n PTE_U && uflag U n PTE_W.
Definition can_read (U : umap) (n : Z) : bool := uflag U n PTE_U.

(** The physical address of user address [va]. *)
Definition upa (U : umap) (va : Z) : Z :=
  match U !! (va / PGSIZE) with
  | Some (pa, _) => pa + va mod PGSIZE
  | None => 0
  end.

(** The [len] bytes from [a] are in none of the user's pages. *)
Definition outside (U : umap) (a len : Z) : Prop :=
  forall n pa fl, U !! n = Some (pa, fl) -> a + len <= pa \/ pa + PGSIZE <= a.

(** How many bytes of a copy from [va] are in its first page. *)
Definition chunk (va len : Z) : Z :=
  if len <? PGSIZE - va mod PGSIZE then len else PGSIZE - va mod PGSIZE.

Lemma chunk_spec va len :
  0 < len -> 0 < chunk va len <= len /\ va mod PGSIZE + chunk va len <= PGSIZE /\
  (chunk va len = len \/ va + chunk va len = (va / PGSIZE + 1) * PGSIZE).
Proof. intros. unfold chunk. case_goal; zbool; unfold PGSIZE in *; dlia. Qed.

Section usercopy.
Context {St : Type} `{PA : PageAllocator St} `{PS : !PageAllocatorSpec St}.

#[local] Abbreviation vpage := (valid_page (S := St)).

(** The entry of a user address as the copies read it. *)
Lemma user_entry s root T F U va :
  uspace s root T F U -> 0 <= va < TRAPFRAME ->
  match U !! (va / PGSIZE) with
  | Some (pa, fl) => slot T va <> 0 /\ load64 (mem_of s) (slot T va) = perm_pte pa fl
  | None => slot T va = 0 \/ slot T va <> 0 /\ Z.land (load64 (mem_of s) (slot T va)) PTE_V = 0
  end.
Proof.
  intros Hu Hva. pose proof (us_entry _ _ _ _ _ Hu va Hva) as He.
  destruct (slot_leaf _ _ _ va (vm_pt _ _ _ _ (us_vm _ _ _ _ _ Hu))) as [[Hs Hl]|[Hs Hl]];
    destruct (U !! (va / PGSIZE)) as [[pa fl]|] eqn:E; rewrite ?Hl; auto.
  - exfalso. destruct (us_flags _ _ _ _ _ Hu _ _ _ E) as [Hf _].
    destruct (us_page _ _ _ _ _ Hu _ _ _ E) as (Hp%vpage_pte & _).
    pose proof (perm_pte_valid pa fl Hp Hf) as Hv. rewrite <- He, Hl in Hv. done.
  - right. split; [done|]. unfold truthy in He. now zbool.
Qed.

Lemma user_flag s root T F U n pa fl b :
  uspace s root T F U -> U !! n = Some (pa, fl) -> 0 <= b < 1024 ->
  Z.land (perm_pte pa fl) b = Z.land (Z.lor fl PTE_V) b.
Proof.
  intros Hu Hn Hb. apply perm_pte_flags; [|apply (us_flags _ _ _ _ _ Hu _ _ _ Hn)|done].
  now apply (us_page _ _ _ _ _ Hu) in Hn as (?%vpage_pte & _).
Qed.

Lemma user_pte s root T F U n pa fl :
  uspace s root T F U -> U !! n = Some (pa, fl) ->
  PTE2PA (perm_pte pa fl) = pa /\ (Z.land (perm_pte pa fl) PTE_V =? 0) = false.
Proof.
  intros Hu Hn. destruct (us_flags _ _ _ _ _ Hu _ _ _ Hn) as [Hf _].
  destruct (us_page _ _ _ _ _ Hu _ _ _ Hn) as (Hp%vpage_pte & _).
  split; [now apply perm_pte_pa|]. pose proof (perm_pte_valid pa fl Hp Hf) as Hv.
  unfold truthy in Hv. now zbool; apply Z.eqb_neq.
Qed.

Lemma rounddown_user va : 0 <= va < TRAPFRAME ->
  PGROUNDDOWN va = va / PGSIZE * PGSIZE /\ va - va / PGSIZE * PGSIZE = va mod PGSIZE /\
  0 <= va / PGSIZE * PGSIZE < TRAPFRAME /\ va / PGSIZE * PGSIZE / PGSIZE = va / PGSIZE.
Proof.
  intros Hv. destruct UPAGES_eq as (EU & ET & _).
  rewrite PGROUNDDOWN_eq by (unfold is_u64, PGSIZE in *; lia).
  rewrite Z.div_mul by done. unfold PGSIZE in *. dlia.
Qed.

(** One round of [copyout]. *)
Lemma copyout_step fuel s root T F U dstva src len :
  uspace s root T F U -> 0 < len -> 0 <= dstva < TRAPFRAME ->
  copyout_loop (S fuel) root dstva src len s =
  if can_write U (dstva / PGSIZE) then
    copyout_loop fuel root ((dstva / PGSIZE + 1) * PGSIZE) (src + chunk dstva len)
      (len - chunk dstva len)
      (set_mem (memmove (mem_of s) (upa U dstva) src (chunk dstva len)) s)
  else Ok (-1) s.
Proof.
  intros Hu Hl Hd. cbn [copyout_loop]. rewrite (proj2 (Z.ltb_lt 0 len)) by done.
  destruct (rounddown_user dstva Hd) as (-> & Eoff & Hr & Ediv). rewrite Eoff.
  destruct UPAGES_eq as (EU & ET & HM).
  rewrite (proj2 (Z.leb_gt MAXVA _)) by lia.
  pose proof (vm_pt _ _ _ _ (us_vm _ _ _ _ _ Hu)) as Hpt.
  rewrite (bind_ok _ _ _ _ _ (walk_slot s root T (dstva / PGSIZE * PGSIZE) Hpt ltac:(lia))).
  pose proof (user_entry s root T F U _ Hu Hr) as He. rewrite Ediv in He.
  unfold can_write, uflag, upa. destruct (U !! (dstva / PGSIZE)) as [[pa fl]|] eqn:E.
  - destruct He as [Hs He]. rewrite (proj2 (Z.eqb_neq _ 0) Hs). erewrite bind_ok by reflexivity.
    rewrite He. destruct (user_pte s root T F U _ pa fl Hu E) as [-> ->].
    rewrite !(user_flag s root T F U _ pa fl _ Hu E) by (split; [now vm_compute|done]).
    unfold truthy. cbn [orb]. rewrite <- negb_orb. case_goal; [done|]. cbn [negb].
    erewrite bind_ok by reflexivity. rewrite u64_small by (unfold is_u64, PGSIZE in *; lia).
    fold (chunk dstva len). f_equal. unfold PGSIZE. lia.
  - destruct He as [->|[Hs He]]; [done|]. rewrite (proj2 (Z.eqb_neq _ 0) Hs).
    erewrite bind_ok by reflexivity. now rewrite He.
Qed.

(** ** Writing user memory *)

Lemma page_sub_frame m m' pa off cnt q :
  vpage pa -> vpage q -> q <> pa -> 0 <= off -> off + cnt <= PGSIZE ->
  frame_bytes m m' (pa + off) cnt -> same_bytes m m' q PGSIZE.
Proof.
  intros Hp Hq Hne Ho Hc Hf. apply (page_frame m m' pa q Hp Hq Hne).
  intros x Hx. apply Hf. lia.
Qed.

(** Changing bytes inside one user page keeps the space. *)
Lemma us_write s root T F U n pa fl off cnt m' :
  uspace s root T F U -> U !! n = Some (pa, fl) -> 0 <= off -> off + cnt <= PGSIZE ->
  frame_bytes (mem_of s) m' (pa + off) cnt -> uspace (set_mem m' s) root T F U.
Proof.
  intros Hu Hn Ho Hc Hf. destruct (us_page _ _ _ _ _ Hu _ _ _ Hn) as (Hvp & HpF & HpT).
  eapply us_frame; [exact Hu| | |].
  - apply pa_set_mem; [apply Hu|]. intros q Hq.
    apply (page_sub_frame _ _ pa off cnt); try done; [|congruence].
    apply (us_valid _ _ _ _ _ q Hu). now left.
  - intros q Hq. eapply us_apart; eauto.
  - intros p a Ht. rewrite mem_set_mem. apply (page_sub_frame _ _ pa off cnt); try done.
    + apply (us_valid _ _ _ _ _ a Hu). right. left. eauto.
    + intros ->. exact (HpT p Ht).
Qed.

(** The physical addresses of distinct user addresses are distinct. *)
Lemma upa_inj s root T F U n pa fl n' pa' fl' i j :
  uspace s root T F U -> U !! n = Some (pa, fl) -> U !! n' = Some (pa', fl') ->
  0 <= i < PGSIZE -> 0 <= j < PGSIZE -> pa + i = pa' + j -> n = n' /\ i = j.
Proof.
  intros Hu Hn Hn' Hi Hj E. destruct (Z.eq_dec pa pa') as [<-|Hne].
  - split; [eapply us_inj; eauto|lia].
  - pose proof (vpage_apart pa pa' (vpage_user _ _ _ _ _ _ _ _ Hu Hn)
      (vpage_user _ _ _ _ _ _ _ _ Hu Hn') Hne). lia.
Qed.

(** Bytes stored in user memory, within a page. *)
Lemma umem_put s root T F U dstva cnt get m' va :
  uspace s root T F U -> is_Some (U !! (dstva / PGSIZE)) -> 0 <= cnt ->
  dstva mod PGSIZE + cnt <= PGSIZE ->
  (forall x, rd m' x = if (upa U dstva <=? x) && (x <? upa U dstva + cnt) then get (x - upa U dstva) else rd (mem_of s) x) ->
  umem (set_mem m' s) U va =
  if (dstva <=? va) && (va <? dstva + cnt) then get (va - dstva) else umem s U va.
Proof.
  intros Hu [[pa fl] Hn] Hc Ho. unfold umem, upa. rewrite mem_set_mem, Hn. intros Hm.
  destruct (U !! (va / PGSIZE)) as [[pa' fl']|] eqn:E.
  - rewrite Hm.
    destruct ((dstva <=? va) && (va <? dstva + cnt)) eqn:Er; zbool.
    + assert (va / PGSIZE = dstva / PGSIZE) as Eq by (unfold PGSIZE in *; dlia).
      rewrite Eq, Hn in E. injection E as <- <-.
      assert (va mod PGSIZE = dstva mod PGSIZE + (va - dstva)) as -> by (unfold PGSIZE in *; dlia).
      zdecide. cbn [andb]. f_equal. lia.
    + case_goal; zbool; [|done]. exfalso.
      destruct (upa_inj s root T F U _ _ _ _ _ _ (va mod PGSIZE)
        (pa' + va mod PGSIZE - pa) Hu E Hn) as [H1 H2]; unfold PGSIZE in *; dlia.
  - case_goal; zbool; [|done]. exfalso.
    assert (va / PGSIZE = dstva / PGSIZE) by (unfold PGSIZE in *; dlia). congruence.
Qed.

(** ** The addresses above the user's *)

(** The user has no access to the trapframe and the trampoline, nor to anything
    else from there on: [proc_pagetable] maps them without [PTE_U]. *)
Definition kernel_above (s : St) (T : ptree) : Prop :=
  forall va, TRAPFRAME <= va < MAXVA -> Z.land (leaf T (mem_of s) va) PTE_U = 0.

Lemma above_same s s' root T F U :
  uspace s root T F U -> (forall p a, T !! p = Some a -> same_bytes (mem_of s) (mem_of s') a PGSIZE) ->
  kernel_above s T -> kernel_above s' T.
Proof.
  intros Hu Hs Ha va Hva. rewrite (leaf_same T (mem_of s) (mem_of s') root); [now apply Ha|apply Hu|exact Hs].
Qed.

Lemma us_write_above s root T F U n pa fl off cnt m' :
  uspace s root T F U -> U !! n = Some (pa, fl) -> 0 <= off -> off + cnt <= PGSIZE ->
  frame_bytes (mem_of s) m' (pa + off) cnt -> kernel_above s T -> kernel_above (set_mem m' s) T.
Proof.
  intros Hu Hn Ho Hc Hf. destruct (us_page _ _ _ _ _ Hu _ _ _ Hn) as (Hvp & HpF & HpT).
  apply (above_same s _ root T F U Hu). intros p a Ht. rewrite mem_set_mem. apply (page_sub_frame _ _ pa off cnt); try done.
  - apply (us_valid _ _ _ _ _ a Hu). right. left. eauto.
  - intros ->. exact (HpT p Ht).
Qed.

Lemma can_write_above s root T F U va : uspace s root T F U -> TRAPFRAME <= va -> can_write U (va / PGSIZE) = false.
Proof.
  intros Hu Hva. unfold can_write, uflag. destruct (U !! (va / PGSIZE)) as [x|] eqn:E; [|done]. exfalso.
  pose proof (us_key _ _ _ _ _ Hu _ _ E). destruct UPAGES_eq as (EU & ET & _). unfold PGSIZE in *. dlia.
Qed.

(** What [walk] finds there. *)
Lemma entry_above s root T F U va :
  uspace s root T F U -> kernel_above s T -> TRAPFRAME <= va < MAXVA ->
  walk root va false s = Ok (slot T va) s /\ (slot T va <> 0 -> Z.land (load64 (mem_of s) (slot T va)) PTE_U = 0).
Proof.
  intros Hu Ha Hva. pose proof (vm_pt _ _ _ _ (us_vm _ _ _ _ _ Hu)) as Hpt. destruct UPAGES_eq as (EU & ET & HM).
  split; [apply walk_slot; [done|unfold PGSIZE in *; lia]|]. intros Hs. pose proof (Ha va Hva) as Hl.
  destruct (slot_leaf _ _ _ va Hpt) as [[E _]|[_ E]]; [done|]. congruence.
Qed.

Lemma rounddown_above va : is_u64 va -> TRAPFRAME <= va -> TRAPFRAME <= PGROUNDDOWN va.
Proof.
  intros Hv Hva. destruct UPAGES_eq as (EU & ET & _). rewrite PGROUNDDOWN_eq by done. unfold PGSIZE in *. dlia.
Qed.

Lemma copyout_step_above fuel s root T F U dstva src len :
  uspace s root T F U -> kernel_above s T -> 0 < len -> is_u64 dstva -> TRAPFRAME <= dstva ->
  copyout_loop (S fuel) root dstva src len s = Ok (-1) s.
Proof.
  intros Hu Ha Hl Hd Hr. cbn [copyout_loop]. rewrite (proj2 (Z.ltb_lt 0 len)) by done.
  pose proof (rounddown_above dstva Hd Hr) as Hr0. destruct (Z.leb_spec MAXVA (PGROUNDDOWN dstva)) as [|HM]; [done|].
  destruct (entry_above s root T F U _ Hu Ha (conj Hr0 HM)) as [Ew Hp]. rewrite (bind_ok _ _ _ _ _ Ew).
  destruct (Z.eqb_spec (slot T (PGROUNDDOWN dstva)) 0) as [|Hs]; [done|]. erewrite bind_ok by reflexivity.
  now rewrite (Hp Hs), orb_true_r.
Qed.

(** ** copyout *)

(** A copy of [len] bytes to user address [va] that has written the first
    [k] bytes [get 0, get 1, ...]: all of them with result 0, or up to a page the
    user cannot write with result -1. *)
Record copied_out (s : St) (U : umap) (va len : Z) (get : Z -> Z) (s' : St) (k r : Z) : Prop := CopiedOut {
  co_bytes x : umem s' U x = if (va <=? x) && (x <? va + k) then get (x - va) else umem s U x;
  co_pages x : va <= x < va + k -> can_write U (x / PGSIZE) = true;
  co_result : r = 0 /\ k = len \/
    r = -1 /\ 0 <= k < len /\ can_write U ((va + k) / PGSIZE) = false;
  co_frame a n : outside U a n -> same_bytes (mem_of s) (mem_of s') a n;
}.

Lemma upa_in U va cnt x :
  is_Some (U !! (va / PGSIZE)) -> 0 <= cnt -> va mod PGSIZE + cnt <= PGSIZE ->
  upa U va <= x < upa U va + cnt ->
  exists pa fl, U !! (va / PGSIZE) = Some (pa, fl) /\ pa <= x < pa + PGSIZE.
Proof.
  intros [[pa fl] Hn] Hc Ho Hx. unfold upa in Hx. rewrite Hn in *. exists pa, fl.
  split; [done|]. unfold PGSIZE in *. dlia.
Qed.

Lemma write_outside m U va src cnt a n :
  is_Some (U !! (va / PGSIZE)) -> 0 <= cnt -> va mod PGSIZE + cnt <= PGSIZE ->
  outside U a n -> same_bytes m (memmove m (upa U va) src cnt) a n.
Proof.
  intros Hin Hc Ho Hout x Hx. rewrite rd_memmove by done. case_goal; zbool; [|done]. exfalso.
  destruct (upa_in U va cnt x Hin Hc Ho ltac:(lia)) as (pa & fl & Hn & Hr).
  destruct (Hout _ _ _ Hn); lia.
Qed.

(** The first page of a copy and the rest of it. *)
Lemma copied_out_cons s s1 s' U va va' len n get get' k r :
  0 < n <= len -> (n = len \/ va' = va + n) ->
  (forall x, umem s1 U x = if (va <=? x) && (x <? va + n) then get (x - va) else umem s U x) ->
  (forall x, va <= x < va + n -> can_write U (x / PGSIZE) = true) ->
  (forall a m, outside U a m -> same_bytes (mem_of s) (mem_of s1) a m) ->
  (forall i, 0 <= i < len - n -> get' i = get (n + i)) ->
  copied_out s1 U va' (len - n) get' s' k r -> copied_out s U va len get s' (n + k) r.
Proof.
  intros Hn Hva Hum Hw Hfr Hget [Hb Hp Hr Hf].
  assert (0 <= k <= len - n) as Hk by lia. split.
  - intros x. rewrite Hb, Hum. destruct Hva as [->| ->].
    + assert (k = 0) as -> by lia. repeat case_goal; zbool; lia || done.
    + repeat case_goal; zbool; try lia; try done. rewrite Hget by lia. f_equal. lia.
  - intros x Hx. destruct (Z.lt_ge_cases x (va + n)); [apply Hw; lia|]. apply Hp. lia.
  - destruct Hr as [[-> ->]|(-> & Hlt & Hbad)]; [left; lia|right].
    split; [done|]. split; [lia|]. rewrite Z.add_assoc. destruct Hva as [->| <-]; [lia|done].
  - intros a m Ha. eapply same_bytes_trans; [now apply Hfr|now apply Hf].
Qed.

Lemma can_write_page U va n x :
  can_write U (va / PGSIZE) = true -> va mod PGSIZE + n <= PGSIZE -> va <= x < va + n ->
  can_write U (x / PGSIZE) = true.
Proof.
  intros Hw Hn Hx. replace (x / PGSIZE) with (va / PGSIZE); [done|]. unfold PGSIZE in *. dlia.
Qed.

Lemma copied_out_0 s U va len get r :
  0 <= len -> r = 0 /\ len = 0 \/ r = -1 /\ 0 < len /\ can_write U (va / PGSIZE) = false ->
  copied_out s U va len get s 0 r.
Proof.
  intros Hl Hr. split; [|lia| |intros; apply same_bytes_refl].
  - intros x. case_goal; zbool; [lia|done].
  - rewrite Z.add_0_r. intuition lia.
Qed.

(** The space after one page of a copy. *)
Lemma copied_page s root T F U va n get m' :
  uspace s root T F U -> kernel_above s T -> can_write U (va / PGSIZE) = true -> 0 <= n -> va mod PGSIZE + n <= PGSIZE ->
  (forall x, rd m' x = if (upa U va <=? x) && (x <? upa U va + n) then get (x - upa U va) else rd (mem_of s) x) ->
  let s1 := set_mem m' s in
  uspace s1 root T F U /\ kernel_above s1 T /\
  (forall x, umem s1 U x = if (va <=? x) && (x <? va + n) then get (x - va) else umem s U x) /\
  (forall a k, outside U a k -> same_bytes (mem_of s) (mem_of s1) a k).
Proof.
  intros Hu Ha Ew Hn Ho Hm s1.
  assert (is_Some (U !! (va / PGSIZE))) as Hin.
  { unfold can_write, uflag in Ew. now destruct (U !! (va / PGSIZE)). }
  pose proof Hin as [[pa fl] HU].
  assert (frame_bytes (mem_of s) m' (pa + va mod PGSIZE) n) as Hfr.
  { intros x Hx. rewrite Hm. unfold upa. rewrite HU. case_goal; zbool; [lia|done]. }
  assert (0 <= va mod PGSIZE) by (unfold PGSIZE; dlia).
  split; [now apply (us_write s root T F U (va / PGSIZE) pa fl (va mod PGSIZE) n)|].
  split; [now apply (us_write_above s root T F U (va / PGSIZE) pa fl (va mod PGSIZE) n)|].
  split; [intros x; now apply (umem_put s root T F U va n get m')|].
  intros a k Hout x Hx. unfold s1. rewrite mem_set_mem, Hm. case_goal; zbool; [|done]. exfalso.
  destruct (upa_in U va n x Hin Hn Ho ltac:(lia)) as (pa' & fl' & HU' & Hr). destruct (Hout _ _ _ HU'); lia.
Qed.

Lemma copyout_loop_ok fuel : forall s root T F U dstva src len,
  uspace s root T F U -> kernel_above s T -> 0 <= len -> is_u64 dstva ->
  outside U src len -> (dstva + len + PGSIZE - 1) / PGSIZE - dstva / PGSIZE < Z.of_nat fuel ->
  exists r s' k, copyout_loop fuel root dstva src len s = Ok r s' /\ uspace s' root T F U /\ kernel_above s' T /\
    copied_out s U dstva len (fun i => rd (mem_of s) (src + i)) s' k r.
Proof.
  induction fuel as [|fuel IH]; intros s root T F U dstva src len Hu Ha Hl Hd Hout Hf;
    [unfold PGSIZE in *; dlia|].
  destruct (Z.eq_dec len 0) as [->|Hl0].
  { exists 0, s, 0. split; [done|]. split; [done|]. split; [done|]. apply copied_out_0; auto. }
  assert (can_write U (dstva / PGSIZE) = false -> copied_out s U dstva len (fun i => rd (mem_of s) (src + i)) s 0 (-1)) as Hstop.
  { intros Ew. apply copied_out_0; [done|right]. split; [done|]. split; [lia|done]. }
  destruct (Z.le_gt_cases TRAPFRAME dstva) as [HT|HT].
  { exists (-1), s, 0. split; [apply (copyout_step_above fuel s root T F U); (done || lia)|]. split; [done|]. split; [done|].
    apply Hstop. exact (can_write_above _ _ _ _ _ _ Hu HT). }
  pose proof Hd as [Hd0 _]. rewrite (copyout_step fuel s root T F U) by (done || lia).
  destruct (chunk_spec dstva len ltac:(lia)) as (Hc1 & Hc2 & Hc3). set (n := chunk dstva len) in *.
  destruct (can_write U (dstva / PGSIZE)) eqn:Ew; [|exists (-1), s, 0; auto].
  destruct (copied_page s root T F U dstva n (fun i => rd (mem_of s) (src + i)) (memmove (mem_of s) (upa U dstva) src n))
    as (Hu1 & Ha1 & Hum & Hfr); [done|done|done|lia|done| |].
  { intros x. rewrite rd_memmove by lia. done. }
  set (s1 := set_mem _ s) in *. destruct UPAGES_eq as (EU & ET & _).
  destruct (IH s1 root T F U ((dstva / PGSIZE + 1) * PGSIZE) (src + n) (len - n)) as
    (r & s' & k & Hl' & Hu' & Ha' & Hco);
    [done|done|lia|unfold is_u64, PGSIZE in *; dlia| |unfold PGSIZE in *; dlia|].
  { intros m pa fl Hm. destruct (Hout m pa fl Hm); lia. }
  exists r, s', (n + k). split; [exact Hl'|]. split; [exact Hu'|]. split; [exact Ha'|].
  eapply copied_out_cons; [exact Hc1| |exact Hum| |exact Hfr| |exact Hco].
  - destruct Hc3; [auto|right; lia].
  - intros x. apply can_write_page; done.
  - intros i Hi. cbn beta. rewrite (Hfr src len Hout) by lia. f_equal. lia.
Qed.

Lemma copyout_ok s root T F U dstva src len :
  uspace s root T F U -> kernel_above s T -> 0 <= len -> is_u64 dstva -> outside U src len ->
  exists r s' k, copyout root dstva src len s = Ok r s' /\ uspace s' root T F U /\ kernel_above s' T /\
    copied_out s U dstva len (fun i => rd (mem_of s) (src + i)) s' k r.
Proof.
  intros. apply copyout_loop_ok; try done. unfold copy_fuel, PGSIZE in *. dlia.
Qed.

(** ** copyin *)

(** [walkaddr] on a user address. *)
Lemma walkaddr_user s root T F U va :
  uspace s root T F U -> 0 <= va < TRAPFRAME ->
  walkaddr root (va / PGSIZE * PGSIZE) s =
    Ok (if can_read U (va / PGSIZE) then upa U va - va mod PGSIZE else 0) s /\
  (can_read U (va / PGSIZE) = true -> upa U va - va mod PGSIZE <> 0).
Proof.
  intros Hu Hva. destruct (rounddown_user va Hva) as (_ & Eoff & Hr & Ediv).
  destruct UPAGES_eq as (EU & ET & HM).
  rewrite (walkaddr_leaf s root T) by (apply Hu || lia).
  rewrite (proj2 (Z.leb_gt MAXVA _)) by lia.
  pose proof (us_entry _ _ _ _ _ Hu _ Hr) as He. rewrite Ediv in He.
  unfold can_read, uflag, upa, uaddr. destruct (U !! (va / PGSIZE)) as [[pa fl]|] eqn:E.
  - rewrite He. destruct (user_pte s root T F U _ pa fl Hu E) as [-> ->].
    rewrite (user_flag s root T F U _ pa fl _ Hu E) by (split; [now vm_compute|done]).
    pose proof (vpage_pos pa (vpage_user _ _ _ _ _ _ _ _ Hu E)).
    unfold truthy. cbn [orb]. replace (pa + va mod PGSIZE - va mod PGSIZE) with pa by lia.
    split; [|lia]. now destruct (_ =? 0).
  - unfold truthy in He. zbool. rewrite He. done.
Qed.

Lemma copyin_step fuel s root T F U dst srcva len :
  uspace s root T F U -> 0 < len -> 0 <= srcva < TRAPFRAME ->
  copyin_loop (S fuel) root dst srcva len s =
  if can_read U (srcva / PGSIZE) then
    copyin_loop fuel root (dst + chunk srcva len) ((srcva / PGSIZE + 1) * PGSIZE)
      (len - chunk srcva len)
      (set_mem (memmove (mem_of s) dst (upa U srcva) (chunk srcva len)) s)
  else Ok (-1) s.
Proof.
  intros Hu Hl Hd. cbn [copyin_loop]. rewrite (proj2 (Z.ltb_lt 0 len)) by done.
  destruct (rounddown_user srcva Hd) as (-> & Eoff & Hr & Ediv). rewrite Eoff.
  destruct (walkaddr_user s root T F U srcva Hu Hd) as [Hw Hnz]. rewrite (bind_ok _ _ _ _ _ Hw).
  destruct (can_read U (srcva / PGSIZE)); [|done].
  rewrite (proj2 (Z.eqb_neq _ 0)) by now apply Hnz.
  erewrite bind_ok by reflexivity. destruct UPAGES_eq as (EU & ET & HM).
  rewrite u64_small by (unfold is_u64, PGSIZE in *; lia).
  fold (chunk srcva len). rewrite Z.sub_add. f_equal. unfold PGSIZE. lia.
Qed.

(** The [n] bytes at [a] are the kernel's: outside the free pages, the tables
    and the user's pages. *)
Definition kernel_buf (T : ptree) (F : gset Z) (U : umap) (a n : Z) : Prop :=
  forall q, q ∈ F \/ holds T U q -> a + n <= q \/ q + PGSIZE <= a.

Lemma kernel_buf_sub T F U a n b k :
  kernel_buf T F U a n -> a <= b -> b + k <= a + n -> kernel_buf T F U b k.
Proof. intros H ? ? q Hq. destruct (H q Hq); lia. Qed.

(** A write to a kernel buffer keeps the space and its bytes. *)
Lemma us_kwrite s root T F U a n m' :
  uspace s root T F U -> kernel_buf T F U a n -> frame_bytes (mem_of s) m' a n ->
  uspace (set_mem m' s) root T F U /\ forall va, umem (set_mem m' s) U va = umem s U va.
Proof.
  intros Hu Hb Hf.
  assert (forall q, q ∈ F \/ holds T U q -> same_bytes (mem_of s) m' q PGSIZE) as Hs.
  { intros q Hq x Hx. apply Hf. destruct (Hb q Hq); lia. }
  split.
  - eapply us_frame; [exact Hu| | |].
    + apply pa_set_mem; [apply Hu|]. auto.
    + intros q. apply (us_apart _ _ _ _ _ q Hu).
    + intros p q Hp. rewrite mem_set_mem. apply Hs. right. left. eauto.
  - intros va. apply umem_same. intros k pa fl Hk. rewrite mem_set_mem. apply Hs.
    right. right. eauto.
Qed.

(** A copy of [len] bytes from user address [va] to [dst] that has copied the
    first [k] bytes. *)
Record copied_in (s : St) (U : umap) (va len dst : Z) (s' : St) (k r : Z) : Prop := CopiedIn {
  ci_bytes x : rd (mem_of s') x =
    if (dst <=? x) && (x <? dst + k) then umem s U (va + (x - dst)) else rd (mem_of s) x;
  ci_pages x : va <= x < va + k -> can_read U (x / PGSIZE) = true;
  ci_result : r = 0 /\ k = len \/
    r = -1 /\ 0 <= k < len /\ can_read U ((va + k) / PGSIZE) = false;
}.

Lemma copied_in_0 s U va len dst r :
  0 <= len -> r = 0 /\ len = 0 \/ r = -1 /\ 0 < len /\ can_read U (va / PGSIZE) = false ->
  copied_in s U va len dst s 0 r.
Proof.
  intros Hl Hr. split; [|lia|].
  - intros x. case_goal; zbool; [lia|done].
  - rewrite Z.add_0_r. intuition lia.
Qed.

Lemma copied_in_cons s s1 s' U va va' len dst n k r :
  0 < n <= len -> (n = len \/ va' = va + n) ->
  (forall x, rd (mem_of s1) x =
     if (dst <=? x) && (x <? dst + n) then umem s U (va + (x - dst)) else rd (mem_of s) x) ->
  (forall x, va <= x < va + n -> can_read U (x / PGSIZE) = true) ->
  (forall x, umem s1 U x = umem s U x) ->
  copied_in s1 U va' (len - n) (dst + n) s' k r -> copied_in s U va len dst s' (n + k) r.
Proof.
  intros Hn Hva Hrd Hw Hum [Hb Hp Hr].
  assert (0 <= k <= len - n) as Hk by lia. split.
  - intros x. rewrite Hb, Hrd. destruct Hva as [->| ->].
    + assert (k = 0) as -> by lia. repeat case_goal; zbool; lia || done.
    + repeat case_goal; zbool; try lia; try done. rewrite Hum. f_equal. lia.
  - intros x Hx. destruct (Z.lt_ge_cases x (va + n)); [apply Hw; lia|]. apply Hp. lia.
  - destruct Hr as [[-> ->]|(-> & Hlt & Hbad)]; [left; lia|right].
    split; [done|]. split; [lia|]. rewrite Z.add_assoc. destruct Hva as [?|Hva]; [lia|]. now rewrite <- Hva.
Qed.

Lemma rd_upa s U va n i :
  is_Some (U !! (va / PGSIZE)) -> va mod PGSIZE + n <= PGSIZE -> 0 <= i < n ->
  rd (mem_of s) (upa U va + i) = umem s U (va + i).
Proof.
  intros [[pa fl] Hn] Ho Hi. unfold upa, umem. rewrite Hn.
  replace ((va + i) / PGSIZE) with (va / PGSIZE) by (unfold PGSIZE in *; dlia). rewrite Hn.
  f_equal. unfold PGSIZE in *. dlia.
Qed.

Lemma copyin_loop_ok fuel : forall s root T F U dst srcva len,
  uspace s root T F U -> 0 <= len -> 0 <= srcva -> srcva + len <= TRAPFRAME ->
  kernel_buf T F U dst len -> (srcva + len + PGSIZE - 1) / PGSIZE - srcva / PGSIZE < Z.of_nat fuel ->
  exists r s' k, copyin_loop fuel root dst srcva len s = Ok r s' /\ uspace s' root T F U /\
    (forall va, umem s' U va = umem s U va) /\ copied_in s U srcva len dst s' k r.
Proof.
  induction fuel as [|fuel IH]; intros s root T F U dst srcva len Hu Hl Hd Hr Hbuf Hf;
    [unfold PGSIZE in *; dlia|].
  destruct (Z.eq_dec len 0) as [->|Hl0].
  { exists 0, s, 0. split; [done|]. split; [done|]. split; [done|]. apply copied_in_0; auto. }
  rewrite (copyin_step fuel s root T F U) by (done || lia).
  destruct (chunk_spec srcva len ltac:(lia)) as (Hc1 & Hc2 & Hc3). set (n := chunk srcva len) in *.
  destruct (can_read U (srcva / PGSIZE)) eqn:Ew.
  2: { exists (-1), s, 0. split; [done|]. split; [done|]. split; [done|]. apply copied_in_0; [done|right].
       split; [done|]. split; [lia|done]. }
  assert (is_Some (U !! (srcva / PGSIZE))) as Hin.
  { unfold can_read, uflag in Ew. now destruct (U !! (srcva / PGSIZE)). }
  destruct (us_kwrite s root T F U dst n (memmove (mem_of s) dst (upa U srcva) n)) as [Hu1 Hum];
    [done|eapply kernel_buf_sub; [exact Hbuf|lia..]|apply memmove_frame; lia|].
  set (s1 := set_mem _ s) in *. destruct UPAGES_eq as (EU & ET & _).
  destruct (IH s1 root T F U (dst + n) ((srcva / PGSIZE + 1) * PGSIZE) (len - n)) as
    (r & s' & k & Hl' & Hu' & Hum' & Hco);
    [done|lia|unfold PGSIZE in *; dlia|unfold PGSIZE in *; dlia|
     eapply kernel_buf_sub; [exact Hbuf|lia..]|unfold PGSIZE in *; dlia|].
  exists r, s', (n + k). split; [exact Hl'|]. split; [exact Hu'|].
  split; [intros va; now rewrite Hum'|].
  eapply copied_in_cons; [exact Hc1| | | |exact Hum|exact Hco].
  - destruct Hc3; [auto|right; lia].
  - intros x. unfold s1. rewrite mem_set_mem, rd_memmove by lia. case_goal; zbool; [|done].
    apply (rd_upa s U srcva n); (done || lia).
  - intros x Hx. replace (x / PGSIZE) with (srcva / PGSIZE); [done|]. unfold PGSIZE in *. dlia.
Qed.

Lemma copyin_ok s root T F U dst srcva len :
  uspace s root T F U -> 0 <= len -> 0 <= srcva -> srcva + len <= TRAPFRAME ->
  kernel_buf T F U dst len ->
  exists r s' k, copyin root dst srcva len s = Ok r s' /\ uspace s' root T F U /\
    (forall va, umem s' U va = umem s U va) /\ copied_in s U srcva len dst s' k r.
Proof. intros. apply copyin_loop_ok; try done. unfold copy_fuel, PGSIZE in *. dlia. Qed.

(** ** copyinstr *)

(** [m'] is [m] after a copy of [k] bytes [get 0, get 1, ...] to [dst]. *)
Definition bytes_copied (m m' : memory) (dst k : Z) (get : Z -> Z) : Prop :=
  forall x, rd m' x = if (dst <=? x) && (x <? dst + k) then get (x - dst) else rd m x.

(** The first [k] bytes are a string with its NUL. *)
Definition is_str (get : Z -> Z) (k : Z) : Prop :=
  0 < k /\ get (k - 1) = 0 /\ forall i, 0 <= i < k - 1 -> get i <> 0.

Definition no_nul (get : Z -> Z) (k : Z) : Prop := forall i, 0 <= i < k -> get i <> 0.

Lemma no_nul_app get get' n k :
  no_nul get n -> 0 <= n -> (forall i, 0 <= i < k -> get' i = get (n + i)) -> no_nul get' k ->
  no_nul get (n + k).
Proof.
  intros Hn H0 He Hk i Hi. destruct (Z.lt_ge_cases i n); [apply Hn; lia|].
  specialize (Hk (i - n) ltac:(lia)). rewrite He in Hk by lia.
  now replace (n + (i - n)) with i in Hk by lia.
Qed.

Lemma is_str_app get get' n k :
  no_nul get n -> 0 <= n -> (forall i, 0 <= i < k -> get' i = get (n + i)) -> is_str get' k ->
  is_str get (n + k).
Proof.
  intros Hn H0 He (H1 & H2 & H3). split; [lia|]. split.
  - rewrite He in H2 by lia. rewrite <- H2. f_equal. lia.
  - replace (n + k - 1) with (n + (k - 1)) by lia.
    apply (no_nul_app get get'); [done|done| |done]. intros i Hi. apply He. lia.
Qed.

(** The inner loop: it copies [k] bytes from [p] to [dst] and stops after the
    first NUL, or finds none in [n]. *)
Lemma copyinstr_page_ok n : forall s p dst,
  dst + Z.of_nat n <= p \/ p + Z.of_nat n <= dst ->
  exists got k m', copyinstr_page n p dst s = Ok got (set_mem m' s) /\
    let get i := rd (mem_of s) (p + i) in
    bytes_copied (mem_of s) m' dst k get /\ k <= Z.of_nat n /\
    (if got : bool then is_str get k else k = Z.of_nat n /\ no_nul get k).
Proof.
  induction n as [|n IH]; intros s p dst Hd; cbn [copyinstr_page].
  { exists false, 0, (mem_of s). rewrite set_mem_mem. split; [done|]. split; [|split; [lia|split; [done|intros i; lia]]].
    intros x. case_goal; zbool; [lia|done]. }
  erewrite bind_ok by reflexivity. destruct (Z.eqb_spec (rd (mem_of s) p) 0) as [E0|E0].
  - exists true, 1, (wr (mem_of s) dst 0). split; [done|]. split; [|split; [lia|]].
    + intros x. rewrite rd_wr. destruct (Z.eqb_spec x dst) as [->|].
      * zdecide. cbn [andb]. now rewrite Z.sub_diag, Z.add_0_r, E0.
      * case_goal; zbool; [lia|done].
    + split; [lia|]. split; [now rewrite Z.add_0_r|]. intros i. lia.
  - erewrite bind_ok by reflexivity. set (s1 := set_mem _ s).
    assert (forall x, rd (mem_of s1) x = if x =? dst then rd (mem_of s) p else rd (mem_of s) x) as Hs1.
    { intros x. unfold s1. rewrite mem_set_mem, rd_wr. now rewrite u8_small by apply rd_range. }
    destruct (IH s1 (p + 1) (dst + 1)) as (got & k & m' & Hp & Hb & Hk & Hg); [lia|].
    exists got, (k + 1), m'. rewrite Hp. unfold s1. rewrite set_set_mem. split; [done|].
    assert (0 <= k) as Hk0 by (destruct got; [destruct Hg; lia|lia]).
    assert (forall i, 0 <= i < Z.of_nat n -> rd (mem_of s1) (p + 1 + i) = rd (mem_of s) (p + (1 + i))) as Hr.
    { intros i Hi. rewrite Hs1. rewrite (proj2 (Z.eqb_neq _ _)) by lia. f_equal. lia. }
    split; [|split; [lia|]].
    + intros x. rewrite Hb, Hs1. repeat case_goal; zbool; try lia; try done.
      * f_equal. lia.
      * assert (x = dst) as -> by lia. rewrite Hs1, Z.eqb_refl. f_equal. lia.
      * rewrite Hs1. now rewrite (proj2 (Z.eqb_neq x dst)) by lia.
    + assert (no_nul (fun i => rd (mem_of s) (p + i)) 1) as H1.
      { intros i Hi. replace i with 0 by lia. now rewrite Z.add_0_r. }
      rewrite (Z.add_comm k). destruct got.
      * eapply is_str_app; [exact H1|done| |exact Hg]. intros i Hi. apply Hr. lia.
      * destruct Hg as [-> Hg]. split; [lia|]. eapply no_nul_app; [exact H1|done| |exact Hg]. exact Hr.
Qed.

Lemma copyinstr_step fuel s root T F U dst srcva max :
  uspace s root T F U -> 0 < max -> 0 <= srcva < TRAPFRAME ->
  copyinstr_loop (S fuel) root dst srcva max s =
  if can_read U (srcva / PGSIZE) then
    (got ← copyinstr_page (Z.to_nat (chunk srcva max)) (upa U srcva) dst;
     if (got : bool) then mret 0
     else copyinstr_loop fuel root (dst + chunk srcva max) ((srcva / PGSIZE + 1) * PGSIZE)
            (max - chunk srcva max)) s
  else Ok (-1) s.
Proof.
  intros Hu Hl Hd. cbn [copyinstr_loop]. rewrite (proj2 (Z.ltb_lt 0 max)) by done.
  destruct (rounddown_user srcva Hd) as (-> & Eoff & Hr & Ediv). rewrite Eoff.
  destruct (walkaddr_user s root T F U srcva Hu Hd) as [Hw Hnz]. rewrite (bind_ok _ _ _ _ _ Hw).
  destruct (can_read U (srcva / PGSIZE)); [|done].
  rewrite (proj2 (Z.eqb_neq _ 0)) by now apply Hnz.
  destruct UPAGES_eq as (EU & ET & HM). rewrite u64_small by (unfold is_u64, PGSIZE in *; lia).
  fold (chunk srcva max). rewrite Z.sub_add.
  now replace (srcva / PGSIZE * PGSIZE + PGSIZE) with ((srcva / PGSIZE + 1) * PGSIZE) by lia.
Qed.

(** A string copy from user address [va] that has copied [k] bytes: the
    string with its NUL and result 0, or, with -1, no NUL in [max] bytes or
    before a page the user cannot read. *)
Record copied_str (s : St) (U : umap) (va max dst : Z) (s' : St) (k r : Z) : Prop := CopiedStr {
  cs_bytes : bytes_copied (mem_of s) (mem_of s') dst k (fun i => umem s U (va + i));
  cs_pages x : va <= x < va + k -> can_read U (x / PGSIZE) = true;
  cs_len : 0 <= k <= max;
  cs_result :
    r = 0 /\ is_str (fun i => umem s U (va + i)) k \/
    r = -1 /\ no_nul (fun i => umem s U (va + i)) k /\
      (k = max \/ can_read U ((va + k) / PGSIZE) = false);
}.

Lemma copied_str_0 s U va max dst :
  0 <= max -> max = 0 \/ can_read U (va / PGSIZE) = false -> copied_str s U va max dst s 0 (-1).
Proof.
  intros Hm Hr. split; [|lia|lia|right].
  - intros x. case_goal; zbool; [lia|done].
  - rewrite Z.add_0_r. split; [done|]. split; [intros i; lia|]. destruct Hr; auto.
Qed.

Lemma bytes_copied_frame m m' dst k get n :
  bytes_copied m m' dst k get -> k <= n -> frame_bytes m m' dst n.
Proof. intros Hb Hk x Hx. rewrite Hb. case_goal; zbool; [lia|done]. Qed.

Lemma bytes_copied_app m m1 m' dst n k get get' :
  0 <= n -> 0 <= k -> bytes_copied m m1 dst n get -> bytes_copied m1 m' (dst + n) k get' ->
  (forall i, 0 <= i < k -> get' i = get (n + i)) -> bytes_copied m m' dst (n + k) get.
Proof.
  intros Hn Hk H1 H2 He x. rewrite H2, H1. repeat case_goal; zbool; try lia; try done.
  rewrite He by lia. f_equal. lia.
Qed.

Lemma copied_str_cons s s1 s' U va va' max dst n k r :
  0 < n <= max -> (n = max \/ va' = va + n) ->
  bytes_copied (mem_of s) (mem_of s1) dst n (fun i => umem s U (va + i)) ->
  no_nul (fun i => umem s U (va + i)) n ->
  (forall x, va <= x < va + n -> can_read U (x / PGSIZE) = true) ->
  (forall x, umem s1 U x = umem s U x) ->
  copied_str s1 U va' (max - n) (dst + n) s' k r -> copied_str s U va max dst s' (n + k) r.
Proof.
  intros Hn Hva Hb1 Hnn Hp1 Hum [Hb Hp Hl Hr].
  assert (forall i, 0 <= i < k -> umem s1 U (va' + i) = umem s U (va + (n + i))) as He.
  { intros i Hi. rewrite Hum. f_equal. lia. }
  split.
  - eapply bytes_copied_app; [lia|lia|exact Hb1|exact Hb|exact He].
  - intros x Hx. destruct (Z.lt_ge_cases x (va + n)); [apply Hp1; lia|]. apply Hp. lia.
  - lia.
  - destruct Hr as [[-> Hs]|(-> & Hs & Hend)]; [left|right]; (split; [done|]).
    + eapply is_str_app; [exact Hnn|lia|exact He|exact Hs].
    + split; [eapply no_nul_app; [exact Hnn|lia|exact He|exact Hs]|].
      destruct Hend as [->|Hend]; [left; lia|]. destruct (Z.eq_dec k (max - n)); [left; lia|right].
      rewrite Z.add_assoc. destruct Hva as [?|Hva]; [lia|]. now rewrite <- Hva.
Qed.

(** The page loop within a user page. *)
Lemma copyinstr_chunk s root T F U dst srcva n :
  uspace s root T F U -> is_Some (U !! (srcva / PGSIZE)) -> 0 <= n ->
  srcva mod PGSIZE + n <= PGSIZE -> kernel_buf T F U dst n ->
  exists got k s1, copyinstr_page (Z.to_nat n) (upa U srcva) dst s = Ok got s1 /\
    uspace s1 root T F U /\ (forall va, umem s1 U va = umem s U va) /\ k <= n /\
    bytes_copied (mem_of s) (mem_of s1) dst k (fun i => umem s U (srcva + i)) /\
    (if got : bool then is_str (fun i => umem s U (srcva + i)) k
     else k = n /\ no_nul (fun i => umem s U (srcva + i)) k).
Proof.
  intros Hu Hin Hn Ho Hbuf. pose proof Hin as [[pa fl] HU].
  destruct (copyinstr_page_ok (Z.to_nat n) s (upa U srcva) dst) as (got & k & m' & Hp & Hb & Hk & Hg).
  { rewrite Z2Nat.id by done. unfold upa. rewrite HU.
    destruct (Hbuf pa); [right; right; eauto|..]; unfold PGSIZE in *; dlia. }
  rewrite Z2Nat.id in * by done.
  assert (forall i, 0 <= i < n -> rd (mem_of s) (upa U srcva + i) = umem s U (srcva + i)) as He.
  { intros i Hi. now apply (rd_upa s U srcva n). }
  assert (0 <= k) as Hk0 by (destruct got; [destruct Hg; lia|lia]).
  destruct (us_kwrite s root T F U dst n m' Hu Hbuf) as [Hu1 Hum].
  { eapply bytes_copied_frame; eauto. }
  exists got, k, (set_mem m' s). rewrite mem_set_mem. split; [exact Hp|]. split; [exact Hu1|].
  split; [exact Hum|]. split; [done|]. split.
  - intros x. rewrite Hb. case_goal; zbool; [|done]. apply He. lia.
  - assert (no_nul (fun i => umem s U (srcva + i)) 0) as H0 by (intros i; lia).
    destruct got.
    + apply (is_str_app _ (fun i => rd (mem_of s) (upa U srcva + i)) 0 k); try done.
      intros i Hi. rewrite Z.add_0_l. apply He. lia.
    + destruct Hg as [-> Hg]. split; [done|].
      apply (no_nul_app _ (fun i => rd (mem_of s) (upa U srcva + i)) 0 n); try done.
Qed.

Lemma copyinstr_loop_ok fuel : forall s root T F U dst srcva max,
  uspace s root T F U -> 0 <= max -> 0 <= srcva -> srcva + max <= TRAPFRAME ->
  kernel_buf T F U dst max -> (srcva + max + PGSIZE - 1) / PGSIZE - srcva / PGSIZE < Z.of_nat fuel ->
  exists r s' k, copyinstr_loop fuel root dst srcva max s = Ok r s' /\ uspace s' root T F U /\
    (forall va, umem s' U va = umem s U va) /\ copied_str s U srcva max dst s' k r.
Proof.
  induction fuel as [|fuel IH]; intros s root T F U dst srcva max Hu Hl Hd Hr Hbuf Hf;
    [unfold PGSIZE in *; dlia|].
  destruct (Z.eq_dec max 0) as [->|Hl0].
  { exists (-1), s, 0. split; [done|]. split; [done|]. split; [done|]. apply copied_str_0; auto. }
  rewrite (copyinstr_step fuel s root T F U) by (done || lia).
  destruct (chunk_spec srcva max ltac:(lia)) as (Hc1 & Hc2 & Hc3). set (n := chunk srcva max) in *.
  destruct (can_read U (srcva / PGSIZE)) eqn:Ew.
  2: { exists (-1), s, 0. split; [done|]. split; [done|]. split; [done|]. apply copied_str_0; auto. }
  assert (is_Some (U !! (srcva / PGSIZE))) as Hin.
  { unfold can_read, uflag in Ew. now destruct (U !! (srcva / PGSIZE)). }
  assert (forall x, srcva <= x < srcva + n -> can_read U (x / PGSIZE) = true) as Hpg.
  { intros x Hx. replace (x / PGSIZE) with (srcva / PGSIZE); [done|]. unfold PGSIZE in *. dlia. }
  destruct (copyinstr_chunk s root T F U dst srcva n) as (got & k & s1 & Hp & Hu1 & Hum & Hk & Hb & Hg);
    [done|done|lia|done|eapply kernel_buf_sub; [exact Hbuf|lia..]|].
  rewrite (bind_ok _ _ _ _ _ Hp). destruct got.
  { exists 0, s1, k. split; [done|]. split; [done|]. split; [done|].
    pose proof Hg as (? & _). split; [exact Hb|intros x Hx; apply Hpg; lia|lia|auto]. }
  destruct Hg as [-> Hg]. destruct UPAGES_eq as (EU & ET & _).
  destruct (IH s1 root T F U (dst + n) ((srcva / PGSIZE + 1) * PGSIZE) (max - n)) as
    (r & s' & k & Hl' & Hu' & Hum' & Hco);
    [done|lia|unfold PGSIZE in *; dlia|unfold PGSIZE in *; dlia|
     eapply kernel_buf_sub; [exact Hbuf|lia..]|unfold PGSIZE in *; dlia|].
  exists r, s', (n + k). split; [exact Hl'|]. split; [exact Hu'|].
  split; [intros va; now rewrite Hum'|].
  eapply copied_str_cons; [exact Hc1| |exact Hb|exact Hg|exact Hpg|exact Hum|exact Hco].
  destruct Hc3; [auto|right; lia].
Qed.
End usercopy.
