(* ===== verification/UserFork.v ===== *)
(** * kernel/vm.c: uvmcopy, freewalk, uvmfree

    Copying an address space for [fork] and freeing one: the child's bytes
    and permissions are the parent's, a failed copy leaves the child empty
    and the parent alone, and freeing returns every page. *)

From stdpp Require Import base gmap list numbers strings.
From S2P Require Import Prelude Mem StringC Riscv Kalloc Vm PageTable UserMem UserCopy.

Open Scope Z_scope.

Section userfork.
Context {St : Type} `{PA : PageAllocator St} `{PS : !PageAllocatorSpec St}.

#[local] Abbreviation vpage := (valid_page (S := St)).

(** ** Two spaces *)

Definition apart_spaces (T1 : ptree) (U1 : umap) (T2 : ptree) (U2 : umap) : Prop :=
  forall q, holds T1 U1 q -> ~ holds T2 U2 q.

(** A step of one space leaves another alone. *)
Lemma us_other root1 root2 s T1 U1 T2 F U2 s' T2' F' U2' :
  uspace s root1 T1 F U1 -> apart_spaces T1 U1 T2 U2 ->
  ustep root2 s T2 F U2 s' T2' F' U2' ->
  uspace s' root1 T1 F' U1 /\ (forall va, umem s' U1 va = umem s U1 va) /\
  apart_spaces T1 U1 T2' U2'.
Proof.
  intros Hu Hap [Hu' _ Hc Hf _].
  assert (forall q, holds T1 U1 q -> ~ (q ∈ F \/ holds T2 U2 q)) as Hout.
  { intros q Hq [HF|H2]; [now apply (us_apart _ _ _ _ _ q Hu HF)|now apply (Hap q)]. }
  assert (forall q, holds T1 U1 q -> same_bytes (mem_of s) (mem_of s') q PGSIZE) as Hs.
  { intros q Hq. apply Hf; [eapply us_valid; [exact Hu|now right]|auto]. }
  split; [|split].
  - eapply us_frame; [exact Hu|apply Hu'| |].
    + intros q HF' Hq. apply (Hout q Hq), Hc. now left.
    + intros p a Ht. apply Hs. left. eauto.
  - intros va. apply umem_same. intros n pa fl Hn. apply Hs. right. eauto.
  - intros q Hq H2. apply (Hout q Hq), Hc. now right.
Qed.

(** A page of the child that holds a copy of the parent's page [pa]. *)
Lemma copy_map s s1 root1 root T1 U1 T F U n b pa fl :
  uspace s root1 T1 F U1 -> apart_spaces T1 U1 T U -> U1 !! n = Some (pa, fl) ->
  uspace s root T F U -> b ∈ F -> pa_inv s1 (F ∖ {[b]}) ->
  frame_bytes (mem_of s) (mem_of s1) b PGSIZE -> U !! n = None ->
  let perm := Z.lor fl PTE_V in
  exists r s' T', mappages root (n * PGSIZE) PGSIZE b perm
      (set_mem (memmove (mem_of s1) b pa PGSIZE) s1) = Ok r s' /\
    (r = 0 /\ (exists F', let U' := <[n := (b, perm)]> U in
       ustep root s T F U s' T' F' U' /\
       forall va, umem s' U' va = if va / PGSIZE =? n then umem s U1 va else umem s U va) \/
     r = -1 /\ exists s3, pa_kfree b s' = Ok tt s3 /\ ustep root s T F U s3 T' {[b]} U /\
       forall va, umem s3 U va = umem s U va).
Proof.
  intros Hu1 Hap Hn Hu Hb Ha1 Hf Hno perm.
  destruct (us_flags _ _ _ _ _ Hu1 _ _ _ Hn) as [Hfl Hnv].
  pose proof (us_key _ _ _ _ _ Hu1 _ _ Hn) as Hk.
  pose proof (vpage_user _ _ _ _ _ _ _ _ Hu1 Hn) as Hvp.
  pose proof (us_valid _ _ _ _ _ b Hu ltac:(tauto)) as Hvb.
  assert (pa <> b) as Hne.
  { intros ->. eapply (us_apart _ _ _ _ _ b Hu1); [exact Hb|]. right. eauto. }
  assert (frame_bytes (mem_of s1) (memmove (mem_of s1) b pa PGSIZE) b PGSIZE) as Hmf
    by (apply memmove_frame; unfold PGSIZE; lia).
  set (s2 := set_mem _ s1).
  assert (mem_of s2 = memmove (mem_of s1) b pa PGSIZE) as Em by apply mem_set_mem.
  destruct (map_page s s2 root T F U n b perm) as (r & s' & T' & Hm & Hres); try done.
  - unfold s2. apply pa_set_mem; [exact Ha1|]. intros q Hq. pose proof Hq as [HqF Hqb]%in_minus.
    apply (page_frame _ _ b); try done. exact (pa_free_valid _ _ _ Ha1 Hq).
  - intros x Hx. rewrite Em, (Hmf x Hx). exact (Hf x Hx).
  - apply flags_lor; [done|apply flags_V].
  - unfold perm. now rewrite <- Z.lor_assoc.
  - exists r, s', T'. split; [exact Hm|].
    destruct Hres as [(-> & [F' Hst] & Hs & Hum)|Hres]; [left|right; exact Hres].
    split; [done|]. exists F'. split; [exact Hst|]. intros va. unfold umem at 1.
    destruct (Z.eqb_spec (va / PGSIZE) n) as [E|E].
    + rewrite E, lookup_insert_eq. rewrite Hs by (unfold PGSIZE; dlia).
      rewrite Em, memmove_in by (unfold PGSIZE; dlia). unfold umem. rewrite E, Hn.
      apply (page_frame _ _ b pa); try done. unfold PGSIZE. dlia.
    + rewrite lookup_insert_ne by done. apply Hum.
Qed.

(** The first [n] pages of [U] are copies of those of [U1]: the same bytes,
    the same permissions; there are no others. *)
Record is_copy (s : St) (U1 U : umap) (n : Z) : Prop := IsCopy {
  cp_dom i : is_Some (U !! i) <-> 0 <= i < n;
  cp_flag i b : 0 <= i < n -> uflag U i b = uflag U1 i b;
  cp_mem va : 0 <= va / PGSIZE < n -> umem s U va = umem s U1 va;
}.

Lemma is_copy_snoc s s' U1 U n b pa fl :
  is_copy s U1 U n -> 0 <= n -> U1 !! n = Some (pa, fl) ->
  (forall va, umem s' U1 va = umem s U1 va) ->
  (forall va, umem s' (<[n := (b, Z.lor fl PTE_V)]> U) va =
     if va / PGSIZE =? n then umem s U1 va else umem s U va) ->
  is_copy s' U1 (<[n := (b, Z.lor fl PTE_V)]> U) (n + 1).
Proof.
  intros [Hd Hfl Hm] Hn HU1 Hum1 Hum. split.
  - intros i. rewrite lookup_insert_is_Some', Hd. lia.
  - intros i f Hi. unfold uflag. destruct (decide (n = i)) as [<-|Hne].
    + rewrite lookup_insert_eq, HU1. now rewrite <- Z.lor_assoc.
    + rewrite lookup_insert_ne by done. apply Hfl. lia.
  - intros va Hva. rewrite Hum, Hum1. case_goal; zbool; [done|]. apply Hm. lia.
Qed.

(** The failure exit of [uvmcopy]. *)
Lemma uvmcopy_rollback root s T F U s1 T1 F1 n :
  ustep root s T F U s1 T1 F1 U -> 0 <= n <= UPAGES -> (forall i, is_Some (U !! i) <-> 0 <= i < n) ->
  exists s' F', (uvmunmap root 0 (n * PGSIZE / PGSIZE) true;; mret (-1)) s1 = Ok (-1) s' /\
    ustep root s T F U s' T1 F' ∅.
Proof.
  intros Hst Hn Hd.
  destruct (uvmunmap_ok s1 root T1 F1 U 0 n) as (s' & F' & Hun & Hst' & _); try lia.
  { apply Hst. }
  { intros i Hi. apply Hd. lia. }
  exists s', F'. rewrite vpn_div, (bind_ok _ _ _ _ _ Hun). split; [done|].
  assert (drop_range 0 (0 + n) U = ∅) as <-; [|eapply ustep_trans; eassumption].
  apply map_eq. intros i. rewrite lookup_drop_range, lookup_empty. case_goal; zbool; [done|].
  destruct (U !! i) eqn:E; [|done]. pose proof (proj1 (Hd i) ltac:(eauto)). lia.
Qed.

Lemma uvmcopy_loop_ok k : forall s old T1 U1 new T F U n sz fuel,
  uspace s old T1 F U1 -> uspace s new T F U -> apart_spaces T1 U1 T U ->
  is_copy s U1 U n -> 0 <= n -> n + Z.of_nat k <= UPAGES ->
  (n + Z.of_nat k) * PGSIZE - PGSIZE < sz \/ k = 0%nat -> sz <= (n + Z.of_nat k) * PGSIZE ->
  (forall i, n <= i < n + Z.of_nat k -> is_Some (U1 !! i)) -> (k < fuel)%nat ->
  exists r s' T' F' U', uvmcopy_loop fuel old new (n * PGSIZE) sz s = Ok r s' /\
    ustep new s T F U s' T' F' U' /\
    (r = 0 /\ is_copy s' U1 U' (n + Z.of_nat k) \/ r = -1 /\ U' = ∅).
Proof.
  induction k as [|k IH]; intros s old T1 U1 new T F U n sz fuel Hu1 Hu Hap Hcp Hn HU Hs1 Hs2 Hin Hf;
    (destruct fuel as [|fuel]; [lia|]); cbn [uvmcopy_loop].
  { rewrite (proj2 (Z.ltb_ge _ _)) by lia. exists 0, s, T, F, U. split; [done|].
    split; [now apply ustep_refl|]. left. split; [done|]. now rewrite Z.add_0_r. }
  rewrite (proj2 (Z.ltb_lt (n * PGSIZE) sz)) by (unfold PGSIZE in *; lia).
  destruct (Hin n ltac:(lia)) as [[pa fl] HU1].
  destruct (us_lookup s old T1 F U1 n pa fl Hu1 HU1) as (Hpath & Hsl & Hld).
  pose proof (vpn_range n ltac:(lia)) as [Hr HM].
  rewrite (bind_ok _ _ _ _ _ (walk_slot s old T1 (n * PGSIZE) (vm_pt _ _ _ _ (us_vm _ _ _ _ _ Hu1)) ltac:(lia))).
  rewrite (proj2 (Z.eqb_neq (slot T1 (n * PGSIZE)) 0)) by done.
  erewrite bind_ok by reflexivity. rewrite Hld.
  destruct (user_pte s old T1 F U1 n pa fl Hu1 HU1) as [-> ->].
  assert (PTE_FLAGS (perm_pte pa fl) = Z.lor fl PTE_V) as ->.
  { destruct (us_flags _ _ _ _ _ Hu1 _ _ _ HU1) as [Hfl _].
    pose proof (vpage_pte _ (vpage_user _ _ _ _ _ _ _ _ Hu1 HU1)).
    apply PTE_FLAGS_PA2PTE; auto using flags_lor, flags_V. }
  pose proof (cp_dom _ _ _ _ Hcp) as Hd.
  assert (U !! n = None) as Hno.
  { destruct (U !! n) eqn:E; [|done]. pose proof (proj1 (Hd n) ltac:(eauto)). lia. }
  destruct (vm_kalloc s new T F (us_vm _ _ _ _ _ Hu))
    as [(HF & s1 & Hk & Hg & Hm)|(b & s1 & Hk & Hb & Hvb & Ha1 & Hfr)]; rewrite (bind_ok _ _ _ _ _ Hk).
  { destruct (uvmcopy_rollback new s T F U s1 T F n) as (s' & F' & He & Hst);
      [eapply ustep_kalloc_none; eauto|lia|exact Hd|]. eauto 10. }
  pose proof (vpage_pos b Hvb). rewrite (proj2 (Z.eqb_neq b 0)) by lia. erewrite bind_ok by reflexivity.
  destruct (copy_map s s1 old new T1 U1 T F U n b pa fl) as (r & s2 & T2 & Hm & Hres); try done.
  rewrite (bind_ok _ _ _ _ _ Hm).
  destruct Hres as [(-> & F2 & Hst & Hum)|(-> & s3 & Hk3 & Hst & Hum)]; cbn [negb Z.eqb].
  - destruct (us_other old new s T1 U1 T F U s2 T2 F2 _ Hu1 Hap Hst) as (Hu1' & Hum1 & Hap').
    rewrite u64_small by (destruct UPAGES_eq as (EU & _); unfold is_u64, PGSIZE in *; lia).
    replace (n * PGSIZE + PGSIZE) with ((n + 1) * PGSIZE) by lia.
    destruct (IH s2 old T1 U1 new T2 F2 _ (n + 1) sz fuel Hu1' (st_space _ _ _ _ _ _ _ _ _ Hst) Hap')
      as (r & s' & T' & F' & U' & Hl & Hst' & Hres);
      [eapply is_copy_snoc; eassumption|lia..|intros i Hi; apply Hin; lia|lia|].
    exists r, s', T', F', U'. split; [exact Hl|]. split; [eapply ustep_trans; eassumption|].
    now replace (n + Z.of_nat (S k)) with (n + 1 + Z.of_nat k) by lia.
  - rewrite (bind_ok _ _ _ _ _ Hk3).
    destruct (uvmcopy_rollback new s T F U s3 T2 {[b]} n) as (s' & F' & He & Hst');
      [exact Hst|lia|exact Hd|]. eauto 10.
Qed.

(** ** freewalk *)

(** The table [a] with [l] levels below it, no entry of a level-0 table valid;
    [P] is the set of pages of the tables. *)
Fixpoint tables (m : memory) (l : nat) (a : Z) (P : gset Z) : Prop :=
  vpage a /\
  match l with
  | O => P = {[a]} /\ forall i, 0 <= i < 512 -> Z.land (load64 m (pte_at a i)) PTE_V = 0
  | S l' => exists Q : Z -> gset Z,
      (forall q, q ∈ P <-> q = a \/ exists i, 0 <= i < 512 /\ q ∈ Q i) /\
      (forall i, 0 <= i < 512 -> a ∉ Q i) /\
      (forall i j, 0 <= i < 512 -> 0 <= j < 512 -> i <> j -> Q i ## Q j) /\
      (forall i, 0 <= i < 512 ->
         Z.land (load64 m (pte_at a i)) PTE_V = 0 /\ Q i = ∅ \/
         exists b, load64 m (pte_at a i) = Z.lor (PA2PTE b) PTE_V /\ tables m l' b (Q i))
  end.

Lemma tables_root m l a P : tables m l a P -> vpage a /\ a ∈ P.
Proof.
  destruct l; intros [Hv H]; (split; [done|]).
  - destruct H as [-> _]. set_solver.
  - destruct H as (Q & HP & _). apply HP. now left.
Qed.

Lemma load64_page m m' a i :
  same_bytes m m' a PGSIZE -> 0 <= i < 512 -> load64 m' (pte_at a i) = load64 m (pte_at a i).
Proof.
  intros Hs Hi. pose proof (pte_in_page a i Hi). apply load64_ext.
  eapply same_bytes_sub; [exact Hs|lia|lia].
Qed.

Lemma tables_same m m' l : forall a P,
  tables m l a P -> (forall q, q ∈ P -> same_bytes m m' q PGSIZE) -> tables m' l a P.
Proof.
  induction l as [|l IH]; intros a P Ht Hs; pose proof (tables_root _ _ _ _ Ht) as [Hv Ha];
    destruct Ht as [_ H]; (split; [done|]).
  - destruct H as [-> H]. split; [done|]. intros i Hi. rewrite (load64_page m m') by auto. auto.
  - destruct H as (Q & HP & HQa & HQd & HQ). exists Q. split; [done|]. split; [done|]. split; [done|].
    intros i Hi. rewrite (load64_page m m') by auto. destruct (HQ i Hi) as [?|(b & Hb & Ht)]; [auto|].
    right. exists b. split; [done|]. apply IH; [done|]. intros q Hq. apply Hs, HP. eauto.
Qed.

(** A pointer entry is what [freewalk]'s first test looks for. *)
Lemma ptr_not_leaf b :
  vpage b -> Z.land (Z.lor (PA2PTE b) PTE_V) (Z.lor (Z.lor PTE_R PTE_W) PTE_X) = 0.
Proof.
  intros Hb%vpage_pte. rewrite land_flags by (split; [now vm_compute|done]).
  rewrite PTE_FLAGS_PA2PTE by auto using flags_V. done.
Qed.

(** What freeing a set of pages may change. *)
Definition freed (s : St) (F P : gset Z) (s' : St) : Prop :=
  pa_inv s' (F ∪ P) /\
  forall q, vpage q -> q ∉ P -> same_bytes (mem_of s) (mem_of s') q PGSIZE.

(** The loop of [freewalk], with the recursive call [rec] on the subtrees
    that [sub] describes. *)
Section freewalk_loop.
Context (rec : Z -> M St unit) (sub : memory -> Z -> gset Z -> Prop).
Hypothesis sub_rec : forall s b F Q, sub (mem_of s) b Q -> pa_inv s F -> F ## Q ->
  exists s', rec b s = Ok tt s' /\ freed s F Q s'.
Hypothesis sub_page : forall m b Q, sub m b Q -> vpage b.
Hypothesis sub_same : forall m m' b Q,
  sub m b Q -> (forall q, q ∈ Q -> same_bytes m m' q PGSIZE) -> sub m' b Q.
Context (a : Z) (Hva : vpage a).

Definition free_entry (i : Z) : M St unit :=
  pte ← get_pte (pte_at a i);
  if truthy (Z.land pte PTE_V) && (Z.land pte (Z.lor (Z.lor PTE_R PTE_W) PTE_X) =? 0)
  then rec (PTE2PA pte);; put_pte (pte_at a i) 0
  else if truthy (Z.land pte PTE_V) then panic "freewalk: leaf" else mret tt.

(** Entry [v]: invalid, or the subtree [Q]. *)
Definition entry_ok (m : memory) (v : Z) (Q : gset Z) : Prop :=
  Z.land v PTE_V = 0 /\ Q = ∅ \/ exists b, v = Z.lor (PA2PTE b) PTE_V /\ sub m b Q.

Lemma free_entry_ok s i F Q :
  a ∉ F -> a ∉ Q -> pa_inv s F -> F ## Q -> 0 <= i < 512 ->
  entry_ok (mem_of s) (load64 (mem_of s) (pte_at a i)) Q ->
  exists s', free_entry i s = Ok tt s' /\ pa_inv s' (F ∪ Q) /\
    (forall q, vpage q -> q ∉ Q -> q <> a -> same_bytes (mem_of s) (mem_of s') q PGSIZE) /\
    (forall j, 0 <= j < 512 -> j <> i ->
       load64 (mem_of s') (pte_at a j) = load64 (mem_of s) (pte_at a j)).
Proof.
  intros HaF HaQ Ha Hd Hi He. unfold free_entry. erewrite bind_ok by reflexivity.
  destruct He as [[E ->]|(b & E & Ht)]; rewrite E.
  { exists s. split; [done|]. rewrite union_empty_r_L. split; [done|].
    split; [intros; apply same_bytes_refl|done]. }
  pose proof (sub_page _ _ _ Ht) as Hvb.
  rewrite ptr_valid, ptr_not_leaf, ptr_target by done. cbn [andb Z.eqb].
  destruct (sub_rec s b F Q Ht Ha Hd) as (s1 & Hf & Ha1 & Hs1).
  rewrite (bind_ok _ _ _ _ _ Hf). eexists. split; [reflexivity|].
  rewrite mem_set_mem. split; [|split].
  - apply pa_set_mem; [exact Ha1|]. intros q Hq. apply page_store_out; try done.
    + exact (pa_free_valid _ _ _ Ha1 Hq).
    + intros ->. apply elem_of_union in Hq. tauto.
  - intros q Hq HqQ Hne. eapply same_bytes_trans; [now apply Hs1|]. now apply page_store_out.
  - intros j Hj Hne. rewrite load64_store64_ne; [|apply pte_apart; (done || congruence)].
    apply load64_page; [|done]. now apply Hs1.
Qed.

Lemma free_entries_ok (Q : Z -> gset Z) n : forall s i F,
  i + Z.of_nat n = 512 -> 0 <= i -> a ∉ F -> pa_inv s F ->
  (forall j, i <= j < 512 -> (a ∉ Q j) /\ F ## Q j /\ (forall q, q ∈ Q j -> vpage q) /\
     entry_ok (mem_of s) (load64 (mem_of s) (pte_at a j)) (Q j)) ->
  (forall j k, i <= j < 512 -> i <= k < 512 -> j <> k -> Q j ## Q k) ->
  exists s' F', for_loop n i free_entry s = Ok tt s' /\ pa_inv s' F' /\ (a ∉ F') /\
    (forall q, q ∈ F' <-> q ∈ F \/ exists j, i <= j < 512 /\ q ∈ Q j) /\
    (forall q, vpage q -> q <> a -> (forall j, i <= j < 512 -> q ∉ Q j) ->
       same_bytes (mem_of s) (mem_of s') q PGSIZE).
Proof.
  induction n as [|n IH]; intros s i F Hi Hi0 HaF Ha HQ Hdis; cbn [for_loop].
  { exists s, F. split; [done|]. split; [done|]. split; [done|].
    split; [|intros; apply same_bytes_refl]. intros q. split; [auto|]. intros [?|(j & ? & _)]; [done|lia]. }
  destruct (HQ i ltac:(lia)) as (HaQ & HdQ & HvQ & He).
  destruct (free_entry_ok s i F (Q i) HaF HaQ Ha HdQ ltac:(lia) He) as (s1 & Hf & Ha1 & Hs1 & Hl1).
  rewrite (bind_ok _ _ _ _ _ Hf).
  destruct (IH s1 (i + 1) (F ∪ Q i)) as (s' & F' & Hl & Ha' & HaF' & HF' & Hs'); try lia; try done.
  - rewrite elem_of_union. tauto.
  - intros j Hj. destruct (HQ j ltac:(lia)) as (Hj1 & Hj2 & Hj3 & Hj4).
    assert (Q i ## Q j) as Hij by (apply Hdis; lia).
    split; [done|]. split; [|split; [done|]].
    { apply disjoint_union_l. now split. }
    rewrite Hl1 by lia. destruct Hj4 as [Hj4|(b & Hb & Hsub)]; [now left|right].
    exists b. split; [done|]. eapply sub_same; [exact Hsub|]. intros q Hq.
    apply Hs1; [auto|intros Hqi; exact (Hij q Hqi Hq)|intros ->; done].
  - intros j k Hj Hk. apply Hdis; lia.
  - exists s', F'. split; [exact Hl|]. split; [done|]. split; [done|]. split.
    + intros q. rewrite HF', elem_of_union. split.
      * intros [[?|?]|(j & ? & ?)]; [auto|right; exists i; split; [lia|done]|right; exists j; split; [lia|done]].
      * intros [?|(j & Hj & Hq)]; [auto|]. destruct (Z.eq_dec j i) as [->|]; [auto|].
        right. exists j. split; [lia|done].
    + intros q Hq Hqa HqQ. eapply same_bytes_trans; [apply Hs1; [done|apply HqQ; lia|done]|].
      apply Hs'; [done|done|]. intros j Hj. apply HqQ. lia.
Qed.
End freewalk_loop.

Lemma tables_valid m l : forall a P q, tables m l a P -> q ∈ P -> vpage q.
Proof.
  induction l as [|l IH]; intros a P q [Hv H] Hq.
  - destruct H as [-> _]. apply elem_of_singleton in Hq as ->. done.
  - destruct H as (Q & HP & _ & _ & HQ). apply HP in Hq as [->|(i & Hi & Hq)]; [done|].
    destruct (HQ i Hi) as [[_ HQ0]|(b & _ & Hb)]; [|eauto].
    rewrite HQ0 in Hq. now apply not_elem_of_empty in Hq.
Qed.

(** The last step of [freewalk]. *)
Lemma free_table s s1 a F F1 P :
  vpage a -> a ∈ P -> a ∉ F -> pa_inv s1 F1 -> a ∉ F1 ->
  (forall q, q ∈ F1 <-> q ∈ F \/ q ∈ P /\ q <> a) ->
  (forall q, vpage q -> q ∉ P -> same_bytes (mem_of s) (mem_of s1) q PGSIZE) ->
  exists s', pa_kfree a s1 = Ok tt s' /\ freed s F P s'.
Proof.
  intros Hva HaP HaF Ha1 HaF1 HF1 Hs1.
  destruct (pa_kfree_ok s1 F1 a Ha1 Hva HaF1) as (s' & Hk & Ha' & Hf).
  exists s'. split; [exact Hk|]. split.
  - replace (F ∪ P) with ({[a]} ∪ F1); [done|]. apply set_eq. intros q.
    rewrite !elem_of_union, elem_of_singleton, HF1. destruct (decide (q = a)) as [->|]; tauto.
  - intros q Hq HqP. eapply same_bytes_trans; [now apply Hs1|].
    apply (page_frame _ _ a); [done|done|congruence|done].
Qed.

Lemma freewalk_ok d : forall s a F P,
  tables (mem_of s) d a P -> pa_inv s F -> F ## P ->
  exists s', freewalk (S d) a s = Ok tt s' /\ freed s F P s'.
Proof.
  induction d as [|d IH]; intros s a F P Ht Ha Hd;
    destruct (tables_root _ _ _ _ Ht) as [Hva HaP];
    assert (a ∉ F) as HaF by (intros H; exact (Hd a H HaP));
    pose proof (fun q => tables_valid _ _ a P q Ht) as HvP; destruct Ht as [_ H].
  - destruct H as [-> He].
    destruct (free_entries_ok (freewalk 0) (fun _ _ _ => False) ltac:(done) ltac:(done) ltac:(done) a Hva
      (fun _ => ∅) 512 s 0 F) as (s1 & F1 & Hl & Ha1 & HaF1 & HF1 & Hs1); try done.
    { intros j Hj. split; [apply not_elem_of_empty|]. split; [apply disjoint_empty_r|].
      split; [intros q []%not_elem_of_empty|]. left. auto. }
    destruct (free_table s s1 a F F1 {[a]}) as (s' & Hk & Hfr); try done.
    { intros q. rewrite HF1, elem_of_singleton. split; [|tauto].
      intros [?|(j & _ & []%not_elem_of_empty)]. auto. }
    { intros q Hq HqP%not_elem_of_singleton. apply Hs1; [done|done|]. intros j _. apply not_elem_of_empty. }
    exists s'. split; [|exact Hfr]. now rewrite <- Hk, <- (bind_ok _ (fun _ => pa_kfree a) _ _ _ Hl).
  - destruct H as (Q & HP & HaQ & HQd & HQ).
    destruct (free_entries_ok (freewalk (S d)) (fun m b Q => tables m d b Q) IH
      (fun m b Q H => proj1 (tables_root m d b Q H)) (fun m m' b Q => tables_same m m' d b Q) a Hva
      Q 512 s 0 F) as (s1 & F1 & Hl & Ha1 & HaF1 & HF1 & Hs1); try done.
    { intros j Hj. assert (forall q, q ∈ Q j -> q ∈ P) as Hsub by (intros q Hq; apply HP; eauto).
      split; [auto|]. split; [intros q H1 H2; exact (Hd q H1 (Hsub q H2))|].
      split; [auto|]. apply HQ. lia. }
    destruct (free_table s s1 a F F1 P) as (s' & Hk & Hfr); try done.
    { intros q. rewrite HF1, HP. split.
      - intros [?|(j & Hj & Hq)]; [auto|]. right. split; [eauto|]. intros ->. now apply (HaQ j).
      - intros [?|[[?|(j & Hj & Hq)] Hne]]; [auto|done|eauto]. }
    { intros q Hq HqP. apply Hs1; [done|intros ->; done|]. intros j Hj Hqj. apply HqP, HP. eauto. }
    exists s'. split; [|exact Hfr]. now rewrite <- Hk, <- (bind_ok _ (fun _ => pa_kfree a) _ _ _ Hl).
Qed.

(** The pages of the tables at and below path [p]. *)
Definition under (T : ptree) (p : list Z) : gset Z :=
  list_to_set (map_to_list (filter (fun kv => p `prefix_of` kv.1) T)).*2.

Lemma elem_of_under T p q : q ∈ under T p <-> exists p', T !! p' = Some q /\ p `prefix_of` p'.
Proof.
  unfold under. rewrite elem_of_list_to_set, list_elem_of_fmap. split.
  - intros ([p' a] & -> & H%elem_of_map_to_list). apply map_lookup_filter_Some in H. eauto.
  - intros (p' & Hp & Hpre). exists (p', q). split; [done|]. apply elem_of_map_to_list.
    now apply map_lookup_filter_Some.
Qed.

(** The paths of the tree are closed under prefixes. *)
Lemma tree_prefix T m root :
  pt_inv m root T -> forall p k q, T !! (p ++ k) = Some q -> is_Some (T !! p).
Proof.
  intros Hi p k. induction k as [|j k IH] using rev_ind; intros q Hq.
  - rewrite app_nil_r in Hq. eauto.
  - rewrite app_assoc in Hq. apply (pt_parent _ _ _ Hi) in Hq as ([b Hb] & _). eauto.
Qed.

(** Without valid level-0 entries the tree is a tree of [tables]. *)
Lemma pt_tables m root T :
  pt_inv m root T ->
  (forall p a i, T !! p = Some a -> length p = 2%nat -> 0 <= i < 512 ->
     Z.land (load64 m (pte_at a i)) PTE_V = 0) ->
  forall l p a, T !! p = Some a -> (length p + l = 2)%nat -> tables m l a (under T p).
Proof.
  intros Hi Hno. induction l as [|l IH]; intros p a Hp Hl; (split; [exact (pt_page _ _ _ Hi _ _ Hp)|]).
  - split; [|intros i Hr; apply (Hno p); (done || lia)]. apply set_eq. intros q.
    rewrite elem_of_under, elem_of_singleton. split.
    + intros (p' & Hp' & [k ->]). destruct k as [|i k]; [rewrite app_nil_r in Hp'; congruence|].
      destruct (@exists_last _ (i :: k)) as (k' & j & E); [done|]. rewrite E, app_assoc in Hp'.
      apply (pt_parent _ _ _ Hi) in Hp' as (_ & Hlt & _). rewrite length_app in Hlt. lia.
    + intros ->. exists p. eauto.
  - exists (fun i => under T (p ++ [i])). split; [|split; [|split]].
    + intros q. rewrite elem_of_under. split.
      * intros (p' & Hp' & [k ->]). destruct k as [|i k]; [left; rewrite app_nil_r in Hp'; congruence|].
        right. exists i. split.
        { destruct (tree_prefix T m root Hi (p ++ [i]) k q) as [b Hb].
          - now rewrite <- app_assoc.
          - now apply (pt_parent _ _ _ Hi) in Hb. }
        rewrite elem_of_under. exists (p ++ i :: k). split; [done|].
        exists k. now rewrite <- app_assoc.
      * intros [->|(i & _ & (p' & Hp' & [k ->])%elem_of_under)]; [eauto|].
        eexists. split; [exact Hp'|]. exists ([i] ++ k). now rewrite app_assoc.
    + intros i _ (p' & Hp' & [k ->])%elem_of_under.
      assert (p = (p ++ [i]) ++ k) as E by (eapply pt_inj; eauto).
      apply (f_equal length) in E. rewrite !length_app in E. cbn in E. lia.
    + intros i j _ _ Hne q (p1 & H1 & [k1 ->])%elem_of_under (p2 & H2 & [k2 ->])%elem_of_under.
      assert ((p ++ [i]) ++ k1 = (p ++ [j]) ++ k2) as E by (eapply pt_inj; eauto).
      rewrite <- !app_assoc in E. apply app_inv_head in E. injection E as E _. done.
    + intros i Hr. pose proof (pt_entry _ _ _ Hi p a i Hp ltac:(lia) Hr) as He.
      destruct (T !! (p ++ [i])) as [b|] eqn:E; [right|left].
      * exists b. split; [done|]. apply IH; [done|]. rewrite length_app. cbn. lia.
      * split; [done|]. apply set_eq. intros q. rewrite elem_of_under.
        split; [|intros []%not_elem_of_empty]. intros (p' & Hp' & [k ->]).
        destruct (tree_prefix T m root Hi (p ++ [i]) k q Hp') as [b Hb]. congruence.
Qed.

(** ** uvmfree *)

(** A space whose entries are all invalid has no valid level-0 entry. *)
Lemma no_leaves m root T :
  pt_inv m root T -> (forall va, 0 <= va < MAXVA -> Z.land (leaf T m va) PTE_V = 0) ->
  forall p a i, T !! p = Some a -> length p = 2%nat -> 0 <= i < 512 ->
    Z.land (load64 m (pte_at a i)) PTE_V = 0.
Proof.
  intros Hi Hl p a i Hp Hlen Hr. destruct p as [|i2 [|i1 [|]]]; try done.
  pose proof (pt_low _ _ _ Hi _ _ _ Hp) as Hlow.
  destruct (pt_parent _ _ _ Hi [i2] i1 a Hp) as ([b Hb] & _ & Hi1).
  destruct (pt_parent _ _ _ Hi [] i2 b Hb) as (_ & _ & Hi2).
  destruct (PX_surj i2 i1 i) as (va & Hva & E2 & E1 & E0); try done; try lia.
  specialize (Hl va Hva). unfold leaf, path in Hl. now rewrite E2, E1, E0, Hp in Hl.
Qed.

Lemma us_empty_leaf s root T F :
  uspace s root T F ∅ ->
  (forall va, TRAPFRAME <= va < MAXVA -> Z.land (leaf T (mem_of s) va) PTE_V = 0) ->
  forall va, 0 <= va < MAXVA -> Z.land (leaf T (mem_of s) va) PTE_V = 0.
Proof.
  intros Hu Hab va Hva. destruct (Z.lt_ge_cases va TRAPFRAME) as [Hlt|Hge]; [|apply Hab; lia].
  pose proof (us_entry _ _ _ _ _ Hu va ltac:(lia)) as He. rewrite lookup_empty in He.
  unfold truthy in He. now zbool.
Qed.

(** Freeing the tables of a space with no user page left. *)
Lemma freewalk_space s root T F :
  uspace s root T F ∅ ->
  (forall va, TRAPFRAME <= va < MAXVA -> Z.land (leaf T (mem_of s) va) PTE_V = 0) ->
  exists s' F', freewalk 3 root s = Ok tt s' /\ pa_inv s' F' /\
    (forall q, q ∈ F' <-> q ∈ F \/ holds T ∅ q) /\
    (forall q, vpage q -> ~ (q ∈ F \/ holds T ∅ q) -> same_bytes (mem_of s) (mem_of s') q PGSIZE).
Proof.
  intros Hu Hab. pose proof (vm_pt _ _ _ _ (us_vm _ _ _ _ _ Hu)) as Hpt.
  assert (forall q, q ∈ under T [] <-> holds T ∅ q) as Hund.
  { intros q. rewrite elem_of_under. unfold holds. split.
    - intros (p & Hp & _). left. eauto.
    - intros [[p Hp]|(n & fl & Hn)]; [|now rewrite lookup_empty in Hn].
      exists p. split; [done|]. apply prefix_nil. }
  destruct (freewalk_ok 2 s root F (under T [])) as (s' & Hf & Ha & Hs).
  - apply (pt_tables _ root); [done| |apply Hpt|done].
    apply (no_leaves _ root); [done|]. exact (us_empty_leaf s root T F Hu Hab).
  - apply Hu.
  - intros q HF Hq. apply (us_apart _ _ _ _ _ q Hu HF). now apply Hund.
  - exists s', (F ∪ under T []). split; [exact Hf|]. split; [exact Ha|]. split.
    + intros q. now rewrite elem_of_union, Hund.
    + intros q Hq Hn. apply Hs; [done|]. rewrite Hund. tauto.
Qed.

(** The user's memory has [sz] bytes: its pages are mapped and no others. *)
Definition sized (U : umap) (sz : Z) : Prop :=
  forall i, is_Some (U !! i) <-> 0 <= i < upages sz.

Lemma drop_sized U sz : sized U sz -> drop_range 0 (upages sz) U = ∅.
Proof.
  intros Hs. apply map_eq. intros i. rewrite lookup_drop_range, lookup_empty.
  case_goal; zbool; [done|]. destruct (U !! i) eqn:E; [|done].
  pose proof (proj1 (Hs i) ltac:(eauto)). lia.
Qed.

Lemma uvmfree_ok s root T F U sz :
  uspace s root T F U -> sized U sz -> 0 <= sz <= TRAPFRAME ->
  (forall va, TRAPFRAME <= va < MAXVA -> Z.land (leaf T (mem_of s) va) PTE_V = 0) ->
  exists s' F', uvmfree root sz s = Ok tt s' /\ pa_inv s' F' /\
    (forall q, q ∈ F' <-> q ∈ F \/ holds T U q) /\
    (forall q, vpage q -> ~ (q ∈ F \/ holds T U q) -> same_bytes (mem_of s) (mem_of s') q PGSIZE).
Proof.
  intros Hu Hs Hsz Hab. destruct (upages_spec sz Hsz) as (Eup & Hup & Hr). unfold uvmfree.
  assert (exists s1 F1, (if 0 <? sz then uvmunmap root 0 (PGROUNDUP sz / PGSIZE) true else mret tt) s =
    Ok tt s1 /\ ustep root s T F U s1 T F1 ∅) as (s1 & F1 & Hun & Hst).
  { destruct (Z.ltb_spec 0 sz) as [H0|H0].
    - fold (upages sz). destruct (uvmunmap_ok s root T F U 0 (upages sz)) as (s1 & F1 & Hun & Hst & _); try lia.
      { done. }
      { intros i Hi. apply Hs. lia. }
      rewrite Z.add_0_l, drop_sized in Hst by done. eauto.
    - exists s, F. split; [done|]. rewrite <- (drop_sized U sz), drop_range_nil by (done || (unfold PGSIZE in *; lia)).
      now apply ustep_refl. }
  rewrite (bind_ok _ _ _ _ _ Hun).
  destruct (freewalk_space s1 root T F1) as (s' & F' & Hf & Ha & HF' & Hs').
  - apply Hst.
  - intros va Hva. rewrite (st_above _ _ _ _ _ _ _ _ _ Hst) by done. auto.
  - exists s', F'. split; [exact Hf|]. split; [exact Ha|].
    assert (forall q, q ∈ F1 \/ holds T ∅ q <-> q ∈ F \/ holds T U q) as Hc by apply Hst.
    split; [intros q; now rewrite HF'|]. intros q Hq Hn.
    eapply same_bytes_trans; [now apply Hst|]. apply Hs'; [done|]. now rewrite Hc.
Qed.
End userfork.
