(* ===== verification/VmSpec.v ===== *)
(** * kernel/vm.c: what the virtual memory code guarantees

    The theorems on vm.c over any page allocator that keeps the contract
    [PageAllocatorSpec], and their instances at a small machine whose
    allocator is kalloc.c. *)

From stdpp Require Import base gmap list numbers strings.
From S2P Require Import Prelude Mem StringC Spinlock Riscv Kalloc Vm PageTable UserMem UserCopy UserFork.

Open Scope Z_scope.

Section vmspec.
Context {St : Type} `{PA : PageAllocator St} `{PS : !PageAllocatorSpec St}.

#[local] Abbreviation vpage := (valid_page (S := St)).

(** ** Creating a space *)

Lemma root_pt_inv m root :
  vpage root -> (forall x, root <= x < root + PGSIZE -> rd m x = 0) ->
  pt_inv m root {[ [] := root ]}.
Proof.
  intros Hv Hz. split.
  - apply lookup_singleton_eq.
  - intros p a [<- <-]%lookup_singleton_Some. done.
  - intros p q a [<- _]%lookup_singleton_Some [<- _]%lookup_singleton_Some. done.
  - intros p i a [E _]%lookup_singleton_Some. now destruct p.
  - intros i p a [E _]%lookup_singleton_Some. done.
  - intros p a i [<- <-]%lookup_singleton_Some _ Hi. rewrite lookup_singleton_ne by done.
    rewrite load64_zero; [done|]. intros x Hx. apply Hz. pose proof (pte_in_page root i Hi). lia.
Qed.

Lemma uvmcreate_ok s F :
  pa_inv s F -> F ≠ ∅ ->
  exists root s', uvmcreate s = Ok root s' /\ root ∈ F /\
    uspace s' root {[ [] := root ]} (F ∖ {[root]}) ∅ /\
    (forall va, leaf {[ [] := root ]} (mem_of s') va = 0) /\
    frame_bytes (mem_of s) (mem_of s') root PGSIZE.
Proof.
  intros Ha Hne. destruct (pa_kalloc_some s F Ha Hne) as (root & s1 & Hk & Hr & Ha1 & Hf1).
  pose proof (pa_free_valid s F root Ha Hr) as Hv. pose proof (vpage_pos root Hv).
  destruct (zero_page s s1 F root Ha1 Hv Hf1) as (Ha2 & Hf2 & Hz).
  exists root, (set_mem (memset (mem_of s1) root 0 PGSIZE) s1).
  assert (forall m va, leaf {[ [] := root ]} m va = 0) as Hl0.
  { intros m va. unfold leaf. now rewrite lookup_singleton_ne. }
  split; [|split; [exact Hr|split; [|split; [auto|exact Hf2]]]].
  - unfold uvmcreate. rewrite (bind_ok _ _ _ _ _ Hk). now rewrite (proj2 (Z.eqb_neq root 0)) by lia.
  - split; try (intros *; rewrite lookup_empty; done).
    + split; [exact Ha2|now apply root_pt_inv|].
      intros p a [<- <-]%lookup_singleton_Some. rewrite in_minus. tauto.
    + intros va _. rewrite lookup_empty, Hl0. done.
Qed.

(** ** Mapping *)

(** A valid level-0 entry is where [walk] finds it. *)
Lemma leaf_entry s root T v x :
  pt_inv (mem_of s) root T -> 0 <= v < MAXVA -> leaf T (mem_of s) v = x -> truthy (Z.land x PTE_V) = true ->
  exists pte, walk root v false s = Ok pte s /\ pte <> 0 /\ load64 (mem_of s) pte = x.
Proof.
  intros Hpt Hv Hl Hx. rewrite leaf_slot in Hl. destruct (T !! path v) as [t|] eqn:Ht; [|now subst x].
  exists (slot T v). split; [apply (walk_hit s root T); eauto|]. split; [eapply slot_pos; eauto|done].
Qed.

Lemma uaddr_perm pg perm :
  pte_page pg -> pte_flags_ok perm -> Z.land perm PTE_U <> 0 -> uaddr (perm_pte pg perm) = pg.
Proof.
  intros Hpp Hf Hu. unfold uaddr. pose proof (perm_pte_valid _ perm Hpp Hf) as Hva. unfold truthy in Hva. zbool.
  rewrite (proj2 (Z.eqb_neq _ 0) Hva). cbn [orb].
  rewrite perm_pte_flags, perm_pte_pa by (done || (split; [now vm_compute|done])).
  rewrite Z.land_lor_distr_l, (proj2 (Z.eqb_neq (Z.lor _ _) 0)); [done|].
  intros [E _]%Z.lor_eq_0_iff. done.
Qed.

(** C6: [mappages] over a range that has no mapping returns 0 or -1, and -1
    only when the free pages are exhausted.  After 0, the entry that [walk] finds
    for an address of the range is made of its physical page, the permissions
    asked for and the valid bit, and no other; and [walkaddr] sends the address to
    that page if the permissions have the user bit.  Whatever the result, the
    entries of the addresses outside the range and what they translate to are as
    before, and no byte outside the free pages and the tables has changed. *)
Theorem mappages_translates s root T F va size pa perm :
  vm_inv s root T F -> va mod PGSIZE = 0 -> size mod PGSIZE = 0 ->
  0 <= va -> 0 < size -> va + size <= MAXVA ->
  pa mod PGSIZE = 0 -> 0 <= pa -> pa + size <= 2^54 -> pte_flags_ok perm ->
  (forall v, va <= v < va + size -> truthy (Z.land (leaf T (mem_of s) v) PTE_V) = false) ->
  exists r s' T' F', mappages root va size pa perm s = Ok r s' /\ grown root s T F s' T' F' /\
    (r = 0 /\ (forall v, va <= v < va + size ->
       let pg := pa + (v / PGSIZE - va / PGSIZE) * PGSIZE in
       (exists pte, walk root v false s' = Ok pte s' /\ pte <> 0 /\
          load64 (mem_of s') pte = Z.lor (PA2PTE pg) (Z.lor perm PTE_V)) /\
       (Z.land perm PTE_U <> 0 -> walkaddr root v s' = Ok pg s')) \/
     r = -1 /\ F' = ∅) /\
    (forall v, 0 <= v -> ~ (va <= v < va + size) ->
       (v < MAXVA -> leaf T' (mem_of s') v = leaf T (mem_of s) v) /\
       exists x, walkaddr root v s = Ok x s /\ walkaddr root v s' = Ok x s').
Proof.
  intros Hv Ha Hs Ha0 Hs0 HM Hp Hp0 Hp1 Hf Hun.
  destruct (mappages_ok s root T F va size pa perm) as (r & s' & T' & F' & k & Hm & Hg & _ & Hl & Hr);
    try done.
  pose proof (vm_pt _ _ _ _ Hv) as Hpt. pose proof (vm_pt _ _ _ _ (grown_inv _ _ _ _ _ _ _ Hg)) as Hpt'.
  exists r, s', T', F'. split; [exact Hm|]. split; [exact Hg|]. split.
  - destruct Hr as [[-> Hk]|(-> & _ & _ & HF)]; [left|right]; (split; [done|]); [|done].
    intros v Hvr pg. assert (pte_page pg) as Hpp by (unfold pg, pte_page, PGSIZE in *; dlia).
    assert (leaf T' (mem_of s') v = perm_pte pg perm) as Hlf.
    { rewrite Hl by lia. unfold mapped. now zdecide. }
    split; [exact (leaf_entry s' root T' v _ Hpt' ltac:(lia) Hlf (perm_pte_valid _ _ Hpp Hf))|].
    intros Hfu. rewrite (walkaddr_leaf s' root T') by (done || lia).
    rewrite (proj2 (Z.leb_gt MAXVA v)), Hlf by lia. now rewrite uaddr_perm.
  - intros v Hv0 Hvr. assert (v < MAXVA -> leaf T' (mem_of s') v = leaf T (mem_of s) v) as Hlf.
    { intros HvM. rewrite Hl by lia. unfold mapped. case_goal; zbool; [|done]. unfold PGSIZE in *. lia. }
    split; [exact Hlf|]. eexists. split; [now apply (walkaddr_leaf s root T)|].
    rewrite (walkaddr_leaf s' root T') by done. destruct (Z.leb_spec MAXVA v); [done|]. now rewrite Hlf.
Qed.

(** [mappages] never replaces a mapping, and checks its arguments: it
    panics if an address or a size is not a multiple of the page size, if the
    size is zero, and if the first page of the range is already mapped. *)
Theorem mappages_guards s root T va size pa perm :
  pt_inv (mem_of s) root T -> 0 <= va < MAXVA ->
  (va mod PGSIZE <> 0 -> mappages root va size pa perm s = Panic "mappages: va not aligned") /\
  (va mod PGSIZE = 0 -> size mod PGSIZE <> 0 ->
     mappages root va size pa perm s = Panic "mappages: size not aligned") /\
  (va mod PGSIZE = 0 -> mappages root va 0 pa perm s = Panic "mappages: size") /\
  (va mod PGSIZE = 0 -> size mod PGSIZE = 0 -> 0 < size ->
     truthy (Z.land (leaf T (mem_of s) va) PTE_V) = true ->
     mappages root va size pa perm s = Panic "mappages: remap").
Proof.
  intros Hi Hva. unfold mappages. repeat split.
  - intros H. now rewrite (proj2 (Z.eqb_neq _ 0) H).
  - intros -> H. now rewrite (proj2 (Z.eqb_neq _ 0) H).
  - intros ->. done.
  - intros Ha Hsz Hs Hv. rewrite Ha, Hsz. cbn [negb Z.eqb]. rewrite (proj2 (Z.eqb_neq size 0)) by lia.
    rewrite leaf_slot in Hv. destruct (T !! path va) as [t|] eqn:Ht; [|done].
    destruct (Z.to_nat (size / PGSIZE)) as [|n] eqn:En; [unfold PGSIZE in *; dlia|].
    cbn [mappages_loop].
    rewrite (bind_ok _ _ _ _ _ (walk_hit s root T va true Hi Hva ltac:(eauto))).
    rewrite (proj2 (Z.eqb_neq _ 0)) by (eapply slot_pos; eauto).
    erewrite bind_ok by reflexivity. now rewrite Hv.
Qed.

(** ** Growing, copying, freeing *)

(** If the user's pages are the same after an operation, the only pages it took
    are page tables, which stay in the tree. *)
Definition only_tables_taken (T : ptree) (F : gset Z) (T' : ptree) (F' : gset Z) : Prop :=
  F' ⊆ F /\ forall q, q ∈ F -> q ∉ F' -> exists p, T' !! p = Some q /\ T !! p = None.

Lemma ustep_tables root s T F U s' T' F' :
  uspace s root T F U -> ustep root s T F U s' T' F' U -> only_tables_taken T F T' F'.
Proof.
  intros Hu Hst. split.
  - intros q HF'. destruct (proj1 (st_conserve _ _ _ _ _ _ _ _ _ Hst q) (or_introl HF')) as [|Hh]; [done|]. exfalso.
    apply (us_apart _ _ _ _ _ q (st_space _ _ _ _ _ _ _ _ _ Hst) HF'). destruct Hh as [[p Hp]|Hh]; [|now right].
    left. exists p. exact (lookup_weaken _ _ _ _ Hp (st_tree _ _ _ _ _ _ _ _ _ Hst)).
  - intros q HF Hn. destruct (proj2 (st_conserve _ _ _ _ _ _ _ _ _ Hst q) (or_introl HF)) as [|[[p Hp]|Hh]]; [done| |].
    + exists p. split; [done|]. destruct (T !! p) as [a|] eqn:Ea; [|done]. exfalso. apply (us_apart _ _ _ _ _ q Hu HF).
      left. exists p. pose proof (lookup_weaken _ _ _ _ Ea (st_tree _ _ _ _ _ _ _ _ _ Hst)). congruence.
    + exfalso. apply (us_apart _ _ _ _ _ q Hu HF). now right.
Qed.

Lemma uvmalloc_ok s root T F U oldsz newsz xperm :
  uspace s root T F U -> sized U oldsz -> 0 <= oldsz <= newsz -> newsz <= TRAPFRAME ->
  pte_flags_ok xperm ->
  exists r s' T' F' U', uvmalloc root oldsz newsz xperm s = Ok r s' /\
    ustep root s T F U s' T' F' U' /\ (forall va, umem s' U' va = umem s U va) /\
    (r = newsz /\ sized U' newsz /\ U ⊆ U' /\
       (forall i x, U' !! i = Some x -> U !! i = None -> x.2 = uperm xperm) \/
     r = 0 /\ U' = U).
Proof.
  intros Hu Hs Ho Hn Hx. destruct UPAGES_eq as (EU & ET & _). unfold uvmalloc. zdecide.
  destruct (upages_spec oldsz ltac:(lia)) as (Eo & Ho1 & Ho2).
  destruct (upages_spec newsz ltac:(lia)) as (En & Hn1 & Hn2). rewrite Eo.
  set (k := Z.to_nat (upages newsz - upages oldsz)).
  assert (upages oldsz + Z.of_nat k = upages newsz) as Ek by (unfold PGSIZE in *; lia).
  destruct (uvmalloc_loop_ok k s root T F U (upages oldsz) (upages oldsz) newsz xperm
    (1 + Z.to_nat ((newsz - upages oldsz * PGSIZE + PGSIZE - 1) / PGSIZE)))
    as (r & s' & T' & F' & U' & Hl & Hst & He); try done; try lia; try (unfold PGSIZE in *; dlia).
  { intros i Hi. destruct (U !! i) eqn:E; [|done]. pose proof (proj1 (Hs i) ltac:(eauto)). lia. }
  exists r, s', T', F', U'. split; [exact Hl|]. split; [exact Hst|].
  destruct He as [Hum Hsub Hdom Hp|HU' Hum].
  - split; [exact Hum|]. left. split; [done|]. split; [|auto]. intros i. rewrite Hdom, (Hs i). lia.
  - rewrite drop_range_nil in HU' by lia. split; [|auto].
    intros va. rewrite Hum. case_goal; zbool; [lia|done].
Qed.

(** C8: [uvmalloc] is all or nothing for the user's pages.  It returns [newsz]
    with exactly the pages of [newsz] bytes mapped, the new ones zero and with the
    permissions asked for, or 0 with exactly the user pages of before; then the
    only pages that are no longer free are page tables that [walk] added, which
    stay in the process's page table.  In both cases the bytes the process could
    read are unchanged, no page is lost, and nothing outside the free pages and
    the space is written. *)
Theorem uvmalloc_all_or_nothing s root T F U oldsz newsz xperm :
  uspace s root T F U -> sized U oldsz -> 0 <= oldsz <= newsz -> newsz <= TRAPFRAME ->
  pte_flags_ok xperm ->
  exists r s' T' F' U', uvmalloc root oldsz newsz xperm s = Ok r s' /\
    ustep root s T F U s' T' F' U' /\ (forall va, umem s' U' va = umem s U va) /\
    (r = newsz /\ sized U' newsz /\ U ⊆ U' /\
       (forall i x, U' !! i = Some x -> U !! i = None -> x.2 = uperm xperm) \/
     r = 0 /\ U' = U /\ only_tables_taken T F T' F').
Proof.
  intros Hu Hs Ho Hn Hx.
  destruct (uvmalloc_ok s root T F U oldsz newsz xperm Hu Hs Ho Hn Hx) as (r & s' & T' & F' & U' & Ha & Hst & Hum & Hr).
  exists r, s', T', F', U'. split; [exact Ha|]. split; [exact Hst|]. split; [exact Hum|].
  destruct Hr as [Hr|[-> ->]]; [now left|right]. split; [done|]. split; [done|exact (ustep_tables _ _ _ _ _ _ _ _ Hu Hst)].
Qed.

(** [uvmdealloc] shrinks a space of [oldsz] bytes to [newsz]: exactly the
    pages of [newsz] bytes stay mapped, with their bytes, and the pages given
    up are free; a larger [newsz] changes nothing. *)
Theorem uvmdealloc_shrinks s root T F U oldsz newsz :
  uspace s root T F U -> sized U oldsz -> 0 <= newsz -> 0 <= oldsz <= TRAPFRAME ->
  (oldsz <= newsz -> uvmdealloc root oldsz newsz s = Ok oldsz s) /\
  (newsz < oldsz -> exists s' F' U', uvmdealloc root oldsz newsz s = Ok newsz s' /\
     ustep root s T F U s' T F' U' /\ sized U' newsz /\ U' ⊆ U /\
     (forall va, va / PGSIZE < upages newsz -> umem s' U' va = umem s U va) /\
     (forall i x, U !! i = Some x -> upages newsz <= i -> x.1 ∈ F')).
Proof.
  intros Hu Hs Hn Ho. split.
  { intros Hle. unfold uvmdealloc. now zdecide. }
  intros Hlt. destruct (upages_spec oldsz ltac:(lia)) as (_ & Ho1 & Ho2).
  destruct (upages_spec newsz ltac:(lia)) as (_ & Hn1 & Hn2).
  destruct (uvmdealloc_ok s root T F U oldsz newsz) as (s' & F' & Hd & Hst & Hum);
    [done|lia|lia|intros i Hi; apply Hs; lia|].
  exists s', F', (drop_range (upages newsz) (upages oldsz) U). split; [exact Hd|].
  split; [exact Hst|]. split; [|split; [|split]].
  - intros i. rewrite lookup_drop_range. case_goal; zbool.
    + split; [intros [? ?]; done|lia].
    + rewrite (Hs i). unfold PGSIZE in *. lia.
  - apply map_filter_subseteq.
  - intros va Hva. rewrite Hum. case_goal; zbool; [lia|done].
  - intros i [pa fl] Hi Hge. cbn. pose proof (proj1 (Hs i) ltac:(eauto)) as Hr.
    pose proof (proj2 (st_conserve _ _ _ _ _ _ _ _ _ Hst pa) ltac:(right; right; eauto)) as [HF|Hh]; [done|].
    exfalso. destruct Hh as [[p Hp]|(j & fl' & Hj)].
    + now apply (us_page _ _ _ _ _ Hu _ _ _ Hi) in Hp.
    + rewrite lookup_drop_range in Hj. destruct ((_ <=? j) && _) eqn:Eb; [done|].
      assert (i = j) as -> by (eapply us_inj; eauto). zbool. lia.
Qed.


(** C11: [uvmfree] gives back every page of a process: after it the free pages
    are those that were free, the user's pages and the pages of the page table
    itself, and no other page has been written. *)
Theorem uvmfree_returns_every_page s root T F U sz :
  uspace s root T F U -> sized U sz -> 0 <= sz <= TRAPFRAME ->
  (forall va, TRAPFRAME <= va < MAXVA -> Z.land (leaf T (mem_of s) va) PTE_V = 0) ->
  exists s' F', uvmfree root sz s = Ok tt s' /\ pa_inv s' F' /\
    (forall q, q ∈ F' <-> q ∈ F \/ holds T U q) /\
    (forall q, vpage q -> ~ (q ∈ F \/ holds T U q) -> same_bytes (mem_of s) (mem_of s') q PGSIZE).
Proof. apply uvmfree_ok. Qed.

(** ** Copies *)

(** C12: [copyout], for any 64-bit address and any length, writes user memory
    and nothing else.  It returns 0 exactly when every byte of the range is in a
    page the user may write, and then the [len] bytes at [dstva] are the kernel's
    bytes at [src]; otherwise it returns -1, also for addresses at or above the
    trapframe and above [MAXVA], having copied the bytes before the first page that
    the user may not write.  No other byte of the user's pages and no byte outside
    them is written. *)
Theorem copyout_writes_user_pages s root T F U dstva src len :
  uspace s root T F U -> kernel_above s T -> 0 <= len -> is_u64 dstva -> outside U src len ->
  exists r s' k, copyout root dstva src len s = Ok r s' /\ uspace s' root T F U /\ kernel_above s' T /\
    (r = 0 /\ k = len \/ r = -1 /\ 0 <= k < len /\ can_write U ((dstva + k) / PGSIZE) = false) /\
    (r = 0 <-> forall i, 0 <= i < len -> can_write U ((dstva + i) / PGSIZE) = true) /\
    (forall i, 0 <= i < k -> can_write U ((dstva + i) / PGSIZE) = true /\ umem s' U (dstva + i) = rd (mem_of s) (src + i)) /\
    (forall va, ~ (dstva <= va < dstva + k) -> umem s' U va = umem s U va) /\
    (forall a n, outside U a n -> same_bytes (mem_of s) (mem_of s') a n).
Proof.
  intros Hu Ha Hl Hd Ho.
  destruct (copyout_ok s root T F U dstva src len) as (r & s' & k & Hc & Hu' & Ha' & [Hb Hp Hres Hf]); try done.
  assert (forall i, 0 <= i < k -> can_write U ((dstva + i) / PGSIZE) = true) as Hw by (intros i Hi; apply Hp; lia).
  exists r, s', k. split; [exact Hc|]. split; [exact Hu'|]. split; [exact Ha'|]. split; [exact Hres|].
  split; [|split; [|split; [|exact Hf]]].
  - split; [intros ->; intros i Hi; apply Hw; lia|]. intros Hall. destruct Hres as [[-> _]|(_ & Hk & Hno)]; [done|].
    rewrite Hall in Hno by lia. done.
  - intros i Hi. split; [now apply Hw|]. rewrite Hb. zdecide. cbn [andb]. do 2 f_equal. lia.
  - intros va Hva. rewrite Hb. case_goal; zbool; [|done]. lia.
Qed.

(** What [copyout] writes, [copyin] reads back: if both succeed on the same
    user range the destination buffer holds the source buffer's bytes. *)
Theorem copyout_copyin_roundtrip s root T F U va src dst len s1 s2 :
  uspace s root T F U -> kernel_above s T -> 0 <= len -> 0 <= va -> va + len <= TRAPFRAME ->
  outside U src len -> kernel_buf T F U dst len ->
  copyout root va src len s = Ok 0 s1 -> copyin root dst va len s1 = Ok 0 s2 ->
  forall i, 0 <= i < len -> rd (mem_of s2) (dst + i) = rd (mem_of s) (src + i).
Proof.
  intros Hu Ha Hl Hv Hr Ho Hk H1 H2 i Hi.
  destruct (copyout_ok s root T F U va src len) as (r & s1' & k & Hc & Hu1 & _ & [Hb _ Hres _]); try done.
  { destruct UPAGES_eq as (EU & ET & _). unfold is_u64, PGSIZE in *. lia. }
  rewrite H1 in Hc. injection Hc as <- <-. assert (k = len) as -> by lia.
  destruct (copyin_ok s1 root T F U dst va len) as (r & s2' & k & Hc & _ & _ & [Hb2 _ Hres2]); try done.
  rewrite H2 in Hc. injection Hc as <- <-. assert (k = len) as -> by lia.
  rewrite Hb2. zdecide. cbn [andb]. rewrite Hb. zdecide. cbn [andb]. f_equal. lia.
Qed.

(** [copyinstr] returns 0 exactly when the user can read a string that
    ends within [max] bytes, and then copies that string with its NUL; it never
    writes past [max] bytes of the buffer. *)
Theorem copyinstr_terminated s root T F U dst srcva max :
  uspace s root T F U -> 0 <= max -> 0 <= srcva -> srcva + max <= TRAPFRAME ->
  kernel_buf T F U dst max ->
  let get i := umem s U (srcva + i) in
  exists r s' k, copyinstr root dst srcva max s = Ok r s' /\ uspace s' root T F U /\
    0 <= k <= max /\ bytes_copied (mem_of s) (mem_of s') dst k get /\
    (r = 0 /\ is_str get k \/ r = -1) /\
    (r = 0 <-> exists n, n <= max /\ is_str get n /\
       forall i, 0 <= i < n -> can_read U ((srcva + i) / PGSIZE) = true).
Proof.
  intros Hu Hm Hs Hr Hk get.
  destruct (copyinstr_loop_ok (copy_fuel max) s root T F U dst srcva max)
    as (r & s' & k & Hc & Hu' & _ & [Hb Hp Hl Hres]); try done.
  { unfold copy_fuel, PGSIZE. dlia. }
  exists r, s', k. split; [exact Hc|]. split; [exact Hu'|]. split; [exact Hl|]. split; [exact Hb|].
  split; [intuition|]. split.
  - intros ->. destruct Hres as [[_ Hstr]|[? _]]; [|done]. exists k. split; [lia|]. split; [done|].
    intros i Hi. apply Hp. lia.
  - intros (n & Hn & (Hn0 & Hz & Hnz) & Hread). destruct Hres as [[-> _]|(-> & Hno & Hend)]; [done|exfalso].
    assert (k < n) as Hlt.
    { destruct (Z.lt_ge_cases k n) as [|Hge]; [done|]. exfalso. exact (Hno (n - 1) ltac:(lia) Hz). }
    destruct Hend as [->|Hend]; [lia|]. rewrite Hread in Hend by lia. done.
Qed.

(** A second space next to the first. *)
Lemma uvmcreate_apart s old T1 F U1 :
  uspace s old T1 F U1 -> F ≠ ∅ ->
  exists new s', uvmcreate s = Ok new s' /\ new ∈ F /\
    uspace s' old T1 (F ∖ {[new]}) U1 /\ uspace s' new {[ [] := new ]} (F ∖ {[new]}) ∅ /\
    apart_spaces T1 U1 {[ [] := new ]} ∅ /\ (forall va, umem s' U1 va = umem s U1 va).
Proof.
  intros Hu Hne.
  destruct (uvmcreate_ok s F (vm_alloc _ _ _ _ (us_vm _ _ _ _ _ Hu)) Hne) as (new & s' & Hc & Hn & Hu' & _ & Hf).
  assert (forall q, holds T1 U1 q -> same_bytes (mem_of s) (mem_of s') q PGSIZE) as Hs.
  { intros q Hq. apply (page_frame _ _ new); [|eapply us_valid; [exact Hu|now right]| |exact Hf].
    - eapply us_valid; [exact Hu|now left].
    - intros ->. exact (us_apart _ _ _ _ _ new Hu Hn Hq). }
  exists new, s'. split; [exact Hc|]. split; [exact Hn|]. split; [|split; [exact Hu'|split]].
  - eapply us_frame; [exact Hu|apply Hu'| |].
    + intros q [HF _]%in_minus. exact (us_apart _ _ _ _ _ q Hu HF).
    + intros p a Hp. apply Hs. left. eauto.
  - intros q Hq [[p Hp]|(n & fl & H)]; [|now rewrite lookup_empty in H].
    apply lookup_singleton_Some in Hp as [_ <-]. exact (us_apart _ _ _ _ _ new Hu Hn Hq).
  - intros va. apply umem_same. intros n pa fl H. apply Hs. right. eauto.
Qed.
End vmspec.

(** ** Witnesses: a machine with sixteen pages and kalloc.c's allocator *)

Definition vm_kend : Z := PHYSTOP - 16 * 4096.
#[local] Instance vm_pa : PageAllocator kstate := kmem_allocator vm_kend.
#[local] Instance vm_ps : PageAllocatorSpec kstate := kmem_allocator_spec vm_kend ltac:(done).

Definition result {A} (o : outcome kstate A) : option A :=
  match o with Ok a _ => Some a | _ => None end.

(** Free the sixteen pages and make a page table. *)
Definition vm_boot : M kstate Z := freerange_loop vm_kend 17 vm_kend PHYSTOP;; uvmcreate.

(** The same, with 5000 bytes of user memory. *)
Definition vm_proc : M kstate Z :=
  root ← vm_boot; r ← uvmalloc root 0 5000 PTE_W; if r =? 5000 then mret root else mret 0.

Lemma vm_proc_steps s0 root s r s' :
  vm_boot s0 = Ok root s -> uvmalloc root 0 5000 PTE_W s = Ok r s' ->
  vm_proc s0 = if r =? 5000 then Ok root s' else Ok 0 s'.
Proof.
  intros Hb Ha. unfold vm_proc. rewrite (bind_ok _ _ _ _ _ Hb), (bind_ok _ _ _ _ _ Ha).
  now destruct (r =? 5000).
Qed.

Lemma vm_proc_runs : result (vm_proc demo_kstate) <> Some 0.
Proof. vm_compute. discriminate. Qed.

Lemma vm_proc_more : result ((_ ← vm_proc; uvmcreate) demo_kstate) <> Some 0.
Proof. vm_compute. discriminate. Qed.

(** A process that was made with pages to spare. *)
Lemma vm_proc_free s0 root s T F U :
  result ((_ ← vm_proc; uvmcreate) s0) <> Some 0 -> vm_proc s0 = Ok root s ->
  uspace s root T F U -> F ≠ ∅.
Proof.
  intros Hr Hp Hu ->. rewrite (bind_ok _ _ _ _ _ Hp) in Hr. apply Hr. unfold uvmcreate.
  destruct (pa_kalloc_none s (vm_alloc _ _ _ _ (us_vm _ _ _ _ _ Hu))) as (s' & Hk & _).
  now rewrite (bind_ok _ _ _ _ _ Hk).
Qed.

Lemma vm_boot_ok : exists root s F, vm_boot demo_kstate = Ok root s /\
  uspace s root {[ [] := root ]} F ∅ /\ forall va, leaf {[ [] := root ]} (mem_of s) va = 0.
Proof.
  assert (kinv vm_kend demo_kstate []) as H0 by (split; [done|constructor|constructor|done]).
  destruct (freerange_loop_kinv vm_kend eq_refl 16 17 vm_kend PHYSTOP demo_kstate [] H0)
    as (s & Hf & Hi & _);
    [reflexivity|reflexivity|reflexivity|split; reflexivity|lia|intros q []%not_elem_of_nil|].
  destruct (uvmcreate_ok s (list_to_set (reverse (page_run vm_kend 16) ++ [])))
    as (root & s' & Hc & _ & Hu & Hl & _).
  { exists (reverse (page_run vm_kend 16) ++ []). split; [exact Hi|done]. }
  { apply (non_empty_inhabited_L vm_kend), elem_of_list_to_set.
    rewrite app_nil_r, elem_of_reverse. left. }
  eexists root, s', _. unfold vm_boot. rewrite (bind_ok _ _ _ _ _ Hf). eauto.
Qed.

Lemma vm_proc_ok : exists root s T F U, F ≠ ∅ /\ uspace s root T F U /\ sized U 5000 /\
  (forall va, TRAPFRAME <= va < MAXVA -> leaf T (mem_of s) va = 0) /\
  (forall i x, U !! i = Some x -> x.2 = uperm PTE_W).
Proof.
  destruct vm_boot_ok as (root & s & F & Hb & Hu & Hl).
  destruct (uvmalloc_ok s root {[ [] := root ]} F ∅ 0 5000 PTE_W) as (r & s' & T' & F' & U' & Ha & Hst & _ & Hr);
    [exact Hu| |lia|vm_compute; congruence|vm_compute; split; congruence|].
  { intros i. rewrite lookup_empty. change (upages 0) with 0. split; [intros [? ?]; done|lia]. }
  pose proof (vm_proc_steps _ _ _ _ _ Hb Ha) as Hp. pose proof vm_proc_runs as Hrun.
  rewrite Hp in Hrun. clear Hb. destruct Hr as [(-> & Hs & _ & Hperm)|[-> _]]; [|now destruct Hrun].
  exists root, s', T', F', U'.
  split; [exact (vm_proc_free _ root s' T' F' U' vm_proc_more Hp (st_space _ _ _ _ _ _ _ _ _ Hst))|].
  split; [apply Hst|]. split; [exact Hs|]. split.
  - intros va Hva. rewrite (st_above _ _ _ _ _ _ _ _ _ Hst) by done. apply Hl.
  - intros i x Hi. apply (Hperm i x Hi), lookup_empty.
Qed.

Lemma mappages_translates_witness : exists root s T F,
  vm_inv s root T F /\
  exists r s' T' F', mappages root 0x40000000 8192 0x87000000 (uperm 0) s = Ok r s' /\
    grown root s T F s' T' F' /\
    (r = 0 /\ walkaddr root 0x40001234 s' = Ok 0x87001000 s' /\
       (exists pte, walk root 0x40001234 false s' = Ok pte s' /\
          load64 (mem_of s') pte = Z.lor (PA2PTE 0x87001000) (Z.lor (uperm 0) PTE_V)) \/
     r = -1 /\ F' = ∅).
Proof.
  destruct vm_boot_ok as (root & s & F & _ & Hu & Hl). exists root, s, {[ [] := root ]}, F.
  split; [apply Hu|].
  destruct (mappages_translates s root {[ [] := root ]} F 0x40000000 8192 0x87000000 (uperm 0))
    as (r & s' & T' & F' & Hm & Hg & Hr & _);
    [apply Hu|reflexivity|reflexivity|lia|lia|vm_compute; congruence|reflexivity|lia|lia|
     vm_compute; split; congruence|intros v _; now rewrite Hl|].
  exists r, s', T', F'. split; [exact Hm|]. split; [exact Hg|].
  destruct Hr as [[-> Hw]|Hr]; [left|now right]. split; [done|].
  destruct (Hw 0x40001234 ltac:(lia)) as ((pte & Hwk & _ & Hld) & Hwa).
  split; [exact (Hwa ltac:(vm_compute; congruence))|]. exists pte. exact (conj Hwk Hld).
Defined.

Lemma mappages_guards_witness : exists root s,
  mappages root 4097 4096 0x87000000 0 s = Panic "mappages: va not aligned" /\
  mappages root 4096 0 0x87000000 0 s = Panic "mappages: size".
Proof.
  destruct vm_boot_ok as (root & s & F & _ & Hu & _). exists root, s.
  pose proof (vm_pt _ _ _ _ (us_vm _ _ _ _ _ Hu)) as Hpt. split.
  - apply (mappages_guards s root {[ [] := root ]} 4097 4096 0x87000000 0 Hpt); [split; reflexivity || (vm_compute; congruence)|discriminate].
  - apply (mappages_guards s root {[ [] := root ]} 4096 4096 0x87000000 0 Hpt); [split; reflexivity || (vm_compute; congruence)|reflexivity].
Defined.

Lemma uvmalloc_all_or_nothing_witness : exists root s T F U r s' T' F' U',
  uspace s root T F U /\ sized U 5000 /\
  uvmalloc root 5000 20000 PTE_W s = Ok r s' /\ ustep root s T F U s' T' F' U'.
Proof.
  destruct vm_proc_ok as (root & s & T & F & U & _ & Hu & Hs & _).
  destruct (uvmalloc_all_or_nothing s root T F U 5000 20000 PTE_W)
    as (r & s' & T' & F' & U' & Ha & Hst & _);
    [exact Hu|exact Hs|lia|vm_compute; congruence|vm_compute; split; congruence|].
  exists root, s, T, F, U, r, s', T', F', U'. auto.
Defined.

Lemma uvmdealloc_shrinks_witness : exists root s T F U s' F' U',
  uspace s root T F U /\ sized U 5000 /\
  uvmdealloc root 5000 100 s = Ok 100 s' /\ ustep root s T F U s' T F' U' /\ sized U' 100.
Proof.
  destruct vm_proc_ok as (root & s & T & F & U & _ & Hu & Hs & _).
  destruct (uvmdealloc_shrinks s root T F U 5000 100) as [_ H];
    [exact Hu|exact Hs|lia|split; vm_compute; congruence|].
  destruct (H ltac:(lia)) as (s' & F' & U' & Hd & Hst & Hs' & _).
  exists root, s, T, F, U, s', F', U'. auto 10.
Defined.


Lemma uvmfree_returns_every_page_witness : exists root s T F U s' F',
  uspace s root T F U /\ sized U 5000 /\ uvmfree root 5000 s = Ok tt s' /\ pa_inv s' F'.
Proof.
  destruct vm_proc_ok as (root & s & T & F & U & _ & Hu & Hs & Hab & _).
  destruct (uvmfree_returns_every_page s root T F U 5000) as (s' & F' & Hf & Ha & _);
    [exact Hu|exact Hs|split; vm_compute; congruence|intros va Hva; now rewrite Hab|].
  exists root, s, T, F, U, s', F'. auto.
Defined.

(** The kernel's image is below the pages. *)
Lemma vm_kernel_buf s root T F U a n :
  uspace s root T F U -> a + n <= vm_kend -> outside U a n /\ kernel_buf T F U a n.
Proof.
  intros Hu Ha.
  assert (forall q, q ∈ F \/ holds T U q -> a + n <= q) as Hq.
  { intros q [_ [Hq _]]%(us_valid _ _ _ _ _ q Hu). lia. }
  split.
  - intros i pa fl Hi. left. apply Hq. right. right. eauto.
  - intros q Hin. left. auto.
Qed.

Lemma vm_writable U n :
  (forall i x, U !! i = Some x -> x.2 = uperm PTE_W) -> sized U 5000 -> 0 <= n < 2 ->
  can_write U n = true /\ can_read U n = true.
Proof.
  intros Hp Hs Hn. destruct (proj2 (Hs n)) as [[pa fl] Hx]; [change (upages 5000) with 2; lia|].
  pose proof (Hp n _ Hx) as E. cbn in E. subst fl.
  unfold can_write, can_read, uflag. rewrite Hx. done.
Qed.

(** A copy of 500 bytes across a page boundary succeeds; a copy to [MAXVA] does not. *)
Lemma copyout_writes_user_pages_witness : exists root s T F U s' s'',
  uspace s root T F U /\ copyout root 4000 KERNBASE 500 s = Ok 0 s' /\
  umem s' U (4000 + 499) = rd (mem_of s) (KERNBASE + 499) /\
  copyout root MAXVA KERNBASE 500 s = Ok (-1) s''.
Proof.
  destruct vm_proc_ok as (root & s & T & F & U & _ & Hu & Hs & Hab & Hp).
  destruct (vm_kernel_buf s root T F U KERNBASE 500 Hu ltac:(vm_compute; congruence)) as [Ho _].
  assert (kernel_above s T) as Ha by (intros va Hva; now rewrite Hab).
  destruct (copyout_writes_user_pages s root T F U 4000 KERNBASE 500) as (r & s' & k & Hc & _ & _ & Hr & Hiff & Hb & _);
    [exact Hu|exact Ha|lia|unfold is_u64; lia|exact Ho|].
  destruct (copyout_writes_user_pages s root T F U MAXVA KERNBASE 500) as (r2 & s2 & k2 & Hc2 & _ & _ & Hr2 & Hiff2 & _);
    [exact Hu|exact Ha|lia|split; vm_compute; congruence|exact Ho|].
  assert (r = 0) as ->.
  { apply Hiff. intros i Hi. apply (vm_writable U _ Hp Hs). unfold PGSIZE. dlia. }
  assert (r2 = -1) as ->.
  { destruct Hr2 as [[-> _]|[-> _]]; [|done]. pose proof (proj1 Hiff2 eq_refl 0 ltac:(lia)) as Hw.
    now rewrite (can_write_above s root T F U _ Hu) in Hw by (vm_compute; congruence). }
  exists root, s, T, F, U, s', s2. split; [exact Hu|]. split; [exact Hc|]. split; [|exact Hc2].
  apply (Hb 499). lia.
Defined.

Lemma copyout_copyin_roundtrip_witness : exists root s s1 s2,
  copyout root 4000 KERNBASE 500 s = Ok 0 s1 /\
  copyin root (KERNBASE + 1000) 4000 500 s1 = Ok 0 s2 /\
  rd (mem_of s2) (KERNBASE + 1000 + 7) = rd (mem_of s) (KERNBASE + 7).
Proof.
  destruct vm_proc_ok as (root & s & T & F & U & _ & Hu & Hs & Hab & Hp).
  assert (kernel_above s T) as Ha by (intros va Hva; now rewrite Hab).
  destruct (vm_kernel_buf s root T F U KERNBASE 500 Hu ltac:(vm_compute; congruence)) as [Ho _].
  destruct (vm_kernel_buf s root T F U (KERNBASE + 1000) 500 Hu ltac:(vm_compute; congruence)) as [_ Hk].
  assert (4000 + 500 <= TRAPFRAME) as Hr by (vm_compute; congruence).
  destruct (copyout_ok s root T F U 4000 KERNBASE 500) as (r & s1 & k & Hc & Hu1 & _ & [_ _ Hres _]);
    [exact Hu|exact Ha|lia|unfold is_u64; lia|exact Ho|].
  destruct (copyin_ok s1 root T F U (KERNBASE + 1000) 4000 500) as (r2 & s2 & k2 & Hc2 & _ & _ & [_ _ Hres2]);
    [exact Hu1|lia|lia|exact Hr|exact Hk|].
  assert (r = 0) as ->.
  { destruct Hres as [[-> _]|(_ & Hk1 & Hw)]; [done|].
    destruct (vm_writable U ((4000 + k) / PGSIZE) Hp Hs) as [E _]; [unfold PGSIZE; dlia|congruence]. }
  assert (r2 = 0) as ->.
  { destruct Hres2 as [[-> _]|(_ & Hk1 & Hw)]; [done|].
    destruct (vm_writable U ((4000 + k2) / PGSIZE) Hp Hs) as [_ E]; [unfold PGSIZE; dlia|congruence]. }
  exists root, s, s1, s2. split; [exact Hc|]. split; [exact Hc2|].
  exact (copyout_copyin_roundtrip s root T F U 4000 KERNBASE (KERNBASE + 1000) 500 s1 s2
    Hu Ha ltac:(lia) ltac:(lia) Hr Ho Hk Hc Hc2 7 ltac:(lia)).
Defined.

Lemma copyinstr_terminated_witness : exists root s T F U r s' k,
  uspace s root T F U /\ copyinstr root KERNBASE 4000 128 s = Ok r s' /\ 0 <= k <= 128.
Proof.
  destruct vm_proc_ok as (root & s & T & F & U & _ & Hu & _).
  destruct (vm_kernel_buf s root T F U KERNBASE 128 Hu ltac:(vm_compute; congruence)) as [_ Hk].
  destruct (copyinstr_terminated s root T F U KERNBASE 4000 128) as (r & s' & k & Hc & _ & Hl & _);
    [exact Hu|lia|lia|vm_compute; congruence|exact Hk|].
  exists root, s, T, F, U, r, s', k. auto.
Defined.
