(* ===== verification/Bio.v ===== *)
(** * kernel/bio.c: the buffer cache, operations

    The cache is an array of NBUF buffers on a doubly linked list ordered by
    last use; the links are modelled as the code has them.  Pointers to
    buffers are indices, [head] is the list head.  The disk is what
    [disk_rw] reads and writes, a map from block numbers to blocks;
    [bs_writes] records the writes in order, so that a crash can be placed
    between any two of them. *)

From stdpp Require Import base gmap list numbers strings functions.
From S2P Require Import Prelude Spinlock Locks.

Open Scope Z_scope.

Definition BSIZE : Z := 1024.
Definition MAXOPBLOCKS : Z := 10.
Definition LOGSIZE : Z := MAXOPBLOCKS * 3.
Definition NBUF : Z := MAXOPBLOCKS * 3.

(** The bytes of a block. *)
Abbreviation block := (list Z).

Record buf := Buf {
  b_valid : Z;
  b_dev : Z;
  b_blockno : Z;
  b_lock : sleeplock;
  b_refcnt : Z;
  b_data : block;
}.

Record bstate := BState {
  bs_held : gset lockid;
  bs_pid : Z;
  bs_buf : Z -> buf;
  bs_next : Z -> Z;
  bs_prev : Z -> Z;
  bs_disk : Z -> block;
  bs_writes : list (Z * block);
}.

#[export] Instance bstate_thread : Thread bstate :=
  {| held := Field bs_held (fun h s =>
       BState h (bs_pid s) (bs_buf s) (bs_next s) (bs_prev s) (bs_disk s) (bs_writes s));
     mypid := bs_pid |}.

(** [&bcache.head] *)
Definition head : Z := NBUF.

Definition bcache_lock : lockid := ("bcache"%string, 0).
Definition buf_spin (b : Z) : lockid := ("sleep lock"%string, b).

Definition set_bufs (f : Z -> buf) (s : bstate) : bstate :=
  BState (bs_held s) (bs_pid s) f (bs_next s) (bs_prev s) (bs_disk s) (bs_writes s).
Definition set_links (nx pv : Z -> Z) (s : bstate) : bstate :=
  BState (bs_held s) (bs_pid s) (bs_buf s) nx pv (bs_disk s) (bs_writes s).

(** [b->f = ...] *)
Definition upd_buf (b : Z) (f : buf -> buf) : M bstate unit :=
  modify (fun s => set_bufs (<[b := f (bs_buf s b)]> (bs_buf s)) s).

Definition set_next (b v : Z) : M bstate unit :=
  modify (fun s => set_links (<[b := v]> (bs_next s)) (bs_prev s) s).
Definition set_prev (b v : Z) : M bstate unit :=
  modify (fun s => set_links (bs_next s) (<[b := v]> (bs_prev s)) s).

Definition set_valid (v : Z) (b : buf) : buf :=
  Buf v (b_dev b) (b_blockno b) (b_lock b) (b_refcnt b) (b_data b).
Definition set_lock (l : sleeplock) (b : buf) : buf :=
  Buf (b_valid b) (b_dev b) (b_blockno b) l (b_refcnt b) (b_data b).
Definition set_refcnt (n : Z) (b : buf) : buf :=
  Buf (b_valid b) (b_dev b) (b_blockno b) (b_lock b) n (b_data b).
Definition set_data (d : block) (b : buf) : buf :=
  Buf (b_valid b) (b_dev b) (b_blockno b) (b_lock b) (b_refcnt b) d.

(** [&b->lock] *)
Definition buf_lock (b : Z) : field bstate sleeplock :=
  Field (fun s => b_lock (bs_buf s b))
        (fun l s => set_bufs (<[b := set_lock l (bs_buf s b)]> (bs_buf s)) s).

(** What [virtio_disk_rw] promises: the transfer, and the disk write recorded. *)
Definition disk_rw (b : Z) (write : bool) : M bstate unit :=
  if write then
    modify (fun s =>
      let no := b_blockno (bs_buf s b) in
      let d := b_data (bs_buf s b) in
      BState (bs_held s) (bs_pid s) (bs_buf s) (bs_next s) (bs_prev s)
        (<[no := d]> (bs_disk s)) (bs_writes s ++ [(no, d)]))
  else
    modify (fun s =>
      set_bufs (<[b := set_data (bs_disk s (b_blockno (bs_buf s b))) (bs_buf s b)]> (bs_buf s)) s).

(** One round of the loop of [binit]. *)
Definition binit_buf (b : Z) : M bstate unit :=
  n ← gets (fun s => bs_next s head);
  set_next b n;;
  set_prev b head;;
  modify (fun s => fset (buf_lock b) (initsleeplock "buffer") s);;
  n ← gets (fun s => bs_next s head);
  set_prev n b;;
  set_next head b.

Definition binit : M bstate unit :=
  set_prev head head;;
  set_next head head;;
  for_loop (Z.to_nat NBUF) 0 binit_buf.

(** [for(b = ...; b != &bcache.head; b = b->link) if(p(b)) break;]: the first
    buffer with [p], or [head].  The list has NBUF buffers. *)
Fixpoint scan (link : bstate -> Z -> Z) (p : buf -> bool) (fuel : nat) (b : Z) : M bstate Z :=
  match fuel with
  | O => diverge
  | S fuel' =>
      if b =? head then mret head else
      x ← gets (fun s => bs_buf s b);
      if p x then mret b
      else (b' ← gets (fun s => link s b); scan link p fuel' b')
  end.

Definition scan_fuel : nat := S (Z.to_nat NBUF).

Definition bget (dev blockno : Z) : M bstate Z :=
  lock bcache_lock;;
  b ← gets (fun s => bs_next s head);
  b ← scan bs_next (fun x => (b_dev x =? dev) && (b_blockno x =? blockno)) scan_fuel b;
  if negb (b =? head) then
    upd_buf b (fun x => set_refcnt (u32 (b_refcnt x + 1)) x);;
    unlock bcache_lock;;
    acquiresleep (buf_lock b) (buf_spin b);;
    mret b
  else
    b ← gets (fun s => bs_prev s head);
    b ← scan bs_prev (fun x => b_refcnt x =? 0) scan_fuel b;
    if negb (b =? head) then
      upd_buf b (fun x => Buf 0 dev blockno (b_lock x) 1 (b_data x));;
      unlock bcache_lock;;
      acquiresleep (buf_lock b) (buf_spin b);;
      mret b
    else panic "bget: no buffers".

Definition bread (dev blockno : Z) : M bstate Z :=
  b ← bget dev blockno;
  v ← gets (fun s => b_valid (bs_buf s b));
  (if v =? 0 then disk_rw b false;; upd_buf b (set_valid 1) else mret tt);;
  mret b.

Definition bwrite (b : Z) : M bstate unit :=
  h ← holdingsleep (buf_lock b) (buf_spin b);
  if negb h then panic "bwrite" else disk_rw b true.

(** [b->next->prev = b->prev; ...; bcache.head.next = b;] *)
Definition move_front (b : Z) : M bstate unit :=
  bn ← gets (fun s => bs_next s b);
  bp ← gets (fun s => bs_prev s b);
  set_prev bn bp;;
  bp ← gets (fun s => bs_prev s b);
  bn ← gets (fun s => bs_next s b);
  set_next bp bn;;
  hn ← gets (fun s => bs_next s head);
  set_next b hn;;
  set_prev b head;;
  hn ← gets (fun s => bs_next s head);
  set_prev hn b;;
  set_next head b.

Definition brelse (b : Z) : M bstate unit :=
  h ← holdingsleep (buf_lock b) (buf_spin b);
  if negb h then panic "brelse" else
  releasesleep (buf_lock b) (buf_spin b);;
  lock bcache_lock;;
  upd_buf b (fun x => set_refcnt (u32 (b_refcnt x - 1)) x);;
  n ← gets (fun s => b_refcnt (bs_buf s b));
  (if n =? 0 then move_front b else mret tt);;
  unlock bcache_lock.

Definition bpin (b : Z) : M bstate unit :=
  lock bcache_lock;;
  upd_buf b (fun x => set_refcnt (u32 (b_refcnt x + 1)) x);;
  unlock bcache_lock.

Definition bunpin (b : Z) : M bstate unit :=
  lock bcache_lock;;
  upd_buf b (fun x => set_refcnt (u32 (b_refcnt x - 1)) x);;
  unlock bcache_lock.
