(* ===== verification/Bcache.v ===== *)
(** * kernel/bio.c: the list of buffers

    The linked list of the cache as a Coq list: what the loops of [bget]
    find on it, and that [brelse]'s six assignments move a buffer to the
    front. *)

From stdpp Require Import base gmap numbers strings functions list.
From Stdlib Require Import ZifyBool.
From S2P Require Import Prelude Spinlock Locks Bio.

Open Scope Z_scope.

(** ** Doubly linked lists *)

(** From [x] the links lead through [l] to [z], and back. *)
Fixpoint chain (nx pv : Z -> Z) (x : Z) (l : list Z) (z : Z) : Prop :=
  match l with
  | [] => nx x = z /\ pv z = x
  | y :: l' => nx x = y /\ pv y = x /\ chain nx pv y l' z
  end.

Lemma chain_app nx pv x l1 y l2 z :
  chain nx pv x (l1 ++ y :: l2) z <-> chain nx pv x l1 y /\ chain nx pv y l2 z.
Proof.
  revert x; induction l1 as [|a l1 IH]; intros x; cbn; [tauto|]. rewrite IH. tauto.
Qed.

Lemma chain_ext nx pv nx' pv' x l z :
  (forall a, a = x \/ a ∈ l -> nx' a = nx a) -> (forall a, a = z \/ a ∈ l -> pv' a = pv a) ->
  chain nx pv x l z -> chain nx' pv' x l z.
Proof.
  revert x; induction l as [|y l IH]; intros x Hn Hp; cbn.
  - intros [H1 H2]. rewrite Hn, Hp by auto. auto.
  - intros (H1 & H2 & H3). rewrite Hn by auto. rewrite Hp by (right; left).
    split; [done|]. split; [done|]. apply IH; [|intros a [->|Ha]; apply Hp|done].
    + intros a [->|Ha]; apply Hn; right; [left|now right].
    + now left.
    + right. now right.
Qed.

Lemma last_in (l : list Z) x : List.last l x = x \/ List.last l x ∈ l.
Proof.
  destruct l as [|q l _] using rev_ind; [now left|]. rewrite List.last_last. right. set_solver.
Qed.

Lemma last_default (l : list Z) a d d' : List.last (a :: l) d = List.last (a :: l) d'.
Proof. revert a; induction l as [|b l IH]; intros a; [done|apply (IH b)]. Qed.

(** The neighbours of [b]. *)
Lemma chain_pv nx pv x l b : chain nx pv x l b -> pv b = List.last l x.
Proof.
  revert x; induction l as [|y l IH]; intros x; cbn [chain]; [now intros [_ ?]|].
  intros (_ & _ & H). rewrite (IH _ H). destruct l as [|a l]; [done|]. exact (last_default l a y x).
Qed.

Lemma chain_nx nx pv b l z : chain nx pv b l z -> nx b = hd z l.
Proof. destruct l; cbn; tauto. Qed.

(** Linking two chains. *)
Lemma chain_join nx pv x l1 l2 z :
  NoDup (l1 ++ l2) -> x ∉ l1 ++ l2 -> z ∉ l1 ++ l2 ->
  (forall b, b ∉ l1 ++ l2 -> b <> x -> b <> z ->
     chain nx pv x l1 b -> chain nx pv b l2 z ->
     let p := List.last l1 x in let n := hd z l2 in
     chain (<[p := n]> nx) (<[n := p]> pv) x (l1 ++ l2) z).
Proof.
  intros Hnd Hx Hz b Hb Hbx Hbz H1 H2 p n.
  assert (forall a, a ∈ l1 -> a ∉ l2) as Hdis by (apply NoDup_app in Hnd; tauto).
  apply NoDup_app in Hnd as (Hnd1 & _ & Hnd2).
  assert (chain (<[p := n]> nx) (<[n := p]> pv) p l2 z) as Hr.
  { unfold n. destruct l2 as [|y l2]; cbn [hd chain] in *; rewrite !fn_lookup_insert; [done|].
    destruct H2 as (_ & _ & H2). split; [done|]. split; [done|].
    assert (p ∉ y :: l2).
    { destruct (last_in l1 x) as [E|E]; fold p in E; [rewrite E; set_solver|now apply Hdis]. }
    eapply chain_ext; [| |exact H2]; intros a Ha; apply fn_lookup_insert_ne.
    - intros ->. destruct Ha as [->|Ha]; set_solver.
    - apply NoDup_cons in Hnd2 as [Hy _]. intros ->. destruct Ha as [->|Ha]; set_solver. }
  destruct l1 as [|q l1 _] using rev_ind; [exact Hr|].
  unfold p in *. rewrite List.last_last in *.
  rewrite <- app_assoc. cbn [app]. apply chain_app. split; [|exact Hr].
  apply chain_app in H1 as [H1 _]. apply NoDup_app in Hnd1 as (_ & Hq & _).
  eapply chain_ext; [| |exact H1]; intros a Ha; apply fn_lookup_insert_ne.
  - intros ->. destruct Ha as [->|Ha]; [set_solver|]. apply (Hq _ Ha). left.
  - unfold n. intros E. subst a. destruct l2 as [|y l2]; cbn in Ha; [destruct Ha as [->|Ha]; set_solver|].
    destruct Ha as [Ha|Ha]; [apply (Hdis y); set_solver|]. apply (Hdis y); set_solver.
Qed.

(** Putting [b] at the front. *)
Lemma chain_push nx pv h b l :
  chain nx pv h l h -> b <> h -> b ∉ l -> h ∉ l -> NoDup l ->
  chain (<[h := b]> (<[b := nx h]> nx)) (<[nx h := b]> (<[b := h]> pv)) h (b :: l) h.
Proof.
  intros Hc Hb Hbl Hhl Hnd. cbn [chain]. rewrite fn_lookup_insert.
  assert (nx h <> b) as Hn by (rewrite (chain_nx _ _ _ _ _ Hc); destruct l; set_solver).
  split; [done|]. split; [now rewrite fn_lookup_insert_ne, fn_lookup_insert|].
  destruct l as [|y l]; cbn [chain] in *.
  - destruct Hc as [-> _]. rewrite fn_lookup_insert_ne, !fn_lookup_insert by done. done.
  - destruct Hc as (-> & _ & Hc). rewrite fn_lookup_insert_ne, !fn_lookup_insert by done.
    split; [done|]. split; [done|]. apply NoDup_cons in Hnd as [Hy _].
    eapply chain_ext; [| |exact Hc]; intros a Ha; rewrite !fn_lookup_insert_ne; try done;
      intros ->; destruct Ha as [?|Ha]; subst; set_solver.
Qed.

(** ** The list of the cache *)

(** The buffers in the order of the list, the most recently used first. *)
Definition ring (s : bstate) (o : list Z) : Prop :=
  chain (bs_next s) (bs_prev s) head o head /\ NoDup o /\ (head ∉ o).

Lemma ring_links s s' o :
  bs_next s' = bs_next s -> bs_prev s' = bs_prev s -> ring s o -> ring s' o.
Proof. intros Hn Hp. unfold ring. now rewrite Hn, Hp. Qed.

Lemma move_front_ok s l1 b l2 :
  ring s (l1 ++ b :: l2) ->
  exists nx pv, move_front b s = Ok tt (set_links nx pv s) /\
    ring (set_links nx pv s) (b :: l1 ++ l2).
Proof.
  intros (Hc & Hnd & Hh). assert (NoDup (l1 ++ l2) /\ b ∉ l1 ++ l2) as [Hnd' Hb].
  { rewrite <- (Permutation_middle l1 l2 b) in Hnd. now apply NoDup_cons in Hnd as [? ?]. }
  assert (b <> head /\ head ∉ l1 ++ l2) as [Hbh Hh'] by set_solver.
  apply chain_app in Hc as [H1 H2].
  pose proof (chain_pv _ _ _ _ _ H1) as Ep. pose proof (chain_nx _ _ _ _ _ H2) as En.
  pose proof (chain_join _ _ head l1 l2 head Hnd' Hh' Hh' b Hb Hbh Hbh H1 H2) as Hj.
  cbn zeta in Hj. rewrite <- Ep, <- En in Hj.
  assert (bs_next s b <> b /\ bs_prev s b <> b) as [Hnb Hpb].
  { rewrite Ep, En. split.
    - destruct l2 as [|y l2]; cbn; set_solver.
    - destruct (last_in l1 head) as [->|Hl]; [done|]. set_solver. }
  pose proof (chain_push _ _ head b _ Hj Hbh Hb Hh' Hnd') as Hp.
  eexists _, _. split; [unfold move_front|].
  - repeat (erewrite bind_ok by reflexivity; cbn [bs_next bs_prev set_links]). reflexivity.
  - unfold set_links, ring. cbn [bs_next bs_prev].
    rewrite (fn_lookup_insert_ne _ (bs_next s b) b) by done.
    rewrite (fn_lookup_insert_ne _ b head) by done. split; [exact Hp|].
    split; [now apply NoDup_cons|set_solver].
Qed.

(** The first of [l] whose buffer satisfies [p], else [head]. *)
Definition first (s : bstate) (p : buf -> bool) (l : list Z) : Z :=
  hd head (List.filter (fun b => p (bs_buf s b)) l).

Lemma scan_next_ok s p l : forall x fuel,
  chain (bs_next s) (bs_prev s) x l head -> head ∉ l -> (length l < fuel)%nat ->
  scan bs_next p fuel (bs_next s x) s = Ok (first s p l) s.
Proof.
  unfold first. induction l as [|y l IH]; intros x fuel Hc Hh Hf; (destruct fuel as [|fuel]; [cbn in Hf; lia|]);
    cbn [scan chain List.filter] in *.
  - destruct Hc as [-> _]. now rewrite Z.eqb_refl.
  - destruct Hc as (-> & _ & Hc). rewrite (proj2 (Z.eqb_neq y head)) by set_solver.
    erewrite bind_ok by reflexivity. destruct (p (bs_buf s y)); [done|].
    erewrite bind_ok by reflexivity. apply IH; [done|set_solver|cbn in Hf; lia].
Qed.

Lemma scan_prev_ok s p l : forall z fuel,
  chain (bs_next s) (bs_prev s) head l z -> head ∉ l -> (length l < fuel)%nat ->
  scan bs_prev p fuel (bs_prev s z) s = Ok (first s p (rev l)) s.
Proof.
  unfold first. induction l as [|y l IH] using rev_ind; intros z fuel Hc Hh Hf;
    (destruct fuel as [|fuel]; [rewrite ?length_app in Hf; cbn in Hf; lia|]); cbn [scan].
  - destruct Hc as [_ ->]. now rewrite Z.eqb_refl.
  - apply chain_app in Hc as [Hc [_ ->]]. rewrite (proj2 (Z.eqb_neq y head)) by set_solver.
    rewrite List.rev_unit. cbn [List.filter].
    erewrite bind_ok by reflexivity. destruct (p (bs_buf s y)); [done|].
    erewrite bind_ok by reflexivity. rewrite length_app in Hf. cbn in Hf.
    apply IH; [done|set_solver|lia].
Qed.

(** A buffer found is on the list and satisfies the test; [head] means that
    none does. *)
Lemma first_spec s p l :
  head ∉ l ->
  (first s p l = head /\ forall b, b ∈ l -> p (bs_buf s b) = false) \/
  (exists l1 l2, l = l1 ++ first s p l :: l2 /\ p (bs_buf s (first s p l)) = true /\
     first s p l <> head /\ forall b, b ∈ l1 -> p (bs_buf s b) = false).
Proof.
  unfold first. induction l as [|y l IH]; intros Hh; cbn [List.filter].
  - left. split; [done|]. intros b Hb. now apply not_elem_of_nil in Hb.
  - destruct (p (bs_buf s y)) eqn:E; cbn [hd].
    + right. exists [], l. split; [done|]. split; [done|]. split; [set_solver|].
      intros b Hb. now apply not_elem_of_nil in Hb.
    + destruct IH as [[-> Hn]|(l1 & l2 & El & Hp & Hne & Hn)]; [set_solver|left|right].
      * split; [done|]. intros b [->|Hb]%elem_of_cons; auto.
      * exists (y :: l1), l2. split; [cbn; now rewrite <- El|]. split; [done|]. split; [done|].
        intros b [->|Hb]%elem_of_cons; auto.
Qed.

(** ** binit *)

Lemma binit_buf_ok s o b :
  ring s o -> b <> head -> b ∉ o ->
  exists s', binit_buf b s = Ok tt s' /\ ring s' (b :: o) /\ bs_held s' = bs_held s /\
    bs_disk s' = bs_disk s /\ bs_writes s' = bs_writes s /\
    bs_buf s' = <[b := set_lock (initsleeplock "buffer") (bs_buf s b)]> (bs_buf s).
Proof.
  intros (Hc & Hnd & Hh) Hb Hbo. pose proof (chain_push _ _ head b _ Hc Hb Hbo Hh Hnd) as Hp.
  eexists. split; [|split].
  - unfold binit_buf. repeat (erewrite bind_ok by reflexivity; cbn [bs_next bs_prev set_links]). reflexivity.
  - unfold ring. cbn [bs_next bs_prev set_links fset buf_lock set_bufs].
    rewrite (fn_lookup_insert_ne _ b head) by done. split; [exact Hp|].
    split; [now apply NoDup_cons|set_solver].
  - done.
Qed.

Lemma binit_loop_ok n : forall s o i,
  ring s o -> 0 <= i -> i + Z.of_nat n <= NBUF -> (forall b, b ∈ o -> b < i) ->
  exists s', for_loop n i binit_buf s = Ok tt s' /\
    ring s' (rev (seqZ i (Z.of_nat n)) ++ o) /\ bs_held s' = bs_held s /\ bs_disk s' = bs_disk s /\
    bs_writes s' = bs_writes s /\
    forall b, bs_buf s' b = if (i <=? b) && (b <? i + Z.of_nat n)
      then set_lock (initsleeplock "buffer") (bs_buf s b) else bs_buf s b.
Proof.
  induction n as [|n IH]; intros s o i Hr Hi Hn Ho; cbn [for_loop].
  { exists s. do 5 (split; [done|]).
    intros b. case_goal; zbool; [lia|done]. }
  destruct (binit_buf_ok s o i Hr) as (s1 & Hb & Hr1 & Hh1 & Hd1 & Hw1 & Hbuf).
  { unfold head. lia. }
  { intros H%Ho. lia. }
  rewrite (bind_ok _ _ _ _ _ Hb).
  destruct (IH s1 (i :: o) (i + 1)) as (s' & Hl & Hr' & Hh' & Hd' & Hw' & Hbuf'); [done|lia|lia| |].
  { intros b [->|H%Ho]%elem_of_cons; lia. }
  exists s'. split; [exact Hl|]. rewrite Hh', Hd', Hw', Hh1, Hd1, Hw1.
  split; [|split; [done|split; [done|split; [done|]]]].
  - rewrite seqZ_cons by lia. replace (Z.pred (Z.of_nat (S n))) with (Z.of_nat n) by lia.
    cbn [rev]. now rewrite <- app_assoc.
  - intros b. rewrite Hbuf', Hbuf. destruct (decide (b = i)) as [->|Hne].
    + rewrite fn_lookup_insert. zdecide. cbn. done.
    + rewrite fn_lookup_insert_ne by done. repeat case_goal; zbool; lia || done.
Qed.
