(* ===== verification/BcacheSpec.v ===== *)
(** * kernel/bio.c: what the buffer cache promises

    The abstract cache [bview]: the contents of each block as the clients
    see it, the contents of the disk, how many references each block has and
    which blocks the running thread has locked.  [brep] relates it to the
    state of bio.c, and the lemmas give every operation as a function on it.
    A block without references has the disk's contents, so recycling its
    buffer loses nothing. *)

From stdpp Require Import base gmap numbers strings functions list.
From Stdlib Require Import ZifyBool.
From S2P Require Import Prelude Spinlock Locks Bio Bcache.

Open Scope Z_scope.

(** ** Lock operations of a thread that holds no spin lock *)

Lemma relock (l : lockid) : ({[l]} ∪ ∅) ∖ {[l]} = (∅ : gset lockid).
Proof. set_solver. Qed.

Definition set_held (h : gset lockid) (s : bstate) : bstate :=
  BState h (bs_pid s) (bs_buf s) (bs_next s) (bs_prev s) (bs_disk s) (bs_writes s).

Lemma lock_ok l s : bs_held s = ∅ -> lock l s = Ok tt (set_held ({[l]} ∪ ∅) s).
Proof. intros E. unfold lock. erewrite bind_ok by reflexivity. cbn. now rewrite E. Qed.

Lemma unlock_ok l s : bs_held s = {[l]} ∪ ∅ -> unlock l s = Ok tt (set_held ∅ s).
Proof.
  intros E. unfold unlock. erewrite bind_ok by reflexivity. cbn. rewrite E.
  rewrite decide_True by set_solver. now rewrite relock.
Qed.

Lemma set_held_id s : bs_held s = ∅ -> set_held ∅ s = s.
Proof. destruct s; cbn. now intros ->. Qed.

(** A critical section whose body is a state change that keeps the held set. *)
Lemma critical l (f : bstate -> bstate) s :
  bs_held s = ∅ -> (forall s, bs_held (f s) = bs_held s) ->
  (forall h s, f (set_held h s) = set_held h (f s)) ->
  (lock l;; modify f;; unlock l) s = Ok tt (f s).
Proof.
  intros Hh Hf Hc. rewrite (bind_ok _ _ _ _ _ (lock_ok l s Hh)). erewrite bind_ok by reflexivity.
  rewrite Hc, unlock_ok by done.
  change (set_held ∅ (set_held _ (f s))) with (set_held ∅ (f s)).
  rewrite set_held_id; [done|now rewrite Hf].
Qed.

Lemma acquiresleep_buf s b :
  bs_held s = ∅ -> sl_locked (b_lock (bs_buf s b)) = 0 ->
  acquiresleep (buf_lock b) (buf_spin b) s =
  Ok tt (fset (buf_lock b) (Sleeplock 1 (sl_name (b_lock (bs_buf s b))) (bs_pid s)) s).
Proof.
  intros Hh Hl. unfold acquiresleep. rewrite (bind_ok _ _ _ _ _ (lock_ok _ s Hh)).
  erewrite bind_ok by reflexivity. cbn [fget buf_lock bs_buf set_held]. rewrite Hl. cbn [truthy Z.eqb negb].
  erewrite bind_ok by reflexivity. rewrite unlock_ok by done. do 2 f_equal.
  destruct s; cbn in *. now rewrite Hh.
Qed.

Lemma releasesleep_buf s b :
  bs_held s = ∅ ->
  releasesleep (buf_lock b) (buf_spin b) s =
  Ok tt (fset (buf_lock b) (Sleeplock 0 (sl_name (b_lock (bs_buf s b))) 0) s).
Proof.
  intros Hh. unfold releasesleep. rewrite (bind_ok _ _ _ _ _ (lock_ok _ s Hh)).
  erewrite bind_ok by reflexivity. rewrite unlock_ok by done. do 2 f_equal.
  destruct s; cbn in *. now rewrite Hh.
Qed.

Lemma holdingsleep_buf s b :
  bs_held s = ∅ ->
  holdingsleep (buf_lock b) (buf_spin b) s =
  Ok (truthy (sl_locked (b_lock (bs_buf s b))) && (sl_pid (b_lock (bs_buf s b)) =? bs_pid s)) s.
Proof.
  intros Hh. unfold holdingsleep. rewrite (bind_ok _ _ _ _ _ (lock_ok _ s Hh)).
  erewrite bind_ok by reflexivity. erewrite bind_ok by now apply unlock_ok.
  cbn. f_equal. destruct s; cbn in *. now rewrite Hh.
Qed.

(** ** The abstract cache *)

Record bview := BView {
  v_disk : Z -> block;
  v_writes : list (Z * block);
  v_data : Z -> block;
  v_refs : gmap Z Z;
  v_locked : gset Z;
}.

Section spec.
(** The device of the file system; buffers that have never been used are
    those of device 0. *)
Context (dev : Z).

Definition is_buf (i : Z) : Prop := 0 <= i < NBUF.

Record brep (s : bstate) (V : bview) : Prop := BRep {
  br_ring : exists o, ring s o /\ forall i, i ∈ o <-> is_buf i;
  br_uniq i j : is_buf i -> is_buf j -> b_dev (bs_buf s i) = dev -> b_dev (bs_buf s j) = dev ->
    b_blockno (bs_buf s i) = b_blockno (bs_buf s j) -> i = j;
  br_other i : is_buf i -> b_dev (bs_buf s i) <> dev ->
    b_refcnt (bs_buf s i) = 0 /\ sl_locked (b_lock (bs_buf s i)) = 0;
  br_refcnt i : is_buf i -> b_dev (bs_buf s i) = dev ->
    let x := bs_buf s i in
    0 <= b_refcnt x < 2^32 /\
    v_refs V !! b_blockno x = if b_refcnt x =? 0 then None else Some (b_refcnt x);
  br_cached b : is_Some (v_refs V !! b) -> exists i, is_buf i /\
    b_dev (bs_buf s i) = dev /\ b_blockno (bs_buf s i) = b /\ b_valid (bs_buf s i) <> 0;
  br_data i : is_buf i -> b_dev (bs_buf s i) = dev -> b_valid (bs_buf s i) <> 0 ->
    b_data (bs_buf s i) = v_data V (b_blockno (bs_buf s i));
  br_clean b : v_refs V !! b = None -> v_data V b = v_disk V b;
  br_disk : bs_disk s = v_disk V;
  br_writes : bs_writes s = v_writes V;
  br_lock i : is_buf i -> b_dev (bs_buf s i) = dev ->
    let l := b_lock (bs_buf s i) in
    if decide (b_blockno (bs_buf s i) ∈ v_locked V)
    then sl_locked l = 1 /\ sl_pid l = bs_pid s else sl_locked l = 0;
  br_sub b : b ∈ v_locked V -> is_Some (v_refs V !! b);
  br_held : bs_held s = ∅;
}.

(** Buffer [i] caches block [b]. *)
Definition handle (s : bstate) (i b : Z) : Prop :=
  is_buf i /\ b_dev (bs_buf s i) = dev /\ b_blockno (bs_buf s i) = b.

(** Handles of referenced blocks survive. *)
Definition keeps (s : bstate) (V : bview) (s' : bstate) : Prop :=
  forall i b, handle s i b -> is_Some (v_refs V !! b) -> handle s' i b.

(** ** Changing one buffer *)

(** The part of the state outside the buffers fits [V']. *)
Record bframe (s s' : bstate) (V' : bview) : Prop := BFrame {
  bf_ring : exists o, ring s' o /\ forall i, i ∈ o <-> is_buf i;
  bf_pid : bs_pid s' = bs_pid s;
  bf_held : bs_held s' = ∅;
  bf_disk : bs_disk s' = v_disk V';
  bf_writes : bs_writes s' = v_writes V';
}.

(** The buffer contents [x] of block [b] fit [V]. *)
Record bfits (pid : Z) (x : buf) (b : Z) (V : bview) : Prop := BFits {
  bx_dev : b_dev x = dev;
  bx_no : b_blockno x = b;
  bx_refcnt : 0 <= b_refcnt x < 2^32;
  bx_refs : v_refs V !! b = if b_refcnt x =? 0 then None else Some (b_refcnt x);
  bx_valid : b_refcnt x <> 0 -> b_valid x <> 0;
  bx_data : b_valid x <> 0 -> b_data x = v_data V b;
  bx_clean : v_refs V !! b = None -> v_data V b = v_disk V b;
  bx_lock : if decide (b ∈ v_locked V)
            then sl_locked (b_lock x) = 1 /\ sl_pid (b_lock x) = pid else sl_locked (b_lock x) = 0;
  bx_sub : b ∈ v_locked V -> b_refcnt x <> 0;
}.

(** [V] and [V'] agree on block [b]. *)
Definition agree (V V' : bview) (b : Z) : Prop :=
  v_refs V' !! b = v_refs V !! b /\ v_data V' b = v_data V b /\ v_disk V' b = v_disk V b /\
  (b ∈ v_locked V' <-> b ∈ v_locked V).

Lemma brep_fits s V i b : brep s V -> handle s i b -> bfits (bs_pid s) (bs_buf s i) b V.
Proof.
  intros HR (Hi & Hd & Hb). pose proof (br_refcnt _ _ HR i Hi Hd) as [Hr1 Hr2].
  pose proof (br_lock _ _ HR i Hi Hd) as Hl. cbn zeta in *. rewrite Hb in *.
  assert (is_Some (v_refs V !! b) -> b_valid (bs_buf s i) <> 0) as Hval.
  { intros (j & Hj & Hjd & Hjb & Hjv)%(br_cached _ _ HR).
    assert (i = j) as -> by (eapply br_uniq; eauto; congruence). done. }
  split; try done.
  - intros Hn. apply Hval. rewrite Hr2, (proj2 (Z.eqb_neq _ 0) Hn). eauto.
  - intros Hv. rewrite (br_data _ _ HR i Hi Hd Hv). now rewrite Hb.
  - apply (br_clean _ _ HR).
  - intros Hin E. apply (br_sub _ _ HR) in Hin. rewrite Hr2, E in Hin. now destruct Hin.
Qed.

(** Buffer [i] now caches [b] with contents [x]; it cached [b] before, or it
    was free and [b] was not cached. *)
Lemma brep_update s V s' V' i b x :
  brep s V -> is_buf i ->
  (handle s i b \/
   b_refcnt (bs_buf s i) = 0 /\ forall j, is_buf j -> b_dev (bs_buf s j) = dev -> b_blockno (bs_buf s j) <> b) ->
  (forall j, bs_buf s' j = if decide (j = i) then x else bs_buf s j) ->
  bframe s s' V' -> bfits (bs_pid s) x b V' -> (forall b', b' <> b -> agree V V' b') ->
  brep s' V'.
Proof.
  intros HR Hi Hold Hbuf [Hring Hpid Hheld Hdisk Hwr] [Xd Xb Xr Xrefs Xv Xdat Xcl Xl Xs] Hag.
  assert (forall j, is_buf j -> j <> i -> b_dev (bs_buf s j) = dev -> b_blockno (bs_buf s j) <> b) as Hoth.
  { intros j Hj Hne Hjd Hjb. destruct Hold as [(_ & Hid & Hib)|[_ Hno]]; [|now apply (Hno j)].
    apply Hne. eapply br_uniq; eauto. congruence. }
  assert (forall j, j <> i -> bs_buf s' j = bs_buf s j) as Hne by (intros j H; now rewrite Hbuf, decide_False).
  assert (bs_buf s' i = x) as Hx by now rewrite Hbuf, decide_True.
  split; try done.
  - intros j k Hj Hk. destruct (decide (j = i)) as [->|Hji], (decide (k = i)) as [->|Hki];
      rewrite ?Hx, ?(Hne j), ?(Hne k) by done; try done.
    + intros _ Hkd E. exfalso. apply (Hoth k); congruence.
    + intros Hjd _ E. exfalso. apply (Hoth j); congruence.
    + apply (br_uniq _ _ HR); done.
  - intros j Hj. destruct (decide (j = i)) as [->|Hji]; [rewrite Hx; done|].
    rewrite Hne by done. now apply (br_other _ _ HR).
  - intros j Hj. cbn zeta. destruct (decide (j = i)) as [->|Hji]; [rewrite Hx, Xb; done|].
    rewrite Hne by done. intros Hjd. destruct (Hag (b_blockno (bs_buf s j))) as (-> & _); [auto|].
    now apply (br_refcnt _ _ HR).
  - intros b' Hb'. destruct (decide (b' = b)) as [->|Hbb].
    + exists i. rewrite Hx. split; [done|]. split; [done|]. split; [done|].
      rewrite Xrefs in Hb'. apply Xv. intros E. rewrite E in Hb'. now destruct Hb'.
    + destruct (Hag b' Hbb) as (E & _). rewrite E in Hb'.
      destruct (br_cached _ _ HR b' Hb') as (j & Hj & Hjd & Hjb & Hjv). exists j.
      destruct (decide (j = i)) as [->|Hji]; [|rewrite Hne by done; done]. exfalso.
      destruct Hold as [(_ & _ & ?)|[Hr0 _]]; [congruence|].
      pose proof (br_refcnt _ _ HR i Hi Hjd) as [_ Hr]. rewrite Hjb, Hr0 in Hr. cbn in Hr.
      rewrite Hr in Hb'. now destruct Hb'.
  - intros j Hj. destruct (decide (j = i)) as [->|Hji]; [rewrite Hx, Xb; auto|].
    rewrite Hne by done. intros Hjd Hjv. destruct (Hag (b_blockno (bs_buf s j))) as (_ & -> & _); [auto|].
    now apply (br_data _ _ HR).
  - intros b' Hb'. destruct (decide (b' = b)) as [->|Hbb]; [auto|].
    destruct (Hag b' Hbb) as (E1 & E2 & E3 & _). rewrite E2, E3. apply (br_clean _ _ HR). congruence.
  - intros j Hj. destruct (decide (j = i)) as [->|Hji]; [rewrite Hx, Xb, Hpid; done|].
    rewrite Hne, Hpid by done. intros Hjd. pose proof (br_lock _ _ HR j Hj Hjd) as Hl. cbn zeta in *.
    destruct (Hag (b_blockno (bs_buf s j))) as (_ & _ & _ & E); [auto|].
    repeat case_decide; tauto.
  - intros b' Hb'. destruct (decide (b' = b)) as [->|Hbb].
    + rewrite Xrefs, (proj2 (Z.eqb_neq _ 0)) by auto. eauto.
    + destruct (Hag b' Hbb) as (-> & _ & _ & E). apply (br_sub _ _ HR). tauto.
Qed.

(** ** The operations on the abstract cache *)

Definition v_ref (b n : Z) (V : bview) : bview :=
  BView (v_disk V) (v_writes V) (v_data V)
    (if n =? 0 then delete b (v_refs V) else <[b := n]> (v_refs V)) (v_locked V).
Definition v_put (b : Z) (d : block) (V : bview) : bview :=
  BView (v_disk V) (v_writes V) (<[b := d]> (v_data V)) (v_refs V) (v_locked V).
Definition v_flush (b : Z) (V : bview) : bview :=
  BView (<[b := v_data V b]> (v_disk V)) (v_writes V ++ [(b, v_data V b)]) (v_data V)
    (v_refs V) (v_locked V).
Definition v_lock (b : Z) (V : bview) : bview :=
  BView (v_disk V) (v_writes V) (v_data V) (v_refs V) ({[b]} ∪ v_locked V).
Definition v_unlock (b : Z) (V : bview) : bview :=
  BView (v_disk V) (v_writes V) (v_data V) (v_refs V) (v_locked V ∖ {[b]}).

Lemma agree_other V b : forall b', b' <> b ->
  (forall n, agree V (v_ref b n V) b') /\ (forall d, agree V (v_put b d V) b') /\
  agree V (v_flush b V) b' /\ agree V (v_lock b V) b' /\ agree V (v_unlock b V) b'.
Proof.
  intros b' Hne. unfold agree. cbn.
  repeat split; rewrite ?fn_lookup_insert_ne by done; try done; try set_solver.
  destruct (n =? 0); [now rewrite lookup_delete_ne|now rewrite lookup_insert_ne].
Qed.

Lemma agree_trans V1 V2 V3 b : agree V1 V2 b -> agree V2 V3 b -> agree V1 V3 b.
Proof.
  intros (A1 & A2 & A3 & A4) (B1 & B2 & B3 & B4). unfold agree.
  rewrite B1, B2, B3, B4. auto.
Qed.

(** All handles survive. *)
Definition keeps_all (s s' : bstate) : Prop := forall i b, handle s i b -> handle s' i b.

Lemma keeps_update s s' i x :
  (forall j, bs_buf s' j = if decide (j = i) then x else bs_buf s j) ->
  b_dev x = b_dev (bs_buf s i) -> b_blockno x = b_blockno (bs_buf s i) -> keeps_all s s'.
Proof.
  intros Hb Hd Hn j b (Hj & Hjd & Hjb). unfold handle. rewrite Hb.
  destruct (decide (j = i)) as [->|]; [|done]. now rewrite Hd, Hn.
Qed.

Lemma insert_decide (f : Z -> buf) i x j : (<[i := x]> f) j = if decide (j = i) then x else f j.
Proof.
  destruct (decide (j = i)) as [->|]; [apply fn_lookup_insert|now apply fn_lookup_insert_ne].
Qed.

Lemma bframe_id s V s' V' :
  brep s V -> bs_next s' = bs_next s -> bs_prev s' = bs_prev s -> bs_pid s' = bs_pid s ->
  bs_held s' = bs_held s -> bs_disk s' = v_disk V' -> bs_writes s' = v_writes V' -> bframe s s' V'.
Proof.
  intros HR Hn Hp Hpid Hh Hd Hw. split; try done.
  - destruct (br_ring _ _ HR) as (o & Ho & Hin). exists o. split; [|done].
    now apply (ring_links s).
  - rewrite Hh. apply (br_held _ _ HR).
Qed.

(** Changing the data of a referenced block. *)
Lemma put_ok s V i b d :
  brep s V -> handle s i b -> is_Some (v_refs V !! b) ->
  exists s', upd_buf i (set_data d) s = Ok tt s' /\ brep s' (v_put b d V) /\ keeps_all s s'.
Proof.
  intros HR Hh Hr. pose proof (brep_fits s V i b HR Hh) as [X1 X2 X3 X4 X5 X6 X7 X8 X9].
  eexists. split; [reflexivity|]. split.
  - eapply (brep_update s V _ _ i b); [exact HR|apply Hh|now left| | | |].
    + intros j. cbn. apply insert_decide.
    + eapply bframe_id; try reflexivity; [exact HR|apply (br_disk _ _ HR)|apply (br_writes _ _ HR)].
    + split; cbn; try done.
      * intros _. now rewrite fn_lookup_insert.
      * intros E. rewrite E in Hr. now destruct Hr.
    + intros b' Hne. now apply (agree_other V b).
  - eapply keeps_update; [intros j; apply insert_decide|done|done].
Qed.

Lemma bwrite_ok s V i b :
  brep s V -> handle s i b -> b ∈ v_locked V ->
  exists s', bwrite i s = Ok tt s' /\ brep s' (v_flush b V) /\ keeps_all s s'.
Proof.
  intros HR Hh Hin. pose proof (brep_fits s V i b HR Hh) as [X1 X2 X3 X4 X5 X6 X7 X8 X9].
  rewrite decide_True in X8 by done. destruct X8 as [Xl Xp].
  unfold bwrite. rewrite (bind_ok _ _ _ _ _ (holdingsleep_buf s i (br_held _ _ HR))).
  rewrite Xl, Xp, Z.eqb_refl. cbn [negb andb truthy Z.eqb].
  eexists. split; [reflexivity|]. split.
  - eapply (brep_update s V _ _ i b (bs_buf s i)); [exact HR|apply Hh|now left| | | |].
    + intros j. cbn. now destruct (decide (j = i)) as [->|].
    + eapply bframe_id; try reflexivity; [exact HR|..]; cbn; rewrite X2, X6 by auto.
      * now rewrite (br_disk _ _ HR).
      * now rewrite (br_writes _ _ HR).
    + split; cbn; try done.
      * intros _. now rewrite fn_lookup_insert.
      * rewrite decide_True by done. done.
    + intros b' Hne. now apply (agree_other V b).
  - intros j b' Hj. exact Hj.
Qed.

(** [bpin] and [bunpin]: any change of the reference count. *)
Lemma refcnt_ok s V i b n m (f : Z -> Z) :
  brep s V -> handle s i b -> v_refs V !! b = Some n -> f n = m -> 0 <= m < 2^32 ->
  (m = 0 -> (b ∉ v_locked V) /\ v_data V b = v_disk V b) ->
  exists s', (lock bcache_lock;; upd_buf i (fun x => set_refcnt (f (b_refcnt x)) x);;
      unlock bcache_lock) s = Ok tt s' /\ brep s' (v_ref b m V) /\ keeps_all s s'.
Proof.
  intros HR Hh Hn Hf Hm Hz. pose proof (brep_fits s V i b HR Hh) as [X1 X2 X3 X4 X5 X6 X7 X8 X9].
  assert (b_refcnt (bs_buf s i) = n /\ n <> 0) as [En Hn0].
  { rewrite Hn in X4. destruct (Z.eqb_spec (b_refcnt (bs_buf s i)) 0); [done|]. split; congruence. }
  eexists. split; [unfold upd_buf; apply critical; [apply (br_held _ _ HR)|done|done]|]. split.
  - eapply (brep_update s V _ _ i b); [exact HR|apply Hh|now left| | | |].
    + intros j. cbn. apply insert_decide.
    + eapply bframe_id; try reflexivity; [exact HR|apply (br_disk _ _ HR)|apply (br_writes _ _ HR)].
    + split; cbn; rewrite ?En, ?Hf; try done.
      * destruct (m =? 0); [apply lookup_delete_eq|apply lookup_insert_eq].
      * intros _. apply X5. congruence.
      * destruct (Z.eqb_spec m 0) as [E|E]; [intros _; now apply Hz|rewrite lookup_insert_eq; done].
      * intros Hin ->. now apply Hz in Hin.
    + intros b' Hne. now apply (agree_other V b).
  - eapply keeps_update; [intros j; apply insert_decide|done|done].
Qed.

(** The buffer as [brelse] leaves it. *)
Definition released (x : buf) : buf :=
  set_refcnt (u32 (b_refcnt x - 1)) (set_lock (Sleeplock 0 (sl_name (b_lock x)) 0) x).

(** [brelse], as a function of the state. *)
Lemma brelse_run s V i b l1 l2 :
  brep s V -> handle s i b -> b ∈ v_locked V -> ring s (l1 ++ i :: l2) ->
  exists s', brelse i s = Ok tt s' /\ bs_pid s' = bs_pid s /\ bs_held s' = ∅ /\
    bs_disk s' = bs_disk s /\ bs_writes s' = bs_writes s /\
    ring s' (if b_refcnt (released (bs_buf s i)) =? 0 then i :: l1 ++ l2 else l1 ++ i :: l2) /\
    forall j, bs_buf s' j = if decide (j = i) then released (bs_buf s i) else bs_buf s j.
Proof.
  intros HR Hh Hin Ho. pose proof (brep_fits s V i b HR Hh) as [X1 X2 X3 X4 X5 X6 X7 X8 X9].
  rewrite decide_True in X8 by done. destruct X8 as [Xl Xp]. pose proof (br_held _ _ HR) as Hheld.
  unfold brelse. rewrite (bind_ok _ _ _ _ _ (holdingsleep_buf s i Hheld)).
  rewrite Xl, Xp, Z.eqb_refl. cbn [negb andb truthy Z.eqb].
  rewrite (bind_ok _ _ _ _ _ (releasesleep_buf s i Hheld)).
  set (s1 := fset (buf_lock i) _ s). erewrite bind_ok by now apply lock_ok.
  erewrite bind_ok by reflexivity. set (s2 := set_bufs _ _). erewrite bind_ok by reflexivity.
  assert (forall j, bs_buf s2 j = if decide (j = i) then released (bs_buf s i) else bs_buf s j) as Hb2.
  { intros j. unfold s2, s1. cbn. rewrite insert_decide, fn_lookup_insert.
    destruct (decide (j = i)); [done|]. now rewrite insert_decide, decide_False. }
  assert (ring s2 (l1 ++ i :: l2)) as Ho2 by now apply (ring_links s).
  rewrite (Hb2 i), decide_True by done. destruct (b_refcnt (released (bs_buf s i)) =? 0) eqn:E.
  - destruct (move_front_ok s2 l1 i l2 Ho2) as (nx & pv & Hm & Hr).
    rewrite (bind_ok _ _ _ _ _ Hm). rewrite unlock_ok by done.
    eexists. split; [reflexivity|]. cbn. do 4 (split; [done|]). split; [|done].
    now apply (ring_links (set_links nx pv s2)).
  - erewrite bind_ok by reflexivity. rewrite unlock_ok by done.
    eexists. split; [reflexivity|]. cbn. do 4 (split; [done|]). split; [|done]. now apply (ring_links s2).
Qed.

Lemma brelse_ok s V i b n :
  brep s V -> handle s i b -> b ∈ v_locked V -> v_refs V !! b = Some n ->
  (n = 1 -> v_data V b = v_disk V b) ->
  exists s', brelse i s = Ok tt s' /\ brep s' (v_ref b (n - 1) (v_unlock b V)) /\ keeps_all s s'.
Proof.
  intros HR Hh Hin Hn Hcl. pose proof (brep_fits s V i b HR Hh) as [X1 X2 X3 X4 X5 X6 X7 X8 X9].
  assert (b_refcnt (bs_buf s i) = n /\ 0 < n < 2^32) as [En Hn0].
  { rewrite Hn in X4. destruct (Z.eqb_spec (b_refcnt (bs_buf s i)) 0); [done|]. split; [congruence|].
    injection X4 as ->. lia. }
  destruct (br_ring _ _ HR) as (o & Ho & Hio). assert (i ∈ o) as Hoi by (apply Hio, Hh).
  apply list_elem_of_split in Hoi as (l1 & l2 & ->).
  destruct (brelse_run s V i b l1 l2 HR Hh Hin Ho) as (s' & Hb & Hpid & Hheld & Hdisk & Hwr & Hr & Hbuf).
  assert (exists o, ring s' o /\ forall i, i ∈ o <-> is_buf i) as Hring.
  { eexists. split; [exact Hr|]. intros k. rewrite <- Hio. destruct (b_refcnt (released (bs_buf s i)) =? 0); [|reflexivity]. clear. set_solver. }
  assert (u32 (n - 1) = n - 1) as Hu by (apply u32_small; unfold is_u32; lia).
  exists s'. split; [exact Hb|]. split.
  - eapply (brep_update s V s' _ i b (released (bs_buf s i))); [exact HR|apply Hh|now left|exact Hbuf| | |].
    + split; try done; cbn; [rewrite Hdisk; apply (br_disk _ _ HR)|rewrite Hwr; apply (br_writes _ _ HR)].
    + split; cbn; rewrite ?En, ?Hu; try done; try lia.
      * destruct (Z.eqb_spec (n - 1) 0); [apply lookup_delete_eq|apply lookup_insert_eq].
      * destruct (Z.eqb_spec (n - 1) 0); [intros _; apply Hcl; lia|rewrite lookup_insert_eq; done].
      * rewrite decide_False by set_solver. done.
      * set_solver.
    + intros b' Hne. eapply agree_trans; [now apply (agree_other V b)|].
      now apply (agree_other (v_unlock b V) b).
  - eapply keeps_update; [exact Hbuf|done|done].
Qed.

(** ** bread *)

(** [held] by this thread. *)
Definition own (pid : Z) (x : buf) : buf := set_lock (Sleeplock 1 (sl_name (b_lock x)) pid) x.

(** What [bread] does after [bget] has chosen buffer [i] and made it [x]. *)
Definition filled (d : block) (x : buf) : buf :=
  if b_valid x =? 0 then set_valid 1 (set_data d x) else x.

Definition is_block (b : Z) (x : buf) : bool := (b_dev x =? dev) && (b_blockno x =? b).

(** The tail of [bget] and [bread] once buffer [i] is found. *)
Lemma bget_tail s i f :
  bs_held s = {[bcache_lock]} ∪ ∅ -> sl_locked (b_lock (f (bs_buf s i))) = 0 ->
  exists s', (upd_buf i f;; unlock bcache_lock;; acquiresleep (buf_lock i) (buf_spin i);; mret i) s = Ok i s' /\
    bs_next s' = bs_next s /\ bs_prev s' = bs_prev s /\ bs_pid s' = bs_pid s /\ bs_held s' = ∅ /\
    bs_disk s' = bs_disk s /\ bs_writes s' = bs_writes s /\
    forall j, bs_buf s' j = if decide (j = i) then own (bs_pid s) (f (bs_buf s i)) else bs_buf s j.
Proof.
  intros Hh Hl. erewrite bind_ok by reflexivity. erewrite bind_ok by now apply unlock_ok.
  erewrite bind_ok by (apply acquiresleep_buf; [done|cbn; now rewrite fn_lookup_insert]).
  eexists. split; [reflexivity|]. cbn. repeat split; try done.
  intros j. destruct (decide (j = i)) as [->|Hne];
    [now rewrite !fn_lookup_insert|now rewrite !fn_lookup_insert_ne].
Qed.

Lemma bread_tail s0 i f :
  bs_held s0 = {[bcache_lock]} ∪ ∅ -> sl_locked (b_lock (f (bs_buf s0 i))) = 0 ->
  exists s',
    (b ← (upd_buf i f;; unlock bcache_lock;; acquiresleep (buf_lock i) (buf_spin i);; mret i);
     v ← gets (fun s => b_valid (bs_buf s b));
     (if v =? 0 then disk_rw b false;; upd_buf b (set_valid 1) else mret tt);;
     mret b) s0 = Ok i s' /\
    bs_next s' = bs_next s0 /\ bs_prev s' = bs_prev s0 /\ bs_pid s' = bs_pid s0 /\ bs_held s' = ∅ /\
    bs_disk s' = bs_disk s0 /\ bs_writes s' = bs_writes s0 /\
    forall j, bs_buf s' j =
      if decide (j = i)
      then filled (bs_disk s0 (b_blockno (f (bs_buf s0 i)))) (own (bs_pid s0) (f (bs_buf s0 i)))
      else bs_buf s0 j.
Proof.
  intros Hh Hl. destruct (bget_tail s0 i f Hh Hl) as (s1 & Hb & E1 & E2 & E3 & E4 & E5 & E6 & Hbuf).
  rewrite (bind_ok _ _ _ _ _ Hb). erewrite bind_ok by reflexivity.
  assert (bs_buf s1 i = own (bs_pid s0) (f (bs_buf s0 i))) as Ei by now rewrite Hbuf, decide_True.
  unfold filled. rewrite <- Ei. destruct (b_valid (bs_buf s1 i) =? 0) eqn:Ev.
  - erewrite (bind_ok _ _ _ tt) by reflexivity. eexists. split; [reflexivity|]. cbn.
    repeat split; try done. intros j.
    destruct (decide (j = i)) as [->|Hne]; [|now rewrite !fn_lookup_insert_ne, Hbuf, decide_False].
    rewrite !fn_lookup_insert, E5, Ei. done.
  - erewrite (bind_ok _ _ _ tt) by reflexivity. exists s1. repeat split; try done.
    intros j. rewrite Hbuf. destruct (decide (j = i)) as [->|]; [now rewrite Ei|done].
Qed.

(** With fewer referenced blocks than buffers some buffer is free. *)
Lemma free_buffer s V :
  brep s V -> (size (v_refs V) < Z.to_nat NBUF)%nat ->
  exists i, is_buf i /\ b_refcnt (bs_buf s i) = 0.
Proof.
  intros HR Hsz. destruct (decide (Exists (fun i => b_refcnt (bs_buf s i) = 0) (seqZ 0 NBUF))) as [He|He].
  { apply Exists_exists in He as (i & Hi & E). exists i. split; [|done].
    apply elem_of_seqZ in Hi. unfold is_buf. lia. }
  exfalso. rewrite <- Forall_Exists_neg, Forall_forall in He.
  assert (forall i, i ∈ seqZ 0 NBUF -> is_buf i /\ b_dev (bs_buf s i) = dev /\
    is_Some (v_refs V !! b_blockno (bs_buf s i))) as Hall.
  { intros i Hi. pose proof (He i Hi) as Hr. apply elem_of_seqZ in Hi.
    assert (is_buf i) as Hb by (unfold is_buf; lia).
    assert (b_dev (bs_buf s i) = dev) as Hd.
    { destruct (decide (b_dev (bs_buf s i) = dev)) as [|Hd]; [done|]. now apply (br_other _ _ HR) in Hd as [? _]. }
    split; [done|]. split; [done|]. pose proof (br_refcnt _ _ HR i Hb Hd) as [_ ->].
    rewrite (proj2 (Z.eqb_neq _ 0) Hr). eauto. }
  pose (nos := (fun i => b_blockno (bs_buf s i)) <$> seqZ 0 NBUF).
  assert (NoDup nos) as Hnd.
  { apply NoDup_fmap_2_strong; [|apply NoDup_seqZ]. intros i j Hi Hj E.
    destruct (Hall i Hi) as (? & ? & _), (Hall j Hj) as (? & ? & _). eapply br_uniq; eauto. }
  assert (list_to_set nos ⊆ dom (v_refs V)) as Hsub.
  { intros b. rewrite elem_of_list_to_set, elem_of_dom. unfold nos.
    intros (i & -> & Hi)%list_elem_of_fmap. now apply Hall. }
  apply subseteq_size in Hsub. rewrite size_list_to_set, size_dom in Hsub by done.
  unfold nos in Hsub. rewrite length_fmap, length_seqZ in Hsub. lia.
Qed.

Lemma ring_bufs s o : ring s o -> (forall i, i ∈ o <-> is_buf i) -> (length o < scan_fuel)%nat.
Proof.
  intros (_ & Hnd & _) Hin. unfold scan_fuel.
  assert (list_to_set o ⊆ (list_to_set (seqZ 0 NBUF) : gset Z)) as Hs%subseteq_size.
  { intros i. rewrite !elem_of_list_to_set, elem_of_seqZ, Hin. unfold is_buf. lia. }
  rewrite !size_list_to_set, length_seqZ in Hs by (done || apply NoDup_seqZ). lia.
Qed.

Lemma elem_of_rev (l : list Z) x : x ∈ rev l <-> x ∈ l.
Proof. rewrite !list_elem_of_In. symmetry. apply List.in_rev. Qed.

(** The two scans of [bget] for block [b]: the buffer that caches it, or else a
    free one. *)
Lemma bget_finds s V b :
  brep s V -> (v_refs V !! b = None -> (size (v_refs V) < Z.to_nat NBUF)%nat) ->
  let h := set_held ({[bcache_lock]} ∪ ∅) s in
  (exists i, handle s i b /\
     scan bs_next (is_block b) scan_fuel (bs_next h head) h = Ok i h /\ i <> head) \/
  (scan bs_next (is_block b) scan_fuel (bs_next h head) h = Ok head h /\
   v_refs V !! b = None /\
   (forall j, is_buf j -> b_dev (bs_buf s j) = dev -> b_blockno (bs_buf s j) <> b) /\
   exists i, is_buf i /\ b_refcnt (bs_buf s i) = 0 /\ i <> head /\
     scan bs_prev (fun x => b_refcnt x =? 0) scan_fuel (bs_prev h head) h = Ok i h).
Proof.
  intros HR Hfree h. destruct (br_ring _ _ HR) as (o & Ho & Hio).
  pose proof (ring_bufs s o Ho Hio) as Hlen. pose proof Ho as (Hc & Hnd & Hh).
  rewrite (scan_next_ok h (is_block b) o head scan_fuel Hc Hh Hlen).
  destruct (first_spec h (is_block b) o Hh) as [[E Hno]|(l1 & l2 & El & Hp & Hne & _)].
  - right. rewrite E. split; [done|].
    assert (forall j, is_buf j -> b_dev (bs_buf s j) = dev -> b_blockno (bs_buf s j) <> b) as Hnb.
    { intros j Hj Hjd Hjb. specialize (Hno j (proj2 (Hio j) Hj)). unfold is_block in Hno. cbn in Hno. lia. }
    assert (v_refs V !! b = None) as Hr.
    { destruct (v_refs V !! b) eqn:Er; [|done]. exfalso.
      destruct (br_cached _ _ HR b ltac:(eauto)) as (j & Hj & Hjd & Hjb & _). now apply (Hnb j). }
    split; [done|]. split; [done|].
    rewrite (scan_prev_ok h (fun x => b_refcnt x =? 0) o head scan_fuel Hc Hh Hlen).
    destruct (first_spec h (fun x => b_refcnt x =? 0) (rev o)) as [[_ Hn]|(l1 & l2 & El & Hp & Hne & _)].
    { now rewrite elem_of_rev. }
    + exfalso. destruct (free_buffer s V HR (Hfree Hr)) as (i & Hi & Hri).
      specialize (Hn i). cbn in Hn. rewrite Hri in Hn. apply Hio in Hi.
      rewrite elem_of_rev in Hn. specialize (Hn Hi). done.
    + set (i := first h _ (rev o)) in *. exists i. split; [|split; [|split; [exact Hne|reflexivity]]].
      * apply Hio. rewrite <- elem_of_rev, El. apply elem_of_app. right. left.
      * cbn in Hp. now apply Z.eqb_eq in Hp.
  - left. set (i := first h _ o) in *. exists i. split; [|split; [reflexivity|done]]. unfold is_block in Hp. cbn in Hp.
    split; [|lia]. apply Hio. rewrite El. apply elem_of_app. right. left.
Qed.

(** The state of [bread b]'s block: one more reference, and locked. *)
Definition v_bread (b : Z) (V : bview) : bview :=
  v_lock b (v_ref b (default 0 (v_refs V !! b) + 1) V).

Lemma agree_bread V b b' : b' <> b -> agree V (v_bread b V) b'.
Proof.
  intros Hne. apply (agree_trans V (v_ref b (default 0 (v_refs V !! b) + 1) V)).
  - apply (agree_other V b b' Hne).
  - now destruct (agree_other (v_ref b (default 0 (v_refs V !! b) + 1) V) b b' Hne) as (_ & _ & _ & H & _).
Qed.

Lemma refs_range s V b n : brep s V -> v_refs V !! b = Some n -> 0 < n < 2^32.
Proof.
  intros HR E. destruct (br_cached _ _ HR b ltac:(eauto)) as (i & Hi & Hd & Hb & _).
  pose proof (br_refcnt _ _ HR i Hi Hd) as [? Hr]. rewrite Hb, E in Hr.
  destruct (Z.eqb_spec (b_refcnt (bs_buf s i)) 0); [done|]. injection Hr as ->. lia.
Qed.

Lemma refs_pos s V b : brep s V -> default 0 (v_refs V !! b) + 1 <> 0.
Proof.
  intros HR. destruct (v_refs V !! b) as [n|] eqn:E; cbn; [|done].
  pose proof (refs_range s V b n HR E). lia.
Qed.

(** [bread] from the point where the buffer [i] is chosen; [f] is what [bget] does to it. *)
Lemma bread_end s V b i f :
  brep s V -> is_buf i -> default 0 (v_refs V !! b) + 1 < 2^32 ->
  (handle s i b \/ b_refcnt (bs_buf s i) = 0 /\
     forall j, is_buf j -> b_dev (bs_buf s j) = dev -> b_blockno (bs_buf s j) <> b) ->
  sl_locked (b_lock (f (bs_buf s i))) = 0 -> b_dev (f (bs_buf s i)) = dev ->
  b_blockno (f (bs_buf s i)) = b -> b_refcnt (f (bs_buf s i)) = default 0 (v_refs V !! b) + 1 ->
  b_data (filled (bs_disk s b) (own (bs_pid s) (f (bs_buf s i)))) = v_data V b ->
  exists s', (b ← (upd_buf i f;; unlock bcache_lock;; acquiresleep (buf_lock i) (buf_spin i);; mret i);
     v ← gets (fun s => b_valid (bs_buf s b));
     (if v =? 0 then disk_rw b false;; upd_buf b (set_valid 1) else mret tt);; mret b)
      (set_held ({[bcache_lock]} ∪ ∅) s) = Ok i s' /\
    brep s' (v_bread b V) /\ handle s' i b /\ keeps s V s' /\ b_data (bs_buf s' i) = v_data V b.
Proof.
  intros HR Hi Hmax Hold Hl Fd Fb Fr Fdat. pose proof (refs_pos s V b HR) as Hpos.
  destruct (bread_tail (set_held ({[bcache_lock]} ∪ ∅) s) i f eq_refl Hl)
    as (s' & Hrun & E1 & E2 & E3 & E4 & E5 & E6 & Hbuf).
  cbn [set_held bs_next bs_prev bs_pid bs_disk bs_writes bs_buf] in *. rewrite Fb in Hbuf.
  set (x := filled _ _) in *. exists s'. split; [exact Hrun|].
  assert (b_dev x = dev /\ b_blockno x = b /\ b_refcnt x = default 0 (v_refs V !! b) + 1 /\
    b_valid x <> 0 /\ sl_locked (b_lock x) = 1 /\ sl_pid (b_lock x) = bs_pid s) as (Xd & Xb & Xr & Xv & Xl & Xp).
  { unfold x, filled. destruct (Z.eqb_spec (b_valid (own (bs_pid s) (f (bs_buf s i)))) 0); done. }
  assert (v_refs (v_bread b V) !! b = Some (default 0 (v_refs V !! b) + 1)) as Hrefs'.
  { cbn. rewrite (proj2 (Z.eqb_neq _ 0) Hpos). apply lookup_insert_eq. }
  assert (0 <= default 0 (v_refs V !! b) + 1) as Hnn.
  { destruct (v_refs V !! b) as [n|] eqn:E; cbn; [|lia]. pose proof (refs_range s V b n HR E). lia. }
  assert (bs_buf s' i = x) as Ex by now rewrite Hbuf, decide_True. split; [|split; [|split]].
  - eapply (brep_update s V s' _ i b x HR Hi Hold Hbuf); [|split; try done; try lia|apply agree_bread].
    + eapply bframe_id; try done; [rewrite E4; symmetry; apply (br_held _ _ HR)|
        rewrite E5; apply (br_disk _ _ HR)|rewrite E6; apply (br_writes _ _ HR)].
    + now rewrite Hrefs', Xr, (proj2 (Z.eqb_neq _ 0) Hpos).
    + now rewrite Hrefs'.
    + rewrite decide_True by (cbn; set_solver). done.
  - split; [done|]. now rewrite Ex.
  - intros j b' (Hj & Hjd & Hjb) Hr'. split; [done|]. rewrite Hbuf.
    destruct (decide (j = i)) as [->|]; [|done]. destruct Hold as [(_ & _ & ?)|[Hr0 _]]; [split; congruence|].
    pose proof (br_refcnt _ _ HR i Hi Hjd) as [_ Hr]. rewrite Hjb, Hr0 in Hr. cbn in Hr.
    rewrite Hr in Hr'. now destruct Hr'.
  - now rewrite Ex.
Qed.

(** [bread] returns a buffer it has locked, with the contents of the block. *)
Lemma bread_ok s V b :
  brep s V -> b ∉ v_locked V -> default 0 (v_refs V !! b) + 1 < 2^32 ->
  (v_refs V !! b = None -> (size (v_refs V) < Z.to_nat NBUF)%nat) ->
  exists i s', bread dev b s = Ok i s' /\ brep s' (v_bread b V) /\ handle s' i b /\ keeps s V s' /\
    b_data (bs_buf s' i) = v_data V b.
Proof.
  intros HR Hnl Hmax Hfree. pose proof (br_held _ _ HR) as Hheld.
  unfold bread, bget. rewrite bind_assoc, (bind_ok _ _ _ _ _ (lock_ok bcache_lock s Hheld)).
  rewrite bind_assoc. erewrite bind_ok by reflexivity. fold (is_block b).
  destruct (bget_finds s V b HR Hfree) as [(i & Hh & Hscan & Hne)|(Hscan & Hr & Hno & i & Hi & Hri & Hne & Hscan2)];
    rewrite bind_assoc, (bind_ok _ _ _ _ _ Hscan).
  - rewrite (proj2 (Z.eqb_neq i head) Hne). cbn [negb]. exists i.
    pose proof (brep_fits s V i b HR Hh) as [X1 X2 X3 X4 X5 X6 X7 X8 X9].
    rewrite decide_False in X8 by done.
    assert (b_refcnt (bs_buf s i) = default 0 (v_refs V !! b)) as Er.
    { rewrite X4. destruct (Z.eqb_spec (b_refcnt (bs_buf s i)) 0); [done|]. done. }
    apply bread_end; try done; [apply Hh|now left| |].
    + cbn. rewrite Er. apply u32_small. unfold is_u32. lia.
    + unfold filled, own. cbn. destruct (Z.eqb_spec (b_valid (bs_buf s i)) 0) as [E|E]; cbn; [|auto].
      rewrite (br_disk _ _ HR). symmetry. apply X7. rewrite X4.
      destruct (Z.eqb_spec (b_refcnt (bs_buf s i)) 0) as [|Hn]; [done|]. now apply X5 in Hn.
  - change (negb (head =? head)) with false. cbn iota.
    rewrite bind_assoc. erewrite bind_ok by reflexivity.
    rewrite bind_assoc, (bind_ok _ _ _ _ _ Hscan2). rewrite (proj2 (Z.eqb_neq i head) Hne). cbn [negb].
    exists i. apply bread_end; try done; [now right| | |].
    + cbn. destruct (decide (b_dev (bs_buf s i) = dev)) as [Hd|Hd]; [|now apply (br_other _ _ HR)].
      pose proof (br_lock _ _ HR i Hi Hd) as Hl. cbn zeta in Hl. case_decide as Hin; [|done].
      apply (br_sub _ _ HR) in Hin. pose proof (br_refcnt _ _ HR i Hi Hd) as [_ E].
      rewrite Hri in E. cbn in E. rewrite E in Hin. now destruct Hin.
    + cbn. now rewrite Hr.
    + cbn. rewrite (br_disk _ _ HR). symmetry. now apply (br_clean _ _ HR).
Qed.

(** [bpin] and [bunpin]. *)
Lemma bpin_ok s V i b n :
  brep s V -> handle s i b -> v_refs V !! b = Some n -> n + 1 < 2^32 ->
  exists s', bpin i s = Ok tt s' /\ brep s' (v_ref b (n + 1) V) /\ keeps_all s s'.
Proof.
  intros HR Hh Hn Hmax. pose proof (refs_range s V b n HR Hn).
  apply (refcnt_ok s V i b n (n + 1) (fun k => u32 (k + 1))); try done; try lia.
  apply u32_small. unfold is_u32. lia.
Qed.

Lemma bunpin_ok s V i b n :
  brep s V -> handle s i b -> v_refs V !! b = Some n ->
  (n = 1 -> (b ∉ v_locked V) /\ v_data V b = v_disk V b) ->
  exists s', bunpin i s = Ok tt s' /\ brep s' (v_ref b (n - 1) V) /\ keeps_all s s'.
Proof.
  intros HR Hh Hn Hcl. pose proof (refs_range s V b n HR Hn).
  apply (refcnt_ok s V i b n (n - 1) (fun k => u32 (k - 1))); try done; try lia.
  - apply u32_small. unfold is_u32. lia.
  - intros E. apply Hcl. lia.
Qed.

(** ** binit *)

(** A zeroed [struct buf]. *)
Definition zero_buf : buf := Buf 0 0 0 (Sleeplock 0 "" 0) 0 [].

Definition v_init (d : Z -> block) : bview := BView d [] d ∅ ∅.

Lemma binit_ok s :
  dev <> 0 -> (forall i, bs_buf s i = zero_buf) -> bs_held s = ∅ -> bs_writes s = [] ->
  exists s', binit s = Ok tt s' /\ brep s' (v_init (bs_disk s)) /\
    ring s' (rev (seqZ 0 NBUF)).
Proof.
  intros Hdev Hz Hh Hw. unfold binit. do 2 erewrite bind_ok by reflexivity.
  set (s0 := set_links _ _ _).
  assert (ring s0 []) as Hr0.
  { split; [|split; [constructor|apply not_elem_of_nil]]. cbn. now rewrite !fn_lookup_insert. }
  destruct (binit_loop_ok (Z.to_nat NBUF) s0 [] 0 Hr0) as (s' & Hl & Hr & Hh' & Hd' & Hw' & Hbuf);
    [done|done|intros b []%not_elem_of_nil|].
  rewrite app_nil_r, Z2Nat.id in * by done.
  assert (forall i, is_buf i -> bs_buf s' i = set_lock (initsleeplock "buffer") zero_buf) as Hb.
  { intros i Hi. rewrite Hbuf. unfold is_buf in Hi. change (bs_buf s0 i) with (bs_buf s i). rewrite Hz.
    zdecide. done. }
  exists s'. split; [exact Hl|]. split; [|exact Hr]. clear Hl. split; cbn.
  - exists (rev (seqZ 0 NBUF)). split; [exact Hr|]. intros i. rewrite elem_of_rev, elem_of_seqZ.
    unfold is_buf. lia.
  - intros i j Hi Hj E. rewrite (Hb i Hi) in E. cbn in E. congruence.
  - intros i Hi _. rewrite (Hb i Hi). split; reflexivity.
  - intros i Hi E. rewrite (Hb i Hi) in E. cbn in E. congruence.
  - intros b H. rewrite lookup_empty in H. now destruct H.
  - intros i Hi E. rewrite (Hb i Hi) in E. cbn in E. congruence.
  - done.
  - now rewrite Hd'.
  - now rewrite Hw'.
  - intros i Hi E. rewrite (Hb i Hi) in E. cbn in E. congruence.
  - intros b H. set_solver.
  - now rewrite Hh'.
Qed.
End spec.

(** ** The interface to log.c and fs.c *)

(** The operations of bio.c and the fields of [struct buf] its clients use. *)
Class BufCache (S : Type) := {
  bc_bread : Z -> Z -> M S Z;
  bc_bwrite : Z -> M S unit;
  bc_brelse : Z -> M S unit;
  bc_bpin : Z -> M S unit;
  bc_bunpin : Z -> M S unit;
  bc_blockno : S -> Z -> Z;
  bc_data : S -> Z -> block;
  bc_set_data : Z -> block -> M S unit;
}.

(** The contract, on the abstract cache.  [bc_handle s i b]: [i] points to the
    buffer of block [b]; it stays so while the block has references. *)
Class BufCacheSpec (S : Type) `{BufCache S} (dev : Z) := {
  bc_rep : S -> bview -> Prop;
  bc_handle : S -> Z -> Z -> Prop;
  bc_no s i b : bc_handle s i b -> bc_blockno s i = b;
  bc_read s V i b : bc_rep s V -> bc_handle s i b -> is_Some (v_refs V !! b) ->
    bc_data s i = v_data V b;
  bc_clean s V b : bc_rep s V -> v_refs V !! b = None -> v_data V b = v_disk V b;
  bc_refs s V b n : bc_rep s V -> v_refs V !! b = Some n -> 0 < n < 2^32;
  bc_locked s V b : bc_rep s V -> b ∈ v_locked V -> is_Some (v_refs V !! b);
  bc_bread_ok s V b :
    bc_rep s V -> b ∉ v_locked V -> default 0 (v_refs V !! b) + 1 < 2^32 ->
    (v_refs V !! b = None -> (size (v_refs V) < Z.to_nat NBUF)%nat) ->
    exists i s', bc_bread dev b s = Ok i s' /\ bc_rep s' (v_bread b V) /\ bc_handle s' i b /\
      forall j c, bc_handle s j c -> is_Some (v_refs V !! c) -> bc_handle s' j c;
  bc_put_ok s V i b d :
    bc_rep s V -> bc_handle s i b -> is_Some (v_refs V !! b) ->
    exists s', bc_set_data i d s = Ok tt s' /\ bc_rep s' (v_put b d V) /\
      forall j c, bc_handle s j c -> bc_handle s' j c;
  bc_bwrite_ok s V i b :
    bc_rep s V -> bc_handle s i b -> b ∈ v_locked V ->
    exists s', bc_bwrite i s = Ok tt s' /\ bc_rep s' (v_flush b V) /\
      forall j c, bc_handle s j c -> bc_handle s' j c;
  bc_brelse_ok s V i b n :
    bc_rep s V -> bc_handle s i b -> b ∈ v_locked V -> v_refs V !! b = Some n ->
    (n = 1 -> v_data V b = v_disk V b) ->
    exists s', bc_brelse i s = Ok tt s' /\ bc_rep s' (v_ref b (n - 1) (v_unlock b V)) /\
      forall j c, bc_handle s j c -> bc_handle s' j c;
  bc_bpin_ok s V i b n :
    bc_rep s V -> bc_handle s i b -> v_refs V !! b = Some n -> n + 1 < 2^32 ->
    exists s', bc_bpin i s = Ok tt s' /\ bc_rep s' (v_ref b (n + 1) V) /\
      forall j c, bc_handle s j c -> bc_handle s' j c;
  bc_bunpin_ok s V i b n :
    bc_rep s V -> bc_handle s i b -> v_refs V !! b = Some n ->
    (n = 1 -> (b ∉ v_locked V) /\ v_data V b = v_disk V b) ->
    exists s', bc_bunpin i s = Ok tt s' /\ bc_rep s' (v_ref b (n - 1) V) /\
      forall j c, bc_handle s j c -> bc_handle s' j c;
}.

#[export] Instance bio_cache : BufCache bstate :=
  {| bc_bread := bread; bc_bwrite := bwrite; bc_brelse := brelse; bc_bpin := bpin;
     bc_bunpin := bunpin; bc_blockno s i := b_blockno (bs_buf s i);
     bc_data s i := b_data (bs_buf s i); bc_set_data i d := upd_buf i (set_data d) |}.

(** bio.c keeps the contract. *)
#[export] Instance bio_cache_spec dev : BufCacheSpec bstate dev.
Proof.
  refine {| bc_rep := brep dev; bc_handle := handle dev |}.
  - intros s i b (_ & _ & E). exact E.
  - intros s V i b HR Hh Hr. pose proof (brep_fits dev s V i b HR Hh) as [X1 X2 X3 X4 X5 X6 X7 X8 X9].
    apply X6, X5. intros E. rewrite X4, E in Hr. now destruct Hr.
  - intros s V b HR. apply (br_clean _ _ _ HR).
  - intros s V b n. apply refs_range.
  - intros s V b HR. apply (br_sub _ _ _ HR).
  - intros s V b HR Hl Hm Hf. destruct (bread_ok dev s V b HR Hl Hm Hf) as (i & s' & ? & ? & ? & ? & _).
    exists i, s'. auto.
  - apply put_ok.
  - apply bwrite_ok.
  - apply brelse_ok.
  - apply bpin_ok.
  - apply bunpin_ok.
Defined.
