(* ===== verification/BcacheThms.v ===== *)
(** * kernel/bio.c: theorems

    The outcome of [bread] in every state, the order in which buffers are
    recycled, and what a client of the cache reads back. *)

From Stdlib Require Import List.
From stdpp Require Import base gmap numbers strings functions list.
From Stdlib Require Import ZifyBool.
From S2P Require Import Prelude Spinlock Locks Bio Bcache BcacheSpec.

Open Scope Z_scope.

Lemma size_list_to_set_le (l : list Z) : (size (list_to_set l : gset Z) <= length l)%nat.
Proof.
  induction l as [|x l IH]; [done|]. cbn [list_to_set length]. rewrite size_union_alt, size_singleton.
  assert (list_to_set l ∖ {[x]} ⊆ (list_to_set l : gset Z)) as Hs%subseteq_size by set_solver. lia.
Qed.

Section thms.
Context (dev : Z).

(** With [NBUF] blocks referenced no buffer is free. *)
Lemma no_free_buffer s V i :
  brep dev s V -> size (v_refs V) = Z.to_nat NBUF -> is_buf i -> b_refcnt (bs_buf s i) <> 0.
Proof.
  intros HR Hsz Hi E.
  pose (l := (fun j => b_blockno (bs_buf s j)) <$> (seqZ 0 i ++ seqZ (i + 1) (NBUF - i - 1))).
  assert (dom (v_refs V) ⊆ (list_to_set l : gset Z)) as Hs%subseteq_size.
  { intros b Hb%elem_of_dom. destruct (br_cached _ _ _ HR b Hb) as (j & Hj & Hd & Hn & _).
    apply elem_of_list_to_set, list_elem_of_fmap. exists j. split; [done|].
    assert (j <> i) as Hne.
    { intros ->. pose proof (br_refcnt _ _ _ HR i Hi Hd) as [_ Hr]. rewrite E, Hn in Hr. cbn in Hr.
      rewrite Hr in Hb. now destruct Hb. }
    unfold is_buf in *. apply elem_of_app. rewrite !elem_of_seqZ. lia. }
  pose proof (size_list_to_set_le l) as Hl. unfold l in Hl at 2. rewrite length_fmap, length_app, !length_seqZ in Hl.
  rewrite size_dom, Hsz in Hs. unfold is_buf, NBUF, MAXOPBLOCKS in *. lia.
Qed.

(** A block that is not cached is found nowhere on the list. *)
Lemma bget_none s V b :
  brep dev s V -> v_refs V !! b = None -> size (v_refs V) = Z.to_nat NBUF ->
  bread dev b s = Panic "bget: no buffers".
Proof.
  intros HR Hb Hsz. pose proof (br_held _ _ _ HR) as Hheld. destruct (br_ring _ _ _ HR) as (o & Ho & Hio).
  pose proof (ring_bufs s o Ho Hio) as Hlen. pose proof Ho as (Hc & Hnd & Hh).
  set (h := set_held ({[bcache_lock]} ∪ ∅) s).
  assert (forall i, i ∈ o -> is_block dev b (bs_buf s i) = false) as Hno.
  { intros i Hi%Hio. destruct (is_block dev b (bs_buf s i)) eqn:E; [|done]. unfold is_block in E. zbool.
    pose proof (br_refcnt _ _ _ HR i Hi ltac:(done)) as [_ Hr]. pose proof (no_free_buffer s V i HR Hsz Hi) as Hn.
    rewrite (proj2 (Z.eqb_neq _ _) Hn) in Hr. congruence. }
  unfold bread, bget. apply bind_panic. rewrite (bind_ok _ _ _ _ _ (lock_ok bcache_lock s Hheld)).
  erewrite bind_ok by reflexivity. fold (is_block dev b).
  rewrite (bind_ok _ _ _ _ _ (scan_next_ok h (is_block dev b) o head scan_fuel Hc Hh Hlen)).
  destruct (first_spec h (is_block dev b) o Hh) as [[-> _]|(l1 & l2 & El & Hp & _)].
  2: { exfalso. cbn in Hp. set (i := first _ _ o) in *. rewrite Hno in Hp; [done|]. rewrite El. apply elem_of_app. right. left. }
  change (negb (head =? head)) with false. cbn iota. erewrite bind_ok by reflexivity.
  rewrite (bind_ok _ _ _ _ _ (scan_prev_ok h (fun x => b_refcnt x =? 0) o head scan_fuel Hc Hh Hlen)).
  destruct (first_spec h (fun x => b_refcnt x =? 0) (rev o)) as [[-> _]|(l1 & l2 & El & Hp & _)]; [now rewrite elem_of_rev|done|].
  exfalso. set (i := first _ _ (rev o)) in *. cbn in Hp. apply Z.eqb_eq in Hp. revert Hp. eapply no_free_buffer; [done|done|].
  apply Hio. rewrite <- elem_of_rev, El. apply elem_of_app. right. left.
Qed.

(** A block this thread has locked. *)
Lemma bread_locked s V b : brep dev s V -> b ∈ v_locked V -> bread dev b s = Diverge.
Proof.
  intros HR Hin. pose proof (br_held _ _ _ HR) as Hheld. destruct (br_sub _ _ _ HR b Hin) as [n Hn].
  unfold bread, bget. rewrite bind_assoc, (bind_ok _ _ _ _ _ (lock_ok bcache_lock s Hheld)).
  rewrite bind_assoc. erewrite bind_ok by reflexivity. fold (is_block dev b).
  destruct (bget_finds dev s V b HR) as [(i & Hh & Hscan & Hne)|(_ & Hr & _)]; [congruence| |congruence].
  rewrite bind_assoc, (bind_ok _ _ _ _ _ Hscan). rewrite (proj2 (Z.eqb_neq i head) Hne). cbn [negb].
  pose proof (brep_fits dev s V i b HR Hh) as [_ _ _ _ _ _ _ X8 _]. rewrite decide_True in X8 by done.
  rewrite bind_assoc. erewrite bind_ok by reflexivity. rewrite bind_assoc. erewrite bind_ok by now apply unlock_ok.
  rewrite bind_assoc. unfold acquiresleep. rewrite bind_assoc. erewrite bind_ok by now apply lock_ok.
  rewrite bind_assoc. erewrite bind_ok by reflexivity.
  cbn. rewrite fn_lookup_insert. cbn. destruct X8 as [-> _]. done.
Qed.

(** C19: [bread] in every state of the cache.  It returns a locked buffer with
    the contents of the block, one more reference and every other block
    untouched, unless the thread has the block locked already, when it waits
    for itself, or all [NBUF] buffers are referenced and none is the block's,
    when it panics. *)
Theorem bread_total s V b :
  brep dev s V -> default 0 (v_refs V !! b) + 1 < 2^32 ->
  if decide (b ∈ v_locked V) then bread dev b s = Diverge
  else if decide (v_refs V !! b = None /\ size (v_refs V) = Z.to_nat NBUF) then bread dev b s = Panic "bget: no buffers"
  else exists i s', bread dev b s = Ok i s' /\ brep dev s' (v_bread b V) /\ handle dev s' i b /\
    b_data (bs_buf s' i) = v_data V b.
Proof.
  intros HR Hmax. case_decide as Hl; [now apply (bread_locked s V)|].
  case_decide as Hf; [destruct Hf; now apply (bget_none s V)|].
  destruct (bread_ok dev s V b HR Hl Hmax) as (i & s' & H1 & H2 & H3 & _ & H4); [|exists i, s'; auto].
  intros E. assert (size (v_refs V) <= Z.to_nat NBUF)%nat; [|destruct (decide (size (v_refs V) = Z.to_nat NBUF)); [tauto|lia]].
  pose (l := (fun j => b_blockno (bs_buf s j)) <$> seqZ 0 NBUF).
  assert (dom (v_refs V) ⊆ (list_to_set l : gset Z)) as Hs%subseteq_size.
  { intros c Hc%elem_of_dom. destruct (br_cached _ _ _ HR c Hc) as (j & Hj & Hd & Hn & _).
    apply elem_of_list_to_set, list_elem_of_fmap. exists j. split; [done|]. apply elem_of_seqZ. unfold is_buf in Hj. lia. }
  pose proof (size_list_to_set_le l) as Hsz. unfold l in Hsz at 2. rewrite length_fmap, length_seqZ, size_dom in *. lia.
Qed.

Lemma free_unlocked s V i :
  brep dev s V -> is_buf i -> b_refcnt (bs_buf s i) = 0 -> sl_locked (b_lock (bs_buf s i)) = 0.
Proof.
  intros HR Hi Hri. destruct (decide (b_dev (bs_buf s i) = dev)) as [Hd|Hd]; [|now apply (br_other _ _ _ HR)].
  pose proof (br_lock _ _ _ HR i Hi Hd) as Hl. cbn zeta in Hl. case_decide as Hin; [|done].
  apply (br_sub _ _ _ HR) in Hin. pose proof (br_refcnt _ _ _ HR i Hi Hd) as [_ E].
  rewrite Hri in E. cbn in E. rewrite E in Hin. now destruct Hin.
Qed.

(** A block no buffer caches is read into the free buffer nearest the end of
    the list; the list keeps its order. *)
Lemma bread_recycles s V b o :
  brep dev s V -> ring s o -> (forall i, i ∈ o <-> is_buf i) ->
  (forall j, is_buf j -> b_dev (bs_buf s j) = dev -> b_blockno (bs_buf s j) <> b) ->
  (size (v_refs V) < Z.to_nat NBUF)%nat ->
  exists i s' l1 l2, bread dev b s = Ok i s' /\ o = l1 ++ i :: l2 /\ b_refcnt (bs_buf s i) = 0 /\
    (forall j, j ∈ l2 -> b_refcnt (bs_buf s j) <> 0) /\ ring s' o.
Proof.
  intros HR Ho Hio Hno Hsz. pose proof (br_held _ _ _ HR) as Hheld.
  pose proof (ring_bufs s o Ho Hio) as Hlen. pose proof Ho as (Hc & Hnd & Hh).
  set (h := set_held ({[bcache_lock]} ∪ ∅) s). unfold bread, bget.
  rewrite bind_assoc, (bind_ok _ _ _ _ _ (lock_ok bcache_lock s Hheld)), bind_assoc.
  erewrite bind_ok by reflexivity. fold (is_block dev b).
  rewrite bind_assoc, (bind_ok _ _ _ _ _ (scan_next_ok h (is_block dev b) o head scan_fuel Hc Hh Hlen)).
  destruct (first_spec h (is_block dev b) o Hh) as [[-> _]|(k1 & k2 & El & Hp & _)].
  2: { exfalso. set (i := first _ _ o) in *. unfold is_block in Hp. zbool. apply (Hno i); [|done|done].
       apply Hio. rewrite El. apply elem_of_app. right. left. }
  change (negb (head =? head)) with false. cbn iota. rewrite bind_assoc. erewrite bind_ok by reflexivity.
  rewrite bind_assoc, (bind_ok _ _ _ _ _ (scan_prev_ok h (fun x => b_refcnt x =? 0) o head scan_fuel Hc Hh Hlen)).
  destruct (first_spec h (fun x => b_refcnt x =? 0) (rev o)) as [[_ Hn]|(k1 & k2 & El & Hp & Hne & Hl)];
    [now rewrite elem_of_rev| |].
  { exfalso. destruct (free_buffer dev s V HR Hsz) as (i & Hi & Hri). specialize (Hn i). cbn in Hn.
    rewrite elem_of_rev, Hio, Hri in Hn. now specialize (Hn Hi). }
  set (i := first _ _ (rev o)) in *. rewrite (proj2 (Z.eqb_neq i head) Hne). cbn [negb]. cbn in Hp. apply Z.eqb_eq in Hp.
  assert (o = rev k2 ++ i :: rev k1) as Eo.
  { rewrite <- (rev_involutive o), El, rev_app_distr. cbn. now rewrite <- app_assoc. }
  assert (sl_locked (b_lock (bs_buf s i)) = 0) as Hul.
  { eapply free_unlocked; [exact HR| |done]. apply Hio. rewrite Eo. apply elem_of_app. right. left. }
  destruct (bread_tail h i (fun x => Buf 0 dev b (b_lock x) 1 (b_data x)) eq_refl Hul) as (s' & H1 & E1 & E2 & _).
  exists i, s', (rev k2), (rev k1). split; [exact H1|]. split; [done|]. split; [done|]. split.
  - intros j Hj E. apply (proj1 (elem_of_rev _ _)), Hl in Hj. cbn in Hj. now rewrite E in Hj.
  - now apply (ring_links s).
Qed.

(** Buffers are recycled in least-recently-used order.  When the last
    reference to a buffer is released the buffer moves to the front of the
    list and the others keep their order; other releases leave the list alone;
    and a block that no buffer caches is read into the free buffer nearest
    the end of the list. *)
Theorem bcache_lru s V o :
  brep dev s V -> ring s o -> (forall i, i ∈ o <-> is_buf i) ->
  (forall i b n, handle dev s i b -> b ∈ v_locked V -> v_refs V !! b = Some n ->
     exists s' l1 l2, brelse i s = Ok tt s' /\ o = l1 ++ i :: l2 /\ ring s' (if n =? 1 then i :: l1 ++ l2 else o)) /\
  (forall b, (forall j, is_buf j -> b_dev (bs_buf s j) = dev -> b_blockno (bs_buf s j) <> b) ->
     (size (v_refs V) < Z.to_nat NBUF)%nat ->
     exists i s' l1 l2, bread dev b s = Ok i s' /\ o = l1 ++ i :: l2 /\ b_refcnt (bs_buf s i) = 0 /\
       (forall j, j ∈ l2 -> b_refcnt (bs_buf s j) <> 0) /\ ring s' o).
Proof.
  intros HR Ho Hio. split; [|intros b Hno Hsz; now apply (bread_recycles s V)].
  intros i b n Hh Hin Hn. assert (i ∈ o) as Hoi by apply Hio, Hh.
  apply list_elem_of_split in Hoi as (l1 & l2 & ->).
  destruct (brelse_run dev s V i b l1 l2 HR Hh Hin Ho) as (s' & H1 & _ & _ & _ & _ & Hr & _).
  exists s', l1, l2. split; [done|]. split; [done|].
  pose proof (brep_fits dev s V i b HR Hh) as [_ _ X3 X4 _ _ _ _ _]. rewrite Hn in X4.
  destruct (Z.eqb_spec (b_refcnt (bs_buf s i)) 0); [done|]. injection X4 as ->. cbn in Hr.
  rewrite u32_small in Hr by (unfold is_u32; lia).
  destruct (Z.eqb_spec (b_refcnt (bs_buf s i)) 1), (Z.eqb_spec (b_refcnt (bs_buf s i) - 1) 0); lia || done.
Qed.

(** Reading blocks one after the other, and a write. *)
Fixpoint reads (bs : list Z) : M bstate unit :=
  match bs with
  | [] => mret tt
  | b :: bs' => i ← bread dev b; brelse i;; reads bs'
  end.

Definition write_block (b : Z) (d : block) : M bstate unit :=
  i ← bread dev b; upd_buf i (set_data d);; bwrite i;; brelse i.

(** No block is referenced. *)
Definition resting (V : bview) : Prop := v_refs V = ∅ /\ v_locked V = ∅.

Lemma bread_brelse s V b d :
  brep dev s V -> resting V ->
  exists i s1, bread dev b s = Ok i s1 /\ b_data (bs_buf s1 i) = v_data V b /\
    (exists s2, brelse i s1 = Ok tt s2 /\ brep dev s2 V) /\
    exists s2, (upd_buf i (set_data d);; bwrite i;; brelse i) s1 = Ok tt s2 /\
      brep dev s2 (BView (<[b := d]> (v_disk V)) (v_writes V ++ [(b, d)]) (<[b := d]> (v_data V)) ∅ ∅).
Proof.
  intros HR [Hr Hl]. destruct (bread_ok dev s V b HR) as (i & s1 & H1 & R1 & h1 & _ & D1);
    [set_solver|rewrite Hr, lookup_empty; cbn; lia|intros _; rewrite Hr, map_size_empty; unfold NBUF, MAXOPBLOCKS; lia|].
  assert (v_bread b V = BView (v_disk V) (v_writes V) (v_data V) {[b := 1]} {[b]}) as EV.
  { unfold v_bread, v_ref, v_lock. cbn. rewrite Hr, Hl, lookup_empty. cbn. f_equal. set_solver. }
  rewrite EV in R1. exists i, s1. split; [done|]. split; [done|].
  assert (forall W, v_refs W = {[b := 1]} -> v_locked W = {[b]} ->
    v_ref b (1 - 1) (v_unlock b W) = BView (v_disk W) (v_writes W) (v_data W) ∅ ∅) as EW.
  { intros W E1 E2. unfold v_ref, v_unlock. cbn. rewrite E1, E2. f_equal; [apply delete_singleton_eq|set_solver]. }
  split.
  - destruct (brelse_ok dev s1 _ i b 1 R1 h1) as (s2 & H2 & R2 & _);
      [cbn; set_solver|cbn; apply lookup_singleton_eq|intros _; apply (br_clean _ _ _ HR); now rewrite Hr|].
    exists s2. split; [done|]. rewrite EW in R2 by done. destruct V. cbn in *. now subst.
  - destruct (put_ok dev s1 _ i b d R1 h1) as (s2 & H2 & R2 & k2); [cbn; rewrite lookup_singleton_eq; eauto|].
    rewrite (bind_ok _ _ _ _ _ H2).
    destruct (bwrite_ok dev s2 _ i b R2) as (s3 & H3 & R3 & k3); [auto|cbn; set_solver|]. rewrite (bind_ok _ _ _ _ _ H3).
    destruct (brelse_ok dev s3 _ i b 1 R3) as (s4 & H4 & R4 & _);
      [auto|cbn; set_solver|cbn; apply lookup_singleton_eq|intros _; cbn; now rewrite !fn_lookup_insert|].
    exists s4. split; [exact H4|]. rewrite EW in R4 by done. cbn in R4. now rewrite fn_lookup_insert in R4.
Qed.

Lemma reads_ok bs : forall s V, brep dev s V -> resting V -> exists s', reads bs s = Ok tt s' /\ brep dev s' V.
Proof.
  induction bs as [|b bs IH]; intros s V HR HV; cbn [reads]; [eauto|].
  destruct (bread_brelse s V b [] HR HV) as (i & s1 & H1 & _ & (s2 & H2 & R2) & _).
  rewrite (bind_ok _ _ _ _ _ H1), (bind_ok _ _ _ _ _ H2). eauto.
Qed.

(** What is written is read back, however many blocks are read in
    between and so whichever buffers are recycled; and the write is on the
    disk. *)
Theorem write_read_roundtrip s V b d bs :
  brep dev s V -> resting V ->
  exists i s', (write_block b d;; reads bs;; bread dev b) s = Ok i s' /\
    b_data (bs_buf s' i) = d /\ bs_disk s' = <[b := d]> (bs_disk s) /\
    forall c, c <> b -> exists j s2, (write_block b d;; reads bs;; bread dev c) s = Ok j s2 /\
      b_data (bs_buf s2 j) = v_data V c.
Proof.
  intros HR HV. destruct (bread_brelse s V b d HR HV) as (i & s1 & H1 & _ & _ & s2 & H2 & R2).
  assert (write_block b d s = Ok tt s2) as Hw by (unfold write_block; now rewrite (bind_ok _ _ _ _ _ H1)).
  destruct (reads_ok bs s2 _ R2) as (s3 & H3 & R3); [done|].
  assert (forall c, exists j s4, (write_block b d;; reads bs;; bread dev c) s = Ok j s4 /\
    b_data (bs_buf s4 j) = (<[b := d]> (v_data V) : Z -> block) c /\ bs_disk s4 = <[b := d]> (bs_disk s)) as Hc.
  { intros c. rewrite (bind_ok _ _ _ _ _ Hw), (bind_ok _ _ _ _ _ H3).
    destruct (bread_ok dev s3 _ c R3) as (j & s4 & H4 & R4 & _ & _ & D4);
      [cbn; set_solver|cbn; rewrite lookup_empty; cbn; lia|cbn; rewrite map_size_empty; unfold NBUF, MAXOPBLOCKS; lia|].
    exists j, s4. split; [done|]. split; [exact D4|]. rewrite (br_disk _ _ _ R4). cbn. now rewrite (br_disk _ _ _ HR). }
  destruct (Hc b) as (j & s4 & H4 & D4 & K4). rewrite fn_lookup_insert in D4. exists j, s4. do 3 (split; [done|]).
  intros c Hne. destruct (Hc c) as (k & s5 & H5 & D5 & _). rewrite fn_lookup_insert_ne in D5 by done. eauto.
Qed.
End thms.

(** ** A machine with a zeroed disk *)

Definition zero_block : block := replicate (Z.to_nat BSIZE) 0.
Definition demo_mem : bstate :=
  BState ∅ 1 (fun _ => zero_buf) (fun _ => 0) (fun _ => 0) (fun _ => zero_block) [].
Definition demo_cache : bstate := after binit demo_mem.

Lemma demo_cache_rep :
  brep 1 demo_cache (v_init (fun _ => zero_block)) /\ ring demo_cache (rev (seqZ 0 NBUF)).
Proof.
  destruct (binit_ok 1 demo_mem) as (s' & H1 & R1 & Hr); [lia|reflexivity|reflexivity|reflexivity|].
  unfold demo_cache. rewrite (after_ok _ _ _ _ H1). split; [exact R1|exact Hr].
Qed.

Lemma demo_cache_empty j : is_buf j -> b_dev (bs_buf demo_cache j) <> 1.
Proof.
  intros Hj E. pose proof demo_cache_rep as [HR _].
  pose proof (br_data _ _ _ HR j Hj E) as Hd.
  assert (forallb (fun i => b_dev (bs_buf demo_cache i) =? 0) (seqZ 0 NBUF) = true) as Hz by (vm_compute; reflexivity).
  rewrite forallb_forall in Hz. specialize (Hz j). rewrite E in Hz. unfold is_buf in Hj.
  assert (In j (seqZ 0 NBUF)) as Hin by (apply list_elem_of_In, elem_of_seqZ; lia). now specialize (Hz Hin).
Qed.

Lemma bread_total_witness : exists i s', bread 1 5 demo_cache = Ok i s' /\ b_data (bs_buf s' i) = zero_block.
Proof.
  pose proof (bread_total 1 demo_cache (v_init (fun _ => zero_block)) 5 (proj1 demo_cache_rep)) as H.
  rewrite decide_False in H by (cbn; set_solver). rewrite decide_False in H by (cbn; rewrite map_size_empty; intros [_ E]; discriminate E).
  destruct H as (i & s' & H & _ & _ & D); [cbn; rewrite lookup_empty; cbn; lia|]. exists i, s'. split; [exact H|exact D].
Defined.

Lemma bcache_lru_witness : exists i s', bread 1 5 demo_cache = Ok i s' /\ ring s' (rev (seqZ 0 NBUF)).
Proof.
  destruct (bcache_lru 1 demo_cache _ _ (proj1 demo_cache_rep) (proj2 demo_cache_rep)) as [_ H].
  - intros i. rewrite elem_of_rev, elem_of_seqZ. unfold is_buf. lia.
  - destruct (H 5) as (i & s' & l1 & l2 & Hb & _ & _ & _ & Hr).
    + intros j Hj Hd. destruct (demo_cache_empty j Hj Hd).
    + cbn. rewrite map_size_empty. unfold NBUF, MAXOPBLOCKS. lia.
    + exists i, s'. split; [exact Hb|exact Hr].
Defined.

Lemma write_read_roundtrip_witness :
  exists i s', (write_block 1 5 [7];; reads 1 (seqZ 6 40);; bread 1 5) demo_cache = Ok i s' /\ b_data (bs_buf s' i) = [7].
Proof.
  destruct (write_read_roundtrip 1 demo_cache _ 5 [7] (seqZ 6 40) (proj1 demo_cache_rep)) as (i & s' & H & D & _).
  - split; reflexivity.
  - exists i, s'. split; [exact H|exact D].
Defined.
