(* ===== verification/Log.v ===== *)
(** * kernel/log.c: the operations

    The write-ahead log over any buffer cache with the contract of
    [BufCacheSpec].  The state is the cache's, the spin locks the thread holds
    at this level, and [struct log]; [lg_block] is the array [lh.block]. *)

From stdpp Require Import base gmap numbers strings functions list.
From S2P Require Import Prelude Mem Block Spinlock Locks Bio Bcache BcacheSpec.

Open Scope Z_scope.

Record log := Log {
  lg_start : Z;
  lg_size : Z;
  lg_outstanding : Z;
  lg_committing : Z;
  lg_dev : Z;
  lg_n : Z;
  lg_block : Z -> Z;
}.

Record lstate (S : Type) := LState { l_bc : S; l_held : gset lockid; l_pid : Z; l_log : log }.
Arguments LState {S}.
Arguments l_bc {S}.
Arguments l_held {S}.
Arguments l_pid {S}.
Arguments l_log {S}.

Definition log_lock : lockid := ("log"%string, 0).

Definition set_n (n : Z) (l : log) : log :=
  Log (lg_start l) (lg_size l) (lg_outstanding l) (lg_committing l) (lg_dev l) n (lg_block l).
Definition set_block (f : Z -> Z) (l : log) : log :=
  Log (lg_start l) (lg_size l) (lg_outstanding l) (lg_committing l) (lg_dev l) (lg_n l) f.
Definition set_outstanding (k : Z) (l : log) : log :=
  Log (lg_start l) (lg_size l) k (lg_committing l) (lg_dev l) (lg_n l) (lg_block l).
Definition set_committing (c : Z) (l : log) : log :=
  Log (lg_start l) (lg_size l) (lg_outstanding l) c (lg_dev l) (lg_n l) (lg_block l).

(** The log header in a block: [lh->n] and [lh->block[i]], both [int]. *)
Definition hd_n (d : block) : Z := i32 (get32 0 d).
Definition hd_block (d : block) (i : Z) : Z := i32 (get32 (4 + 4 * i) d).

(** [hb->block[i] = blk(i)] for the [k] entries from [i]. *)
Fixpoint put_blocks (k : nat) (i : Z) (blk : Z -> Z) (d : block) : block :=
  match k with
  | O => d
  | S k' => put_blocks k' (i + 1) blk (put32 (4 + 4 * i) (blk i) d)
  end.

(** The header block after [write_head]'s assignments. *)
Definition head_bytes (n : Z) (blk : Z -> Z) (d : block) : block :=
  put_blocks (Z.to_nat n) 0 blk (put32 0 n d).

(** [log.lh.block[i] = lh->block[i]] for the [k] entries from [i]. *)
Fixpoint take_blocks (k : nat) (i : Z) (d : block) (blk : Z -> Z) : Z -> Z :=
  match k with
  | O => blk
  | S k' => take_blocks k' (i + 1) d (<[i := hd_block d i]> blk)
  end.

(** The index at which [log_write] finds [b], or [n]. *)
Fixpoint find_block (k : nat) (i : Z) (blk : Z -> Z) (b : Z) : Z :=
  match k with
  | O => i
  | S k' => if blk i =? b then i else find_block k' (i + 1) blk b
  end.

Section ops.
Context {S : Type} `{BufCache S}.

#[export] Instance lstate_thread : Thread (lstate S) :=
  {| held := Field l_held (fun h s => LState (l_bc s) h (l_pid s) (l_log s)); mypid := l_pid |}.

Definition set_log (f : log -> log) : M (lstate S) unit :=
  modify (fun s => LState (l_bc s) (l_held s) (l_pid s) (f (l_log s))).

(** An operation of bio.c. *)
Definition bio {A} (c : M S A) : M (lstate S) A := fun s =>
  match c (l_bc s) with
  | Ok a b => Ok a (LState b (l_held s) (l_pid s) (l_log s))
  | Panic msg => Panic msg
  | Diverge => Diverge
  end.

(** [memmove(dst->data, src->data, BSIZE)] *)
Definition copy_buf (dst src : Z) : M (lstate S) unit :=
  d ← gets (fun s => bc_data (l_bc s) src);
  bio (bc_set_data dst d).

(** One round of [install_trans]. *)
Definition install_one (recovering : bool) (tail : Z) : M (lstate S) unit :=
  l ← gets l_log;
  lbuf ← bio (bc_bread (lg_dev l) (lg_start l + tail + 1));
  dbuf ← bio (bc_bread (lg_dev l) (lg_block l tail));
  copy_buf dbuf lbuf;;
  bio (bc_bwrite dbuf);;
  (if recovering then mret tt else bio (bc_bunpin dbuf));;
  bio (bc_brelse lbuf);;
  bio (bc_brelse dbuf).

Definition install_trans (recovering : bool) : M (lstate S) unit :=
  n ← gets (fun s => lg_n (l_log s));
  for_loop (Z.to_nat n) 0 (install_one recovering).

Definition read_head : M (lstate S) unit :=
  l ← gets l_log;
  buf ← bio (bc_bread (lg_dev l) (lg_start l));
  d ← gets (fun s => bc_data (l_bc s) buf);
  set_log (fun l => set_block (take_blocks (Z.to_nat (hd_n d)) 0 d (lg_block l)) (set_n (hd_n d) l));;
  bio (bc_brelse buf).

Definition write_head : M (lstate S) unit :=
  l ← gets l_log;
  buf ← bio (bc_bread (lg_dev l) (lg_start l));
  d ← gets (fun s => bc_data (l_bc s) buf);
  bio (bc_set_data buf (head_bytes (lg_n l) (lg_block l) d));;
  bio (bc_bwrite buf);;
  bio (bc_brelse buf).

Definition recover_from_log : M (lstate S) unit :=
  read_head;;
  install_trans true;;
  set_log (set_n 0);;
  write_head.

Definition initlog (dev logstart nlog : Z) : M (lstate S) unit :=
  if BSIZE <=? 4 * (1 + LOGSIZE) then panic "initlog: too big logheader" else
  set_log (fun l => Log logstart nlog (lg_outstanding l) (lg_committing l) dev (lg_n l) (lg_block l));;
  recover_from_log.

(** Where the code sleeps, only another thread's [end_op] can let it go on. *)
Definition begin_op : M (lstate S) unit :=
  lock log_lock;;
  l ← gets l_log;
  if truthy (lg_committing l) then diverge
  else if LOGSIZE <? lg_n l + (lg_outstanding l + 1) * MAXOPBLOCKS then diverge
  else
    set_log (fun l => set_outstanding (lg_outstanding l + 1) l);;
    unlock log_lock.

(** One round of [write_log]. *)
Definition write_one (tail : Z) : M (lstate S) unit :=
  l ← gets l_log;
  to ← bio (bc_bread (lg_dev l) (lg_start l + tail + 1));
  from ← bio (bc_bread (lg_dev l) (lg_block l tail));
  copy_buf to from;;
  bio (bc_bwrite to);;
  bio (bc_brelse from);;
  bio (bc_brelse to).

Definition write_log : M (lstate S) unit :=
  n ← gets (fun s => lg_n (l_log s));
  for_loop (Z.to_nat n) 0 write_one.

Definition commit : M (lstate S) unit :=
  n ← gets (fun s => lg_n (l_log s));
  if 0 <? n then
    write_log;;
    write_head;;
    install_trans false;;
    set_log (set_n 0);;
    write_head
  else mret tt.

Definition end_op : M (lstate S) unit :=
  lock log_lock;;
  set_log (fun l => set_outstanding (lg_outstanding l - 1) l);;
  l ← gets l_log;
  if truthy (lg_committing l) then panic "log.committing" else
  let do_commit := lg_outstanding l =? 0 in
  (if do_commit then set_log (set_committing 1) else mret tt);;
  unlock log_lock;;
  if do_commit then
    commit;;
    lock log_lock;;
    set_log (set_committing 0);;
    unlock log_lock
  else mret tt.

Definition log_write (b : Z) : M (lstate S) unit :=
  lock log_lock;;
  l ← gets l_log;
  if (LOGSIZE <=? lg_n l) || (lg_size l - 1 <=? lg_n l) then panic "too big a transaction" else
  if lg_outstanding l <? 1 then panic "log_write outside of trans" else
  no ← gets (fun s => bc_blockno (l_bc s) b);
  let i := find_block (Z.to_nat (lg_n l)) 0 (lg_block l) no in
  set_log (fun l => set_block (<[i := no]> (lg_block l)) l);;
  (if i =? lg_n l then
     bio (bc_bpin b);;
     set_log (fun l => set_n (lg_n l + 1) l)
   else mret tt);;
  unlock log_lock.
End ops.
