(* ===== verification/LogSpec.v ===== *)
(** * kernel/log.c: atomic transactions

    The functions of log.c as sequences of disk writes, and what recovery
    makes of the disk when the machine stops between any two of them. *)

From stdpp Require Import base gmap numbers strings functions list.
From Stdlib Require Import ZifyBool.
From S2P Require Import Prelude Mem Block Spinlock Locks Bio Bcache BcacheSpec Log.

Open Scope Z_scope.

(** ** Disk writes *)

(** The disk after the writes [ws], in order. *)
Definition apply_writes (ws : list (Z * block)) (d : Z -> block) : Z -> block :=
  foldl (fun d w => <[w.1 := w.2]> d) d ws.

Lemma apply_writes_app ws ws' d :
  apply_writes (ws ++ ws') d = apply_writes ws' (apply_writes ws d).
Proof. apply foldl_app. Qed.

Lemma apply_writes_cons c x ws d : apply_writes ((c, x) :: ws) d = apply_writes ws (<[c := x]> d).
Proof. done. Qed.

Lemma apply_writes_ne ws d b : b ∉ ws.*1 -> apply_writes ws d b = d b.
Proof.
  revert d; induction ws as [|[c x] ws IH]; intros d Hb; [done|]. rewrite apply_writes_cons.
  cbn in Hb. rewrite not_elem_of_cons in Hb. rewrite IH by tauto. now apply fn_lookup_insert_ne.
Qed.

Lemma apply_writes_ext ws d d' b : (forall c, d c = d' c) -> apply_writes ws d b = apply_writes ws d' b.
Proof.
  revert d d'; induction ws as [|[c x] ws IH]; intros d d' E; [apply E|]. rewrite !apply_writes_cons. apply IH.
  intros c'. destruct (decide (c' = c)) as [->|]; [now rewrite !fn_lookup_insert|now rewrite !fn_lookup_insert_ne].
Qed.

Lemma apply_writes_in ws d b x :
  NoDup ws.*1 -> (b, x) ∈ ws -> apply_writes ws d b = x.
Proof.
  revert d; induction ws as [|[c y] ws IH]; intros d Hnd Hin; [now apply not_elem_of_nil in Hin|].
  rewrite apply_writes_cons. cbn in Hnd. apply NoDup_cons in Hnd as [Hc Hnd]. apply elem_of_cons in Hin as [[= -> ->]|Hin]; [|auto].
  rewrite apply_writes_ne by done. apply fn_lookup_insert.
Qed.

(** ** The abstract cache under a read and its release *)

Definition v_relse (b : Z) (V : bview) : bview :=
  v_ref b (default 0 (v_refs V !! b) - 1) (v_unlock b V).

Lemma v_ref_lookup b n V c :
  v_refs (v_ref b n V) !! c =
  if decide (c = b) then (if n =? 0 then None else Some n) else v_refs V !! c.
Proof.
  cbn. destruct (decide (c = b)) as [->|Hne], (n =? 0);
    rewrite ?lookup_delete_eq, ?lookup_insert_eq, ?lookup_delete_ne, ?lookup_insert_ne by done; done.
Qed.

Lemma bview_eq V V' :
  v_disk V = v_disk V' -> v_writes V = v_writes V' -> v_data V = v_data V' ->
  (forall c, v_refs V !! c = v_refs V' !! c) -> (forall c, c ∈ v_locked V <-> c ∈ v_locked V') -> V = V'.
Proof.
  destruct V, V'; cbn. intros -> -> -> Hr Hl. f_equal; [now apply map_eq|now apply set_eq].
Qed.

Section logspec.
Context {S : Type} `{BC : BufCache S} (dev : Z) `{BS : !BufCacheSpec S dev}.

(** The cache of [s] is [V]; no lock of this level is held. *)
Definition lrep (s : lstate S) (V : bview) : Prop := bc_rep (l_bc s) V /\ l_held s = ∅.

(** Only the cache of [s'] differs from that of [s]. *)
Definition same_log (s s' : lstate S) : Prop :=
  l_held s' = l_held s /\ l_pid s' = l_pid s /\ l_log s' = l_log s.

Definition hnd (s : lstate S) (i b : Z) : Prop := bc_handle (l_bc s) i b.

(** References that stay far from the counter's width. *)
Definition few_refs (V : bview) : Prop := forall b, default 0 (v_refs V !! b) < 2^31.

Lemma same_log_refl s : same_log s s.
Proof. done. Qed.

Lemma same_log_trans s1 s2 s3 : same_log s1 s2 -> same_log s2 s3 -> same_log s1 s3.
Proof. intros (? & ? & ?) (? & ? & ?). repeat split; congruence. Qed.

Lemma bio_ok {A} (c : M S A) s a b :
  c (l_bc s) = Ok a b -> bio c s = Ok a (LState b (l_held s) (l_pid s) (l_log s)).
Proof. intros E. unfold bio. now rewrite E. Qed.

(** The operations of the cache in the log's state. *)
Lemma bread_l s V b :
  lrep s V -> b ∉ v_locked V -> default 0 (v_refs V !! b) + 1 < 2^32 ->
  (v_refs V !! b = None -> (size (v_refs V) < Z.to_nat NBUF)%nat) ->
  exists i s', bio (bc_bread dev b) s = Ok i s' /\ lrep s' (v_bread b V) /\ same_log s s' /\
    hnd s' i b /\ forall j c, hnd s j c -> is_Some (v_refs V !! c) -> hnd s' j c.
Proof.
  intros [HR Hh] Hl Hm Hf. destruct (bc_bread_ok (l_bc s) V b HR Hl Hm Hf) as (i & b' & Hb & HR' & Hi & Hk).
  exists i. eexists. split; [apply bio_ok; exact Hb|]. repeat split; auto.
Qed.

Lemma put_l s V i b d :
  lrep s V -> hnd s i b -> is_Some (v_refs V !! b) ->
  exists s', bio (bc_set_data i d) s = Ok tt s' /\ lrep s' (v_put b d V) /\ same_log s s' /\
    forall j c, hnd s j c -> hnd s' j c.
Proof.
  intros [HR Hh] Hi Hr. destruct (bc_put_ok (l_bc s) V i b d HR Hi Hr) as (b' & Hb & HR' & Hk).
  eexists. split; [apply bio_ok; exact Hb|]. repeat split; auto.
Qed.

Lemma bwrite_l s V i b :
  lrep s V -> hnd s i b -> b ∈ v_locked V ->
  exists s', bio (bc_bwrite i) s = Ok tt s' /\ lrep s' (v_flush b V) /\ same_log s s' /\
    forall j c, hnd s j c -> hnd s' j c.
Proof.
  intros [HR Hh] Hi Hr. destruct (bc_bwrite_ok (l_bc s) V i b HR Hi Hr) as (b' & Hb & HR' & Hk).
  eexists. split; [apply bio_ok; exact Hb|]. repeat split; auto.
Qed.

Lemma brelse_l s V i b :
  lrep s V -> hnd s i b -> b ∈ v_locked V ->
  (v_refs V !! b = Some 1 -> v_data V b = v_disk V b) ->
  exists s', bio (bc_brelse i) s = Ok tt s' /\ lrep s' (v_relse b V) /\ same_log s s' /\
    forall j c, hnd s j c -> hnd s' j c.
Proof.
  intros [HR Hh] Hi Hl Hc. destruct (bc_locked _ _ _ HR Hl) as [n Hn].
  destruct (bc_brelse_ok (l_bc s) V i b n HR Hi Hl Hn) as (b' & Hb & HR' & Hk); [intros ->; auto|].
  eexists. split; [apply bio_ok; exact Hb|]. unfold v_relse. rewrite Hn. repeat split; auto.
Qed.

Lemma bunpin_l s V i b n :
  lrep s V -> hnd s i b -> v_refs V !! b = Some n -> 1 < n ->
  exists s', bio (bc_bunpin i) s = Ok tt s' /\ lrep s' (v_ref b (n - 1) V) /\ same_log s s' /\
    forall j c, hnd s j c -> hnd s' j c.
Proof.
  intros [HR Hh] Hi Hn Hgt. destruct (bc_bunpin_ok (l_bc s) V i b n HR Hi Hn) as (b' & Hb & HR' & Hk); [lia|].
  eexists. split; [apply bio_ok; exact Hb|]. repeat split; auto.
Qed.

Lemma data_l s V i b : lrep s V -> hnd s i b -> is_Some (v_refs V !! b) -> bc_data (l_bc s) i = v_data V b.
Proof. intros [HR _] Hi Hr. eapply bc_read; eauto. Qed.

(** ** Reading and releasing blocks *)

Lemma refs_nonneg s V b : lrep s V -> 0 <= default 0 (v_refs V !! b).
Proof.
  intros [HR _]. destruct (v_refs V !! b) as [n|] eqn:E; cbn; [|lia].
  pose proof (bc_refs _ _ _ _ HR E). lia.
Qed.

Lemma bread_lookup V b c :
  0 <= default 0 (v_refs V !! b) ->
  v_refs (v_bread b V) !! c =
  if decide (c = b) then Some (default 0 (v_refs V !! b) + 1) else v_refs V !! c.
Proof.
  intros Hn. unfold v_bread. change (v_refs (v_lock b ?W)) with (v_refs W). rewrite v_ref_lookup.
  destruct (decide (c = b)); [|done]. now rewrite (proj2 (Z.eqb_neq _ 0)) by lia.
Qed.

Lemma relse_lookup V b c :
  v_refs (v_relse b V) !! c =
  if decide (c = b)
  then (if default 0 (v_refs V !! b) - 1 =? 0 then None else Some (default 0 (v_refs V !! b) - 1))
  else v_refs V !! c.
Proof. unfold v_relse. now rewrite v_ref_lookup. Qed.

Lemma size_bread V b : (size (v_refs (v_bread b V)) <= size (v_refs V) + 1)%nat.
Proof.
  cbn. case_goal; [rewrite map_size_delete; destruct (v_refs V !! b); cbn; lia|].
  rewrite map_size_insert. destruct (v_refs V !! b); cbn; lia.
Qed.

(** Releasing what was read restores the counts. *)
Lemma undo_refs n o : 0 <= default 0 o -> (forall k, o = Some k -> 0 < k) -> n = default 0 o + 1 ->
  (if n - 1 =? 0 then None else Some (n - 1)) = o.
Proof. intros H0 Hk ->. destruct o as [k|]; cbn in *; [|done]. specialize (Hk k eq_refl). case_goal; lia || (f_equal; lia). Qed.

(** The effect of a write of [d] to the unreferenced block [b] through the cache. *)
Definition v_logged (b : Z) (d : block) (V : bview) : bview :=
  BView (<[b := d]> (v_disk V)) (v_writes V ++ [(b, d)]) (<[b := d]> (v_data V)) (v_refs V) (v_locked V).

(** Buffers for [B] and one more block. *)
Definition room (B : Z) (V : bview) : Prop :=
  (size (v_refs V) + (if v_refs V !! B is Some _ then 1 else 2) <= Z.to_nat NBUF)%nat.

(** Two blocks read, the second overwritten with the first and written to
    the disk, as both loops of log.c do. *)
Lemma two_reads s V L B :
  lrep s V -> L <> B -> v_locked V = ∅ -> few_refs V -> room B V ->
  let V2 := v_bread B (v_bread L V) in
  exists i j s1 s2, bio (bc_bread dev L) s = Ok i s1 /\ bio (bc_bread dev B) s1 = Ok j s2 /\
    lrep s2 V2 /\ same_log s s1 /\ same_log s s2 /\ hnd s2 i L /\ hnd s2 j B /\
    forall c, v_refs V2 !! c = if decide (c = B) then Some (default 0 (v_refs V !! B) + 1)
      else if decide (c = L) then Some (default 0 (v_refs V !! L) + 1) else v_refs V !! c.
Proof.
  intros HR Hne Hlk Hfew Hsz V2. unfold room in Hsz. pose proof (Hfew L) as HfL. pose proof (Hfew B) as HfB.
  pose proof (refs_nonneg s V L HR) as HnL. pose proof (refs_nonneg s V B HR) as HnB.
  pose proof (bread_lookup V L) as E1. pose proof (size_bread V L) as Hs1.
  destruct (bread_l s V L HR) as (i & s1 & H1 & R1 & S1 & h1 & _); [set_solver|lia|destruct (v_refs V !! B); lia|].
  assert (forall c, c <> L -> v_refs (v_bread L V) !! c = v_refs V !! c) as E1'.
  { intros c Hc. now rewrite E1, decide_False by done. }
  destruct (bread_l s1 _ B R1) as (j & s2 & H2 & R2 & S2 & h2 & k2);
    [cbn; rewrite Hlk; set_solver|rewrite E1' by done; lia|rewrite E1' by done; intros E; rewrite E in Hsz; lia|].
  exists i, j, s1, s2. split; [done|]. split; [done|]. split; [done|]. split; [done|].
  split; [eapply same_log_trans; eassumption|].
  split; [apply k2; [done|rewrite E1, decide_True by done; eauto]|]. split; [done|].
  intros c. unfold V2. rewrite bread_lookup by (rewrite E1' by done; lia). rewrite E1' by done.
  destruct (decide (c = B)); [done|]. now rewrite E1.
Qed.

Lemma refs_pos_l s V b k : lrep s V -> v_refs V !! b = Some k -> 0 < k.
Proof. intros [HR _] E. pose proof (bc_refs _ _ _ _ HR E). lia. Qed.

(** A block read once more has one reference only if it had none. *)
Lemma first_read s V b :
  lrep s V -> Some (default 0 (v_refs V !! b) + 1) = Some 1 -> v_data V b = v_disk V b.
Proof.
  intros HR E. eapply bc_clean; [apply HR|]. destruct (v_refs V !! b) as [k|] eqn:Eb; [|done].
  pose proof (refs_pos_l s V b k HR Eb). cbn in E. injection E. lia.
Qed.

Lemma write_one_ok s V tail :
  lrep s V -> lg_dev (l_log s) = dev -> v_locked V = ∅ -> few_refs V ->
  let L := lg_start (l_log s) + tail + 1 in let B := lg_block (l_log s) tail in room B V -> L <> B ->
  exists s', write_one tail s = Ok tt s' /\ lrep s' (v_logged L (v_data V B) V) /\ same_log s s'.
Proof.
  intros HR Hdev Hlk Hfew L B Hsz Hne.
  destruct (two_reads s V L B HR Hne Hlk Hfew Hsz) as (to & from & s1 & s2 & H1 & H2 & R2 & S1 & S2 & h1 & h2 & E2).
  unfold write_one. erewrite bind_ok by reflexivity. rewrite Hdev. fold L B.
  rewrite (bind_ok _ _ _ _ _ H1), (bind_ok _ _ _ _ _ H2). set (V2 := v_bread B (v_bread L V)) in *.
  unfold copy_buf. rewrite bind_assoc. erewrite bind_ok by reflexivity.
  rewrite (data_l s2 V2 from B R2 h2) by (rewrite E2, decide_True by done; eauto).
  destruct (put_l s2 V2 to L (v_data V2 B) R2 h1) as (s3 & H3 & R3 & S3 & k3);
    [rewrite E2, decide_False, decide_True by done; eauto|].
  rewrite (bind_ok _ _ _ _ _ H3).
  destruct (bwrite_l s3 _ to L R3) as (s4 & H4 & R4 & S4 & k4); [auto|cbn; set_solver|].
  rewrite (bind_ok _ _ _ _ _ H4). set (V4 := v_flush L _) in *.
  assert (v_refs V4 = v_refs V2) as E4 by done.
  destruct (brelse_l s4 V4 from B R4) as (s5 & H5 & R5 & S5 & k5); [auto|cbn; set_solver| |].
  { rewrite E4, E2, decide_True by done. intros E. cbn. rewrite !fn_lookup_insert_ne by done.
    now apply (first_read s). }
  rewrite (bind_ok _ _ _ _ _ H5).
  destruct (brelse_l s5 _ to L R5) as (s6 & H6 & R6 & S6 & _);
    [auto|cbn; set_solver|intros _; cbn; now rewrite !fn_lookup_insert|].
  exists s6. split; [exact H6|]. split; [|repeat (eapply same_log_trans; [eassumption|]); apply same_log_refl].
  assert (v_relse L (v_relse B V4) = v_logged L (v_data V B) V) as <-; [|exact R6].
  apply bview_eq; try (cbn; rewrite ?fn_lookup_insert; done).
  - intros c. rewrite !relse_lookup, E4, !E2. change (v_refs (v_logged _ _ V)) with (v_refs V).
    rewrite (decide_False (P := L = B)), ?(decide_True (P := L = L)), ?(decide_True (P := B = B)) by done.
    destruct (decide (c = L)) as [->|]; [|destruct (decide (c = B)) as [->|]; [|done]]; cbn [default];
      apply undo_refs; eauto using refs_nonneg, refs_pos_l; now rewrite decide_False.
  - intros c. cbn. rewrite Hlk. set_solver.
Qed.

(** One pin less. *)
Definition v_unpin (b : Z) (V : bview) : bview := v_ref b (default 0 (v_refs V !! b) - 1) V.

Lemma install_one_ok s V tail recovering :
  lrep s V -> lg_dev (l_log s) = dev -> v_locked V = ∅ -> few_refs V ->
  let L := lg_start (l_log s) + tail + 1 in let B := lg_block (l_log s) tail in room B V -> L <> B ->
  (recovering = false -> is_Some (v_refs V !! B)) ->
  exists s', install_one recovering tail s = Ok tt s' /\ same_log s s' /\
    lrep s' (if recovering then v_logged B (v_data V L) V else v_unpin B (v_logged B (v_data V L) V)).
Proof.
  intros HR Hdev Hlk Hfew L B Hsz Hne Hpin.
  destruct (two_reads s V L B HR Hne Hlk Hfew Hsz) as (i & j & s1 & s2 & H1 & H2 & R2 & S1 & S2 & hi & hj & E2).
  unfold install_one. erewrite bind_ok by reflexivity. rewrite Hdev. fold L B.
  rewrite (bind_ok _ _ _ _ _ H1), (bind_ok _ _ _ _ _ H2).
  unfold copy_buf. rewrite bind_assoc. erewrite bind_ok by reflexivity. set (V2 := v_bread B _) in *.
  rewrite (data_l s2 V2 i L R2 hi) by (rewrite E2, decide_False, decide_True by done; eauto).
  destruct (put_l s2 V2 j B (v_data V2 L) R2 hj) as (s3 & H3 & R3 & S3 & k3);
    [rewrite E2, decide_True by done; eauto|].
  rewrite (bind_ok _ _ _ _ _ H3).
  destruct (bwrite_l s3 _ j B R3) as (s4 & H4 & R4 & S4 & k4); [auto|cbn; set_solver|].
  rewrite (bind_ok _ _ _ _ _ H4). set (V4 := v_flush B _) in *.
  assert (v_refs V4 = v_refs V2) as E4 by done.
  assert (exists s5, (if recovering then mret tt else bio (bc_bunpin j)) s4 = Ok tt s5 /\
    lrep s5 (if recovering then V4 else v_unpin B V4) /\ same_log s4 s5 /\
    forall a c, hnd s4 a c -> hnd s5 a c) as (s5 & H5 & R5 & S5 & k5).
  { destruct recovering; [exists s4; auto using same_log_refl|].
    destruct (Hpin eq_refl) as [k Hk]. pose proof (refs_pos_l s V B k HR Hk).
    destruct (bunpin_l s4 V4 j B (k + 1) R4) as (s5 & H5 & R5 & S5 & k5);
      [auto|rewrite E4, E2, decide_True, Hk by done; done|lia|].
    exists s5. split; [exact H5|]. split; [|auto]. unfold v_unpin.
    now rewrite E4, E2, decide_True, Hk by done. }
  rewrite (bind_ok _ _ _ _ _ H5). set (V5 := if recovering then V4 else _) in *.
  assert (v_refs V5 !! L = Some (default 0 (v_refs V !! L) + 1)) as E5.
  { unfold V5, v_unpin. destruct recovering; rewrite ?v_ref_lookup, ?decide_False, ?E4, ?E2 by done;
      now rewrite decide_False, decide_True by done. }
  assert (v_locked V5 = v_locked V4 /\ v_data V5 = v_data V4 /\ v_disk V5 = v_disk V4 /\
    v_writes V5 = v_writes V4) as (F1 & F2 & F3 & F4) by (unfold V5; now destruct recovering).
  destruct (brelse_l s5 V5 i L R5) as (s6 & H6 & R6 & S6 & k6); [auto|rewrite F1; cbn; set_solver| |].
  { rewrite E5, F2, F3. intros E. cbn. rewrite !fn_lookup_insert_ne by done. now apply (first_read s). }
  rewrite (bind_ok _ _ _ _ _ H6).
  destruct (brelse_l s6 _ j B R6) as (s7 & H7 & R7 & S7 & _);
    [auto|cbn; rewrite F1; cbn; set_solver|intros _; cbn; rewrite F2, F3; cbn; now rewrite !fn_lookup_insert|].
  exists s7. split; [exact H7|].
  split; [repeat (eapply same_log_trans; [eassumption|]); apply same_log_refl|].
  match goal with |- lrep _ ?W => assert (v_relse B (v_relse L V5) = W) as <-; [|exact R7] end.
  apply bview_eq; try (destruct recovering; cbn; rewrite ?fn_lookup_insert; done).
  - intros c. rewrite relse_lookup, relse_lookup, E5, relse_lookup, (decide_False (P := B = L)) by done.
    cbn [default].
    destruct (decide (c = B)) as [->|Hc]; [|destruct (decide (c = L)) as [->|Hc']].
    + unfold V5. destruct recovering.
      * rewrite E4, E2, decide_True by done. cbn [default v_refs v_logged].
        apply undo_refs; eauto using refs_nonneg, refs_pos_l.
      * destruct (Hpin eq_refl) as [k Hk]. pose proof (refs_pos_l s V B k HR Hk).
        unfold v_unpin. rewrite !v_ref_lookup, !decide_True, E4, E2, decide_True by done.
        cbn [v_refs v_logged]. rewrite Hk. cbn [default].
        unfold id. rewrite Z.add_simpl_r. rewrite (proj2 (Z.eqb_neq k 0)) by lia. done.
    + transitivity (v_refs V !! L);
        [apply undo_refs; eauto using refs_nonneg, refs_pos_l; now rewrite E5|].
      destruct recovering; [done|]. unfold v_unpin. now rewrite v_ref_lookup, decide_False by done.
    + unfold V5, v_unpin. destruct recovering; rewrite ?v_ref_lookup, ?decide_False, E4, E2, !decide_False by done; done.
  - intros c. destruct recovering; cbn; rewrite Hlk; set_solver.
Qed.

(** ** The header block *)

Definition WF_block (d : block) : Prop := Z.of_nat (length d) = BSIZE.

Lemma put_blocks_get k : forall i blk d off,
  WF_block d -> 0 <= i -> 4 + 4 * (i + Z.of_nat k) <= BSIZE -> 0 <= off -> off + 4 <= 4 + 4 * i ->
  WF_block (put_blocks k i blk d) /\ get32 off (put_blocks k i blk d) = get32 off d.
Proof.
  unfold WF_block. induction k as [|k IH]; intros i blk d off Hd Hi Hk Ho Hoff; cbn [put_blocks]; [done|].
  destruct (IH (i + 1) blk (put32 (4 + 4 * i) (blk i) d) off) as [H1 H2]; try lia.
  { rewrite length_put32; lia. }
  split; [done|]. rewrite H2. apply get32_ne; lia.
Qed.

Lemma put_blocks_in k : forall i blk d j,
  WF_block d -> 0 <= i -> 4 + 4 * (i + Z.of_nat k) <= BSIZE -> i <= j < i + Z.of_nat k ->
  get32 (4 + 4 * j) (put_blocks k i blk d) = u32 (blk j).
Proof.
  unfold WF_block. induction k as [|k IH]; intros i blk d j Hd Hi Hk Hj; cbn [put_blocks]; [lia|].
  assert (WF_block (put32 (4 + 4 * i) (blk i) d)) as Hd' by (unfold WF_block; rewrite length_put32; lia).
  destruct (Z.eq_dec j i) as [->|Hne]; [|apply IH; unfold WF_block in *; lia].
  destruct (put_blocks_get k (i + 1) blk _ (4 + 4 * i) Hd') as [_ ->]; try lia.
  apply get32_put32; lia.
Qed.

Lemma i32_u32 x : - 2^31 <= x < 2^31 -> i32 (u32 x) = x.
Proof. intros H. unfold i32, u32. rewrite Z.add_mod_idemp_l by lia. rewrite Z.mod_small; lia. Qed.

Lemma head_bytes_ok n blk d :
  WF_block d -> 0 <= n <= LOGSIZE - 1 -> (forall i, 0 <= i < n -> 0 <= blk i < 2^31) ->
  WF_block (head_bytes n blk d) /\ hd_n (head_bytes n blk d) = n /\
  forall i, 0 <= i < n -> hd_block (head_bytes n blk d) i = blk i.
Proof.
  intros Hd Hn Hb. unfold LOGSIZE, MAXOPBLOCKS in *.
  assert (WF_block (put32 0 n d)) as Hd' by (unfold WF_block, BSIZE in *; rewrite length_put32; lia).
  unfold head_bytes, hd_n, hd_block.
  destruct (put_blocks_get (Z.to_nat n) 0 blk (put32 0 n d) 0 Hd') as [H1 H2]; try (unfold BSIZE; lia).
  split; [done|]. split.
  - rewrite H2, get32_put32 by (unfold WF_block, BSIZE in *; lia). apply i32_u32. lia.
  - intros i Hi. rewrite put_blocks_in by (done || (unfold BSIZE; lia)). apply i32_u32. specialize (Hb i Hi). lia.
Qed.

Lemma take_blocks_ok k : forall i d blk j,
  take_blocks k i d blk j = if (i <=? j) && (j <? i + Z.of_nat k) then hd_block d j else blk j.
Proof.
  induction k as [|k IH]; intros i d blk j; cbn [take_blocks]; [case_goal; zbool; lia || done|].
  rewrite IH. destruct (decide (j = i)) as [->|Hne].
  - rewrite fn_lookup_insert. repeat case_goal; zbool; lia || done.
  - rewrite fn_lookup_insert_ne by done. repeat case_goal; zbool; lia || done.
Qed.

(** ** Sequences of writes *)

Definition v_apply (ws : list (Z * block)) (V : bview) : bview :=
  BView (apply_writes ws (v_disk V)) (v_writes V ++ ws) (apply_writes ws (v_data V)) (v_refs V) (v_locked V).

Lemma v_apply_nil V : v_apply [] V = V.
Proof. destruct V. unfold v_apply. cbn. now rewrite app_nil_r. Qed.

Lemma v_apply_snoc ws b d V : v_apply (ws ++ [(b, d)]) V = v_logged b d (v_apply ws V).
Proof. unfold v_apply, v_logged. cbn. now rewrite !apply_writes_app, app_assoc. Qed.

(** The blocks [blk 0 .. blk (n-1)] copied to the log that begins at [h]. *)
Definition log_writes (h : Z) (blk : Z -> Z) (data : Z -> block) (n : Z) : list (Z * block) :=
  (fun i => (h + i + 1, data (blk i))) <$> seqZ 0 n.

(** The blocks of the log copied home. *)
Definition home_writes (h : Z) (blk : Z -> Z) (data : Z -> block) (n : Z) : list (Z * block) :=
  (fun i => (blk i, data (h + i + 1))) <$> seqZ 0 n.

Lemma elem_log_writes h blk data n b x :
  (b, x) ∈ log_writes h blk data n <-> exists i, 0 <= i < n /\ b = h + i + 1 /\ x = data (blk i).
Proof.
  unfold log_writes. rewrite list_elem_of_fmap. split.
  - intros (i & [= -> ->] & Hi%elem_of_seqZ). exists i. split; [lia|done].
  - intros (i & Hi & -> & ->). exists i. split; [done|]. apply elem_of_seqZ. lia.
Qed.

Lemma elem_home_writes h blk data n b x :
  (b, x) ∈ home_writes h blk data n <-> exists i, 0 <= i < n /\ b = blk i /\ x = data (h + i + 1).
Proof.
  unfold home_writes. rewrite list_elem_of_fmap. split.
  - intros (i & [= -> ->] & Hi%elem_of_seqZ). exists i. split; [lia|done].
  - intros (i & Hi & -> & ->). exists i. split; [done|]. apply elem_of_seqZ. lia.
Qed.

Lemma log_writes_snoc h blk data n :
  0 <= n -> log_writes h blk data (n + 1) = log_writes h blk data n ++ [(h + n + 1, data (blk n))].
Proof.
  intros Hn. unfold log_writes. rewrite seqZ_app by lia. rewrite fmap_app, Z.add_0_l.
  reflexivity.
Qed.

Lemma home_writes_snoc h blk data n :
  0 <= n -> home_writes h blk data (n + 1) = home_writes h blk data n ++ [(blk n, data (h + n + 1))].
Proof.
  intros Hn. unfold home_writes. rewrite seqZ_app by lia. rewrite fmap_app, Z.add_0_l.
  reflexivity.
Qed.

(** ** The loops *)

(** The log at [h]: a header and [LOGSIZE - 1] blocks; and [n] blocks logged
    in it: distinct, outside the log. *)
Definition in_log (h b : Z) : Prop := h <= b < h + LOGSIZE.

Definition log_ok (h n : Z) (blk : Z -> Z) : Prop :=
  0 <= n <= LOGSIZE - 1 /\
  (forall i, 0 <= i < n -> 0 <= blk i < 2^31 /\ ~ in_log h (blk i)) /\
  (forall i j, 0 <= i < n -> 0 <= j < n -> blk i = blk j -> i = j).

Lemma log_inj h n blk i j :
  log_ok h n blk -> blk i = blk j -> 0 <= i < n -> 0 <= j < n -> i = j.
Proof. intros (_ & _ & H) E Hi Hj. auto. Qed.

(** The cache between two operations of log.c. *)
Definition quiet (V : bview) : Prop :=
  v_locked V = ∅ /\ few_refs V /\ (size (v_refs V) + 1 <= Z.to_nat NBUF)%nat.

(** Every logged block is pinned; recovery has two buffers to itself. *)
Definition pinned (recovering : bool) (n : Z) (blk : Z -> Z) (V : bview) : Prop :=
  if recovering then (size (v_refs V) + 2 <= Z.to_nat NBUF)%nat
  else forall i, 0 <= i < n -> is_Some (v_refs V !! blk i).

Lemma room_some b V : quiet V -> is_Some (v_refs V !! b) -> room b V.
Proof. intros (_ & _ & Q3) [x Hx]. unfold room. rewrite Hx. lia. Qed.

Lemma quiet_refs V V' : v_locked V' = v_locked V -> v_refs V' = v_refs V -> quiet V -> quiet V'.
Proof. unfold quiet, few_refs. intros -> ->. auto. Qed.

Lemma log_writes_home h n blk data k b :
  log_ok h n blk -> 0 <= k <= n -> ~ in_log h b -> b ∉ (log_writes h blk data k).*1.
Proof.
  intros (Hn & _) Hk Hb Hin. apply list_elem_of_fmap in Hin as ([? x] & -> & Hin).
  apply elem_log_writes in Hin as (i & Hi & -> & _). apply Hb. unfold in_log. cbn. lia.
Qed.

Lemma home_writes_log h n blk data k b :
  log_ok h n blk -> 0 <= k <= n -> in_log h b -> b ∉ (home_writes h blk data k).*1.
Proof.
  intros (Hn & Hb & _) Hk Hin Hx. apply list_elem_of_fmap in Hx as ([? x] & -> & Hx).
  apply elem_home_writes in Hx as (i & Hi & -> & _). cbn in Hin. apply (Hb i); [lia|done].
Qed.

Lemma write_log_loop h n blk s V k : forall i,
  log_ok h n blk -> quiet V -> pinned false n blk V ->
  lg_dev (l_log s) = dev -> lg_start (l_log s) = h -> lg_block (l_log s) = blk ->
  0 <= i -> i + Z.of_nat k = n -> lrep s (v_apply (log_writes h blk (v_data V) i) V) ->
  exists s', for_loop k i write_one s = Ok tt s' /\ same_log s s' /\
    lrep s' (v_apply (log_writes h blk (v_data V) n) V).
Proof.
  revert s. induction k as [|k IH]; intros s i Hok HQ HP Hd Hh Hb Hi Hk HR; cbn [for_loop].
  { exists s. replace i with n in HR by lia. auto using same_log_refl. }
  destruct (quiet_refs _ _ (eq_refl : v_locked (v_apply (log_writes h blk (v_data V) i) V) = _) eq_refl HQ) as (Q1 & Q2 & Q3).
  assert (~ in_log h (blk i)) as Hout by (apply Hok; lia).
  destruct (write_one_ok s _ i HR Hd Q1 Q2) as (s1 & H1 & R1 & S1).
  { rewrite Hb. apply room_some; [done|]. apply HP. lia. }
  { rewrite Hh, Hb. intros E. apply Hout. rewrite <- E. unfold in_log. destruct Hok as [? _]. lia. }
  rewrite (bind_ok _ _ _ _ _ H1). destruct S1 as (S1 & S2 & S3).
  destruct (IH s1 (i + 1)) as (s2 & H2 & S4 & R2); rewrite ?S3; try done || lia.
  { rewrite log_writes_snoc, v_apply_snoc by lia. rewrite Hh, Hb in R1. cbn [v_data v_apply] in R1.
    erewrite apply_writes_ne in R1 by (eapply log_writes_home; [exact Hok|lia|done]). exact R1. }
  exists s2. split; [exact H2|]. split; [|exact R2]. eapply same_log_trans; [|exact S4]. now repeat split.
Qed.

(** The pins of the first [k] logged blocks dropped. *)
Definition unpins (blk : Z -> Z) (k : Z) (V : bview) : bview :=
  foldl (fun V i => v_unpin (blk i) V) V (seqZ 0 k).

Lemma unpins_succ blk k V : 0 <= k -> unpins blk (k + 1) V = v_unpin (blk k) (unpins blk k V).
Proof. intros Hk. unfold unpins. rewrite seqZ_app by lia. now rewrite foldl_app. Qed.

Lemma unpins_same blk k V :
  v_disk (unpins blk k V) = v_disk V /\ v_writes (unpins blk k V) = v_writes V /\
  v_data (unpins blk k V) = v_data V /\ v_locked (unpins blk k V) = v_locked V.
Proof.
  unfold unpins. revert V. induction (seqZ 0 k) as [|i l IH]; intros V; [done|].
  destruct (IH (v_unpin (blk i) V)) as (A & B & C & D). cbn [foldl].
  rewrite A, B, C, D. done.
Qed.

Lemma unpins_other blk k V c :
  (forall j, 0 <= j < k -> blk j <> c) -> v_refs (unpins blk k V) !! c = v_refs V !! c.
Proof.
  intros Hc. unfold unpins. assert (forall j, j ∈ seqZ 0 k -> blk j <> c) as Hj.
  { intros j Hj%elem_of_seqZ. apply Hc. lia. }
  clear Hc. revert V Hj. induction (seqZ 0 k) as [|i l IH]; intros V Hj; [done|]. cbn [foldl].
  rewrite IH by (intros; apply Hj; now right). unfold v_unpin. rewrite v_ref_lookup, decide_False; [done|].
  intros ->. apply (Hj i); [left|done].
Qed.

Lemma unpins_one h n blk k V j :
  log_ok h n blk -> 0 <= j < k -> k <= n ->
  v_refs (unpins blk k V) !! blk j = v_refs (v_unpin (blk j) V) !! blk j.
Proof.
  intros Hok Hj Hk. assert (0 <= k) as Hk0 by lia. revert Hj Hk. rewrite <- (Z2Nat.id k Hk0).
  induction (Z.to_nat k) as [|m IH]; intros Hj Hk; [lia|].
  rewrite Nat2Z.inj_succ, <- Z.add_1_r, unpins_succ by lia. unfold v_unpin. rewrite !v_ref_lookup.
  destruct (decide (j = Z.of_nat m)) as [->|Hne].
  - rewrite !decide_True by done. rewrite unpins_other; [done|].
    intros i Hi E. pose proof (log_inj _ _ _ _ _ Hok E ltac:(lia) ltac:(lia)); lia.
  - rewrite decide_False by (intros E; pose proof (log_inj _ _ _ _ _ Hok E ltac:(lia) ltac:(lia)); lia). rewrite IH by lia.
    unfold v_unpin. now rewrite v_ref_lookup.
Qed.

Lemma quiet_unpin b V : quiet V -> is_Some (v_refs V !! b) -> quiet (v_unpin b V).
Proof.
  intros (Q1 & Q2 & Q3) [m Hm]. unfold quiet. split; [done|]. split.
  - intros c. unfold v_unpin. rewrite v_ref_lookup. destruct (decide (c = b)) as [->|]; [|apply Q2].
    specialize (Q2 b). case_goal; cbn [default]; unfold id in *; lia.
  - unfold v_unpin, v_ref. cbn [v_refs]. case_goal;
      rewrite ?map_size_delete, ?map_size_insert, Hm; cbn; lia.
Qed.

(** The cache after [k] rounds of [install_trans]. *)
Definition installed (recovering : bool) (h : Z) (blk : Z -> Z) (k : Z) (V : bview) : bview :=
  let V' := v_apply (home_writes h blk (v_data V) k) V in
  if recovering then V' else unpins blk k V'.

Lemma v_logged_unpins b d blk k V : v_logged b d (unpins blk k V) = unpins blk k (v_logged b d V).
Proof.
  unfold unpins. revert V. induction (seqZ 0 k) as [|i l IH]; intros V; [done|]. cbn [foldl]. now rewrite IH.
Qed.

Lemma installed_succ recovering h n blk k V :
  log_ok h n blk -> 0 <= k < n ->
  let W := installed recovering h blk k V in let x := v_data W (h + k + 1) in
  installed recovering h blk (k + 1) V =
  if recovering then v_logged (blk k) x W else v_unpin (blk k) (v_logged (blk k) x W).
Proof.
  intros Hok Hk W x. unfold x, W, installed.
  assert (v_data (v_apply (home_writes h blk (v_data V) k) V) (h + k + 1) = v_data V (h + k + 1)) as Hx.
  { cbn. apply apply_writes_ne. eapply home_writes_log; [exact Hok|lia|].
    destruct Hok as [? _]. unfold in_log. lia. }
  rewrite home_writes_snoc, v_apply_snoc by lia. destruct recovering; [now rewrite Hx|].
  destruct (unpins_same blk k (v_apply (home_writes h blk (v_data V) k) V)) as (_ & _ & -> & _).
  rewrite Hx. now rewrite unpins_succ, v_logged_unpins by lia.
Qed.

Lemma quiet_installed recovering h n blk k V :
  log_ok h n blk -> quiet V -> pinned recovering n blk V -> 0 <= k <= n ->
  let W := installed recovering h blk k V in
  quiet W /\ (k < n -> room (blk k) W /\ (recovering = false -> is_Some (v_refs W !! blk k))).
Proof.
  intros Hok HQ HP Hk W.
  assert (forall m, 0 <= Z.of_nat m <= n -> recovering = false -> Z.of_nat m < n ->
    is_Some (v_refs (installed recovering h blk (Z.of_nat m) V) !! blk (Z.of_nat m))) as Hp.
  { intros m Hm -> Hlt. unfold installed. rewrite unpins_other; [apply HP; lia|].
    intros j Hj E. pose proof (log_inj _ _ _ _ _ Hok E ltac:(lia) ltac:(lia)); lia. }
  assert (forall m, 0 <= Z.of_nat m <= n -> quiet (installed recovering h blk (Z.of_nat m) V)) as Hq.
  { induction m as [|m IH]; intros Hm.
    - unfold installed. destruct recovering; (eapply quiet_refs; [| |exact HQ]; done).
    - rewrite Nat2Z.inj_succ, <- Z.add_1_r. erewrite installed_succ by (done || lia).
      destruct recovering eqn:Er; [eapply quiet_refs; [| |apply IH; lia]; done|].
      apply quiet_unpin; [eapply quiet_refs; [| |apply IH; lia]; done|]. apply Hp; lia || done. }
  specialize (Hq (Z.to_nat k)). specialize (Hp (Z.to_nat k)). rewrite Z2Nat.id in Hq, Hp by lia. fold W in Hq, Hp.
  split; [auto|]. intros Hlt. split; [|auto]. destruct recovering eqn:Er; [|apply room_some; auto].
  unfold room, W, installed. cbn [v_refs v_apply]. unfold pinned in HP. destruct (v_refs V !! blk k); lia.
Qed.

Lemma install_loop recovering h n blk s V k : forall i,
  log_ok h n blk -> quiet V -> pinned recovering n blk V ->
  lg_dev (l_log s) = dev -> lg_start (l_log s) = h -> lg_block (l_log s) = blk ->
  0 <= i -> i + Z.of_nat k = n -> lrep s (installed recovering h blk i V) ->
  exists s', for_loop k i (install_one recovering) s = Ok tt s' /\ same_log s s' /\
    lrep s' (installed recovering h blk n V).
Proof.
  revert s. induction k as [|k IH]; intros s i Hok HQ HP Hd Hh Hb Hi Hk HR; cbn [for_loop].
  { exists s. replace i with n in HR by lia. auto using same_log_refl. }
  destruct (quiet_installed recovering h n blk i V Hok HQ HP ltac:(lia)) as ((Q1 & Q2 & Q3) & Hpin).
  destruct Hpin as [Hroom Hpin]; [lia|].
  assert (~ in_log h (blk i)) as Hout by (apply Hok; lia).
  destruct (install_one_ok s _ i recovering HR Hd Q1 Q2) as (s1 & H1 & S1 & R1).
  { now rewrite Hb. }
  { rewrite Hh, Hb. intros E. apply Hout. rewrite <- E. unfold in_log. destruct Hok as [? _]. lia. }
  { now rewrite Hb. }
  rewrite (bind_ok _ _ _ _ _ H1). destruct S1 as (S1 & S2 & S3).
  destruct (IH s1 (i + 1)) as (s2 & H2 & S4 & R2); rewrite ?S3; try done || lia.
  { rewrite Hh, Hb in R1. erewrite installed_succ by (exact Hok || lia). exact R1. }
  exists s2. split; [exact H2|]. split; [|exact R2]. eapply same_log_trans; [|exact S4]. now repeat split.
Qed.

(** ** The header on disk, recovery and commit *)

Lemma one_read s V b :
  lrep s V -> quiet V ->
  exists i s', bio (bc_bread dev b) s = Ok i s' /\ lrep s' (v_bread b V) /\ same_log s s' /\ hnd s' i b /\
    bc_data (l_bc s') i = v_data V b.
Proof.
  intros HR (Q1 & Q2 & Q3). pose proof (Q2 b) as Hb. pose proof (refs_nonneg s V b HR).
  destruct (bread_l s V b HR) as (i & s1 & H1 & R1 & S1 & h1 & _); [set_solver|lia|lia|].
  exists i, s1. split; [done|]. split; [done|]. split; [done|]. split; [done|].
  rewrite (data_l s1 _ i b R1 h1); [done|]. rewrite bread_lookup, decide_True by done. eauto.
Qed.

(** Reading a block and releasing it, whatever was written to it in between. *)
Lemma one_relse s V b d :
  lrep s V -> quiet V -> v_relse b (v_flush b (v_put b d (v_bread b V))) = v_apply [(b, d)] V /\
  v_relse b (v_bread b V) = V.
Proof.
  intros HR (Q1 & _). pose proof (refs_nonneg s V b HR) as Hn.
  assert (forall W, v_refs W = v_refs (v_bread b V) -> forall c, v_refs (v_relse b W) !! c = v_refs V !! c) as E.
  { intros W HW c. rewrite relse_lookup, HW, !bread_lookup by done. rewrite (decide_True (P := b = b)) by done.
    destruct (decide (c = b)) as [->|]; [|done]. cbn [default].
    apply undo_refs; eauto using refs_pos_l. }
  split; apply bview_eq; try done.
  - cbn. now rewrite fn_lookup_insert.
  - cbn. now rewrite fn_lookup_insert.
  - intros c. now apply E.
  - intros c. cbn. rewrite Q1. set_solver.
  - intros c. now apply E.
  - intros c. cbn. rewrite Q1. set_solver.
Qed.

Lemma write_head_ok s V :
  lrep s V -> quiet V -> lg_dev (l_log s) = dev ->
  let l := l_log s in let h := lg_start l in
  exists s', write_head s = Ok tt s' /\ same_log s s' /\
    lrep s' (v_apply [(h, head_bytes (lg_n l) (lg_block l) (v_data V h))] V).
Proof.
  intros HR HQ Hd l h. unfold write_head. erewrite bind_ok by reflexivity. rewrite Hd. fold l h.
  destruct (one_read s V h HR HQ) as (i & s1 & H1 & R1 & S1 & h1 & D1).
  rewrite (bind_ok _ _ _ _ _ H1). erewrite bind_ok by reflexivity. rewrite D1. set (d := head_bytes _ _ _).
  pose proof (refs_nonneg s V h HR) as Hn.
  destruct (put_l s1 _ i h d R1 h1) as (s2 & H2 & R2 & S2 & k2);
    [rewrite bread_lookup, decide_True by done; eauto|].
  rewrite (bind_ok _ _ _ _ _ H2).
  destruct (bwrite_l s2 _ i h R2) as (s3 & H3 & R3 & S3 & k3); [auto|cbn; set_solver|].
  rewrite (bind_ok _ _ _ _ _ H3).
  destruct (brelse_l s3 _ i h R3) as (s4 & H4 & R4 & S4 & _);
    [auto|cbn; set_solver|intros _; cbn; now rewrite !fn_lookup_insert|].
  exists s4. split; [exact H4|]. split; [repeat (eapply same_log_trans; [eassumption|]); apply same_log_refl|].
  destruct (one_relse s V h d HR HQ) as [<- _]. exact R4.
Qed.

Lemma read_head_ok s V :
  lrep s V -> quiet V -> lg_dev (l_log s) = dev ->
  let l := l_log s in let d := v_data V (lg_start l) in
  exists s', read_head s = Ok tt s' /\ lrep s' V /\ l_pid s' = l_pid s /\
    l_log s' = set_block (take_blocks (Z.to_nat (hd_n d)) 0 d (lg_block l)) (set_n (hd_n d) l).
Proof.
  intros HR HQ Hd l d. unfold read_head. erewrite bind_ok by reflexivity. rewrite Hd. fold l.
  destruct (one_read s V (lg_start l) HR HQ) as (i & s1 & H1 & R1 & (S1 & S2 & S3) & h1 & D1).
  rewrite (bind_ok _ _ _ _ _ H1). erewrite bind_ok by reflexivity. rewrite D1. fold d.
  erewrite bind_ok by reflexivity.
  match goal with |- context [bio _ ?s] => set (s2 := s) end.
  assert (lrep s2 (v_bread (lg_start l) V)) as R2 by exact R1.
  destruct (brelse_l s2 _ i (lg_start l) R2) as (s3 & H3 & R3 & (T1 & T2 & T3) & _);
    [exact h1|cbn; set_solver| |].
  { rewrite bread_lookup, decide_True by (try done; eapply refs_nonneg; eauto). intros E.
    exact (first_read s V _ HR E). }
  exists s3. split; [exact H3|]. destruct (one_relse s V (lg_start l) d HR HQ) as [_ E].
  rewrite E in R3. split; [done|]. rewrite T2, T3. cbn. rewrite S2, S3. done.
Qed.

(** The writes [recover_from_log] makes on a disk [d] whose log is at [h]. *)
Definition recover_writes (h : Z) (d : Z -> block) : list (Z * block) :=
  home_writes h (hd_block (d h)) d (hd_n (d h)) ++ [(h, head_bytes 0 (hd_block (d h)) (d h))].

Lemma home_writes_ext h blk blk' data data' n :
  (forall i, 0 <= i < n -> blk i = blk' i /\ data (h + i + 1) = data' (h + i + 1)) ->
  home_writes h blk data n = home_writes h blk' data' n.
Proof.
  intros H. apply list_fmap_ext. intros k x Hx%list_elem_of_lookup_2%elem_of_seqZ.
  destruct (H x) as [-> ->]; [lia|done].
Qed.

Lemma log_ok_ext h n blk blk' :
  (forall i, 0 <= i < n -> blk i = blk' i) -> log_ok h n blk -> log_ok h n blk'.
Proof.
  intros E (A & B & C). split; [done|]. split.
  - intros i Hi. rewrite <- E by done. auto.
  - intros i j Hi Hj. rewrite <- !E by done. auto.
Qed.

Lemma recover_from_log_ok s V :
  lrep s V -> quiet V -> (size (v_refs V) + 2 <= Z.to_nat NBUF)%nat -> lg_dev (l_log s) = dev -> let h := lg_start (l_log s) in
  log_ok h (hd_n (v_data V h)) (hd_block (v_data V h)) ->
  exists s', recover_from_log s = Ok tt s' /\ lrep s' (v_apply (recover_writes h (v_data V)) V) /\
    lg_n (l_log s') = 0 /\ lg_start (l_log s') = h /\ lg_dev (l_log s') = dev /\
    lg_size (l_log s') = lg_size (l_log s) /\ lg_outstanding (l_log s') = lg_outstanding (l_log s) /\
    lg_committing (l_log s') = lg_committing (l_log s).
Proof.
  intros HR HQ Hsz Hd h Hok. unfold recover_from_log.
  destruct (read_head_ok s V HR HQ Hd) as (s1 & H1 & R1 & _ & L1).
  rewrite (bind_ok _ _ _ _ _ H1). fold h in L1. set (n := hd_n (v_data V h)) in *.
  set (blk := take_blocks _ _ _ _) in L1.
  assert (forall i, 0 <= i < n -> hd_block (v_data V h) i = blk i) as Eb.
  { intros i Hi. unfold blk. rewrite take_blocks_ok. case_goal; zbool; lia || done. }
  unfold install_trans. rewrite bind_assoc. erewrite bind_ok by reflexivity. rewrite L1. cbn [lg_n set_block set_n].
  destruct (install_loop true h n blk s1 V (Z.to_nat n) 0) as (s2 & H2 & (S1 & S2 & S3) & R2);
    try (rewrite L1; done); try done; try (destruct Hok; lia).
  { eapply log_ok_ext; eassumption. } { unfold installed. cbn. now rewrite v_apply_nil. }
  rewrite (bind_ok _ _ _ _ _ H2). erewrite bind_ok by reflexivity.
  match goal with |- context [write_head ?s] => set (s3 := s) end.
  assert (lrep s3 (v_apply (home_writes h blk (v_data V) n) V)) as R3 by exact R2.
  destruct (write_head_ok s3 _ R3) as (s4 & H4 & (T1 & T2 & T3) & R4);
    [eapply quiet_refs; [| |exact HQ]; done|cbn; now rewrite S3, L1|].
  exists s4. split; [exact H4|]. split; [|rewrite T3; cbn; rewrite S3, L1; done].
  unfold recover_writes. rewrite v_apply_snoc.
  rewrite (home_writes_ext h _ blk _ (v_data V)) by auto. cbn in R4. rewrite S3, L1 in R4. cbn in R4.
  erewrite (apply_writes_ne _ _ h) in R4; [exact R4|].
  eapply home_writes_log; [eapply log_ok_ext; [exact Eb|exact Hok]|destruct Hok; lia|].
  unfold in_log, LOGSIZE, MAXOPBLOCKS. lia.
Qed.

Lemma initlog_ok s V h nlog :
  lrep s V -> quiet V -> (size (v_refs V) + 2 <= Z.to_nat NBUF)%nat -> log_ok h (hd_n (v_data V h)) (hd_block (v_data V h)) ->
  exists s', initlog dev h nlog s = Ok tt s' /\ lrep s' (v_apply (recover_writes h (v_data V)) V) /\
    lg_n (l_log s') = 0 /\ lg_start (l_log s') = h /\ lg_dev (l_log s') = dev /\ lg_size (l_log s') = nlog /\
    lg_outstanding (l_log s') = lg_outstanding (l_log s) /\ lg_committing (l_log s') = lg_committing (l_log s).
Proof.
  intros HR HQ Hsz Hok. unfold initlog. change (BSIZE <=? 4 * (1 + LOGSIZE)) with false. cbv iota.
  erewrite bind_ok by reflexivity.
  match goal with |- context [recover_from_log ?s] => set (s1 := s) end.
  destruct (recover_from_log_ok s1 V HR HQ Hsz eq_refl Hok) as (s' & H1 & R1 & L1 & L2 & L3 & L4 & L5 & L6).
  exists s'. auto 12.
Qed.

(** The writes of [commit]: the log, its header, the home locations, and the
    header with no blocks. *)
Definition commit_writes (h n : Z) (blk : Z -> Z) (data : Z -> block) : list (Z * block) :=
  log_writes h blk data n ++ [(h, head_bytes n blk (data h))] ++
  ((fun i => (blk i, data (blk i))) <$> seqZ 0 n) ++
  [(h, head_bytes 0 blk (head_bytes n blk (data h)))].

Lemma log_writes_keys h blk data n :
  (log_writes h blk data n).*1 = (fun i => h + i + 1) <$> seqZ 0 n.
Proof. unfold log_writes. now rewrite <- list_fmap_compose. Qed.

Lemma log_writes_NoDup h blk data n : NoDup (log_writes h blk data n).*1.
Proof. rewrite log_writes_keys. apply NoDup_fmap_2; [intros i j; lia|apply NoDup_seqZ]. Qed.

(** After the log and its header are written, the log holds what the blocks held. *)
Lemma logged_data h n blk data x i :
  log_ok h n blk -> 0 <= i < n ->
  apply_writes (log_writes h blk data n ++ [(h, x)]) data (h + i + 1) = data (blk i).
Proof.
  intros Hok Hi. rewrite apply_writes_app. unfold apply_writes at 1. cbn [foldl].
  rewrite fn_lookup_insert_ne by (cbn; lia).
  apply apply_writes_in; [apply log_writes_NoDup|]. apply elem_log_writes. eauto.
Qed.

Lemma header_unlogged h n blk data d : log_ok h n blk ->
  apply_writes (log_writes h blk data n) d h = d h.
Proof.
  intros Hok. apply apply_writes_ne. rewrite log_writes_keys, list_elem_of_fmap.
  intros (i & E & Hi%elem_of_seqZ). lia.
Qed.

Lemma v_apply_app ws ws' V : v_apply (ws ++ ws') V = v_apply ws' (v_apply ws V).
Proof. unfold v_apply. cbn. now rewrite !apply_writes_app, app_assoc. Qed.

Lemma v_apply_unpins ws blk k V : v_apply ws (unpins blk k V) = unpins blk k (v_apply ws V).
Proof.
  unfold unpins. revert V. induction (seqZ 0 k) as [|i l IH]; intros V; [done|]. cbn [foldl]. now rewrite IH.
Qed.

Lemma commit_ok s V :
  let l := l_log s in let h := lg_start l in let n := lg_n l in let blk := lg_block l in
  lrep s V -> quiet V -> lg_dev l = dev -> log_ok h n blk -> 0 < n -> pinned false n blk V ->
  exists s', commit s = Ok tt s' /\ l_log s' = set_n 0 l /\
    lrep s' (unpins blk n (v_apply (commit_writes h n blk (v_data V)) V)).
Proof.
  intros l h n blk HR HQ Hd Hok Hn HP. unfold commit. erewrite bind_ok by reflexivity. fold l n.
  rewrite (proj2 (Z.ltb_lt 0 n)) by done. unfold write_log. rewrite bind_assoc.
  erewrite bind_ok by reflexivity. fold l n.
  destruct (write_log_loop h n blk s V (Z.to_nat n) 0) as (s1 & H1 & (_ & _ & S1) & R1); try done; [lia|
    cbn; now rewrite v_apply_nil|].
  rewrite (bind_ok _ _ _ _ _ H1). set (W1 := log_writes _ _ _ _) in R1.
  destruct (write_head_ok s1 _ R1) as (s2 & H2 & (_ & _ & S2) & R2);
    [eapply quiet_refs; [| |exact HQ]; done|now rewrite S1|].
  rewrite (bind_ok _ _ _ _ _ H2), S1 in *. fold l h n blk in R2. cbn [v_data v_apply] in R2.
  unfold W1 in R2. rewrite header_unlogged in R2 by done. fold W1 in R2.
  set (x := head_bytes n blk (v_data V h)) in R2. rewrite <- v_apply_app in R2.
  unfold install_trans. rewrite bind_assoc. erewrite bind_ok by reflexivity. rewrite S2. fold l n.
  set (V2 := v_apply _ V) in R2.
  destruct (install_loop false h n blk s2 V2 (Z.to_nat n) 0) as (s3 & H3 & (_ & _ & S3) & R3);
    try (rewrite S2; done); try done; try lia.
  { unfold installed. cbn. now rewrite v_apply_nil. }
  rewrite (bind_ok _ _ _ _ _ H3). erewrite bind_ok by reflexivity.
  match goal with |- context [write_head ?s] => set (s4 := s) end.
  set (W3 := v_apply (home_writes h blk (v_data V2) n) V2) in *.
  assert (lrep s4 (unpins blk n W3)) as R4 by exact R3.
  destruct (write_head_ok s4 _ R4) as (s5 & H5 & (_ & _ & S5) & R5);
    [now apply (quiet_installed false h n blk n V2 Hok); [| |lia]|cbn; now rewrite S3, S2|].
  assert (l_log s4 = set_n 0 l) as L4 by (cbn; now rewrite S3, S2).
  exists s5. split; [exact H5|]. rewrite S5, L4. split; [done|]. rewrite L4 in R5.
  cbn [lg_start lg_n lg_block set_n] in R5. fold h blk in R5.
  destruct (unpins_same blk n W3) as (_ & _ & Ed & _).
  rewrite v_apply_unpins, Ed in R5. unfold W3 in R5. cbn [v_data v_apply] in R5.
  rewrite <- v_apply_app in R5.
  rewrite (apply_writes_ne _ _ h) in R5 by (eapply home_writes_log; [exact Hok|lia|unfold in_log, LOGSIZE, MAXOPBLOCKS; lia]).
  assert (home_writes h blk (v_data V2) n = (fun i => (blk i, v_data V (blk i))) <$> seqZ 0 n) as Eh.
  { apply list_fmap_ext. intros k i Hi%list_elem_of_lookup_2%elem_of_seqZ. f_equal. apply (logged_data h n); [done|lia]. }
  unfold commit_writes. fold W1 x.
  replace (v_data V2 h) with x in R5
    by (cbn; rewrite apply_writes_app; unfold apply_writes at 1; cbn; now rewrite fn_lookup_insert).
  rewrite Eh in R5. rewrite (app_assoc W1), v_apply_app. exact R5.
Qed.
End logspec.
