(* ===== verification/LogCrash.v ===== *)
(** * kernel/log.c: crashes

    What recovery makes of a disk on which the machine stopped between any two
    writes of [commit], or of an earlier recovery. *)

From stdpp Require Import base gmap numbers strings functions list.
From Stdlib Require Import ZifyBool.
From S2P Require Import Prelude Mem Block Spinlock Locks Bio Bcache BcacheSpec Log LogSpec.

Open Scope Z_scope.

(** ** The contents a disk with a log stands for *)

(** What the blocks outside the log are after recovery. *)
Definition logical (h : Z) (d : Z -> block) : Z -> block :=
  apply_writes (home_writes h (hd_block (d h)) d (hd_n (d h))) d.

(** A disk that recovery accepts. *)
Definition log_disk (h : Z) (d : Z -> block) : Prop :=
  (forall b, WF_block (d b)) /\ log_ok h (hd_n (d h)) (hd_block (d h)).

Lemma home_writes_keys h blk data n : (home_writes h blk data n).*1 = blk <$> seqZ 0 n.
Proof. unfold home_writes. now rewrite <- list_fmap_compose. Qed.

Lemma blocks_NoDup h n blk : log_ok h n blk -> NoDup (blk <$> seqZ 0 n).
Proof.
  intros Hok. apply NoDup_alt. intros a b x Ha Hb. rewrite list_lookup_fmap, fmap_Some in Ha, Hb.
  destruct Ha as (i & Ha & ->), Hb as (j & Hb & E). apply lookup_seqZ in Ha as [-> Ha], Hb as [-> Hb].
  pose proof (log_inj _ _ _ _ _ Hok E ltac:(lia) ltac:(lia)). lia.
Qed.

(** A logged block is found at its index. *)
Lemma logged_dec n (blk : Z -> Z) b :
  (exists i, 0 <= i < n /\ blk i = b) \/ (forall i, 0 <= i < n -> blk i <> b).
Proof.
  destruct (decide (b ∈ blk <$> seqZ 0 n)) as [Hin|Hout].
  - left. apply list_elem_of_fmap in Hin as (i & -> & Hi%elem_of_seqZ). exists i. split; [lia|done].
  - right. intros i Hi <-. apply Hout, list_elem_of_fmap. exists i. split; [done|]. apply elem_of_seqZ. lia.
Qed.

Lemma home_lookup h n blk data d i :
  log_ok h n blk -> 0 <= i < n -> apply_writes (home_writes h blk data n) d (blk i) = data (h + i + 1).
Proof.
  intros Hok Hi. apply apply_writes_in; [rewrite home_writes_keys; now apply (blocks_NoDup h)|].
  apply elem_home_writes. eauto.
Qed.

Lemma home_lookup_ne h n blk data d b :
  (forall i, 0 <= i < n -> blk i <> b) -> apply_writes (home_writes h blk data n) d b = d b.
Proof.
  intros Hb. apply apply_writes_ne. rewrite home_writes_keys, list_elem_of_fmap.
  intros (i & -> & Hi%elem_of_seqZ). apply (Hb i); [lia|done].
Qed.

(** Two disks with one header and one log, equal on the blocks outside both,
    stand for the same contents. *)
Lemma logical_same h d d' :
  log_ok h (hd_n (d h)) (hd_block (d h)) -> (forall b, in_log h b -> d' b = d b) ->
  (forall b, ~ in_log h b -> (forall i, 0 <= i < hd_n (d h) -> hd_block (d h) i <> b) -> d' b = d b) ->
  forall b, ~ in_log h b -> logical h d' b = logical h d b.
Proof.
  intros Hok Hlog Hout b Hb. unfold logical. rewrite (Hlog h) by (unfold in_log, LOGSIZE, MAXOPBLOCKS; lia).
  destruct (logged_dec (hd_n (d h)) (hd_block (d h)) b) as [(i & Hi & <-)|Hno].
  - rewrite !home_lookup by done. apply Hlog. destruct Hok as [? _]. unfold in_log. lia.
  - rewrite !home_lookup_ne by done. auto.
Qed.

Lemma logical_empty h d b : hd_n (d h) = 0 -> logical h d b = d b.
Proof. intros E. unfold logical. now rewrite E. Qed.

Lemma WF_writes ws d :
  (forall b, WF_block (d b)) -> (forall b x, (b, x) ∈ ws -> WF_block x) -> forall b, WF_block (apply_writes ws d b).
Proof.
  revert d. induction ws as [|[c x] ws IH]; intros d Hd Hw b; [apply Hd|]. rewrite apply_writes_cons. apply IH.
  - intros b'. destruct (decide (b' = c)) as [->|]; [rewrite fn_lookup_insert|rewrite fn_lookup_insert_ne by done; auto].
    apply (Hw c). left.
  - intros b' x' Hin. apply (Hw b'). now right.
Qed.

(** A prefix of a list of writes that ends in one write. *)
Lemma take_snoc_cases {A} k (l : list A) x :
  take k (l ++ [x]) = take k l /\ (k <= length l)%nat \/ take k (l ++ [x]) = l ++ [x] /\ (length l < k)%nat.
Proof.
  destruct (decide (k <= length l)%nat); [left; now rewrite take_app_le|].
  right. split; [|lia]. apply take_ge. rewrite length_app. cbn. lia.
Qed.

Lemma prefix_elem {A} k (l : list A) x : x ∈ take k l -> x ∈ l.
Proof. intros H. rewrite <- (take_drop k l). apply elem_of_app. now left. Qed.

Lemma prefix_keys_ne {A} k (ws : list (Z * A)) b : b ∉ ws.*1 -> b ∉ (take k ws).*1.
Proof. intros H Hin. apply H. rewrite fmap_take in Hin. eapply prefix_elem; eassumption. Qed.

Lemma header_cleared blk d : WF_block d -> WF_block (head_bytes 0 blk d) /\ hd_n (head_bytes 0 blk d) = 0.
Proof.
  intros Hd. destruct (head_bytes_ok 0 blk d Hd) as (H1 & H2 & _); [unfold LOGSIZE, MAXOPBLOCKS; lia|lia|done].
Qed.

Lemma log_ok_empty h blk : log_ok h 0 blk.
Proof. repeat split; unfold LOGSIZE, MAXOPBLOCKS; lia. Qed.

(** ** Recovery *)

(** A crash after any number of recovery's writes loses nothing. *)
Lemma recovery_prefix h d k :
  log_disk h d -> let d' := apply_writes (take k (recover_writes h d)) d in
  log_disk h d' /\ forall b, ~ in_log h b -> logical h d' b = logical h d b.
Proof.
  intros [HW Hok] d'. unfold d', recover_writes. set (n := hd_n (d h)) in *. set (blk := hd_block (d h)) in *.
  assert (in_log h h) as Hh by (unfold in_log, LOGSIZE, MAXOPBLOCKS; lia).
  assert (0 <= n) as Hn by (destruct Hok; lia).
  destruct (take_snoc_cases k (home_writes h blk d n) (h, head_bytes 0 blk (d h))) as [[-> _]|[-> _]].
  - set (ws := take k _).
    assert (forall b, in_log h b -> apply_writes ws d b = d b) as Hl.
    { intros b Hb. apply apply_writes_ne, prefix_keys_ne. eapply home_writes_log; [exact Hok|lia|done]. }
    split; [split|].
    + apply WF_writes; [done|]. intros b x Hin%prefix_elem%elem_home_writes. destruct Hin as (i & _ & _ & ->). auto.
    + rewrite (Hl h Hh). done.
    + apply logical_same; [done|done|]. intros b Hb Hno. apply apply_writes_ne, prefix_keys_ne.
      rewrite home_writes_keys, list_elem_of_fmap. intros (i & -> & Hi%elem_of_seqZ). apply (Hno i); [fold n; lia|done].
  - destruct (header_cleared blk (d h) (HW h)) as [H1 H2].
    assert (apply_writes (home_writes h blk d n ++ [(h, head_bytes 0 blk (d h))]) d h = head_bytes 0 blk (d h)) as Ed.
    { rewrite apply_writes_app. unfold apply_writes at 1. cbn. apply fn_lookup_insert. }
    split; [split|].
    + apply WF_writes; [done|]. intros b x [Hin|[= -> ->]%list_elem_of_singleton]%elem_of_app; [|done].
      apply elem_home_writes in Hin as (i & _ & _ & ->). auto.
    + rewrite Ed, H2. apply log_ok_empty.
    + intros b Hb. rewrite logical_empty by (now rewrite Ed). rewrite apply_writes_app. unfold apply_writes at 1. cbn.
      rewrite fn_lookup_insert_ne by (intros ->; auto). done.
Qed.

(** Recoveries of which each stops after some of its writes. *)
Inductive crashes (h : Z) : (Z -> block) -> (Z -> block) -> Prop :=
  | crashes_none d : crashes h d d
  | crashes_more d k d' : crashes h (apply_writes (take k (recover_writes h d)) d) d' -> crashes h d d'.

Lemma crashes_logical h d d' :
  crashes h d d' -> log_disk h d -> log_disk h d' /\ forall b, ~ in_log h b -> logical h d' b = logical h d b.
Proof.
  induction 1 as [d|d k d' _ IH]; intros Hd; [done|]. destruct (recovery_prefix h d k Hd) as [Hd1 E1].
  destruct (IH Hd1) as [H2 E2]. split; [done|]. intros b Hb. rewrite E2, E1 by done. done.
Qed.

(** A recovery that is not interrupted installs the contents and empties the log. *)
Lemma recovery_complete h d :
  log_disk h d -> let d' := apply_writes (recover_writes h d) d in
  hd_n (d' h) = 0 /\ forall b, ~ in_log h b -> d' b = logical h d b.
Proof.
  intros Hd d'. destruct Hd as [HW Hok].
  destruct (header_cleared (hd_block (d h)) (d h) (HW h)) as [H1 H2].
  unfold d', recover_writes. rewrite apply_writes_app. unfold apply_writes at 1 3. cbn. split.
  - now rewrite fn_lookup_insert.
  - intros b Hb. rewrite fn_lookup_insert_ne; [done|]. intros ->. apply Hb. unfold in_log, LOGSIZE, MAXOPBLOCKS. lia.
Qed.

(** ** Commit *)

Lemma logged_lookup h n blk data d x i :
  log_ok h n blk -> 0 <= i < n ->
  apply_writes (log_writes h blk data n ++ [(h, x)]) d (h + i + 1) = data (blk i).
Proof.
  intros Hok Hi. rewrite apply_writes_app. unfold apply_writes at 1. cbn [foldl].
  rewrite fn_lookup_insert_ne by (cbn; lia).
  apply apply_writes_in; [apply log_writes_NoDup|]. apply elem_log_writes. eauto.
Qed.

Section commit.
Context (h n : Z) (blk : Z -> Z) (data d0 : Z -> block).
Context (Hok : log_ok h n blk) (Hempty : hd_n (d0 h) = 0).
Context (HWd : forall b, WF_block (d0 b)) (HWx : forall b, WF_block (data b)).
Context (Hclean : forall b, ~ in_log h b -> (forall i, 0 <= i < n -> blk i <> b) -> data b = d0 b).

Let x := head_bytes n blk (data h).
Let d1 := apply_writes (log_writes h blk data n ++ [(h, x)]) d0.

Local Lemma header_ok : WF_block x /\ hd_n x = n /\ forall i, 0 <= i < n -> hd_block x i = blk i.
Proof. apply head_bytes_ok; [done|apply Hok|]. intros i Hi. now apply Hok. Qed.

Local Lemma d1_header : d1 h = x.
Proof. unfold d1. rewrite apply_writes_app. unfold apply_writes at 1. cbn. apply fn_lookup_insert. Qed.

Local Lemma d1_home b : ~ in_log h b -> d1 b = d0 b.
Proof.
  intros Hb. unfold d1. rewrite apply_writes_app. unfold apply_writes at 1. cbn.
  rewrite fn_lookup_insert_ne by (intros ->; apply Hb; unfold in_log, LOGSIZE, MAXOPBLOCKS; lia).
  apply apply_writes_ne. eapply log_writes_home; [exact Hok|destruct Hok; lia|done].
Qed.

(** Once the header is on the disk, the disk stands for the new contents. *)
Local Lemma d1_new : log_disk h d1 /\ forall b, ~ in_log h b -> logical h d1 b = data b.
Proof.
  destruct header_ok as (X1 & X2 & X3). split; [split|].
  - apply WF_writes; [done|]. intros b y [Hin|[= -> ->]%list_elem_of_singleton]%elem_of_app; [|done].
    apply elem_log_writes in Hin as (i & _ & _ & ->). auto.
  - rewrite d1_header, X2. eapply log_ok_ext; [|exact Hok]. intros i Hi. symmetry. auto.
  - intros b Hb. unfold logical. rewrite d1_header, X2.
    rewrite (home_writes_ext h (hd_block x) blk d1 d1) by auto.
    destruct (logged_dec n blk b) as [(i & Hi & <-)|Hno].
    + rewrite (home_lookup h n) by done. now apply logged_lookup.
    + rewrite home_lookup_ne by done. rewrite d1_home by done. symmetry. auto.
Qed.

(** The rest of [commit] writes what recovery would. *)
Local Lemma commit_split : commit_writes h n blk data = (log_writes h blk data n ++ [(h, x)]) ++ recover_writes h d1.
Proof.
  destruct header_ok as (X1 & X2 & X3). unfold commit_writes. fold x. rewrite <- (app_assoc _ [(h, x)]). do 2 f_equal.
  unfold recover_writes. rewrite d1_header, X2. f_equal.
  unfold home_writes. apply list_fmap_ext. intros k i Hi%list_elem_of_lookup_2%elem_of_seqZ.
  unfold d1. rewrite logged_lookup by (done || lia). rewrite X3 by lia. done.
Qed.

(** The disk after any prefix of the writes of [commit]. *)
Lemma commit_prefix k :
  let d := apply_writes (take k (commit_writes h n blk data)) d0 in
  log_disk h d /\ forall b, ~ in_log h b -> logical h d b = if Z.of_nat k <=? n then d0 b else data b.
Proof.
  intros d. assert (length (log_writes h blk data n) = Z.to_nat n) as Hlen.
  { unfold log_writes. now rewrite length_fmap, length_seqZ. }
  assert (0 <= n) as Hn by (destruct Hok; lia). case_goal; zbool.
  - unfold d, commit_writes. rewrite take_app_le by lia. set (ws := take k _).
    assert (apply_writes ws d0 h = d0 h) as Eh.
    { apply apply_writes_ne, prefix_keys_ne. rewrite log_writes_keys, list_elem_of_fmap.
      intros (i & E & Hi%elem_of_seqZ). lia. }
    split; [split|].
    + apply WF_writes; [done|]. intros b y Hin%prefix_elem%elem_log_writes. destruct Hin as (i & _ & _ & ->). auto.
    + rewrite Eh, Hempty. apply log_ok_empty.
    + intros b Hb. rewrite logical_empty by now rewrite Eh. apply apply_writes_ne, prefix_keys_ne.
      eapply log_writes_home; [exact Hok|lia|done].
  - unfold d. rewrite commit_split, take_app_ge by (rewrite length_app, Hlen; cbn; lia).
    rewrite apply_writes_app. fold d1. destruct d1_new as [D1 D2].
    destruct (recovery_prefix h d1 (k - length (log_writes h blk data n ++ [(h, x)])) D1) as [R1 R2].
    split; [done|]. intros b Hb. rewrite R2, D2 by done. done.
Qed.
End commit.
