(* ===== verification/LogTxn.v ===== *)
(** * kernel/log.c: transactions

    [log_write], [begin_op] and [end_op] on top of the commit and recovery
    results: the invariant between two operations of a transaction, and the
    atomicity of a whole transaction. *)

From stdpp Require Import base gmap numbers strings functions list.
From Stdlib Require Import ZifyBool.
From S2P Require Import Prelude Mem Block Spinlock Locks Bio Bcache BcacheSpec BcacheThms Log LogSpec LogCrash.

Open Scope Z_scope.

(** [b] is one of the logged blocks. *)
Definition logged (n : Z) (blk : Z -> Z) (b : Z) : Prop := exists i, 0 <= i < n /\ blk i = b.

Lemma find_block_ok k : forall i blk b,
  let j := find_block k i blk b in
  i <= j <= i + Z.of_nat k /\ (forall m, i <= m < j -> blk m <> b) /\ (j < i + Z.of_nat k -> blk j = b).
Proof.
  induction k as [|k IH]; intros i blk b; cbn [find_block]; [split; [lia|split; intros; lia]|].
  destruct (Z.eqb_spec (blk i) b) as [E|E]; [split; [lia|split; [intros; lia|done]]|].
  destruct (IH (i + 1) blk b) as (H1 & H2 & H3). split; [lia|]. split; [|intros; apply H3; lia].
  intros m Hm. destruct (Z.eq_dec m i) as [->|]; [done|]. apply H2. lia.
Qed.

Lemma find_logged n blk b :
  0 <= n -> let j := find_block (Z.to_nat n) 0 blk b in
  (logged n blk b /\ 0 <= j < n /\ blk j = b) \/ (~ logged n blk b /\ j = n).
Proof.
  intros Hn j. destruct (find_block_ok (Z.to_nat n) 0 blk b) as (H1 & H2 & H3). fold j in H1, H2, H3.
  destruct (Z_lt_le_dec j n) as [Hlt|Hge].
  - left. assert (blk j = b) by (apply H3; lia). split; [exists j; split; [lia|done]|]. split; [lia|done].
  - right. split; [|lia]. intros (i & Hi & E). apply (H2 i); [lia|done].
Qed.

Lemma log_ok_add h n blk b :
  log_ok h n blk -> n < LOGSIZE - 1 -> ~ logged n blk b -> ~ in_log h b -> 0 <= b < 2^31 ->
  log_ok h (n + 1) (<[n := b]> blk).
Proof.
  intros (A & B & C) Hn Hno Hout Hb. split; [lia|].
  assert (forall i, 0 <= i < n -> (<[n := b]> blk : Z -> Z) i = blk i) as E
    by (intros i Hi; apply fn_lookup_insert_ne; lia).
  assert (forall i, 0 <= i < n + 1 -> i = n \/ 0 <= i < n) as Hc by lia. split.
  - intros i Hi. destruct (Hc i Hi) as [->|Hi']; [rewrite fn_lookup_insert; done|]. rewrite E by done. auto.
  - intros i j Hi Hj. destruct (Hc i Hi) as [->|Hi'], (Hc j Hj) as [->|Hj'];
      rewrite ?fn_lookup_insert, ?E by done; auto.
    + intros ->. exfalso. apply Hno. exists j. done.
    + intros <-. exfalso. apply Hno. exists i. done.
Qed.

Section txn.
Context {S : Type} `{BC : BufCache S} (dev : Z) `{BS : !BufCacheSpec S dev}.

Definition set_lheld (h : gset lockid) (s : lstate S) : lstate S := LState (l_bc s) h (l_pid s) (l_log s).

Lemma llock s : l_held s = ∅ -> lock log_lock s = Ok tt (set_lheld ({[log_lock]} ∪ ∅) s).
Proof. intros E. unfold lock. erewrite bind_ok by reflexivity. cbn. now rewrite E. Qed.

Lemma lunlock s : l_held s = {[log_lock]} ∪ ∅ -> unlock log_lock s = Ok tt (set_lheld ∅ s).
Proof.
  intros E. unfold unlock. erewrite bind_ok by reflexivity. cbn. rewrite E.
  rewrite decide_True by set_solver. now rewrite relock.
Qed.

(** The fields [log_write] never changes. *)
Definition same_fields (l l' : log) : Prop :=
  lg_start l' = lg_start l /\ lg_size l' = lg_size l /\ lg_outstanding l' = lg_outstanding l /\
  lg_committing l' = lg_committing l /\ lg_dev l' = lg_dev l.

Lemma log_write_ok s V i b k :
  let l := l_log s in let n := lg_n l in let blk := lg_block l in
  lrep dev s V -> hnd dev s i b -> v_refs V !! b = Some k -> k + 1 < 2^32 ->
  0 <= n < LOGSIZE -> n < lg_size l - 1 -> 1 <= lg_outstanding l ->
  exists s', log_write i s = Ok tt s' /\ same_fields l (l_log s') /\ (forall j c, hnd dev s j c -> hnd dev s' j c) /\
    ((logged n blk b /\ lrep dev s' V /\ lg_n (l_log s') = n /\ forall m, lg_block (l_log s') m = blk m) \/
     (~ logged n blk b /\ lrep dev s' (v_ref b (k + 1) V) /\ lg_n (l_log s') = n + 1 /\
      lg_block (l_log s') = <[n := b]> blk)).
Proof.
  intros l n blk [HR Hh] Hi Hk Hmax Hn Hsz Ho. unfold log_write. rewrite (bind_ok _ _ _ _ _ (llock s Hh)).
  erewrite bind_ok by reflexivity. cbn [l_log set_lheld]. fold l n blk.
  rewrite (proj2 (Z.leb_gt _ _)), (proj2 (Z.leb_gt _ _)), (proj2 (Z.ltb_ge _ _)) by lia. cbn [orb].
  erewrite bind_ok by reflexivity. cbn [l_bc set_lheld]. rewrite (bc_no _ _ _ Hi).
  erewrite bind_ok by reflexivity. cbn zeta.
  destruct (find_logged n blk b) as [(Hl & Hj & Ej)|(Hl & Ej)]; [lia| |]; set (j := find_block _ _ _ _) in *.
  - rewrite (proj2 (Z.eqb_neq j n)) by lia. erewrite bind_ok by reflexivity. rewrite lunlock by done.
    eexists. split; [reflexivity|]. split; [done|]. split; [done|]. left. split; [done|]. split; [done|].
    split; [done|]. intros m. cbn. fold l blk. destruct (Z.eq_dec m j) as [->|]; [|now apply fn_lookup_insert_ne].
    now rewrite fn_lookup_insert.
  - rewrite Ej, Z.eqb_refl. rewrite bind_assoc.
    destruct (bc_bpin_ok (l_bc s) V i b k HR Hi Hk Hmax) as (b' & Hb & HR' & Hkeep).
    erewrite bind_ok by (apply bio_ok; exact Hb). erewrite bind_ok by reflexivity. rewrite lunlock by done.
    eexists. split; [reflexivity|]. split; [done|]. split; [intros; now apply Hkeep|].
    right. split; [done|]. split; [done|]. split; done.
Qed.

(** [log_write] panics when the log is full, and outside a transaction. *)
Lemma log_write_panics (s : lstate S) i :
  l_held s = ∅ -> let l := l_log s in
  (LOGSIZE <= lg_n l \/ lg_size l - 1 <= lg_n l -> log_write i s = Panic "too big a transaction") /\
  (lg_n l < LOGSIZE -> lg_n l < lg_size l - 1 -> lg_outstanding l < 1 ->
   log_write i s = Panic "log_write outside of trans").
Proof.
  intros Hh l. unfold log_write. rewrite (bind_ok _ _ _ _ _ (llock s Hh)).
  erewrite bind_ok by reflexivity. cbn [l_log set_lheld]. fold l. split.
  - intros Hf. assert ((LOGSIZE <=? lg_n l) || (lg_size l - 1 <=? lg_n l) = true) as -> by lia. done.
  - intros H1 H2 H3. rewrite (proj2 (Z.leb_gt _ _) H1), (proj2 (Z.leb_gt _ _) H2), (proj2 (Z.ltb_lt _ _) H3). done.
Qed.

(** [begin_op]: admission, or waiting. *)
Lemma begin_op_ok (s : lstate S) :
  l_held s = ∅ -> let l := l_log s in
  begin_op s = if (lg_committing l =? 0) && (lg_n l + (lg_outstanding l + 1) * MAXOPBLOCKS <=? LOGSIZE)
    then Ok tt (LState (l_bc s) ∅ (l_pid s) (set_outstanding (lg_outstanding l + 1) l)) else Diverge.
Proof.
  intros Hh l. unfold begin_op. rewrite (bind_ok _ _ _ _ _ (llock s Hh)). erewrite bind_ok by reflexivity.
  cbn [l_log set_lheld]. fold l. unfold truthy.
  destruct (Z.eqb_spec (lg_committing l) 0); cbn [negb andb]; [|done].
  destruct (Z.leb_spec (lg_n l + (lg_outstanding l + 1) * MAXOPBLOCKS) LOGSIZE);
    destruct (Z.ltb_spec LOGSIZE (lg_n l + (lg_outstanding l + 1) * MAXOPBLOCKS)); try lia; [|done].
  erewrite bind_ok by reflexivity. now rewrite lunlock by done.
Qed.

(** ** The invariant between two block updates of a transaction *)

(** Each logged block is pinned once, and nothing else has a reference. *)
Definition pins (n : Z) (blk : Z -> Z) (V : bview) : Prop :=
  forall c, (logged n blk c -> v_refs V !! c = Some 1) /\ (~ logged n blk c -> v_refs V !! c = None).

Record txn_inv (s : lstate S) (V : bview) : Prop := TxnInv {
  ti_rep : lrep dev s V;
  ti_dev : lg_dev (l_log s) = dev;
  ti_ok : log_ok (lg_start (l_log s)) (lg_n (l_log s)) (lg_block (l_log s));
  ti_pins : pins (lg_n (l_log s)) (lg_block (l_log s)) V;
  ti_locked : v_locked V = ∅;
  ti_head : hd_n (v_disk V (lg_start (l_log s))) = 0;
  ti_wf b : WF_block (v_data V b) /\ WF_block (v_disk V b);
}.

Lemma logged_or n blk c : logged n blk c \/ ~ logged n blk c.
Proof.
  destruct (logged_dec n blk c) as [H|H]; [now left|right]. intros (i & Hi & E). now apply (H i).
Qed.

Lemma pins_lookup n blk V c x : pins n blk V -> v_refs V !! c = Some x -> logged n blk c /\ x = 1.
Proof.
  intros HP E. destruct (HP c) as [H1 H2]. destruct (logged_or n blk c) as [Hl|Hl].
  - rewrite (H1 Hl) in E. split; [done|]. congruence.
  - rewrite (H2 Hl) in E. done.
Qed.

Lemma pins_size h n blk V : log_ok h n blk -> pins n blk V -> (size (v_refs V) <= Z.to_nat n)%nat.
Proof.
  intros Hok HP. pose proof (blocks_NoDup h n blk Hok) as Hnd. rewrite <- size_dom.
  assert (dom (v_refs V) ⊆ (list_to_set (blk <$> seqZ 0 n) : gset Z)) as Hs%subseteq_size.
  { intros c [x Hx]%elem_of_dom. apply (pins_lookup n blk V c x HP) in Hx as [(i & Hi & <-) _].
    apply elem_of_list_to_set, list_elem_of_fmap. exists i. split; [done|]. apply elem_of_seqZ. lia. }
  rewrite size_list_to_set, length_fmap, length_seqZ in Hs by done. lia.
Qed.

Lemma pins_few n blk V c : pins n blk V -> 0 <= default 0 (v_refs V !! c) <= 1.
Proof. intros HP. destruct (v_refs V !! c) as [x|] eqn:E; cbn; [|lia]. apply (pins_lookup _ _ _ _ _ HP) in E as [_ ->]. lia. Qed.

Lemma txn_quiet s V : txn_inv s V -> quiet V.
Proof.
  intros [HR Hd Hok HP Hl Hh Hw]. split; [done|]. split.
  - intros c. pose proof (pins_few _ _ _ c HP). unfold id in *. lia.
  - pose proof (pins_size _ _ _ _ Hok HP) as Hs. destruct Hok as [? _]. unfold NBUF, LOGSIZE, MAXOPBLOCKS in *. lia.
Qed.

(** An update of block [b], as file-system code does it. *)
Definition log_block (b : Z) (d : block) : M (lstate S) unit :=
  bp ← bio (bc_bread dev b);
  bio (bc_set_data bp d);;
  log_write bp;;
  bio (bc_brelse bp).

Lemma pins_keep n blk V V' blk' :
  pins n blk V -> (forall i, 0 <= i < n -> blk' i = blk i) -> (forall c, v_refs V' !! c = v_refs V !! c) ->
  pins n blk' V'.
Proof.
  intros HP Eb Er c. destruct (HP c) as [H1 H2]. rewrite Er. split.
  - intros (i & Hi & E). apply H1. exists i. rewrite <- Eb; done.
  - intros Hno. apply H2. intros (i & Hi & E). apply Hno. exists i. rewrite Eb; done.
Qed.

Lemma logged_add n blk b c : 0 <= n -> logged (n + 1) (<[n := b]> blk) c <-> c = b \/ logged n blk c.
Proof.
  intros Hn. split.
  - intros (i & Hi & E). destruct (Z.eq_dec i n) as [->|Hne].
    + rewrite fn_lookup_insert in E. auto.
    + rewrite fn_lookup_insert_ne in E by done. right. exists i. split; [lia|done].
  - intros [->|(i & Hi & E)]; [exists n; rewrite fn_lookup_insert; split; [lia|done]|].
    exists i. rewrite fn_lookup_insert_ne by lia. split; [lia|done].
Qed.

Lemma pins_add n blk b V V' :
  pins n blk V -> 0 <= n ->
  (forall c, v_refs V' !! c = if decide (c = b) then Some 1 else v_refs V !! c) ->
  pins (n + 1) (<[n := b]> blk) V'.
Proof.
  intros HP Hn E c. rewrite E, logged_add by done. destruct (HP c) as [Q1 Q2].
  destruct (decide (c = b)); [split; [done|tauto]|]. split; [intros [|]; tauto|tauto].
Qed.

(** The cache of a block that was read, changed and logged, before its release. *)
Definition written (b : Z) (d : block) (V V' : bview) : Prop :=
  v_refs V' !! b = Some 2 /\ (forall c, c <> b -> v_refs V' !! c = v_refs V !! c) /\
  v_data V' = <[b := d]> (v_data V) /\ v_disk V' = v_disk V /\ v_writes V' = v_writes V /\ v_locked V' = {[b]} ∪ ∅.

Lemma log_block_ok s V b d :
  let l := l_log s in
  txn_inv s V -> 0 <= b < 2^31 -> ~ in_log (lg_start l) b -> WF_block d ->
  lg_n l < LOGSIZE - 1 -> lg_n l < lg_size l - 1 -> 1 <= lg_outstanding l ->
  exists s' V', log_block b d s = Ok tt s' /\ txn_inv s' V' /\ same_fields l (l_log s') /\
    v_data V' = <[b := d]> (v_data V) /\ v_disk V' = v_disk V /\ v_writes V' = v_writes V /\
    (logged (lg_n l) (lg_block l) b /\ lg_n (l_log s') = lg_n l \/
     ~ logged (lg_n l) (lg_block l) b /\ lg_n (l_log s') = lg_n l + 1) /\
    (forall c, logged (lg_n (l_log s')) (lg_block (l_log s')) c <-> c = b \/ logged (lg_n l) (lg_block l) c).
Proof.
  intros l HT Hb Hout Hd Hn Hsz Ho. pose proof (txn_quiet s V HT) as HQ.
  destruct HT as [HR Hdev Hok HP Hlk Hh Hw]. fold l in Hdev, Hok, HP, Hh.
  pose proof (pins_few _ _ _ b HP) as Hfew. set (k := default 0 (v_refs V !! b)) in *. unfold log_block.
  destruct (one_read dev s V b HR HQ) as (i & s1 & H1 & R1 & S1 & h1 & D1).
  rewrite (bind_ok _ _ _ _ _ H1).
  assert (forall c, v_refs (v_bread b V) !! c = if decide (c = b) then Some (k + 1) else v_refs V !! c) as E1
    by (intros c; apply bread_lookup; fold k; lia).
  destruct (put_l dev s1 _ i b d R1 h1) as (s2 & H2 & R2 & S2 & k2); [rewrite E1, decide_True by done; eauto|].
  rewrite (bind_ok _ _ _ _ _ H2). pose proof (same_log_trans _ _ _ S1 S2) as (_ & _ & L2).
  assert (v_refs (v_put b d (v_bread b V)) !! b = Some (k + 1)) as E2 by (cbn [v_refs v_put]; now rewrite E1, decide_True).
  destruct (log_write_ok s2 _ i b (k + 1) R2 (k2 _ _ h1) E2) as (s3 & H3 & F3 & k3 & Hcase);
    rewrite ?L2; fold l; try lia; [destruct Hok; lia|].
  rewrite (bind_ok _ _ _ _ _ H3). rewrite L2 in F3, Hcase. fold l in F3, Hcase. set (n := lg_n l) in *. set (blk := lg_block l) in *.
  destruct (HP b) as [P1 P2].
  assert (exists V3, lrep dev s3 V3 /\ written b d V V3) as (V3 & R3 & E3 & N3 & D3 & K3 & W3 & L3).
  { destruct Hcase as [(Hl & R3 & _)|(Hl & R3 & _)]; eexists; (split; [exact R3|]).
    - split; [rewrite E2; unfold k; now rewrite (P1 Hl)|]. split; [|cbn; rewrite Hlk; auto].
      intros c Hc. cbn [v_refs v_put]. now rewrite E1, decide_False.
    - split; [rewrite v_ref_lookup, decide_True by done; unfold k; now rewrite (P2 Hl)|].
      split; [|cbn; rewrite Hlk; auto]. intros c Hc. rewrite v_ref_lookup, decide_False by done.
      cbn [v_refs v_put]. now rewrite E1, decide_False. }
  destruct (brelse_l dev s3 V3 i b R3) as (s4 & H4 & R4 & (_ & _ & L4) & _); [auto|rewrite L3; set_solver|now rewrite E3|].
  exists s4, (v_relse b V3). split; [exact H4|]. rewrite L4.
  assert (forall c, v_refs (v_relse b V3) !! c = if decide (c = b) then Some 1 else v_refs V !! c) as E4.
  { intros c. rewrite relse_lookup, E3. cbn [default]. destruct (decide (c = b)); [done|]. now apply N3. }
  split; [|split; [done|split; [done|split; [done|split; [done|]]]]].
  - destruct F3 as (F1 & F2 & F3 & F4 & F5).
    split; rewrite ?L4, ?F1, ?F5; try done.
    + destruct Hcase as [(Hl & _ & -> & Eb)|(Hl & _ & -> & ->)]; [eapply log_ok_ext; [|exact Hok]; intros; symmetry; apply Eb|].
      apply log_ok_add; done || lia.
    + destruct Hcase as [(Hl & _ & -> & Eb)|(Hl & _ & -> & ->)]; [|apply (pins_add n blk b V); [done|destruct Hok; lia|done]].
      apply (pins_keep n blk V); [done|auto|]. intros c. rewrite E4. destruct (decide (c = b)) as [->|]; [|done].
      symmetry. auto.
    + cbn. rewrite L3. set_solver.
    + cbn. now rewrite K3.
    + intros c. cbn. rewrite D3, K3. destruct (Hw c). split; [|done].
      destruct (decide (c = b)) as [->|]; [now rewrite fn_lookup_insert|now rewrite fn_lookup_insert_ne].
  - destruct Hcase as [(Hl & _ & -> & Eb)|(Hl & _ & -> & ->)]; (split; [auto|]); intros c.
    + split; [intros (j & Hj & <-); right; exists j; now rewrite Eb|].
      intros [->|(j & Hj & <-)]; [destruct Hl as (j & Hj & <-)|]; exists j; now rewrite Eb.
    + apply logged_add. destruct Hok; lia.
Qed.

(** ** The end of a transaction *)

Lemma commit_last h n blk data d :
  apply_writes (commit_writes h n blk data) d h = head_bytes 0 blk (head_bytes n blk (data h)).
Proof.
  unfold commit_writes. rewrite !app_assoc, apply_writes_app. unfold apply_writes at 1. cbn. apply fn_lookup_insert.
Qed.

Lemma commit_WF h n blk data d :
  log_ok h n blk -> (forall b, WF_block (data b)) -> (forall b, WF_block (d b)) ->
  forall b, WF_block (apply_writes (commit_writes h n blk data) d b).
Proof.
  intros Hok Hw Hd. destruct (head_bytes_ok n blk (data h)) as (H1 & _); [done|apply Hok|intros; now apply Hok|].
  apply WF_writes; [done|]. intros b x Hin. unfold commit_writes in Hin. rewrite !elem_of_app in Hin.
  destruct Hin as [Hin|[[= -> ->]%list_elem_of_singleton|[Hin|[= -> ->]%list_elem_of_singleton]]].
  - apply elem_log_writes in Hin as (i & _ & _ & ->). done.
  - done.
  - apply list_elem_of_fmap in Hin as (i & [= -> ->] & _). done.
  - now apply header_cleared.
Qed.

(** The writes with which the last [end_op] ends. *)
Definition end_writes (l : log) (data : Z -> block) : list (Z * block) :=
  if 0 <? lg_n l then commit_writes (lg_start l) (lg_n l) (lg_block l) data else [].

Lemma txn_clean s V b :
  txn_inv s V -> (forall i, 0 <= i < lg_n (l_log s) -> lg_block (l_log s) i <> b) -> v_data V b = v_disk V b.
Proof.
  intros [[HR _] _ _ HP _ _ _] Hb. eapply bc_clean; [exact HR|]. apply HP. intros (i & Hi & E). now apply (Hb i).
Qed.

(** A crash between any two of them, and any number of crashed recoveries. *)
Lemma end_prefix s V k :
  txn_inv s V -> let l := l_log s in let h := lg_start l in
  let d := apply_writes (take k (end_writes l (v_data V))) (v_disk V) in
  log_disk h d /\
  forall b, ~ in_log h b -> logical h d b = if Z.of_nat k <=? lg_n l then v_disk V b else v_data V b.
Proof.
  intros HT l h d. pose proof (txn_clean s V) as Hc. unfold d, end_writes. destruct (Z.ltb_spec 0 (lg_n l)) as [Hn|Hn].
  - pose proof HT as [HR Hd Hok HP Hl Hh Hw]. apply commit_prefix; try done; try (intros; now apply Hw).
    intros b _ Hb. now apply Hc.
  - rewrite take_nil. cbn [apply_writes foldl]. pose proof HT as [HR Hd Hok HP Hl Hh Hw]. split; [split|].
    + intros b. apply Hw.
    + unfold h, l. rewrite Hh. apply log_ok_empty.
    + intros b Hb. rewrite logical_empty by done. assert (v_data V b = v_disk V b) as ->; [|now destruct (_ <=? _)].
      apply Hc; [done|]. intros i Hi. fold l in Hi. lia.
Qed.

Lemma txn_commit s V :
  txn_inv s V -> let l := l_log s in
  exists s' V', commit s = Ok tt s' /\ l_log s' = set_n 0 l /\ txn_inv s' V' /\
    v_writes V' = v_writes V ++ end_writes l (v_data V) /\
    v_disk V' = apply_writes (end_writes l (v_data V)) (v_disk V).
Proof.
  intros HT l. pose proof (txn_quiet s V HT) as HQ. pose proof HT as [HR Hd Hok HP Hl Hh Hw].
  fold l in Hd, Hok, HP, Hh. set (n := lg_n l) in *. set (blk := lg_block l) in *. set (h := lg_start l) in *.
  unfold end_writes. fold n blk h. destruct (Z.ltb_spec 0 n) as [Hn|Hn].
  - destruct (commit_ok dev s V HR HQ Hd Hok Hn) as (s' & H1 & L1 & R1).
    { intros i Hi. exists 1. apply HP. now exists i. }
    fold l n blk h in L1, R1. exists s'. eexists. split; [exact H1|]. split; [exact L1|].
    destruct (unpins_same blk n (v_apply (commit_writes h n blk (v_data V)) V)) as (U1 & U2 & U3 & U4).
    rewrite U1, U2. split; [|split; done].
    split; rewrite ?L1; cbn [lg_dev lg_start lg_n lg_block set_n]; fold h blk; try done.
    + apply log_ok_empty.
    + intros c. split; [intros (i & Hi & _); lia|]. intros _. destruct (logged_or n blk c) as [(i & Hi & <-)|Hno].
      * rewrite (unpins_one h n) by done || lia. unfold v_unpin. rewrite v_ref_lookup, decide_True by done.
        cbn [v_refs v_apply]. rewrite (proj1 (HP (blk i))) by (now exists i). done.
      * rewrite unpins_other by (intros j Hj E; apply Hno; now exists j). cbn. now apply HP.
    + now rewrite U4.
    + rewrite U1. cbn. rewrite commit_last. apply header_cleared.
      destruct (head_bytes_ok n blk (v_data V h)) as (X & _); [apply Hw|apply Hok|intros; now apply Hok|done].
    + intros b. rewrite U1, U3. cbn. split; apply commit_WF; try done; intros; apply Hw.
  - assert (n = 0) as En by (destruct Hok; lia).
    exists s, V. assert (commit s = Ok tt s) as ->.
    { unfold commit. erewrite bind_ok by reflexivity. fold l n. now rewrite En. }
    assert (set_n 0 l = l) as -> by (unfold n in En; destruct l; cbn in *; now subst).
    rewrite app_nil_r. auto.
Qed.

(** The last [end_op] commits. *)
Lemma end_op_last s V :
  txn_inv s V -> let l := l_log s in lg_outstanding l = 1 -> lg_committing l = 0 ->
  exists s' V', end_op s = Ok tt s' /\ l_log s' = set_n 0 (set_outstanding 0 l) /\ txn_inv s' V' /\
    v_writes V' = v_writes V ++ end_writes l (v_data V) /\
    v_disk V' = apply_writes (end_writes l (v_data V)) (v_disk V).
Proof.
  intros HT l Ho Hc. pose proof HT as [[HR Hh] Hd Hok HP Hl Hhd Hw].
  unfold end_op. rewrite (bind_ok _ _ _ _ _ (llock s Hh)). do 2 erewrite bind_ok by reflexivity.
  cbn [l_log set_lheld lg_committing lg_outstanding set_outstanding]. fold l. rewrite Ho, Hc. cbn [truthy Z.eqb negb Z.sub].
  change (1 - 1 =? 0) with true. cbn zeta iota. erewrite bind_ok by reflexivity. erewrite bind_ok by now apply lunlock.
  set (s1 := set_lheld ∅ _).
  destruct (txn_commit s1 V) as (s2 & V2 & H2 & L2 & T2 & W2 & D2).
  { split; try done. }
  rewrite (bind_ok _ _ _ _ _ H2). pose proof T2 as [[R2 Hh2] _ _ _ _ _ _].
  rewrite (bind_ok _ _ _ _ _ (llock s2 Hh2)). erewrite bind_ok by reflexivity. rewrite lunlock by done.
  assert (l_log s2 = set_n 0 (set_committing 1 (set_outstanding 0 l))) as L3.
  { rewrite L2. reflexivity. }
  eexists. exists V2. split; [reflexivity|]. cbn [l_log set_lheld]. rewrite L3.
  split; [unfold set_n, set_committing, set_outstanding; cbn; now rewrite Hc|]. split; [|done].
  destruct T2 as [T1 T2 T3 T4 T5 T6 T7]. rewrite L3 in *. split; cbn [l_log]; now rewrite ?L3.
Qed.

(** ** Boot *)

Lemma initlog_txn s h nlog d :
  lrep dev s (v_init d) -> log_disk h d ->
  exists s' V', initlog dev h nlog s = Ok tt s' /\ txn_inv s' V' /\ lg_start (l_log s') = h /\
    lg_n (l_log s') = 0 /\ lg_size (l_log s') = nlog /\
    lg_outstanding (l_log s') = lg_outstanding (l_log s) /\ lg_committing (l_log s') = lg_committing (l_log s) /\
    forall b, ~ in_log h b -> v_disk V' b = logical h d b.
Proof.
  intros HR Hd. destruct (initlog_ok dev s (v_init d) h nlog HR) as (s' & H1 & R1 & L1 & L2 & L3 & L4 & L5 & L6).
  { split; [done|]. split; [intros b; cbn; now rewrite lookup_empty|]. cbn. rewrite map_size_empty. unfold NBUF, MAXOPBLOCKS. lia. }
  { cbn. rewrite map_size_empty. unfold NBUF, MAXOPBLOCKS. lia. } { apply Hd. }
  pose proof (recovery_complete h d Hd) as [C1 C2].
  destruct (recovery_prefix h d (length (recover_writes h d)) Hd) as [[P1 _] _]. rewrite take_ge in P1 by done.
  exists s', (v_apply (recover_writes h d) (v_init d)). split; [exact H1|].
  split; [|split; [done|split; [done|split; [done|split; [done|split; [done|exact C2]]]]]].
  split; rewrite ?L1, ?L2; try done.
  - apply log_ok_empty.
  - intros c. split; [intros (i & Hi & _); lia|done].
  - intros b. split; apply P1.
Qed.

(** ** A whole transaction *)

Fixpoint log_blocks (us : list (Z * block)) : M (lstate S) unit :=
  match us with
  | [] => mret tt
  | (b, d) :: us' => log_block b d;; log_blocks us'
  end.

Definition transaction (us : list (Z * block)) : M (lstate S) unit :=
  begin_op;; log_blocks us;; end_op.

(** Updates a transaction may make: blocks outside the log. *)
Definition update_ok (h : Z) (u : Z * block) : Prop := 0 <= u.1 < 2^31 /\ ~ in_log h u.1 /\ WF_block u.2.

Lemma log_blocks_ok us : forall s V,
  let l := l_log s in
  txn_inv s V -> Forall (update_ok (lg_start l)) us -> 1 <= lg_outstanding l ->
  lg_n l + Z.of_nat (length us) <= LOGSIZE - 1 -> lg_n l + Z.of_nat (length us) < lg_size l ->
  exists s' V', log_blocks us s = Ok tt s' /\ txn_inv s' V' /\ same_fields l (l_log s') /\
    v_data V' = apply_writes us (v_data V) /\ v_disk V' = v_disk V /\ v_writes V' = v_writes V /\
    lg_n (l_log s') <= lg_n l + Z.of_nat (length us).
Proof.
  induction us as [|[b d] us IH]; intros s V l HT HF Ho Hn Hsz; cbn [log_blocks].
  { exists s, V. split; [done|]. split; [done|]. split; [done|]. split; [done|]. cbn. split; [done|]. split; [done|]. fold l. lia. }
  apply Forall_cons in HF as [(U1 & U2 & U3) HF]. cbn [length] in *.
  destruct (log_block_ok s V b d HT U1 U2 U3) as (s1 & V1 & H1 & T1 & F1 & D1 & K1 & W1 & N1 & _); fold l; try lia.
  rewrite (bind_ok _ _ _ _ _ H1). pose proof F1 as (G1 & G2 & G3 & G4 & G5). fold l in N1, F1, G1, G2, G3, G4, G5.
  destruct (IH s1 V1 T1) as (s2 & V2 & H2 & T2 & F2 & D2 & K2 & W2 & N2); rewrite ?G1, ?G2, ?G3; try done || lia.
  exists s2, V2. split; [exact H2|]. split; [done|]. destruct F2 as (I1 & I2 & I3 & I4 & I5).
  split; [repeat split; congruence|]. rewrite D2, D1, K2, W2. split; [done|]. split; [done|]. split; [done|]. lia.
Qed.

(** The log between transactions. *)
Definition idle (s : lstate S) : Prop :=
  lg_n (l_log s) = 0 /\ lg_outstanding (l_log s) = 0 /\ lg_committing (l_log s) = 0.

(** The disk [d] with the log at [h], after crashes and a recovery from state [sb]. *)
Definition recovers_to (h nlog : Z) (sb : lstate S) (d : Z -> block) (P : (Z -> block) -> Prop) : Prop :=
  exists s' V', initlog dev h nlog sb = Ok tt s' /\ txn_inv s' V' /\ lg_n (l_log s') = 0 /\ P (v_disk V').

Lemma crashes_recover h nlog sb d d' P :
  log_disk h d -> crashes h d d' -> lrep dev sb (v_init d') ->
  (forall e, (forall b, ~ in_log h b -> e b = logical h d b) -> P e) -> recovers_to h nlog sb d' P.
Proof.
  intros Hd Hc Hb HP. destruct (crashes_logical h d d' Hc Hd) as [Hd' E].
  destruct (initlog_txn sb h nlog d' Hb Hd') as (s' & V' & H1 & T1 & _ & N1 & _ & _ & _ & D1).
  exists s', V'. split; [done|]. split; [done|]. split; [done|]. apply HP. intros b Hout. now rewrite D1, E.
Qed.

Lemma end_recovers s V k d' sb nlog :
  txn_inv s V -> let l := l_log s in let h := lg_start l in
  crashes h (apply_writes (take k (end_writes l (v_data V))) (v_disk V)) d' -> lrep dev sb (v_init d') ->
  recovers_to h nlog sb d' (fun e => forall b, ~ in_log h b ->
    e b = if Z.of_nat k <=? lg_n l then v_disk V b else v_data V b).
Proof.
  intros HT l h Hc Hb. destruct (end_prefix s V k HT) as [Hd E].
  eapply crashes_recover; [exact Hd|exact Hc|exact Hb|]. intros e He b Hout. rewrite He by done. now apply E.
Qed.

Lemma end_home s V b :
  txn_inv s V -> let l := l_log s in ~ in_log (lg_start l) b ->
  apply_writes (end_writes l (v_data V)) (v_disk V) b = v_data V b.
Proof.
  intros HT l Hb. set (ws := end_writes l (v_data V)).
  pose proof (proj1 (ti_ok s V HT)) as Hpos. fold l in Hpos.
  assert (lg_n l = 0 \/ 0 < lg_n l < Z.of_nat (length ws)) as Hk.
  { unfold ws, end_writes. destruct (Z.ltb_spec 0 (lg_n l)) as [Hn|Hn].
    - right. unfold commit_writes, log_writes. rewrite !length_app, !length_fmap, length_seqZ. cbn. lia.
    - left. lia. }
  destruct (end_prefix s V (length ws) HT) as [_ E]. fold l ws in E. rewrite take_ge in E by done.
  specialize (E b Hb). destruct Hk as [Hn|Hn].
  - unfold ws, end_writes. rewrite Hn. cbn. symmetry. apply txn_clean with s; [done|]. intros i Hi. fold l in Hi. lia.
  - rewrite (proj2 (Z.leb_gt _ _)) in E by lia. rewrite <- E. symmetry. apply logical_empty.
    unfold ws, end_writes. rewrite (proj2 (Z.ltb_lt _ _)) by lia. rewrite commit_last.
    apply header_cleared. destruct (head_bytes_ok (lg_n l) (lg_block l) (v_data V (lg_start l))) as (X & _);
      [apply (ti_wf s V HT)|apply (ti_ok s V HT)|intros; now apply (ti_ok s V HT)|done].
Qed.

(** A commit is atomic.  [commit] runs to the end; if the machine stops
    after any [k] of the disk writes it makes, and after that any number of
    recoveries is interrupted too, the next [initlog] succeeds and leaves every
    block outside the log as it was before the transaction when [k] is at most
    the number of logged blocks, and as the transaction made it otherwise: the
    header write is the commit point. *)
Theorem commit_crash_safe (s : lstate S) V :
  txn_inv s V -> let l := l_log s in let h := lg_start l in
  exists s' V' ws, commit s = Ok tt s' /\ txn_inv s' V' /\ lg_n (l_log s') = 0 /\
    v_writes V' = v_writes V ++ ws /\ v_disk V' = apply_writes ws (v_disk V) /\
    (forall b, ~ in_log h b -> v_disk V' b = v_data V b) /\
    forall k d sb nlog, crashes h (apply_writes (take k ws) (v_disk V)) d -> lrep dev sb (v_init d) ->
      recovers_to h nlog sb d (fun e => forall b, ~ in_log h b ->
        e b = if Z.of_nat k <=? lg_n l then v_disk V b else v_data V b).
Proof.
  intros HT l h. destruct (txn_commit s V HT) as (s' & V' & H1 & L1 & T1 & W1 & D1).
  exists s', V', (end_writes l (v_data V)). split; [done|]. split; [done|]. split; [now rewrite L1|].
  split; [done|]. split; [done|]. split.
  - intros b Hb. rewrite D1. now apply end_home.
  - intros k d sb nlog Hc Hb. now apply (end_recovers s V k).
Qed.

(** C17: a transaction is atomic.  A [begin_op], at most [MAXOPBLOCKS] block
    updates done as the comment of [log_write] prescribes, and an [end_op], run
    to the end on an idle log, change the blocks as the updates say; and after
    a crash at any point of its disk writes, or of the recoveries that follow,
    recovery leaves either all of the updates or none. *)
Theorem transaction_atomic (s : lstate S) V us :
  txn_inv s V -> idle s -> let h := lg_start (l_log s) in
  Forall (update_ok h) us -> Z.of_nat (length us) <= MAXOPBLOCKS -> MAXOPBLOCKS < lg_size (l_log s) ->
  exists s' V' ws, transaction us s = Ok tt s' /\ txn_inv s' V' /\ idle s' /\
    v_writes V' = v_writes V ++ ws /\ v_disk V' = apply_writes ws (v_disk V) /\
    (forall b, ~ in_log h b -> v_disk V' b = apply_writes us (v_disk V) b) /\
    forall k d sb nlog, crashes h (apply_writes (take k ws) (v_disk V)) d -> lrep dev sb (v_init d) ->
      recovers_to h nlog sb d (fun e => exists done : bool, forall b, ~ in_log h b ->
        e b = if done then apply_writes us (v_disk V) b else v_disk V b).
Proof.
  intros HT (I1 & I2 & I3) h HF Hlen Hsz. pose proof (ti_rep s V HT) as [HR Hh].
  unfold transaction. pose proof (begin_op_ok s Hh) as Hbegin. cbn zeta in Hbegin. rewrite I1, I2, I3 in Hbegin.
  rewrite (bind_ok _ _ _ _ _ Hbegin). set (s1 := LState _ _ _ _).
  assert (txn_inv s1 V) as T1 by (destruct HT; split; done).
  destruct (log_blocks_ok us s1 V T1 HF) as (s2 & V2 & H2 & T2 & (F1 & F2 & F3 & F4 & F5) & D2 & K2 & W2 & N2);
    unfold s1 in *; cbn [l_log lg_n lg_size lg_outstanding lg_start lg_committing lg_dev set_outstanding] in *;
    rewrite ?I1, ?I2, ?I3 in *; try (unfold LOGSIZE, MAXOPBLOCKS in *; lia).
  rewrite (bind_ok _ _ _ _ _ H2).
  destruct (end_op_last s2 V2 T2) as (s3 & V3 & H3 & L3 & T3 & W3 & D3); try done.
  assert (forall b, v_data V2 b = apply_writes us (v_disk V) b) as E2.
  { intros b. rewrite D2. apply apply_writes_ext. intros c. apply (txn_clean s V c HT). intros i. lia. }
  exists s3, V3, (end_writes (l_log s2) (v_data V2)). split; [exact H3|]. split; [done|].
  split; [unfold idle; rewrite L3; cbn; now rewrite F4|]. rewrite W3, W2, D3, K2. split; [done|]. split; [done|].
  pose proof (end_recovers s2 V2) as Hrec. cbn zeta in Hrec. rewrite F1, K2 in Hrec. fold h in Hrec. split.
  - intros b Hb. rewrite <- E2, <- K2. apply end_home; [done|now rewrite F1].
  - intros k d sb nlog Hc Hb.
    destruct (Hrec k d sb nlog T2 Hc Hb) as (s4 & V4 & H4 & T4 & N4 & P4).
    exists s4, V4. split; [done|]. split; [done|]. split; [done|].
    exists (negb (Z.of_nat k <=? lg_n (l_log s2))). intros b Hout. rewrite P4 by done.
    destruct (Z.of_nat k <=? lg_n (l_log s2)); cbn [negb]; [reflexivity|apply E2].
Qed.

(** Distinct blocks take one slot of the log each. *)
Lemma log_blocks_distinct us : forall s V,
  let l := l_log s in
  txn_inv s V -> Forall (update_ok (lg_start l)) us -> 1 <= lg_outstanding l ->
  lg_n l + Z.of_nat (length us) <= LOGSIZE - 1 -> lg_n l + Z.of_nat (length us) < lg_size l ->
  NoDup us.*1 -> (forall b, b ∈ us.*1 -> ~ logged (lg_n l) (lg_block l) b) ->
  exists s' V', log_blocks us s = Ok tt s' /\ txn_inv s' V' /\ same_fields l (l_log s') /\
    lg_n (l_log s') = lg_n l + Z.of_nat (length us).
Proof.
  induction us as [|[b d] us IH]; intros s V l HT HF Ho Hn Hsz Hnd Hno; cbn [log_blocks].
  { exists s, V. split; [done|]. split; [done|]. split; [done|]. cbn. fold l. lia. }
  apply Forall_cons in HF as [(U1 & U2 & U3) HF]. cbn [length] in *. cbn in Hnd. apply NoDup_cons in Hnd as [Hb Hnd].
  destruct (log_block_ok s V b d HT U1 U2 U3) as (s1 & V1 & H1 & T1 & F1 & _ & _ & _ & [[N1 _]|[_ N1]] & G1); fold l; try lia.
  { exfalso. apply (Hno b); [left|done]. }
  rewrite (bind_ok _ _ _ _ _ H1). destruct F1 as (F1 & F2 & F3 & F4 & F5). fold l in N1, F1, F2, F3, F4, F5, G1.
  destruct (IH s1 V1 T1) as (s2 & V2 & H2 & T2 & (I1 & I2 & I3 & I4 & I5) & N2); rewrite ?F1, ?F2, ?F3; try done || lia.
  { intros c Hc [->|Hl]%G1; [done|]. apply (Hno c); [now right|done]. }
  exists s2, V2. split; [exact H2|]. split; [done|]. split; [repeat split; congruence|]. lia.
Qed.

(** An update with the log full. *)
Lemma log_block_full s V b d :
  txn_inv s V -> let l := l_log s in lg_size l - 1 <= lg_n l ->
  log_block b d s = Panic "too big a transaction".
Proof.
  intros HT l Hsz. pose proof (txn_quiet s V HT) as HQ.
  destruct HT as [HR Hdev Hok HP Hlk Hh Hw]. pose proof (pins_few _ _ _ b HP) as Hfew. unfold log_block.
  destruct (one_read dev s V b HR HQ) as (i & s1 & H1 & R1 & S1 & h1 & D1).
  rewrite (bind_ok _ _ _ _ _ H1).
  destruct (put_l dev s1 _ i b d R1 h1) as (s2 & H2 & R2 & S2 & k2);
    [rewrite bread_lookup, decide_True by (done || lia); eauto|].
  rewrite (bind_ok _ _ _ _ _ H2). pose proof (same_log_trans _ _ _ S1 S2) as (_ & _ & L2).
  apply bind_panic. apply log_write_panics; [apply R2|]. right. now rewrite L2.
Qed.

Lemma log_blocks_app us us' s : log_blocks (us ++ us') s = (log_blocks us;; log_blocks us') s.
Proof.
  revert s. induction us as [|[b d] us IH]; intros s; [done|]. cbn [log_blocks app]. rewrite bind_assoc.
  destruct (log_block b d s) as [[] s1|m|] eqn:E.
  - rewrite !(bind_ok _ _ _ _ _ E). apply IH.
  - now rewrite !(bind_panic _ _ _ _ E).
  - unfold mbind, M_bind. now rewrite E.
Qed.

(** C18: the admission test of [begin_op] does not protect [log_write].  With a
    log of [LOGSIZE] blocks, as mkfs makes it, one block holds the header, so
    [LOGSIZE - 1] blocks fit.  On an idle log three operations are admitted;
    when each of them then updates [MAXOPBLOCKS] blocks, all distinct, the
    last update panics. *)
Theorem begin_op_overcommits (s : lstate S) V us :
  txn_inv s V -> idle s -> let h := lg_start (l_log s) in lg_size (l_log s) = LOGSIZE ->
  Forall (update_ok h) us -> NoDup us.*1 -> length us = Z.to_nat (3 * MAXOPBLOCKS) ->
  (exists s', (begin_op;; begin_op;; begin_op) s = Ok tt s' /\ lg_outstanding (l_log s') = 3) /\
  (begin_op;; begin_op;; begin_op;; log_blocks us) s = Panic "too big a transaction".
Proof.
  intros HT (I1 & I2 & I3) h Hsz HF Hnd Hlen. pose proof (ti_rep s V HT) as [HR Hh].
  set (open k := LState (l_bc s) ∅ (l_pid s) (set_outstanding k (l_log s))).
  assert (forall k, 0 <= k <= 2 -> begin_op (open k) = Ok tt (open (k + 1))) as Hbegin.
  { intros k Hk. rewrite begin_op_ok by done. unfold open. cbn. rewrite I1, I3. cbn.
    rewrite (proj2 (Z.leb_le _ _)) by (unfold LOGSIZE, MAXOPBLOCKS; lia). done. }
  assert (s = open 0) as Es by (destruct s as [? ? ? []]; cbn in *; now subst).
  assert (txn_inv (open 3) V) as T3 by (destruct HT; split; done).
  cut ((exists s', (begin_op;; begin_op;; begin_op) (open 0) = Ok tt s' /\ lg_outstanding (l_log s') = 3) /\
    (begin_op;; begin_op;; begin_op;; log_blocks us) (open 0) = Panic "too big a transaction"); [now rewrite <- Es|].
  rewrite !(bind_ok _ _ _ _ _ (Hbegin 0 ltac:(lia))).
  rewrite !(bind_ok _ _ _ _ _ (Hbegin 1 ltac:(lia))). split; [exists (open 3); split; [now apply Hbegin|done]|].
  rewrite !(bind_ok _ _ _ _ _ (Hbegin 2 ltac:(lia))). change (open (2 + 1)) with (open 3).
  destruct us as [|[b d] us' _] using rev_ind; [cbn in Hlen; unfold MAXOPBLOCKS in Hlen; lia|].
  rewrite length_app in Hlen. cbn [length] in Hlen. apply Forall_app in HF as [HF _].
  rewrite fmap_app in Hnd. apply NoDup_app in Hnd as [Hnd _]. rewrite log_blocks_app.
  destruct (log_blocks_distinct us' (open 3) V T3) as (s4 & V4 & H4 & T4 & (F1 & F2 & _) & N4);
    unfold open; cbn [l_log lg_n lg_size lg_outstanding lg_start lg_block set_outstanding]; rewrite ?I1, ?Hsz; try done;
    try (unfold LOGSIZE, MAXOPBLOCKS in *; lia).
  { intros c _ (i & Hi & _). lia. }
  rewrite (bind_ok _ _ _ _ _ H4). cbn [log_blocks]. apply bind_panic. cbn in N4, F2. rewrite I1 in N4. rewrite Hsz in F2.
  eapply log_block_full; [exact T4|]; rewrite ?N4, ?F2; unfold LOGSIZE, MAXOPBLOCKS in *; lia.
Qed.
End txn.

(** ** A machine with a zeroed disk *)

Definition demo_log0 : lstate bstate := LState demo_cache ∅ 1 (Log 0 0 0 0 0 0 (fun _ => 0)).
Definition demo_log : lstate bstate := after (initlog 1 2 30) demo_log0.
Definition demo_updates : list (Z * block) := [(50, replicate (Z.to_nat BSIZE) 7); (51, replicate (Z.to_nat BSIZE) 9)].
Definition demo_open : lstate bstate := after (begin_op;; log_blocks 1 demo_updates) demo_log.

Lemma demo_log_inv : exists V, txn_inv 1 demo_log V /\ idle demo_log /\ lg_start (l_log demo_log) = 2 /\
  lg_size (l_log demo_log) = 30.
Proof.
  destruct (initlog_txn 1 demo_log0 2 30 (fun _ => zero_block)) as (s' & V & H1 & T1 & L1 & L2 & L3 & L4 & L5 & _).
  - split; [exact (proj1 demo_cache_rep)|done].
  - split; [intros _; done|]. change (hd_n zero_block) with 0. apply log_ok_empty.
  - exists V. unfold demo_log. rewrite (after_ok _ _ _ _ H1). split; [done|]. split; [|auto]. now repeat split.
Qed.

Lemma demo_updates_ok : Forall (update_ok 2) demo_updates.
Proof. repeat constructor; cbn; unfold in_log, LOGSIZE, MAXOPBLOCKS; lia. Qed.

Lemma demo_open_inv : exists V, txn_inv 1 demo_open V.
Proof.
  destruct demo_log_inv as (V & T & (I1 & I2 & I3) & L1 & L2). pose proof (ti_rep 1 _ _ T) as [_ Hh].
  pose proof (begin_op_ok demo_log Hh) as Hb. cbn zeta in Hb. rewrite I1, I2, I3 in Hb. cbn iota in Hb.
  match type of Hb with _ = (if ?c then _ else _) => change c with true in Hb end. cbn iota in Hb.
  set (s1 := LState _ _ _ _) in Hb.
  assert (txn_inv 1 s1 V) as T1 by (destruct T; split; done).
  destruct (log_blocks_ok 1 demo_updates s1 V T1) as (s2 & V2 & H2 & T2 & _ & _ & _ & _ & N2);
    unfold s1; cbn [l_log lg_n lg_size lg_outstanding lg_start set_outstanding]; rewrite ?I1, ?I2, ?L1, ?L2;
    try (unfold LOGSIZE, MAXOPBLOCKS; cbn; lia); [apply demo_updates_ok|].
  unfold demo_open. erewrite after_ok by (rewrite (bind_ok _ _ _ _ _ Hb); exact H2). exists V2. done.
Qed.

Lemma commit_crash_safe_witness : exists s', commit demo_open = Ok tt s' /\ lg_n (l_log s') = 0.
Proof.
  destruct demo_open_inv as (V & T).
  destruct (commit_crash_safe 1 demo_open V T) as (s' & V' & ws & H & _ & E & _). exists s'. split; [exact H|exact E].
Defined.

Lemma transaction_atomic_witness : exists s', transaction 1 demo_updates demo_log = Ok tt s' /\ idle s'.
Proof.
  destruct demo_log_inv as (V & T & I & L1 & L2).
  destruct (transaction_atomic 1 demo_log V demo_updates T I) as (s' & V' & ws & H & _ & E & _).
  - rewrite L1. exact demo_updates_ok.
  - unfold MAXOPBLOCKS. cbn. lia.
  - rewrite L2. unfold MAXOPBLOCKS. lia.
  - exists s'. split; [exact H|exact E].
Defined.

Definition demo_burst : list (Z * block) := (fun i => (50 + i, zero_block)) <$> seqZ 0 30.

Lemma begin_op_overcommits_witness :
  (begin_op;; begin_op;; begin_op;; log_blocks 1 demo_burst) demo_log = Panic "too big a transaction".
Proof.
  destruct demo_log_inv as (V & T & I & L1 & L2).
  destruct (begin_op_overcommits 1 demo_log V demo_burst T I) as [_ H].
  - rewrite L2. reflexivity.
  - rewrite L1. apply Forall_fmap, Forall_forall. intros i Hi%elem_of_seqZ. split; [cbn; lia|]. split; [|reflexivity].
    unfold in_log, LOGSIZE, MAXOPBLOCKS. cbn. lia.
  - unfold demo_burst. rewrite <- list_fmap_compose. apply NoDup_fmap_2; [intros i j; cbn; lia|apply NoDup_seqZ].
  - reflexivity.
  - exact H.
Defined.
