(* ===== verification/LogConc.v ===== *)
(** * kernel/log.c: operations of many threads

    [begin_op], [log_write] and [end_op] touch [struct log] in critical sections
    under [log.lock].  Here each critical section is a function on [struct log],
    which the operations of Log.v are proved to run, and a step relation
    interleaves the critical sections of any number of threads.  [commit] runs
    without the lock; that nobody touches the log meanwhile is proved. *)

From stdpp Require Import base gmap numbers strings functions list relations.
From Stdlib Require Import ZifyBool.
From S2P Require Import Prelude Mem Block Spinlock Locks Bio Bcache BcacheSpec BcacheThms Log LogSpec LogCrash LogTxn.

Open Scope Z_scope.

(** ** Critical sections *)

(** The body of the loop of [begin_op]: [None] is [sleep]. *)
Definition begin_cs (l : log) : option log :=
  if truthy (lg_committing l) then None
  else if LOGSIZE <? lg_n l + (lg_outstanding l + 1) * MAXOPBLOCKS then None
  else Some (set_outstanding (lg_outstanding l + 1) l).

(** The first critical section of [end_op], with [do_commit]. *)
Definition end_cs (l : log) : (log * bool) + string :=
  let l := set_outstanding (lg_outstanding l - 1) l in
  if truthy (lg_committing l) then inr "log.committing"%string
  else if lg_outstanding l =? 0 then inl (set_committing 1 l, true) else inl (l, false).

(** The second, after [commit]. *)
Definition done_cs (l : log) : log := set_committing 0 l.

(** [log_write] of block [no], except the pin. *)
Definition write_cs (no : Z) (l : log) : log + string :=
  if (LOGSIZE <=? lg_n l) || (lg_size l - 1 <=? lg_n l) then inr "too big a transaction"%string
  else if lg_outstanding l <? 1 then inr "log_write outside of trans"%string
  else
    let i := find_block (Z.to_nat (lg_n l)) 0 (lg_block l) no in
    let l := set_block (<[i := no]> (lg_block l)) l in
    inl (if i =? lg_n l then set_n (lg_n l + 1) l else l).

Section sections.
Context {S : Type} `{BC : BufCache S}.
Implicit Types s : lstate S.

Definition with_log (l : log) s : lstate S := LState (l_bc s) (l_held s) (l_pid s) l.

Lemma begin_op_cs s :
  l_held s = ∅ -> begin_op s = match begin_cs (l_log s) with Some l => Ok tt (with_log l s) | None => Diverge end.
Proof.
  intros Hh. unfold begin_op, begin_cs. rewrite (bind_ok _ _ _ _ _ (llock s Hh)). erewrite bind_ok by reflexivity. cbn [l_log set_lheld].
  destruct (truthy _); [done|]. destruct (LOGSIZE <? _); [done|]. erewrite bind_ok by reflexivity. rewrite lunlock by done.
  unfold with_log, set_lheld. cbn. now rewrite Hh.
Qed.

Lemma end_op_cs s :
  l_held s = ∅ -> end_op s =
  match end_cs (l_log s) with
  | inr msg => Panic msg
  | inl (l, true) => (commit;; lock log_lock;; set_log done_cs;; unlock log_lock) (with_log l s)
  | inl (l, false) => Ok tt (with_log l s)
  end.
Proof.
  intros Hh. unfold end_op, end_cs. rewrite (bind_ok _ _ _ _ _ (llock s Hh)). erewrite bind_ok by reflexivity.
  erewrite bind_ok by reflexivity. cbn [l_log set_lheld]. cbn zeta. destruct (truthy _); [done|].
  destruct (lg_outstanding _ =? 0); erewrite bind_ok by reflexivity; erewrite bind_ok by (now apply lunlock);
    unfold with_log, set_lheld; cbn; now rewrite Hh.
Qed.

(** A block that is new in the log is pinned besides. *)
Lemma log_write_cs s b :
  l_held s = ∅ ->
  match write_cs (bc_blockno (l_bc s) b) (l_log s) with
  | inr msg => log_write b s = Panic msg
  | inl l => if lg_n l =? lg_n (l_log s) then log_write b s = Ok tt (with_log l s)
             else forall c, bc_bpin b (l_bc s) = Ok tt c -> log_write b s = Ok tt (LState c ∅ (l_pid s) l)
  end.
Proof.
  intros Hh. unfold log_write, write_cs. rewrite (bind_ok _ _ _ _ _ (llock s Hh)). erewrite bind_ok by reflexivity. cbn [l_log set_lheld].
  set (l := l_log s). destruct (_ || _); [done|]. destruct (lg_outstanding l <? 1); [done|]. cbn zeta.
  erewrite bind_ok by reflexivity. cbn [l_bc set_lheld]. set (no := bc_blockno (l_bc s) b). erewrite bind_ok by reflexivity.
  set (i := find_block _ _ _ _). change (lg_n (set_block (<[i := no]> (lg_block l)) l)) with (lg_n l).
  destruct (Z.eqb_spec i (lg_n l)) as [E|E].
  - change (lg_n (set_n ?a ?x)) with a. rewrite (proj2 (Z.eqb_neq (lg_n l + 1) (lg_n l))) by lia. intros c Hc.
    rewrite bind_assoc. erewrite bind_ok by (unfold bio; cbn; rewrite Hc; reflexivity). erewrite bind_ok by reflexivity.
    rewrite lunlock by done. done.
  - change (lg_n (set_block ?f ?x)) with (lg_n x). rewrite Z.eqb_refl. erewrite bind_ok by reflexivity. rewrite lunlock by done.
    unfold with_log, set_lheld. cbn. now rewrite Hh.
Qed.
End sections.

(** ** Threads *)

(** Where a thread is: outside, asleep in [begin_op] or woken there, inside an
    operation that has logged the blocks [w], in [commit], or after it. *)
Inductive phase := Outside | Asleep | Woken | Inside (w : gset Z) | Committing | Committed.

(** [wakeup(&log)] *)
Definition wake (p : phase) : phase := match p with Asleep => Woken | _ => p end.

(** The log, the threads, and the blocks of each operation that has ended since
    the last commit. *)
Record group := Group { g_log : log; g_ops : list phase; g_ended : list (gset Z) }.

(** A step of thread [k]; an operation logs at most [per] blocks. *)
Inductive gstep (per : nat) (k : nat) : group -> group -> Prop :=
  | GBegin l ps es l' :
      ps !! k = Some Outside \/ ps !! k = Some Woken -> begin_cs l = Some l' ->
      gstep per k (Group l ps es) (Group l' (<[k := Inside ∅]> ps) es)
  | GSleep l ps es :
      ps !! k = Some Outside \/ ps !! k = Some Woken -> begin_cs l = None ->
      gstep per k (Group l ps es) (Group l (<[k := Asleep]> ps) es)
  | GKill l ps es :
      ps !! k = Some Asleep -> gstep per k (Group l ps es) (Group l (<[k := Woken]> ps) es)
  | GWrite l ps es w no l' :
      ps !! k = Some (Inside w) -> (size ({[no]} ∪ w) <= per)%nat -> write_cs no l = inl l' ->
      gstep per k (Group l ps es) (Group l' (<[k := Inside ({[no]} ∪ w)]> ps) es)
  | GEnd l ps es w l' :
      ps !! k = Some (Inside w) -> end_cs l = inl (l', false) ->
      gstep per k (Group l ps es) (Group l' (<[k := Outside]> (wake <$> ps)) (w :: es))
  | GLast l ps es w l' :
      ps !! k = Some (Inside w) -> end_cs l = inl (l', true) ->
      gstep per k (Group l ps es) (Group l' (<[k := Committing]> ps) (w :: es))
  | GCommit l ps es :
      ps !! k = Some Committing -> gstep per k (Group l ps es) (Group (set_n 0 l) (<[k := Committed]> ps) [])
  | GDone l ps es :
      ps !! k = Some Committed -> gstep per k (Group l ps es) (Group (done_cs l) (<[k := Outside]> (wake <$> ps)) es).

Definition gsteps (per : nat) : group -> group -> Prop := rtc (fun g g' => exists k, gstep per k g g').

(** ** Sums over the threads *)

Lemma zsum_wake (f : phase -> Z) ps : f Asleep = f Woken -> zsum f (wake <$> ps) = zsum f ps.
Proof. intros E. induction ps as [|p ps IH]; [done|]. cbn. rewrite IH. destruct p; cbn; lia. Qed.

Definition inside (p : phase) : Z := match p with Inside _ => 1 | _ => 0 end.
Definition committer (p : phase) : Z := match p with Committing | Committed => 1 | _ => 0 end.
Definition room (per : nat) (p : phase) : Z := match p with Inside w => Z.of_nat per - Z.of_nat (size w) | _ => 0 end.

(** ** The invariant *)

Section invariant.
Context (per : nat).

Record ginv (g : group) : Prop := GInv {
  gi_size : LOGSIZE <= lg_size (g_log g);
  gi_n : 0 <= lg_n (g_log g);
  gi_inj i j : 0 <= i < lg_n (g_log g) -> 0 <= j < lg_n (g_log g) -> lg_block (g_log g) i = lg_block (g_log g) j -> i = j;
  gi_blocks b : logged (lg_n (g_log g)) (lg_block (g_log g)) b <->
    (exists w, w ∈ g_ended g /\ b ∈ w) \/ (exists w, Inside w ∈ g_ops g /\ b ∈ w);
  gi_out : lg_outstanding (g_log g) = zsum inside (g_ops g);
  gi_committer : lg_committing (g_log g) = zsum committer (g_ops g) /\ 0 <= lg_committing (g_log g) <= 1;
  gi_alone : lg_committing (g_log g) = 1 -> lg_outstanding (g_log g) = 0;
  gi_idle : lg_committing (g_log g) = 0 -> lg_outstanding (g_log g) = 0 -> lg_n (g_log g) = 0;
  gi_done : Committed ∈ g_ops g -> lg_n (g_log g) = 0;
  gi_per w : Inside w ∈ g_ops g -> (size w <= per)%nat;
  gi_room : lg_n (g_log g) + zsum (room per) (g_ops g) <= LOGSIZE - 2;
  gi_asleep : Asleep ∈ g_ops g -> 1 <= lg_outstanding (g_log g) \/ lg_committing (g_log g) = 1;
}.

(** A phase of a thread after another thread's move. *)
Lemma elem_insert (ps : list phase) k p q r : ps !! k = Some p -> r ∈ <[k := q]> ps -> r = q \/ r ∈ ps.
Proof.
  intros Hk [j Hj]%list_elem_of_lookup. destruct (decide (k = j)) as [->|Hne].
  - rewrite list_lookup_insert_eq in Hj by (now apply lookup_lt_Some in Hk). injection Hj as ->. now left.
  - rewrite list_lookup_insert_ne in Hj by done. right. now apply list_elem_of_lookup_2 in Hj.
Qed.

Lemma elem_other (ps : list phase) k p q r : ps !! k = Some p -> r ∈ ps -> r <> p -> r ∈ <[k := q]> ps.
Proof.
  intros Hk [j Hj]%list_elem_of_lookup Hne. apply list_elem_of_lookup. exists j. rewrite list_lookup_insert_ne; congruence.
Qed.

Lemma elem_new (ps : list phase) k p q : ps !! k = Some p -> q ∈ <[k := q]> ps.
Proof. intros Hk. apply list_elem_of_lookup. exists k. apply list_lookup_insert_eq. now apply lookup_lt_Some in Hk. Qed.

Lemma elem_wake (ps : list phase) r : r ∈ wake <$> ps -> r <> Asleep /\ (r = Woken \/ r ∈ ps).
Proof.
  intros (q & -> & Hq)%list_elem_of_fmap. split; [now destruct q|]. destruct q; auto.
Qed.

Lemma elem_wake_in (ps : list phase) r : r ∈ ps -> r <> Asleep -> r ∈ wake <$> ps.
Proof. intros Hr Hn. apply list_elem_of_fmap. exists r. split; [now destruct r|done]. Qed.

(** One thread inside leaves the others as they are. *)
Lemma inside_pos ps w : Inside w ∈ ps -> 1 <= zsum inside ps.
Proof.
  intros [k Hk]%list_elem_of_lookup. pose proof (zsum_insert inside ps k (Inside w) Outside Hk) as E. cbn in E.
  pose proof (zsum_nonneg inside (<[k := Outside]> ps) ltac:(intros []; cbn; lia)). lia.
Qed.

Lemma committer_pos ps p : p ∈ ps -> committer p = 1 -> 1 <= zsum committer ps.
Proof.
  intros [k Hk]%list_elem_of_lookup Hc. pose proof (zsum_insert committer ps k p Outside Hk) as E. cbn in E.
  pose proof (zsum_nonneg committer (<[k := Outside]> ps) ltac:(intros []; cbn; lia)). lia.
Qed.

Context (Hper : (per < Z.to_nat MAXOPBLOCKS)%nat).

Lemma room_bound ps : (forall w, Inside w ∈ ps -> (size w <= per)%nat) ->
  0 <= zsum (room per) ps <= Z.of_nat per * zsum inside ps.
Proof.
  intros H. split.
  - apply zsum_nonneg. intros [] Hp; cbn; try lia. specialize (H w Hp). lia.
  - assert (Z.of_nat per * zsum inside ps = zsum (fun p => Z.of_nat per * inside p) ps) as ->.
    { clear H. induction ps as [|p ps IH]; cbn; [lia|]. rewrite <- IH. lia. }
    apply zsum_le. intros [] Hp; cbn; lia.
Qed.

(** A thread that was not inside moves within the phases outside. *)
Lemma ginv_outside l ps es k p q :
  ginv (Group l ps es) -> ps !! k = Some p -> p = Outside \/ p = Asleep \/ p = Woken -> q = Outside \/ q = Asleep \/ q = Woken ->
  (q = Asleep -> 1 <= lg_outstanding l \/ lg_committing l = 1) -> ginv (Group l (<[k := q]> ps) es).
Proof.
  intros [I1 I2 I3 I4 I5 I6 I7 I8 I9 I10 I11 I12] Hk Hp Hq Ha. cbn in *.
  assert (forall f, f Outside = 0 -> f Asleep = 0 -> f Woken = 0 -> zsum f (<[k := q]> ps) = zsum f ps) as Hs.
  { intros f F1 F2 F3. rewrite (zsum_insert f ps k p q Hk). destruct Hp as [-> | [-> | ->]], Hq as [-> | [-> | ->]]; lia. }
  assert (forall r, r ∈ <[k := q]> ps -> r = q \/ r ∈ ps) as He by (intros r; now apply (elem_insert ps k p)).
  split; cbn; rewrite ?Hs by done; try done.
  - intros b. rewrite I4. split; (intros [H|(w & H1 & H2)]; [now left|right; exists w; split; [|done]]).
    + apply (elem_other ps k p); [done|done|]. destruct Hp as [-> | [-> | ->]]; done.
    + apply He in H1 as [E|H1]; [|done]. destruct Hq as [-> | [-> | ->]]; done.
  - intros H. apply I9. apply He in H as [E|H]; [|done]. destruct Hq as [-> | [-> | ->]]; done.
  - intros w H. apply I10. apply He in H as [E|H]; [|done]. destruct Hq as [-> | [-> | ->]]; done.
  - intros H. apply He in H as [E|H]; auto.
Qed.

Lemma ginv_begin l ps es k p l' :
  ginv (Group l ps es) -> ps !! k = Some p -> p = Outside \/ p = Woken -> begin_cs l = Some l' ->
  ginv (Group l' (<[k := Inside ∅]> ps) es).
Proof.
  intros [I1 I2 I3 I4 I5 I6 I7 I8 I9 I10 I11 I12] Hk Hp Hb. cbn in *. unfold begin_cs, truthy in Hb.
  destruct (Z.eqb_spec (lg_committing l) 0) as [Ec|]; [|done]. cbn [negb] in Hb. destruct (Z.ltb_spec LOGSIZE (lg_n l + (lg_outstanding l + 1) * MAXOPBLOCKS)); [done|].
  injection Hb as <-. pose proof (room_bound ps I10) as Hr.
  assert (forall f, f Outside = 0 -> f Woken = 0 -> zsum f (<[k := Inside ∅]> ps) = zsum f ps + f (Inside ∅)) as Hs.
  { intros f F1 F2. rewrite (zsum_insert f ps k p _ Hk). destruct Hp as [-> | ->]; lia. }
  assert (forall r, r ∈ <[k := Inside ∅]> ps -> r = Inside ∅ \/ r ∈ ps) as He by (intros r; now apply (elem_insert ps k p)).
  split; cbn; rewrite ?Hs by done; try done.
  - intros b. rewrite I4. split; (intros [H1|(w & H1 & H2)]; [now left|right; exists w; split; [|done]]).
    + apply (elem_other ps k p); [done|done|]. destruct Hp as [-> | ->]; done.
    + apply He in H1 as [[= ->]|H1]; [set_solver|done].
  - cbn. lia.
  - cbn. lia.
  - lia.
  - pose proof (zsum_nonneg inside ps ltac:(intros []; cbn; lia)). lia.
  - intros H1. apply He in H1 as [|H1]; [done|auto].
  - intros w H1. apply He in H1 as [[= ->]|H1]; [rewrite size_empty; lia|auto].
  - cbn [room]. rewrite size_empty. unfold MAXOPBLOCKS, LOGSIZE in *. pose proof (zsum_nonneg inside ps ltac:(intros []; cbn; lia)).
    destruct (Z.eq_dec (lg_outstanding l) 0) as [E0|]; [rewrite (I8 Ec E0) in *; nia|]. nia.
  - intros H1. apply He in H1 as [|H1]; [done|]. apply I12 in H1. lia.
Qed.

(** There is room in the log for the write of a thread that is inside. *)
Lemma write_room l ps es : ginv (Group l ps es) -> lg_n l <= LOGSIZE - 2.
Proof. intros HI. pose proof (room_bound ps (gi_per _ HI)). pose proof (gi_room _ HI). cbn in *. lia. Qed.

Lemma write_cs_ok l ps es w no :
  ginv (Group l ps es) -> Inside w ∈ ps ->
  exists l', write_cs no l = inl l' /\ lg_size l' = lg_size l /\ lg_outstanding l' = lg_outstanding l /\ lg_committing l' = lg_committing l /\
    ((logged (lg_n l) (lg_block l) no /\ lg_n l' = lg_n l /\ forall i, 0 <= i < lg_n l -> lg_block l' i = lg_block l i) \/
     (~ logged (lg_n l) (lg_block l) no /\ lg_n l' = lg_n l + 1 /\ lg_block l' = <[lg_n l := no]> (lg_block l))).
Proof.
  intros HI Hw. pose proof (write_room _ _ _ HI) as Hn. pose proof (inside_pos ps w Hw) as Ho. destruct HI as [I1 I2 _ _ I5 _ _ _ _ _ _ _]. cbn in *.
  unfold write_cs. rewrite (proj2 (Z.leb_gt _ _)), (proj2 (Z.leb_gt _ _)), (proj2 (Z.ltb_ge _ _)) by lia. cbn [orb]. cbn zeta.
  eexists. split; [reflexivity|]. destruct (find_logged (lg_n l) (lg_block l) no I2) as [(Hl & Hj & Ej)|(Hl & Ej)]; set (j := find_block _ _ _ _) in *.
  - change (lg_n (set_block ?f l)) with (lg_n l). rewrite (proj2 (Z.eqb_neq j (lg_n l))) by lia. split; [done|]. split; [done|]. split; [done|].
    left. split; [done|]. split; [done|]. intros i Hi. cbn. destruct (decide (i = j)) as [->|]; [now rewrite fn_lookup_insert|now rewrite fn_lookup_insert_ne].
  - change (lg_n (set_block ?f l)) with (lg_n l). rewrite Ej, Z.eqb_refl. split; [done|]. split; [done|]. split; [done|]. right. done.
Qed.

Lemma logged_ext n blk blk' b : (forall i, 0 <= i < n -> blk' i = blk i) -> logged n blk' b <-> logged n blk b.
Proof. intros H. split; intros (i & Hi & <-); exists i; (split; [done|]); [symmetry|]; auto. Qed.

Lemma logged_add_conc n (blk : Z -> Z) no b : 0 <= n -> logged (n + 1) (<[n := no]> blk) b <-> b = no \/ logged n blk b.
Proof.
  intros Hn. split.
  - intros (i & Hi & <-). destruct (decide (i = n)) as [->|]; [left; now rewrite fn_lookup_insert|right]. exists i. rewrite fn_lookup_insert_ne by done. split; [lia|done].
  - intros [->|(i & Hi & <-)]; [exists n; rewrite fn_lookup_insert; split; [lia|done]|]. exists i. rewrite fn_lookup_insert_ne by lia. split; [lia|done].
Qed.

Lemma ginv_write l ps es k w no l' :
  ginv (Group l ps es) -> ps !! k = Some (Inside w) -> (size ({[no]} ∪ w) <= per)%nat -> write_cs no l = inl l' ->
  ginv (Group l' (<[k := Inside ({[no]} ∪ w)]> ps) es).
Proof.
  intros HI Hk Hsz Hw. pose proof (list_elem_of_lookup_2 _ _ _ Hk) as Hin. destruct (write_cs_ok l ps es w no HI Hin) as (l1 & E & E1 & E2 & E3 & HC).
  rewrite Hw in E. injection E as <-. destruct HI as [I1 I2 I3 I4 I5 I6 I7 I8 I9 I10 I11 I12]. cbn in *.
  pose proof (inside_pos ps w Hin) as Ho. set (q := Inside ({[no]} ∪ w)).
  assert (forall r, r ∈ <[k := q]> ps -> r = q \/ r ∈ ps) as He by (intros r; now apply (elem_insert ps k (Inside w))).
  assert (forall b, (exists v, Inside v ∈ <[k := q]> ps /\ b ∈ v) <-> b = no \/ (exists v, Inside v ∈ ps /\ b ∈ v)) as Hset.
  { intros b. split.
    - intros (v & Hv & Hb). apply He in Hv as [[= ->]|Hv]; [|right; eauto]. apply elem_of_union in Hb as [Hb%elem_of_singleton|Hb]; [now left|right; eauto].
    - intros [->|(v & Hv & Hb)]; [exists ({[no]} ∪ w); split; [now apply (elem_new ps k (Inside w))|set_solver]|].
      destruct (decide (v = w)) as [->|Hne]; [exists ({[no]} ∪ w); split; [now apply (elem_new ps k (Inside w))|set_solver]|].
      exists v. split; [|done]. apply (elem_other ps k (Inside w)); congruence. }
  assert (forall b, logged (lg_n l') (lg_block l') b <-> b = no \/ logged (lg_n l) (lg_block l) b) as Hlog.
  { intros b. destruct HC as [(Hl & -> & Hb)|(Hl & -> & ->)]; [|now apply logged_add_conc]. rewrite (logged_ext _ _ _ _ Hb). split; [auto|]. intros [->|H]; done. }
  split; cbn; rewrite ?E1, ?E2, ?E3, ?(zsum_insert _ ps k (Inside w) q Hk); try (cbn; lia); try done.
  - destruct HC as [(_ & -> & Hb)|(Hl & -> & ->)].
    + intros i j Hi Hj. rewrite !Hb by done. auto.
    + intros i j Hi Hj. assert (forall m, 0 <= m < lg_n l -> lg_block l m <> no) as Hno by (intros m Hm Em; apply Hl; now exists m).
      destruct (decide (i = lg_n l)) as [->|], (decide (j = lg_n l)) as [->|]; rewrite ?fn_lookup_insert, ?fn_lookup_insert_ne by done; try done.
      * intros E. exfalso. apply (Hno j); [lia|done].
      * intros E. exfalso. apply (Hno i); [lia|done].
      * apply I3; lia.
  - intros b. rewrite Hlog, I4, Hset. tauto.
  - intros H. apply He in H as [|H]; [done|]. exfalso. pose proof (committer_pos _ _ H eq_refl). lia.
  - intros v H. apply He in H as [[= ->]|H]; auto.
  - cbn. pose proof (I10 w Hin). destruct HC as [(_ & -> & _)|(Hl & -> & _)].
    + assert (w ⊆ {[no]} ∪ w) as Hs%subseteq_size by set_solver. lia.
    + assert (no ∉ w) as Hnw by (intros Hb; apply Hl, I4; right; eauto). rewrite size_union, size_singleton by set_solver. lia.
Qed.

(** While a thread is inside, nobody commits, and its [end_op] does not panic. *)
Lemma inside_end l ps es w :
  ginv (Group l ps es) -> Inside w ∈ ps ->
  lg_committing l = 0 /\ end_cs l = inl (if zsum inside ps =? 1 then (set_committing 1 (set_outstanding 0 l), true)
                                         else (set_outstanding (zsum inside ps - 1) l, false)).
Proof.
  intros HI Hw. pose proof (inside_pos ps w Hw) as Ho. destruct HI as [_ _ _ _ I5 [_ I6] I7 _ _ _ _ _]. cbn in *.
  assert (lg_committing l = 0) as Ec by (destruct (Z.eq_dec (lg_committing l) 1) as [E|]; [specialize (I7 E)|]; lia). split; [done|].
  unfold end_cs. cbn. rewrite Ec, I5. cbn [truthy Z.eqb negb]. destruct (Z.eqb_spec (zsum inside ps) 1) as [->|]; [done|].
  now rewrite (proj2 (Z.eqb_neq _ _)) by lia.
Qed.

(** The blocks of the operation pass to those of the ended ones. *)
Lemma blocks_end (ps ps' : list phase) (es : list (gset Z)) k w b :
  ps !! k = Some (Inside w) -> (forall v, Inside v ∈ ps' -> Inside v ∈ ps) -> (forall v, Inside v ∈ ps -> v <> w -> Inside v ∈ ps') ->
  (exists v, v ∈ es /\ b ∈ v) \/ (exists v, Inside v ∈ ps /\ b ∈ v) <->
  (exists v, v ∈ w :: es /\ b ∈ v) \/ (exists v, Inside v ∈ ps' /\ b ∈ v).
Proof.
  intros Hk%list_elem_of_lookup_2 H1 H2. split.
  - intros [(v & Hv & Hb)|(v & Hv & Hb)]; [left; exists v; split; [now apply list_elem_of_further|done]|].
    destruct (decide (v = w)) as [->|]; [left; exists w; split; [apply list_elem_of_here|done]|]. right. eauto.
  - intros [(v & Hv & Hb)|(v & Hv & Hb)]; [|right; eauto]. apply elem_of_cons in Hv as [->|Hv]; [right|left]; eauto.
Qed.

Lemma ginv_end l ps es k w l' :
  ginv (Group l ps es) -> ps !! k = Some (Inside w) -> end_cs l = inl (l', false) ->
  ginv (Group l' (<[k := Outside]> (wake <$> ps)) (w :: es)).
Proof.
  intros HI Hk Hend. pose proof (list_elem_of_lookup_2 _ _ _ Hk) as Hin. destruct (inside_end l ps es w HI Hin) as [Ec E]. rewrite Hend in E.
  destruct (Z.eqb_spec (zsum inside ps) 1) as [|Hne]; [done|]. injection E as ->. pose proof (inside_pos ps w Hin) as Ho.
  pose proof (room_bound ps (gi_per _ HI)) as Hr. destruct HI as [I1 I2 I3 I4 I5 I6 I7 I8 I9 I10 I11 I12]. cbn in *.
  assert ((wake <$> ps) !! k = Some (Inside w)) as Hk' by (rewrite list_lookup_fmap, Hk; done).
  set (ps' := <[k := Outside]> (wake <$> ps)).
  assert (forall r, r ∈ ps' -> r = Outside \/ r = Woken \/ r ∈ ps /\ r <> Asleep) as He.
  { intros r Hr'. apply (elem_insert _ k (Inside w) _ _ Hk') in Hr' as [->|Hr']; [now left|]. apply elem_wake in Hr' as [? [->|?]]; auto. }
  assert (forall f, f Asleep = f Woken -> zsum f ps' = zsum f ps - f (Inside w) + f Outside) as Hs.
  { intros f F. unfold ps'. rewrite (zsum_insert f _ k (Inside w) Outside Hk'). now rewrite zsum_wake. }
  split; cbn; fold ps'; rewrite ?Hs by done; try done; try (cbn; lia).
  - intros b. rewrite I4. apply (blocks_end ps ps' es k w b Hk).
    + intros v Hv. apply He in Hv as [|[|[? _]]]; done.
    + intros v Hv Hn. apply (elem_other _ k (Inside w)); [done|now apply elem_wake_in|congruence].
  - intros H. apply He in H as [|[|[H _]]]; auto; done.
  - intros v H. apply He in H as [|[|[H _]]]; auto; done.
  - cbn. specialize (I10 w Hin). lia.
Qed.

Lemma ginv_last l ps es k w l' :
  ginv (Group l ps es) -> ps !! k = Some (Inside w) -> end_cs l = inl (l', true) ->
  ginv (Group l' (<[k := Committing]> ps) (w :: es)).
Proof.
  intros HI Hk Hend. pose proof (list_elem_of_lookup_2 _ _ _ Hk) as Hin. destruct (inside_end l ps es w HI Hin) as [Ec E]. rewrite Hend in E.
  destruct (Z.eqb_spec (zsum inside ps) 1) as [H1|]; [|done]. injection E as ->.
  pose proof (room_bound ps (gi_per _ HI)) as Hr. destruct HI as [I1 I2 I3 I4 I5 I6 I7 I8 I9 I10 I11 I12]. cbn in *.
  set (ps' := <[k := Committing]> ps).
  assert (forall r, r ∈ ps' -> r = Committing \/ r ∈ ps) as He by (intros r; now apply (elem_insert _ k (Inside w))).
  assert (forall f, zsum f ps' = zsum f ps - f (Inside w) + f Committing) as Hs by (intros f; now apply zsum_insert).
  split; cbn; fold ps'; rewrite ?Hs; try done; try (cbn; lia).
  - intros b. rewrite I4. apply (blocks_end ps ps' es k w b Hk).
    + intros v Hv. apply He in Hv as [|]; done.
    + intros v Hv Hn. apply (elem_other _ k (Inside w)); [done|done|congruence].
  - intros H. apply He in H as [|H]; [done|]. auto.
  - intros v H. apply He in H as [|H]; [done|]. auto.
  - cbn. specialize (I10 w Hin). lia.
Qed.

(** A thread commits: nobody is inside, and it is the only one. *)
Lemma committer_alone l ps es k p :
  ginv (Group l ps es) -> ps !! k = Some p -> committer p = 1 ->
  lg_committing l = 1 /\ lg_outstanding l = 0 /\ (forall w, Inside w ∉ ps) /\ (forall j q, ps !! j = Some q -> committer q = 1 -> j = k).
Proof.
  intros [_ _ _ _ I5 [I6 I6'] I7 _ _ _ _ _] Hk Hp. cbn in *. pose proof (committer_pos ps p (list_elem_of_lookup_2 _ _ _ Hk) Hp).
  assert (lg_committing l = 1) as Ec by lia. split; [done|]. specialize (I7 Ec). split; [done|]. split.
  - intros w Hw. pose proof (inside_pos ps w Hw). lia.
  - intros j q Hj Hq. destruct (decide (j = k)) as [|Hne]; [done|]. exfalso.
    pose proof (zsum_insert committer ps k p Outside Hk) as E. cbn in E.
    assert (1 <= zsum committer (<[k := Outside]> ps)); [|lia]. apply (committer_pos _ q); [|done].
    apply list_elem_of_lookup. exists j. now rewrite list_lookup_insert_ne.
Qed.

Lemma ginv_commit l ps es k :
  ginv (Group l ps es) -> ps !! k = Some Committing -> ginv (Group (set_n 0 l) (<[k := Committed]> ps) []).
Proof.
  intros HI Hk. destruct (committer_alone l ps es k Committing HI Hk eq_refl) as (Ec & Eo & Hno & _).
  pose proof (room_bound ps (gi_per _ HI)) as Hr. pose proof (gi_n _ HI) as Hn. destruct HI as [I1 I2 I3 I4 I5 I6 I7 I8 I9 I10 I11 I12]. cbn in *.
  set (ps' := <[k := Committed]> ps).
  assert (forall r, r ∈ ps' -> r = Committed \/ r ∈ ps) as He by (intros r; now apply (elem_insert _ k Committing)).
  assert (forall f, zsum f ps' = zsum f ps - f Committing + f Committed) as Hs by (intros f; now apply zsum_insert).
  split; cbn; fold ps'; rewrite ?Hs; try done; try (cbn; lia).
  - intros b. split; [intros (i & Hi & _); lia|]. intros [(w & Hw & _)|(w & Hw & _)]; [now apply not_elem_of_nil in Hw|].
    apply He in Hw as [|Hw]; [done|]. now apply Hno in Hw.
  - intros w Hw. apply He in Hw as [|Hw]; [done|]. auto.
Qed.

Lemma ginv_done l ps es k :
  ginv (Group l ps es) -> ps !! k = Some Committed -> ginv (Group (done_cs l) (<[k := Outside]> (wake <$> ps)) es).
Proof.
  intros HI Hk. destruct (committer_alone l ps es k Committed HI Hk eq_refl) as (Ec & Eo & Hno & _).
  pose proof (list_elem_of_lookup_2 _ _ _ Hk) as Hin. destruct HI as [I1 I2 I3 I4 I5 I6 I7 I8 I9 I10 I11 I12]. cbn in *. specialize (I9 Hin).
  assert ((wake <$> ps) !! k = Some Committed) as Hk' by (rewrite list_lookup_fmap, Hk; done). set (ps' := <[k := Outside]> (wake <$> ps)).
  assert (forall r, r ∈ ps' -> r = Outside \/ r = Woken \/ r ∈ ps /\ r <> Asleep) as He.
  { intros r Hr'. apply (elem_insert _ k Committed _ _ Hk') in Hr' as [->|Hr']; [now left|]. apply elem_wake in Hr' as [? [->|?]]; auto. }
  assert (forall f, f Asleep = f Woken -> zsum f ps' = zsum f ps - f Committed + f Outside) as Hs.
  { intros f F. unfold ps'. rewrite (zsum_insert f _ k Committed Outside Hk'). now rewrite zsum_wake. }
  split; cbn; fold ps'; rewrite ?Hs by done; try done; try (cbn; lia).
  - intros b. rewrite I4. split; (intros [H|(w & H1 & H2)]; [now left|exfalso]).
    + now apply Hno in H1.
    + apply He in H1 as [|[|[H1 _]]]; try done. now apply Hno in H1.
  - intros w H. apply He in H as [|[|[H _]]]; auto; done.
  - intros H. apply He in H as [|[|[_ H]]]; done.
Qed.

Lemma gstep_inv k g g' : gstep per k g g' -> ginv g -> ginv g'.
Proof.
  destruct 1 as [l ps es l' Hk Hb|l ps es Hk Hb|l ps es Hk|l ps es w no l' Hk Hs Hw|l ps es w l' Hk He|l ps es w l' Hk He|l ps es Hk|l ps es Hk]; intros HI.
  - destruct Hk as [Hk|Hk]; eapply ginv_begin; eauto.
  - assert (1 <= lg_outstanding l \/ lg_committing l = 1) as Hw.
    { pose proof HI as [_ _ _ _ I5 [_ I6] _ I8 _ _ _ _]. cbn in *. unfold begin_cs, truthy in Hb.
      destruct (Z.eqb_spec (lg_committing l) 0) as [Ec|]; [|right; lia]. left. cbn [negb] in Hb.
      pose proof (zsum_nonneg inside ps ltac:(intros []; cbn; lia)). destruct (Z.eq_dec (lg_outstanding l) 0) as [E0|]; [|lia].
      rewrite E0, (I8 Ec E0) in Hb. done. }
    destruct Hk as [Hk|Hk]; eapply ginv_outside; eauto.
  - eapply ginv_outside; eauto. done.
  - eapply ginv_write; eauto.
  - eapply ginv_end; eauto.
  - eapply ginv_last; eauto.
  - eapply ginv_commit; eauto.
  - eapply ginv_done; eauto.
Qed.

Lemma gsteps_inv g g' : gsteps per g g' -> ginv g -> ginv g'.
Proof. induction 1 as [|g g1 g2 [k Hs] _ IH]; [done|]. intros HI. apply IH. eapply gstep_inv; eauto. Qed.

(** The log after recovery, before any operation. *)
Definition quiet (l : log) : Prop := lg_n l = 0 /\ lg_outstanding l = 0 /\ lg_committing l = 0 /\ LOGSIZE <= lg_size l.

Lemma ginv_start l k : quiet l -> ginv (Group l (replicate k Outside) []).
Proof.
  intros (Q1 & Q2 & Q3 & Q4). assert (forall f, f Outside = 0 -> zsum f (replicate k Outside) = 0) as Hs.
  { intros f F. induction k as [|k IH]; cbn; [done|]. lia. }
  assert (forall r, r ∈ replicate k Outside -> r = Outside) as He by (intros r Hr; now apply elem_of_replicate in Hr as [-> _]).
  split; cbn; rewrite ?Q1, ?Q2, ?Q3, ?Hs by done; try done; try lia.
  - intros b. split; [intros (i & Hi & _); lia|]. intros [(w & Hw & _)|(w & Hw & _)]; [now apply not_elem_of_nil in Hw|now apply He in Hw].
  - intros w Hw. now apply He in Hw.
  - intros Hw. now apply He in Hw.
Qed.

(** ** Progress *)

Lemma zsum_exists (f : phase -> Z) ps : 0 < zsum f ps -> exists (j : nat) p, ps !! j = Some p /\ 0 < f p.
Proof. intros (p & [j Hj]%list_elem_of_lookup & Hp)%zsum_pos. eauto. Qed.

Definition waiting (p : phase) : Prop := p = Asleep \/ p = Woken.

Lemma waiting_kept (ps : list phase) j k p q r : ps !! k = Some p -> waiting p -> ps !! j = Some q -> ~ waiting q ->
  exists p', <[j := r]> ps !! k = Some p' /\ waiting p'.
Proof. intros Hk Hp Hj Hq. exists p. split; [|done]. rewrite list_lookup_insert_ne; [done|]. intros ->. congruence. Qed.

Lemma waiting_woken (ps : list phase) j k p q r : ps !! k = Some p -> waiting p -> ps !! j = Some q -> ~ waiting q ->
  exists p', <[j := r]> (wake <$> ps) !! k = Some p' /\ waiting p'.
Proof.
  intros Hk Hp Hj Hq. exists (wake p). split; [|destruct Hp as [-> | ->]; right; done].
  rewrite list_lookup_insert_ne by (intros ->; congruence). now rewrite list_lookup_fmap, Hk.
Qed.

(** A commit that has begun ends. *)
Lemma finish_commit g k p :
  ginv g -> lg_committing (g_log g) = 1 -> g_ops g !! k = Some p -> waiting p ->
  exists g' p', gsteps per g g' /\ g_ops g' !! k = Some p' /\ waiting p' /\ lg_outstanding (g_log g') = 0 /\ lg_committing (g_log g') = 0.
Proof.
  intros HI Hc Hk Hp. pose proof (gi_alone _ HI Hc) as Ho. pose proof (gi_committer _ HI) as [Hcm _].
  destruct (zsum_exists committer (g_ops g) ltac:(lia)) as (j & q & Hj & Hq). destruct g as [l ps es]. cbn in *.
  assert (forall l es ps p, lg_outstanding l = 0 -> ps !! k = Some p -> waiting p -> ps !! j = Some Committed ->
    exists g' p', gsteps per (Group l ps es) g' /\ g_ops g' !! k = Some p' /\ waiting p' /\ lg_outstanding (g_log g') = 0 /\ lg_committing (g_log g') = 0) as Hdone.
  { clear. intros l es ps p Ho Hk Hp Hj.
    destruct (waiting_woken ps j k p Committed Outside Hk Hp Hj ltac:(intros []; done)) as (p' & H1 & H2).
    eexists _, p'. split; [apply rtc_once; exists j; now apply GDone|]. split; [exact H1|]. split; [exact H2|]. split; [exact Ho|done]. }
  destruct q; cbn in Hq; try lia; [|now apply (Hdone l es ps p)].
  destruct (waiting_kept ps j k p Committing Committed Hk Hp Hj ltac:(intros []; done)) as (p1 & Hk1 & Hp1).
  destruct (Hdone (set_n 0 l) [] (<[j := Committed]> ps) p1) as (g' & p' & H1 & H2); [done|done|done| |].
  { apply list_lookup_insert_eq. now apply lookup_lt_Some in Hj. }
  exists g', p'. split; [|done]. eapply rtc_l; [exists j; now apply GCommit|exact H1].
Qed.

(** The operations in progress end, one after the other. *)
Lemma drain_waiters n : forall g k p,
  ginv g -> zsum inside (g_ops g) = Z.of_nat n -> g_ops g !! k = Some p -> waiting p ->
  exists g' p', gsteps per g g' /\ g_ops g' !! k = Some p' /\ waiting p' /\ lg_outstanding (g_log g') = 0 /\ lg_committing (g_log g') = 0.
Proof.
  induction n as [|n IH]; intros g k p HI Hn Hk Hp.
  - destruct (Z.eq_dec (lg_committing (g_log g)) 1) as [Hc|Hc]; [now apply (finish_commit g k p)|].
    pose proof (gi_committer _ HI). exists g, p. split; [apply rtc_refl|]. split; [done|]. split; [done|]. split; [|lia].
    rewrite (gi_out _ HI). lia.
  - destruct (zsum_exists inside (g_ops g) ltac:(lia)) as (j & q & Hj & Hq). destruct g as [l ps es]. cbn in *. destruct q as [| | |w| |]; cbn in Hq; try lia.
    pose proof (list_elem_of_lookup_2 _ _ _ Hj) as Hin. destruct (inside_end l ps es w HI Hin) as [_ He].
    destruct (Z.eqb_spec (zsum inside ps) 1) as [H1|H1].
    + destruct (waiting_kept ps j k p (Inside w) Committing Hk Hp Hj ltac:(intros []; done)) as (p1 & Hk1 & Hp1).
      pose proof (GLast per j l ps es w _ Hj He) as Hst. destruct (finish_commit _ k p1 (gstep_inv _ _ _ Hst HI) eq_refl Hk1 Hp1) as (g' & p' & G1 & G2).
      exists g', p'. split; [|done]. eapply rtc_l; [exists j; exact Hst|exact G1].
    + destruct (waiting_woken ps j k p (Inside w) Outside Hk Hp Hj ltac:(intros []; done)) as (p1 & Hk1 & Hp1).
      pose proof (GEnd per j l ps es w _ Hj He) as Hst. pose proof (gstep_inv _ _ _ Hst HI) as HI'.
      destruct (IH _ k p1 HI') as (g' & p' & G1 & G2); [|done|done|].
      { cbn. pose proof (gi_out _ HI') as E. cbn in E. lia. }
      exists g', p'. split; [|done]. eapply rtc_l; [exists j; exact Hst|exact G1].
Qed.

(** A thread that waits can get in. *)
Lemma admitted g k p :
  ginv g -> g_ops g !! k = Some p -> waiting p -> exists g', gsteps per g g' /\ g_ops g' !! k = Some (Inside ∅).
Proof.
  intros HI Hk Hp. pose proof (zsum_nonneg inside (g_ops g) ltac:(intros []; cbn; lia)) as Hn.
  destruct (drain_waiters (Z.to_nat (zsum inside (g_ops g))) g k p HI ltac:(lia) Hk Hp) as (g1 & p1 & G1 & Hk1 & Hp1 & Ho & Hc).
  pose proof (gsteps_inv _ _ G1 HI) as HI1. destruct g1 as [l ps es]. cbn in *.
  assert (p1 = Woken) as ->.
  { destruct Hp1 as [-> | ->]; [|done]. exfalso. pose proof (gi_asleep _ HI1 (list_elem_of_lookup_2 _ _ _ Hk1)) as H. cbn in H. lia. }
  eexists. split; [eapply rtc_r; [exact G1|]; exists k; apply GBegin; [now right|]|].
  - unfold begin_cs. rewrite Hc, Ho. pose proof (gi_idle _ HI1 Hc Ho) as E. cbn in E. rewrite E. reflexivity.
  - cbn. apply list_lookup_insert_eq. now apply lookup_lt_Some in Hk1.
Qed.
End invariant.

(** C21: group commit.  Operations of any number of threads that log at most
    [MAXOPBLOCKS - 1] blocks each, in every interleaving with threads woken or
    killed while they wait: neither [log_write] nor [end_op] panics, with the
    log size mkfs chooses; while a thread commits no operation is in progress
    and no step of another thread touches the log, although [commit] holds no
    lock; what it commits is exactly the blocks of the operations that have
    ended since the last commit, each of them complete; and a thread that waits
    in [begin_op] is never stranded, the others can always let it in. *)
Theorem group_commit per l nthreads g :
  (per < Z.to_nat MAXOPBLOCKS)%nat -> quiet l -> gsteps per (Group l (replicate nthreads Outside) []) g ->
  (forall k w, g_ops g !! k = Some (Inside w) ->
     (exists r, end_cs (g_log g) = inl r) /\ forall no, exists l', write_cs no (g_log g) = inl l') /\
  (forall k p, g_ops g !! k = Some p -> committer p = 1 ->
     (forall w, Inside w ∉ g_ops g) /\
     (forall b, logged (lg_n (g_log g)) (lg_block (g_log g)) b <-> exists w, w ∈ g_ended g /\ b ∈ w) /\
     (forall j g', j <> k -> gstep per j g g' -> g_log g' = g_log g /\ g_ended g' = g_ended g)) /\
  (forall k p, g_ops g !! k = Some p -> waiting p -> exists g', gsteps per g g' /\ g_ops g' !! k = Some (Inside ∅)).
Proof.
  intros Hper Hq Hs. pose proof (gsteps_inv per Hper _ _ Hs (ginv_start per Hper l nthreads Hq)) as HI. split; [|split].
  - intros k w Hk%list_elem_of_lookup_2. destruct g as [l' ps es]. cbn in *. split.
    + destruct (inside_end per Hper l' ps es w HI Hk) as [_ ->]. eauto.
    + intros no. destruct (write_cs_ok per Hper l' ps es w no HI Hk) as (l1 & E & _). eauto.
  - intros k p Hk Hp. destruct g as [l' ps es]. cbn in *. destruct (committer_alone per Hper l' ps es k p HI Hk Hp) as (Ec & Eo & Hno & Hone).
    split; [done|]. split.
    + intros b. rewrite (gi_blocks _ _ HI b). cbn. split; [|now left]. intros [H|(w & Hw & _)]; [done|]. now apply Hno in Hw.
    + intros j g' Hj Hst. inversion Hst as [? ? ? ? H1 H2|? ? ? H1 H2|? ? ? H1|? ? ? ? ? ? H1|? ? ? ? ? H1|? ? ? ? ? H1|? ? ? H1|? ? ? H1]; subst; try done.
      * unfold begin_cs in H2. rewrite Ec in H2. done.
      * exfalso. now apply list_elem_of_lookup_2, Hno in H1.
      * exfalso. now apply list_elem_of_lookup_2, Hno in H1.
      * exfalso. now apply list_elem_of_lookup_2, Hno in H1.
      * exfalso. apply Hj. now apply (Hone j Committing).
      * exfalso. apply Hj. now apply (Hone j Committed).
  - intros k p. now apply admitted.
Qed.

(** A log as mkfs makes it, with two threads: one operation has logged block 46
    and ended, so its thread commits, and the other thread waits for it. *)
Definition fresh_log : log := Log 2 LOGSIZE 0 0 1 0 (fun _ => 0).

Definition committing_log : log := Log 2 LOGSIZE 0 1 1 1 (<[0 := 46]> (fun _ => 0)).

Lemma group_commit_witness :
  quiet fresh_log /\ exists g', gsteps 9 (Group committing_log [Committing; Asleep] [{[46]} ∪ ∅]) g' /\ g_ops g' !! 1%nat = Some (Inside ∅).
Proof.
  assert (quiet fresh_log) as Hq by (split; [reflexivity|]; split; [reflexivity|]; split; [reflexivity|apply Z.le_refl]). split; [exact Hq|].
  assert (gsteps 9 (Group fresh_log (replicate 2 Outside) []) (Group committing_log [Committing; Asleep] [{[46]} ∪ ∅])) as Hs.
  { eapply rtc_l; [exists 0%nat; eapply GBegin; [left; reflexivity|reflexivity]|].
    eapply rtc_l; [exists 0%nat; eapply (GWrite 9 0 _ _ _ ∅ 46); [reflexivity|vm_compute; lia|reflexivity]|].
    eapply rtc_l; [exists 0%nat; eapply GLast; [reflexivity|reflexivity]|].
    eapply rtc_l; [exists 1%nat; eapply GSleep; [left; reflexivity|reflexivity]|]. apply rtc_refl. }
  destruct (group_commit 9 fresh_log 2 _ ltac:(vm_compute; lia) Hq Hs) as (_ & _ & H). apply (H 1%nat Asleep); [reflexivity|left; reflexivity].
Defined.
