(* ===== verification/BlockIO.v ===== *)
(** * The block layer under kernel/fs.c

    What bio.c and log.c together promise to the file system inside a
    transaction: [BlockIO] lists the calls of fs.c and of its clients, [BlockIOSpec] their
    contract on an abstract view of the disk, and the instance shows that the
    log over any buffer cache keeps it. *)

From stdpp Require Import base gmap numbers strings functions list.
From Stdlib Require Import ZifyBool.
From S2P Require Import Prelude Mem Block Spinlock Locks Bio Bcache BcacheSpec BcacheThms Log LogSpec LogCrash LogTxn.

Open Scope Z_scope.

(** [io_data s b] is [b->data]. *)
Class BlockIO (S : Type) := {
  io_bread : Z -> Z -> M S Z;
  io_brelse : Z -> M S unit;
  io_log_write : Z -> M S unit;
  io_data : S -> Z -> block;
  io_set_data : Z -> block -> M S unit;
  io_initlog : Z -> Z -> Z -> M S unit;
  io_begin_op : M S unit;
  io_end_op : M S unit;
}.

(** The disk as a transaction sees it: the contents of the blocks now and at
    the last commit, the blocks whose buffers the thread holds, those it has
    logged, and how many it may log.  [d_start] is where the log begins, and
    [d_writes] the writes made to the disk so far. *)
Record dview := DView {
  d_data : Z -> block;
  d_base : Z -> block;
  d_locked : gset Z;
  d_logged : gset Z;
  d_cap : nat;
  d_start : Z;
  d_writes : list (Z * block);
}.

Definition d_set (b : Z) (d : block) (D : dview) : dview :=
  DView (<[b := d]> (d_data D)) (d_base D) (d_locked D) (d_logged D) (d_cap D) (d_start D) (d_writes D).
Definition d_lock (b : Z) (D : dview) : dview :=
  DView (d_data D) (d_base D) ({[b]} ∪ d_locked D) (d_logged D) (d_cap D) (d_start D) (d_writes D).
Definition d_unlock (b : Z) (D : dview) : dview :=
  DView (d_data D) (d_base D) (d_locked D ∖ {[b]}) (d_logged D) (d_cap D) (d_start D) (d_writes D).
Definition d_log (b : Z) (D : dview) : dview :=
  DView (d_data D) (d_base D) (d_locked D) ({[b]} ∪ d_logged D) (d_cap D) (d_start D) (d_writes D).

(** Block [b] written and logged. *)
Definition d_put (b : Z) (d : block) (D : dview) : dview :=
  DView (<[b := d]> (d_data D)) (d_base D) (d_locked D) ({[b]} ∪ d_logged D) (d_cap D) (d_start D) (d_writes D).

Lemma d_put_eq b d D : b ∉ d_locked D -> d_unlock b (d_log b (d_set b d (d_lock b D))) = d_put b d D.
Proof. intros Hb. unfold d_put, d_unlock, d_log, d_set, d_lock. cbn. f_equal. set_solver. Qed.

Lemma d_unlock_lock b D : b ∉ d_locked D -> d_unlock b (d_lock b D) = D.
Proof. intros Hb. destruct D. unfold d_unlock, d_lock. cbn in *. f_equal. set_solver. Qed.

(** Held buffers. *)
Lemma d_lock_in b D : b ∈ d_locked (d_lock b D).
Proof. cbn. set_solver. Qed.

Lemma none_locked D b : d_locked D = ∅ -> b ∉ d_locked D.
Proof. intros ->. apply not_elem_of_empty. Qed.

Lemma size_none_locked D : d_locked D = ∅ -> (size (d_locked D) <= 1)%nat.
Proof. intros ->. rewrite size_empty. lia. Qed.

Lemma size_one_locked D b : d_locked D = ∅ -> (size (d_locked (d_lock b D)) <= 1)%nat.
Proof. cbn. intros ->. rewrite right_id_L, size_singleton by apply _. lia. Qed.

Lemma one_locked D b c : d_locked D = ∅ -> c ∈ d_locked (d_lock b D) -> c = b.
Proof. cbn. intros ->. set_solver. Qed.

(** Blocks that may be logged. *)
Definition d_home (D : dview) (b : Z) : Prop := 0 <= b < 2^31 /\ ~ in_log (d_start D) b.

Class BlockIOSpec (S : Type) `{BlockIO S} (dev : Z) := {
  io_rep : S -> dview -> Prop;
  io_handle : S -> Z -> Z -> Prop;
  io_wf s D b : io_rep s D -> WF_block (d_data D b);
  io_clean s D b : io_rep s D -> b ∉ d_locked D -> b ∈ d_logged D \/ d_data D b = d_base D b;
  io_read s D i b : io_rep s D -> io_handle s i b -> b ∈ d_locked D -> io_data s i = d_data D b;
  io_bread_ok s D b :
    io_rep s D -> b ∉ d_locked D -> (size (d_locked D) <= 1)%nat ->
    exists i s', io_bread dev b s = Ok i s' /\ io_rep s' (d_lock b D) /\ io_handle s' i b /\
      forall j c, io_handle s j c -> c ∈ d_locked D -> io_handle s' j c;
  io_set_ok s D i b d :
    io_rep s D -> io_handle s i b -> b ∈ d_locked D -> WF_block d ->
    exists s', io_set_data i d s = Ok tt s' /\ io_rep s' (d_set b d D) /\
      forall j c, io_handle s j c -> io_handle s' j c;
  io_log_ok s D i b :
    io_rep s D -> io_handle s i b -> b ∈ d_locked D -> d_home D b ->
    (size ({[b]} ∪ d_logged D) <= d_cap D)%nat ->
    exists s', io_log_write i s = Ok tt s' /\ io_rep s' (d_log b D) /\
      forall j c, io_handle s j c -> io_handle s' j c;
  io_brelse_ok s D i b :
    io_rep s D -> io_handle s i b -> b ∈ d_locked D -> (b ∈ d_logged D \/ d_data D b = d_base D b) ->
    exists s', io_brelse i s = Ok tt s' /\ io_rep s' (d_unlock b D) /\
      forall j c, io_handle s j c -> io_handle s' j c;
}.

(** ** The log keeps the contract *)

#[export] Instance log_io {S} `{BufCache S} : BlockIO (lstate S) :=
  {| io_bread dev b := bio (bc_bread dev b); io_brelse i := bio (bc_brelse i);
     io_log_write := log_write; io_data s i := bc_data (l_bc s) i;
     io_set_data i d := bio (bc_set_data i d); io_initlog := initlog; io_begin_op := begin_op; io_end_op := end_op |}.

Section instance.
Context {S : Type} `{BC : BufCache S} (dev : Z) `{BS : !BufCacheSpec S dev}.

(** One reference for a logged block, one for a held buffer. *)
Definition refs_of (D : dview) (c : Z) : Z :=
  (if decide (c ∈ d_logged D) then 1 else 0) + (if decide (c ∈ d_locked D) then 1 else 0).

Record txn_view (V : bview) (D : dview) : Prop := TxnView {
  tv_data : v_data V = d_data D;
  tv_base : v_disk V = d_base D;
  tv_writes : v_writes V = d_writes D;
  tv_locked : v_locked V = d_locked D;
  tv_refs c : default 0 (v_refs V !! c) = refs_of D c;
}.

Record txn_log (l : log) (D : dview) : Prop := TxnLog {
  tl_dev : lg_dev l = dev;
  tl_start : lg_start l = d_start D;
  tl_ok : log_ok (lg_start l) (lg_n l) (lg_block l);
  tl_logged c : c ∈ d_logged D <-> logged (lg_n l) (lg_block l) c;
  tl_cap : (size (d_logged D) <= d_cap D)%nat /\ (d_cap D + 2 <= Z.to_nat NBUF)%nat /\ Z.of_nat (d_cap D) < lg_size l - 1;
  tl_out : lg_outstanding l = 1 /\ lg_committing l = 0;
  tl_head : hd_n (d_base D (d_start D)) = 0;
  tl_wf b : WF_block (d_data D b) /\ WF_block (d_base D b);
}.

Definition txn_rep (s : lstate S) (D : dview) : Prop :=
  (exists V, lrep dev s V /\ txn_view V D) /\ txn_log (l_log s) D.

Lemma refs_some V D s c :
  lrep dev s V -> txn_view V D -> v_refs V !! c = if refs_of D c =? 0 then None else Some (refs_of D c).
Proof.
  intros HR HV. rewrite <- (tv_refs V D HV c). destruct (v_refs V !! c) as [k|] eqn:E; [|done]. cbn.
  pose proof (refs_pos_l dev s V c k HR E). now rewrite (proj2 (Z.eqb_neq k 0)) by lia.
Qed.

Lemma refs_bounds D c : 0 <= refs_of D c <= 2.
Proof. unfold refs_of. repeat case_decide; lia. Qed.

(** The references fit the buffers. *)
Lemma refs_size V D s :
  lrep dev s V -> txn_view V D -> (size (v_refs V) <= size (d_logged D) + size (d_locked D))%nat.
Proof.
  intros HR HV. rewrite <- size_dom.
  assert (dom (v_refs V) ⊆ d_logged D ∪ d_locked D) as Hs%subseteq_size.
  { intros c [k Hk]%elem_of_dom. rewrite (refs_some V D s c HR HV) in Hk. unfold refs_of in Hk.
    apply elem_of_union. destruct (decide (c ∈ d_logged D)), (decide (c ∈ d_locked D)); auto. discriminate Hk. }
  rewrite size_union_alt in Hs.
  assert (d_locked D ∖ d_logged D ⊆ d_locked D) as Hd%subseteq_size by set_solver. lia.
Qed.

(** Equal log sizes and counts. *)
Lemma logged_size l D : txn_log l D -> size (d_logged D) = Z.to_nat (lg_n l).
Proof.
  intros HL. pose proof (tl_ok l D HL) as Hok.
  assert (d_logged D = list_to_set (lg_block l <$> seqZ 0 (lg_n l))) as ->.
  { apply set_eq. intros c. rewrite (tl_logged l D HL), elem_of_list_to_set, list_elem_of_fmap. split.
    - intros (i & Hi & <-). exists i. split; [done|]. apply elem_of_seqZ. lia.
    - intros (i & -> & Hi%elem_of_seqZ). exists i. split; [lia|done]. }
  rewrite size_list_to_set by (eapply blocks_NoDup; exact Hok). now rewrite length_fmap, length_seqZ.
Qed.

Lemma txn_bread s D b :
  txn_rep s D -> b ∉ d_locked D -> (size (d_locked D) <= 1)%nat ->
  exists i s', bio (bc_bread dev b) s = Ok i s' /\ txn_rep s' (d_lock b D) /\ hnd dev s' i b /\
    forall j c, hnd dev s j c -> c ∈ d_locked D -> hnd dev s' j c.
Proof.
  intros [(V & HR & HV) HL] Hb Hsz. pose proof (refs_bounds D b) as Hk. pose proof (tv_refs V D HV b) as Er.
  pose proof (refs_size V D s HR HV). pose proof (tl_cap _ _ HL) as (C1 & C2 & C3).
  destruct (bread_l dev s V b HR) as (i & s1 & H1 & R1 & (S1 & S2 & S3) & h1 & k1);
    [now rewrite (tv_locked V D HV)|rewrite Er; lia|lia|].
  exists i, s1. split; [done|]. split; [|split; [done|]].
  - split; [|rewrite S3; now destruct HL]. exists (v_bread b V). split; [done|]. destruct HV as [V1 V2 Vw V3 V4].
    split; try done; [cbn; now rewrite V3|]. intros c. rewrite bread_lookup by lia.
    destruct (decide (c = b)) as [->|Hne].
    + change (default 0 (Some ?x)) with x. rewrite Er. unfold refs_of. cbn. rewrite (decide_False (P := b ∈ d_locked D)), (decide_True (P := b ∈ {[b]} ∪ _)) by set_solver. lia.
    + rewrite V4. unfold refs_of. cbn. f_equal. apply decide_ext. set_solver.
  - intros j c Hj Hc. apply k1; [done|]. rewrite (refs_some V D s c HR HV).
    assert (refs_of D c <> 0) as Hn by (unfold refs_of; rewrite (decide_True (P := c ∈ d_locked D)) by done; case_decide; lia).
    rewrite (proj2 (Z.eqb_neq _ _) Hn). eauto.
Qed.

Lemma txn_set s D i b d :
  txn_rep s D -> hnd dev s i b -> b ∈ d_locked D -> WF_block d ->
  exists s', bio (bc_set_data i d) s = Ok tt s' /\ txn_rep s' (d_set b d D) /\
    forall j c, hnd dev s j c -> hnd dev s' j c.
Proof.
  intros [(V & HR & HV) HL] Hi Hb Hd.
  destruct (put_l dev s V i b d HR Hi) as (s1 & H1 & R1 & (S1 & S2 & S3) & k1).
  { pose proof (bc_locked (l_bc s) V b (proj1 HR)) as Hs. rewrite (tv_locked V D HV) in Hs. auto. }
  exists s1. split; [done|]. split; [|done]. split.
  - exists (v_put b d V). split; [done|]. destruct HV as [V1 V2 Vw V3 V4]. split; try done. cbn. now rewrite V1.
  - rewrite S3. destruct HL as [L1 L2 L3 L4 L5 L6 L7 L8]. split; try done. intros c. cbn. destruct (L8 c).
    split; [|done]. destruct (decide (c = b)) as [->|]; [now rewrite fn_lookup_insert|now rewrite fn_lookup_insert_ne].
Qed.
Lemma txn_log_write s D i b :
  txn_rep s D -> hnd dev s i b -> b ∈ d_locked D -> d_home D b ->
  (size ({[b]} ∪ d_logged D) <= d_cap D)%nat ->
  exists s', log_write i s = Ok tt s' /\ txn_rep s' (d_log b D) /\
    forall j c, hnd dev s j c -> hnd dev s' j c.
Proof.
  intros [(V & HR & HV) HL] Hi Hb [Hr Hh] Hsz. pose proof (refs_bounds D b) as Hk.
  pose proof (logged_size _ _ HL) as Hn. pose proof HL as [L1 L2 L3 L4 (C1 & C2 & C3) L6 L7 L8].
  assert (v_refs V !! b = Some (refs_of D b)) as Er.
  { rewrite (refs_some V D s b HR HV). unfold refs_of. rewrite (decide_True (P := b ∈ d_locked D)) by done.
    case_decide; done. }
  pose proof L3 as [Hn0 _].
  destruct (log_write_ok dev s V i b _ HR Hi Er) as (s1 & H1 & (F1 & F2 & F3 & F4 & F5) & k1 & Hc);
    [lia|unfold NBUF, LOGSIZE, MAXOPBLOCKS in *; lia|lia|lia|].
  exists s1. split; [done|]. split; [|done].
  assert (forall c, c ∈ d_logged (d_log b D) <-> logged (lg_n (l_log s1)) (lg_block (l_log s1)) c) as Hl.
  { intros c. cbn. rewrite elem_of_union, elem_of_singleton, L4. destruct Hc as [(Hl & _ & -> & Eb)|(_ & _ & -> & ->)].
    - split; [intros [->|(j & Hj & <-)]; [destruct Hl as (j & Hj & <-)|]; exists j; now rewrite Eb|].
      intros (j & Hj & <-). right. exists j. now rewrite Eb.
    - symmetry. apply logged_add. lia. }
  split.
  - destruct Hc as [(Hlg & R1 & _)|(Hlg & R1 & _)]; eexists; (split; [exact R1|]); destruct HV as [V1 V2 Vw V3 V4]; split; try done.
    + intros c. rewrite V4. unfold refs_of. cbn. f_equal. apply L4 in Hlg. assert ({[b]} ∪ d_logged D = d_logged D) as -> by set_solver. done.
    + intros c. rewrite v_ref_lookup. unfold refs_of. cbn. destruct (decide (c = b)) as [->|Hne].
      * rewrite (decide_False (P := b ∈ d_logged D)), (decide_True (P := b ∈ d_locked D)), decide_True by (rewrite ?L4; set_solver). done.
      * rewrite V4. unfold refs_of. f_equal. apply decide_ext. set_solver.
  - split; cbn; rewrite ?F1, ?F2, ?F3, ?F4, ?F5; try done.
    destruct Hc as [(Hlg & _ & -> & Eb)|(Hlg & _ & -> & ->)]; [eapply log_ok_ext; [|exact L3]; intros; symmetry; apply Eb|].
    apply log_ok_add; try done; [unfold NBUF, LOGSIZE, MAXOPBLOCKS in *; lia|now rewrite L2].
Qed.

Lemma txn_brelse s D i b :
  txn_rep s D -> hnd dev s i b -> b ∈ d_locked D -> (b ∈ d_logged D \/ d_data D b = d_base D b) ->
  exists s', bio (bc_brelse i) s = Ok tt s' /\ txn_rep s' (d_unlock b D) /\
    forall j c, hnd dev s j c -> hnd dev s' j c.
Proof.
  intros [(V & HR & HV) HL] Hi Hb Hc. pose proof HV as [V1 V2 Vw V3 V4].
  destruct (brelse_l dev s V i b HR Hi) as (s1 & H1 & R1 & (S1 & S2 & S3) & k1); [now rewrite V3| |].
  { rewrite (refs_some V D s b HR HV), V1, V2. unfold refs_of.
    rewrite (decide_True (P := b ∈ d_locked D)) by done. case_decide; [done|]. now destruct Hc. }
  exists s1. split; [done|]. split; [|done]. split; [|rewrite S3; now destruct HL].
  exists (v_relse b V). split; [done|]. split; try done; [cbn; now rewrite V3|].
  intros c. rewrite relse_lookup, V4. unfold refs_of. cbn. destruct (decide (c = b)) as [->|Hne].
  - rewrite (decide_True (P := b ∈ d_locked D)), (decide_False (P := b ∈ _ ∖ _)) by set_solver. case_decide; done.
  - rewrite V4. unfold refs_of. f_equal. apply decide_ext. set_solver.
Qed.
End instance.

(** The log over a buffer cache is a block layer. *)
#[export] Instance log_io_spec {S} `{BC : BufCache S} dev `{BS : !BufCacheSpec S dev} : BlockIOSpec (lstate S) dev.
Proof.
  refine {| io_rep := txn_rep dev; io_handle := hnd dev |}.
  - intros s D b [_ HL]. apply (tl_wf _ _ _ HL).
  - intros s D b [(V & HR & HV) HL] Hb. destruct (decide (b ∈ d_logged D)) as [|Hn]; [now left|right].
    rewrite <- (tv_data V D HV), <- (tv_base V D HV). eapply bc_clean; [apply HR|].
    rewrite (refs_some dev V D s b HR HV). unfold refs_of. now rewrite !decide_False.
  - intros s D i b [(V & HR & HV) HL] Hi Hb. cbn. rewrite <- (tv_data V D HV). eapply data_l; [exact HR|exact Hi|].
    eapply bc_locked; [apply HR|]. now rewrite (tv_locked V D HV).
  - apply txn_bread.
  - apply txn_set.
  - apply txn_log_write.
  - apply txn_brelse.
Defined.

(** ** File-system operations as transactions *)

Section atomic.
Context {S : Type} `{BC : BufCache S} (dev : Z) `{BS : !BufCacheSpec S dev}.

Definition d_begin (V : bview) (h : Z) : dview :=
  DView (v_data V) (v_disk V) ∅ ∅ (Z.to_nat MAXOPBLOCKS) h (v_writes V).

Lemma begin_view s V :
  txn_inv dev s V -> idle s -> MAXOPBLOCKS < lg_size (l_log s) - 1 ->
  exists s', begin_op s = Ok tt s' /\ txn_rep dev s' (d_begin V (lg_start (l_log s))).
Proof.
  intros [HR Hd Hok HP Hl Hh Hw] (I1 & I2 & I3) Hsz. pose proof HR as [_ Hheld].
  pose proof (begin_op_ok s Hheld) as Hb. cbn zeta in Hb. rewrite I1, I2, I3 in Hb.
  eexists. split; [exact Hb|]. split.
  - exists V. split; [split; [apply HR|done]|]. split; try done. intros c. rewrite (proj2 (HP c)) by (intros (i & Hi & _); lia).
    unfold refs_of. cbn. now rewrite !decide_False by set_solver.
  - split; cbn; rewrite ?I1, ?I2, ?I3; try done.
    + apply log_ok_empty.
    + intros c. split; [set_solver|]. intros (i & Hi & _). lia.
    + rewrite size_empty. unfold NBUF, MAXOPBLOCKS in *. lia.
Qed.

Lemma end_view s D :
  txn_rep dev s D -> d_locked D = ∅ ->
  exists V, txn_inv dev s V /\ v_data V = d_data D /\ v_disk V = d_base D /\ v_writes V = d_writes D /\
    lg_start (l_log s) = d_start D.
Proof.
  intros [(V & HR & HV) HL] Hlk. exists V. pose proof (logged_size dev _ _ HL) as Hn.
  pose proof HV as [V1 V2 Vw V3 V4]. pose proof HL as [L1 L2 L3 L4 (C1 & C2 & C3) [L6 _] L7 L8].
  split; [|repeat split; try done; unfold NBUF, LOGSIZE, MAXOPBLOCKS in *; lia].
  split; rewrite ?L2 in *; try done.
  - intros c. rewrite (refs_some dev V D s c HR HV). unfold refs_of. rewrite Hlk, <- L4. split; intros Hc.
    + now rewrite (decide_True (P := c ∈ d_logged D)), (decide_False (P := c ∈ ∅)) by set_solver.
    + now rewrite (decide_False (P := c ∈ d_logged D)), (decide_False (P := c ∈ ∅)) by set_solver.
  - now rewrite V3.
  - now rewrite V2.
  - intros b. rewrite V1, V2. auto.
Qed.

(** What a transaction body does to the view. *)
Definition body_ok (body : M (lstate S) unit) (D D' : dview) : Prop :=
  forall s, txn_rep dev s D -> exists s', body s = Ok tt s' /\ txn_rep dev s' D'.

Definition fs_op (body : M (lstate S) unit) : M (lstate S) unit := begin_op;; body;; end_op.

(** The end of a transaction: what is on the disk then, and after a crash before
    any of the writes it makes. *)
Lemma op_ends (s : lstate S) D' base writes h :
  txn_rep dev s D' -> d_locked D' = ∅ -> d_base D' = base -> d_start D' = h -> d_writes D' = writes ->
  exists s' V' ws, end_op s = Ok tt s' /\ txn_inv dev s' V' /\ idle s' /\
    v_writes V' = writes ++ ws /\ v_disk V' = apply_writes ws base /\
    (forall b, ~ in_log h b -> v_disk V' b = d_data D' b) /\
    forall k d sb nlog, crashes h (apply_writes (take k ws) base) d -> lrep dev sb (v_init d) ->
      recovers_to dev h nlog sb d (fun e => exists all : bool, forall b, ~ in_log h b ->
        e b = if all then d_data D' b else base b).
Proof.
  intros R2 Hlk Hbase Hst Hwr. destruct (end_view s D' R2 Hlk) as (V2 & T2 & E1 & E2 & E3 & E4).
  pose proof R2 as [_ [_ _ _ _ _ [O1 O2] _ _]].
  destruct (end_op_last dev s V2 T2 O1 O2) as (s3 & V3 & H3 & L3 & T3 & W3 & D3).
  exists s3, V3, (end_writes (l_log s) (v_data V2)). rewrite E2, E3, Hbase, Hwr in *.
  pose proof (end_recovers dev s V2) as Hrec. cbn zeta in Hrec. rewrite E2, E4, Hst in Hrec.
  split; [exact H3|]. split; [done|]. split; [unfold idle; rewrite L3; cbn; auto|].
  split; [done|]. split; [done|]. split.
  - intros b Hb. rewrite D3, <- E1, <- E2. apply (end_home dev s V2); [done|now rewrite E4, Hst].
  - intros k d sb nlog Hc Hb. destruct (Hrec k d sb nlog T2 Hc Hb) as (s4 & V4 & H4 & T4 & N4 & P4).
    exists s4, V4. split; [done|]. split; [done|]. split; [done|].
    exists (negb (Z.of_nat k <=? lg_n (l_log s))). intros b Hout. rewrite P4 by done. rewrite E1.
    destruct (Z.of_nat k <=? lg_n (l_log s)); reflexivity.
Qed.

(** C22: file-system operations are atomic.  Any code that keeps to the
    contract of the block layer, run between [begin_op] and [end_op] on an idle
    log, makes all of its changes: the disk is what the code left; and after a
    crash at any point, and crashes of the recoveries that follow, recovery
    leaves either all of its changes or none. *)
Theorem fs_op_atomic (s : lstate S) V body D' :
  txn_inv dev s V -> idle s -> let h := lg_start (l_log s) in MAXOPBLOCKS < lg_size (l_log s) - 1 ->
  body_ok body (d_begin V h) D' -> d_locked D' = ∅ -> d_base D' = v_disk V -> d_start D' = h -> d_writes D' = v_writes V ->
  exists s' V' ws, fs_op body s = Ok tt s' /\ txn_inv dev s' V' /\ idle s' /\
    v_writes V' = v_writes V ++ ws /\ v_disk V' = apply_writes ws (v_disk V) /\
    (forall b, ~ in_log h b -> v_disk V' b = d_data D' b) /\
    forall k d sb nlog, crashes h (apply_writes (take k ws) (v_disk V)) d -> lrep dev sb (v_init d) ->
      recovers_to dev h nlog sb d (fun e => exists all : bool, forall b, ~ in_log h b ->
        e b = if all then d_data D' b else v_disk V b).
Proof.
  intros HT HI h Hsz Hbody Hlk Hbase Hst Hwr. destruct (begin_view s V HT HI Hsz) as (s1 & H1 & R1).
  destruct (Hbody s1 R1) as (s2 & H2 & R2). unfold fs_op. rewrite (bind_ok _ _ _ _ _ H1), (bind_ok _ _ _ _ _ H2).
  now apply op_ends.
Qed.
End atomic.

(** An update of block 50. *)
Definition demo_body : M (lstate bstate) unit :=
  i ← bio (bc_bread 1 50);
  bio (bc_set_data i (replicate (Z.to_nat BSIZE) 7));;
  log_write i;;
  bio (bc_brelse i).

Lemma demo_body_ok V h :
  ~ in_log h 50 -> body_ok 1 demo_body (d_begin V h) (d_put 50 (replicate (Z.to_nat BSIZE) 7) (d_begin V h)).
Proof.
  intros Hh s R0. unfold demo_body.
  destruct (txn_bread 1 s _ 50 R0) as (i & s1 & H1 & R1 & h1 & _); [apply not_elem_of_empty|now apply size_none_locked|].
  destruct (txn_set 1 s1 _ i 50 (replicate (Z.to_nat BSIZE) 7) R1 h1) as (s2 & H2 & R2 & k2); [apply d_lock_in|done|].
  destruct (txn_log_write 1 s2 _ i 50 R2) as (s3 & H3 & R3 & k3); [auto|apply d_lock_in|split; [lia|exact Hh]| |].
  { unfold d_begin. cbn [d_logged d_set d_lock d_cap]. rewrite right_id_L, size_singleton by apply _. unfold MAXOPBLOCKS. lia. }
  destruct (txn_brelse 1 s3 _ i 50 R3) as (s4 & H4 & R4 & _); [auto|apply d_lock_in|left; cbn; apply elem_of_union; left; now apply elem_of_singleton|].
  exists s4. rewrite (bind_ok _ _ _ _ _ H1), (bind_ok _ _ _ _ _ H2), (bind_ok _ _ _ _ _ H3). split; [exact H4|].
  rewrite d_put_eq in R4 by apply not_elem_of_empty. exact R4.
Qed.

Lemma fs_op_atomic_witness : exists s', fs_op demo_body demo_log = Ok tt s' /\ idle s'.
Proof.
  destruct demo_log_inv as (V & T & I & L1 & L2).
  pose proof (fs_op_atomic 1 demo_log V demo_body) as H. cbn zeta in H. rewrite L1, L2 in H.
  destruct (H (d_put 50 (replicate (Z.to_nat BSIZE) 7) (d_begin V 2)) T I) as (s' & V' & ws & H' & _ & E & _).
  - unfold MAXOPBLOCKS. lia.
  - apply demo_body_ok. unfold in_log, LOGSIZE, MAXOPBLOCKS. lia.
  - reflexivity.
  - reflexivity.
  - reflexivity.
  - reflexivity.
  - exists s'. split; [exact H'|exact E].
Defined.
