(* ===== verification/Fs.v ===== *)
(** * kernel/fs.c: the operations

    The file system over any block layer [BlockIO].  The state is the block
    layer's, the spin locks the thread holds at this level, the superblock,
    the inode table, and memory.
    A [struct inode *] is an index into the table, [NULL] is -1.  Messages
    fs.c prints are not modelled. *)

From stdpp Require Import base gmap numbers strings functions list.
From S2P Require Import Prelude Mem Block StringC Spinlock Locks Riscv Bio Log BlockIO.

Open Scope Z_scope.

Definition ROOTINO : Z := 1.
Definition ROOTDEV : Z := 1.
Definition FSMAGIC : Z := 0x10203040.
Definition NDIRECT : Z := 12.
Definition NINDIRECT : Z := BSIZE / 4.
Definition MAXFILE : Z := NDIRECT + NINDIRECT.
Definition IPB : Z := BSIZE / 64.
Definition BPB : Z := BSIZE * 8.
Definition DIRSIZ : Z := 14.
Definition NINODE : Z := 50.
Definition MAXPATH : Z := 128.
Definition T_DIR : Z := 1.
Definition T_FILE : Z := 2.
Definition T_DEVICE : Z := 3.

Definition NULL : Z := -1.

Record superblock := SB {
  sb_magic : Z; sb_size : Z; sb_nblocks : Z; sb_ninodes : Z;
  sb_nlog : Z; sb_logstart : Z; sb_inodestart : Z; sb_bmapstart : Z;
}.

Definition IBLOCK (i : Z) (sb : superblock) : Z := i / IPB + sb_inodestart sb.
Definition BBLOCK (b : Z) (sb : superblock) : Z := b / BPB + sb_bmapstart sb.

(** The fields of an inode that live on disk. *)
Record dinode := Dinode {
  di_type : Z; di_major : Z; di_minor : Z; di_nlink : Z; di_size : Z; di_addrs : list Z;
}.

Record inode := Inode {
  i_dev : Z;
  i_inum : Z;
  i_ref : Z;
  i_lock : sleeplock;
  i_valid : Z;
  i_dinode : dinode;
}.

Definition i_type (x : inode) : Z := di_type (i_dinode x).
Definition i_nlink (x : inode) : Z := di_nlink (i_dinode x).
Definition i_size (x : inode) : Z := di_size (i_dinode x).

(** [ip->addrs[i]] *)
Definition addr (x : dinode) (i : Z) : Z := default 0 (di_addrs x !! Z.to_nat i).

Record stat := Stat { st_dev : Z; st_ino : Z; st_type : Z; st_nlink : Z; st_size : Z }.

(** ** Structures on disk *)

Definition read_sb (d : block) : superblock :=
  SB (get32 0 d) (get32 4 d) (get32 8 d) (get32 12 d) (get32 16 d) (get32 20 d) (get32 24 d) (get32 28 d).

Fixpoint get_words (k : nat) (off : Z) (d : block) : list Z :=
  match k with
  | O => []
  | S k' => get32 off d :: get_words k' (off + 4) d
  end.

Fixpoint put_words (off : Z) (ws : list Z) (d : block) : block :=
  match ws with
  | [] => d
  | w :: ws' => put_words (off + 4) ws' (put32 off w d)
  end.

(** Where [dip], entry [inum%IPB] of the block's inodes, is in [bp->data]. *)
Definition ioff (inum : Z) : Z := inum mod IPB * 64.

Definition get_dinode (off : Z) (d : block) : dinode :=
  Dinode (i16 (get16 off d)) (i16 (get16 (off + 2) d)) (i16 (get16 (off + 4) d)) (i16 (get16 (off + 6) d))
    (get32 (off + 8) d) (get_words (Z.to_nat (NDIRECT + 1)) (off + 12) d).

Definition put_dinode (off : Z) (x : dinode) (d : block) : block :=
  put_words (off + 12) (di_addrs x)
    (put32 (off + 8) (di_size x)
      (put16 (off + 6) (di_nlink x)
        (put16 (off + 4) (di_minor x)
          (put16 (off + 2) (di_major x)
            (put16 off (di_type x) d))))).

(** Memory: as the kernel addresses it, and as the current process does through
    [copyout], [copyin] and [copyinstr] of vm.c with its page table, which is
    [u_pagetable].  A failed [copyin] may have copied a prefix. *)
Class UserIO (U : Type) := {
  u_mem : U -> memory;
  u_set_mem : memory -> U -> U;
  u_pagetable : U -> Z;
  u_set_pagetable : Z -> U -> U;
  u_copyout : Z -> list Z -> M U Z;
  u_copyin : Z -> Z -> M U (list Z * Z);
  u_copyinstr : Z -> Z -> Z -> M U Z;
}.

Class UserLaws (U : Type) `{UserIO U} := {
  u_mem_set m u : u_mem (u_set_mem m u) = m;
  u_set_mem_mem u : u_set_mem (u_mem u) u = u;
  u_set_set m m' u : u_set_mem m' (u_set_mem m u) = u_set_mem m' u;
  u_pagetable_mem m u : u_pagetable (u_set_mem m u) = u_pagetable u;
  u_set_pagetable_same u : u_set_pagetable (u_pagetable u) u = u;
}.

Record fstate (S U : Type) := FState {
  f_io : S;
  f_user : U;
  f_held : gset lockid;
  f_pid : Z;
  f_sb : superblock;
  f_inode : Z -> inode;
  f_cwd : Z;
}.
Arguments FState {S U}.
Arguments f_io {S U}.
Arguments f_user {S U}.
Arguments f_held {S U}.
Arguments f_pid {S U}.
Arguments f_sb {S U}.
Arguments f_inode {S U}.
Arguments f_cwd {S U}.

Definition itable_lock : lockid := ("itable"%string, 0).
Definition inode_spin (ip : Z) : lockid := ("inode"%string, ip).

Section ops.
Context {B U : Type} `{BlockIO B} `{UserIO U}.
Local Abbreviation F := (fstate B U).

#[export] Instance fstate_thread : Thread F :=
  {| held := Field f_held (fun h s => FState (f_io s) (f_user s) h (f_pid s) (f_sb s) (f_inode s) (f_cwd s));
     mypid := f_pid |}.

(** An operation of the block layer, and of user memory. *)
Definition io {A} (c : M B A) : M F A := fun s =>
  match c (f_io s) with
  | Ok a x => Ok a (FState x (f_user s) (f_held s) (f_pid s) (f_sb s) (f_inode s) (f_cwd s))
  | Panic msg => Panic msg
  | Diverge => Diverge
  end.

Definition user {A} (c : M U A) : M F A := fun s =>
  match c (f_user s) with
  | Ok a x => Ok a (FState (f_io s) x (f_held s) (f_pid s) (f_sb s) (f_inode s) (f_cwd s))
  | Panic msg => Panic msg
  | Diverge => Diverge
  end.

Definition set_sb (sb : superblock) : M F unit :=
  modify (fun s => FState (f_io s) (f_user s) (f_held s) (f_pid s) sb (f_inode s) (f_cwd s)).
Definition set_inodes (f : Z -> inode) (s : F) : F :=
  FState (f_io s) (f_user s) (f_held s) (f_pid s) (f_sb s) f (f_cwd s).
Definition upd_inode (ip : Z) (f : inode -> inode) : M F unit :=
  modify (fun s => set_inodes (<[ip := f (f_inode s ip)]> (f_inode s)) s).
Definition f_mem (s : F) : memory := u_mem (f_user s).
Definition set_mem (m : memory) (s : F) : F :=
  FState (f_io s) (u_set_mem m (f_user s)) (f_held s) (f_pid s) (f_sb s) (f_inode s) (f_cwd s).

(** [&ip->lock] *)
Definition inode_lock (ip : Z) : field F sleeplock :=
  Field (fun s => i_lock (f_inode s ip))
        (fun l s => let x := f_inode s ip in
           set_inodes (<[ip := Inode (i_dev x) (i_inum x) (i_ref x) l (i_valid x) (i_dinode x)]> (f_inode s)) s).

Definition set_ref (n : Z) (x : inode) : inode :=
  Inode (i_dev x) (i_inum x) n (i_lock x) (i_valid x) (i_dinode x).
Definition set_ivalid (v : Z) (x : inode) : inode :=
  Inode (i_dev x) (i_inum x) (i_ref x) (i_lock x) v (i_dinode x).
Definition set_dinode (d : dinode) (x : inode) : inode :=
  Inode (i_dev x) (i_inum x) (i_ref x) (i_lock x) (i_valid x) d.

Definition set_type (t : Z) (d : dinode) : dinode :=
  Dinode t (di_major d) (di_minor d) (di_nlink d) (di_size d) (di_addrs d).
Definition set_size (n : Z) (d : dinode) : dinode :=
  Dinode (di_type d) (di_major d) (di_minor d) (di_nlink d) n (di_addrs d).
Definition set_addr (i a : Z) (d : dinode) : dinode :=
  Dinode (di_type d) (di_major d) (di_minor d) (di_nlink d) (di_size d) (<[Z.to_nat i := a]> (di_addrs d)).
Definition upd_dinode (ip : Z) (f : dinode -> dinode) : M F unit :=
  upd_inode ip (fun x => set_dinode (f (i_dinode x)) x).

(** ** Superblock *)

Definition readsb (dev : Z) : M F superblock :=
  bp ← io (io_bread dev 1);
  d ← gets (fun s => io_data (f_io s) bp);
  io (io_brelse bp);;
  mret (read_sb d).

Definition fsinit (dev : Z) : M F unit :=
  sb ← readsb dev;
  set_sb sb;;
  if negb (sb_magic sb =? FSMAGIC) then panic "invalid file system"
  else io (io_initlog dev (sb_logstart sb) (sb_nlog sb)).

(** ** Blocks *)

Definition bzero (dev bno : Z) : M F unit :=
  bp ← io (io_bread dev bno);
  io (io_set_data bp (replicate (Z.to_nat BSIZE) 0));;
  io (io_log_write bp);;
  io (io_brelse bp).

(** [1 << (bi % 8)] *)
Definition bit_mask (bi : Z) : Z := Z.shiftl 1 (bi mod 8).

(** The inner loop of [balloc] from [bi]: the first clear bit of the bitmap
    block [d], or [BPB]. *)
Fixpoint find_clear (fuel : nat) (b bi size : Z) (d : block) : option Z :=
  match fuel with
  | O => None
  | S fuel' =>
      if (bi <? BPB) && (b + bi <? size) then
        if Z.land (get8 (bi / 8) d) (bit_mask bi) =? 0 then Some bi
        else find_clear fuel' b (bi + 1) size d
      else None
  end.

Fixpoint balloc_loop (fuel : nat) (dev b : Z) : M F Z :=
  match fuel with
  | O => diverge
  | S fuel' =>
      sb ← gets f_sb;
      if b <? sb_size sb then
        bp ← io (io_bread dev (BBLOCK b sb));
        d ← gets (fun s => io_data (f_io s) bp);
        match find_clear (Z.to_nat BPB) b 0 (sb_size sb) d with
        | Some bi =>
            io (io_set_data bp (put8 (bi / 8) (Z.lor (get8 (bi / 8) d) (bit_mask bi)) d));;
            io (io_log_write bp);;
            io (io_brelse bp);;
            bzero dev (b + bi);;
            mret (b + bi)
        | None =>
            io (io_brelse bp);;
            balloc_loop fuel' dev (b + BPB)
        end
      else mret 0
  end.

Definition balloc (dev : Z) : M F Z :=
  sb ← gets f_sb;
  balloc_loop (S (Z.to_nat (sb_size sb / BPB + 1))) dev 0.

Definition bfree (dev b : Z) : M F unit :=
  sb ← gets f_sb;
  bp ← io (io_bread dev (BBLOCK b sb));
  let bi := b mod BPB in
  let m := bit_mask bi in
  d ← gets (fun s => io_data (f_io s) bp);
  if Z.land (get8 (bi / 8) d) m =? 0 then panic "freeing free block" else
  io (io_set_data bp (put8 (bi / 8) (Z.land (get8 (bi / 8) d) (Z.lnot m)) d));;
  io (io_log_write bp);;
  io (io_brelse bp).

(** ** Inodes *)

Definition iinit : M F unit :=
  for_loop (Z.to_nat NINODE) 0 (fun i => modify (fset (inode_lock i) (initsleeplock "inode"))).

(** The scan of [iget] from entry [i]: the entry of the inode, or the first
    empty one. *)
Fixpoint iget_scan (k : nat) (i empty dev inum : Z) (t : Z -> inode) : Z + Z :=
  match k with
  | O => inr empty
  | S k' =>
      let x := t i in
      if (0 <? i_ref x) && (i_dev x =? dev) && (i_inum x =? inum) then inl i
      else iget_scan k' (i + 1) (if (empty =? NULL) && (i_ref x =? 0) then i else empty) dev inum t
  end.

Definition iget (dev inum : Z) : M F Z :=
  lock itable_lock;;
  t ← gets f_inode;
  match iget_scan (Z.to_nat NINODE) 0 NULL dev inum t with
  | inl ip =>
      upd_inode ip (fun x => set_ref (i_ref x + 1) x);;
      unlock itable_lock;;
      mret ip
  | inr empty =>
      if empty =? NULL then panic "iget: no inodes" else
      upd_inode empty (fun x => Inode dev inum 1 (i_lock x) 0 (i_dinode x));;
      unlock itable_lock;;
      mret empty
  end.

Fixpoint ialloc_loop (fuel : nat) (dev inum type : Z) : M F Z :=
  match fuel with
  | O => diverge
  | S fuel' =>
      sb ← gets f_sb;
      if inum <? sb_ninodes sb then
        bp ← io (io_bread dev (IBLOCK inum sb));
        d ← gets (fun s => io_data (f_io s) bp);
        if di_type (get_dinode (ioff inum) d) =? 0 then
          let d := splice (ioff inum) (replicate 64 0) d in
          io (io_set_data bp (put16 (ioff inum) type d));;
          io (io_log_write bp);;
          io (io_brelse bp);;
          iget dev inum
        else
          io (io_brelse bp);;
          ialloc_loop fuel' dev (inum + 1) type
      else mret NULL
  end.

Definition ialloc (dev type : Z) : M F Z :=
  sb ← gets f_sb;
  ialloc_loop (S (Z.to_nat (sb_ninodes sb))) dev 1 type.

Definition iupdate (ip : Z) : M F unit :=
  sb ← gets f_sb;
  x ← gets (fun s => f_inode s ip);
  bp ← io (io_bread (i_dev x) (IBLOCK (i_inum x) sb));
  d ← gets (fun s => io_data (f_io s) bp);
  io (io_set_data bp (put_dinode (ioff (i_inum x)) (i_dinode x) d));;
  io (io_log_write bp);;
  io (io_brelse bp).

Definition idup (ip : Z) : M F Z :=
  lock itable_lock;;
  upd_inode ip (fun x => set_ref (i_ref x + 1) x);;
  unlock itable_lock;;
  mret ip.

Definition ilock (ip : Z) : M F unit :=
  x ← gets (fun s => f_inode s ip);
  if (ip =? NULL) || (i_ref x <? 1) then panic "ilock" else
  acquiresleep (inode_lock ip) (inode_spin ip);;
  x ← gets (fun s => f_inode s ip);
  if i_valid x =? 0 then
    sb ← gets f_sb;
    bp ← io (io_bread (i_dev x) (IBLOCK (i_inum x) sb));
    d ← gets (fun s => io_data (f_io s) bp);
    upd_inode ip (set_dinode (get_dinode (ioff (i_inum x)) d));;
    io (io_brelse bp);;
    upd_inode ip (set_ivalid 1);;
    x ← gets (fun s => f_inode s ip);
    if i_type x =? 0 then panic "ilock: no type" else mret tt
  else mret tt.

Definition iunlock (ip : Z) : M F unit :=
  if ip =? NULL then panic "iunlock" else
  h ← holdingsleep (inode_lock ip) (inode_spin ip);
  x ← gets (fun s => f_inode s ip);
  if negb h || (i_ref x <? 1) then panic "iunlock" else
  releasesleep (inode_lock ip) (inode_spin ip).

(** ** Inode content *)

(** The part of [bmap] that looks up, and if necessary allocates, entry [bn] of
    the indirect block [a]. *)
Definition bmap_entry (dev a bn : Z) : M F Z :=
  bp ← io (io_bread dev a);
  d ← gets (fun s => io_data (f_io s) bp);
  let a := get32 (4 * bn) d in
  a ← (if a =? 0 then
         a ← balloc dev;
         if negb (a =? 0) then
           d ← gets (fun s => io_data (f_io s) bp);
           io (io_set_data bp (put32 (4 * bn) a d));;
           io (io_log_write bp);;
           mret a
         else mret a
       else mret a);
  io (io_brelse bp);;
  mret a.

Definition bmap (ip bn : Z) : M F Z :=
  x ← gets (fun s => f_inode s ip);
  if bn <? NDIRECT then
    let a := addr (i_dinode x) bn in
    if a =? 0 then
      a ← balloc (i_dev x);
      if a =? 0 then mret 0 else
      upd_dinode ip (set_addr bn a);;
      mret a
    else mret a
  else
  let bn := bn - NDIRECT in
  if bn <? NINDIRECT then
    let a := addr (i_dinode x) NDIRECT in
    if a =? 0 then
      a ← balloc (i_dev x);
      if a =? 0 then mret 0 else
      upd_dinode ip (set_addr NDIRECT a);;
      bmap_entry (i_dev x) a bn
    else bmap_entry (i_dev x) a bn
  else panic "bmap: out of range".

(** One round of the first loop of [itrunc], and of the second. *)
Definition itrunc_direct (ip i : Z) : M F unit :=
  x ← gets (fun s => f_inode s ip);
  let a := addr (i_dinode x) i in
  if negb (a =? 0) then
    bfree (i_dev x) a;;
    upd_dinode ip (set_addr i 0)
  else mret tt.

Definition itrunc_indirect (ip bp j : Z) : M F unit :=
  x ← gets (fun s => f_inode s ip);
  d ← gets (fun s => io_data (f_io s) bp);
  let a := get32 (4 * j) d in
  if negb (a =? 0) then bfree (i_dev x) a else mret tt.

Definition itrunc (ip : Z) : M F unit :=
  for_loop (Z.to_nat NDIRECT) 0 (itrunc_direct ip);;
  x ← gets (fun s => f_inode s ip);
  let a := addr (i_dinode x) NDIRECT in
  (if negb (a =? 0) then
     bp ← io (io_bread (i_dev x) a);
     for_loop (Z.to_nat NINDIRECT) 0 (itrunc_indirect ip bp);;
     io (io_brelse bp);;
     bfree (i_dev x) a;;
     upd_dinode ip (set_addr NDIRECT 0)
   else mret tt);;
  upd_dinode ip (set_size 0);;
  iupdate ip.

Definition iput (ip : Z) : M F unit :=
  lock itable_lock;;
  x ← gets (fun s => f_inode s ip);
  (if (i_ref x =? 1) && truthy (i_valid x) && (i_nlink x =? 0) then
     acquiresleep (inode_lock ip) (inode_spin ip);;
     unlock itable_lock;;
     itrunc ip;;
     upd_dinode ip (set_type 0);;
     iupdate ip;;
     upd_inode ip (set_ivalid 0);;
     releasesleep (inode_lock ip) (inode_spin ip);;
     lock itable_lock
   else mret tt);;
  upd_inode ip (fun x => set_ref (i_ref x - 1) x);;
  unlock itable_lock.

Definition iunlockput (ip : Z) : M F unit :=
  iunlock ip;;
  iput ip.

Definition stati (ip : Z) : M F stat :=
  x ← gets (fun s => f_inode s ip);
  mret (Stat (i_dev x) (i_inum x) (i_type x) (i_nlink x) (i_size x)).

(** proc.c: the bytes [bs] to [dst], and [len] bytes from [src] with the result. *)
Definition either_copyout (user_dst : bool) (dst : Z) (bs : list Z) : M F Z :=
  if user_dst then user (u_copyout dst bs)
  else modify (fun s => set_mem (wr_bytes (f_mem s) dst bs) s);; mret 0.

Definition either_copyin (user_src : bool) (src len : Z) : M F (list Z * Z) :=
  if user_src then user (u_copyin src len)
  else m ← gets f_mem; mret (rd_bytes m src (Z.to_nat len), 0).

Fixpoint readi_loop (fuel : nat) (ip : Z) (user_dst : bool) (dst off n tot : Z) : M F Z :=
  match fuel with
  | O => diverge
  | S fuel' =>
      if tot <? n then
        a ← bmap ip (off / BSIZE);
        if a =? 0 then mret tot else
        x ← gets (fun s => f_inode s ip);
        bp ← io (io_bread (i_dev x) a);
        d ← gets (fun s => io_data (f_io s) bp);
        let m := Z.min (n - tot) (BSIZE - off mod BSIZE) in
        r ← either_copyout user_dst dst (slice (off mod BSIZE) m d);
        io (io_brelse bp);;
        if r =? -1 then mret (u32 (-1))
        else readi_loop fuel' ip user_dst (u64 (dst + m)) (u32 (off + m)) n (u32 (tot + m))
      else mret tot
  end.

(** The loop runs once per block of the range. *)
Definition io_fuel (n : Z) : nat := Z.to_nat (n / BSIZE + 3).

Definition readi (ip : Z) (user_dst : bool) (dst off n : Z) : M F Z :=
  x ← gets (fun s => f_inode s ip);
  if (i_size x <? off) || (u32 (off + n) <? off) then mret 0 else
  let n := if i_size x <? u32 (off + n) then u32 (i_size x - off) else n in
  tot ← readi_loop (io_fuel n) ip user_dst dst off n 0;
  mret (i32 tot).

(** The loop of [writei]; the offset it reaches comes with the count. *)
Fixpoint writei_loop (fuel : nat) (ip : Z) (user_src : bool) (src off n tot : Z) : M F (Z * Z) :=
  match fuel with
  | O => diverge
  | S fuel' =>
      if tot <? n then
        a ← bmap ip (off / BSIZE);
        if a =? 0 then mret (tot, off) else
        x ← gets (fun s => f_inode s ip);
        bp ← io (io_bread (i_dev x) a);
        let m := Z.min (n - tot) (BSIZE - off mod BSIZE) in
        r ← either_copyin user_src src m;
        d ← gets (fun s => io_data (f_io s) bp);
        io (io_set_data bp (splice (off mod BSIZE) r.1 d));;
        if r.2 =? -1 then io (io_brelse bp);; mret (tot, off)
        else
          io (io_log_write bp);;
          io (io_brelse bp);;
          writei_loop fuel' ip user_src (u64 (src + m)) (u32 (off + m)) n (u32 (tot + m))
      else mret (tot, off)
  end.

Definition writei (ip : Z) (user_src : bool) (src off n : Z) : M F Z :=
  x ← gets (fun s => f_inode s ip);
  if (i_size x <? off) || (u32 (off + n) <? off) then mret (-1) else
  if MAXFILE * BSIZE <? u32 (off + n) then mret (-1) else
  r ← writei_loop (io_fuel n) ip user_src src off n 0;
  x ← gets (fun s => f_inode s ip);
  (if i_size x <? r.2 then upd_dinode ip (set_size r.2) else mret tt);;
  iupdate ip;;
  mret (i32 r.1).

(** ** Directories *)

Definition namecmp (s t : Z) : M F Z := m ← gets f_mem; mret (strncmp m s t DIRSIZ).

(** Where the local variable [de] is on the kernel stack: [inum] and then
    [name]. *)
Definition de : Z := KSTACK 0.

(** The entry and its offset, or [NULL]. *)
Fixpoint dirlookup_loop (fuel : nat) (dp name off : Z) : M F (Z * Z) :=
  match fuel with
  | O => diverge
  | S fuel' =>
      x ← gets (fun s => f_inode s dp);
      if off <? i_size x then
        r ← readi dp false de off 16;
        if negb (r =? 16) then panic "dirlookup read" else
        inum ← gets (fun s => load16 (f_mem s) de);
        if inum =? 0 then dirlookup_loop fuel' dp name (u32 (off + 16)) else
        c ← namecmp name (de + 2);
        if c =? 0 then ip ← iget (i_dev x) inum; mret (ip, off)
        else dirlookup_loop fuel' dp name (u32 (off + 16))
      else mret (NULL, 0)
  end.

Definition dir_fuel (size : Z) : nat := Z.to_nat (size / 16 + 2).

Definition dirlookup (dp name : Z) : M F (Z * Z) :=
  x ← gets (fun s => f_inode s dp);
  if negb (i_type x =? T_DIR) then panic "dirlookup not DIR"
  else dirlookup_loop (dir_fuel (i_size x)) dp name 0.

(** The offset of the first empty entry from [off], or the end. *)
Fixpoint dirlink_scan (fuel : nat) (dp off : Z) : M F Z :=
  match fuel with
  | O => diverge
  | S fuel' =>
      x ← gets (fun s => f_inode s dp);
      if off <? i_size x then
        r ← readi dp false de off 16;
        if negb (r =? 16) then panic "dirlink read" else
        inum ← gets (fun s => load16 (f_mem s) de);
        if inum =? 0 then mret off else dirlink_scan fuel' dp (off + 16)
      else mret off
  end.

Definition dirlink (dp name inum : Z) : M F Z :=
  r ← dirlookup dp name;
  if negb (r.1 =? NULL) then iput r.1;; mret (-1) else
  x ← gets (fun s => f_inode s dp);
  off ← dirlink_scan (dir_fuel (i_size x)) dp 0;
  modify (fun s => set_mem (store16 (strncpy (f_mem s) (de + 2) name DIRSIZ) de inum) s);;
  r ← writei dp false de off 16;
  if negb (r =? 16) then mret (-1) else mret 0.

(** ** Paths *)

Definition slash : Z := 47.

(** The loops that advance [path] over slashes, and over the bytes of a name. *)
Fixpoint skip_slashes (fuel : nat) (m : memory) (path : Z) : option Z :=
  match fuel with
  | O => None
  | S fuel' => if rd m path =? slash then skip_slashes fuel' m (path + 1) else Some path
  end.

Fixpoint skip_name (fuel : nat) (m : memory) (path : Z) : option Z :=
  match fuel with
  | O => None
  | S fuel' =>
      if negb (rd m path =? slash) && negb (rd m path =? 0) then skip_name fuel' m (path + 1) else Some path
  end.

(** Paths have at most [MAXPATH] bytes. *)
Definition path_fuel : nat := Z.to_nat MAXPATH.

(** The rest of the path, 0 if there is no element, and the memory with [name]
    set. *)
Definition skipelem (m : memory) (path name : Z) : option (Z * memory) :=
  match skip_slashes path_fuel m path with
  | None => None
  | Some s =>
      if rd m s =? 0 then Some (0, m) else
      match skip_name path_fuel m s with
      | None => None
      | Some path =>
          let len := path - s in
          let m := if DIRSIZ <=? len then memmove m name s DIRSIZ
                   else wr (memmove m name s len) (name + len) 0 in
          match skip_slashes path_fuel m path with
          | None => None
          | Some path => Some (path, m)
          end
      end
  end.

Fixpoint namex_loop (fuel : nat) (ip path : Z) (parent : bool) (name : Z) : M F Z :=
  match fuel with
  | O => diverge
  | S fuel' =>
      m ← gets f_mem;
      match skipelem m path name with
      | None => diverge
      | Some (path, m) =>
          modify (set_mem m);;
          if path =? 0 then
            if parent then iput ip;; mret NULL else mret ip
          else
          ilock ip;;
          x ← gets (fun s => f_inode s ip);
          if negb (i_type x =? T_DIR) then iunlockput ip;; mret NULL else
          if parent && (rd m path =? 0) then iunlock ip;; mret ip else
          r ← dirlookup ip name;
          if r.1 =? NULL then iunlockput ip;; mret NULL else
          iunlockput ip;;
          namex_loop fuel' r.1 path parent name
      end
  end.

Definition namex (path : Z) (parent : bool) (name : Z) : M F Z :=
  m ← gets f_mem;
  ip ← (if rd m path =? slash then iget ROOTDEV ROOTINO else cwd ← gets f_cwd; idup cwd);
  namex_loop (S path_fuel) ip path parent name.

(** The local array [name] of [namei]. *)
Definition namei_name : Z := KSTACK 0 + 16.

Definition namei (path : Z) : M F Z := namex path false namei_name.

Definition nameiparent (path name : Z) : M F Z := namex path true name.
End ops.
