(* ===== verification/FsBlocks.v ===== *)
(** * kernel/fs.c: blocks

    The layout of the disk, the free bitmap, and [balloc] and [bfree] as
    operations on the set of blocks in use. *)

From stdpp Require Import base gmap numbers strings functions list.
From Stdlib Require Import ZifyBool.
From S2P Require Import Prelude Mem Block StringC Spinlock Locks Bio Log LogSpec BlockIO Fs.

Open Scope Z_scope.

Definition with_io {B U} (x : B) (s : fstate B U) : fstate B U :=
  FState x (f_user s) (f_held s) (f_pid s) (f_sb s) (f_inode s) (f_cwd s).

Lemma with_io_self {B U} (s : fstate B U) : with_io (f_io s) s = s.
Proof. now destruct s. Qed.

(** ** Bits *)

Lemma mask_test x bi : (Z.land x (bit_mask bi) =? 0) = negb (Z.testbit x (bi mod 8)).
Proof.
  unfold bit_mask. pose proof (Z.mod_pos_bound bi 8 ltac:(lia)) as Hr. rewrite Z.shiftl_1_l.
  destruct (Z.testbit x (bi mod 8)) eqn:E; cbn [negb].
  - apply Z.eqb_neq. intros H. assert (Z.testbit (Z.land x (2 ^ (bi mod 8))) (bi mod 8) = false) as H' by now rewrite H, Z.bits_0.
    rewrite Z.land_spec, E, Z.pow2_bits_true in H' by lia. done.
  - apply Z.eqb_eq, Z.bits_inj'. intros i Hi. rewrite Z.land_spec, Z.bits_0.
    destruct (Z.eq_dec i (bi mod 8)) as [->|Hne]; [now rewrite E|]. rewrite Z.pow2_bits_false by lia. apply andb_false_r.
Qed.

Lemma set_mask_test x bi i : 0 <= i -> Z.testbit (Z.lor x (bit_mask bi)) i = (i =? bi mod 8) || Z.testbit x i.
Proof.
  intros Hi. unfold bit_mask. pose proof (Z.mod_pos_bound bi 8 ltac:(lia)) as Hr. rewrite Z.shiftl_1_l, Z.lor_spec, Z.pow2_bits_eqb by lia.
  rewrite (Z.eqb_sym (bi mod 8) i). apply orb_comm.
Qed.

Lemma clear_mask_test x bi i :
  0 <= i -> Z.testbit (Z.land x (Z.lnot (bit_mask bi))) i = negb (i =? bi mod 8) && Z.testbit x i.
Proof.
  intros Hi. unfold bit_mask. pose proof (Z.mod_pos_bound bi 8 ltac:(lia)) as Hr.
  rewrite Z.shiftl_1_l, Z.land_spec, Z.lnot_spec, Z.pow2_bits_eqb by lia.
  rewrite (Z.eqb_sym (bi mod 8) i). apply andb_comm.
Qed.

Lemma get8_put8 i j v d :
  0 <= i -> 0 <= j < Z.of_nat (length d) -> get8 i (put8 j v d) = if i =? j then u8 v else get8 i d.
Proof.
  intros Hi Hj. unfold get8, put8. destruct (Z.eqb_spec i j) as [->|Hne].
  - now rewrite list_lookup_insert_eq by lia.
  - now rewrite list_lookup_insert_ne by lia.
Qed.

Lemma u8_test v i : 0 <= i < 8 -> Z.testbit (u8 v) i = Z.testbit v i.
Proof. intros Hi. unfold u8. now rewrite Z.mod_pow2_bits_low by lia. Qed.

(** ** The bitmap *)

(** Bit [bi] of a bitmap block. *)
Definition bit_at (bi : Z) (d : block) : bool := Z.testbit (get8 (bi / 8) d) (bi mod 8).

(** Block [b] is marked in use. *)
Definition used (sb : superblock) (data : Z -> block) (b : Z) : bool := bit_at (b mod BPB) (data (BBLOCK b sb)).

Lemma bit_at_set d bi bj :
  WF_block d -> 0 <= bi < BPB -> 0 <= bj < BPB ->
  bit_at bj (put8 (bi / 8) (Z.lor (get8 (bi / 8) d) (bit_mask bi)) d) = (bj =? bi) || bit_at bj d.
Proof.
  unfold WF_block, BPB, BSIZE. intros Hd Hi Hj. unfold bit_at. rewrite get8_put8 by dlia.
  destruct (Z.eqb_spec (bj / 8) (bi / 8)) as [E|E].
  - rewrite u8_test, set_mask_test, E by dlia. f_equal. destruct (Z.eqb_spec bj bi); destruct (Z.eqb_spec (bj mod 8) (bi mod 8)); dlia.
  - now rewrite (proj2 (Z.eqb_neq bj bi)) by congruence.
Qed.

Lemma bit_at_clear d bi bj :
  WF_block d -> 0 <= bi < BPB -> 0 <= bj < BPB ->
  bit_at bj (put8 (bi / 8) (Z.land (get8 (bi / 8) d) (Z.lnot (bit_mask bi))) d) = negb (bj =? bi) && bit_at bj d.
Proof.
  unfold WF_block, BPB, BSIZE. intros Hd Hi Hj. unfold bit_at. rewrite get8_put8 by dlia.
  destruct (Z.eqb_spec (bj / 8) (bi / 8)) as [E|E].
  - rewrite u8_test, clear_mask_test, E by dlia. f_equal. destruct (Z.eqb_spec bj bi); destruct (Z.eqb_spec (bj mod 8) (bi mod 8)); dlia.
  - now rewrite (proj2 (Z.eqb_neq bj bi)) by congruence.
Qed.

Lemma WF_put8 i v d : WF_block d -> WF_block (put8 i v d).
Proof. unfold WF_block, put8. now rewrite length_insert. Qed.

Lemma find_clear_ok fuel : forall b bi size d,
  0 <= bi -> (Z.to_nat (BPB - bi) <= fuel)%nat ->
  match find_clear fuel b bi size d with
  | Some bj => bi <= bj < BPB /\ b + bj < size /\ bit_at bj d = false /\ forall c, bi <= c < bj -> bit_at c d = true
  | None => forall c, bi <= c < BPB -> b + c < size -> bit_at c d = true
  end.
Proof.
  induction fuel as [|fuel IH]; intros b bi size d Hbi Hf; cbn [find_clear]; [lia|].
  destruct ((bi <? BPB) && (b + bi <? size)) eqn:E; [|lia]. rewrite mask_test. fold (bit_at bi d).
  destruct (bit_at bi d) eqn:Eb; cbn [negb]; [|split; [lia|]; split; [lia|]; split; [done|lia]].
  specialize (IH b (bi + 1) size d ltac:(lia) ltac:(lia)). destruct (find_clear fuel b (bi + 1) size d) as [bj|].
  - destruct IH as (H1 & H2 & H3 & H4). split; [lia|]. split; [done|]. split; [done|]. intros c Hc.
    destruct (Z.eq_dec c bi) as [->|]; [done|]. apply H4. lia.
  - intros c Hc. destruct (Z.eq_dec c bi) as [->|]; [done|]. apply IH. lia.
Qed.

(** ** The layout of the disk *)

(** Where the data blocks begin. *)
Definition datastart (sb : superblock) : Z := sb_bmapstart sb + sb_size sb / BPB + 1.

Record layout (sb : superblock) (h : Z) : Prop := Layout {
  ly_h : 2 <= h;
  ly_log : h + LOGSIZE <= sb_inodestart sb;
  ly_inodes : 0 < sb_ninodes sb /\ sb_inodestart sb + sb_ninodes sb / IPB + 1 <= sb_bmapstart sb;
  ly_size : datastart sb <= sb_size sb < 2^31;
}.

Lemma BBLOCK_range sb h b : layout sb h -> 0 <= b < sb_size sb -> sb_bmapstart sb <= BBLOCK b sb < datastart sb.
Proof.
  intros [_ _ _ H] Hb. unfold BBLOCK, datastart. pose proof (Z.div_le_mono b (sb_size sb) BPB). pose proof (Z.div_pos b BPB).
  unfold BPB, BSIZE in *. lia.
Qed.

Lemma BBLOCK_chunk b bi sb : 0 <= bi < BPB -> BBLOCK (b * BPB + bi) sb = BBLOCK (b * BPB) sb /\ (b * BPB + bi) mod BPB = bi.
Proof. unfold BBLOCK, BPB, BSIZE. intros. split; dlia. Qed.

Section blocks.
Context {B U : Type} `{BIO : BlockIO B} (dev : Z) `{BS : !BlockIOSpec B dev} `{UIO : UserIO U}.
Implicit Types s : fstate B U.

Lemma io_ok {A} (c : M B A) s a x : c (f_io s) = Ok a x -> io c s = Ok a (with_io x s).
Proof. intros E. unfold io. now rewrite E. Qed.

(** [bread] of a block, with its contents. *)
Lemma fbread s D b :
  io_rep (f_io s) D -> b ∉ d_locked D -> (size (d_locked D) <= 1)%nat ->
  exists i x, io (io_bread dev b) s = Ok i (with_io x s) /\ io_rep x (d_lock b D) /\ io_handle x i b /\
    io_data x i = d_data D b /\ forall j c, io_handle (f_io s) j c -> c ∈ d_locked D -> io_handle x j c.
Proof.
  intros HR Hb Hsz. destruct (io_bread_ok (f_io s) D b HR Hb Hsz) as (i & x & H1 & R1 & h1 & k1).
  exists i, x. split; [now apply io_ok|]. split; [done|]. split; [done|]. split; [|done].
  apply (io_read x (d_lock b D) i b R1 h1). cbn. set_solver.
Qed.

(** The block is released unchanged. *)
Lemma frelease s D b i :
  io_rep (f_io s) (d_lock b D) -> io_handle (f_io s) i b -> b ∉ d_locked D ->
  (b ∈ d_logged D \/ d_data D b = d_base D b) ->
  exists x, io (io_brelse i) s = Ok tt (with_io x s) /\ io_rep x D /\
    forall j c, io_handle (f_io s) j c -> io_handle x j c.
Proof.
  intros HR Hi Hb Hc. destruct (io_brelse_ok (f_io s) (d_lock b D) i b HR Hi) as (x & H1 & R1 & k1); [cbn; set_solver|done|].
  rewrite d_unlock_lock in R1 by done. exists x. split; [now apply io_ok|]. done.
Qed.

(** The block is changed, logged and released. *)
Lemma fupdate s D b i d :
  io_rep (f_io s) (d_lock b D) -> io_handle (f_io s) i b -> b ∉ d_locked D -> WF_block d -> d_home D b ->
  (size ({[b]} ∪ d_logged D) <= d_cap D)%nat ->
  exists x, (forall A (k : M (fstate B U) A),
      (io (io_set_data i d);; io (io_log_write i);; io (io_brelse i);; k) s = k (with_io x s)) /\
    (io (io_set_data i d);; io (io_log_write i);; io (io_brelse i)) s = Ok tt (with_io x s) /\
    io_rep x (d_put b d D) /\ forall j c, io_handle (f_io s) j c -> io_handle x j c.
Proof.
  intros HR Hi Hb Hd Hh Hsz.
  destruct (io_set_ok (f_io s) _ i b d HR Hi) as (x1 & H1 & R1 & k1); [cbn; set_solver|done|].
  destruct (io_log_ok x1 _ i b R1) as (x2 & H2 & R2 & k2); [auto|cbn; set_solver|done|done|].
  destruct (io_brelse_ok x2 _ i b R2) as (x3 & H3 & R3 & k3); [auto|cbn; set_solver|cbn; set_solver|].
  rewrite d_put_eq in R3 by done. exists x3. apply io_ok in H1.
  pose proof (io_ok _ (with_io x1 s) _ _ H2) as H2'. pose proof (io_ok _ (with_io x2 (with_io x1 s)) _ _ H3) as H3'.
  split; [intros A k; now rewrite (bind_ok _ _ _ _ _ H1), (bind_ok _ _ _ _ _ H2'), (bind_ok _ _ _ _ _ H3')|].
  split; [now rewrite (bind_ok _ _ _ _ _ H1), (bind_ok _ _ _ _ _ H2')|]. split; [done|auto].
Qed.

Definition zeros : block := replicate (Z.to_nat BSIZE) 0.

Lemma WF_zeros : WF_block zeros.
Proof. unfold WF_block, zeros. rewrite length_replicate. unfold BSIZE. lia. Qed.

Lemma bzero_ok s D b :
  io_rep (f_io s) D -> b ∉ d_locked D -> (size (d_locked D) <= 1)%nat -> d_home D b ->
  (size ({[b]} ∪ d_logged D) <= d_cap D)%nat ->
  exists x, bzero dev b s = Ok tt (with_io x s) /\ io_rep x (d_put b zeros D) /\
    forall j c, io_handle (f_io s) j c -> c ∈ d_locked D -> io_handle x j c.
Proof.
  intros HR Hb Hsz Hh Hcap. destruct (fbread s D b HR Hb Hsz) as (i & x1 & H1 & R1 & h1 & _ & k1).
  unfold bzero. rewrite (bind_ok _ _ _ _ _ H1).
  destruct (fupdate (with_io x1 s) D b i zeros R1 h1 Hb WF_zeros Hh Hcap) as (x & _ & H2 & R2 & k2).
  exists x. split; [exact H2|]. split; [done|]. auto.
Qed.

Lemma size_add (b : Z) (X : gset Z) : (size ({[b]} ∪ X) <= S (size X))%nat.
Proof.
  rewrite size_union_alt, size_singleton. assert (X ∖ {[b]} ⊆ X) as Hs%subseteq_size by set_solver. lia.
Qed.

(** ** Log space *)

(** Room in the log for [n] blocks besides those of [T]. *)
Definition budget (T : gset Z) (D : dview) (n : nat) : Prop := (size (T ∪ d_logged D) + n <= d_cap D)%nat.

Lemma budget_log T D n b : budget T D n -> b ∈ T \/ (0 < n)%nat -> (size ({[b]} ∪ d_logged D) <= d_cap D)%nat.
Proof.
  unfold budget. intros Hb [Hin|Hn].
  - assert ({[b]} ∪ d_logged D ⊆ T ∪ d_logged D) as Hs%subseteq_size by set_solver. lia.
  - pose proof (size_add b (d_logged D)). assert (d_logged D ⊆ T ∪ d_logged D) as Hs%subseteq_size by set_solver. lia.
Qed.

Lemma budget_in T D n b d : budget T D n -> b ∈ T ∪ d_logged D -> budget T (d_put b d D) n.
Proof.
  unfold budget. intros Hb Hin. cbn. replace (T ∪ ({[b]} ∪ d_logged D)) with (T ∪ d_logged D) by set_solver. done.
Qed.

Lemma budget_put T D n b d : budget T D (S n) -> budget T (d_put b d D) n.
Proof.
  unfold budget. intros Hb. cbn. pose proof (size_add b (T ∪ d_logged D)).
  replace (T ∪ ({[b]} ∪ d_logged D)) with ({[b]} ∪ (T ∪ d_logged D)) by set_solver. lia.
Qed.

Lemma budget_le T D m n : (m <= n)%nat -> budget T D n -> budget T D m.
Proof. unfold budget. lia. Qed.

(** The blocks of the bitmap. *)
Definition bmaps (sb : superblock) : gset Z := list_to_set (seqZ (sb_bmapstart sb) (sb_size sb / BPB + 1)).

Lemma BBLOCK_bmaps sb h b : layout sb h -> 0 <= b < sb_size sb -> BBLOCK b sb ∈ bmaps sb.
Proof.
  intros HL Hb. apply elem_of_list_to_set, elem_of_seqZ. pose proof (BBLOCK_range sb h b HL Hb). unfold datastart in *. lia.
Qed.

(** ** balloc and bfree *)

Definition set_bit (sb : superblock) (b : Z) (D : dview) : dview :=
  let bi := b mod BPB in let d := d_data D (BBLOCK b sb) in
  d_put (BBLOCK b sb) (put8 (bi / 8) (Z.lor (get8 (bi / 8) d) (bit_mask bi)) d) D.

Definition clear_bit (sb : superblock) (b : Z) (D : dview) : dview :=
  let bi := b mod BPB in let d := d_data D (BBLOCK b sb) in
  d_put (BBLOCK b sb) (put8 (bi / 8) (Z.land (get8 (bi / 8) d) (Z.lnot (bit_mask bi))) d) D.

(** [b] taken: marked in use and zeroed. *)
Definition d_alloc (sb : superblock) (b : Z) (D : dview) : dview := d_put b zeros (set_bit sb b D).

(** The blocks outside the data area are marked in use, and the buffers the
    thread holds are of data blocks in use. *)
Definition bitmap_ok (sb : superblock) (D : dview) : Prop :=
  (forall b, 0 <= b < datastart sb -> used sb (d_data D) b = true) /\
  (forall c, c ∈ d_locked D -> datastart sb <= c < sb_size sb /\ used sb (d_data D) c = true).

(** The first block not in use from [b]. *)
Definition first_free (sb : superblock) (D : dview) (b : Z) : Prop :=
  0 <= b < sb_size sb /\ used sb (d_data D) b = false /\ forall c, 0 <= c < b -> used sb (d_data D) c = true.

Lemma home_data sb h D b : layout sb h -> d_start D = h -> sb_inodestart sb <= b < sb_size sb -> d_home D b.
Proof. intros [? ? ? ?] Hst Hb. unfold d_home, in_log. unfold LOGSIZE, MAXOPBLOCKS in *. lia. Qed.

Lemma bitmap_home sb h D b : layout sb h -> d_start D = h -> 0 <= b < sb_size sb -> d_home D (BBLOCK b sb).
Proof.
  intros HL Hst Hb. pose proof (BBLOCK_range sb h b HL Hb). pose proof HL as [? ? [? ?] ?]. apply (home_data sb h); [done|done|].
  pose proof (Z.div_pos (sb_ninodes sb) IPB ltac:(lia) ltac:(done)). lia.
Qed.

Lemma bitmap_unlocked sb h D b :
  layout sb h -> bitmap_ok sb D -> 0 <= b < sb_size sb -> BBLOCK b sb ∉ d_locked D.
Proof. intros HL [_ Hl] Hb Hin. pose proof (BBLOCK_range sb h b HL Hb). specialize (Hl _ Hin). lia. Qed.

Lemma free_is_data sb D b : bitmap_ok sb D -> first_free sb D b -> datastart sb <= b < sb_size sb /\ b ∉ d_locked D.
Proof.
  intros [Hm Hl] (Hb & Hu & _). split.
  - destruct (Z_lt_le_dec b (datastart sb)); [|lia]. rewrite Hm in Hu by lia. done.
  - intros Hin. apply Hl in Hin as [_ E]. congruence.
Qed.

(** What [balloc] returns, and the view and handles it leaves. *)
Definition balloc_post (sb : superblock) (D : dview) s (r : outcome (fstate B U) Z) : Prop :=
  (exists b x, first_free sb D b /\ r = Ok b (with_io x s) /\ io_rep x (d_alloc sb b D) /\
     forall j c, io_handle (f_io s) j c -> c ∈ d_locked D -> io_handle x j c) \/
  ((forall c, 0 <= c < sb_size sb -> used sb (d_data D) c = true) /\
   exists x, r = Ok 0 (with_io x s) /\ io_rep x D /\
     forall j c, io_handle (f_io s) j c -> c ∈ d_locked D -> io_handle x j c).

Lemma balloc_loop_ok sb T D fuel : forall s k,
  f_sb s = sb -> layout sb (d_start D) -> io_rep (f_io s) D -> (size (d_locked D) <= 1)%nat -> bitmap_ok sb D ->
  bmaps sb ⊆ T -> budget T D 1 -> 0 <= k -> (forall c, 0 <= c < k * BPB -> c < sb_size sb -> used sb (d_data D) c = true) ->
  (Z.to_nat (sb_size sb / BPB + 1 - k) < fuel)%nat ->
  balloc_post sb D s (balloc_loop fuel dev (k * BPB) s).
Proof.
  induction fuel as [|fuel IH]; intros s k Hsb HL HR Hlk HB HT Hcap Hk Hbelow Hf; [lia|]. cbn [balloc_loop].
  erewrite bind_ok by reflexivity. rewrite Hsb. destruct (Z.ltb_spec (k * BPB) (sb_size sb)) as [Hlt|Hge].
  2: { right. split; [intros c Hc; apply Hbelow; lia|]. exists (f_io s). split; [now destruct s|]. done. }
  assert (0 <= k * BPB) as Hk0 by (unfold BPB, BSIZE; lia).
  pose proof (bitmap_unlocked sb _ D _ HL HB (conj Hk0 Hlt)) as Hnl.
  destruct (fbread s D (BBLOCK (k * BPB) sb) HR Hnl Hlk) as (i & x1 & H1 & R1 & h1 & D1 & k1).
  rewrite (bind_ok _ _ _ _ _ H1). erewrite bind_ok by reflexivity. cbn [f_io with_io]. rewrite D1.
  set (d := d_data D (BBLOCK (k * BPB) sb)).
  pose proof (find_clear_ok (Z.to_nat BPB) (k * BPB) 0 (sb_size sb) d ltac:(lia) ltac:(lia)) as Hfind.
  assert (forall c, 0 <= c < BPB -> used sb (d_data D) (k * BPB + c) = bit_at c d) as Hu.
  { intros c Hc. unfold used. destruct (BBLOCK_chunk k c sb Hc) as [-> ->]. done. }
  destruct (find_clear _ _ _ _ _) as [bi|].
  - destruct Hfind as (Hbi & Hsz & Hclear & Hset). left. exists (k * BPB + bi).
    assert (first_free sb D (k * BPB + bi)) as Hff.
    { split; [lia|]. split; [now rewrite Hu|]. intros c Hc. destruct (Z_lt_le_dec c (k * BPB)); [apply Hbelow; lia|].
      replace c with (k * BPB + (c - k * BPB)) by lia. rewrite Hu by lia. apply Hset. lia. }
    destruct (free_is_data sb D _ HB Hff) as [Hdata Hnb].
    destruct (BBLOCK_chunk k bi sb ltac:(lia)) as [Eb Em].
    assert (BBLOCK (k * BPB) sb ∈ T) as HbT by (apply HT, (BBLOCK_bmaps sb (d_start D)); [done|lia]).
    match goal with |- context [io (io_set_data i ?dd)] => set (d' := dd) end.
    assert (d_put (BBLOCK (k * BPB) sb) d' D = set_bit sb (k * BPB + bi) D) as ED by (unfold set_bit; now rewrite Eb, Em).
    destruct (fupdate (with_io x1 s) D (BBLOCK (k * BPB) sb) i d') as (x2 & H2 & _ & R2 & k2);
      [done|done|done|apply WF_put8, (io_wf _ _ _ HR)|now apply (bitmap_home sb (d_start D)); [| |lia]|eapply budget_log; eauto|].
    rewrite ED in R2. rewrite H2. change (with_io x2 (with_io x1 s)) with (with_io x2 s).
    destruct (bzero_ok (with_io x2 s) _ (k * BPB + bi) R2) as (x3 & H3 & R3 & k3);
      [done|done| |eapply (budget_log T); [|right; exact Nat.lt_0_1]; unfold set_bit; rewrite Eb; apply budget_in; [done|set_solver]|].
    { apply (home_data sb (d_start D)); [done|done|]. pose proof (BBLOCK_range sb _ _ HL (conj Hk0 Hlt)).
      pose proof (ly_inodes _ _ HL). pose proof (Z.div_pos (sb_ninodes sb) IPB ltac:(lia) ltac:(done)). lia. }
    exists x3. split; [done|]. rewrite (bind_ok _ _ _ _ _ H3). split; [done|]. split; [exact R3|].
    intros j c Hj Hc. apply k3; [|done]. apply k2. auto.
  - destruct (frelease (with_io x1 s) D _ i R1 h1 Hnl (io_clean _ _ _ HR Hnl)) as (x2 & H2 & R2 & k2).
    rewrite (bind_ok _ _ _ _ _ H2). change (with_io x2 (with_io x1 s)) with (with_io x2 s).
    replace (k * BPB + BPB) with ((k + 1) * BPB) by lia.
    assert (k < sb_size sb / BPB + 1) as Hk1 by (unfold BPB, BSIZE in *; dlia).
    destruct (IH (with_io x2 s) (k + 1)) as [(b & x & F & E & R & kk)|(F & x & E & R & kk)]; try done; try lia.
    + intros c Hc Hc'. destruct (Z_lt_le_dec c (k * BPB)); [apply Hbelow; lia|].
      replace c with (k * BPB + (c - k * BPB)) by lia. rewrite Hu by lia. apply Hfind; lia.
    + left. exists b, x. split; [done|]. split; [exact E|]. split; [done|]. intros j c Hj Hc. apply kk; auto.
    + right. split; [done|]. exists x. split; [exact E|]. split; [done|]. intros j c Hj Hc. apply kk; auto.
Qed.

Lemma balloc_ok s T D :
  let sb := f_sb s in
  layout sb (d_start D) -> io_rep (f_io s) D -> (size (d_locked D) <= 1)%nat -> bitmap_ok sb D ->
  bmaps sb ⊆ T -> budget T D 1 -> balloc_post sb D s (balloc dev s).
Proof.
  intros sb HL HR Hlk HB HT Hcap. unfold balloc. erewrite bind_ok by reflexivity. fold sb.
  apply (balloc_loop_ok sb T D _ s 0); try done; try lia; intros; unfold BPB, BSIZE in *; lia.
Qed.

Lemma bfree_ok s T D b :
  let sb := f_sb s in
  layout sb (d_start D) -> io_rep (f_io s) D -> (size (d_locked D) <= 1)%nat -> bitmap_ok sb D ->
  bmaps sb ⊆ T -> budget T D 0 -> 0 <= b < sb_size sb ->
  if used sb (d_data D) b then
    exists x, bfree dev b s = Ok tt (with_io x s) /\ io_rep x (clear_bit sb b D) /\
      forall j c, io_handle (f_io s) j c -> c ∈ d_locked D -> io_handle x j c
  else bfree dev b s = Panic "freeing free block".
Proof.
  intros sb HL HR Hlk HB HT Hcap Hb. pose proof (bitmap_unlocked sb _ D b HL HB Hb) as Hnl.
  unfold bfree. erewrite bind_ok by reflexivity. fold sb.
  destruct (fbread s D (BBLOCK b sb) HR Hnl Hlk) as (i & x1 & H1 & R1 & h1 & D1 & k1).
  rewrite (bind_ok _ _ _ _ _ H1). cbn zeta. erewrite bind_ok by reflexivity. cbn [f_io with_io]. rewrite D1, mask_test.
  assert (forall x, x mod BPB mod 8 = x mod 8) as Hmm by (intros x; unfold BPB, BSIZE; dlia).
  unfold used, bit_at. destruct (Z.testbit _ _); cbn [negb]; [|done].
  assert (BBLOCK b sb ∈ T) as HbT by (apply HT, (BBLOCK_bmaps sb (d_start D)); done).
  match goal with |- context [io (io_set_data i ?dd)] => set (d' := dd) end.
  destruct (fupdate (with_io x1 s) D (BBLOCK b sb) i d') as (x2 & _ & H2 & R2 & k2);
    [done|done|done|apply WF_put8, (io_wf _ _ _ HR)|now apply (bitmap_home sb (d_start D))|eapply budget_log; eauto|].
  exists x2. split; [exact H2|]. split; [exact R2|]. auto.
Qed.

(** ** The bitmap after the operations *)

Lemma used_put sb D b c d :
  used sb (d_data (d_put b d D)) c = if BBLOCK c sb =? b then bit_at (c mod BPB) d else used sb (d_data D) c.
Proof.
  unfold used. cbn. destruct (Z.eqb_spec (BBLOCK c sb) b) as [->|Hne]; [now rewrite fn_lookup_insert|now rewrite fn_lookup_insert_ne].
Qed.

Lemma same_bit b c sb : BBLOCK c sb = BBLOCK b sb -> (c mod BPB =? b mod BPB) = (c =? b).
Proof.
  unfold BBLOCK, BPB, BSIZE. intros E. destruct (Z.eqb_spec c b) as [->|Hne]; [apply Z.eqb_refl|].
  apply Z.eqb_neq. intros E'. apply Hne. dlia.
Qed.

Lemma mod_BPB x : 0 <= x mod BPB < BPB.
Proof. apply Z.mod_pos_bound. done. Qed.

Lemma used_set_bit sb D b c :
  WF_block (d_data D (BBLOCK b sb)) -> used sb (d_data (set_bit sb b D)) c = (c =? b) || used sb (d_data D) c.
Proof.
  intros HW. unfold set_bit. rewrite used_put. destruct (Z.eqb_spec (BBLOCK c sb) (BBLOCK b sb)) as [E|E].
  - rewrite bit_at_set, (same_bit b c sb E) by (done || apply mod_BPB). unfold used. now rewrite E.
  - destruct (Z.eqb_spec c b) as [->|]; [done|]. done.
Qed.

Lemma used_clear_bit sb D b c :
  WF_block (d_data D (BBLOCK b sb)) -> used sb (d_data (clear_bit sb b D)) c = negb (c =? b) && used sb (d_data D) c.
Proof.
  intros HW. unfold clear_bit. rewrite used_put. destruct (Z.eqb_spec (BBLOCK c sb) (BBLOCK b sb)) as [E|E].
  - rewrite bit_at_clear, (same_bit b c sb E) by (done || apply mod_BPB). unfold used. now rewrite E.
  - destruct (Z.eqb_spec c b) as [->|]; [done|]. done.
Qed.

(** Allocation changes one bit, zeroes the block, and touches no other block
    but the bitmap's. *)
Lemma d_alloc_spec sb h D b :
  layout sb h -> WF_block (d_data D (BBLOCK b sb)) -> datastart sb <= b < sb_size sb ->
  (forall c, 0 <= c < sb_size sb -> used sb (d_data (d_alloc sb b D)) c = (c =? b) || used sb (d_data D) c) /\
  d_data (d_alloc sb b D) b = zeros /\
  forall c, c <> b -> c <> BBLOCK b sb -> d_data (d_alloc sb b D) c = d_data D c.
Proof.
  intros HL HW Hb. unfold d_alloc. split; [|split].
  - intros c Hc. rewrite used_put. pose proof (BBLOCK_range sb h c HL Hc).
    rewrite (proj2 (Z.eqb_neq (BBLOCK c sb) b)) by lia. now apply used_set_bit.
  - cbn. apply fn_lookup_insert.
  - intros c H1 H2. cbn. now rewrite !fn_lookup_insert_ne.
Qed.
End blocks.
