(* ===== verification/FsInode.v ===== *)
(** * kernel/fs.c: inodes on disk

    The encoding of [struct dinode] and of the superblock, [iupdate], and the
    reading of an inode by [ilock]. *)

From stdpp Require Import base gmap numbers strings functions list.
From Stdlib Require Import ZifyBool.
From S2P Require Import Prelude Mem Block StringC Spinlock Locks Bio Log LogSpec BlockIO Fs FsBlocks.

Open Scope Z_scope.

(** ** Words in a block *)

Lemma put_words_spec ws : forall off d,
  0 <= off -> off + 4 * Z.of_nat (length ws) <= Z.of_nat (length d) ->
  length (put_words off ws d) = length d /\
  (forall i n, 0 <= i -> 0 <= n -> i + n <= off \/ off + 4 * Z.of_nat (length ws) <= i ->
     slice i n (put_words off ws d) = slice i n d).
Proof.
  induction ws as [|w ws IH]; intros off d Ho Hl; cbn [put_words length] in *; [done|].
  destruct (IH (off + 4) (put32 off w d)) as [H1 H2]; [lia|rewrite length_put32; lia|].
  split; [rewrite H1; apply length_put32; lia|].
  intros i n Hi Hn Hd. rewrite H2 by lia. apply slice_put32; lia.
Qed.

Lemma get_put_words ws : forall off d,
  0 <= off -> off + 4 * Z.of_nat (length ws) <= Z.of_nat (length d) ->
  get_words (length ws) off (put_words off ws d) = u32 <$> ws.
Proof.
  induction ws as [|w ws IH]; intros off d Ho Hl; cbn [put_words length get_words] in *; [done|].
  rewrite fmap_cons. f_equal.
  - unfold get32. destruct (put_words_spec ws (off + 4) (put32 off w d)) as [_ H]; [lia|rewrite length_put32; lia|].
    rewrite H by lia. apply get32_put32; lia.
  - apply IH; [lia|rewrite length_put32; lia].
Qed.

Lemma get_words_ext k : forall off d d',
  0 <= off -> (forall i n, off <= i -> 0 <= n -> i + n <= off + 4 * Z.of_nat k -> slice i n d' = slice i n d) ->
  get_words k off d' = get_words k off d.
Proof.
  induction k as [|k IH]; intros off d d' Ho H; cbn [get_words]; [done|]. f_equal.
  - unfold get32. now rewrite H by lia.
  - apply IH; [lia|]. intros i n Hi Hn Hin. apply H; lia.
Qed.

Lemma length_get_words k off d : length (get_words k off d) = k.
Proof. revert off. induction k as [|k IH]; intros off; cbn; auto. Qed.

Lemma lookup_get_words k : forall off d i, (i < k)%nat -> get_words k off d !! i = Some (get32 (off + 4 * Z.of_nat i) d).
Proof.
  induction k as [|k IH]; intros off d i Hi; [lia|]. destruct i as [|i]; cbn [get_words lookup list_lookup].
  - do 2 f_equal. lia.
  - rewrite IH by lia. do 2 f_equal. lia.
Qed.

(** Bounds on the lengths of updated blocks. *)
Ltac blen := repeat first [lia | rewrite length_put32 | rewrite length_put16].

(** ** struct dinode *)

(** Values the fields can hold. *)
Definition is_i16 (x : Z) : Prop := - 2^15 <= x < 2^15.

Record dinode_ok (x : dinode) : Prop := DinodeOk {
  dn_type : is_i16 (di_type x);
  dn_major : is_i16 (di_major x);
  dn_minor : is_i16 (di_minor x);
  dn_nlink : is_i16 (di_nlink x);
  dn_size : is_u32 (di_size x);
  dn_len : length (di_addrs x) = Z.to_nat (NDIRECT + 1);
  dn_addrs : Forall is_u32 (di_addrs x);
}.

Lemma i16_u16 x : is_i16 x -> i16 (u16 x) = x.
Proof. unfold is_i16, i16, u16. intros H. rewrite Z.add_mod_idemp_l by lia. rewrite Z.mod_small; lia. Qed.

Lemma u32_map ws : Forall is_u32 ws -> u32 <$> ws = ws.
Proof. induction 1 as [|w ws Hw _ IH]; [done|]. rewrite fmap_cons, IH, u32_small; done. Qed.

(** The 64 bytes of an inode: reading elsewhere is unaffected by [put_dinode]. *)
Lemma put_dinode_spec off x d :
  length (di_addrs x) = Z.to_nat (NDIRECT + 1) -> 0 <= off -> off + 64 <= Z.of_nat (length d) ->
  length (put_dinode off x d) = length d /\
  (forall i n, 0 <= i -> 0 <= n -> i + n <= off \/ off + 64 <= i ->
     slice i n (put_dinode off x d) = slice i n d).
Proof.
  intros Hlen Ho Hl. unfold put_dinode. change (Z.to_nat (NDIRECT + 1)) with 13%nat in Hlen.
  destruct (put_words_spec (di_addrs x) (off + 12)
    (put32 (off + 8) (di_size x) (put16 (off + 6) (di_nlink x) (put16 (off + 4) (di_minor x)
      (put16 (off + 2) (di_major x) (put16 off (di_type x) d)))))) as [H1 H2].
  - lia.
  - blen.
  - split.
    + rewrite H1. blen.
    + intros i n Hi Hn Hd. rewrite H2, slice_put32, !slice_put16; blen; done.
Qed.

Lemma get_put_dinode off x d :
  dinode_ok x -> 0 <= off -> off + 64 <= Z.of_nat (length d) -> get_dinode off (put_dinode off x d) = x.
Proof.
  intros [H1 H2 H3 H4 H5 Hlen H6] Ho Hl. pose proof Hlen as Hlen'. change (Z.to_nat (NDIRECT + 1)) with 13%nat in Hlen'.
  unfold get_dinode, put_dinode. set (d1 := put16 off (di_type x) d). set (d2 := put16 (off + 2) (di_major x) d1).
  set (d3 := put16 (off + 4) (di_minor x) d2). set (d4 := put16 (off + 6) (di_nlink x) d3).
  set (d5 := put32 (off + 8) (di_size x) d4).
  assert (length d1 = length d) as L1 by (apply length_put16; lia).
  assert (length d2 = length d) as L2 by (rewrite <- L1; apply length_put16; lia).
  assert (length d3 = length d) as L3 by (rewrite <- L2; apply length_put16; lia).
  assert (length d4 = length d) as L4 by (rewrite <- L3; apply length_put16; lia).
  assert (length d5 = length d) as L5 by (rewrite <- L4; apply length_put32; lia).
  destruct (put_words_spec (di_addrs x) (off + 12) d5) as [_ Hw]; [lia|lia|].
  rewrite <- Hlen, get_put_words, u32_map by (done || lia).
  assert (forall i, off <= i -> i + 2 <= off + 12 -> get16 i (put_words (off + 12) (di_addrs x) d5) = get16 i d5) as G16.
  { intros i Hi Hi'. unfold get16. now rewrite Hw by lia. }
  rewrite !G16 by lia. unfold get32 at 1. rewrite Hw by lia. fold (get32 (off + 8) d5).
  unfold get16. unfold d5. rewrite !slice_put32 by lia. unfold d4. rewrite !slice_put16 by lia. fold d4.
  unfold d3. rewrite !slice_put16 by lia. fold d3. unfold d2. rewrite !slice_put16 by lia. fold d2.
  fold (get16 off d1) (get16 (off + 2) d2) (get16 (off + 4) d3) (get16 (off + 6) d4).
  unfold d1, d2, d3, d4. rewrite !get16_put16, get32_put32 by (fold d1; fold d2; fold d3; fold d4; lia).
  rewrite !i16_u16, u32_small by done. now destruct x.
Qed.

Lemma get_dinode_ext off d d' :
  0 <= off -> (forall i n, off <= i -> 0 <= n -> i + n <= off + 64 -> slice i n d' = slice i n d) ->
  get_dinode off d' = get_dinode off d.
Proof.
  intros Ho H. unfold get_dinode, get16, get32. rewrite !H by lia. f_equal.
  apply get_words_ext; [lia|]. intros i n Hi Hn Hin. change (Z.of_nat (Z.to_nat (NDIRECT + 1))) with 13 in Hin. apply H; lia.
Qed.

Lemma ioff_range inum : 0 <= ioff inum /\ ioff inum + 64 <= BSIZE.
Proof. unfold ioff, IPB, BSIZE. pose proof (Z.mod_pos_bound inum 16). change (1024 / 64) with 16. lia. Qed.

(** The inode [inum] on disk. *)
Definition disk_inode (sb : superblock) (data : Z -> block) (inum : Z) : dinode :=
  get_dinode (ioff inum) (data (IBLOCK inum sb)).

Definition put_inode (sb : superblock) (inum : Z) (x : dinode) (D : dview) : dview :=
  d_put (IBLOCK inum sb) (put_dinode (ioff inum) x (d_data D (IBLOCK inum sb))) D.

Lemma disk_put_inode sb inum x D i :
  dinode_ok x -> WF_block (d_data D (IBLOCK inum sb)) -> 0 <= inum -> 0 <= i ->
  disk_inode sb (d_data (put_inode sb inum x D)) i = if i =? inum then x else disk_inode sb (d_data D) i.
Proof.
  intros Hx HW Hin Hi. unfold disk_inode, put_inode. cbn. pose proof (ioff_range inum) as Ho. pose proof (ioff_range i).
  unfold WF_block in HW. destruct (Z.eqb_spec i inum) as [->|Hne].
  - rewrite fn_lookup_insert. apply get_put_dinode; [done|lia|lia].
  - destruct (Z.eq_dec (IBLOCK i sb) (IBLOCK inum sb)) as [E|E]; [|now rewrite fn_lookup_insert_ne].
    rewrite E, fn_lookup_insert. apply get_dinode_ext; [lia|]. intros k n Hk Hn Hkn.
    apply (put_dinode_spec (ioff inum) x); [apply Hx|lia|lia|lia|lia|].
    unfold ioff, IBLOCK, IPB, BSIZE in *. change (1024 / 64) with 16 in *. dlia.
Qed.
