(* ===== verification/FsFile.v ===== *)
(** * kernel/fs.c: the blocks of a file

    The map from the blocks of a file to disk blocks, the invariant of a file's
    blocks, and [bmap], which extends the map. *)

From stdpp Require Import base gmap numbers strings functions list.
From Stdlib Require Import ZifyBool.
From S2P Require Import Prelude Mem Block StringC Spinlock Locks Bio Log LogSpec BlockIO Fs FsBlocks FsInode.

Open Scope Z_scope.

Lemma file_consts : MAXFILE = 268 /\ NINDIRECT = 256 /\ NDIRECT = 12 /\ BSIZE = 1024 /\ BPB = 8192.
Proof. done. Qed.

(** The disk block of block [bn] of a file; 0 if there is none. *)
Definition file_addr (data : Z -> block) (x : dinode) (bn : Z) : Z :=
  if bn <? NDIRECT then addr x bn
  else if addr x NDIRECT =? 0 then 0
  else get32 (4 * (bn - NDIRECT)) (data (addr x NDIRECT)).

(** A data block in use. *)
Definition data_block (sb : superblock) (D : dview) (b : Z) : Prop :=
  datastart sb <= b < sb_size sb /\ used sb (d_data D) b = true.

(** The blocks [fa] and the indirect block [ind] of a file of [size] bytes:
    enough of them, in use, distinct. *)
Record blocks_ok (sb : superblock) (D : dview) (fa : Z -> Z) (ind size : Z) : Prop := BlocksOk {
  bo_size : 0 <= size <= MAXFILE * BSIZE;
  bo_alloc bn : 0 <= bn -> bn * BSIZE < size -> fa bn <> 0;
  bo_data bn : 0 <= bn < MAXFILE -> fa bn <> 0 -> data_block sb D (fa bn);
  bo_ind : ind <> 0 -> data_block sb D ind /\ forall bn, 0 <= bn < MAXFILE -> fa bn <> ind;
  bo_none : ind = 0 -> forall bn, NDIRECT <= bn < MAXFILE -> fa bn = 0;
  bo_inj bn bn' : 0 <= bn < MAXFILE -> 0 <= bn' < MAXFILE -> fa bn <> 0 -> fa bn = fa bn' -> bn = bn';
}.

Definition file_ok (sb : superblock) (D : dview) (x : dinode) : Prop :=
  dinode_ok x /\ blocks_ok sb D (file_addr (d_data D) x) (addr x NDIRECT) (di_size x).

(** [D'] extends [D]: blocks in use stay so, and only free blocks, the bitmap
    and the blocks of [W] change. *)
Record extends (sb : superblock) (W : Z -> Prop) (D D' : dview) : Prop := Extends {
  ex_locked : d_locked D' = d_locked D;
  ex_base : d_base D' = d_base D;
  ex_cap : d_cap D' = d_cap D;
  ex_start : d_start D' = d_start D;
  ex_writes : d_writes D' = d_writes D;
  ex_logged : d_logged D ⊆ d_logged D';
  ex_used b : 0 <= b < sb_size sb -> used sb (d_data D) b = true -> used sb (d_data D') b = true;
  ex_meta b : 0 <= b < sb_bmapstart sb -> ~ W b -> d_data D' b = d_data D b;
  ex_data b : data_block sb D b -> ~ W b -> d_data D' b = d_data D b;
}.

Lemma layout_pos sb h : layout sb h -> 0 < sb_bmapstart sb /\ sb_bmapstart sb < datastart sb /\ sb_inodestart sb < sb_bmapstart sb /\ 0 < sb_inodestart sb.
Proof.
  intros [H1 H2 H3 H4]. unfold datastart in *. unfold LOGSIZE, MAXOPBLOCKS in *.
  pose proof (Z.div_pos (sb_ninodes sb) IPB ltac:(lia) ltac:(done)).
  destruct (Z_lt_le_dec (sb_size sb) 0) as [Hneg|Hpos].
  - exfalso. pose proof (Z.div_le_mono (sb_size sb) 0 BPB ltac:(done) ltac:(lia)) as Hd.
    assert (sb_size sb <= sb_size sb / BPB) by (unfold BPB, BSIZE in *; dlia). lia.
  - pose proof (Z.div_pos (sb_size sb) BPB ltac:(lia) ltac:(done)). lia.
Qed.

Lemma extends_refl sb W D : extends sb W D D.
Proof. now split. Qed.

Lemma data_block_mono sb h W D D' b : layout sb h -> extends sb W D D' -> data_block sb D b -> data_block sb D' b.
Proof.
  intros HL HE [Hb Hu]. split; [done|]. apply (ex_used _ _ _ _ HE); [|done]. pose proof (layout_pos sb h HL). lia.
Qed.

Lemma extends_trans sb h W D1 D2 D3 :
  layout sb h -> extends sb W D1 D2 -> extends sb W D2 D3 -> extends sb W D1 D3.
Proof.
  intros HL H12 H23. pose proof H12 as [A1 A2 A3 A4 A5 A6 A7 A8 A9]. pose proof H23 as [B1 B2 B3 B4 B5 B6 B7 B8 B9].
  split; try congruence.
  - set_solver.
  - auto.
  - intros b Hb Hw. rewrite B8, A8; done.
  - intros b Hb Hw. rewrite B9, A9; try done. eapply data_block_mono; eassumption.
Qed.

Lemma extends_weaken sb (W W' : Z -> Prop) D D' : (forall b, W b -> W' b) -> extends sb W D D' -> extends sb W' D D'.
Proof. intros HW [A1 A2 A3 A4 A5 A6 A7 A8 A9]. split; auto. Qed.

(** Blocks outside [W] that change were free: then [W] may be taken smaller. *)
Lemma extends_drop sb (W W' : Z -> Prop) D D' :
  (forall b, W b -> ~ W' b -> ~ data_block sb D b /\ ~ 0 <= b < sb_bmapstart sb) -> extends sb W D D' -> extends sb W' D D'.
Proof.
  intros HW [A1 A2 A3 A4 A5 A6 A7 A8 A9]. split; try done.
  - intros b Hb Hn. apply A8; [done|]. intros Hw. destruct (HW b Hw Hn). auto.
  - intros b Hb Hn. apply A9; [done|]. intros Hw. destruct (HW b Hw Hn). auto.
Qed.

(** Allocation extends. *)
Lemma alloc_extends sb W D b :
  layout sb (d_start D) -> WF_block (d_data D (BBLOCK b sb)) -> bitmap_ok sb D -> first_free sb D b ->
  extends sb W D (d_alloc sb b D) /\ data_block sb (d_alloc sb b D) b /\ ~ data_block sb D b /\ bitmap_ok sb (d_alloc sb b D).
Proof.
  intros HL HW HB HF. destruct (free_is_data sb D b HB HF) as [Hb Hnl]. pose proof HF as (Hb0 & Hu & _).
  destruct (d_alloc_spec sb _ D b HL HW Hb) as (S1 & S2 & S3). pose proof (layout_pos sb _ HL) as HP.
  pose proof (BBLOCK_range sb _ b HL Hb0) as HBR.
  assert (forall c, 0 <= c < sb_size sb -> used sb (d_data D) c = true -> used sb (d_data (d_alloc sb b D)) c = true) as Hmono.
  { intros c Hc E. rewrite S1, E by done. apply orb_true_r. }
  split; [|split; [|split]].
  - split; try done.
    + cbn. set_solver.
    + intros c Hc _. apply S3; lia.
    + intros c [Hc E] _. apply S3; [intros ->; congruence|lia].
  - split; [done|]. rewrite S1 by done. rewrite Z.eqb_refl. done.
  - intros [_ E]. congruence.
  - destruct HB as [B1 B2]. split.
    + intros c Hc. apply Hmono; [|auto]. pose proof (ly_size _ _ HL). lia.
    + intros c Hc. destruct (B2 c Hc) as [H1 H2]. split; [done|]. apply Hmono; [lia|done].
Qed.

(** So does writing a block of [W]. *)
Lemma put_used sb h D b d c :
  layout sb h -> datastart sb <= b -> 0 <= c < sb_size sb -> used sb (d_data (d_put b d D)) c = used sb (d_data D) c.
Proof.
  intros HL Hb Hc. rewrite used_put. pose proof (BBLOCK_range sb h c HL Hc).
  now rewrite (proj2 (Z.eqb_neq (BBLOCK c sb) b)) by lia.
Qed.

Lemma put_extends sb h (W : Z -> Prop) D b d :
  layout sb h -> W b -> data_block sb D b -> extends sb W D (d_put b d D).
Proof.
  intros HL HW [Hb _]. split; try done.
  - cbn. set_solver.
  - intros c Hc E. now rewrite (put_used sb h).
  - intros c Hc Hn. cbn. apply fn_lookup_insert_ne. intros ->. auto.
  - intros c Hc Hn. cbn. apply fn_lookup_insert_ne. intros ->. auto.
Qed.

Lemma bitmap_put sb D b d :
  layout sb (d_start D) -> bitmap_ok sb D -> data_block sb D b -> bitmap_ok sb (d_put b d D).
Proof.
  intros HL [B1 B2] [Hb _]. pose proof (ly_size _ _ HL). pose proof (layout_pos sb _ HL). split.
  - intros c Hc. rewrite (put_used sb (d_start D)) by (done || lia). auto.
  - intros c Hc. destruct (B2 c Hc). split; [done|]. rewrite (put_used sb (d_start D)) by (done || lia). done.
Qed.

(** ** Extending the map *)

Section extend.
Context (sb : superblock) (D D' : dview) (fa : Z -> Z) (ind sz : Z).
Context (HB : blocks_ok sb D fa ind sz) (Hmono : forall b, data_block sb D b -> data_block sb D' b).

Lemma blocks_ok_mono fa' : (forall bn, 0 <= bn < MAXFILE -> fa' bn = fa bn) -> blocks_ok sb D' fa' ind sz.
Proof.
  intros E. destruct HB as [B1 B2 B3 B4 B5 B6]. split; [done| | | | |].
  - intros bn Hbn Hlt. rewrite E by (unfold BSIZE in *; lia). auto.
  - intros bn Hbn. rewrite E by done. auto.
  - intros Hi. destruct (B4 Hi) as [H1 H2]. split; [auto|]. intros bn Hbn. rewrite E by done. auto.
  - intros Hi bn Hbn. rewrite E by (unfold NDIRECT in *; lia). auto.
  - intros bn bn' Hbn Hbn'. rewrite !E by done. auto.
Qed.

Context (b : Z) (Hnew : ~ data_block sb D b) (Hb : data_block sb D' b) (Hb0 : b <> 0).

Lemma blocks_ok_add fa' bn :
  0 <= bn < MAXFILE -> (NDIRECT <= bn -> ind <> 0) -> fa bn = 0 ->
  (forall bn', 0 <= bn' < MAXFILE -> fa' bn' = if bn' =? bn then b else fa bn') -> blocks_ok sb D' fa' ind sz.
Proof.
  intros Hbn Hi Hfa E. destruct HB as [B1 B2 B3 B4 B5 B6].
  assert (forall c, 0 <= c < MAXFILE -> fa c <> 0 -> fa c <> b) as Hne by (intros c Hc H0 <-; auto).
  split; [done| | | | |].
  - intros c Hc Hlt. rewrite E by (unfold BSIZE in *; lia). destruct (c =? bn); auto.
  - intros c Hc. rewrite E by done. destruct (c =? bn); auto.
  - intros H. destruct (B4 H) as [H1 H2]. split; [auto|]. intros c Hc. rewrite E by done. destruct (c =? bn); [|auto].
    intros ->. auto.
  - intros H c Hc. rewrite E by (unfold NDIRECT in *; lia). destruct (Z.eqb_spec c bn) as [->|]; [|auto]. destruct Hi; [lia|done].
  - intros c c' Hc Hc'. rewrite !E by done. destruct (Z.eqb_spec c bn), (Z.eqb_spec c' bn); subst; auto.
    + intros _ Ec. destruct (Z.eq_dec (fa c') 0) as [E0|E0]; [congruence|]. now destruct (Hne c' Hc' E0).
    + intros H0 Ec. now destruct (Hne c Hc H0).
Qed.

Lemma blocks_ok_ind fa' : ind = 0 -> (forall bn, 0 <= bn < MAXFILE -> fa' bn = fa bn) -> blocks_ok sb D' fa' b sz.
Proof.
  intros Hi E. destruct HB as [B1 B2 B3 B4 B5 B6]. split; [done| | | | |].
  - intros bn Hbn Hlt. rewrite E by (unfold BSIZE in *; lia). auto.
  - intros bn Hbn. rewrite E by done. auto.
  - intros _. split; [done|]. intros bn Hbn. rewrite E by done. destruct (Z.eq_dec (fa bn) 0) as [->|Hn]; [auto|]. intros <-. auto.
  - done.
  - intros bn bn' Hbn Hbn'. rewrite !E by done. auto.
Qed.
End extend.

Lemma addr_set i j a x :
  length (di_addrs x) = Z.to_nat (NDIRECT + 1) -> 0 <= i <= NDIRECT -> 0 <= j ->
  addr (set_addr i a x) j = if j =? i then a else addr x j.
Proof.
  intros Hlen Hi Hj. unfold addr, set_addr, NDIRECT in *. cbn. destruct (Z.eqb_spec j i) as [->|Hne].
  - now rewrite list_lookup_insert_eq by lia.
  - now rewrite list_lookup_insert_ne by lia.
Qed.

Lemma dinode_set_addr i a x : dinode_ok x -> is_u32 a -> dinode_ok (set_addr i a x).
Proof.
  intros [H1 H2 H3 H4 H5 H6 H7] Ha. split; try done; cbn.
  - now rewrite length_insert.
  - now apply Forall_insert.
Qed.

(** Reading a zeroed indirect block. *)
Lemma get32_zeros off : 0 <= off -> off + 4 <= BSIZE -> get32 off zeros = 0.
Proof.
  intros Ho Hl. unfold get32, slice, zeros, BSIZE in *. rewrite drop_replicate, take_replicate.
  replace (Z.to_nat 4 `min` (Z.to_nat 1024 - Z.to_nat off))%nat with 4%nat by lia. reflexivity.
Qed.

(** Only the inode [ip]'s disk fields and the block layer differ. *)
Record fsame {B U} (ip : Z) (s s' : fstate B U) : Prop := FSame {
  fs_held : f_held s' = f_held s;
  fs_pid : f_pid s' = f_pid s;
  fs_sb : f_sb s' = f_sb s;
  fs_cwd : f_cwd s' = f_cwd s;
  fs_other j : j <> ip -> f_inode s' j = f_inode s j;
  fs_self : exists y, f_inode s' ip = set_dinode y (f_inode s ip);
}.

Lemma fsame_refl {B U} ip (s : fstate B U) : fsame ip s s.
Proof. split; try done. exists (i_dinode (f_inode s ip)). now destruct (f_inode s ip). Qed.

Lemma fsame_trans {B U} ip (s1 s2 s3 : fstate B U) : fsame ip s1 s2 -> fsame ip s2 s3 -> fsame ip s1 s3.
Proof.
  intros [A1 A2 A3 A4 A5 (y & A6)] [B1 B2 B3 B4 B5 (z & B6)]. split; try congruence.
  - intros j Hj. rewrite B5, A5; done.
  - exists z. rewrite B6, A6. done.
Qed.

Lemma fsame_io {B U} ip x (s : fstate B U) : fsame ip s (with_io x s).
Proof. destruct (fsame_refl ip s). split; done. Qed.

Lemma fsame_upd {B U} ip f (s : fstate B U) s' :
  upd_dinode ip f s = Ok tt s' -> fsame ip s s' /\ i_dinode (f_inode s' ip) = f (i_dinode (f_inode s ip)) /\
    f_io s' = f_io s /\ f_user s' = f_user s.
Proof.
  intros [= <-]. cbn. rewrite !fn_lookup_insert. split; [|done]. split; try done.
  - intros j Hj. cbn. now rewrite fn_lookup_insert_ne.
  - exists (f (i_dinode (f_inode s ip))). cbn. now rewrite fn_lookup_insert.
Qed.

Section bmap.
Context {B U : Type} `{BIO : BlockIO B} (dev : Z) `{BS : !BlockIOSpec B dev} `{UIO : UserIO U}.
Implicit Types s : fstate B U.

(** The state in which the contents of inode [ip] are read and written. *)
Record ready (ip : Z) s (D : dview) : Prop := Ready {
  rd_rep : io_rep (f_io s) D;
  rd_locked : d_locked D = ∅;
  rd_layout : layout (f_sb s) (d_start D);
  rd_bitmap : bitmap_ok (f_sb s) D;
  rd_dev : i_dev (f_inode s ip) = dev;
  rd_file : file_ok (f_sb s) D (i_dinode (f_inode s ip));
}.

(** The inode's own indirect block. *)
Definition own_ind (x : dinode) (b : Z) : Prop := b = addr x NDIRECT /\ b <> 0.

(** What [bmap] does, with log space for [n] more blocks afterwards. *)
Record bmap_post (T : gset Z) (n : nat) (ip bn : Z) s (D : dview) (r : Z) s' (D' : dview) : Prop := BmapPost {
  bp_same : fsame ip s s';
  bp_user : f_user s' = f_user s;
  bp_ready : ready ip s' D';
  bp_ext : extends (f_sb s) (own_ind (i_dinode (f_inode s ip))) D D';
  bp_fields : exists l, i_dinode (f_inode s' ip) =
    let x := i_dinode (f_inode s ip) in Dinode (di_type x) (di_major x) (di_minor x) (di_nlink x) (di_size x) l;
  bp_ind : let a := addr (i_dinode (f_inode s' ip)) NDIRECT in
    a = addr (i_dinode (f_inode s ip)) NDIRECT \/ ~ data_block (f_sb s) D a;
  bp_addr : r = file_addr (d_data D') (i_dinode (f_inode s' ip)) bn;
  bp_other bn' : 0 <= bn' < MAXFILE -> bn' <> bn ->
    file_addr (d_data D') (i_dinode (f_inode s' ip)) bn' = file_addr (d_data D) (i_dinode (f_inode s ip)) bn';
  bp_old : file_addr (d_data D) (i_dinode (f_inode s ip)) bn <> 0 ->
    r = file_addr (d_data D) (i_dinode (f_inode s ip)) bn /\ D' = D;
  bp_new : file_addr (d_data D) (i_dinode (f_inode s ip)) bn = 0 -> r <> 0 ->
    d_data D' r = zeros /\ r ∈ d_logged D' /\ ~ data_block (f_sb s) D r;
  bp_full : r = 0 -> forall c, 0 <= c < sb_size (f_sb s) -> used (f_sb s) (d_data D') c = true;
  bp_budget : budget T D' n /\ (r ∈ d_logged D' \/ budget T D' (n + 1));
}.

(** The block is there: [bmap] changes nothing. *)
Lemma bmap_old s D ip bn :
  ready ip s D -> 0 <= bn < MAXFILE -> let a := file_addr (d_data D) (i_dinode (f_inode s ip)) bn in a <> 0 ->
  exists x, bmap ip bn s = Ok a (with_io x s) /\ io_rep x D.
Proof.
  intros [HR Hlk HL HB Hd [Hx Hf]] Hbn a Ha. unfold bmap. erewrite bind_ok by reflexivity. unfold a, file_addr in *.
  destruct (Z.ltb_spec bn NDIRECT) as [Hlt|Hge].
  { cbn zeta. rewrite (proj2 (Z.eqb_neq _ _) Ha). exists (f_io s). split; [now destruct s|done]. }
  cbn zeta. rewrite (proj2 (Z.ltb_lt (bn - NDIRECT) NINDIRECT)) by (unfold MAXFILE in *; lia).
  set (i := addr (i_dinode (f_inode s ip)) NDIRECT) in *. destruct (Z.eqb_spec i 0) as [|Hi]; [done|].
  unfold bmap_entry. rewrite Hd.
  destruct (fbread dev s D i HR) as (h & x1 & H1 & R1 & h1 & D1 & k1);
    [now apply none_locked|now apply size_none_locked|].
  rewrite (bind_ok _ _ _ _ _ H1). erewrite bind_ok by reflexivity. cbn [f_io with_io]. rewrite D1.
  rewrite (proj2 (Z.eqb_neq _ _) Ha). erewrite bind_ok by reflexivity.
  destruct (frelease dev (with_io x1 s) D i h R1 h1) as (x2 & H2 & R2 & _);
    [now apply none_locked|now apply (io_clean _ _ _ HR), none_locked|].
  rewrite (bind_ok _ _ _ _ _ H2). exists x2. split; [done|done].
Qed.

Lemma budget_alloc sb T D n b :
  layout sb (d_start D) -> bmaps sb ⊆ T -> 0 <= b < sb_size sb -> budget T D (S n) -> budget T (d_alloc sb b D) n.
Proof.
  intros HL HT Hb Hn. unfold d_alloc. apply budget_put. unfold set_bit. apply budget_in; [done|].
  apply elem_of_union. left. apply HT. now apply (BBLOCK_bmaps sb (d_start D)).
Qed.

(** A block that was put fits the log. *)
Lemma budget_logged T D b d n : budget T (d_put b d D) n -> (size ({[b]} ∪ d_logged D) <= d_cap D)%nat.
Proof.
  unfold budget. cbn. intros Hb.
  assert ({[b]} ∪ d_logged D ⊆ T ∪ ({[b]} ∪ d_logged D)) as Hs%subseteq_size by set_solver. lia.
Qed.

(** ** The map after each change *)

Lemma direct_addr sb D D' x bn b bn' :
  file_ok sb D x -> extends sb (fun _ => False) D D' -> 0 <= bn < NDIRECT -> 0 <= bn' ->
  file_addr (d_data D') (set_addr bn b x) bn' = if bn' =? bn then b else file_addr (d_data D) x bn'.
Proof.
  intros [Hx HB] HE Hbn Hbn'. unfold file_addr. rewrite !addr_set by (apply Hx || (unfold NDIRECT in *; lia)).
  destruct (Z.ltb_spec bn' NDIRECT); [done|].
  rewrite (proj2 (Z.eqb_neq NDIRECT bn)), (proj2 (Z.eqb_neq bn' bn)) by lia.
  destruct (Z.eqb_spec (addr x NDIRECT) 0) as [|Hi]; [done|].
  rewrite (ex_data _ _ _ _ HE (addr x NDIRECT)); [done| |tauto]. now apply (bo_ind _ _ _ _ _ HB).
Qed.

Lemma new_ind_addr D D' x b bn' :
  length (di_addrs x) = Z.to_nat (NDIRECT + 1) -> addr x NDIRECT = 0 -> d_data D' b = zeros -> 0 <= bn' < MAXFILE ->
  file_addr (d_data D') (set_addr NDIRECT b x) bn' = file_addr (d_data D) x bn'.
Proof.
  intros Hx Hi Hz Hbn. unfold file_addr. rewrite !addr_set by (done || (unfold NDIRECT; lia)). rewrite Z.eqb_refl.
  destruct (Z.ltb_spec bn' NDIRECT); [now rewrite (proj2 (Z.eqb_neq bn' NDIRECT)) by lia|].
  rewrite Hi, Hz. cbn. pose proof file_consts. rewrite get32_zeros; [now destruct (b =? 0)|lia|lia].
Qed.

Lemma entry_addr D x bn b bn' :
  let i := addr x NDIRECT in
  i <> 0 -> WF_block (d_data D i) -> is_u32 b -> NDIRECT <= bn < MAXFILE -> 0 <= bn' < MAXFILE ->
  file_addr (d_data (d_put i (put32 (4 * (bn - NDIRECT)) b (d_data D i)) D)) x bn' =
  if bn' =? bn then b else file_addr (d_data D) x bn'.
Proof.
  intros i Hi HW Hb Hbn Hbn'. unfold file_addr. fold i. rewrite (proj2 (Z.eqb_neq i 0) Hi). cbn. rewrite fn_lookup_insert.
  unfold WF_block in HW.
  destruct (Z.ltb_spec bn' NDIRECT); [now rewrite (proj2 (Z.eqb_neq bn' bn)) by lia|].
  pose proof file_consts. destruct (Z.eqb_spec bn' bn) as [->|Hne].
  - rewrite get32_put32 by lia. now apply u32_small.
  - apply get32_ne; lia.
Qed.

(** The result [r] of looking up block [bn] of inode [x] when there was none:
    none still, with the disk full, or a fresh zeroed block. *)
Record entry_post (sb : superblock) (T : gset Z) (n : nat) (bn : Z) (D : dview) (x : dinode) (r : Z) (D' : dview) : Prop := EntryPost {
  ep_file : file_ok sb D' x;
  ep_bitmap : bitmap_ok sb D';
  ep_ext : extends sb (own_ind x) D D';
  ep_addr : r = file_addr (d_data D') x bn;
  ep_other bn' : 0 <= bn' < MAXFILE -> bn' <> bn -> file_addr (d_data D') x bn' = file_addr (d_data D) x bn';
  ep_new : r <> 0 -> d_data D' r = zeros /\ r ∈ d_logged D' /\ ~ data_block sb D r;
  ep_full : r = 0 -> forall c, 0 <= c < sb_size sb -> used sb (d_data D') c = true;
  ep_budget : budget T D' n /\ (r ∈ d_logged D' \/ budget T D' (n + 1));
}.

(** Without a free block. *)
Lemma entry_full sb T n bn D x :
  file_ok sb D x -> bitmap_ok sb D -> file_addr (d_data D) x bn = 0 -> budget T D (n + 1) ->
  (forall c, 0 <= c < sb_size sb -> used sb (d_data D) c = true) -> entry_post sb T n bn D x 0 D.
Proof.
  intros Hf HB E Hn Hfull. split; try done. split; [eapply budget_le; [|exact Hn]; lia|now right].
Qed.

(** A fresh block [b] entered in the indirect block. *)
Lemma entry_new sb T n bn D x b :
  let i := addr x NDIRECT in let D1 := d_alloc sb b D in
  let D' := d_put i (put32 (4 * (bn - NDIRECT)) b (d_data D i)) D1 in
  layout sb (d_start D) -> (forall c, WF_block (d_data D c)) -> file_ok sb D x -> bitmap_ok sb D -> first_free sb D b ->
  i <> 0 -> NDIRECT <= bn < MAXFILE -> file_addr (d_data D) x bn = 0 -> d_locked D = ∅ ->
  bmaps sb ⊆ T -> budget T D (n + 1) -> i ∈ d_logged D \/ budget T D (n + 2) -> entry_post sb T n bn D x b D'.
Proof.
  intros i D1 D' HL HW [Hx Hf] HB HF Hi Hbn E Hlk HT Hn Hn2.
  destruct (alloc_extends sb (own_ind x) D b HL (HW _) HB HF) as (HE & Hb & Hnb & HB1). fold D1 in HE, Hb, HB1.
  destruct (bo_ind _ _ _ _ _ Hf Hi) as [Hid Hin]. fold i in Hid. pose proof (layout_pos sb _ HL) as HP.
  assert (b <> i) as Hbi by (intros ->; auto).
  assert (d_data D1 i = d_data D i) as Ei.
  { destruct (alloc_extends sb (fun _ => False) D b HL (HW _) HB HF) as (HE' & _). apply (ex_data _ _ _ _ HE'); [done|tauto]. }
  assert (is_u32 b) as Hu by (destruct Hb as [Hb _]; pose proof (ly_size _ _ HL); unfold is_u32; lia).
  assert (forall bn', 0 <= bn' < MAXFILE -> file_addr (d_data D1) x bn' = file_addr (d_data D) x bn') as E1.
  { intros bn' Hbn'. unfold file_addr. fold i. now rewrite Ei. }
  assert (forall bn', 0 <= bn' < MAXFILE -> file_addr (d_data D') x bn' = if bn' =? bn then b else file_addr (d_data D) x bn') as E'.
  { intros bn' Hbn'. pose proof (entry_addr D1 x bn b bn') as H. cbn zeta in H. fold i in H. rewrite Ei in H.
    unfold D'. rewrite H, E1 by done || apply HW. done. }
  assert (extends sb (own_ind x) D1 D') as HE1 by (apply (put_extends sb (d_start D)); [exact HL|done|apply (data_block_mono sb _ _ _ _ _ HL HE Hid)]).
  pose proof (extends_trans sb _ _ _ _ _ HL HE HE1) as HE2.
  assert (forall c, data_block sb D c -> data_block sb D' c) as Hmono by (intros c; eapply data_block_mono; eassumption).
  assert (data_block sb D' b) as Hb' by (eapply data_block_mono; [exact HL|exact HE1|exact Hb]).
  split; try done.
  - split; [done|]. eapply (blocks_ok_add sb D D'); [exact Hf|exact Hmono|exact Hnb|exact Hb'| | | |exact E|exact E'];
      unfold NDIRECT in *; destruct Hb; lia || done.
  - apply (bitmap_put sb D1 i); [exact HL|done|now apply (data_block_mono sb _ _ _ _ _ HL HE)].
  - rewrite E', Z.eqb_refl by (unfold NDIRECT in *; lia). done.
  - intros bn' Hbn' Hne. rewrite E' by done. now rewrite (proj2 (Z.eqb_neq bn' bn)).
  - intros _. unfold D', D1. cbn. rewrite fn_lookup_insert_ne, fn_lookup_insert by done. split; [done|]. split; [set_solver|done].
  - intros ->. destruct Hb. lia.
  - assert (budget T D' n) as Hbud.
    { destruct HF as (Hb0 & _). unfold D'. destruct Hn2 as [Hin2|Hn2].
      - apply budget_in; [|unfold D1; cbn; set_solver]. apply budget_alloc; try done. eapply budget_le; [|exact Hn]. lia.
      - apply budget_put. apply budget_alloc; try done. eapply budget_le; [|exact Hn2]. lia. }
    split; [done|]. left. unfold D', D1. cbn. set_solver.
Qed.

Lemma d_alloc_lock sb b i D : d_alloc sb b (d_lock i D) = d_lock i (d_alloc sb b D).
Proof. done. Qed.

Lemma bmap_entry_ok s T n D ip bn :
  let sb := f_sb s in let x := i_dinode (f_inode s ip) in let i := addr x NDIRECT in
  ready ip s D -> i <> 0 -> NDIRECT <= bn < MAXFILE -> file_addr (d_data D) x bn = 0 ->
  bmaps sb ⊆ T -> budget T D (n + 1) -> i ∈ d_logged D \/ budget T D (n + 2) ->
  exists r y D', bmap_entry dev i (bn - NDIRECT) s = Ok r (with_io y s) /\ io_rep y D' /\ entry_post sb T n bn D x r D'.
Proof.
  intros sb x i [HR Hlk HL HB Hd [Hx Hf]] Hi Hbn E HT Hn Hn2. fold sb in HL, HB, Hf. fold x in Hx, Hf.
  destruct (bo_ind _ _ _ _ _ Hf Hi) as [Hid Hin]. fold i in Hid. pose proof (layout_pos sb _ HL) as HP.
  pose proof (none_locked D i Hlk) as Hil. pose proof (d_lock_in i) as Hli.
  destruct (fbread dev s D i HR Hil) as (h & x1 & H1 & R1 & h1 & D1 & k1); [now apply size_none_locked|].
  unfold bmap_entry. rewrite (bind_ok _ _ _ _ _ H1). erewrite bind_ok by reflexivity. cbn [f_io with_io]. rewrite D1.
  assert (get32 (4 * (bn - NDIRECT)) (d_data D i) = 0) as E0.
  { unfold file_addr in E. fold i in E. rewrite (proj2 (Z.ltb_ge bn NDIRECT)), (proj2 (Z.eqb_neq i 0)) in E by (done || lia). done. }
  cbn zeta. rewrite E0. change (0 =? 0) with true. cbn iota. rewrite bind_assoc.
  assert (bitmap_ok sb (d_lock i D)) as HBl.
  { destruct HB as [B1 B2]. split; [done|]. intros c ->%one_locked; done. }
  destruct (balloc_ok dev (with_io x1 s) T (d_lock i D)) as [(b & y & HF & H2 & R2 & k2)|(Hfull & y & H2 & R2 & k2)]; try done.
  { now apply size_one_locked. } { unfold budget in *. cbn. lia. }
  - rewrite (bind_ok _ _ _ _ _ H2). rewrite d_alloc_lock in R2. change (f_sb (with_io x1 s)) with sb in R2, HF.
    assert (first_free sb D b) as HF' by exact HF.
    assert (b <> 0) as Hb0. { destruct (free_is_data sb D b HB HF') as [Hb _]. lia. }
    rewrite (proj2 (Z.eqb_neq b 0) Hb0). cbn [negb]. rewrite bind_assoc. erewrite bind_ok by reflexivity. cbn [f_io with_io].
    assert (io_handle y h i) as h2 by (apply k2; [exact h1|apply Hli]).
    rewrite (io_read y _ h i R2 h2) by apply Hli.
    assert (d_data (d_lock i (d_alloc sb b D)) i = d_data D i) as Ei.
    { destruct (alloc_extends sb (fun _ => False) D b HL (io_wf _ _ _ HR) HB HF') as (HE' & _).
      apply (ex_data _ _ _ _ HE'); [done|tauto]. }
    rewrite Ei. set (d' := put32 _ b _).
    assert (entry_post sb T n bn D x b (d_put i d' (d_alloc sb b D))) as Hpost.
    { apply entry_new; try done. intros c. apply (io_wf _ _ _ HR). }
    destruct (io_set_ok y _ h i d' R2 h2) as (y3 & H3 & R3 & k3); [apply Hli| |].
    { unfold d', WF_block. pose proof (io_wf _ _ i HR) as HW. unfold WF_block in HW. pose proof file_consts. rewrite length_put32; lia. }
    rewrite bind_assoc, (bind_ok _ _ _ _ _ (io_ok _ (with_io y s) _ _ H3)).
    destruct (io_log_ok y3 _ h i R3) as (y4 & H4 & R4 & k4); [auto|apply Hli| | |].
    { apply (home_data sb (d_start D)); [exact HL|done|]. destruct Hid. lia. }
    { exact (budget_logged T (d_alloc sb b D) i d' n (proj1 (ep_budget _ _ _ _ _ _ _ _ Hpost))). }
    rewrite bind_assoc, (bind_ok _ _ _ _ _ (io_ok _ (with_io y3 (with_io y s)) _ _ H4)). erewrite bind_ok by reflexivity.
    destruct (io_brelse_ok y4 _ h i R4) as (y5 & H5 & R5 & _); [auto|apply Hli|left; apply elem_of_union; left; now apply elem_of_singleton|].
    rewrite (bind_ok _ _ _ _ _ (io_ok _ (with_io y4 (with_io y3 (with_io y s))) _ _ H5)).
    exists b, y5. eexists. split; [reflexivity|]. rewrite d_put_eq in R5 by exact Hil. split; [exact R5|exact Hpost].
  - rewrite (bind_ok _ _ _ _ _ H2). change (negb (0 =? 0)) with false. cbn iota. erewrite bind_ok by reflexivity.
    destruct (frelease dev (with_io y s) D i h R2) as (y2 & H3 & R3 & _); [apply k2; [exact h1|apply Hli]|done|now apply (io_clean _ _ _ HR)|].
    cbn [f_io with_io] in *. change (with_io y (with_io x1 s)) with (with_io y s). rewrite (bind_ok _ _ _ _ _ H3).
    exists 0, y2, D. split; [done|]. split; [done|]. apply entry_full; try done.
Qed.

(** ** bmap *)

Lemma data_nonzero sb h D b : layout sb h -> data_block sb D b -> b <> 0 /\ is_u32 b.
Proof. intros HL [Hb _]. pose proof (layout_pos sb h HL). pose proof (ly_size sb h HL). unfold is_u32. lia. Qed.

(** From the lookup on the view to the state. *)
Lemma entry_bmap T n ip bn s D s1 D1 x1 r y D' :
  let x := i_dinode (f_inode s ip) in
  x1 = i_dinode (f_inode s1 ip) -> ready ip s D -> fsame ip s s1 -> f_user s1 = f_user s ->
  (exists l, x1 = Dinode (di_type x) (di_major x) (di_minor x) (di_nlink x) (di_size x) l) ->
  extends (f_sb s) (fun _ => False) D D1 -> (addr x NDIRECT <> 0 -> addr x1 NDIRECT = addr x NDIRECT) ->
  (addr x NDIRECT = 0 -> ~ data_block (f_sb s) D (addr x1 NDIRECT) /\ (addr x1 NDIRECT <> 0 -> sb_bmapstart (f_sb s) <= addr x1 NDIRECT)) ->
  (forall bn', 0 <= bn' < MAXFILE -> file_addr (d_data D1) x1 bn' = file_addr (d_data D) x bn') ->
  file_addr (d_data D) x bn = 0 -> io_rep y D' -> entry_post (f_sb s) T n bn D1 x1 r D' ->
  bmap_post T n ip bn s D r (with_io y s1) D'.
Proof.
  intros x Ex1 HRd HS Hu Hfields HE Hind Hnew Hfa E0 Hy [P1 P2 P3 P4 P5 P6 P7 P8]. destruct HRd as [HR Hlk HL HB Hd Hf].
  assert (extends (f_sb s) (own_ind x) D D') as HE2.
  { eapply (extends_drop _ (own_ind x1)); [|eapply extends_trans; [exact HL|eapply extends_weaken; [|exact HE]; tauto|exact P3]].
    intros b [-> Hb0] Hn. destruct (Z.eq_dec (addr x NDIRECT) 0) as [Ei|Ei].
    - destruct (Hnew Ei). split; [done|]. lia.
    - exfalso. apply Hn. rewrite (Hind Ei) in *. done. }
  split; try done.
  - eapply fsame_trans; [exact HS|apply fsame_io].
  - destruct HS as [S1 S2 S3 S4 S5 (z & S6)]. split; cbn [f_io f_sb f_inode with_io]; rewrite ?S3; try done.
    + rewrite (ex_locked _ _ _ _ HE2). done.
    + rewrite (ex_start _ _ _ _ HE2). done.
    + rewrite S6. done.
    + rewrite <- Ex1. done.
  - cbn [f_inode with_io]. rewrite <- Ex1. done.
  - cbn [f_inode with_io]. rewrite <- Ex1. cbn zeta. fold x. destruct (Z.eq_dec (addr x NDIRECT) 0) as [Ei|Ei]; [right; now apply Hnew|left; now apply Hind].
  - cbn [f_inode with_io]. rewrite <- Ex1. done.
  - cbn [f_inode with_io]. intros bn' Hbn' Hne. rewrite <- Ex1, P5 by done. auto.
  - intros _ Hr. destruct (P6 Hr) as (Q1 & Q2 & Q3). split; [done|]. split; [done|]. intros Hb. apply Q3.
    eapply data_block_mono; [exact HL|exact HE|exact Hb].
Qed.

Lemma bmap_old_post s T n D ip bn y :
  ready ip s D -> let a := file_addr (d_data D) (i_dinode (f_inode s ip)) bn in a <> 0 -> io_rep y D -> budget T D (n + 2) ->
  bmap_post T n ip bn s D a (with_io y s) D.
Proof.
  intros [HR Hlk HL HB Hd Hf] a Ha Hy Hn. split; try done.
  - apply fsame_io.
  - exists (di_addrs (i_dinode (f_inode s ip))). cbn. now destruct (i_dinode (f_inode s ip)).
  - now left.
  - split; [eapply budget_le; [|exact Hn]; lia|right; eapply budget_le; [|exact Hn]; lia].
Qed.

(** No block was free. *)
Lemma bmap_full_post s T n D ip bn y :
  ready ip s D -> file_addr (d_data D) (i_dinode (f_inode s ip)) bn = 0 -> io_rep y D -> budget T D (n + 2) ->
  (forall c, 0 <= c < sb_size (f_sb s) -> used (f_sb s) (d_data D) c = true) -> bmap_post T n ip bn s D 0 (with_io y s) D.
Proof.
  intros [HR Hlk HL HB Hd Hf] Ha Hy Hn Hfull. split; try done.
  - apply fsame_io.
  - exists (di_addrs (i_dinode (f_inode s ip))). cbn. now destruct (i_dinode (f_inode s ip)).
  - now left.
  - split; [eapply budget_le; [|exact Hn]; lia|right; eapply budget_le; [|exact Hn]; lia].
Qed.

(** What the allocation of [b] gives. *)
Record alloc_facts (sb : superblock) (T : gset Z) (n : nat) (D : dview) (b : Z) : Prop := AllocFacts {
  af_budget : budget T (d_alloc sb b D) n;
  af_nz : b <> 0 /\ is_u32 b /\ sb_bmapstart sb <= b;
  af_ext : extends sb (fun _ => False) D (d_alloc sb b D);
  af_new : ~ data_block sb D b;
  af_data : data_block sb (d_alloc sb b D) b;
  af_bitmap : bitmap_ok sb (d_alloc sb b D);
  af_logged : b ∈ d_logged (d_alloc sb b D);
  af_zeros : d_data (d_alloc sb b D) b = zeros;
}.

Lemma alloc_facts_ok x sb T n D b :
  io_rep x D -> layout sb (d_start D) -> bitmap_ok sb D -> bmaps sb ⊆ T -> budget T D (S n) -> first_free sb D b ->
  alloc_facts sb T n D b.
Proof.
  intros HR HL HB HT Hn HF. destruct (alloc_extends sb (fun _ => False) D b HL (io_wf _ _ _ HR) HB HF) as (A1 & A2 & A3 & A4).
  destruct (data_nonzero sb _ _ _ HL A2) as [N1 N2]. pose proof HF as (Hb & _). pose proof (layout_pos sb _ HL). split; try done.
  - now apply budget_alloc.
  - split; [done|]. split; [done|]. destruct A2. lia.
  - cbn. apply elem_of_union. left. now apply elem_of_singleton.
  - cbn. apply fn_lookup_insert.
Qed.

Lemma bmap_direct_ok s T n D ip bn :
  ready ip s D -> 0 <= bn < NDIRECT -> file_addr (d_data D) (i_dinode (f_inode s ip)) bn = 0 ->
  bmaps (f_sb s) ⊆ T -> budget T D (n + 2) ->
  exists r s' D', bmap ip bn s = Ok r s' /\ bmap_post T n ip bn s D r s' D'.
Proof.
  intros HRd Hbn E0 HT Hn. pose proof HRd as [HR Hlk HL HB Hd [Hx Hf]]. pose proof file_consts as (K1 & K2 & K3 & _).
  unfold bmap. erewrite bind_ok by reflexivity. rewrite Hd. set (x := i_dinode (f_inode s ip)) in *.
  rewrite (proj2 (Z.ltb_lt bn NDIRECT)) by lia. cbn zeta.
  assert (addr x bn = 0) as Ea by (unfold file_addr in E0; now rewrite (proj2 (Z.ltb_lt bn NDIRECT)) in E0 by lia).
  rewrite Ea. change (0 =? 0) with true. cbn iota.
  destruct (balloc_ok dev s T D HL HR (size_none_locked D Hlk) HB HT) as [(b & y & HF & H2 & R2 & _)|(Hfull & y & H2 & R2 & _)].
  { eapply budget_le; [|exact Hn]. lia. }
  2: { rewrite (bind_ok _ _ _ _ _ H2). exists 0. eexists _, D. split; [reflexivity|]. now apply bmap_full_post. }
  destruct (alloc_facts_ok (f_io s) (f_sb s) T (n + 1) D b HR HL HB HT) as [A1 (A2 & A3 & _) A4 A5 A6 A7 A8 A9]; [|done|].
  { eapply budget_le; [|exact Hn]. lia. }
  rewrite (bind_ok _ _ _ _ _ H2), (proj2 (Z.eqb_neq b 0) A2).
  destruct (upd_dinode ip (set_addr bn b) (with_io y s)) as [[] s2| |] eqn:H3; [|done..].
  rewrite (bind_ok _ _ _ _ _ H3). apply fsame_upd in H3 as (S3 & X3 & I3 & U3). cbn [f_inode with_io] in X3. fold x in X3.
  pose proof (direct_addr (f_sb s) D (d_alloc (f_sb s) b D) x bn b) as Hfa.
  exists b, s2, (d_alloc (f_sb s) b D). split; [done|].
  assert (blocks_ok (f_sb s) (d_alloc (f_sb s) b D) (file_addr (d_data (d_alloc (f_sb s) b D)) (set_addr bn b x)) (addr x NDIRECT) (di_size x)) as HB'.
  { eapply (blocks_ok_add _ D _ _ _ _ Hf) with (b := b) (bn := bn); try done; [intros c; eapply data_block_mono; eassumption|lia|lia|].
    intros bn' Hbn'. apply Hfa; done || lia. }
  assert (addr (set_addr bn b x) NDIRECT = addr x NDIRECT) as Eind.
  { rewrite addr_set by (apply Hx || lia). now rewrite (proj2 (Z.eqb_neq NDIRECT bn)) by lia. }
  split; rewrite ?X3; try done.
  - eapply fsame_trans; [apply fsame_io|exact S3].
  - destruct S3 as [S1 S2 S4 S5 S6 (z & S7)]. cbn in S4, S7. split; rewrite ?I3, ?S4, ?X3; try done; [now rewrite S7|].
    split; [now apply dinode_set_addr|]. now rewrite Eind.
  - eapply extends_weaken; [|exact A4]. tauto.
  - now exists (<[Z.to_nat bn := b]> (di_addrs x)).
  - now left.
  - rewrite Hfa by (done || lia). now rewrite Z.eqb_refl.
  - intros bn' Hbn' Hne. rewrite Hfa by (done || lia). now rewrite (proj2 (Z.eqb_neq bn' bn)).
  - split; [eapply budget_le; [|exact A1]; lia|now left].
Qed.

(** The indirect block is there. *)
Lemma bmap_indirect_ok s T n D ip bn :
  let x := i_dinode (f_inode s ip) in
  ready ip s D -> NDIRECT <= bn < MAXFILE -> file_addr (d_data D) x bn = 0 -> addr x NDIRECT <> 0 ->
  bmaps (f_sb s) ⊆ T -> budget T D (n + 2) ->
  exists r s' D', bmap ip bn s = Ok r s' /\ bmap_post T n ip bn s D r s' D'.
Proof.
  intros x HRd Hbn E0 Hi HT Hn. pose proof HRd as [HR Hlk HL HB Hd Hf]. pose proof file_consts as (K1 & K2 & K3 & _).
  unfold bmap. erewrite bind_ok by reflexivity. rewrite Hd. fold x. rewrite (proj2 (Z.ltb_ge bn NDIRECT)) by lia. cbn zeta.
  rewrite (proj2 (Z.ltb_lt (bn - NDIRECT) NINDIRECT)) by lia. rewrite (proj2 (Z.eqb_neq _ _) Hi).
  destruct (bmap_entry_ok s T n D ip bn HRd Hi Hbn E0 HT) as (r & y & D' & H1 & R1 & P1);
    [eapply budget_le; [|exact Hn]; lia|now right|].
  exists r, (with_io y s), D'. split; [exact H1|].
  eapply (entry_bmap T n ip bn s D s D x); try done; [apply fsame_refl|exists (di_addrs x); fold x; now destruct x].
Qed.

(** The indirect block is allocated first. *)
Lemma bmap_new_indirect_ok s T n D ip bn :
  let x := i_dinode (f_inode s ip) in
  ready ip s D -> NDIRECT <= bn < MAXFILE -> addr x NDIRECT = 0 -> bmaps (f_sb s) ⊆ T -> budget T D (n + 2) ->
  exists r s' D', bmap ip bn s = Ok r s' /\ bmap_post T n ip bn s D r s' D'.
Proof.
  intros x HRd Hbn Hi HT Hn. pose proof HRd as [HR Hlk HL HB Hd [Hx Hf]]. pose proof file_consts as (K1 & K2 & K3 & _).
  fold x in Hx, Hf. assert (file_addr (d_data D) x bn = 0) as E0 by (apply (bo_none _ _ _ _ _ Hf Hi); lia).
  unfold bmap. erewrite bind_ok by reflexivity. rewrite Hd. fold x. rewrite (proj2 (Z.ltb_ge bn NDIRECT)) by lia. cbn zeta.
  rewrite (proj2 (Z.ltb_lt (bn - NDIRECT) NINDIRECT)) by lia. rewrite Hi. change (0 =? 0) with true. cbn iota.
  destruct (balloc_ok dev s T D HL HR (size_none_locked D Hlk) HB HT) as [(b & y & HF & H2 & R2 & _)|(Hfull & y & H2 & R2 & _)].
  { eapply budget_le; [|exact Hn]. lia. }
  2: { rewrite (bind_ok _ _ _ _ _ H2). exists 0. eexists _, D. split; [reflexivity|]. now apply bmap_full_post. }
  destruct (alloc_facts_ok (f_io s) (f_sb s) T (n + 1) D b HR HL HB HT) as [A1 (A2 & A3 & A3') A4 A5 A6 A7 A8 A9]; [|done|].
  { eapply budget_le; [|exact Hn]. lia. }
  rewrite (bind_ok _ _ _ _ _ H2), (proj2 (Z.eqb_neq b 0) A2).
  destruct (upd_dinode ip (set_addr NDIRECT b) (with_io y s)) as [[] s2| |] eqn:H3; [|done..].
  rewrite (bind_ok _ _ _ _ _ H3). apply fsame_upd in H3 as (S3 & X3 & I3 & U3). cbn [f_inode with_io] in X3. fold x in X3.
  set (x1 := set_addr NDIRECT b x) in *. set (D1 := d_alloc (f_sb s) b D) in *.
  assert (addr x1 NDIRECT = b) as Eb by (unfold x1; rewrite addr_set, Z.eqb_refl by (apply Hx || lia); done).
  assert (forall bn', 0 <= bn' < MAXFILE -> file_addr (d_data D1) x1 bn' = file_addr (d_data D) x bn') as Hfa
    by (intros bn' Hbn'; apply new_ind_addr; try done; apply Hx).
  pose proof (fsame_trans _ _ _ _ (fsame_io ip y s) S3) as S4. pose proof S4 as [F1 F2 F3 F4 F5 (z & F6)].
  assert (ready ip s2 D1) as HRd1.
  { split; rewrite ?I3, ?F3, ?X3; try done; [now rewrite F6|]. split; [now apply dinode_set_addr|].
    rewrite Eb. eapply (blocks_ok_ind _ D _ _ _ _ Hf); try done. intros c; eapply data_block_mono; eassumption. }
  destruct (bmap_entry_ok s2 T n D1 ip bn HRd1) as (r & y2 & D' & H4 & R4 & P4); rewrite ?X3, ?Eb, ?F3; try done.
  { now rewrite Hfa by lia. } { now left. }
  rewrite X3, Eb, F3 in *. exists r, (with_io y2 s2), D'. split; [exact H4|].
  eapply (entry_bmap T n ip bn s D s2 D1 x1); try done.
  - exists (<[Z.to_nat NDIRECT := b]> (di_addrs x)). done.
  - intros _. rewrite Eb. done.
Qed.

Lemma bmap_ok s T n D ip bn :
  ready ip s D -> 0 <= bn < MAXFILE -> bmaps (f_sb s) ⊆ T -> budget T D (n + 2) ->
  exists r s' D', bmap ip bn s = Ok r s' /\ bmap_post T n ip bn s D r s' D'.
Proof.
  intros HRd Hbn HT Hn. destruct (Z.eq_dec (file_addr (d_data D) (i_dinode (f_inode s ip)) bn) 0) as [E0|E0].
  - destruct (Z_lt_le_dec bn NDIRECT) as [Hlt|Hge]; [apply bmap_direct_ok; done || lia|].
    destruct (Z.eq_dec (addr (i_dinode (f_inode s ip)) NDIRECT) 0) as [Ei|Ei].
    + apply bmap_new_indirect_ok; done || lia.
    + apply bmap_indirect_ok; done || lia.
  - destruct (bmap_old s D ip bn HRd Hbn E0) as (y & H1 & R1). eexists _, _, D. split; [exact H1|]. now apply bmap_old_post.
Qed.
End bmap.
