(* ===== verification/FsIO.v ===== *)
(** * kernel/fs.c: the contents of a file

    [iupdate], [readi] and [writei] on the bytes of a file. *)

From stdpp Require Import base gmap numbers strings functions list.
From Stdlib Require Import ZifyBool.
From S2P Require Import Prelude Mem Block StringC Spinlock Locks Bio Log LogSpec BlockIO Fs FsBlocks FsInode FsFile.

Open Scope Z_scope.

(** Byte [k] of the file of inode [x]. *)
Definition fbyte (data : Z -> block) (x : dinode) (k : Z) : Z :=
  get8 (k mod BSIZE) (data (file_addr data x (k / BSIZE))).

Definition fslice (data : Z -> block) (x : dinode) (off n : Z) : list Z := fbyte data x <$> seqZ off n.

Lemma length_fslice data x off n : length (fslice data x off n) = Z.to_nat n.
Proof. unfold fslice. now rewrite length_fmap, length_seqZ. Qed.

Lemma fslice_app data x off m n :
  0 <= m <= n -> fslice data x off n = fslice data x off m ++ fslice data x (off + m) (n - m).
Proof.
  intros Hm. unfold fslice. rewrite <- fmap_app. f_equal. rewrite <- seqZ_app by lia. f_equal. lia.
Qed.

Lemma fslice_ext data data' x x' off n :
  (forall k, off <= k < off + n -> fbyte data' x' k = fbyte data x k) -> fslice data' x' off n = fslice data x off n.
Proof. intros H. unfold fslice. apply list_fmap_ext. intros i k Hk. apply H. apply list_elem_of_lookup_2, elem_of_seqZ in Hk. lia. Qed.

Lemma lookup_slice_in i n d k :
  0 <= i -> 0 <= n -> (k < Z.to_nat n)%nat -> slice i n d !! k = d !! (Z.to_nat i + k)%nat.
Proof. intros. unfold slice. rewrite lookup_take_lt, lookup_drop by done. done. Qed.

(** A range within one block. *)
Lemma slice_fslice data x off m :
  0 <= off -> 0 <= m -> off mod BSIZE + m <= BSIZE -> WF_block (data (file_addr data x (off / BSIZE))) ->
  slice (off mod BSIZE) m (data (file_addr data x (off / BSIZE))) = fslice data x off m.
Proof.
  intros Ho Hm Hle HW. set (d := data _) in *. unfold WF_block in HW. pose proof (Z.mod_pos_bound off BSIZE ltac:(done)).
  apply list_eq_same_length with (n := Z.to_nat m).
  - rewrite length_fslice. done.
  - pose proof (length_slice (off mod BSIZE) m d ltac:(lia) ltac:(lia) ltac:(lia)). lia.
  - intros i a b Hi Ha Hb. rewrite lookup_slice_in in Ha by lia. unfold fslice in Hb. rewrite list_lookup_fmap in Hb.
    rewrite lookup_seqZ_lt in Hb by lia. injection Hb as <-. unfold fbyte, get8, BSIZE in *.
    replace ((off + Z.of_nat i) / 1024) with (off / 1024) by dlia. fold d.
    replace (Z.to_nat ((off + Z.of_nat i) mod 1024)) with (Z.to_nat (off mod 1024) + i)%nat by dlia. now rewrite Ha.
Qed.

(** The state with another block layer and memory. *)
Definition with_all {B U} (y : B) (u : U) (s : fstate B U) : fstate B U :=
  FState y u (f_held s) (f_pid s) (f_sb s) (f_inode s) (f_cwd s).

(** The fuel of the loops covers the blocks of the range. *)
Definition io_left (off n tot : Z) : Z :=
  (off + n) / BSIZE - (off + tot) / BSIZE + 1 + (if tot <? n then 1 else 0).

Lemma io_left_step off n tot :
  0 <= off -> 0 <= tot < n -> let m := Z.min (n - tot) (BSIZE - (off + tot) mod BSIZE) in
  0 < m <= n - tot /\ (off + tot) mod BSIZE + m <= BSIZE /\ io_left off n (tot + m) < io_left off n tot.
Proof.
  intros Ho Ht m. subst m. unfold io_left, BSIZE in *.
  rewrite (proj2 (Z.ltb_lt tot n)) by lia. destruct (Z.ltb_spec (tot + Z.min (n - tot) (1024 - (off + tot) mod 1024)) n); dlia.
Qed.

Lemma io_left_init off n : 0 <= off -> 0 <= n -> (Z.to_nat (io_left off n 0) <= io_fuel n)%nat.
Proof. intros. unfold io_left, io_fuel, BSIZE. destruct (0 <? n); dlia. Qed.

Lemma io_left_pos off n tot : 0 <= off -> 0 <= tot <= n -> 1 <= io_left off n tot.
Proof. intros. unfold io_left, BSIZE. destruct (tot <? n); dlia. Qed.

Section read.
Context {B U : Type} `{BIO : BlockIO B} (dev : Z) `{BS : !BlockIOSpec B dev} `{UIO : UserIO U} `{UL : !UserLaws U}.
Context (s0 : fstate B U) (D : dview) (ip : Z) (user : bool) (dst off n : Z).
Context (Hready : ready dev ip s0 D).
Let x := i_dinode (f_inode s0 ip).
Context (Hoff : 0 <= off) (Hn : 0 <= n) (Hend : off + n <= di_size x).
Context (P : Z -> U -> Prop).
Context (Hcopy : forall y u tot k, P tot u -> 0 <= tot -> 0 <= k -> tot + k <= n ->
  exists u', either_copyout user (u64 (dst + tot)) (fslice (d_data D) x (off + tot) k) (with_all y u s0) =
    Ok 0 (with_all y u' s0) /\ P (tot + k) u').

Lemma readi_loop_ok fuel : forall y u tot,
  io_rep y D -> P tot u -> 0 <= tot <= n -> (Z.to_nat (io_left off n tot) <= fuel)%nat ->
  exists y' u', readi_loop fuel ip user (u64 (dst + tot)) (off + tot) n tot (with_all y u s0) =
    Ok n (with_all y' u' s0) /\ io_rep y' D /\ P n u'.
Proof.
  pose proof Hready as [_ Hlk HL HB Hd [Hx Hf]]. fold x in Hx, Hf. pose proof (bo_size _ _ _ _ _ Hf) as Hsz. pose proof file_consts as Hc.
  induction fuel as [|fuel IH]; intros y u tot HR HP Ht Hfu; [pose proof (io_left_pos off n tot); lia|].
  cbn [readi_loop]. destruct (Z.ltb_spec tot n) as [Hlt|Hge].
  2: { replace tot with n in * by lia. exists y, u. done. }
  destruct (io_left_step off n tot Hoff ltac:(lia)) as (Hm1 & Hm2 & Hm3).
  set (k := Z.min (n - tot) (BSIZE - (off + tot) mod BSIZE)) in *.
  set (s := with_all y u s0). assert (ready dev ip s D) as Hr by (split; done).
  assert (file_addr (d_data D) x ((off + tot) / BSIZE) <> 0) as Ha.
  { apply (bo_alloc _ _ _ _ _ Hf); unfold BSIZE in *; dlia. }
  destruct (bmap_old dev s D ip ((off + tot) / BSIZE) Hr) as (y1 & H1 & R1); [unfold BSIZE in *; dlia|exact Ha|].
  change (i_dinode (f_inode s ip)) with x in H1. rewrite (bind_ok _ _ _ _ _ H1).
  set (a := file_addr (d_data D) x ((off + tot) / BSIZE)) in *. rewrite (proj2 (Z.eqb_neq a 0) Ha).
  erewrite bind_ok by reflexivity. change (i_dev (f_inode (with_io y1 s) ip)) with (i_dev (f_inode s0 ip)). rewrite Hd.
  destruct (fbread dev (with_io y1 s) D a R1) as (h & y2 & H2 & R2 & h2 & D2 & _); [now apply none_locked|now apply size_none_locked|].
  rewrite (bind_ok _ _ _ _ _ H2). erewrite bind_ok by reflexivity. cbn [f_io with_io]. rewrite D2.
  cbn zeta. pose proof (slice_fslice (d_data D) x (off + tot) k ltac:(lia) ltac:(lia) Hm2 (io_wf _ _ _ HR)) as Es. fold a in Es. rewrite Es.
  destruct (Hcopy y2 u tot k HP) as (u' & H3 & P3); [lia|lia|lia|].
  change (with_io y2 (with_io y1 s)) with (with_all y2 u s0). rewrite (bind_ok _ _ _ _ _ H3).
  destruct (frelease dev (with_all y2 u' s0) D a h R2 h2) as (y4 & H4 & R4 & _);
    [now apply none_locked|now apply (io_clean _ _ _ HR), none_locked|].
  rewrite (bind_ok _ _ _ _ _ H4). change (0 =? -1) with false. cbn iota.
  replace (u64 (u64 (dst + tot) + k)) with (u64 (dst + (tot + k))) by (unfold u64; rewrite Z.add_mod_idemp_l by lia; f_equal; lia).
  rewrite !u32_small by (unfold is_u32, BSIZE in *; lia).
  replace (off + tot + k) with (off + (tot + k)) by lia. apply (IH y4 u' (tot + k)); try done; lia.
Qed.

Lemma readi_ok_all y u :
  io_rep y D -> P 0 u -> is_u64 dst ->
  exists y' u', readi ip user dst off n (with_all y u s0) = Ok n (with_all y' u' s0) /\ io_rep y' D /\ P n u'.
Proof.
  intros HR HP Hdst. pose proof Hready as [_ Hlk HL HB Hd [Hx Hf]]. fold x in Hx, Hf. pose proof (bo_size _ _ _ _ _ Hf) as Hsz.
  pose proof file_consts as Hc. unfold readi. erewrite bind_ok by reflexivity.
  change (i_size (f_inode (with_all y u s0) ip)) with (di_size x). rewrite u32_small by (unfold is_u32, BSIZE in *; lia).
  rewrite (proj2 (Z.ltb_ge (di_size x) off)), (proj2 (Z.ltb_ge (off + n) off)), (proj2 (Z.ltb_ge (di_size x) (off + n))) by lia.
  cbn [orb]. cbn zeta.
  destruct (readi_loop_ok (io_fuel n) y u 0 HR HP ltac:(lia) (io_left_init off n Hoff Hn)) as (y' & u' & H1 & R1 & P1).
  rewrite !Z.add_0_r, u64_small in H1 by done. rewrite (bind_ok _ _ _ _ _ H1). exists y', u'. split; [|done].
  run. f_equal. unfold i32. rewrite Z.mod_small; unfold BSIZE in *; lia.
Qed.
End read.

Section readers.
Context {B U : Type} `{BIO : BlockIO B} (dev : Z) `{BS : !BlockIOSpec B dev} `{UIO : UserIO U} `{UL : !UserLaws U}.
Implicit Types s : fstate B U.

(** A read past the end is cut there; one that starts past it reads nothing. *)
Lemma readi_clamp s ip user dst off n :
  let size := i_size (f_inode s ip) in
  0 <= off <= size -> 0 <= n -> off + n < 2^32 -> size < 2^32 ->
  readi ip user dst off n s = readi ip user dst off (Z.min n (size - off)) s.
Proof.
  intros size Ho Hn Hs Hsz. unfold readi. rewrite !(bind_ok _ _ _ _ _ (eq_refl : gets (fun s => f_inode s ip) s = Ok (f_inode s ip) s)).
  fold size. rewrite !u32_small by (unfold is_u32; lia).
  rewrite (proj2 (Z.ltb_ge size off)), (proj2 (Z.ltb_ge (off + n) off)), (proj2 (Z.ltb_ge (off + Z.min n (size - off)) off)) by lia.
  cbn [orb]. rewrite (proj2 (Z.ltb_ge size (off + Z.min n (size - off)))) by lia.
  destruct (Z.ltb_spec size (off + n)).
  - now replace (Z.min n (size - off)) with (size - off) by lia.
  - now replace (Z.min n (size - off)) with n by lia.
Qed.

Lemma readi_past s ip user dst off n :
  i_size (f_inode s ip) < off \/ u32 (off + n) < off -> readi ip user dst off n s = Ok 0 s.
Proof.
  intros H. unfold readi. erewrite bind_ok by reflexivity.
  destruct (i_size (f_inode s ip) <? off) eqn:E; [done|]. rewrite (proj2 (Z.ltb_lt (u32 (off + n)) off)) by lia. done.
Qed.

Lemma f_mem_set y m u s : f_mem (with_all y (u_set_mem m u) s) = m.
Proof. apply u_mem_set. Qed.

(** Into kernel memory. *)
Lemma readi_kernel s D ip dst off n :
  ready dev ip s D -> 0 <= off -> 0 <= n -> off + n <= i_size (f_inode s ip) -> 0 <= dst -> dst + n < 2^64 ->
  exists y, readi ip false dst off n s = Ok n (with_all y
      (u_set_mem (wr_bytes (f_mem s) dst (fslice (d_data D) (i_dinode (f_inode s ip)) off n)) (f_user s)) s) /\ io_rep y D.
Proof.
  intros HR Ho Hn He Hd Hd'. set (x := i_dinode (f_inode s ip)).
  destruct (readi_ok_all dev s D ip false dst off n HR Ho Hn He
    (fun tot u => u = u_set_mem (wr_bytes (f_mem s) dst (fslice (d_data D) x off tot)) (f_user s))) with (y := f_io s) (u := f_user s)
    as (y & u & H1 & R1 & ->).
  - intros y u tot k -> Ht Hk Hle. eexists. split; [reflexivity|]. cbn [f_user with_all]. unfold f_mem at 1. cbn [f_user with_all].
    rewrite u_mem_set, u_set_set. rewrite (fslice_app _ _ off tot (tot + k)), wr_bytes_app, length_fslice by lia. rewrite u64_small by (unfold is_u64; lia).
    do 3 f_equal; [lia|]. now replace (tot + k - tot) with k by lia.
  - apply HR.
  - cbn. symmetry. apply u_set_mem_mem.
  - unfold is_u64. lia.
  - exists y. split; [|done]. rewrite <- H1. now destruct s.
Qed.
End readers.

Lemma IBLOCK_range sb h inum : layout sb h -> 0 <= inum < sb_ninodes sb -> sb_inodestart sb <= IBLOCK inum sb < sb_bmapstart sb.
Proof.
  intros [_ _ [H1 H2] _] Hi. unfold IBLOCK. pose proof (Z.div_pos inum IPB ltac:(lia) ltac:(done)).
  pose proof (Z.div_le_mono inum (sb_ninodes sb) IPB ltac:(done) ltac:(lia)). lia.
Qed.

Lemma WF_put_dinode off x d : dinode_ok x -> 0 <= off -> off + 64 <= BSIZE -> WF_block d -> WF_block (put_dinode off x d).
Proof.
  intros Hx Ho Hl HW. unfold WF_block in *. destruct (put_dinode_spec off x d) as [-> _]; [apply Hx|done|lia|done].
Qed.

(** Writing an inode block leaves the bitmap and the data alone. *)
Lemma meta_extends sb h (W : Z -> Prop) D b d :
  layout sb h -> W b -> 0 <= b < sb_bmapstart sb -> extends sb W D (d_put b d D).
Proof.
  intros HL HW Hb. pose proof (layout_pos sb h HL) as HP. split; try done.
  - cbn. set_solver.
  - intros c Hc E. rewrite used_put. pose proof (BBLOCK_range sb h c HL Hc). now rewrite (proj2 (Z.eqb_neq _ b)) by lia.
  - intros c Hc Hn. cbn. apply fn_lookup_insert_ne. intros ->. auto.
  - intros c [Hc _] Hn. cbn. apply fn_lookup_insert_ne. intros ->. auto.
Qed.

Lemma meta_bitmap sb D b d :
  layout sb (d_start D) -> bitmap_ok sb D -> d_locked D = ∅ -> 0 <= b < sb_bmapstart sb -> bitmap_ok sb (d_put b d D).
Proof.
  intros HL [B1 B2] Hlk Hb. split.
  - intros c Hc. apply (ex_used _ _ _ _ (meta_extends sb _ (fun _ => True) D b d HL I Hb)); [|auto].
    pose proof (ly_size _ _ HL). lia.
  - intros c Hc. cbn in Hc. now apply (none_locked D c) in Hlk.
Qed.

Lemma meta_file sb D b d x :
  layout sb (d_start D) -> 0 <= b < sb_bmapstart sb -> file_ok sb D x -> file_ok sb (d_put b d D) x /\
    forall bn, file_addr (d_data (d_put b d D)) x bn = file_addr (d_data D) x bn.
Proof.
  intros HL Hb [Hx Hf]. pose proof (meta_extends sb _ (fun c => c = b) D b d HL eq_refl Hb) as HE. pose proof (layout_pos sb _ HL).
  assert (forall bn, file_addr (d_data (d_put b d D)) x bn = file_addr (d_data D) x bn) as Ea.
  { intros bn. unfold file_addr. destruct (bn <? NDIRECT); [done|]. destruct (Z.eqb_spec (addr x NDIRECT) 0) as [|Hi]; [done|].
    destruct (bo_ind _ _ _ _ _ Hf Hi) as [Hid _]. rewrite (ex_data _ _ _ _ HE) by (done || (destruct Hid; lia)). done. }
  split; [|done]. split; [done|]. eapply (blocks_ok_mono sb D); [exact Hf| |done].
  intros c. now apply (data_block_mono sb (d_start D) _ _ _ _ HL HE).
Qed.

Section write.
Context {B U : Type} `{BIO : BlockIO B} (dev : Z) `{BS : !BlockIOSpec B dev} `{UIO : UserIO U} `{UL : !UserLaws U}.
Implicit Types s : fstate B U.

Lemma iupdate_ok s T n D ip :
  let sb := f_sb s in let x := f_inode s ip in let D' := put_inode sb (i_inum x) (i_dinode x) D in
  ready dev ip s D -> 0 <= i_inum x < sb_ninodes sb -> IBLOCK (i_inum x) sb ∈ T -> budget T D n ->
  exists y, iupdate ip s = Ok tt (with_io y s) /\ ready dev ip (with_io y s) D' /\ budget T D' n.
Proof.
  intros sb x D' [HR Hlk HL HB Hd [Hx Hf]] Hi HT Hn. unfold iupdate. do 2 erewrite bind_ok by reflexivity. fold sb x. fold x in Hd. rewrite Hd.
  pose proof (IBLOCK_range sb _ _ HL Hi) as Hib. set (b := IBLOCK (i_inum x) sb) in *. pose proof (layout_pos sb _ HL) as HP. fold sb in HB, HL.
  destruct (fbread dev s D b HR) as (h & y1 & H1 & R1 & h1 & D1 & _); [now apply none_locked|now apply size_none_locked|].
  rewrite (bind_ok _ _ _ _ _ H1). erewrite bind_ok by reflexivity. cbn [f_io with_io]. rewrite D1.
  destruct (fupdate dev (with_io y1 s) D b h (put_dinode (ioff (i_inum x)) (i_dinode x) (d_data D b))) as (y2 & _ & H2 & R2 & _);
    [exact R1|exact h1|now apply none_locked| | |now eapply budget_log; eauto|].
  { apply WF_put_dinode; [done|apply ioff_range|apply ioff_range|apply (io_wf _ _ _ HR)]. }
  { apply (home_data sb (d_start D)); try done. pose proof (ly_size _ _ HL). unfold datastart in *. lia. }
  exists y2. split; [exact H2|]. split.
  - split; try done; [exact (meta_bitmap sb D b _ HL HB Hlk ltac:(lia))|]. exact (proj1 (meta_file sb D b _ _ HL ltac:(lia) (conj Hx Hf))).
  - apply budget_in; [done|]. apply elem_of_union. now left.
Qed.

(** The blocks of a file. *)
Definition own_block (D : dview) (x : dinode) (b : Z) : Prop :=
  own_ind x b \/ exists bn, 0 <= bn < MAXFILE /\ b = file_addr (d_data D) x bn /\ b <> 0.

Lemma own_data sb D x b : file_ok sb D x -> own_block D x b -> data_block sb D b.
Proof.
  intros [_ Hf] [[-> Hb]|(bn & Hbn & -> & Hb)]; [now apply (bo_ind _ _ _ _ _ Hf)|now apply (bo_data _ _ _ _ _ Hf)].
Qed.

(** Writing one of the file's blocks. *)
Lemma put_own sb D x bn d :
  let r := file_addr (d_data D) x bn in let D' := d_put r d D in
  layout sb (d_start D) -> file_ok sb D x -> 0 <= bn < MAXFILE -> r <> 0 ->
  file_ok sb D' x /\ (forall bn', file_addr (d_data D') x bn' = file_addr (d_data D) x bn') /\
  forall k, 0 <= k / BSIZE < MAXFILE -> file_addr (d_data D) x (k / BSIZE) <> 0 ->
    fbyte (d_data D') x k = if k / BSIZE =? bn then get8 (k mod BSIZE) d else fbyte (d_data D) x k.
Proof.
  intros r D' HL [Hx Hf] Hbn Hr. pose proof (bo_data _ _ _ _ _ Hf bn Hbn Hr) as Hrd. fold r in Hrd.
  assert (forall bn', file_addr (d_data D') x bn' = file_addr (d_data D) x bn') as Ea.
  { intros bn'. unfold file_addr. destruct (bn' <? NDIRECT); [done|]. destruct (Z.eqb_spec (addr x NDIRECT) 0) as [|Hi]; [done|].
    destruct (bo_ind _ _ _ _ _ Hf Hi) as [_ Hne]. unfold D'. cbn. rewrite fn_lookup_insert_ne; [done|]. now apply Hne. }
  pose proof (put_extends sb _ (fun c => c = r) D r d HL eq_refl Hrd) as HE.
  split; [|split; [done|]].
  - split; [done|]. eapply (blocks_ok_mono sb D); [exact Hf| |done].
    intros c. now apply (data_block_mono sb (d_start D) _ _ _ _ HL HE).
  - intros k Hk Hk0. unfold fbyte. rewrite Ea. unfold D'. cbn. destruct (Z.eqb_spec (k / BSIZE) bn) as [->|Hne].
    + now rewrite fn_lookup_insert.
    + rewrite fn_lookup_insert_ne; [done|]. intros E. apply Hne. symmetry. now apply (bo_inj _ _ _ _ _ Hf).
Qed.

(** The first [tot] bytes of [bs] written at offset [off]. *)
Record wrote (ip off : Z) (bs : list Z) (tot : Z) s (D : dview) s' (D' : dview) : Prop := Wrote {
  wt_same : fsame ip s s';
  wt_user : f_user s' = f_user s;
  wt_ready : ready dev ip s' D';
  wt_ext : extends (f_sb s) (own_block D (i_dinode (f_inode s ip))) D D';
  wt_own b : own_block D' (i_dinode (f_inode s' ip)) b -> data_block (f_sb s) D b -> own_block D (i_dinode (f_inode s ip)) b;
  wt_fields : exists l, i_dinode (f_inode s' ip) =
    let x := i_dinode (f_inode s ip) in Dinode (di_type x) (di_major x) (di_minor x) (di_nlink x) (di_size x) l;
  wt_addr bn : 0 <= bn < MAXFILE -> file_addr (d_data D) (i_dinode (f_inode s ip)) bn <> 0 ->
    file_addr (d_data D') (i_dinode (f_inode s' ip)) bn = file_addr (d_data D) (i_dinode (f_inode s ip)) bn;
  wt_alloc bn : 0 <= bn -> bn * BSIZE < off + tot -> file_addr (d_data D') (i_dinode (f_inode s' ip)) bn <> 0;
  wt_in k : off <= k < off + tot -> fbyte (d_data D') (i_dinode (f_inode s' ip)) k = get8 (k - off) bs;
  wt_out k : 0 <= k / BSIZE < MAXFILE -> k < off \/ off + tot <= k ->
    file_addr (d_data D) (i_dinode (f_inode s ip)) (k / BSIZE) <> 0 ->
    fbyte (d_data D') (i_dinode (f_inode s' ip)) k = fbyte (d_data D) (i_dinode (f_inode s ip)) k;
}.

Lemma wrote_none ip off bs s D : ready dev ip s D -> 0 <= off <= i_size (f_inode s ip) -> wrote ip off bs 0 s D s D.
Proof.
  intros HR Ho. split; try done.
  - apply fsame_refl.
  - exists (di_addrs (i_dinode (f_inode s ip))). now destruct (i_dinode (f_inode s ip)).
  - intros bn Hbn Hlt. apply (bo_alloc _ _ _ _ _ (proj2 (rd_file _ _ _ _ HR))); [done|]. unfold i_size in Ho. lia.
  - lia.
Qed.

Lemma get8_splice i bs d k :
  0 <= i -> 0 <= k -> i + Z.of_nat (length bs) <= Z.of_nat (length d) ->
  get8 k (splice i bs d) = if (i <=? k) && (k <? i + Z.of_nat (length bs)) then get8 (k - i) bs else get8 k d.
Proof.
  intros Hi Hk Hl. unfold get8. rewrite lookup_splice by done.
  destruct (decide _); destruct ((i <=? k) && (k <? i + Z.of_nat (length bs))) eqn:E; try lia.
  do 2 f_equal. lia.
Qed.

Lemma get8_slice i n d k : 0 <= i -> 0 <= k < n -> get8 k (slice i n d) = get8 (i + k) d.
Proof. intros Hi Hk. unfold get8. rewrite lookup_slice_in by lia. do 2 f_equal. lia. Qed.

Lemma bmap_own T n ip bn s1 D1 r s2 D2 b :
  bmap_post dev T n ip bn s1 D1 r s2 D2 -> 0 <= bn < MAXFILE -> own_block D2 (i_dinode (f_inode s2 ip)) b ->
  data_block (f_sb s1) D1 b -> own_block D1 (i_dinode (f_inode s1 ip)) b.
Proof.
  intros [S1 S2 S3 S4 S5 Si S6 S7 S8 S9 S10 S11] Hbn [[Eb Hb]|(bn' & Hbn' & Eb & Hb)] Hd.
  - cbn zeta in Si. rewrite <- Eb in Si. destruct Si as [Si|Si]; [left; now split|done].
  - right. destruct (Z.eq_dec bn' bn) as [->|Hne].
    + destruct (Z.eq_dec (file_addr (d_data D1) (i_dinode (f_inode s1 ip)) bn) 0) as [E0|E0].
      * destruct (S9 E0) as (_ & _ & Hn); [congruence|]. rewrite S6, <- Eb in Hn. done.
      * exists bn. split; [done|]. split; [|done]. rewrite Eb, <- S6. now apply S8.
    + exists bn'. split; [done|]. split; [|done]. rewrite Eb. now apply S7.
Qed.

(** A range of bytes written in one block. *)
Lemma put_range sb D x off tot m bs :
  let bn := (off + tot) / BSIZE in let r := file_addr (d_data D) x bn in
  let D' := d_put r (splice ((off + tot) mod BSIZE) (slice tot m bs) (d_data D r)) D in
  layout sb (d_start D) -> file_ok sb D x -> 0 <= bn < MAXFILE -> r <> 0 -> WF_block (d_data D r) ->
  0 <= off -> 0 <= tot -> 0 < m -> (off + tot) mod BSIZE + m <= BSIZE -> tot + m <= Z.of_nat (length bs) ->
  forall k, 0 <= k / BSIZE < MAXFILE -> file_addr (d_data D) x (k / BSIZE) <> 0 ->
    fbyte (d_data D') x k = if (off + tot <=? k) && (k <? off + tot + m) then get8 (k - off) bs else fbyte (d_data D) x k.
Proof.
  intros bn r D' HL Hf Hbn Hr HW Ho Ht Hm Hle Hlen k Hk H0.
  destruct (put_own sb D x bn (splice ((off + tot) mod BSIZE) (slice tot m bs) (d_data D r)) HL Hf Hbn Hr) as (_ & _ & P3).
  unfold D'. rewrite P3 by done. fold r. pose proof (Z.mod_pos_bound (off + tot) BSIZE ltac:(done)) as Hmod.
  pose proof (Z.mod_pos_bound k BSIZE ltac:(done)) as Hmodk. assert (k = BSIZE * (k / BSIZE) + k mod BSIZE) as Ek by (apply Z.div_mod; done).
  assert (off + tot = BSIZE * bn + (off + tot) mod BSIZE) as Eo by (apply Z.div_mod; done).
  assert (Z.of_nat (length (slice tot m bs)) = m) as Hls by (apply length_slice; lia). unfold WF_block in HW.
  destruct (Z.eqb_spec (k / BSIZE) bn) as [Eb|Eb].
  - rewrite get8_splice by lia. rewrite Hls.
    replace ((off + tot <=? k) && (k <? off + tot + m)) with (((off + tot) mod BSIZE <=? k mod BSIZE) && (k mod BSIZE <? (off + tot) mod BSIZE + m)) by (rewrite Eb in Ek; lia).
    destruct (_ && _) eqn:E.
    + rewrite get8_slice by lia. f_equal. rewrite Eb in Ek. lia.
    + unfold fbyte. rewrite Eb. done.
  - destruct (_ && _) eqn:E; [|done]. exfalso. apply Eb. unfold bn. unfold BSIZE in *. dlia.
Qed.

(** Changing further blocks of the file. *)
Lemma extends_own sb D x D1 x1 (W : Z -> Prop) D2 :
  layout sb (d_start D) -> file_ok sb D1 x1 -> extends sb (own_block D x) D D1 ->
  (forall b, own_block D1 x1 b -> data_block sb D b -> own_block D x b) ->
  extends sb W D1 D2 -> (forall b, W b -> own_block D1 x1 b) -> extends sb (own_block D x) D D2.
Proof.
  intros HL Hf HE Hown HE2 HW. apply (extends_drop sb (fun b => own_block D x b \/ W b)).
  - intros b [Hb|Hb] Hn; [done|]. pose proof (own_data sb _ _ _ Hf (HW b Hb)) as [Hr _]. pose proof (layout_pos sb _ HL).
    split; [intros Hd; apply Hn; auto|lia].
  - eapply extends_trans; [exact HL|eapply extends_weaken; [|exact HE]; tauto|eapply extends_weaken; [|exact HE2]; tauto].
Qed.

(** [bmap] writes nothing. *)
Lemma wrote_bmap T n ip off bs tot bn s D s1 D1 r s2 D2 :
  ready dev ip s D -> wrote ip off bs tot s D s1 D1 -> bmap_post dev T n ip bn s1 D1 r s2 D2 -> 0 <= bn < MAXFILE ->
  0 <= off -> off + tot <= MAXFILE * BSIZE -> wrote ip off bs tot s D s2 D2.
Proof.
  intros [_ _ HL _ _ Hf0] HW HP Hbn Ho Hend. destruct HW as [W1 W2 W3 W4 W5 W6 W7 W8 W9 W10].
  pose proof (fs_sb _ _ _ W1) as Hsb. pose proof (rd_file _ _ _ _ W3) as Hf1.
  pose proof HP as [S1 S2 S3 S4 S5 Si S6 S7 S8 S9 S10 S11]. rewrite Hsb in *.
  set (x := i_dinode (f_inode s ip)) in *. set (x1 := i_dinode (f_inode s1 ip)) in *. set (x2 := i_dinode (f_inode s2 ip)) in *.
  assert (forall bn', 0 <= bn' < MAXFILE -> file_addr (d_data D1) x1 bn' <> 0 -> file_addr (d_data D2) x2 bn' = file_addr (d_data D1) x1 bn') as Hold.
  { intros bn' Hbn' H0. destruct (Z.eq_dec bn' bn) as [->|Hne]; [|now apply S7]. rewrite <- S6. now apply S8. }
  assert (forall k, 0 <= k / BSIZE < MAXFILE -> file_addr (d_data D1) x1 (k / BSIZE) <> 0 -> fbyte (d_data D2) x2 k = fbyte (d_data D1) x1 k) as Hb12.
  { intros k Hk H0. unfold fbyte. rewrite Hold by done. f_equal.
    apply (ex_data _ _ _ _ S4); [now apply (bo_data _ _ _ _ _ (proj2 Hf1)) | ].
    intros [Ei Hi]. rewrite Ei in Hi. exact (proj2 (bo_ind _ _ _ _ _ (proj2 Hf1) Hi) _ Hk Ei). }
  split.
  - eapply fsame_trans; [exact W1|exact S1].
  - congruence.
  - exact S3.
  - eapply (extends_own _ D x D1 x1); try done. intros b Hb. now left.
  - intros b Hb Hd. apply W5; [|done]. apply (bmap_own T n ip bn s1 D1 r s2 D2 b HP Hbn Hb).
    rewrite Hsb. now apply (data_block_mono _ _ _ _ _ _ HL W4).
  - destruct S5 as [l S5], W6 as [l' W6]. exists l. cbn zeta in *. fold x2. rewrite S5, W6. done.
  - intros bn' Hbn' H0. fold x2. rewrite Hold; rewrite ?W7; done.
  - intros bn' Hbn' Hlt. fold x2. rewrite Hold; [now apply W8|unfold BSIZE in *; lia|now apply W8].
  - intros k Hk. fold x2. rewrite Hb12; [now apply W9|unfold BSIZE in *; dlia|apply W8; unfold BSIZE; dlia].
  - intros k Hk Hout H0. fold x2. rewrite Hb12; [now apply W10|done|now rewrite W7].
Qed.

(** The next block is written. *)
Lemma wrote_put ip off bs tot m s D s2 D2 y :
  let bn := (off + tot) / BSIZE in let r := file_addr (d_data D2) (i_dinode (f_inode s2 ip)) bn in
  let D3 := d_put r (splice ((off + tot) mod BSIZE) (slice tot m bs) (d_data D2 r)) D2 in
  ready dev ip s D -> wrote ip off bs tot s D s2 D2 -> r <> 0 -> WF_block (d_data D2 r) -> io_rep y D3 ->
  0 <= off -> 0 <= tot -> 0 < m -> (off + tot) mod BSIZE + m <= BSIZE -> tot + m <= Z.of_nat (length bs) -> 0 <= bn < MAXFILE ->
  wrote ip off bs (tot + m) s D (with_io y s2) D3.
Proof.
  intros bn r D3 [_ _ HL _ _ Hf0] HW Hr Hwf Hy Ho Ht Hm Hle Hlen Hbn.
  destruct HW as [W1 W2 W3 W4 W5 W6 W7 W8 W9 W10]. pose proof (fs_sb _ _ _ W1) as Hsb.
  pose proof W3 as [_ Hlk2 HL2 HB2 Hd2 Hf2]. rewrite Hsb in *.
  set (x := i_dinode (f_inode s ip)) in *. set (x2 := i_dinode (f_inode s2 ip)) in *.
  pose proof (put_range (f_sb s) D2 x2 off tot m bs HL2 Hf2 Hbn Hr Hwf Ho Ht Hm Hle Hlen) as Hb3. cbn zeta in Hb3. fold bn r D3 in Hb3.
  destruct (put_own (f_sb s) D2 x2 bn (splice ((off + tot) mod BSIZE) (slice tot m bs) (d_data D2 r)) HL2 Hf2 Hbn Hr) as (P1 & P2 & _).
  fold r D3 in P1, P2.
  assert (own_block D2 x2 r) as Hro by (right; now exists bn). pose proof (own_data _ _ _ _ Hf2 Hro) as Hrd.
  split; cbn [f_inode f_sb f_user with_io]; fold x2.
  - eapply fsame_trans; [exact W1|apply fsame_io].
  - done.
  - split; cbn [f_io f_inode f_sb with_io]; rewrite ?Hsb; try done. now apply bitmap_put.
  - eapply (extends_own _ D x D2 x2 (fun b => b = r)); try done; [now apply (put_extends _ _ _ _ _ _ HL2)|now intros b ->].
  - intros b Hb Hd. apply W5; [|done]. destruct Hb as [Hb|(bn' & Hbn' & -> & Hb)]; [now left|right]. exists bn'. rewrite P2 in *. done.
  - done.
  - intros bn' Hbn' H0. rewrite P2. now apply W7.
  - intros bn' Hbn' Hlt. rewrite P2. destruct (Z.eq_dec bn' bn) as [->|Hne]; [done|]. apply W8; [done|]. unfold bn, BSIZE in *; dlia.
  - intros k Hk. destruct (Z_lt_le_dec k (off + tot)) as [Hlt|Hge].
    + rewrite Hb3; [|unfold bn, BSIZE in *; dlia|apply W8; unfold BSIZE; dlia]. destruct (_ && _) eqn:E; [lia|]. apply W9. lia.
    + assert (k / BSIZE = bn) as Ek by (unfold bn, BSIZE in *; dlia). rewrite Hb3; rewrite ?Ek; try done.
      destruct (_ && _) eqn:E; [done|lia].
  - intros k Hk Hout H0. rewrite Hb3 by (rewrite ?W7; done). destruct (_ && _) eqn:E; [lia|]. apply W10; try done. lia.
Qed.

Lemma budget_write T D r d n : budget T D n /\ (r ∈ d_logged D \/ budget T D (n + 1)) -> budget T (d_put r d D) n.
Proof.
  intros [H1 [H2|H2]]; [apply budget_in; [done|]; apply elem_of_union; now right|].
  apply budget_put. eapply budget_le; [|exact H2]. lia.
Qed.

Lemma WF_splice i bs d : 0 <= i -> i + Z.of_nat (length bs) <= BSIZE -> WF_block d -> WF_block (splice i bs d).
Proof. unfold WF_block. intros Hi Hl Hd. rewrite length_splice; lia. Qed.

(** The bytes [bs] can be copied in from [src]. *)
Definition source_ok (user : bool) (src : Z) (bs : list Z) s : Prop :=
  forall k m s', f_user s' = f_user s -> 0 <= k -> 0 <= m -> k + m <= Z.of_nat (length bs) ->
    either_copyin user (u64 (src + k)) m s' = Ok (slice k m bs, 0) s'.

Lemma slice_rd_bytes m src n k c :
  0 <= k -> 0 <= c -> k + c <= Z.of_nat n -> slice k c (rd_bytes m src n) = rd_bytes m (src + k) (Z.to_nat c).
Proof.
  intros Hk Hc Hle. pose proof (length_slice k c (rd_bytes m src n) Hk Hc ltac:(rewrite length_rd_bytes; lia)) as Hl.
  apply list_eq_same_length with (n := Z.to_nat c); [apply length_rd_bytes|lia|].
  intros i a b Hi Ha Hb. rewrite lookup_rd_bytes in Hb by done. rewrite lookup_slice_in, lookup_rd_bytes in Ha by lia.
  injection Ha as <-. injection Hb as <-. f_equal. lia.
Qed.

(** Bytes of kernel memory. *)
Lemma kernel_source src n s :
  0 <= src -> src + n < 2^64 -> 0 <= n -> source_ok false src (rd_bytes (f_mem s) src (Z.to_nat n)) s.
Proof.
  intros H1 H2 Hn k m s' Eu Hk Hm Hle. rewrite length_rd_bytes in Hle. unfold either_copyin. erewrite bind_ok by reflexivity.
  unfold f_mem. rewrite Eu, u64_small by (unfold is_u64; lia). now rewrite slice_rd_bytes by lia.
Qed.

(** What [writei] leaves after writing [tot] bytes. *)
Record written (ip off : Z) (bs : list Z) (tot : Z) s (D : dview) s' (D' : dview) : Prop := Written {
  wn_same : fsame ip s s';
  wn_user : f_user s' = f_user s;
  wn_ready : ready dev ip s' D';
  wn_fields : exists l, i_dinode (f_inode s' ip) =
    let x := i_dinode (f_inode s ip) in Dinode (di_type x) (di_major x) (di_minor x) (di_nlink x) (Z.max (di_size x) (off + tot)) l;
  wn_bytes k : 0 <= k < i_size (f_inode s' ip) -> fbyte (d_data D') (i_dinode (f_inode s' ip)) k =
    if (off <=? k) && (k <? off + tot) then get8 (k - off) bs else fbyte (d_data D) (i_dinode (f_inode s ip)) k;
  wn_disk j : 0 <= j < sb_ninodes (f_sb s) -> disk_inode (f_sb s) (d_data D') j =
    if j =? i_inum (f_inode s ip) then i_dinode (f_inode s' ip) else disk_inode (f_sb s) (d_data D) j;
  wn_ext : extends (f_sb s) (fun b => own_block D (i_dinode (f_inode s ip)) b \/ b = IBLOCK (i_inum (f_inode s ip)) (f_sb s)) D D';
  wn_own b : own_block D' (i_dinode (f_inode s' ip)) b -> data_block (f_sb s) D b -> own_block D (i_dinode (f_inode s ip)) b;
}.

Lemma blocks_ok_size sb D fa ind sz sz' :
  blocks_ok sb D fa ind sz -> 0 <= sz' <= MAXFILE * BSIZE -> (forall bn, 0 <= bn -> bn * BSIZE < sz' -> fa bn <> 0) ->
  blocks_ok sb D fa ind sz'.
Proof. intros [B1 B2 B3 B4 B5 B6] Hs Ha. split; done. Qed.

(** The size is set after the loop. *)
Definition grow (ip n : Z) : M (fstate B U) unit :=
  x ← gets (fun s => f_inode s ip); if i_size x <? n then upd_dinode ip (set_size n) else mret tt.

Lemma grow_ok ip off bs tot s D s1 D1 :
  wrote ip off bs tot s D s1 D1 -> 0 <= off -> 0 <= tot -> off + tot <= MAXFILE * BSIZE ->
  exists s2, grow ip (off + tot) s1 = Ok tt s2 /\ fsame ip s s2 /\ f_user s2 = f_user s /\ ready dev ip s2 D1 /\
    i_dinode (f_inode s2 ip) = set_size (Z.max (i_size (f_inode s ip)) (off + tot)) (i_dinode (f_inode s1 ip)).
Proof.
  intros [W1 W2 W3 W4 W5 [l W6] W7 W8 W9 W10] Ho Ht Hend. cbn zeta in W6.
  assert (i_size (f_inode s1 ip) = i_size (f_inode s ip)) as Esz by (unfold i_size; now rewrite W6).
  unfold grow. erewrite bind_ok by reflexivity. rewrite Esz. destruct (Z.ltb_spec (i_size (f_inode s ip)) (off + tot)) as [Hlt|Hge].
  - rewrite Z.max_r by lia. destruct (upd_dinode ip (set_size (off + tot)) s1) as [[] s2| |] eqn:E; [|done..].
    apply fsame_upd in E as (S1 & S2 & S3 & S4). exists s2. split; [done|]. split; [eapply fsame_trans; eassumption|].
    split; [congruence|]. split; [|done]. destruct W3 as [R1 R2 R3 R4 R5 [R6 R7]].
    destruct S1 as [F1 F2 F3 F4 F5 (z & F6)]. split; rewrite ?S3, ?F3; try done; [now rewrite F6|]. rewrite S2. split.
    + destruct R6 as [Q1 Q2 Q3 Q4 Q5 Q6 Q7]. split; try done. unfold is_u32. pose proof file_consts. cbn. lia.
    + eapply blocks_ok_size; [exact R7|cbn; lia|]. intros bn Hbn Hlt'. now apply W8.
  - exists s1. rewrite Z.max_l, <- Esz by lia. split; [done|]. split; [done|]. split; [done|]. split; [done|].
    unfold i_size. now destruct (i_dinode (f_inode s1 ip)).
Qed.

Lemma wrote_written ip off bs tot s D s1 D1 s2 y :
  let x2 := i_dinode (f_inode s2 ip) in let D' := put_inode (f_sb s2) (i_inum (f_inode s2 ip)) x2 D1 in
  ready dev ip s D -> 0 <= i_inum (f_inode s ip) < sb_ninodes (f_sb s) -> 0 <= off <= i_size (f_inode s ip) -> 0 <= tot -> off + tot <= MAXFILE * BSIZE ->
  wrote ip off bs tot s D s1 D1 -> fsame ip s s2 -> f_user s2 = f_user s -> ready dev ip (with_io y s2) D' ->
  x2 = set_size (Z.max (i_size (f_inode s ip)) (off + tot)) (i_dinode (f_inode s1 ip)) -> WF_block (d_data D1 (IBLOCK (i_inum (f_inode s ip)) (f_sb s))) ->
  written ip off bs tot s D (with_io y s2) D'.
Proof.
  intros x2 D' [_ _ HL _ _ Hf0] Hi Ho Ht Hend HW HS Hu HR3 Ex2 Hwf. pose proof (fs_sb _ _ _ HS) as Hsb. pose proof (fs_self _ _ _ HS) as [z Hz].
  destruct HW as [W1 W2 W3 W4 W5 [l W6] W7 W8 W9 W10]. cbn zeta in W6.
  assert (D' = put_inode (f_sb s) (i_inum (f_inode s ip)) x2 D1) as ED by (unfold D'; now rewrite Hsb, Hz).
  pose proof (IBLOCK_range _ _ _ HL Hi) as Hib. pose proof (layout_pos _ _ HL) as HP. set (b := IBLOCK (i_inum (f_inode s ip)) (f_sb s)) in *.
  pose proof W3 as [_ _ HL1 _ _ Hf1]. rewrite (fs_sb _ _ _ W1) in HL1, Hf1.
  destruct (meta_file (f_sb s) D1 b (put_dinode (ioff (i_inum (f_inode s ip))) x2 (d_data D1 b)) (i_dinode (f_inode s1 ip)) HL1 ltac:(lia) Hf1) as [Hf1' Ea].
  pose proof HR3 as [_ _ _ _ _ [Hx2 Hf2]]. cbn [f_inode with_io] in Hx2, Hf2. fold x2 in Hx2, Hf2.
  pose proof (bo_size _ _ _ _ _ (proj2 Hf0)) as Hsz. fold (i_size (f_inode s ip)) in Hsz. pose proof file_consts as Hc.
  assert (forall k, 0 <= k < Z.max (i_size (f_inode s ip)) (off + tot) -> fbyte (d_data D') x2 k = fbyte (d_data D1) (i_dinode (f_inode s1 ip)) k) as Hby.
  { intros k Hk. rewrite ED, Ex2. unfold fbyte, put_inode. fold b. change (file_addr ?d (set_size ?a ?c) ?e) with (file_addr d c e). rewrite Ex2 in Ea.
    rewrite Ea. cbn. rewrite fn_lookup_insert_ne; [done|]. intros Eb.
    assert (data_block (f_sb s) D1 b) as [Hbd _]; [|lia]. rewrite Eb. apply (bo_data _ _ _ _ _ (proj2 Hf1)); [unfold BSIZE in *; dlia|].
    destruct (Z_lt_le_dec k (off + tot)) as [Hk'|Hk']; [apply W8; unfold BSIZE; dlia|].
    apply (bo_alloc _ _ _ _ _ (proj2 Hf1)); [unfold BSIZE; dlia|]. rewrite W6. cbn. fold (i_size (f_inode s ip)). unfold BSIZE. dlia. }
  assert (forall j, 0 <= j < sb_ninodes (f_sb s) -> disk_inode (f_sb s) (d_data D1) j = disk_inode (f_sb s) (d_data D) j) as Hd1.
  { intros j Hj. unfold disk_inode. f_equal. pose proof (IBLOCK_range _ _ _ HL Hj). apply (ex_meta _ _ _ _ W4); [lia|].
    intros Hown. pose proof (own_data _ _ _ _ Hf0 Hown) as [? _]. lia. }
  split; cbn [f_inode f_sb f_user with_io]; fold x2; try done.
  - eapply fsame_trans; [exact HS|apply fsame_io].
  - exists l. rewrite Ex2, W6. done.
  - intros k Hk. assert (i_size (f_inode s2 ip) = Z.max (i_size (f_inode s ip)) (off + tot)) as Es by (unfold i_size at 1; fold x2; now rewrite Ex2).
    rewrite Es in Hk. rewrite Hby by done. destruct (_ && _) eqn:E; [apply W9; lia|].
    apply W10; [unfold BSIZE in *; dlia|lia|]. apply (bo_alloc _ _ _ _ _ (proj2 Hf0)); [unfold BSIZE; dlia|].
    fold (i_size (f_inode s ip)). unfold BSIZE. dlia.
  - intros j Hj. rewrite ED, disk_put_inode by (done || lia). destruct (j =? _); [done|]. now apply Hd1.
  - rewrite ED. eapply extends_trans; [exact HL|eapply extends_weaken; [|exact W4]; tauto|].
    apply (meta_extends _ _ _ _ _ _ HL1); [now right|lia].
  - intros c Hc' Hd. apply W5; [|done]. destruct Hc' as [Hc'|(bn & Hbn & Ec & Hc0)]; [left; unfold own_ind in *; rewrite Ex2 in Hc'; exact Hc'|right].
    exists bn. split; [done|]. split; [|done]. rewrite Ec, ED, Ex2. change (file_addr ?d (set_size ?a ?c) ?e) with (file_addr d c e).
    rewrite Ex2 in Ea. apply Ea.
Qed.

Section writing.
Context (T : gset Z) s (D : dview) (ip : Z) (user : bool) (src off n : Z) (bs : list Z).
Context (Hready : ready dev ip s D) (Hsrc : source_ok user src bs s) (Hlen : Z.of_nat (length bs) = n).
Context (Ho : 0 <= off <= i_size (f_inode s ip)) (Hend : off + n <= MAXFILE * BSIZE) (HT : bmaps (f_sb s) ⊆ T).

Lemma writei_loop_ok fuel : forall s1 D1 tot,
  wrote ip off bs tot s D s1 D1 -> 0 <= tot <= n -> budget T D1 (2 * (Z.to_nat (io_left off n tot) - 1)) ->
  (Z.to_nat (io_left off n tot) <= fuel)%nat ->
  exists tot' s' D', writei_loop fuel ip user (u64 (src + tot)) (off + tot) n tot s1 = Ok (tot', off + tot') s' /\
    wrote ip off bs tot' s D s' D' /\ 0 <= tot' <= n /\ budget T D' 0 /\
    (tot' = n \/ forall c, 0 <= c < sb_size (f_sb s) -> used (f_sb s) (d_data D') c = true) /\
    (tot' = n \/ tot' = tot \/ (off + tot') mod BSIZE = 0).
Proof.
  pose proof file_consts as Hc.
  induction fuel as [|fuel IH]; intros s1 D1 tot HW Ht Hb Hfu; [pose proof (io_left_pos off n tot); lia|].
  cbn [writei_loop]. destruct (Z.ltb_spec tot n) as [Hlt|Hge].
  2: { exists tot, s1, D1. split; [done|]. split; [done|]. split; [lia|]. split; [eapply budget_le; [|exact Hb]; lia|]. split; left; lia. }
  destruct (io_left_step off n tot ltac:(lia) ltac:(lia)) as (Hm1 & Hm2 & Hm3).
  pose proof (io_left_pos off n (tot + Z.min (n - tot) (BSIZE - (off + tot) mod BSIZE)) ltac:(lia) ltac:(lia)) as Hm4.
  set (k := Z.min (n - tot) (BSIZE - (off + tot) mod BSIZE)) in *.
  pose proof (wt_ready _ _ _ _ _ _ _ _ HW) as HR1. pose proof (fs_sb _ _ _ (wt_same _ _ _ _ _ _ _ _ HW)) as Hsb.
  assert (0 <= (off + tot) / BSIZE < MAXFILE) as Hbn by (unfold BSIZE in *; dlia).
  destruct (bmap_ok dev s1 T (2 * (Z.to_nat (io_left off n (tot + k)) - 1)) D1 ip ((off + tot) / BSIZE) HR1 Hbn) as (r & s2 & D2 & H1 & HP);
    [now rewrite Hsb|eapply budget_le; [|exact Hb]; lia|].
  rewrite (bind_ok _ _ _ _ _ H1). destruct (Z.eqb_spec r 0) as [E0|Hr].
  { exists tot, s2, D2. split; [done|]. split; [eapply wrote_bmap; eauto; lia|]. split; [lia|].
    split; [eapply budget_le; [|exact (proj1 (bp_budget _ _ _ _ _ _ _ _ _ _ HP))]; lia|]. split; [right|auto].
    rewrite <- Hsb. exact (bp_full _ _ _ _ _ _ _ _ _ _ HP E0). }
  assert (wrote ip off bs tot s D s2 D2) as HW2 by (eapply wrote_bmap; eauto; lia).
  pose proof (wt_user _ _ _ _ _ _ _ _ HW2) as Eu. pose proof (wt_ready _ _ _ _ _ _ _ _ HW2) as HR2.
  pose proof HR2 as [R2 Hlk2 HL2 HB2 Hd2 Hf2]. pose proof (bp_addr _ _ _ _ _ _ _ _ _ _ HP) as Er.
  erewrite bind_ok by reflexivity. rewrite Hd2.
  destruct (fbread dev s2 D2 r R2) as (h & y3 & H3 & R3 & h3 & D3 & _); [now apply none_locked|now apply size_none_locked|].
  rewrite (bind_ok _ _ _ _ _ H3). cbn zeta. rewrite (bind_ok _ _ _ _ _ (Hsrc tot k (with_io y3 s2) Eu ltac:(lia) ltac:(lia) ltac:(lia))).
  erewrite bind_ok by reflexivity. cbn [f_io with_io fst snd]. rewrite D3. change (0 =? -1) with false. cbn iota.
  assert (data_block (f_sb s2) D2 r) as Hrd by (rewrite Er; apply (bo_data _ _ _ _ _ (proj2 Hf2)); [done|congruence]).
  destruct (fupdate dev (with_io y3 s2) D2 r h (splice ((off + tot) mod BSIZE) (slice tot k bs) (d_data D2 r))) as (y4 & H4 & _ & R4 & _);
    [exact R3|exact h3|now apply none_locked| | | |].
  { apply WF_splice; [apply Z.mod_pos_bound; done|rewrite length_slice; lia|apply (io_wf _ _ _ R2)]. }
  { apply (home_data (f_sb s2) (d_start D2)); [done|done|]. destruct Hrd. pose proof (layout_pos _ _ HL2). lia. }
  { exact (budget_logged T D2 r [] _ (budget_write T D2 r [] _ (bp_budget _ _ _ _ _ _ _ _ _ _ HP))). }
  rewrite H4. change (with_io y4 (with_io y3 s2)) with (with_io y4 s2).
  replace (u64 (u64 (src + tot) + k)) with (u64 (src + (tot + k))) by (unfold u64; rewrite Z.add_mod_idemp_l by lia; f_equal; lia).
  rewrite !u32_small by (unfold is_u32, BSIZE in *; lia). replace (off + tot + k) with (off + (tot + k)) by lia.
  pose proof (wrote_put ip off bs tot k s D s2 D2 y4) as HW3. cbn zeta in HW3. rewrite <- Er in HW3.
  destruct (IH (with_io y4 s2) (d_put r (splice ((off + tot) mod BSIZE) (slice tot k bs) (d_data D2 r)) D2) (tot + k)) as (tot' & s' & D' & G1 & G2 & G3 & G4 & G5 & G6).
  - apply HW3; try done; try lia. apply (io_wf _ _ _ R2).
  - lia.
  - exact (budget_write T D2 r _ _ (bp_budget _ _ _ _ _ _ _ _ _ _ HP)).
  - lia.
  - exists tot', s', D'. split; [exact G1|]. split; [exact G2|]. split; [exact G3|]. split; [exact G4|]. split; [exact G5|].
    destruct G6 as [G6|[->|G6]]; [now left| |now right; right]. destruct (Z.eq_dec (tot + k) n); [now left|right; right].
    subst k. unfold BSIZE in *. dlia.
Qed.

Context (Hinum : 0 <= i_inum (f_inode s ip) < sb_ninodes (f_sb s)) (HiT : IBLOCK (i_inum (f_inode s ip)) (f_sb s) ∈ T).

Lemma writei_ok :
  budget T D (2 * (Z.to_nat (io_left off n 0) - 1)) -> is_u64 src ->
  exists tot s' D', writei ip user src off n s = Ok tot s' /\ written ip off bs tot s D s' D' /\ 0 <= tot <= n /\
    budget T D' 0 /\ (tot = n \/ forall c, 0 <= c < sb_size (f_sb s) -> used (f_sb s) (d_data D') c = true) /\
    (tot = n \/ tot = 0 \/ (off + tot) mod BSIZE = 0).
Proof.
  intros Hb Hs. pose proof file_consts as Hc. pose proof (rd_file _ _ _ _ Hready) as [_ Hf].
  pose proof (bo_size _ _ _ _ _ Hf) as Hsz. fold (i_size (f_inode s ip)) in Hsz.
  unfold writei. erewrite bind_ok by reflexivity. rewrite u32_small by (unfold is_u32, BSIZE in *; lia).
  rewrite (proj2 (Z.ltb_ge (i_size (f_inode s ip)) off)), (proj2 (Z.ltb_ge (off + n) off)), (proj2 (Z.ltb_ge (MAXFILE * BSIZE) (off + n))) by lia.
  cbn [orb].
  destruct (writei_loop_ok (io_fuel n) s D 0 (wrote_none ip off bs s D Hready Ho) ltac:(lia) Hb (io_left_init off n ltac:(lia) ltac:(lia)))
    as (tot & s1 & D1 & H1 & HW & Ht & Hb1 & Hfull & Hbd).
  rewrite !Z.add_0_r, u64_small in H1 by done. rewrite (bind_ok _ _ _ _ _ H1). cbn [fst snd].
  destruct (grow_ok ip off bs tot s D s1 D1 HW) as (s2 & H2 & S2 & U2 & R2 & X2); [lia|lia|lia|].
  pose proof (fs_sb _ _ _ S2) as Hsb. pose proof (fs_self _ _ _ S2) as [z Hz].
  destruct (iupdate_ok s2 T 0 D1 ip R2) as (y & H3 & R3 & B3);
    [now rewrite Hz, Hsb|now rewrite Hz, Hsb|done|].
  exists tot, (with_io y s2). eexists. split.
  { erewrite <- bind_assoc. fold (grow ip (off + tot)). rewrite (bind_ok _ _ _ _ _ H2), (bind_ok _ _ _ _ _ H3). run.
    f_equal. unfold i32. rewrite Z.mod_small; unfold BSIZE in *; lia. }
  split; [|split; [done|split; [exact B3|split; [|done]]]].
  - eapply wrote_written; try eassumption; try lia. apply (io_wf _ _ _ (rd_rep _ _ _ _ R2)).
  - destruct Hfull as [->|Hfull]; [now left|right]. intros c Hc'. rewrite <- Hsb in *.
    apply (ex_used _ _ _ _ (meta_extends (f_sb s2) _ (fun _ => True) D1 (IBLOCK (i_inum (f_inode s2 ip)) (f_sb s2)) _ (rd_layout _ _ _ _ R2) I ltac:(
      pose proof (IBLOCK_range _ _ (i_inum (f_inode s2 ip)) (rd_layout _ _ _ _ R2)); pose proof (layout_pos _ _ (rd_layout _ _ _ _ R2)); rewrite Hz in *; cbn in *; lia))); [done|auto].
Qed.
End writing.
End write.
