(* ===== verification/FsTable.v ===== *)
(** * kernel/fs.c: the inode table

    The invariant of the table, the count of references it keeps for each
    inode, and [iget], [idup], [ilock], [iunlock] and the [iput] that does not
    free, as operations on that count. *)

From stdpp Require Import base gmap numbers strings functions list.
From Stdlib Require Import ZifyBool.
From S2P Require Import Prelude Mem Block StringC Spinlock Locks Bio Log LogSpec BlockIO Fs FsBlocks FsInode FsFile FsIO.

Open Scope Z_scope.

(** ** Locking an inode *)

(** The lock is taken and given back. *)
Lemma held_back (l : lockid) (h : gset lockid) : l ∉ h -> ({[l]} ∪ h) ∖ {[l]} = h.
Proof. set_solver. Qed.

Definition with_lock (l : sleeplock) (x : inode) : inode :=
  Inode (i_dev x) (i_inum x) (i_ref x) l (i_valid x) (i_dinode x).

Section inode_locks.
Context {B U : Type} `{BIO : BlockIO B} `{UIO : UserIO U}.
Implicit Types s : fstate B U.

Definition put_lock (ip : Z) (l : sleeplock) s : fstate B U :=
  set_inodes (<[ip := with_lock l (f_inode s ip)]> (f_inode s)) s.

Lemma acquire_inode s ip :
  sl_locked (i_lock (f_inode s ip)) = 0 -> inode_spin ip ∉ f_held s ->
  acquiresleep (inode_lock ip) (inode_spin ip) s = Ok tt (put_lock ip (Sleeplock 1 (sl_name (i_lock (f_inode s ip))) (f_pid s)) s).
Proof.
  intros H0 Hh. unfold acquiresleep, lock, unlock. destruct s as [y u h pid sb t cwd]. cbn in *.
  unfold mbind, M_bind, gets, modify. cbn. rewrite decide_False by done. cbn. rewrite H0. cbn.
  rewrite decide_True by set_solver. cbn. now rewrite held_back.
Qed.

Lemma release_inode s ip :
  inode_spin ip ∉ f_held s ->
  releasesleep (inode_lock ip) (inode_spin ip) s = Ok tt (put_lock ip (Sleeplock 0 (sl_name (i_lock (f_inode s ip))) 0) s).
Proof.
  intros Hh. unfold releasesleep, lock, unlock. destruct s as [y u h pid sb t cwd]. cbn in *.
  unfold mbind, M_bind, gets, modify. cbn. rewrite decide_False by done. cbn.
  rewrite decide_True by set_solver. cbn. now rewrite held_back.
Qed.

Lemma holding_inode s ip :
  inode_spin ip ∉ f_held s ->
  holdingsleep (inode_lock ip) (inode_spin ip) s =
  Ok (truthy (sl_locked (i_lock (f_inode s ip))) && (sl_pid (i_lock (f_inode s ip)) =? f_pid s)) s.
Proof.
  intros Hh. unfold holdingsleep, lock, unlock. destruct s as [y u h pid sb t cwd]. cbn in *.
  unfold mbind, M_bind, gets, modify. cbn. rewrite decide_False by done. cbn.
  rewrite decide_True by set_solver. cbn. now rewrite held_back.
Qed.

(** An inode in memory, free to lock. *)
Record lockable (ip : Z) s : Prop := Lockable {
  lk_ptr : ip <> NULL;
  lk_ref : 1 <= i_ref (f_inode s ip);
  lk_valid : i_valid (f_inode s ip) <> 0;
  lk_free : sl_locked (i_lock (f_inode s ip)) = 0;
  lk_held : inode_spin ip ∉ f_held s;
}.

Definition locked_by (pid : Z) (x : inode) : sleeplock := Sleeplock 1 (sl_name (i_lock x)) pid.

Lemma ilock_ok s ip : lockable ip s -> ilock ip s = Ok tt (put_lock ip (locked_by (f_pid s) (f_inode s ip)) s).
Proof.
  intros [H1 H2 H3 H4 H5]. unfold ilock. erewrite bind_ok by reflexivity.
  rewrite (proj2 (Z.eqb_neq ip NULL)), (proj2 (Z.ltb_ge (i_ref (f_inode s ip)) 1)) by done. cbn [orb].
  rewrite (bind_ok _ _ _ _ _ (acquire_inode s ip H4 H5)). erewrite bind_ok by reflexivity. cbn. rewrite fn_lookup_insert. cbn.
  rewrite (proj2 (Z.eqb_neq _ 0)) by done. done.
Qed.

Lemma iunlock_ok s ip :
  ip <> NULL -> 1 <= i_ref (f_inode s ip) -> sl_locked (i_lock (f_inode s ip)) = 1 -> sl_pid (i_lock (f_inode s ip)) = f_pid s ->
  inode_spin ip ∉ f_held s -> iunlock ip s = Ok tt (put_lock ip (Sleeplock 0 (sl_name (i_lock (f_inode s ip))) 0) s).
Proof.
  intros H1 H2 H3 H4 H5. unfold iunlock. rewrite (proj2 (Z.eqb_neq ip NULL)) by done.
  rewrite (bind_ok _ _ _ _ _ (holding_inode s ip H5)). erewrite bind_ok by reflexivity. rewrite H3, H4, Z.eqb_refl. cbn.
  rewrite (proj2 (Z.ltb_ge (i_ref (f_inode s ip)) 1)) by done. now apply release_inode.
Qed.
End inode_locks.

(** ** Sums over the table *)

Definition tsum (f : inode -> Z) (t : Z -> inode) : Z := zsum (fun i => f (t i)) (seqZ 0 NINODE).

(** How many references the table counts for inode [inum], and how many of its
    entries are free. *)
Definition refcount (t : Z -> inode) (inum : Z) : Z := tsum (fun x => if i_inum x =? inum then i_ref x else 0) t.
Definition nfree (t : Z -> inode) : Z := tsum (fun x => if i_ref x =? 0 then 1 else 0) t.

Lemma nfree_nonneg t : 0 <= nfree t.
Proof. apply zsum_nonneg. intros i _. destruct (_ =? 0); lia. Qed.

Lemma tsum_change f (t t' : Z -> inode) i :
  0 <= i < NINODE -> (forall j, j <> i -> t' j = t j) -> tsum f t' = tsum f t - f (t i) + f (t' i).
Proof.
  intros Hi E. apply (zsum_change (fun i => f (t' i)) (fun i => f (t i))); [apply NoDup_seqZ|apply elem_of_seqZ; lia|].
  intros j Hj. now rewrite E.
Qed.

(** ** The invariant *)

Section table.
Context {B U : Type} `{BIO : BlockIO B} (dev : Z) `{BS : !BlockIOSpec B dev} `{UIO : UserIO U} `{UL : !UserLaws U}.
Implicit Types s : fstate B U.

(** Entry [i] is in use for inode [inum]. *)
Definition entry (t : Z -> inode) (inum i : Z) : Prop := 0 <= i < NINODE /\ 0 < i_ref (t i) /\ i_inum (t i) = inum.

(** The table caches the inodes of the disk [D]; this thread holds the sleep
    locks of the entries [lk], and nobody the others. *)
Record table_ok (lk : gset Z) s (D : dview) : Prop := TableOk {
  tb_ref i : 0 <= i < NINODE -> 0 <= i_ref (f_inode s i);
  tb_dev inum i : entry (f_inode s) inum i -> i_dev (f_inode s i) = dev /\ 0 <= inum < sb_ninodes (f_sb s);
  tb_uniq inum i j : entry (f_inode s) inum i -> entry (f_inode s) inum j -> i = j;
  tb_valid inum i : entry (f_inode s) inum i -> i_valid (f_inode s i) <> 0 ->
    i_dinode (f_inode s i) = disk_inode (f_sb s) (d_data D) inum;
  tb_lock i : 0 <= i < NINODE -> let l := i_lock (f_inode s i) in
    if decide (i ∈ lk) then sl_locked l = 1 /\ sl_pid l = f_pid s else sl_locked l = 0;
}.

Lemma nfree_entry lk s D : table_ok lk s D -> 0 < nfree (f_inode s) -> exists i, 0 <= i < NINODE /\ i_ref (f_inode s i) = 0.
Proof.
  intros HT (i & Hi%elem_of_seqZ & Hr)%zsum_pos. exists i. split; [lia|].
  destruct (Z.eqb_spec (i_ref (f_inode s i)) 0); [done|lia].
Qed.

(** ** iget and idup *)

Lemma iget_scan_found k : forall i empty inum t ip,
  iget_scan k i empty dev inum t = inl ip ->
  i <= ip < i + Z.of_nat k /\ 0 < i_ref (t ip) /\ i_dev (t ip) = dev /\ i_inum (t ip) = inum.
Proof.
  induction k as [|k IH]; intros i empty inum t ip; cbn [iget_scan]; [done|].
  destruct (_ && _ && _) eqn:E; [intros [= <-]; lia|]. intros H%IH. lia.
Qed.

Lemma iget_scan_none k : forall i empty inum t e,
  iget_scan k i empty dev inum t = inr e ->
  (forall j, i <= j < i + Z.of_nat k -> ~ (0 < i_ref (t j) /\ i_dev (t j) = dev /\ i_inum (t j) = inum)) /\
  (if empty =? NULL
   then (e = NULL /\ forall j, i <= j < i + Z.of_nat k -> i_ref (t j) <> 0) \/ (i <= e < i + Z.of_nat k /\ i_ref (t e) = 0)
   else e = empty).
Proof.
  induction k as [|k IH]; intros i empty inum t e; cbn [iget_scan].
  { intros [= <-]. split; [lia|]. destruct (Z.eqb_spec empty NULL); [left; split; [done|intros; lia]|done]. }
  destruct (_ && _ && _) eqn:E; [done|]. intros [H1 H2]%IH. split.
  { intros j Hj. destruct (Z.eq_dec j i) as [->|]; [lia|]. apply H1. lia. }
  destruct (Z.eqb_spec empty NULL) as [->|Hne].
  - cbn [andb] in H2. destruct (Z.eqb_spec (i_ref (t i)) 0) as [E0|E0].
    + destruct (Z.eqb_spec i NULL) as [->|]; [|right; subst e; lia].
      destruct H2 as [[-> H2]|H2]; right; lia.
    + rewrite Z.eqb_refl in H2. destruct H2 as [[-> H2]|H2]; [left|right; lia]. split; [done|].
      intros j Hj. destruct (Z.eq_dec j i) as [->|]; [done|]. apply H2. lia.
  - cbn [andb] in H2. now rewrite (proj2 (Z.eqb_neq _ _) Hne) in H2.
Qed.
(** Only entry [ip] and the block layer changed, the entry to [x]. *)
Record only_entry (ip : Z) (x : inode) s s' : Prop := OnlyEntry {
  oe_user : f_user s' = f_user s;
  oe_held : f_held s' = f_held s;
  oe_pid : f_pid s' = f_pid s;
  oe_sb : f_sb s' = f_sb s;
  oe_cwd : f_cwd s' = f_cwd s;
  oe_self : f_inode s' ip = x;
  oe_other j : j <> ip -> f_inode s' j = f_inode s j;
}.

Definition set_entry (ip : Z) (x : inode) s : fstate B U := set_inodes (<[ip := x]> (f_inode s)) s.

Lemma only_set ip x y s : only_entry ip x s (with_io y (set_entry ip x s)).
Proof. split; try done; cbn; [apply fn_lookup_insert|intros; now apply fn_lookup_insert_ne]. Qed.

Lemma only_trans ip x x' s s1 s2 : only_entry ip x s s1 -> only_entry ip x' s1 s2 -> only_entry ip x' s s2.
Proof. intros [A1 A2 A3 A4 A5 A6 A7] [B1 B2 B3 B4 B5 B6 B7]. split; try congruence. intros j Hj. rewrite B7, A7; done. Qed.

(** What a new value of entry [ip] must satisfy to keep the invariant. *)
Record entry_ok (lk : gset Z) s (D : dview) (ip : Z) (x : inode) : Prop := EntryOk {
  en_ref : 0 <= i_ref x;
  en_dev : 0 < i_ref x -> i_dev x = dev /\ 0 <= i_inum x < sb_ninodes (f_sb s);
  en_uniq i : 0 < i_ref x -> entry (f_inode s) (i_inum x) i -> i = ip;
  en_valid : 0 < i_ref x -> i_valid x <> 0 -> i_dinode x = disk_inode (f_sb s) (d_data D) (i_inum x);
  en_lock : if decide (ip ∈ lk) then sl_locked (i_lock x) = 1 /\ sl_pid (i_lock x) = f_pid s else sl_locked (i_lock x) = 0;
}.

Lemma table_set lk lk' s s' D ip x :
  table_ok lk s D -> 0 <= ip < NINODE -> only_entry ip x s s' -> entry_ok lk' s D ip x -> (forall i, i <> ip -> i ∈ lk' <-> i ∈ lk) ->
  table_ok lk' s' D.
Proof.
  intros [T1 T2 T3 T4 T5] Hip [_ _ Hpid Hsb _ Hx Ho] [E1 E2 E3 E4 E5] Hlk. subst x.
  assert (forall inum i, entry (f_inode s') inum i -> i = ip /\ inum = i_inum (f_inode s' ip) /\ 0 < i_ref (f_inode s' ip) \/ i <> ip /\ entry (f_inode s) inum i) as HC.
  { intros inum i (Hi & Hr & Hn). destruct (decide (i = ip)) as [->|Hne]; [left; auto|right].
    rewrite Ho in * by done. split; [done|]. split; auto. }
  split; rewrite ?Hsb, ?Hpid.
  - intros i Hi. destruct (decide (i = ip)) as [->|]; [done|rewrite Ho; auto].
  - intros inum i [(-> & -> & Hr)|[Hne He]]%HC; [auto|rewrite Ho; eauto].
  - intros inum i j [(-> & -> & Hr)|[Hne He]]%HC [(-> & Hn & Hr')|[Hne' He']]%HC; try done.
    + symmetry. now apply E3.
    + apply E3; [done|]. now rewrite <- Hn.
    + eauto.
  - intros inum i [(-> & -> & Hr)|[Hne He]]%HC; [auto|rewrite Ho; eauto].
  - intros i Hi. destruct (decide (i = ip)) as [->|Hne]; [done|]. rewrite Ho by done.
    specialize (T5 i Hi). specialize (Hlk i Hne). cbn zeta in *. destruct (decide (i ∈ lk')), (decide (i ∈ lk)); tauto.
Qed.

(** The table and the disk after the state's other parts changed. *)
Lemma table_with lk s s' D : f_inode s' = f_inode s -> f_sb s' = f_sb s -> f_pid s' = f_pid s -> table_ok lk s D -> table_ok lk s' D.
Proof. intros E1 E2 E3 [T1 T2 T3 T4 T5]. split; rewrite ?E1, ?E2, ?E3; auto. Qed.

Lemma refcount_set ip x s s' j :
  0 <= ip < NINODE -> only_entry ip x s s' -> refcount (f_inode s') j =
  refcount (f_inode s) j - (if i_inum (f_inode s ip) =? j then i_ref (f_inode s ip) else 0) + (if i_inum x =? j then i_ref x else 0).
Proof. intros Hip HO. rewrite <- (oe_self _ _ _ _ HO). apply (tsum_change (fun x => if i_inum x =? j then i_ref x else 0)); [done|apply HO]. Qed.

Lemma nfree_set ip x s s' :
  0 <= ip < NINODE -> only_entry ip x s s' -> nfree (f_inode s') =
  nfree (f_inode s) - (if i_ref (f_inode s ip) =? 0 then 1 else 0) + (if i_ref x =? 0 then 1 else 0).
Proof. intros Hip HO. rewrite <- (oe_self _ _ _ _ HO). apply (tsum_change (fun x => if i_ref x =? 0 then 1 else 0)); [done|apply HO]. Qed.

(** Entry [ip] has gained a reference. *)
Record gained (inum ip : Z) s s' : Prop := Gained {
  gn_only : only_entry ip (f_inode s' ip) s s';
  gn_io : f_io s' = f_io s;
  gn_entry : entry (f_inode s') inum ip;
  gn_ref : i_ref (f_inode s' ip) = i_ref (f_inode s ip) + 1;
  gn_lock : i_lock (f_inode s' ip) = i_lock (f_inode s ip);
  gn_fresh : i_ref (f_inode s ip) = 0 -> i_valid (f_inode s' ip) = 0;
  gn_old : 0 < i_ref (f_inode s ip) -> i_valid (f_inode s' ip) = i_valid (f_inode s ip) /\ i_dinode (f_inode s' ip) = i_dinode (f_inode s ip);
  gn_count j : refcount (f_inode s') j = refcount (f_inode s) j + (if j =? inum then 1 else 0);
  gn_free : nfree (f_inode s') = nfree (f_inode s) - (if i_ref (f_inode s ip) =? 0 then 1 else 0);
}.

Lemma upd_under_lock s ip f (r : Z) :
  itable_lock ∉ f_held s ->
  (lock itable_lock;; upd_inode ip f;; unlock itable_lock;; mret r) s = Ok r (with_io (f_io s) (set_entry ip (f (f_inode s ip)) s)).
Proof.
  intros Hh. destruct s as [y u h pid sb t cwd]. unfold lock, unlock, mbind, M_bind, gets, modify. cbn in *.
  rewrite decide_False by done. cbn. rewrite decide_True by set_solver. cbn. now rewrite held_back.
Qed.

Lemma gained_set inum ip x s s' :
  0 <= ip < NINODE -> only_entry ip x s s' -> f_io s' = f_io s ->
  0 <= i_ref (f_inode s ip) -> i_inum x = inum -> (0 < i_ref (f_inode s ip) -> i_inum (f_inode s ip) = inum /\
    i_valid x = i_valid (f_inode s ip) /\ i_dinode x = i_dinode (f_inode s ip)) ->
  i_ref x = i_ref (f_inode s ip) + 1 -> i_lock x = i_lock (f_inode s ip) -> (i_ref (f_inode s ip) = 0 -> i_valid x = 0) ->
  gained inum ip s s'.
Proof.
  intros Hip HO Hio Hr Hin Hold Hx Hl Hv. pose proof (oe_self _ _ _ _ HO) as Es. split; rewrite ?Es; try done.
  - unfold entry. rewrite Es. lia.
  - intros H. now apply Hold.
  - intros j. rewrite (refcount_set ip x s s'), Hin, Hx by done. destruct (Z.eq_dec (i_ref (f_inode s ip)) 0) as [E|E].
    + rewrite E. destruct (_ =? j), (Z.eqb_spec inum j), (Z.eqb_spec j inum); lia.
    + rewrite (proj1 (Hold ltac:(lia))). destruct (Z.eqb_spec inum j), (Z.eqb_spec j inum); lia.
  - rewrite (nfree_set ip x s s'), Hx by done. destruct (Z.eqb_spec (i_ref (f_inode s ip)) 0), (Z.eqb_spec (i_ref (f_inode s ip) + 1) 0); lia.
Qed.

(** One more reference to an entry in use. *)
Lemma gain_old lk s D ip inum :
  table_ok lk s D -> entry (f_inode s) inum ip ->
  let s' := with_io (f_io s) (set_entry ip (set_ref (i_ref (f_inode s ip) + 1) (f_inode s ip)) s) in table_ok lk s' D /\ gained inum ip s s'.
Proof.
  intros HT He s'. pose proof He as (Hip & Hr & Hn). split.
  - eapply (table_set lk lk); [done|done|apply only_set| |done]. pose proof (tb_dev _ _ _ HT _ _ He). split; cbn; try lia.
    + rewrite Hn. intros i _ Hi. exact (tb_uniq _ _ _ HT _ _ _ Hi He).
    + rewrite Hn. intros _. exact (tb_valid _ _ _ HT _ _ He).
    + exact (tb_lock _ _ _ HT ip Hip).
  - eapply gained_set; [done|apply only_set|..]; cbn; try done; lia.
Qed.

Lemma idup_ok lk s D ip inum :
  table_ok lk s D -> itable_lock ∉ f_held s -> entry (f_inode s) inum ip ->
  exists s', idup ip s = Ok ip s' /\ table_ok lk s' D /\ gained inum ip s s'.
Proof. intros HT Hh He. eexists. split; [apply (upd_under_lock s ip _ ip Hh)|]. now apply gain_old. Qed.

Lemma lock_then {A} l s (k : M (fstate B U) A) : l ∉ f_held s -> (lock l;; k) s = k (fset held ({[l]} ∪ f_held s) s).
Proof.
  intros Hh. destruct s as [y u h pid sb t cwd]. unfold lock, mbind, M_bind, gets, modify. cbn in *. now rewrite decide_False.
Qed.

(** [iget] finds the inode's entry, or takes a free one. *)
Lemma iget_ok lk s D inum :
  table_ok lk s D -> itable_lock ∉ f_held s -> 0 <= inum < sb_ninodes (f_sb s) ->
  0 < nfree (f_inode s) \/ (exists i, entry (f_inode s) inum i) ->
  exists ip s', iget dev inum s = Ok ip s' /\ table_ok lk s' D /\ gained inum ip s s'.
Proof.
  intros HT Hh Hin Hfree. unfold iget. rewrite lock_then by done. erewrite bind_ok by reflexivity.
  change (f_inode (fset held _ s)) with (f_inode s).
  destruct (iget_scan (Z.to_nat NINODE) 0 NULL dev inum (f_inode s)) as [ip|e] eqn:E.
  - apply iget_scan_found in E as (Hip & Hr & Hd & Hn). rewrite Z2Nat.id in Hip by done.
    exists ip. eexists. split; [|apply (gain_old lk s D ip inum HT); split; [lia|done]].
    rewrite <- (lock_then itable_lock s) by done. now rewrite upd_under_lock.
  - apply iget_scan_none in E as [Hno He]. rewrite Z2Nat.id in * by done. cbn [Z.eqb NULL Pos.eqb] in He.
    assert (forall i, ~ entry (f_inode s) inum i) as Hno'.
    { intros i Hi. pose proof Hi as (Hi' & Hr & Hn). apply (Hno i); [lia|]. destruct (tb_dev _ _ _ HT _ _ Hi). done. }
    destruct He as [[-> He]|[He Hr]].
    { exfalso. destruct Hfree as [Hf|(i & Hi)]; [|now apply Hno' in Hi].
      destruct (nfree_entry _ _ _ HT Hf) as (i & Hi & Hr). now apply (He i); [lia|]. }
    rewrite (proj2 (Z.eqb_neq e NULL)) by (unfold NULL; lia). exists e. eexists. split.
    { rewrite <- (lock_then itable_lock s) by done. now rewrite upd_under_lock. }
    split; [eapply (table_set lk lk s _ D e); [done|lia|apply only_set| |done]|eapply gained_set; [lia|apply only_set|..]; cbn; done || lia].
    split; cbn; try done; [|exact (tb_lock _ _ _ HT e ltac:(lia))]. intros i _ Hi. now apply Hno' in Hi.
Qed.

(** A full table: [iget] of an inode that is not in it panics. *)
Lemma iget_full lk s D inum :
  table_ok lk s D -> itable_lock ∉ f_held s -> nfree (f_inode s) = 0 -> (forall i, ~ entry (f_inode s) inum i) ->
  iget dev inum s = Panic "iget: no inodes".
Proof.
  intros HT Hh Hf Hno. unfold iget. rewrite lock_then by done. erewrite bind_ok by reflexivity.
  change (f_inode (fset held _ s)) with (f_inode s).
  destruct (iget_scan (Z.to_nat NINODE) 0 NULL dev inum (f_inode s)) as [ip|e] eqn:E.
  - apply iget_scan_found in E as (Hip & Hr & Hd & Hn). rewrite Z2Nat.id in Hip by done. now destruct (Hno ip).
  - apply iget_scan_none in E as [_ He]. rewrite Z2Nat.id in * by done. cbn [Z.eqb NULL Pos.eqb] in He.
    destruct He as [[-> He]|[He Hr]]; [done|]. exfalso.
    pose proof (nfree_set e _ s _ ltac:(lia) (only_set e (set_ref 1 (f_inode s e)) (f_io s) s)) as H1. rewrite Hr in H1. cbn [Z.eqb i_ref set_ref] in H1.
    match type of H1 with nfree ?t = _ => assert (0 <= nfree t) as H2; [|lia] end.
    apply nfree_nonneg.
Qed.

(** ** ilock, iunlock and iput *)

(** Changing the lock and the cached copy of an entry in use. *)
Lemma entry_cached lk lk' s D ip inum x :
  table_ok lk s D -> entry (f_inode s) inum ip -> i_dev x = i_dev (f_inode s ip) -> i_inum x = inum -> i_ref x = i_ref (f_inode s ip) ->
  (i_valid x <> 0 -> i_dinode x = disk_inode (f_sb s) (d_data D) inum) ->
  (if decide (ip ∈ lk') then sl_locked (i_lock x) = 1 /\ sl_pid (i_lock x) = f_pid s else sl_locked (i_lock x) = 0) ->
  entry_ok lk' s D ip x.
Proof.
  intros HT He E1 E2 E3 E4 E5. pose proof (tb_dev _ _ _ HT _ _ He). pose proof He as (? & ? & ?).
  split; rewrite ?E1, ?E2, ?E3; try done; [lia|]. intros i _ Hi. exact (tb_uniq _ _ _ HT _ _ _ Hi He).
Qed.

(** [ilock] of an entry whose lock is free leaves the inode's contents in
    memory, read from the disk if they were not there. *)
Lemma ilock_any lk s D ip inum :
  let z := disk_inode (f_sb s) (d_data D) inum in
  table_ok lk s D -> entry (f_inode s) inum ip -> ip ∉ lk -> inode_spin ip ∉ f_held s ->
  io_rep (f_io s) D -> d_locked D = ∅ -> di_type z <> 0 ->
  exists v s', let x := Inode dev inum (i_ref (f_inode s ip)) (locked_by (f_pid s) (f_inode s ip)) v z in
    v <> 0 /\ ilock ip s = Ok tt s' /\ only_entry ip x s s' /\ io_rep (f_io s') D /\ table_ok ({[ip]} ∪ lk) s' D.
Proof.
  intros z HT He Hlk Hh HR Hd Hty. pose proof He as (Hip & Hr & Hn). destruct (tb_dev _ _ _ HT _ _ He) as [Hdev Hin].
  pose proof (tb_lock _ _ _ HT ip Hip) as Hl. cbn zeta in Hl. rewrite decide_False in Hl by done.
  set (x := fun v => Inode dev inum (i_ref (f_inode s ip)) (locked_by (f_pid s) (f_inode s ip)) v z).
  assert (forall v s', v <> 0 -> only_entry ip (x v) s s' -> table_ok ({[ip]} ∪ lk) s' D) as Hok.
  { intros v s' Hv HO. apply (table_set lk _ s s' D ip (x v)); [done|done|done| |set_solver].
    apply (entry_cached lk _ _ _ _ inum); cbn; try done. rewrite decide_True by set_solver. done. }
  cut (exists v s', v <> 0 /\ ilock ip s = Ok tt s' /\ only_entry ip (x v) s s' /\ io_rep (f_io s') D).
  { intros (v & s' & H1 & H2 & H3 & H4). exists v, s'. cbn zeta. eauto 6. }
  unfold ilock. erewrite bind_ok by reflexivity.
  rewrite (proj2 (Z.eqb_neq ip NULL)), (proj2 (Z.ltb_ge (i_ref (f_inode s ip)) 1)) by (unfold NULL; lia). cbn [orb].
  rewrite (bind_ok _ _ _ _ _ (acquire_inode s ip Hl Hh)). fold (locked_by (f_pid s) (f_inode s ip)).
  set (l := locked_by (f_pid s) (f_inode s ip)) in *. set (s1 := put_lock ip l s).
  assert (only_entry ip (with_lock l (f_inode s ip)) s s1) as HO1 by exact (only_set ip _ (f_io s) s).
  erewrite bind_ok by reflexivity. rewrite (oe_self _ _ _ _ HO1). cbn [i_valid with_lock].
  destruct (Z.eqb_spec (i_valid (f_inode s ip)) 0) as [Ev|Ev].
  2: { exists (i_valid (f_inode s ip)), s1. split; [done|]. split; [done|]. split; [|done].
       replace (x _) with (with_lock l (f_inode s ip)); [done|]. unfold x, with_lock. now rewrite Hdev, Hn, (tb_valid _ _ _ HT _ _ He Ev). }
  erewrite bind_ok by reflexivity. cbn [i_dev i_inum with_lock]. rewrite Hdev, Hn, (oe_sb _ _ _ _ HO1).
  destruct (fbread dev s1 D (IBLOCK inum (f_sb s)) HR) as (h & y1 & H1 & R1 & h1 & D1 & _);
    [now apply none_locked|now apply size_none_locked|].
  rewrite (bind_ok _ _ _ _ _ H1). erewrite bind_ok by reflexivity. cbn [f_io with_io]. rewrite D1.
  fold (disk_inode (f_sb s) (d_data D) inum). fold z. erewrite bind_ok by reflexivity.
  match goal with |- context [(_ ≫= _) ?st = _] => set (s2 := st) end.
  destruct (frelease dev s2 D (IBLOCK inum (f_sb s)) h R1 h1) as (y2 & H2 & R2 & _);
    [now apply none_locked|now apply (io_clean _ _ _ HR), none_locked|].
  rewrite (bind_ok _ _ _ _ _ H2). erewrite bind_ok by reflexivity. set (s3 := set_inodes _ (with_io y2 s2)).
  assert (only_entry ip (x 1) s s3) as HO3.
  { replace (x 1) with (set_ivalid 1 (set_dinode z (with_lock l (f_inode s ip)))) by (unfold x, set_ivalid, set_dinode, with_lock; cbn; congruence).
    eapply only_trans; [exact HO1|]. split; try done; cbn; [now rewrite !fn_lookup_insert|].
    intros j Hj. now rewrite !fn_lookup_insert_ne by done. }
  erewrite bind_ok by reflexivity. rewrite (oe_self _ _ _ _ HO3). change (i_type (x 1)) with (di_type z).
  rewrite (proj2 (Z.eqb_neq _ _) Hty). now exists 1, s3.
Qed.

Lemma iunlock_any lk s D ip inum :
  table_ok lk s D -> entry (f_inode s) inum ip -> ip ∈ lk -> inode_spin ip ∉ f_held s ->
  exists s', iunlock ip s = Ok tt s' /\ f_io s' = f_io s /\ table_ok (lk ∖ {[ip]}) s' D /\
    only_entry ip (with_lock (Sleeplock 0 (sl_name (i_lock (f_inode s ip))) 0) (f_inode s ip)) s s'.
Proof.
  intros HT He Hlk Hh. pose proof He as (Hip & Hr & Hn). pose proof (tb_lock _ _ _ HT ip Hip) as Hl. cbn zeta in Hl.
  rewrite decide_True in Hl by done. eexists. split; [apply iunlock_ok; try tauto; unfold NULL; lia|].
  split; [done|]. match goal with |- table_ok _ ?s' _ /\ _ => assert (only_entry ip
    (with_lock (Sleeplock 0 (sl_name (i_lock (f_inode s ip))) 0) (f_inode s ip)) s s') as HO by exact (only_set ip _ (f_io s) s) end.
  split; [|done]. eapply (table_set lk); [done|exact Hip|exact HO| |set_solver].
  apply (entry_cached lk _ _ _ _ inum); cbn; try done; [exact (tb_valid _ _ _ HT _ _ He)|]. now rewrite decide_False by set_solver.
Qed.

(** One reference to entry [ip] is dropped. *)
Record dropped (inum ip : Z) s s' : Prop := Dropped {
  dr_only : only_entry ip (set_ref (i_ref (f_inode s ip) - 1) (f_inode s ip)) s s';
  dr_io : f_io s' = f_io s;
  dr_count j : refcount (f_inode s') j = refcount (f_inode s) j - (if j =? inum then 1 else 0);
  dr_free : nfree (f_inode s') = nfree (f_inode s) + (if i_ref (f_inode s ip) =? 1 then 1 else 0);
}.

(** The condition under which [iput] frees the inode. *)
Definition last_ref (x : inode) : bool := (i_ref x =? 1) && truthy (i_valid x) && (i_nlink x =? 0).

Lemma iput_keep lk s D ip inum :
  table_ok lk s D -> entry (f_inode s) inum ip -> itable_lock ∉ f_held s -> last_ref (f_inode s ip) = false ->
  exists s', iput ip s = Ok tt s' /\ table_ok lk s' D /\ dropped inum ip s s'.
Proof.
  intros HT He Hh Hlast. pose proof He as (Hip & Hr & Hn). set (x := set_ref (i_ref (f_inode s ip) - 1) (f_inode s ip)).
  exists (with_io (f_io s) (set_entry ip x s)). pose proof (only_set ip x (f_io s) s) as HO. split; [|split].
  - unfold iput. rewrite lock_then by done. erewrite bind_ok by reflexivity. change (f_inode (fset held _ s)) with (f_inode s).
    unfold last_ref in Hlast. rewrite Hlast. erewrite bind_ok by reflexivity. rewrite <- (lock_then itable_lock s) by done.
    destruct s as [y u h pid sb t cwd]. unfold lock, unlock, mbind, M_bind, gets, modify. cbn in *.
    rewrite decide_False by done. cbn. rewrite decide_True by set_solver. cbn. now rewrite held_back.
  - eapply (table_set lk lk); [done|exact Hip|exact HO| |done]. pose proof (tb_dev _ _ _ HT _ _ He). subst x. split; cbn; try lia.
    + rewrite Hn. intros i _ Hi. exact (tb_uniq _ _ _ HT _ _ _ Hi He).
    + rewrite Hn. intros _. exact (tb_valid _ _ _ HT _ _ He).
    + exact (tb_lock _ _ _ HT ip Hip).
  - split; [exact HO|done| |].
    + intros j. rewrite (refcount_set ip x s _ j Hip HO). subst x. cbn. rewrite Hn. destruct (Z.eqb_spec inum j), (Z.eqb_spec j inum); lia.
    + rewrite (nfree_set ip x s _ Hip HO). subst x. cbn.
      destruct (Z.eqb_spec (i_ref (f_inode s ip)) 0), (Z.eqb_spec (i_ref (f_inode s ip) - 1) 0), (Z.eqb_spec (i_ref (f_inode s ip)) 1); lia.
Qed.
End table.
