(* ===== verification/FsDir.v ===== *)
(** * kernel/fs.c: directories

    A directory as the list of its entries, [dirlookup] as a search in that
    list, and [dirlink] as an insertion into it. *)

From stdpp Require Import base gmap numbers strings functions list.
From Stdlib Require Import ZifyBool.
From S2P Require Import Prelude Mem Block StringC Spinlock Locks Riscv Bio Log LogSpec BlockIO Fs FsBlocks FsInode FsFile FsIO FsTable.

Open Scope Z_scope.

(** ** Entries *)

(** The bytes of a string before its NUL. *)
Fixpoint cut (l : list Z) : list Z :=
  match l with
  | [] => []
  | c :: l' => if c =? 0 then [] else c :: cut l'
  end.

Lemma cstrn_cut n m p : cstrn m p n = cut (rd_bytes m p n).
Proof. revert p. induction n as [|n IH]; intros p; cbn; [done|]. destruct (_ =? 0); [done|]. now rewrite IH. Qed.

(** The 16 bytes of entry [k] of the directory [x], its inode number and its
    name. *)
Definition dent (data : Z -> block) (x : dinode) (k : Z) : list Z := u8 <$> fslice data x (16 * k) 16.
Definition de_inum (e : list Z) : Z := le_val (take 2 e).
Definition de_name (e : list Z) : list Z := cut (drop 2 e).

Definition dents (data : Z -> block) (x : dinode) : list (list Z) := dent data x <$> seqZ 0 (di_size x / 16).

Definition names (nm : list Z) (e : list Z) : Prop := de_inum e <> 0 /\ de_name e = nm.

#[export] Instance names_dec nm e : Decision (names nm e).
Proof. unfold names. apply _. Defined.

(** The first entry with the name [nm], and its index. *)
Definition dir_lookup (data : Z -> block) (x : dinode) (nm : list Z) : option (nat * list Z) := list_find (names nm) (dents data x).

Lemma length_dents data x : 0 <= di_size x -> Z.of_nat (length (dents data x)) = di_size x / 16.
Proof. intros H. unfold dents. rewrite length_fmap, length_seqZ. rewrite Z2Nat.id by dlia. done. Qed.

Lemma lookup_dents data x k : 0 <= k < di_size x / 16 -> dents data x !! Z.to_nat k = Some (dent data x k).
Proof. intros Hk. unfold dents. rewrite list_lookup_fmap, lookup_seqZ_lt by lia. cbn. do 2 f_equal. lia. Qed.

Lemma length_dent data x k : length (dent data x k) = 16%nat.
Proof. unfold dent. now rewrite length_fmap, length_fslice. Qed.

(** [dir_lookup] from an entry on. *)
Lemma dir_lookup_here data x nm k :
  0 <= k < di_size x / 16 -> names nm (dent data x k) -> (forall j, 0 <= j < k -> ~ names nm (dent data x j)) ->
  dir_lookup data x nm = Some (Z.to_nat k, dent data x k).
Proof.
  intros Hk Hn Hb. apply list_find_Some. split; [now apply lookup_dents|]. split; [done|].
  intros j e He Hj. replace j with (Z.to_nat (Z.of_nat j)) in He by lia. rewrite lookup_dents in He by lia. injection He as <-.
  apply Hb. lia.
Qed.

Lemma dir_lookup_none data x nm :
  (forall j, 0 <= j < di_size x / 16 -> ~ names nm (dent data x j)) <-> dir_lookup data x nm = None.
Proof.
  unfold dir_lookup. rewrite list_find_None, Forall_forall. unfold dents. split.
  - intros H e (j & -> & Hj)%list_elem_of_fmap. apply H. apply elem_of_seqZ in Hj. lia.
  - intros H j Hj. apply H. apply list_elem_of_fmap. exists j. split; [done|]. apply elem_of_seqZ. lia.
Qed.

Definition is_dir (x : dinode) : Prop := di_type x = T_DIR /\ di_size x mod 16 = 0.

(** Ranges of memory that do not meet. *)
Definition apart (a n b k : Z) : Prop := a + n <= b \/ b + k <= a.

Section dir.
Context {B U : Type} `{BIO : BlockIO B} (dev : Z) `{BS : !BlockIOSpec B dev} `{UIO : UserIO U} `{UL : !UserLaws U}.
Implicit Types s : fstate B U.

(** The state with another block layer and memory. *)
Definition with_mem (y : B) (m : memory) s : fstate B U := with_all y (u_set_mem m (f_user s)) s.

(** Reading an entry into [de]. *)
Lemma read_dent s D dp k :
  ready dev dp s D -> 0 <= k < i_size (f_inode s dp) / 16 ->
  exists y m', readi dp false de (16 * k) 16 s = Ok 16 (with_mem y m' s) /\ io_rep y D /\ frame_bytes (f_mem s) m' de 16 /\
    rd_bytes m' de 16 = dent (d_data D) (i_dinode (f_inode s dp)) k.
Proof.
  intros HR Hk. destruct (readi_kernel dev s D dp de (16 * k) 16 HR) as (y & H1 & R1);
    [lia|lia|dlia|done|done|]. eexists y, _. split; [exact H1|]. split; [done|]. split.
  - intros a Ha. apply rd_wr_bytes_out. rewrite length_fslice. lia.
  - exact (rd_bytes_wr_bytes (fslice (d_data D) (i_dinode (f_inode s dp)) (16 * k) 16) (f_mem s) de).
Qed.

Lemma rd_take m a k n : (k <= n)%nat -> take k (rd_bytes m a n) = rd_bytes m a k.
Proof.
  revert a n. induction k as [|k IH]; intros a n Hk; [done|]. destruct n as [|n]; [lia|]. cbn. now rewrite IH by lia.
Qed.

Lemma rd_drop m a k n : (k <= n)%nat -> drop k (rd_bytes m a n) = rd_bytes m (a + Z.of_nat k) (n - k).
Proof.
  revert a n. induction k as [|k IH]; intros a n Hk; [now rewrite Z.add_0_r, Nat.sub_0_r|]. destruct n as [|n]; [lia|].
  cbn [rd_bytes drop Nat.sub]. rewrite IH by lia. f_equal. lia.
Qed.

Lemma dent_load m e : rd_bytes m de 16 = e -> load16 m de = de_inum e /\ cstrn m (de + 2) 14 = de_name e.
Proof.
  intros <-. unfold load16, de_inum, de_name. rewrite rd_take, rd_drop, cstrn_cut by lia. done.
Qed.

Lemma with_mem_mem y y' m m' s : with_mem y' m' (with_mem y m s) = with_mem y' m' s.
Proof. unfold with_mem, with_all. cbn. now rewrite u_set_set. Qed.

Lemma f_mem_with y m s : f_mem (with_mem y m s) = m.
Proof. apply u_mem_set. Qed.

Lemma with_mem_self s : with_mem (f_io s) (f_mem s) s = s.
Proof. unfold with_mem, with_all, f_mem. rewrite u_set_mem_mem. now destruct s. Qed.

Lemma ready_with ip s D y m : ready dev ip s D -> io_rep y D -> ready dev ip (with_mem y m s) D.
Proof. intros [H1 H2 H3 H4 H5 H6] Hy. split; done. Qed.

Lemma frame_trans m1 m2 m3 a n : frame_bytes m1 m2 a n -> frame_bytes m2 m3 a n -> frame_bytes m1 m3 a n.
Proof. intros H1 H2 x Hx. rewrite H2, H1; done. Qed.

(** ** dirlookup *)

(** What [dirlookup] does once it has found its entry, or none. *)
Definition found (r : option (nat * list Z)) : M (fstate B U) (Z * Z) :=
  match r with
  | None => mret (NULL, 0)
  | Some (i, e) => ip ← iget dev (de_inum e); mret (ip, 16 * Z.of_nat i)
  end.

Section lookup.
Context (s : fstate B U) (D : dview) (dp name : Z) (nm : list Z).
Let x := i_dinode (f_inode s dp).
Context (Hready : ready dev dp s D) (Hdir : is_dir x) (Hname : apart name 14 de 16) (Hnm : cstrn (f_mem s) name 14 = nm).

Lemma dirlookup_loop_ok fuel : forall y m k,
  io_rep y D -> frame_bytes (f_mem s) m de 16 -> 0 <= k <= di_size x / 16 ->
  (forall j, 0 <= j < k -> ~ names nm (dent (d_data D) x j)) -> (Z.to_nat (di_size x / 16 - k) < fuel)%nat ->
  exists y' m', dirlookup_loop fuel dp name (16 * k) (with_mem y m s) = found (dir_lookup (d_data D) x nm) (with_mem y' m' s) /\
    io_rep y' D /\ frame_bytes (f_mem s) m' de 16.
Proof.
  destruct Hdir as [_ Hsz]. pose proof (bo_size _ _ _ _ _ (proj2 (rd_file _ _ _ _ Hready))) as Hs. fold x in Hs. pose proof file_consts as Hc.
  induction fuel as [|fuel IH]; intros y m k HR HF Hk Hb Hfu; [lia|]. cbn [dirlookup_loop]. erewrite bind_ok by reflexivity.
  change (i_size (f_inode (with_mem y m s) dp)) with (di_size x). change (i_dev (f_inode (with_mem y m s) dp)) with (i_dev (f_inode s dp)).
  destruct (Z.ltb_spec (16 * k) (di_size x)) as [Hlt|Hge].
  2: { exists y, m. split; [|done]. rewrite (proj1 (dir_lookup_none (d_data D) x nm)); [done|]. intros j Hj. apply Hb. dlia. }
  assert (k < di_size x / 16) as Hk' by dlia.
  destruct (read_dent (with_mem y m s) D dp k (ready_with _ _ _ _ _ Hready HR) ltac:(unfold i_size; cbn; fold x; lia)) as (y1 & m1 & H1 & R1 & F1 & E1).
  rewrite (bind_ok _ _ _ _ _ H1). change (negb (16 =? 16)) with false. cbn iota. rewrite with_mem_mem. rewrite f_mem_with in F1.
  change (i_dinode (f_inode (with_mem y m s) dp)) with x in E1.
  erewrite bind_ok by reflexivity. rewrite f_mem_with. destruct (dent_load m1 _ E1) as [-> Ec].
  pose proof (frame_trans _ _ _ _ _ HF F1) as F2. replace (u32 (16 * k + 16)) with (16 * (k + 1)) by (rewrite u32_small; [lia|unfold is_u32, BSIZE in *; dlia]).
  assert (~ names nm (dent (d_data D) x k) -> exists y' m',
    dirlookup_loop fuel dp name (16 * (k + 1)) (with_mem y1 m1 s) = found (dir_lookup (d_data D) x nm) (with_mem y' m' s) /\
    io_rep y' D /\ frame_bytes (f_mem s) m' de 16) as Hnext.
  { intros Hn. apply IH; try done; try lia. intros j Hj. destruct (Z.eq_dec j k) as [->|]; [done|]. apply Hb. lia. }
  destruct (Z.eqb_spec (de_inum (dent (d_data D) x k)) 0) as [E0|E0]; [apply Hnext; now intros [? _]|].
  unfold namecmp. rewrite bind_assoc. erewrite bind_ok by reflexivity. rewrite f_mem_with. erewrite bind_ok by reflexivity.
  assert (cstrn m1 name 14 = nm) as En.
  { rewrite <- Hnm. apply cstrn_frame. intros a Ha. apply F2. unfold apart in Hname. lia. }
  destruct (Z.eqb_spec (strncmp m1 name (de + 2) DIRSIZ) 0) as [Es|Es]; rewrite strncmp_eq0 in Es; change (Z.to_nat DIRSIZ) with 14%nat in Es.
  - rewrite (rd_dev _ _ _ _ Hready). exists y1, m1. split; [|split; [exact R1|exact F2]].
    assert (de_name (dent (d_data D) x k) = nm) as Ed by exact (eq_trans (eq_sym Ec) (eq_trans (eq_sym Es) En)).
    rewrite (dir_lookup_here (d_data D) x nm k); [|lia|exact (conj E0 Ed)|exact Hb]. cbn [found]. now rewrite Z2Nat.id by lia.
  - apply Hnext. intros [_ Ed]. exact (Es (eq_trans En (eq_trans (eq_sym Ed) (eq_sym Ec)))).
Qed.

(** [dirlookup] is [dir_lookup] on the entries, with the inode it names taken. *)
Lemma dirlookup_ok :
  exists y m, dirlookup dp name s = found (dir_lookup (d_data D) x nm) (with_mem y m s) /\
    io_rep y D /\ frame_bytes (f_mem s) m de 16.
Proof.
  unfold dirlookup. erewrite bind_ok by reflexivity. destruct Hdir as [Ht _]. unfold i_type. fold x. rewrite Ht. cbn [negb Z.eqb Pos.eqb T_DIR].
  pose proof (bo_size _ _ _ _ _ (proj2 (rd_file _ _ _ _ Hready))) as Hs. fold x in Hs.
  destruct (dirlookup_loop_ok (dir_fuel (di_size x)) (f_io s) (f_mem s) 0) as (y & m & H1 & H2); [apply Hready|done|dlia|lia|unfold dir_fuel; dlia|].
  rewrite with_mem_self in H1. now exists y, m.
Qed.
End lookup.

(** ** dirlink *)

(** The bytes of a new entry. *)
Definition new_dent (inum : Z) (nm : list Z) : list Z := le_bytes 2 inum ++ nm ++ replicate (14 - length nm) 0.

Lemma cut_zeros nm k : Forall (fun c => c <> 0) nm -> cut (nm ++ replicate k 0) = nm.
Proof.
  induction 1 as [|c nm Hc _ IH]; cbn; [now destruct k|]. rewrite (proj2 (Z.eqb_neq _ _) Hc). now rewrite IH.
Qed.

Lemma cstrn_nonzero m p n : Forall (fun c => c <> 0) (cstrn m p n).
Proof. revert p. induction n as [|n IH]; intros p; cbn; [done|]. destruct (Z.eqb_spec (rd m p) 0); [done|]. now constructor. Qed.

Lemma new_dent_fields inum nm :
  0 <= inum < 2^16 -> Forall (fun c => c <> 0) nm -> de_inum (new_dent inum nm) = inum /\ de_name (new_dent inum nm) = nm.
Proof.
  intros Hi Hnm. unfold de_inum, de_name, new_dent. rewrite take_app_length', drop_app_length' by now rewrite length_le_bytes.
  rewrite le_val_bytes. split; [apply Z.mod_small; exact Hi|now apply cut_zeros].
Qed.

(** Filling in [de]. *)
Lemma fill_dent m name inum :
  apart name 14 de 16 -> let m' := store16 (strncpy m (de + 2) name DIRSIZ) de inum in
  rd_bytes m' de 16 = new_dent inum (cstrn m name 14) /\ frame_bytes m m' de 16.
Proof.
  intros Ha m'. unfold apart in Ha. destruct (strncpy_bytes m (de + 2) name DIRSIZ) as [H1 H2]; [done|unfold DIRSIZ; lia|].
  change (Z.to_nat DIRSIZ) with 14%nat in H1. change DIRSIZ with 14 in H1 at 1. split.
  - rewrite <- (take_drop 2 (rd_bytes m' de 16)), rd_take, rd_drop by lia. unfold new_dent. f_equal.
    + unfold m', store16. pose proof (rd_bytes_wr_bytes (le_bytes 2 inum) (strncpy m (de + 2) name DIRSIZ) de) as E.
      rewrite length_le_bytes in E. now rewrite E, le_bytes_u8.
    + rewrite <- H1. apply rd_bytes_ext. intros a Ha'. unfold m', store16. apply rd_wr_bytes_out. rewrite length_le_bytes. lia.
  - intros a Ha'. unfold m', store16. rewrite rd_wr_bytes_out by (rewrite length_le_bytes; lia). apply H2. unfold DIRSIZ. lia.
Qed.

(** The first free slot, or the end. *)
Definition first_slot (data : Z -> block) (x : dinode) (k : Z) : Prop :=
  0 <= k <= di_size x / 16 /\ (k < di_size x / 16 -> de_inum (dent data x k) = 0) /\
  forall j, 0 <= j < k -> de_inum (dent data x j) <> 0.

Lemma dirlink_scan_ok s D dp fuel : let x := i_dinode (f_inode s dp) in forall y m k,
  ready dev dp s D -> is_dir x -> io_rep y D -> 0 <= k <= di_size x / 16 -> frame_bytes (f_mem s) m de 16 ->
  (forall j, 0 <= j < k -> de_inum (dent (d_data D) x j) <> 0) -> (Z.to_nat (di_size x / 16 - k) < fuel)%nat ->
  exists y' m' i, dirlink_scan fuel dp (16 * k) (with_mem y m s) = Ok (16 * i) (with_mem y' m' s) /\ io_rep y' D /\
    frame_bytes (f_mem s) m' de 16 /\ first_slot (d_data D) x i.
Proof.
  intros x. induction fuel as [|fuel IH]; intros y m k Hr [Ht Hsz] HR Hk HF Hb Hfu; [lia|]. cbn [dirlink_scan].
  erewrite bind_ok by reflexivity. change (i_size (f_inode (with_mem y m s) dp)) with (di_size x).
  destruct (Z.ltb_spec (16 * k) (di_size x)) as [Hlt|Hge].
  2: { exists y, m, k. split; [done|]. split; [done|]. split; [done|]. split; [done|]. split; [dlia|done]. }
  destruct (read_dent (with_mem y m s) D dp k (ready_with _ _ _ _ _ Hr HR) ltac:(unfold i_size; cbn; fold x; dlia)) as (y1 & m1 & H1 & R1 & F1 & E1).
  rewrite (bind_ok _ _ _ _ _ H1). change (negb (16 =? 16)) with false. cbn iota. rewrite with_mem_mem. rewrite f_mem_with in F1.
  change (i_dinode (f_inode (with_mem y m s) dp)) with x in E1.
  erewrite bind_ok by reflexivity. rewrite f_mem_with. destruct (dent_load m1 _ E1) as [-> _].
  pose proof (frame_trans _ _ _ _ _ HF F1) as F2. destruct (Z.eqb_spec (de_inum (dent (d_data D) x k)) 0) as [E0|E0].
  - exists y1, m1, k. split; [done|]. split; [done|]. split; [done|]. split; [done|]. split; done.
  - replace (16 * k + 16) with (16 * (k + 1)) by lia. apply IH; try done; try dlia.
    intros j Hj. destruct (Z.eq_dec j k) as [->|]; [done|]. apply Hb. lia.
Qed.

(** A list in which one element that does not satisfy [P] is replaced by
    another, or one such is added at the end. *)
Lemma list_find_other {A} (P : A -> Prop) `{forall a, Decision (P a)} l i a b :
  l !! i = Some a -> ~ P a -> ~ P b -> list_find P (<[i := b]> l) = list_find P l.
Proof.
  intros Hi Ha Hb. destruct (list_find P l) as [[j e]|] eqn:E.
  - apply list_find_Some in E as (H1 & H2 & H3). apply list_find_Some.
    assert (i <> j) as Hne by congruence. split; [now rewrite list_lookup_insert_ne|]. split; [done|].
    intros k c Hk Hlt. destruct (decide (i = k)) as [->|]; [|rewrite list_lookup_insert_ne in Hk by done; eauto].
    rewrite list_lookup_insert_eq in Hk; [congruence|]. apply lookup_lt_Some in Hi. done.
  - apply list_find_None in E. apply list_find_None. now apply Forall_insert.
Qed.

Lemma list_find_new {A} (P : A -> Prop) `{forall a, Decision (P a)} l i b :
  list_find P l = None -> (i < length l)%nat -> P b -> list_find P (<[i := b]> l) = Some (i, b).
Proof.
  intros E%list_find_None Hi Hb. apply list_find_Some. split; [now apply list_lookup_insert_eq|]. split; [done|].
  intros k c Hk Hlt. rewrite list_lookup_insert_ne in Hk by lia. exact (proj1 (Forall_lookup _ _) E k c Hk).
Qed.

Section insert.
Context (data data' : Z -> block) (x x' : dinode) (i : Z) (e : list Z).
Context (Hsz : 0 <= di_size x) (Hmod : di_size x mod 16 = 0) (Hslot : first_slot data x i).
Context (Hlen : length e = 16%nat) (Hu8 : u8 <$> e = e).
Context (Hsize : di_size x' = Z.max (di_size x) (16 * i + 16)).
Context (Hbytes : forall k, 0 <= k < di_size x' ->
  fbyte data' x' k = if (16 * i <=? k) && (k <? 16 * i + 16) then get8 (k - 16 * i) e else fbyte data x k).

Lemma dent_new : dent data' x' i = e.
Proof.
  destruct Hslot as (Hi & _). rewrite <- Hu8. unfold dent. f_equal.
  apply list_eq_same_length with (n := 16%nat); [done|now rewrite length_fslice|].
  intros j a b Hj Ha Hb. unfold fslice in Ha. rewrite list_lookup_fmap, lookup_seqZ_lt in Ha by lia. injection Ha as <-.
  rewrite Hbytes by lia. destruct (_ && _) eqn:E; [|lia]. unfold get8.
  replace (Z.to_nat (16 * i + Z.of_nat j - 16 * i)) with j by lia. now rewrite Hb.
Qed.

Lemma dent_old k : 0 <= k < di_size x' / 16 -> k <> i -> dent data' x' k = dent data x k.
Proof.
  intros Hk Hne. unfold dent. f_equal. apply fslice_ext. intros j Hj. rewrite Hbytes by dlia.
  destruct (_ && _) eqn:E; [lia|done].
Qed.

Lemma dents_new : dents data' x' = if i <? di_size x / 16 then <[Z.to_nat i := e]> (dents data x) else dents data x ++ [e].
Proof.
  pose proof Hslot as (Hi & _ & _). apply list_eq. intros k.
  pose proof (length_dents data x Hsz) as L1. pose proof (length_dents data' x' ltac:(lia)) as L2.
  destruct (decide (Z.of_nat k < di_size x' / 16)) as [Hk|Hk].
  - replace k with (Z.to_nat (Z.of_nat k)) at 1 by lia. rewrite lookup_dents by lia.
    destruct (Z.ltb_spec i (di_size x / 16)) as [Hlt|Hge].
    + destruct (decide (Z.of_nat k = i)) as [Ek|Hne].
      * rewrite Ek, dent_new. replace (Z.to_nat i) with k by lia. symmetry. apply list_lookup_insert_eq. lia.
      * rewrite dent_old, list_lookup_insert_ne by lia. replace k with (Z.to_nat (Z.of_nat k)) at 2 by lia.
        rewrite lookup_dents; [done|]. dlia.
    + destruct (decide (Z.of_nat k = i)) as [Ek|Hne].
      * rewrite Ek, dent_new, lookup_app_r by lia. replace (k - length (dents data x))%nat with 0%nat by lia. done.
      * rewrite dent_old by lia. rewrite lookup_app_l by dlia. replace k with (Z.to_nat (Z.of_nat k)) at 2 by lia. rewrite lookup_dents; [done|]. dlia.
  - rewrite (proj2 (lookup_ge_None _ _)) by lia. symmetry. apply lookup_ge_None.
    destruct (Z.ltb_spec i (di_size x / 16)); rewrite ?length_insert, ?length_app; cbn [length]; dlia.
Qed.

(** The new entry is found, and the search for other names is as before. *)
Lemma dir_insert nm :
  names nm e -> dir_lookup data x nm = None ->
  dir_lookup data' x' nm = Some (Z.to_nat i, e) /\ forall nm', nm' <> nm -> dir_lookup data' x' nm' = dir_lookup data x nm'.
Proof.
  intros [He Hn] Hno. pose proof Hslot as (Hi & Hfree & _). unfold dir_lookup in *. rewrite dents_new. pose proof (length_dents data x Hsz) as L1.
  assert (forall nm', nm' <> nm -> ~ names nm' e) as Hother by (intros nm' Hne [_ E]; congruence).
  destruct (Z.ltb_spec i (di_size x / 16)) as [Hlt|Hge].
  - split; [apply list_find_new; [done|lia|done]|]. intros nm' Hne.
    apply (list_find_other _ _ _ (dent data x i)); [apply lookup_dents; lia| |auto]. intros [E _]. now apply E, Hfree.
  - split.
    + rewrite list_find_app_r by done. cbn. rewrite decide_True by done. cbn. do 2 f_equal. lia.
    + intros nm' Hne. destruct (list_find (names nm') (dents data x)) as [[j a]|] eqn:E.
      * now apply list_find_app_l.
      * rewrite list_find_app_r by done. cbn. now rewrite decide_False by auto.
Qed.
End insert.

(** What [dirlink] leaves: the entry added, or a full disk and the directory as
    it was. *)
Record linked (dp inum : Z) (nm : list Z) (r : Z) s (D : dview) s' (D' : dview) : Prop := Linked {
  lk_same : fsame dp s s';
  lk_mem : exists m, f_user s' = u_set_mem m (f_user s) /\ frame_bytes (f_mem s) m de 16;
  lk_ready : ready dev dp s' D';
  lk_dir : is_dir (i_dinode (f_inode s' dp));
  lk_nlink : i_nlink (f_inode s' dp) = i_nlink (f_inode s dp);
  lk_result : r = 0 /\ (exists i, first_slot (d_data D) (i_dinode (f_inode s dp)) i /\
      dir_lookup (d_data D') (i_dinode (f_inode s' dp)) nm = Some (Z.to_nat i, new_dent inum nm)) \/
    r = -1 /\ (forall c, 0 <= c < sb_size (f_sb s) -> used (f_sb s) (d_data D') c = true) /\
      dir_lookup (d_data D') (i_dinode (f_inode s' dp)) nm = None;
  lk_others nm' : nm' <> nm ->
    dir_lookup (d_data D') (i_dinode (f_inode s' dp)) nm' = dir_lookup (d_data D) (i_dinode (f_inode s dp)) nm';
  lk_disk j : 0 <= j < sb_ninodes (f_sb s) -> disk_inode (f_sb s) (d_data D') j =
    if j =? i_inum (f_inode s dp) then i_dinode (f_inode s' dp) else disk_inode (f_sb s) (d_data D) j;
  lk_ext : extends (f_sb s) (fun b => own_block D (i_dinode (f_inode s dp)) b \/ b = IBLOCK (i_inum (f_inode s dp)) (f_sb s)) D D';
}.

Lemma fsame_with ip y m s : fsame ip s (with_mem y m s).
Proof. destruct (fsame_refl ip s). split; done. Qed.

(** Writing the new entry at its slot. *)
Lemma linked_written dp inum nm s D i y m tot s' D' :
  let x := i_dinode (f_inode s dp) in let e := new_dent inum nm in
  ready dev dp s D -> is_dir x -> dir_lookup (d_data D) x nm = None -> 0 < inum < 2^16 -> Forall (fun c => c <> 0) nm ->
  length e = 16%nat -> u8 <$> e = e -> first_slot (d_data D) x i -> frame_bytes (f_mem s) m de 16 ->
  written dev dp (16 * i) e tot (with_mem y m s) D s' D' -> tot = 16 \/ tot = 0 ->
  (tot = 16 \/ forall c, 0 <= c < sb_size (f_sb s) -> used (f_sb s) (d_data D') c = true) ->
  linked dp inum nm (if tot =? 16 then 0 else -1) s D s' D'.
Proof.
  intros x e Hr Hdir Hno Hin Hnm Hlen Hu8 Hi HF HW Ht Hfull. pose proof Hdir as [Hty Hmod]. fold x in Hty, Hmod.
  pose proof (bo_size _ _ _ _ _ (proj2 (rd_file _ _ _ _ Hr))) as Hsz. fold x in Hsz. pose proof Hi as (Hi1 & _ & _).
  destruct HW as [W1 W2 W3 (l & W4) W5 W6 W7 W8]. cbn zeta in W4. cbn [f_inode f_sb with_mem with_all] in *. fold x in W4, W5, W7.
  destruct (new_dent_fields inum nm ltac:(lia) Hnm) as [N1 N2]. fold e in N1, N2.
  set (x' := i_dinode (f_inode s' dp)) in *. assert (di_size x' = Z.max (di_size x) (16 * i + tot)) as Es by (now rewrite W4).
  assert (is_dir x') as Hdir' by (split; [now rewrite W4|rewrite Es; destruct Ht as [-> | ->]; dlia]).
  assert (fsame dp s s') as HS by (eapply fsame_trans; [apply (fsame_with dp y m)|exact W1]).
  unfold i_size in W5. fold x' in W5. destruct Ht as [-> | ->]; cbn [Z.eqb Pos.eqb].
  - destruct (dir_insert (d_data D) (d_data D') x x' i e ltac:(lia) Hmod Hi Hlen Hu8 Es W5 nm) as [G1 G2]; [split; [lia|done]|done|].
    split; fold x x'; try done.
    + now exists m.
    + unfold i_nlink. fold x x'. now rewrite W4.
    + left. split; [done|]. now exists i.
  - assert (forall k, 0 <= k < di_size x' / 16 -> dent (d_data D') x' k = dent (d_data D) x k) as Hde.
    { intros k Hk. unfold dent. f_equal. apply fslice_ext. intros j Hj. rewrite W5 by dlia. destruct (_ && _) eqn:E; [lia|done]. }
    assert (dents (d_data D') x' = dents (d_data D) x) as Hds.
    { unfold dents. replace (di_size x') with (di_size x) in * by dlia. apply list_fmap_ext. intros j k Hk.
      apply Hde. apply list_elem_of_lookup_2, elem_of_seqZ in Hk. lia. }
    assert (forall c, 0 <= c < sb_size (f_sb s) -> used (f_sb s) (d_data D') c = true) as Hfull' by (now destruct Hfull).
    split; fold x x'; try done.
    + now exists m.
    + unfold i_nlink. fold x x'. now rewrite W4.
    + right. split; [done|]. split; [done|]. unfold dir_lookup. now rewrite Hds.
    + intros nm' _. unfold dir_lookup. now rewrite Hds.
Qed.

Lemma dirlink_adds s D dp name inum nm T :
  let x := i_dinode (f_inode s dp) in
  ready dev dp s D -> is_dir x -> apart name 14 de 16 -> cstrn (f_mem s) name 14 = nm -> dir_lookup (d_data D) x nm = None ->
  0 < inum < 2^16 -> di_size x < MAXFILE * BSIZE -> 0 <= i_inum (f_inode s dp) < sb_ninodes (f_sb s) ->
  bmaps (f_sb s) ⊆ T -> IBLOCK (i_inum (f_inode s dp)) (f_sb s) ∈ T -> budget T D 4 ->
  exists r s' D', dirlink dp name inum s = Ok r s' /\ linked dp inum nm r s D s' D'.
Proof.
  intros x Hr Hdir Hap Hnm Hno Hin Hsz Hdi HT HiT Hb. pose proof file_consts as Hc. unfold dirlink.
  pose proof (bo_size _ _ _ _ _ (proj2 (rd_file _ _ _ _ Hr))) as Hs0. fold x in Hs0. pose proof Hdir as [_ Hmod].
  destruct (dirlookup_ok s D dp name nm Hr Hdir Hap Hnm) as (y1 & m1 & H1 & R1 & F1). fold x in H1. rewrite Hno in H1.
  rewrite (bind_ok _ _ _ _ _ H1). change (negb ((NULL, 0).1 =? NULL)) with false. cbn iota.
  erewrite bind_ok by reflexivity. change (i_size (f_inode (with_mem y1 m1 s) dp)) with (di_size x).
  destruct (dirlink_scan_ok s D dp (dir_fuel (di_size x)) y1 m1 0 Hr Hdir R1) as (y2 & m2 & i & H2 & R2 & F2 & Hi);
    [fold x; dlia|done|intros; lia|unfold dir_fuel; fold x; dlia|].
  rewrite (bind_ok _ _ _ _ _ H2). erewrite bind_ok by reflexivity. fold (with_mem y2).
  set (m3 := store16 (strncpy (f_mem (with_mem y2 m2 s)) (de + 2) name DIRSIZ) de inum).
  assert (Fs.set_mem m3 (with_mem y2 m2 s) = with_mem y2 m3 s) as E3 by (unfold with_mem, with_all, Fs.set_mem; cbn; now rewrite u_set_set).
  rewrite E3. destruct (fill_dent (f_mem (with_mem y2 m2 s)) name inum Hap) as [F3 G3]. fold m3 in F3, G3. rewrite f_mem_with in F3, G3.
  assert (cstrn m2 name 14 = nm) as En by (rewrite <- Hnm; apply cstrn_frame; intros a Ha; apply F2; unfold apart in Hap; lia).
  rewrite En in F3. pose proof (frame_trans _ _ _ _ _ F2 G3) as F4. pose proof (cstrn_nonzero (f_mem s) name 14) as Hz. rewrite Hnm in Hz.
  assert (length (new_dent inum nm) = 16%nat) as Hlen by (rewrite <- F3; apply length_rd_bytes).
  assert (u8 <$> new_dent inum nm = new_dent inum nm) as Hu8.
  { rewrite <- F3. apply list_eq. intros k. rewrite list_lookup_fmap. destruct (rd_bytes m3 de 16 !! k) as [v|] eqn:Ek; [|done].
    cbn. f_equal. apply u8_small. exact (proj1 (Forall_lookup _ _) (rd_bytes_range m3 de 16) k v Ek). }
  pose proof Hi as (Hi1 & _ & _). fold x in Hi1, Hi. pose proof (ready_with dp s D y2 m3 Hr R2) as Hr3.
  destruct (writei_ok dev T (with_mem y2 m3 s) D dp false de (16 * i) 16 (new_dent inum nm) Hr3) as (tot & s' & D' & H4 & HW & Ht & _ & Hfull & Hbd).
  - pose proof (kernel_source de 16 (with_mem y2 m3 s) ltac:(done) ltac:(done) ltac:(done)) as HK.
    rewrite f_mem_with in HK. change (Z.to_nat 16) with 16%nat in HK. now rewrite F3 in HK.
  - now rewrite Hlen.
  - unfold i_size. cbn. fold x. dlia.
  - unfold BSIZE in *. dlia.
  - done.
  - done.
  - done.
  - eapply budget_le; [|exact Hb]. unfold io_left, BSIZE. cbn [Z.ltb Z.compare]. dlia.
  - done.
  - rewrite (bind_ok _ _ _ _ _ H4). exists (if tot =? 16 then 0 else -1), s', D'. split; [destruct (tot =? 16); done|].
    eapply (linked_written dp inum nm s D i y2 m3); try done. unfold BSIZE in Hbd. destruct Hbd as [->|[->|Hbd]]; [now left|now right|].
    destruct (Z.eq_dec tot 16); [now left|]. right. dlia.
Qed.

Lemma table_mem lk y m s D : table_ok dev lk s D -> table_ok dev lk (with_mem y m s) D.
Proof. now apply table_with. Qed.

(** A reference just gained is not the one whose drop frees the inode. *)
Lemma gained_last inum ip s s' : 0 <= i_ref (f_inode s ip) -> gained inum ip s s' -> last_ref (f_inode s' ip) = false.
Proof.
  intros Hr HG. unfold last_ref. destruct (Z.eqb_spec (i_ref (f_inode s' ip)) 1) as [E|]; [|done].
  rewrite (gn_fresh _ _ _ _ HG); [done|]. rewrite (gn_ref _ _ _ _ HG) in E. lia.
Qed.

(** Taking an inode and putting it back leaves the counts as they were. *)
Lemma get_put lk inum ip s s1 D :
  table_ok dev lk s D -> table_ok dev lk s1 D -> gained inum ip s s1 -> itable_lock ∉ f_held s ->
  exists s2, iput ip s1 = Ok tt s2 /\ table_ok dev lk s2 D /\ f_io s2 = f_io s1 /\ f_user s2 = f_user s1 /\
    (forall j, refcount (f_inode s2) j = refcount (f_inode s) j) /\ nfree (f_inode s2) = nfree (f_inode s).
Proof.
  intros HT0 HT HG Hh. pose proof (gn_entry _ _ _ _ HG) as He. pose proof (tb_ref _ _ _ _ HT0 ip (proj1 He)) as Hr.
  destruct (iput_keep dev lk s1 D ip inum HT He) as (s2 & H1 & T2 & [O2 I2 C2 N2]);
    [now rewrite (oe_held _ _ _ _ (gn_only _ _ _ _ HG))|now apply (gained_last inum ip s)|].
  exists s2. split; [done|]. split; [done|]. split; [done|]. split; [apply O2|]. split.
  - intros j. rewrite C2, (gn_count _ _ _ _ HG). lia.
  - rewrite N2, (gn_free _ _ _ _ HG), (gn_ref _ _ _ _ HG).
    destruct (Z.eqb_spec (i_ref (f_inode s ip)) 0), (Z.eqb_spec (i_ref (f_inode s ip) + 1) 1); lia.
Qed.

Lemma dirlink_exists lk s D dp name inum nm k e :
  let x := i_dinode (f_inode s dp) in
  ready dev dp s D -> is_dir x -> apart name 14 de 16 -> cstrn (f_mem s) name 14 = nm -> dir_lookup (d_data D) x nm = Some (k, e) ->
  table_ok dev lk s D -> itable_lock ∉ f_held s -> 0 <= de_inum e < sb_ninodes (f_sb s) -> 0 < nfree (f_inode s) ->
  exists s', dirlink dp name inum s = Ok (-1) s' /\ io_rep (f_io s') D /\ table_ok dev lk s' D /\
    (exists m, f_user s' = u_set_mem m (f_user s) /\ frame_bytes (f_mem s) m de 16) /\
    (forall j, refcount (f_inode s') j = refcount (f_inode s) j) /\ nfree (f_inode s') = nfree (f_inode s).
Proof.
  intros x Hr Hdir Hap Hnm Hf HT Hh He Hn. unfold dirlink.
  destruct (dirlookup_ok s D dp name nm Hr Hdir Hap Hnm) as (y1 & m1 & H1 & R1 & F1). fold x in H1. rewrite Hf in H1. cbn [found] in H1.
  pose proof (table_mem lk y1 m1 s D HT) as HT1.
  destruct (iget_ok dev lk (with_mem y1 m1 s) D (de_inum e) HT1 Hh He ltac:(now left)) as (ip & s2 & H2 & T2 & G2).
  rewrite (bind_ok _ _ _ _ _ H2) in H1. rewrite (bind_ok _ _ _ _ _ H1). cbn [fst].
  pose proof (gn_entry _ _ _ _ G2) as (Hip & _ & _). rewrite (proj2 (Z.eqb_neq ip NULL)) by (unfold NULL; lia). cbn [negb].
  destruct (get_put lk (de_inum e) ip (with_mem y1 m1 s) s2 D HT1 T2 G2 Hh) as (s3 & H3 & T3 & I3 & U3 & C3 & N3).
  rewrite (bind_ok _ _ _ _ _ H3). exists s3. split; [done|]. split; [now rewrite I3, (gn_io _ _ _ _ G2)|]. split; [done|].
  split; [|split; [exact C3|exact N3]]. exists m1. split; [|done]. now rewrite U3, (oe_user _ _ _ _ (gn_only _ _ _ _ G2)).
Qed.
End dir.
