(* ===== verification/FsPath.v ===== *)
(** * kernel/fs.c: path names

    The elements of a path, [skipelem] as their enumeration, and [namex] as the
    walk from directory to directory that they describe. *)

From stdpp Require Import base gmap numbers strings functions list.
From Stdlib Require Import ZifyBool.
From S2P Require Import Prelude Mem Block StringC Spinlock Locks Riscv Bio Log LogSpec BlockIO Fs FsBlocks FsInode FsFile FsIO FsTable FsDir.

Open Scope Z_scope.

(** ** Elements of a path *)

(** The maximal runs of bytes other than a slash; [cur] is the one being read. *)
Fixpoint elems (cur l : list Z) : list (list Z) :=
  match l with
  | [] => match cur with [] => [] | _ => [cur] end
  | c :: l' =>
      if c =? slash then match cur with [] => elems [] l' | _ => cur :: elems [] l' end
      else elems (cur ++ [c]) l'
  end.

(** The bytes of the string [l] and its NUL are at [p]. *)
Fixpoint str_at (m : memory) (p : Z) (l : list Z) : Prop :=
  match l with
  | [] => rd m p = 0
  | c :: l' => rd m p = c /\ c <> 0 /\ str_at m (p + 1) l'
  end.

Lemma str_at_ext m m' l : forall p, same_bytes m m' p (Z.of_nat (length l) + 1) -> str_at m p l -> str_at m' p l.
Proof.
  induction l as [|c l IH]; intros p Hs; cbn [str_at length] in *.
  - intros <-. apply Hs. lia.
  - intros (H1 & H2 & H3). split; [rewrite <- H1; apply Hs; lia|]. split; [done|]. apply IH; [|done]. intros a Ha. apply Hs. lia.
Qed.

Lemma str_at_app m l l' : forall p, str_at m p (l ++ l') -> str_at m (p + Z.of_nat (length l)) l'.
Proof.
  induction l as [|c l IH]; intros p; cbn [app length str_at]; [now rewrite Z.add_0_r|]. intros (_ & _ & H%IH).
  now replace (p + Z.of_nat (S (length l))) with (p + 1 + Z.of_nat (length l)) by lia.
Qed.

Fixpoint drop_slashes (l : list Z) : list Z :=
  match l with
  | [] => []
  | c :: l' => if c =? slash then drop_slashes l' else l
  end.

(** The first element and what follows it. *)
Fixpoint split_name (l : list Z) : list Z * list Z :=
  match l with
  | [] => ([], [])
  | c :: l' => if c =? slash then ([], l) else let (n, r) := split_name l' in (c :: n, r)
  end.

Lemma elems_slashes l : elems [] (drop_slashes l) = elems [] l.
Proof. induction l as [|c l IH]; cbn; [done|]. destruct (c =? slash) eqn:E; [done|]. cbn. now rewrite E. Qed.

Lemma split_name_app l : (split_name l).1 ++ (split_name l).2 = l.
Proof. induction l as [|c l IH]; cbn; [done|]. destruct (c =? slash); [done|]. destruct (split_name l). cbn in *. now rewrite IH. Qed.

Lemma elems_name l : forall cur, cur ++ (split_name l).1 <> [] ->
  elems cur l = (cur ++ (split_name l).1) :: elems [] (drop_slashes (split_name l).2).
Proof.
  induction l as [|c l IH]; intros cur Hne; cbn [elems split_name].
  - cbn in *. rewrite app_nil_r in *. now destruct cur.
  - cbn [split_name] in Hne. destruct (c =? slash) eqn:E.
    + cbn [fst snd drop_slashes] in *. rewrite app_nil_r in *. rewrite E, elems_slashes. now destruct cur.
    + destruct (split_name l) as [n r] eqn:El. cbn [fst snd] in *. rewrite IH; [|now destruct cur].
      now rewrite <- app_assoc.
Qed.

Lemma split_name_first l c l' : drop_slashes l = c :: l' -> exists n, (split_name (c :: l')).1 = c :: n.
Proof.
  induction l as [|d l IH]; cbn; [done|]. destruct (d =? slash) eqn:E; [done|]. intros [= -> ->]. rewrite E.
  destruct (split_name l') as [n r]. now exists n.
Qed.

Lemma drop_slashes_idem l : drop_slashes (drop_slashes l) = drop_slashes l.
Proof. induction l as [|c l IH]; cbn; [done|]. destruct (c =? slash) eqn:E; [done|]. cbn. now rewrite E. Qed.

Lemma length_drop_slashes l : (length (drop_slashes l) <= length l)%nat.
Proof. induction l as [|c l IH]; cbn; [done|]. destruct (c =? slash); cbn; lia. Qed.

Lemma drop_slashes_suffix l : exists l1, l = l1 ++ drop_slashes l.
Proof.
  induction l as [|c l [l1 IH]]; cbn; [now exists []|]. destruct (c =? slash); [|now exists []].
  exists (c :: l1). cbn. now rewrite <- IH.
Qed.

Lemma length_elems l : forall cur, (length (elems cur l) <= length l + length cur)%nat.
Proof.
  induction l as [|c l IH]; intros cur; cbn; [destruct cur; cbn; lia|]. destruct (c =? slash).
  - specialize (IH []). destruct cur; cbn in *; lia.
  - specialize (IH (cur ++ [c])). rewrite length_app in IH. cbn in IH. lia.
Qed.

(** ** skipelem *)

Lemma skip_slashes_ok m l : forall p fuel, str_at m p l -> (length l < fuel)%nat ->
  skip_slashes fuel m p = Some (p + Z.of_nat (length l) - Z.of_nat (length (drop_slashes l))).
Proof.
  induction l as [|c l IH]; intros p fuel Hs Hf; (destruct fuel as [|fuel]; [cbn in *; lia|]); cbn [skip_slashes str_at drop_slashes length] in *.
  - rewrite Hs. cbn. f_equal. lia.
  - destruct Hs as (-> & Hc & Hs). destruct (c =? slash); [|cbn [length]; f_equal; lia]. rewrite IH by (done || lia). f_equal. lia.
Qed.

Lemma skip_name_ok m l : forall p fuel, str_at m p l -> (length l < fuel)%nat ->
  skip_name fuel m p = Some (p + Z.of_nat (length (split_name l).1)).
Proof.
  induction l as [|c l IH]; intros p fuel Hs Hf; (destruct fuel as [|fuel]; [cbn in *; lia|]); cbn [skip_name str_at split_name length] in *.
  - rewrite Hs. cbn. f_equal. lia.
  - destruct Hs as (-> & Hc & Hs). destruct (c =? slash) eqn:E; cbn [negb andb]; [cbn; f_equal; lia|].
    rewrite (proj2 (Z.eqb_neq c 0) Hc). cbn [negb]. rewrite IH by (done || lia). destruct (split_name l). cbn [fst length]. f_equal. lia.
Qed.

Lemma cstrn_take m n : forall p l,
  (forall i c, (i < n)%nat -> l !! i = Some c -> rd m (p + Z.of_nat i) = c /\ c <> 0) ->
  ((length l < n)%nat -> rd m (p + Z.of_nat (length l)) = 0) -> cstrn m p n = take n l.
Proof.
  induction n as [|n IH]; intros p l Hl H0; [done|]. cbn [cstrn]. destruct l as [|c l]; cbn [take].
  - rewrite Z.add_0_r in H0. rewrite H0 by (cbn; lia). done.
  - destruct (Hl 0%nat c ltac:(lia) eq_refl) as [E Hc]. rewrite Z.add_0_r in E. rewrite E, (proj2 (Z.eqb_neq _ _) Hc). f_equal.
    apply IH.
    + intros i d Hi Hd. replace (p + 1 + Z.of_nat i) with (p + Z.of_nat (S i)) by lia. apply Hl; [lia|done].
    + intros Hlt. replace (p + 1 + Z.of_nat (length l)) with (p + Z.of_nat (length (c :: l))) by (cbn; lia). apply H0. cbn. lia.
Qed.

Lemma str_at_lookup m l : forall p i c, str_at m p l -> l !! i = Some c -> rd m (p + Z.of_nat i) = c /\ c <> 0.
Proof.
  induction l as [|d l IH]; intros p i c Hs Hi; [done|]. destruct Hs as (H1 & H2 & H3). destruct i as [|i]; cbn in Hi.
  - injection Hi as ->. now rewrite Z.add_0_r.
  - replace (p + Z.of_nat (S i)) with (p + 1 + Z.of_nat i) by lia. eauto.
Qed.

(** Copying the element to [name]. *)
Lemma copy_name m name s e l :
  str_at m s (e ++ l) -> apart s (Z.of_nat (length (e ++ l)) + 1) name 14 ->
  let len := Z.of_nat (length e) in
  let m' := if DIRSIZ <=? len then memmove m name s DIRSIZ else wr (memmove m name s len) (name + len) 0 in
  cstrn m' name 14 = take 14 e /\ frame_bytes m m' name 14.
Proof.
  intros Hs Ha len m'. unfold DIRSIZ in m'. rewrite length_app in Ha. unfold apart in Ha.
  assert (forall i c, e !! i = Some c -> rd m (s + Z.of_nat i) = c /\ c <> 0) as He.
  { intros i c Hi. apply (str_at_lookup m (e ++ l) s i c Hs). apply lookup_app_Some. now left. }
  subst m'. destruct (Z.leb_spec 14 len) as [Hl|Hl]; (split; [apply cstrn_take|]).
  - intros i c Hi Hc. rewrite memmove_in by lia. now apply He.
  - lia.
  - apply memmove_frame. lia.
  - intros i c Hi Hc. pose proof (lookup_lt_Some _ _ _ Hc). rewrite rd_wr_ne by lia. rewrite memmove_in by lia. now apply He.
  - intros _. fold len. rewrite rd_wr_eq. done.
  - intros a Ha'. rewrite rd_wr_ne by lia. apply memmove_frame; lia.
Qed.

(** The next element [e] of the path, and the rest of the path. *)
Record skipped (m : memory) (p name : Z) (l : list Z) (p' : Z) (m' : memory) (e l' : list Z) : Prop := Skipped {
  sk_elems : elems [] l = e :: elems [] l';
  sk_rest : drop_slashes l' = l';
  sk_str : str_at m' p' l';
  sk_end : p <= p' /\ p' + Z.of_nat (length l') = p + Z.of_nat (length l);
  sk_short : (length l' < length l)%nat;
  sk_name : cstrn m' name 14 = take 14 e;
  sk_frame : frame_bytes m m' name 14;
}.

Lemma skipelem_ok m p name l :
  str_at m p l -> (length l < path_fuel)%nat -> apart p (Z.of_nat (length l) + 1) name 14 ->
  (elems [] l = [] /\ skipelem m p name = Some (0, m)) \/
  (exists p' m' e l', skipelem m p name = Some (p', m') /\ skipped m p name l p' m' e l').
Proof.
  intros Hs Hf Ha. unfold skipelem. rewrite (skip_slashes_ok m l p path_fuel Hs Hf).
  pose proof (length_drop_slashes l) as Hd. destruct (drop_slashes_suffix l) as [l0 El0].
  pose proof (f_equal length El0) as Elen. rewrite length_app in Elen.
  replace (p + Z.of_nat (length l) - Z.of_nat (length (drop_slashes l))) with (p + Z.of_nat (length l0)) by lia.
  set (s := p + Z.of_nat (length l0)). assert (str_at m s (drop_slashes l)) as Hs1 by (apply (str_at_app m l0 (drop_slashes l) p); now rewrite <- El0).
  rewrite <- (elems_slashes l). destruct (drop_slashes l) as [|c l1] eqn:E1.
  { left. split; [done|]. cbn in Hs1. now rewrite Hs1. }
  right. pose proof Hs1 as (Ec & Hc & _). rewrite Ec, (proj2 (Z.eqb_neq _ _) Hc).
  rewrite (skip_name_ok m (c :: l1) s path_fuel Hs1 ltac:(lia)). destruct (split_name_first l c l1 E1) as [n En].
  pose proof (split_name_app (c :: l1)) as Eapp. set (e := (split_name (c :: l1)).1) in *. set (r := (split_name (c :: l1)).2) in *.
  pose proof (f_equal length Eapp) as Elen2. rewrite length_app in Elen2. rewrite En in Elen2 at 1. cbn [length] in Elen, Elen2.
  replace (s + Z.of_nat (length e) - s) with (Z.of_nat (length e)) by lia. cbn zeta.
  rewrite <- Eapp in Hs1. assert (apart s (Z.of_nat (length (e ++ r)) + 1) name 14) as Ha'.
  { rewrite Eapp. unfold apart in *. cbn [length]. lia. }
  destruct (copy_name m name s e r Hs1 Ha') as [Hn Hfr]. match goal with |- context [skip_slashes path_fuel ?mm _] => set (m' := mm) in * end.
  assert (str_at m' (s + Z.of_nat (length e)) r) as Hr.
  { apply (str_at_ext m); [|now apply str_at_app]. intros a Hin. apply Hfr. unfold apart in Ha'. rewrite length_app in Ha'. lia. }
  rewrite (skip_slashes_ok m' r _ path_fuel Hr) by lia. pose proof (length_drop_slashes r). destruct (drop_slashes_suffix r) as [r0 Er0].
  pose proof (f_equal length Er0) as Elen3. rewrite length_app in Elen3.
  exists (s + Z.of_nat (length e) + Z.of_nat (length r) - Z.of_nat (length (drop_slashes r))), m', e, (drop_slashes r). split; [done|].
  assert (length e = S (length n)) as Ele by now rewrite En. split.
  - rewrite <- (elems_slashes l), E1, (elems_name (c :: l1) []); [done|]. cbn [app]. fold e. now rewrite En.
  - apply drop_slashes_idem.
  - replace (s + Z.of_nat (length e) + Z.of_nat (length r) - Z.of_nat (length (drop_slashes r))) with (s + Z.of_nat (length e) + Z.of_nat (length r0)) by lia.
    apply str_at_app. now rewrite <- Er0.
  - subst s. lia.
  - lia.
  - done.
  - done.
Qed.

(** ** The tree on disk *)

(** An inode in use, with a link to it. *)
Definition live (sb : superblock) (D : dview) (j : Z) : Prop :=
  0 <= j < sb_ninodes sb /\ let x := disk_inode sb (d_data D) j in di_type x <> 0 /\ di_nlink x <> 0.

(** The contents of every inode in use are well formed, and the entries of
    directories name inodes in use. *)
Record tree_ok (sb : superblock) (D : dview) : Prop := TreeOk {
  tr_file j : 0 <= j < sb_ninodes sb -> di_type (disk_inode sb (d_data D) j) <> 0 -> file_ok sb D (disk_inode sb (d_data D) j);
  tr_dir j : 0 <= j < sb_ninodes sb -> let x := disk_inode sb (d_data D) j in di_type x = T_DIR ->
    di_size x mod 16 = 0 /\ forall e, e ∈ dents (d_data D) x -> de_inum e <> 0 -> live sb D (de_inum e);
}.

(** The inode that the elements [es] lead to from inode [inum]. *)
Fixpoint resolve (sb : superblock) (data : Z -> block) (inum : Z) (es : list (list Z)) : option Z :=
  match es with
  | [] => Some inum
  | e :: es' =>
      let x := disk_inode sb data inum in
      if di_type x =? T_DIR then
        match dir_lookup data x (take 14 e) with
        | Some (_, d) => resolve sb data (de_inum d) es'
        | None => None
        end
      else None
  end.

(** The directory that holds the last of the elements. *)
Definition resolve_parent (sb : superblock) (data : Z -> block) (inum : Z) (es : list (list Z)) : option Z :=
  match es with
  | [] => None
  | _ => match resolve sb data inum (removelast es) with
         | Some i => if di_type (disk_inode sb data i) =? T_DIR then Some i else None
         | None => None
         end
  end.

Definition target (parent : bool) := if parent then resolve_parent else resolve.

Lemma target_next parent sb data inum e es d k :
  (parent = true -> es <> []) -> di_type (disk_inode sb data inum) = T_DIR ->
  dir_lookup data (disk_inode sb data inum) (take 14 e) = Some (k, d) ->
  target parent sb data inum (e :: es) = target parent sb data (de_inum d) es.
Proof.
  intros Hp Ht Hl. destruct parent; cbn [target resolve_parent resolve].
  - specialize (Hp eq_refl). destruct es as [|e' es']; [done|].
    change (removelast (e :: e' :: es')) with (e :: removelast (e' :: es')). cbn [resolve]. now rewrite Ht, Hl.
  - now rewrite Ht, Hl.
Qed.

Lemma target_none parent sb data inum e es :
  di_type (disk_inode sb data inum) <> T_DIR \/ (parent = true -> es <> []) /\ dir_lookup data (disk_inode sb data inum) (take 14 e) = None ->
  target parent sb data inum (e :: es) = None.
Proof.
  intros H. assert (resolve sb data inum (e :: es) = None) as H0.
  { cbn [resolve]. destruct H as [Ht|[_ Hl]]; [now rewrite (proj2 (Z.eqb_neq _ _) Ht)|]. rewrite Hl. now destruct (_ =? T_DIR). }
  destruct parent; [|done]. cbn [target resolve_parent]. destruct es as [|e' es'].
  - cbn [removelast resolve]. destruct H as [Ht|[Hp _]]; [now rewrite (proj2 (Z.eqb_neq _ _) Ht)|]. now destruct (Hp eq_refl).
  - change (removelast (e :: e' :: es')) with (e :: removelast (e' :: es')). cbn [resolve] in *.
    destruct H as [Ht|[_ Hl]]; [now rewrite (proj2 (Z.eqb_neq _ _) Ht)|]. rewrite Hl. now destruct (_ =? T_DIR).
Qed.

(** ** namex *)

Section namex.
Context {B U : Type} `{BIO : BlockIO B} (dev : Z) `{BS : !BlockIOSpec B dev} `{UIO : UserIO U} `{UL : !UserLaws U}.
Implicit Types s : fstate B U.
Context (D : dview) (sb : superblock) (Htree : tree_ok sb D) (HL : layout sb (d_start D)) (HB : bitmap_ok sb D) (Hlk : d_locked D = ∅).

(** The state between the steps of a walk: the sleep locks held are [lk]. *)
Record walking (lk : gset Z) s : Prop := Walking {
  wk_sb : f_sb s = sb;
  wk_io : io_rep (f_io s) D;
  wk_table : table_ok dev lk s D;
  wk_itable : itable_lock ∉ f_held s;
  wk_spin ip : inode_spin ip ∉ f_held s;
}.

(** Nothing but the block layer's caches, the inode table and memory changed. *)
Definition env_same s s' : Prop := f_held s' = f_held s /\ f_pid s' = f_pid s /\ f_sb s' = f_sb s /\ f_cwd s' = f_cwd s.

Lemma only_env ip x s s' : only_entry ip x s s' -> env_same s s'.
Proof. intros []. done. Qed.

Lemma env_trans s1 s2 s3 : env_same s1 s2 -> env_same s2 s3 -> env_same s1 s3.
Proof. unfold env_same. intuition congruence. Qed.

Lemma walking_env lk s s' : env_same s s' -> io_rep (f_io s') D -> table_ok dev lk s' D -> forall lk0, walking lk0 s -> walking lk s'.
Proof. intros (E1 & E2 & E3 & E4) HR HT lk0 [W1 W2 W3 W4 W5]. split; try done; congruence. Qed.

(** The entry of an inode, unlocked and put. *)
Lemma iunlockput_ok s ip inum :
  walking {[ip]} s -> entry (f_inode s) inum ip -> di_nlink (disk_inode sb (d_data D) inum) <> 0 ->
  exists s', iunlockput ip s = Ok tt s' /\ walking ∅ s' /\ env_same s s' /\ f_user s' = f_user s /\
    (forall i, i <> ip -> f_inode s' i = f_inode s i) /\ i_ref (f_inode s' ip) = i_ref (f_inode s ip) - 1 /\
    i_inum (f_inode s' ip) = inum /\
    (forall j, refcount (f_inode s') j = refcount (f_inode s) j - (if j =? inum then 1 else 0)) /\
    nfree (f_inode s') = nfree (f_inode s) + (if i_ref (f_inode s ip) =? 1 then 1 else 0).
Proof.
  intros HW He Hn. pose proof HW as [W1 W2 W3 W4 W5]. pose proof He as (Hip & Hr & Hin).
  destruct (iunlock_any dev {[ip]} s D ip inum W3 He ltac:(set_solver) (W5 ip)) as (s1 & H1 & I1 & T1 & O1).
  replace ({[ip]} ∖ {[ip]}) with (∅ : gset Z) in T1 by set_solver. set (x1 := with_lock _ (f_inode s ip)) in O1.
  pose proof (oe_self _ _ _ _ O1) as X1. assert (entry (f_inode s1) inum ip) as He1 by (unfold entry; now rewrite X1).
  destruct (iput_keep dev ∅ s1 D ip inum T1 He1) as (s2 & H2 & T2 & [O2 I2 C2 N2]).
  { now rewrite (oe_held _ _ _ _ O1). }
  { unfold last_ref. destruct (truthy (i_valid (f_inode s1 ip))) eqn:Ev; [|now rewrite andb_false_r].
    unfold i_nlink. rewrite (tb_valid _ _ _ _ T1 _ _ He1), (oe_sb _ _ _ _ O1), W1; [|intros E; now rewrite E in Ev].
    rewrite (proj2 (Z.eqb_neq _ _) Hn). apply andb_false_r. }
  pose proof (env_trans _ _ _ (only_env _ _ _ _ O1) (only_env _ _ _ _ O2)) as HE. rewrite X1 in O2, N2.
  exists s2. split; [unfold iunlockput; now rewrite (bind_ok _ _ _ _ _ H1)|].
  split; [eapply walking_env; [exact HE| |done|exact HW]; now rewrite I2, I1|]. split; [done|].
  split; [now rewrite (oe_user _ _ _ _ O2), (oe_user _ _ _ _ O1)|]. pose proof (oe_self _ _ _ _ O2) as X2.
  split; [intros i Hi; now rewrite (oe_other _ _ _ _ O2), (oe_other _ _ _ _ O1)|]. rewrite X2. split; [done|]. split; [done|]. split.
  - intros j. rewrite C2, (refcount_set ip x1 s s1 j Hip O1). subst x1. cbn. lia.
  - rewrite N2, (nfree_set ip x1 s s1 Hip O1). subst x1. cbn. lia.
Qed.

(** An inode in use, locked: its directory can be searched. *)
Lemma walk_lock s ip inum :
  walking ∅ s -> entry (f_inode s) inum ip -> live sb D inum ->
  exists s', ilock ip s = Ok tt s' /\ walking {[ip]} s' /\ env_same s s' /\ f_user s' = f_user s /\
    entry (f_inode s') inum ip /\ i_dinode (f_inode s' ip) = disk_inode sb (d_data D) inum /\ ready dev ip s' D /\
    (forall i, i_ref (f_inode s' i) = i_ref (f_inode s i)) /\
    (forall j, refcount (f_inode s') j = refcount (f_inode s) j) /\ nfree (f_inode s') = nfree (f_inode s).
Proof.
  intros HW He (Hin & Hty & Hnl). pose proof HW as [W1 W2 W3 W4 W5]. pose proof He as (Hip & Hr & Hn).
  destruct (ilock_any dev ∅ s D ip inum W3 He ltac:(set_solver) (W5 ip) W2 Hlk) as (v & s' & Hv & H1 & O1 & R1 & T1).
  { now rewrite W1. }
  replace ({[ip]} ∪ ∅) with ({[ip]} : gset Z) in T1 by set_solver. pose proof (oe_self _ _ _ _ O1) as X1. pose proof (only_env _ _ _ _ O1) as HE.
  exists s'. split; [done|]. split; [eapply walking_env; [exact HE|done|done|exact HW]|]. split; [done|]. split; [apply O1|].
  split; [unfold entry; now rewrite X1|]. rewrite W1 in X1. split; [now rewrite X1|]. split.
  { split; rewrite ?(oe_sb _ _ _ _ O1), ?W1; try done; [now rewrite X1|]. rewrite X1. now apply (tr_file _ _ Htree). }
  split; [|split].
  - intros i. destruct (decide (i = ip)) as [->|]; [now rewrite X1|now rewrite (oe_other _ _ _ _ O1)].
  - intros j. rewrite (refcount_set ip _ s s' j Hip O1). cbn. rewrite Hn. lia.
  - rewrite (nfree_set ip _ s s' Hip O1). cbn. lia.
Qed.

(** How many free entries there are if entry [ip] is put. *)
Definition slack s (ip : Z) : Z := nfree (f_inode s) + (if i_ref (f_inode s ip) =? 1 then 1 else 0).

(** Memory that a walk leaves alone. *)
Definition kept (name : Z) (m m' : memory) : Prop :=
  forall a, ~ name <= a < name + 14 -> ~ de <= a < de + 16 -> rd m' a = rd m a.

Lemma kept_trans name m1 m2 m3 : kept name m1 m2 -> kept name m2 m3 -> kept name m1 m3.
Proof. intros H1 H2 a Ha Hd. rewrite H2, H1; done. Qed.

(** Replacing the reference to [ip] by one to the inode the entry names. *)
Lemma walk_next s ip inum name nm k d :
  let x := disk_inode sb (d_data D) inum in
  walking {[ip]} s -> entry (f_inode s) inum ip -> live sb D inum -> i_dinode (f_inode s ip) = x -> ready dev ip s D ->
  di_type x = T_DIR -> apart name 14 de 16 -> cstrn (f_mem s) name 14 = nm -> dir_lookup (d_data D) x nm = Some (k, d) -> 2 <= slack s ip ->
  exists ip' s1 s2, dirlookup ip name s = Ok (ip', 16 * Z.of_nat k) s1 /\ iunlockput ip s1 = Ok tt s2 /\ walking ∅ s2 /\ env_same s s2 /\
    frame_bytes (f_mem s) (f_mem s2) de 16 /\ live sb D (de_inum d) /\ entry (f_inode s2) (de_inum d) ip' /\ slack s2 ip' = slack s ip /\
    (exists m, f_user s2 = u_set_mem m (f_user s)) /\
    forall j, refcount (f_inode s2) j = refcount (f_inode s) j - (if j =? inum then 1 else 0) + (if j =? de_inum d then 1 else 0).
Proof.
  intros x HW He Hlive Hx Hr Hty Hap Hnm Hl Hs. pose proof HW as [W1 W2 W3 W4 W5]. pose proof Hlive as (Hin & _ & Hnl).
  destruct (tr_dir _ _ Htree inum Hin Hty) as [Hmod Hents]. fold x in Hmod, Hents.
  assert (live sb D (de_inum d)) as Hld.
  { apply list_find_Some in Hl as (H1 & [H2 _] & _). apply Hents; [|done]. now apply list_elem_of_lookup_2 in H1. }
  assert (0 < nfree (f_inode s)) as Hfree by (unfold slack in Hs; destruct (_ =? 1); lia).
  destruct (dirlookup_ok dev s D ip name nm Hr) as (y & m & H1 & R1 & F1); [now rewrite Hx|done|done|]. rewrite Hx, Hl in H1. cbn [found] in H1.
  set (s0 := with_mem y m s) in *. assert (walking {[ip]} s0) as HW0 by (eapply walking_env; [| |now apply table_mem|exact HW]; done).
  destruct (iget_ok dev {[ip]} s0 D (de_inum d)) as (ip' & s1 & H2 & T2 & G2); [apply HW0|done| |now left|].
  { change (f_sb s0) with (f_sb s). rewrite W1. apply Hld. }
  rewrite (bind_ok _ _ _ _ _ H2) in H1. pose proof (gn_only _ _ _ _ G2) as O2. pose proof (gn_entry _ _ _ _ G2) as He'.
  assert (walking {[ip]} s1) as HW1.
  { eapply walking_env; [exact (only_env _ _ _ _ O2)| |exact T2|exact HW0]. now rewrite (gn_io _ _ _ _ G2). }
  assert (entry (f_inode s1) inum ip /\ i_ref (f_inode s1 ip) = i_ref (f_inode s ip) + (if decide (ip' = ip) then 1 else 0)) as [He1 Er1].
  { destruct (decide (ip' = ip)) as [->|Hne].
    - pose proof (gn_ref _ _ _ _ G2) as E. split; [|exact E]. destruct He as (? & ? & Hn). destruct He' as (? & ? & Hn').
      assert (de_inum d = inum) as <-; [|done].
      destruct (tb_uniq _ _ _ _ T2 (de_inum d) ip ip); [done|done|]. pose proof (gn_count _ _ _ _ G2 (de_inum d)) as C.
      rewrite (refcount_set ip _ s0 s1 _ ltac:(done) O2) in C. change (f_inode s0) with (f_inode s) in *. rewrite Hn, Hn', E, !Z.eqb_refl in C.
      destruct (Z.eqb_spec inum (de_inum d)); [done|]. lia.
    - unfold entry. rewrite (oe_other _ _ _ _ O2) by done. split; [exact He|]. change (f_inode s0) with (f_inode s). lia. }
  destruct (iunlockput_ok s1 ip inum HW1 He1 Hnl) as (s2 & H3 & W2' & E3 & U3 & O3 & Er3 & Ei3 & C3 & N3).
  exists ip', s1, s2. split; [exact H1|]. split; [done|]. split; [done|].
  split; [eapply env_trans; [exact (only_env _ _ _ _ O2)|exact E3]|].
  assert (f_user s2 = u_set_mem m (f_user s)) as Eu by (now rewrite U3, (oe_user _ _ _ _ O2)).
  split; [unfold f_mem at 2; now rewrite Eu, u_mem_set|]. split; [done|]. pose proof (gn_ref _ _ _ _ G2) as Er2.
  change (f_inode s0) with (f_inode s) in Er2. pose proof (tb_ref _ _ _ _ W3 ip' (proj1 He')) as Hr0. destruct He as (Hip & Hr1 & Hn1).
  assert (entry (f_inode s2) (de_inum d) ip' /\ i_ref (f_inode s2 ip') = if decide (ip' = ip) then i_ref (f_inode s ip') else i_ref (f_inode s ip') + 1) as [He2 Er4].
  { destruct (decide (ip' = ip)) as [->|Hne].
    - rewrite Er3, Er2. split; [|lia]. destruct He' as (? & ? & Hn'). destruct He1 as (? & ? & Hn''). unfold entry. rewrite Er3, Er2, Ei3. split; [done|]. split; [lia|]. congruence.
    - rewrite O3 by done. split; [|exact Er2]. unfold entry. rewrite O3 by done. exact He'. }
  split; [done|]. split; [|split; [now exists m|]].
  - unfold slack. rewrite Er4, N3, (gn_free _ _ _ _ G2), Er1. change (f_inode s0) with (f_inode s).
    destruct (decide (ip' = ip)) as [->|]; repeat match goal with |- context [?a =? ?b] => destruct (Z.eqb_spec a b) end; lia.
  - intros j. rewrite C3, (gn_count _ _ _ _ G2). change (f_inode s0) with (f_inode s). lia.
Qed.

Lemma elems_end l : drop_slashes l = l -> elems [] l = [] -> l = [].
Proof.
  intros Hd. destruct l as [|c l]; [done|]. destruct (split_name_first _ c l Hd) as [n En].
  rewrite (elems_name (c :: l) []); [done|]. cbn [app]. now rewrite En.
Qed.

(** The result of a walk from inode [inum] along [es], whose reference is
    used up. *)
Record walked (parent : bool) (inum : Z) (es : list (list Z)) (name : Z) s (r : Z) s' : Prop := Walked {
  wd_ok : walking ∅ s';
  wd_env : env_same s s';
  wd_mem : kept name (f_mem s) (f_mem s');
  wd_user : exists m, f_user s' = u_set_mem m (f_user s);
  wd_result :
    match target parent sb (d_data D) inum es with
    | None => r = NULL /\ forall j, refcount (f_inode s') j = refcount (f_inode s) j - (if j =? inum then 1 else 0)
    | Some i => entry (f_inode s') i r /\ live sb D i /\
        (forall j, refcount (f_inode s') j = refcount (f_inode s) j - (if j =? inum then 1 else 0) + (if j =? i then 1 else 0)) /\
        (parent = true -> exists e, last es = Some e /\ cstrn (f_mem s') name 14 = take 14 e)
    end;
}.

(** The walk fails in inode [inum]. *)
Lemma walk_fail s s1 ip inum parent e es name :
  walking {[ip]} s1 -> entry (f_inode s1) inum ip -> live sb D inum -> env_same s s1 ->
  kept name (f_mem s) (f_mem s1) -> (exists m, f_user s1 = u_set_mem m (f_user s)) ->
  (forall j, refcount (f_inode s1) j = refcount (f_inode s) j) -> target parent sb (d_data D) inum (e :: es) = None ->
  exists s', (iunlockput ip;; mret NULL) s1 = Ok NULL s' /\ walked parent inum (e :: es) name s NULL s'.
Proof.
  intros HW He Hl HE HK [m Hu] HC Ht. destruct (iunlockput_ok s1 ip inum HW He (proj2 (proj2 Hl))) as (s2 & H3 & W3 & E3 & U3 & O3 & _ & _ & C3 & _).
  exists s2. split; [now rewrite (bind_ok _ _ _ _ _ H3)|]. split; try done.
  - eapply env_trans; eassumption.
  - unfold f_mem at 2. rewrite U3. exact HK.
  - exists m. now rewrite U3.
  - rewrite Ht. split; [done|]. intros j. now rewrite C3, HC.
Qed.

(** The walk stops at the directory that holds the last element. *)
Lemma walk_stop s s1 ip inum e name :
  walking {[ip]} s1 -> entry (f_inode s1) inum ip -> live sb D inum -> di_type (disk_inode sb (d_data D) inum) = T_DIR -> env_same s s1 ->
  kept name (f_mem s) (f_mem s1) -> (exists m, f_user s1 = u_set_mem m (f_user s)) ->
  (forall j, refcount (f_inode s1) j = refcount (f_inode s) j) -> cstrn (f_mem s1) name 14 = take 14 e ->
  exists s', (iunlock ip;; mret ip) s1 = Ok ip s' /\ walked true inum [e] name s ip s'.
Proof.
  intros HW He Hl Hty HE HK [m Hu] HC Hn. pose proof HW as [W1 W2 W3 W4 W5].
  destruct (iunlock_any dev {[ip]} s1 D ip inum W3 He ltac:(set_solver) (W5 ip)) as (s2 & H1 & I1 & T1 & O1).
  replace ({[ip]} ∖ {[ip]}) with (∅ : gset Z) in T1 by set_solver. pose proof (only_env _ _ _ _ O1) as HE1. pose proof (oe_self _ _ _ _ O1) as X1.
  exists s2. split; [now rewrite (bind_ok _ _ _ _ _ H1)|]. split.
  - eapply walking_env; [exact HE1|now rewrite I1|done|exact HW].
  - eapply env_trans; eassumption.
  - unfold f_mem at 2. rewrite (oe_user _ _ _ _ O1). exact HK.
  - exists m. now rewrite (oe_user _ _ _ _ O1).
  - cbn [target resolve_parent removelast resolve]. rewrite Hty. cbn [Z.eqb Pos.eqb T_DIR]. destruct He as (Hip & Hr & Hi).
    split; [unfold entry; now rewrite X1|]. split; [done|]. split.
    + intros j. rewrite (refcount_set ip _ s1 s2 j Hip O1), HC. cbn. lia.
    + intros _. exists e. split; [done|]. unfold f_mem. now rewrite (oe_user _ _ _ _ O1).
Qed.

(** No element is left. *)
Lemma walk_end s ip inum (parent : bool) name :
  walking ∅ s -> entry (f_inode s) inum ip -> live sb D inum ->
  exists r s', ((if parent then iput ip;; mret NULL else mret ip) : M (fstate B U) Z) s = Ok r s' /\ walked parent inum [] name s r s'.
Proof.
  intros HW He Hl. pose proof HW as [W1 W2 W3 W4 W5]. assert (exists m, f_user s = u_set_mem m (f_user s)) as Hm.
  { exists (u_mem (f_user s)). now rewrite u_set_mem_mem. }
  destruct parent.
  - destruct (iput_keep dev ∅ s D ip inum W3 He W4) as (s2 & H2 & T2 & [O2 I2 C2 N2]).
    { unfold last_ref. destruct (truthy (i_valid (f_inode s ip))) eqn:Ev; [|now rewrite andb_false_r].
      unfold i_nlink. rewrite (tb_valid _ _ _ _ W3 _ _ He), W1; [|intros E; now rewrite E in Ev].
      rewrite (proj2 (Z.eqb_neq _ _) (proj2 (proj2 Hl))). apply andb_false_r. }
    pose proof (only_env _ _ _ _ O2) as HE. exists NULL, s2. split; [now rewrite (bind_ok _ _ _ _ _ H2)|]. split; try done.
    + eapply walking_env; [exact HE|now rewrite I2|done|exact HW].
    + unfold f_mem. now rewrite (oe_user _ _ _ _ O2).
    + now rewrite (oe_user _ _ _ _ O2).
  - exists ip, s. split; [done|]. split; try done. cbn [target resolve]. split; [done|]. split; [done|]. split; [|done]. intros j. lia.
Qed.

(** One more element in front of a walk. *)
Lemma walked_next parent inum inum' e es name s s1 r s' :
  env_same s s1 -> kept name (f_mem s) (f_mem s1) -> (exists m, f_user s1 = u_set_mem m (f_user s)) ->
  (forall j, refcount (f_inode s1) j = refcount (f_inode s) j - (if j =? inum then 1 else 0) + (if j =? inum' then 1 else 0)) ->
  target parent sb (d_data D) inum (e :: es) = target parent sb (d_data D) inum' es -> (parent = true -> es <> []) ->
  walked parent inum' es name s1 r s' -> walked parent inum (e :: es) name s r s'.
Proof.
  intros HE HK [m Hu] HC Ht Hp [V1 V2 V3 [m' V4] V5]. split; try done.
  - eapply env_trans; eassumption.
  - eapply kept_trans; eassumption.
  - exists m'. now rewrite V4, Hu, u_set_set.
  - rewrite Ht. destruct (target _ _ _ inum' es) as [i|].
    + destruct V5 as (G1 & G2 & G3 & G4). split; [done|]. split; [done|]. split.
      * intros j. rewrite G3, HC. lia.
      * intros E. destruct (G4 E) as (a & Ga & Gb). exists a. split; [|done]. specialize (Hp E). now destruct es.
    + destruct V5 as [-> G]. split; [done|]. intros j. rewrite G, HC. lia.
Qed.

Context (parent : bool) (name : Z) (Hname : apart name 14 de 16).

Lemma namex_loop_ok fuel : forall s ip inum path l,
  walking ∅ s -> entry (f_inode s) inum ip -> live sb D inum -> str_at (f_mem s) path l -> (length l < path_fuel)%nat -> 0 < path ->
  apart path (Z.of_nat (length l) + 1) name 14 -> apart path (Z.of_nat (length l) + 1) de 16 -> 2 <= slack s ip ->
  (length (elems [] l) < fuel)%nat ->
  exists r s', namex_loop fuel ip path parent name s = Ok r s' /\ walked parent inum (elems [] l) name s r s'.
Proof.
  induction fuel as [|fuel IH]; intros s ip inum path l HW He Hlive Hstr Hlen Hpath Hap1 Hap2 Hsl Hfu; [lia|].
  cbn [namex_loop]. erewrite bind_ok by reflexivity.
  destruct (skipelem_ok (f_mem s) path name l Hstr Hlen Hap1) as [[Ee ->]|(p' & m' & e & l' & -> & [S1 S2 S3 S4 S5 S6 S7])].
  { rewrite Ee. erewrite bind_ok by reflexivity. cbn [Z.eqb]. replace (Fs.set_mem (f_mem s) s) with s by (rewrite <- (with_mem_self s) at 1; done).
    now apply walk_end. }
  rewrite S1 in *. cbn [length] in Hfu. erewrite bind_ok by reflexivity. rewrite (proj2 (Z.eqb_neq p' 0)) by lia.
  set (s0 := Fs.set_mem m' s). assert (f_mem s0 = m') as Em0 by apply u_mem_set.
  assert (walking ∅ s0) as HW0 by (eapply (walking_env ∅ s); [done|apply HW|apply (table_with dev ∅ s); [done..|apply HW]|exact HW]).
  destruct (walk_lock s0 ip inum HW0 He Hlive) as (s1 & H1 & W1 & E1 & U1 & He1 & X1 & R1 & Er1 & C1 & N1).
  rewrite (bind_ok _ _ _ _ _ H1). erewrite bind_ok by reflexivity. unfold i_type. rewrite X1.
  assert (f_mem s1 = m') as Em1 by (unfold f_mem; now rewrite U1). assert (env_same s s1) as HE1 by exact E1.
  assert (kept name (f_mem s) (f_mem s1)) as HK by (rewrite Em1; intros a Ha _; apply S7; lia).
  assert (exists m, f_user s1 = u_set_mem m (f_user s)) as Hu by (exists m'; exact U1).
  destruct (Z.eqb_spec (di_type (disk_inode sb (d_data D) inum)) T_DIR) as [Hty|Hty]; cbn [negb].
  2: { destruct (walk_fail s s1 ip inum parent e (elems [] l') name) as (s2 & H2 & V2); try done; [apply target_none; now left|]. now exists NULL, s2. }
  destruct (parent && (rd m' p' =? 0)) eqn:Ep.
  { apply andb_true_iff in Ep as [-> Er]. destruct l' as [|c l']; [|cbn in S3; lia].
    destruct (walk_stop s s1 ip inum e name) as (s2 & H2 & V2); try done; [now rewrite Em1|]. now exists ip, s2. }
  assert (parent = true -> elems [] l' <> []) as Hp.
  { intros -> E. apply elems_end in E; [|done]. subst l'. cbn in S3. rewrite S3 in Ep. done. }
  destruct (dir_lookup (d_data D) (disk_inode sb (d_data D) inum) (take 14 e)) as [[k d]|] eqn:El.
  - destruct (walk_next s1 ip inum name (take 14 e) k d) as (ip' & s2 & s3 & H2 & H3 & W3 & E3 & F3 & L3 & He3 & Sl3 & [m3 U3] & C3); try done.
    { now rewrite Em1. } { unfold slack in *. rewrite N1, Er1. exact Hsl. }
    rewrite (bind_ok _ _ _ _ _ H2). cbn [fst]. assert (ip' <> NULL) as Hip' by (destruct He3 as (? & _); unfold NULL; lia).
    rewrite (proj2 (Z.eqb_neq _ _) Hip'), (bind_ok _ _ _ _ _ H3). rewrite Em1 in F3.
    destruct (IH s3 ip' (de_inum d) p' l') as (r & s' & H4 & V4); try done; try lia.
    + apply (str_at_ext m'); [|done]. intros a Ha. apply F3. unfold apart in Hap2. lia.
    + unfold apart in *. lia.
    + unfold apart in *. lia.
    + rewrite Sl3. unfold slack in *. rewrite N1, Er1. exact Hsl.
    + exists r, s'. split; [done|]. eapply (walked_next parent inum (de_inum d) e (elems [] l') name s s3); try done.
      * eapply env_trans; eassumption.
      * eapply kept_trans; [exact HK|]. rewrite Em1. intros a _ Ha. apply F3. lia.
      * exists m3. rewrite U3, U1. cbn. now rewrite u_set_set.
      * intros j. rewrite C3, C1. done.
      * now apply target_next with (k := k).
  - destruct (dirlookup_ok dev s1 D ip name (take 14 e) R1) as (y & m & H2 & R2 & F2).
    { rewrite X1. split; [done|]. apply (tr_dir _ _ Htree inum (proj1 Hlive) Hty). } { done. } { now rewrite Em1. }
    rewrite X1, El in H2. rewrite (bind_ok _ _ _ _ _ H2). cbn [fst]. rewrite Z.eqb_refl.
    destruct (walk_fail s (with_mem y m s1) ip inum parent e (elems [] l') name) as (s2 & H3 & V3); try done.
    + eapply (walking_env {[ip]} s1); [done|done|apply table_mem, W1|exact W1].
    + eapply kept_trans; [exact HK|]. rewrite f_mem_with. intros a _ Ha. apply F2. lia.
    + exists m. cbn. rewrite U1. cbn. now rewrite u_set_set.
    + apply target_none. now right.
    + now exists NULL, s2.
Qed.
End namex.

(** ** namex from its start *)

Section start.
Context {B U : Type} `{BIO : BlockIO B} `{BS : !BlockIOSpec B ROOTDEV} `{UIO : UserIO U} `{UL : !UserLaws U}.
Implicit Types s : fstate B U.

(** The inode a path starts from. *)
Definition start_inum (l : list Z) s : Z :=
  if match l with c :: _ => c =? slash | [] => false end then ROOTINO else i_inum (f_inode s (f_cwd s)).

Lemma namex_ok s D path l parent name :
  let sb := f_sb s in
  tree_ok sb D -> layout sb (d_start D) -> bitmap_ok sb D -> d_locked D = ∅ ->
  walking ROOTDEV D sb ∅ s -> entry (f_inode s) (i_inum (f_inode s (f_cwd s))) (f_cwd s) ->
  live sb D ROOTINO -> live sb D (i_inum (f_inode s (f_cwd s))) -> 2 <= nfree (f_inode s) ->
  str_at (f_mem s) path l -> Z.of_nat (length l) < MAXPATH -> 0 < path -> apart name 14 de 16 ->
  apart path (Z.of_nat (length l) + 1) name 14 -> apart path (Z.of_nat (length l) + 1) de 16 ->
  exists r s' s1, namex path parent name s = Ok r s' /\ f_user s1 = f_user s /\ env_same s s1 /\
    (forall j, refcount (f_inode s1) j = refcount (f_inode s) j + (if j =? start_inum l s then 1 else 0)) /\
    walked ROOTDEV D sb parent (start_inum l s) (elems [] l) name s1 r s'.
Proof.
  intros sb Htree HL HB Hlk HW Hcwd Hroot Hlive Hfree Hstr Hlen Hpath Ha1 Ha2 Ha3. pose proof HW as [W1 W2 W3 W4 W5].
  assert (exists ip s1, (if rd (f_mem s) path =? slash then iget ROOTDEV ROOTINO else cwd ← gets f_cwd; idup cwd) s = Ok ip s1 /\
    table_ok ROOTDEV ∅ s1 D /\ gained (start_inum l s) ip s s1 /\ live sb D (start_inum l s)) as (ip & s1 & H1 & T1 & G1 & L1).
  { unfold start_inum. replace (match l with c :: _ => c =? slash | [] => false end) with (rd (f_mem s) path =? slash)
      by (destruct l as [|c l']; cbn in Hstr; [now rewrite Hstr|now rewrite (proj1 Hstr)]).
    destruct (rd (f_mem s) path =? slash).
    - destruct (iget_ok ROOTDEV ∅ s D ROOTINO W3 W4) as (ip & s1 & H1 & H2); [apply Hroot|left; lia|]. now exists ip, s1.
    - erewrite bind_ok by reflexivity. destruct (idup_ok ROOTDEV ∅ s D (f_cwd s) _ W3 W4 Hcwd) as (s1 & H1 & H2). now exists (f_cwd s), s1. }
  pose proof (gn_only _ _ _ _ G1) as O1. pose proof (only_env _ _ _ _ O1) as HE. pose proof (gn_entry _ _ _ _ G1) as He.
  assert (walking ROOTDEV D sb ∅ s1) as HW1.
  { eapply walking_env; [exact HE| |exact T1|exact HW]. now rewrite (gn_io _ _ _ _ G1). }
  assert (f_mem s1 = f_mem s) as Em by (unfold f_mem; now rewrite (oe_user _ _ _ _ O1)).
  destruct (namex_loop_ok ROOTDEV D sb Htree HL HB Hlk parent name Ha1 (S path_fuel) s1 ip (start_inum l s) path l HW1 He L1) as (r & s' & H2 & V2).
  { now rewrite Em. } { unfold path_fuel. lia. } { done. } { done. } { done. }
  { unfold slack. rewrite (gn_free _ _ _ _ G1), (gn_ref _ _ _ _ G1). pose proof (tb_ref _ _ _ _ W3 ip (proj1 He)).
    destruct (Z.eqb_spec (i_ref (f_inode s ip)) 0), (Z.eqb_spec (i_ref (f_inode s ip) + 1) 1); lia. }
  { pose proof (length_elems l []). unfold path_fuel, MAXPATH in *. cbn [length] in *. lia. }
  exists r, s', s1. split; [|split; [apply O1|split; [done|split; [apply G1|done]]]].
  unfold namex. erewrite bind_ok by reflexivity. now rewrite (bind_ok _ _ _ _ _ H1).
Qed.
End start.
