(* ===== verification/FsCheck.v ===== *)
(** * Checking a file system

    A boolean function that decides whether the inodes and directories of a
    disk are well formed, [tree_ok], so that the theorems about them can be
    applied to a given disk by evaluation. *)

From stdpp Require Import base gmap numbers strings functions list.
From Stdlib Require Import ZifyBool.
From S2P Require Import Prelude Mem Block StringC Spinlock Locks Bio Log LogSpec BlockIO Fs FsBlocks FsInode FsFile FsIO FsTable FsDir FsPath.

Open Scope Z_scope.

Definition between (a x b : Z) : bool := (a <=? x) && (x <? b).

Definition dinode_okb (x : dinode) : bool :=
  between (- 2^15) (di_type x) (2^15) && between (- 2^15) (di_major x) (2^15) && between (- 2^15) (di_minor x) (2^15) &&
  between (- 2^15) (di_nlink x) (2^15) && between 0 (di_size x) (2^32) && (length (di_addrs x) =? 13)%nat &&
  forallb (fun a => between 0 a (2^32)) (di_addrs x).

Lemma dinode_okb_ok x : dinode_okb x = true -> dinode_ok x.
Proof.
  unfold dinode_okb, between. intros H. repeat (apply andb_true_iff in H as [H ?]).
  split; unfold is_i16, is_u32; try lia.
  - change (Z.to_nat (NDIRECT + 1)) with 13%nat. now apply Nat.eqb_eq.
  - apply Forall_forall. intros a Ha%list_elem_of_In. match goal with H : forallb _ _ = true |- _ => pose proof (proj1 (forallb_forall _ _) H a Ha) end. cbn in *. lia.
Qed.

Definition data_blockb (sb : superblock) (data : Z -> block) (b : Z) : bool := between (datastart sb) b (sb_size sb) && used sb data b.

Definition blocks_okb (sb : superblock) (data : Z -> block) (l : list Z) (ind size : Z) : bool :=
  between 0 size (MAXFILE * BSIZE + 1) &&
  forallb (fun bn => (size <=? bn * BSIZE) || negb (default 0 (l !! Z.to_nat bn) =? 0)) (seqZ 0 MAXFILE) &&
  forallb (fun a => (a =? 0) || data_blockb sb data a) l &&
  (if ind =? 0 then forallb (fun a => a =? 0) (drop 12 l) else data_blockb sb data ind && forallb (fun a => negb (a =? ind)) l) &&
  bool_decide (NoDup (filter (fun a => a <> 0) l)).

Lemma filter_inj (l : list Z) : NoDup (filter (fun a => a <> 0) l) ->
  forall i j a, l !! i = Some a -> l !! j = Some a -> a <> 0 -> i = j.
Proof.
  induction l as [|b l IH]; [done|]. rewrite filter_cons. intros HN i j a Hi Hj Ha.
  assert (NoDup (filter (fun a => a <> 0) l)) as HN' by (destruct (decide (b <> 0)); [now apply NoDup_cons_1_2 in HN|done]).
  assert (forall k, l !! k = Some a -> b <> a) as Hb.
  { intros k Hk ->. rewrite decide_True in HN by done. apply NoDup_cons in HN as [Hn _]. apply Hn. apply list_elem_of_filter.
    split; [done|]. now apply list_elem_of_lookup_2 in Hk. }
  destruct i as [|i], j as [|j]; cbn in Hi, Hj.
  - done.
  - exfalso. now apply (Hb j); [|injection Hi].
  - exfalso. now apply (Hb i); [|injection Hj].
  - f_equal. eauto.
Qed.

Lemma blocks_okb_ok sb D fa ind size :
  blocks_okb sb (d_data D) (fa <$> seqZ 0 MAXFILE) ind size = true -> blocks_ok sb D fa ind size.
Proof.
  unfold blocks_okb. intros [[[[H1 H2]%andb_true_iff H3]%andb_true_iff H4]%andb_true_iff H5]%andb_true_iff.
  assert (forall bn, 0 <= bn < MAXFILE -> (fa <$> seqZ 0 MAXFILE) !! Z.to_nat bn = Some (fa bn)) as Hl.
  { intros bn Hbn. rewrite list_lookup_fmap, lookup_seqZ_lt by lia. cbn. do 2 f_equal. lia. }
  assert (forall bn, 0 <= bn < MAXFILE -> fa bn ∈ fa <$> seqZ 0 MAXFILE) as Hin by (intros bn Hbn; eapply list_elem_of_lookup_2, Hl; done).
  unfold between in *. assert (forall b, data_blockb sb (d_data D) b = true -> data_block sb D b) as Hdb.
  { intros b Hb. unfold data_blockb, between in Hb. split; [lia|]. now apply andb_true_iff in Hb as [_ ->]. }
  split.
  - lia.
  - intros bn Hbn Hlt E. assert (bn < MAXFILE) as Hm by (unfold BSIZE in *; lia).
    pose proof (proj1 (forallb_forall _ _) H2 bn) as H0.
    cbn beta in H0. rewrite Hl, E in H0 by lia. cbn in H0. specialize (H0 ltac:(apply list_elem_of_In, elem_of_seqZ; lia)). lia.
  - intros bn Hbn Hn. apply Hdb.
    pose proof (proj1 (forallb_forall _ _) H3 (fa bn) ltac:(apply list_elem_of_In; auto)) as H0.
    cbn beta in H0. now rewrite (proj2 (Z.eqb_neq _ _) Hn) in H0.
  - intros Hi. rewrite (proj2 (Z.eqb_neq _ _) Hi) in *. apply andb_true_iff in H4 as [H0 H4].
    split; [auto|]. intros bn Hbn E. pose proof (proj1 (forallb_forall _ _) H4 (fa bn) ltac:(apply list_elem_of_In; auto)) as H6. cbn in H6. lia.
  - intros -> bn Hbn. cbn [Z.eqb] in *.
    pose proof (proj1 (forallb_forall _ _) H4 (fa bn)) as H0. cbn beta in H0.
    apply Z.eqb_eq, H0. apply list_elem_of_In, list_elem_of_lookup. exists (Z.to_nat bn - 12)%nat. rewrite lookup_drop. unfold NDIRECT in Hbn.
    replace (12 + (Z.to_nat bn - 12))%nat with (Z.to_nat bn) by lia. apply Hl. lia.
  - intros bn bn' Hbn Hbn' Hn E. apply bool_decide_eq_true in H5. pose proof (filter_inj _ H5 (Z.to_nat bn) (Z.to_nat bn') (fa bn)) as H0.
    rewrite !Hl, <- E in H0 by done. specialize (H0 eq_refl eq_refl Hn). lia.
Qed.

Definition file_okb (sb : superblock) (data : Z -> block) (x : dinode) : bool :=
  dinode_okb x && blocks_okb sb data (file_addr data x <$> seqZ 0 MAXFILE) (addr x NDIRECT) (di_size x).

Definition liveb (sb : superblock) (data : Z -> block) (j : Z) : bool :=
  between 0 j (sb_ninodes sb) && let x := disk_inode sb data j in negb (di_type x =? 0) && negb (di_nlink x =? 0).

Definition tree_okb (sb : superblock) (data : Z -> block) : bool :=
  forallb (fun j => let x := disk_inode sb data j in
    (di_type x =? 0) || file_okb sb data x &&
      (negb (di_type x =? T_DIR) || (di_size x mod 16 =? 0) && forallb (fun e => (de_inum e =? 0) || liveb sb data (de_inum e)) (dents data x)))
    (seqZ 0 (sb_ninodes sb)).

Lemma liveb_ok sb D j : liveb sb (d_data D) j = true -> live sb D j.
Proof. unfold liveb, between. cbn zeta. intros H. split; [lia|]. cbn zeta. lia. Qed.

Lemma tree_okb_ok sb D : tree_okb sb (d_data D) = true -> tree_ok sb D.
Proof.
  intros H. pose proof (proj1 (forallb_forall _ _) H) as HA. cbn beta zeta in HA.
  assert (forall j, 0 <= j < sb_ninodes sb -> j ∈ seqZ 0 (sb_ninodes sb)) as Hin by (intros; apply elem_of_seqZ; lia).
  split.
  - intros j Hj Ht. specialize (HA j ltac:(apply list_elem_of_In; auto)). rewrite (proj2 (Z.eqb_neq _ _) Ht) in HA. cbn [orb] in HA.
    apply andb_true_iff in HA as [HA _]. apply andb_true_iff in HA as [H1 H2]. split; [now apply dinode_okb_ok|now apply blocks_okb_ok].
  - intros j Hj x Ht. specialize (HA j ltac:(apply list_elem_of_In; auto)). fold x in HA. rewrite Ht in HA. cbn [Z.eqb Pos.eqb T_DIR negb orb] in HA.
    apply andb_true_iff in HA as [_ HA]. apply andb_true_iff in HA as [H1 H2]. split; [lia|]. intros e He Hne. apply liveb_ok.
    pose proof (proj1 (forallb_forall _ _) H2 e ltac:(now apply list_elem_of_In)) as H3. cbn beta in H3. now rewrite (proj2 (Z.eqb_neq _ _) Hne) in H3.
Qed.
