(* ===== verification/FsTrunc.v ===== *)
(** * kernel/fs.c: freeing and allocating inodes

    [itrunc] gives back exactly the blocks of a file, [iput] of the last
    reference to an inode without links frees it, and [ialloc] takes the first
    free one. *)

From stdpp Require Import base gmap numbers strings functions list.
From Stdlib Require Import ZifyBool.
From S2P Require Import Prelude Mem Block StringC Spinlock Locks Bio Log LogSpec BlockIO Fs FsBlocks FsInode FsFile FsIO FsTable.

Open Scope Z_scope.

(** ** Freed blocks *)

(** [D'] is [D] with the blocks [F] marked free. *)
Record freed (sb : superblock) (F : gset Z) (D D' : dview) : Prop := Freed {
  fr_locked : d_locked D' = d_locked D;
  fr_base : d_base D' = d_base D;
  fr_cap : d_cap D' = d_cap D;
  fr_start : d_start D' = d_start D;
  fr_writes : d_writes D' = d_writes D;
  fr_logged : d_logged D ⊆ d_logged D' /\ d_logged D' ⊆ d_logged D ∪ bmaps sb;
  fr_used c : 0 <= c < sb_size sb -> used sb (d_data D') c = used sb (d_data D) c && negb (bool_decide (c ∈ F));
  fr_data c : c < sb_bmapstart sb \/ datastart sb <= c -> d_data D' c = d_data D c;
}.

Lemma freed_refl sb D : freed sb ∅ D D.
Proof. split; try done; [set_solver|]. intros c _. rewrite bool_decide_eq_false_2 by set_solver. now rewrite andb_true_r. Qed.

Lemma freed_budget sb T F D D' n : bmaps sb ⊆ T -> freed sb F D D' -> budget T D n -> budget T D' n.
Proof.
  intros HT HF. unfold budget. rewrite (fr_cap _ _ _ _ HF). destruct (fr_logged _ _ _ _ HF) as [H1 H2].
  assert (T ∪ d_logged D' ⊆ T ∪ d_logged D) as Hs%subseteq_size by set_solver. lia.
Qed.

Lemma freed_bitmap sb F D D' :
  layout sb (d_start D) -> freed sb F D D' -> bitmap_ok sb D -> (forall c, c ∈ F -> datastart sb <= c /\ c ∉ d_locked D) -> bitmap_ok sb D'.
Proof.
  intros HL HF [B1 B2] Hc. pose proof (ly_size _ _ HL). pose proof (layout_pos _ _ HL). split.
  - intros c Hb. rewrite (fr_used _ _ _ _ HF), B1 by lia. rewrite bool_decide_eq_false_2; [done|]. intros Hin. apply Hc in Hin. lia.
  - intros c Hin. rewrite (fr_locked _ _ _ _ HF) in Hin. destruct (B2 c Hin) as [H1 H2]. split; [done|].
    rewrite (fr_used _ _ _ _ HF), H2 by lia. rewrite bool_decide_eq_false_2; [done|]. intros Hf. now apply Hc in Hf as [_ Hf].
Qed.

Lemma freed_clear sb F D D' b :
  layout sb (d_start D) -> freed sb F D D' -> WF_block (d_data D' (BBLOCK b sb)) -> datastart sb <= b < sb_size sb ->
  freed sb ({[b]} ∪ F) D (clear_bit sb b D').
Proof.
  intros HL HF HW Hb. pose proof HF as [F1 F2 F3 F4 F5 [F6 F6'] F7 F8]. pose proof (layout_pos _ _ HL).
  pose proof (BBLOCK_range sb _ b HL ltac:(lia)) as HBR. split; try done.
  - pose proof (BBLOCK_bmaps sb _ b HL ltac:(lia)). cbn. set_solver.
  - intros c Hc. rewrite used_clear_bit, F7 by done. destruct (Z.eqb_spec c b) as [->|Hne].
    + rewrite (bool_decide_eq_true_2 (b ∈ {[b]} ∪ F)) by set_solver. cbn. now rewrite andb_false_r.
    + cbn [negb andb]. f_equal. f_equal. apply bool_decide_ext. rewrite elem_of_union, elem_of_singleton. tauto.
  - intros c Hc. unfold clear_bit. cbn. rewrite fn_lookup_insert_ne by lia. auto.
Qed.

Section trunc.
Context {B U : Type} `{BIO : BlockIO B} (dev : Z) `{BS : !BlockIOSpec B dev} `{UIO : UserIO U} `{UL : !UserLaws U}.
Implicit Types s : fstate B U.

(** Freeing one more data block in use. *)
Lemma free_one s T F D D' b :
  let sb := f_sb s in
  layout sb (d_start D) -> bitmap_ok sb D -> freed sb F D D' -> (forall c, c ∈ F -> data_block sb D c /\ c ∉ d_locked D) ->
  io_rep (f_io s) D' -> (size (d_locked D) <= 1)%nat -> bmaps sb ⊆ T -> budget T D 0 ->
  data_block sb D b -> b ∉ F -> b ∉ d_locked D ->
  exists y, bfree dev b s = Ok tt (with_io y s) /\ io_rep y (clear_bit sb b D') /\ freed sb ({[b]} ∪ F) D (clear_bit sb b D') /\
    forall j c, io_handle (f_io s) j c -> c ∈ d_locked D -> io_handle y j c.
Proof.
  intros sb HL HB HF Hin HR Hsz HT Hb [Hbd Hbu] HbF Hbl. pose proof (layout_pos _ _ HL).
  pose proof (bfree_ok dev s T D' b) as H1. cbn zeta in H1. fold sb in H1. rewrite (fr_start _ _ _ _ HF), (fr_locked _ _ _ _ HF) in H1.
  rewrite (fr_used _ _ _ _ HF), Hbu, bool_decide_eq_false_2 in H1 by (done || lia). cbn [andb negb] in H1.
  destruct H1 as (y & H1 & R1 & k1); try done; [|now apply (freed_budget sb T F D)|lia|].
  { apply (freed_bitmap sb F D); try done. intros c Hc. destruct (Hin c Hc) as [[? _] ?]. split; [lia|done]. }
  exists y. split; [done|]. split; [done|]. split; [|done]. apply freed_clear; try done. apply (io_wf _ _ _ HR).
Qed.

Section itrunc.
Context (s0 : fstate B U) (D : dview) (ip : Z) (T : gset Z).
Let x := i_dinode (f_inode s0 ip).
Let sb := f_sb s0.
Context (Hready : ready dev ip s0 D) (HT : bmaps sb ⊆ T) (Hbud : budget T D 0).

(** The first [i] addresses of the inode are cleared. *)
Record truncating (i : Z) (F : gset Z) s (D' : dview) : Prop := Truncating {
  tg_same : fsame ip s0 s;
  tg_user : f_user s = f_user s0;
  tg_rep : io_rep (f_io s) D';
  tg_freed : freed sb F D D';
  tg_fields : exists l, i_dinode (f_inode s ip) = Dinode (di_type x) (di_major x) (di_minor x) (di_nlink x) (di_size x) l;
  tg_len : length (di_addrs (i_dinode (f_inode s ip))) = 13%nat;
  tg_addr j : 0 <= j <= NDIRECT -> addr (i_dinode (f_inode s ip)) j = if j <? i then 0 else addr x j;
}.

Lemma trunc_clear i F s D' y D'' F' s' :
  truncating i F s D' -> 0 <= i <= NDIRECT -> io_rep y D'' -> freed sb F' D D'' ->
  upd_dinode ip (set_addr i 0) (with_io y s) = Ok tt s' -> truncating (i + 1) F' s' D''.
Proof.
  intros [G1 G2 G3 G4 (l & G5) G6 G7] Hi HR HF E. unfold NDIRECT in *. apply fsame_upd in E as (S1 & S2 & S3 & S4). cbn in S2, S3, S4. split.
  - eapply fsame_trans; [exact G1|]. eapply fsame_trans; [apply fsame_io|exact S1].
  - congruence.
  - now rewrite S3.
  - done.
  - rewrite S2, G5. eexists. reflexivity.
  - rewrite S2. cbn. now rewrite length_insert.
  - intros j Hj. rewrite S2, addr_set by (rewrite ?G6; unfold NDIRECT; lia || done). rewrite G7 by done.
    destruct (Z.eqb_spec j i), (Z.ltb_spec j i), (Z.ltb_spec j (i + 1)); lia || done.
Qed.

(** What has been freed by then: the first [n] blocks of the file. *)
Definition upto (n : Z) (F : gset Z) : Prop := forall c, c ∈ F <-> exists bn, 0 <= bn < n /\ c = file_addr (d_data D) x bn /\ c <> 0.

Lemma file_direct bn : 0 <= bn < NDIRECT -> file_addr (d_data D) x bn = addr x bn.
Proof. intros H. unfold file_addr. now rewrite (proj2 (Z.ltb_lt _ _)) by lia. Qed.

Lemma upto_skip n F : upto n F -> 0 <= n -> file_addr (d_data D) x n = 0 -> upto (n + 1) F.
Proof.
  intros HF Hn E c. rewrite (HF c). split; intros (j & Hj & -> & Hc); exists j; (split; [|done]); [lia|].
  destruct (Z.eq_dec j n) as [->|]; [done|lia].
Qed.

Lemma upto_add n F : upto n F -> 0 <= n -> file_addr (d_data D) x n <> 0 -> upto (n + 1) ({[file_addr (d_data D) x n]} ∪ F).
Proof.
  intros HF Hn E c. rewrite elem_of_union, elem_of_singleton, (HF c). split.
  - intros [->|(j & Hj & -> & Hc)]; [exists n|exists j]; (split; [lia|done]).
  - intros (j & Hj & -> & Hc). destruct (Z.eq_dec j n) as [->|]; [now left|right]. exists j. split; [lia|done].
Qed.

Lemma upto_fresh n F : upto n F -> 0 <= n < MAXFILE -> file_addr (d_data D) x n <> 0 -> file_addr (d_data D) x n ∉ F.
Proof.
  intros HF Hn E (j & Hj & Ej & _)%HF. pose proof (proj2 (rd_file _ _ _ _ Hready)) as Hf.
  apply (bo_inj _ _ _ _ _ Hf) in Ej; [lia|lia|lia|done].
Qed.

Lemma upto_data n F c : 0 <= n <= MAXFILE -> upto n F -> c ∈ F -> data_block sb D c.
Proof.
  intros Hn HF (j & Hj & -> & Hc)%HF. pose proof (proj2 (rd_file _ _ _ _ Hready)) as Hf. apply (bo_data _ _ _ _ _ Hf); [lia|done].
Qed.

Lemma trunc_direct i F s D' :
  truncating i F s D' -> upto i F -> 0 <= i < NDIRECT ->
  exists F' s' D'', itrunc_direct ip i s = Ok tt s' /\ truncating (i + 1) F' s' D'' /\ upto (i + 1) F'.
Proof.
  intros HG HF Hi. pose proof HG as [G1 G2 G3 G4 G5 G6 G7]. pose proof Hready as [_ Hlk HL HB Hd [Hx Hf]]. fold x in Hx, Hf. fold sb in HL, HB, Hf.
  assert (MAXFILE = 268 /\ NDIRECT = 12) as Hc by done. pose proof (file_direct i Hi) as Ei.
  unfold itrunc_direct. erewrite bind_ok by reflexivity. cbn zeta. rewrite G7, (proj2 (Z.ltb_ge i i)), <- Ei by lia.
  destruct (Z.eqb_spec (file_addr (d_data D) x i) 0) as [E0|E0]; cbn [negb].
  - exists F, s, D'. split; [done|]. split; [|apply upto_skip; [done|lia|done]]. rewrite Ei in E0.
    split; try done. intros j Hj. rewrite G7 by done. destruct (Z.ltb_spec j i), (Z.ltb_spec j (i + 1)); try lia. replace j with i by lia. done.
  - destruct (fs_self _ _ _ G1) as [z Hz]. assert (f_sb s = sb) as Esb by apply G1. rewrite Hz. cbn [i_dev set_dinode]. rewrite Hd.
    pose proof (free_one s T F D D' (file_addr (d_data D) x i)) as H1. cbn zeta in H1. rewrite Esb in H1.
    destruct H1 as (y & H1 & R1 & HF1 & _); try done.
    { intros c Hc'. split; [apply (upto_data i F); [lia|done|done]|now apply none_locked]. } { now apply size_none_locked. }
    { now apply (bo_data _ _ _ _ _ Hf); [lia|]. } { apply upto_fresh; [done|lia|done]. } { now apply none_locked. }
    rewrite (bind_ok _ _ _ _ _ H1). destruct (upd_dinode ip (set_addr i 0) (with_io y s)) as [[] s'| |] eqn:E; [|done..].
    exists ({[file_addr (d_data D) x i]} ∪ F), s', (clear_bit sb (file_addr (d_data D) x i) D'). split; [done|].
    split; [eapply trunc_clear; try done; lia|apply upto_add; [done|lia|done]].
Qed.

Lemma trunc_directs :
  exists F s1 D1, for_loop (Z.to_nat NDIRECT) 0 (itrunc_direct ip) s0 = Ok tt s1 /\ truncating NDIRECT F s1 D1 /\ upto NDIRECT F.
Proof.
  destruct (for_loop_ok (fun i s => exists F D', truncating i F s D' /\ upto i F) (Z.to_nat NDIRECT) 0 (itrunc_direct ip) s0) as (s1 & H1 & F & D1 & G1 & U1).
  - exists ∅, D. split.
    + split; try done; [apply fsame_refl|apply Hready|apply freed_refl| |apply (rd_file _ _ _ _ Hready)|].
      * fold x. exists (di_addrs x). now destruct x.
      * intros j Hj. now rewrite (proj2 (Z.ltb_ge j 0)) by lia.
    + intros c. split; [set_solver|]. intros (bn & Hbn & _). lia.
  - intros i s Hi (F & D' & HG & HF). destruct (trunc_direct i F s D' HG HF) as (F' & s' & D'' & H1 & H2 & H3); [change (Z.of_nat (Z.to_nat NDIRECT)) with NDIRECT in Hi; lia|].
    exists s'. split; [done|]. now exists F', D''.
  - exists F, s1, D1. split; [done|]. done.
Qed.

(** ** The indirect block *)

Context (Hind : addr x NDIRECT <> 0).
Let a := addr x NDIRECT.

Lemma ind_block : data_block sb D a /\ (forall bn, 0 <= bn < MAXFILE -> file_addr (d_data D) x bn <> a) /\ bitmap_ok sb (d_lock a D).
Proof.
  pose proof Hready as [_ Hlk HL [B1 B2] _ [_ Hf]]. destruct (bo_ind _ _ _ _ _ Hf Hind) as [Hd Hne]. split; [exact Hd|]. split; [exact Hne|].
  split; [exact B1|]. intros c Hc. cbn in Hc. rewrite Hlk in Hc. assert (c = a) as -> by set_solver. exact Hd.
Qed.

Lemma file_indirect j : 0 <= j < NINDIRECT -> file_addr (d_data D) x (NDIRECT + j) = get32 (4 * j) (d_data D a).
Proof.
  intros Hj. unfold file_addr. rewrite (proj2 (Z.ltb_ge _ _)) by lia. fold a. rewrite (proj2 (Z.eqb_neq a 0)) by exact Hind. do 2 f_equal. lia.
Qed.

(** In the loop over the entries the buffer [bp] of the indirect block is held. *)
Definition freeing (bp : Z) (s1 : fstate B U) (j : Z) s : Prop :=
  exists y F D', s = with_io y s1 /\ io_rep y (d_lock a D') /\ io_handle y bp a /\ freed sb F D D' /\ upto (NDIRECT + j) F.

Lemma freed_lock F D' : freed sb F D D' -> freed sb F (d_lock a D) (d_lock a D').
Proof. intros [F1 F2 F3 F4 F5 F6 F7 F8]. split; try done. cbn. now rewrite F1. Qed.

Lemma trunc_entry bp s1 j s :
  fsame ip s0 s1 -> freeing bp s1 j s -> 0 <= j < NINDIRECT -> exists s', itrunc_indirect ip bp j s = Ok tt s' /\ freeing bp s1 (j + 1) s'.
Proof.
  intros HS (y & F & D' & -> & HR & Hh & HF & HU) Hj. pose proof Hready as [_ Hlk HL HB Hd [Hx Hf]]. fold x in Hf. fold sb in HL, Hf.
  destruct ind_block as (Hab & Hne & HBl). assert (MAXFILE = 268 /\ NDIRECT = 12 /\ NINDIRECT = 256) as Hc by done. pose proof (layout_pos _ _ HL).
  unfold itrunc_indirect. do 2 erewrite bind_ok by reflexivity. cbn zeta. cbn [f_io with_io f_inode].
  rewrite (io_read y (d_lock a D') bp a HR Hh) by (cbn; set_solver). change (d_data (d_lock a D') a) with (d_data D' a).
  rewrite (fr_data _ _ _ _ HF a) by (destruct Hab; lia). rewrite <- file_indirect by done.
  destruct (Z.eqb_spec (file_addr (d_data D) x (NDIRECT + j)) 0) as [E0|E0]; cbn [negb].
  - eexists. split; [reflexivity|]. exists y, F, D'. do 4 (split; [done|]). rewrite Z.add_assoc. apply upto_skip; [done|lia|done].
  - destruct (fs_self _ _ _ HS) as [z Hz]. assert (f_sb s1 = sb) as Esb by apply HS. rewrite Hz. cbn [i_dev set_dinode]. rewrite Hd.
    pose proof (free_one (with_io y s1) T F (d_lock a D) (d_lock a D') (file_addr (d_data D) x (NDIRECT + j))) as H1. cbn zeta in H1.
    change (f_sb (with_io y s1)) with (f_sb s1) in H1. rewrite Esb in H1.
    destruct H1 as (y' & H1 & R1 & HF1 & Hk); try done.
    { now apply freed_lock. }
    { intros c Hc'. split; [apply (upto_data (NDIRECT + j) F); [lia|done|done]|]. cbn. rewrite Hlk. intros Hin.
      assert (c = a) as -> by set_solver. apply HU in Hc' as (bn & Hbn & E & _). apply (Hne bn); [lia|done]. }
    { cbn. rewrite Hlk, union_empty_r_L, size_singleton. done. }
    { now apply (bo_data _ _ _ _ _ Hf); [lia|]. } { apply upto_fresh; [done|lia|done]. }
    { cbn. rewrite Hlk. intros Hin. assert (file_addr (d_data D) x (NDIRECT + j) = a) as Ea by set_solver. apply (Hne (NDIRECT + j)); [lia|done]. }
    exists (with_io y' s1). split; [exact H1|]. exists y', ({[file_addr (d_data D) x (NDIRECT + j)]} ∪ F), (clear_bit sb (file_addr (d_data D) x (NDIRECT + j)) D').
    split; [done|]. split; [exact R1|]. split; [apply Hk; [done|cbn; set_solver]|]. split.
    + destruct HF1 as [F1 F2 F3 F4 F5 F6 F7 F8]. split; try done. cbn. apply (fr_locked _ _ _ _ HF).
    + rewrite Z.add_assoc. apply upto_add; [done|lia|done].
Qed.

(** The indirect block's entries and then the block itself are freed. *)
Lemma trunc_indirects F s1 D1 :
  truncating NDIRECT F s1 D1 -> upto NDIRECT F ->
  exists F' s2 D2, (bp ← io (io_bread dev a);
     for_loop (Z.to_nat NINDIRECT) 0 (itrunc_indirect ip bp);;
     io (io_brelse bp);;
     bfree dev a;;
     upd_dinode ip (set_addr NDIRECT 0)) s1 = Ok tt s2 /\ truncating (NDIRECT + 1) ({[a]} ∪ F') s2 D2 /\ upto MAXFILE F'.
Proof.
  intros HG HU. pose proof HG as [G1 G2 G3 G4 G5 G6 G7]. pose proof Hready as [_ Hlk HL HB Hd [Hx Hf]]. fold x in Hf. fold sb in HL, HB, Hf.
  destruct ind_block as (Hab & Hne & HBl). assert (d_locked D1 = ∅) as Hlk1 by (rewrite (fr_locked _ _ _ _ G4); exact Hlk). pose proof (layout_pos _ _ HL).
  destruct (fbread dev s1 D1 a G3) as (bp & y1 & H1 & R1 & h1 & _ & _); [now apply none_locked|now apply size_none_locked|].
  rewrite (bind_ok _ _ _ _ _ H1).
  destruct (for_loop_ok (freeing bp s1) (Z.to_nat NINDIRECT) 0 (itrunc_indirect ip bp) (with_io y1 s1)) as (s2 & H2 & (y2 & F2 & D2 & -> & R2 & h2 & HF2 & HU2)).
  { exists y1, F, D1. split; [done|]. split; [done|]. split; [done|]. split; [done|]. now rewrite Z.add_0_r. }
  { intros j s Hj HI. apply (trunc_entry bp s1 j s G1 HI). change (Z.of_nat (Z.to_nat NINDIRECT)) with NINDIRECT in Hj. lia. }
  rewrite (bind_ok _ _ _ _ _ H2). change (NDIRECT + (0 + Z.of_nat (Z.to_nat NINDIRECT))) with MAXFILE in HU2.
  destruct (frelease dev (with_io y2 s1) D2 a bp R2 h2) as (y3 & H3 & R3 & _).
  { rewrite (fr_locked _ _ _ _ HF2). now apply none_locked. }
  { destruct (io_clean _ _ a (rd_rep _ _ _ _ Hready)) as [Hl|Hb]; [now apply none_locked|left; now apply (fr_logged _ _ _ _ HF2)|right].
    rewrite (fr_data _ _ _ _ HF2 a) by (destruct Hab; lia). rewrite (fr_base _ _ _ _ HF2). exact Hb. }
  rewrite (bind_ok _ _ _ _ _ H3). change (with_io y3 (with_io y2 s1)) with (with_io y3 s1).
  pose proof (free_one (with_io y3 s1) T F2 D D2 a) as H4. cbn zeta in H4. change (f_sb (with_io y3 s1)) with (f_sb s1) in H4. rewrite (fs_sb _ _ _ G1) in H4. fold sb in H4.
  destruct H4 as (y4 & H4 & R4 & HF4 & _); try done.
  { intros c Hc. split; [apply (upto_data MAXFILE F2); [done|done|done]|now apply none_locked]. } { now apply size_none_locked. }
  { intros (bn & Hbn & E & _)%HU2. apply (Hne bn); [lia|done]. } { now apply none_locked. }
  rewrite (bind_ok _ _ _ _ _ H4). change (with_io y4 (with_io y3 s1)) with (with_io y4 s1).
  destruct (upd_dinode ip (set_addr NDIRECT 0) (with_io y4 s1)) as [[] s5| |] eqn:E; [|done..].
  exists F2, s5, (clear_bit sb a D2). split; [done|]. split; [|done]. eapply trunc_clear; [exact HG|done|exact R4|exact HF4|exact E].
Qed.
End itrunc.

(** ** itrunc *)

(** An inode without blocks. *)
Definition emptied (x : dinode) : dinode := Dinode (di_type x) (di_major x) (di_minor x) (di_nlink x) 0 (replicate 13 0).

Lemma addr_none k j : addr (Dinode 0 0 0 0 0 (replicate k 0)) j = 0.
Proof. unfold addr. cbn. destruct (replicate k 0 !! Z.to_nat j) as [c|] eqn:E; [|done]. now apply lookup_replicate_1 in E as [-> _]. Qed.

Lemma emptied_ok sb D x : dinode_ok x -> file_ok sb D (emptied x).
Proof.
  intros [N1 N2 N3 N4 N5 N6 N7]. assert (forall j, addr (emptied x) j = 0) as E by exact (addr_none 13).
  assert (forall bn, file_addr (d_data D) (emptied x) bn = 0) as Ef by (intros bn; unfold file_addr; rewrite !E; now destruct (_ <? _)).
  split.
  - split; try done. apply Forall_replicate. unfold is_u32. lia.
  - pose proof file_consts. split.
    + cbn. lia.
    + intros bn Hbn Hlt. cbn in Hlt. unfold BSIZE in *. lia.
    + intros bn _ Hn. now rewrite Ef in Hn.
    + intros Hn. now rewrite E in Hn.
    + intros _ bn _. apply Ef.
    + intros bn bn' _ _ Hn. now rewrite Ef in Hn.
Qed.

Lemma addrs_zero (x : dinode) : length (di_addrs x) = 13%nat -> (forall j, 0 <= j <= NDIRECT -> addr x j = 0) -> di_addrs x = replicate 13 0.
Proof.
  intros Hl H. apply list_eq_same_length with (n := 13%nat); [now rewrite length_replicate|done|].
  intros i c d Hi Hc Hd. apply lookup_replicate_1 in Hd as [-> _]. specialize (H (Z.of_nat i) ltac:(unfold NDIRECT; lia)). unfold addr in H.
  rewrite Nat2Z.id, Hc in H. exact H.
Qed.

(** What [itrunc] leaves. *)
Record truncated (ip : Z) s (D : dview) s' (D' : dview) : Prop := Truncated {
  tc_same : fsame ip s s';
  tc_user : f_user s' = f_user s;
  tc_start : d_start D' = d_start D;
  tc_ready : ready dev ip s' D';
  tc_dinode : i_dinode (f_inode s' ip) = emptied (i_dinode (f_inode s ip));
  tc_used c : 0 <= c < sb_size (f_sb s) ->
    used (f_sb s) (d_data D') c = true <-> used (f_sb s) (d_data D) c = true /\ ~ own_block D (i_dinode (f_inode s ip)) c;
  tc_disk j : 0 <= j < sb_ninodes (f_sb s) -> disk_inode (f_sb s) (d_data D') j =
    if j =? i_inum (f_inode s ip) then emptied (i_dinode (f_inode s ip)) else disk_inode (f_sb s) (d_data D) j;
  tc_data c : datastart (f_sb s) <= c -> d_data D' c = d_data D c;
}.

Lemma itrunc_blocks s D ip T :
  let x := i_dinode (f_inode s ip) in let a := addr x NDIRECT in
  ready dev ip s D -> bmaps (f_sb s) ⊆ T -> budget T D 0 ->
  exists F s1 D1,
    (for_loop (Z.to_nat NDIRECT) 0 (itrunc_direct ip);;
     x ← gets (fun s => f_inode s ip);
     let a := addr (i_dinode x) NDIRECT in
     if negb (a =? 0) then
       bp ← io (io_bread (i_dev x) a);
       for_loop (Z.to_nat NINDIRECT) 0 (itrunc_indirect ip bp);;
       io (io_brelse bp);;
       bfree (i_dev x) a;;
       upd_dinode ip (set_addr NDIRECT 0)
     else mret tt) s = Ok tt s1 /\ truncating s D ip (NDIRECT + 1) F s1 D1 /\ forall c, c ∈ F <-> own_block D x c.
Proof.
  intros x a Hr HT Hb. destruct (trunc_directs s D ip T Hr HT Hb) as (F & s1 & D1 & H1 & HG & HU). pose proof HG as [G1 G2 G3 G4 G5 G6 G7].
  rewrite (bind_ok _ _ _ _ _ H1). erewrite bind_ok by reflexivity. cbn zeta. rewrite G7 by (unfold NDIRECT; lia).
  rewrite Z.ltb_irrefl. fold x. destruct (fs_self _ _ _ G1) as [z Hz]. rewrite Hz. cbn [i_dev set_dinode]. rewrite (rd_dev _ _ _ _ Hr).
  destruct (Z.eqb_spec (addr x NDIRECT) 0) as [E0|E0]; cbn [negb].
  - exists F, s1, D1. split; [done|]. split.
    + split; try done. intros j Hj. rewrite G7 by done. destruct (Z.ltb_spec j NDIRECT), (Z.ltb_spec j (NDIRECT + 1)); try lia. replace j with NDIRECT by lia. exact E0.
    + intros c. rewrite (HU c). unfold own_block. split.
      * intros (bn & Hbn & E & Hc). right. exists bn. split; [|done]. unfold MAXFILE, NINDIRECT, BSIZE, NDIRECT in *. change (1024 / 4) with 256. lia.
      * intros [[-> Hc]|(bn & Hbn & E & Hc)]; [done|]. exists bn. split; [|done]. split; [lia|].
        destruct (Z_lt_le_dec bn NDIRECT); [done|]. exfalso. apply Hc. rewrite E. apply (bo_none _ _ _ _ _ (proj2 (rd_file _ _ _ _ Hr)) E0). lia.
  - destruct (trunc_indirects s D ip T Hr HT Hb E0 F s1 D1 HG HU) as (F' & s2 & D2 & H2 & HG2 & HU2).
    exists ({[a]} ∪ F'), s2, D2. split; [exact H2|]. split; [exact HG2|]. intros c. rewrite elem_of_union, elem_of_singleton, (HU2 c). unfold own_block, own_ind.
    split; (intros [H|H]; [left|now right]); [subst c; exact (conj eq_refl E0)|exact (proj1 H)].
Qed.

Lemma itrunc_ok s D ip T :
  let inum := i_inum (f_inode s ip) in
  ready dev ip s D -> 0 <= inum < sb_ninodes (f_sb s) -> bmaps (f_sb s) ⊆ T -> IBLOCK inum (f_sb s) ∈ T -> budget T D 0 ->
  exists s' D', itrunc ip s = Ok tt s' /\ truncated ip s D s' D' /\ budget T D' 0.
Proof.
  intros inum Hr Hin HT HiT Hb. set (x := i_dinode (f_inode s ip)). set (sb := f_sb s).
  destruct (itrunc_blocks s D ip T Hr HT Hb) as (F & s1 & D1 & H1 & [G1 G2 G3 G4 (l & G5) G6 G7] & HF). fold x in HF, G5. fold sb in G4, HT, HiT.
  pose proof Hr as [_ Hlk HL HB Hd [Hx Hf]]. fold x in Hx, Hf. fold sb in HL, HB, Hf. pose proof (layout_pos _ _ HL) as HP. pose proof (ly_size _ _ HL) as HS.
  destruct (upd_dinode ip (set_size 0) s1) as [[] s2| |] eqn:E2; [|done..]. apply fsame_upd in E2 as E2'. destruct E2' as (S1 & S2 & S3 & S4).
  assert (i_dinode (f_inode s2 ip) = emptied x) as Ex.
  { rewrite S2. unfold set_size. rewrite (addrs_zero (i_dinode (f_inode s1 ip))); [now rewrite G5|done|].
    intros j Hj. rewrite G7 by done. now rewrite (proj2 (Z.ltb_lt _ _)) by lia. }
  pose proof (fsame_trans _ _ _ _ G1 S1) as HS2. destruct (fs_self _ _ _ HS2) as [z Hz]. assert (f_sb s2 = sb) as Esb by apply HS2.
  assert (ready dev ip s2 D1) as Hr2.
  { split; rewrite ?Esb, ?S3, ?Hz; try done; rewrite ?(fr_locked _ _ _ _ G4), ?(fr_start _ _ _ _ G4); try done.
    - apply (freed_bitmap sb F D); try done. intros c Hc%HF. split; [apply (own_data _ _ _ _ (conj Hx Hf) Hc)|now apply none_locked].
    - rewrite <- Hz, Ex. now apply emptied_ok. }
  destruct (iupdate_ok dev s2 T 0 D1 ip Hr2) as (y & H3 & R3 & B3); [now rewrite Hz, Esb|now rewrite Hz, Esb|now apply (freed_budget sb T F D)|].
  rewrite Ex, Hz, Esb in *. cbn [i_inum set_dinode] in *. fold inum in R3, B3. pose proof (IBLOCK_range sb _ _ HL Hin) as Hib. fold sb in Hin.
  exists (with_io y s2). eexists. split.
  { apply bind_ok_inv in H1 as ([] & sA & Ha & Hc). unfold itrunc. rewrite (bind_ok _ _ _ _ _ Ha). erewrite bind_ok by reflexivity.
    erewrite bind_ok in Hc by reflexivity. cbn zeta in Hc |- *. now rewrite (bind_ok _ _ _ _ _ Hc), (bind_ok _ _ _ _ _ E2). }
  split; [|exact B3]. split; fold x sb inum; try done.
  - eapply fsame_trans; [exact HS2|apply fsame_io].
  - cbn. congruence.
  - cbn. apply (fr_start _ _ _ _ G4).
  - cbn. rewrite <- Ex. now rewrite Hz.
  - intros c Hc. unfold put_inode. rewrite used_put. pose proof (BBLOCK_range sb _ c HL Hc). rewrite (proj2 (Z.eqb_neq _ _)) by lia.
    rewrite (fr_used _ _ _ _ G4), andb_true_iff, negb_true_iff, bool_decide_eq_false, HF by done. done.
  - intros j Hj. rewrite disk_put_inode; [| |apply (io_wf _ _ _ G3)|lia|lia]; [|now apply (emptied_ok sb D)]. destruct (j =? inum); [done|].
    unfold disk_inode. f_equal. apply (fr_data _ _ _ _ G4). pose proof (IBLOCK_range sb _ _ HL Hj). lia.
  - intros c Hc. unfold put_inode. cbn. rewrite fn_lookup_insert_ne by lia. apply (fr_data _ _ _ _ G4). lia.
Qed.

(** ** iput of the last reference *)

Lemma unlock_held l s h : l ∉ h -> f_held s = {[l]} ∪ h -> unlock l s = Ok tt (fset held h s).
Proof.
  intros Hl E. unfold unlock. erewrite bind_ok by reflexivity. cbn [fget held fstate_thread]. rewrite E, decide_True by set_solver.
  unfold modify. now rewrite held_back.
Qed.

(** The freeing of the inode, from [acquiresleep] to [releasesleep]. *)
Definition iput_free (ip : Z) : M (fstate B U) unit :=
  itrunc ip;;
  upd_dinode ip (set_type 0);;
  iupdate ip;;
  upd_inode ip (set_ivalid 0);;
  releasesleep (inode_lock ip) (inode_spin ip).

(** What the disk holds after inode [inum], with contents [x], is freed. *)
Record inode_freed (sb : superblock) (inum : Z) (x : dinode) (D D' : dview) : Prop := InodeFreed {
  if_locked : d_locked D' = d_locked D;
  if_start : d_start D' = d_start D;
  if_bitmap : bitmap_ok sb D';
  if_used c : 0 <= c < sb_size sb -> used sb (d_data D') c = true <-> used sb (d_data D) c = true /\ ~ own_block D x c;
  if_disk j : 0 <= j < sb_ninodes sb -> disk_inode sb (d_data D') j =
    if j =? inum then set_type 0 (emptied x) else disk_inode sb (d_data D) j;
  if_data c : datastart sb <= c -> d_data D' c = d_data D c;
}.

Lemma iput_free_ok s D ip T :
  let x := f_inode s ip in
  ready dev ip s D -> 0 <= i_inum x < sb_ninodes (f_sb s) -> bmaps (f_sb s) ⊆ T -> IBLOCK (i_inum x) (f_sb s) ∈ T -> budget T D 0 ->
  inode_spin ip ∉ f_held s ->
  exists s' D' z, iput_free ip s = Ok tt s' /\ io_rep (f_io s') D' /\ inode_freed (f_sb s) (i_inum x) (i_dinode x) D D' /\
    only_entry ip (Inode (i_dev x) (i_inum x) (i_ref x) (Sleeplock 0 (sl_name (i_lock x)) 0) 0 z) s s'.
Proof.
  intros x Hr Hin HT HiT Hb Hh. destruct (itrunc_ok s D ip T Hr Hin HT HiT Hb) as (s1 & D1 & H1 & [C1 C2 C0 C3 C4 C5 C6 C7] & B1). fold x in C4, C5, C6.
  unfold iput_free. rewrite (bind_ok _ _ _ _ _ H1). pose proof (fs_self _ _ _ C1) as [z1 Z1]. fold x in Z1. pose proof (fs_sb _ _ _ C1) as Sb1.
  destruct (upd_dinode ip (set_type 0) s1) as [[] s2| |] eqn:E2; [|done..]. apply fsame_upd in E2 as E2'. destruct E2' as (S1 & S2 & S3 & S4).
  rewrite (bind_ok _ _ _ _ _ E2). rewrite C4 in S2. pose proof (fsame_trans _ _ _ _ C1 S1) as C12. pose proof (fs_self _ _ _ C12) as [z2 Z2]. fold x in Z2.
  pose proof (fs_sb _ _ _ C12) as Sb2. pose proof C3 as [R1 Hlk1 HL1 HB1 Hd1 [Hx1 Hf1]]. rewrite Sb1 in HL1, HB1, Hf1. rewrite C4 in Hx1.
  assert (dinode_ok (set_type 0 (i_dinode x))) as Hx0.
  { destruct (rd_file _ _ _ _ Hr) as [[N1 N2 N3 N4 N5 N6 N7] _]. split; done. }
  assert (set_type 0 (emptied (i_dinode x)) = emptied (set_type 0 (i_dinode x))) as Eem by done.
  assert (ready dev ip s2 D1) as Hr2.
  { split; rewrite ?Sb2, ?S3; try done; [rewrite Z2; apply Hr|]. rewrite S2, Eem. now apply emptied_ok. }
  destruct (iupdate_ok dev s2 T 0 D1 ip Hr2) as (y & H3 & R3 & B3); [now rewrite Z2, Sb2|now rewrite Z2, Sb2|done|].
  rewrite (bind_ok _ _ _ _ _ H3), S2, Z2, Sb2 in *. cbn [i_inum set_dinode] in *. erewrite bind_ok by reflexivity.
  set (s3 := set_inodes (<[ip := set_ivalid 0 (f_inode (with_io y s2) ip)]> (f_inode (with_io y s2))) (with_io y s2)).
  assert (f_held s3 = f_held s) as Eh by apply C12. rewrite (release_inode s3 ip) by (now rewrite Eh).
  pose proof (IBLOCK_range _ _ _ (rd_layout _ _ _ _ Hr) Hin) as Hib. pose proof (layout_pos _ _ HL1) as HP. pose proof (layout_pos _ _ (rd_layout _ _ _ _ Hr)) as HP0.
  eexists _, _, z2. split; [reflexivity|]. split; [apply R3|]. split.
  - split.
    + cbn. now rewrite Hlk1, (rd_locked _ _ _ _ Hr).
    + exact C0.
    + pose proof (rd_bitmap _ _ _ _ R3) as HBm. cbn [f_sb with_io] in HBm. now rewrite Sb2 in HBm.
    + intros c Hc. unfold put_inode. rewrite used_put. pose proof (BBLOCK_range _ _ c (rd_layout _ _ _ _ Hr) Hc).
      rewrite (proj2 (Z.eqb_neq _ _)) by lia. now apply C5.
    + intros j Hj. rewrite disk_put_inode; [|rewrite Eem; now apply (emptied_ok (f_sb s) D)|apply (io_wf _ _ _ R1)|lia|lia].
      destruct (Z.eqb_spec j (i_inum x)) as [|Hne]; [done|]. rewrite C6 by done. now rewrite (proj2 (Z.eqb_neq _ _) Hne).
    + intros c Hc. unfold put_inode. cbn. rewrite fn_lookup_insert_ne by lia. now apply C7.
  - split; cbn; try apply C12.
    + congruence.
    + rewrite !fn_lookup_insert, Z2. done.
    + intros j Hj. rewrite !fn_lookup_insert_ne by done. now apply C12.
Qed.

(** [iput] of the last reference to an inode without links. *)
Lemma iput_last s D ip inum T :
  let x := i_dinode (f_inode s ip) in
  table_ok dev ∅ s D -> entry (f_inode s) inum ip -> last_ref (f_inode s ip) = true -> ready dev ip s D ->
  bmaps (f_sb s) ⊆ T -> IBLOCK inum (f_sb s) ∈ T -> budget T D 0 -> itable_lock ∉ f_held s -> inode_spin ip ∉ f_held s ->
  exists s' D', iput ip s = Ok tt s' /\ io_rep (f_io s') D' /\ inode_freed (f_sb s) inum x D D' /\
    table_ok dev ∅ s' D' /\ f_user s' = f_user s /\ f_held s' = f_held s /\ i_ref (f_inode s' ip) = 0 /\
    (forall j, refcount (f_inode s') j = refcount (f_inode s) j - (if j =? inum then 1 else 0)).
Proof.
  intros x HTab He Hlast Hr HT HiT Hb Hh Hsp. pose proof He as (Hip & Href & Hin). destruct (tb_dev _ _ _ _ HTab _ _ He) as [Hdev Hrange].
  pose proof (tb_lock _ _ _ _ HTab ip Hip) as Hlk. cbn zeta in Hlk. rewrite decide_False in Hlk by set_solver.
  pose proof Hlast as Hl'. unfold last_ref in Hl'. apply andb_true_iff in Hl' as [[Hone _]%andb_true_iff _]. apply Z.eqb_eq in Hone.
  unfold iput. rewrite lock_then by done. set (sH := fset held ({[itable_lock]} ∪ f_held s) s). erewrite bind_ok by reflexivity.
  change (f_inode sH) with (f_inode s). unfold last_ref in Hlast. rewrite Hlast.
  assert (inode_spin ip ∉ f_held sH) as HspH by (cbn; set_solver).
  rewrite bind_assoc, (bind_ok _ _ _ _ _ (acquire_inode sH ip Hlk HspH)). set (l := Sleeplock 1 _ _). set (sA := put_lock ip l sH).
  rewrite bind_assoc, (bind_ok _ _ _ _ _ (unlock_held itable_lock sA (f_held s) Hh eq_refl)). set (sB := fset held (f_held s) sA).
  assert (f_inode sB ip = with_lock l (f_inode s ip)) as EB by (cbn; apply fn_lookup_insert).
  assert (ready dev ip sB D) as HrB by (destruct Hr; split; rewrite ?EB; done).
  destruct (iput_free_ok sB D ip T HrB) as (s1 & D1 & z & H1 & R1 & HF & O1); rewrite ?EB; cbn [i_inum with_lock]; rewrite ?Hin; try done.
  rewrite EB in HF, O1. cbn [i_dev i_inum i_ref i_lock sl_name with_lock l i_dinode] in HF, O1. fold x in HF. rewrite Hin, Hone, Hdev in *.
  unfold iput_free in H1. apply bind_ok_inv in H1 as ([] & a1 & A1 & H1). apply bind_ok_inv in H1 as ([] & a2 & A2 & H1).
  apply bind_ok_inv in H1 as ([] & a3 & A3 & H1). apply bind_ok_inv in H1 as ([] & a4 & A4 & H1).
  rewrite bind_assoc, (bind_ok _ _ _ _ _ A1), bind_assoc, (bind_ok _ _ _ _ _ A2), bind_assoc, (bind_ok _ _ _ _ _ A3), bind_assoc, (bind_ok _ _ _ _ _ A4), bind_assoc, (bind_ok _ _ _ _ _ H1).
  rewrite lock_then by (rewrite (oe_held _ _ _ _ O1); exact Hh). erewrite bind_ok by reflexivity.
  erewrite unlock_held; [|exact Hh|cbn; now rewrite (oe_held _ _ _ _ O1)]. eexists _, D1. split; [reflexivity|]. split; [exact R1|]. split; [exact HF|].
  match goal with |- table_ok _ _ ?st _ /\ _ => set (s2 := st) end.
  assert (only_entry ip (Inode dev inum 0 (Sleeplock 0 (sl_name (i_lock (f_inode s ip))) 0) 0 z) s s2) as HO.
  { destruct O1 as [U1 U2 U3 U4 U5 U6 U7]. split; cbn; try done.
    - rewrite fn_lookup_insert, U6. done.
    - intros j Hj. rewrite fn_lookup_insert_ne, U7 by done. cbn. now rewrite fn_lookup_insert_ne. }
  split; [|split; [apply HO|split; [apply HO|split; [now rewrite (oe_self _ _ _ _ HO)|]]]].
  - assert (table_ok dev ∅ s2 D) as HT2.
    { eapply (table_set dev ∅ ∅ s); [done|exact Hip|exact HO| |done]. split; cbn; try lia. now rewrite decide_False by set_solver. }
    destruct HT2 as [T1 T2 T3 T4 T5]. split; try done. intros inum' i Hi Hv. rewrite (T4 _ _ Hi Hv).
    destruct (T2 _ _ Hi) as [_ Hr']. rewrite (oe_sb _ _ _ _ HO) in *. rewrite (if_disk _ _ _ _ _ HF) by done.
    destruct (Z.eqb_spec inum' inum) as [->|]; [|done]. exfalso. assert (i = ip \/ i <> ip) as [->|Hne] by lia.
    + destruct Hi as (_ & Hr0 & _). rewrite (oe_self _ _ _ _ HO) in Hr0. cbn in Hr0. lia.
    + destruct Hi as (Hi1 & Hr0 & Hn0). rewrite (oe_other _ _ _ _ HO) in Hr0, Hn0 by done. apply Hne. apply (tb_uniq _ _ _ _ HTab inum); [split; [done|split; done]|done].
  - intros j. rewrite (refcount_set ip _ s s2 j Hip HO). cbn. rewrite Hin, Hone. destruct (Z.eqb_spec inum j), (Z.eqb_spec j inum); lia.
Qed.

(** ** ialloc *)

(** A new inode, as [ialloc] leaves it on disk. *)
Definition new_inode (type : Z) : dinode := Dinode type 0 0 0 0 (replicate 13 0).

Definition ialloc_block (inum type : Z) (d : block) : block := put16 (ioff inum) type (splice (ioff inum) (replicate 64 0) d).

Lemma slice_zeroed off d i n :
  0 <= off -> off + 64 <= Z.of_nat (length d) -> off <= i -> 0 <= n -> i + n <= off + 64 ->
  slice i n (splice off (replicate 64 0) d) = replicate (Z.to_nat n) 0.
Proof.
  intros Ho Hl Hi Hn Hin. apply list_eq. intros k. rewrite lookup_slice, lookup_splice by (rewrite ?length_replicate; lia).
  destruct (decide (k < Z.to_nat n)%nat).
  - rewrite decide_True by (rewrite length_replicate; lia). rewrite !lookup_replicate_2 by lia. done.
  - symmetry. apply lookup_ge_None. rewrite length_replicate. lia.
Qed.

Lemma length_ialloc_block inum type d : WF_block d -> length (ialloc_block inum type d) = length d.
Proof.
  unfold WF_block. intros HW. pose proof (ioff_range inum). unfold ialloc_block.
  assert (length (splice (ioff inum) (replicate 64 0) d) = length d) as E by (apply length_splice; rewrite ?length_replicate; lia).
  rewrite length_put16; [done|lia|lia].
Qed.

Lemma slice_ialloc_out inum type d i n :
  WF_block d -> 0 <= i -> 0 <= n -> i + n <= ioff inum \/ ioff inum + 64 <= i -> slice i n (ialloc_block inum type d) = slice i n d.
Proof.
  unfold WF_block. intros HW Hi Hn Hd. pose proof (ioff_range inum). unfold ialloc_block.
  assert (length (splice (ioff inum) (replicate 64 0) d) = length d) as E by (apply length_splice; rewrite ?length_replicate; lia).
  rewrite slice_put16 by lia. apply slice_splice_other; rewrite ?length_replicate; lia.
Qed.

Lemma zero_words k off d : 0 <= off -> (forall i, off <= i -> i + 4 <= off + 4 * Z.of_nat k -> slice i 4 d = replicate 4 0) -> get_words k off d = replicate k 0.
Proof.
  revert off. induction k as [|k IH]; intros off Ho H; cbn [get_words replicate]; [done|]. f_equal.
  - unfold get32. rewrite H by lia. reflexivity.
  - apply IH; [lia|]. intros i Hi Hi'. apply H; lia.
Qed.

Lemma get_ialloc inum type d : WF_block d -> is_i16 type -> get_dinode (ioff inum) (ialloc_block inum type d) = new_inode type.
Proof.
  intros HW Ht. pose proof (ioff_range inum) as Hr. unfold WF_block in HW. set (o := ioff inum) in *.
  set (d0 := splice o (replicate 64 0) d). assert (length d0 = length d) as E by (apply length_splice; rewrite ?length_replicate; lia).
  assert (forall i n, o + 2 <= i -> 0 <= n -> i + n <= o + 64 -> slice i n (ialloc_block inum type d) = replicate (Z.to_nat n) 0) as Hz.
  { intros i n Hi Hn Hin. unfold ialloc_block. fold o d0. rewrite slice_put16 by lia. apply slice_zeroed; lia. }
  unfold get_dinode, new_inode. change (Z.to_nat (NDIRECT + 1)) with 13%nat. rewrite zero_words by (lia || (intros i Hi Hi'; rewrite Hz by lia; done)).
  unfold get32. rewrite (Hz (o + 8) 4) by lia. unfold get16 at 2 3 4. rewrite !Hz by lia.
  unfold ialloc_block. fold o d0. rewrite get16_put16 by lia. rewrite i16_u16 by done. done.
Qed.

Lemma disk_ialloc sb D inum type j :
  WF_block (d_data D (IBLOCK inum sb)) -> is_i16 type -> 0 <= inum -> 0 <= j ->
  disk_inode sb (d_data (d_put (IBLOCK inum sb) (ialloc_block inum type (d_data D (IBLOCK inum sb))) D)) j =
  if j =? inum then new_inode type else disk_inode sb (d_data D) j.
Proof.
  intros HW Ht Hin Hj. unfold disk_inode. cbn. destruct (Z.eqb_spec j inum) as [->|Hne]; [rewrite fn_lookup_insert; now apply get_ialloc|].
  destruct (Z.eq_dec (IBLOCK j sb) (IBLOCK inum sb)) as [E|E]; [|now rewrite fn_lookup_insert_ne].
  rewrite E, fn_lookup_insert. pose proof (ioff_range j). pose proof (ioff_range inum). apply get_dinode_ext; [lia|]. intros k n Hk Hn Hkn.
  apply slice_ialloc_out; [done|lia|lia|]. unfold ioff, IBLOCK, IPB, BSIZE in *. change (1024 / 64) with 16 in *. dlia.
Qed.

(** The scan: the first inode from [inum] that is not in use. *)
Lemma ialloc_scan s T D type fuel : let sb := f_sb s in forall y inum,
  layout sb (d_start D) -> io_rep y D -> d_locked D = ∅ -> 1 <= inum <= sb_ninodes sb ->
  (forall j, 1 <= j < inum -> di_type (disk_inode sb (d_data D) j) <> 0) -> (Z.to_nat (sb_ninodes sb - inum) < fuel)%nat -> budget T D 1 ->
  (exists j y', inum <= j < sb_ninodes sb /\ di_type (disk_inode sb (d_data D) j) = 0 /\
     (forall k, 1 <= k < j -> di_type (disk_inode sb (d_data D) k) <> 0) /\
     ialloc_loop fuel dev inum type (with_io y s) = iget dev j (with_io y' s) /\
     io_rep y' (d_put (IBLOCK j sb) (ialloc_block j type (d_data D (IBLOCK j sb))) D)) \/
  ((forall k, 1 <= k < sb_ninodes sb -> di_type (disk_inode sb (d_data D) k) <> 0) /\
   exists y', ialloc_loop fuel dev inum type (with_io y s) = Ok NULL (with_io y' s) /\ io_rep y' D).
Proof.
  intros sb. induction fuel as [|fuel IH]; intros y inum HL HR Hlk Hin Hb Hfu Hbud; [lia|]. cbn [ialloc_loop]. erewrite bind_ok by reflexivity.
  change (f_sb (with_io y s)) with sb. destruct (Z.ltb_spec inum (sb_ninodes sb)) as [Hlt|Hge].
  2: { right. split; [intros k Hk; apply Hb; lia|]. now exists y. }
  destruct (fbread dev (with_io y s) D (IBLOCK inum sb) HR) as (h & y1 & H1 & R1 & h1 & D1 & _); [now apply none_locked|now apply size_none_locked|].
  rewrite (bind_ok _ _ _ _ _ H1). erewrite bind_ok by reflexivity. cbn [f_io with_io]. rewrite D1. fold (disk_inode sb (d_data D) inum).
  pose proof (IBLOCK_range sb _ inum HL ltac:(lia)) as Hib. pose proof (layout_pos _ _ HL) as HP. pose proof (ly_size _ _ HL).
  destruct (Z.eqb_spec (di_type (disk_inode sb (d_data D) inum)) 0) as [E|E].
  - left. fold (ialloc_block inum type (d_data D (IBLOCK inum sb))).
    destruct (fupdate dev (with_io y1 (with_io y s)) D (IBLOCK inum sb) h (ialloc_block inum type (d_data D (IBLOCK inum sb)))) as (y2 & H2 & _ & R2 & _).
    { exact R1. } { exact h1. } { now apply none_locked. }
    { unfold WF_block. rewrite length_ialloc_block by apply (io_wf _ _ _ HR). apply (io_wf _ _ _ HR). }
    { apply (home_data sb (d_start D)); [done|done|]. lia. }
    { apply (budget_log T D 1); [done|right; lia]. }
    exists inum, y2. split; [lia|]. split; [done|]. split; [exact Hb|]. split; [exact (H2 _ (iget dev inum))|exact R2].
  - destruct (frelease dev (with_io y1 (with_io y s)) D (IBLOCK inum sb) h R1 h1) as (y2 & H2 & R2 & _); [now apply none_locked|now apply (io_clean _ _ _ HR), none_locked|].
    rewrite (bind_ok _ _ _ _ _ H2). change (with_io y2 (with_io y1 (with_io y s))) with (with_io y2 s).
    destruct (IH y2 (inum + 1) HL R2 Hlk ltac:(lia)) as [(j & y' & Hj & H3)|H3]; [|lia|done| |now right].
    + intros j Hj. destruct (Z.eq_dec j inum) as [->|]; [done|]. apply Hb. lia.
    + left. exists j, y'. split; [lia|done].
Qed.
End trunc.
