(* ===== verification/FsDemo.v ===== *)
(** * A small file system

    A block layer that keeps the disk as a function from block numbers to
    contents, and a disk with one empty file in it.  The block layer keeps the
    contract [BlockIOSpec], and the examples of the file-system theorems run on
    this disk. *)

From stdpp Require Import base gmap numbers strings functions list.
From Stdlib Require Import ZifyBool.
From S2P Require Import Prelude Mem Block StringC Spinlock Locks Bio Log LogSpec BlockIO Fs FsBlocks FsInode FsFile FsIO.

Open Scope Z_scope.

(** A buffer's handle is its block number. *)
#[export] Instance ram_io : BlockIO dview :=
  {| io_bread _ b := fun D => if decide (b ∈ d_locked D) then Diverge else Ok b (d_lock b D);
     io_brelse b := modify (d_unlock b);
     io_log_write b := fun D => if decide (size ({[b]} ∪ d_logged D) <= d_cap D)%nat then Ok tt (d_log b D) else Panic "too big a transaction";
     io_data D b := d_data D b;
     io_set_data b d := modify (d_set b d);
     io_initlog _ _ _ := mret tt;
     io_begin_op := mret tt; io_end_op := mret tt |}.

Definition ram_rep (s D : dview) : Prop :=
  s = D /\ (forall b, WF_block (d_data D b)) /\ forall b, b ∉ d_locked D -> b ∈ d_logged D \/ d_data D b = d_base D b.

#[export] Instance ram_io_spec dev : BlockIOSpec dview dev.
Proof.
  refine {| io_rep := ram_rep; io_handle := fun _ i b => i = b |}.
  - intros s D b (_ & H & _). apply H.
  - intros s D b (_ & _ & H). apply H.
  - intros s D i b (-> & _) ->. done.
  - intros s D b (-> & H1 & H2) Hb Hsz. exists b, (d_lock b D). cbn. rewrite decide_False by done. split; [done|].
    split; [|done]. split; [done|]. split; [done|]. intros c Hc. apply H2. cbn in Hc. set_solver.
  - intros s D i b d (-> & H1 & H2) -> Hb Hd. exists (d_set b d D). split; [done|]. split; [|done]. split; [done|]. split.
    + intros c. cbn. destruct (decide (c = b)) as [->|]; [now rewrite fn_lookup_insert|now rewrite fn_lookup_insert_ne].
    + intros c Hc. cbn in *. destruct (decide (c = b)) as [->|]; [done|]. rewrite fn_lookup_insert_ne by done. auto.
  - intros s D i b (-> & H1 & H2) -> Hb Hh Hsz. exists (d_log b D). cbn. rewrite decide_True by done. split; [done|].
    split; [|done]. split; [done|]. split; [done|]. intros c Hc. cbn in *. destruct (H2 c Hc); [left; set_solver|now right].
  - intros s D i b (-> & H1 & H2) -> Hb Hc. exists (d_unlock b D). split; [done|]. split; [|done]. split; [done|]. split; [done|].
    intros c Hn. cbn in *. destruct (decide (c = b)) as [->|]; [done|]. apply H2. set_solver.
Defined.

(** A process whose addresses are all mapped, without strings in them. *)
#[export] Instance flat_user : UserIO memory :=
  {| u_mem m := m; u_set_mem m _ := m; u_pagetable _ := 0; u_set_pagetable _ m := m;
     u_copyout a bs := fun m => Ok 0 (wr_bytes m a bs); u_copyin a n := fun m => Ok (rd_bytes m a (Z.to_nat n), 0) m;
     u_copyinstr _ _ _ := fun m => Ok (-1) m |}.

#[export] Instance flat_laws : UserLaws memory.
Proof. split; done. Qed.

(** 2000 blocks as mkfs lays them out: log from 2, inodes from 32, the bitmap in
    45, data from 46. *)
Definition demo_sb : superblock := SB FSMAGIC 2000 1954 200 30 2 32 45.

Definition demo_bitmap : block := replicate 5 255 ++ [63] ++ replicate (Z.to_nat (BSIZE - 6)) 0.

Definition demo_data : Z -> block := fun b => if b =? 45 then demo_bitmap else zeros.

Definition demo_disk : dview := DView demo_data demo_data ∅ ∅ (Z.to_nat MAXOPBLOCKS) 2 [].

Definition demo_file : dinode := Dinode T_FILE 0 0 1 0 (replicate 13 0).

(** Kernel memory with the five bytes of a greeting at 4096. *)
Definition demo_mem : memory := wr_bytes ∅ 4096 [104; 101; 108; 108; 111].

Definition demo_fs : fstate dview memory :=
  FState demo_disk demo_mem ∅ 1 demo_sb (fun _ => Inode 1 2 1 (Sleeplock 1 "inode" 1) 1 demo_file) 0.

Lemma demo_layout : layout demo_sb 2.
Proof. split; cbv; (split || idtac); discriminate || reflexivity || intuition discriminate. Qed.

Lemma demo_used : forallb (used demo_sb demo_data) (seqZ 0 46) = true.
Proof. vm_compute. reflexivity. Qed.

Lemma demo_bitmap_ok : bitmap_ok demo_sb demo_disk.
Proof.
  split; [|intros c Hc; now apply not_elem_of_empty in Hc]. intros b Hb.
  pose proof (proj1 (forallb_forall _ _) demo_used b) as H. apply H. apply list_elem_of_In, elem_of_seqZ.
  change (datastart demo_sb) with 46 in Hb. lia.
Qed.

Lemma demo_wf b : WF_block (demo_data b).
Proof. unfold demo_data. destruct (b =? 45); vm_compute; reflexivity. Qed.

Lemma demo_file_ok D : file_ok demo_sb D demo_file.
Proof.
  split.
  - split; try (unfold is_i16, is_u32, demo_file, T_FILE; cbn; lia); [reflexivity|]. apply Forall_replicate. unfold is_u32. lia.
  - assert (forall bn, file_addr (d_data D) demo_file bn = 0) as E.
    { intros bn. unfold file_addr. change (addr demo_file NDIRECT =? 0) with true. destruct (bn <? NDIRECT); [|done].
      unfold addr, demo_file. cbn [di_addrs]. destruct (replicate 13 0 !! Z.to_nat bn) as [a|] eqn:El; [|done].
      apply lookup_replicate_1 in El as [-> _]. done. }
    split; try done.
    + cbn. pose proof file_consts. lia.
    + intros bn Hbn Hn. now rewrite E in Hn.
    + intros bn bn' Hbn Hbn' Hn. now rewrite E in Hn.
Qed.

Lemma demo_ready : ready 1 0 demo_fs demo_disk.
Proof.
  split; [|done|exact demo_layout|exact demo_bitmap_ok|done|apply demo_file_ok].
  split; [done|]. split; [exact demo_wf|]. now right.
Qed.
