(* ===== verification/FsDirThms.v ===== *)
(** * kernel/fs.c: what directories, path names and inodes guarantee

    Linking and looking up a name, the walk along a path, and the allocation and
    freeing of inodes, with a small tree on which the theorems are applied. *)

From stdpp Require Import base gmap numbers strings functions list.
From Stdlib Require Import ZifyBool.
From S2P Require Import Prelude Mem Block StringC Spinlock Locks Riscv Bio Log LogSpec BlockIO Fs FsBlocks FsInode FsFile FsIO FsDemo.
From S2P Require Import FsTable FsDir FsPath FsCheck FsTrunc.

Open Scope Z_scope.

Section link.
Context {B U : Type} `{BIO : BlockIO B} (dev : Z) `{BS : !BlockIOSpec B dev} `{UIO : UserIO U} `{UL : !UserLaws U}.
Implicit Types s : fstate B U.

(** C13: linking a name and looking it up.  If the directory has the name,
    [dirlink] refuses with -1 and changes neither the disk nor any reference
    count.  Otherwise it fills the first free entry, or adds one at the end; then
    [dirlookup] of that name takes the inode linked and reports that entry's
    offset, every other name is found where it was, and no other inode changed.
    It fails only if the disk is full, and then the name is still not there. *)
Theorem dirlink_dirlookup s D dp name inum nm T lk :
  let x := i_dinode (f_inode s dp) in
  ready dev dp s D -> is_dir x -> apart name 14 de 16 -> cstrn (f_mem s) name 14 = nm ->
  table_ok dev lk s D -> itable_lock ∉ f_held s -> 0 < nfree (f_inode s) ->
  (forall e, e ∈ dents (d_data D) x -> 0 <= de_inum e < sb_ninodes (f_sb s)) ->
  0 < inum < 2^16 -> di_size x < MAXFILE * BSIZE -> 0 <= i_inum (f_inode s dp) < sb_ninodes (f_sb s) ->
  bmaps (f_sb s) ⊆ T -> IBLOCK (i_inum (f_inode s dp)) (f_sb s) ∈ T -> budget T D 4 ->
  match dir_lookup (d_data D) x nm with
  | Some _ => exists s', dirlink dp name inum s = Ok (-1) s' /\ io_rep (f_io s') D /\
      forall j, refcount (f_inode s') j = refcount (f_inode s) j
  | None => exists r s' D', dirlink dp name inum s = Ok r s' /\ ready dev dp s' D' /\
      (forall nm', nm' <> nm -> dir_lookup (d_data D') (i_dinode (f_inode s' dp)) nm' = dir_lookup (d_data D) x nm') /\
      (forall j, 0 <= j < sb_ninodes (f_sb s) -> j <> i_inum (f_inode s dp) ->
         disk_inode (f_sb s) (d_data D') j = disk_inode (f_sb s) (d_data D) j) /\
      exists y m,
        (r = 0 /\ exists k, first_slot (d_data D) x k /\
           dirlookup dp name s' = (ip ← iget dev inum; mret (ip, 16 * k)) (with_mem y m s')) \/
        (r = -1 /\ (forall c, 0 <= c < sb_size (f_sb s) -> used (f_sb s) (d_data D') c = true) /\
           dirlookup dp name s' = Ok (NULL, 0) (with_mem y m s'))
  end.
Proof.
  intros x Hr Hdir Hap Hnm HT Hh Hf Hents Hin Hsz Hdi HbT HiT Hb.
  destruct (dir_lookup (d_data D) x nm) as [[k e]|] eqn:El.
  - destruct (dirlink_exists dev lk s D dp name inum nm k e Hr Hdir Hap Hnm El HT Hh) as (s' & H1 & R1 & _ & _ & C1 & _); [|done|eauto].
    apply Hents. apply list_find_Some in El as (H1 & _). now apply list_elem_of_lookup_2 in H1.
  - destruct (dirlink_adds dev s D dp name inum nm T Hr Hdir Hap Hnm El Hin Hsz Hdi HbT HiT Hb) as (r & s' & D' & H1 & HK).
    destruct HK as [K1 (m & K2 & K2') K3 K4 _ K5 K6 K7 _]. exists r, s', D'. split; [done|]. split; [done|]. split; [done|]. split.
    { intros j Hj Hne. rewrite K7 by done. now rewrite (proj2 (Z.eqb_neq _ _) Hne). }
    assert (cstrn (f_mem s') name 14 = nm) as Hnm'.
    { rewrite <- Hnm. apply cstrn_frame. intros a Ha. unfold f_mem. rewrite K2, u_mem_set. apply K2'. unfold apart in Hap. lia. }
    destruct (dirlookup_ok dev s' D' dp name nm K3 K4 Hap Hnm') as (y & m' & H2 & _). exists y, m'.
    pose proof (cstrn_nonzero (f_mem s) name 14) as Hz. rewrite Hnm in Hz.
    destruct K5 as [[-> (k & Hk & E)]|(-> & Hfull & E)]; rewrite E in H2; [left|now right]. split; [done|]. exists k. split; [done|].
    rewrite H2. cbn [found]. rewrite (proj1 (new_dent_fields inum nm ltac:(lia) Hz)). destruct Hk as (Hk & _). now rewrite Z2Nat.id by lia.
Qed.
End link.

Section inodes.
Context {B U : Type} `{BIO : BlockIO B} (dev : Z) `{BS : !BlockIOSpec B dev} `{UIO : UserIO U} `{UL : !UserLaws U}.
Implicit Types s : fstate B U.

(** C3: [iput] frees a file.  When the reference dropped is the last one to an
    inode that no directory entry names, [iput] marks free exactly the blocks of
    the file, its indirect block included, clears the inode on disk and empties
    its entry of the table; all other blocks stay in use with their contents, and
    all other inodes on disk and reference counts are as before. *)
Theorem iput_frees_inode s D ip inum T :
  let x := i_dinode (f_inode s ip) in let sb := f_sb s in
  table_ok dev ∅ s D -> entry (f_inode s) inum ip -> ready dev ip s D ->
  i_ref (f_inode s ip) = 1 -> i_valid (f_inode s ip) <> 0 -> di_nlink x = 0 ->
  bmaps sb ⊆ T -> IBLOCK inum sb ∈ T -> budget T D 0 -> itable_lock ∉ f_held s -> inode_spin ip ∉ f_held s ->
  exists s' D', iput ip s = Ok tt s' /\ io_rep (f_io s') D' /\ table_ok dev ∅ s' D' /\ f_held s' = f_held s /\
    (forall c, 0 <= c < sb_size sb -> used sb (d_data D') c = true <-> used sb (d_data D) c = true /\ ~ own_block D x c) /\
    (forall c, datastart sb <= c -> d_data D' c = d_data D c) /\
    (forall j, 0 <= j < sb_ninodes sb -> disk_inode sb (d_data D') j =
       if j =? inum then Dinode 0 (di_major x) (di_minor x) 0 0 (replicate 13 0) else disk_inode sb (d_data D) j) /\
    i_ref (f_inode s' ip) = 0 /\
    (forall j, refcount (f_inode s') j = refcount (f_inode s) j - (if j =? inum then 1 else 0)).
Proof.
  intros x sb HTab He Hr H1 H2 H3 HT HiT Hb Hh Hsp.
  assert (last_ref (f_inode s ip) = true) as Hl.
  { unfold last_ref, i_nlink, truthy. fold x. rewrite H1, H3, (proj2 (Z.eqb_neq _ _) H2). done. }
  destruct (iput_last dev s D ip inum T HTab He Hl Hr HT HiT Hb Hh Hsp) as (s' & D' & E & R & [F1 F2 F3 F4 F5 F6] & T' & _ & Hh' & Hr' & C').
  exists s', D'. do 6 (split; [done|]). split; [|done]. intros j Hj. rewrite F5 by done. destruct (j =? inum); [|done].
  unfold emptied, set_type. cbn. fold x. now rewrite H3.
Qed.

(** [ialloc] takes the first inode from 1 on that is not in use.  On disk
    it becomes an empty inode of the type asked for, every other inode is as it
    was, and its entry of the table gains a reference; 0 is returned only if
    every inode is in use, and then nothing changes. *)
Theorem ialloc_first_free s D type T lk :
  let sb := f_sb s in
  table_ok dev lk s D -> layout sb (d_start D) -> io_rep (f_io s) D -> d_locked D = ∅ -> is_i16 type -> budget T D 1 ->
  (forall inum i, entry (f_inode s) inum i -> i_valid (f_inode s i) <> 0 -> di_type (i_dinode (f_inode s i)) <> 0) ->
  itable_lock ∉ f_held s -> 0 < nfree (f_inode s) ->
  (exists inum ip s' D', ialloc dev type s = Ok ip s' /\ 1 <= inum < sb_ninodes sb /\ di_type (disk_inode sb (d_data D) inum) = 0 /\
     (forall j, 1 <= j < inum -> di_type (disk_inode sb (d_data D) j) <> 0) /\
     io_rep (f_io s') D' /\ table_ok dev lk s' D' /\ entry (f_inode s') inum ip /\
     (forall j, refcount (f_inode s') j = refcount (f_inode s) j + (if j =? inum then 1 else 0)) /\
     (forall j, 0 <= j < sb_ninodes sb -> disk_inode sb (d_data D') j = if j =? inum then new_inode type else disk_inode sb (d_data D) j)) \/
  ((forall j, 1 <= j < sb_ninodes sb -> di_type (disk_inode sb (d_data D) j) <> 0) /\
   exists y, ialloc dev type s = Ok NULL (with_io y s) /\ io_rep y D).
Proof.
  intros sb HTab HL HR Hlk Hty Hb Hv Hh Hf. pose proof (ly_inodes _ _ HL) as [Hni _].
  assert (ialloc dev type s = ialloc_loop (S (Z.to_nat (sb_ninodes sb))) dev 1 type (with_io (f_io s) s)) as -> by (now rewrite with_io_self).
  destruct (ialloc_scan dev s T D type (S (Z.to_nat (sb_ninodes sb))) (f_io s) 1 HL HR Hlk) as [(j & y & Hj & Hz & Hfst & E & R)|[Hall (y & E & R)]];
    [fold sb; lia|intros; lia|fold sb; lia|done| |right; split; [done|now exists y]].
  left. set (D' := d_put _ _ D) in R. fold sb in Hz, Hfst, Hj.
  assert (forall k, 0 <= k < sb_ninodes sb -> disk_inode sb (d_data D') k = if k =? j then new_inode type else disk_inode sb (d_data D) k) as Hd.
  { intros k Hk. apply disk_ialloc; [apply (io_wf _ _ _ HR)|done|lia|lia]. }
  assert (table_ok dev lk (with_io y s) D') as HT'.
  { destruct HTab as [T1 T2 T3 T4 T5]. split; try done. intros inum i Hi Hvi. cbn [f_inode f_sb with_io] in *. rewrite (T4 _ _ Hi Hvi). destruct (T2 _ _ Hi) as [_ Hr]. fold sb in Hr |- *. rewrite Hd by done. destruct (Z.eqb_spec inum j) as [->|]; [|done]. exfalso.
    apply (Hv _ _ Hi Hvi). now rewrite (T4 _ _ Hi Hvi). }
  destruct (iget_ok dev lk (with_io y s) D' j HT' Hh ltac:(change (f_sb (with_io y s)) with sb; lia) ltac:(now left)) as (ip & s' & E' & T' & G').
  exists j, ip, s', D'. split; [now rewrite E|]. split; [lia|]. split; [done|]. split; [done|].
  split; [now rewrite (gn_io _ _ _ _ G')|]. split; [done|]. split; [apply G'|]. split; [apply G'|done].
Qed.
End inodes.

Section paths.
Context {B U : Type} `{BIO : BlockIO B} `{BS : !BlockIOSpec B ROOTDEV} `{UIO : UserIO U} `{UL : !UserLaws U}.
Implicit Types s : fstate B U.

(** C14: [namex] follows a path.  From the root or the current directory it
    looks up the elements of the path, each cut at 14 bytes, one in the directory
    of the other; it returns the inode they lead to, or for [nameiparent] the
    directory that holds the last element with that element in [name], and 0 if
    an element is missing or is looked for in something other than a directory.
    The inode returned has gained one reference and every other count is as
    before, also when the walk fails; no lock is left held, the disk is not
    changed, and of memory only [name] and the local [de]. *)
Theorem namex_resolves s D path l parent name :
  let sb := f_sb s in
  tree_ok sb D -> layout sb (d_start D) -> bitmap_ok sb D -> d_locked D = ∅ ->
  walking ROOTDEV D sb ∅ s -> entry (f_inode s) (i_inum (f_inode s (f_cwd s))) (f_cwd s) ->
  live sb D ROOTINO -> live sb D (i_inum (f_inode s (f_cwd s))) -> 2 <= nfree (f_inode s) ->
  str_at (f_mem s) path l -> Z.of_nat (length l) < MAXPATH -> 0 < path -> apart name 14 de 16 ->
  apart path (Z.of_nat (length l) + 1) name 14 -> apart path (Z.of_nat (length l) + 1) de 16 ->
  exists r s', namex path parent name s = Ok r s' /\ walking ROOTDEV D sb ∅ s' /\ kept name (f_mem s) (f_mem s') /\
    match (if parent then resolve_parent else resolve) sb (d_data D) (start_inum l s) (elems [] l) with
    | None => r = NULL /\ forall j, refcount (f_inode s') j = refcount (f_inode s) j
    | Some i => entry (f_inode s') i r /\
        (forall j, refcount (f_inode s') j = refcount (f_inode s) j + (if j =? i then 1 else 0)) /\
        (parent = true -> exists e, last (elems [] l) = Some e /\ cstrn (f_mem s') name 14 = take 14 e)
    end.
Proof.
  intros sb Htree HL HB Hlk HW Hcwd Hroot Hlive Hf Hs Hl Hp A1 A2 A3.
  destruct (namex_ok s D path l parent name Htree HL HB Hlk HW Hcwd Hroot Hlive Hf Hs Hl Hp A1 A2 A3) as (r & s' & s1 & H1 & U1 & E1 & C1 & [V1 V2 V3 _ V5]).
  exists r, s'. split; [done|]. split; [done|]. split; [unfold f_mem in *; now rewrite U1 in V3|].
  fold (target parent). fold sb in V5. destruct (target parent sb (d_data D) (start_inum l s) (elems [] l)) as [i|].
  - destruct V5 as (G1 & _ & G3 & G4). split; [done|]. split; [|done]. intros j. rewrite G3, C1. lia.
  - destruct V5 as [-> G]. split; [done|]. intros j. rewrite G, C1. lia.
Qed.
End paths.

(** ** A small tree *)

(** The root, inode 1 in block 46, with [etc], inode 2 in block 47, which has
    the file [motd], inode 3. *)
Definition tree_dir (size b : Z) : dinode := Dinode T_DIR 0 0 1 size (b :: replicate 12 0).

Definition pad (es : list (list Z)) : block := concat es ++ replicate (1024 - 16 * length es) 0.

Definition etc : list Z := [101; 116; 99].
Definition motd : list Z := [109; 111; 116; 100].
Definition dot : Z := 46.

Definition tree_inodes : block :=
  put_dinode (ioff 1) (tree_dir 48 46) (put_dinode (ioff 2) (tree_dir 48 47)
    (put_dinode (ioff 3) (Dinode T_FILE 0 0 1 5 (48 :: replicate 12 0)) zeros)).

Definition tree_data : Z -> block := fun b =>
  if b =? 32 then tree_inodes
  else if b =? 45 then replicate 6 255 ++ [1] ++ replicate (Z.to_nat (BSIZE - 7)) 0
  else if b =? 46 then pad [new_dent 1 [dot]; new_dent 1 [dot; dot]; new_dent 2 etc]
  else if b =? 47 then pad [new_dent 2 [dot]; new_dent 1 [dot; dot]; new_dent 3 motd]
  else zeros.

Definition tree_disk : dview := DView tree_data tree_data ∅ ∅ (Z.to_nat MAXOPBLOCKS) 2 [].

(** The path [/etc//motd] at 4096, and the name [x] at 8192. *)
Definition tree_path : list Z := [slash] ++ etc ++ [slash; slash] ++ motd.
Definition tree_mem : memory := wr_bytes (wr_bytes ∅ 4096 tree_path) 8192 [120].

(** The root in entry 0, the other entries free. *)
Definition tree_fs : fstate dview memory :=
  FState tree_disk tree_mem ∅ 1 demo_sb
    (fun i => if i =? 0 then Inode 1 1 1 (Sleeplock 0 "inode" 0) 1 (tree_dir 48 46) else Inode 0 0 0 (Sleeplock 0 "inode" 0) 0 demo_file) 0.

Lemma tree_tree_ok : tree_ok demo_sb tree_disk.
Proof. apply tree_okb_ok. vm_compute. reflexivity. Qed.

Lemma tree_live j : 1 <= j <= 3 -> live demo_sb tree_disk j.
Proof. intros Hj. apply liveb_ok. assert (j = 1 \/ j = 2 \/ j = 3) as [-> |[-> | ->]] by lia; vm_compute; reflexivity. Qed.

Lemma tree_used : forallb (used demo_sb tree_data) (seqZ 0 46) = true.
Proof. vm_compute. reflexivity. Qed.

Lemma tree_bitmap_ok : bitmap_ok demo_sb tree_disk.
Proof.
  split; [|intros c Hc; now apply not_elem_of_empty in Hc]. intros b Hb.
  apply (proj1 (forallb_forall _ _) tree_used b). apply list_elem_of_In, elem_of_seqZ. change (datastart demo_sb) with 46 in Hb. lia.
Qed.

Lemma tree_wf b : WF_block (tree_data b).
Proof. unfold tree_data. repeat case_match; vm_compute; reflexivity. Qed.

Lemma tree_table : table_ok 1 ∅ tree_fs tree_disk.
Proof.
  assert (forall inum i, entry (f_inode tree_fs) inum i -> i = 0 /\ inum = 1) as He.
  { intros inum i (Hi & Hr & <-). cbn in *. destruct (Z.eqb_spec i 0) as [->|]; [done|]. cbn in Hr. lia. }
  split.
  - intros i Hi. cbn. destruct (i =? 0); done.
  - intros inum i [-> ->]%He. done.
  - intros inum i j [-> _]%He [-> _]%He. done.
  - intros inum i [-> ->]%He _. vm_compute. reflexivity.
  - intros i Hi. cbn. rewrite decide_False by set_solver. destruct (i =? 0); done.
Qed.

Lemma tree_rep : ram_rep tree_disk tree_disk.
Proof. split; [done|]. split; [exact tree_wf|]. now right. Qed.

Lemma tree_walking : walking 1 tree_disk demo_sb ∅ tree_fs.
Proof. split; [done|exact tree_rep|exact tree_table|set_solver|set_solver]. Qed.

Lemma namex_resolves_witness :
  exists r s', namex 4096 true 8192 tree_fs = Ok r s' /\ entry (f_inode s') 2 r /\ cstrn (f_mem s') 8192 14 = motd.
Proof.
  destruct (namex_resolves tree_fs tree_disk 4096 tree_path true 8192 tree_tree_ok demo_layout tree_bitmap_ok eq_refl tree_walking)
    as (r & s' & E & _ & _ & H).
  - split; [split; reflexivity || (cbv; discriminate)|]. split; reflexivity.
  - apply (tree_live 1). lia.
  - apply (tree_live 1). lia.
  - vm_compute. discriminate.
  - vm_compute. intuition discriminate.
  - reflexivity.
  - reflexivity.
  - left. vm_compute. discriminate.
  - left. vm_compute. discriminate.
  - left. vm_compute. discriminate.
  - match type of H with match ?t with _ => _ end => assert (t = Some 2) as Ht by (vm_compute; reflexivity) end.
    rewrite Ht in H. destruct H as (H1 & _ & H2). destruct (H2 eq_refl) as (e & Ee & H3). exists r, s'. split; [exact E|]. split; [exact H1|].
    vm_compute in Ee. injection Ee as <-. exact H3.
Defined.

Lemma tree_ready : ready 1 0 tree_fs tree_disk.
Proof.
  split; [exact tree_rep|done|exact demo_layout|exact tree_bitmap_ok|done|].
  exact (tr_file _ _ tree_tree_ok 1 ltac:(cbv; intuition discriminate) ltac:(vm_compute; discriminate)).
Qed.

Definition tree_T : gset Z := {[IBLOCK 1 demo_sb]} ∪ bmaps demo_sb.

Lemma dirlink_dirlookup_witness :
  dir_lookup tree_data (tree_dir 48 46) [120] = None /\ exists r s', dirlink 0 8192 3 tree_fs = Ok r s'.
Proof.
  assert (dir_lookup tree_data (tree_dir 48 46) [120] = None) as Hn by (vm_compute; reflexivity). split; [exact Hn|].
  pose proof (dirlink_dirlookup 1 tree_fs tree_disk 0 8192 3 [120] tree_T ∅ tree_ready) as H. cbn zeta in H.
  change (dir_lookup (d_data tree_disk) (i_dinode (f_inode tree_fs 0)) [120]) with (dir_lookup tree_data (tree_dir 48 46) [120]) in H.
  rewrite Hn in H. destruct H as (r & s' & D' & E & _).
  - split; reflexivity.
  - left. vm_compute. discriminate.
  - vm_compute. reflexivity.
  - exact tree_table.
  - apply not_elem_of_empty.
  - vm_compute. reflexivity.
  - intros e He. assert (forallb (fun e => (0 <=? de_inum e) && (de_inum e <? 200)) (dents tree_data (tree_dir 48 46)) = true) as Hall by (vm_compute; reflexivity).
    pose proof (proj1 (forallb_forall _ _) Hall e (proj1 (list_elem_of_In _ _) He)) as H0. cbn in H0. change (sb_ninodes (f_sb tree_fs)) with 200. lia.
  - split; reflexivity.
  - reflexivity.
  - split; cbv; discriminate || reflexivity.
  - apply union_subseteq_r.
  - apply elem_of_union_l. now apply elem_of_singleton.
  - apply Nat.leb_le. vm_compute. reflexivity.
  - exists r, s'. exact E.
Defined.

Lemma ialloc_first_free_witness :
  exists inum ip s', ialloc 1 T_FILE tree_fs = Ok ip s' /\ entry (f_inode s') inum ip /\ inum = 4.
Proof.
  destruct (ialloc_first_free 1 tree_fs tree_disk T_FILE ∅ ∅ tree_table demo_layout (rd_rep _ _ _ _ tree_ready) eq_refl) as [(inum & ip & s' & D' & E & Hin & Hz & Hf & _ & _ & He & _)|[Hall _]].
  - split; reflexivity || (cbv; discriminate).
  - apply Nat.leb_le. vm_compute. reflexivity.
  - intros inum i (Hi & Hr & _) _. cbn in Hr |- *. destruct (i =? 0); [discriminate|cbn in Hr; lia].
  - apply not_elem_of_empty.
  - vm_compute. reflexivity.
  - exists inum, ip, s'. split; [exact E|]. split; [exact He|]. destruct (Z.lt_trichotomy inum 4) as [Hlt|[->|Hgt]]; [|reflexivity|].
    + assert (inum = 1 \/ inum = 2 \/ inum = 3) as [-> |[-> | ->]] by lia; vm_compute in Hz; discriminate.
    + exfalso. apply (Hf 4); [lia|]. vm_compute. reflexivity.
  - exfalso. apply (Hall 4); [cbn; lia|]. vm_compute. reflexivity.
Defined.

(** The file of the tree without its link, in entry 0. *)
Definition orphan : dinode := Dinode T_FILE 0 0 0 5 (48 :: replicate 12 0).
Definition orphan_data : Z -> block := fun b => if b =? 32 then put_dinode (ioff 3) orphan tree_inodes else tree_data b.
Definition orphan_disk : dview := DView orphan_data orphan_data ∅ ∅ (Z.to_nat MAXOPBLOCKS) 2 [].
Definition orphan_fs : fstate dview memory :=
  FState orphan_disk tree_mem ∅ 1 demo_sb
    (fun i => if i =? 0 then Inode 1 3 1 (Sleeplock 0 "inode" 0) 1 orphan else Inode 0 0 0 (Sleeplock 0 "inode" 0) 0 demo_file) 0.

Lemma orphan_table : table_ok 1 ∅ orphan_fs orphan_disk.
Proof.
  assert (forall inum i, entry (f_inode orphan_fs) inum i -> i = 0 /\ inum = 3) as He.
  { intros inum i (Hi & Hr & <-). cbn in *. destruct (Z.eqb_spec i 0) as [->|]; [done|]. cbn in Hr. lia. }
  split.
  - intros i Hi. cbn. destruct (i =? 0); done.
  - intros inum i [-> ->]%He. done.
  - intros inum i j [-> _]%He [-> _]%He. done.
  - intros inum i [-> ->]%He _. vm_compute. reflexivity.
  - intros i Hi. cbn. rewrite decide_False by set_solver. destruct (i =? 0); done.
Qed.

Lemma orphan_file_ok : file_okb demo_sb orphan_data orphan = true.
Proof. vm_compute. reflexivity. Qed.

Lemma orphan_ready : ready 1 0 orphan_fs orphan_disk.
Proof.
  split; [|done|exact demo_layout| |done|].
  - split; [done|]. split; [|now right]. intros b. cbn. unfold orphan_data. destruct (b =? 32); [vm_compute; reflexivity|apply tree_wf].
  - split; [|intros c Hc; now apply not_elem_of_empty in Hc]. intros b Hb. change (datastart (f_sb orphan_fs)) with 46 in Hb. rewrite <- (proj1 tree_bitmap_ok b Hb). unfold used. cbn. unfold orphan_data.
    rewrite (proj2 (Z.eqb_neq _ 32)); [done|]. pose proof (BBLOCK_range demo_sb 2 b demo_layout ltac:(change (sb_size demo_sb) with 2000; lia)).
    change (sb_bmapstart demo_sb) with 45 in *. lia.
  - pose proof orphan_file_ok as H. apply andb_true_iff in H as [H1 H2]. split; [now apply dinode_okb_ok|]. exact (blocks_okb_ok demo_sb orphan_disk _ _ _ H2).
Qed.

Definition orphan_T : gset Z := {[IBLOCK 3 demo_sb]} ∪ bmaps demo_sb.

Lemma iput_frees_inode_witness :
  own_block orphan_disk orphan 48 /\ exists s' D', iput 0 orphan_fs = Ok tt s' /\ ~ used demo_sb (d_data D') 48 = true /\ ram_rep (f_io s') D'.
Proof.
  assert (own_block orphan_disk orphan 48) as Hown.
  { right. exists 0. split; [split; reflexivity || (cbv; discriminate)|]. split; [vm_compute; reflexivity|discriminate]. }
  split; [exact Hown|].
  destruct (iput_frees_inode 1 orphan_fs orphan_disk 0 3 orphan_T orphan_table) as (s' & D' & E & R & _ & _ & Hu & _).
  - split; [split; reflexivity || (cbv; discriminate)|]. split; reflexivity.
  - exact orphan_ready.
  - reflexivity.
  - discriminate.
  - reflexivity.
  - apply union_subseteq_r.
  - apply elem_of_union_l. now apply elem_of_singleton.
  - apply Nat.leb_le. vm_compute. reflexivity.
  - apply not_elem_of_empty.
  - apply not_elem_of_empty.
  - exists s', D'. split; [exact E|]. split; [|exact R]. intros H. apply (Hu 48) in H; [|cbn; lia]. destruct H as [_ H]. exact (H Hown).
Defined.
