(* ===== verification/Mkfs.v ===== *)
(** * mkfs/mkfs.c

    The program that makes the disk image, run on a little-endian host.  Its
    state is the image file, as a map from block numbers to contents and its
    length in blocks, and the counters [freeinode] and [freeblock].  An [assert]
    that fails and [die] end the program; both are [Panic].  The host's files are
    an argument: for each name on the command line the pieces that [read]
    returns, or [None] where [open] fails. *)

From stdpp Require Import base gmap numbers strings functions list.
From Stdlib Require Import ZifyBool.
From S2P Require Import Prelude Mem Block StringC Bio Log LogSpec BlockIO Fs FsBlocks FsInode FsFile FsIO FsTable FsDir FsPath FsCheck.

Open Scope Z_scope.

Definition NINODES : Z := 200.
Definition FSSIZE : Z := 2000.

Definition nbitmap : Z := FSSIZE / BPB + 1.
Definition ninodeblocks : Z := NINODES / IPB + 1.
Definition nlog : Z := LOGSIZE.

Record mkstate := Mk { mk_img : Z -> block; mk_len : Z; freeinode : Z; freeblock : Z }.

Local Abbreviation K := (M mkstate).

(** The bytes of [x] in the byte order of RISC-V, read back by the host. *)
Definition xshort (x : Z) : Z := le_val [u8 x; u8 (Z.shiftr x 8)].
Definition xint (x : Z) : Z := le_val [u8 x; u8 (Z.shiftr x 8); u8 (Z.shiftr x 16); u8 (Z.shiftr x 24)].

Definition die {A} (s : string) : K A := panic s.
Definition assert (b : bool) : K unit := if b then mret tt else panic "assertion failed".

Definition set_freeblock (b : Z) : K unit := modify (fun m => Mk (mk_img m) (mk_len m) (freeinode m) b).

(** [nmeta], [nblocks] and [sb], as [main] sets them. *)
Definition nmeta : Z := 2 + nlog + ninodeblocks + nbitmap.
Definition nblocks : Z := FSSIZE - nmeta.
Definition mk_sb : superblock :=
  SB FSMAGIC (xint FSSIZE) (xint nblocks) (xint NINODES) (xint nlog) (xint 2) (xint (2 + nlog)) (xint (2 + nlog + ninodeblocks)).

Definition wsect (sec : Z) (buf : block) : K unit :=
  modify (fun m => Mk (<[sec := buf]> (mk_img m)) (Z.max (mk_len m) (sec + 1)) (freeinode m) (freeblock m)).

Definition rsect (sec : Z) : K block :=
  m ← gets id;
  if sec <? mk_len m then mret (mk_img m sec) else die "read".

Definition winode (inum : Z) (ip : dinode) : K unit :=
  let bn := IBLOCK inum mk_sb in
  buf ← rsect bn;
  wsect bn (put_dinode (ioff inum) ip buf).

Definition rinode (inum : Z) : K dinode :=
  let bn := IBLOCK inum mk_sb in
  buf ← rsect bn;
  mret (get_dinode (ioff inum) buf).

Definition ialloc (type : Z) : K Z :=
  inum ← gets freeinode;
  modify (fun m => Mk (mk_img m) (mk_len m) (freeinode m + 1) (freeblock m));;
  winode inum (Dinode (xshort type) 0 0 (xshort 1) (xint 0) (replicate 13 0));;
  mret inum.

(** [buf[i/8] = buf[i/8] | (0x1 << (i%8))] for the [k] bits from [i]. *)
Fixpoint balloc_bits (k : nat) (i : Z) (buf : block) : block :=
  match k with
  | O => buf
  | S k' => balloc_bits k' (i + 1) (put8 (i / 8) (Z.lor (get8 (i / 8) buf) (Z.shiftl 1 (i mod 8))) buf)
  end.

Definition balloc (used : Z) : K unit :=
  assert (used <? BPB);;
  wsect (sb_bmapstart mk_sb) (balloc_bits (Z.to_nat used) 0 zeros).

(** The block [x] for block [fbn] of the file, allocated if need be, and the
    inode with it. *)
Definition iappend_block (din : dinode) (fbn : Z) : K (dinode * Z) :=
  if fbn <? NDIRECT then
    din ← (if xint (addr din fbn) =? 0 then
             b ← gets freeblock;
             set_freeblock (b + 1);;
             mret (set_addr fbn (xint b) din)
           else mret din);
    mret (din, xint (addr din fbn))
  else
    din ← (if xint (addr din NDIRECT) =? 0 then
             b ← gets freeblock;
             set_freeblock (b + 1);;
             mret (set_addr NDIRECT (xint b) din)
           else mret din);
    indirect ← rsect (xint (addr din NDIRECT));
    let i := 4 * (fbn - NDIRECT) in
    indirect ← (if get32 i indirect =? 0 then
                  b ← gets freeblock;
                  set_freeblock (b + 1);;
                  let indirect := put32 i (xint b) indirect in
                  wsect (xint (addr din NDIRECT)) indirect;;
                  mret indirect
                else mret indirect);
    mret (din, xint (get32 i indirect)).

(** The loop of [iappend]: the bytes [p] are left, [n] of them. *)
Fixpoint iappend_loop (fuel : nat) (din : dinode) (off : Z) (p : list Z) : K (dinode * Z) :=
  match fuel with
  | O => diverge
  | S fuel' =>
      let n := Z.of_nat (length p) in
      if 0 <? n then
        let fbn := off / BSIZE in
        assert (fbn <? MAXFILE);;
        r ← iappend_block din fbn;
        let '(din, x) := r in
        let n1 := Z.min n ((fbn + 1) * BSIZE - off) in
        buf ← rsect x;
        wsect x (splice (off - fbn * BSIZE) (take (Z.to_nat n1) p) buf);;
        iappend_loop fuel' din (off + n1) (drop (Z.to_nat n1) p)
      else mret (din, off)
  end.

(** The bytes [xp] are [n] in number. *)
Definition iappend (inum : Z) (xp : list Z) : K unit :=
  din ← rinode inum;
  let off := xint (di_size din) in
  r ← iappend_loop (S (length xp)) din off xp;
  let '(din, off) := r in
  winode inum (set_size (xint off) din).

(** [struct dirent] *)
Definition mk_dent (inum : Z) (name : list Z) : list Z := le_bytes 2 (xshort inum) ++ name ++ replicate (14 - length name) 0.

Definition user_prefix : list Z := [117; 115; 101; 114; 47].
Definition underscore : Z := 95.

(** The name without [user/], and then without a leading underscore. *)
Definition strip_user (name : list Z) : list Z := if decide (take 5 name = user_prefix) then drop 5 name else name.
Definition strip_underscore (name : list Z) : list Z :=
  match name with
  | c :: name' => if c =? underscore then name' else name
  | [] => []
  end.

Fixpoint append_all (inum : Z) (pieces : list (list Z)) : K unit :=
  match pieces with
  | [] => mret tt
  | buf :: pieces' => iappend inum buf;; append_all inum pieces'
  end.

(** One round of the loop over the arguments. *)
Definition add_file (rootino : Z) (f : list Z * option (list (list Z))) : K unit :=
  let shortname := strip_user f.1 in
  assert (bool_decide (slash ∉ shortname));;
  match f.2 with
  | None => die "open"
  | Some pieces =>
      let shortname := strip_underscore shortname in
      assert (Z.of_nat (length shortname) <=? DIRSIZ);;
      inum ← ialloc T_FILE;
      iappend rootino (mk_dent inum shortname);;
      append_all inum pieces
  end.

Fixpoint add_files (rootino : Z) (files : list (list Z * option (list (list Z)))) : K unit :=
  match files with
  | [] => mret tt
  | f :: files' => add_file rootino f;; add_files rootino files'
  end.

(** [buf] with [sb] at its start. *)
Definition sb_bytes (sb : superblock) : block :=
  put32 28 (sb_bmapstart sb) (put32 24 (sb_inodestart sb) (put32 20 (sb_logstart sb) (put32 16 (sb_nlog sb)
    (put32 12 (sb_ninodes sb) (put32 8 (sb_nblocks sb) (put32 4 (sb_size sb) (put32 0 (sb_magic sb) zeros))))))).

(** [main] once the image file is open. *)
Definition make_fs (files : list (list Z * option (list (list Z)))) : K unit :=
  set_freeblock nmeta;;
  for_loop (Z.to_nat FSSIZE) 0 (fun i => wsect i zeros);;
  wsect 1 (sb_bytes mk_sb);;
  rootino ← ialloc T_DIR;
  assert (rootino =? ROOTINO);;
  iappend rootino (mk_dent rootino [46]);;
  iappend rootino (mk_dent rootino [46; 46]);;
  add_files rootino files;;
  din ← rinode rootino;
  let off := xint (di_size din) in
  let off := (off / BSIZE + 1) * BSIZE in
  winode rootino (set_size (xint off) din);;
  b ← gets freeblock;
  balloc b.

(** [image] is [argv[1]]: [None] if there is none, otherwise whether it can be
    opened; [files] are the arguments that follow. *)
Definition main (image : option bool) (files : list (list Z * option (list (list Z)))) : K unit :=
  match image with
  | None => die "Usage: mkfs fs.img files..."
  | Some opened =>
      assert (BSIZE mod 64 =? 0);;
      assert (BSIZE mod 16 =? 0);;
      if (opened : bool) then make_fs files else die "open"
  end.

(** The state in which [main] starts. *)
Definition mk_start : mkstate := Mk (fun _ => zeros) 0 1 0.
