(* ===== verification/MkfsSpec.v ===== *)
(** * mkfs/mkfs.c: the image while it grows

    The blocks of the files that have been made so far, whom each block belongs
    to, and the bytes of the files; [iappend] adds bytes at the end of one. *)

From stdpp Require Import base gmap numbers strings functions list.
From Stdlib Require Import ZifyBool.
From S2P Require Import Prelude Mem Block StringC Bio Log LogSpec BlockIO Fs FsBlocks FsInode FsFile FsIO FsTable FsDir FsPath FsCheck Mkfs.

Open Scope Z_scope.

Lemma mk_consts : nmeta = 46 /\ FSSIZE = 2000 /\ NINODES = 200 /\ MAXFILE = 268 /\ NINDIRECT = 256 /\ NDIRECT = 12 /\ BSIZE = 1024.
Proof. done. Qed.

Lemma xint_id x : is_u32 x -> xint x = x.
Proof.
  unfold is_u32, xint, u8. intros H. rewrite !Z.shiftr_div_pow2 by lia. cbn [le_val]. change (2^8) with 256. change (2^16) with 65536. change (2^24) with 16777216.
  dlia.
Qed.

Lemma xshort_id x : 0 <= x < 2^16 -> xshort x = x.
Proof. unfold xshort, u8. intros H. rewrite !Z.shiftr_div_pow2 by lia. cbn [le_val]. change (2^8) with 256. dlia. Qed.

(** A view of the image as a disk. *)
Definition view (img : Z -> block) : dview := DView img img ∅ ∅ (Z.to_nat MAXOPBLOCKS) 2 [].

(** The blocks that a file with [k] data blocks takes, and those that [n] bytes need. *)
Definition cost (k : Z) : Z := k + (if NDIRECT <? k then 1 else 0).
Definition blocks (n : Z) : Z := (n + BSIZE - 1) / BSIZE.

(** The inodes [X] made so far, with [nb] data blocks each; [who] tells the file
    and the place in it of every block taken, -1 for an indirect block. *)
Record img_ok (X : Z -> dinode) (nb : Z -> Z) (who : Z -> option (Z * Z)) (m : mkstate) : Prop := ImgOk {
  im_len : mk_len m = FSSIZE;
  im_inodes : 1 <= freeinode m;
  im_cost : freeblock m = nmeta + zsum (fun j => cost (nb j)) (seqZ 1 (freeinode m - 1));
  im_first : nmeta <= freeblock m <= FSSIZE;
  im_wf b : WF_block (mk_img m b);
  im_free b : freeblock m <= b -> mk_img m b = zeros;
  im_dinode j : 1 <= j < freeinode m -> dinode_ok (X j);
  im_nb j : 1 <= j < freeinode m -> 0 <= nb j <= MAXFILE;
  im_addr j bn : 1 <= j < freeinode m -> 0 <= bn < MAXFILE -> file_addr (mk_img m) (X j) bn <> 0 <-> bn < nb j;
  im_ind j : 1 <= j < freeinode m -> addr (X j) NDIRECT <> 0 <-> NDIRECT < nb j;
  im_own j bn : 1 <= j < freeinode m -> 0 <= bn < nb j -> let b := file_addr (mk_img m) (X j) bn in
    nmeta <= b < freeblock m /\ who b = Some (j, bn);
  im_own_ind j : 1 <= j < freeinode m -> NDIRECT < nb j -> let b := addr (X j) NDIRECT in
    nmeta <= b < freeblock m /\ who b = Some (j, -1);
}.

(** The file of inode [x] gets block [fbn], and an indirect block if it is the
    first beyond the direct ones: the inode becomes [x']. *)
Record grown (fbn : Z) (x x' : dinode) (m m' : mkstate) : Prop := Grown {
  gr_inode : freeinode m' = freeinode m;
  gr_len : mk_len m' = mk_len m;
  gr_block : freeblock m' = freeblock m + (if fbn =? NDIRECT then 2 else 1);
  gr_fields : exists a, x' = Dinode (di_type x) (di_major x) (di_minor x) (di_nlink x) (di_size x) a;
  gr_dinode : dinode_ok x';
  gr_ind : addr x' NDIRECT = if fbn =? NDIRECT then freeblock m else addr x NDIRECT;
  gr_img c : c < freeblock m -> c <> addr x' NDIRECT \/ c < nmeta -> mk_img m' c = mk_img m c;
  gr_wf c : WF_block (mk_img m' c);
  gr_zero c : freeblock m' - 1 <= c -> mk_img m' c = zeros;
  gr_addr bn : 0 <= bn < MAXFILE -> file_addr (mk_img m') x' bn = if bn =? fbn then freeblock m' - 1 else file_addr (mk_img m) x bn;
}.

(** The owners of the blocks then. *)
Definition owner (who : Z -> option (Z * Z)) (j fbn first last : Z) (c : Z) : option (Z * Z) :=
  if c =? last then Some (j, fbn) else if c =? first then Some (j, -1) else who c.

Section grow.
Context (X : Z -> dinode) (nb : Z -> Z) (who : Z -> option (Z * Z)) (m m' : mkstate) (j : Z) (x' : dinode).
Context (HI : img_ok X nb who m) (Hj : 1 <= j < freeinode m) (Hn : nb j < MAXFILE).
Context (HG : grown (nb j) (X j) x' m m') (Hfit : freeblock m' <= FSSIZE).

Lemma grow_more : freeblock m < freeblock m'.
Proof. rewrite (gr_block _ _ _ _ _ HG). destruct (_ =? _); lia. Qed.

Lemma grow_img i bn : 1 <= i < freeinode m -> -1 <= bn -> (i <> j \/ 0 <= bn) -> forall c, nmeta <= c < freeblock m -> who c = Some (i, bn) ->
  mk_img m' c = mk_img m c.
Proof.
  intros Hi Hbn Hne c Hc Hw. apply HG; [lia|]. left. rewrite (gr_ind _ _ _ _ _ HG). destruct (nb j =? NDIRECT); [lia|]. intros ->.
  destruct mk_consts as (K1 & _). assert (NDIRECT < nb j) as Hnj by (apply (im_ind _ _ _ _ HI j Hj); lia).
  destruct (im_own_ind _ _ _ _ HI j Hj Hnj) as [_ Hwj]. rewrite Hw in Hwj. injection Hwj as -> ->. lia.
Qed.

Lemma grow_same i bn : 1 <= i < freeinode m -> i <> j -> 0 <= bn < MAXFILE -> file_addr (mk_img m') (X i) bn = file_addr (mk_img m) (X i) bn.
Proof.
  intros Hi Hne Hbn. unfold file_addr. destruct (bn <? NDIRECT); [done|]. destruct (Z.eqb_spec (addr (X i) NDIRECT) 0) as [|Hz]; [done|].
  destruct (im_own_ind _ _ _ _ HI i Hi ltac:(now apply (im_ind _ _ _ _ HI))) as [Hr Hw].
  rewrite (grow_img i (-1)); [done|done|lia|now left|done|done].
Qed.

Lemma grow_who c : c < freeblock m -> owner who j (nb j) (freeblock m) (freeblock m' - 1) c = who c.
Proof. pose proof grow_more. intros Hc. unfold owner. now rewrite (proj2 (Z.eqb_neq c _)), (proj2 (Z.eqb_neq c _)) by lia. Qed.

Lemma cost_succ k : cost (k + 1) = cost k + (if k =? NDIRECT then 2 else 1).
Proof. unfold cost. destruct (Z.eqb_spec k NDIRECT), (Z.ltb_spec NDIRECT k), (Z.ltb_spec NDIRECT (k + 1)); lia. Qed.

Lemma img_ok_grow : img_ok (<[j := x']> X) (<[j := nb j + 1]> nb) (owner who j (nb j) (freeblock m) (freeblock m' - 1)) m'.
Proof.
  destruct mk_consts as (K1 & K2 & K3 & K4 & K5 & K6 & K7). pose proof HI as [I1 I2 I3 I4 I5 I6 I7 I8 I9 I10 I11 I12].
  pose proof HG as [G1 G2 G3 G4 G5 G6 G7 G8 G9 G10]. pose proof grow_more as Hlt. pose proof (I8 j Hj) as Hj0.
  split; rewrite ?G1, ?G2; try done.
  - rewrite (zsum_change _ (fun i => cost (nb i)) _ j); [|apply NoDup_seqZ|apply elem_of_seqZ; lia|intros i Hi; now rewrite fn_lookup_insert_ne].
    rewrite fn_lookup_insert, cost_succ. lia.
  - lia.
  - intros c Hc. apply G9. lia.
  - intros i Hi. destruct (Z.eq_dec i j) as [->|]; [now rewrite fn_lookup_insert|rewrite fn_lookup_insert_ne by done; auto].
  - intros i Hi. destruct (Z.eq_dec i j) as [->|]; [rewrite fn_lookup_insert; lia|rewrite fn_lookup_insert_ne by done; auto].
  - intros i bn Hi Hbn. destruct (Z.eq_dec i j) as [->|Hne]; [|rewrite !fn_lookup_insert_ne, grow_same by done; auto].
    rewrite !fn_lookup_insert, G10 by done. destruct (Z.eqb_spec bn (nb j)) as [->|Hne]; [lia|]. rewrite I9 by done. lia.
  - intros i Hi. destruct (Z.eq_dec i j) as [->|Hne]; [|rewrite !fn_lookup_insert_ne by done; auto].
    rewrite !fn_lookup_insert, G6. destruct (Z.eqb_spec (nb j) NDIRECT); [lia|]. rewrite I10 by done. lia.
  - intros i bn Hi Hbn. cbv zeta. destruct (Z.eq_dec i j) as [->|Hne].
    + rewrite fn_lookup_insert in Hbn. rewrite fn_lookup_insert, G10 by lia. destruct (Z.eqb_spec bn (nb j)) as [->|Hne]; [unfold owner; rewrite Z.eqb_refl; split; [lia|done]|].
      destruct (I11 j bn Hj) as [H1 H2]; [lia|]. rewrite grow_who by lia. split; [lia|done].
    + rewrite fn_lookup_insert_ne in Hbn by done. rewrite fn_lookup_insert_ne by done. pose proof (I8 i Hi). rewrite grow_same by (lia || done).
      destruct (I11 i bn Hi Hbn) as [H1 H2]. rewrite grow_who by lia. split; [lia|done].
  - intros i Hi Hni. cbv zeta. destruct (Z.eq_dec i j) as [->|Hne].
    + rewrite fn_lookup_insert in Hni. rewrite fn_lookup_insert, G6. destruct (Z.eqb_spec (nb j) NDIRECT) as [E|E].
      * split; [lia|]. unfold owner. now rewrite (proj2 (Z.eqb_neq _ _)), Z.eqb_refl by lia.
      * destruct (I12 j Hj) as [H1 H2]; [lia|]. rewrite grow_who by lia. split; [lia|done].
    + rewrite fn_lookup_insert_ne in Hni by done. rewrite fn_lookup_insert_ne by done. destruct (I12 i Hi Hni) as [H1 H2]. rewrite grow_who by lia. split; [lia|done].
Qed.

(** The bytes there were stay, and those of the new block are 0. *)
Lemma grow_old i k : 1 <= i < freeinode m -> 0 <= k < nb i * BSIZE -> fbyte (mk_img m') ((<[j := x']> X : Z -> dinode) i) k = fbyte (mk_img m) (X i) k.
Proof.
  intros Hi Hk. pose proof (im_nb _ _ _ _ HI i Hi). assert (0 <= k / BSIZE < nb i) as Hb by (unfold BSIZE in *; dlia). unfold fbyte.
  destruct (im_own _ _ _ _ HI i (k / BSIZE) Hi Hb) as [H1 H2].
  assert (file_addr (mk_img m') ((<[j := x']> X : Z -> dinode) i) (k / BSIZE) = file_addr (mk_img m) (X i) (k / BSIZE)) as ->.
  { destruct (Z.eq_dec i j) as [->|Hne]; [|rewrite fn_lookup_insert_ne by done; apply grow_same; done || lia].
    rewrite fn_lookup_insert, (gr_addr _ _ _ _ _ HG) by lia. now rewrite (proj2 (Z.eqb_neq _ _)) by lia. }
  now rewrite (grow_img i (k / BSIZE)) by (done || lia).
Qed.

Lemma grow_new k : nb j * BSIZE <= k < (nb j + 1) * BSIZE -> fbyte (mk_img m') x' k = 0.
Proof.
  intros Hk. pose proof (im_nb _ _ _ _ HI j Hj). unfold fbyte. assert (k / BSIZE = nb j) as -> by (unfold BSIZE in *; dlia).
  rewrite (gr_addr _ _ _ _ _ HG), Z.eqb_refl, (gr_zero _ _ _ _ _ HG) by lia. pose proof (Z.mod_pos_bound k BSIZE ltac:(done)).
  unfold get8, zeros. now rewrite lookup_replicate_2 by lia.
Qed.
End grow.

Lemma rsect_ok sec m : sec < mk_len m -> rsect sec m = Ok (mk_img m sec) m.
Proof. intros H. unfold rsect. erewrite bind_ok by reflexivity. unfold id. now rewrite (proj2 (Z.ltb_lt _ _) H). Qed.

Lemma small_u32 a : 0 <= a <= FSSIZE -> is_u32 a.
Proof. unfold is_u32, FSSIZE. lia. Qed.

Section block.
Context (X : Z -> dinode) (nb : Z -> Z) (who : Z -> option (Z * Z)) (m : mkstate) (j : Z).
Context (HI : img_ok X nb who m) (Hj : 1 <= j < freeinode m).

Lemma ind_small : 0 <= addr (X j) NDIRECT < FSSIZE.
Proof.
  destruct mk_consts as (K1 & K2 & _). pose proof (im_first _ _ _ _ HI). destruct (Z.eq_dec (addr (X j) NDIRECT) 0) as [->|Hne]; [lia|].
  destruct (im_own_ind _ _ _ _ HI j Hj ltac:(now apply (im_ind _ _ _ _ HI))). lia.
Qed.

Lemma addr_small bn : 0 <= bn < MAXFILE -> 0 <= file_addr (mk_img m) (X j) bn < FSSIZE.
Proof.
  intros Hbn. destruct mk_consts as (K1 & K2 & _). pose proof (im_first _ _ _ _ HI). destruct (Z.eq_dec (file_addr (mk_img m) (X j) bn) 0) as [->|Hne]; [lia|].
  destruct (im_own _ _ _ _ HI j bn Hj); [apply (im_addr _ _ _ _ HI) in Hne; lia|]. lia.
Qed.

(** A block that the file has. *)
Lemma iappend_block_old bn : 0 <= bn < nb j -> iappend_block (X j) bn m = Ok (X j, file_addr (mk_img m) (X j) bn) m.
Proof.
  intros Hbn. pose proof (im_nb _ _ _ _ HI j Hj) as Hnb. pose proof (addr_small bn ltac:(lia)) as Hs. pose proof ind_small as Hi.
  assert (file_addr (mk_img m) (X j) bn <> 0) as Hne by (apply (im_addr _ _ _ _ HI); lia).
  unfold iappend_block, file_addr in *. destruct (Z.ltb_spec bn NDIRECT) as [Hlt|Hge].
  - rewrite xint_id by (apply small_u32; lia). rewrite (proj2 (Z.eqb_neq _ _) Hne). erewrite bind_ok by reflexivity.
    now rewrite xint_id by (apply small_u32; lia).
  - destruct (Z.eqb_spec (addr (X j) NDIRECT) 0) as [|Hn0]; [done|]. rewrite !xint_id by (apply small_u32; lia).
    rewrite (proj2 (Z.eqb_neq _ _) Hn0). erewrite bind_ok by reflexivity.
    rewrite xint_id by (apply small_u32; lia). erewrite bind_ok by (apply rsect_ok; rewrite (im_len _ _ _ _ HI); lia). cbn zeta.
    rewrite (proj2 (Z.eqb_neq _ _) Hne). erewrite bind_ok by reflexivity. now rewrite xint_id by (apply small_u32; lia).
Qed.

Lemma next_zero : nb j < MAXFILE -> file_addr (mk_img m) (X j) (nb j) = 0.
Proof.
  intros Hn. pose proof (im_nb _ _ _ _ HI j Hj). destruct (Z.eq_dec (file_addr (mk_img m) (X j) (nb j)) 0) as [|H0]; [done|].
  apply (im_addr _ _ _ _ HI) in H0; lia.
Qed.

(** The next block of a file, direct. *)
Lemma iappend_block_direct : nb j < NDIRECT -> freeblock m < FSSIZE ->
  exists x' m', iappend_block (X j) (nb j) m = Ok (x', freeblock m' - 1) m' /\ grown (nb j) (X j) x' m m' /\ freeblock m' = freeblock m + 1.
Proof.
  intros Hn Hf. destruct mk_consts as (K1 & K2 & K3 & K4 & K5 & K6 & K7). pose proof (im_nb _ _ _ _ HI j Hj) as Hnb.
  pose proof (im_first _ _ _ _ HI) as HF. pose proof (next_zero ltac:(lia)) as E0. pose proof (im_dinode _ _ _ _ HI j Hj) as Hx.
  unfold file_addr in E0. rewrite (proj2 (Z.ltb_lt _ _) Hn) in E0.
  unfold iappend_block. rewrite (proj2 (Z.ltb_lt _ _) Hn), E0. change (xint 0 =? 0) with true. cbn iota.
  erewrite bind_ok by reflexivity. assert (addr (set_addr (nb j) (xint (freeblock m)) (X j)) (nb j) = freeblock m) as Ea.
  { rewrite addr_set, Z.eqb_refl by (apply Hx || lia). apply xint_id, small_u32. lia. }
  rewrite Ea, xint_id in * by (apply small_u32; lia). eexists _, _. split; [unfold mret, M_ret; do 2 f_equal; cbn; lia|].
  assert (addr (set_addr (nb j) (freeblock m) (X j)) NDIRECT = addr (X j) NDIRECT) as Ei.
  { rewrite addr_set by (apply Hx || lia). now rewrite (proj2 (Z.eqb_neq NDIRECT (nb j))) by lia. }
  split; [|done]. split; cbn [freeinode mk_len freeblock mk_img]; rewrite ?Ei, ?(proj2 (Z.eqb_neq (nb j) NDIRECT)) by lia; try done.
  - now eexists.
  - apply dinode_set_addr; [done|apply small_u32; lia].
  - apply HI.
  - intros c Hc. apply HI. lia.
  - intros bn Hbn. unfold file_addr. rewrite Ei, addr_set by (apply Hx || lia).
    replace (freeblock m + 1 - 1) with (freeblock m) by lia. destruct (Z.ltb_spec bn NDIRECT); [done|]. now rewrite (proj2 (Z.eqb_neq bn (nb j))) by lia.
Qed.

(** The next block of a file that has its indirect block, or gets it now: the
    inode [x1] and the counter are those after that. *)
Lemma iappend_block_ind : NDIRECT <= nb j < MAXFILE -> freeblock m + (if nb j =? NDIRECT then 2 else 1) <= FSSIZE ->
  let x1 := if nb j =? NDIRECT then set_addr NDIRECT (freeblock m) (X j) else X j in
  let b := freeblock m + (if nb j =? NDIRECT then 1 else 0) in
  let i := addr x1 NDIRECT in
  iappend_block (X j) (nb j) m =
    Ok (x1, b) (Mk (<[i := put32 (4 * (nb j - NDIRECT)) b (mk_img m i)]> (mk_img m)) (mk_len m) (freeinode m) (b + 1)).
Proof.
  intros Hn Hf x1 b i. destruct mk_consts as (K1 & K2 & K3 & K4 & K5 & K6 & K7). pose proof (im_first _ _ _ _ HI) as HF.
  pose proof (im_dinode _ _ _ _ HI j Hj) as Hx. pose proof (next_zero ltac:(lia)) as E0. pose proof ind_small as Hi0. pose proof (im_ind _ _ _ _ HI j Hj) as Hiff.
  unfold iappend_block. rewrite (proj2 (Z.ltb_ge (nb j) NDIRECT)) by lia. rewrite xint_id by (apply small_u32; lia).
  unfold file_addr in E0. rewrite (proj2 (Z.ltb_ge (nb j) NDIRECT)) in E0 by lia.
  assert (0 < i < FSSIZE /\ get32 (4 * (nb j - NDIRECT)) (mk_img m i) = 0 /\
    (if addr (X j) NDIRECT =? 0 then b0 ← gets freeblock; set_freeblock (b0 + 1);; mret (set_addr NDIRECT (xint b0) (X j)) else mret (X j)) m =
      Ok x1 (Mk (mk_img m) (mk_len m) (freeinode m) b)) as (Hi & E1 & H1).
  { unfold i, x1, b in *. destruct (Z.eqb_spec (nb j) NDIRECT) as [E|E].
    - assert (addr (X j) NDIRECT = 0) as -> by (destruct (Z.eq_dec (addr (X j) NDIRECT) 0); [done|lia]).
      rewrite addr_set, Z.eqb_refl by (apply Hx || lia). split; [lia|]. split; [rewrite (im_free _ _ _ _ HI) by lia; apply get32_zeros; lia|].
      transitivity (Ok (set_addr NDIRECT (xint (freeblock m)) (X j)) (Mk (mk_img m) (mk_len m) (freeinode m) (freeblock m + 1))); [reflexivity|].
      now rewrite xint_id by (apply small_u32; lia).
    - assert (addr (X j) NDIRECT <> 0) as Hne by (apply Hiff; lia). rewrite (proj2 (Z.eqb_neq _ _) Hne) in *. split; [lia|]. split; [done|].
      rewrite Z.add_0_r. now destruct m. }
  rewrite (bind_ok _ _ _ _ _ H1). fold i. rewrite !xint_id by (apply small_u32; lia).
  erewrite bind_ok by (apply rsect_ok; cbn; rewrite (im_len _ _ _ _ HI); lia). cbn [mk_img]. cbn zeta. rewrite E1. change (0 =? 0) with true. cbn iota.
  erewrite bind_ok by reflexivity. cbn [freeblock set_freeblock modify mk_img mk_len freeinode]. unfold mret, M_ret.
  assert (xint b = b) as -> by (apply xint_id, small_u32; unfold b; destruct (nb j =? NDIRECT); lia).
  pose proof (im_wf _ _ _ _ HI i) as HW. unfold WF_block in HW.
  rewrite get32_put32 by lia. rewrite u32_small by (apply small_u32; unfold b; destruct (nb j =? NDIRECT); lia).
  rewrite xint_id by (apply small_u32; unfold b; destruct (nb j =? NDIRECT); lia). do 2 f_equal. rewrite (im_len _ _ _ _ HI). lia.
Qed.

Lemma grown_ind : NDIRECT <= nb j < MAXFILE -> freeblock m + (if nb j =? NDIRECT then 2 else 1) <= FSSIZE ->
  let x1 := if nb j =? NDIRECT then set_addr NDIRECT (freeblock m) (X j) else X j in
  let b := freeblock m + (if nb j =? NDIRECT then 1 else 0) in
  let i := addr x1 NDIRECT in
  grown (nb j) (X j) x1 m (Mk (<[i := put32 (4 * (nb j - NDIRECT)) b (mk_img m i)]> (mk_img m)) (mk_len m) (freeinode m) (b + 1)).
Proof.
  intros Hn Hf x1 b i. destruct mk_consts as (K1 & K2 & K3 & K4 & K5 & K6 & K7). pose proof (im_first _ _ _ _ HI) as HF.
  pose proof (im_dinode _ _ _ _ HI j Hj) as Hx. pose proof (im_ind _ _ _ _ HI j Hj) as Hiff. pose proof (im_wf _ _ _ _ HI) as HW.
  assert (i = if nb j =? NDIRECT then freeblock m else addr (X j) NDIRECT) as Ei.
  { unfold i, x1. destruct (nb j =? NDIRECT); [|done]. now rewrite addr_set, Z.eqb_refl by (apply Hx || lia). }
  assert (nmeta <= i /\ i < b /\ b <= freeblock m + 1) as (Hi & Hib & Hb).
  { rewrite Ei. unfold b. destruct (Z.eqb_spec (nb j) NDIRECT); [lia|]. destruct (im_own_ind _ _ _ _ HI j Hj); lia. }
  assert (forall bn, 0 <= bn < MAXFILE -> file_addr (mk_img m) x1 bn = file_addr (mk_img m) (X j) bn) as E1.
  { intros bn Hbn. unfold x1 in *. destruct (Z.eqb_spec (nb j) NDIRECT) as [E|E]; [|done].
    refine (new_ind_addr (view (mk_img m)) (view (mk_img m)) (X j) (freeblock m) bn _ _ _ Hbn); [apply Hx| |apply HI; lia].
    destruct (Z.eq_dec (addr (X j) NDIRECT) 0); [done|lia]. }
  pose proof (HW i) as HWi. split; cbn [freeinode mk_len freeblock mk_img]; try done.
  - unfold b. destruct (nb j =? NDIRECT); lia.
  - unfold x1. destruct (nb j =? NDIRECT); [now eexists|]. exists (di_addrs (X j)). now destruct (X j).
  - unfold x1. destruct (nb j =? NDIRECT); [|done]. apply dinode_set_addr; [done|apply small_u32; lia].
  - fold i. intros c Hc Hd. rewrite fn_lookup_insert_ne by lia. done.
  - intros c. destruct (Z.eq_dec c i) as [->|]; [|rewrite fn_lookup_insert_ne by done; auto]. rewrite fn_lookup_insert. unfold WF_block in *.
    rewrite length_put32; lia.
  - intros c Hc. rewrite fn_lookup_insert_ne by lia. apply HI. unfold b in *. destruct (nb j =? NDIRECT); lia.
  - intros bn Hbn. replace (b + 1 - 1) with b by lia. rewrite <- E1 by done.
    apply (entry_addr (view (mk_img m)) x1 (nb j) b bn); fold i; [lia|apply HW|apply small_u32; destruct (nb j =? NDIRECT); lia|lia|done].
Qed.

(** The next block of a file. *)
Lemma iappend_block_new : nb j < MAXFILE -> freeblock m + (if nb j =? NDIRECT then 2 else 1) <= FSSIZE ->
  exists x' m', iappend_block (X j) (nb j) m = Ok (x', freeblock m' - 1) m' /\ grown (nb j) (X j) x' m m' /\ freeblock m' <= FSSIZE.
Proof.
  intros Hn Hf. destruct (Z_lt_le_dec (nb j) NDIRECT) as [Hlt|Hge].
  - rewrite (proj2 (Z.eqb_neq (nb j) NDIRECT)) in Hf by lia. destruct (iappend_block_direct Hlt ltac:(lia)) as (x' & m' & H1 & H2 & H3).
    exists x', m'. split; [done|]. split; [done|lia].
  - eexists _, _. split; [rewrite iappend_block_ind by (done || lia); do 2 f_equal; cbn; lia|]. split; [now apply grown_ind|]. cbn. destruct (nb j =? NDIRECT); lia.
Qed.
End block.

(** ** The bytes of the files *)

Definition flen (l : list Z) : Z := Z.of_nat (length l).

(** The files have the contents [C], and just the blocks for them. *)
Record files_ok (X : Z -> dinode) (who : Z -> option (Z * Z)) (C : Z -> list Z) (m : mkstate) : Prop := FilesOk {
  fl_img : img_ok X (fun i => blocks (flen (C i))) who m;
  fl_byte i k : 1 <= i < freeinode m -> 0 <= k < blocks (flen (C i)) * BSIZE -> fbyte (mk_img m) (X i) k = default 0 (C i !! Z.to_nat k);
}.

Lemma img_ok_ext X X' nb nb' who m :
  (forall i, 1 <= i < freeinode m -> X' i = X i) -> (forall i, 1 <= i < freeinode m -> nb' i = nb i) -> img_ok X nb who m -> img_ok X' nb' who m.
Proof.
  intros EX E [I1 I2 I3 I4 I5 I6 I7 I8 I9 I10 I11 I12]. split; try done.
  - rewrite I3. f_equal. apply zsum_ext. intros i Hi%elem_of_seqZ. now rewrite E by lia.
  - intros i Hi. rewrite EX by done. auto.
  - intros i Hi. rewrite E by done. auto.
  - intros i bn Hi Hbn. rewrite E, EX by done. auto.
  - intros i Hi. rewrite E, EX by done. auto.
  - intros i bn Hi Hbn. rewrite E in Hbn by done. rewrite EX by done. now apply I11.
  - intros i Hi Hn. rewrite E in Hn by done. rewrite EX by done. now apply I12.
Qed.

(** Writing a data block. *)
Section write.
Context (X : Z -> dinode) (nb : Z -> Z) (who : Z -> option (Z * Z)) (m : mkstate) (j bn : Z) (d : block).
Context (HI : img_ok X nb who m) (Hj : 1 <= j < freeinode m) (Hbn : 0 <= bn < nb j) (Hd : WF_block d).
Let a := file_addr (mk_img m) (X j) bn.
Let m' := Mk (<[a := d]> (mk_img m)) (mk_len m) (freeinode m) (freeblock m).

Lemma data_addr i k : 1 <= i < freeinode m -> file_addr (mk_img m') (X i) k = file_addr (mk_img m) (X i) k.
Proof.
  intros Hi. unfold file_addr at 1 2. destruct (k <? NDIRECT); [done|]. destruct (Z.eqb_spec (addr (X i) NDIRECT) 0) as [|Hne]; [done|].
  destruct (im_own_ind _ _ _ _ HI i Hi ltac:(now apply (im_ind _ _ _ _ HI))) as [H1 H2]. destruct (im_own _ _ _ _ HI j bn Hj Hbn) as [H3 H4].
  cbn. rewrite fn_lookup_insert_ne; [done|]. fold a in H4. intros E. rewrite E, H2 in H4. injection H4 as _ E2. lia.
Qed.

Lemma img_ok_data : img_ok X nb who m'.
Proof.
  pose proof HI as [I1 I2 I3 I4 I5 I6 I7 I8 I9 I10 I11 I12]. destruct (I11 j bn Hj Hbn) as [H3 H4]. fold a in H3, H4. split; try done.
  - intros b. cbn. destruct (Z.eq_dec b a) as [->|]; [now rewrite fn_lookup_insert|now rewrite fn_lookup_insert_ne].
  - intros b Hb. cbn in *. rewrite fn_lookup_insert_ne by lia. auto.
  - intros i k Hi Hk. rewrite data_addr by done. auto.
  - intros i k Hi Hk. rewrite data_addr by done. now apply I11.
Qed.

Lemma data_byte i k : 1 <= i < freeinode m -> 0 <= k < nb i * BSIZE ->
  fbyte (mk_img m') (X i) k = if (i =? j) && (k / BSIZE =? bn) then get8 (k mod BSIZE) d else fbyte (mk_img m) (X i) k.
Proof.
  intros Hi Hk. unfold fbyte. rewrite data_addr by done. cbn. destruct (Z.eqb_spec i j) as [->|Hne]; cbn [andb].
  - destruct (Z.eqb_spec (k / BSIZE) bn) as [E|E]; [rewrite E; now rewrite fn_lookup_insert|].
    rewrite fn_lookup_insert_ne; [done|]. intros E'. destruct (im_own _ _ _ _ HI j (k / BSIZE) Hj) as [_ H2]; [unfold BSIZE in *; dlia|].
    destruct (im_own _ _ _ _ HI j bn Hj Hbn) as [_ H4]. fold a in H4. rewrite <- E', H4 in H2. congruence.
  - rewrite fn_lookup_insert_ne; [done|]. intros E'. destruct (im_own _ _ _ _ HI i (k / BSIZE) Hi) as [_ H2]; [unfold BSIZE in *; dlia|].
    destruct (im_own _ _ _ _ HI j bn Hj Hbn) as [_ H4]. fold a in H4. rewrite <- E', H4 in H2. congruence.
Qed.
End write.

Lemma get8_splice_out i l d k : 0 <= i -> 0 <= k -> i + flen l <= Z.of_nat (length d) ->
  get8 k (splice i l d) = if (i <=? k) && (k <? i + flen l) then default 0 (l !! Z.to_nat (k - i)) else get8 k d.
Proof.
  intros Hi Hk Hl. unfold get8, flen in *. rewrite lookup_splice by done.
  destruct (Z.leb_spec i k), (Z.ltb_spec k (i + Z.of_nat (length l))); cbn [andb]; [rewrite decide_True by lia|rewrite decide_False by lia; done..].
  do 2 f_equal. lia.
Qed.

Lemma blocks_bound n : 0 <= n -> n <= blocks n * BSIZE < n + BSIZE.
Proof. unfold blocks, BSIZE. intros. dlia. Qed.

Lemma blocks_mono n n' : n <= n' -> blocks n <= blocks n'.
Proof. unfold blocks, BSIZE. intros. dlia. Qed.

Lemma cost_mono k k' : k <= k' -> cost k <= cost k'.
Proof. unfold cost. intros. destruct (Z.ltb_spec NDIRECT k), (Z.ltb_spec NDIRECT k'); lia. Qed.

(** The inode [x'] differs from [x] in its addresses. *)
Definition same_fields (x x' : dinode) : Prop := exists a, x' = Dinode (di_type x) (di_major x) (di_minor x) (di_nlink x) (di_size x) a.

(** The blocks before the data, and the number of inodes, stay. *)
Definition meta_same (m m' : mkstate) : Prop := freeinode m' = freeinode m /\ forall c, c < nmeta -> mk_img m' c = mk_img m c.

Lemma meta_trans m1 m2 m3 : meta_same m1 m2 -> meta_same m2 m3 -> meta_same m1 m3.
Proof. intros [H1 H2] [H3 H4]. split; [congruence|]. intros c Hc. now rewrite H4, H2. Qed.

Lemma fields_trans x1 x2 x3 : same_fields x1 x2 -> same_fields x2 x3 -> same_fields x1 x3.
Proof. intros [a ->] [b ->]. now exists b. Qed.

Section append.
Context (X : Z -> dinode) (who : Z -> option (Z * Z)) (C : Z -> list Z) (m : mkstate) (j : Z).
Context (HF : files_ok X who C m) (Hj : 1 <= j < freeinode m).
Let off := flen (C j).
Context (Hoff : off < MAXFILE * BSIZE) (Hfit : freeblock m + cost (blocks (off + 1)) - cost (blocks off) <= FSSIZE).
Let nb (i : Z) : Z := if i =? j then blocks (off + 1) else blocks (flen (C i)).

Lemma iappend_place : exists x' who' m',
  iappend_block (X j) (off / BSIZE) m = Ok (x', file_addr (mk_img m') x' (off / BSIZE)) m' /\ same_fields (X j) x' /\ meta_same m m' /\
  img_ok (<[j := x']> X) nb who' m' /\
  forall i k, 1 <= i < freeinode m -> 0 <= k < nb i * BSIZE -> fbyte (mk_img m') ((<[j := x']> X : Z -> dinode) i) k = default 0 (C i !! Z.to_nat k).
Proof.
  destruct HF as [HI HB]. destruct mk_consts as (K1 & K2 & K3 & K4 & K5 & K6 & K7). assert (0 <= off) as H0 by (unfold off, flen; lia).
  destruct (Z.eq_dec (off mod BSIZE) 0) as [E|E].
  - assert (blocks (off + 1) = off / BSIZE + 1 /\ blocks off = off / BSIZE) as [E1 E2] by (unfold blocks, BSIZE in *; dlia).
    assert (blocks off < MAXFILE) as Hlt by (rewrite E2; unfold BSIZE in *; dlia). rewrite E1, E2, cost_succ in Hfit.
    destruct (iappend_block_new _ _ _ _ j HI Hj Hlt) as (x' & m' & H1 & HG & H3); [cbn; fold off; rewrite E2; lia|].
    cbn beta in H1, HG. fold off in H1, HG. rewrite E2 in H1, HG. pose proof HG as [G1 G2 G3 G4 G5 G6 G7 G8 G9 G10].
    eexists x', _, m'. split; [rewrite H1, G10, Z.eqb_refl by (unfold BSIZE in *; dlia); done|]. split; [done|].
    split; [split; [done|]; intros c Hc; pose proof (im_first _ _ _ _ HI); apply G7; lia|].
    assert (grown (blocks (flen (C j))) (X j) x' m m') as HG' by (fold off; now rewrite E2).
    split; [eapply img_ok_ext; [done| |now apply (img_ok_grow _ _ _ m m' j x' HI)]|].
    + intros i Hi. unfold nb. destruct (Z.eqb_spec i j) as [->|Hne]; [rewrite fn_lookup_insert; fold off; lia|now rewrite fn_lookup_insert_ne].
    + intros i k Hi Hk. unfold nb in Hk. destruct (Z.eq_dec i j) as [->|Hne].
      * rewrite Z.eqb_refl in Hk. destruct (Z_lt_le_dec k (blocks off * BSIZE)) as [Hlo|Hhi].
        -- rewrite (grow_old _ _ _ _ _ _ _ HI Hj Hlt HG') by (done || fold off; lia). apply HB; [done|fold off; lia].
        -- rewrite fn_lookup_insert, (grow_new _ _ _ _ _ _ _ HI Hj Hlt HG') by (fold off; unfold BSIZE in *; lia).
           rewrite (proj2 (lookup_ge_None (C j) _)); [done|]. pose proof (blocks_bound off H0). unfold off, flen in *. lia.
      * rewrite (proj2 (Z.eqb_neq _ _) Hne) in Hk. rewrite (grow_old _ _ _ _ _ _ _ HI Hj Hlt HG') by done. now apply HB.
  - assert (blocks (off + 1) = blocks off /\ blocks off = off / BSIZE + 1) as [E1 E2] by (unfold blocks, BSIZE in *; dlia).
    assert (forall i, nb i = blocks (flen (C i))) as En by (intros i; unfold nb; destruct (Z.eqb_spec i j) as [->|]; [exact E1|done]).
    exists (X j), who, m. split; [apply (iappend_block_old _ _ _ _ _ HI Hj); fold off; unfold BSIZE in *; dlia|].
    assert (forall i, (<[j := X j]> X : Z -> dinode) i = X i) as EX.
    { intros i. destruct (Z.eq_dec i j) as [->|]; [now rewrite fn_lookup_insert|now rewrite fn_lookup_insert_ne]. }
    split; [exists (di_addrs (X j)); now destruct (X j)|]. split; [done|]. split; [|intros i k Hi Hk; rewrite EX; rewrite En in Hk; now apply HB].
    now eapply img_ok_ext; [intros; apply EX|intros; apply En|].
Qed.

(** One round of [iappend]'s loop, which writes the bytes [l]. *)
Lemma iappend_chunk l : l <> [] -> off mod BSIZE + flen l <= BSIZE -> exists x' who' m',
  (forall K : dinode -> M mkstate (dinode * Z),
    (r ← iappend_block (X j) (off / BSIZE);
     let '(din, x) := r in
     buf ← rsect x; wsect x (splice (off - off / BSIZE * BSIZE) l buf);; K din) m = K x' m') /\
  same_fields (X j) x' /\ meta_same m m' /\ files_ok (<[j := x']> X) who' (<[j := C j ++ l]> C) m'.
Proof.
  intros Hl Hle. destruct iappend_place as (x' & who' & m1 & H1 & HS & HM & HI & HB). pose proof HM as [M1 M2].
  destruct mk_consts as (K1 & K2 & K3 & K4 & K5 & K6 & K7). assert (0 <= off) as H0 by (unfold off, flen; lia).
  assert (0 < flen l) as Hl0 by (destruct l; [done|unfold flen; cbn; lia]).
  assert (blocks (off + flen l) = blocks (off + 1) /\ off / BSIZE < blocks (off + 1)) as [Eb Hlt] by (unfold blocks, BSIZE in *; dlia).
  assert (1 <= j < freeinode m1) as Hj1 by lia. set (a := file_addr (mk_img m1) x' (off / BSIZE)) in *.
  assert (nb j = blocks (off + 1)) as Enj by (unfold nb; now rewrite Z.eqb_refl).
  assert (0 <= off / BSIZE < nb j) as Hbn by (rewrite Enj; unfold BSIZE in *; dlia).
  set (X' := <[j := x']> X : Z -> dinode) in *. assert (X' j = x') as Ex by apply fn_lookup_insert.
  destruct (im_own _ _ _ _ HI j (off / BSIZE) Hj1 Hbn) as [Ha _]. rewrite Ex in Ha. fold a in Ha.
  pose proof (im_first _ _ _ _ HI) as Hf. pose proof (im_len _ _ _ _ HI) as Hlen. pose proof (im_wf _ _ _ _ HI a) as HW.
  set (d := splice (off - off / BSIZE * BSIZE) l (mk_img m1 a)). assert (off - off / BSIZE * BSIZE = off mod BSIZE) as Eo by (unfold BSIZE; dlia).
  assert (WF_block d) as Hd by (unfold WF_block, d in *; rewrite length_splice; unfold flen, BSIZE in *; dlia).
  eexists x', who', (Mk (<[a := d]> (mk_img m1)) (mk_len m1) (freeinode m1) (freeblock m1)). split.
  { intros K. rewrite (bind_ok _ _ _ _ _ H1). fold a. erewrite bind_ok by (apply rsect_ok; lia).
    erewrite bind_ok by reflexivity. fold d. repeat f_equal. rewrite Hlen. lia. }
  split; [done|]. split; [eapply meta_trans; [exact HM|]; split; [done|]; intros c Hc; cbn; rewrite fn_lookup_insert_ne by lia; done|].
  assert (a = file_addr (mk_img m1) (X' j) (off / BSIZE)) as Ea by (now rewrite Ex).
  assert (forall i, blocks (flen ((<[j := C j ++ l]> C : Z -> list Z) i)) = nb i) as En.
  { intros i. unfold nb. destruct (Z.eqb_spec i j) as [->|Hne]; [|now rewrite fn_lookup_insert_ne].
    rewrite fn_lookup_insert, <- Eb. f_equal. unfold off, flen. rewrite length_app. lia. }
  rewrite Ea. split; [eapply img_ok_ext; [done| |now apply (img_ok_data _ _ _ _ j (off / BSIZE) d HI)]; intros i _; apply En|].
  intros i k Hi Hk. rewrite En in Hk. cbn [freeinode] in Hi. rewrite (data_byte _ _ _ _ j (off / BSIZE) d HI) by done.
  rewrite HB by (done || lia). destruct (Z.eqb_spec i j) as [->|Hne]; cbn [andb]; [|now rewrite fn_lookup_insert_ne].
  rewrite fn_lookup_insert. specialize (HB j k Hj Hk). rewrite Ex in HB. unfold d. rewrite Eo, get8_splice_out by (unfold WF_block, BSIZE in *; dlia).
  rewrite lookup_app. unfold flen in off. destruct (Z.eqb_spec (k / BSIZE) (off / BSIZE)) as [E|E].
  - destruct (Z.leb_spec (off mod BSIZE) (k mod BSIZE)), (Z.ltb_spec (k mod BSIZE) (off mod BSIZE + flen l)); cbn [andb].
    + rewrite (proj2 (lookup_ge_None (C j) _)) by (unfold off, flen, BSIZE in *; dlia). do 2 f_equal. unfold off, flen, BSIZE in *; dlia.
    + unfold fbyte in HB. rewrite E in HB. fold a in HB. rewrite HB. rewrite !(proj2 (lookup_ge_None _ _)); [done|unfold off, flen, BSIZE in *; dlia..].
    + unfold fbyte in HB. rewrite E in HB. fold a in HB. rewrite HB. destruct (lookup_lt_is_Some_2 (C j) (Z.to_nat k)) as [y ->]; [unfold off, flen, BSIZE in *; dlia|done].
    + unfold fbyte in HB. rewrite E in HB. fold a in HB. rewrite HB. destruct (lookup_lt_is_Some_2 (C j) (Z.to_nat k)) as [y ->]; [unfold off, flen, BSIZE in *; dlia|done].
  - destruct (lookup_lt_is_Some_2 (C j) (Z.to_nat k)) as [y ->]; [|done]. rewrite Enj in Hk. unfold off, flen, blocks, BSIZE in *; dlia.
Qed.
End append.

(** The blocks taken when one file changes. *)
Lemma files_cost X who C m X' who' C' m' j :
  files_ok X who C m -> files_ok X' who' C' m' -> freeinode m' = freeinode m -> 1 <= j < freeinode m -> (forall i, i <> j -> C' i = C i) ->
  freeblock m' = freeblock m - cost (blocks (flen (C j))) + cost (blocks (flen (C' j))).
Proof.
  intros [H1 _] [H2 _] Hi Hj HC. rewrite (im_cost _ _ _ _ H1), (im_cost _ _ _ _ H2), Hi.
  rewrite (zsum_change _ (fun i => cost (blocks (flen (C i)))) _ j); [lia|apply NoDup_seqZ|apply elem_of_seqZ; lia|].
  intros i Hne. now rewrite HC.
Qed.

Lemma flen_app l l' : flen (l ++ l') = flen l + flen l'.
Proof. unfold flen. rewrite length_app. lia. Qed.

Lemma iappend_loop_ok fuel : forall X who C m j p,
  files_ok X who C m -> 1 <= j < freeinode m -> (length p < fuel)%nat -> let off := flen (C j) in
  off + flen p <= MAXFILE * BSIZE -> freeblock m + cost (blocks (off + flen p)) - cost (blocks off) <= FSSIZE ->
  exists X' who' C' m', iappend_loop fuel (X j) off p m = Ok (X' j, off + flen p) m' /\
    same_fields (X j) (X' j) /\ (forall i, i <> j -> X' i = X i) /\ C' j = C j ++ p /\ (forall i, i <> j -> C' i = C i) /\
    meta_same m m' /\ files_ok X' who' C' m'.
Proof.
  induction fuel as [|fuel IH]; intros X who C m j p HF Hj Hfu off Hsz Hfit; [lia|]. cbn [iappend_loop]. fold (flen p).
  destruct (Z.ltb_spec 0 (flen p)) as [Hp|Hp].
  2: { assert (p = []) as -> by (destruct p; [done|unfold flen in *; cbn in Hp; lia]). exists X, who, C, m. rewrite app_nil_r. change (flen []) with 0.
    rewrite Z.add_0_r. repeat (split; [done || (exists (di_addrs (X j)); now destruct (X j))|]). done. }
  destruct mk_consts as (K1 & K2 & K3 & K4 & K5 & K6 & K7). assert (0 <= off) as H0 by (unfold off, flen; lia).
  set (n1 := Z.min (flen p) ((off / BSIZE + 1) * BSIZE - off)). assert (0 < n1 <= flen p /\ off mod BSIZE + n1 <= BSIZE) as [Hn1 Hn2] by (unfold n1, BSIZE in *; dlia).
  rewrite (proj2 (Z.ltb_lt (off / BSIZE) MAXFILE)) by (unfold BSIZE in *; dlia). erewrite bind_ok by reflexivity.
  set (l := take (Z.to_nat n1) p). set (q := drop (Z.to_nat n1) p). assert (p = l ++ q) as Ep by (symmetry; apply take_drop).
  assert (flen l = n1) as El by (unfold l, flen in *; rewrite length_take; lia).
  assert (flen p = flen l + flen q) as Epq by (rewrite Ep at 1; apply flen_app).
  pose proof (cost_mono _ _ (blocks_mono (off + 1) (off + flen p) ltac:(lia))) as Hm.
  destruct (iappend_chunk X who C m j HF Hj ltac:(fold off; lia) ltac:(fold off; lia) l) as (x1 & w1 & m1 & H1 & S1 & M1 & F1).
  { intros ->. change (flen []) with 0 in El. lia. } { fold off. lia. }
  fold off in H1. cbn zeta. rewrite H1. pose proof M1 as [Ei _].
  assert (flen ((<[j := C j ++ l]> C : Z -> list Z) j) = off + n1) as Eo by (rewrite fn_lookup_insert, flen_app; fold off; lia).
  destruct (IH _ _ _ m1 j q F1) as (X' & who' & C' & m' & H2 & S2 & X2 & C2 & C3 & M2 & F2); rewrite ?Eo; [lia|unfold q; rewrite length_drop; unfold flen in *; lia|lia| |].
  { pose proof (files_cost _ _ _ _ _ _ _ _ j HF F1 Ei Hj) as Hc. rewrite Eo in Hc. fold off in Hc.
    replace (off + n1 + flen q) with (off + flen p) by lia. rewrite Hc; [lia|]. intros i Hne. now rewrite fn_lookup_insert_ne. }
  exists X', who', C', m'. rewrite fn_lookup_insert, Eo in H2. rewrite H2. rewrite fn_lookup_insert in S2. rewrite fn_lookup_insert in C2.
  split; [do 2 f_equal; lia|]. split; [eapply fields_trans; eassumption|].
  split; [intros i Hne; rewrite X2 by done; now rewrite fn_lookup_insert_ne|]. split; [now rewrite C2, <- app_assoc, <- Ep|].
  split; [intros i Hne; rewrite C3 by done; now rewrite fn_lookup_insert_ne|]. split; [eapply meta_trans; eassumption|done].
Qed.

(** ** Inodes *)

Definition no_inode : dinode := Dinode 0 0 0 0 0 (replicate 13 0).

(** The inodes on the image are those of the files, and the others are free. *)
Record mk_ok (X : Z -> dinode) (who : Z -> option (Z * Z)) (C : Z -> list Z) (m : mkstate) : Prop := MkOk {
  mk_files : files_ok X who C m;
  mk_count : freeinode m <= NINODES;
  mk_disk i : 1 <= i < freeinode m -> disk_inode mk_sb (mk_img m) i = X i;
  mk_size i : 1 <= i < freeinode m -> di_size (X i) = flen (C i);
  mk_other i : i = 0 \/ freeinode m <= i < NINODES -> disk_inode mk_sb (mk_img m) i = no_inode;
  mk_super : mk_img m 1 = sb_bytes mk_sb;
  mk_log c : 2 <= c < 32 -> mk_img m c = zeros;
}.

Lemma inode_block inum : 0 <= inum < NINODES -> 32 <= IBLOCK inum mk_sb < 45.
Proof. intros H. unfold IBLOCK, IPB, NINODES in *. change (BSIZE / 64) with 16. change (sb_inodestart mk_sb) with 32. dlia. Qed.

(** The image after [winode]. *)
Definition with_inode (inum : Z) (x : dinode) (m : mkstate) : mkstate :=
  Mk (d_data (put_inode mk_sb inum x (view (mk_img m)))) (mk_len m) (freeinode m) (freeblock m).

Lemma winode_ok inum x m : mk_len m = FSSIZE -> 0 <= inum < NINODES -> winode inum x m = Ok tt (with_inode inum x m).
Proof.
  intros Hl Hi. pose proof (inode_block inum Hi). unfold winode. cbn zeta. erewrite bind_ok by (apply rsect_ok; rewrite Hl; unfold FSSIZE; lia).
  unfold wsect, modify. unfold with_inode, put_inode. do 2 f_equal. rewrite Hl. unfold FSSIZE. lia.
Qed.

Lemma with_inode_other inum x m c : 0 <= inum < NINODES -> c < 32 \/ 45 <= c -> mk_img (with_inode inum x m) c = mk_img m c.
Proof. intros Hi Hc. pose proof (inode_block inum Hi). cbn. rewrite fn_lookup_insert_ne by lia. done. Qed.

Lemma with_inode_disk inum x m i : dinode_ok x -> (forall b, WF_block (mk_img m b)) -> 0 <= inum -> 0 <= i ->
  disk_inode mk_sb (mk_img (with_inode inum x m)) i = if i =? inum then x else disk_inode mk_sb (mk_img m) i.
Proof. intros Hx HW Hin Hi. apply (disk_put_inode mk_sb inum x (view (mk_img m)) i); [done|apply HW|done|done]. Qed.

Lemma with_inode_wf inum x m b : dinode_ok x -> (forall b, WF_block (mk_img m b)) -> WF_block (mk_img (with_inode inum x m) b).
Proof.
  intros Hx HW. cbn. destruct (Z.eq_dec b (IBLOCK inum mk_sb)) as [->|]; [|now rewrite fn_lookup_insert_ne]. rewrite fn_lookup_insert.
  pose proof (ioff_range inum). pose proof (HW (IBLOCK inum mk_sb)) as H1. unfold WF_block in *. destruct (put_dinode_spec (ioff inum) x (mk_img m (IBLOCK inum mk_sb)) (dn_len _ Hx)) as [E _]; [lia|lia|].
  now rewrite <- H1, <- E.
Qed.

(** The files do not depend on the blocks before the data, nor on the fields of
    the inodes other than the addresses. *)
Lemma files_meta X X' who C m m' :
  files_ok X who C m -> freeinode m' = freeinode m -> freeblock m' = freeblock m -> mk_len m' = mk_len m ->
  (forall c, nmeta <= c -> mk_img m' c = mk_img m c) -> (forall c, WF_block (mk_img m' c)) ->
  (forall i, 1 <= i < freeinode m -> dinode_ok (X' i) /\ di_addrs (X' i) = di_addrs (X i)) -> files_ok X' who C m'.
Proof.
  intros [HI HB] Hi Hb Hl Himg HW HX.
  assert (forall i k, 1 <= i < freeinode m -> addr (X' i) k = addr (X i) k) as EA by (intros i k Hk; unfold addr; now rewrite (proj2 (HX i Hk))).
  assert (forall i bn, 1 <= i < freeinode m -> file_addr (mk_img m') (X' i) bn = file_addr (mk_img m) (X i) bn) as EF.
  { intros i bn Hk. unfold file_addr. rewrite !EA by done. destruct (bn <? NDIRECT); [done|]. destruct (Z.eqb_spec (addr (X i) NDIRECT) 0); [done|].
    rewrite Himg; [done|]. apply (im_own_ind _ _ _ _ HI i Hk). now apply (im_ind _ _ _ _ HI). }
  pose proof HI as [I1 I2 I3 I4 I5 I6 I7 I8 I9 I10 I11 I12]. split; [split; rewrite ?Hi, ?Hb, ?Hl; try done|].
  - intros b Hfb. rewrite Himg by lia. auto.
  - intros i Hk. apply HX; done.
  - intros i bn Hk Hbn. rewrite EF by done. auto.
  - intros i Hk. rewrite EA by done. auto.
  - intros i bn Hk Hbn. rewrite EF by done. now apply I11.
  - intros i Hk Hn. rewrite EA by done. now apply I12.
  - rewrite Hi. intros i k Hk Hkk. rewrite <- HB by done. unfold fbyte. rewrite EF by done. rewrite Himg; [done|].
    apply (I11 i _ Hk). unfold BSIZE in *. dlia.
Qed.

(** [winode] on the inode of a file. *)
Lemma mk_ok_inode X who C m x j :
  files_ok X who C m -> freeinode m <= NINODES -> 1 <= j < freeinode m -> dinode_ok x -> di_addrs x = di_addrs (X j) -> di_size x = flen (C j) ->
  (forall i, 1 <= i < freeinode m -> i <> j -> disk_inode mk_sb (mk_img m) i = X i /\ di_size (X i) = flen (C i)) ->
  (forall i, i = 0 \/ freeinode m <= i < NINODES -> disk_inode mk_sb (mk_img m) i = no_inode) -> mk_img m 1 = sb_bytes mk_sb ->
  (forall c, 2 <= c < 32 -> mk_img m c = zeros) -> mk_ok (<[j := x]> X) who C (with_inode j x m).
Proof.
  intros HF Hc Hj Hx Ha Hs HD HO HS HG. pose proof (im_wf _ _ _ _ (fl_img _ _ _ _ HF)) as HW. destruct mk_consts as (K1 & _). split; cbn [freeinode with_inode]; try done.
  - eapply (files_meta X); try done; [intros c Hcc; apply with_inode_other; lia|intros c; now apply with_inode_wf|].
    intros i Hi. destruct (Z.eq_dec i j) as [->|]; [now rewrite fn_lookup_insert|rewrite fn_lookup_insert_ne by done]. split; [now apply (fl_img _ _ _ _ HF)|done].
  - intros i Hi. rewrite with_inode_disk by (done || lia). destruct (Z.eqb_spec i j) as [->|Hne]; [now rewrite fn_lookup_insert|rewrite fn_lookup_insert_ne by done; now apply HD].
  - intros i Hi. destruct (Z.eq_dec i j) as [->|]; [now rewrite fn_lookup_insert|rewrite fn_lookup_insert_ne by done; now apply HD].
  - intros i Hi. rewrite with_inode_disk by (done || lia). rewrite (proj2 (Z.eqb_neq i j)) by lia. auto.
  - rewrite with_inode_other by lia. done.
  - intros c Hcc. rewrite with_inode_other by lia. auto.
Qed.
