(* ===== verification/MkfsThms.v ===== *)
(** * mkfs/mkfs.c: what the program makes

    The steps of [main] on the image, and the file system that it leaves. *)

From stdpp Require Import base gmap numbers strings functions list.
From Stdlib Require Import ZifyBool.
From S2P Require Import Prelude Mem Block StringC Bio Log LogSpec BlockIO Fs FsBlocks FsInode FsFile FsIO FsTable FsDir FsPath FsCheck Mkfs MkfsSpec.

Open Scope Z_scope.

(** The type and the links of the inodes stay. *)
Definition same_kind (x x' : dinode) : Prop := di_type x' = di_type x /\ di_nlink x' = di_nlink x.

Lemma rinode_ok X who C m j : mk_ok X who C m -> 1 <= j < freeinode m -> rinode j m = Ok (X j) m.
Proof.
  intros HK Hj. pose proof (mk_count _ _ _ _ HK) as Hc. pose proof (inode_block j ltac:(lia)). unfold rinode. cbn zeta.
  erewrite bind_ok by (apply rsect_ok; rewrite (im_len _ _ _ _ (fl_img _ _ _ _ (mk_files _ _ _ _ HK))); unfold FSSIZE; lia).
  unfold mret, M_ret. f_equal. now apply (mk_disk _ _ _ _ HK).
Qed.

Lemma meta_disk m m' i : meta_same m m' -> 0 <= i < NINODES -> disk_inode mk_sb (mk_img m') i = disk_inode mk_sb (mk_img m) i.
Proof. intros [_ H] Hi. unfold disk_inode. pose proof (inode_block i Hi). rewrite H; [done|]. destruct mk_consts. lia. Qed.

(** [iappend] adds the bytes [p] to the file [j]. *)
Lemma iappend_ok X who C m j p :
  mk_ok X who C m -> 1 <= j < freeinode m -> let off := flen (C j) in
  off + flen p <= MAXFILE * BSIZE -> freeblock m + cost (blocks (off + flen p)) - cost (blocks off) <= FSSIZE ->
  exists X' who' C' m', iappend j p m = Ok tt m' /\ mk_ok X' who' C' m' /\ C' j = C j ++ p /\ (forall i, i <> j -> C' i = C i) /\
    freeinode m' = freeinode m /\ freeblock m' = freeblock m + cost (blocks (off + flen p)) - cost (blocks off) /\
    forall i, 1 <= i < freeinode m -> same_kind (X i) (X' i).
Proof.
  intros HK Hj off Hsz Hfit. destruct mk_consts as (K1 & K2 & K3 & K4 & K5 & K6 & K7). pose proof HK as [HF Hc HD HS HO Hsb Hlog].
  assert (0 <= off /\ 0 <= flen p) as [H0 H0'] by (unfold off, flen; lia).
  unfold iappend. rewrite (bind_ok _ _ _ _ _ (rinode_ok _ _ _ _ _ HK Hj)). cbn zeta. rewrite HS by done. fold off.
  rewrite xint_id by (unfold is_u32; lia).
  destruct (iappend_loop_ok (S (length p)) X who C m j p HF Hj ltac:(lia) Hsz Hfit) as (X' & who' & C' & m1 & H1 & S1 & X1 & C1 & C2 & M1 & F1).
  fold off in H1. rewrite (bind_ok _ _ _ _ _ H1). rewrite xint_id by (unfold is_u32; lia). pose proof M1 as [Ei Em].
  pose proof (im_dinode _ _ _ _ (fl_img _ _ _ _ F1) j ltac:(lia)) as [D1 D2 D3 D4 D5 D6 D7].
  rewrite winode_ok by (apply F1 || lia). set (x := set_size (off + flen p) (X' j)).
  exists (<[j := x]> X'), who', C', (with_inode j x m1). split; [done|]. split.
  { apply mk_ok_inode; try done; rewrite ?Ei; try done.
    - split; try done. unfold is_u32. cbn. lia.
    - rewrite C1, flen_app. done.
    - intros i Hi Hne. rewrite (meta_disk m m1) by (done || lia). rewrite X1, C2 by done. auto.
    - intros i Hi. rewrite (meta_disk m m1) by (done || lia). auto.
    - rewrite Em by lia. done.
    - intros c Hcc. rewrite Em by lia. auto. }
  split; [done|]. split; [done|]. split; [done|]. split.
  { pose proof (files_cost _ _ _ _ _ _ _ _ j HF F1 Ei Hj C2) as Hcost. rewrite C1, flen_app in Hcost. fold off in Hcost. cbn [freeblock with_inode]. lia. }
  intros i Hi. destruct (Z.eq_dec i j) as [->|]; [rewrite fn_lookup_insert|rewrite fn_lookup_insert_ne, X1 by done; done].
  destruct S1 as [a E]. unfold x. rewrite E. done.
Qed.

Definition new_file (type : Z) : dinode := Dinode type 0 0 1 0 (replicate 13 0).

Lemma blocks_0 : blocks 0 = 0.
Proof. done. Qed.

(** The next inode, without blocks. *)
Lemma files_new X who C m type :
  files_ok X who C m -> is_i16 type -> let n := freeinode m in
  files_ok (<[n := new_file type]> X) who (<[n := []]> C) (Mk (mk_img m) (mk_len m) (n + 1) (freeblock m)).
Proof.
  intros [HI HB] Ht n. pose proof HI as [I1 I2 I3 I4 I5 I6 I7 I8 I9 I10 I11 I12]. destruct mk_consts as (K1 & K2 & K3 & K4 & K5 & K6 & K7).
  assert (blocks (flen ((<[n := []]> C : Z -> list Z) n)) = 0) as E0 by (now rewrite fn_lookup_insert).
  assert ((<[n := new_file type]> X : Z -> dinode) n = new_file type) as Ex by apply fn_lookup_insert.
  assert (forall i, 1 <= i < n + 1 -> i <> n -> 1 <= i < freeinode m /\ (<[n := new_file type]> X : Z -> dinode) i = X i /\
    (<[n := []]> C : Z -> list Z) i = C i) as Hold by (intros i Hi Hne; rewrite !fn_lookup_insert_ne by done; split; [lia|done]).
  assert (forall bn, 0 <= bn -> addr (new_file type) bn = 0) as Ea.
  { intros bn Hbn. unfold addr. cbn [di_addrs new_file]. destruct (replicate 13 0 !! Z.to_nat bn) as [y|] eqn:E; [|done]. apply lookup_replicate in E as [-> _]. done. }
  split; [split; cbn [mk_len freeinode freeblock mk_img]; try done|]; cbn [freeinode mk_img].
  - lia.
  - rewrite I3. fold n. replace (n + 1 - 1) with ((n - 1) + 1) by lia. rewrite seqZ_app, zsum_app by lia.
    replace (1 + (n - 1)) with n by lia. cbn [seqZ]. change (seqZ n 1) with [n]. cbn [zsum]. rewrite E0. change (cost 0) with 0.
    assert (forall a b, a = b -> nmeta + a = nmeta + (b + (0 + 0))) as Hr by (intros; lia). apply Hr, zsum_ext. intros i Hi%elem_of_seqZ.
    rewrite fn_lookup_insert_ne by lia. done.
  - intros i Hi. destruct (Z.eq_dec i n) as [->|Hne]; [rewrite Ex|destruct (Hold i Hi Hne) as (Hi' & -> & _); auto].
    split; try done. apply Forall_replicate. done.
  - intros i Hi. destruct (Z.eq_dec i n) as [->|Hne]; [rewrite E0; lia|destruct (Hold i Hi Hne) as (Hi' & _ & ->); auto].
  - intros i bn Hi Hbn. destruct (Z.eq_dec i n) as [->|Hne]; [|destruct (Hold i Hi Hne) as (Hi' & -> & ->); auto].
    rewrite E0, Ex. unfold file_addr. rewrite !Ea by lia. cbn. destruct (bn <? NDIRECT); lia.
  - intros i Hi. destruct (Z.eq_dec i n) as [->|Hne]; [|destruct (Hold i Hi Hne) as (Hi' & -> & ->); auto]. rewrite E0, Ex, Ea by lia. lia.
  - intros i bn Hi Hbn. destruct (Z.eq_dec i n) as [->|Hne]; [lia|]. destruct (Hold i Hi Hne) as (Hi' & E1 & E2). rewrite E1. rewrite E2 in Hbn. now apply I11.
  - intros i Hi Hn. destruct (Z.eq_dec i n) as [->|Hne]; [lia|]. destruct (Hold i Hi Hne) as (Hi' & E1 & E2). rewrite E1. rewrite E2 in Hn. now apply I12.
  - intros i k Hi Hk. destruct (Z.eq_dec i n) as [->|Hne]; [unfold BSIZE in *; lia|]. destruct (Hold i Hi Hne) as (Hi' & E1 & E2). rewrite E1. rewrite E2 in *. now apply HB.
Qed.

(** [ialloc] makes an empty file. *)
Lemma ialloc_ok X who C m type :
  mk_ok X who C m -> 0 <= type < 2^15 -> let n := freeinode m in n < NINODES ->
  exists m', ialloc type m = Ok n m' /\ mk_ok (<[n := new_file type]> (<[n := new_file type]> X)) who (<[n := []]> C) m' /\
    freeinode m' = n + 1 /\ freeblock m' = freeblock m.
Proof.
  intros [HF Hc HD HS HO Hsb Hlog] Ht n Hn. pose proof (im_inodes _ _ _ _ (fl_img _ _ _ _ HF)) as Hi1. fold n in Hi1.
  pose proof (files_new _ _ _ _ type HF ltac:(unfold is_i16; lia)) as HF1. cbn zeta in HF1. fold n in HF1. unfold ialloc.
  erewrite bind_ok by reflexivity. erewrite bind_ok by reflexivity. fold n. rewrite (xshort_id type) by lia. change (xshort 1) with 1. change (xint 0) with 0. fold (new_file type).
  rewrite (bind_ok _ _ _ _ _ (winode_ok n (new_file type) (Mk (mk_img m) (mk_len m) (n + 1) (freeblock m)) (im_len _ _ _ _ (fl_img _ _ _ _ HF)) ltac:(lia))).
  eexists. split; [reflexivity|]. split; [|done]. apply mk_ok_inode; cbn [freeinode mk_img]; try done.
  - lia.
  - lia.
  - split; try done; [unfold is_i16; cbn; lia|]. now apply Forall_replicate.
  - now rewrite fn_lookup_insert.
  - now rewrite fn_lookup_insert.
  - intros i Hi Hne. rewrite !fn_lookup_insert_ne by done. split; [apply HD; lia|apply HS; lia].
  - intros i Hi. apply HO. lia.
Qed.

(** ** The files on the command line *)

Definition short (name : list Z) : list Z := strip_underscore (strip_user name).

(** The contents of the root directory with the files [names]. *)
Fixpoint root_entries (inum : Z) (names : list (list Z)) : list (list Z) :=
  match names with
  | [] => []
  | nm :: names' => new_dent inum nm :: root_entries (inum + 1) names'
  end.

Definition dot : list Z := [46].
Definition dotdot : list Z := [46; 46].
Definition root_dents (names : list (list Z)) : list (list Z) := new_dent 1 dot :: new_dent 1 dotdot :: root_entries 2 names.

Lemma root_entries_app names names' : forall inum, root_entries inum (names ++ names') = root_entries inum names ++ root_entries (inum + Z.of_nat (length names)) names'.
Proof.
  induction names as [|nm names IH]; intros inum; cbn [app root_entries length]; [now rewrite Z.add_0_r|]. rewrite IH. do 3 f_equal. lia.
Qed.

Lemma root_dents_snoc names nm : root_dents (names ++ [nm]) = root_dents names ++ [new_dent (2 + Z.of_nat (length names)) nm].
Proof. unfold root_dents. now rewrite root_entries_app. Qed.

Lemma length_new_dent inum nm : (length nm <= 14)%nat -> flen (new_dent inum nm) = 16.
Proof. intros H. unfold flen, new_dent. rewrite !length_app, length_le_bytes, length_replicate. lia. Qed.

(** The blocks of the root directory with [k] files. *)
Definition root_cost (k : Z) : Z := cost (blocks (32 + 16 * k)).

(** The files [fs], names and contents, have been added. *)
Record progress (fs : list (list Z * list Z)) (X : Z -> dinode) (who : Z -> option (Z * Z)) (C : Z -> list Z) (m : mkstate) : Prop := Progress {
  pr_ok : mk_ok X who C m;
  pr_inodes : freeinode m = 2 + Z.of_nat (length fs);
  pr_blocks : freeblock m = nmeta + root_cost (Z.of_nat (length fs)) + zsum (fun f => cost (blocks (flen f.2))) fs;
  pr_root : C 1 = concat (root_dents fs.*1) /\ flen (C 1) = 32 + 16 * Z.of_nat (length fs) /\ di_type (X 1) = T_DIR /\ di_nlink (X 1) = 1;
  pr_file i f : fs !! i = Some f -> let j := 2 + Z.of_nat i in C j = f.2 /\ di_type (X j) = T_FILE /\ di_nlink (X j) = 1;
}.

(** The pieces of a file. *)
Lemma append_all_ok pieces : forall X who C m j,
  mk_ok X who C m -> 1 <= j < freeinode m -> let off := flen (C j) in let n := flen (concat pieces) in
  off + n <= MAXFILE * BSIZE -> freeblock m + cost (blocks (off + n)) - cost (blocks off) <= FSSIZE ->
  exists X' who' C' m', append_all j pieces m = Ok tt m' /\ mk_ok X' who' C' m' /\ C' j = C j ++ concat pieces /\ (forall i, i <> j -> C' i = C i) /\
    freeinode m' = freeinode m /\ freeblock m' = freeblock m + cost (blocks (off + n)) - cost (blocks off) /\
    forall i, 1 <= i < freeinode m -> same_kind (X i) (X' i).
Proof.
  induction pieces as [|p pieces IH]; intros X who C m j HK Hj off n Hsz Hfit; cbn [append_all].
  { exists X, who, C, m. unfold n in *. cbn [concat] in *. change (flen []) with 0 in *. rewrite app_nil_r, Z.add_0_r. repeat (split; [done || lia|]). done. }
  unfold n in *. cbn [concat] in *. rewrite flen_app in *. assert (0 <= flen p /\ 0 <= flen (concat pieces)) as [Hp Hq] by (unfold flen; lia).
  pose proof (cost_mono _ _ (blocks_mono (off + flen p) (off + (flen p + flen (concat pieces))) ltac:(lia))) as Hm.
  destruct (iappend_ok X who C m j p HK Hj) as (X1 & w1 & C1 & m1 & H1 & K1 & E1 & O1 & I1 & B1 & S1); fold off; [lia|lia|].
  fold off in B1. assert (flen (C1 j) = off + flen p) as Eo by (now rewrite E1, flen_app).
  replace (off + (flen p + flen (concat pieces))) with (off + flen p + flen (concat pieces)) in * by lia.
  destruct (IH X1 w1 C1 m1 j K1) as (X2 & w2 & C2 & m2 & H2 & K2 & E2 & O2 & I2 & B2 & S2); rewrite ?Eo; [lia|lia|lia|].
  rewrite Eo in B2. rewrite (bind_ok _ _ _ _ _ H1), H2. exists X2, w2, C2, m2. split; [done|]. split; [done|].
  split; [now rewrite E2, E1, <- app_assoc|]. split; [intros i Hi; now rewrite O2, O1|]. split; [lia|]. split; [lia|].
  intros i Hi. destruct (S1 i Hi) as [A1 A2], (S2 i ltac:(lia)) as [A3 A4]. split; congruence.
Qed.

(** A file that can be added. *)
Record file_arg (f : list Z * option (list (list Z))) (nm data : list Z) : Prop := FileArg {
  fa_slash : slash ∉ strip_user f.1;
  fa_name : short f.1 = nm;
  fa_len : Z.of_nat (length nm) <= DIRSIZ;
  fa_data : exists pieces, f.2 = Some pieces /\ concat pieces = data;
  fa_size : flen data <= MAXFILE * BSIZE;
}.

Lemma add_file_ok f nm data fs X who C m :
  progress fs X who C m -> file_arg f nm data -> Z.of_nat (length fs) < NINODES - 2 ->
  nmeta + root_cost (Z.of_nat (length fs) + 1) + zsum (fun f => cost (blocks (flen f.2))) (fs ++ [(nm, data)]) <= FSSIZE ->
  exists X' who' C' m', add_file 1 f m = Ok tt m' /\ progress (fs ++ [(nm, data)]) X' who' C' m'.
Proof.
  intros [HK Hi Hb (R1 & R2 & R3 & R4) HF] [A1 A2 A3 (pieces & A4 & A5) A6] Hn Hfit. destruct mk_consts as (K1 & K2 & K3 & K4 & K5 & K6 & K7).
  set (k := Z.of_nat (length fs)) in *. rewrite zsum_app in Hfit. cbn [zsum snd] in Hfit. assert (0 <= k) as Hk0 by (unfold k; lia).
  assert (0 <= cost (blocks (flen data))) as Hc0. { unfold cost. pose proof (blocks_bound (flen data)). unfold flen, BSIZE in *. destruct (NDIRECT <? _); lia. }
  pose proof (cost_mono _ _ (blocks_mono (32 + 16 * k) (32 + 16 * (k + 1)) ltac:(lia))) as Hm. fold (root_cost k) (root_cost (k + 1)) in Hm.
  unfold add_file. cbn zeta. rewrite bool_decide_eq_true_2 by done. erewrite bind_ok by reflexivity. rewrite A4. fold (short f.1). rewrite A2.
  rewrite (proj2 (Z.leb_le _ _) A3). erewrite bind_ok by reflexivity.
  destruct (ialloc_ok X who C m T_FILE HK ltac:(done) ltac:(lia)) as (m1 & H1 & K1' & I1 & B1). rewrite (bind_ok _ _ _ _ _ H1).
  set (n := freeinode m) in *. assert ((<[n := []]> C : Z -> list Z) 1 = C 1) as E1 by (rewrite fn_lookup_insert_ne by lia; done).
  assert (mk_dent n nm = new_dent n nm) as -> by (unfold mk_dent, new_dent; now rewrite xshort_id by lia).
  assert (flen (new_dent n nm) = 16) as Ed by (apply length_new_dent; unfold DIRSIZ in *; lia).
  destruct (iappend_ok _ _ _ m1 1 (new_dent n nm) K1') as (X2 & w2 & C2 & m2 & H2 & K2' & E2 & O2 & I2 & B2 & S2); rewrite ?E1, ?R2, ?Ed.
  { lia. } { unfold BSIZE. lia. } { replace (32 + 16 * k + 16) with (32 + 16 * (k + 1)) by lia. fold (root_cost k) (root_cost (k + 1)). lia. }
  rewrite E1, R2, Ed in B2. replace (32 + 16 * k + 16) with (32 + 16 * (k + 1)) in B2 by lia. fold (root_cost k) (root_cost (k + 1)) in B2.
  rewrite (bind_ok _ _ _ _ _ H2). assert (C2 n = []) as E3 by (rewrite O2 by lia; apply fn_lookup_insert).
  destruct (append_all_ok pieces X2 w2 C2 m2 n K2') as (X3 & w3 & C3 & m3 & H3 & K3' & E4 & O3 & I3 & B3 & S3); rewrite ?E3, ?A5; change (flen []) with 0; [lia|lia| |].
  { rewrite blocks_0. change (cost 0) with 0. rewrite Z.add_0_l. lia. }
  rewrite E3, A5 in *. change (flen []) with 0 in B3. rewrite blocks_0, Z.add_0_l in B3. change (cost 0) with 0 in B3. rewrite app_nil_l in E4.
  assert (forall i, 1 <= i < n + 1 -> same_kind ((<[n := new_file T_FILE]> (<[n := new_file T_FILE]> X) : Z -> dinode) i) (X3 i)) as HS.
  { intros i Hin. destruct (S2 i ltac:(lia)) as [U1 U2], (S3 i ltac:(lia)) as [U3 U4]. split; congruence. }
  exists X3, w3, C3, m3. split; [done|]. split; [done|rewrite length_app; cbn; lia| | |].
  - rewrite length_app, zsum_app. cbn [zsum snd length]. replace (Z.of_nat (length fs + 1)) with (k + 1) by lia. lia.
  - destruct (HS 1 ltac:(lia)) as [U1 U2]. rewrite !fn_lookup_insert_ne in U1, U2 by lia. rewrite O3, E2, E1 by lia. rewrite fmap_app. cbn [fmap list_fmap fst].
    rewrite root_dents_snoc, concat_app, length_fmap, <- R1. cbn [concat]. rewrite app_nil_r. fold k. replace (2 + k) with n by lia.
    split; [done|]. split; [rewrite flen_app, R2, Ed, length_app; cbn; lia|]. split; congruence.
  - intros i g Hg. cbn zeta. destruct (decide (i < length fs)%nat) as [Hlt|Hge].
    + rewrite lookup_app_l in Hg by done. destruct (HF i g Hg) as (U1 & U2 & U3). destruct (HS (2 + Z.of_nat i) ltac:(lia)) as [V1 V2].
      rewrite !fn_lookup_insert_ne in V1, V2 by lia. rewrite O3, O2, fn_lookup_insert_ne by lia. split; [done|]. split; congruence.
    + rewrite lookup_app_r in Hg by lia. destruct (i - length fs)%nat as [|q] eqn:Eq; [|done]. injection Hg as <-. replace (2 + Z.of_nat i) with n by lia.
      destruct (HS n ltac:(lia)) as [V1 V2]. rewrite fn_lookup_insert in V1, V2. split; [done|]. split; [exact V1|exact V2].
Qed.

Lemma add_files_ok files : forall fs fs' X who C m,
  progress fs X who C m -> Forall2 (fun f r => file_arg f r.1 r.2) files fs' -> Z.of_nat (length fs + length fs') <= NINODES - 2 ->
  nmeta + root_cost (Z.of_nat (length fs + length fs')) + zsum (fun f => cost (blocks (flen f.2))) (fs ++ fs') <= FSSIZE ->
  exists X' who' C' m', add_files 1 files m = Ok tt m' /\ progress (fs ++ fs') X' who' C' m'.
Proof.
  induction files as [|f files IH]; intros fs fs' X who C m HP HA Hn Hfit; cbn [add_files].
  { apply Forall2_nil_inv_l in HA as ->. exists X, who, C, m. now rewrite app_nil_r. }
  apply Forall2_cons_inv_l in HA as ([nm data] & fs2 & Hf & HA & ->). cbn [fst snd length] in *.
  replace (fs ++ (nm, data) :: fs2) with ((fs ++ [(nm, data)]) ++ fs2) in * by (now rewrite <- app_assoc). rewrite zsum_app in Hfit.
  assert (0 <= zsum (fun f : list Z * list Z => cost (blocks (flen f.2))) fs2) as H0.
  { apply zsum_nonneg. intros [nm' d] _. cbn [snd]. unfold cost. pose proof (blocks_bound (flen d)). unfold flen, BSIZE in *. destruct (NDIRECT <? _); lia. }
  pose proof (cost_mono _ _ (blocks_mono (32 + 16 * (Z.of_nat (length fs) + 1)) (32 + 16 * Z.of_nat (length fs + S (length fs2))) ltac:(lia))) as Hm.
  destruct (add_file_ok f nm data fs X who C m HP Hf) as (X1 & w1 & C1 & m1 & H1 & P1); [lia|unfold root_cost in *; lia|].
  rewrite (bind_ok _ _ _ _ _ H1). apply (IH _ _ _ _ _ _ P1 HA); rewrite length_app; cbn [length].
  - lia.
  - rewrite zsum_app. replace (length fs + 1 + length fs2)%nat with (length fs + S (length fs2))%nat by lia. lia.
Qed.

(** ** The start *)

(** Nothing but the superblock on the image. *)
Lemma blank_ok m : mk_len m = FSSIZE -> freeinode m = 1 -> freeblock m = nmeta -> (forall c, mk_img m c = if c =? 1 then sb_bytes mk_sb else zeros) ->
  mk_ok (fun _ => no_inode) (fun _ => None) (fun _ => []) m.
Proof.
  intros Hl Hi Hb Hm. assert (forall i, 0 <= i < NINODES -> disk_inode mk_sb (mk_img m) i = no_inode) as Hz.
  { intros i Hin. unfold disk_inode. pose proof (inode_block i Hin). rewrite Hm, (proj2 (Z.eqb_neq _ 1)) by lia. unfold ioff, IPB. change (BSIZE / 64) with 16.
    assert (Forall (fun k => get_dinode (k * 64) zeros = no_inode) (seqZ 0 16)) as Hall.
    { let l := eval vm_compute in (seqZ 0 16) in change (seqZ 0 16) with l. repeat (apply Forall_cons; split; [vm_compute; reflexivity|]). apply Forall_nil_2. }
    apply (proj1 (Forall_forall _ _) Hall (i mod 16)). apply elem_of_seqZ. pose proof (Z.mod_pos_bound i 16). lia. }
  split; rewrite ?Hi.
  - split; [|rewrite Hi; lia]. split; rewrite ?Hi; try (lia || done).
    + rewrite Hb. destruct mk_consts. lia.
    + intros b. rewrite Hm. destruct (b =? 1); [vm_compute; reflexivity|reflexivity].
    + intros b Hge. rewrite Hm, (proj2 (Z.eqb_neq b 1)); [done|]. rewrite Hb in Hge. destruct mk_consts. lia.
  - done.
  - lia.
  - lia.
  - intros i Hin. apply Hz. unfold NINODES in *. lia.
  - now rewrite Hm.
  - intros c Hc. rewrite Hm, (proj2 (Z.eqb_neq c 1)) by lia. done.
Qed.

Lemma zero_loop_ok : exists m, (set_freeblock nmeta;; for_loop (Z.to_nat FSSIZE) 0 (fun i => wsect i zeros)) mk_start = Ok tt m /\
  mk_len m = FSSIZE /\ freeinode m = 1 /\ freeblock m = nmeta /\ forall c, mk_img m c = zeros.
Proof.
  erewrite bind_ok by reflexivity. set (m0 := Mk (mk_img mk_start) (mk_len mk_start) (freeinode mk_start) nmeta).
  destruct (for_loop_ok (fun i m => mk_len m = i /\ freeinode m = 1 /\ freeblock m = nmeta /\ forall c, mk_img m c = zeros)
    (Z.to_nat FSSIZE) 0 (fun i => wsect i zeros) m0) as (m & H & HI).
  - done.
  - intros k m Hk (H1 & H2 & H3 & H4). eexists. split; [reflexivity|]. cbn. split; [lia|]. split; [done|]. split; [done|]. intros c.
    destruct (Z.eq_dec c k) as [->|]; [now rewrite fn_lookup_insert|now rewrite fn_lookup_insert_ne].
  - exists m. split; [exact H|]. rewrite Z2Nat.id in HI by done. exact HI.
Qed.

(** The root directory with its two entries. *)
Lemma root_ok X who C m (K : Z -> M mkstate unit) :
  mk_ok X who C m -> freeinode m = 1 -> freeblock m = nmeta -> exists X' who' C' m',
  (rootino ← ialloc T_DIR;
   assert (rootino =? ROOTINO);;
   iappend rootino (mk_dent rootino [46]);;
   iappend rootino (mk_dent rootino [46; 46]);; K rootino) m = K 1 m' /\ progress [] X' who' C' m'.
Proof.
  intros HK Hi Hb. destruct mk_consts as (K1 & K2 & K3 & K4 & K5 & K6 & K7).
  destruct (ialloc_ok X who C m T_DIR HK ltac:(done) ltac:(lia)) as (m1 & H1 & K1' & I1 & B1). rewrite (bind_ok _ _ _ _ _ H1), Hi in *.
  change (1 =? ROOTINO) with true. erewrite bind_ok by reflexivity. change (mk_dent 1 [46]) with (new_dent 1 dot). change (mk_dent 1 [46; 46]) with (new_dent 1 dotdot).
  destruct (iappend_ok _ _ _ m1 1 (new_dent 1 dot) K1') as (X2 & w2 & C2 & m2 & H2 & K2' & E2 & O2 & I2 & B2 & S2); rewrite ?fn_lookup_insert; [lia|done| |].
  { change (freeblock m1 + 1 - 0 <= FSSIZE). lia. }
  rewrite fn_lookup_insert in E2. rewrite fn_lookup_insert in B2. rewrite (bind_ok _ _ _ _ _ H2).
  destruct (iappend_ok _ _ _ m2 1 (new_dent 1 dotdot) K2') as (X3 & w3 & C3 & m3 & H3 & K3' & E3 & O3 & I3 & B3 & S3); rewrite ?E2; [lia|done| |].
  { change (freeblock m2 + 1 - 1 <= FSSIZE). change (freeblock m2 = freeblock m1 + 1 - 0) in B2. lia. }
  rewrite E2 in B3. rewrite (bind_ok _ _ _ _ _ H3). exists X3, w3, C3, m3. split; [done|].
  destruct (S2 1 ltac:(lia)) as [U1 U2], (S3 1 ltac:(lia)) as [U3 U4]. rewrite fn_lookup_insert in U1, U2. rewrite E2 in E3.
  split; [done|cbn; lia| | |done].
  - change (freeblock m2 = freeblock m1 + 1 - 0) in B2. change (freeblock m3 = freeblock m2 + 1 - 1) in B3. change (freeblock m3 = nmeta + 1 + 0). lia.
  - rewrite E3. split; [done|]. split; [done|]. split; [now rewrite U3, U1|now rewrite U4, U2].
Qed.

(** ** The bitmap *)

Lemma balloc_bits_at k : forall i buf bi, WF_block buf -> 0 <= i -> i + Z.of_nat k <= BPB -> 0 <= bi < BPB ->
  bit_at bi (balloc_bits k i buf) = ((i <=? bi) && (bi <? i + Z.of_nat k)) || bit_at bi buf.
Proof.
  induction k as [|k IH]; intros i buf bi HW Hi Hk Hbi; cbn [balloc_bits].
  - destruct (Z.leb_spec i bi), (Z.ltb_spec bi (i + Z.of_nat 0)); cbn; lia || done.
  - rewrite IH; [|unfold WF_block, put8 in *; now rewrite length_insert|lia|lia|done].
    change (Z.shiftl 1 (i mod 8)) with (bit_mask i). rewrite bit_at_set by (done || lia). rewrite orb_assoc. f_equal. lia.
Qed.

Lemma balloc_bits_wf k : forall i buf, WF_block buf -> WF_block (balloc_bits k i buf).
Proof. induction k as [|k IH]; intros i buf HW; cbn; [done|]. apply IH. unfold WF_block, put8 in *. now rewrite length_insert. Qed.

Lemma bit_at_zeros bi : 0 <= bi < BPB -> bit_at bi zeros = false.
Proof.
  intros Hb. unfold bit_at, get8, zeros. rewrite lookup_replicate_2 by (unfold BPB, BSIZE in *; dlia). cbn. apply Z.bits_0.
Qed.

(** The last steps: the root's size, and the bitmap. *)
Definition finish (m : mkstate) (x : dinode) : mkstate :=
  let m1 := with_inode 1 x m in Mk (<[45 := balloc_bits (Z.to_nat (freeblock m)) 0 zeros]> (mk_img m1)) FSSIZE (freeinode m) (freeblock m).

Lemma finish_ok fs X who C m :
  progress fs X who C m -> Z.of_nat (length fs) <= NINODES - 2 ->
  let x := set_size (((32 + 16 * Z.of_nat (length fs)) / BSIZE + 1) * BSIZE) (X 1) in
  (din ← rinode 1;
   let off := xint (di_size din) in
   let off := (off / BSIZE + 1) * BSIZE in
   winode 1 (set_size (xint off) din);;
   b ← gets freeblock;
   balloc b) m = Ok tt (finish m x) /\ dinode_ok x.
Proof.
  intros [HK Hi Hb (R1 & R2 & R3 & R4) HF] Hn x. destruct mk_consts as (K1 & K2 & K3 & K4 & K5 & K6 & K7).
  pose proof (fl_img _ _ _ _ (mk_files _ _ _ _ HK)) as HI. pose proof (im_first _ _ _ _ HI) as Hf. pose proof (im_len _ _ _ _ HI) as Hl.
  assert (1 <= 1 < freeinode m) as H1 by lia. rewrite (bind_ok _ _ _ _ _ (rinode_ok _ _ _ _ _ HK H1)). cbn zeta. rewrite (mk_size _ _ _ _ HK 1 H1), R2.
  rewrite (xint_id (32 + _)) by (unfold is_u32; lia). rewrite xint_id by (unfold is_u32, BSIZE in *; dlia). fold x. rewrite (bind_ok _ _ _ _ _ (winode_ok 1 x m Hl ltac:(lia))).
  pose proof (im_dinode _ _ _ _ HI 1 H1) as [D1 D2 D3 D4 D5 D6 D7].
  split; [|split; try done; unfold x, is_u32, BSIZE in *; cbn; dlia].
  erewrite bind_ok by reflexivity. unfold balloc. change (freeblock (with_inode 1 x m)) with (freeblock m).
  rewrite (proj2 (Z.ltb_lt _ BPB)) by (unfold BPB, BSIZE in *; lia). erewrite bind_ok by reflexivity.
  change (sb_bmapstart mk_sb) with 45. unfold wsect, modify, finish. cbn [mk_img mk_len freeinode freeblock with_inode]. do 2 f_equal. rewrite Hl. done.
Qed.

(** ** The file system made *)

Lemma mk_layout : layout mk_sb 2.
Proof. split; vm_compute; done. Qed.

Lemma datastart_sb : datastart mk_sb = nmeta /\ sb_size mk_sb = FSSIZE /\ sb_ninodes mk_sb = NINODES.
Proof. vm_compute. done. Qed.

(** The files of the image are well formed once the bitmap says so. *)
Lemma img_file_ok X nb who m i :
  img_ok X nb who m -> 1 <= i < freeinode m -> (forall b, nmeta <= b < freeblock m -> used mk_sb (mk_img m) b = true) ->
  di_size (X i) <= nb i * BSIZE -> file_ok mk_sb (view (mk_img m)) (X i).
Proof.
  intros [I1 I2 I3 I4 I5 I6 I7 I8 I9 I10 I11 I12] Hi Hu Hs. destruct datastart_sb as (E1 & E2 & _). destruct mk_consts as (K1 & K2 & K3 & K4 & K5 & K6 & K7).
  assert (forall b, nmeta <= b < freeblock m -> data_block mk_sb (view (mk_img m)) b) as Hb by (intros b Hb; split; [lia|auto]).
  pose proof (I8 i Hi) as Hnb. pose proof (I7 i Hi) as Hx. pose proof (dn_size _ Hx) as Hsz. unfold is_u32 in Hsz. split; [done|]. cbn [d_data view]. split.
  - unfold BSIZE in *. lia.
  - intros bn H0 Hlt. apply I9; [done| |]; unfold BSIZE in *; lia.
  - intros bn Hbn Hne. apply Hb. apply I11; [done|]. apply I9 in Hne; [lia|done|done].
  - intros Hne. apply I10 in Hne; [|done]. destruct (I12 i Hi Hne) as [H1 H2]. split; [auto|]. intros bn Hbn E.
    assert (bn < nb i) as Hlt by (apply I9; [done|done|lia]). destruct (I11 i bn Hi ltac:(lia)) as [_ H4]. rewrite E, H2 in H4. injection H4 as H4. lia.
  - intros E bn Hbn. unfold file_addr. rewrite (proj2 (Z.ltb_ge bn NDIRECT)), E by lia. done.
  - intros bn bn' Hbn Hbn' Hne E. assert (bn < nb i) as H1 by (apply I9; done). assert (bn' < nb i) as H2 by (apply I9; [done|done|lia]).
    destruct (I11 i bn Hi ltac:(lia)) as [_ W1], (I11 i bn' Hi ltac:(lia)) as [_ W2]. rewrite E, W2 in W1. congruence.
Qed.

(** A list of entries of 16 bytes. *)
Lemma concat_entries (es : list (list Z)) : Forall (fun e => length e = 16%nat) es ->
  forall i r, (r < 16)%nat -> concat es !! (16 * i + r)%nat = e ← es !! i; e !! r.
Proof.
  induction 1 as [|e es He _ IH]; intros i r Hr; cbn [concat]; [now rewrite !lookup_nil|]. destruct i as [|i].
  - now rewrite lookup_app_l by lia.
  - rewrite lookup_app_r by lia. cbn [lookup list_lookup]. rewrite <- IH by done. f_equal. lia.
Qed.

Lemma dents_entries data x es :
  Forall (fun e => length e = 16%nat /\ Forall (fun c => 0 <= c < 256) e) es -> 0 <= di_size x ->
  (forall k, 0 <= k < di_size x -> fbyte data x k = default 0 (concat es !! Z.to_nat k)) -> 16 * Z.of_nat (length es) <= di_size x ->
  dents data x = es ++ replicate (Z.to_nat (di_size x / 16) - length es) (replicate 16 0).
Proof.
  intros Hes H0 Hb Hle. assert (Forall (fun e : list Z => length e = 16%nat) es) as H16 by (eapply Forall_impl; [exact Hes|]; cbn; tauto).
  pose proof (length_dents data x H0) as Hlen. apply list_eq_same_length with (n := length (dents data x)); [|done|].
  { rewrite length_app, length_replicate. dlia. }
  intros i a b Hi Ha Hb'. replace i with (Z.to_nat (Z.of_nat i)) in Ha by lia. rewrite lookup_dents in Ha by lia. injection Ha as <-.
  assert (forall r, (r < 16)%nat -> fbyte data x (16 * Z.of_nat i + Z.of_nat r) = default 0 (e ← es !! i; e !! r)) as Hf.
  { intros r Hr. rewrite Hb by dlia. rewrite <- (concat_entries es H16 i r Hr). do 2 f_equal. lia. }
  assert (length b = 16%nat /\ Forall (fun c => 0 <= c < 256) b /\ forall r, default 0 (e ← es !! i; e !! r) = default 0 (b !! r)) as (Lb & Bb & Hd).
  { destruct (es !! i) as [e|] eqn:Ee.
    - rewrite lookup_app_l in Hb' by (eapply lookup_lt_Some; exact Ee). rewrite Ee in Hb'. injection Hb' as <-.
      destruct (proj1 (Forall_lookup _ _) Hes i e Ee) as [H1 H2]. done.
    - apply lookup_ge_None in Ee. rewrite lookup_app_r in Hb' by done. apply lookup_replicate in Hb' as [-> _]. split; [done|].
      split; [now apply Forall_replicate|]. intros r. destruct (replicate 16 0 !! r) as [y|] eqn:E; [|done]. apply lookup_replicate in E as [-> _]. done. }
  apply list_eq_same_length with (n := 16%nat); [done|apply length_dent|]. intros r y z Hr Hy Hz.
  unfold dent, fslice in Hy. rewrite !list_lookup_fmap, lookup_seqZ_lt in Hy by lia. cbn in Hy. injection Hy as <-.
  rewrite Hf, Hd, Hz by done. cbn. apply (proj1 (Forall_lookup _ _) Bb) in Hz. unfold u8. apply Z.mod_small. lia.
Qed.

(** The entries of the root directory. *)
Lemma lookup_root_dents ns j : root_dents ns !! j = (fun nm => new_dent (Z.max 1 (Z.of_nat j)) nm) <$> ((dot :: dotdot :: ns) !! j).
Proof.
  assert (forall k n, root_entries n ns !! k = new_dent (n + Z.of_nat k) <$> ns !! k) as H.
  { induction ns as [|nm ns IH]; intros k n; [done|]. destruct k as [|k]; cbn; [now rewrite Z.add_0_r|]. rewrite IH. do 2 f_equal. lia. }
  destruct j as [|[|j]]; [done|done|]. cbn [root_dents lookup list_lookup]. change (list_lookup j (root_entries 2 ns)) with (root_entries 2 ns !! j).
  rewrite H. change (list_lookup j ns) with (ns !! j). destruct (ns !! j); [|done]. cbn [fmap option_fmap option_map]. do 2 f_equal. lia.
Qed.

(** What the command line must be: the files, of names and contents [fs], can be
    read, their names can be told apart, and there is room for them.  The root
    directory must not fill its blocks, see [root_rounding]. *)
Record input_ok (files : list (list Z * option (list (list Z)))) (fs : list (list Z * list Z)) : Prop := InputOk {
  in_files : Forall2 (fun f r => file_arg f r.1 r.2) files fs;
  in_names : NoDup (dot :: dotdot :: fs.*1);
  in_bytes : Forall (Forall (fun c => 0 < c < 256)) fs.*1;
  in_count : Z.of_nat (length fs) <= NINODES - 2;
  in_round : (2 + Z.of_nat (length fs)) mod 64 <> 0;
  in_space : nmeta + root_cost (Z.of_nat (length fs)) + zsum (fun f => cost (blocks (flen f.2))) fs <= FSSIZE;
}.

Section final.
Context (files : list (list Z * option (list (list Z)))) (fs : list (list Z * list Z)).
Context (X : Z -> dinode) (who : Z -> option (Z * Z)) (C : Z -> list Z) (m : mkstate).
Context (HIn : input_ok files fs) (HP : progress fs X who C m).
Let n := Z.of_nat (length fs).
Let x := set_size (((32 + 16 * n) / BSIZE + 1) * BSIZE) (X 1).
Let X' : Z -> dinode := <[1 := x]> X.
Context (Hx : dinode_ok x).
Let m' := finish m x.
Let D := view (mk_img m').

Lemma final_img c : c < 32 \/ 46 <= c -> mk_img m' c = mk_img m c.
Proof. intros Hc. unfold m', finish. cbn [mk_img]. rewrite fn_lookup_insert_ne by lia. apply with_inode_other; [done|lia]. Qed.

Lemma final_disk i : 0 <= i < NINODES -> disk_inode mk_sb (mk_img m') i = if i =? 1 then x else disk_inode mk_sb (mk_img m) i.
Proof.
  intros Hi. pose proof (inode_block i Hi). rewrite <- (with_inode_disk 1 x m i Hx (im_wf _ _ _ _ (fl_img _ _ _ _ (mk_files _ _ _ _ (pr_ok _ _ _ _ _ HP))))) by lia.
  unfold disk_inode, m', finish. cbn [mk_img]. now rewrite fn_lookup_insert_ne by lia.
Qed.

Lemma final_files : files_ok X' who C m'.
Proof.
  pose proof (mk_files _ _ _ _ (pr_ok _ _ _ _ _ HP)) as HF. pose proof (fl_img _ _ _ _ HF) as HI. destruct mk_consts as (K1 & _).
  apply (files_meta X X' who C m m'); try done; [symmetry; apply HI|intros c Hc; apply final_img; lia| |].
  - intros c. unfold m', finish. cbn [mk_img]. destruct (Z.eq_dec c 45) as [->|]; [rewrite fn_lookup_insert; now apply balloc_bits_wf|].
    rewrite fn_lookup_insert_ne by done. apply with_inode_wf; [done|apply HI].
  - intros i Hi. unfold X'. destruct (Z.eq_dec i 1) as [->|]; [now rewrite fn_lookup_insert|rewrite fn_lookup_insert_ne by done]. split; [now apply HI|done].
Qed.

Lemma final_used b : 0 <= b < FSSIZE -> used mk_sb (mk_img m') b = (b <? freeblock m).
Proof.
  intros Hb. pose proof (im_first _ _ _ _ (fl_img _ _ _ _ (mk_files _ _ _ _ (pr_ok _ _ _ _ _ HP)))) as Hf. destruct mk_consts as (K1 & K2 & _).
  assert (BBLOCK b mk_sb = 45 /\ b mod BPB = b) as [E1 E2].
  { unfold BBLOCK. change (sb_bmapstart mk_sb) with 45. change BPB with 8192. rewrite Z.div_small, Z.mod_small by lia. done. }
  unfold used. rewrite E1, E2. unfold m', finish. cbn [mk_img]. rewrite fn_lookup_insert.
  rewrite balloc_bits_at, bit_at_zeros; change BPB with 8192; [|lia|done|lia|lia|lia]. lia.
Qed.

Lemma final_root : di_size x = blocks (32 + 16 * n) * BSIZE /\ di_size x mod 16 = 0 /\ 32 + 16 * n <= di_size x.
Proof. pose proof (in_round _ _ HIn) as Hr. fold n in Hr. unfold x. cbn [di_size set_size]. unfold blocks, BSIZE. dlia. Qed.

Lemma final_file i : 1 <= i < freeinode m -> di_size (X' i) <= blocks (flen (C i)) * BSIZE /\ disk_inode mk_sb (mk_img m') i = X' i.
Proof.
  intros Hi. pose proof (pr_ok _ _ _ _ _ HP) as HK. pose proof (mk_count _ _ _ _ HK). rewrite final_disk by lia. unfold X'.
  destruct (Z.eqb_spec i 1) as [->|Hne].
  - rewrite fn_lookup_insert. destruct final_root as [E _]. destruct (pr_root _ _ _ _ _ HP) as (_ & E1 & _). fold n in E1. rewrite E1. split; [lia|done].
  - rewrite fn_lookup_insert_ne by done. rewrite (mk_size _ _ _ _ HK i Hi). split; [|now apply HK]. pose proof (blocks_bound (flen (C i))). unfold flen in *. lia.
Qed.

Lemma name_len nm : nm ∈ fs.*1 -> (length nm <= 14)%nat.
Proof.
  intros (r & -> & Hr)%list_elem_of_fmap. apply list_elem_of_lookup in Hr as [i Hi].
  destruct (Forall2_lookup_r _ _ _ _ _ (in_files _ _ HIn) Hi) as (f & _ & HA). pose proof (fa_len _ _ _ HA). unfold DIRSIZ in *. lia.
Qed.

Lemma final_dents : dents (mk_img m') x = root_dents fs.*1 ++ replicate (Z.to_nat (di_size x / 16) - (2 + length fs)) (replicate 16 0).
Proof.
  assert (length (root_dents fs.*1) = 2 + length fs)%nat as Hl.
  { assert (forall k (l : list (list Z)), length (root_entries k l) = length l) as H by (intros k l; revert k; induction l as [|a l IH]; intros k; cbn; [done|now rewrite IH]).
    cbn [root_dents length]. now rewrite H, length_fmap. }
  rewrite <- Hl. destruct final_root as (E & _ & Hle). destruct (pr_root _ _ _ _ _ HP) as (R1 & R2 & _). fold n in R2. apply dents_entries.
  - apply Forall_lookup. intros j e He. rewrite lookup_root_dents in He. apply fmap_Some in He as (nm & Hnm & ->).
    assert ((length nm <= 14)%nat /\ Forall (fun c => 0 <= c < 256) nm) as [H1 H2].
    { destruct j as [|[|j]]; cbn in Hnm; [injection Hnm as <-; split; [cbn; lia|repeat constructor; lia]..|].
      apply list_elem_of_lookup_2 in Hnm. split; [now apply name_len|]. eapply Forall_impl; [exact (proj1 (Forall_forall _ _) (in_bytes _ _ HIn) nm Hnm)|]. cbn. lia. }
    split; [pose proof (length_new_dent (Z.max 1 (Z.of_nat j)) nm H1); unfold flen in *; lia|]. unfold new_dent. apply Forall_app. split; [repeat constructor; apply u8_range|].
    apply Forall_app. split; [done|]. now apply Forall_replicate.
  - unfold n in *. lia.
  - intros k Hk. rewrite <- R1. pose proof (fl_byte _ _ _ _ final_files 1 k) as H. unfold X' in H. rewrite fn_lookup_insert in H. apply H.
    + cbn [freeinode finish m']. rewrite (pr_inodes _ _ _ _ _ HP). lia.
    + rewrite R2. lia.
  - rewrite Hl. unfold n in *. lia.
Qed.

Lemma final_type i : 1 <= i < freeinode m -> di_type (X' i) <> 0 /\ di_nlink (X' i) = 1 /\ (di_type (X' i) = T_DIR -> i = 1).
Proof.
  intros Hi. rewrite (pr_inodes _ _ _ _ _ HP) in Hi. unfold X'. destruct (Z.eq_dec i 1) as [->|Hne].
  - rewrite fn_lookup_insert. destruct (pr_root _ _ _ _ _ HP) as (_ & _ & E1 & E2). unfold x. cbn [di_type di_nlink set_size]. rewrite E1, E2. done.
  - rewrite fn_lookup_insert_ne by done. destruct (lookup_lt_is_Some_2 fs (Z.to_nat (i - 2))) as [f Hf]; [lia|].
    destruct (pr_file _ _ _ _ _ HP _ f Hf) as (_ & E1 & E2). replace (2 + Z.of_nat (Z.to_nat (i - 2))) with i in * by lia. rewrite E1, E2. done.
Qed.

Lemma final_live i : 1 <= i < freeinode m -> live mk_sb D i.
Proof.
  intros Hi. pose proof (mk_count _ _ _ _ (pr_ok _ _ _ _ _ HP)). destruct datastart_sb as (_ & _ & E). split; [lia|]. cbn zeta. unfold D. cbn [d_data view].
  destruct (final_file i Hi) as [_ ->]. destruct (final_type i Hi) as (H1 & H2 & _). rewrite H2. done.
Qed.

(** An entry of the root directory in use. *)
Lemma final_entry e : e ∈ dents (mk_img m') x -> de_inum e <> 0 -> 1 <= de_inum e < freeinode m.
Proof.
  rewrite final_dents, elem_of_app. intros [He|He] Hne.
  - apply list_elem_of_lookup in He as [j Hj]. rewrite lookup_root_dents in Hj. apply fmap_Some in Hj as (nm & Hnm & ->).
    apply lookup_lt_Some in Hnm. cbn [length] in Hnm. rewrite length_fmap in Hnm. pose proof (in_count _ _ HIn). unfold NINODES in *.
    unfold de_inum, new_dent. rewrite take_app_length' by (now rewrite length_le_bytes). rewrite le_val_bytes, Z.mod_small by (cbn; lia).
    rewrite (pr_inodes _ _ _ _ _ HP). lia.
  - apply elem_of_replicate in He as [-> _]. done.
Qed.

Lemma final_tree : tree_ok mk_sb D.
Proof.
  pose proof (pr_ok _ _ _ _ _ HP) as HK. pose proof (mk_count _ _ _ _ HK) as Hc. destruct datastart_sb as (_ & _ & En). destruct mk_consts as (K1 & K2 & _).
  assert (forall j, 0 <= j < NINODES -> di_type (disk_inode mk_sb (mk_img m') j) <> 0 -> 1 <= j < freeinode m) as Hr.
  { intros j Hj Ht. destruct (Z_lt_le_dec j (freeinode m)) as [H1|H1], (Z.eq_dec j 0) as [H2|H2]; try lia;
      (rewrite final_disk, (proj2 (Z.eqb_neq j 1)), (mk_other _ _ _ _ HK j) in Ht by (pose proof (pr_inodes _ _ _ _ _ HP); lia); done). }
  split; unfold D; cbn [d_data view]; rewrite En.
  - intros j Hj Ht. pose proof (Hr j Hj Ht) as Hj1. destruct (final_file j Hj1) as [Hs ->].
    apply (img_file_ok X' _ who m' j (fl_img _ _ _ _ final_files)); [done| |exact Hs]. intros b Hb. pose proof (im_first _ _ _ _ (fl_img _ _ _ _ final_files)).
    rewrite final_used by lia. change (freeblock m') with (freeblock m) in Hb. lia.
  - intros j Hj Ht. assert (1 <= j < freeinode m) as Hj1 by (apply Hr; [done|]; rewrite Ht; done). destruct (final_file j Hj1) as [_ E]. rewrite E in *.
    destruct (final_type j Hj1) as (_ & _ & H1). specialize (H1 Ht). subst j. unfold X'. rewrite fn_lookup_insert. destruct final_root as (_ & Hm & _).
    split; [done|]. intros e He Hne. apply final_live. now apply final_entry.
Qed.

Lemma final_lookup i f : fs !! i = Some f -> resolve mk_sb (mk_img m') ROOTINO [f.1] = Some (2 + Z.of_nat i).
Proof.
  intros Hf. assert (1 <= 1 < freeinode m) as H1 by (rewrite (pr_inodes _ _ _ _ _ HP); lia). destruct (final_file 1 H1) as [_ E].
  cbn [resolve]. change ROOTINO with 1. rewrite E. unfold X'. rewrite fn_lookup_insert. destruct (pr_root _ _ _ _ _ HP) as (_ & _ & Et & _).
  change (di_type x) with (di_type (X 1)). rewrite Et. change (T_DIR =? T_DIR) with true. cbn iota.
  assert (f.1 ∈ fs.*1) as Hin by (apply list_elem_of_fmap; exists f; split; [done|now apply list_elem_of_lookup_2 in Hf]).
  rewrite take_ge by (now apply name_len). set (ns := dot :: dotdot :: fs.*1) in *. pose proof (in_count _ _ HIn) as Hc. unfold NINODES in Hc.
  assert (forall j nm, ns !! j = Some nm -> de_inum (new_dent (Z.max 1 (Z.of_nat j)) nm) = Z.max 1 (Z.of_nat j) /\ de_name (new_dent (Z.max 1 (Z.of_nat j)) nm) = nm) as Hd.
  { intros j nm Hnm. apply new_dent_fields; [apply lookup_lt_Some in Hnm; cbn in Hnm; rewrite length_fmap in Hnm; lia|].
    destruct j as [|[|j]]; cbn in Hnm; [injection Hnm as <-; repeat constructor; done..|]. apply list_elem_of_lookup_2 in Hnm.
    eapply Forall_impl; [exact (proj1 (Forall_forall _ _) (in_bytes _ _ HIn) nm Hnm)|]. cbn. lia. }
  assert (ns !! S (S i) = Some f.1) as Hi by (change (fs.*1 !! i = Some f.1); now rewrite list_lookup_fmap, Hf).
  assert (dir_lookup (mk_img m') x f.1 = Some (S (S i), new_dent (2 + Z.of_nat i) f.1)) as ->.
  { apply list_find_Some. rewrite final_dents. destruct (Hd _ _ Hi) as [D1 D2]. replace (Z.max 1 (Z.of_nat (S (S i)))) with (2 + Z.of_nat i) in * by lia.
    split; [apply lookup_app_l_Some; rewrite lookup_root_dents; fold ns; rewrite Hi; cbn [fmap option_fmap option_map]; do 2 f_equal; lia|].
    split; [split; [lia|done]|]. intros j e He Hlt [_ Hn]. assert (j < length ns)%nat as Hj by (apply lookup_lt_Some in Hi; lia).
    destruct (lookup_lt_is_Some_2 ns j Hj) as [nm Hnm]. assert (root_dents fs.*1 !! j = Some (new_dent (Z.max 1 (Z.of_nat j)) nm)) as Hr by (rewrite lookup_root_dents; fold ns; now rewrite Hnm).
    rewrite (lookup_app_l_Some _ _ _ _ Hr) in He. injection He as <-. destruct (Hd j nm Hnm) as [_ D4]. rewrite D4 in Hn. subst nm.
    pose proof (NoDup_lookup ns j (S (S i)) _ (in_names _ _ HIn) Hnm Hi). lia. }
  destruct (Hd _ _ Hi) as [D1 _]. replace (Z.max 1 (Z.of_nat (S (S i)))) with (2 + Z.of_nat i) in D1 by lia. now rewrite D1.
Qed.

Lemma final_contents i f : fs !! i = Some f -> let y := disk_inode mk_sb (mk_img m') (2 + Z.of_nat i) in
  di_type y = T_FILE /\ di_nlink y = 1 /\ di_size y = flen f.2 /\ fslice (mk_img m') y 0 (flen f.2) = f.2.
Proof.
  intros Hf y. pose proof (lookup_lt_Some _ _ _ Hf) as Hlt. pose proof (pr_inodes _ _ _ _ _ HP) as Hn. set (j := 2 + Z.of_nat i) in *.
  assert (1 <= j < freeinode m) as Hj by lia. destruct (final_file j Hj) as [_ E]. unfold y. rewrite E.
  destruct (pr_file _ _ _ _ _ HP i f Hf) as (E1 & E2 & E3). fold j in E1, E2, E3. pose proof (mk_size _ _ _ _ (pr_ok _ _ _ _ _ HP) j Hj) as Hs.
  assert (X' j = X j) as EX by (unfold X'; now rewrite fn_lookup_insert_ne by lia). rewrite EX. split; [done|]. split; [done|]. split; [congruence|].
  apply list_eq_same_length with (n := length f.2); [done|rewrite length_fslice; unfold flen; lia|]. intros k a b Hk Ha Hb. unfold fslice in Ha.
  rewrite list_lookup_fmap, lookup_seqZ_lt in Ha by (unfold flen; lia). cbn [fmap option_fmap option_map] in Ha.
  pose proof (fl_byte _ _ _ _ final_files j (0 + Z.of_nat k) Hj) as HB. rewrite EX, E1 in HB. rewrite HB in Ha.
  - injection Ha as <-. replace (Z.to_nat (0 + Z.of_nat k)) with k by lia. now rewrite Hb.
  - pose proof (blocks_bound (flen f.2)). unfold flen in *. lia.
Qed.

(** No block belongs to two files, or twice to one. *)
Lemma final_unshared i j bn bn' : 0 <= i < NINODES -> 0 <= j < NINODES -> 0 <= bn < MAXFILE -> 0 <= bn' < MAXFILE ->
  let a := file_addr (mk_img m') (disk_inode mk_sb (mk_img m') i) bn in
  a <> 0 -> a = file_addr (mk_img m') (disk_inode mk_sb (mk_img m') j) bn' -> i = j /\ bn = bn'.
Proof.
  intros Hi Hj Hbn Hbn' a Ha E. pose proof (fl_img _ _ _ _ final_files) as HI.
  assert (forall k c, 0 <= k < NINODES -> 0 <= c < MAXFILE -> file_addr (mk_img m') (disk_inode mk_sb (mk_img m') k) c <> 0 ->
    who (file_addr (mk_img m') (disk_inode mk_sb (mk_img m') k) c) = Some (k, c)) as Hw.
  { intros k c Hk Hc Hne. destruct (decide (1 <= k < freeinode m)) as [Hin|Hout].
    - destruct (final_file k Hin) as [_ Ek]. rewrite Ek in *. pose proof (proj1 (im_addr _ _ _ _ HI k c Hin Hc) Hne) as Hlt.
      now destruct (im_own _ _ _ _ HI k c Hin (conj (proj1 Hc) Hlt)).
    - pose proof (pr_inodes _ _ _ _ _ HP) as Hfi. assert (k <> 1 /\ (k = 0 \/ freeinode m <= k < NINODES)) as [Hk1 Hk2] by lia.
      destruct Hne. rewrite final_disk, (proj2 (Z.eqb_neq k 1) Hk1), (mk_other _ _ _ _ (pr_ok _ _ _ _ _ HP) k Hk2) by done.
      unfold file_addr. change (addr no_inode NDIRECT) with 0. destruct (Z.ltb_spec c NDIRECT); [|done]. unfold addr. cbn [di_addrs no_inode].
      destruct (replicate 13 0 !! Z.to_nat c) as [y|] eqn:Ey; [|done]. now apply lookup_replicate in Ey as [-> _]. }
  pose proof (Hw i bn Hi Hbn Ha) as W1. pose proof (Hw j bn' Hj Hbn') as W2. rewrite <- E in W2. specialize (W2 Ha). fold a in W1. rewrite W1 in W2. injection W2. done.
Qed.
End final.

Lemma main_ok files fs : input_ok files fs -> exists X who C m, let x := set_size (((32 + 16 * Z.of_nat (length fs)) / BSIZE + 1) * BSIZE) (X 1) in
  main (Some true) files mk_start = Ok tt (finish m x) /\ progress fs X who C m /\ dinode_ok x.
Proof.
  intros HIn. unfold main. change (BSIZE mod 64 =? 0) with true. change (BSIZE mod 16 =? 0) with true.
  erewrite bind_ok by reflexivity. erewrite bind_ok by reflexivity. cbn iota. unfold make_fs. destruct zero_loop_ok as (m0 & H0 & L0 & I0 & B0 & Z0).
  rewrite <- bind_assoc. rewrite (bind_ok _ _ _ _ _ H0). erewrite bind_ok by reflexivity.
  set (m1 := Mk (<[1 := sb_bytes mk_sb]> (mk_img m0)) (Z.max (mk_len m0) (1 + 1)) (freeinode m0) (freeblock m0)).
  assert (mk_ok (fun _ => no_inode) (fun _ => None) (fun _ => []) m1) as HK.
  { apply blank_ok; try done; [cbn; rewrite L0; done|]. intros c. cbn. destruct (Z.eqb_spec c 1) as [->|]; [now rewrite fn_lookup_insert|now rewrite fn_lookup_insert_ne]. }
  edestruct (root_ok _ _ _ m1 (fun rootino => add_files rootino files;; din ← rinode rootino; let off := xint (di_size din) in
    let off := (off / BSIZE + 1) * BSIZE in winode rootino (set_size (xint off) din);; b ← gets freeblock; balloc b) HK) as (X1 & w1 & C1 & m2 & H2 & P2); [done|done|].
  cbn zeta in H2. rewrite H2. destruct HIn as [N1 N2 N3 N4 N5 N6].
  destruct (add_files_ok files [] fs X1 w1 C1 m2 P2 N1 N4 N6) as (X & who & C & m & H3 & P3). rewrite (bind_ok _ _ _ _ _ H3).
  exists X, who, C, m. cbn zeta. destruct (finish_ok fs X who C m P3 N4) as [H4 Hx]. cbn zeta in H4. rewrite H4. done.
Qed.

(** With 62 files the root directory fills its block, and the size that it is
    given covers a block that it does not have. *)
Definition many_files : list (list Z * option (list (list Z))) := (fun i => ([48 + i], Some [])) <$> seqZ 0 62.

Lemma root_rounding : exists m, main (Some true) many_files mk_start = Ok tt m /\ ~ tree_ok mk_sb (view (mk_img m)).
Proof.
  assert (match main (Some true) many_files mk_start with
          | Ok _ m => let x := disk_inode mk_sb (mk_img m) 1 in (di_type x =? T_DIR) && (di_size x =? 2048) && (file_addr (mk_img m) x 1 =? 0)
          | _ => false
          end = true) as H by (vm_compute; reflexivity).
  destruct (main (Some true) many_files mk_start) as [[] m| |]; [|discriminate..]. cbv zeta in H. exists m. split; [done|]. intros [HT _].
  destruct (HT 1 ltac:(done)) as [_ HB]; cbn [d_data view] in *; [unfold T_DIR in H; lia|].
  apply (bo_alloc _ _ _ _ _ HB 1); unfold BSIZE; lia.
Qed.

(** C9: on a command line that is [input_ok] (readable files of at most
    [MAXFILE] blocks; distinct names of at most [DIRSIZ] characters once [user/]
    and the underscore are dropped, none of them [.] or [..]; no more files than
    inodes; a root directory whose entries do not exactly fill its blocks; room for
    all of it on the disk) mkfs leaves a well-formed file system: the superblock
    that the kernel reads is the one computed, the log is empty, the bitmap marks the blocks
    taken and no others, every inode in use has the blocks its size needs, all of
    them in use, distinct, and of no other file, and the entries of the root
    directory name inodes in use. *)
Theorem mkfs_well_formed files fs : input_ok files fs ->
  exists m, main (Some true) files mk_start = Ok tt m /\ mk_len m = FSSIZE /\ let D := view (mk_img m) in
    read_sb (mk_img m 1) = mk_sb /\ sb_magic mk_sb = FSMAGIC /\ layout mk_sb 2 /\ (forall c, 2 <= c < 2 + LOGSIZE -> mk_img m c = zeros) /\
    bitmap_ok mk_sb D /\ (forall b, 0 <= b < FSSIZE -> used mk_sb (mk_img m) b = (b <? freeblock m)) /\
    tree_ok mk_sb D /\ live mk_sb D ROOTINO /\
    (forall i j bn bn', 0 <= i < NINODES -> 0 <= j < NINODES -> 0 <= bn < MAXFILE -> 0 <= bn' < MAXFILE ->
      let a := file_addr (mk_img m) (disk_inode mk_sb (mk_img m) i) bn in
      a <> 0 -> a = file_addr (mk_img m) (disk_inode mk_sb (mk_img m) j) bn' -> i = j /\ bn = bn').
Proof.
  intros HIn. destruct (main_ok files fs HIn) as (X & who & C & m & H & HP & Hx). exists (finish m (set_size (((32 + 16 * Z.of_nat (length fs)) / BSIZE + 1) * BSIZE) (X 1))).
  pose proof (pr_ok _ _ _ _ _ HP) as HK. destruct mk_consts as (K1 & K2 & K3 & _). pose proof (pr_inodes _ _ _ _ _ HP) as Hn.
  pose proof (final_used fs X who C m HP) as HU. pose proof (final_img fs X m) as HG. pose proof (im_first _ _ _ _ (fl_img _ _ _ _ (mk_files _ _ _ _ HK))) as Hf.
  set (x := set_size _ _) in *. set (m' := finish m x) in *.
  split; [exact H|]. split; [done|]. cbn zeta. split; [rewrite HG, (mk_super _ _ _ _ HK) by lia; vm_compute; reflexivity|].
  split; [done|]. split; [apply mk_layout|].
  split; [intros c Hc; rewrite HG by (unfold LOGSIZE, MAXOPBLOCKS in *; lia); apply (mk_log _ _ _ _ HK); unfold LOGSIZE, MAXOPBLOCKS in *; lia|].
  split; [split; [|done]; intros b Hb; destruct datastart_sb as (E & _); cbn [d_data view]; rewrite HU by lia; lia|].
  split; [exact HU|]. split; [exact (final_tree _ _ X who C m HIn HP Hx)|]. split; [apply (final_live _ _ X who C m HIn HP Hx); change ROOTINO with 1; lia|].
  exact (final_unshared _ _ X who C m HIn HP Hx).
Qed.

(** C32: on a command line that is [input_ok] (distinct short names, a root
    directory that does not exactly fill its blocks, enough inodes and blocks)
    every file on it is in the root directory under its name without [user/] and
    the underscore, and holds the bytes that were read. *)
Theorem mkfs_contents files fs : input_ok files fs ->
  exists m, main (Some true) files mk_start = Ok tt m /\ forall i f, fs !! i = Some f ->
    exists inum, resolve mk_sb (mk_img m) ROOTINO [f.1] = Some inum /\ let x := disk_inode mk_sb (mk_img m) inum in
      di_type x = T_FILE /\ di_nlink x = 1 /\ di_size x = flen f.2 /\ fslice (mk_img m) x 0 (flen f.2) = f.2.
Proof.
  intros HIn. destruct (main_ok files fs HIn) as (X & who & C & m & H & HP & Hx). eexists. split; [exact H|]. intros i f Hf.
  exists (2 + Z.of_nat i). split; [now apply (final_lookup _ _ X who C m HIn HP Hx)|]. now apply (final_contents _ _ X who C m HIn HP Hx).
Qed.

(** [user/_sh] in two pieces, and [README]. *)
Definition demo_files : list (list Z * option (list (list Z))) :=
  [([117; 115; 101; 114; 47; 95; 115; 104], Some [replicate 1024 7; [1; 2; 3]]); ([82; 69; 65; 68; 77; 69], Some [[120; 118; 54]])].

Definition demo_fs : list (list Z * list Z) := [([115; 104], replicate 1024 7 ++ [1; 2; 3]); ([82; 69; 65; 68; 77; 69], [120; 118; 54])].

Lemma demo_input : input_ok demo_files demo_fs.
Proof.
  split.
  - constructor; [|constructor; [|constructor]]; cbn [fst snd].
    + split; [refine (bool_decide_unpack _ _); vm_compute; exact I|vm_compute; reflexivity|cbn; done|eexists; split; [reflexivity|vm_compute; reflexivity]|vm_compute; done].
    + split; [refine (bool_decide_unpack _ _); vm_compute; exact I|vm_compute; reflexivity|cbn; done|eexists; split; [reflexivity|vm_compute; reflexivity]|vm_compute; done].
  - refine (bool_decide_unpack _ _). vm_compute. exact I.
  - repeat constructor.
  - done.
  - done.
  - vm_compute. done.
Qed.

Lemma mkfs_well_formed_witness : exists m, main (Some true) demo_files mk_start = Ok tt m /\ tree_ok mk_sb (view (mk_img m)) /\ live mk_sb (view (mk_img m)) ROOTINO.
Proof.
  destruct (mkfs_well_formed demo_files demo_fs demo_input) as (m & H & _ & _ & _ & _ & _ & _ & _ & HT & HL & _). exists m. split; [exact H|]. split; [exact HT|exact HL].
Defined.

Lemma mkfs_contents_witness : exists m, main (Some true) demo_files mk_start = Ok tt m /\
  exists inum, resolve mk_sb (mk_img m) ROOTINO [[115; 104]] = Some inum /\ fslice (mk_img m) (disk_inode mk_sb (mk_img m) inum) 0 1027 = replicate 1024 7 ++ [1; 2; 3].
Proof.
  destruct (mkfs_contents demo_files demo_fs demo_input) as (m & H & HF). exists m. split; [exact H|].
  destruct (HF 0%nat _ eq_refl) as (inum & H1 & _ & _ & _ & H2). exists inum. split; [exact H1|exact H2].
Defined.
