(* ===== verification/FsThms.v ===== *)
(** * kernel/fs.c: what the block and content operations guarantee

    First fit and exact accounting of [balloc] and [bfree], and reading and
    writing the bytes of files. *)

From stdpp Require Import base gmap numbers strings functions list.
From Stdlib Require Import ZifyBool.
From S2P Require Import Prelude Mem Block StringC Spinlock Locks Bio Log LogSpec BlockIO Fs FsBlocks FsInode FsFile FsIO FsDemo.

Open Scope Z_scope.

Section thms.
Context {B U : Type} `{BIO : BlockIO B} (dev : Z) `{BS : !BlockIOSpec B dev} `{UIO : UserIO U} `{UL : !UserLaws U}.
Implicit Types s : fstate B U.

(** C23: [balloc] is first fit and exact.  On a disk whose bitmap marks the
    metadata as in use it returns the lowest block not in use, zeroed; that bit
    is the only one to change and no other block's contents do, the bitmap
    block's apart.  It returns 0 only if every block is in use, and then changes
    nothing.  Freeing the block restores the bitmap, and freeing it again
    panics. *)
Theorem balloc_first_fit s D :
  let sb := f_sb s in
  layout sb (d_start D) -> io_rep (f_io s) D -> d_locked D = ∅ -> bitmap_ok sb D -> budget (bmaps sb) D 1 ->
  (exists b y D', balloc dev s = Ok b (with_io y s) /\ io_rep y D' /\ first_free sb D b /\
     datastart sb <= b < sb_size sb /\ d_data D' b = zeros /\
     (forall c, 0 <= c < sb_size sb -> used sb (d_data D') c = (c =? b) || used sb (d_data D) c) /\
     (forall c, c <> b -> c <> BBLOCK b sb -> d_data D' c = d_data D c) /\
     exists y' D'', bfree dev b (with_io y s) = Ok tt (with_io y' s) /\ io_rep y' D'' /\
       (forall c, 0 <= c < sb_size sb -> used sb (d_data D'') c = used sb (d_data D) c) /\
       bfree dev b (with_io y' s) = Panic "freeing free block") \/
  ((forall c, 0 <= c < sb_size sb -> used sb (d_data D) c = true) /\
   exists y, balloc dev s = Ok 0 (with_io y s) /\ io_rep y D).
Proof.
  intros sb HL HR Hlk HB Hn. pose proof (size_none_locked D Hlk) as Hsz.
  destruct (balloc_ok dev s (bmaps sb) D HL HR Hsz HB ltac:(done) Hn) as [(b & y & HF & H1 & R1 & _)|(Hfull & y & H1 & R1 & _)].
  2: { right. split; [done|]. now exists y. }
  left. fold sb in HF, R1. destruct (free_is_data sb D b HB HF) as [Hb _]. pose proof HF as (Hb0 & Hu & _).
  destruct (d_alloc_spec sb _ D b HL (io_wf _ _ _ HR) Hb) as (S1 & S2 & S3).
  destruct (alloc_extends sb (fun _ => False) D b HL (io_wf _ _ _ HR) HB HF) as (HE & Hbd & _ & HB1).
  exists b, y, (d_alloc sb b D). split; [done|]. split; [done|]. split; [done|]. split; [done|]. split; [done|]. split; [done|]. split; [done|].
  assert (budget (bmaps sb) (d_alloc sb b D) 0) as Hn1 by (apply budget_alloc; done).
  pose proof (bfree_ok dev (with_io y s) (bmaps sb) (d_alloc sb b D) b HL R1 Hsz HB1 ltac:(done) Hn1 Hb0) as H2. cbn zeta in H2.
  change (f_sb (with_io y s)) with sb in H2. rewrite (proj2 Hbd) in H2. destruct H2 as (y' & H2 & R2 & _).
  exists y', (clear_bit sb b (d_alloc sb b D)).
  assert (forall c, 0 <= c < sb_size sb -> used sb (d_data (clear_bit sb b (d_alloc sb b D))) c = used sb (d_data D) c) as Hback.
  { intros c Hc. rewrite used_clear_bit, S1 by (done || apply (io_wf _ _ _ R1)).
    destruct (Z.eqb_spec c b) as [->|]; cbn; [now rewrite Hu|done]. }
  split; [done|]. split; [done|]. split; [done|]. pose proof (ly_size _ _ HL) as Hly.
  assert (bitmap_ok sb (clear_bit sb b (d_alloc sb b D))) as HB2.
  { split; [|intros c Hc; now apply (none_locked D c) in Hlk]. intros c Hc. rewrite Hback by lia. now apply (proj1 HB). }
  pose proof (bfree_ok dev (with_io y' s) (bmaps sb) (clear_bit sb b (d_alloc sb b D)) b HL R2 Hsz HB2 ltac:(done)) as H3. cbn zeta in H3.
  change (f_sb (with_io y' s)) with sb in H3. rewrite Hback, Hu in H3 by done. apply H3; [|done].
  unfold clear_bit. apply budget_in; [done|]. apply elem_of_union. left. apply (BBLOCK_bmaps sb (d_start D)); done.
Qed.

(** C24: [writei] on a file, from a source that can be read in full
    ([source_ok]: [either_copyin] does not fail): the [tot] bytes it reports are written at the
    offset, the file grows to their end if need be, every other byte of the file
    is as before, the inode on disk is the one in memory, and no other inode and
    no block of another file changes.  It writes everything unless the disk is
    full.  The log space it needs is two blocks per block of the range, besides
    the bitmap and the inode's block. *)
Theorem writei_contents s D ip user src off bs T :
  let sb := f_sb s in let x := i_dinode (f_inode s ip) in let inum := i_inum (f_inode s ip) in
  let n := Z.of_nat (length bs) in
  ready dev ip s D -> source_ok user src bs s -> is_u64 src -> 0 <= inum < sb_ninodes sb ->
  0 <= off <= di_size x -> off + n <= MAXFILE * BSIZE ->
  bmaps sb ⊆ T -> IBLOCK inum sb ∈ T -> budget T D (2 * Z.to_nat ((off + n) / BSIZE - off / BSIZE + 1)) ->
  exists tot s' D', writei ip user src off n s = Ok tot s' /\ ready dev ip s' D' /\
    let x' := i_dinode (f_inode s' ip) in
    0 <= tot <= n /\ (tot = n \/ forall c, 0 <= c < sb_size sb -> used sb (d_data D') c = true) /\
    di_size x' = Z.max (di_size x) (off + tot) /\
    (forall k, 0 <= k < di_size x' -> fbyte (d_data D') x' k =
       if (off <=? k) && (k <? off + tot) then get8 (k - off) bs else fbyte (d_data D) x k) /\
    (forall j, 0 <= j < sb_ninodes sb -> disk_inode sb (d_data D') j = if j =? inum then x' else disk_inode sb (d_data D) j) /\
    (forall b, data_block sb D b -> ~ own_block D x b -> d_data D' b = d_data D b) /\
    (forall b, own_block D' x' b -> data_block sb D b -> own_block D x b).
Proof.
  intros sb x inum n HR Hs Hsrc Hi Ho Hend HT HiT Hb.
  destruct (writei_ok dev T s D ip user src off n bs HR Hs eq_refl Ho Hend HT Hi HiT) as (tot & s' & D' & H1 & HW & Ht & _ & Hfull & _);
    [|done|].
  { eapply budget_le; [|exact Hb]. unfold io_left. rewrite Z.add_0_r. destruct (0 <? n); lia. }
  destruct HW as [N1 N2 N3 (l & N4) N5 N6 N7 N8]. exists tot, s', D'. split; [done|]. split; [done|]. cbn zeta.
  split; [done|]. split; [done|]. split; [now rewrite N4|]. split; [done|]. split; [done|]. split; [|done].
  intros b Hbd Hn. apply (ex_data _ _ _ _ N7); [done|]. intros [Hown| ->]; [done|].
  pose proof (IBLOCK_range sb _ _ (rd_layout _ _ _ _ HR) Hi). pose proof (layout_pos sb _ (rd_layout _ _ _ _ HR)).
  destruct Hbd as [Hbd _]. fold sb inum in Hbd. lia.
Qed.

(** Reading what was written.  After [writei] of the bytes [bs] in full,
    [readi] of the same range into kernel memory returns their number and leaves
    exactly [bs] at the destination, and a read that asks for more is cut at the
    end of the file. *)
Theorem writei_readi_roundtrip s D ip user src off bs T dst more :
  let sb := f_sb s in let inum := i_inum (f_inode s ip) in let n := Z.of_nat (length bs) in
  ready dev ip s D -> source_ok user src bs s -> is_u64 src -> 0 <= inum < sb_ninodes sb ->
  0 <= off <= i_size (f_inode s ip) -> off + n <= MAXFILE * BSIZE -> i_size (f_inode s ip) <= off + n ->
  Forall is_u8 bs -> bmaps sb ⊆ T -> IBLOCK inum sb ∈ T -> budget T D (2 * Z.to_nat ((off + n) / BSIZE - off / BSIZE + 1)) ->
  0 <= dst -> dst + n < 2^64 -> 0 <= more -> off + n + more < 2^32 ->
  exists tot s1, writei ip user src off n s = Ok tot s1 /\
    (tot = n -> exists s2, readi ip false dst off (n + more) s1 = Ok n s2 /\ rd_bytes (f_mem s2) dst (length bs) = bs /\
       frame_bytes (f_mem s1) (f_mem s2) dst n).
Proof.
  intros sb inum n HR Hs Hsrc Hi Ho Hend Hsz Hbs HT HiT Hb Hd Hd' Hm Hm'.
  destruct (writei_ok dev T s D ip user src off n bs HR Hs eq_refl Ho Hend HT Hi HiT) as (tot & s1 & D1 & H1 & HW & Ht & _ & _);
    [|done|].
  { eapply budget_le; [|exact Hb]. unfold io_left. rewrite Z.add_0_r. destruct (0 <? n); lia. }
  destruct HW as [_ _ N3 (l & N4) N5 _ _ _]. exists tot, s1. split; [done|]. intros ->. pose proof file_consts as Hc. fold n in N4, N5.
  assert (i_size (f_inode s1 ip) = off + n) as Es by (unfold i_size in *; rewrite N4; cbn; lia).
  rewrite readi_clamp by (rewrite ?Es; unfold BSIZE in *; lia). rewrite Es. replace (Z.min (n + more) (off + n - off)) with n by lia.
  destruct (readi_kernel dev s1 D1 ip dst off n N3) as (y & H2 & _); [lia|lia|lia|lia|lia|].
  assert (fslice (d_data D1) (i_dinode (f_inode s1 ip)) off n = bs) as Ef.
  { apply list_eq_same_length with (n := length bs); [done|rewrite length_fslice; lia|].
    intros i a b Hi' Ha Hb'. unfold fslice in Ha. rewrite list_lookup_fmap, lookup_seqZ_lt in Ha by lia. injection Ha as <-.
    rewrite N5 by lia. destruct (_ && _) eqn:E; [|lia]. unfold get8.
    replace (Z.to_nat (off + Z.of_nat i - off)) with i by lia. now rewrite Hb'. }
  rewrite Ef in H2. eexists. split; [exact H2|]. rewrite f_mem_set. split.
  - rewrite rd_bytes_wr_bytes. apply list_eq_same_length with (n := length bs); [done|now rewrite length_fmap|].
    intros i a b _ Ha Hb'. rewrite list_lookup_fmap, Hb' in Ha. injection Ha as <-. apply u8_small.
    exact (proj1 (Forall_lookup _ _) Hbs i b Hb').
  - intros a Ha. apply rd_wr_bytes_out. fold n. lia.
Qed.
End thms.

(** ** The theorems on the small disk *)

Lemma balloc_first_fit_witness :
  layout (f_sb demo_fs) (d_start demo_disk) /\ budget (bmaps demo_sb) demo_disk 1 /\
  exists b y, balloc 1 demo_fs = Ok b (with_io y demo_fs) /\ (b = 46 \/ b = 0).
Proof.
  assert (budget (bmaps demo_sb) demo_disk 1) as Hb by (apply Nat.leb_le; vm_compute; reflexivity).
  split; [exact demo_layout|]. split; [exact Hb|].
  destruct (balloc_first_fit 1 demo_fs demo_disk demo_layout (rd_rep _ _ _ _ demo_ready) eq_refl demo_bitmap_ok Hb)
    as [(b & y & D' & E & _ & HF & _)|(_ & y & E & _)]; exists b || exists 0; exists y; (split; [exact E|]); [left|now right].
  destruct HF as (Hb0 & Hu & Hbelow). destruct (Z.lt_trichotomy b 46) as [Hlt|[->|Hgt]]; [|done|].
  - pose proof (proj1 demo_bitmap_ok b) as Hm. change (datastart demo_sb) with 46 in Hm. cbn [f_sb demo_fs] in Hu. rewrite Hm in Hu by lia. discriminate.
  - specialize (Hbelow 46 ltac:(lia)). discriminate.
Defined.

(** The greeting is written to the empty file. *)
Definition demo_T : gset Z := {[IBLOCK 2 demo_sb]} ∪ bmaps demo_sb.

Lemma demo_source : source_ok false 4096 [104; 101; 108; 108; 111] demo_fs.
Proof.
  replace [104; 101; 108; 108; 111] with (rd_bytes (f_mem demo_fs) 4096 (Z.to_nat 5)) by reflexivity.
  now apply kernel_source.
Qed.

Lemma writei_contents_witness :
  source_ok false 4096 [104; 101; 108; 108; 111] demo_fs /\
  exists tot s', writei 0 false 4096 0 5 demo_fs = Ok tot s' /\ i_size (f_inode s' 0) = Z.max 0 tot.
Proof.
  split; [exact demo_source|].
  destruct (writei_contents 1 demo_fs demo_disk 0 false 4096 0 [104; 101; 108; 108; 111] demo_T demo_ready demo_source)
    as (tot & s' & D' & E & _ & _ & _ & Es & _).
  - split; lia.
  - split; reflexivity || (cbv; discriminate).
  - split; cbv; discriminate.
  - cbv. discriminate.
  - apply union_subseteq_r.
  - apply elem_of_union_l. now apply elem_of_singleton.
  - apply Nat.leb_le. vm_compute. reflexivity.
  - exists tot, s'. split; [exact E|exact Es].
Defined.

Lemma writei_readi_roundtrip_witness :
  exists tot s1, writei 0 false 4096 0 5 demo_fs = Ok tot s1 /\
    (tot = 5 -> exists s2, readi 0 false 8192 0 12 s1 = Ok 5 s2 /\ rd_bytes (f_mem s2) 8192 5 = [104; 101; 108; 108; 111]).
Proof.
  destruct (writei_readi_roundtrip 1 demo_fs demo_disk 0 false 4096 0 [104; 101; 108; 108; 111] demo_T 8192 7 demo_ready demo_source)
    as (tot & s1 & E & H).
  - split; lia.
  - split; reflexivity || (cbv; discriminate).
  - split; cbv; discriminate.
  - cbv. discriminate.
  - cbv. discriminate.
  - repeat constructor; cbv; discriminate.
  - apply union_subseteq_r.
  - apply elem_of_union_l. now apply elem_of_singleton.
  - apply Nat.leb_le. vm_compute. reflexivity.
  - lia.
  - cbn. lia.
  - lia.
  - cbn. lia.
  - exists tot, s1. split; [exact E|]. intros Ht. destruct (H Ht) as (s2 & E2 & E3 & _). exists s2. split; [exact E2|exact E3].
Defined.
