(* ===== verification/UserVm.v ===== *)
(** * User memory through a page table

    The interface [UserIO] that the file system and the system calls use, on the
    copies of vm.c.  Buffers of the block cache and of the kernel's data are
    lists of bytes there, not addresses, so [copyout] and [copyin] are restated
    on lists; they do to the state what those of vm.c do when the bytes are in
    memory. *)

From stdpp Require Import base gmap list numbers strings.
From S2P Require Import Prelude Mem StringC Riscv Kalloc Vm PageTable UserMem UserCopy VmSpec Spinlock Locks Bio Log BlockIO Fs.

Open Scope Z_scope.

(** The machine with the page table of the running process. *)
Record uvm (St : Type) := Uvm { uv_st : St; uv_pt : Z }.
Arguments Uvm {St}.
Arguments uv_st {St}.
Arguments uv_pt {St}.

Section copies.
Context {St : Type} `{PA : PageAllocator St}.

(** [copyout] with the source's bytes. *)
Fixpoint copyout_bytes_loop (fuel : nat) (pagetable dstva : Z) (bs : list Z) : M St Z :=
  match fuel with
  | O => diverge
  | S fuel' =>
      let len := Z.of_nat (length bs) in
      if 0 <? len then
        let va0 := PGROUNDDOWN dstva in
        if MAXVA <=? va0 then mret (-1) else
        pte ← walk pagetable va0 false;
        if pte =? 0 then mret (-1) else
        v ← get_pte pte;
        if (Z.land v PTE_V =? 0) || (Z.land v PTE_U =? 0) || (Z.land v PTE_W =? 0)
        then mret (-1) else
        let pa0 := PTE2PA v in
        let n := PGSIZE - (dstva - va0) in
        let n := if len <? n then len else n in
        modify (fun s => Kalloc.set_mem (wr_bytes (mem_of s) (pa0 + (dstva - va0)) (take (Z.to_nat n) bs)) s);;
        copyout_bytes_loop fuel' pagetable (u64 (va0 + PGSIZE)) (drop (Z.to_nat n) bs)
      else mret 0
  end.

Definition copyout_bytes (pagetable dstva : Z) (bs : list Z) : M St Z :=
  copyout_bytes_loop (copy_fuel (Z.of_nat (length bs))) pagetable dstva bs.

(** [copyin] to a buffer: the bytes copied and the result. *)
Fixpoint copyin_bytes_loop (fuel : nat) (pagetable srcva len : Z) : M St (list Z * Z) :=
  match fuel with
  | O => diverge
  | S fuel' =>
      if 0 <? len then
        let va0 := PGROUNDDOWN srcva in
        pa0 ← walkaddr pagetable va0;
        if pa0 =? 0 then mret ([], -1) else
        let n := PGSIZE - (srcva - va0) in
        let n := if len <? n then len else n in
        bs ← gets (fun s => rd_bytes (mem_of s) (pa0 + (srcva - va0)) (Z.to_nat n));
        r ← copyin_bytes_loop fuel' pagetable (u64 (va0 + PGSIZE)) (len - n);
        mret (bs ++ r.1, r.2)
      else mret ([], 0)
  end.

Definition copyin_bytes (pagetable srcva len : Z) : M St (list Z * Z) :=
  copyin_bytes_loop (copy_fuel len) pagetable srcva len.

(** An operation of the machine. *)
Definition on_st {A} (c : M St A) : M (uvm St) A := fun u =>
  match c (uv_st u) with
  | Ok a s => Ok a (Uvm s (uv_pt u))
  | Panic msg => Panic msg
  | Diverge => Diverge
  end.

#[export] Instance uvm_pages : PageAllocator (uvm St) :=
  {| mem_of u := mem_of (uv_st u); Kalloc.set_mem m u := Uvm (Kalloc.set_mem m (uv_st u)) (uv_pt u);
     pa_kalloc := on_st pa_kalloc; pa_kfree p := on_st (pa_kfree p) |}.

#[export] Instance uvm_user : UserIO (uvm St) :=
  {| u_mem u := mem_of (uv_st u); u_set_mem m u := Uvm (Kalloc.set_mem m (uv_st u)) (uv_pt u);
     u_pagetable := uv_pt; u_set_pagetable pt u := Uvm (uv_st u) pt;
     u_copyout a bs := fun u => on_st (copyout_bytes (uv_pt u) a bs) u;
     u_copyin a n := fun u => on_st (copyin_bytes (uv_pt u) a n) u;
     u_copyinstr dst a max := fun u => on_st (copyinstr (uv_pt u) dst a max) u |}.

Context `{PS : !PageAllocatorSpec St}.

#[export] Instance uvm_laws : UserLaws (uvm St).
Proof.
  split; cbn.
  - intros m u. apply mem_set_mem.
  - intros [s pt]. cbn. now rewrite set_mem_mem.
  - intros m m' u. now rewrite set_set_mem.
  - done.
  - now intros [].
Qed.

#[export] Instance uvm_pages_spec : PageAllocatorSpec (uvm St).
Proof.
  refine {| valid_page := valid_page (S := St); pa_inv := fun u F => pa_inv (uv_st u) F |}; cbn; unfold on_st.
  - apply valid_page_range.
  - intros m u. apply mem_set_mem.
  - intros [s pt]. cbn. now rewrite set_mem_mem.
  - intros m m' u. now rewrite set_set_mem.
  - intros u. apply pa_free_valid.
  - intros u. apply pa_set_mem.
  - intros u Hi. destruct (pa_kalloc_none (uv_st u) Hi) as (s' & -> & Hi' & Hm). now exists (Uvm s' (uv_pt u)).
  - intros u F Hi HF. destruct (pa_kalloc_some (uv_st u) F Hi HF) as (p & s' & -> & Hp & Hi' & Hm). now exists p, (Uvm s' (uv_pt u)).
  - intros u F p Hi Hv Hp. destruct (pa_kfree_ok (uv_st u) F p Hi Hv Hp) as (s' & -> & Hi' & Hm). now exists (Uvm s' (uv_pt u)).
Defined.

Lemma copy_forward_bytes n m d s :
  d + Z.of_nat n <= s \/ s + Z.of_nat n <= d -> copy_forward m d s n = wr_bytes m d (rd_bytes m s n).
Proof.
  revert m d s. induction n as [|n IH]; intros m d s Hd; [done|]. cbn [copy_forward rd_bytes wr_bytes].
  rewrite IH by lia. f_equal. apply rd_bytes_ext. intros x Hx. apply rd_wr_ne. lia.
Qed.

Lemma memmove_bytes m d s n :
  0 <= n -> d + n <= s \/ s + n <= d -> memmove m d s n = wr_bytes m d (rd_bytes m s (Z.to_nat n)).
Proof.
  intros Hn Hd. with_strategy transparent [memmove] unfold memmove. destruct (Z.eqb_spec n 0) as [->|]; [done|].
  destruct (Z.ltb_spec s d), (Z.ltb_spec d (s + n)); cbn [andb]; try lia; apply copy_forward_bytes; lia.
Qed.

Lemma rd_bytes_split m a k n : rd_bytes m a (k + n) = rd_bytes m a k ++ rd_bytes m (a + Z.of_nat k) n.
Proof.
  revert a. induction k as [|k IH]; intros a; cbn [rd_bytes Nat.add app]; [f_equal; lia|]. rewrite IH. do 3 f_equal. lia.
Qed.

(** One round of [copyout] on bytes. *)
Lemma copyout_bytes_step fuel s root T F U dstva bs :
  let len := Z.of_nat (length bs) in
  let n := Z.to_nat (chunk dstva len) in
  uspace s root T F U -> 0 < len -> 0 <= dstva < TRAPFRAME ->
  copyout_bytes_loop (S fuel) root dstva bs s =
  if can_write U (dstva / PGSIZE) then
    copyout_bytes_loop fuel root ((dstva / PGSIZE + 1) * PGSIZE) (drop n bs)
      (Kalloc.set_mem (wr_bytes (mem_of s) (upa U dstva) (take n bs)) s)
  else Ok (-1) s.
Proof.
  intros len n Hu Hl Hd. cbn [copyout_bytes_loop]. fold len. rewrite (proj2 (Z.ltb_lt 0 len)) by done.
  destruct (rounddown_user dstva Hd) as (-> & Eoff & Hr & Ediv). rewrite Eoff.
  destruct UPAGES_eq as (EU & ET & HM).
  rewrite (proj2 (Z.leb_gt MAXVA _)) by lia.
  pose proof (vm_pt _ _ _ _ (us_vm _ _ _ _ _ Hu)) as Hpt.
  rewrite (bind_ok _ _ _ _ _ (walk_slot s root T (dstva / PGSIZE * PGSIZE) Hpt ltac:(lia))).
  pose proof (user_entry s root T F U _ Hu Hr) as He. rewrite Ediv in He.
  unfold can_write, uflag, upa. destruct (U !! (dstva / PGSIZE)) as [[pa fl]|] eqn:E.
  - destruct He as [Hs He]. rewrite (proj2 (Z.eqb_neq _ 0) Hs). erewrite bind_ok by reflexivity.
    rewrite He. destruct (user_pte s root T F U _ pa fl Hu E) as [-> ->].
    rewrite !(user_flag s root T F U _ pa fl _ Hu E) by (split; [now vm_compute|done]).
    unfold truthy. cbn [orb]. rewrite <- negb_orb. case_goal; [done|]. cbn [negb].
    erewrite bind_ok by reflexivity. rewrite u64_small by (unfold is_u64, PGSIZE in *; lia).
    fold (chunk dstva len). f_equal. unfold PGSIZE. lia.
  - destruct He as [->|[Hs He]]; [done|]. rewrite (proj2 (Z.eqb_neq _ 0) Hs).
    erewrite bind_ok by reflexivity. now rewrite He.
Qed.

Lemma copyout_bytes_above fuel s root T F U dstva bs :
  uspace s root T F U -> kernel_above s T -> bs <> [] -> is_u64 dstva -> TRAPFRAME <= dstva ->
  copyout_bytes_loop (S fuel) root dstva bs s = Ok (-1) s.
Proof.
  intros Hu Ha Hl Hd Hr. cbn [copyout_bytes_loop]. rewrite (proj2 (Z.ltb_lt 0 _)) by (destruct bs; cbn [length]; [done|lia]).
  pose proof (rounddown_above dstva Hd Hr) as Hr0. destruct (Z.leb_spec MAXVA (PGROUNDDOWN dstva)) as [|HM]; [done|].
  destruct (entry_above s root T F U _ Hu Ha (conj Hr0 HM)) as [Ew Hp]. rewrite (bind_ok _ _ _ _ _ Ew).
  destruct (Z.eqb_spec (slot T (PGROUNDDOWN dstva)) 0) as [|Hs]; [done|]. erewrite bind_ok by reflexivity.
  now rewrite (Hp Hs), orb_true_r.
Qed.

Lemma rd_wr_bytes bs m a x :
  rd (wr_bytes m a bs) x = if (a <=? x) && (x <? a + Z.of_nat (length bs)) then u8 (bs !!! Z.to_nat (x - a)) else rd m x.
Proof.
  case_goal; zbool; [|apply rd_wr_bytes_out; lia].
  destruct (lookup_lt_is_Some_2 bs (Z.to_nat (x - a))) as [b Hb]; [lia|].
  rewrite (list_lookup_total_correct _ _ _ Hb), <- (rd_wr_bytes_in bs m a _ b Hb). f_equal. lia.
Qed.

(** [copyout] on bytes, for any address. *)
Lemma copyout_bytes_loop_ok fuel : forall s root T F U dstva bs,
  let len := Z.of_nat (length bs) in
  uspace s root T F U -> kernel_above s T -> is_u64 dstva ->
  (dstva + len + PGSIZE - 1) / PGSIZE - dstva / PGSIZE < Z.of_nat fuel ->
  exists r s' k, copyout_bytes_loop fuel root dstva bs s = Ok r s' /\ uspace s' root T F U /\ kernel_above s' T /\
    copied_out s U dstva len (fun i => u8 (bs !!! Z.to_nat i)) s' k r.
Proof.
  induction fuel as [|fuel IH]; intros s root T F U dstva bs len Hu Ha Hd Hf; [unfold PGSIZE in *; dlia|].
  destruct (decide (bs = [])) as [->|Hl0].
  { exists 0, s, 0. split; [done|]. split; [done|]. split; [done|]. apply copied_out_0; [done|now left]. }
  assert (0 < len) as Hl by (unfold len; destruct bs; cbn [length]; [done|lia]).
  assert (can_write U (dstva / PGSIZE) = false -> copied_out s U dstva len (fun i => u8 (bs !!! Z.to_nat i)) s 0 (-1)) as Hstop.
  { intros Ew. apply copied_out_0; [lia|right]. split; [done|]. split; [lia|done]. }
  destruct (Z.le_gt_cases TRAPFRAME dstva) as [HT|HT].
  { exists (-1), s, 0. split; [now apply (copyout_bytes_above fuel s root T F U)|]. split; [done|]. split; [done|].
    apply Hstop. exact (can_write_above _ _ _ _ _ _ Hu HT). }
  pose proof Hd as [Hd0 _]. rewrite (copyout_bytes_step fuel s root T F U) by (done || lia). fold len.
  destruct (chunk_spec dstva len ltac:(lia)) as (Hc1 & Hc2 & Hc3). set (n := chunk dstva len) in *.
  destruct (can_write U (dstva / PGSIZE)) eqn:Ew; [|exists (-1), s, 0; auto].
  destruct (copied_page s root T F U dstva n (fun i => u8 (take (Z.to_nat n) bs !!! Z.to_nat i))
    (wr_bytes (mem_of s) (upa U dstva) (take (Z.to_nat n) bs))) as (Hu1 & Ha1 & Hum & Hfr); [done|done|done|lia|done| |].
  { intros x. rewrite rd_wr_bytes, length_take, Nat.min_l, Z2Nat.id by lia. done. }
  set (s1 := Kalloc.set_mem _ s) in *. destruct UPAGES_eq as (EU & ET & _).
  assert (Z.of_nat (length (drop (Z.to_nat n) bs)) = len - n) as Hlen by (rewrite length_drop; lia).
  destruct (IH s1 root T F U ((dstva / PGSIZE + 1) * PGSIZE) (drop (Z.to_nat n) bs)) as (r & s' & k & Hl' & Hu' & Ha' & Hco);
    [done|done|unfold is_u64, PGSIZE in *; dlia|rewrite Hlen; unfold PGSIZE in *; dlia|].
  rewrite Hlen in Hco.
  exists r, s', (n + k). split; [exact Hl'|]. split; [exact Hu'|]. split; [exact Ha'|].
  eapply copied_out_cons; [exact Hc1| | | |exact Hfr| |exact Hco].
  - destruct Hc3; [auto|right; lia].
  - intros x. rewrite Hum. case_goal; zbool; [|done]. rewrite list_lookup_total_alt, lookup_take_lt, <- list_lookup_total_alt by lia. done.
  - intros x. apply can_write_page; done.
  - intros i Hi. cbn beta. rewrite lookup_total_drop. do 2 f_equal. lia.
Qed.

Lemma copyout_bytes_ok s root T F U dstva bs :
  uspace s root T F U -> kernel_above s T -> is_u64 dstva ->
  exists r s' k, copyout_bytes root dstva bs s = Ok r s' /\ uspace s' root T F U /\ kernel_above s' T /\
    copied_out s U dstva (Z.of_nat (length bs)) (fun i => u8 (bs !!! Z.to_nat i)) s' k r.
Proof. intros. apply copyout_bytes_loop_ok; try done. unfold copy_fuel, PGSIZE in *. dlia. Qed.

Lemma copyout_loop_bytes fuel : forall s root T F U dstva src len,
  uspace s root T F U -> 0 <= len -> 0 <= dstva -> dstva + len <= TRAPFRAME -> outside U src len ->
  copyout_loop fuel root dstva src len s = copyout_bytes_loop fuel root dstva (rd_bytes (mem_of s) src (Z.to_nat len)) s.
Proof.
  induction fuel as [|fuel IH]; intros s root T F U dstva src len Hu Hl Hd Hr Hout; [done|].
  destruct (Z.eq_dec len 0) as [->|Hl0]; [done|].
  rewrite (copyout_step fuel s root T F U) by (done || lia).
  rewrite (copyout_bytes_step fuel s root T F U) by (done || rewrite ?length_rd_bytes; lia).
  rewrite length_rd_bytes, Z2Nat.id by done.
  destruct (chunk_spec dstva len ltac:(lia)) as (Hc1 & Hc2 & Hc3). set (n := chunk dstva len) in *.
  destruct (can_write U (dstva / PGSIZE)) eqn:Ew; [|done].
  assert (is_Some (U !! (dstva / PGSIZE))) as Hin.
  { unfold can_write, uflag in Ew. now destruct (U !! (dstva / PGSIZE)). }
  replace (Z.to_nat len) with (Z.to_nat n + Z.to_nat (len - n))%nat by lia. rewrite rd_bytes_split.
  rewrite take_app_length', drop_app_length' by now rewrite length_rd_bytes. rewrite Z2Nat.id by lia.
  assert (memmove (mem_of s) (upa U dstva) src n = wr_bytes (mem_of s) (upa U dstva) (rd_bytes (mem_of s) src (Z.to_nat n))) as <-.
  { apply memmove_bytes; [lia|]. destruct Hin as [[pa fl] Hn]. unfold upa. rewrite Hn.
    destruct (Hout _ _ _ Hn); unfold PGSIZE in *; dlia. }
  set (s1 := Kalloc.set_mem _ s).
  assert (uspace s1 root T F U) as Hu1.
  { destruct Hin as [[pa fl] Hn]. eapply (us_write s _ _ _ _ _ _ _ (dstva mod PGSIZE) n); eauto.
    - unfold PGSIZE. dlia.
    - unfold upa. rewrite Hn. apply memmove_frame. lia. }
  assert (outside U (src + n) (len - n)) as Hout' by (intros m pa fl Hm; destruct (Hout m pa fl Hm); lia).
  destruct UPAGES_eq as (EU & ET & _).
  destruct (Z.eq_dec n len) as [E|E].
  { rewrite E, Z.sub_diag. destruct fuel; reflexivity. }
  rewrite (IH s1 root T F U) by (done || lia || (unfold PGSIZE in *; dlia)). f_equal. apply rd_bytes_ext.
  intros x Hx. unfold s1. rewrite mem_set_mem. apply (write_outside (mem_of s) U dstva src n src len); (done || lia).
Qed.

Lemma copyin_bytes_step fuel s root T F U srcva len :
  let n := chunk srcva len in
  uspace s root T F U -> 0 < len -> 0 <= srcva < TRAPFRAME ->
  copyin_bytes_loop (S fuel) root srcva len s =
  if can_read U (srcva / PGSIZE) then
    (r ← copyin_bytes_loop fuel root ((srcva / PGSIZE + 1) * PGSIZE) (len - n);
     mret (rd_bytes (mem_of s) (upa U srcva) (Z.to_nat n) ++ r.1, r.2)) s
  else Ok ([], -1) s.
Proof.
  intros n Hu Hl Hd. cbn [copyin_bytes_loop]. rewrite (proj2 (Z.ltb_lt 0 len)) by done.
  destruct (rounddown_user srcva Hd) as (-> & Eoff & Hr & Ediv). rewrite Eoff.
  destruct (walkaddr_user s root T F U srcva Hu Hd) as [Hw Hnz]. rewrite (bind_ok _ _ _ _ _ Hw).
  destruct (can_read U (srcva / PGSIZE)); [|done].
  rewrite (proj2 (Z.eqb_neq _ 0)) by now apply Hnz.
  erewrite bind_ok by reflexivity. destruct UPAGES_eq as (EU & ET & HM).
  rewrite u64_small by (unfold is_u64, PGSIZE in *; lia).
  fold (chunk srcva len). fold n. rewrite Z.sub_add. replace (srcva / PGSIZE * PGSIZE + PGSIZE) with ((srcva / PGSIZE + 1) * PGSIZE) by lia.
  done.
Qed.

(** [copyin] on bytes reads only the user's bytes, and changes nothing. *)
Lemma copyin_bytes_same fuel : forall s s1 root T F U srcva len,
  uspace s root T F U -> uspace s1 root T F U -> (forall va, umem s1 U va = umem s U va) ->
  0 <= len -> 0 <= srcva -> srcva + len <= TRAPFRAME ->
  (srcva + len + PGSIZE - 1) / PGSIZE - srcva / PGSIZE < Z.of_nat fuel ->
  exists r, copyin_bytes_loop fuel root srcva len s = Ok r s /\ copyin_bytes_loop fuel root srcva len s1 = Ok r s1.
Proof.
  induction fuel as [|fuel IH]; intros s s1 root T F U srcva len Hu Hu1 Hum Hl Hd Hr Hf; [unfold PGSIZE in *; dlia|].
  destruct (Z.eq_dec len 0) as [->|Hl0]; [now exists ([], 0)|].
  rewrite (copyin_bytes_step fuel s root T F U), (copyin_bytes_step fuel s1 root T F U) by (done || lia).
  destruct (chunk_spec srcva len ltac:(lia)) as (Hc1 & Hc2 & Hc3). set (n := chunk srcva len) in *.
  destruct (can_read U (srcva / PGSIZE)) eqn:Ew; [|now exists ([], -1)].
  assert (is_Some (U !! (srcva / PGSIZE))) as Hin.
  { unfold can_read, uflag in Ew. now destruct (U !! (srcva / PGSIZE)). }
  assert (rd_bytes (mem_of s1) (upa U srcva) (Z.to_nat n) = rd_bytes (mem_of s) (upa U srcva) (Z.to_nat n)) as ->.
  { apply rd_bytes_ext. intros x Hx. replace x with (upa U srcva + (x - upa U srcva)) by lia.
    rewrite !(rd_upa _ U srcva n) by (done || lia). apply Hum. }
  destruct (Z.eq_dec n len) as [E|E].
  { rewrite E, Z.sub_diag. destruct fuel as [|fuel]; [unfold PGSIZE in *; dlia|]. now eexists. }
  destruct UPAGES_eq as (EU & ET & _).
  destruct (IH s s1 root T F U ((srcva / PGSIZE + 1) * PGSIZE) (len - n)) as (r & E1 & E2);
    try done; try lia; try (unfold PGSIZE in *; dlia).
  exists (rd_bytes (mem_of s) (upa U srcva) (Z.to_nat n) ++ r.1, r.2).
  rewrite (bind_ok _ _ _ _ _ E1), (bind_ok _ _ _ _ _ E2). done.
Qed.

Lemma copyin_loop_bytes fuel : forall s root T F U dst srcva len,
  uspace s root T F U -> 0 <= len -> 0 <= srcva -> srcva + len <= TRAPFRAME -> kernel_buf T F U dst len ->
  (srcva + len + PGSIZE - 1) / PGSIZE - srcva / PGSIZE < Z.of_nat fuel ->
  exists r, copyin_bytes_loop fuel root srcva len s = Ok r s /\
    copyin_loop fuel root dst srcva len s = Ok r.2 (Kalloc.set_mem (wr_bytes (mem_of s) dst r.1) s).
Proof.
  induction fuel as [|fuel IH]; intros s root T F U dst srcva len Hu Hl Hd Hr Hbuf Hf; [unfold PGSIZE in *; dlia|].
  destruct (Z.eq_dec len 0) as [->|Hl0].
  { exists ([], 0). cbn [wr_bytes fst snd]. now rewrite set_mem_mem. }
  rewrite (copyin_step fuel s root T F U), (copyin_bytes_step fuel s root T F U) by (done || lia).
  destruct (chunk_spec srcva len ltac:(lia)) as (Hc1 & Hc2 & Hc3). set (n := chunk srcva len) in *.
  destruct (can_read U (srcva / PGSIZE)) eqn:Ew.
  2: { exists ([], -1). cbn [wr_bytes fst snd]. now rewrite set_mem_mem. }
  assert (is_Some (U !! (srcva / PGSIZE))) as [[pa fl] Hn].
  { unfold can_read, uflag in Ew. now destruct (U !! (srcva / PGSIZE)). }
  destruct (us_kwrite s root T F U dst n (memmove (mem_of s) dst (upa U srcva) n)) as [Hu1 Hum];
    [done|eapply kernel_buf_sub; [exact Hbuf|lia..]|apply memmove_frame; lia|].
  set (s1 := Kalloc.set_mem _ s) in *. destruct UPAGES_eq as (EU & ET & _).
  assert (memmove (mem_of s) dst (upa U srcva) n = wr_bytes (mem_of s) dst (rd_bytes (mem_of s) (upa U srcva) (Z.to_nat n))) as Em.
  { apply memmove_bytes; [lia|]. unfold upa. rewrite Hn.
    destruct (Hbuf pa); [right; right; now exists (srcva / PGSIZE), fl|unfold PGSIZE in *; dlia..]. }
  set (va1 := (srcva / PGSIZE + 1) * PGSIZE).
  assert (exists r, copyin_bytes_loop fuel root va1 (len - n) s = Ok r s /\
    copyin_loop fuel root (dst + n) va1 (len - n) s1 = Ok r.2 (Kalloc.set_mem (wr_bytes (mem_of s1) (dst + n) r.1) s1)) as (r & E1 & E2).
  { destruct (Z.eq_dec n len) as [E|E].
    { rewrite E, Z.sub_diag. destruct fuel as [|fuel]; [unfold PGSIZE in *; dlia|]. exists ([], 0). cbn [wr_bytes fst snd].
      now rewrite set_mem_mem. }
    destruct (IH s1 root T F U (dst + n) va1 (len - n)) as (r & E1 & E2);
      [done|lia|unfold va1, PGSIZE in *; dlia|unfold va1, PGSIZE in *; dlia|eapply kernel_buf_sub; [exact Hbuf|lia..]|unfold va1, PGSIZE in *; dlia|].
    destruct (copyin_bytes_same fuel s s1 root T F U va1 (len - n)) as (r' & E3 & E4);
      try done; try lia; try (unfold va1, PGSIZE in *; dlia). exists r. split; [|done]. congruence. }
  exists (rd_bytes (mem_of s) (upa U srcva) (Z.to_nat n) ++ r.1, r.2). rewrite (bind_ok _ _ _ _ _ E1), E2. split; [done|]. cbn [fst snd].
  unfold s1. rewrite set_set_mem, mem_set_mem, wr_bytes_app, length_rd_bytes, Z2Nat.id, Em by lia. done.
Qed.

(** The copies on lists of bytes, through which the file system reaches user
    memory, are those of vm.c: when the kernel's bytes are in memory away from
    the user's pages [copyout] ends with the same result in the same state, and
    [copyin] gives the same result and writes the bytes it returns. *)
Theorem byte_copies_agree s root T F U va src dst len :
  uspace s root T F U -> 0 <= len -> 0 <= va -> va + len <= TRAPFRAME -> outside U src len -> kernel_buf T F U dst len ->
  copyout root va src len s = copyout_bytes root va (rd_bytes (mem_of s) src (Z.to_nat len)) s /\
  copyin root dst va len s =
    (r ← copyin_bytes root va len; modify (fun s => Kalloc.set_mem (wr_bytes (mem_of s) dst r.1) s);; mret r.2) s.
Proof.
  intros Hu Hl Hv Hr Ho Hk. split.
  - unfold copyout, copyout_bytes. rewrite length_rd_bytes, Z2Nat.id by done. now apply (copyout_loop_bytes _ s root T F U).
  - destruct (copyin_loop_bytes (copy_fuel len) s root T F U dst va len) as (r & E1 & E2); try done; [unfold copy_fuel, PGSIZE; dlia|].
    unfold copyin. rewrite E2, (bind_ok _ _ _ _ _ E1). done.
Qed.
End copies.

#[local] Instance uv_pa : PageAllocator kstate := kmem_allocator vm_kend.
#[local] Instance uv_ps : PageAllocatorSpec kstate := kmem_allocator_spec vm_kend ltac:(done).

(** A copy of 500 bytes across a page boundary of the process of VmSpec.v. *)
Lemma byte_copies_agree_witness : exists root s T F U,
  uspace s root T F U /\
  copyout root 4000 KERNBASE 500 s = copyout_bytes root 4000 (rd_bytes (mem_of s) KERNBASE 500) s.
Proof.
  destruct vm_proc_ok as (root & s & T & F & U & _ & Hu & _).
  destruct (vm_kernel_buf s root T F U KERNBASE 500 Hu ltac:(vm_compute; congruence)) as [Ho _].
  destruct (vm_kernel_buf s root T F U (KERNBASE + 1000) 500 Hu ltac:(vm_compute; congruence)) as [_ Hk].
  destruct (byte_copies_agree s root T F U 4000 KERNBASE (KERNBASE + 1000) 500) as [H1 _];
    [exact Hu|lia|lia|vm_compute; congruence|exact Ho|exact Hk|].
  exists root, s, T, F, U. split; [exact Hu|exact H1].
Defined.
