(* ===== verification/Pipe.v ===== *)
(** * kernel/pipe.c

    The ring buffer with its 32-bit counters, and [pipewrite], [piperead] and
    [pipeclose] as the code between two points where the thread can be
    descheduled: each runs under [pi->lock] and ends by returning or in
    [sleep].  A step relation interleaves any number of readers and writers. *)

From stdpp Require Import base gmap numbers strings functions list.
From Stdlib Require Import ZifyBool.
From S2P Require Import Prelude Mem Block Fs FsDemo.

Open Scope Z_scope.

Definition PIPESIZE : Z := 512.

Record pipe := Pipe {
  pi_data : list Z;
  pi_nread : Z;
  pi_nwrite : Z;
  pi_readopen : Z;
  pi_writeopen : Z;
}.

(** The channels [&pi->nread] and [&pi->nwrite]. *)
Inductive chan := NRead | NWrite.

#[export] Instance chan_eq_dec : EqDecision chan.
Proof. solve_decision. Defined.

(** How a stretch under the lock ends: [return r], or [sleep] on a channel with
    the loop at byte [i]. *)
Inductive stop := Return (r : Z) | Sleep (c : chan) (i : Z).

(** The pipe, the process's memory, and the channels passed to [wakeup]. *)
Record pstate (U : Type) := PState { ps_pipe : pipe; ps_user : U; ps_woken : list chan }.
Arguments PState {U}.
Arguments ps_pipe {U}.
Arguments ps_user {U}.
Arguments ps_woken {U}.

Section ops.
Context {U : Type} `{UserIO U}.
Local Abbreviation P := (pstate U).

Definition set_pipe (pi : pipe) : M P unit := modify (fun s => PState pi (ps_user s) (ps_woken s)).
Definition wakeup (c : chan) : M P unit := modify (fun s => PState (ps_pipe s) (ps_user s) (ps_woken s ++ [c])).

Definition puser {A} (c : M U A) : M P A := fun s =>
  match c (ps_user s) with
  | Ok a u => Ok a (PState (ps_pipe s) u (ps_woken s))
  | Panic msg => Panic msg
  | Diverge => Diverge
  end.

Definition pipeclose (writable : bool) : M P bool :=
  pi ← gets ps_pipe;
  (if writable then
     set_pipe (Pipe (pi_data pi) (pi_nread pi) (pi_nwrite pi) (pi_readopen pi) 0);;
     wakeup NRead
   else
     set_pipe (Pipe (pi_data pi) (pi_nread pi) (pi_nwrite pi) 0 (pi_writeopen pi));;
     wakeup NWrite);;
  pi ← gets ps_pipe;
  mret ((pi_readopen pi =? 0) && (pi_writeopen pi =? 0)).

(** The loop of [pipewrite] from byte [i]; [killed i] is what [killed(pr)]
    returns there. *)
Fixpoint pipewrite_loop (fuel : nat) (killed : Z -> bool) (addr n i : Z) : M P stop :=
  match fuel with
  | O => diverge
  | S fuel' =>
      if i <? n then
        pi ← gets ps_pipe;
        if (pi_readopen pi =? 0) || killed i then mret (Return (-1)) else
        if pi_nwrite pi =? u32 (pi_nread pi + PIPESIZE) then
          wakeup NRead;;
          mret (Sleep NWrite i)
        else
          r ← puser (u_copyin (u64 (addr + i)) 1);
          if r.2 =? -1 then
            wakeup NRead;;
            mret (Return i)
          else
            set_pipe (Pipe (put8 (pi_nwrite pi mod PIPESIZE) (get8 0 r.1) (pi_data pi)) (pi_nread pi) (u32 (pi_nwrite pi + 1))
                           (pi_readopen pi) (pi_writeopen pi));;
            pipewrite_loop fuel' killed addr n (i + 1)
      else
        wakeup NRead;;
        mret (Return i)
  end.

(** One round of the loop per byte. *)
Definition pipewrite (killed : Z -> bool) (addr n i : Z) : M P stop :=
  pipewrite_loop (S (Z.to_nat (n - i))) killed addr n i.

Fixpoint piperead_loop (k : nat) (addr i : Z) : M P Z :=
  match k with
  | O => mret i
  | S k' =>
      pi ← gets ps_pipe;
      if pi_nread pi =? pi_nwrite pi then mret i else
      let ch := get8 (pi_nread pi mod PIPESIZE) (pi_data pi) in
      set_pipe (Pipe (pi_data pi) (u32 (pi_nread pi + 1)) (pi_nwrite pi) (pi_readopen pi) (pi_writeopen pi));;
      r ← puser (u_copyout (u64 (addr + i)) [ch]);
      if r =? -1 then mret i
      else piperead_loop k' addr (i + 1)
  end.

Definition piperead (killed : bool) (addr n : Z) : M P stop :=
  pi ← gets ps_pipe;
  if (pi_nread pi =? pi_nwrite pi) && truthy (pi_writeopen pi) then
    if killed then mret (Return (-1)) else mret (Sleep NRead 0)
  else
  i ← piperead_loop (Z.to_nat n) addr 0;
  wakeup NWrite;;
  mret (Return i).
End ops.

(** ** The ring buffer as a queue

    The counters run modulo 2^32; [PIPESIZE] divides 2^32, so that the index of
    a byte does not jump when a counter wraps. *)

Record ring (pi : pipe) (q : list Z) : Prop := Ring {
  rg_data : Z.of_nat (length (pi_data pi)) = PIPESIZE;
  rg_nread : is_u32 (pi_nread pi);
  rg_nwrite : pi_nwrite pi = u32 (pi_nread pi + Z.of_nat (length q));
  rg_len : Z.of_nat (length q) <= PIPESIZE;
  rg_u8 : Forall is_u8 q;
  rg_bytes k b : q !! k = Some b -> get8 ((pi_nread pi + Z.of_nat k) mod PIPESIZE) (pi_data pi) = b;
}.

Definition push (b : Z) (pi : pipe) : pipe :=
  Pipe (put8 (pi_nwrite pi mod PIPESIZE) b (pi_data pi)) (pi_nread pi) (u32 (pi_nwrite pi + 1)) (pi_readopen pi) (pi_writeopen pi).

Definition pop (pi : pipe) : pipe :=
  Pipe (pi_data pi) (u32 (pi_nread pi + 1)) (pi_nwrite pi) (pi_readopen pi) (pi_writeopen pi).

Lemma ring_full pi q : ring pi q -> (pi_nwrite pi =? u32 (pi_nread pi + PIPESIZE)) = (Z.of_nat (length q) =? PIPESIZE).
Proof.
  intros [_ H2 -> H4 _ _]. unfold PIPESIZE, is_u32, u32 in *. destruct (Z.eqb_spec (Z.of_nat (length q)) 512) as [->|Hne]; [apply Z.eqb_refl|].
  apply Z.eqb_neq. intros E. apply Hne. dlia.
Qed.

Lemma ring_empty pi q : ring pi q -> (pi_nread pi =? pi_nwrite pi) = (Z.of_nat (length q) =? 0).
Proof.
  intros [_ H2 -> H4 _ _]. unfold PIPESIZE, is_u32, u32 in *. destruct (Z.eqb_spec (Z.of_nat (length q)) 0) as [->|Hne].
  - rewrite Z.add_0_r, Z.mod_small by lia. apply Z.eqb_refl.
  - apply Z.eqb_neq. intros E. apply Hne. dlia.
Qed.

Lemma ring_push pi q b :
  ring pi q -> Z.of_nat (length q) < PIPESIZE -> is_u8 b -> ring (push b pi) (q ++ [b]).
Proof.
  intros [H1 H2 H3 H4 Hu H5] Hl Hb. unfold push. assert (forall x, (x mod 2^32) mod PIPESIZE = x mod PIPESIZE) as Hmm by (intros x; unfold PIPESIZE; dlia).
  split; cbn [pi_data pi_nread pi_nwrite].
  - unfold put8. now rewrite length_insert.
  - done.
  - rewrite H3, length_app. cbn. unfold u32. rewrite Z.add_mod_idemp_l by lia. f_equal. lia.
  - rewrite length_app. cbn. lia.
  - apply Forall_app. split; [done|]. now apply Forall_singleton.
  - intros k c Hk. rewrite H3. unfold u32. rewrite Hmm. pose proof (Z.mod_pos_bound (pi_nread pi + Z.of_nat (length q)) PIPESIZE ltac:(done)).
    pose proof (Z.mod_pos_bound (pi_nread pi + Z.of_nat k) PIPESIZE ltac:(done)).
    unfold get8, put8. destruct (decide (k < length q)%nat) as [Hlt|Hge].
    + rewrite lookup_app_l in Hk by done. rewrite list_lookup_insert_ne by (unfold PIPESIZE in *; dlia). now apply H5.
    + rewrite lookup_app_r in Hk by lia. apply list_lookup_singleton_Some in Hk as [Hk <-]. replace k with (length q) by lia.
      rewrite list_lookup_insert_eq by lia. apply u8_small. exact Hb.
Qed.

Lemma ring_pop pi b q : ring pi (b :: q) -> get8 (pi_nread pi mod PIPESIZE) (pi_data pi) = b /\ ring (pop pi) q.
Proof.
  intros [H1 H2 H3 H4 Hu H5]. cbn [length] in *. split; [specialize (H5 O b eq_refl); now rewrite Z.add_0_r in H5|].
  unfold pop. split; cbn [pi_data pi_nread pi_nwrite].
  - done.
  - apply Z.mod_pos_bound. lia.
  - rewrite H3. unfold u32. rewrite Z.add_mod_idemp_l by lia. f_equal. lia.
  - lia.
  - now inversion Hu.
  - intros k c Hk. rewrite <- (H5 (S k) c Hk). f_equal. unfold u32, PIPESIZE. dlia.
Qed.

(** Bytes of user memory, one at a time: what [copyin] and [copyout] of a byte
    read and write. *)
Class UserMem (U : Type) `{UserIO U} := {
  u_get : U -> Z -> option Z;
  u_put : U -> Z -> Z -> option U;
  u_get_u8 u a b : is_u64 a -> u_get u a = Some b -> is_u8 b;
  u_copyin_byte u a : is_u64 a -> u_copyin a 1 u = match u_get u a with Some b => Ok ([b], 0) u | None => Ok ([], -1) u end;
  u_copyout_byte u a b : is_u64 a -> u_copyout a [b] u = match u_put u a b with Some u' => Ok 0 u' | None => Ok (-1) u end;
}.

(** In a well-formed memory a byte that was put is there, and no other byte has
    changed. *)
Class UserBytes (U : Type) `{UserMem U} := {
  u_ok : U -> Prop;
  u_put_ok u a b u' : u_ok u -> is_u64 a -> u_put u a b = Some u' -> u_ok u';
  u_put_get u a b u' : u_ok u -> is_u64 a -> is_u8 b -> u_put u a b = Some u' -> u_get u' a = Some b;
  u_put_frame u a b u' a' : u_ok u -> is_u64 a -> is_u64 a' -> a' <> a -> u_put u a b = Some u' -> u_get u' a' = u_get u a';
}.

Section specs.
Context {U : Type} `{UM : UserMem U}.

(** What [pipewrite] does under the lock from byte [i]: it appends bytes [bs] of
    the user's range to the queue and then stops, for a reason. *)
Record write_post (killed : Z -> bool) (addr n i : Z) (pi : pipe) (q : list Z) (u : U) (w : list chan)
    (st : stop) (pi' : pipe) (w' : list chan) (bs : list Z) : Prop := WritePost {
  wp_ring : ring pi' (q ++ bs);
  wp_ends : pi_readopen pi' = pi_readopen pi /\ pi_writeopen pi' = pi_writeopen pi;
  wp_bytes j b : bs !! j = Some b -> u_get u (u64 (addr + (i + Z.of_nat j))) = Some b;
  wp_alive j : (j < length bs)%nat -> pi_readopen pi <> 0 /\ killed (i + Z.of_nat j) = false;
  wp_stop : let k := i + Z.of_nat (length bs) in
    match st with
    | Return r => (r = -1 /\ k < n /\ (pi_readopen pi = 0 \/ killed k = true) /\ w' = w) \/
                  (r = k /\ (n <= k \/ u_get u (u64 (addr + k)) = None) /\ w' = w ++ [NRead])
    | Sleep c j => c = NWrite /\ j = k /\ k < n /\ Z.of_nat (length (q ++ bs)) = PIPESIZE /\ pi_readopen pi <> 0 /\ w' = w ++ [NRead]
    end;
  wp_nread : pi_nread pi' = pi_nread pi;
}.

Lemma pipewrite_loop_ok fuel : forall killed addr n i pi q u w,
  ring pi q -> (Z.to_nat (n - i) < fuel)%nat ->
  exists st pi' w' bs, pipewrite_loop fuel killed addr n i (PState pi u w) = Ok st (PState pi' u w') /\
    write_post killed addr n i pi q u w st pi' w' bs.
Proof.
  induction fuel as [|fuel IH]; intros killed addr n i pi q u w HR Hf; [lia|]. cbn [pipewrite_loop].
  destruct (Z.ltb_spec i n) as [Hlt|Hge].
  2: { eexists _, pi, _, []. split; [reflexivity|]. split; [now rewrite app_nil_r|done|done|cbn; lia| |done]. cbn. right. split; [lia|]. split; [left; lia|done]. }
  erewrite bind_ok by reflexivity. cbn [ps_pipe]. destruct ((pi_readopen pi =? 0) || killed i) eqn:Ek.
  { eexists _, pi, _, []. split; [reflexivity|]. split; [now rewrite app_nil_r|done|done|cbn; lia| |done]. cbn. left. rewrite Z.add_0_r.
    split; [done|]. split; [done|]. split; [|done]. apply orb_true_iff in Ek as [Ek|Ek]; [left; lia|now right]. }
  rewrite (ring_full pi q HR). destruct (Z.eqb_spec (Z.of_nat (length q)) PIPESIZE) as [Efull|Hfull].
  { eexists _, pi, _, []. split; [reflexivity|]. split; [now rewrite app_nil_r|done|done|cbn; lia| |done]. cbn. rewrite Z.add_0_r, app_nil_r.
    repeat (split; [done || lia|]). done. }
  assert (puser (u_copyin (u64 (addr + i)) 1) (PState pi u w) =
    match u_get u (u64 (addr + i)) with Some b => Ok ([b], 0) (PState pi u w) | None => Ok ([], -1) (PState pi u w) end) as Eu.
  { unfold puser. cbn [ps_user]. rewrite u_copyin_byte by apply u64_range. now destruct (u_get u (u64 (addr + i))). }
  destruct (u_get u (u64 (addr + i))) as [b|] eqn:Eg; rewrite (bind_ok _ _ _ _ _ Eu).
  2: { eexists _, pi, _, []. split; [reflexivity|]. split; [now rewrite app_nil_r|done|done|cbn; lia| |done]. cbn. right. rewrite Z.add_0_r. auto. }
  cbn [fst snd]. change (0 =? -1) with false. cbn iota. erewrite bind_ok by reflexivity. cbn [ps_user ps_woken]. change (get8 0 [b]) with b.
  assert (ring (push b pi) (q ++ [b])) as HR'.
  { apply ring_push; [done|pose proof (rg_len _ _ HR); lia|now apply (u_get_u8 u (u64 (addr + i)) b (u64_range _))]. }
  destruct (IH killed addr n (i + 1) (push b pi) (q ++ [b]) u w HR' ltac:(lia)) as (st & pi' & w' & bs & H1 & [P1 P2 P3 Pa P4 P5]).
  exists st, pi', w', (b :: bs). split; [exact H1|].
  assert (i + 1 + Z.of_nat (length bs) = i + Z.of_nat (length (b :: bs))) as El by (cbn [length]; lia).
  split; [now rewrite <- app_assoc in P1|exact P2| | | |exact P5].
  - intros [|j] c Hj; [injection Hj as <-; now rewrite Z.add_0_r|]. cbn in Hj. rewrite <- (P3 j c Hj). do 2 f_equal. lia.
  - intros [|j] Hj; [rewrite Z.add_0_r; apply orb_false_iff in Ek as [Ek ->]; split; [lia|done]|]. cbn [length] in Hj.
    destruct (Pa j ltac:(lia)) as [A1 A2]. split; [exact A1|]. rewrite <- A2. f_equal. lia.
  - rewrite El in P4. cbn zeta in *. rewrite <- app_assoc in P4. exact P4.
Qed.

Lemma pipewrite_ok killed addr n i pi q u w :
  ring pi q -> exists st pi' w' bs, pipewrite killed addr n i (PState pi u w) = Ok st (PState pi' u w') /\
    write_post killed addr n i pi q u w st pi' w' bs.
Proof. intros HR. apply pipewrite_loop_ok; [done|lia]. Qed.

(** Bytes put at consecutive user addresses. *)
Fixpoint u_puts (u : U) (a : Z) (bs : list Z) : option U :=
  match bs with
  | [] => Some u
  | b :: bs' => match u_put u (u64 a) b with Some u' => u_puts u' (a + 1) bs' | None => None end
  end.

Lemma u_puts_ok `{UB : !UserBytes U} bs : forall u a u', u_ok u -> u_puts u a bs = Some u' -> u_ok u'.
Proof.
  induction bs as [|b bs IH]; intros u a u' Hu E; cbn in E; [congruence|]. destruct (u_put u (u64 a) b) as [u1|] eqn:Ep; [|done].
  exact (IH _ _ _ (u_put_ok _ _ _ _ Hu (u64_range a) Ep) E).
Qed.

Lemma u_puts_frame `{UB : !UserBytes U} bs : forall u a u' x,
  u_ok u -> u_puts u a bs = Some u' -> is_u64 x -> (forall j, 0 <= j < Z.of_nat (length bs) -> x <> u64 (a + j)) -> u_get u' x = u_get u x.
Proof.
  induction bs as [|b bs IH]; intros u a u' x Hu E Hx Hn; cbn in E; [congruence|]. destruct (u_put u (u64 a) b) as [u1|] eqn:Ep; [|done].
  rewrite (IH u1 (a + 1) u' x (u_put_ok _ _ _ _ Hu (u64_range a) Ep) E Hx).
  - apply (u_put_frame u (u64 a) b); [done|apply u64_range|done| |done]. specialize (Hn 0). rewrite Z.add_0_r in Hn. apply Hn. cbn [length]. lia.
  - intros j Hj. replace (a + 1 + j) with (a + (j + 1)) by lia. apply Hn. cbn [length]. lia.
Qed.

Lemma u64_apart a i j : 0 <= i < 2^32 -> 0 <= j < 2^32 -> i <> j -> u64 (a + i) <> u64 (a + j).
Proof. unfold u64. intros Hi Hj Hne E. apply Hne. dlia. Qed.

(** What was put can be read back, if the addresses do not run into each other. *)
Lemma u_puts_get `{UB : !UserBytes U} bs : forall u a u',
  u_ok u -> Forall is_u8 bs -> Z.of_nat (length bs) < 2^32 -> u_puts u a bs = Some u' ->
  (fun j => u_get u' (u64 (a + j))) <$> seqZ 0 (Z.of_nat (length bs)) = Some <$> bs.
Proof.
  induction bs as [|b bs IH]; intros u a u' Hu H8 Hl E; [done|]. cbn in E. destruct (u_put u (u64 a) b) as [u1|] eqn:Ep; [|done].
  inversion H8 as [|? ? Hb H8']; subst. cbn [length] in Hl. pose proof (u_put_ok _ _ _ _ Hu (u64_range a) Ep) as Hu1.
  rewrite seqZ_cons by (cbn [length]; lia). cbn [fmap list_fmap]. f_equal.
  - rewrite Z.add_0_r, (u_puts_frame bs u1 (a + 1) u' _ Hu1 E (u64_range a)).
    + apply (u_put_get u _ b); (done || apply u64_range).
    + intros j Hj. replace (a + 1 + j) with (a + (j + 1)) by lia. rewrite <- (Z.add_0_r a) at 1. apply u64_apart; lia.
  - rewrite <- (IH u1 (a + 1) u' Hu1 H8' ltac:(lia) E).
    replace (Z.pred (Z.of_nat (length (b :: bs)))) with (Z.of_nat (length bs)) by (cbn [length]; lia).
    change (Z.succ 0) with (1 + 0). rewrite <- (fmap_add_seqZ 1 0), <- list_fmap_compose. apply list_fmap_ext. intros k x _. cbn. do 2 f_equal. lia.
Qed.

(** The copy loop of [piperead]: the bytes [bs] at the head of the queue go to the
    user's range; [lost] is the byte whose [copyout] failed. *)
Record read_loop_post (addr : Z) (k : nat) (i : Z) (pi : pipe) (q : list Z) (u : U) (r : Z) (pi' : pipe) (u' : U)
    (bs lost q' : list Z) : Prop := ReadLoopPost {
  rl_split : q = bs ++ lost ++ q';
  rl_ring : ring pi' q';
  rl_ends : pi_readopen pi' = pi_readopen pi /\ pi_writeopen pi' = pi_writeopen pi;
  rl_count : r = i + Z.of_nat (length bs);
  rl_puts : u_puts u (addr + i) bs = Some u';
  rl_stop : (lost = [] /\ (length bs = k \/ q' = []) /\ (length bs <= k)%nat) \/
            exists b, lost = [b] /\ u_put u' (u64 (addr + r)) b = None;
  rl_nwrite : pi_nwrite pi' = pi_nwrite pi;
}.

Lemma piperead_loop_ok k : forall addr i pi q u w,
  ring pi q -> exists r pi' u' bs lost q', piperead_loop k addr i (PState pi u w) = Ok r (PState pi' u' w) /\
    read_loop_post addr k i pi q u r pi' u' bs lost q'.
Proof.
  induction k as [|k IH]; intros addr i pi q u w HR; cbn [piperead_loop].
  { exists i, pi, u, [], [], q. split; [done|]. split; try done; [cbn; lia|]. left. auto. }
  erewrite bind_ok by reflexivity. cbn [ps_pipe]. rewrite (ring_empty pi q HR). destruct q as [|b q].
  { exists i, pi, u, [], [], []. split; [done|]. split; try done; [cbn; lia|]. left. split; [done|]. split; [now right|cbn; lia]. }
  rewrite (proj2 (Z.eqb_neq _ 0)) by (cbn [length]; lia). destruct (ring_pop pi b q HR) as [Eb HR']. rewrite Eb.
  erewrite bind_ok by reflexivity. cbn [ps_user ps_woken]. fold (pop pi).
  assert (puser (u_copyout (u64 (addr + i)) [b]) (PState (pop pi) u w) =
    match u_put u (u64 (addr + i)) b with Some u' => Ok 0 (PState (pop pi) u' w) | None => Ok (-1) (PState (pop pi) u w) end) as Eu.
  { unfold puser. cbn [ps_user]. rewrite u_copyout_byte by apply u64_range. now destruct (u_put u (u64 (addr + i)) b). }
  destruct (u_put u (u64 (addr + i)) b) as [u1|] eqn:Ep; rewrite (bind_ok _ _ _ _ _ Eu).
  2: { exists i, (pop pi), u, [], [b], q. split; [done|]. split; try done; [cbn; lia|]. right. exists b. done. }
  change (0 =? -1) with false. cbn iota.
  destruct (IH addr (i + 1) (pop pi) q u1 w HR') as (r & pi' & u' & bs & lost & q' & H1 & [L1 L2 L3 L4 L5 L6 L7]).
  exists r, pi', u', (b :: bs), lost, q'. split; [exact H1|]. split.
  - cbn. now rewrite L1.
  - done.
  - exact L3.
  - cbn [length]. lia.
  - cbn [u_puts]. rewrite Ep. replace (addr + i + 1) with (addr + (i + 1)) by lia. done.
  - destruct L6 as [(M1 & M2 & M3)|M]; [left|now right]. split; [done|]. cbn [length]. split; [destruct M2; [left; lia|now right]|lia].
  - exact L7.
Qed.

Record read_post (killed : bool) (addr n : Z) (pi : pipe) (q : list Z) (u : U) (w : list chan)
    (st : stop) (pi' : pipe) (u' : U) (w' : list chan) (bs lost q' : list Z) : Prop := ReadPost {
  rp_split : q = bs ++ lost ++ q';
  rp_ring : ring pi' q';
  rp_ends : pi_readopen pi' = pi_readopen pi /\ pi_writeopen pi' = pi_writeopen pi;
  rp_puts : u_puts u addr bs = Some u';
  rp_stop : match st with
    | Sleep c j => c = NRead /\ j = 0 /\ q = [] /\ pi_writeopen pi <> 0 /\ w' = w
    | Return r => (r = -1 /\ q = [] /\ killed = true /\ w' = w) \/
        (r = Z.of_nat (length bs) /\ (q = [] -> pi_writeopen pi = 0) /\ w' = w ++ [NWrite] /\
         ((lost = [] /\ (length bs = Z.to_nat n \/ q' = []) /\ (length bs <= Z.to_nat n)%nat) \/
          exists b, lost = [b] /\ u_put u' (u64 (addr + r)) b = None))
    end;
  rp_nwrite : pi_nwrite pi' = pi_nwrite pi;
  rp_none : (exists c j, st = Sleep c j) \/ st = Return (-1) -> bs = [] /\ lost = [];
}.

Lemma piperead_ok killed addr n pi q u w :
  ring pi q -> exists st pi' u' w' bs lost q', piperead killed addr n (PState pi u w) = Ok st (PState pi' u' w') /\
    read_post killed addr n pi q u w st pi' u' w' bs lost q'.
Proof.
  intros HR. unfold piperead. erewrite bind_ok by reflexivity. cbn [ps_pipe]. rewrite (ring_empty pi q HR).
  destruct ((Z.of_nat (length q) =? 0) && truthy (pi_writeopen pi)) eqn:E.
  - apply andb_true_iff in E as [E1 E2]. assert (q = []) as -> by (destruct q; [done|cbn [length] in E1; lia]).
    unfold truthy in E2. destruct killed; eexists _, pi, u, w, [], [], []; (split; [reflexivity|]); split; try done; [left; auto|].
    repeat (split; [done|]). split; [lia|done].
  - destruct (piperead_loop_ok (Z.to_nat n) addr 0 pi q u w HR) as (r & pi' & u' & bs & lost & q' & H1 & [L1 L2 L3 L4 L5 L6 L7]).
    rewrite (bind_ok _ _ _ _ _ H1). eexists _, pi', u', _, bs, lost, q'. split; [reflexivity|]. rewrite Z.add_0_r in L5.
    split; try done; [|intros [(c & j & ?)|[= Er]]; [done|lia]].
    right. split; [lia|]. split; [|done]. intros ->. cbn in E. unfold truthy in E. lia.
Qed.
End specs.

(** ** Readers and writers *)

(** The bytes in the buffer. *)
Definition contents (pi : pipe) : list Z :=
  (fun j => get8 ((pi_nread pi + j) mod PIPESIZE) (pi_data pi)) <$> seqZ 0 (u32 (pi_nwrite pi - pi_nread pi)).

Lemma ring_contents pi q : ring pi q -> contents pi = q.
Proof.
  intros [H1 H2 H3 H4 _ H5]. unfold contents.
  assert (u32 (pi_nwrite pi - pi_nread pi) = Z.of_nat (length q)) as -> by (rewrite H3; unfold u32, is_u32, PIPESIZE in *; dlia).
  apply list_eq_same_length with (n := length q); [done|rewrite length_fmap, length_seqZ; lia|].
  intros k a b Hk Ha Hb. rewrite list_lookup_fmap, lookup_seqZ_lt in Ha by lia. injection Ha as <-. now rewrite Z.add_0_l, (H5 k b).
Qed.

Inductive call := Writing (addr n i : Z) | Reading (addr n : Z).
Inductive status := Runnable | Asleep (c : chan) | Finished (r : Z).

Record thread (U : Type) := Thr { t_user : U; t_call : call; t_status : status }.
Arguments Thr {U}.
Arguments t_user {U}.
Arguments t_call {U}.
Arguments t_status {U}.

Section system.
Context {U : Type} `{UM : UserMem U}.

Definition sys : Type := pipe * list (thread U).

(** [wakeup] of the channels [w]. *)
Definition wake (w : list chan) (t : thread U) : thread U :=
  match t_status t with
  | Asleep c => if decide (c ∈ w) then Thr (t_user t) (t_call t) Runnable else t
  | _ => t
  end.

(** The thread after its stretch under the lock. *)
Definition stopped (u : U) (c : call) (st : stop) : thread U :=
  match st with
  | Return r => Thr u c (Finished r)
  | Sleep ch j => Thr u (match c with Writing addr n _ => Writing addr n j | _ => c end) (Asleep ch)
  end.

(** A byte that [piperead] takes from the pipe: the caller finds it in its memory,
    or it is lost because the caller's memory [u] cannot be written at [a]. *)
Inductive out := Got (b : option Z) | Lost (u : U) (a : Z).

Inductive event := Inserted (bs : list (option Z)) | Removed (os : list out) | Other.

(** How many bytes the writer has written from byte [i] on: up to the byte it
    sleeps at, or the result; a writer that is killed does not say, the counter
    does. *)
Definition count_written (i : Z) (st : stop) (pi pi' : pipe) : Z :=
  match st with
  | Sleep _ j => j - i
  | Return r => if r =? -1 then u32 (pi_nwrite pi' - pi_nwrite pi) else r - i
  end.

(** The bytes written, as they are in the writer's memory. *)
Definition bytes_written (u : U) (addr i : Z) (st : stop) (pi pi' : pipe) : list (option Z) :=
  (fun j => u_get u (u64 (addr + j))) <$> seqZ i (count_written i st pi pi').

(** The bytes read: as many as the reader is told, as they then are in its memory,
    and those by which the counter has advanced beyond. *)
Definition bytes_read (u' : U) (addr : Z) (st : stop) (pi pi' : pipe) : list out :=
  let r := match st with Return r => Z.max 0 r | Sleep _ _ => 0 end in
  ((fun j => Got (u_get u' (u64 (addr + j)))) <$> seqZ 0 r) ++
  ((fun j => Lost u' (u64 (addr + j))) <$> seqZ r (u32 (pi_nread pi' - pi_nread pi) - r)).

(** [K] says what [killed(pr)] may return during a stretch that starts at byte
    [i]. *)
Inductive pstep (K : (Z -> bool) -> Z -> Prop) : sys -> event -> sys -> Prop :=
| PWrite pi ts k u addr n i killed st pi' u' w :
    ts !! k = Some (Thr u (Writing addr n i) Runnable) -> K killed i ->
    pipewrite killed addr n i (PState pi u []) = Ok st (PState pi' u' w) ->
    pstep K (pi, ts) (Inserted (bytes_written u addr i st pi pi'))
      (pi', <[k := stopped u' (Writing addr n i) st]> (wake w <$> ts))
| PRead pi ts k u addr n killed st pi' u' w :
    ts !! k = Some (Thr u (Reading addr n) Runnable) ->
    piperead killed addr n (PState pi u []) = Ok st (PState pi' u' w) ->
    pstep K (pi, ts) (Removed (bytes_read u' addr st pi pi'))
      (pi', <[k := stopped u' (Reading addr n) st]> (wake w <$> ts))
| PClose pi ts (u : U) writable last pi' u' w :
    pipeclose writable (PState pi u []) = Ok last (PState pi' u' w) ->
    pstep K (pi, ts) Other (pi', wake w <$> ts)
| PKill pi ts k u c ch :
    ts !! k = Some (Thr u c (Asleep ch)) ->
    pstep K (pi, ts) Other (pi, <[k := Thr u c Runnable]> ts).

(** A run, with the bytes written and read in order. *)
Inductive prun (K : (Z -> bool) -> Z -> Prop) : sys -> list (option Z) -> list out -> sys -> Prop :=
| RunNil s : prun K s [] [] s
| RunStep s ins outs s1 e s2 :
    prun K s ins outs s1 -> pstep K s1 e s2 ->
    prun K s (ins ++ match e with Inserted bs => bs | _ => [] end) (outs ++ match e with Removed os => os | _ => [] end) s2.

Lemma pipeclose_ok writable pi (u : U) w last pi' u' w' :
  pipeclose writable (PState pi u w) = Ok last (PState pi' u' w') ->
  pi' = (if writable then Pipe (pi_data pi) (pi_nread pi) (pi_nwrite pi) (pi_readopen pi) 0
         else Pipe (pi_data pi) (pi_nread pi) (pi_nwrite pi) 0 (pi_writeopen pi)) /\
  w' = w ++ [if writable then NRead else NWrite] /\
  last = (pi_readopen pi' =? 0) && (pi_writeopen pi' =? 0).
Proof. destruct writable; intros [= <- <- <- <-]; done. Qed.

Lemma ring_ends pi pi' q :
  pi_data pi' = pi_data pi -> pi_nread pi' = pi_nread pi -> pi_nwrite pi' = pi_nwrite pi -> ring pi q -> ring pi' q.
Proof. intros E1 E2 E3 [H1 H2 H3 H4 Hu H5]. split; rewrite ?E1, ?E2, ?E3; done. Qed.

Lemma wake_status w t c : t_status (wake w t) = Asleep c -> t_status t = Asleep c /\ c ∉ w.
Proof.
  unfold wake. destruct (t_status t) as [|c' |r] eqn:E; try congruence. destruct (decide (c' ∈ w)); cbn; [congruence|].
  intros E'. rewrite E' in E. injection E as ->. done.
Qed.

(** The threads after a stretch: the one that ran, and the others, woken. *)
Lemma lookup_after (ts : list (thread U)) k w t' j t :
  <[k := t']> (wake w <$> ts) !! j = Some t ->
  (j = k /\ t = t') \/ exists t0, ts !! j = Some t0 /\ t = wake w t0.
Proof.
  intros Hl. destruct (decide (j = k)) as [->|Hne].
  - left. apply list_lookup_insert_Some in Hl as [(_ & <- & _)|[? _]]; done.
  - right. rewrite list_lookup_insert_ne in Hl by done. apply list_lookup_fmap_Some in Hl as (t0 & -> & Hl). eauto.
Qed.

(** The byte [b] of the pipe is the one the reader got, or could not be stored. *)
Definition is_byte (o : out) (b : Z) : Prop :=
  match o with Got x => x = Some b | Lost u a => u_put u a b = None end.

Lemma bytes_written_ok killed addr n i pi q u w st pi' w' bs :
  ring pi q -> write_post killed addr n i pi q u w st pi' w' bs -> bytes_written u addr i st pi pi' = Some <$> bs.
Proof.
  intros HR HP. pose proof HP as [P1 _ P3 _ P4 _]. assert (count_written i st pi pi' = Z.of_nat (length bs)) as El.
  { unfold count_written. cbn zeta in P4. destruct st as [r|c j]; [|destruct P4 as (_ & -> & _); lia].
    assert (u32 (pi_nwrite pi' - pi_nwrite pi) = Z.of_nat (length bs)) as Ec; [|case_goal; zbool; [done|destruct P4 as [(-> & _)|(-> & _)]; lia]].
    pose proof (wp_nread _ _ _ _ _ _ _ _ _ _ _ _ HP) as En. pose proof (rg_nwrite _ _ HR) as E1. pose proof (rg_nwrite _ _ P1) as E2.
    pose proof (rg_len _ _ P1) as Hl. rewrite E1, E2, En, length_app in *. unfold u32, PIPESIZE in *. dlia. }
  unfold bytes_written. rewrite El. apply list_eq. intros j. rewrite !list_lookup_fmap.
  destruct (bs !! j) as [b|] eqn:Eb.
  - pose proof (lookup_lt_Some _ _ _ Eb). rewrite lookup_seqZ_lt by lia. cbn. now rewrite (P3 j b Eb).
  - apply lookup_ge_None in Eb. now rewrite lookup_seqZ_ge by lia.
Qed.

Context `{UB : !UserBytes U}.

Lemma bytes_read_ok killed addr n pi q u w st pi' u' w' bs lost q' :
  u_ok u -> ring pi q -> read_post killed addr n pi q u w st pi' u' w' bs lost q' ->
  Forall2 is_byte (bytes_read u' addr st pi pi') (bs ++ lost).
Proof.
  intros Hu HR [P1 P2 _ P4 P5 P6 P7].
  assert (u32 (pi_nread pi' - pi_nread pi) = Z.of_nat (length bs) + Z.of_nat (length lost)) as Ea.
  { pose proof (rg_nwrite _ _ HR) as E1. pose proof (rg_nwrite _ _ P2) as E2. pose proof (rg_len _ _ HR) as Hl. pose proof (rg_nread _ _ P2).
    pose proof (rg_nread _ _ HR). rewrite P1, !length_app in *. unfold is_u32, u32, PIPESIZE in *. dlia. }
  assert (match st with Return r => Z.max 0 r | Sleep _ _ => 0 end = Z.of_nat (length bs) /\
    (lost = [] \/ exists b, lost = [b] /\ u_put u' (u64 (addr + Z.of_nat (length bs))) b = None)) as [Er Hlost].
  { destruct st as [r|c j]; [|destruct P7 as [-> ->]; [eauto|auto]]. destruct (Z.eq_dec r (-1)) as [->|Hr]; [destruct P7 as [-> ->]; auto|].
    destruct P5 as [(-> & _)|(-> & _ & _ & P5)]; [done|]. split; [lia|]. destruct P5 as [(-> & _)|P5]; auto. }
  unfold bytes_read. cbn zeta. rewrite Er, Ea. replace (_ + _ - _) with (Z.of_nat (length lost)) by lia. apply Forall2_app.
  - pose proof (rg_u8 _ _ HR) as H8. pose proof (rg_len _ _ HR) as Hl. rewrite P1, Forall_app in H8. rewrite P1, length_app in Hl.
    assert ((fun j => Got (u_get u' (u64 (addr + j)))) <$> seqZ 0 (Z.of_nat (length bs)) = Got <$> (Some <$> bs)) as ->.
    { rewrite <- (u_puts_get bs u addr u'), <- list_fmap_compose by (done || apply H8 || unfold PIPESIZE in *; lia). done. }
    rewrite !Forall2_fmap_l. clear. induction bs; constructor; [done|done].
  - destruct Hlost as [->|(b & -> & Hb)]; [done|]. cbn. constructor; [|done]. exact Hb.
Qed.

Definition users_ok (s : sys) : Prop := forall k t, s.2 !! k = Some t -> u_ok (t_user t).

Lemma users_after pi' ts k w t' : users_ok (pi', ts) -> u_ok (t_user t') -> users_ok (pi', <[k := t']> (wake w <$> ts)).
Proof.
  intros Hts Ht' j t [[_ ->]|(t0 & Hj & ->)]%lookup_after; [done|]. pose proof (Hts j t0 Hj) as H0. unfold wake.
  destruct (t_status t0); [done| |done]. now case_decide.
Qed.

Lemma pstep_bytes K s e s' q :
  pstep K s e s' -> ring s.1 q -> users_ok s -> users_ok s' /\ exists q', ring s'.1 q' /\
    match e with
    | Inserted bs => exists l, bs = Some <$> l /\ q' = q ++ l
    | Removed os => exists l, Forall2 is_byte os l /\ q = l ++ q'
    | Other => q' = q
    end.
Proof.
  intros Hst HR Hu. destruct Hst as [pi ts k u addr n i killed st pi' u' w Hk _ E|pi ts k u addr n killed st pi' u' w Hk E|pi ts u writable last pi' u' w E|pi ts k u c ch Hk]; cbn [fst] in *.
  - destruct (pipewrite_ok killed addr n i pi q u [] HR) as (st1 & pi1 & w1 & bs & E1 & P). rewrite E1 in E. injection E as -> -> <- ->.
    split; [apply users_after; [exact Hu|destruct st; exact (Hu k _ Hk)]|].
    exists (q ++ bs). split; [exact (wp_ring _ _ _ _ _ _ _ _ _ _ _ _ P)|]. exists bs. split; [exact (bytes_written_ok _ _ _ _ _ _ _ _ _ _ _ _ HR P)|done].
  - destruct (piperead_ok killed addr n pi q u [] HR) as (st1 & pi1 & u1 & w1 & bs & lost & q' & E1 & P). rewrite E1 in E. injection E as -> -> -> ->.
    pose proof (Hu k _ Hk) as Hok. cbn in Hok. pose proof P as [P1 P2 _ P4 _ _ _]. pose proof (u_puts_ok bs u addr u' Hok P4) as Hok'.
    split; [apply users_after; [exact Hu|destruct st; exact Hok']|].
    exists q'. split; [done|]. exists (bs ++ lost). split; [exact (bytes_read_ok _ _ _ _ _ _ _ _ _ _ _ _ _ _ Hok HR P)|]. now rewrite <- app_assoc.
  - apply pipeclose_ok in E as (-> & _). split; [|exists q; split; [destruct writable; apply (ring_ends pi); done|done]].
    intros j t Hj. cbn in Hj. apply list_lookup_fmap_Some in Hj as (t0 & -> & Hj). pose proof (Hu j t0 Hj) as H0. unfold wake.
    destruct (t_status t0); [done| |done]. now case_decide.
  - split; [|now exists q]. intros j t Hj. cbn in Hj. apply list_lookup_insert_Some in Hj as [(_ & <- & _)|[_ Hj]]; [exact (Hu k _ Hk)|exact (Hu j t Hj)].
Qed.

(** C26: the pipe is a bounded queue of bytes, from the writers' memories to the
    readers'.  In every interleaving of any number of readers and writers, with
    threads killed and ends closed at any time, the bytes that the readers find in
    their memories after their reads, in the order of the reads, are the bytes
    that the writers had in theirs, in the order of the writes; a byte is missing
    only where the reader's memory could not be written; the bytes written and not
    yet read are the contents of the buffer, at most [PIPESIZE] of them; and this
    holds when the 32-bit counters wrap around. *)
Theorem pipe_fifo K pi0 ts0 ins outs pi ts :
  ring pi0 [] -> users_ok (pi0, ts0) -> prun K (pi0, ts0) ins outs (pi, ts) ->
  exists bs, ins = Some <$> (bs ++ contents pi) /\ Forall2 is_byte outs bs /\
    ring pi (contents pi) /\ Z.of_nat (length (contents pi)) <= PIPESIZE.
Proof.
  intros H0 Hu HR. remember (pi0, ts0) as s0 eqn:E0. remember (pi, ts) as s eqn:E.
  assert (users_ok s /\ exists bs q, ring s.1 q /\ ins = Some <$> (bs ++ q) /\ Forall2 is_byte outs bs) as (_ & bs & q & Hq & Ei & Ho).
  { clear E. induction HR as [|s ins outs s1 e s2 HR IH Hs]; [subst s; split; [done|now exists [], []]|].
    destruct (IH E0 Hu) as (Hu1 & bs & q & Hq & -> & Ho). destruct (pstep_bytes K s1 e s2 q Hs Hq Hu1) as (Hu2 & q' & Hq' & He). split; [done|].
    destruct e as [l|l|]; rewrite ?app_nil_r.
    - destruct He as (l' & -> & ->). exists bs, (q ++ l'). rewrite <- fmap_app, <- app_assoc. done.
    - destruct He as (l' & Hl & ->). exists (bs ++ l'), q'. rewrite <- app_assoc. split; [done|]. split; [done|]. now apply Forall2_app.
    - subst q'. now exists bs, q. }
  subst s. cbn [fst] in Hq. exists bs. rewrite (ring_contents _ _ Hq). split; [done|]. split; [done|]. split; [done|]. apply (rg_len _ _ Hq).
Qed.

(** A sleeping reader has nothing to read and a writer to wait for; a sleeping
    writer has no room and a reader to wait for. *)
Definition sleepers_ok (s : sys) : Prop :=
  exists q, ring s.1 q /\ forall k t, s.2 !! k = Some t ->
    match t_status t with
    | Asleep NRead => q = [] /\ pi_writeopen s.1 <> 0
    | Asleep NWrite => Z.of_nat (length q) = PIPESIZE /\ pi_readopen s.1 <> 0
    | _ => True
    end.

(** [killed(pr)] does not change while the writer holds the lock. *)
Definition steady (killed : Z -> bool) (i : Z) : Prop := forall j, i <= j -> killed j = killed i.

Lemma wrote_wakeups pi ts q w k t' pi' q' :
  sleepers_ok (pi, ts) -> ring pi q -> ring pi' q' ->
  (NRead ∈ w \/ (q = [] -> pi_writeopen pi <> 0 -> q' = [] /\ pi_writeopen pi' <> 0)) ->
  (NWrite ∈ w \/ (Z.of_nat (length q) = PIPESIZE -> pi_readopen pi <> 0 -> Z.of_nat (length q') = PIPESIZE /\ pi_readopen pi' <> 0)) ->
  match t_status t' with
  | Asleep NRead => q' = [] /\ pi_writeopen pi' <> 0
  | Asleep NWrite => Z.of_nat (length q') = PIPESIZE /\ pi_readopen pi' <> 0
  | _ => True
  end ->
  sleepers_ok (pi', <[k := t']> (wake w <$> ts)).
Proof.
  intros (q0 & H0 & Hts) Hq Hq' HrN HwN Ht'. cbn [fst snd] in *.
  assert (q0 = q) as -> by (rewrite <- (ring_contents _ _ H0); now apply ring_contents).
  exists q'. split; [done|]. intros j t Hj. cbn [fst snd] in *. apply lookup_after in Hj as [[_ ->]|(t0 & Hj & ->)]; [done|].
  destruct (t_status (wake w t0)) as [|c|r] eqn:E; try done. apply wake_status in E as [E Hn]. specialize (Hts j t0 Hj). rewrite E in Hts.
  destruct c, Hts as [A1 A2]; [destruct HrN|destruct HwN]; auto || contradiction.
Qed.

Lemma pstep_sleepers s e s' : pstep steady s e s' -> sleepers_ok s -> sleepers_ok s'.
Proof.
  intros Hst Hok. pose proof Hok as (q & HR & Hts).
  destruct Hst as [pi ts k u addr n i killed st pi' u' w Hk HK E|pi ts k u addr n killed st pi' u' w Hk E|pi ts u writable last pi' u' w E|pi ts k u c ch Hk]; cbn [fst snd] in *.
  - destruct (pipewrite_ok killed addr n i pi q u [] HR) as (st1 & pi1 & w1 & bs & E1 & [P1 [P2 P2'] P3 Pa P4 _]). rewrite E1 in E. injection E as -> -> <- ->.
    assert (Z.of_nat (length q) = PIPESIZE -> bs = []) as Hb.
    { intros Hq. pose proof (rg_len _ _ P1) as Hl. rewrite length_app in Hl. destruct bs; [done|cbn [length] in Hl; lia]. }
    apply (wrote_wakeups pi ts q w k _ pi' (q ++ bs)); try done.
    + destruct st as [r|c j]; [destruct P4 as [(-> & Hlt & Hstop & ->)|(-> & _ & ->)]|destruct P4 as (_ & _ & _ & _ & _ & ->)];
        try (left; now apply list_elem_of_singleton).
      right. intros -> Hw. split; [|now rewrite P2']. destruct bs as [|b bs]; [done|exfalso].
      destruct (Pa O ltac:(cbn; lia)) as [A1 A2]. destruct Hstop as [|Hstop]; [done|].
      rewrite Z.add_0_r in A2. rewrite (HK (i + Z.of_nat (length (b :: bs)))) in Hstop by lia. congruence.
    + right. intros Hq Hr. rewrite (Hb Hq), app_nil_r, P2. done.
    + destruct st as [r|c j]; [done|]. cbn. destruct P4 as (-> & _ & _ & Hl & Hr & _). now rewrite P2.
  - destruct (piperead_ok killed addr n pi q u [] HR) as (st1 & pi1 & u1 & w1 & bs & lost & q' & E1 & [P1 P2 [P3 P3'] P4 P5 _ _]). rewrite E1 in E. injection E as -> -> -> ->.
    apply (wrote_wakeups pi ts q w k _ pi' q'); try done.
    + right. intros Hq Hw. rewrite Hq in P1. symmetry in P1. apply app_nil in P1 as [_ P1]. apply app_nil in P1 as [_ P1]. now rewrite P3'.
    + destruct st as [r|c j]; [destruct P5 as [(-> & Hq & _ & ->)|(_ & _ & -> & _)]|destruct P5 as (-> & _ & Hq & _ & ->)];
        try (left; now apply list_elem_of_singleton); right; intros Hl; rewrite Hq in Hl; cbn in Hl; unfold PIPESIZE in Hl; lia.
    + destruct st as [r|c j]; [done|]. cbn. destruct P5 as (-> & _ & Hq & Hw & _). rewrite Hq in P1. symmetry in P1.
      apply app_nil in P1 as [_ P1]. apply app_nil in P1 as [_ P1]. now rewrite P3'.
  - apply pipeclose_ok in E as (-> & -> & _). exists q. split; [destruct writable; apply (ring_ends pi); done|].
    intros j t Hj. cbn [fst snd] in *. apply list_lookup_fmap_Some in Hj as (t0 & -> & Hj).
    destruct (t_status (wake _ t0)) as [|c|r] eqn:Es; try done. apply wake_status in Es as [Es Hn]. specialize (Hts j t0 Hj). rewrite Es in Hts.
    destruct c, writable; cbn in *; try done; destruct Hn; now apply list_elem_of_singleton.
  - exists q. split; [done|]. intros j t Hj. cbn [fst snd] in *. destruct (decide (j = k)) as [->|Hne].
    + apply list_lookup_insert_Some in Hj as [(_ & <- & _)|[? _]]; done.
    + rewrite list_lookup_insert_ne in Hj by done. now apply (Hts j).
Qed.

(** C27: no wakeup is lost.  If a writer is not killed in the middle of copying,
    then in every interleaving of readers, writers, kills between stretches and
    closes, a thread sleeping in [piperead] has an empty pipe with an open write
    end, and one sleeping in [pipewrite] a full pipe with an open read end: no
    thread sleeps although it could go on. *)
Theorem pipe_no_lost_wakeup pi0 ts0 ins outs pi ts k u c ch :
  ring pi0 [] -> (forall k t, ts0 !! k = Some t -> t_status t = Runnable) ->
  prun steady (pi0, ts0) ins outs (pi, ts) -> ts !! k = Some (Thr u c (Asleep ch)) ->
  match ch with
  | NRead => contents pi = [] /\ pi_writeopen pi <> 0
  | NWrite => Z.of_nat (length (contents pi)) = PIPESIZE /\ pi_readopen pi <> 0
  end.
Proof.
  intros H0 Hrun HR Hk. remember (pi0, ts0) as s0 eqn:E0. remember (pi, ts) as s eqn:E.
  assert (sleepers_ok s) as (q & Hq & Hts).
  { clear E. induction HR as [|s ins outs s1 e s2 HR IH Hs]; [|apply (pstep_sleepers s1 e); auto].
    subst s. exists []. split; [done|]. intros j t Hj. now rewrite (Hrun j t Hj). }
  subst s. cbn [fst snd] in *. rewrite (ring_contents _ _ Hq). specialize (Hts k _ Hk). now destruct ch.
Qed.
End system.

(** ** Examples *)

#[export] Instance flat_mem : UserMem memory.
Proof.
  refine {| u_get m a := Some (rd m a); u_put m a b := Some (wr m a b) |}.
  - intros m a b _ [= <-]. apply rd_range.
  - done.
  - done.
Defined.

#[export] Instance flat_bytes : UserBytes memory.
Proof.
  refine {| u_ok _ := True |}; [done| |].
  - intros m a b m' _ _ Hb [= <-]. cbn. rewrite rd_wr_eq. f_equal. now apply u8_small.
  - intros m a b m' a' _ _ _ Hne [= <-]. cbn. now rewrite rd_wr_ne.
Defined.

Definition new_pipe : pipe := Pipe (replicate (Z.to_nat PIPESIZE) 0) 0 0 1 1.

Lemma new_pipe_ring : ring new_pipe [].
Proof. split; try done. Qed.

Definition demo_reader : thread memory := Thr ∅ (Reading 0 4) Runnable.
Definition demo_writer : thread memory := Thr (wr_bytes ∅ 0 [104; 105]) (Writing 0 2 0) Runnable.

(** The stretch of the run under the lock. *)
Definition ran {A} (c : M (pstate memory) A) (pi : pipe) (u : memory) : pipe := ps_pipe (after c (PState pi u [])).

(** The reader finds the pipe empty and sleeps. *)
Definition demo_asleep : list (thread memory) := [Thr ∅ (Reading 0 4) (Asleep NRead); demo_writer].

Lemma demo_sleep K : pstep K (new_pipe, [demo_reader; demo_writer]) (Removed []) (new_pipe, demo_asleep).
Proof. exact (PRead K new_pipe [demo_reader; demo_writer] 0 ∅ 0 4 false (Sleep NRead 0) new_pipe ∅ [] eq_refl eq_refl). Qed.

(** The writer then writes two bytes, or is killed after the first. *)
Definition demo_killed (i : Z) : bool := 1 <=? i.
Definition demo_full : pipe := ran (pipewrite (fun _ => false) 0 2 0) new_pipe (t_user demo_writer).
Definition demo_cut : pipe := ran (pipewrite demo_killed 0 2 0) new_pipe (t_user demo_writer).

Lemma demo_write :
  pipewrite (fun _ => false) 0 2 0 (PState new_pipe (t_user demo_writer) []) = Ok (Return 2) (PState demo_full (t_user demo_writer) [NRead]).
Proof. vm_compute. reflexivity. Qed.

Lemma demo_write_cut :
  pipewrite demo_killed 0 2 0 (PState new_pipe (t_user demo_writer) []) = Ok (Return (-1)) (PState demo_cut (t_user demo_writer) []).
Proof. vm_compute. reflexivity. Qed.

(** The reader, which the writer has woken, then reads both bytes. *)
Definition demo_read : pstate memory := after (piperead false 0 4) (PState demo_full ∅ []).

Lemma demo_read_ok : piperead false 0 4 (PState demo_full ∅ []) = Ok (Return 2) (PState (ps_pipe demo_read) (ps_user demo_read) [NWrite]).
Proof. vm_compute. reflexivity. Qed.

Lemma pipe_fifo_witness : exists bs : list Z,
  Some <$> (bs ++ contents (ps_pipe demo_read)) = [Some 104; Some 105] /\
  Forall2 is_byte [Got (Some 104); Got (Some 105)] bs.
Proof.
  pose proof (PWrite (fun _ _ => True) new_pipe demo_asleep 1 _ 0 2 0 _ _ _ _ _ eq_refl I demo_write) as Hw.
  pose proof (PRead (fun _ _ => True) demo_full (<[1%nat := stopped (t_user demo_writer) (Writing 0 2 0) (Return 2)]> (wake [NRead] <$> demo_asleep))
    0 ∅ 0 4 false _ _ _ _ eq_refl demo_read_ok) as Hr.
  destruct (pipe_fifo (fun _ _ => True) new_pipe [demo_reader; demo_writer] _ _ (ps_pipe demo_read) _ new_pipe_ring ltac:(intros ? ? _; exact I)
    (RunStep _ _ _ _ _ _ _ (RunStep _ _ _ _ _ _ _ (RunStep _ _ _ _ _ _ _ (RunNil _ _) (demo_sleep _)) Hw) Hr)) as (bs & E & Ho & _).
  exists bs. split; [etransitivity; [symmetry; exact E|vm_compute; reflexivity]|exact Ho].
Defined.

Lemma pipe_no_lost_wakeup_witness : contents new_pipe = [] /\ pi_writeopen new_pipe <> 0.
Proof.
  refine (pipe_no_lost_wakeup new_pipe [demo_reader; demo_writer] _ _ new_pipe demo_asleep 0 ∅ (Reading 0 4) NRead new_pipe_ring _
    (RunStep _ _ _ _ _ _ _ (RunNil _ _) (demo_sleep _)) eq_refl).
  intros [|[|k]] t Hk; [injection Hk as <-; reflexivity..|discriminate].
Defined.

(** [killed(pr)] never goes back to 0. *)
Definition once_killed (killed : Z -> bool) (i : Z) : Prop := forall j k, i <= j <= k -> killed j = true -> killed k = true.

(** C28: a wakeup can be lost when the writer is killed while it copies.  There
    is a run in which a reader sleeps on the empty pipe, a writer puts a byte in,
    is killed before the next one, and returns without waking the reader: the
    reader sleeps although there is a byte to read. *)
Theorem pipe_lost_wakeup :
  exists pi ts ins, prun once_killed (new_pipe, [demo_reader; demo_writer]) ins [] (pi, ts) /\
    ts !! 0%nat = Some (Thr ∅ (Reading 0 4) (Asleep NRead)) /\ contents pi = [104] /\ pi_writeopen pi = 1.
Proof.
  assert (once_killed demo_killed 0) as HK by (intros j k Hj Hk; unfold demo_killed in *; lia).
  pose proof (PWrite once_killed new_pipe demo_asleep 1 _ 0 2 0 _ _ _ _ _ eq_refl HK demo_write_cut) as Hw.
  eexists demo_cut, _, _. split; [exact (RunStep _ _ _ _ _ _ _ (RunStep _ _ _ _ _ _ _ (RunNil _ _) (demo_sleep _)) Hw)|].
  split; [reflexivity|]. split; vm_compute; reflexivity.
Qed.
