(* ===== verification/PipeVm.v ===== *)
(** * Bytes of user memory through a page table

    The interfaces [UserMem] and [UserBytes] of pipe.c's model, discharged by
    [copyin] and [copyout] of vm.c: the laws on single copies hold for every
    memory and page table, those on what a copy leaves behind in the address
    space of a process. *)

From stdpp Require Import base gmap list numbers strings.
From S2P Require Import Prelude Mem Riscv Kalloc Vm PageTable UserMem UserCopy VmSpec Fs UserVm Pipe.

Open Scope Z_scope.

Section bytes.
Context {St : Type} `{PA : PageAllocator St} `{PS : !PageAllocatorSpec St}.
Implicit Types (s : St) (u : uvm St).

Definition vm_get u (a : Z) : option Z :=
  match copyin_bytes (uv_pt u) a 1 (uv_st u) with
  | Ok (b :: _, r) _ => if r =? -1 then None else Some b
  | _ => None
  end.

Definition vm_put u (a b : Z) : option (uvm St) :=
  match copyout_bytes (uv_pt u) a [b] (uv_st u) with
  | Ok r s => if r =? -1 then None else Some (Uvm s (uv_pt u))
  | _ => None
  end.

Lemma walk_loop_pure l : forall root va s, exists x, walk_loop l root va false s = Ok x s.
Proof.
  induction l as [|l IH]; intros root va s; cbn [walk_loop]; [now eexists|]. erewrite bind_ok by reflexivity.
  destruct (truthy _); [apply IH|]. now eexists.
Qed.

Lemma walk_pure root va s : va < MAXVA -> exists x, walk root va false s = Ok x s.
Proof. intros Hva. unfold walk. rewrite (proj2 (Z.leb_gt MAXVA va)) by done. apply walk_loop_pure. Qed.

Lemma walkaddr_pure root va s : exists x, walkaddr root va s = Ok x s.
Proof.
  unfold walkaddr. destruct (Z.leb_spec MAXVA va) as [|Hva]; [now eexists|]. destruct (walk_pure root va s Hva) as [x E].
  rewrite (bind_ok _ _ _ _ _ E). destruct (x =? 0); [now eexists|]. erewrite bind_ok by reflexivity. repeat case_goal; now eexists.
Qed.

(** The first page of a copy holds its one byte. *)
Lemma chunk_one a : is_u64 a -> (if 1 <? PGSIZE - (a - PGROUNDDOWN a) then 1 else PGSIZE - (a - PGROUNDDOWN a)) = 1.
Proof. intros Ha. destruct (PGROUNDDOWN_spec a Ha) as (_ & Hr & _). unfold PGSIZE in *. case_goal; zbool; lia. Qed.

Lemma copyin_one root a s :
  is_u64 a -> copyin_bytes root a 1 s = Ok ([], -1) s \/ exists b, copyin_bytes root a 1 s = Ok ([b], 0) s /\ is_u8 b.
Proof.
  intros Ha. unfold copyin_bytes. change (copy_fuel 1) with 3%nat. cbn [copyin_bytes_loop]. change (0 <? 1) with true. cbv iota.
  destruct (walkaddr_pure root (PGROUNDDOWN a) s) as [x E]. cbn zeta. rewrite (bind_ok _ _ _ _ _ E). destruct (x =? 0); [now left|right].
  erewrite bind_ok by reflexivity. rewrite (chunk_one a Ha). change (1 - 1) with 0. change (0 <? 0) with false. cbv iota.
  erewrite bind_ok by reflexivity. eexists. split; [reflexivity|apply rd_range].
Qed.

Lemma copyout_one root a b s :
  is_u64 a -> copyout_bytes root a [b] s = Ok (-1) s \/ exists s', copyout_bytes root a [b] s = Ok 0 s'.
Proof.
  intros Ha. unfold copyout_bytes. change (copy_fuel (Z.of_nat (length [b]))) with 3%nat. cbn [copyout_bytes_loop].
  change (0 <? Z.of_nat (length [b])) with true. cbv iota zeta. destruct (Z.leb_spec MAXVA (PGROUNDDOWN a)) as [|Hva]; [now left|].
  destruct (walk_pure root _ s Hva) as [x E]. rewrite (bind_ok _ _ _ _ _ E). destruct (x =? 0); [now left|].
  erewrite bind_ok by reflexivity. case_goal; [now left|right]. erewrite bind_ok by reflexivity.
  change (Z.of_nat (length [b])) with 1. rewrite (chunk_one a Ha). change (drop (Z.to_nat 1) [b]) with (@nil Z). eexists. reflexivity.
Qed.

#[export] Instance vm_user_mem : UserMem (uvm St).
Proof.
  refine {| u_get := vm_get; u_put := vm_put |}; intros [s root] a; cbn [u_copyin u_copyout uvm_user]; unfold vm_get, vm_put, on_st; cbn [uv_pt uv_st].
  - intros b Ha. destruct (copyin_one root a s Ha) as [-> |(c & -> & Hc)]; [done|]. now intros [= <-].
  - intros Ha. now destruct (copyin_one root a s Ha) as [-> |(c & -> & Hc)].
  - intros b Ha. now destruct (copyout_one root a b s Ha) as [-> |(s' & ->)].
Defined.

(** The address space of a process. *)
Definition vm_ok u : Prop := exists T F U, uspace (uv_st u) (uv_pt u) T F U /\ kernel_above (uv_st u) T.

Lemma can_read_above s root T F U va : uspace s root T F U -> TRAPFRAME <= va -> can_read U (va / PGSIZE) = false.
Proof.
  intros Hu Hva. unfold can_read, uflag. destruct (U !! (va / PGSIZE)) as [x|] eqn:E; [|done]. exfalso.
  pose proof (us_key _ _ _ _ _ Hu _ _ E). destruct UPAGES_eq as (EU & ET & _). unfold PGSIZE in *. dlia.
Qed.

(** In it, a byte that can be read is the byte of the user's memory. *)
Lemma vm_get_ok s root T F U a :
  uspace s root T F U -> kernel_above s T -> is_u64 a ->
  vm_get (Uvm s root) a = if can_read U (a / PGSIZE) then Some (umem s U a) else None.
Proof.
  intros Hu Ha H64. unfold vm_get, copyin_bytes. cbn [uv_pt uv_st]. change (copy_fuel 1) with 3%nat.
  destruct (Z.le_gt_cases TRAPFRAME a) as [HT|HT].
  - rewrite (can_read_above s root T F U a Hu HT). cbn [copyin_bytes_loop]. change (0 <? 1) with true. cbv iota zeta.
    pose proof (rounddown_above a H64 HT) as Hr. destruct UPAGES_eq as (EU & ET & _).
    assert (walkaddr root (PGROUNDDOWN a) s = Ok 0 s) as Ew.
    { rewrite (walkaddr_leaf s root T) by (apply Hu || unfold PGSIZE in *; lia). destruct (Z.leb_spec MAXVA (PGROUNDDOWN a)); [done|].
      unfold uaddr. rewrite (Ha (PGROUNDDOWN a)) by lia. now rewrite orb_true_r. }
    now rewrite (bind_ok _ _ _ _ _ Ew).
  - pose proof H64 as [Ha0 _]. rewrite (copyin_bytes_step 2 s root T F U a 1) by (done || lia).
    assert (chunk a 1 = 1) as -> by (unfold chunk, PGSIZE; case_goal; zbool; dlia).
    destruct (can_read U (a / PGSIZE)) eqn:Ew; [|done].
    assert (is_Some (U !! (a / PGSIZE))) as Hin by (unfold can_read, uflag in Ew; now destruct (U !! (a / PGSIZE))).
    cbn [copyin_bytes_loop Z.sub Z.ltb]. erewrite bind_ok by reflexivity. cbn. f_equal.
    rewrite <- (Z.add_0_r (upa U a)), (rd_upa s U a 1 0), Z.add_0_r by (done || lia || unfold PGSIZE; dlia). done.
Qed.

(** A byte that is put is the one change to the user's memory. *)
Lemma vm_put_ok s root T F U a b u' :
  uspace s root T F U -> kernel_above s T -> is_u64 a -> vm_put (Uvm s root) a b = Some u' ->
  exists s', u' = Uvm s' root /\ uspace s' root T F U /\ kernel_above s' T /\ can_write U (a / PGSIZE) = true /\
    forall x, umem s' U x = if x =? a then u8 b else umem s U x.
Proof.
  intros Hu Ha H64. unfold vm_put. cbn [uv_pt uv_st].
  destruct (copyout_bytes_ok s root T F U a [b] Hu Ha H64) as (r & s' & k & -> & Hu' & Ha' & [Hb Hp Hres _]).
  destruct Hres as [[-> ->]|[-> _]]; [|done]. intros [= <-]. cbn [length] in *. exists s'. split; [done|]. split; [done|]. split; [done|].
  split; [apply Hp; lia|]. intros x. rewrite Hb. destruct (Z.eqb_spec x a) as [->|Hne].
  - zdecide. cbn [andb]. now rewrite Z.sub_diag.
  - case_goal; zbool; [lia|done].
Qed.

#[export] Instance vm_user_bytes : UserBytes (uvm St).
Proof.
  refine {| u_ok := vm_ok |}; intros [s root] a b u'; [intros (T & F & U & Hu & Ha) H64 E..|intros a' (T & F & U & Hu & Ha) H64 H64' Hne E];
    cbn [u_get u_put vm_user_mem uv_st uv_pt] in *.
  - destruct (vm_put_ok s root T F U a b u' Hu Ha H64 E) as (s' & -> & Hu' & Ha' & _). now exists T, F, U.
  - intros E'. destruct (vm_put_ok s root T F U a b u' Hu Ha H64 E') as (s' & -> & Hu' & Ha' & Hw & Hm).
    rewrite (vm_get_ok s' root T F U a Hu' Ha' H64), Hm, Z.eqb_refl, (u8_small b E).
    unfold can_write in Hw. apply andb_true_iff in Hw as [Hw _]. unfold can_read. now rewrite Hw.
  - destruct (vm_put_ok s root T F U a b u' Hu Ha H64 E) as (s' & -> & Hu' & Ha' & _ & Hm).
    rewrite (vm_get_ok s' root T F U a' Hu' Ha' H64'), (vm_get_ok s root T F U a' Hu Ha H64'), Hm. now rewrite (proj2 (Z.eqb_neq _ _) Hne).
Defined.
End bytes.

#[local] Instance pipe_pa : PageAllocator kstate := kmem_allocator vm_kend.
#[local] Instance pipe_ps : PageAllocatorSpec kstate := kmem_allocator_spec vm_kend ltac:(done).

(** The process of VmSpec.v has a memory that the theorems on pipes apply to. *)
Lemma pipe_process : exists root s, vm_ok (Uvm s root) /\ exists u', vm_put (Uvm s root) 4095 7 = Some u' /\ vm_get u' 4095 = Some 7.
Proof.
  destruct vm_proc_ok as (root & s & T & F & U & _ & Hu & Hs & Hab & Hp). exists root, s.
  assert (kernel_above s T) as Ha by (intros va Hva; now rewrite Hab). assert (is_u64 4095) as H64 by (unfold is_u64; lia).
  split; [now exists T, F, U|]. destruct (vm_writable U (4095 / PGSIZE) Hp Hs) as [Hw Hr]; [now vm_compute|].
  destruct (copyout_bytes_ok (PA := pipe_pa) (PS := pipe_ps) s root T F U 4095 [7] Hu Ha H64) as (r & s' & k & E & Hu' & Ha' & [Hb _ Hres _]).
  destruct Hres as [[-> ->]|(-> & Hk & Hno)]; [|cbn [length] in Hk; replace (4095 + k) with 4095 in Hno by lia; congruence].
  exists (Uvm s' root). unfold vm_put. cbn [uv_pt uv_st]. rewrite E. split; [done|].
  rewrite (vm_get_ok s' root T F U 4095 Hu' Ha' H64), Hr, Hb. done.
Qed.
