(* ===== verification/File.v ===== *)
(** * kernel/file.c and the allocation of pipes

    The state of a system call: the file system, the file table, the pipes, and
    what the code uses of the current process.  A [struct file *] is an index into
    the table, [NULL] is -1; a pipe is named by its page.  The threads a call
    wakes do not appear; where it would sleep only another thread could let it
    go on, and alone it does not return. *)

From stdpp Require Import base gmap numbers strings functions list.
From S2P Require Import Prelude Mem Block StringC Riscv Kalloc Spinlock Locks Bio Log BlockIO Fs Pipe.

Open Scope Z_scope.

Definition NFILE : Z := 100.
Definition NOFILE : Z := 16.
Definition NDEV : Z := 10.

Inductive ftype := FD_NONE | FD_PIPE | FD_INODE | FD_DEVICE.

#[export] Instance ftype_eq_dec : EqDecision ftype.
Proof. solve_decision. Defined.

Record file := File {
  fl_type : ftype;
  fl_ref : Z;
  fl_readable : Z;
  fl_writable : Z;
  fl_pipe : Z;
  fl_ip : Z;
  fl_off : Z;
  fl_major : Z;
}.

(** The process: size, the page of its trapframe (the registers
    saved there are in memory), open files. *)
Record uproc := UProc {
  up_sz : Z;
  up_trapframe : Z;
  up_ofile : Z -> Z;
  up_killed : bool;
}.

Record kst (B U : Type) := KSt {
  k_fs : fstate B U;
  k_file : Z -> file;
  k_pipe : Z -> pipe;
  k_proc : uproc;
}.
Arguments KSt {B U}.
Arguments k_fs {B U}.
Arguments k_file {B U}.
Arguments k_pipe {B U}.
Arguments k_proc {B U}.

Definition ftable_lock : lockid := ("ftable"%string, 0).
Definition pipe_lock (pi : Z) : lockid := ("pipe"%string, pi).

Definition with_ref (n : Z) (f : file) : file :=
  File (fl_type f) n (fl_readable f) (fl_writable f) (fl_pipe f) (fl_ip f) (fl_off f) (fl_major f).
Definition with_off (n : Z) (f : file) : file :=
  File (fl_type f) (fl_ref f) (fl_readable f) (fl_writable f) (fl_pipe f) (fl_ip f) n (fl_major f).

(** The bytes of a [struct stat]; the four bytes between [nlink] and [size] are
    what the stack held. *)
Definition stat_bytes (st : stat) (pad : list Z) : list Z :=
  le_bytes 4 (st_dev st) ++ le_bytes 4 (st_ino st) ++ le_bytes 2 (st_type st) ++ le_bytes 2 (st_nlink st) ++
  pad ++ le_bytes 8 (st_size st).

(** The local variable [st] of [filestat]. *)
Definition filestat_st : Z := KSTACK 0 + 64.

Section ops.
Context {B U : Type} `{BlockIO B} `{UserIO U} `{PageAllocator U}.
Local Abbreviation K := (kst B U).

(** The functions of [devsw], by major number. *)
Context (devsw_read devsw_write : Z -> option (Z -> Z -> M K Z)).

Definition set_fs (x : fstate B U) (s : K) : K := KSt x (k_file s) (k_pipe s) (k_proc s).
Definition set_file (f : Z) (x : file) : M K unit :=
  modify (fun s => KSt (k_fs s) (<[f := x]> (k_file s)) (k_pipe s) (k_proc s)).
Definition set_pipes (pi : Z) (x : pipe) (s : K) : K := KSt (k_fs s) (k_file s) (<[pi := x]> (k_pipe s)) (k_proc s).
Definition set_proc (p : uproc) (s : K) : K := KSt (k_fs s) (k_file s) (k_pipe s) p.

#[export] Instance kst_thread : Thread K :=
  {| held := Field (fun s => f_held (k_fs s)) (fun h s => set_fs (fset held h (k_fs s)) s);
     mypid := fun s => f_pid (k_fs s) |}.

(** An operation of the file system. *)
Definition fs {A} (c : M (fstate B U) A) : M K A := fun s =>
  match c (k_fs s) with
  | Ok a x => Ok a (set_fs x s)
  | Panic msg => Panic msg
  | Diverge => Diverge
  end.

(** What an operation on a pipe does while it holds the lock. *)
Definition on_pipe {A} (pi : Z) (c : M (pstate U) A) : M K A := fun s =>
  match c (PState (k_pipe s pi) (f_user (k_fs s)) []) with
  | Ok a ps => Ok a (set_pipes pi (ps_pipe ps) (set_fs (FState (f_io (k_fs s)) (ps_user ps) (f_held (k_fs s)) (f_pid (k_fs s))
                      (f_sb (k_fs s)) (f_inode (k_fs s)) (f_cwd (k_fs s))) s))
  | Panic msg => Panic msg
  | Diverge => Diverge
  end.

Definition finish (st : stop) : M K Z :=
  match st with Return r => mret r | Sleep _ _ => diverge end.

Definition pipe_write (pi addr n : Z) : M K Z :=
  lock (pipe_lock pi);;
  k ← gets (fun s => up_killed (k_proc s));
  st ← on_pipe pi (pipewrite (fun _ => k) addr n 0);
  r ← finish st;
  unlock (pipe_lock pi);;
  mret r.

Definition pipe_read (pi addr n : Z) : M K Z :=
  lock (pipe_lock pi);;
  k ← gets (fun s => up_killed (k_proc s));
  st ← on_pipe pi (piperead k addr n);
  r ← finish st;
  unlock (pipe_lock pi);;
  mret r.

Definition pipe_close (pi : Z) (writable : bool) : M K unit :=
  lock (pipe_lock pi);;
  last ← on_pipe pi (pipeclose writable);
  if (last : bool) then
    unlock (pipe_lock pi);;
    fs (user (pa_kfree pi))
  else unlock (pipe_lock pi).

(** ** file.c *)

(** The loop of [filealloc] from entry [i]. *)
Fixpoint find_file (k : nat) (i : Z) (t : Z -> file) : option Z :=
  match k with
  | O => None
  | S k' => if fl_ref (t i) =? 0 then Some i else find_file k' (i + 1) t
  end.

Definition filealloc : M K Z :=
  lock ftable_lock;;
  t ← gets k_file;
  match find_file (Z.to_nat NFILE) 0 t with
  | Some f =>
      set_file f (with_ref 1 (t f));;
      unlock ftable_lock;;
      mret f
  | None =>
      unlock ftable_lock;;
      mret NULL
  end.

Definition filedup (f : Z) : M K Z :=
  lock ftable_lock;;
  x ← gets (fun s => k_file s f);
  if fl_ref x <? 1 then panic "filedup" else
  set_file f (with_ref (fl_ref x + 1) x);;
  unlock ftable_lock;;
  mret f.

Definition fileclose (f : Z) : M K unit :=
  lock ftable_lock;;
  x ← gets (fun s => k_file s f);
  if fl_ref x <? 1 then panic "fileclose" else
  if 0 <? fl_ref x - 1 then
    set_file f (with_ref (fl_ref x - 1) x);;
    unlock ftable_lock
  else
    set_file f (File FD_NONE 0 (fl_readable x) (fl_writable x) (fl_pipe x) (fl_ip x) (fl_off x) (fl_major x));;
    unlock ftable_lock;;
    match fl_type x with
    | FD_PIPE => pipe_close (fl_pipe x) (truthy (fl_writable x))
    | FD_INODE | FD_DEVICE =>
        fs (io io_begin_op);;
        fs (iput (fl_ip x));;
        fs (io io_end_op)
    | FD_NONE => mret tt
    end.

Definition filestat (f addr : Z) : M K Z :=
  x ← gets (fun s => k_file s f);
  match fl_type x with
  | FD_INODE | FD_DEVICE =>
      fs (ilock (fl_ip x));;
      st ← fs (stati (fl_ip x));
      fs (iunlock (fl_ip x));;
      pad ← gets (fun s => rd_bytes (f_mem (k_fs s)) (filestat_st + 12) 4);
      r ← fs (user (u_copyout addr (stat_bytes st pad)));
      if r <? 0 then mret (-1) else mret 0
  | _ => mret (-1)
  end.

Definition fileread (f addr n : Z) : M K Z :=
  x ← gets (fun s => k_file s f);
  if fl_readable x =? 0 then mret (-1) else
  match fl_type x with
  | FD_PIPE => pipe_read (fl_pipe x) addr n
  | FD_DEVICE =>
      if (fl_major x <? 0) || (NDEV <=? fl_major x) then mret (-1) else
      match devsw_read (fl_major x) with
      | None => mret (-1)
      | Some rd => rd addr n
      end
  | FD_INODE =>
      fs (ilock (fl_ip x));;
      r ← fs (readi (fl_ip x) true addr (fl_off x) (u32 n));
      (if 0 <? r then set_file f (with_off (u32 (fl_off x + r)) x) else mret tt);;
      fs (iunlock (fl_ip x));;
      mret r
  | FD_NONE => panic "fileread"
  end.

(** The largest write of one transaction. *)
Definition write_max : Z := (MAXOPBLOCKS - 1 - 1 - 2) / 2 * BSIZE.

(** One round of the loop of [filewrite]. *)
Definition write_some (f addr i n1 : Z) : M K Z :=
  x ← gets (fun s => k_file s f);
  fs (io io_begin_op);;
  fs (ilock (fl_ip x));;
  r ← fs (writei (fl_ip x) true (u64 (addr + i)) (fl_off x) (u32 n1));
  (if 0 <? r then set_file f (with_off (u32 (fl_off x + r)) x) else mret tt);;
  fs (iunlock (fl_ip x));;
  fs (io io_end_op);;
  mret r.

Fixpoint filewrite_loop (fuel : nat) (f addr n i : Z) : M K Z :=
  match fuel with
  | O => diverge
  | S fuel' =>
      if i <? n then
        let n1 := if write_max <? n - i then write_max else n - i in
        r ← write_some f addr i n1;
        if negb (r =? n1) then mret i
        else filewrite_loop fuel' f addr n (i + r)
      else mret i
  end.

Definition filewrite (f addr n : Z) : M K Z :=
  x ← gets (fun s => k_file s f);
  if fl_writable x =? 0 then mret (-1) else
  match fl_type x with
  | FD_PIPE => pipe_write (fl_pipe x) addr n
  | FD_DEVICE =>
      if (fl_major x <? 0) || (NDEV <=? fl_major x) then mret (-1) else
      match devsw_write (fl_major x) with
      | None => mret (-1)
      | Some wr => wr addr n
      end
  | FD_INODE =>
      i ← filewrite_loop (Z.to_nat (n / write_max + 2)) f addr n 0;
      mret (if i =? n then n else -1)
  | FD_NONE => panic "filewrite"
  end.

(** pipe.c: the result and the two files. *)
Definition pipealloc_bad (pi f0 f1 : Z) : M K (Z * Z * Z) :=
  (if truthy pi then fs (user (pa_kfree pi)) else mret tt);;
  (if negb (f0 =? NULL) then fileclose f0 else mret tt);;
  (if negb (f1 =? NULL) then fileclose f1 else mret tt);;
  mret (-1, f0, f1).

Definition pipealloc : M K (Z * Z * Z) :=
  f0 ← filealloc;
  if f0 =? NULL then pipealloc_bad 0 f0 NULL else
  f1 ← filealloc;
  if f1 =? NULL then pipealloc_bad 0 f0 f1 else
  pi ← fs (user pa_kalloc);
  if pi =? 0 then pipealloc_bad 0 f0 f1 else
  modify (fun s => set_pipes pi (Pipe (pi_data (k_pipe s pi)) 0 0 1 1) s);;
  x ← gets (fun s => k_file s f0);
  set_file f0 (File FD_PIPE (fl_ref x) 1 0 pi (fl_ip x) (fl_off x) (fl_major x));;
  x ← gets (fun s => k_file s f1);
  set_file f1 (File FD_PIPE (fl_ref x) 0 1 pi (fl_ip x) (fl_off x) (fl_major x));;
  mret (0, f0, f1).
End ops.
