(* ===== verification/FileThms.v ===== *)
(** * kernel/file.c: writing to a file, end to end

    A round of [filewrite] on the log over the buffer cache. *)

From stdpp Require Import base gmap numbers strings functions list.
From Stdlib Require Import ZifyBool.
From S2P Require Import Prelude Mem Block StringC Riscv Kalloc Spinlock Locks Bio Bcache BcacheSpec BcacheThms Log LogSpec LogCrash LogTxn BlockIO.
From S2P Require Import Fs FsBlocks FsInode FsFile FsIO FsTable Pipe File FsDemo.

Open Scope Z_scope.

(** ** A round of filewrite *)

Section write_some.
Context {S : Type} `{BC : BufCache S} (dev : Z) `{BS : !BufCacheSpec S dev}.
Context {U : Type} `{UIO : UserIO U} `{UL : !UserLaws U} `{PA : PageAllocator U}.
Local Abbreviation F := (fstate (lstate S) U).
Implicit Types s : kst (lstate S) U.

Lemma fs_ok {A} (c : M F A) s a x : c (k_fs s) = Ok a x -> fs c s = Ok a (set_fs x s).
Proof. intros E. unfold fs. now rewrite E. Qed.

(** With one block of bitmap, a transaction has room for the blocks of a write of
    up to [write_max] bytes. *)
Lemma write_budget sb b V h off n :
  sb_size sb < BPB -> 0 <= sb_size sb -> 0 <= off -> 0 <= n <= write_max ->
  budget ({[b]} ∪ bmaps sb) (d_begin V h) (2 * (Z.to_nat (io_left off n 0) - 1)).
Proof.
  intros Hs Hs0 Ho Hn. unfold budget, d_begin. cbn [d_logged d_cap]. rewrite union_empty_r_L.
  pose proof (size_add b (bmaps sb)) as Ha.
  assert (size (bmaps sb) <= 1)%nat as Hm.
  { unfold bmaps. rewrite Z.div_small by lia. rewrite size_list_to_set, length_seqZ by apply NoDup_seqZ. lia. }
  assert (io_left off n 0 <= 5).
  { unfold io_left, write_max, MAXOPBLOCKS, BSIZE in *. change ((10 - 1 - 1 - 2) / 2 * 1024) with 3072 in Hn. destruct (0 <? n); dlia. }
  unfold MAXOPBLOCKS. lia.
Qed.

(** With an idle log the cache agrees with the disk. *)
Lemma idle_data (s : lstate S) V b : txn_inv dev s V -> idle s -> v_data V b = v_disk V b.
Proof.
  intros [HR _ _ HP _ _ _] (I1 & _ & _). eapply bc_clean; [apply HR|]. apply HP. intros (i & Hi & _). lia.
Qed.

(** The bytes of a file depend on its blocks only. *)
Lemma fbyte_ext sb D x data h k :
  layout sb h -> file_ok sb D x -> 0 <= k < di_size x -> (forall b, ~ in_log h b -> data b = d_data D b) ->
  fbyte data x k = fbyte (d_data D) x k.
Proof.
  intros HL [Hx Hf] Hk Hd. pose proof file_consts as Hc. pose proof (bo_size _ _ _ _ _ Hf).
  assert (forall b, data_block sb D b -> data b = d_data D b) as Hb.
  { intros b [Hb _]. apply Hd. pose proof (layout_pos sb h HL). pose proof (ly_log _ _ HL). unfold in_log. lia. }
  assert (file_addr data x (k / BSIZE) = file_addr (d_data D) x (k / BSIZE)) as Ea.
  { unfold file_addr. destruct (_ <? _); [done|]. destruct (Z.eqb_spec (addr x NDIRECT) 0) as [|Hi]; [done|].
    rewrite Hb; [done|]. now apply (bo_ind _ _ _ _ _ Hf). }
  unfold fbyte. rewrite Ea, Hb; [done|]. apply (bo_data _ _ _ _ _ Hf); [unfold BSIZE in *; dlia|].
  apply (bo_alloc _ _ _ _ _ Hf); unfold BSIZE; dlia.
Qed.

(** The state in which a process writes to inode [ip]. *)
Record writable (ip : Z) s (V : bview) : Prop := Writable {
  wa_log : txn_inv dev (f_io (k_fs s)) V /\ idle (f_io (k_fs s));
  wa_room : MAXOPBLOCKS < lg_size (l_log (f_io (k_fs s))) - 1;
  wa_lock : lockable ip (k_fs s);
  wa_layout : layout (f_sb (k_fs s)) (lg_start (l_log (f_io (k_fs s)))) /\ sb_size (f_sb (k_fs s)) < BPB;
  wa_bitmap : bitmap_ok (f_sb (k_fs s)) (d_begin V (lg_start (l_log (f_io (k_fs s)))));
  wa_file : file_ok (f_sb (k_fs s)) (d_begin V (lg_start (l_log (f_io (k_fs s))))) (i_dinode (f_inode (k_fs s) ip));
  wa_inum : i_dev (f_inode (k_fs s) ip) = dev /\ 0 <= i_inum (f_inode (k_fs s) ip) < sb_ninodes (f_sb (k_fs s));
}.

Lemma source_ok_ext user src bs (s1 s2 : F) : f_user s2 = f_user s1 -> source_ok user src bs s1 -> source_ok user src bs s2.
Proof. intros E Hs k m s' E'. apply Hs. congruence. Qed.

(** The inode is read and written between [ilock] and [iunlock]. *)
Lemma locked_ready ip s V y :
  writable ip s V -> txn_rep dev y (d_begin V (lg_start (l_log (f_io (k_fs s))))) ->
  let s1 := with_io y (k_fs s) in
  ready dev ip (put_lock ip (locked_by (f_pid s1) (f_inode s1 ip)) s1) (d_begin V (lg_start (l_log (f_io (k_fs s))))).
Proof.
  intros [_ _ _ [HL _] HB Hf [Hd _]] Hy s1. split; try done; cbn; rewrite fn_lookup_insert; done.
Qed.

(** The state of the file system after the round. *)
Lemma write_some_ok f addr i n1 bs s V :
  let x := k_file s f in let ip := fl_ip x in let h := lg_start (l_log (f_io (k_fs s))) in let off := fl_off x in
  writable ip s V -> n1 = Z.of_nat (length bs) -> n1 <= write_max -> source_ok true (u64 (addr + i)) bs (k_fs s) ->
  0 <= off <= i_size (f_inode (k_fs s) ip) -> off + n1 <= MAXFILE * BSIZE ->
  exists tot (z : F) D' y s', 0 <= tot <= n1 /\
    (tot = n1 \/ forall c, 0 <= c < sb_size (f_sb (k_fs s)) -> used (f_sb (k_fs s)) (d_data D') c = true) /\
    written dev ip off bs tot (put_lock ip (locked_by (f_pid (k_fs s)) (f_inode (k_fs s) ip)) (with_io y (k_fs s))) (d_begin V h) z D' /\
    fl_off (k_file s' f) = off + tot /\ f_inode (k_fs s') ip = with_lock (Sleeplock 0 (sl_name (i_lock (f_inode (k_fs s) ip))) 0) (f_inode z ip) /\
    write_some f addr i n1 s = (fs (io end_op);; mret tot) s' /\ txn_rep dev (f_io (k_fs s')) D'.
Proof.
  intros x ip h off HW En Hmax Hs Ho Hend. pose proof HW as [[HT HI] Hroom Hlk [HL HBP] HB Hf [Hd Hi]]. pose proof file_consts as Hc.
  destruct (begin_view dev (f_io (k_fs s)) V HT HI Hroom) as (y & H1 & R1). fold h in R1.
  unfold write_some. erewrite bind_ok by reflexivity. fold x ip off.
  rewrite (bind_ok _ _ _ _ _ (fs_ok (io begin_op) s tt _ (io_ok _ (k_fs s) _ _ H1))).
  set (s1 := set_fs (with_io y (k_fs s)) s).
  assert (lockable ip (k_fs s1)) as Hlk1 by (destruct Hlk; split; done).
  rewrite (bind_ok _ _ _ _ _ (fs_ok _ s1 _ _ (ilock_ok (k_fs s1) ip Hlk1))).
  set (fs2 := put_lock ip (locked_by (f_pid (k_fs s1)) (f_inode (k_fs s1) ip)) (k_fs s1)).
  pose proof (locked_ready ip s V y HW R1) as Hready. cbn zeta in Hready. fold h in Hready.
  change (put_lock ip (locked_by (f_pid (with_io y (k_fs s))) (f_inode (with_io y (k_fs s)) ip)) (with_io y (k_fs s))) with fs2 in Hready.
  assert (f_inode fs2 ip = with_lock (locked_by (f_pid (k_fs s)) (f_inode (k_fs s) ip)) (f_inode (k_fs s) ip)) as E2 by (cbn; apply fn_lookup_insert).
  destruct (writei_ok dev ({[IBLOCK (i_inum (f_inode fs2 ip)) (f_sb fs2)]} ∪ bmaps (f_sb fs2)) fs2 (d_begin V h) ip true (u64 (addr + i)) off n1 bs Hready)
    as (tot & s3 & D' & H3 & HN & Ht & _ & Hfull & _); try (rewrite E2; done); try done.
  { apply union_subseteq_r. } { apply elem_of_union_l. now apply elem_of_singleton. }
  { apply write_budget; try done; try lia. pose proof (ly_size _ _ HL). pose proof (layout_pos _ _ HL). cbn. lia. }
  { apply Z.mod_pos_bound. lia. }
  assert (u32 n1 = n1) as En32 by (apply u32_small; unfold is_u32, BSIZE in *; lia).
  rewrite En32, (bind_ok _ _ _ _ _ (fs_ok _ (set_fs fs2 s1) _ _ H3)).
  pose proof (wn_same _ _ _ _ _ _ _ _ _ HN) as [N1 N2 N3 N4 N5 (q & N6)]. rewrite E2 in N6.
  set (k3 := set_fs s3 (set_fs fs2 s1)).
  assert (exists k4, (if 0 <? tot then set_file f (with_off (u32 (off + tot)) x) else mret tt) k3 = Ok tt k4 /\
    k_fs k4 = s3 /\ fl_off (k_file k4 f) = off + tot) as (k4 & H4 & F4 & O4).
  { destruct (Z.ltb_spec 0 tot).
    - eexists. split; [reflexivity|]. split; [done|]. cbn. rewrite fn_lookup_insert. apply u32_small. unfold is_u32, BSIZE in *. lia.
    - exists k3. split; [done|]. split; [done|]. cbn. change (fl_off (k_file s f)) with off. lia. }
  rewrite (bind_ok _ _ _ _ _ H4).
  assert (iunlock ip (k_fs k4) = Ok tt (put_lock ip (Sleeplock 0 (sl_name (i_lock (f_inode (k_fs s) ip))) 0) s3)) as H5.
  { rewrite F4. rewrite iunlock_ok; rewrite ?N6; try done; first [apply Hlk|cbn; now rewrite N2|rewrite N1; apply Hlk]. }
  rewrite (bind_ok _ _ _ _ _ (fs_ok _ k4 _ _ H5)).
  exists tot, s3, D', y, (set_fs (put_lock ip (Sleeplock 0 (sl_name (i_lock (f_inode (k_fs s) ip))) 0) s3) k4).
  split; [done|]. split; [exact Hfull|]. split; [exact HN|]. split; [exact O4|].
  split; [|split; [reflexivity|exact (rd_rep _ _ _ _ (wn_ready _ _ _ _ _ _ _ _ _ HN))]].
  cbn. now rewrite fn_lookup_insert.
Qed.

Lemma used_ext sb h (D D' : Z -> block) c :
  layout sb h -> (forall b, ~ in_log h b -> D b = D' b) -> 0 <= c < sb_size sb -> used sb D c = used sb D' c.
Proof.
  intros HL HD Hc. unfold used. f_equal. apply HD. pose proof (BBLOCK_range sb h c HL Hc). pose proof (ly_log _ _ HL).
  pose proof (ly_inodes _ _ HL) as [Hn Hi]. pose proof (Z.div_pos (sb_ninodes sb) IPB ltac:(lia) ltac:(done)). unfold in_log. lia.
Qed.

End write_some.

(** ** The greeting written through the log and the cache *)

#[export] Instance no_pages : PageAllocator memory :=
  {| mem_of m := m; Kalloc.set_mem m _ := m; pa_kalloc := mret 0; pa_kfree _ := mret tt |}.

Definition file_cache0 : bstate := BState ∅ 1 (fun _ => zero_buf) (fun _ => 0) (fun _ => 0) demo_data [].
Definition file_log0 : lstate bstate := LState (after binit file_cache0) ∅ 1 (Log 0 0 0 0 0 0 (fun _ => 0)).
Definition file_log : lstate bstate := after (initlog 1 2 30) file_log0.

Lemma file_log_inv : exists V, txn_inv 1 file_log V /\ idle file_log /\ lg_start (l_log file_log) = 2 /\
  lg_size (l_log file_log) = 30 /\ forall b, ~ in_log 2 b -> v_disk V b = demo_data b.
Proof.
  assert (hd_n (demo_data 2) = 0) as Hh by (vm_compute; reflexivity).
  destruct (initlog_txn 1 file_log0 2 30 demo_data) as (s' & V & H1 & T1 & L1 & L2 & L3 & L4 & L5 & L6).
  - split; [|done]. destruct (binit_ok 1 file_cache0) as (c & H1 & R1 & _); [lia|reflexivity|reflexivity|reflexivity|].
    unfold file_log0. cbn [l_bc]. rewrite (after_ok _ _ _ _ H1). exact R1.
  - split; [exact demo_wf|]. rewrite Hh. apply log_ok_empty.
  - exists V. unfold file_log. rewrite (after_ok _ _ _ _ H1). split; [done|]. split; [now repeat split|]. split; [done|]. split; [done|].
    intros b Hb. rewrite L6 by done. unfold logical. rewrite Hh. done.
Qed.

Definition file_demo : kst (lstate bstate) memory :=
  KSt (FState file_log demo_mem ∅ 1 demo_sb (fun _ => Inode 1 2 1 (Sleeplock 0 "inode" 0) 1 demo_file) 0)
    (fun _ => File FD_INODE 1 1 1 0 0 0 0) (fun _ => new_pipe) (UProc 0 0 (fun _ => NULL) false).

Lemma file_demo_writable : exists V, writable 1 0 file_demo V.
Proof.
  destruct file_log_inv as (V & T & I & L1 & L2 & L3). exists V. split; cbn [k_fs file_demo f_io f_sb f_inode]; rewrite ?L1, ?L2.
  - exact (conj T I).
  - unfold MAXOPBLOCKS. lia.
  - split; done || apply not_elem_of_empty.
  - split; [exact demo_layout|reflexivity].
  - split; [|intros c Hc; now apply not_elem_of_empty in Hc]. intros b Hb. rewrite <- (proj1 demo_bitmap_ok b Hb).
    unfold used. cbn [d_data d_begin demo_disk]. rewrite (idle_data 1 file_log V _ T I), L3; [done|].
    pose proof (BBLOCK_range demo_sb 2 b demo_layout) as Hr. change (datastart demo_sb) with 46 in *. change (sb_bmapstart demo_sb) with 45 in Hr.
    change (sb_size demo_sb) with 2000 in Hr. unfold in_log, LOGSIZE, MAXOPBLOCKS. lia.
  - apply demo_file_ok.
  - split; [done|]. cbn. lia.
Qed.

(** The process reads its bytes. *)
Lemma flat_source {B} `{BlockIO B} src n (s : fstate B memory) :
  0 <= src -> src + n < 2^64 -> 0 <= n -> source_ok true src (rd_bytes (f_user s) src (Z.to_nat n)) s.
Proof.
  intros H1 H2 Hn k m s' Eu Hk Hm Hle. rewrite length_rd_bytes in Hle. unfold either_copyin, user. rewrite Eu.
  cbn [u_copyin flat_user]. rewrite u64_small, slice_rd_bytes by (unfold is_u64; lia). rewrite <- Eu. now destruct s'.
Qed.

