(* ===== verification/Sysfile.v ===== *)
(** * kernel/syscall.c (arguments) and kernel/sysfile.c

    Fetching the arguments of a system call, and the system calls on files.
    Local arrays are at fixed places of the kernel stack, apart from each other
    and from those of fs.c; the string literals are where the linker put them. *)

From stdpp Require Import base gmap numbers strings functions list.
From S2P Require Import Prelude Trapframe Mem Block StringC Riscv Kalloc Spinlock Locks Bio Log BlockIO Fs Pipe File.

Open Scope Z_scope.

Definition O_RDONLY : Z := 0x000.
Definition O_WRONLY : Z := 0x001.
Definition O_RDWR : Z := 0x002.
Definition O_CREATE : Z := 0x200.
Definition O_TRUNC : Z := 0x400.
Definition MAXARG : Z := 32.

(** The local arrays [name], [new], [old] and [path] of the system calls, [name]
    of [create], and the local [de] of [sys_unlink] and of [isdirempty]. *)
Definition sys_name : Z := KSTACK 0 + 96.
Definition sys_new : Z := KSTACK 0 + 128.
Definition sys_old : Z := KSTACK 0 + 256.
Definition unlink_de : Z := KSTACK 0 + 384.
Definition create_name : Z := KSTACK 0 + 400.
Definition empty_de : Z := KSTACK 0 + 416.
Definition sys_path : Z := KSTACK 0 + 512.

Definition set_devs (major minor nlink : Z) (d : dinode) : dinode :=
  Dinode (di_type d) major minor nlink (di_size d) (di_addrs d).
Definition add_nlink (n : Z) (d : dinode) : dinode :=
  Dinode (di_type d) (di_major d) (di_minor d) (i16 (di_nlink d + n)) (di_size d) (di_addrs d).
Definition set_nlink (n : Z) (d : dinode) : dinode :=
  Dinode (di_type d) (di_major d) (di_minor d) n (di_size d) (di_addrs d).

Section ops.
Context {B U : Type} `{BlockIO B} `{UserIO U} `{PageAllocator U}.
Local Abbreviation K := (kst B U).
Context (devsw_read devsw_write : Z -> option (Z -> Z -> M K Z)).

(** The string literals "." and "..". *)
Context (dot dotdot : Z).

(** ** syscall.c *)

Definition fetchaddr (addr : Z) : M K (Z * Z) :=
  p ← gets k_proc;
  if (up_sz p <=? addr) || (up_sz p <? u64 (addr + 8)) then mret (-1, 0) else
  r ← fs (user (u_copyin addr 8));
  if negb (r.2 =? 0) then mret (-1, 0) else mret (0, le_val r.1).

Definition fetchstr (addr buf max : Z) : M K Z :=
  r ← fs (user (u_copyinstr buf addr max));
  if r <? 0 then mret (-1) else
  m ← gets (fun s => f_mem (k_fs s));
  mret (strlen m buf).

(** A register in the trapframe of the process. *)
Definition tf_reg (f : tf_field) (s : K) : Z := tf_get (f_mem (k_fs s)) (up_trapframe (k_proc s)) f.

Definition argraw (n : Z) : M K Z :=
  match n with
  | 0 => gets (tf_reg tf_a0)
  | 1 => gets (tf_reg tf_a1)
  | 2 => gets (tf_reg tf_a2)
  | 3 => gets (tf_reg tf_a3)
  | 4 => gets (tf_reg tf_a4)
  | 5 => gets (tf_reg tf_a5)
  | _ => panic "argraw"
  end.

Definition argint (n : Z) : M K Z := v ← argraw n; mret (i32 v).

Definition argaddr (n : Z) : M K Z := argraw n.

Definition argstr (n buf max : Z) : M K Z := addr ← argaddr n; fetchstr addr buf max.

(** ** Descriptors *)

(** The descriptor and its file; [None] for -1. *)
Definition argfd (n : Z) : M K (option (Z * Z)) :=
  fd ← argint n;
  if (fd <? 0) || (NOFILE <=? fd) then mret None else
  f ← gets (fun s => up_ofile (k_proc s) fd);
  if f =? NULL then mret None else mret (Some (fd, f)).

Definition set_ofile (fd f : Z) : M K unit :=
  modify (fun s => let p := k_proc s in
    set_proc (UProc (up_sz p) (up_trapframe p) (<[fd := f]> (up_ofile p)) (up_killed p)) s).

(** The loop of [fdalloc] from [fd]. *)
Fixpoint find_fd (k : nat) (fd : Z) (t : Z -> Z) : Z :=
  match k with
  | O => -1
  | S k' => if t fd =? NULL then fd else find_fd k' (fd + 1) t
  end.

Definition fdalloc (f : Z) : M K Z :=
  t ← gets (fun s => up_ofile (k_proc s));
  let fd := find_fd (Z.to_nat NOFILE) 0 t in
  if fd =? -1 then mret (-1) else
  set_ofile fd f;;
  mret fd.

Definition sys_dup : M K Z :=
  a ← argfd 0;
  match a with
  | None => mret (-1)
  | Some (_, f) =>
      fd ← fdalloc f;
      if fd <? 0 then mret (-1) else
      filedup f;;
      mret fd
  end.

Definition sys_read : M K Z :=
  p ← argaddr 1;
  n ← argint 2;
  a ← argfd 0;
  match a with
  | None => mret (-1)
  | Some (_, f) => fileread devsw_read f p n
  end.

Definition sys_write : M K Z :=
  p ← argaddr 1;
  n ← argint 2;
  a ← argfd 0;
  match a with
  | None => mret (-1)
  | Some (_, f) => filewrite devsw_write f p n
  end.

Definition sys_close : M K Z :=
  a ← argfd 0;
  match a with
  | None => mret (-1)
  | Some (fd, f) =>
      set_ofile fd NULL;;
      fileclose f;;
      mret 0
  end.

Definition sys_fstat : M K Z :=
  st ← argaddr 1;
  a ← argfd 0;
  match a with
  | None => mret (-1)
  | Some (_, f) => filestat f st
  end.

(** ** Links *)

(** [f(); return -1] after [end_op()]. *)
Definition fail_op : M K Z := fs (io io_end_op);; mret (-1).

Definition sys_link_bad (ip : Z) : M K Z :=
  fs (ilock ip);;
  fs (upd_dinode ip (add_nlink (-1)));;
  fs (iupdate ip);;
  fs (iunlockput ip);;
  fail_op.

Definition sys_link : M K Z :=
  r ← argstr 0 sys_old MAXPATH;
  if r <? 0 then mret (-1) else
  r ← argstr 1 sys_new MAXPATH;
  if r <? 0 then mret (-1) else
  fs (io io_begin_op);;
  ip ← fs (namei sys_old);
  if ip =? NULL then fail_op else
  fs (ilock ip);;
  x ← gets (fun s => f_inode (k_fs s) ip);
  if i_type x =? T_DIR then fs (iunlockput ip);; fail_op else
  fs (upd_dinode ip (add_nlink 1));;
  fs (iupdate ip);;
  fs (iunlock ip);;
  dp ← fs (nameiparent sys_new sys_name);
  if dp =? NULL then sys_link_bad ip else
  fs (ilock dp);;
  t ← gets (fun s => f_inode (k_fs s));
  if negb (i_dev (t dp) =? i_dev (t ip)) then fs (iunlockput dp);; sys_link_bad ip else
  r ← fs (dirlink dp sys_name (i_inum (t ip)));
  if r <? 0 then fs (iunlockput dp);; sys_link_bad ip else
  fs (iunlockput dp);;
  fs (iput ip);;
  fs (io io_end_op);;
  mret 0.

Fixpoint isdirempty_loop (fuel : nat) (dp off : Z) : M K bool :=
  match fuel with
  | O => diverge
  | S fuel' =>
      x ← gets (fun s => f_inode (k_fs s) dp);
      if off <? i_size x then
        r ← fs (readi dp false empty_de off 16);
        if negb (r =? 16) then panic "isdirempty: readi" else
        inum ← gets (fun s => load16 (f_mem (k_fs s)) empty_de);
        if negb (inum =? 0) then mret false else isdirempty_loop fuel' dp (off + 16)
      else mret true
  end.

Definition isdirempty (dp : Z) : M K bool :=
  x ← gets (fun s => f_inode (k_fs s) dp);
  isdirempty_loop (dir_fuel (i_size x)) dp 32.

Definition sys_unlink_bad (dp : Z) : M K Z := fs (iunlockput dp);; fail_op.

Definition sys_unlink : M K Z :=
  r ← argstr 0 sys_path MAXPATH;
  if r <? 0 then mret (-1) else
  fs (io io_begin_op);;
  dp ← fs (nameiparent sys_path sys_name);
  if dp =? NULL then fail_op else
  fs (ilock dp);;
  c ← fs (namecmp sys_name dot);
  if c =? 0 then sys_unlink_bad dp else
  c ← fs (namecmp sys_name dotdot);
  if c =? 0 then sys_unlink_bad dp else
  r ← fs (dirlookup dp sys_name);
  if r.1 =? NULL then sys_unlink_bad dp else
  let ip := r.1 in
  let off := r.2 in
  fs (ilock ip);;
  x ← gets (fun s => f_inode (k_fs s) ip);
  if i_nlink x <? 1 then panic "unlink: nlink < 1" else
  empty ← (if i_type x =? T_DIR then isdirempty ip else mret true);
  if negb empty then fs (iunlockput ip);; sys_unlink_bad dp else
  fs (modify (fun s => Fs.set_mem (memset (f_mem s) unlink_de 0 16) s));;
  r ← fs (writei dp false unlink_de off 16);
  if negb (r =? 16) then panic "unlink: writei" else
  x ← gets (fun s => f_inode (k_fs s) ip);
  (if i_type x =? T_DIR then
     fs (upd_dinode dp (add_nlink (-1)));;
     fs (iupdate dp)
   else mret tt);;
  fs (iunlockput dp);;
  fs (upd_dinode ip (add_nlink (-1)));;
  fs (iupdate ip);;
  fs (iunlockput ip);;
  fs (io io_end_op);;
  mret 0.

(** ** Creation *)

Definition create_fail (ip dp : Z) : M K Z :=
  fs (upd_dinode ip (set_nlink 0));;
  fs (iupdate ip);;
  fs (iunlockput ip);;
  fs (iunlockput dp);;
  mret NULL.

(** From [ip] just allocated to the result. *)
Definition create_new (ip dp type major minor : Z) : M K Z :=
  fs (ilock ip);;
  fs (upd_dinode ip (set_devs (i16 major) (i16 minor) 1));;
  fs (iupdate ip);;
  t ← gets (fun s => f_inode (k_fs s));
  r ← (if type =? T_DIR then
         r ← fs (dirlink ip dot (i_inum (t ip)));
         if r <? 0 then mret (-1) else fs (dirlink ip dotdot (i_inum (t dp)))
       else mret 0);
  if r <? 0 then create_fail ip dp else
  r ← fs (dirlink dp create_name (i_inum (t ip)));
  if r <? 0 then create_fail ip dp else
  (if type =? T_DIR then
     fs (upd_dinode dp (add_nlink 1));;
     fs (iupdate dp)
   else mret tt);;
  fs (iunlockput dp);;
  mret ip.

Definition create (path type major minor : Z) : M K Z :=
  dp ← fs (nameiparent path create_name);
  if dp =? NULL then mret NULL else
  fs (ilock dp);;
  r ← fs (dirlookup dp create_name);
  if negb (r.1 =? NULL) then
    let ip := r.1 in
    fs (iunlockput dp);;
    fs (ilock ip);;
    x ← gets (fun s => f_inode (k_fs s) ip);
    if (type =? T_FILE) && ((i_type x =? T_FILE) || (i_type x =? T_DEVICE)) then mret ip else
    fs (iunlockput ip);;
    mret NULL
  else
  d ← gets (fun s => i_dev (f_inode (k_fs s) dp));
  ip ← fs (ialloc d type);
  if ip =? NULL then fs (iunlockput dp);; mret NULL else
  create_new ip dp type major minor.

(** The inode [sys_open] works on, locked, or [NULL]. *)
Definition open_inode (omode : Z) : M K Z :=
  if negb (Z.land omode O_CREATE =? 0) then create sys_path T_FILE 0 0 else
  ip ← fs (namei sys_path);
  if ip =? NULL then mret NULL else
  fs (ilock ip);;
  x ← gets (fun s => f_inode (k_fs s) ip);
  if (i_type x =? T_DIR) && negb (omode =? O_RDONLY) then fs (iunlockput ip);; mret NULL
  else mret ip.

Definition sys_open : M K Z :=
  omode ← argint 1;
  n ← argstr 0 sys_path MAXPATH;
  if n <? 0 then mret (-1) else
  fs (io io_begin_op);;
  ip ← open_inode omode;
  if ip =? NULL then fail_op else
  x ← gets (fun s => f_inode (k_fs s) ip);
  let major := di_major (i_dinode x) in
  if (i_type x =? T_DEVICE) && ((major <? 0) || (NDEV <=? major)) then fs (iunlockput ip);; fail_op else
  f ← filealloc;
  fd ← (if f =? NULL then mret (-1) else fdalloc f);
  if fd <? 0 then
    (if negb (f =? NULL) then fileclose f else mret tt);;
    fs (iunlockput ip);;
    fail_op
  else
  y ← gets (fun s => k_file s f);
  let w := negb (Z.land omode O_WRONLY =? 0) in
  let rw := negb (Z.land omode O_RDWR =? 0) in
  set_file f (File (if i_type x =? T_DEVICE then FD_DEVICE else FD_INODE) (fl_ref y) (if w then 0 else 1) (if w || rw then 1 else 0)
                   (fl_pipe y) ip (if i_type x =? T_DEVICE then fl_off y else 0) (if i_type x =? T_DEVICE then major else fl_major y));;
  (if negb (Z.land omode O_TRUNC =? 0) && (i_type x =? T_FILE) then fs (itrunc ip) else mret tt);;
  fs (iunlock ip);;
  fs (io io_end_op);;
  mret fd.

Definition sys_mkdir : M K Z :=
  fs (io io_begin_op);;
  r ← argstr 0 sys_path MAXPATH;
  if r <? 0 then fail_op else
  ip ← create sys_path T_DIR 0 0;
  if ip =? NULL then fail_op else
  fs (iunlockput ip);;
  fs (io io_end_op);;
  mret 0.

Definition sys_mknod : M K Z :=
  fs (io io_begin_op);;
  major ← argint 1;
  minor ← argint 2;
  r ← argstr 0 sys_path MAXPATH;
  if r <? 0 then fail_op else
  ip ← create sys_path T_DEVICE major minor;
  if ip =? NULL then fail_op else
  fs (iunlockput ip);;
  fs (io io_end_op);;
  mret 0.

Definition sys_chdir : M K Z :=
  fs (io io_begin_op);;
  r ← argstr 0 sys_path MAXPATH;
  if r <? 0 then fail_op else
  ip ← fs (namei sys_path);
  if ip =? NULL then fail_op else
  fs (ilock ip);;
  x ← gets (fun s => f_inode (k_fs s) ip);
  if negb (i_type x =? T_DIR) then fs (iunlockput ip);; fail_op else
  fs (iunlock ip);;
  cwd ← gets (fun s => f_cwd (k_fs s));
  fs (iput cwd);;
  fs (io io_end_op);;
  fs (modify (fun s => FState (f_io s) (f_user s) (f_held s) (f_pid s) (f_sb s) (f_inode s) ip));;
  mret 0.

(** ** Pipes *)

(** Undo the descriptors and files of [sys_pipe]. *)
Definition pipe_undo (fds : list Z) (rf wf : Z) : M K Z :=
  foldr (fun fd k => set_ofile fd NULL;; k) (fileclose rf;; fileclose wf;; mret (-1)) fds.

Definition sys_pipe : M K Z :=
  fdarray ← argaddr 0;
  r ← pipealloc;
  let '(e, rf, wf) := r in
  if e <? 0 then mret (-1) else
  fd0 ← fdalloc rf;
  if fd0 <? 0 then pipe_undo [] rf wf else
  fd1 ← fdalloc wf;
  if fd1 <? 0 then pipe_undo [fd0] rf wf else
  r ← fs (user (u_copyout fdarray (le_bytes 4 fd0)));
  if r <? 0 then pipe_undo [fd0; fd1] rf wf else
  r ← fs (user (u_copyout (u64 (fdarray + 4)) (le_bytes 4 fd1)));
  if r <? 0 then pipe_undo [fd0; fd1] rf wf else
  mret 0.

(** ** The arguments of exec *)

(** [kfree] of the argument pages up to the first empty slot. *)
Definition free_args (argv : list Z) : M K unit :=
  foldr (fun a k => fs (user (pa_kfree a));; k) (mret tt) argv.

(** The loop of [sys_exec] with the pages of [argv] so far: [inl argv] when the
    array is complete, [inr argv] for [goto bad]. *)
Fixpoint fetch_args (fuel : nat) (uargv : Z) (argv : list Z) : M K (list Z + list Z) :=
  match fuel with
  | O => mret (inr argv)
  | S fuel' =>
      r ← fetchaddr (u64 (uargv + 8 * Z.of_nat (length argv)));
      if r.1 <? 0 then mret (inr argv) else
      if r.2 =? 0 then mret (inl argv) else
      a ← fs (user pa_kalloc);
      if a =? 0 then mret (inr argv) else
      n ← fetchstr r.2 a PGSIZE;
      if n <? 0 then mret (inr (argv ++ [a])) else
      fetch_args fuel' uargv (argv ++ [a])
  end.
End ops.
