(* ===== verification/SysfileThms.v ===== *)
(** * kernel/sysfile.c: descriptors, files and pipes

    The file table and the descriptor table under the system calls that create
    and drop files. *)

From stdpp Require Import base gmap numbers strings functions list.
From Stdlib Require Import ZifyBool.
From S2P Require Import Prelude Trapframe Mem Block StringC Riscv Kalloc Spinlock Vm PageTable UserMem UserCopy VmSpec Locks Bio Log BlockIO Fs FsDemo UserVm Pipe File Sysfile.

Open Scope Z_scope.

Lemma lock_back (l : lockid) (h : gset lockid) : l ∉ h -> ({[l]} ∪ h) ∖ {[l]} = h.
Proof. set_solver. Qed.

Section table.
Context {B U : Type} `{BIO : BlockIO B} `{UIO : UserIO U} `{PA : PageAllocator U}.
Implicit Types s : kst B U.

Definition upd_file (f : Z) (x : file) s : kst B U := KSt (k_fs s) (<[f := x]> (k_file s)) (k_pipe s) (k_proc s).

Definition hold (h : gset lockid) s : kst B U := set_fs (fset Locks.held h (k_fs s)) s.

Lemma hold_same s : hold (f_held (k_fs s)) s = s.
Proof. now destruct s as [[]]. Qed.

Lemma klock_ok l s : l ∉ f_held (k_fs s) -> lock l s = Ok tt (hold ({[l]} ∪ f_held (k_fs s)) s).
Proof. intros Hl. unfold lock. erewrite bind_ok by reflexivity. now rewrite decide_False. Qed.

Lemma kunlock_ok l s : l ∈ f_held (k_fs s) -> unlock l s = Ok tt (hold (f_held (k_fs s) ∖ {[l]}) s).
Proof. intros Hl. unfold unlock. erewrite bind_ok by reflexivity. now rewrite decide_True. Qed.

(** A critical section that ends with the state [s'] and the lock still held. *)
Lemma unlock_back l s s' h :
  l ∉ h -> f_held (k_fs s') = {[l]} ∪ h -> s = hold h s' -> unlock l s' = Ok tt s.
Proof.
  intros Hl Hh ->. rewrite kunlock_ok by (rewrite Hh; apply elem_of_union_l; now apply elem_of_singleton).
  now rewrite Hh, lock_back.
Qed.

Lemma find_file_spec k : forall i t,
  match find_file k i t with
  | Some f => i <= f < i + Z.of_nat k /\ fl_ref (t f) = 0 /\ forall j, i <= j < f -> fl_ref (t j) <> 0
  | None => forall j, i <= j < i + Z.of_nat k -> fl_ref (t j) <> 0
  end.
Proof.
  induction k as [|k IH]; intros i t; cbn [find_file]; [lia|]. destruct (Z.eqb_spec (fl_ref (t i)) 0) as [E|E].
  - split; [lia|]. split; [done|]. lia.
  - specialize (IH (i + 1) t). destruct (find_file k (i + 1) t) as [f|].
    + destruct IH as (H1 & H2 & H3). split; [lia|]. split; [done|]. intros j Hj. destruct (Z.eq_dec j i) as [->|]; [done|]. apply H3. lia.
    + intros j Hj. destruct (Z.eq_dec j i) as [->|]; [done|]. apply IH. lia.
Qed.

Lemma filealloc_ok s :
  ftable_lock ∉ f_held (k_fs s) ->
  filealloc s = match find_file (Z.to_nat NFILE) 0 (k_file s) with
                | Some f => Ok f (upd_file f (with_ref 1 (k_file s f)) s)
                | None => Ok NULL s
                end.
Proof.
  intros Hl. unfold filealloc. rewrite (bind_ok _ _ _ _ _ (klock_ok _ _ Hl)). erewrite bind_ok by reflexivity. cbn [k_file hold set_fs].
  destruct (find_file _ _ _) as [f|].
  - erewrite bind_ok by reflexivity. erewrite bind_ok; [reflexivity|].
    apply (unlock_back _ _ _ (f_held (k_fs s)) Hl); [done|]. now destruct s as [[]].
  - erewrite bind_ok; [reflexivity|]. apply (unlock_back _ _ _ (f_held (k_fs s)) Hl); [done|]. now destruct s as [[]].
Qed.

(** Free entries have no type: [fileclose] cleared it. *)
Definition table_ok s : Prop := forall f, fl_ref (k_file s f) = 0 -> fl_type (k_file s f) = FD_NONE.

Definition closed (x : file) : file :=
  File FD_NONE 0 (fl_readable x) (fl_writable x) (fl_pipe x) (fl_ip x) (fl_off x) (fl_major x).

(** Dropping the last reference: what is left to do after the entry is free. *)
Definition close_rest (x : file) : M (kst B U) unit :=
  match fl_type x with
  | FD_PIPE => pipe_close (fl_pipe x) (truthy (fl_writable x))
  | FD_INODE | FD_DEVICE => fs (io io_begin_op);; fs (iput (fl_ip x));; fs (io io_end_op)
  | FD_NONE => mret tt
  end.

Lemma fileclose_last s f :
  f_held (k_fs s) = ∅ -> fl_ref (k_file s f) = 1 -> fileclose f s = close_rest (k_file s f) (upd_file f (closed (k_file s f)) s).
Proof.
  intros Hh Hr. unfold fileclose. rewrite (bind_ok _ _ _ _ _ (klock_ok _ _ ltac:(rewrite Hh; apply not_elem_of_empty))).
  erewrite bind_ok by reflexivity. cbn [k_file hold set_fs]. rewrite Hr.
  change (1 <? 1) with false. change (0 <? 1 - 1) with false. cbn iota. erewrite bind_ok by reflexivity.
  erewrite bind_ok; [reflexivity|].
  apply (unlock_back _ _ _ ∅); [apply not_elem_of_empty|cbn; now rewrite Hh|]. destruct s as [[]]. cbn in *. now rewrite Hh.
Qed.

Definition with_user (u : U) s : kst B U :=
  set_fs (FState (f_io (k_fs s)) u (f_held (k_fs s)) (f_pid (k_fs s)) (f_sb (k_fs s)) (f_inode (k_fs s)) (f_cwd (k_fs s))) s.

Lemma user_ok {A} (c : M U A) s a u : c (f_user (k_fs s)) = Ok a u -> fs (user c) s = Ok a (with_user u s).
Proof. intros E. unfold fs, user. now rewrite E. Qed.

Definition shut (writable : bool) (p : pipe) : pipe :=
  if writable then Pipe (pi_data p) (pi_nread p) (pi_nwrite p) (pi_readopen p) 0
  else Pipe (pi_data p) (pi_nread p) (pi_nwrite p) 0 (pi_writeopen p).

Lemma pipe_close_ok s pi w :
  f_held (k_fs s) = ∅ -> let p := shut w (k_pipe s pi) in
  pipe_close pi w s = (if (pi_readopen p =? 0) && (pi_writeopen p =? 0) then fs (user (pa_kfree pi)) else mret tt) (set_pipes pi p s).
Proof.
  intros Hh p. unfold pipe_close. rewrite (bind_ok _ _ _ _ _ (klock_ok _ _ ltac:(rewrite Hh; apply not_elem_of_empty))).
  assert (exists x, on_pipe pi (pipeclose w) (hold ({[pipe_lock pi]} ∪ f_held (k_fs s)) s) =
    Ok ((pi_readopen p =? 0) && (pi_writeopen p =? 0)) x /\ f_held (k_fs x) = {[pipe_lock pi]} ∪ ∅ /\ set_pipes pi p s = hold ∅ x) as (x & E & Eh & Ex).
  { subst p. destruct s as [[y u h pid sb t cwd] fl ps pr]. cbn in Hh. subst h. destruct w; eexists; (split; [reflexivity|]); split; reflexivity. }
  rewrite (bind_ok _ _ _ _ _ E). pose proof (unlock_back _ _ _ _ (not_elem_of_empty (pipe_lock pi)) Eh Ex) as Hu.
  destruct (_ && _); [now rewrite (bind_ok _ _ _ _ _ Hu)|exact Hu].
Qed.
End table.

Section pipes.
Context {B St : Type} `{BIO : BlockIO B} `{PA : PageAllocator St} `{PS : !PageAllocatorSpec St}.
Local Abbreviation U := (uvm St).
Implicit Types (s : kst B U) (u : U).

(** *** What the page allocator does to the process *)

(** The page table is the same, and so is every page that was not free. *)
Definition user_kept (F : gset Z) u u' : Prop :=
  uv_pt u' = uv_pt u /\ forall q, valid_page (S := St) q -> q ∉ F -> same_bytes (mem_of u) (mem_of u') q PGSIZE.

Lemma kept_refl F u : user_kept F u u.
Proof. split; [done|]. intros q _ _ x _. done. Qed.

Lemma kalloc_pt u p u' : pa_kalloc u = Ok p u' -> uv_pt u' = uv_pt u.
Proof. cbn. unfold on_st. destruct (pa_kalloc (uv_st u)); [|done..]. now intros [= _ <-]. Qed.

Lemma kalloc_kept F u p u' :
  pa_inv u F -> p ∈ F -> pa_kalloc u = Ok p u' -> frame_bytes (mem_of u) (mem_of u') p PGSIZE -> user_kept F u u'.
Proof.
  intros Hi Hp E Hf. split; [exact (kalloc_pt _ _ _ E)|].
  intros q Hv Hq. apply (page_frame _ _ p); [exact (pa_free_valid u F p Hi Hp)|done|congruence|done].
Qed.

Lemma kfree_kept F u p u' :
  valid_page (S := St) p -> p ∈ F -> pa_kfree p u = Ok tt u' -> frame_bytes (mem_of u) (mem_of u') p PGSIZE -> user_kept F u u'.
Proof.
  intros Hp HpF E Hf. split; [cbn in E; unfold on_st in E; destruct (pa_kfree p (uv_st u)); [|done..]; now injection E as _ <-|].
  intros q Hv Hq. apply (page_frame _ _ p); [exact Hp|done|congruence|done].
Qed.

(** The process's address space with the free pages [F']. *)
Definition space u (T : ptree) (F : gset Z) (Um : umap) : Prop := uspace (uv_st u) (uv_pt u) T F Um /\ kernel_above (uv_st u) T.

Lemma space_kept u u' T F F' G Um :
  space u T F Um -> user_kept G u u' -> pa_inv u' F' -> (forall q, q ∈ G -> ~ holds T Um q) -> (forall q, q ∈ F' -> ~ holds T Um q) ->
  space u' T F' Um /\ forall va, umem (uv_st u') Um va = umem (uv_st u) Um va.
Proof.
  intros [Hu Ha] [Hpt Hk] Hi HG HF'. unfold space. rewrite Hpt.
  assert (forall q, holds T Um q -> same_bytes (mem_of (uv_st u)) (mem_of (uv_st u')) q PGSIZE) as Hs.
  { intros q Hq. apply Hk; [exact (us_valid _ _ _ _ _ q Hu (or_intror Hq))|]. intros Hin. exact (HG q Hin Hq). }
  assert (forall p a, T !! p = Some a -> same_bytes (mem_of (uv_st u)) (mem_of (uv_st u')) a PGSIZE) as Ht.
  { intros p a Hp. apply Hs. left. eauto. }
  split; [split; [exact (us_frame _ _ _ _ _ _ _ Hu Hi HF' Ht)|exact (above_same _ _ _ _ _ _ Hu Ht Ha)]|].
  intros va. apply umem_same. intros n pa fl Hn. apply Hs. right. eauto.
Qed.

(** No spin lock held, the file table in order, and the pages [F] free. *)
Record quiet s (F : gset Z) : Prop := Quiet {
  qt_held : f_held (k_fs s) = ∅;
  qt_table : table_ok s;
  qt_pages : pa_inv (f_user (k_fs s)) F;
}.

(** The tables as they were. *)
Record restored s s' (F : gset Z) : Prop := Restored {
  rs_quiet : quiet s' F;
  rs_ofile fd : up_ofile (k_proc s') fd = up_ofile (k_proc s) fd;
  rs_ref f : fl_ref (k_file s' f) = fl_ref (k_file s f);
  rs_live f : fl_ref (k_file s f) <> 0 -> k_file s' f = k_file s f;
}.

Lemma restored_refl s F : quiet s F -> restored s s F.
Proof. intros H. now split. Qed.

Lemma table_ok_closed s f x : table_ok s -> table_ok (upd_file f (closed x) s).
Proof.
  intros H g. cbn. destruct (decide (g = f)) as [->|Hne]; [now rewrite fn_lookup_insert|]. rewrite fn_lookup_insert_ne by done. apply H.
Qed.

Lemma table_ok_live s f x : table_ok s -> fl_ref x <> 0 -> table_ok (upd_file f x s).
Proof.
  intros H Hx g. cbn. destruct (decide (g = f)) as [->|Hne]; [now rewrite fn_lookup_insert|]. rewrite fn_lookup_insert_ne by done. apply H.
Qed.

(** An entry just allocated is given back. *)
Lemma fileclose_fresh s f :
  f_held (k_fs s) = ∅ -> fl_ref (k_file s f) = 1 -> fl_type (k_file s f) = FD_NONE ->
  fileclose f s = Ok tt (upd_file f (closed (k_file s f)) s).
Proof. intros Hh Hr Ht. rewrite fileclose_last by done. unfold close_rest. now rewrite Ht. Qed.

(** The files of a new pipe are closed: the page of the pipe is free again. *)
Lemma pipe_files_close s F rf wf pi ip off mj ip' off' mj' d nr nw :
  quiet s F -> rf <> wf -> k_file s rf = File FD_PIPE 1 1 0 pi ip off mj -> k_file s wf = File FD_PIPE 1 0 1 pi ip' off' mj' ->
  k_pipe s pi = Pipe d nr nw 1 1 -> valid_page pi -> pi ∉ F ->
  exists s', (forall A (k : M (kst B U) A), (fileclose rf;; fileclose wf;; k) s = k s') /\ quiet s' ({[pi]} ∪ F) /\
    user_kept ({[pi]} ∪ F) (f_user (k_fs s)) (f_user (k_fs s')) /\
    k_proc s' = k_proc s /\ k_file s' = <[wf := File FD_NONE 0 0 1 pi ip' off' mj']> (<[rf := File FD_NONE 0 1 0 pi ip off mj]> (k_file s)).
Proof.
  intros [Hh Ht Hp] Hne Er Ew Ep Hv Hn.
  assert (fileclose rf s = Ok tt (set_pipes pi (Pipe d nr nw 0 1) (upd_file rf (closed (k_file s rf)) s))) as H1.
  { rewrite fileclose_last by (done || now rewrite Er). unfold close_rest. rewrite Er. cbn [fl_type fl_pipe fl_writable].
    rewrite pipe_close_ok by done. cbn [k_pipe upd_file]. rewrite Ep. done. }
  set (s1 := set_pipes pi (Pipe d nr nw 0 1) (upd_file rf (closed (k_file s rf)) s)) in *.
  assert (k_file s1 wf = File FD_PIPE 1 0 1 pi ip' off' mj') as Ew1 by (cbn; now rewrite fn_lookup_insert_ne).
  destruct (pa_kfree_ok (f_user (k_fs s)) F pi Hp Hv Hn) as (u' & Hf & Hp' & Hfr).
  assert (fileclose wf s1 = Ok tt (with_user u' (set_pipes pi (Pipe d nr nw 0 0) (upd_file wf (closed (k_file s1 wf)) s1)))) as H2.
  { rewrite fileclose_last by (done || now rewrite Ew1). unfold close_rest. rewrite Ew1. cbn [fl_type fl_pipe fl_writable].
    rewrite pipe_close_ok by done. cbn [k_pipe upd_file s1 set_pipes]. rewrite fn_lookup_insert. cbn.
    now apply user_ok. }
  eexists. split; [intros A k; rewrite (bind_ok _ _ _ _ _ H1), (bind_ok _ _ _ _ _ H2); reflexivity|].
  split; [|split; [|split; [done|cbn; rewrite fn_lookup_insert_ne, Er, Ew by done; done]]].
  2: { apply (kfree_kept _ _ pi); [exact Hv|apply elem_of_union_l; now apply elem_of_singleton|exact Hf|exact Hfr]. }
  split; [done| |exact Hp']. apply (table_ok_closed (upd_file rf (closed (k_file s rf)) s)). now apply table_ok_closed.
Qed.

(** A new pipe: two fresh entries of the file table share a fresh page. *)
Record new_pipe_files s s' (F : gset Z) (rf wf pi : Z) : Prop := NewPipe {
  np_quiet : quiet s' (F ∖ {[pi]});
  np_proc : k_proc s' = k_proc s;
  np_free : rf <> wf /\ 0 <= rf < NFILE /\ 0 <= wf < NFILE /\ fl_ref (k_file s rf) = 0 /\ fl_ref (k_file s wf) = 0;
  np_page : pi ∈ F;
  np_pipe : exists d, k_pipe s' pi = Pipe d 0 0 1 1;
  np_rf : exists ip off mj, k_file s' rf = File FD_PIPE 1 1 0 pi ip off mj;
  np_wf : exists ip off mj, k_file s' wf = File FD_PIPE 1 0 1 pi ip off mj;
  np_other f : f <> rf -> f <> wf -> k_file s' f = k_file s f;
  np_user : user_kept F (f_user (k_fs s)) (f_user (k_fs s'));
}.

(** Two entries of the file table are free. *)
Definition two_files s : Prop :=
  exists f g, f <> g /\ 0 <= f < NFILE /\ 0 <= g < NFILE /\ fl_ref (k_file s f) = 0 /\ fl_ref (k_file s g) = 0.

Lemma closed_restored s s' F (X : gset Z) :
  quiet s F -> (forall f, f ∈ X -> fl_ref (k_file s f) = 0) -> quiet s' F -> k_proc s' = k_proc s ->
  (forall f, f ∉ X -> k_file s' f = k_file s f) -> (forall f, f ∈ X -> fl_ref (k_file s' f) = 0) -> restored s s' F.
Proof.
  intros Hq H0 Hq' Hp Ho Hc. split; [done|now rewrite Hp| |].
  - intros f. destruct (decide (f ∈ X)) as [Hin|Hn]; [now rewrite H0, Hc|now rewrite Ho].
  - intros f Hf. apply Ho. intros Hin. apply Hf. now apply H0.
Qed.

Lemma pipealloc_ok s F :
  quiet s F ->
  (exists f0 f1 s', pipealloc s = Ok (-1, f0, f1) s' /\ restored s s' F /\ user_kept F (f_user (k_fs s)) (f_user (k_fs s')) /\
     ~ (two_files s /\ F ≠ ∅)) \/
  (exists rf wf pi s', pipealloc s = Ok (0, rf, wf) s' /\ new_pipe_files s s' F rf wf pi).
Proof.
  intros Hq. pose proof Hq as [Hh Ht Hp]. unfold pipealloc.
  pose proof (filealloc_ok s ltac:(rewrite Hh; apply not_elem_of_empty)) as E0.
  pose proof (find_file_spec (Z.to_nat NFILE) 0 (k_file s)) as S0. destruct (find_file _ _ (k_file s)) as [f0|].
  2: { left. rewrite (bind_ok _ _ _ _ _ E0). eexists _, _, s. split; [reflexivity|]. split; [now apply restored_refl|]. split; [apply kept_refl|].
    intros [(f & _ & _ & Hf & _ & Hz & _) _]. exact (S0 f ltac:(unfold NFILE in *; lia) Hz). }
  rewrite (bind_ok _ _ _ _ _ E0). destruct S0 as (B0 & R0 & _). rewrite (proj2 (Z.eqb_neq f0 NULL)) by (unfold NULL; lia).
  set (s1 := upd_file f0 (with_ref 1 (k_file s f0)) s).
  assert (fl_ref (k_file s1 f0) = 1 /\ fl_type (k_file s1 f0) = FD_NONE) as [R1 T1] by (cbn; rewrite fn_lookup_insert; split; [done|now apply Ht]).
  pose proof (filealloc_ok s1 ltac:(cbn; rewrite Hh; apply not_elem_of_empty)) as E1.
  pose proof (find_file_spec (Z.to_nat NFILE) 0 (k_file s1)) as S1. destruct (find_file _ _ (k_file s1)) as [f1|].
  2: { left. rewrite (bind_ok _ _ _ _ _ E1). change (NULL =? NULL) with true. cbn iota. unfold pipealloc_bad.
    erewrite bind_ok by reflexivity. rewrite (proj2 (Z.eqb_neq f0 NULL)) by (unfold NULL; lia). cbn [negb].
    rewrite (bind_ok _ _ _ _ _ (fileclose_fresh s1 f0 Hh R1 T1)). eexists _, _, _. split; [reflexivity|]. split; [|split; [apply kept_refl|]].
    2: { intros [(f & g & Hfg & Hf & Hg & Hz & Hz') _]. assert (exists j, 0 <= j < NFILE /\ j <> f0 /\ fl_ref (k_file s j) = 0) as (j & Hj & Hj0 & Ej).
      { destruct (Z.eq_dec f f0) as [->|]; [exists g; auto|exists f; auto]. }
      apply (S1 j ltac:(unfold NFILE in *; lia)). cbn. now rewrite fn_lookup_insert_ne. }
    apply (closed_restored s _ F ({[f0]} : gset Z)); try done.
    - intros f ->%elem_of_singleton. done.
    - split; [done| |done]. apply table_ok_closed. now apply table_ok_live.
    - intros f Hf. cbn. rewrite !fn_lookup_insert_ne by set_solver. done.
    - intros f ->%elem_of_singleton. cbn. now rewrite fn_lookup_insert. }
  rewrite (bind_ok _ _ _ _ _ E1). destruct S1 as (B1 & R1' & _). rewrite (proj2 (Z.eqb_neq f1 NULL)) by (unfold NULL; lia).
  assert (f0 <> f1) as Hne by (intros <-; lia).
  assert (fl_ref (k_file s f1) = 0) as Rf1 by (cbn in R1'; now rewrite fn_lookup_insert_ne in R1').
  set (s2 := upd_file f1 (with_ref 1 (k_file s1 f1)) s1).
  assert (k_file s2 f0 = with_ref 1 (k_file s f0)) as K0 by (cbn; rewrite fn_lookup_insert_ne, fn_lookup_insert by done; done).
  assert (k_file s2 f1 = with_ref 1 (k_file s f1)) as K1 by (cbn; rewrite fn_lookup_insert, fn_lookup_insert_ne by done; done).
  assert (table_ok s2) as Ht2 by (apply table_ok_live; [now apply table_ok_live|done]).
  assert (forall s', quiet s' F -> k_proc s' = k_proc s -> (forall f, f <> f0 -> f <> f1 -> k_file s' f = k_file s f) ->
    fl_ref (k_file s' f0) = 0 -> fl_ref (k_file s' f1) = 0 -> restored s s' F) as Hback.
  { intros s' Hq' Hp' Ho Z0 Z1. apply (closed_restored s s' F {[f0; f1]}); try done.
    - intros f [->%elem_of_singleton| ->%elem_of_singleton]%elem_of_union; done.
    - intros f Hf. apply Ho; intros ->; set_solver.
    - intros f [->%elem_of_singleton| ->%elem_of_singleton]%elem_of_union; done. }
  destruct (decide (F = ∅)) as [->|HF].
  - left. destruct (pa_kalloc_none (f_user (k_fs s2)) Hp) as (u' & E2 & Hp' & Hm). rewrite (bind_ok _ _ _ _ _ (user_ok _ s2 _ _ E2)).
    change (0 =? 0) with true. cbn iota. unfold pipealloc_bad. erewrite bind_ok by reflexivity.
    rewrite (proj2 (Z.eqb_neq f0 NULL)), (proj2 (Z.eqb_neq f1 NULL)) by (unfold NULL; lia). cbn [negb].
    set (s3 := with_user u' s2).
    assert (fileclose f0 s3 = Ok tt (upd_file f0 (closed (k_file s3 f0)) s3)) as H3.
    { apply fileclose_fresh; [done|change (k_file s3 f0) with (k_file s2 f0); now rewrite K0|].
      change (k_file s3 f0) with (k_file s2 f0). rewrite K0. now apply Ht. }
    rewrite (bind_ok _ _ _ _ _ H3). set (s4 := upd_file f0 (closed (k_file s3 f0)) s3).
    assert (k_file s4 f1 = with_ref 1 (k_file s f1)) as K4.
    { change (k_file s4) with (<[f0 := closed (k_file s2 f0)]> (k_file s2)). now rewrite fn_lookup_insert_ne. }
    assert (fileclose f1 s4 = Ok tt (upd_file f1 (closed (k_file s4 f1)) s4)) as H4.
    { apply fileclose_fresh; [done|now rewrite K4|rewrite K4; now apply Ht]. }
    rewrite (bind_ok _ _ _ _ _ H4). eexists _, _, _. split; [reflexivity|].
    split; [apply Hback|split; [split; [exact (kalloc_pt _ _ _ E2)|intros q _ _ x _; cbn; cbn in Hm; now rewrite Hm]|now intros [_ ?]]].
    + split; [done| |done]. apply table_ok_closed. now apply (table_ok_closed s3).
    + done.
    + intros f N0 N1. cbn. now rewrite !fn_lookup_insert_ne.
    + cbn. now rewrite fn_lookup_insert_ne, fn_lookup_insert.
    + cbn. now rewrite fn_lookup_insert.
  - right. destruct (pa_kalloc_some (f_user (k_fs s2)) F Hp HF) as (pi & u' & E2 & Hin & Hp' & Hfr).
    pose proof (valid_page_range pi (pa_free_valid _ _ _ Hp Hin)) as Hpi.
    rewrite (bind_ok _ _ _ _ _ (user_ok _ s2 _ _ E2)), (proj2 (Z.eqb_neq pi 0)) by lia.
    do 2 erewrite bind_ok by reflexivity. change (k_file (set_pipes _ _ _) f0) with (k_file s2 f0). rewrite K0.
    do 2 erewrite bind_ok by reflexivity. cbn [k_file set_pipes with_user set_fs]. rewrite fn_lookup_insert_ne, K1 by done.
    erewrite bind_ok by reflexivity. eexists f0, f1, pi, _. split; [reflexivity|]. cbn [fl_ref with_ref]. split; cbn [k_file k_pipe k_proc].
    + split; [done| |exact Hp']. intros f. cbn [k_file]. destruct (decide (f = f1)) as [->|N1]; [now rewrite fn_lookup_insert|].
      rewrite fn_lookup_insert_ne by done. destruct (decide (f = f0)) as [->|N0]; [now rewrite fn_lookup_insert|].
      rewrite fn_lookup_insert_ne by done. apply Ht2.
    + done.
    + unfold NFILE in *. split; [done|]. split; [lia|]. split; [lia|]. split; [exact R0|exact Rf1].
    + done.
    + cbn. rewrite fn_lookup_insert. eauto.
    + rewrite fn_lookup_insert_ne, fn_lookup_insert by done. eauto.
    + rewrite fn_lookup_insert by done. eauto.
    + intros f N0 N1. rewrite !fn_lookup_insert_ne by done. cbn. now rewrite !fn_lookup_insert_ne.
    + exact (kalloc_kept F _ pi u' Hp Hin E2 Hfr).
Qed.

Lemma find_fd_spec k : forall fd t, 0 <= fd ->
  let r := find_fd k fd t in
  (r = -1 /\ forall j, fd <= j < fd + Z.of_nat k -> t j <> NULL) \/
  (fd <= r < fd + Z.of_nat k /\ t r = NULL /\ forall j, fd <= j < r -> t j <> NULL).
Proof.
  induction k as [|k IH]; intros fd t Hfd; cbn [find_fd]; [left; split; [done|lia]|].
  destruct (Z.eqb_spec (t fd) NULL) as [E|E]; [right; split; [lia|]; split; [done|lia]|].
  destruct (IH (fd + 1) t ltac:(lia)) as [(E1 & H1)|(E1 & H1 & H2)].
  - left. split; [done|]. intros j Hj. destruct (Z.eq_dec j fd) as [->|]; [done|]. apply H1. lia.
  - right. split; [lia|]. split; [done|]. intros j Hj. destruct (Z.eq_dec j fd) as [->|]; [done|]. apply H2. lia.
Qed.

Definition upd_ofile (fd f : Z) s : kst B U :=
  let p := k_proc s in
  set_proc (UProc (up_sz p) (up_trapframe p) (<[fd := f]> (up_ofile p)) (up_killed p)) s.

(** The lowest free descriptor. *)
Definition lowest_fd (t : Z -> Z) (fd : Z) : Prop := 0 <= fd < NOFILE /\ t fd = NULL /\ forall j, 0 <= j < fd -> t j <> NULL.

Lemma fdalloc_ok f s :
  (fdalloc f s = Ok (-1) s /\ forall fd, 0 <= fd < NOFILE -> up_ofile (k_proc s) fd <> NULL) \/
  (exists fd, fdalloc f s = Ok fd (upd_ofile fd f s) /\ lowest_fd (up_ofile (k_proc s)) fd).
Proof.
  unfold fdalloc. erewrite bind_ok by reflexivity.
  destruct (find_fd_spec (Z.to_nat NOFILE) 0 (up_ofile (k_proc s)) ltac:(lia)) as [(E & H)|(E & H1 & H2)]; cbn zeta in *.
  - left. rewrite E. split; [done|]. intros fd Hfd. apply H. unfold NOFILE in *. lia.
  - right. rewrite (proj2 (Z.eqb_neq _ (-1))) by lia. eexists. split; [reflexivity|]. split; [unfold NOFILE in *; lia|]. split; [done|exact H2].
Qed.

(** The descriptors [fds] of a new pipe and its files are undone. *)
Lemma pipe_undo_ok s s1 s2 F rf wf pi fds :
  quiet s F -> new_pipe_files s s1 F rf wf pi -> k_file s2 = k_file s1 -> k_pipe s2 = k_pipe s1 -> quiet s2 (F ∖ {[pi]}) ->
  (forall fd, fd ∈ fds -> up_ofile (k_proc s) fd = NULL) -> (forall fd, fd ∉ fds -> up_ofile (k_proc s2) fd = up_ofile (k_proc s) fd) ->
  exists s', pipe_undo fds rf wf s2 = Ok (-1) s' /\ restored s s' F /\ user_kept F (f_user (k_fs s2)) (f_user (k_fs s')).
Proof.
  intros Hq HN Ef Ep Hq2 Hnull Hother. revert s2 Ef Ep Hq2 Hother. induction fds as [|fd fds IH]; intros s2 Ef Ep Hq2 Hother.
  - destruct HN as [N1 N2 (N3 & B1 & B2 & Z1 & Z2) N4 (d & N5) (ip & off & mj & N6) (ip' & off' & mj' & N7) N8 _].
    destruct (pipe_files_close s2 (F ∖ {[pi]}) rf wf pi ip off mj ip' off' mj' d 0 0) as (s' & H1 & Q1 & G1 & P1 & K1); rewrite ?Ef, ?Ep; try done.
    { apply (pa_free_valid _ _ _ (qt_pages _ _ Hq) N4). } { set_solver. }
    exists s'. split; [apply H1|]. replace ({[pi]} ∪ F ∖ {[pi]}) with F in Q1, G1 by (apply set_eq; intros a; destruct (decide (a = pi)); set_solver).
    rewrite Ef in K1. split; [|exact G1]. apply (Restored _ _ _ Q1).
    + intros fd. rewrite P1. apply Hother. set_solver.
    + intros f. rewrite K1. destruct (decide (f = wf)) as [->|Nw]; [now rewrite fn_lookup_insert|]. rewrite fn_lookup_insert_ne by done.
      destruct (decide (f = rf)) as [->|Nr]; [now rewrite fn_lookup_insert|]. rewrite fn_lookup_insert_ne by done. now rewrite N8.
    + intros f Hf. rewrite K1. rewrite !fn_lookup_insert_ne by congruence. apply N8; congruence.
  - change (pipe_undo (fd :: fds) rf wf s2) with (pipe_undo fds rf wf (upd_ofile fd NULL s2)).
    refine (IH _ (upd_ofile fd NULL s2) Ef Ep _ _).
    + intros g Hg. apply Hnull. now apply list_elem_of_further.
    + destruct Hq2. now split.
    + intros g Hg. cbn. destruct (decide (g = fd)) as [->|Hne].
      * rewrite fn_lookup_insert. symmetry. apply Hnull. apply list_elem_of_here.
      * rewrite fn_lookup_insert_ne by done. apply Hother. intros [->|Hin]%elem_of_cons; done.
Qed.

(** *** The descriptors in the user's array *)

Lemma copy_fd u T F Um a x :
  space u T F Um -> is_u64 a ->
  exists r u', u_copyout a (le_bytes 4 x) u = Ok r u' /\ space u' T F Um /\ uv_pt u' = uv_pt u /\
    (forall va, ~ (a <= va < a + 4) -> umem (uv_st u') Um va = umem (uv_st u) Um va) /\
    (r = 0 /\ (forall i, 0 <= i < 4 -> can_write Um ((a + i) / PGSIZE) = true) /\
       (forall i b, le_bytes 4 x !! i = Some b -> umem (uv_st u') Um (a + Z.of_nat i) = b) \/
     r = -1 /\ exists i, 0 <= i < 4 /\ can_write Um ((a + i) / PGSIZE) = false).
Proof.
  intros [Hu Ha] H64. destruct (copyout_bytes_ok (uv_st u) (uv_pt u) T F Um a (le_bytes 4 x) Hu Ha H64) as (r & s' & k & E & Hu' & Ha' & [Hb Hp Hres _]).
  exists r, (Uvm s' (uv_pt u)). rewrite length_le_bytes in *. change (Z.of_nat 4) with 4 in *.
  split; [cbn [u_copyout uvm_user]; unfold on_st; now rewrite E|]. split; [now split|]. split; [done|]. cbn [uv_st].
  split; [intros va Hva; rewrite Hb; case_goal; zbool; [lia|done]|].
  destruct Hres as [[-> ->]|(-> & Hk & Hw)]; [left|right; split; [done|now exists k]]. split; [done|].
  split; [intros i Hi; apply Hp; lia|]. intros i b Hi. pose proof (lookup_lt_Some _ _ _ Hi) as Hl. rewrite length_le_bytes in Hl.
  rewrite Hb. zdecide. cbn [andb]. rewrite Z.add_simpl_l, Nat2Z.id, (list_lookup_total_correct _ _ _ Hi).
  pose proof (f_equal (fun l => l !! i) (le_bytes_u8 4 x)) as E8. cbn beta in E8. rewrite list_lookup_fmap, Hi in E8. cbn in E8. congruence.
Qed.

(** Both of them: each byte of the array as it then is. *)
Definition fds_at u (Um : umap) (a fd0 fd1 : Z) : Prop :=
  forall i b, (le_bytes 4 fd0 ++ le_bytes 4 fd1) !! i = Some b -> umem (uv_st u) Um (a + Z.of_nat i) = b.

Lemma array_space u T F Um a : space u T F Um -> (forall i, 0 <= i < 4 -> can_write Um ((a + i) / PGSIZE) = true) -> is_u64 a -> u64 (a + 4) = a + 4.
Proof.
  intros [Hu _] Hw Ha. apply u64_small. destruct (Z.lt_ge_cases a TRAPFRAME) as [HT|HT].
  - destruct UPAGES_eq as (EU & ET & _). unfold is_u64, PGSIZE in *. lia.
  - specialize (Hw 0 ltac:(lia)). rewrite Z.add_0_r, (can_write_above _ _ _ _ _ a Hu HT) in Hw. done.
Qed.

Lemma copy_fds u T F Um a fd0 fd1 :
  space u T F Um -> is_u64 a ->
  let same u' := space u' T F Um /\ uv_pt u' = uv_pt u /\ forall va, ~ (a <= va < a + 8) -> umem (uv_st u') Um va = umem (uv_st u) Um va in
  exists r1 u1, u_copyout a (le_bytes 4 fd0) u = Ok r1 u1 /\ same u1 /\
    (r1 = -1 /\ ~ (forall i, 0 <= i < 8 -> can_write Um ((a + i) / PGSIZE) = true) \/
     r1 = 0 /\ exists r2 u2, u_copyout (u64 (a + 4)) (le_bytes 4 fd1) u1 = Ok r2 u2 /\ same u2 /\
       (r2 = -1 /\ ~ (forall i, 0 <= i < 8 -> can_write Um ((a + i) / PGSIZE) = true) \/ r2 = 0 /\ fds_at u2 Um a fd0 fd1)).
Proof.
  intros Hs Ha same. destruct (copy_fd u T F Um a fd0 Hs Ha) as (r1 & u1 & E1 & S1 & P1 & O1 & R1). exists r1, u1. split; [exact E1|].
  split; [split; [done|]; split; [done|]; intros va Hva; apply O1; lia|].
  destruct R1 as [(-> & W1 & B1)|(-> & i & Hi & Hw)]; [right|left; split; [done|]; intros Hall; rewrite Hall in Hw by lia; done].
  split; [done|]. rewrite (array_space u T F Um a Hs W1 Ha).
  destruct (copy_fd u1 T F Um (a + 4) fd1 S1) as (r2 & u2 & E2 & S2 & P2 & O2 & R2).
  { rewrite <- (array_space u T F Um a Hs W1 Ha). apply u64_range. }
  exists r2, u2. split; [exact E2|].
  split; [split; [done|]; split; [congruence|]; intros va Hva; rewrite O2, O1 by lia; done|].
  destruct R2 as [(-> & W2 & B2)|(-> & i & Hi & Hw)]; [right|left; split; [done|]].
  - split; [done|]. intros i b [Hb|[Hi Hb]]%lookup_app_Some.
    + rewrite O2; [now apply B1|]. pose proof (lookup_lt_Some _ _ _ Hb) as Hl. rewrite length_le_bytes in Hl. lia.
    + rewrite length_le_bytes in Hi, Hb. rewrite <- (B2 _ b Hb). f_equal. lia.
  - intros Hall. replace (a + 4 + i) with (a + (i + 4)) in Hw by lia. rewrite Hall in Hw by lia. done.
Qed.

(** The user's memory after [sys_pipe]: only the array may have changed. *)
Definition array_only s s' (T : ptree) (F : gset Z) (Um : umap) : Prop :=
  let u := f_user (k_fs s) in let u' := f_user (k_fs s') in let a := tf_reg tf_a0 s in
  uv_pt u' = uv_pt u /\ space u' T F Um /\ forall va, ~ (a <= va < a + 8) -> umem (uv_st u') Um va = umem (uv_st u) Um va.

(** What [sys_pipe] needs: two files, a page, two descriptors and the array. *)
Definition pipe_possible s (F : gset Z) (Um : umap) : Prop :=
  two_files s /\ F ≠ ∅ /\
  (exists i j, i <> j /\ 0 <= i < NOFILE /\ 0 <= j < NOFILE /\ up_ofile (k_proc s) i = NULL /\ up_ofile (k_proc s) j = NULL) /\
  forall i, 0 <= i < 8 -> can_write Um ((tf_reg tf_a0 s + i) / PGSIZE) = true.

Lemma undo_all s s1 s2 T F Um rf wf pi fds :
  quiet s F -> space (f_user (k_fs s)) T F Um -> new_pipe_files s s1 F rf wf pi -> k_file s2 = k_file s1 -> k_pipe s2 = k_pipe s1 ->
  quiet s2 (F ∖ {[pi]}) -> array_only s s2 T (F ∖ {[pi]}) Um ->
  (forall fd, fd ∈ fds -> up_ofile (k_proc s) fd = NULL) -> (forall fd, fd ∉ fds -> up_ofile (k_proc s2) fd = up_ofile (k_proc s) fd) ->
  exists s', pipe_undo fds rf wf s2 = Ok (-1) s' /\ restored s s' F /\ array_only s s' T F Um.
Proof.
  intros Hq [Hu Ha] HN Ef Ep Hq2 (P2 & S2 & O2) Hnull Hother.
  destruct (pipe_undo_ok s s1 s2 F rf wf pi fds Hq HN Ef Ep Hq2 Hnull Hother) as (s' & E & HR & HK). exists s'. split; [exact E|]. split; [exact HR|].
  assert (forall q, q ∈ F -> ~ holds T Um q) as Hap by (intros q; apply (us_apart _ _ _ _ _ q Hu)).
  destruct (space_kept _ _ T _ F F Um S2 HK (qt_pages _ _ (rs_quiet _ _ _ HR)) Hap Hap) as [S' O'].
  split; [destruct HK as [-> _]; exact P2|]. split; [exact S'|]. intros va Hva. rewrite O'. auto.
Qed.

(** The state in which the descriptors are copied out. *)
Lemma space_made s s1 T F Um rf wf pi :
  space (f_user (k_fs s)) T F Um -> new_pipe_files s s1 F rf wf pi -> array_only s s1 T (F ∖ {[pi]}) Um.
Proof.
  intros Hs HN. pose proof (np_user _ _ _ _ _ _ HN) as HK. pose proof Hs as [Hu _].
  destruct (space_kept _ _ T F (F ∖ {[pi]}) F Um Hs HK (qt_pages _ _ (np_quiet _ _ _ _ _ _ HN))) as [S' O'].
  - intros q. apply (us_apart _ _ _ _ _ q Hu).
  - intros q [Hq _]%elem_of_difference. exact (us_apart _ _ _ _ _ q Hu Hq).
  - split; [exact (proj1 HK)|]. split; [exact S'|]. intros va _. apply O'.
Qed.

(** A pipe was made: the two lowest free descriptors refer to two fresh entries,
    one to read and one to write, that share an empty pipe on a fresh page, and the
    user's array holds the descriptors. *)
Record pipe_made s s' (T : ptree) (F : gset Z) (Um : umap) (fd0 fd1 rf wf pi : Z) : Prop := PipeMade {
  pm_fds : let t := up_ofile (k_proc s) in lowest_fd t fd0 /\ lowest_fd (<[fd0 := rf]> t) fd1;
  pm_ofile fd : up_ofile (k_proc s') fd = if fd =? fd0 then rf else if fd =? fd1 then wf else up_ofile (k_proc s) fd;
  pm_fresh : rf <> wf /\ 0 <= rf < NFILE /\ 0 <= wf < NFILE /\ fl_ref (k_file s rf) = 0 /\ fl_ref (k_file s wf) = 0;
  pm_page : pi ∈ F /\ quiet s' (F ∖ {[pi]});
  pm_pipe : exists d, k_pipe s' pi = Pipe d 0 0 1 1;
  pm_rf : exists ip off mj, k_file s' rf = File FD_PIPE 1 1 0 pi ip off mj;
  pm_wf : exists ip off mj, k_file s' wf = File FD_PIPE 1 0 1 pi ip off mj;
  pm_other f : f <> rf -> f <> wf -> k_file s' f = k_file s f;
  pm_user : array_only s s' T (F ∖ {[pi]}) Um;
  pm_array : fds_at (f_user (k_fs s')) Um (tf_reg tf_a0 s) fd0 fd1;
}.

(** How [sys_pipe] ends. *)
Definition pipe_result s (T : ptree) (F : gset Z) (Um : umap) (r : Z) s' : Prop :=
  (r = -1 /\ ~ pipe_possible s F Um /\ restored s s' F /\ array_only s s' T F Um) \/
  (r = 0 /\ exists fd0 fd1 rf wf pi, pipe_made s s' T F Um fd0 fd1 rf wf pi).

Lemma undo_result s s1 s2 T F Um rf wf pi fds :
  quiet s F -> space (f_user (k_fs s)) T F Um -> new_pipe_files s s1 F rf wf pi -> k_file s2 = k_file s1 -> k_pipe s2 = k_pipe s1 ->
  quiet s2 (F ∖ {[pi]}) -> array_only s s2 T (F ∖ {[pi]}) Um ->
  (forall fd, fd ∈ fds -> up_ofile (k_proc s) fd = NULL) -> (forall fd, fd ∉ fds -> up_ofile (k_proc s2) fd = up_ofile (k_proc s) fd) ->
  ~ pipe_possible s F Um ->
  exists r s', pipe_undo fds rf wf s2 = Ok r s' /\ pipe_result s T F Um r s'.
Proof.
  intros Hq Hs HN H1 H2 H3 H4 H5 H6 H7.
  destruct (undo_all s s1 s2 T F Um rf wf pi fds Hq Hs HN H1 H2 H3 H4 H5 H6) as (s' & Eu & Hr & Hao).
  exists (-1), s'. split; [done|]. now left.
Qed.

(** From the first [copyout] on. *)
Lemma pipe_copy_out s s1 T F Um rf wf pi fd0 fd1 :
  let a := tf_reg tf_a0 s in let t := up_ofile (k_proc s) in
  quiet s F -> space (f_user (k_fs s)) T F Um -> new_pipe_files s s1 F rf wf pi -> lowest_fd t fd0 -> lowest_fd (<[fd0 := rf]> t) fd1 ->
  exists r s', (r ← fs (user (u_copyout a (le_bytes 4 fd0)));
      if r <? 0 then pipe_undo [fd0; fd1] rf wf else
      r ← fs (user (u_copyout (u64 (a + 4)) (le_bytes 4 fd1)));
      if r <? 0 then pipe_undo [fd0; fd1] rf wf else mret 0) (upd_ofile fd1 wf (upd_ofile fd0 rf s1)) = Ok r s' /\ pipe_result s T F Um r s'.
Proof.
  intros a t Hq Hs HN L0 L1. pose proof HN as [N1 N2 (N3 & B1 & B2 & Z1 & Z2) N4 N5 N6 N7 N8 _]. set (s3 := upd_ofile fd1 wf _).
  pose proof L0 as (Bf0 & F0 & _). pose proof L1 as (Bf1 & F1 & _).
  assert (fd1 <> fd0) as Hne by (intros ->; rewrite fn_lookup_insert in F1; unfold NULL in F1; lia). rewrite fn_lookup_insert_ne in F1 by done.
  destruct (space_made s s1 T F Um rf wf pi Hs HN) as (A1 & A2 & A3).
  destruct (copy_fds (f_user (k_fs s1)) T (F ∖ {[pi]}) Um a fd0 fd1 A2 (load64_range _ _)) as (r1 & u1 & E1 & (S1 & P1 & O1) & R1).
  assert (forall u', space u' T (F ∖ {[pi]}) Um -> uv_pt u' = uv_pt (f_user (k_fs s1)) ->
    (forall va, ~ (a <= va < a + 8) -> umem (uv_st u') Um va = umem (uv_st (f_user (k_fs s1))) Um va) ->
    array_only s (with_user u' s3) T (F ∖ {[pi]}) Um) as Hao.
  { intros u' H1 H2 H3. split; [cbn; congruence|]. split; [done|]. intros va Hva. cbn. rewrite H3, A3 by done. done. }
  assert (forall u', space u' T (F ∖ {[pi]}) Um -> quiet (with_user u' s3) (F ∖ {[pi]})) as Hq3.
  { intros u' [H1 _]. split; [apply N1|apply N1|exact (vm_alloc _ _ _ _ (us_vm _ _ _ _ _ H1))]. }
  assert (forall u', array_only s (with_user u' s3) T (F ∖ {[pi]}) Um -> space u' T (F ∖ {[pi]}) Um ->
    ~ (forall i, 0 <= i < 8 -> can_write Um ((a + i) / PGSIZE) = true) ->
    exists r s', pipe_undo [fd0; fd1] rf wf (with_user u' s3) = Ok r s' /\ pipe_result s T F Um r s') as Hundo.
  { intros u' H1 H2 H3. apply (undo_result s s1 _ T F Um rf wf pi); try done; [now apply Hq3| | |now intros (_ & _ & _ & ?)].
    - intros fd [->|Hfd%list_elem_of_singleton]%elem_of_cons; [done|]. now subst.
    - intros fd Hfd. cbn. rewrite N2, !fn_lookup_insert_ne; [done| |]; intros ->; apply Hfd; set_solver. }
  rewrite (bind_ok _ _ _ _ _ (user_ok _ s3 _ _ E1)). destruct R1 as [[-> Hno]|(-> & r2 & u2 & E2 & (S2 & P2 & O2) & R2)].
  { change (-1 <? 0) with true. cbn iota. apply Hundo; auto. }
  change (0 <? 0) with false. cbn iota. rewrite (bind_ok _ _ _ _ _ (user_ok _ (with_user u1 s3) _ _ E2)).
  destruct R2 as [[-> Hno]|[-> Hat]].
  { change (-1 <? 0) with true. cbn iota. apply (Hundo u2); auto. }
  change (0 <? 0) with false. cbn iota. exists 0, (with_user u2 (with_user u1 s3)). split; [done|]. right. split; [done|].
  exists fd0, fd1, rf, wf, pi. split; try done; [|split; [done|exact (Hq3 u2 S2)]|exact (Hao u2 S2 P2 O2)].
  intros fd. cbn. rewrite N2. destruct (Z.eqb_spec fd fd0) as [->|]; [now rewrite fn_lookup_insert_ne, fn_lookup_insert|].
  destruct (Z.eqb_spec fd fd1) as [->|]; [now rewrite fn_lookup_insert|]. now rewrite !fn_lookup_insert_ne.
Qed.

(** C30: [sys_pipe] succeeds completely or leaves nothing behind, in a process
    with its address space.  It returns -1 only if two entries of the file table, a
    page, two descriptors or the user's array are not there; then every descriptor
    is as before, no entry of the file table is in use that was not, those in use
    have not changed, and the same pages are free.  On 0 the two lowest free
    descriptors refer to two fresh entries, one to read and one to write, that
    share an empty pipe on a fresh page, and the user's array holds the two
    descriptors.  In both cases the user's page table is as before, and so is the
    user's memory outside the array. *)
Theorem sys_pipe_all_or_nothing s T F Um :
  quiet s F -> space (f_user (k_fs s)) T F Um ->
  exists r s', sys_pipe s = Ok r s' /\
    ((r = -1 /\ ~ pipe_possible s F Um /\ restored s s' F /\ array_only s s' T F Um) \/
     (r = 0 /\ exists fd0 fd1 rf wf pi, pipe_made s s' T F Um fd0 fd1 rf wf pi)).
Proof.
  intros Hq Hs. fold (pipe_result s T F Um). unfold sys_pipe. erewrite bind_ok by reflexivity.
  destruct (pipealloc_ok s F Hq) as [(f0 & f1 & s1 & E1 & HR & HK & Hno)|(rf & wf & pi & s1 & E1 & HN)]; rewrite (bind_ok _ _ _ _ _ E1).
  { exists (-1), s1. split; [done|]. left. split; [done|]. split; [intros (H1 & H2 & _); now apply Hno|]. split; [done|].
    assert (forall q, q ∈ F -> ~ holds T Um q) as Hap by (intros q; destruct Hs as [Hu _]; apply (us_apart _ _ _ _ _ q Hu)).
    destruct (space_kept _ _ T F F F Um Hs HK (qt_pages _ _ (rs_quiet _ _ _ HR)) Hap Hap) as [S' O'].
    split; [exact (proj1 HK)|]. split; [exact S'|]. intros va _. apply O'. }
  cbn iota beta. change (0 <? 0) with false. cbn iota. pose proof HN as [N1 N2 _ _ _ _ _ _ _].
  pose proof (space_made s s1 T F Um rf wf pi Hs HN) as A1.
  destruct (fdalloc_ok rf s1) as [[E2 Hfd]|(fd0 & E2 & L0)]; rewrite (bind_ok _ _ _ _ _ E2).
  { apply (undo_result s s1 s1 T F Um rf wf pi []); try done; [set_solver|now rewrite N2|].
    intros (_ & _ & (i & _ & _ & Hi & _ & Ei & _) & _). rewrite N2 in Hfd. exact (Hfd i Hi Ei). }
  rewrite N2 in L0. pose proof L0 as (Bf0 & F0 & _). rewrite (proj2 (Z.ltb_ge fd0 0)) by lia. set (s2 := upd_ofile fd0 rf s1).
  assert (quiet s2 (F ∖ {[pi]})) as Q2 by (destruct N1; now split).
  assert (up_ofile (k_proc s2) = <[fd0 := rf]> (up_ofile (k_proc s))) as O2 by (cbn; now rewrite N2).
  destruct (fdalloc_ok wf s2) as [[E3 Hfd]|(fd1 & E3 & L1)]; rewrite (bind_ok _ _ _ _ _ E3).
  { apply (undo_result s s1 s2 T F Um rf wf pi [fd0]); try done.
    - intros fd ->%list_elem_of_singleton. done.
    - intros fd Hfd'. rewrite O2, fn_lookup_insert_ne; [done|]. intros ->. apply Hfd'. now apply list_elem_of_singleton.
    - intros (_ & _ & (i & j & Hij & Hi & Hj & Ei & Ej) & _). rewrite O2 in Hfd.
      destruct (Z.eq_dec i fd0) as [->|Hne]; [apply (Hfd j Hj)|apply (Hfd i Hi)]; now rewrite fn_lookup_insert_ne. }
  rewrite O2 in L1. pose proof L1 as (Bf1 & _). rewrite (proj2 (Z.ltb_ge fd1 0)) by lia.
  exact (pipe_copy_out s s1 T F Um rf wf pi fd0 fd1 Hq Hs HN L0 L1).
Qed.
End pipes.

(** ** A process asks for a pipe *)

#[local] Instance demo_pa : PageAllocator kstate := kmem_allocator vm_kend.
#[local] Instance demo_ps : PageAllocatorSpec kstate := kmem_allocator_spec vm_kend ltac:(done).

(** The process has no open file, and its trapframe is at the start of memory. *)
Definition pipe_demo (u : uvm kstate) : kst dview (uvm kstate) :=
  KSt (FState demo_disk u ∅ 1 demo_sb (fun _ => Inode 0 0 0 (Sleeplock 0 "inode" 0) 0 demo_file) 0)
    (fun _ => File FD_NONE 0 0 0 0 0 0 0) (fun _ => new_pipe) (UProc 5000 KERNBASE (fun _ => NULL) false).

(** The process of VmSpec.v, with the array at the end of its first page. *)
Lemma pipe_proc : exists u T F Um, F ≠ ∅ /\ space u T F Um /\ tf_get (mem_of u) KERNBASE tf_a0 = 4092 /\
  forall i, 0 <= i < 8 -> can_write Um ((4092 + i) / PGSIZE) = true.
Proof.
  destruct vm_proc_ok as (root & s & T & F & U & HF & Hu & Hs & Hab & Hp).
  assert (kernel_above s T) as Ha by (intros va Hva; now rewrite Hab).
  destruct (vm_kernel_buf s root T F U KERNBASE TF_SIZE Hu ltac:(vm_compute; congruence)) as [_ Hb].
  assert (frame_bytes (mem_of s) (tf_set (mem_of s) KERNBASE tf_a0 4092) KERNBASE TF_SIZE) as Hf by (intros x Hx; apply rd_tf_set; lia).
  destruct (us_kwrite s root T F U KERNBASE TF_SIZE _ Hu Hb Hf) as [Hu' _].
  exists (Uvm (Kalloc.set_mem (tf_set (mem_of s) KERNBASE tf_a0 4092) s) root), T, F, U. split; [exact HF|]. split; [split; [exact Hu'|]|split].
  - apply (above_same s _ root T F U Hu); [|exact Ha]. intros p a Hpa x Hx. cbn. apply rd_tf_set.
    destruct (Hb a ltac:(right; left; now exists p)); [lia|]. unfold PGSIZE in *. lia.
  - cbn. apply tf_get_set.
  - intros i Hi. apply (vm_writable U _ Hp Hs). unfold PGSIZE. dlia.
Qed.

(** The pipe gets descriptors 0 and 1. *)
Lemma sys_pipe_all_or_nothing_witness : exists u T F Um s',
  quiet (pipe_demo u) F /\ space u T F Um /\ sys_pipe (pipe_demo u) = Ok 0 s' /\ fds_at (f_user (k_fs s')) Um 4092 0 1.
Proof.
  destruct pipe_proc as (u & T & F & Um & HF & Hs & Ha & Hw).
  assert (quiet (pipe_demo u) F) as Hq by (split; [done|done|exact (vm_alloc _ _ _ _ (us_vm _ _ _ _ _ (proj1 Hs)))]).
  assert (tf_reg tf_a0 (pipe_demo u) = 4092) as Ea by exact Ha.
  destruct (sys_pipe_all_or_nothing (pipe_demo u) T F Um Hq Hs) as (r & s' & E & [(_ & Hno & _)|(-> & fd0 & fd1 & rf & wf & pi & Hm)]).
  { destruct Hno. split; [exists 0, 1; done|]. split; [exact HF|]. split; [exists 0, 1; done|]. rewrite Ea. exact Hw. }
  exists u, T, F, Um, s'. split; [exact Hq|]. split; [exact Hs|]. split; [exact E|].
  pose proof (pm_array _ _ _ _ _ _ _ _ _ _ Hm) as Hat. rewrite Ea in Hat.
  destruct (pm_fds _ _ _ _ _ _ _ _ _ _ Hm) as [(B0 & _ & M0) (B1 & N1 & M1)].
  assert (fd0 = 0) as -> by (destruct (Z.eq_dec fd0 0); [done|destruct (M0 0); [lia|done]]).
  destruct (pm_fresh _ _ _ _ _ _ _ _ _ _ Hm) as (_ & Hrf & _).
  assert (fd1 = 1) as ->; [|exact Hat]. destruct (Z.eq_dec fd1 0) as [->|H0]; [rewrite fn_lookup_insert in N1; unfold NULL in N1; lia|].
  destruct (Z.eq_dec fd1 1) as [|H1]; [done|]. destruct (M1 1); [lia|done].
Defined.
