(* ===== verification/Proc.v ===== *)
(** * kernel/proc.c: the operations

    The process table and the functions on it, over the file layer and the
    virtual memory.  A [struct proc *] is an index into the table, [NULL] is -1.
    [swtch] leaves the thread: a function that calls [sched] is split there into
    the part before, which ends with [p->lock] held and the new state set, and
    the part the thread resumes with. *)

From stdpp Require Import base gmap numbers strings functions list.
From S2P Require Import Prelude Mem Trapframe Block StringC Riscv Kalloc Vm Spinlock Locks Bio Log BlockIO Fs Pipe File.

Open Scope Z_scope.

Definition NPROC : Z := 64.

Definition UART0 : Z := 0x10000000.
Definition VIRTIO0 : Z := 0x10001000.
Definition PLIC : Z := 0x0c000000.

Inductive procstate := UNUSED | USED | SLEEPING | RUNNABLE | RUNNING | ZOMBIE.

#[export] Instance procstate_eq_dec : EqDecision procstate.
Proof. solve_decision. Defined.

(** What a process sleeps on: nothing, a process (in [wait]), or another
    address. *)
Inductive pchan := ChanNone | ChanProc (i : Z) | ChanAddr (a : Z).

#[export] Instance pchan_eq_dec : EqDecision pchan.
Proof. solve_decision. Defined.

Record proc := Proc {
  p_state : procstate;
  p_chan : pchan;
  p_killed : Z;
  p_xstate : Z;
  p_pid : Z;
  p_parent : Z;
  p_kstack : Z;
  p_sz : Z;
  p_pagetable : Z;
  p_trapframe : Z;
  p_ra : Z;
  p_csp : Z;
  p_ofile : Z -> Z;
  p_cwd : Z;
}.

Definition set_state (st : procstate) (p : proc) : proc :=
  Proc st (p_chan p) (p_killed p) (p_xstate p) (p_pid p) (p_parent p) (p_kstack p) (p_sz p) (p_pagetable p) (p_trapframe p)
    (p_ra p) (p_csp p) (p_ofile p) (p_cwd p).
Definition set_chan (c : pchan) (p : proc) : proc :=
  Proc (p_state p) c (p_killed p) (p_xstate p) (p_pid p) (p_parent p) (p_kstack p) (p_sz p) (p_pagetable p) (p_trapframe p)
    (p_ra p) (p_csp p) (p_ofile p) (p_cwd p).
Definition set_killed (k : Z) (p : proc) : proc :=
  Proc (p_state p) (p_chan p) k (p_xstate p) (p_pid p) (p_parent p) (p_kstack p) (p_sz p) (p_pagetable p) (p_trapframe p)
    (p_ra p) (p_csp p) (p_ofile p) (p_cwd p).
Definition set_xstate (x : Z) (p : proc) : proc :=
  Proc (p_state p) (p_chan p) (p_killed p) x (p_pid p) (p_parent p) (p_kstack p) (p_sz p) (p_pagetable p) (p_trapframe p)
    (p_ra p) (p_csp p) (p_ofile p) (p_cwd p).
Definition set_pid (x : Z) (p : proc) : proc :=
  Proc (p_state p) (p_chan p) (p_killed p) (p_xstate p) x (p_parent p) (p_kstack p) (p_sz p) (p_pagetable p) (p_trapframe p)
    (p_ra p) (p_csp p) (p_ofile p) (p_cwd p).
Definition set_parent (x : Z) (p : proc) : proc :=
  Proc (p_state p) (p_chan p) (p_killed p) (p_xstate p) (p_pid p) x (p_kstack p) (p_sz p) (p_pagetable p) (p_trapframe p)
    (p_ra p) (p_csp p) (p_ofile p) (p_cwd p).
Definition set_kstack (x : Z) (p : proc) : proc :=
  Proc (p_state p) (p_chan p) (p_killed p) (p_xstate p) (p_pid p) (p_parent p) x (p_sz p) (p_pagetable p) (p_trapframe p)
    (p_ra p) (p_csp p) (p_ofile p) (p_cwd p).
Definition set_sz (x : Z) (p : proc) : proc :=
  Proc (p_state p) (p_chan p) (p_killed p) (p_xstate p) (p_pid p) (p_parent p) (p_kstack p) x (p_pagetable p) (p_trapframe p)
    (p_ra p) (p_csp p) (p_ofile p) (p_cwd p).
Definition set_pagetable (x : Z) (p : proc) : proc :=
  Proc (p_state p) (p_chan p) (p_killed p) (p_xstate p) (p_pid p) (p_parent p) (p_kstack p) (p_sz p) x (p_trapframe p)
    (p_ra p) (p_csp p) (p_ofile p) (p_cwd p).
Definition set_trapframe (x : Z) (p : proc) : proc :=
  Proc (p_state p) (p_chan p) (p_killed p) (p_xstate p) (p_pid p) (p_parent p) (p_kstack p) (p_sz p) (p_pagetable p) x
    (p_ra p) (p_csp p) (p_ofile p) (p_cwd p).
Definition set_context (ra sp : Z) (p : proc) : proc :=
  Proc (p_state p) (p_chan p) (p_killed p) (p_xstate p) (p_pid p) (p_parent p) (p_kstack p) (p_sz p) (p_pagetable p) (p_trapframe p)
    ra sp (p_ofile p) (p_cwd p).
Definition set_pofile (fd f : Z) (p : proc) : proc :=
  Proc (p_state p) (p_chan p) (p_killed p) (p_xstate p) (p_pid p) (p_parent p) (p_kstack p) (p_sz p) (p_pagetable p) (p_trapframe p)
    (p_ra p) (p_csp p) (<[fd := f]> (p_ofile p)) (p_cwd p).
Definition set_cwd (x : Z) (p : proc) : proc :=
  Proc (p_state p) (p_chan p) (p_killed p) (p_xstate p) (p_pid p) (p_parent p) (p_kstack p) (p_sz p) (p_pagetable p) (p_trapframe p)
    (p_ra p) (p_csp p) (p_ofile p) x.

(** The state of proc.c, and [ticks] of trap.c.  [y_me] is the process that
    runs, [NULL] in the scheduler. *)
Record pst (B U : Type) := PSt {
  y_k : kst B U;
  y_proc : Z -> proc;
  y_me : Z;
  y_nextpid : Z;
  y_initproc : Z;
  y_ticks : Z;
}.
Arguments PSt {B U}.
Arguments y_k {B U}.
Arguments y_proc {B U}.
Arguments y_me {B U}.
Arguments y_nextpid {B U}.
Arguments y_initproc {B U}.
Arguments y_ticks {B U}.

Definition proc_lock (i : Z) : lockid := ("proc"%string, i).
Definition pid_lock : lockid := ("nextpid"%string, 0).
Definition wait_lock : lockid := ("wait_lock"%string, 0).

Section ops.
Context {B U : Type} `{BlockIO B} `{UserIO U} `{PageAllocator U}.
Local Abbreviation P := (pst B U).

(** The trampoline page, the code of [forkret], where the names of the processes
    are, and the string literals "initcode" and "/". *)
Context (trampoline forkret_pc : Z) (name_addr : Z -> Z) (str_initcode str_root : Z).

Definition set_k (k : kst B U) (s : P) : P := PSt k (y_proc s) (y_me s) (y_nextpid s) (y_initproc s) (y_ticks s).

(** The fields of the running process that the file layer and the system calls
    use are in their state; its entry of [y_proc] gives the others. *)
Definition load_user (s : P) (p : proc) : proc :=
  let u := k_proc (y_k s) in
  Proc (p_state p) (p_chan p) (Z.b2z (up_killed u)) (p_xstate p) (p_pid p) (p_parent p) (p_kstack p)
    (up_sz u) (u_pagetable (f_user (k_fs (y_k s)))) (up_trapframe u) (p_ra p) (p_csp p) (up_ofile u) (f_cwd (k_fs (y_k s))).

Definition the_proc (s : P) (i : Z) : proc := if i =? y_me s then load_user s (y_proc s i) else y_proc s i.

Definition save_user (p : proc) (k : kst B U) : kst B U :=
  let f := k_fs k in
  KSt (FState (f_io f) (u_set_pagetable (p_pagetable p) (f_user f)) (f_held f) (f_pid f) (f_sb f) (f_inode f) (p_cwd p)) (k_file k) (k_pipe k)
    (UProc (p_sz p) (p_trapframe p) (p_ofile p) (truthy (p_killed p))).

Definition upd_proc (i : Z) (f : proc -> proc) : M P unit :=
  modify (fun s => let p := f (the_proc s i) in
    PSt (if i =? y_me s then save_user p (y_k s) else y_k s) (<[i := p]> (y_proc s)) (y_me s) (y_nextpid s) (y_initproc s) (y_ticks s)).

#[export] Instance pst_thread : Thread P :=
  {| Locks.held := Field (fun s => f_held (k_fs (y_k s))) (fun h s => set_k (fset Locks.held h (y_k s)) s);
     mypid := fun s => f_pid (k_fs (y_k s)) |}.

(** Operations of the file layer, and of the virtual memory. *)
Definition kop {A} (c : M (kst B U) A) : M P A := fun s =>
  match c (y_k s) with
  | Ok a x => Ok a (set_k x s)
  | Panic msg => Panic msg
  | Diverge => Diverge
  end.

Definition vm {A} (c : M U A) : M P A := kop (fs (user c)).

Definition mem_op (f : memory -> memory) : M P unit := vm (modify (fun u => u_set_mem (f (u_mem u)) u)).

(** ** The table *)

Definition proc_mapstacks (kpgtbl : Z) : M P unit :=
  for_loop (Z.to_nat NPROC) 0 (fun i =>
    pa ← vm pa_kalloc;
    if pa =? 0 then panic "kalloc" else
    vm (kvmmap kpgtbl (KSTACK i) pa PGSIZE (Z.lor PTE_R PTE_W))).

(** The kernel's page table; [etext] is the end of the kernel's code. *)
Definition kvmmake (etext : Z) : M P Z :=
  kpgtbl ← vm pa_kalloc;
  vm (do_memset kpgtbl 0 PGSIZE);;
  vm (kvmmap kpgtbl UART0 UART0 PGSIZE (Z.lor PTE_R PTE_W));;
  vm (kvmmap kpgtbl VIRTIO0 VIRTIO0 PGSIZE (Z.lor PTE_R PTE_W));;
  vm (kvmmap kpgtbl PLIC PLIC 0x4000000 (Z.lor PTE_R PTE_W));;
  vm (kvmmap kpgtbl KERNBASE KERNBASE (u64 (etext - KERNBASE)) (Z.lor PTE_R PTE_X));;
  vm (kvmmap kpgtbl etext etext (u64 (PHYSTOP - etext)) (Z.lor PTE_R PTE_W));;
  vm (kvmmap kpgtbl TRAMPOLINE trampoline PGSIZE (Z.lor PTE_R PTE_X));;
  proc_mapstacks kpgtbl;;
  mret kpgtbl.

Definition procinit : M P unit :=
  for_loop (Z.to_nat NPROC) 0 (fun i => upd_proc i (fun p => set_kstack (KSTACK i) (set_state UNUSED p))).

Definition allocpid : M P Z :=
  lock pid_lock;;
  pid ← gets y_nextpid;
  modify (fun s => PSt (y_k s) (y_proc s) (y_me s) (i32 (y_nextpid s + 1)) (y_initproc s) (y_ticks s));;
  unlock pid_lock;;
  mret pid.

Definition proc_pagetable (p : Z) : M P Z :=
  pagetable ← vm uvmcreate;
  if pagetable =? 0 then mret 0 else
  r ← vm (mappages pagetable TRAMPOLINE PGSIZE trampoline (Z.lor PTE_R PTE_X));
  if r <? 0 then vm (uvmfree pagetable 0);; mret 0 else
  tf ← gets (fun s => p_trapframe (the_proc s p));
  r ← vm (mappages pagetable TRAPFRAME PGSIZE tf (Z.lor PTE_R PTE_W));
  if r <? 0 then
    vm (uvmunmap pagetable TRAMPOLINE 1 false);;
    vm (uvmfree pagetable 0);;
    mret 0
  else mret pagetable.

Definition proc_freepagetable (pagetable sz : Z) : M P unit :=
  vm (uvmunmap pagetable TRAMPOLINE 1 false);;
  vm (uvmunmap pagetable TRAPFRAME 1 false);;
  vm (uvmfree pagetable sz).

Definition freeproc (i : Z) : M P unit :=
  p ← gets (fun s => the_proc s i);
  (if truthy (p_trapframe p) then vm (pa_kfree (p_trapframe p)) else mret tt);;
  upd_proc i (set_trapframe 0);;
  (if truthy (p_pagetable p) then proc_freepagetable (p_pagetable p) (p_sz p) else mret tt);;
  upd_proc i (fun p => set_parent NULL (set_pid 0 (set_sz 0 (set_pagetable 0 p))));;
  mem_op (fun m => wr m (name_addr i) 0);;
  upd_proc i (fun p => set_state UNUSED (set_xstate 0 (set_killed 0 (set_chan ChanNone p)))).

(** The loop of [allocproc] from entry [i]; it ends with the entry's lock. *)
Fixpoint find_unused (k : nat) (i : Z) : M P Z :=
  match k with
  | O => mret NULL
  | S k' =>
      lock (proc_lock i);;
      p ← gets (fun s => the_proc s i);
      if decide (p_state p = UNUSED) then mret i else
      unlock (proc_lock i);;
      find_unused k' (i + 1)
  end.

Definition allocproc : M P Z :=
  i ← find_unused (Z.to_nat NPROC) 0;
  if i =? NULL then mret NULL else
  pid ← allocpid;
  upd_proc i (fun p => set_state USED (set_pid pid p));;
  tf ← vm pa_kalloc;
  upd_proc i (set_trapframe tf);;
  if tf =? 0 then freeproc i;; unlock (proc_lock i);; mret NULL else
  pt ← proc_pagetable i;
  upd_proc i (set_pagetable pt);;
  if pt =? 0 then freeproc i;; unlock (proc_lock i);; mret NULL else
  upd_proc i (fun p => set_context forkret_pc (p_kstack p + PGSIZE) p);;
  mret i.

(** The array [initcode]. *)
Definition initcode_bytes : list Z :=
  [0x17; 0x05; 0x00; 0x00; 0x13; 0x05; 0x45; 0x02;
   0x97; 0x05; 0x00; 0x00; 0x93; 0x85; 0x35; 0x02;
   0x93; 0x08; 0x70; 0x00; 0x73; 0x00; 0x00; 0x00;
   0x93; 0x08; 0x20; 0x00; 0x73; 0x00; 0x00; 0x00;
   0xef; 0xf0; 0x9f; 0xff; 0x2f; 0x69; 0x6e; 0x69;
   0x74; 0x00; 0x00; 0x24; 0x00; 0x00; 0x00; 0x00;
   0x00; 0x00; 0x00; 0x00].

(** [initcode] is the address of the array.  Nothing is mapped at the first
    addresses of the kernel: to use a null [p] is a fault, which [kerneltrap]
    does not handle. *)
Definition userinit (initcode : Z) : M P unit :=
  p ← allocproc;
  modify (fun s => PSt (y_k s) (y_proc s) (y_me s) (y_nextpid s) p (y_ticks s));;
  if p =? NULL then panic "kerneltrap" else
  x ← gets (fun s => the_proc s p);
  vm (uvmfirst (p_pagetable x) initcode (Z.of_nat (length initcode_bytes)));;
  upd_proc p (set_sz PGSIZE);;
  mem_op (fun m => tf_set (tf_set m (p_trapframe x) tf_epc 0) (p_trapframe x) tf_sp PGSIZE);;
  mem_op (fun m => safestrcpy m (name_addr p) str_initcode 16);;
  cwd ← kop (fs (namei str_root));
  upd_proc p (fun x => set_state RUNNABLE (set_cwd cwd x));;
  unlock (proc_lock p).

Definition growproc (n : Z) : M P Z :=
  me ← gets y_me;
  p ← gets (fun s => the_proc s me);
  let sz := p_sz p in
  if 0 <? n then
    sz ← vm (uvmalloc (p_pagetable p) sz (u64 (sz + n)) PTE_W);
    if sz =? 0 then mret (-1) else
    upd_proc me (set_sz sz);;
    mret 0
  else
    sz ← (if n <? 0 then vm (uvmdealloc (p_pagetable p) sz (u64 (sz + n))) else mret sz);
    upd_proc me (set_sz sz);;
    mret 0.

(** The checks of [sched] before it switches to the scheduler.  [noff] counts
    the locks a thread holds, and one that holds a lock has interrupts off
    (Locks.v), so the fourth check, "sched interruptible", follows from the
    second. *)
Definition sched : M P unit :=
  me ← gets y_me;
  h ← gets (fget Locks.held);
  if negb (bool_decide (proc_lock me ∈ h)) then panic "sched p->lock" else
  if negb (size h =? 1)%nat then panic "sched locks" else
  p ← gets (fun s => the_proc s me);
  if decide (p_state p = RUNNING) then panic "sched running" else mret tt.

(** ** fork, exit, wait *)

(** The descriptors of [p] from [i] on, duplicated for [np]. *)
Fixpoint dup_files (k : nat) (i p np : Z) : M P unit :=
  match k with
  | O => mret tt
  | S k' =>
      f ← gets (fun s => p_ofile (the_proc s p) i);
      (if negb (f =? NULL) then
         g ← kop (filedup f);
         upd_proc np (set_pofile i g)
       else mret tt);;
      dup_files k' (i + 1) p np
  end.

Definition fork : M P Z :=
  me ← gets y_me;
  np ← allocproc;
  if np =? NULL then mret (-1) else
  t ← gets the_proc;
  r ← vm (uvmcopy (p_pagetable (t me)) (p_pagetable (t np)) (p_sz (t me)));
  if r <? 0 then freeproc np;; unlock (proc_lock np);; mret (-1) else
  upd_proc np (set_sz (p_sz (t me)));;
  mem_op (fun m => wr_bytes m (p_trapframe (t np)) (rd_bytes m (p_trapframe (t me)) (Z.to_nat TF_SIZE)));;
  mem_op (fun m => tf_set m (p_trapframe (t np)) tf_a0 0);;
  dup_files (Z.to_nat NOFILE) 0 me np;;
  cwd ← kop (fs (idup (p_cwd (t me))));
  upd_proc np (set_cwd cwd);;
  mem_op (fun m => safestrcpy m (name_addr np) (name_addr me) 16);;
  pid ← gets (fun s => p_pid (the_proc s np));
  unlock (proc_lock np);;
  lock wait_lock;;
  upd_proc np (set_parent me);;
  unlock wait_lock;;
  lock (proc_lock np);;
  upd_proc np (set_state RUNNABLE);;
  unlock (proc_lock np);;
  mret pid.

Definition wakeup_proc (chan : pchan) (p : proc) : proc :=
  if decide (p_state p = SLEEPING /\ p_chan p = chan) then set_state RUNNABLE p else p.

Definition wakeup (chan : pchan) : M P unit :=
  me ← gets y_me;
  for_loop (Z.to_nat NPROC) 0 (fun i =>
    if negb (i =? me) then
      lock (proc_lock i);;
      upd_proc i (wakeup_proc chan);;
      unlock (proc_lock i)
    else mret tt).

Definition reparent (p : Z) : M P unit :=
  init ← gets y_initproc;
  for_loop (Z.to_nat NPROC) 0 (fun pp =>
    x ← gets (fun s => the_proc s pp);
    if p_parent x =? p then
      upd_proc pp (set_parent init);;
      wakeup (ChanProc init)
    else mret tt).

(** The loop of [exit] over the descriptors. *)
Definition close_files (p : Z) : M P unit :=
  for_loop (Z.to_nat NOFILE) 0 (fun fd =>
    f ← gets (fun s => p_ofile (the_proc s p) fd);
    if negb (f =? NULL) then
      kop (fileclose f);;
      upd_proc p (set_pofile fd NULL)
    else mret tt).

(** [exit] from [acquire(&wait_lock)] to its release. *)
Definition exit_table (p status : Z) : M P unit :=
  lock wait_lock;;
  reparent p;;
  parent ← gets (fun s => p_parent (the_proc s p));
  wakeup (ChanProc parent);;
  lock (proc_lock p);;
  upd_proc p (fun x => set_state ZOMBIE (set_xstate status x));;
  unlock wait_lock.

(** [exit] from the loop over the descriptors to [p->cwd = 0]. *)
Definition exit_files (p : Z) : M P unit :=
  close_files p;;
  cwd ← gets (fun s => p_cwd (the_proc s p));
  kop (fs (io io_begin_op));;
  kop (fs (iput cwd));;
  kop (fs (io io_end_op));;
  upd_proc p (set_cwd NULL).

(** [exit] up to the call of [sched]. *)
Definition exit_begin (status : Z) : M P unit :=
  p ← gets y_me;
  init ← gets y_initproc;
  if p =? init then panic "init exiting" else
  exit_files p;;
  exit_table p status.

(** The thread never comes back from the scheduler. *)
Definition exit (status : Z) : M P unit :=
  exit_begin status;;
  sched;;
  diverge.

Definition killed (p : Z) : M P Z :=
  lock (proc_lock p);;
  k ← gets (fun s => p_killed (the_proc s p));
  unlock (proc_lock p);;
  mret k.

Definition setkilled (p : Z) : M P unit :=
  lock (proc_lock p);;
  upd_proc p (set_killed 1);;
  unlock (proc_lock p).

(** How a scan of the table by [wait] ends: with its result, or with no child
    that has exited. *)
Inductive scanned := Reaped (r : Z) | Children (havekids : bool).

Fixpoint wait_scan (k : nat) (pp p addr : Z) (havekids : bool) : M P scanned :=
  match k with
  | O => mret (Children havekids)
  | S k' =>
      parent ← gets (fun s => p_parent (the_proc s pp));
      if parent =? p then
        lock (proc_lock pp);;
        x ← gets (fun s => the_proc s pp);
        if decide (p_state x = ZOMBIE) then
          r ← (if truthy addr then vm (u_copyout addr (le_bytes 4 (p_xstate x))) else mret 0);
          if r <? 0 then unlock (proc_lock pp);; unlock wait_lock;; mret (Reaped (-1)) else
          freeproc pp;;
          unlock (proc_lock pp);;
          unlock wait_lock;;
          mret (Reaped (p_pid x))
        else
          unlock (proc_lock pp);;
          wait_scan k' (pp + 1) p addr true
      else wait_scan k' (pp + 1) p addr havekids
  end.

(** A round of the loop of [wait], with [wait_lock] held: [None] to sleep on
    the process with [wait_lock]. *)
Definition wait_round (addr : Z) : M P (option Z) :=
  p ← gets y_me;
  r ← wait_scan (Z.to_nat NPROC) 0 p addr false;
  match r with
  | Reaped pid => mret (Some pid)
  | Children havekids =>
      k ← (if havekids then killed p else mret 0);
      if negb havekids || truthy k then unlock wait_lock;; mret (Some (-1)) else mret None
  end.

Definition wait (addr : Z) : M P Z :=
  lock wait_lock;;
  r ← wait_round addr;
  match r with
  | Some r => mret r
  | None => diverge
  end.

(** ** Scheduling *)

Definition yield_begin : M P unit :=
  me ← gets y_me;
  lock (proc_lock me);;
  upd_proc me (set_state RUNNABLE);;
  sched.

Definition yield_end : M P unit := me ← gets y_me; unlock (proc_lock me).

Definition sleep_begin (chan : pchan) (lk : lockid) : M P unit :=
  me ← gets y_me;
  lock (proc_lock me);;
  unlock lk;;
  upd_proc me (fun p => set_state SLEEPING (set_chan chan p));;
  sched.

Definition sleep_end (lk : lockid) : M P unit :=
  me ← gets y_me;
  upd_proc me (set_chan ChanNone);;
  unlock (proc_lock me);;
  lock lk.

(** The scheduler's choice at entry [i] of its loop: the process to switch to,
    made [RUNNING], with its lock held. *)
Definition schedule (i : Z) : M P bool :=
  lock (proc_lock i);;
  p ← gets (fun s => the_proc s i);
  if decide (p_state p = RUNNABLE) then
    upd_proc i (set_state RUNNING);;
    mret true
  else
    unlock (proc_lock i);;
    mret false.

Fixpoint kill_loop (k : nat) (i pid : Z) : M P Z :=
  match k with
  | O => mret (-1)
  | S k' =>
      lock (proc_lock i);;
      p ← gets (fun s => the_proc s i);
      if p_pid p =? pid then
        upd_proc i (set_killed 1);;
        (if decide (p_state p = SLEEPING) then upd_proc i (set_state RUNNABLE) else mret tt);;
        unlock (proc_lock i);;
        mret 0
      else
        unlock (proc_lock i);;
        kill_loop k' (i + 1) pid
  end.

Definition kill (pid : Z) : M P Z := kill_loop (Z.to_nat NPROC) 0 pid.
End ops.
