(* ===== verification/ProcThms.v ===== *)
(** * kernel/proc.c: exit, wakeup and kill on the process table

    What the functions that scan the table do to it, entry by entry. *)

From stdpp Require Import base gmap numbers strings functions list.
From S2P Require Import Prelude Mem Trapframe Block StringC Riscv Kalloc Vm Spinlock Locks Bio Log BlockIO Fs FsDemo Pipe File FileThms Sysfile SysfileThms Proc.

Open Scope Z_scope.

Section table.
Context {B U : Type} `{BlockIO B} `{UserIO U} `{PageAllocator U} `{!UserLaws U}.
Local Abbreviation P := (pst B U).
Implicit Types (s : P) (t : Z -> proc).

Definition locks s : gset lockid := f_held (k_fs (y_k s)).

Definition with_locks (h : gset lockid) s : P := set_k (fset Locks.held h (y_k s)) s.

Lemma with_locks_same s : with_locks (locks s) s = s.
Proof. now destruct s as [[[]]]. Qed.

Lemma plock_ok l s : l ∉ locks s -> lock l s = Ok tt (with_locks ({[l]} ∪ locks s) s).
Proof. intros Hl. unfold lock. erewrite bind_ok by reflexivity. now rewrite decide_False. Qed.

Lemma punlock_ok l s : l ∈ locks s -> unlock l s = Ok tt (with_locks (locks s ∖ {[l]}) s).
Proof. intros Hl. unfold unlock. erewrite bind_ok by reflexivity. now rewrite decide_True. Qed.

(** Entry [i] becomes [f] of it. *)
Definition put_proc (i : Z) (f : proc -> proc) s : P :=
  let p := f (the_proc s i) in
  PSt (if i =? y_me s then save_user p (y_k s) else y_k s) (<[i := p]> (y_proc s)) (y_me s) (y_nextpid s) (y_initproc s) (y_ticks s).

Lemma upd_proc_ok i f s : upd_proc i f s = Ok tt (put_proc i f s).
Proof. done. Qed.

(** [acquire(&p->lock); p = f p; release(&p->lock);] on another process. *)
Lemma locked_upd i f s :
  i <> y_me s -> proc_lock i ∉ locks s ->
  (lock (proc_lock i);; upd_proc i f;; unlock (proc_lock i)) s = Ok tt (put_proc i f s).
Proof.
  intros Hi Hl. rewrite (bind_ok _ _ _ _ _ (plock_ok _ _ Hl)), (bind_ok _ _ _ _ _ (upd_proc_ok _ _ _)).
  rewrite punlock_ok.
  2: { unfold put_proc, locks. cbn. rewrite (proj2 (Z.eqb_neq _ _) Hi). cbn. apply elem_of_union_l. now apply elem_of_singleton. }
  f_equal. unfold put_proc, with_locks, set_k, the_proc, locks. cbn. rewrite (proj2 (Z.eqb_neq _ _) Hi). cbn. rewrite lock_back by exact Hl.
  now destruct s as [[[]]].
Qed.

(** [s'] is [s] with entries of processes that do not run changed. *)
Record others s s' : Prop := Others {
  ot_k : y_k s' = y_k s;
  ot_me : y_me s' = y_me s;
  ot_init : y_initproc s' = y_initproc s;
  ot_pid : y_nextpid s' = y_nextpid s;
  ot_ticks : y_ticks s' = y_ticks s;
}.

Lemma others_refl s : others s s.
Proof. now split. Qed.

Lemma others_trans s1 s2 s3 : others s1 s2 -> others s2 s3 -> others s1 s3.
Proof. intros [] []. split; congruence. Qed.

Lemma put_proc_others i f s : i <> y_me s -> others s (put_proc i f s).
Proof. intros Hi. split; try done. cbn. now rewrite (proj2 (Z.eqb_neq _ _) Hi). Qed.

Lemma the_proc_ext s s' j : others s s' -> y_proc s' j = y_proc s j -> the_proc s' j = the_proc s j.
Proof. intros [Hk Hm _ _ _] E. unfold the_proc, load_user. now rewrite Hk, Hm, E. Qed.

Lemma put_proc_at i f s j :
  i <> y_me s -> the_proc (put_proc i f s) j = if j =? i then f (the_proc s i) else the_proc s j.
Proof.
  intros Hi. destruct (Z.eqb_spec j i) as [->|Hj].
  - unfold the_proc at 1. cbn. rewrite (proj2 (Z.eqb_neq _ _) Hi). apply fn_lookup_insert.
  - apply the_proc_ext; [now apply put_proc_others|]. cbn. now apply fn_lookup_insert_ne.
Qed.

Definition unlocked s : Prop := forall i, proc_lock i ∉ locks s.

Definition in_table (j : Z) : bool := (0 <=? j) && (j <? NPROC).

Lemma wakeup_ok chan s :
  unlocked s -> exists s', wakeup chan s = Ok tt s' /\ others s s' /\
    forall j, the_proc s' j = if in_table j && negb (j =? y_me s) then wakeup_proc chan (the_proc s j) else the_proc s j.
Proof.
  intros Hl. unfold wakeup. erewrite bind_ok by reflexivity.
  destruct (for_loop_ok (fun k s' => others s s' /\
    forall j, the_proc s' j = if (0 <=? j) && (j <? k) && negb (j =? y_me s) then wakeup_proc chan (the_proc s j) else the_proc s j)
    (Z.to_nat NPROC) 0 (fun i => (if negb (i =? y_me s) then
      lock (proc_lock i);; upd_proc i (wakeup_proc chan);; unlock (proc_lock i) else mret tt) : M P unit) s) as (s' & E & HO & Ht).
  - split; [apply others_refl|]. intros j. destruct (Z.leb_spec 0 j), (Z.ltb_spec j 0); cbn; done || lia.
  - intros k s1 Hk [HO Ht]. pose proof HO as [Hyk Hm _ _ _].
    destruct (Z.eqb_spec k (y_me s)) as [->|Hne]; cbn [negb].
    + exists s1. split; [done|]. split; [done|]. intros j. rewrite Ht. destruct (Z.eqb_spec j (y_me s)); [|do 2 f_equal].
      * now rewrite !andb_false_r.
      * destruct (Z.ltb_spec j (y_me s)), (Z.ltb_spec j (y_me s + 1)); done || lia.
    + exists (put_proc k (wakeup_proc chan) s1). split; [|split].
      * apply locked_upd; [congruence|]. unfold locks. rewrite Hyk. apply Hl.
      * eapply others_trans; [exact HO|]. apply put_proc_others. congruence.
      * intros j. rewrite put_proc_at by congruence. rewrite !Ht.
        destruct (Z.eqb_spec j k) as [->|]; [|].
        -- rewrite (proj2 (Z.eqb_neq _ _) Hne). zdecide. cbn. done.
        -- destruct (Z.ltb_spec j k), (Z.ltb_spec j (k + 1)); done || lia.
  - exists s'. split; [exact E|]. split; [exact HO|]. exact Ht.
Qed.

Lemma wakeup_proc_idem c x : wakeup_proc c (wakeup_proc c x) = wakeup_proc c x.
Proof. unfold wakeup_proc at 2 3. case_decide; [|unfold wakeup_proc; now rewrite decide_False]. unfold wakeup_proc. rewrite decide_False; [done|]. now intros [? _]. Qed.

Lemma wakeup_proc_parent c x : p_parent (wakeup_proc c x) = p_parent x.
Proof. unfold wakeup_proc. now case_decide. Qed.

Lemma wakeup_set_parent c i x : wakeup_proc c (set_parent i x) = set_parent i (wakeup_proc c x).
Proof. unfold wakeup_proc. cbn. now case_decide. Qed.

(** Some process below [k] is a child of [p]. *)
Definition has_child (p k : Z) s : bool := existsb (fun i => p_parent (the_proc s (Z.of_nat i)) =? p) (seq 0 (Z.to_nat k)).

Lemma has_child_succ p k s :
  0 <= k -> has_child p (k + 1) s = has_child p k s || (p_parent (the_proc s k) =? p).
Proof.
  intros Hk. unfold has_child. rewrite Z2Nat.inj_add, seq_app, existsb_app by lia. change (Z.to_nat 1) with 1%nat. cbn [seq existsb]. rewrite orb_false_r.
  now rewrite Nat.add_0_l, Z2Nat.id.
Qed.

Lemma has_child_spec p k s : has_child p k s = true <-> exists j, 0 <= j < k /\ p_parent (the_proc s j) = p.
Proof.
  unfold has_child. rewrite existsb_exists. split.
  - intros (i & Hi%in_seq & E%Z.eqb_eq). exists (Z.of_nat i). split; [lia|done].
  - intros (j & Hj & E). exists (Z.to_nat j). rewrite in_seq, Z2Nat.id by lia. split; [lia|]. now apply Z.eqb_eq.
Qed.

(** An entry after [reparent(p)] has come to [k]. *)
Definition adopted (p init k : Z) s (j : Z) : proc :=
  let x := the_proc s j in
  if in_table j && negb (j =? y_me s) then
    let x := if (j <? k) && (p_parent x =? p) then set_parent init x else x in
    if has_child p k s then wakeup_proc (ChanProc init) x else x
  else x.

Lemma reparent_ok s :
  let p := y_me s in
  unlocked s -> p_parent (the_proc s p) <> p ->
  exists s', reparent p s = Ok tt s' /\ others s s' /\ forall j, the_proc s' j = adopted p (y_initproc s) NPROC s j.
Proof.
  intros p Hl Hp. unfold reparent. erewrite bind_ok by reflexivity. set (init := y_initproc s).
  destruct (for_loop_ok (fun k s' => others s s' /\ forall j, the_proc s' j = adopted p init k s j) (Z.to_nat NPROC) 0
    (fun pp => (x ← gets (fun s => the_proc s pp);
      if p_parent x =? p then upd_proc pp (set_parent init);; wakeup (ChanProc init) else mret tt) : M P unit) s) as (s' & E & HO & Ht).
  - split; [apply others_refl|]. intros j. unfold adopted, in_table.
    destruct (Z.leb_spec 0 j), (Z.ltb_spec j 0); cbn; try lia; try done; repeat case_goal; done.
  - intros k s1 Hk [HO Ht]. pose proof HO as [Hyk Hm _ _ _]. erewrite bind_ok by reflexivity.
    assert (p_parent (the_proc s1 k) = p_parent (the_proc s k)) as ->.
    { rewrite Ht. unfold adopted. rewrite Z.ltb_irrefl. cbn [andb]. repeat case_goal; now rewrite ?wakeup_proc_parent. }
    destruct (Z.eqb_spec (p_parent (the_proc s k)) p) as [Hpk|Hpk].
    + assert (k <> y_me s) as Hne by (intros ->; done).
      rewrite (bind_ok _ _ _ _ _ (upd_proc_ok _ _ _)). set (s2 := put_proc k (set_parent init) s1).
      assert (others s s2) as HO2 by (eapply others_trans; [exact HO|apply put_proc_others; congruence]). pose proof HO2 as [Hyk2 Hm2 _ _ _].
      destruct (wakeup_ok (ChanProc init) s2) as (s3 & E3 & HO3 & Ht3).
      { intros i. unfold locks. rewrite Hyk2. apply Hl. }
      exists s3. split; [exact E3|]. split; [eapply others_trans; eassumption|]. intros j. rewrite Ht3, Hm2. unfold s2.
      rewrite put_proc_at, !Ht by congruence. unfold adopted. rewrite has_child_succ, Hpk, Z.eqb_refl, orb_true_r by lia. cbn [orb].
      destruct (in_table j && negb (j =? y_me s)) eqn:Ej.
      * destruct (Z.eqb_spec j k) as [->|Hjk].
        -- rewrite Ej, Hpk, Z.eqb_refl, Z.ltb_irrefl. zdecide. cbn [andb].
           case_goal; [|done]. now rewrite <- wakeup_set_parent, wakeup_proc_idem.
        -- replace (j <? k + 1) with (j <? k) by (destruct (Z.ltb_spec j k), (Z.ltb_spec j (k + 1)); done || lia).
           case_goal; [case_goal; now rewrite wakeup_proc_idem|done].
      * destruct (Z.eqb_spec j k) as [->|Hjk]; [|done]. unfold in_table in Ej. exfalso. zbool.
        destruct Ej as [Ej|Ej]; zbool; unfold NPROC in *; [|congruence]. destruct Ej; zbool; lia.
    + exists s1. split; [done|]. split; [done|]. intros j. rewrite Ht. unfold adopted. rewrite has_child_succ by lia.
      rewrite (proj2 (Z.eqb_neq _ _) Hpk), orb_false_r. case_goal; [|done].
      destruct (Z.eqb_spec j k) as [->|Hjk].
      { rewrite (proj2 (Z.eqb_neq _ _) Hpk). now rewrite !andb_false_r. }
      now replace (j <? k + 1) with (j <? k) by (destruct (Z.ltb_spec j k), (Z.ltb_spec j (k + 1)); done || lia).
  - exists s'. split; [exact E|]. split; [exact HO|]. exact Ht.
Qed.

Lemma the_proc_locks h s j : the_proc (with_locks h s) j = the_proc s j.
Proof. reflexivity. Qed.

(** A change of the running process's entry that is not to the fields it shares
    with the file layer. *)
Definition same_user (x x' : proc) : Prop :=
  p_killed x' = p_killed x /\ p_sz x' = p_sz x /\ p_pagetable x' = p_pagetable x /\ p_trapframe x' = p_trapframe x /\
  p_ofile x' = p_ofile x /\ p_cwd x' = p_cwd x.

Lemma put_proc_me f s :
  let p := y_me s in let x := the_proc s p in
  same_user x (f x) -> y_k (put_proc p f s) = y_k s /\ the_proc (put_proc p f s) p = f x.
Proof.
  intros p x (E1 & E2 & E3 & E4 & E5 & E6). assert (y_k (put_proc p f s) = y_k s) as Ek.
  { unfold put_proc. cbn [y_k]. unfold p at 1. rewrite Z.eqb_refl. fold p x. unfold save_user. rewrite E1, E2, E3, E4, E5, E6.
    unfold x, the_proc. rewrite Z.eqb_refl. cbn. rewrite u_set_pagetable_same.
    destruct (y_k s) as [[] ? ? [? ? ? k]]. cbn. now destruct k. }
  split; [exact Ek|]. unfold the_proc at 1. change (y_me (put_proc p f s)) with p. rewrite Z.eqb_refl. unfold load_user. rewrite Ek.
  assert (y_proc (put_proc p f s) p = f x) as -> by apply fn_lookup_insert.
  destruct (f x) as []. cbn in *. subst. unfold x, the_proc. rewrite Z.eqb_refl. done.
Qed.

Lemma put_proc_me_other i f s j : i = y_me s -> j <> i -> the_proc (put_proc i f s) j = the_proc s j.
Proof.
  intros -> Hj. unfold the_proc. cbn. rewrite (proj2 (Z.eqb_neq _ _) Hj), fn_lookup_insert_ne by congruence. done.
Qed.

Lemma sched_ok s :
  locks s = {[proc_lock (y_me s)]} -> p_state (the_proc s (y_me s)) <> RUNNING -> sched s = Ok tt s.
Proof.
  intros Hl Hs. unfold sched. erewrite bind_ok by reflexivity. erewrite bind_ok by reflexivity. cbn [fget Locks.held pst_thread].
  change (f_held (k_fs (y_k s))) with (locks s). rewrite Hl, bool_decide_true by now apply elem_of_singleton. rewrite size_singleton. cbn [negb Nat.eqb].
  erewrite bind_ok by reflexivity. now rewrite decide_False.
Qed.

(** The two calls of [wakeup] in [exit], and the change of parent. *)
Lemma woken_twice c1 c2 (b : bool) (q : Z) x :
  wakeup_proc c2 (if b then wakeup_proc c1 (set_parent q x) else set_parent q x) =
  set_parent q (if decide (p_state x = SLEEPING /\ (p_chan x = c2 \/ p_chan x = c1 /\ b = true)) then set_state RUNNABLE x else x).
Proof.
  destruct b; unfold wakeup_proc; cbn; repeat case_decide; cbn in *; try done; naive_solver.
Qed.

Lemma set_parent_same x : set_parent (p_parent x) x = x.
Proof. now destruct x. Qed.

(** [exit] from [acquire(&wait_lock)] on. *)
Lemma exit_table_ok s status :
  let p := y_me s in let init := y_initproc s in let parent := p_parent (the_proc s p) in
  locks s = ∅ -> in_table p = true -> p <> init -> parent <> p ->
  exists s', exit_table p status s = Ok tt s' /\ y_k s' = fset Locks.held {[proc_lock p]} (y_k s) /\
    (y_me s' = p /\ y_initproc s' = init /\ y_nextpid s' = y_nextpid s /\ y_ticks s' = y_ticks s) /\
    the_proc s' p = set_state ZOMBIE (set_xstate status (the_proc s p)) /\
    forall j, in_table j = true -> j <> p ->
      let x := the_proc s j in
      let woken := p_state x = SLEEPING /\ (p_chan x = ChanProc parent \/ p_chan x = ChanProc init /\ has_child p NPROC s = true) in
      the_proc s' j = set_parent (if p_parent x =? p then init else p_parent x) (if decide woken then set_state RUNNABLE x else x).
Proof.
  intros p init parent Hl Hin Hpi Hpp. unfold exit_table.
  rewrite (bind_ok _ _ _ _ _ (plock_ok wait_lock s ltac:(rewrite Hl; apply not_elem_of_empty))). set (s0 := with_locks _ s).
  assert (unlocked s0) as Hu by (intros i; unfold locks; cbn; rewrite Hl, union_empty_r_L, elem_of_singleton; done).
  destruct (reparent_ok s0 Hu Hpp) as (s1 & E1 & HO1 & Ht1). rewrite (bind_ok _ _ _ _ _ E1). erewrite bind_ok by reflexivity.
  pose proof HO1 as [Hk1 Hm1 Hi1 _ _].
  assert (the_proc s1 p = the_proc s p) as Hme.
  { rewrite Ht1. unfold adopted. cbn [y_me s0 with_locks set_k]. fold p. rewrite Z.eqb_refl, andb_false_r. done. }
  rewrite Hme. fold parent. destruct (wakeup_ok (ChanProc parent) s1) as (s2 & E2 & HO2 & Ht2).
  { intros i. unfold locks. rewrite Hk1. apply Hu. }
  rewrite (bind_ok _ _ _ _ _ E2). pose proof (others_trans _ _ _ HO1 HO2) as HO. pose proof HO as [Hk2 Hm2 Hi2 Hn2 Hx2].
  assert (locks s2 = {[wait_lock]}) as Hl2 by (unfold locks; rewrite Hk2; cbn; now rewrite Hl, union_empty_r_L).
  rewrite (bind_ok _ _ _ _ _ (plock_ok (proc_lock p) s2 ltac:(rewrite Hl2, elem_of_singleton; done))), (bind_ok _ _ _ _ _ (upd_proc_ok _ _ _)).
  rewrite Hl2. set (s2' := with_locks _ s2). assert (y_me s2' = p) as Hp2 by exact Hm2.
  destruct (put_proc_me (fun x => set_state ZOMBIE (set_xstate status x)) s2' ltac:(repeat split)) as [Ek3 Hme3]. rewrite Hp2 in Ek3, Hme3.
  set (s3 := put_proc p _ s2') in *.
  assert (locks s3 = {[proc_lock p]} ∪ {[wait_lock]}) as Hl3 by (unfold locks; now rewrite Ek3).
  rewrite punlock_ok by (rewrite Hl3; set_solver). rewrite Hl3. set (h := _ ∖ _).
  assert (h = {[proc_lock p]}) as -> by (unfold h; apply set_eq; intros l; rewrite elem_of_difference, elem_of_union, !elem_of_singleton; naive_solver).
  exists (with_locks {[proc_lock p]} s3). split; [done|].
  assert (the_proc s2 p = the_proc s p) as Hme2 by (rewrite Ht2, Hm1; cbn; fold p; now rewrite Z.eqb_refl, andb_false_r).
  split; [unfold with_locks; cbn [y_k set_k]; rewrite Ek3; unfold s2'; cbn [y_k with_locks set_k]; rewrite Hk2; reflexivity|].
  split; [split; [exact Hp2|split; [exact Hi2|split; [exact Hn2|exact Hx2]]]|].
  split; [rewrite the_proc_locks, Hme3; unfold s2'; now rewrite the_proc_locks, Hme2|].
  intros j Hj Hne. cbn zeta. rewrite <- woken_twice, the_proc_locks. unfold s3. rewrite put_proc_me_other by congruence.
  unfold s2'. rewrite the_proc_locks, Ht2, Hm1, Ht1. cbn. fold p. unfold adopted. cbn. fold p init.
  rewrite Hj, (proj2 (Z.eqb_neq _ _) Hne). cbn. unfold in_table in Hj. zbool. zdecide. cbn [andb]. change (the_proc s0 j) with (the_proc s j).
  change (has_child p NPROC s0) with (has_child p NPROC s). destruct (p_parent (the_proc s j) =? p); [done|]. now rewrite set_parent_same.
Qed.

(** *** Giving up the files *)

(** An operation of the file layer leaves the process alone. *)
Definition keeps_proc {A} (c : M (kst B U) A) : Prop := forall k a k', c k = Ok a k' -> k_proc k' = k_proc k.

Lemma keeps_bind {A C} (c : M (kst B U) A) (f : A -> M (kst B U) C) :
  keeps_proc c -> (forall a, keeps_proc (f a)) -> keeps_proc (c ≫= f).
Proof. intros Hc Hf k b k' (a & k1 & E1 & E2)%bind_ok_inv. rewrite (Hf a _ _ _ E2). exact (Hc _ _ _ E1). Qed.

Lemma keeps_fs {A} (c : M (fstate B U) A) : keeps_proc (fs c).
Proof. intros k a k'. unfold fs. destruct (c (k_fs k)); [|done..]. now intros [= <- <-]. Qed.

Lemma keeps_lock l : keeps_proc (lock l) /\ keeps_proc (unlock l).
Proof.
  split; intros k a k' (h & k1 & E1 & E2)%bind_ok_inv; injection E1 as <- <-; case_decide; try done; now injection E2 as <- <-.
Qed.

Lemma keeps_pipe {A} pi (c : M (pstate U) A) : keeps_proc (on_pipe pi c).
Proof. intros k a k'. unfold on_pipe. destruct (c _); [|done..]. now intros [= <- <-]. Qed.

Lemma keeps_ret {A} (a : A) : keeps_proc (mret a).
Proof. now intros k b k' [= <- <-]. Qed.

Lemma keeps_gets {A} (f : kst B U -> A) : keeps_proc (gets f).
Proof. now intros k b k' [= <- <-]. Qed.

Lemma keeps_file f x : keeps_proc (set_file f x).
Proof. now intros k b k' [= <- <-]. Qed.

Lemma fileclose_keeps f : keeps_proc (fileclose f).
Proof.
  unfold fileclose, pipe_close. pose proof (fun l => proj1 (keeps_lock l)) as Hl. pose proof (fun l => proj2 (keeps_lock l)) as Hu.
  repeat first [apply Hl|apply Hu|apply keeps_fs|apply keeps_pipe|apply keeps_ret|apply keeps_gets|apply keeps_file
    |(intros ? ? ? ?; discriminate)|apply keeps_bind; [|intros ?]|case_goal|progress destruct (fl_type _)].
Qed.

(** The fields of an entry that only proc.c uses. *)
Definition own_fields (x : proc) :=
  (p_state x, p_chan x, p_xstate x, p_pid x, p_parent x, p_kstack x, (p_ra x, p_csp x)).

(** The running process has given up its descriptors below [k]; of the other
    processes, and of what proc.c keeps, nothing has changed. *)
Record given_up (k : Z) s s1 : Prop := GivenUp {
  gu_me : y_me s1 = y_me s;
  gu_init : y_initproc s1 = y_initproc s;
  gu_pid : y_nextpid s1 = y_nextpid s;
  gu_ticks : y_ticks s1 = y_ticks s;
  gu_others j : j <> y_me s -> the_proc s1 j = the_proc s j;
  gu_own : own_fields (the_proc s1 (y_me s)) = own_fields (the_proc s (y_me s));
  gu_user : p_sz (the_proc s1 (y_me s)) = p_sz (the_proc s (y_me s)) /\
    p_trapframe (the_proc s1 (y_me s)) = p_trapframe (the_proc s (y_me s)) /\ p_killed (the_proc s1 (y_me s)) = p_killed (the_proc s (y_me s));
  gu_files fd : p_ofile (the_proc s1 (y_me s)) fd = if (0 <=? fd) && (fd <? k) then NULL else p_ofile (the_proc s (y_me s)) fd;
}.

Lemma given_refl s : given_up 0 s s.
Proof. split; try done. intros fd. case_goal; zbool; [lia|done]. Qed.

(** A call of the file layer. *)
Lemma given_kop k s s1 (c : M (kst B U) unit) s2 :
  given_up k s s1 -> keeps_proc c -> kop c s1 = Ok tt s2 -> given_up k s s2.
Proof.
  intros [G1 G2 G3 G4 G5 G6 G7 G8] Hc. unfold kop. destruct (c (y_k s1)) as [[] k2| |] eqn:E; [|done..]. intros [= <-].
  apply Hc in E. assert (forall j, j <> y_me s -> the_proc (set_k k2 s1) j = the_proc s1 j) as Ho.
  { intros j Hj. unfold the_proc. cbn. now rewrite G1, (proj2 (Z.eqb_neq _ _) Hj). }
  assert (own_fields (the_proc (set_k k2 s1) (y_me s)) = own_fields (the_proc s1 (y_me s)) /\
    p_sz (the_proc (set_k k2 s1) (y_me s)) = p_sz (the_proc s1 (y_me s)) /\
    p_trapframe (the_proc (set_k k2 s1) (y_me s)) = p_trapframe (the_proc s1 (y_me s)) /\
    p_killed (the_proc (set_k k2 s1) (y_me s)) = p_killed (the_proc s1 (y_me s)) /\
    p_ofile (the_proc (set_k k2 s1) (y_me s)) = p_ofile (the_proc s1 (y_me s))) as (O1 & O2 & O3 & O4 & O5).
  { unfold the_proc. cbn. rewrite G1, Z.eqb_refl. unfold load_user, own_fields. cbn. now rewrite E. }
  split; try done; [intros j Hj; rewrite Ho by done; auto|congruence|destruct G7 as (? & ? & ?); split; [|split]; congruence|].
  intros fd. now rewrite O5.
Qed.

(** A change of the entry of the running process. *)
Lemma put_proc_user f s :
  let x := f (the_proc s (y_me s)) in let x' := the_proc (put_proc (y_me s) f s) (y_me s) in
  own_fields x' = own_fields x /\ p_sz x' = p_sz x /\ p_trapframe x' = p_trapframe x /\ p_killed x' = Z.b2z (truthy (p_killed x)) /\
  p_ofile x' = p_ofile x /\ p_cwd x' = p_cwd x.
Proof.
  intros x x'. unfold x', the_proc at 1 2 3 4 5 6. change (y_me (put_proc (y_me s) f s)) with (y_me s). rewrite Z.eqb_refl.
  unfold load_user, own_fields, put_proc. cbn. rewrite Z.eqb_refl, fn_lookup_insert. done.
Qed.

Lemma killed_bool s : Z.b2z (truthy (p_killed (the_proc s (y_me s)))) = p_killed (the_proc s (y_me s)).
Proof. unfold the_proc. rewrite Z.eqb_refl. cbn. now destruct (up_killed _). Qed.

Lemma given_put k k' s s1 f :
  given_up k s s1 ->
  (forall x, own_fields (f x) = own_fields x /\ p_sz (f x) = p_sz x /\ p_trapframe (f x) = p_trapframe x /\ p_killed (f x) = p_killed x) ->
  (forall x, (forall fd, p_ofile x fd = if (0 <=? fd) && (fd <? k) then NULL else p_ofile (the_proc s (y_me s)) fd) ->
     forall fd, p_ofile (f x) fd = if (0 <=? fd) && (fd <? k') then NULL else p_ofile (the_proc s (y_me s)) fd) ->
  given_up k' s (put_proc (y_me s) f s1).
Proof.
  intros [G1 G2 G3 G4 G5 G6 (G7 & G8 & G9) G10] Hf Ho. pose proof (put_proc_user f s1) as P. cbn zeta in P. rewrite G1 in P.
  destruct P as (P1 & P2 & P3 & P4 & P5 & _), (Hf (the_proc s1 (y_me s))) as (F1 & F2 & F3 & F4).
  pose proof (killed_bool s1) as Hk. rewrite G1 in Hk.
  split; try done; [|congruence|split; [congruence|split; [congruence|rewrite P4, F4; congruence]]|].
  - intros j Hj. rewrite put_proc_me_other by congruence. auto.
  - intros fd. rewrite P5. now apply Ho.
Qed.

Lemma close_files_given s s1 : close_files (y_me s) s = Ok tt s1 -> given_up NOFILE s s1.
Proof.
  apply (for_loop_keeps (fun k s1 => 0 <= k /\ given_up k s s1) _ (Z.to_nat NOFILE) 0 s s1); [|split; [done|apply given_refl]].
  intros k s2 s3 Hk [_ G] E. split; [lia|]. apply bind_ok_inv in E as (f & ? & [= <- <-] & E).
  pose proof (gu_files _ _ _ G k) as Hfd. destruct (Z.eqb_spec (p_ofile (the_proc s2 (y_me s)) k) NULL) as [En|En]; cbn [negb] in E.
  - injection E as <-. destruct G as [G1 G2 G3 G4 G5 G6 G7 G8]. split; try done. intros fd. rewrite G8.
    destruct (Z.eq_dec fd k) as [->|Hne]; [|repeat case_goal; zbool; lia || done]. rewrite <- G8, En. zdecide. done.
  - apply bind_ok_inv in E as ([] & s4 & E4 & E5). pose proof (given_kop k s s2 _ s4 G (fileclose_keeps _) E4) as G'.
    injection E5 as <-. refine (given_put k (k + 1) s s4 (set_pofile k NULL) G' _ _); [done|].
    intros x Hx fd. cbn. unfold insert, fn_insert. case_decide as Hd; [subst fd; now zdecide|]. rewrite Hx. repeat case_goal; zbool; lia || done.
Qed.

Lemma exit_files_given s s1 :
  exit_files (y_me s) s = Ok tt s1 -> given_up NOFILE s s1 /\ p_cwd (the_proc s1 (y_me s)) = NULL.
Proof.
  intros ([] & s2 & E2 & E)%bind_ok_inv. pose proof (close_files_given s s2 E2) as G. clear E2.
  apply bind_ok_inv in E as (cwd & ? & [= <- <-] & E). apply bind_ok_inv in E as ([] & s3 & E3 & E).
  apply bind_ok_inv in E as ([] & s4 & E4 & E). apply bind_ok_inv in E as ([] & s5 & E5 & E).
  pose proof (given_kop _ _ _ _ _ G (keeps_fs _) E3) as G3. pose proof (given_kop _ _ _ _ _ G3 (keeps_fs _) E4) as G4.
  pose proof (given_kop _ _ _ _ _ G4 (keeps_fs _) E5) as G5. injection E as <-. split.
  - exact (given_put NOFILE NOFILE s s5 (set_cwd NULL) G5 ltac:(done) ltac:(done)).
  - pose proof (put_proc_user (set_cwd NULL) s5) as P. cbn zeta in P. rewrite (gu_me _ _ _ G5) in P. apply P.
Qed.

(** C33: [exit] up to the call of [sched].  For init it panics.  For any other
    process, once [fileclose] of its descriptors and [iput] of its directory have
    returned, in a state [s1] without spinlocks, it goes on to its end: every
    descriptor and the directory are gone; the process is a zombie with its exit
    status and is otherwise as it was, with its size, page table, trapframe, pid,
    parent and kernel stack; it holds its own lock and no other, so [sched]
    accepts it; every child of it is now init's and nobody has it as parent; a
    process that slept is runnable if it waited for its children and is the
    parent, or is init and was given a child; nothing else changed, in the file
    layer, in memory or in the entry of another process. *)
Theorem exit_leaves_zombie s status :
  let p := y_me s in let init := y_initproc s in let parent := p_parent (the_proc s p) in
  (p = init -> exit_begin status s = Panic "init exiting") /\
  forall s1, p <> init -> in_table p = true -> parent <> p -> exit_files p s = Ok tt s1 -> locks s1 = ∅ ->
  exists s', exit_begin status s = Ok tt s' /\ sched s' = Ok tt s' /\
    y_k s' = fset Locks.held {[proc_lock p]} (y_k s1) /\
    (y_me s' = p /\ y_initproc s' = init /\ y_nextpid s' = y_nextpid s /\ y_ticks s' = y_ticks s) /\
    the_proc s' p = set_state ZOMBIE (set_xstate status (the_proc s1 p)) /\
    (own_fields (the_proc s1 p) = own_fields (the_proc s p) /\ p_sz (the_proc s1 p) = p_sz (the_proc s p) /\
     p_trapframe (the_proc s1 p) = p_trapframe (the_proc s p) /\ p_cwd (the_proc s1 p) = NULL /\
     forall fd, 0 <= fd < NOFILE -> p_ofile (the_proc s1 p) fd = NULL) /\
    (forall j, in_table j = true -> p_parent (the_proc s' j) <> p) /\
    forall j, in_table j = true -> j <> p ->
      let x := the_proc s j in
      let woken := p_state x = SLEEPING /\ (p_chan x = ChanProc parent \/ p_chan x = ChanProc init /\ has_child p NPROC s = true) in
      the_proc s' j = set_parent (if p_parent x =? p then init else p_parent x) (if decide woken then set_state RUNNABLE x else x).
Proof.
  intros p init parent. unfold exit_begin. do 2 (erewrite bind_ok by reflexivity). fold p init.
  split; [intros ->; now rewrite Z.eqb_refl|]. intros s1 Hpi Hin Hpp E Hl. rewrite (proj2 (Z.eqb_neq p init) Hpi), (bind_ok _ _ _ _ _ E).
  destruct (exit_files_given s s1 E) as [[G1 G2 G3 G4 G5 G6 (G7 & G8 & _) G10] Hcwd]. fold p in G1, G5, G6, G7, G8, G10, Hcwd. fold init in G2.
  assert (p_parent (the_proc s1 p) = parent) as Epar by (unfold own_fields in G6; unfold parent; congruence).
  assert (forall j, p_parent (the_proc s1 j) = p_parent (the_proc s j)) as Hpar.
  { intros j. destruct (Z.eq_dec j p) as [->|Hj]; [exact Epar|now rewrite G5]. }
  destruct (exit_table_ok s1 status) as (s' & E' & Hk & Hy & Hz & Hj); try (rewrite ?G1, ?G2, ?Epar; done).
  rewrite G1, ?G2, ?G3, ?G4, ?Epar in *. exists s'. split; [exact E'|].
  assert (has_child p NPROC s1 = has_child p NPROC s) as Hch.
  { apply eq_true_iff_eq. rewrite !has_child_spec. now setoid_rewrite Hpar. }
  destruct Hy as (Hme & Hyi & Hyn & Hyt).
  split; [apply sched_ok; rewrite Hme; [unfold locks; now rewrite Hk|now rewrite Hz]|].
  split; [exact Hk|]. split; [done|]. split; [exact Hz|].
  split; [split; [done|split; [done|split; [done|split; [done|intros fd Hfd; rewrite G10; now zdecide]]]]|].
  assert (forall j, in_table j = true -> j <> p -> p_parent (the_proc s' j) = if p_parent (the_proc s j) =? p then init else p_parent (the_proc s j)) as Hq.
  { intros j Hjt Hne. rewrite Hj by done. cbn. now rewrite Hpar. }
  split; [|intros j Hjt Hne; rewrite Hj by done; cbn zeta; now rewrite Hch, G5].
  intros j Hjt. destruct (Z.eq_dec j p) as [->|Hne]; [rewrite Hz; cbn; now rewrite Epar|].
  rewrite Hq by done. case_goal; zbool; congruence.
Qed.
End table.

(** Process 0 is init, 1 waits for its child 2, and 2 has the child 3. *)
Definition demo_proc (st : procstate) (c : pchan) (pid parent : Z) : proc :=
  Proc st c 0 0 pid parent 0 0 0 0 0 0 (fun _ => NULL) 0.

Definition demo_table (i : Z) : proc :=
  match i with
  | 0 => demo_proc SLEEPING (ChanProc 0) 1 NULL
  | 1 => demo_proc SLEEPING (ChanProc 1) 2 0
  | 2 => demo_proc RUNNING ChanNone 3 1
  | 3 => demo_proc RUNNABLE ChanNone 4 2
  | _ => demo_proc UNUSED ChanNone 0 NULL
  end.

(** Process 2 has one file open, which another process has open too. *)
Definition proc_demo : pst dview memory :=
  PSt (KSt demo_fs (fun _ => File FD_INODE 2 1 0 0 0 0 0) (fun _ => new_pipe) (UProc 0 0 (fun fd => if fd =? 1 then 5 else NULL) false))
    demo_table 2 5 0 0.

Definition proc_given : pst dview memory := after (exit_files 2) proc_demo.

Lemma exit_leaves_zombie_witness : exists s',
  exit_begin 7 proc_demo = Ok tt s' /\ p_state (the_proc s' 2) = ZOMBIE /\ fl_ref (k_file (y_k s') 5) = 1 /\
  p_state (the_proc s' 0) = RUNNABLE /\ p_state (the_proc s' 1) = RUNNABLE /\ p_parent (the_proc s' 3) = 0.
Proof.
  assert (exit_files 2 proc_demo = Ok tt proc_given) as E by (vm_compute; reflexivity).
  destruct (proj2 (exit_leaves_zombie proc_demo 7) proc_given) as (s' & E' & _ & Hk & _ & Hz & _ & _ & Hj);
    [discriminate|reflexivity|discriminate|exact E|vm_compute; reflexivity|].
  exists s'. split; [exact E'|]. split; [change (y_me proc_demo) with 2 in Hz; now rewrite Hz|].
  split; [rewrite Hk; vm_compute; reflexivity|].
  split; [rewrite (Hj 0 eq_refl ltac:(discriminate)); vm_compute; reflexivity|].
  split; [rewrite (Hj 1 eq_refl ltac:(discriminate)); vm_compute; reflexivity|].
  rewrite (Hj 3 eq_refl ltac:(discriminate)). vm_compute. reflexivity.
Defined.
