(* ===== verification/Exec.v ===== *)
(** * kernel/exec.c: exec, and sys_exec of sysfile.c

    The new image is built in a page table of its own and replaces that of the
    process only when nothing can fail any more. *)

From stdpp Require Import base gmap numbers strings functions list.
From S2P Require Import Prelude Mem Trapframe Block StringC Riscv Kalloc Vm Spinlock Locks Bio Log BlockIO Fs Pipe File Sysfile Proc.

Open Scope Z_scope.

Definition USERSTACK : Z := 2.
Definition ELF_MAGIC : Z := 0x464C457F.
Definition ELF_PROG_LOAD : Z := 1.

Record elfhdr := Elfhdr {
  e_magic : Z;
  e_elf : list Z;
  e_type : Z;
  e_machine : Z;
  e_version : Z;
  e_entry : Z;
  e_phoff : Z;
  e_shoff : Z;
  e_flags : Z;
  e_ehsize : Z;
  e_phentsize : Z;
  e_phnum : Z;
  e_shentsize : Z;
  e_shnum : Z;
  e_shstrndx : Z;
}.

Definition get_elfhdr (m : memory) (a : Z) : elfhdr :=
  Elfhdr (load32 m a) (rd_bytes m (a + 4) 12) (load16 m (a + 16)) (load16 m (a + 18)) (load32 m (a + 20)) (load64 m (a + 24))
    (load64 m (a + 32)) (load64 m (a + 40)) (load32 m (a + 48)) (load16 m (a + 52)) (load16 m (a + 54)) (load16 m (a + 56))
    (load16 m (a + 58)) (load16 m (a + 60)) (load16 m (a + 62)).

Record proghdr := Proghdr {
  ph_type : Z;
  ph_flags : Z;
  ph_off : Z;
  ph_vaddr : Z;
  ph_paddr : Z;
  ph_filesz : Z;
  ph_memsz : Z;
  ph_align : Z;
}.

Definition get_proghdr (m : memory) (a : Z) : proghdr :=
  Proghdr (load32 m a) (load32 m (a + 4)) (load64 m (a + 8)) (load64 m (a + 16)) (load64 m (a + 24)) (load64 m (a + 32))
    (load64 m (a + 40)) (load64 m (a + 48)).

Definition SIZEOF_ELFHDR : Z := 64.
Definition SIZEOF_PROGHDR : Z := 56.

(** The local variables [elf], [ph] and [ustack] on the kernel stack. *)
Definition exec_elf : Z := KSTACK 0 + 640.
Definition exec_ph : Z := KSTACK 0 + 704.
Definition exec_ustack : Z := KSTACK 0 + 768.

Definition flags2perm (flags : Z) : Z :=
  let perm := 0 in
  let perm := if truthy (Z.land flags 0x1) then PTE_X else perm in
  if truthy (Z.land flags 0x2) then Z.lor perm PTE_W else perm.

(** The loop that finds the last element of [path]; a path has less than
    [MAXPATH] bytes. *)
Fixpoint last_elem (fuel : nat) (m : memory) (s last : Z) : Z :=
  match fuel with
  | O => last
  | S fuel' =>
      if truthy (rd m s) then last_elem fuel' m (s + 1) (if rd m s =? slash then s + 1 else last) else last
  end.

Section ops.
Context {B U : Type} `{BlockIO B} `{UserIO U} `{PageAllocator U}.
Local Abbreviation P := (pst B U).
Context (trampoline : Z) (name_addr : Z -> Z).

Definition get_mem : M P memory := gets (fun s => f_mem (k_fs (y_k s))).

(** The loop of [loadseg] from [i]. *)
Fixpoint loadseg_loop (fuel : nat) (pagetable va ip offset sz i : Z) : M P Z :=
  match fuel with
  | O => diverge
  | S fuel' =>
      if i <? sz then
        pa ← vm (walkaddr pagetable (u64 (va + i)));
        if pa =? 0 then panic "loadseg: address should exist" else
        let n := if sz - i <? PGSIZE then sz - i else PGSIZE in
        r ← kop (fs (readi ip false pa (u32 (offset + i)) n));
        if negb (r =? n) then mret (-1) else
        loadseg_loop fuel' pagetable va ip offset sz (u32 (i + PGSIZE))
      else mret 0
  end.

Definition loadseg (pagetable va ip offset sz : Z) : M P Z :=
  loadseg_loop (Z.to_nat (sz / PGSIZE + 2)) pagetable va ip offset sz 0.

(** The loop over [k] program headers from [off]: whether all of them are
    loaded, and [sz]. *)
Fixpoint load_segments (k : nat) (ip pagetable off sz : Z) : M P (bool * Z) :=
  match k with
  | O => mret (true, sz)
  | S k' =>
      r ← kop (fs (readi ip false exec_ph (u32 off) SIZEOF_PROGHDR));
      if negb (r =? SIZEOF_PROGHDR) then mret (false, sz) else
      m ← get_mem;
      let ph := get_proghdr m exec_ph in
      if negb (ph_type ph =? ELF_PROG_LOAD) then load_segments k' ip pagetable (i32 (off + SIZEOF_PROGHDR)) sz else
      if ph_memsz ph <? ph_filesz ph then mret (false, sz) else
      if u64 (ph_vaddr ph + ph_memsz ph) <? ph_vaddr ph then mret (false, sz) else
      if negb (ph_vaddr ph mod PGSIZE =? 0) then mret (false, sz) else
      sz1 ← vm (uvmalloc pagetable sz (u64 (ph_vaddr ph + ph_memsz ph)) (flags2perm (ph_flags ph)));
      if sz1 =? 0 then mret (false, sz) else
      r ← loadseg pagetable (ph_vaddr ph) ip (u32 (ph_off ph)) (u32 (ph_filesz ph));
      if r <? 0 then mret (false, sz1) else
      load_segments k' ip pagetable (i32 (off + SIZEOF_PROGHDR)) sz1
  end.

(** The loop over [argv]: [argc] and [sp], or [None] for [goto bad]. *)
Fixpoint push_args (argv : list Z) (pagetable stackbase argc sp : Z) : M P (option (Z * Z)) :=
  match argv with
  | [] => mret (Some (argc, sp))
  | a :: argv' =>
      if MAXARG <=? argc then mret None else
      m ← get_mem;
      let sp := u64 (sp - (strlen m a + 1)) in
      let sp := sp - sp mod 16 in
      if sp <? stackbase then mret None else
      r ← vm (copyout pagetable sp a (strlen m a + 1));
      if r <? 0 then mret None else
      mem_op (fun m => store64 m (exec_ustack + 8 * argc) sp);;
      push_args argv' pagetable stackbase (argc + 1) sp
  end.

(** [bad:] with [ip] the locked inode, or [NULL]. *)
Definition exec_bad (pagetable sz ip : Z) : M P Z :=
  (if truthy pagetable then proc_freepagetable pagetable sz else mret tt);;
  (if negb (ip =? NULL) then kop (fs (iunlockput ip));; kop (fs (io io_end_op)) else mret tt);;
  mret (-1).

(** After the last failure: the registers, the name and the new image. *)
Definition exec_commit (path entry pagetable sz sp argc : Z) : M P Z :=
  me ← gets y_me;
  p ← gets (fun s => the_proc s me);
  mem_op (fun m => tf_set m (p_trapframe p) tf_a1 sp);;
  mem_op (fun m => safestrcpy m (name_addr me) (last_elem (Z.to_nat MAXPATH) m path path) 16);;
  upd_proc me (fun p => set_sz sz (set_pagetable pagetable p));;
  mem_op (fun m => tf_set (tf_set m (p_trapframe p) tf_epc entry) (p_trapframe p) tf_sp sp);;
  proc_freepagetable (p_pagetable p) (p_sz p);;
  mret (i32 argc).

(** The stack of the new image, from [sz = PGROUNDUP(sz)] on. *)
Definition exec_stack (path entry pagetable sz : Z) (argv : list Z) : M P Z :=
  let sz := PGROUNDUP sz in
  sz1 ← vm (uvmalloc pagetable sz (u64 (sz + (USERSTACK + 1) * PGSIZE)) PTE_W);
  if sz1 =? 0 then exec_bad pagetable sz NULL else
  let sz := sz1 in
  vm (uvmclear pagetable (u64 (sz - (USERSTACK + 1) * PGSIZE)));;
  let stackbase := u64 (sz - USERSTACK * PGSIZE) in
  r ← push_args argv pagetable stackbase 0 sz;
  match r with
  | None => exec_bad pagetable sz NULL
  | Some (argc, sp) =>
      mem_op (fun m => store64 m (exec_ustack + 8 * argc) 0);;
      let sp := u64 (sp - (argc + 1) * 8) in
      let sp := sp - sp mod 16 in
      if sp <? stackbase then exec_bad pagetable sz NULL else
      r ← vm (copyout pagetable sp exec_ustack ((argc + 1) * 8));
      if r <? 0 then exec_bad pagetable sz NULL else
      exec_commit path entry pagetable sz sp argc
  end.

Definition exec (path : Z) (argv : list Z) : M P Z :=
  me ← gets y_me;
  kop (fs (io io_begin_op));;
  ip ← kop (fs (namei path));
  if ip =? NULL then kop (fs (io io_end_op));; mret (-1) else
  kop (fs (ilock ip));;
  r ← kop (fs (readi ip false exec_elf 0 SIZEOF_ELFHDR));
  if negb (r =? SIZEOF_ELFHDR) then exec_bad 0 0 ip else
  m ← get_mem;
  let elf := get_elfhdr m exec_elf in
  if negb (e_magic elf =? ELF_MAGIC) then exec_bad 0 0 ip else
  pagetable ← proc_pagetable trampoline me;
  if pagetable =? 0 then exec_bad 0 0 ip else
  r ← load_segments (Z.to_nat (e_phnum elf)) ip pagetable (i32 (e_phoff elf)) 0;
  if negb r.1 then exec_bad pagetable r.2 ip else
  kop (fs (iunlockput ip));;
  kop (fs (io io_end_op));;
  exec_stack path (e_entry elf) pagetable r.2 argv.

Definition sys_exec : M P Z :=
  uargv ← kop (argaddr 1);
  r ← kop (argstr 0 sys_path MAXPATH);
  if r <? 0 then mret (-1) else
  a ← kop (fetch_args (Z.to_nat MAXARG) uargv []);
  match a with
  | inl argv =>
      ret ← exec sys_path argv;
      kop (free_args argv);;
      mret ret
  | inr argv =>
      kop (free_args argv);;
      mret (-1)
  end.
End ops.
