(* ===== verification/Syscall.v ===== *)
(** * kernel/sysproc.c and the dispatcher of kernel/syscall.c

    The system calls on processes, and the table from which [syscall] takes the
    function for the number in [a7].  As in Proc.v, a call that would sleep until
    another thread acts is [Diverge]. *)

From stdpp Require Import base gmap numbers strings functions list.
From S2P Require Import Prelude Mem Trapframe Block StringC Riscv Kalloc Vm Spinlock Locks Bio Log BlockIO Fs Pipe File Sysfile Proc Exec.

Open Scope Z_scope.

Definition tickslock : lockid := ("time"%string, 0).

Definition SYS_fork : Z := 1.
Definition SYS_exit : Z := 2.
Definition SYS_wait : Z := 3.
Definition SYS_pipe : Z := 4.
Definition SYS_read : Z := 5.
Definition SYS_kill : Z := 6.
Definition SYS_exec : Z := 7.
Definition SYS_fstat : Z := 8.
Definition SYS_chdir : Z := 9.
Definition SYS_dup : Z := 10.
Definition SYS_getpid : Z := 11.
Definition SYS_sbrk : Z := 12.
Definition SYS_sleep : Z := 13.
Definition SYS_uptime : Z := 14.
Definition SYS_open : Z := 15.
Definition SYS_write : Z := 16.
Definition SYS_mknod : Z := 17.
Definition SYS_unlink : Z := 18.
Definition SYS_link : Z := 19.
Definition SYS_mkdir : Z := 20.
Definition SYS_close : Z := 21.

Section ops.
Context {B U : Type} `{BlockIO B} `{UserIO U} `{PageAllocator U}.
Local Abbreviation P := (pst B U).

(** As in Proc.v, Exec.v and Sysfile.v. *)
Context (trampoline forkret_pc : Z) (name_addr : Z -> Z).
Context (devsw_read devsw_write : Z -> option (Z -> Z -> M (kst B U) Z)).
Context (dot dotdot : Z).

(** ** sysproc.c *)

Definition sys_exit : M P Z :=
  n ← kop (argint 0);
  exit n;;
  mret 0.

Definition sys_getpid : M P Z :=
  me ← gets y_me;
  gets (fun s => p_pid (the_proc s me)).

Definition sys_fork : M P Z := fork trampoline forkret_pc name_addr.

Definition sys_wait : M P Z :=
  p ← kop (argaddr 0);
  wait name_addr p.

Definition sys_sbrk : M P Z :=
  n ← kop (argint 0);
  me ← gets y_me;
  addr ← gets (fun s => p_sz (the_proc s me));
  r ← growproc n;
  if r <? 0 then mret (-1) else mret addr.

(** A round of the loop of [sys_sleep], with [tickslock] held: [None] to sleep
    on [ticks]. *)
Definition sleep_round (ticks0 n : Z) : M P (option Z) :=
  ticks ← gets y_ticks;
  if u32 (ticks - ticks0) <? n then
    me ← gets y_me;
    k ← killed me;
    if truthy k then unlock tickslock;; mret (Some (-1)) else mret None
  else
    unlock tickslock;;
    mret (Some 0).

Definition sys_sleep : M P Z :=
  n ← kop (argint 0);
  let n := if n <? 0 then 0 else n in
  lock tickslock;;
  ticks0 ← gets y_ticks;
  r ← sleep_round ticks0 n;
  match r with
  | Some r => mret r
  | None => diverge
  end.

Definition sys_kill : M P Z :=
  pid ← kop (argint 0);
  kill pid.

Definition sys_uptime : M P Z :=
  lock tickslock;;
  xticks ← gets y_ticks;
  unlock tickslock;;
  mret xticks.

(** ** The dispatcher *)

Definition syscalls (num : Z) : option (M P Z) :=
  if num =? SYS_fork then Some sys_fork else
  if num =? SYS_exit then Some sys_exit else
  if num =? SYS_wait then Some sys_wait else
  if num =? SYS_pipe then Some (kop sys_pipe) else
  if num =? SYS_read then Some (kop (sys_read devsw_read)) else
  if num =? SYS_kill then Some sys_kill else
  if num =? SYS_exec then Some (sys_exec trampoline name_addr) else
  if num =? SYS_fstat then Some (kop sys_fstat) else
  if num =? SYS_chdir then Some (kop sys_chdir) else
  if num =? SYS_dup then Some (kop sys_dup) else
  if num =? SYS_getpid then Some sys_getpid else
  if num =? SYS_sbrk then Some sys_sbrk else
  if num =? SYS_sleep then Some sys_sleep else
  if num =? SYS_uptime then Some sys_uptime else
  if num =? SYS_open then Some (kop (sys_open dot dotdot)) else
  if num =? SYS_write then Some (kop (sys_write devsw_write)) else
  if num =? SYS_mknod then Some (kop (sys_mknod dot dotdot)) else
  if num =? SYS_unlink then Some (kop (sys_unlink dot dotdot)) else
  if num =? SYS_link then Some (kop sys_link) else
  if num =? SYS_mkdir then Some (kop (sys_mkdir dot dotdot)) else
  if num =? SYS_close then Some (kop sys_close) else
  None.

(** [p->trapframe->f = v] of the running process. *)
Definition set_reg (f : tf_field) (v : Z) : M P unit :=
  tf ← gets (fun s => up_trapframe (k_proc (y_k s)));
  mem_op (fun m => tf_set m tf f v).

Definition syscall : M P unit :=
  a7 ← gets (fun s => tf_reg tf_a7 (y_k s));
  let num := i32 a7 in
  match (if 0 <? num then syscalls num else None) with
  | Some f =>
      r ← f;
      set_reg tf_a0 r
  | None => set_reg tf_a0 (-1)
  end.
End ops.
