(* ===== verification/Trap.v ===== *)
(** * kernel/trap.c

    Traps from user space and from the kernel, with the control registers of the
    hart.  The interrupt handlers of the devices and the PLIC are arguments. *)

From stdpp Require Import base gmap numbers strings functions list.
From S2P Require Import Prelude Mem Trapframe Block StringC Riscv Kalloc Vm Spinlock Locks Bio Log BlockIO Fs Pipe File Sysfile Proc Exec Syscall.

Open Scope Z_scope.

Definition SSTATUS_SPP : Z := Z.shiftl 1 8.
Definition SSTATUS_SPIE : Z := Z.shiftl 1 5.
Definition SSTATUS_SIE : Z := Z.shiftl 1 1.

Definition UART0_IRQ : Z := 10.
Definition VIRTIO0_IRQ : Z := 1.

Record csrs := Csrs {
  sstatus : Z;
  sepc : Z;
  scause : Z;
  stvec : Z;
  satp : Z;
  stimecmp : Z;
  time : Z;
  tp : Z;
}.

Definition set_sstatus (v : Z) (c : csrs) : csrs := Csrs v (sepc c) (scause c) (stvec c) (satp c) (stimecmp c) (time c) (tp c).
Definition set_sepc (v : Z) (c : csrs) : csrs := Csrs (sstatus c) v (scause c) (stvec c) (satp c) (stimecmp c) (time c) (tp c).
Definition set_stvec (v : Z) (c : csrs) : csrs := Csrs (sstatus c) (sepc c) (scause c) v (satp c) (stimecmp c) (time c) (tp c).
Definition set_stimecmp (v : Z) (c : csrs) : csrs := Csrs (sstatus c) (sepc c) (scause c) (stvec c) (satp c) v (time c) (tp c).

Definition intr_get (c : csrs) : bool := truthy (Z.land (sstatus c) SSTATUS_SIE).
Definition csr_intr_on (c : csrs) : csrs := set_sstatus (Z.lor (sstatus c) SSTATUS_SIE) c.
Definition csr_intr_off (c : csrs) : csrs := set_sstatus (Z.land (sstatus c) (u64 (Z.lnot SSTATUS_SIE))) c.

(** The kernel and the hart the trap is on. *)
Record tst (B U : Type) := TSt { z_p : pst B U; z_csr : csrs }.
Arguments TSt {B U}.
Arguments z_p {B U}.
Arguments z_csr {B U}.

Section ops.
Context {B U : Type} `{BlockIO B} `{UserIO U} `{PageAllocator U}.
Local Abbreviation T := (tst B U).

(** As in Syscall.v, and the entry points of trampoline.S, kernelvec.S and
    [usertrap]. *)
Context (trampoline forkret_pc : Z) (name_addr : Z -> Z).
Context (devsw_read devsw_write : Z -> option (Z -> Z -> M (kst B U) Z)).
Context (dot dotdot : Z).
Context (kernelvec uservec userret usertrap_pc : Z).

(** plic.c, uart.c and virtio_disk.c. *)
Context (plic_claim : M T Z) (plic_complete : Z -> M T unit) (uartintr virtio_disk_intr : M T unit).

Definition pop {A} (c : M (pst B U) A) : M T A := fun s =>
  match c (z_p s) with
  | Ok a x => Ok a (TSt x (z_csr s))
  | Panic msg => Panic msg
  | Diverge => Diverge
  end.

Definition csr (f : csrs -> csrs) : M T unit := modify (fun s => TSt (z_p s) (f (z_csr s))).

(** The address of [ticks]. *)
Context (ticks_addr : Z).

Definition clockintr : M T unit :=
  id ← gets (fun s => tp (z_csr s));
  (if id =? 0 then
     pop (lock tickslock;;
          modify (fun s => PSt (y_k s) (y_proc s) (y_me s) (y_nextpid s) (y_initproc s) (u32 (y_ticks s + 1)));;
          wakeup (ChanAddr ticks_addr);;
          unlock tickslock)
   else mret tt);;
  csr (fun c => set_stimecmp (u64 (time c + 1000000)) c).

Definition devintr : M T Z :=
  cause ← gets (fun s => scause (z_csr s));
  if cause =? 0x8000000000000009 then
    irq ← plic_claim;
    (if irq =? UART0_IRQ then uartintr
     else if irq =? VIRTIO0_IRQ then virtio_disk_intr
     else mret tt);;
    (if truthy irq then plic_complete irq else mret tt);;
    mret 1
  else if cause =? 0x8000000000000005 then
    clockintr;;
    mret 2
  else mret 0.

(** The process is chosen again at once: what other threads do meanwhile is not
    part of this thread's run. *)
Definition yield : M T unit :=
  pop yield_begin;;
  pop (me ← gets y_me; upd_proc me (set_state RUNNING));;
  pop yield_end.

(** The jump to [userret]: the satp argument, with everything else in the
    registers and the trapframe. *)
Definition usertrapret : M T Z :=
  csr csr_intr_off;;
  csr (set_stvec (u64 (TRAMPOLINE + (uservec - trampoline))));;
  me ← gets (fun s => y_me (z_p s));
  c ← gets z_csr;
  p ← gets (fun s => the_proc (z_p s) me);
  pop (set_reg tf_kernel_satp (satp c));;
  pop (set_reg tf_kernel_sp (p_kstack p + PGSIZE));;
  pop (set_reg tf_kernel_trap usertrap_pc);;
  pop (set_reg tf_kernel_hartid (tp c));;
  csr (fun c => set_sstatus (Z.lor (Z.land (sstatus c) (u64 (Z.lnot SSTATUS_SPP))) SSTATUS_SPIE) c);;
  epc ← gets (fun s => tf_reg tf_epc (y_k (z_p s)));
  csr (set_sepc epc);;
  mret (MAKE_SATP (p_pagetable p)).

Definition exit_if_killed : M T unit :=
  me ← gets (fun s => y_me (z_p s));
  k ← pop (killed me);
  if truthy k then pop (exit (-1)) else mret tt.

Definition usertrap : M T Z :=
  c ← gets z_csr;
  if truthy (Z.land (sstatus c) SSTATUS_SPP) then panic "usertrap: not from user mode" else
  csr (set_stvec kernelvec);;
  pop (set_reg tf_epc (sepc c));;
  which_dev ←
    (if scause c =? 8 then
       exit_if_killed;;
       epc ← gets (fun s => tf_reg tf_epc (y_k (z_p s)));
       pop (set_reg tf_epc (epc + 4));;
       csr csr_intr_on;;
       pop (syscall trampoline forkret_pc name_addr devsw_read devsw_write dot dotdot);;
       mret 0
     else
       w ← devintr;
       (if negb (w =? 0) then mret tt else
        me ← gets (fun s => y_me (z_p s));
        pop (setkilled me));;
       mret w);
  exit_if_killed;;
  (if which_dev =? 2 then yield else mret tt);;
  usertrapret.

Definition kerneltrap : M T unit :=
  c ← gets z_csr;
  if Z.land (sstatus c) SSTATUS_SPP =? 0 then panic "kerneltrap: not from supervisor mode" else
  if intr_get c then panic "kerneltrap: interrupts enabled" else
  which_dev ← devintr;
  if which_dev =? 0 then panic "kerneltrap" else
  me ← gets (fun s => y_me (z_p s));
  (if (which_dev =? 2) && negb (me =? NULL) then yield else mret tt);;
  csr (set_sepc (sepc c));;
  csr (set_sstatus (sstatus c)).
End ops.
