(* ===== verification/TrapThms.v ===== *)
(** * kernel/trap.c: a system call from trap to return *)

From stdpp Require Import base gmap numbers strings functions list.
From S2P Require Import Prelude Mem Trapframe Block StringC Riscv Kalloc Vm Spinlock Locks Bio Log BlockIO Fs FsDemo Pipe File FileThms Sysfile SysfileThms Proc ProcThms Exec Syscall Trap.

Open Scope Z_scope.

Section trap.
Context {B U : Type} `{BlockIO B} `{UserIO U} `{PageAllocator U} `{!UserLaws U}.
Implicit Types (s : pst B U).

Definition pmem s : memory := f_mem (k_fs (y_k s)).
Definition ptf s : Z := up_trapframe (k_proc (y_k s)).
Definition reg (f : tf_field) s : Z := tf_reg f (y_k s).

Definition with_mem (m : memory) s : pst B U := set_k (set_fs (Fs.set_mem m (k_fs (y_k s))) (y_k s)) s.

(** The state with a register of the trapframe set. *)
Definition with_reg (f : tf_field) (v : Z) s : pst B U := with_mem (tf_set (pmem s) (ptf s) f v) s.

Lemma set_reg_ok f v s : set_reg f v s = Ok tt (with_reg f v s).
Proof. done. Qed.

Lemma pmem_with_reg f v s : pmem (with_reg f v s) = tf_set (pmem s) (ptf s) f v.
Proof. apply u_mem_set. Qed.

Lemma reg_with_reg f g v s : reg g (with_reg f v s) = if decide (g = f) then u64 v else reg g s.
Proof.
  unfold reg, tf_reg. change (f_mem _) with (pmem (with_reg f v s)) at 1. rewrite pmem_with_reg.
  change (up_trapframe _) with (ptf s). case_decide as E; [subst; apply tf_get_set|now apply tf_get_set_ne].
Qed.

Lemma the_proc_with_reg f v s i : the_proc (with_reg f v s) i = the_proc s i.
Proof. unfold the_proc, load_user. cbn. now rewrite u_pagetable_mem. Qed.

Lemma killed_ok s i : proc_lock i ∉ locks s -> killed i s = Ok (p_killed (the_proc s i)) s.
Proof.
  intros Hl. unfold killed. rewrite (bind_ok _ _ _ _ _ (plock_ok _ _ Hl)). erewrite bind_ok by reflexivity.
  rewrite (bind_ok _ _ _ _ _ (punlock_ok (proc_lock i) (with_locks ({[proc_lock i]} ∪ locks s) s) (elem_of_union_l _ _ _ (proj2 (elem_of_singleton _ _) eq_refl)))).
  transitivity (Ok (p_killed (the_proc s i)) (with_locks (({[proc_lock i]} ∪ locks s) ∖ {[proc_lock i]}) s)); [reflexivity|].
  now rewrite lock_back, with_locks_same.
Qed.

(** ** The path of a system call *)

Context (trampoline forkret_pc : Z) (name_addr : Z -> Z).
Context (devsw_read devsw_write : Z -> option (Z -> Z -> M (kst B U) Z)).
Context (dot dotdot kernelvec uservec userret usertrap_pc ticks_addr : Z).
Context (plic_claim : M (tst B U) Z) (plic_complete : Z -> M (tst B U) unit) (uartintr virtio_disk_intr : M (tst B U) unit).

Local Abbreviation the_syscall := (syscall trampoline forkret_pc name_addr devsw_read devsw_write dot dotdot).
Local Abbreviation the_table := (syscalls trampoline forkret_pc name_addr devsw_read devsw_write dot dotdot).
Local Abbreviation the_usertrap :=
  (usertrap trampoline forkret_pc name_addr devsw_read devsw_write dot dotdot kernelvec uservec usertrap_pc
     plic_claim plic_complete uartintr virtio_disk_intr ticks_addr).

Lemma pop_ok {A} (c : M (pst B U) A) s csr a s' : c s = Ok a s' -> pop c (TSt s csr) = Ok a (TSt s' csr).
Proof. intros E. unfold pop. cbn. now rewrite E. Qed.

Lemma exit_if_killed_ok s csr :
  proc_lock (y_me s) ∉ locks s -> up_killed (k_proc (y_k s)) = false ->
  exit_if_killed (TSt s csr) = Ok tt (TSt s csr).
Proof.
  intros Hl Hk. unfold exit_if_killed. erewrite bind_ok by reflexivity. cbn [z_p].
  rewrite (bind_ok _ _ _ _ _ (pop_ok _ _ _ _ _ (killed_ok s (y_me s) Hl))).
  unfold the_proc. rewrite Z.eqb_refl. unfold load_user. cbn [p_killed]. now rewrite Hk.
Qed.

(** The function for a number; without one the result is -1. *)
Definition dispatch (num : Z) : M (pst B U) Z :=
  match (if 0 <? num then the_table num else None) with Some f => f | None => mret (-1) end.

Lemma syscall_ok s r s5 :
  dispatch (i32 (reg tf_a7 s)) s = Ok r s5 -> the_syscall s = Ok tt (with_reg tf_a0 r s5).
Proof.
  unfold dispatch, syscall. intros E. erewrite bind_ok by reflexivity. fold (reg tf_a7 s). cbv zeta.
  destruct (if 0 <? _ then _ else None) as [f|]; [now rewrite (bind_ok _ _ _ _ _ E)|]. now injection E as <- <-.
Qed.

(** What a number without a function, and [getpid], return. *)
Definition simple_result (num : Z) s : option Z :=
  if num =? SYS_getpid then Some (p_pid (the_proc s (y_me s)))
  else if (num <=? 0) || (SYS_close <? num) then Some (-1) else None.

Lemma dispatch_simple n s r : simple_result n s = Some r -> dispatch n s = Ok r s.
Proof.
  unfold simple_result, dispatch. intros Hr. destruct (n =? SYS_getpid) eqn:Hg.
  - apply Z.eqb_eq in Hg. rewrite Hg. injection Hr as <-. cbn [Z.ltb Z.compare SYS_getpid]. reflexivity.
  - destruct (n <=? 0) eqn:E0; cbn [orb] in Hr.
    + injection Hr as <-. zbool. now rewrite (proj2 (Z.ltb_ge 0 n)) by lia.
    + destruct (SYS_close <? n) eqn:E1; [|done]. injection Hr as <-. zbool. unfold SYS_close in E1.
      rewrite (proj2 (Z.ltb_lt 0 n)) by lia. unfold syscalls.
      repeat match goal with |- context [n =? ?x] => rewrite (proj2 (Z.eqb_neq n x)) by (unfold x; lia) end. done.
Qed.

(** The trapframe when [usertrapret] leaves, after a call that returned [r] in
    [s]. *)
Definition returned (c : csrs) (r : Z) s (f : tf_field) : Z :=
  match f with
  | tf_a0 => u64 r
  | tf_kernel_satp => u64 (satp c)
  | tf_kernel_sp => u64 (p_kstack (the_proc s (y_me s)) + PGSIZE)
  | tf_kernel_trap => u64 usertrap_pc
  | tf_kernel_hartid => u64 (tp c)
  | _ => reg f s
  end.

(** The registers after [intr_on], [intr_off] and the writes of [usertrapret]. *)
Lemma sstatus_user (x : Z) :
  let y := Z.lor (Z.land (Z.land (Z.lor x SSTATUS_SIE) (u64 (Z.lnot SSTATUS_SIE))) (u64 (Z.lnot SSTATUS_SPP))) SSTATUS_SPIE in
  Z.testbit y 8 = false /\ Z.testbit y 5 = true /\ Z.testbit y 1 = false.
Proof. cbn zeta. rewrite !Z.lor_spec, !Z.land_spec, !Z.lor_spec. cbn. rewrite !andb_false_r, !orb_true_r. done. Qed.

Lemma usertrapret_ok s c :
  let s' := with_reg tf_kernel_hartid (tp c) (with_reg tf_kernel_trap usertrap_pc
    (with_reg tf_kernel_sp (p_kstack (the_proc s (y_me s)) + PGSIZE) (with_reg tf_kernel_satp (satp c) s))) in
  exists c', usertrapret trampoline uservec usertrap_pc (TSt s c) = Ok (MAKE_SATP (p_pagetable (the_proc s (y_me s)))) (TSt s' c') /\
    stvec c' = u64 (TRAMPOLINE + (uservec - trampoline)) /\ sepc c' = reg tf_epc s' /\
    sstatus c' = Z.lor (Z.land (Z.land (sstatus c) (u64 (Z.lnot SSTATUS_SIE))) (u64 (Z.lnot SSTATUS_SPP))) SSTATUS_SPIE /\ satp c' = satp c.
Proof.
  intros s'. set (x := Z.lor _ SSTATUS_SPIE).
  exists (set_sepc (reg tf_epc s') (set_sstatus x (set_stvec (u64 (TRAMPOLINE + (uservec - trampoline))) (csr_intr_off c)))).
  split; [|split; [|split; [|split]]; reflexivity]. unfold usertrapret.
  do 2 (erewrite bind_ok by reflexivity). do 3 (erewrite bind_ok by reflexivity). cbn [z_p z_csr set_stvec csr_intr_off set_sstatus].
  do 4 rewrite (bind_ok _ _ _ _ _ (pop_ok _ _ _ _ _ (set_reg_ok _ _ _))). do 3 (erewrite bind_ok by reflexivity). reflexivity.
Qed.

Lemma with_mem_onto s : s = with_mem (pmem s) s.
Proof. unfold with_mem, pmem, f_mem, Fs.set_mem. rewrite u_set_mem_mem. now destruct s as [[[]]]. Qed.

Lemma with_reg_onto f v s s' : s' = with_mem (pmem s') s -> with_reg f v s' = with_mem (pmem (with_reg f v s')) s.
Proof.
  intros E. rewrite pmem_with_reg. unfold with_reg at 1. rewrite E at 3. unfold with_mem, Fs.set_mem. cbn. now rewrite u_set_set.
Qed.

(** The state in which the function of a system call runs. *)
Definition call_state (c : csrs) s : pst B U := with_reg tf_epc (u64 (sepc c) + 4) (with_reg tf_epc (sepc c) s).

(** [usertrap] for a system call whose function returns [r] in a state [s5] in
    which the process does not hold its lock and has not been killed.  The user
    gets [a0] set to [r] and what [s5] has in the trapframe for the other
    registers and the program counter; every byte outside the trapframe is as in
    [s5], and so are the process table, the files and the disk.  The hart is left
    to return to user mode with interrupts off until then and on afterwards, and
    the next trap goes to [uservec] with the kernel's page table, stack and entry
    in the trapframe. *)
Lemma usertrap_call s c r s5 :
  Z.land (sstatus c) SSTATUS_SPP = 0 -> scause c = 8 ->
  proc_lock (y_me s) ∉ locks s -> up_killed (k_proc (y_k s)) = false ->
  dispatch (i32 (reg tf_a7 s)) (call_state c s) = Ok r s5 ->
  proc_lock (y_me s5) ∉ locks s5 -> up_killed (k_proc (y_k s5)) = false ->
  exists s' c', the_usertrap (TSt s c) = Ok (MAKE_SATP (u_pagetable (f_user (k_fs (y_k s5))))) (TSt s' c') /\
    (forall f, reg f s' = returned c r s5 f) /\
    (forall x, x < ptf s5 \/ ptf s5 + TF_SIZE <= x -> rd (pmem s') x = rd (pmem s5) x) /\
    s' = with_mem (pmem s') s5 /\
    stvec c' = u64 (TRAMPOLINE + (uservec - trampoline)) /\ sepc c' = reg tf_epc s5 /\
    Z.testbit (sstatus c') 8 = false /\ Z.testbit (sstatus c') 5 = true /\ Z.testbit (sstatus c') 1 = false /\ satp c' = satp c.
Proof.
  intros Hspp Hc Hl Hk Hr Hl5 Hk5. unfold usertrap. erewrite bind_ok by reflexivity. cbn [z_csr]. rewrite Hspp, Hc. cbn [truthy Z.eqb negb Pos.eqb].
  erewrite bind_ok by reflexivity. rewrite (bind_ok _ _ _ _ _ (pop_ok _ _ _ _ _ (set_reg_ok _ _ _))). set (s1 := with_reg _ _ _).
  assert (reg tf_epc s1 = u64 (sepc c)) as He by (unfold s1; rewrite reg_with_reg, decide_True by done; done).
  assert (reg tf_a7 (call_state c s) = reg tf_a7 s) as Ha7 by (unfold call_state; now rewrite !reg_with_reg, !decide_False).
  rewrite <- Ha7 in Hr. apply syscall_ok in Hr.
  rewrite bind_assoc, (bind_ok _ _ _ _ _ (exit_if_killed_ok s1 _ Hl Hk)), bind_assoc. erewrite bind_ok by reflexivity. cbn [z_p].
  change (tf_reg tf_epc (y_k s1)) with (reg tf_epc s1). rewrite He, bind_assoc, (bind_ok _ _ _ _ _ (pop_ok _ _ _ _ _ (set_reg_ok _ _ _))).
  fold (call_state c s). rewrite bind_assoc. erewrite bind_ok by reflexivity. cbn [z_p z_csr].
  rewrite bind_assoc, (bind_ok _ _ _ _ _ (pop_ok _ _ _ _ _ Hr)). erewrite bind_ok by reflexivity.
  set (s3 := with_reg tf_a0 r s5). set (c3 := csr_intr_on _).
  rewrite (bind_ok _ _ _ _ _ (exit_if_killed_ok s3 c3 Hl5 Hk5)). cbn [Z.eqb]. erewrite bind_ok by reflexivity.
  destruct (usertrapret_ok s3 c3) as (c' & E & Hv & Hp & Hs & Hsat). change (y_me s3) with (y_me s5) in *.
  assert (forall i, the_proc s3 i = the_proc s5 i) as Hth by (intros i; unfold s3; now rewrite !the_proc_with_reg).
  rewrite Hth in E, Hp. set (s' := with_reg tf_kernel_hartid _ _) in *. exists s', c'.
  assert (forall f, reg f s' = returned c r s5 f) as Hreg.
  { intros f. unfold s', s3. rewrite !reg_with_reg. destruct f; reflexivity. }
  split; [rewrite E; do 2 f_equal; unfold the_proc; now rewrite Z.eqb_refl|].
  split; [exact Hreg|]. split.
  { intros x Hx. unfold s', s3. rewrite !pmem_with_reg. now rewrite !rd_tf_set. }
  split; [unfold s', s3; do 5 apply with_reg_onto; apply with_mem_onto|]. split; [exact Hv|].
  split; [rewrite Hp; apply Hreg|]. rewrite Hs. destruct (sstatus_user (sstatus c)) as (? & ? & ?). split; [done|]. split; [done|]. split; [done|exact Hsat].
Qed.
End trap.
