(* ===== verification/Asm.v ===== *)
(** * The assembly of the kernel

    trampoline.S, swtch.S, kernelvec.S, entry.S, initcode.S and the stubs of
    usys.pl, over the instructions that they use.  A program is a list of
    instructions that is laid out in physical memory; every fetch, load and store
    goes through the page table that [satp] holds.  There is no TLB, so that
    [sfence.vma] has nothing to do.  How many bytes an instruction takes is up to
    the assembler: [isize].  An access that the hardware refuses is [None]. *)

From stdpp Require Import base gmap list numbers functions strings option.
From S2P Require Import Prelude Mem Riscv Csr Trapframe.

Open Scope Z_scope.

(** ** The machine *)

Record mach := Mach { m_hart : hart; m_mem : memory }.

Inductive access := Load | Store | Fetch.

(** Without sstatus.SUM: supervisor mode has no access to user pages. *)
Definition perm_ok (md : mode) (acc : access) (pte : Z) : bool :=
  truthy (Z.land pte (match acc with Load => PTE_R | Store => PTE_W | Fetch => PTE_X end)) &&
  match md with UMode => truthy (Z.land pte PTE_U) | _ => negb (truthy (Z.land pte PTE_U)) end.

(** The Sv39 walk to the level-0 entry, without superpages. *)
Fixpoint sv39_walk (m : memory) (level : nat) (table va : Z) : option Z :=
  let pte := load64 m (table + PX (Z.of_nat level) va * 8) in
  if negb (truthy (Z.land pte PTE_V)) then None else
  match level with
  | O => Some pte
  | S l => if truthy (Z.land pte (Z.lor (Z.lor PTE_R PTE_W) PTE_X)) then None else sv39_walk m l (PTE2PA pte) va
  end.

(** The lower half of the address space. *)
Definition translate (m : memory) (md : mode) (satp : Z) (acc : access) (va : Z) : option Z :=
  if match md with MMode => true | _ => Z.shiftr satp 60 =? 0 end then Some va else
  if negb (Z.shiftr satp 60 =? 8) || (va <? 0) || (MAXVA <=? va) then None else
  pte ← sv39_walk m 2 (Z.shiftl (Z.land satp (2^44 - 1)) 12) va;
  if perm_ok md acc pte then Some (PTE2PA pte + va mod PGSIZE) else None.

Definition xget (r : xreg) (s : mach) : Z := h_reg (m_hart s) (X r).
Definition put_reg (r : reg) (v : Z) (s : mach) : mach :=
  Mach (Hart (<[r := u64 v]> (h_reg (m_hart s))) (h_mode (m_hart s)) (h_pc (m_hart s))) (m_mem s).
Definition put_pc (pc : Z) (s : mach) : mach := Mach (Hart (h_reg (m_hart s)) (h_mode (m_hart s)) (u64 pc)) (m_mem s).
Definition put_mode (md : mode) (s : mach) : mach := Mach (Hart (h_reg (m_hart s)) md (h_pc (m_hart s))) (m_mem s).
Definition put_mem (m : memory) (s : mach) : mach := Mach (m_hart s) m.
Definition pc (s : mach) : Z := h_pc (m_hart s).

Definition tr (s : mach) (acc : access) (va : Z) : option Z :=
  translate (m_mem s) (h_mode (m_hart s)) (h_reg (m_hart s) Satp) acc va.

(** Bits 1, 5 and 8 of sstatus: SIE, SPIE and SPP. *)
Definition put_bit (b : bool) (i x : Z) : Z := if b then Z.setbit x i else Z.clearbit x i.

(** What the hardware does on a trap to supervisor mode. *)
Definition take_trap (cause : Z) (s : mach) : mach :=
  let x := h_reg (m_hart s) Sstatus in
  let from_s := match h_mode (m_hart s) with UMode => false | _ => true end in
  let s := put_reg Sstatus (put_bit from_s 8 (put_bit (Z.testbit x 1) 5 (put_bit false 1 x))) s in
  let s := put_reg Scause cause (put_reg Sepc (pc s) s) in
  put_pc (h_reg (m_hart s) Stvec) (put_mode SMode s).

(** ** Instructions *)

Inductive ins :=
  | Sd (rs : xreg) (off : Z) (b : xreg)
  | Ld (rd : xreg) (off : Z) (b : xreg)
  | Csrw (c : reg) (rs : xreg)
  | Csrr (rd : xreg) (c : reg)
  | Li (rd : xreg) (imm : Z)
  | Addi (rd rs : xreg) (imm : Z)
  | Add (rd rs rt : xreg)
  | Mul (rd rs rt : xreg)
  | Auipc (rd : xreg) (imm : Z)
  | Sfence
  | Jr (rs : xreg)
  | Jal (rd : xreg) (off : Z)
  | Call (f : Z)
  | Sret
  | Ecall.

Definition super (s : mach) : bool := match h_mode (m_hart s) with UMode => false | _ => true end.

(** The instruction [i] of [n] bytes.  [ecall] is a trap of cause 8 or 9. *)
Definition exec1 (n : Z) (i : ins) (s : mach) : option mach :=
  let next s := put_pc (pc s + n) s in
  match i with
  | Sd rs off b =>
      let a := u64 (xget b s + off) in
      if negb (a mod 8 =? 0) then None else
      pa ← tr s Store a;
      Some (next (put_mem (store64 (m_mem s) pa (xget rs s)) s))
  | Ld rd off b =>
      let a := u64 (xget b s + off) in
      if negb (a mod 8 =? 0) then None else
      pa ← tr s Load a;
      Some (next (put_reg (X rd) (load64 (m_mem s) pa) s))
  | Csrw c rs => if super s then Some (next (put_reg c (xget rs s) s)) else None
  | Csrr rd c => if super s then Some (next (put_reg (X rd) (h_reg (m_hart s) c) s)) else None
  | Li rd imm => Some (next (put_reg (X rd) imm s))
  | Addi rd rs imm => Some (next (put_reg (X rd) (xget rs s + imm) s))
  | Add rd rs rt => Some (next (put_reg (X rd) (xget rs s + xget rt s) s))
  | Mul rd rs rt => Some (next (put_reg (X rd) (xget rs s * xget rt s) s))
  | Auipc rd imm => Some (next (put_reg (X rd) (pc s + imm) s))
  | Sfence => if super s then Some (next s) else None
  | Jr rs => Some (put_pc (xget rs s) s)
  | Jal rd off => Some (put_pc (pc s + off) (put_reg (X rd) (pc s + n) s))
  | Call f => Some (put_pc f (put_reg (X Ra) (pc s + n) s))
  | Sret =>
      if super s then
        let x := h_reg (m_hart s) Sstatus in
        let s' := put_reg Sstatus (put_bit false 8 (put_bit true 5 (put_bit (Z.testbit x 5) 1 x))) s in
        Some (put_pc (h_reg (m_hart s) Sepc) (put_mode (if Z.testbit x 8 then SMode else UMode) s'))
      else None
  | Ecall => Some (take_trap (if super s then 9 else 8) s)
  end.

(** The instructions after which the next one is somewhere else. *)
Definition jumps (i : ins) : bool :=
  match i with Jr _ | Jal _ _ | Call _ | Sret | Ecall => true | _ => false end.

Section code.
Context (isize : ins -> Z).

(** The instructions [p], which are in physical memory from [base] on, up to the
    first jump. *)
Fixpoint exec (base : Z) (p : list ins) (s : mach) : option mach :=
  match p with
  | [] => Some s
  | i :: p' =>
      a ← tr s Fetch (pc s);
      if negb (a =? base) then None else
      s' ← exec1 (isize i) i s;
      if jumps i then Some s' else exec (base + isize i) p' s'
  end.

Fixpoint csize (p : list ins) : Z :=
  match p with
  | [] => 0
  | i :: p' => isize i + csize p'
  end.
End code.

(** ** trampoline.S *)

Definition uservec : list ins := [
  Csrw Sscratch A0;
  Li A0 TRAPFRAME;
  Sd Ra 40 A0;
  Sd Sp 48 A0;
  Sd Gp 56 A0;
  Sd Tp 64 A0;
  Sd T0 72 A0;
  Sd T1 80 A0;
  Sd T2 88 A0;
  Sd S0 96 A0;
  Sd S1 104 A0;
  Sd A1 120 A0;
  Sd A2 128 A0;
  Sd A3 136 A0;
  Sd A4 144 A0;
  Sd A5 152 A0;
  Sd A6 160 A0;
  Sd A7 168 A0;
  Sd S2 176 A0;
  Sd S3 184 A0;
  Sd S4 192 A0;
  Sd S5 200 A0;
  Sd S6 208 A0;
  Sd S7 216 A0;
  Sd S8 224 A0;
  Sd S9 232 A0;
  Sd S10 240 A0;
  Sd S11 248 A0;
  Sd T3 256 A0;
  Sd T4 264 A0;
  Sd T5 272 A0;
  Sd T6 280 A0;
  Csrr T0 Sscratch;
  Sd T0 112 A0;
  Ld Sp 8 A0;
  Ld Tp 32 A0;
  Ld T0 16 A0;
  Ld T1 0 A0;
  Sfence;
  Csrw Satp T1;
  Sfence;
  Jr T0].

Definition userret : list ins := [
  Sfence;
  Csrw Satp A0;
  Sfence;
  Li A0 TRAPFRAME;
  Ld Ra 40 A0;
  Ld Sp 48 A0;
  Ld Gp 56 A0;
  Ld Tp 64 A0;
  Ld T0 72 A0;
  Ld T1 80 A0;
  Ld T2 88 A0;
  Ld S0 96 A0;
  Ld S1 104 A0;
  Ld A1 120 A0;
  Ld A2 128 A0;
  Ld A3 136 A0;
  Ld A4 144 A0;
  Ld A5 152 A0;
  Ld A6 160 A0;
  Ld A7 168 A0;
  Ld S2 176 A0;
  Ld S3 184 A0;
  Ld S4 192 A0;
  Ld S5 200 A0;
  Ld S6 208 A0;
  Ld S7 216 A0;
  Ld S8 224 A0;
  Ld S9 232 A0;
  Ld S10 240 A0;
  Ld S11 248 A0;
  Ld T3 256 A0;
  Ld T4 264 A0;
  Ld T5 272 A0;
  Ld T6 280 A0;
  Ld A0 112 A0;
  Sret].

(** ** swtch.S *)

Definition swtch : list ins := [
  Sd Ra 0 A0;
  Sd Sp 8 A0;
  Sd S0 16 A0;
  Sd S1 24 A0;
  Sd S2 32 A0;
  Sd S3 40 A0;
  Sd S4 48 A0;
  Sd S5 56 A0;
  Sd S6 64 A0;
  Sd S7 72 A0;
  Sd S8 80 A0;
  Sd S9 88 A0;
  Sd S10 96 A0;
  Sd S11 104 A0;
  Ld Ra 0 A1;
  Ld Sp 8 A1;
  Ld S0 16 A1;
  Ld S1 24 A1;
  Ld S2 32 A1;
  Ld S3 40 A1;
  Ld S4 48 A1;
  Ld S5 56 A1;
  Ld S6 64 A1;
  Ld S7 72 A1;
  Ld S8 80 A1;
  Ld S9 88 A1;
  Ld S10 96 A1;
  Ld S11 104 A1;
  Jr Ra].

(** ** kernelvec.S, before and after the call *)

Definition kernelvec_entry (kerneltrap : Z) : list ins := [
  Addi Sp Sp (-256);
  Sd Ra 0 Sp;
  Sd Sp 8 Sp;
  Sd Gp 16 Sp;
  Sd Tp 24 Sp;
  Sd T0 32 Sp;
  Sd T1 40 Sp;
  Sd T2 48 Sp;
  Sd A0 72 Sp;
  Sd A1 80 Sp;
  Sd A2 88 Sp;
  Sd A3 96 Sp;
  Sd A4 104 Sp;
  Sd A5 112 Sp;
  Sd A6 120 Sp;
  Sd A7 128 Sp;
  Sd T3 216 Sp;
  Sd T4 224 Sp;
  Sd T5 232 Sp;
  Sd T6 240 Sp;
  Call kerneltrap].

Definition kernelvec_exit : list ins := [
  Ld Ra 0 Sp;
  Ld Sp 8 Sp;
  Ld Gp 16 Sp;
  Ld T0 32 Sp;
  Ld T1 40 Sp;
  Ld T2 48 Sp;
  Ld A0 72 Sp;
  Ld A1 80 Sp;
  Ld A2 88 Sp;
  Ld A3 96 Sp;
  Ld A4 104 Sp;
  Ld A5 112 Sp;
  Ld A6 120 Sp;
  Ld A7 128 Sp;
  Ld T3 216 Sp;
  Ld T4 224 Sp;
  Ld T5 232 Sp;
  Ld T6 240 Sp;
  Addi Sp Sp 256;
  Sret].

(** ** entry.S, with the addresses of [stack0] and [start] *)

Definition entry (stack0 start : Z) : list ins := [
  Li Sp stack0;
  Li A0 (1024 * 4);
  Csrr A1 Mhartid;
  Addi A1 A1 1;
  Mul A0 A0 A1;
  Add Sp Sp A0;
  Call start].

(** ** usys.pl: the stub of system call [num], from its two jumps on *)

Definition usys (num : Z) : list ins := [
  Li A7 num;
  Ecall].

Definition usys_ret : list ins := [
  Jr Ra].
