(* ===== verification/AsmSpec.v ===== *)
(** * Runs of stores and loads, and translation

    Lemmas for Asm.v: what a block of stores and a block of loads do, and that the
    hardware finds in a page table what vm.c has put there. *)

From stdpp Require Import base gmap list numbers functions strings option sorting.
From S2P Require Import Prelude Mem Riscv Csr Kalloc Vm PageTable Asm.

Open Scope Z_scope.

(** ** Blocks of stores and loads *)

Section blocks.
Context (isize : ins -> Z) (isize_pos : forall i, 0 < isize i).

Local Abbreviation slots := (list (xreg * Z)).

Definition sds (b : xreg) (l : slots) : list ins := map (fun q => Sd q.1 q.2 b) l.
Definition lds (b : xreg) (l : slots) : list ins := map (fun q => Ld q.1 q.2 b) l.

(** The next [n] bytes of code are in the physical memory at [base]. *)
Definition fetches (s : mach) (base n : Z) : Prop :=
  0 <= pc s /\ pc s + n < 2^64 /\ forall o, 0 <= o < n -> tr s Fetch (pc s + o) = Some (base + o).

(** Translation does not depend on the [n] bytes at [lo]. *)
Definition stable (s : mach) (lo n : Z) : Prop :=
  forall m', frame_bytes (m_mem s) m' lo n -> forall acc va, translate m' (h_mode (m_hart s)) (h_reg (m_hart s) Satp) acc va = tr s acc va.

(** The slots of [l] in the [n] bytes at virtual [va] can be accessed, at physical [pa]. *)
Definition window (s : mach) (acc : access) (va pa n : Z) (l : slots) : Prop :=
  Forall (fun q => 0 <= q.2 /\ q.2 + 8 <= n /\ is_u64 (va + q.2) /\ (va + q.2) mod 8 = 0 /\ tr s acc (va + q.2) = Some (pa + q.2)) l.

Definition stores (pa : Z) (f : reg -> Z) (l : slots) (m : memory) : memory :=
  foldl (fun m q => store64 m (pa + q.2) (f (X q.1))) m l.
Definition loads (pa : Z) (m : memory) (l : slots) (f : reg -> Z) : reg -> Z :=
  foldl (fun (f : reg -> Z) q => <[X q.1 := u64 (load64 m (pa + q.2))]> f) f l.

Definition saved (b : xreg) (pa : Z) (l : slots) (s : mach) : mach :=
  Mach (Hart (h_reg (m_hart s)) (h_mode (m_hart s)) (pc s + csize isize (sds b l))) (stores pa (h_reg (m_hart s)) l (m_mem s)).
Definition loaded (b : xreg) (pa : Z) (l : slots) (s : mach) : mach :=
  Mach (Hart (loads pa (m_mem s) l (h_reg (m_hart s))) (h_mode (m_hart s)) (pc s + csize isize (lds b l))) (m_mem s).

Lemma csize_nonneg p : 0 <= csize isize p.
Proof. induction p as [|i p IH]; cbn; [lia|]. pose proof (isize_pos i). lia. Qed.

Lemma csize_app p q : csize isize (p ++ q) = csize isize p + csize isize q.
Proof. induction p as [|i p IH]; cbn; lia. Qed.

(** One instruction that does not jump. *)
Lemma exec_step base n i p s s' :
  fetches s base (isize i + n) -> 0 <= n -> jumps i = false -> exec1 (isize i) i s = Some s' ->
  pc s' = u64 (pc s + isize i) -> (forall va, tr s' Fetch va = tr s Fetch va) ->
  exec isize base (i :: p) s = exec isize (base + isize i) p s' /\ fetches s' (base + isize i) n.
Proof.
  intros (Hp0 & Hp1 & Hf) Hn Hj E Hpc Ht. pose proof (isize_pos i). split.
  - cbn [exec]. pose proof (Hf 0 ltac:(lia)) as H0. rewrite !Z.add_0_r in H0. rewrite H0. cbn. rewrite Z.eqb_refl. cbn. rewrite E. cbn. now rewrite Hj.
  - rewrite u64_small in Hpc by (unfold is_u64; lia). split; [lia|]. split; [lia|]. intros o Ho. rewrite Ht, Hpc.
    replace (pc s + isize i + o) with (pc s + (isize i + o)) by lia. rewrite Hf by lia. f_equal. lia.
Qed.

(** The last instruction. *)
Lemma exec_last base i p s s' :
  fetches s base (isize i) -> jumps i = true -> exec1 (isize i) i s = Some s' -> exec isize base (i :: p) s = Some s'.
Proof.
  intros (Hp0 & Hp1 & Hf) Hj E. pose proof (isize_pos i). cbn [exec]. pose proof (Hf 0 ltac:(lia)) as H0. rewrite !Z.add_0_r in H0. rewrite H0. cbn.
  rewrite Z.eqb_refl. cbn. rewrite E. cbn. now rewrite Hj.
Qed.

Lemma frame_store64 m lo n a v : lo <= a -> a + 8 <= lo + n -> frame_bytes m (store64 m a v) lo n.
Proof. intros H1 H2 x Hx. apply rd_store64_out. lia. Qed.

Lemma frame_bytes_trans m1 m2 m3 lo n : frame_bytes m1 m2 lo n -> frame_bytes m2 m3 lo n -> frame_bytes m1 m3 lo n.
Proof. intros H1 H2 x Hx. now rewrite H2, H1. Qed.

Lemma stable_store s lo n a v pc' : stable s lo n -> lo <= a -> a + 8 <= lo + n ->
  let s' := Mach (Hart (h_reg (m_hart s)) (h_mode (m_hart s)) pc') (store64 (m_mem s) a v) in
  stable s' lo n /\ forall acc va, tr s' acc va = tr s acc va.
Proof.
  intros Hs H1 H2 s'. assert (forall acc va, tr s' acc va = tr s acc va) as Ht.
  { intros acc va. unfold tr at 1. cbn [s' m_mem m_hart h_mode h_reg]. apply Hs. now apply frame_store64. }
  split; [|done]. intros m' Hm acc va. rewrite Ht. apply (Hs m'). eapply frame_bytes_trans; [|exact Hm]. now apply frame_store64.
Qed.

Lemma exec_saves b va pa N l : forall base n p s,
  fetches s base (csize isize (sds b l) + n) -> 0 <= n -> xget b s = va -> window s Store va pa N l -> stable s pa N ->
  let s' := saved b pa l s in
  exec isize base (sds b l ++ p) s = exec isize (base + csize isize (sds b l)) p s' /\ fetches s' (base + csize isize (sds b l)) n /\
  stable s' pa N /\ (forall acc va, tr s' acc va = tr s acc va).
Proof.
  induction l as [|[r o] l IH]; intros base n p s Hf Hn Hb Hw Hst.
  - cbn in *. unfold saved. cbn. rewrite Z.add_0_r. destruct s as [[f md q] m]. cbn in *. unfold pc in *. cbn in *. now rewrite !Z.add_0_r.
  - apply Forall_cons_1 in Hw as [(H1 & H2 & H3 & H4 & H5) Hw]. cbn [fst snd] in *. change (sds b ((r, o) :: l)) with (Sd r o b :: sds b l) in *. cbn [csize app] in *.
    set (s1 := Mach (Hart (h_reg (m_hart s)) (h_mode (m_hart s)) (u64 (pc s + isize (Sd r o b)))) (store64 (m_mem s) (pa + o) (xget r s))).
    destruct (stable_store s pa N (pa + o) (xget r s) (u64 (pc s + isize (Sd r o b))) Hst ltac:(lia) ltac:(lia)) as [Hst1 Ht1]. fold s1 in Hst1, Ht1.
    assert (exec1 (isize (Sd r o b)) (Sd r o b) s = Some s1) as E1.
    { cbn [exec1]. rewrite Hb, u64_small by done. rewrite H4. cbn [Z.eqb negb]. rewrite H5. reflexivity. }
    pose proof (csize_nonneg (sds b l)). rewrite <- Z.add_assoc in Hf.
    destruct (exec_step base _ _ (sds b l ++ p) s s1 Hf ltac:(lia) eq_refl E1 eq_refl (Ht1 Fetch)) as [-> Hf1].
    assert (window s1 Store va pa N l) as Hw1.
    { unfold window in *. rewrite Forall_forall in Hw. apply Forall_forall. intros q Hq. rewrite Ht1. now apply Hw. }
    destruct (IH _ n p s1 Hf1 Hn Hb Hw1 Hst1) as (-> & Hf2 & Hs2 & Ht2). rewrite Z.add_assoc. clear IH.
    assert (saved b pa l s1 = saved b pa ((r, o) :: l) s) as Es.
    { assert (pc s1 = pc s + isize (Sd r o b)) as Ep.
      { pose proof (isize_pos (Sd r o b)). destruct Hf as (? & ? & _). apply u64_small. unfold is_u64. lia. }
      unfold saved. rewrite Ep. change (sds b ((r, o) :: l)) with (Sd r o b :: sds b l). cbn [csize]. now rewrite Z.add_assoc. }
    rewrite <- Es. split; [done|]. split; [done|]. split; [done|]. intros acc v. now rewrite Ht2.
Qed.

Lemma exec_loads b va pa N l : b ∉ l.*1 -> forall base n p s,
  fetches s base (csize isize (lds b l) + n) -> 0 <= n -> xget b s = va -> window s Load va pa N l ->
  let s' := loaded b pa l s in
  exec isize base (lds b l ++ p) s = exec isize (base + csize isize (lds b l)) p s' /\ fetches s' (base + csize isize (lds b l)) n.
Proof.
  induction l as [|[r o] l IH]; intros Hd base n p s Hf Hn Hb Hw.
  - cbn in *. unfold loaded. cbn. rewrite Z.add_0_r. destruct s as [[f md q] m]. cbn in *. unfold pc in *. cbn in *. now rewrite !Z.add_0_r.
  - cbn in Hd. apply not_elem_of_cons in Hd as [Hd0 Hd].
    apply Forall_cons_1 in Hw as [(H1 & H2 & H3 & H4 & H5) Hw]. cbn [fst snd] in *. change (lds b ((r, o) :: l)) with (Ld r o b :: lds b l) in *. cbn [csize app] in *.
    set (s1 := put_pc (pc s + isize (Ld r o b)) (put_reg (X r) (load64 (m_mem s) (pa + o)) s)).
    assert (exec1 (isize (Ld r o b)) (Ld r o b) s = Some s1) as E1.
    { cbn [exec1]. rewrite Hb, u64_small by done. rewrite H4. cbn [Z.eqb negb]. rewrite H5. reflexivity. }
    assert (forall acc v, tr s1 acc v = tr s acc v) as Ht1 by done.
    pose proof (csize_nonneg (lds b l)). rewrite <- Z.add_assoc in Hf.
    destruct (exec_step base _ _ (lds b l ++ p) s s1 Hf ltac:(lia) eq_refl E1 eq_refl (Ht1 Fetch)) as [-> Hf1].
    assert (xget b s1 = va) as Hb1 by (unfold xget, s1; cbn [put_pc put_reg m_hart h_reg]; rewrite fn_lookup_insert_ne; [exact Hb|intros [= ->]; now apply Hd0]).
    destruct (IH Hd _ n p s1 Hf1 Hn Hb1 Hw) as (-> & Hf2). rewrite Z.add_assoc. clear IH.
    assert (loaded b pa l s1 = loaded b pa ((r, o) :: l) s) as Es.
    { assert (pc s1 = pc s + isize (Ld r o b)) as Ep.
      { pose proof (isize_pos (Ld r o b)). destruct Hf as (? & ? & _). apply u64_small. unfold is_u64. lia. }
      unfold loaded. rewrite Ep. change (lds b ((r, o) :: l)) with (Ld r o b :: lds b l). cbn [csize]. now rewrite Z.add_assoc. }
    rewrite <- Es. split; done.
Qed.

(** The same for the whole of the code that follows. *)
Lemma run_step base i p s s' :
  fetches s base (csize isize (i :: p)) -> jumps i = false -> exec1 (isize i) i s = Some s' ->
  pc s' = u64 (pc s + isize i) -> (forall va, tr s' Fetch va = tr s Fetch va) ->
  exec isize base (i :: p) s = exec isize (base + isize i) p s' /\ fetches s' (base + isize i) (csize isize p) /\ pc s' = pc s + isize i.
Proof.
  intros Hf Hj E Hpc Ht. destruct (exec_step base _ i p s s' Hf (csize_nonneg p) Hj E Hpc Ht) as [E1 Hf1]. split; [done|]. split; [done|].
  rewrite Hpc. apply u64_small. destruct Hf as (? & ? & _). cbn [csize] in *. pose proof (isize_pos i). pose proof (csize_nonneg p). unfold is_u64. lia.
Qed.

Lemma run_saves b va pa N l base p s :
  fetches s base (csize isize (sds b l ++ p)) -> xget b s = va -> window s Store va pa N l -> stable s pa N ->
  let s' := saved b pa l s in
  exec isize base (sds b l ++ p) s = exec isize (base + csize isize (sds b l)) p s' /\ fetches s' (base + csize isize (sds b l)) (csize isize p) /\
  stable s' pa N /\ (forall acc va, tr s' acc va = tr s acc va).
Proof. intros Hf Hb Hw Hs. rewrite csize_app in Hf. exact (exec_saves b va pa N l base _ p s Hf (csize_nonneg p) Hb Hw Hs). Qed.

Lemma run_loads b va pa N l base p s :
  fetches s base (csize isize (lds b l ++ p)) -> b ∉ l.*1 -> xget b s = va -> window s Load va pa N l ->
  let s' := loaded b pa l s in
  exec isize base (lds b l ++ p) s = exec isize (base + csize isize (lds b l)) p s' /\ fetches s' (base + csize isize (lds b l)) (csize isize p).
Proof. intros Hf Hd Hb Hw. rewrite csize_app in Hf. exact (exec_loads b va pa N l Hd base _ p s Hf (csize_nonneg p) Hb Hw). Qed.

(** An instruction after which another page table translates. *)
Lemma run_switch base i p s s' : fetches s base (csize isize (i :: p)) -> jumps i = false -> exec1 (isize i) i s = Some s' ->
  exec isize base (i :: p) s = exec isize (base + isize i) p s'.
Proof.
  intros (Hp0 & Hp1 & Hf) Hj E. pose proof (isize_pos i). pose proof (csize_nonneg p). cbn [exec csize] in *. pose proof (Hf 0 ltac:(lia)) as E0. rewrite !Z.add_0_r in E0. rewrite E0. cbn.
  rewrite Z.eqb_refl. cbn. rewrite E. cbn. now rewrite Hj.
Qed.

Lemma fetches_pc s base n : fetches s base n -> 0 <= n -> is_u64 (pc s + n).
Proof. intros (H1 & H2 & _) Hn. unfold is_u64. lia. Qed.

(** ** What the blocks leave *)

Lemma stores_frame pa f N l : forall m, Forall (fun q => 0 <= q.2 /\ q.2 + 8 <= N) l -> frame_bytes m (stores pa f l m) pa N.
Proof.
  induction l as [|q l IH]; intros m Hl; [now intros x|]. apply Forall_cons_1 in Hl as [Hq Hl]. change (stores pa f (q :: l) m) with (stores pa f l (store64 m (pa + q.2) (f (X q.1)))). eapply frame_bytes_trans; [|apply (IH _ Hl)].
  apply frame_store64; lia.
Qed.

(** A load apart from all slots. *)
Lemma stores_other pa f l : forall m a, Forall (fun q => a + 8 <= pa + q.2 \/ pa + q.2 + 8 <= a) l -> load64 (stores pa f l m) a = load64 m a.
Proof.
  induction l as [|q l IH]; intros m a Hl; [done|]. apply Forall_cons_1 in Hl as [Hq Hl]. change (stores pa f (q :: l) m) with (stores pa f l (store64 m (pa + q.2) (f (X q.1)))). rewrite IH by done. apply load64_store64_ne. lia.
Qed.

Lemma stores_get pa f l : StronglySorted (fun p q => p.2 + 8 <= q.2) l -> forall m q, q ∈ l -> load64 (stores pa f l m) (pa + q.2) = u64 (f (X q.1)).
Proof.
  induction 1 as [|p l Hs IH Hp]; intros m q Hq; [now apply elem_of_nil in Hq|]. apply elem_of_cons in Hq as [->|Hq]; [|now apply IH].
  change (stores pa f (p :: l) m) with (stores pa f l (store64 m (pa + p.2) (f (X p.1)))). rewrite stores_other; [apply load64_store64_eq|]. rewrite Forall_forall in Hp. apply Forall_forall. intros r Hr. specialize (Hp r Hr). lia.
Qed.

Lemma loads_other pa m l : forall f r, (forall x, r = X x -> x ∉ l.*1) -> loads pa m l f r = f r.
Proof.
  induction l as [|q l IH]; intros f r Hr; [done|]. change (loads pa m (q :: l) f) with (loads pa m l (<[X q.1 := u64 (load64 m (pa + q.2))]> f)). rewrite IH; [|intros x E; specialize (Hr x E); cbn in Hr; now apply not_elem_of_cons in Hr].
  apply fn_lookup_insert_ne. intros <-. destruct (Hr q.1 eq_refl). apply elem_of_cons. now left.
Qed.

Lemma loads_get pa m l : NoDup l.*1 -> forall f q, q ∈ l -> loads pa m l f (X q.1) = load64 m (pa + q.2).
Proof.
  induction l as [|p l IH]; intros Hd f q Hq; [now apply elem_of_nil in Hq|]. apply NoDup_cons in Hd as [Hp Hd].
  change (loads pa m (p :: l) f) with (loads pa m l (<[X p.1 := u64 (load64 m (pa + p.2))]> f)).
  apply elem_of_cons in Hq as [->|Hq]; [|now apply IH]. rewrite loads_other by (intros x [= <-]; done). rewrite fn_lookup_insert.
  apply u64_small, load64_range.
Qed.
End blocks.

(** ** Without paging *)

Definition bare (s : mach) : Prop := h_mode (m_hart s) = MMode \/ Z.shiftr (h_reg (m_hart s) Satp) 60 = 0.

Lemma bare_tr s acc va : bare s -> tr s acc va = Some va.
Proof. intros [H|H]; unfold tr, translate; rewrite H; [done|]. now destruct (h_mode (m_hart s)). Qed.

Lemma bare_fetches s n : bare s -> 0 <= pc s -> pc s + n < 2^64 -> fetches s (pc s) n.
Proof. intros Hb H0 H1. split; [done|]. split; [done|]. intros o _. now apply bare_tr. Qed.

Lemma bare_stable s lo n : bare s -> stable s lo n.
Proof. intros Hb m' _ acc va. rewrite bare_tr by done. apply (bare_tr (Mach (m_hart s) m')). exact Hb. Qed.

Lemma bare_window s acc va n l : bare s -> 0 <= va -> va + n < 2^64 -> va mod 8 = 0 -> Forall (fun q => 0 <= q.2 /\ q.2 + 8 <= n /\ q.2 mod 8 = 0) l -> window s acc va va n l.
Proof.
  intros Hb H0 H1 Hm Hl. unfold window. rewrite Forall_forall in Hl. apply Forall_forall. intros q Hq. destruct (Hl q Hq) as (? & ? & ?).
  split; [done|]. split; [done|]. split; [unfold is_u64; lia|]. split; [rewrite Z.add_mod, Hm by lia; now replace (q.2 mod 8) with 0|now apply bare_tr].
Qed.

(** ** Page tables *)

Lemma leaf_page_eq T m va va' : 0 <= va < MAXVA -> 0 <= va' < MAXVA -> va / PGSIZE = va' / PGSIZE -> leaf T m va = leaf T m va'.
Proof. intros H1 H2 E. destruct (PX_same_page va va' H1 H2 E) as (E2 & E1 & E0). unfold leaf, path. now rewrite E2, E1, E0. Qed.

Section tables.
Context {St : Type} `{PA : PageAllocator St} `{PS : !PageAllocatorSpec St}.
Local Abbreviation table := (pt_inv (St := St)).

Lemma ptr_table b : valid_page (S := St) b -> truthy (Z.land (Z.lor (PA2PTE b) PTE_V) (Z.lor (Z.lor PTE_R PTE_W) PTE_X)) = false.
Proof.
  intros Hb%vpage_pte. rewrite land_flags by (vm_compute; split; discriminate || done). now rewrite PTE_FLAGS_PA2PTE by auto using flags_V.
Qed.

(** The hardware reads the tree that [pt_inv] describes. *)
Lemma sv39_leaf m root T va : table m root T -> 0 <= va < MAXVA ->
  sv39_walk m 2 root va = if truthy (Z.land (leaf T m va) PTE_V) then Some (leaf T m va) else None.
Proof.
  intros Hi Hv. pose proof (PX_range 2 va ltac:(lia)) as H2. pose proof (PX_range 1 va ltac:(lia)) as H1. unfold leaf.
  assert (forall a i, load64 m (a + i * 8) = load64 m (pte_at a i)) as Ep by (intros a i; unfold pte_at; f_equal; lia).
  cbn [sv39_walk]. change (Z.of_nat 2) with 2. change (Z.of_nat 1) with 1. change (Z.of_nat 0) with 0. rewrite !Ep.
  destruct (T !! [PX 2 va]) as [a|] eqn:Ea.
  - pose proof (pt_entry _ _ _ Hi [] root (PX 2 va) (pt_root _ _ _ Hi) ltac:(cbn; lia) H2) as E2. cbn [app] in E2. rewrite Ea in E2. rewrite E2.
    pose proof (pt_page _ _ _ Hi _ _ Ea) as Va. rewrite ptr_valid, ptr_table, ptr_target by done. cbn [negb].
    pose proof (pt_entry _ _ _ Hi [PX 2 va] a (PX 1 va) Ea ltac:(cbn; lia) H1) as E1. cbn [app] in E1. unfold path.
    destruct (T !! [PX 2 va; PX 1 va]) as [b|] eqn:Eb.
    + rewrite E1. pose proof (pt_page _ _ _ Hi _ _ Eb) as Vb. rewrite ptr_valid, ptr_table, ptr_target by done. cbn [negb].
      now destruct (truthy _).
    + rewrite E1. now rewrite Z.land_0_l.
  - rewrite (child_none _ _ _ [] root (PX 2 va) Hi (pt_root _ _ _ Hi) ltac:(cbn; lia) H2 Ea). cbn [negb].
    pose proof (no_grandchild _ _ _ [] _ (PX 1 va) Hi Ea) as Hn. cbn [app] in Hn. unfold path. rewrite Hn. now rewrite Z.land_0_l.
Qed.

Lemma satp_mode root : valid_page (S := St) root -> Z.shiftr (MAKE_SATP root) 60 = 8.
Proof.
  intros (_ & H1 & H2)%valid_page_range. unfold MAKE_SATP. rewrite Z.shiftr_lor. change (Z.shiftr SATP_SV39 60) with 8.
  rewrite Z.shiftr_shiftr, Z.shiftr_div_pow2, Z.div_small by (unfold PGSIZE in *; lia). done.
Qed.

Lemma satp_root root : valid_page (S := St) root -> Z.shiftl (Z.land (MAKE_SATP root) (2^44 - 1)) 12 = root.
Proof.
  intros (H0 & H1 & H2)%valid_page_range. unfold MAKE_SATP. rewrite Z.land_lor_distr_l. change (Z.land SATP_SV39 (2^44 - 1)) with 0. rewrite Z.lor_0_l.
  unfold PGSIZE in *. rewrite land_low_mod, Z.shiftr_div_pow2, Z.shiftl_mul_pow2 by lia. rewrite Z.mod_small by dlia. dlia.
Qed.

Lemma satp_u64 root : valid_page (S := St) root -> is_u64 (MAKE_SATP root).
Proof.
  intros (H0 & H1 & H2)%valid_page_range. unfold MAKE_SATP, SATP_SV39, is_u64. split; [apply Z.lor_nonneg; split; [done|apply Z.shiftr_nonneg; lia]|].
  apply Z.log2_lt_cancel. rewrite Z.log2_lor by (try done; apply Z.shiftr_nonneg; lia). rewrite Z.log2_pow2 by lia. apply Z.max_lub_lt; [done|].
  rewrite Z.log2_shiftr by lia. pose proof (Z.log2_le_mono root (2^54) ltac:(unfold PGSIZE in *; lia)) as H. rewrite Z.log2_pow2 in H by lia. lia.
Qed.

(** An access through the page table [T]. *)
Lemma translate_table m root T md acc va : table m root T -> md <> MMode ->
  translate m md (MAKE_SATP root) acc va =
    if (va <? 0) || (MAXVA <=? va) then None else
    if truthy (Z.land (leaf T m va) PTE_V) && perm_ok md acc (leaf T m va) then Some (PTE2PA (leaf T m va) + va mod PGSIZE) else None.
Proof.
  intros Hi Hm. pose proof (pt_page _ _ _ Hi [] root (pt_root _ _ _ Hi)) as Hr. unfold translate. rewrite satp_mode, satp_root by done. cbn [Z.eqb Pos.eqb negb orb].
  assert (match md with MMode => true | _ => false end = false) as -> by now destruct md.
  destruct ((va <? 0) || (MAXVA <=? va)) eqn:E; [done|]. rewrite (sv39_leaf _ _ T) by (done || (unfold MAXVA in *; lia)).
  destruct (truthy (Z.land (leaf T m va) PTE_V)); [|done]. cbn. done.
Qed.

Lemma table_same m m' root T : table m root T -> (forall p a, T !! p = Some a -> same_bytes m m' a PGSIZE) ->
  table m' root T /\ forall va, leaf T m' va = leaf T m va.
Proof.
  intros Hi Hs. assert (forall p a i, T !! p = Some a -> 0 <= i < 512 -> load64 m' (pte_at a i) = load64 m (pte_at a i)) as Hl.
  { intros p a i Hp Hr. apply load64_ext. eapply same_bytes_sub; [exact (Hs p a Hp)|..]; pose proof (pte_in_page a i Hr); lia. }
  split.
  - destruct Hi. split; try done. intros p a i Hp Hlen Hr. rewrite (Hl p a i Hp Hr). now apply pt_entry.
  - intros va. unfold leaf. destruct (T !! path va) as [a|] eqn:E; [|done]. apply (Hl _ _ _ E). apply PX_range. lia.
Qed.

Lemma table_frame m m' root T q : table m root T -> valid_page (S := St) q -> (forall p, T !! p <> Some q) -> frame_bytes m m' q PGSIZE ->
  table m' root T /\ forall va, leaf T m' va = leaf T m va.
Proof.
  intros Hi Hq Hn Hf. apply table_same; [done|]. intros p a Hp. apply (page_frame _ _ q); [done|exact (pt_page _ _ _ Hi _ _ Hp)| |done].
  intros ->. now apply (Hn p).
Qed.

Lemma stable_table s root T q : table (m_mem s) root T -> h_reg (m_hart s) Satp = MAKE_SATP root -> h_mode (m_hart s) <> MMode ->
  valid_page (S := St) q -> (forall p, T !! p <> Some q) -> stable s q PGSIZE.
Proof.
  intros Hi Hs Hm Hq Hn m' Hf acc va. destruct (table_frame _ _ _ _ _ Hi Hq Hn Hf) as [Hi' Hl]. unfold tr. rewrite Hs.
  now rewrite !(translate_table _ _ T), Hl by done.
Qed.
End tables.
