(* ===== verification/Trampoline.v ===== *)
(** * trampoline.S

    What [uservec] saves and [userret] restores, through the page tables of the
    process and of the kernel. *)

From stdpp Require Import base gmap list numbers functions strings option sorting.
From S2P Require Import Prelude Mem Trapframe Riscv Csr Kalloc Vm PageTable Asm AsmSpec.

Open Scope Z_scope.

(** The field of the trapframe where a register is saved. *)
Definition tf_of (r : xreg) : tf_field :=
  match r with
  | Ra => tf_ra | Sp => tf_sp | Gp => tf_gp | Tp => tf_tp
  | T0 => tf_t0 | T1 => tf_t1 | T2 => tf_t2 | T3 => tf_t3 | T4 => tf_t4 | T5 => tf_t5 | T6 => tf_t6
  | S0 => tf_s0 | S1 => tf_s1 | S2 => tf_s2 | S3 => tf_s3 | S4 => tf_s4 | S5 => tf_s5 | S6 => tf_s6
  | S7 => tf_s7 | S8 => tf_s8 | S9 => tf_s9 | S10 => tf_s10 | S11 => tf_s11
  | A0 => tf_a0 | A1 => tf_a1 | A2 => tf_a2 | A3 => tf_a3 | A4 => tf_a4 | A5 => tf_a5 | A6 => tf_a6 | A7 => tf_a7
  end.

(** The fields that are not registers of the user. *)
Definition kernel_field (f : tf_field) : bool :=
  match f with tf_kernel_satp | tf_kernel_sp | tf_kernel_trap | tf_epc | tf_kernel_hartid => true | _ => false end.

(** The registers but [a0], in the order of the code. *)
Definition user_slots : list (xreg * Z) :=
  map (fun r => (r, tf_off (tf_of r)))
    [Ra; Sp; Gp; Tp; T0; T1; T2; S0; S1; A1; A2; A3; A4; A5; A6; A7; S2; S3; S4; S5; S6; S7; S8; S9; S10; S11; T3; T4; T5; T6].

Definition kernel_slots : list (xreg * Z) := [(Sp, 8); (Tp, 32); (T0, 16); (T1, 0)].

Lemma uservec_blocks : uservec =
  [Csrw Sscratch A0; Li A0 TRAPFRAME] ++ sds A0 user_slots ++ [Csrr T0 Sscratch] ++ sds A0 [(T0, 112)] ++
  lds A0 kernel_slots ++ [Sfence; Csrw Satp T1; Sfence; Jr T0].
Proof. reflexivity. Qed.

Lemma userret_blocks : userret = [Sfence; Csrw Satp A0; Sfence; Li A0 TRAPFRAME] ++ lds A0 user_slots ++ [Ld A0 112 A0; Sret].
Proof. reflexivity. Qed.

(** A slot in the trapframe. *)
Definition slot_ok (q : xreg * Z) : bool := (0 <=? q.2) && (q.2 + 8 <=? TF_SIZE) && (q.2 mod 8 =? 0).

Lemma user_slots_sorted : StronglySorted (fun p q => p.2 + 8 <= q.2) user_slots.
Proof. vm_compute. repeat constructor; discriminate. Qed.

Lemma user_slots_nodup : NoDup user_slots.*1.
Proof. apply (bool_decide_unpack _). vm_compute. exact I. Qed.

Lemma user_slots_all r : r <> A0 -> (r, tf_off (tf_of r)) ∈ user_slots.
Proof. intros Hr. destruct r; try done; apply (bool_decide_unpack _); vm_compute; exact I. Qed.

(** The state that a step has led to. *)
Ltac name_state s H := match type of H with fetches ?x _ _ => set (s := x) in * end.

Section tramp.
Context {St : Type} `{PA : PageAllocator St} `{PS : !PageAllocatorSpec St}.
Context (isize : ins -> Z) (isize_pos : forall i, 0 < isize i).
Context (trampoline : Z).
Hypothesis tramp_page : pte_page trampoline.

Local Abbreviation table := (pt_inv (St := St)).

Definition RX : Z := Z.lor PTE_R PTE_X.
Definition RW : Z := Z.lor PTE_R PTE_W.

(** The page table [T] has the page of the trampoline where kernel.ld puts it. *)
Definition has_tramp (m : memory) (root : Z) (T : ptree) : Prop := table m root T /\ leaf T m TRAMPOLINE = perm_pte trampoline RX.

(** The page at [base] of the supervisor's addresses. *)
Lemma page_access m root T base pa perm acc o :
  table m root T -> leaf T m base = perm_pte pa perm -> pte_page pa -> pte_flags_ok perm -> base mod PGSIZE = 0 -> 0 <= base -> base + PGSIZE <= MAXVA -> 0 <= o < PGSIZE ->
  perm_ok SMode acc (perm_pte pa perm) = true -> translate m SMode (MAKE_SATP root) acc (base + o) = Some (pa + o).
Proof.
  intros Hi Hl Hp Hf Hb H0 H1 Ho Hok. rewrite (translate_table _ _ T) by done.
  assert ((base + o <? 0) || (MAXVA <=? base + o) = false) as -> by lia.
  rewrite (leaf_page_eq T m (base + o) base), Hl by (lia || (unfold PGSIZE in *; dlia)). rewrite perm_pte_valid, Hok, perm_pte_pa by done. cbn [andb]. do 2 f_equal.
  unfold PGSIZE in *. dlia.
Qed.

Lemma perm_RX acc : acc <> Store -> perm_ok SMode acc (perm_pte trampoline RX) = true.
Proof.
  intros Ha. unfold perm_ok. destruct acc; [|done|]; rewrite !perm_pte_flags by (done || (vm_compute; split; discriminate || done)); reflexivity.
Qed.

Lemma perm_RW pa acc : pte_page pa -> acc <> Fetch -> perm_ok SMode acc (perm_pte pa RW) = true.
Proof.
  intros Hp Ha. unfold perm_ok. destruct acc; [| |done]; rewrite !perm_pte_flags by (done || (vm_compute; split; discriminate || done)); reflexivity.
Qed.

(** Code in the trampoline. *)
Lemma tramp_fetches s root T off n : has_tramp (m_mem s) root T -> h_mode (m_hart s) = SMode -> h_reg (m_hart s) Satp = MAKE_SATP root ->
  pc s = TRAMPOLINE + off -> 0 <= off -> off + n <= PGSIZE -> fetches s (trampoline + off) n.
Proof.
  intros [Hi Hl] Hm Hs Hp H0 Hn. rewrite <- (Z.add_0_r n) in Hn. split; [rewrite Hp; change TRAMPOLINE with 274877902848; lia|].
  split; [rewrite Hp; change TRAMPOLINE with 274877902848; unfold PGSIZE in *; lia|]. intros o Ho. unfold tr. rewrite Hm, Hs, Hp, <- !Z.add_assoc.
  apply (page_access _ _ T _ _ RX); [done|done|done|split; vm_compute; done|done|done|done|lia|now apply perm_RX].
Qed.

(** A process and its page table, before and while it traps. *)
Record trapping (m : memory) (tf uroot : Z) (UT : ptree) (kroot : Z) (KT : ptree) : Prop := Trapping {
  tr_user : has_tramp m uroot UT;
  tr_tf : leaf UT m TRAPFRAME = perm_pte tf RW;
  tr_page : valid_page (S := St) tf;
  tr_apart p : UT !! p <> Some tf;
  tr_kernel : has_tramp m kroot KT;
  tr_kapart p : KT !! p <> Some tf;
}.

Lemma trapping_frame m m' tf uroot UT kroot KT : trapping m tf uroot UT kroot KT -> frame_bytes m m' tf PGSIZE -> trapping m' tf uroot UT kroot KT.
Proof.
  intros [[U1 U2] U3 U4 U5 [K1 K2] K3] Hf. destruct (table_frame _ _ _ _ _ U1 U4 U5 Hf) as [U1' U2']. destruct (table_frame _ _ _ _ _ K1 U4 K3 Hf) as [K1' K2'].
  split; try done; try (split; try done); now rewrite ?U2', ?K2'.
Qed.

Lemma tf_window s tf uroot UT kroot KT acc l : trapping (m_mem s) tf uroot UT kroot KT -> h_mode (m_hart s) = SMode -> h_reg (m_hart s) Satp = MAKE_SATP uroot ->
  acc <> Fetch -> forallb slot_ok l = true -> window s acc TRAPFRAME tf PGSIZE l.
Proof.
  intros Ht Hm Hs Ha Hl. apply Forall_forall. intros q Hq. rewrite forallb_forall in Hl. specialize (Hl q (proj1 (list_elem_of_In _ _) Hq)). unfold slot_ok in Hl.
  change TF_SIZE with 288 in Hl. change TRAPFRAME with (67108862 * 4096). unfold PGSIZE, is_u64. split; [lia|]. split; [lia|]. split; [lia|]. split; [dlia|].
  unfold tr. rewrite Hm, Hs. change (67108862 * 4096) with TRAPFRAME. pose proof (vpage_pte _ (tr_page _ _ _ _ _ _ Ht)) as Hp.
  apply (page_access _ _ UT _ _ RW); [exact (proj1 (tr_user _ _ _ _ _ _ Ht))|exact (tr_tf _ _ _ _ _ _ Ht)|done|split; vm_compute; done|done|done|done|unfold PGSIZE; lia|now apply perm_RW].
Qed.

(** ** uservec *)

Lemma slot_range q : slot_ok q = true -> 0 <= q.2 /\ q.2 + 8 <= TF_SIZE.
Proof. unfold slot_ok. lia. Qed.

Lemma user_slots_ok q : q ∈ user_slots -> slot_ok q = true.
Proof. intros Hq. assert (forallb slot_ok user_slots = true) as H by reflexivity. rewrite forallb_forall in H. apply H. now apply list_elem_of_In. Qed.

Definition uservec_end : list ins := lds A0 kernel_slots ++ [Sfence; Csrw Satp T1; Sfence; Jr T0].

Lemma uservec_end_size : csize isize uservec_end <= csize isize uservec.
Proof. rewrite uservec_blocks. cbn [app csize]. rewrite csize_app. cbn [csize]. rewrite csize_app. fold uservec_end.
  pose proof (isize_pos (Csrw Sscratch A0)). pose proof (isize_pos (Li A0 TRAPFRAME)). pose proof (isize_pos (Csrr T0 Sscratch)).
  pose proof (csize_nonneg isize isize_pos (sds A0 user_slots)). pose proof (csize_nonneg isize isize_pos (sds A0 [(T0, 112)])). lia.
Qed.

(** The registers are saved, and [a0] is the trapframe. *)
Record saved_user (s s' : mach) (tf : Z) : Prop := SavedUser {
  su_regs r : tf_get (m_mem s') tf (tf_of r) = xget r s;
  su_kernel f : kernel_field f = true -> tf_get (m_mem s') tf f = tf_get (m_mem s) tf f;
  su_frame : frame_bytes (m_mem s) (m_mem s') tf TF_SIZE;
  su_a0 : xget A0 s' = TRAPFRAME;
  su_mode : h_mode (m_hart s') = h_mode (m_hart s);
  su_csr c : c <> Sscratch -> (forall r, c <> X r) -> h_reg (m_hart s') c = h_reg (m_hart s) c;
}.

Lemma tf_a0_off r : r <> A0 -> tf_off (tf_of r) + 8 <= 112 \/ 112 + 8 <= tf_off (tf_of r).
Proof. intros Hr. destruct r; try done; vm_compute; (left; discriminate) || (right; discriminate). Qed.

Lemma kernel_off f : kernel_field f = true -> tf_off f + 8 <= 40.
Proof. destruct f; try done; intros _; vm_compute; discriminate. Qed.

Lemma saved_user_intro s s' tf f :
  (forall r, is_u64 (xget r s)) -> (forall r, r <> A0 -> f (X r) = xget r s) ->
  m_mem s' = store64 (stores tf f user_slots (m_mem s)) (tf + 112) (u64 (u64 (xget A0 s))) ->
  xget A0 s' = TRAPFRAME -> h_mode (m_hart s') = h_mode (m_hart s) ->
  (forall c, c <> Sscratch -> (forall r, c <> X r) -> h_reg (m_hart s') c = h_reg (m_hart s) c) -> saved_user s s' tf.
Proof.
  intros Hr Hf M Ha Hm Hc. split; [| | |done..].
  - intros r. unfold tf_get. rewrite M. destruct (decide (r = A0)) as [->|Hn].
    + change (tf + tf_off (tf_of A0)) with (tf + 112). rewrite load64_store64_eq. now rewrite !u64_small by (try apply u64_range; apply Hr).
    + rewrite load64_store64_ne by (pose proof (tf_a0_off r Hn); lia).
      rewrite (stores_get tf f user_slots user_slots_sorted _ (r, tf_off (tf_of r)) (user_slots_all r Hn)). cbn [fst]. rewrite Hf by done. apply u64_small, Hr.
  - intros k Hk%kernel_off. unfold tf_get. rewrite M, load64_store64_ne by lia. apply stores_other, Forall_forall. intros q Hq.
    assert (forallb (fun q => 40 <=? q.2) user_slots = true) as H by reflexivity. rewrite forallb_forall in H. specialize (H q (proj1 (list_elem_of_In _ _) Hq)). lia.
  - rewrite M. eapply frame_bytes_trans; [|apply frame_store64; change TF_SIZE with 288; lia].
    apply stores_frame, Forall_forall. intros q Hq. now apply slot_range, user_slots_ok.
Qed.

Lemma uservec_saves s tf uroot UT kroot KT :
  trapping (m_mem s) tf uroot UT kroot KT -> h_mode (m_hart s) = SMode -> h_reg (m_hart s) Satp = MAKE_SATP uroot ->
  (forall r, is_u64 (xget r s)) -> fetches s trampoline (csize isize uservec) ->
  exists s' base, exec isize trampoline uservec s = exec isize base uservec_end s' /\ fetches s' base (csize isize uservec_end) /\
    base + csize isize uservec_end = trampoline + csize isize uservec /\ pc s' - base = pc s - trampoline /\ saved_user s s' tf.
Proof.
  intros Ht Hm Hs Hr Hf. rewrite uservec_blocks in *. cbn [app] in *.
  destruct (run_step isize isize_pos _ _ _ s _ Hf eq_refl ltac:(cbn [exec1]; unfold super; rewrite Hm; reflexivity) eq_refl ltac:(reflexivity)) as (-> & Hf1 & P1).
  name_state s1 Hf1.
  destruct (run_step isize isize_pos _ _ _ s1 _ Hf1 eq_refl ltac:(reflexivity) eq_refl ltac:(reflexivity)) as (-> & Hf2 & P2).
  name_state s2 Hf2.
  assert (trapping (m_mem s2) tf uroot UT kroot KT) as Ht2 by exact Ht.
  assert (stable s2 tf PGSIZE) as St2.
  { apply (stable_table _ uroot UT); [exact (proj1 (tr_user _ _ _ _ _ _ Ht))|exact Hs|cbn; now rewrite Hm|exact (tr_page _ _ _ _ _ _ Ht)|exact (tr_apart _ _ _ _ _ _ Ht)]. }
  destruct (run_saves isize isize_pos A0 TRAPFRAME tf PGSIZE user_slots _ _ s2 Hf2 ltac:(reflexivity) ltac:(now apply (tf_window s2 tf uroot UT kroot KT)) St2) as (-> & Hf3 & St3 & Tr3).
  name_state s3 Hf3.
  destruct (run_step isize isize_pos _ _ _ s3 _ Hf3 eq_refl ltac:(cbn [exec1]; unfold super; cbn [s3 saved m_hart h_mode s2 s1 put_pc put_reg]; rewrite Hm; reflexivity) eq_refl ltac:(reflexivity)) as (-> & Hf4 & P4).
  name_state s4 Hf4.
  assert (m_mem s4 = stores tf (h_reg (m_hart s2)) user_slots (m_mem s)) as M4 by reflexivity.
  assert (frame_bytes (m_mem s) (m_mem s4) tf TF_SIZE) as F4 by (rewrite M4; apply stores_frame, Forall_forall; intros q Hq; now apply slot_range, user_slots_ok).
  assert (trapping (m_mem s4) tf uroot UT kroot KT) as Ht4 by (apply (trapping_frame _ _ _ _ _ _ _ Ht); intros x Hx; apply F4; change TF_SIZE with 288; unfold PGSIZE in Hx; lia).
  assert (stable s4 tf PGSIZE) as St4 by exact St3.
  destruct (run_saves isize isize_pos A0 TRAPFRAME tf PGSIZE [(T0, 112)] _ _ s4 Hf4 ltac:(reflexivity) ltac:(now apply (tf_window s4 tf uroot UT kroot KT)) St4) as (-> & Hf5 & St5 & Tr5).
  name_state s5 Hf5.
  assert (m_mem s5 = store64 (m_mem s4) (tf + 112) (u64 (u64 (xget A0 s)))) as M5 by reflexivity.
  eexists s5, _. split; [reflexivity|]. split; [exact Hf5|]. split; [unfold uservec_end; cbn [csize app]; rewrite !csize_app; cbn [csize app]; rewrite !csize_app; cbn [csize]; lia|].
  split. { assert (pc s5 = pc s4 + csize isize (sds A0 [(T0, 112)])) by reflexivity. assert (pc s3 = pc s2 + csize isize (sds A0 user_slots)) by reflexivity. lia. }
  apply (saved_user_intro s s5 tf (h_reg (m_hart s2))); [done|now intros [] ?|done|reflexivity|reflexivity|].
  intros [] ? Hx; try done; now destruct (Hx r).
Qed.

(** In the kernel: the state that [usertrap] starts in. *)
Record entered (s s' : mach) (tf : Z) : Prop := Entered {
  en_regs r : tf_get (m_mem s') tf (tf_of r) = xget r s;
  en_kernel f : kernel_field f = true -> tf_get (m_mem s') tf f = tf_get (m_mem s) tf f;
  en_frame : frame_bytes (m_mem s) (m_mem s') tf TF_SIZE;
  en_mode : h_mode (m_hart s') = SMode;
  en_pc : pc s' = tf_get (m_mem s) tf tf_kernel_trap;
  en_satp : h_reg (m_hart s') Satp = tf_get (m_mem s) tf tf_kernel_satp;
  en_sp : xget Sp s' = tf_get (m_mem s) tf tf_kernel_sp;
  en_tp : xget Tp s' = tf_get (m_mem s) tf tf_kernel_hartid;
  en_csr c : c <> Sscratch -> c <> Satp -> (forall r, c <> X r) -> h_reg (m_hart s') c = h_reg (m_hart s) c;
}.

Lemma uservec_ok s tf uroot UT kroot KT :
  trapping (m_mem s) tf uroot UT kroot KT -> h_mode (m_hart s) = SMode -> h_reg (m_hart s) Satp = MAKE_SATP uroot ->
  (forall r, is_u64 (xget r s)) -> pc s = TRAMPOLINE -> csize isize uservec <= PGSIZE -> tf_get (m_mem s) tf tf_kernel_satp = MAKE_SATP kroot ->
  exists s', exec isize trampoline uservec s = Some s' /\ entered s s' tf.
Proof.
  intros Ht Hm Hs Hr Hp Hsz Hk. assert (fetches s trampoline (csize isize uservec)) as Hf.
  { rewrite <- (Z.add_0_r trampoline). apply (tramp_fetches s uroot UT); [exact (tr_user _ _ _ _ _ _ Ht)|done|done|lia|lia|lia]. }
  destruct (uservec_saves s tf uroot UT kroot KT Ht Hm Hs Hr Hf) as (s1 & base & -> & Hf1 & Eb & Ep & HS). pose proof HS as [R K F A M C]. rewrite Hm in M.
  assert (trapping (m_mem s1) tf uroot UT kroot KT) as Ht1 by (apply (trapping_frame _ _ _ _ _ _ _ Ht); intros x Hx; apply F; change TF_SIZE with 288; unfold PGSIZE in Hx; lia).
  assert (h_reg (m_hart s1) Satp = MAKE_SATP uroot) as Hs1 by (rewrite C by done; done).
  unfold uservec_end in *.
  destruct (run_loads isize isize_pos A0 TRAPFRAME tf PGSIZE kernel_slots _ _ s1 Hf1 ltac:(apply (bool_decide_unpack _); vm_compute; exact I) A
    ltac:(now apply (tf_window s1 tf uroot UT kroot KT))) as (-> & Hf2). name_state s2 Hf2.
  assert (forall q, q ∈ kernel_slots -> xget q.1 s2 = load64 (m_mem s1) (tf + q.2)) as G.
  { intros q Hq. apply (loads_get tf (m_mem s1) kernel_slots); [apply (bool_decide_unpack _); vm_compute; exact I|done]. }
  destruct (run_step isize isize_pos _ _ _ s2 _ Hf2 eq_refl ltac:(cbn [exec1]; unfold super; cbn [s2 loaded m_hart h_mode]; rewrite M; reflexivity) eq_refl ltac:(reflexivity)) as (-> & Hf3 & P3). name_state s3 Hf3.
  assert (xget T1 s3 = MAKE_SATP kroot) as ET1.
  { rewrite <- Hk, <- (K tf_kernel_satp eq_refl). apply (G (T1, 0)). apply (bool_decide_unpack _); vm_compute; exact I. }
  assert (exec1 (isize (Csrw Satp T1)) (Csrw Satp T1) s3 = Some (put_pc (pc s3 + isize (Csrw Satp T1)) (put_reg Satp (MAKE_SATP kroot) s3))) as E4.
  { cbn [exec1]. unfold super. cbn [s3 put_pc s2 loaded m_hart h_mode]. rewrite M, <- ET1. reflexivity. }
  rewrite (run_switch isize isize_pos _ _ _ s3 _ Hf3 eq_refl E4). set (s4 := put_pc _ _).
  assert (pc s4 = pc s3 + isize (Csrw Satp T1)) as P4.
  { apply u64_small. destruct Hf3 as (? & ? & _). pose proof (isize_pos (Csrw Satp T1)). pose proof (csize_nonneg isize isize_pos [Sfence; Jr T0]). cbn [csize] in *. unfold is_u64. lia. }
  assert (pc s2 = pc s1 + csize isize (lds A0 kernel_slots)) as P2 by reflexivity.
  pose proof (pt_page _ _ _ (proj1 (tr_kernel _ _ _ _ _ _ Ht)) [] kroot (pt_root _ _ _ (proj1 (tr_kernel _ _ _ _ _ _ Ht)))) as Vk.
  assert (h_reg (m_hart s4) Satp = MAKE_SATP kroot) as Hs4 by (cbn; apply u64_small, (satp_u64 _ Vk)).
  pose proof uservec_end_size as Hle. unfold uservec_end in Hle. rewrite csize_app in Eb, Hle. cbn [csize] in Eb, Hle.
  pose proof (isize_pos Sfence) as Z2. pose proof (isize_pos (Csrw Satp T1)) as Z3. pose proof (isize_pos (Jr T0)) as Z4. pose proof (csize_nonneg isize isize_pos (lds A0 kernel_slots)) as Z1.
  assert (fetches s4 (base + csize isize (lds A0 kernel_slots) + isize Sfence + isize (Csrw Satp T1)) (csize isize [Sfence; Jr T0])) as Hf4.
  { replace (base + _ + _ + _) with (trampoline + (base - trampoline + csize isize (lds A0 kernel_slots) + isize Sfence + isize (Csrw Satp T1))) by lia.
    apply (tramp_fetches s4 kroot KT); [exact (tr_kernel _ _ _ _ _ _ Ht1)|exact M|exact Hs4|lia|lia|cbn [csize]; lia]. }
  destruct (run_step isize isize_pos _ _ _ s4 _ Hf4 eq_refl ltac:(cbn [exec1]; unfold super; cbn [s4 s3 put_pc put_reg s2 loaded m_hart h_mode]; rewrite M; reflexivity) eq_refl ltac:(reflexivity)) as (-> & Hf5 & P5). name_state s5 Hf5.
  cbn [csize] in Hf5. rewrite Z.add_0_r in Hf5. eexists. split; [apply (exec_last isize isize_pos); [exact Hf5|done|reflexivity]|].
  assert (forall q f, q ∈ kernel_slots -> tf + q.2 = tf + tf_off f -> kernel_field f = true -> xget q.1 s2 = tf_get (m_mem s) tf f) as G'.
  { intros q f Hq E Hf'. rewrite (G q Hq), E. now apply K. }
  split; [exact R|exact K|exact F|exact M| | | | |].
  - transitivity (u64 (xget T0 s2)); [reflexivity|]. assert (xget T0 s2 = tf_get (m_mem s) tf tf_kernel_trap) as -> by (apply (G' (T0, 16)); [apply (bool_decide_unpack _); vm_compute; exact I|done|done]).
    apply u64_small, load64_range.
  - rewrite Hk. exact Hs4.
  - apply (G' (Sp, 8)); [apply (bool_decide_unpack _); vm_compute; exact I|done|done].
  - apply (G' (Tp, 32)); [apply (bool_decide_unpack _); vm_compute; exact I|done|done].
  - intros c C1 C2 C3. rewrite <- (C c C1 C3). transitivity (h_reg (m_hart s2) c).
    + cbn [m_hart put_pc put_reg h_reg s5 s4 s3]. now apply fn_lookup_insert_ne.
    + apply (loads_other tf (m_mem s1) kernel_slots). intros x ->. now destruct (C3 x).
Qed.

(** ** userret *)

(** Back in user space: the registers are those of the trapframe. *)
Record left_kernel (s s' : mach) (tf : Z) : Prop := LeftKernel {
  lk_regs r : xget r s' = tf_get (m_mem s) tf (tf_of r);
  lk_mem : m_mem s' = m_mem s;
  lk_mode : h_mode (m_hart s') = if Z.testbit (h_reg (m_hart s) Sstatus) 8 then SMode else UMode;
  lk_pc : pc s' = u64 (h_reg (m_hart s) Sepc);
  lk_satp : h_reg (m_hart s') Satp = xget A0 s;
  lk_stvec : h_reg (m_hart s') Stvec = h_reg (m_hart s) Stvec;
}.

Lemma userret_ok s tf uroot UT kroot KT off :
  trapping (m_mem s) tf uroot UT kroot KT -> h_mode (m_hart s) = SMode -> h_reg (m_hart s) Satp = MAKE_SATP kroot -> xget A0 s = MAKE_SATP uroot ->
  pc s = TRAMPOLINE + off -> 0 <= off -> off + csize isize userret <= PGSIZE ->
  exists s', exec isize (trampoline + off) userret s = Some s' /\ left_kernel s s' tf.
Proof.
  intros Ht Hm Hs Ha Hp Ho Hsz. pose proof (tramp_fetches s kroot KT off (csize isize userret) (tr_kernel _ _ _ _ _ _ Ht) Hm Hs Hp Ho Hsz) as Hf.
  rewrite userret_blocks in *. cbn [app] in *.
  destruct (run_step isize isize_pos _ _ _ s _ Hf eq_refl ltac:(cbn [exec1]; unfold super; rewrite Hm; reflexivity) eq_refl ltac:(reflexivity)) as (-> & Hf1 & P1). name_state s1 Hf1.
  assert (exec1 (isize (Csrw Satp A0)) (Csrw Satp A0) s1 = Some (put_pc (pc s1 + isize (Csrw Satp A0)) (put_reg Satp (MAKE_SATP uroot) s1))) as E2.
  { cbn [exec1]. unfold super. cbn [s1 put_pc m_hart h_mode]. rewrite Hm, <- Ha. reflexivity. }
  rewrite (run_switch isize isize_pos _ _ _ s1 _ Hf1 eq_refl E2). set (s2 := put_pc _ _).
  set (rest := lds A0 user_slots ++ _) in *. cbn [csize] in Hsz, Hf1. pose proof (csize_nonneg isize isize_pos rest) as Z0.
  pose proof (isize_pos Sfence) as Z1. pose proof (isize_pos (Csrw Satp A0)) as Z2. pose proof (isize_pos (Li A0 TRAPFRAME)) as Z3.
  assert (pc s2 = pc s1 + isize (Csrw Satp A0)) as P2.
  { apply u64_small. destruct Hf1 as (? & ? & _). unfold is_u64. lia. }
  pose proof (pt_page _ _ _ (proj1 (tr_user _ _ _ _ _ _ Ht)) [] uroot (pt_root _ _ _ (proj1 (tr_user _ _ _ _ _ _ Ht)))) as Vu.
  assert (h_reg (m_hart s2) Satp = MAKE_SATP uroot) as Hs2 by (cbn; apply u64_small, (satp_u64 _ Vu)).
  assert (fetches s2 (trampoline + off + isize Sfence + isize (Csrw Satp A0)) (csize isize (Sfence :: Li A0 TRAPFRAME :: rest))) as Hf2.
  { rewrite <- !(Z.add_assoc trampoline). apply (tramp_fetches s2 uroot UT); [exact (tr_user _ _ _ _ _ _ Ht)|exact Hm|exact Hs2|lia|lia|cbn [csize]; lia]. }
  destruct (run_step isize isize_pos _ _ _ s2 _ Hf2 eq_refl ltac:(cbn [exec1]; unfold super; cbn [s2 s1 put_pc put_reg m_hart h_mode]; rewrite Hm; reflexivity) eq_refl ltac:(reflexivity)) as (-> & Hf3 & P3). name_state s3 Hf3.
  destruct (run_step isize isize_pos _ _ _ s3 _ Hf3 eq_refl ltac:(reflexivity) eq_refl ltac:(reflexivity)) as (-> & Hf4 & P4). name_state s4 Hf4.
  assert (trapping (m_mem s4) tf uroot UT kroot KT) as Ht4 by exact Ht. unfold rest in *.
  destruct (run_loads isize isize_pos A0 TRAPFRAME tf PGSIZE user_slots _ _ s4 Hf4 ltac:(apply (bool_decide_unpack _); vm_compute; exact I) ltac:(reflexivity)
    ltac:(now apply (tf_window s4 tf uroot UT kroot KT))) as (-> & Hf5). name_state s5 Hf5.
  assert (exec1 (isize (Ld A0 112 A0)) (Ld A0 112 A0) s5 = Some (put_pc (pc s5 + isize (Ld A0 112 A0)) (put_reg (X A0) (load64 (m_mem s) (tf + 112)) s5))) as E6.
  { assert (window s5 Load TRAPFRAME tf PGSIZE [(A0, 112)]) as W by now apply (tf_window s5 tf uroot UT kroot KT).
    apply Forall_cons_1 in W as [(_ & _ & _ & _ & W) _]. cbn [snd] in W. cbn [exec1]. assert (xget A0 s5 = TRAPFRAME) as -> by reflexivity.
    change (u64 (TRAPFRAME + 112)) with (TRAPFRAME + 112). change ((TRAPFRAME + 112) mod 8 =? 0) with true. cbn [negb]. rewrite W. reflexivity. }
  destruct (run_step isize isize_pos _ _ _ s5 _ Hf5 eq_refl E6 eq_refl ltac:(reflexivity)) as (-> & Hf6 & P6). name_state s6 Hf6.
  cbn [csize] in Hf6. rewrite Z.add_0_r in Hf6. set (x := h_reg (m_hart s6) Sstatus).
  exists (put_pc (h_reg (m_hart s6) Sepc) (put_mode (if Z.testbit x 8 then SMode else UMode) (put_reg Sstatus (put_bit false 8 (put_bit true 5 (put_bit (Z.testbit x 5) 1 x))) s6))).
  split. { apply (exec_last isize isize_pos); [exact Hf6|done|]. cbn [exec1]. unfold super. assert (h_mode (m_hart s6) = SMode) as -> by exact Hm. reflexivity. }
  assert (h_reg (m_hart s6) = <[X A0 := u64 (load64 (m_mem s) (tf + 112))]> (h_reg (m_hart s5))) as R6 by reflexivity.
  assert (h_reg (m_hart s5) = loads tf (m_mem s) user_slots (h_reg (m_hart s4))) as R5 by reflexivity.
  assert (forall c, c <> Satp -> (forall r, c <> X r) -> h_reg (m_hart s6) c = h_reg (m_hart s) c) as C.
  { intros c C1 C2. rewrite R6, fn_lookup_insert_ne by (intros <-; now apply (C2 A0)). rewrite R5, loads_other by (intros y ->; now destruct (C2 y)).
    transitivity (h_reg (m_hart s2) c); [apply fn_lookup_insert_ne; intros <-; now apply (C2 A0)|]. apply fn_lookup_insert_ne. congruence. }
  assert (h_reg (m_hart s6) Satp = MAKE_SATP uroot) as Hs6 by (rewrite R6, fn_lookup_insert_ne, R5, loads_other by done; exact Hs2).
  assert (m_mem s6 = m_mem s) as M6 by reflexivity. subst x. clearbody s6. clear Hf6 E6 P6.
  split; [|exact M6|cbn [m_hart put_pc put_mode h_mode]; now rewrite C| | |].
  - intros r. unfold xget. cbn [m_hart put_pc put_mode put_reg h_reg]. rewrite fn_lookup_insert_ne, R6 by done.
    destruct (decide (r = A0)) as [->|Hn]; [rewrite fn_lookup_insert; apply u64_small, load64_range|]. rewrite fn_lookup_insert_ne by congruence.
    rewrite R5. apply (loads_get tf (m_mem s) user_slots user_slots_nodup _ (r, tf_off (tf_of r))). now apply user_slots_all.
  - unfold pc. cbn [m_hart put_pc h_pc]. now rewrite C.
  - cbn [m_hart put_pc put_mode put_reg h_reg]. rewrite fn_lookup_insert_ne by done. now rewrite Ha.
  - cbn [m_hart put_pc put_mode put_reg h_reg]. rewrite fn_lookup_insert_ne by done. now rewrite C.
Qed.
End tramp.
