(* ===== verification/TrapPath.v ===== *)
(** * A system call from user space and back

    The hardware's trap, uservec, usertrap and userret in a row: trampoline.S and
    trap.c joined at the trapframe and the control registers. *)

From stdpp Require Import base gmap list numbers functions strings option.
From S2P Require Import Prelude Mem Trapframe Block StringC Riscv Csr Kalloc Vm PageTable Spinlock Locks Bio Log BlockIO Fs FsDemo Pipe File FileThms Sysfile SysfileThms Proc ProcThms Exec Syscall Trap TrapThms Asm AsmSpec Trampoline.

Open Scope Z_scope.

(** The control registers as trap.c reads them. *)
Definition csrs_of (s : mach) : csrs :=
  let r := h_reg (m_hart s) in Csrs (r Sstatus) (r Sepc) (r Scause) (r Stvec) (r Satp) (r Stimecmp) (r Time) (r (X Tp)).

Lemma land_bit x i : 0 <= i -> Z.testbit x i = false -> Z.land x (Z.shiftl 1 i) = 0.
Proof.
  intros Hi Hx. apply Z.bits_inj'. intros k Hk. rewrite Z.land_spec, Z.bits_0, Z.shiftl_spec by done. destruct (decide (k = i)) as [->|Hn]; [now rewrite Hx|].
  apply andb_false_iff. right. destruct (Z.lt_ge_cases k i); [apply Z.testbit_neg_r; lia|]. change 1 with (Z.ones 1). apply Z.ones_spec_high. lia.
Qed.

(** The trap from user space. *)
Record trapped (s0 s : mach) : Prop := Trapped {
  td_mem : m_mem s = m_mem s0;
  td_mode : h_mode (m_hart s) = SMode;
  td_pc : pc s = u64 (h_reg (m_hart s0) Stvec);
  td_epc : h_reg (m_hart s) Sepc = u64 (pc s0);
  td_spp : Z.land (h_reg (m_hart s) Sstatus) SSTATUS_SPP = 0;
  td_reg c : c <> Sstatus -> c <> Sepc -> c <> Scause -> h_reg (m_hart s) c = h_reg (m_hart s0) c;
}.

Lemma take_trap_ok cause s0 : h_mode (m_hart s0) = UMode -> trapped s0 (take_trap cause s0) /\ h_reg (m_hart (take_trap cause s0)) Scause = u64 cause.
Proof.
  intros Hm. split; [|reflexivity]. split; [reflexivity|reflexivity|reflexivity|reflexivity| |].
  - unfold take_trap. rewrite Hm. cbn [m_hart put_pc put_mode put_reg h_reg]. rewrite !(fn_lookup_insert_ne _ _ Sstatus), fn_lookup_insert by done.
    apply land_bit; [done|]. unfold u64. rewrite Z.mod_pow2_bits_low by done. unfold put_bit at 1. now rewrite Z.clearbit_eq.
  - intros c H1 H2 H3. unfold take_trap. cbn [m_hart put_pc put_mode put_reg h_reg]. now rewrite !fn_lookup_insert_ne by congruence.
Qed.
Section path.
Context {B U : Type} `{BlockIO B} `{UserIO U} `{PageAllocator U} `{!UserLaws U}.
Context {St : Type} `{PA : PageAllocator St} `{PS : !PageAllocatorSpec St}.
Context (isize : ins -> Z) (isize_pos : forall i, 0 < isize i).

(** The code and its addresses; the trampoline is a page that starts with
    [uservec] and goes on with [userret], as kernel.ld and trampoline.S lay it
    out. *)
Context (trampoline forkret_pc : Z) (name_addr : Z -> Z).
Context (devsw_read devsw_write : Z -> option (Z -> Z -> M (kst B U) Z)).
Context (dot dotdot kernelvec usertrap_pc ticks_addr : Z).
Context (plic_claim : M (tst B U) Z) (plic_complete : Z -> M (tst B U) unit) (uartintr virtio_disk_intr : M (tst B U) unit).
Hypothesis tramp_page : pte_page trampoline.
Hypothesis tramp_fits : csize isize uservec + csize isize userret <= PGSIZE.

Definition userret_pc : Z := trampoline + csize isize uservec.

Local Abbreviation the_usertrap :=
  (usertrap trampoline forkret_pc name_addr devsw_read devsw_write dot dotdot kernelvec trampoline usertrap_pc
     plic_claim plic_complete uartintr virtio_disk_intr ticks_addr).

Lemma pmem_with_mem m (s : pst B U) : pmem (with_mem m s) = m.
Proof. apply u_mem_set. Qed.

Lemma reg_with_mem f m (s : pst B U) : TrapThms.reg f (with_mem m s) = tf_get m (ptf s) f.
Proof. unfold TrapThms.reg, tf_reg. change (f_mem _) with (pmem (with_mem m s)). now rewrite pmem_with_mem. Qed.

Lemma the_proc_with_mem m (s : pst B U) i : the_proc (with_mem m s) i = the_proc s i.
Proof. unfold the_proc, load_user. cbn. now rewrite u_pagetable_mem. Qed.

Lemma simple_result_mem n m (s : pst B U) : simple_result n (with_mem m s) = simple_result n s.
Proof. unfold simple_result. now rewrite the_proc_with_mem. Qed.

(** [s0] is in user space, with the page table and the trapframe of the process
    that [s] has as the current one; the next trap goes to the kernel. *)
Record user_state (s0 : mach) (s : pst B U) (uroot : Z) (UT : ptree) (kroot : Z) (KT : ptree) : Prop := UserState {
  us_map : trapping (St := St) trampoline (m_mem s0) (ptf s) uroot UT kroot KT;
  us_mode : h_mode (m_hart s0) = UMode;
  us_satp : h_reg (m_hart s0) Satp = MAKE_SATP uroot;
  us_stvec : h_reg (m_hart s0) Stvec = TRAMPOLINE;
  us_regs r : is_u64 (xget r s0);
  us_pc : is_u64 (pc s0);
  us_kernel_satp : tf_get (m_mem s0) (ptf s) tf_kernel_satp = MAKE_SATP kroot;
  us_kernel_trap : tf_get (m_mem s0) (ptf s) tf_kernel_trap = usertrap_pc;
  us_root : u_pagetable (f_user (k_fs (y_k s))) = uroot;
  us_lock : proc_lock (y_me s) ∉ locks s;
  us_alive : up_killed (k_proc (y_k s)) = false;
}.

(** The kernel's state when the function of the system call starts: the user's
    registers are in the trapframe, with the instruction after the [ecall] as the
    next one, and nothing else has changed. *)
Record entered (s0 : mach) (s sc : pst B U) (uroot : Z) (UT : ptree) (kroot : Z) (KT : ptree) : Prop := Entered {
  en_state : sc = with_mem (pmem sc) s;
  en_frame : frame_bytes (m_mem s0) (pmem sc) (ptf s) TF_SIZE;
  en_epc : TrapThms.reg tf_epc sc = u64 (pc s0 + 4);
  en_regs q : TrapThms.reg (tf_of q) sc = xget q s0;
  en_map : trapping (St := St) trampoline (pmem sc) (ptf sc) uroot UT kroot KT;
}.

(** The program's state when [userret] has left the kernel after a system call
    that returned [r] in [s5]. *)
Record left (s0 : mach) (sc s5 : pst B U) (r uroot : Z) (s3 : mach) : Prop := Left {
  lf_mode : h_mode (m_hart s3) = UMode;
  lf_pc : pc s3 = TrapThms.reg tf_epc s5;
  lf_regs q : xget q s3 = if decide (q = A0) then u64 r else TrapThms.reg (tf_of q) s5;
  lf_same : (forall f, TrapThms.reg f s5 = TrapThms.reg f sc) ->
    pc s3 = u64 (pc s0 + 4) /\ forall q, xget q s3 = if decide (q = A0) then u64 r else xget q s0;
  lf_satp : h_reg (m_hart s3) Satp = MAKE_SATP uroot;
  lf_stvec : h_reg (m_hart s3) Stvec = TRAMPOLINE;
  lf_frame : frame_bytes (pmem s5) (m_mem s3) (ptf s5) TF_SIZE;
}.

Lemma call_entered s0 s s1 uroot UT kroot KT :
  user_state s0 s uroot UT kroot KT -> frame_bytes (m_mem s0) (m_mem s1) (ptf s) TF_SIZE ->
  (forall q, tf_get (m_mem s1) (ptf s) (tf_of q) = xget q s0) -> h_reg (m_hart s1) Sepc = pc s0 ->
  entered s0 s (call_state (csrs_of s1) (with_mem (m_mem s1) s)) uroot UT kroot KT.
Proof.
  intros [Hmap _ _ _ _ Hpc _ _ _ _ _] F R E. set (s4 := with_mem (m_mem s1) s). set (sc := call_state _ s4).
  assert (frame_bytes (m_mem s0) (pmem sc) (ptf s) TF_SIZE) as Fr.
  { intros x Hx. unfold sc, call_state. rewrite !pmem_with_reg, !rd_tf_set by exact Hx. unfold s4. rewrite pmem_with_mem. now apply F. }
  assert (forall f, TrapThms.reg f sc = if decide (f = tf_epc) then u64 (pc s0 + 4) else tf_get (m_mem s1) (ptf s) f) as Hreg.
  { intros f. unfold sc, call_state. rewrite !reg_with_reg. cbn [csrs_of sepc]. rewrite E, (u64_small (pc s0)) by done. case_decide; [done|].
    unfold s4. apply reg_with_mem. }
  split.
  - rewrite (with_mem_onto sc) at 1. unfold sc, call_state, with_reg, s4, with_mem, Fs.set_mem. cbn. now rewrite !u_set_set.
  - exact Fr.
  - rewrite Hreg. now rewrite decide_True.
  - intros q. rewrite Hreg, decide_False by (now destruct q). apply R.
  - change (ptf sc) with (ptf s). apply (trapping_frame _ _ _ _ _ _ _ _ Hmap). intros x Hx. apply Fr. change TF_SIZE with 288. unfold PGSIZE in Hx. lia.
Qed.

Local Abbreviation the_dispatch := (dispatch trampoline forkret_pc name_addr devsw_read devsw_write dot dotdot).

(** C34: A system call as a user program sees it.  From the [ecall] in user mode
    the hart goes through [uservec] to [usertrap], on the kernel's page table and
    stack; the function for the number in [a7] starts in a state [sc] that has the
    user's registers in the trapframe and is otherwise the state before.  If the
    function returns [r], in a state [s5] in which the process does not hold its
    lock, has not been killed and has its trapframe and a page table mapped, then
    [usertrap] returns, and from its registers [userret] goes back to user mode on
    that page table: [a0] is [r], and the other registers and the program counter
    are those in the trapframe of [s5].  A call that leaves the trapframe alone
    thus ends after the [ecall] with the other registers as they were; for a number
    without a function and for [getpid] the call returns -1, or the pid, in [sc]
    itself.  Nothing but the trapframe changes
    on the way in and on the way out. *)
Theorem user_syscall s0 s uroot UT kroot KT :
  user_state s0 s uroot UT kroot KT ->
  exists s1, exec isize trampoline uservec (take_trap 8 s0) = Some s1 /\ pc s1 = usertrap_pc /\
    xget Sp s1 = tf_get (m_mem s0) (ptf s) tf_kernel_sp /\ h_reg (m_hart s1) Satp = MAKE_SATP kroot /\
    let sc := call_state (csrs_of s1) (with_mem (m_mem s1) s) in
    entered s0 s sc uroot UT kroot KT /\
    (forall r, simple_result (i32 (xget A7 s0)) s = Some r -> the_dispatch (i32 (xget A7 s0)) sc = Ok r sc) /\
    forall r s5 uroot' UT',
      the_dispatch (i32 (xget A7 s0)) sc = Ok r s5 -> proc_lock (y_me s5) ∉ locks s5 -> up_killed (k_proc (y_k s5)) = false ->
      u_pagetable (f_user (k_fs (y_k s5))) = uroot' -> trapping (St := St) trampoline (pmem s5) (ptf s5) uroot' UT' kroot KT ->
      exists satp s' c', the_usertrap (TSt (with_mem (m_mem s1) s) (csrs_of s1)) = Ok satp (TSt s' c') /\ s' = with_mem (pmem s') s5 /\
        forall s2, m_mem s2 = pmem s' -> csrs_of s2 = c' -> h_mode (m_hart s2) = SMode -> xget A0 s2 = satp ->
          pc s2 = TRAMPOLINE + (userret_pc - trampoline) ->
          exists s3, exec isize userret_pc userret s2 = Some s3 /\ left s0 sc s5 r uroot' s3.
Proof.
  intros Hus. pose proof Hus as [Hmap Hmode Hsatp Hstvec Hregs Hpc Hks Hkt Hroot Hlock Halive].
  destruct (take_trap_ok 8 s0 Hmode) as [[T1 T2 T3 T4 T5 T6] T7]. set (t := take_trap 8 s0) in *. clearbody t.
  rewrite Hstvec in T3. change (u64 TRAMPOLINE) with TRAMPOLINE in T3. rewrite (u64_small (pc s0)) in T4 by done.
  assert (forall q, xget q t = xget q s0) as Hx by (intros q; now apply T6).
  pose proof (csize_nonneg isize isize_pos userret) as Z0. pose proof (csize_nonneg isize isize_pos uservec) as Z1.
  destruct (uservec_ok isize isize_pos trampoline tramp_page t (ptf s) uroot UT kroot KT) as (s1 & E1 & [R K F M P Sa Sp' _ C]);
    [now rewrite T1|done|now rewrite T6|intros q; rewrite Hx; apply Hregs|done|lia|now rewrite T1|].
  rewrite T1 in *. exists s1. split; [done|]. split; [now rewrite P|]. split; [done|]. split; [now rewrite Sa|]. set (s4 := with_mem (m_mem s1) s).
  assert (entered s0 s (call_state (csrs_of s1) s4) uroot UT kroot KT) as Hen.
  { apply call_entered; [done|done|intros q; rewrite (R q); apply Hx|rewrite C by done; exact T4]. }
  assert (i32 (TrapThms.reg tf_a7 s4) = i32 (xget A7 s0)) as Ha7.
  { unfold s4. rewrite reg_with_mem. now rewrite (R A7 : tf_get _ _ tf_a7 = _), Hx. }
  split; [exact Hen|]. split.
  { intros r Hr. apply dispatch_simple. rewrite (en_state _ _ _ _ _ _ _ Hen). now rewrite simple_result_mem. }
  intros r s5 uroot' UT' Hd Hl5 Hk5 Hr5 Hm5. rewrite <- Ha7 in Hd.
  destruct (usertrap_call trampoline forkret_pc name_addr devsw_read devsw_write dot dotdot kernelvec trampoline usertrap_pc ticks_addr plic_claim plic_complete uartintr virtio_disk_intr
    s4 (csrs_of s1) r s5) as (s' & c' & E2 & G & F' & W & V1 & V2 & V3 & _ & _ & V4);
    [cbn; rewrite C by done; exact T5|cbn; rewrite C by done; exact T7|exact Hlock|exact Halive|exact Hd|exact Hl5|exact Hk5|].
  rewrite Hr5 in E2. exists (MAKE_SATP uroot'), s', c'. split; [exact E2|]. split; [done|].
  intros s2 M2 C2 H2 A2 P2. rewrite <- C2 in V1, V2, V3, V4. cbn [csrs_of stvec sepc sstatus satp] in V1, V2, V3, V4.
  destruct (userret_ok isize isize_pos trampoline tramp_page s2 (ptf s5) uroot' UT' kroot KT (csize isize uservec)) as (s3 & E3 & [L1 L2 L3 L4 L5 L6]);
    [rewrite M2; apply (trapping_frame _ _ _ _ _ _ _ _ Hm5); intros x Hx'; apply F'; change TF_SIZE with 288; unfold PGSIZE in Hx'; lia|done|rewrite V4, Sa; done|done
    |rewrite P2; unfold userret_pc; lia|lia|lia|].
  exists s3. split; [exact E3|].
  assert (forall q, xget q s3 = if decide (q = A0) then u64 r else TrapThms.reg (tf_of q) s5) as Hq.
  { intros q. rewrite L1, M2. transitivity (TrapThms.reg (tf_of q) s'); [rewrite W, reg_with_mem; now rewrite <- W|]. rewrite G. now destruct q. }
  assert (pc s3 = TrapThms.reg tf_epc s5) as Hp3 by (rewrite L4, V2; apply u64_small, load64_range).
  split; [now rewrite L3, V3|exact Hp3|exact Hq| |now rewrite L5|rewrite L6, V1, Z.sub_diag; reflexivity|rewrite L2, M2; intros x Hx'; now apply F'].
  intros Hsame. rewrite Hp3, Hsame. split; [apply Hen|]. intros q. rewrite Hq, Hsame. case_decide; [done|apply Hen].
Qed.
End path.

(** ** A process in user space *)

Definition path_kend : Z := PHYSTOP - 16 * 4096.
#[local] Instance path_pa : PageAllocator kstate := kmem_allocator path_kend.
#[local] Instance path_ps : PageAllocatorSpec kstate := kmem_allocator_spec path_kend ltac:(done).

(** Tables that lead to one level-0 table, for the last 2 MB of addresses. *)
Definition three (a b c : Z) : ptree := {[ [] := a; [255] := b; [255; 511] := c ]}.

Definition entry_at (m : memory) (a k b : Z) : bool :=
  forallb (fun i => load64 m (pte_at a i) =? if i =? k then Z.lor (PA2PTE b) PTE_V else 0) (seqZ 0 512).

Lemma entry_at_ok m a k b i : entry_at m a k b = true -> 0 <= i < 512 -> load64 m (pte_at a i) = if i =? k then Z.lor (PA2PTE b) PTE_V else 0.
Proof. intros H Hi. unfold entry_at in H. rewrite forallb_forall in H. apply Z.eqb_eq, H. apply list_elem_of_In, elem_of_seqZ. lia. Qed.

Lemma three_lookup a b c p x : three a b c !! p = Some x <-> p = [] /\ x = a \/ p = [255] /\ x = b \/ p = [255; 511] /\ x = c.
Proof.
  unfold three. rewrite !lookup_insert_Some, lookup_singleton_Some. split.
  - intros [[<- <-]|[? [[<- <-]|[? [<- <-]]]]]; auto.
  - intros [[-> ->]|[[-> ->]|[-> ->]]]; naive_solver.
Qed.

Lemma three_table m a b c :
  valid_page (S := kstate) a -> valid_page (S := kstate) b -> valid_page (S := kstate) c -> a <> b -> a <> c -> b <> c ->
  entry_at m a 255 b = true -> entry_at m b 511 c = true -> pt_inv (St := kstate) m a (three a b c).
Proof.
  intros Va Vb Vc N1 N2 N3 Ea Eb.
  split.
  - apply three_lookup. auto.
  - intros p x. rewrite three_lookup. naive_solver.
  - intros p q x. rewrite !three_lookup. naive_solver.
  - intros p i x. rewrite three_lookup. intros [[E _]|[[E _]|[E _]]]; [now destruct p|destruct p as [|? [|]]; simplify_eq/=; split; [eexists; apply three_lookup; eauto|lia]|].
    destruct p as [|y [|z [|]]]; simplify_eq/=. split; [eexists; apply three_lookup; eauto|lia].
  - intros i p x. rewrite three_lookup. intros [[E _]|[[E _]|[E _]]]; simplify_eq/=; lia.
  - intros p x i. rewrite three_lookup. intros [[-> ->]|[[-> ->]|[-> ->]]] Hl Hi; [| |cbn in Hl; lia].
    + rewrite (entry_at_ok m a 255 b i Ea Hi). destruct (three a b c !! ([] ++ [i])) as [y|] eqn:E.
      * apply three_lookup in E as [[E _]|[[E ->]|[E _]]]; simplify_eq/=. done.
      * destruct (Z.eqb_spec i 255) as [->|]; [|done]. cbn [app] in E. rewrite (proj2 (three_lookup a b c [255] b)) in E by auto. done.
    + rewrite (entry_at_ok m b 511 c i Eb Hi). destruct (three a b c !! ([255] ++ [i])) as [y|] eqn:E.
      * apply three_lookup in E as [[E _]|[[E _]|[E ->]]]; simplify_eq/=. done.
      * destruct (Z.eqb_spec i 511) as [->|]; [|done]. cbn [app] in E. rewrite (proj2 (three_lookup a b c [255; 511] c)) in E by auto. done.
Qed.

(** The page table of the process, the kernel's and the trapframe. *)
Definition demo_tf : Z := path_kend.
Definition demo_uroot : Z := path_kend + 1 * 4096.
Definition demo_kroot : Z := path_kend + 4 * 4096.
Definition demo_tramp : Z := KERNBASE + 4096.
Definition demo_usertrap : Z := KERNBASE + 8192.

Definition demo_tables (m : memory) (a : Z) (last last2 : Z) : memory :=
  let b := a + 4096 in let c := b + 4096 in
  store64 (store64 (store64 (store64 m (pte_at a 255) (Z.lor (PA2PTE b) PTE_V)) (pte_at b 511) (Z.lor (PA2PTE c) PTE_V)) (pte_at c 511) last) (pte_at c 510) last2.

Definition path_mem : memory :=
  tf_set (tf_set (demo_tables (demo_tables ∅ demo_uroot (perm_pte demo_tramp RX) (perm_pte demo_tf RW)) demo_kroot (perm_pte demo_tramp RX) 0)
    demo_tf tf_kernel_satp (MAKE_SATP demo_kroot)) demo_tf tf_kernel_trap demo_usertrap.

Definition demo_UT : ptree := three demo_uroot (demo_uroot + 4096) (demo_uroot + 8192).
Definition demo_KT : ptree := three demo_kroot (demo_kroot + 4096) (demo_kroot + 8192).

Lemma demo_page k : 0 <= k < 16 -> valid_page (S := kstate) (path_kend + k * 4096).
Proof. intros Hk. unfold valid_page, path_ps, kmem_allocator_spec, kpage, path_kend, PHYSTOP, KERNBASE, PGSIZE. split; [|lia]. dlia. Qed.

Lemma path_trapping : trapping (St := kstate) demo_tramp path_mem demo_tf demo_uroot demo_UT demo_kroot demo_KT.
Proof.
  assert (forall p a b c, demo_tf < a -> demo_tf < b -> demo_tf < c -> three a b c !! p <> Some demo_tf) as Ha by (intros p a b c ? ? ? H%three_lookup; lia).
  split; [split| | |intros p; now apply Ha|split|intros p; now apply Ha].
  - apply three_table; [apply (demo_page 1)|apply (demo_page 2)|apply (demo_page 3)|..]; (done || vm_compute; reflexivity).
  - vm_compute. reflexivity.
  - vm_compute. reflexivity.
  - apply (demo_page 0). lia.
  - apply three_table; [apply (demo_page 4)|apply (demo_page 5)|apply (demo_page 6)|..]; (done || vm_compute; reflexivity).
  - vm_compute. reflexivity.
Qed.

(** Memory with a page table of its own. *)
#[local] Instance paged_user : UserIO (Z * memory) :=
  {| u_mem := snd; u_set_mem m u := (u.1, m); u_pagetable := fst; u_set_pagetable pt u := (pt, u.2);
     u_copyout _ _ := mret (-1); u_copyin _ _ := mret ([], -1); u_copyinstr _ _ _ := mret (-1) |}.
#[local] Instance paged_laws : UserLaws (Z * memory).
Proof. split; [done|now intros []|done|done|now intros []]. Qed.
#[local] Instance paged_pages : PageAllocator (Z * memory) :=
  {| mem_of := snd; Kalloc.set_mem m u := (u.1, m); pa_kalloc := mret 0; pa_kfree _ := mret tt |}.

(** Process 2, with pid 3, calls [getpid]. *)
Definition path_demo : pst dview (Z * memory) :=
  PSt (KSt (FState demo_disk (demo_uroot, path_mem) ∅ 3 demo_sb (f_inode demo_fs) 0) (fun _ => File FD_NONE 0 0 0 0 0 0 0) (fun _ => new_pipe)
    (UProc 0 demo_tf (fun _ => NULL) false)) demo_table 2 5 0 0.

Definition path_user : mach :=
  Mach (Csr.Hart (fun r => match r with Satp => MAKE_SATP demo_uroot | Stvec => TRAMPOLINE | X A7 => SYS_getpid | X Sp => 4096 | X S3 => 77 | _ => 0 end) UMode 100) path_mem.

(** The hart as [usertrap] leaves it when it calls [userret]. *)
Definition path_return (satp : Z) (c : csrs) (m : memory) : mach :=
  Mach (Csr.Hart (fun r => match r with
    | Sstatus => sstatus c | Sepc => sepc c | Scause => scause c | Stvec => stvec c | Satp => Trap.satp c | Stimecmp => stimecmp c | Time => time c
    | X Tp => tp c | X A0 => satp | _ => 0 end) SMode (TRAMPOLINE + 168)) m.

Lemma path_user_state : user_state (St := kstate) demo_tramp demo_usertrap path_user path_demo demo_uroot demo_UT demo_kroot demo_KT.
Proof.
  split; [exact path_trapping|reflexivity|reflexivity|reflexivity| |split; vm_compute; done|vm_compute; reflexivity|vm_compute; reflexivity|reflexivity|apply not_elem_of_empty|reflexivity].
  intros r. unfold xget, path_user, is_u64. cbn [m_hart h_reg]. destruct r; vm_compute; split; discriminate || done.
Qed.

Lemma user_syscall_witness : exists s1 s2 s3,
  exec (fun _ => 4) demo_tramp uservec (take_trap 8 path_user) = Some s1 /\ pc s1 = demo_usertrap /\
  exec (fun _ => 4) (userret_pc (fun _ => 4) demo_tramp) userret s2 = Some s3 /\ h_mode (m_hart s3) = UMode /\ pc s3 = 104 /\ xget A0 s3 = 3 /\ xget S3 s3 = 77.
Proof.
  destruct (user_syscall (B := dview) (U := Z * memory) (St := kstate) (fun _ => 4) ltac:(done) demo_tramp 0 (fun _ => 0) (fun _ => None) (fun _ => None) 0 0 0 demo_usertrap 0
    (mret 0) (fun _ => mret tt) (mret tt) (mret tt) ltac:(split; vm_compute; done) ltac:(vm_compute; done) path_user path_demo demo_uroot demo_UT demo_kroot demo_KT
    path_user_state) as (s1 & E1 & P1 & _ & _ & Hen & Hsimple & Hcall).
  set (sc := call_state _ _) in *.
  destruct (Hcall 3 sc demo_uroot demo_UT) as (sa & s' & c' & _ & _ & Hs);
    [apply Hsimple; vm_compute; reflexivity|rewrite (en_state _ _ _ _ _ _ _ _ Hen); apply not_elem_of_empty
    |rewrite (en_state _ _ _ _ _ _ _ _ Hen); reflexivity|rewrite (en_state _ _ _ _ _ _ _ _ Hen); reflexivity|exact (en_map _ _ _ _ _ _ _ _ Hen)|].
  destruct (Hs (path_return sa c' (pmem s'))) as (s3 & E3 & Hleft); [reflexivity|now destruct c'|reflexivity|reflexivity|reflexivity|].
  destruct (lf_same _ _ _ _ _ _ Hleft ltac:(done)) as [P3 R3].
  exists s1, (path_return sa c' (pmem s')), s3. split; [exact E1|]. split; [exact P1|]. split; [exact E3|].
  split; [exact (lf_mode _ _ _ _ _ _ Hleft)|]. split; [exact P3|]. split; [exact (R3 A0)|exact (R3 S3)].
Defined.
