(* ===== verification/Switch.v ===== *)
(** * swtch.S, kernelvec.S and entry.S

    A context switch and the return to the context, an interrupt in the kernel,
    and the stack that a hart starts on. *)

From stdpp Require Import base gmap list numbers functions strings option sorting.
From S2P Require Import Prelude Mem Riscv Csr Asm AsmSpec.

Open Scope Z_scope.

(** ** swtch *)

(** struct context of proc.h: the registers and their offsets. *)
Definition context : list (xreg * Z) :=
  [(Ra, 0); (Sp, 8); (S0, 16); (S1, 24); (S2, 32); (S3, 40); (S4, 48); (S5, 56); (S6, 64); (S7, 72); (S8, 80); (S9, 88); (S10, 96); (S11, 104)].

Definition CTX_SIZE : Z := 112.

Lemma swtch_blocks : swtch = sds A0 context ++ lds A1 context ++ [Jr Ra].
Proof. reflexivity. Qed.

Lemma context_sorted : StronglySorted (fun p q => p.2 + 8 <= q.2) context.
Proof. repeat constructor; cbn; lia. Qed.

Lemma context_nodup : NoDup context.*1.
Proof. apply (bool_decide_unpack _). vm_compute. exact I. Qed.

Lemma context_range : Forall (fun q => 0 <= q.2 /\ q.2 + 8 <= CTX_SIZE) context.
Proof. unfold CTX_SIZE. repeat (apply Forall_cons_2; [cbn; lia|]). apply Forall_nil_2. Qed.

Section switch.
Context (isize : ins -> Z) (isize_pos : forall i, 0 < isize i).

(** [swtch(old, new)] can run: its code, and the two structures at the physical
    addresses [po] and [pn]. *)
Record can_switch (base : Z) (s : mach) (po pn : Z) : Prop := CanSwitch {
  cs_code : fetches s base (csize isize swtch);
  cs_old : window s Store (xget A0 s) po CTX_SIZE context;
  cs_new : window s Load (xget A1 s) pn CTX_SIZE context;
  cs_stable : stable s po CTX_SIZE;
  cs_apart : po + CTX_SIZE <= pn \/ pn + CTX_SIZE <= po;
  cs_regs r : is_u64 (xget r s);
}.

Definition holds_context (m : memory) (p : Z) (f : xreg -> Z) : Prop := Forall (fun q => load64 m (p + q.2) = f q.1) context.

Lemma swtch_ok base s po pn : can_switch base s po pn ->
  exists s', exec isize base swtch s = Some s' /\ holds_context (m_mem s') po (fun r => xget r s) /\ holds_context (m_mem s) pn (fun r => xget r s') /\
    pc s' = xget Ra s' /\ frame_bytes (m_mem s) (m_mem s') po CTX_SIZE /\ h_mode (m_hart s') = h_mode (m_hart s) /\
    (forall c, (forall q, q ∈ context -> c <> X q.1) -> h_reg (m_hart s') c = h_reg (m_hart s) c).
Proof.
  intros [Hf Ho Hn Hst Hap Hr]. rewrite swtch_blocks in *.
  destruct (run_saves isize isize_pos A0 _ po CTX_SIZE context _ _ s Hf eq_refl Ho Hst) as (-> & Hf1 & _ & Tr1). match type of Hf1 with fetches ?x _ _ => set (s1 := x) in * end.
  assert (window s1 Load (xget A1 s) pn CTX_SIZE context) as Hn1.
  { unfold window in *. rewrite Forall_forall in Hn. apply Forall_forall. intros q Hq. rewrite Tr1. now apply Hn. }
  destruct (run_loads isize isize_pos A1 _ pn CTX_SIZE context _ _ s1 Hf1 ltac:(apply (bool_decide_unpack _); vm_compute; exact I) eq_refl Hn1) as (-> & Hf2).
  match type of Hf2 with fetches ?x _ _ => set (s2 := x) in * end.
  assert (m_mem s2 = stores po (h_reg (m_hart s)) context (m_mem s)) as M2 by reflexivity.
  assert (h_reg (m_hart s2) = loads pn (m_mem s2) context (h_reg (m_hart s))) as R2 by reflexivity.
  assert (h_mode (m_hart s2) = h_mode (m_hart s)) as Md by reflexivity. clearbody s2. cbn [csize] in Hf2. rewrite Z.add_0_r in Hf2.
  assert (frame_bytes (m_mem s) (m_mem s2) po CTX_SIZE) as F by (rewrite M2; apply stores_frame, context_range).
  exists (put_pc (xget Ra s2) s2). split; [now apply (exec_last isize isize_pos)|].
  assert (forall q, q ∈ context -> load64 (m_mem s2) (pn + q.2) = load64 (m_mem s) (pn + q.2)) as L.
  { intros q Hq. apply load64_ext. apply (frame_same _ _ _ _ _ _ F). pose proof (proj1 (Forall_forall _ _) context_range q Hq) as G. cbn beta in G. lia. }
  split; [|split; [|split; [|split; [exact F|split; [exact Md|]]]]].
  - apply Forall_forall. intros q Hq. cbn [put_pc m_mem]. rewrite M2, (stores_get po _ context context_sorted _ q Hq). apply u64_small, Hr.
  - apply Forall_forall. intros q Hq. unfold xget. cbn [put_pc m_hart h_reg]. rewrite R2, (loads_get pn _ context context_nodup _ q Hq). now rewrite L.
  - unfold pc, xget. cbn [put_pc m_hart h_pc h_reg]. rewrite R2. rewrite (loads_get pn _ context context_nodup _ (Ra, 0)) by (apply (bool_decide_unpack _); vm_compute; exact I).
    apply u64_small, load64_range.
  - intros c Hc. cbn [put_pc m_hart h_reg]. rewrite R2. apply loads_other. intros x -> Hx. apply list_elem_of_fmap in Hx as (q & -> & Hq). now apply (Hc q Hq).
Qed.

(** C2: Context switches.  [swtch(old, new)] saves the registers that a function
    must preserve, the stack pointer and the return address in [old], and goes on
    where [new] says, with the registers saved there.  Whenever later, with [old]
    untouched, some [swtch(x, old)] is called, it returns to the first caller,
    which finds those registers as they were. *)
Theorem swtch_resumes base s po pn :
  can_switch base s po pn ->
  exists s1, exec isize base swtch s = Some s1 /\ pc s1 = load64 (m_mem s) pn /\ holds_context (m_mem s) pn (fun r => xget r s1) /\
    frame_bytes (m_mem s) (m_mem s1) po CTX_SIZE /\
    forall s2 px, same_bytes (m_mem s1) (m_mem s2) po CTX_SIZE -> can_switch base s2 px po ->
      exists s3, exec isize base swtch s2 = Some s3 /\ pc s3 = xget Ra s /\ (forall q, q ∈ context -> xget q.1 s3 = xget q.1 s) /\
        holds_context (m_mem s3) px (fun r => xget r s2) /\ frame_bytes (m_mem s2) (m_mem s3) px CTX_SIZE.
Proof.
  intros Hc. destruct (swtch_ok base s po pn Hc) as (s1 & E1 & Ho & Hn & P1 & F1 & _). exists s1. split; [done|]. unfold holds_context in *. rewrite Forall_forall in Ho, Hn.
  assert ((Ra, 0) ∈ context) as Hra by (apply (bool_decide_unpack _); vm_compute; exact I).
  split; [rewrite P1; pose proof (Hn _ Hra) as E; cbn in E; now rewrite Z.add_0_r in E|]. split; [now apply Forall_forall|]. split; [done|]. intros s2 px Hs Hc2.
  destruct (swtch_ok base s2 px po Hc2) as (s3 & E3 & Ho3 & Hn3 & P3 & F3 & _). exists s3. split; [done|]. unfold holds_context in *. rewrite Forall_forall in Hn3.
  assert (forall q, q ∈ context -> xget q.1 s3 = xget q.1 s) as Hq.
  { intros q Hq. rewrite <- (Hn3 q Hq), <- (Ho q Hq). apply load64_ext. eapply same_bytes_sub; [exact Hs|..];
    pose proof (proj1 (Forall_forall _ _) context_range q Hq) as G; cbn beta in G; lia. }
  split; [rewrite P3; exact (Hq _ Hra)|]. done.
Qed.

(** ** kernelvec *)

(** The frame on the stack. *)
Definition kv_slots : list (xreg * Z) :=
  [(Ra, 0); (Sp, 8); (Gp, 16); (Tp, 24); (T0, 32); (T1, 40); (T2, 48); (A0, 72); (A1, 80); (A2, 88); (A3, 96); (A4, 104); (A5, 112); (A6, 120); (A7, 128);
   (T3, 216); (T4, 224); (T5, 232); (T6, 240)].
Definition kv_back : list (xreg * Z) :=
  [(Gp, 16); (T0, 32); (T1, 40); (T2, 48); (A0, 72); (A1, 80); (A2, 88); (A3, 96); (A4, 104); (A5, 112); (A6, 120); (A7, 128);
   (T3, 216); (T4, 224); (T5, 232); (T6, 240)].

Lemma kernelvec_entry_blocks f : kernelvec_entry f = Addi Sp Sp (-256) :: sds Sp kv_slots ++ [Call f].
Proof. reflexivity. Qed.

Lemma kernelvec_exit_blocks : kernelvec_exit = lds Sp [(Ra, 0)] ++ [Ld Sp 8 Sp] ++ lds Sp kv_back ++ [Addi Sp Sp 256; Sret].
Proof. reflexivity. Qed.

Lemma kv_sorted : StronglySorted (fun p q => p.2 + 8 <= q.2) kv_slots.
Proof. repeat constructor; cbn; lia. Qed.

Lemma kv_range : Forall (fun q => 0 <= q.2 /\ q.2 + 8 <= 256) kv_slots.
Proof. repeat (apply Forall_cons_2; [cbn; lia|]). apply Forall_nil_2. Qed.

(** The registers that a function leaves as they are. *)
Definition preserved (r : xreg) : bool :=
  match r with Sp | Gp | S0 | S1 | S2 | S3 | S4 | S5 | S6 | S7 | S8 | S9 | S10 | S11 => true | _ => false end.

(** [kerneltrap] has returned from [s] in [s'], by the calling convention of RISC-V;
    the frame at [pa] belongs to the caller, and [kerneltrap] writes back [sepc] and
    [sstatus].  Another hart may go on with the thread: nothing is said of [tp]. *)
Record returned_from (s s' : mach) (pa : Z) : Prop := ReturnedFrom {
  rf_pc : pc s' = xget Ra s;
  rf_regs r : preserved r = true -> xget r s' = xget r s;
  rf_mode : h_mode (m_hart s') = SMode;
  rf_sepc : h_reg (m_hart s') Sepc = h_reg (m_hart s) Sepc;
  rf_sstatus : h_reg (m_hart s') Sstatus = h_reg (m_hart s) Sstatus;
  rf_frame : same_bytes (m_mem s) (m_mem s') pa 256;
}.

Lemma kernelvec_saves base f s pa :
  fetches s base (csize isize (kernelvec_entry f)) -> window s Store (xget Sp s - 256) pa 256 kv_slots -> stable s pa 256 ->
  (forall r, is_u64 (xget r s)) -> 256 <= xget Sp s ->
  exists s1, exec isize base (kernelvec_entry f) s = Some s1 /\ pc s1 = u64 f /\ xget Ra s1 = pc s + csize isize (kernelvec_entry f) /\
    xget Sp s1 = xget Sp s - 256 /\ frame_bytes (m_mem s) (m_mem s1) pa 256 /\ h_mode (m_hart s1) = h_mode (m_hart s) /\
    (forall q, q ∈ kv_slots -> load64 (m_mem s1) (pa + q.2) = if decide (q.1 = Sp) then xget Sp s - 256 else xget q.1 s) /\
    (forall c, c <> X Ra -> c <> X Sp -> h_reg (m_hart s1) c = h_reg (m_hart s) c).
Proof.
  intros Hf Hw Hst Hr Hsp. rewrite kernelvec_entry_blocks in *. pose proof (Hr Sp) as Hsr. unfold is_u64 in Hsr.
  destruct (run_step isize isize_pos _ _ _ s _ Hf eq_refl ltac:(reflexivity) eq_refl ltac:(reflexivity)) as (-> & Hf1 & P1).
  match type of Hf1 with fetches ?x _ _ => set (s1 := x) in * end.
  assert (xget Sp s1 = xget Sp s - 256) as Sp1 by (apply u64_small; unfold is_u64; lia).
  assert (forall r, r <> Sp -> xget r s1 = xget r s) as R1 by (intros [] ?; done || reflexivity).
  destruct (run_saves isize isize_pos Sp (xget Sp s - 256) pa 256 kv_slots _ _ s1 Hf1 Sp1 Hw Hst) as (-> & Hf2 & _ & _). match type of Hf2 with fetches ?x _ _ => set (s2 := x) in * end.
  assert (m_mem s2 = stores pa (h_reg (m_hart s1)) kv_slots (m_mem s)) as M2 by reflexivity.
  assert (h_reg (m_hart s2) = h_reg (m_hart s1)) as R2 by reflexivity. assert (pc s2 = pc s1 + csize isize (sds Sp kv_slots)) as P2 by reflexivity.
  assert (h_mode (m_hart s2) = h_mode (m_hart s)) as Md by reflexivity. clearbody s2. cbn [csize] in Hf2. rewrite Z.add_0_r in Hf2.
  exists (put_pc f (put_reg (X Ra) (pc s2 + isize (Call f)) s2)). split; [now apply (exec_last isize isize_pos)|]. split; [done|].
  split. { unfold xget. cbn [put_pc put_reg m_hart h_reg]. rewrite fn_lookup_insert. destruct Hf2 as (? & ? & _). pose proof (isize_pos (Call f)).
    rewrite u64_small by (unfold is_u64; lia). cbn [csize]. rewrite csize_app. cbn [csize]. lia. }
  split; [unfold xget; cbn [put_pc put_reg m_hart h_reg]; rewrite fn_lookup_insert_ne by done; rewrite R2; exact Sp1|].
  split; [cbn [put_pc put_reg m_mem]; rewrite M2; apply stores_frame, kv_range|]. split; [exact Md|]. split.
  - intros q Hq. cbn [put_pc put_reg m_mem]. rewrite M2, (stores_get pa _ kv_slots kv_sorted _ q Hq). fold (xget q.1 s1). case_decide as E.
    + rewrite E, Sp1. apply u64_small. unfold is_u64. lia.
    + rewrite R1 by done. apply u64_small, Hr.
  - intros c C1 C2. cbn [put_pc put_reg m_hart h_reg]. rewrite fn_lookup_insert_ne by congruence. rewrite R2. apply fn_lookup_insert_ne. congruence.
Qed.

Lemma kernelvec_restores base s va pa (g : xreg -> Z) :
  fetches s base (csize isize kernelvec_exit) -> window s Load va pa 256 kv_slots -> xget Sp s = va -> 0 <= va -> is_u64 (va + 256) ->
  (forall q, q ∈ kv_slots -> load64 (m_mem s) (pa + q.2) = if decide (q.1 = Sp) then va else g q.1) -> h_mode (m_hart s) = SMode ->
  exists s', exec isize base kernelvec_exit s = Some s' /\ pc s' = u64 (h_reg (m_hart s) Sepc) /\ m_mem s' = m_mem s /\
    h_mode (m_hart s') = (if Z.testbit (h_reg (m_hart s) Sstatus) 8 then SMode else UMode) /\
    h_reg (m_hart s') Sstatus = u64 (put_bit false 8 (put_bit true 5 (put_bit (Z.testbit (h_reg (m_hart s) Sstatus) 5) 1 (h_reg (m_hart s) Sstatus)))) /\
    xget Sp s' = va + 256 /\ (forall q, q ∈ kv_slots -> q.1 <> Sp -> q.1 <> Tp -> xget q.1 s' = g q.1) /\
    (forall r, r ∉ kv_slots.*1 \/ r = Tp -> xget r s' = xget r s).
Proof.
  intros Hf Hw Hsp Hv0 Hva Hl Hm. rewrite kernelvec_exit_blocks in *. cbn [app] in *.
  assert (forall l, (forall q, q ∈ l -> q ∈ kv_slots) -> window s Load va pa 256 l) as Hwl.
  { intros l Hs. unfold window in *. rewrite Forall_forall in Hw. apply Forall_forall. intros q Hq. apply Hw, Hs, Hq. }
  destruct (run_loads isize isize_pos Sp va pa 256 [(Ra, 0)] _ _ s Hf ltac:(apply (bool_decide_unpack _); vm_compute; exact I) Hsp) as (-> & Hf1).
  { apply Hwl. intros q Hq. apply list_elem_of_singleton in Hq as ->. apply (bool_decide_unpack _); vm_compute; exact I. }
  match type of Hf1 with fetches ?x _ _ => set (s1 := x) in * end.
  assert (forall q, q ∈ kv_back -> q ∈ kv_slots) as Hsub by (intros q Hq; repeat (apply elem_of_cons in Hq as [->|Hq]; [apply (bool_decide_unpack _); vm_compute; exact I|]); now apply elem_of_nil in Hq).
  assert ((Sp, 8) ∈ kv_slots) as Hq8 by (apply (bool_decide_unpack _); vm_compute; exact I).
  assert (xget Sp s1 = va) as Sp1 by exact Hsp.
  pose proof (Hl _ Hq8) as L8. cbn [fst snd] in L8. rewrite decide_True in L8 by done. pose proof (proj1 (Forall_forall _ _) Hw _ Hq8) as (_ & _ & U8 & A8 & T8). cbn [snd] in U8, A8, T8.
  assert (exec1 (isize (Ld Sp 8 Sp)) (Ld Sp 8 Sp) s1 = Some (put_pc (pc s1 + isize (Ld Sp 8 Sp)) (put_reg (X Sp) va s1))) as E2.
  { cbn [exec1]. rewrite Sp1, u64_small by done. rewrite A8. cbn [Z.eqb negb]. change (tr s1 Load (va + 8)) with (tr s Load (va + 8)). rewrite T8. cbn. change (m_mem s1) with (m_mem s). now rewrite L8. }
  destruct (run_step isize isize_pos _ _ _ s1 _ Hf1 eq_refl E2 eq_refl ltac:(reflexivity)) as (-> & Hf2 & P2). match type of Hf2 with fetches ?x _ _ => set (s2 := x) in * end.
  assert (xget Sp s2 = va) as Sp2 by (apply u64_small; unfold is_u64 in *; lia). cbn [app] in *.
  destruct (run_loads isize isize_pos Sp va pa 256 kv_back _ _ s2 Hf2 ltac:(apply (bool_decide_unpack _); vm_compute; exact I) Sp2 (Hwl _ Hsub)) as (-> & Hf3).
  match type of Hf3 with fetches ?x _ _ => set (s3 := x) in * end.
  assert (xget Sp s3 = va) as Sp3 by exact Sp2.
  destruct (run_step isize isize_pos _ _ _ s3 _ Hf3 eq_refl ltac:(reflexivity) eq_refl ltac:(reflexivity)) as (-> & Hf4 & P4).
  match type of Hf4 with fetches ?x _ _ => set (s4 := x) in * end. cbn [csize] in Hf4. rewrite Z.add_0_r in Hf4.
  assert (h_reg (m_hart s4) = <[X Sp := u64 (xget Sp s3 + 256)]> (loads pa (m_mem s) kv_back (<[X Sp := u64 va]> (loads pa (m_mem s) [(Ra, 0)] (h_reg (m_hart s)))))) as R4 by reflexivity.
  assert (h_mode (m_hart s4) = SMode) as M4 by exact Hm. assert (m_mem s4 = m_mem s) as Mm by reflexivity. rewrite Sp3 in R4. clearbody s4.
  assert (forall c, (forall r, c <> X r) -> h_reg (m_hart s4) c = h_reg (m_hart s) c) as C4.
  { intros c Hc. rewrite R4, fn_lookup_insert_ne, loads_other, fn_lookup_insert_ne, loads_other by (congruence || intros x Ex; now destruct (Hc x)). done. }
  set (x := h_reg (m_hart s) Sstatus). assert (h_reg (m_hart s4) Sstatus = x) as Ex by now apply C4.
  exists (put_pc (h_reg (m_hart s4) Sepc) (put_mode (if Z.testbit x 8 then SMode else UMode) (put_reg Sstatus (put_bit false 8 (put_bit true 5 (put_bit (Z.testbit x 5) 1 x))) s4))).
  split. { apply (exec_last isize isize_pos); [exact Hf4|done|]. cbn [exec1]. unfold super. rewrite M4, Ex. reflexivity. }
  split; [unfold pc; cbn; now rewrite C4|]. split; [exact Mm|]. split; [done|]. split; [cbn [put_pc put_mode put_reg m_hart h_reg]; now rewrite fn_lookup_insert|].
  assert (forall r, xget r (put_pc (h_reg (m_hart s4) Sepc) (put_mode (if Z.testbit x 8 then SMode else UMode) (put_reg Sstatus (put_bit false 8 (put_bit true 5 (put_bit (Z.testbit x 5) 1 x))) s4))) = h_reg (m_hart s4) (X r)) as G.
  { intros r. unfold xget. cbn [put_pc put_mode put_reg m_hart h_reg]. now apply fn_lookup_insert_ne. }
  split; [rewrite G, R4, fn_lookup_insert; now apply u64_small|]. split.
  - intros q Hq N1 N2. rewrite G, R4, fn_lookup_insert_ne by congruence. specialize (Hl q Hq). rewrite decide_False in Hl by done. rewrite <- Hl.
    destruct (decide (q = (Ra, 0))) as [->|N3].
    + rewrite loads_other by (intros y [= <-]; apply (bool_decide_unpack _); vm_compute; exact I). rewrite fn_lookup_insert_ne by done.
      apply (loads_get pa (m_mem s) [(Ra, 0)]); [apply (bool_decide_unpack _); vm_compute; exact I|now apply list_elem_of_singleton].
    + apply loads_get; [apply (bool_decide_unpack _); vm_compute; exact I|]. clear -Hq N1 N2 N3.
      repeat (apply elem_of_cons in Hq as [->|Hq]; [try done; apply (bool_decide_unpack _); vm_compute; exact I|]). now apply elem_of_nil in Hq.
  - intros r Hr. rewrite G, R4.
    assert (r <> Sp /\ (r ∉ kv_back.*1) /\ r <> Ra) as (N1 & N2 & N3).
    { destruct Hr as [Hr| ->]; [|split; [done|]; split; [apply (bool_decide_unpack _); vm_compute; exact I|done]].
      split; [intros ->; apply Hr; apply (bool_decide_unpack _); vm_compute; exact I|]. split; [|intros ->; apply Hr; apply (bool_decide_unpack _); vm_compute; exact I].
      intros Hin. apply Hr. apply list_elem_of_fmap in Hin as (q & -> & Hq). apply list_elem_of_fmap. exists q. split; [done|now apply Hsub]. }
    rewrite fn_lookup_insert_ne by congruence. rewrite loads_other by (intros y [= <-]; done). rewrite fn_lookup_insert_ne by congruence.
    rewrite loads_other by (intros y [= <-]; now intros ->%list_elem_of_singleton). done.
Qed.

Lemma put_bit_same b i x : 0 <= i -> Z.testbit (put_bit b i x) i = b.
Proof. intros Hi. destruct b; cbn; [now apply Z.setbit_eq|apply Z.clearbit_eq]. Qed.

Lemma put_bit_other b i j x : 0 <= i -> i <> j -> Z.testbit (put_bit b i x) j = Z.testbit x j.
Proof. intros Hi Hij. destruct b; cbn; [now apply Z.setbit_neq|now apply Z.clearbit_neq]. Qed.

(** C15: An interrupt in the kernel leaves no trace in the registers of the code
    that it interrupts.  [kernelvec] reaches [kerneltrap] with interrupts off, and
    touches only the 256 bytes below the stack pointer; when [kerneltrap] returns
    by the calling convention, the interrupted instruction is next, interrupts are
    on if they were, and every register is as it was, but [tp], which is the number
    of the hart that the thread is on now. *)
Theorem kernelvec_transparent base kerneltrap cause s0 pa :
  let s := take_trap cause s0 in
  h_mode (m_hart s0) = SMode -> (forall r, is_u64 (xget r s0)) -> is_u64 (pc s0) -> is_u64 kerneltrap -> 256 <= xget Sp s0 ->
  fetches s base (csize isize (kernelvec_entry kerneltrap)) -> window s Store (xget Sp s0 - 256) pa 256 kv_slots -> stable s pa 256 ->
  exists s1, exec isize base (kernelvec_entry kerneltrap) s = Some s1 /\ pc s1 = kerneltrap /\ xget Ra s1 = pc s + csize isize (kernelvec_entry kerneltrap) /\
    Z.testbit (h_reg (m_hart s1) Sstatus) 1 = false /\ frame_bytes (m_mem s0) (m_mem s1) pa 256 /\
    forall s2 base2, returned_from s1 s2 pa -> fetches s2 base2 (csize isize kernelvec_exit) -> window s2 Load (xget Sp s0 - 256) pa 256 kv_slots ->
      exists s3, exec isize base2 kernelvec_exit s2 = Some s3 /\ pc s3 = pc s0 /\ h_mode (m_hart s3) = SMode /\ m_mem s3 = m_mem s2 /\
        Z.testbit (h_reg (m_hart s3) Sstatus) 1 = Z.testbit (h_reg (m_hart s0) Sstatus) 1 /\
        forall r, xget r s3 = if decide (r = Tp) then xget Tp s2 else xget r s0.
Proof.
  intros s Hm Hr Hp Hk Hsp Hf Hw Hst.
  assert (forall r, xget r s = xget r s0) as Hx by (intros r; unfold xget, s, take_trap; cbn [m_hart put_pc put_mode put_reg h_reg]; now rewrite !fn_lookup_insert_ne by done).
  assert (h_reg (m_hart s) Sstatus = u64 (put_bit true 8 (put_bit (Z.testbit (h_reg (m_hart s0) Sstatus) 1) 5 (put_bit false 1 (h_reg (m_hart s0) Sstatus))))) as Es.
  { unfold s, take_trap. rewrite Hm. cbn [m_hart put_pc put_mode put_reg h_reg]. now rewrite !(fn_lookup_insert_ne _ _ Sstatus), fn_lookup_insert by done. }
  assert (h_reg (m_hart s) Sepc = pc s0) as Ee.
  { unfold s, take_trap. cbn [m_hart put_pc put_mode put_reg h_reg]. rewrite fn_lookup_insert_ne, fn_lookup_insert by done. now apply u64_small. }
  assert (m_mem s = m_mem s0) as Em by reflexivity. clearbody s. rewrite <- Hx in Hsp, Hw.
  destruct (kernelvec_saves base kerneltrap s pa Hf Hw Hst ltac:(intros r; rewrite Hx; apply Hr) Hsp) as (s1 & E1 & P1 & Ra1 & Sp1 & F1 & M1 & L1 & C1). rewrite Em in F1. rewrite Hx in *.
  exists s1. split; [done|]. split; [now rewrite P1, u64_small|]. split; [exact Ra1|]. rewrite C1, Es by done. split.
  { unfold u64. rewrite Z.mod_pow2_bits_low by lia. rewrite !put_bit_other by lia. now apply put_bit_same. }
  split; [exact F1|]. intros s2 base2 [V1 V2 V3 V4 V5 V6] Hf2 Hw2.
  destruct (kernelvec_restores base2 s2 (xget Sp s0 - 256) pa (fun r => xget r s0)) as (s3 & E3 & P3 & Mm & Md & Ss & Sp3 & R3 & O3); try done.
  - rewrite V2 by done. exact Sp1.
  - lia.
  - replace (xget Sp s0 - 256 + 256) with (xget Sp s0) by lia. apply Hr.
  - intros q Hq. rewrite <- (Hx q.1), <- (L1 q Hq). apply load64_ext. eapply same_bytes_sub; [exact V6|..]; pose proof (proj1 (Forall_forall _ _) kv_range q Hq) as G; cbn beta in G; lia.
  - exists s3. split; [done|]. rewrite V5, C1, Es in Md, Ss by done. rewrite V4, C1, Ee, u64_small in P3 by done. split; [done|].
    split; [rewrite Md; unfold u64; rewrite Z.mod_pow2_bits_low by lia; now rewrite put_bit_same|]. split; [done|]. split.
    + rewrite Ss. unfold u64. rewrite Z.mod_pow2_bits_low by lia. rewrite !put_bit_other by lia. rewrite put_bit_same by lia.
      rewrite Z.mod_pow2_bits_low by lia. rewrite put_bit_other by lia. now rewrite put_bit_same by lia.
    + intros r. case_decide as E; [subst; apply O3; now right|]. destruct (decide (r = Sp)) as [->|N]; [rewrite Sp3; lia|].
      destruct (decide (r ∈ kv_slots.*1)) as [Hin|Hout].
      * apply list_elem_of_fmap in Hin as (q & -> & Hq). now apply R3.
      * rewrite O3 by now left. assert (preserved r = true /\ r <> Ra) as [Pr Nr] by (destruct r; try done; destruct Hout; apply (bool_decide_unpack _); vm_compute; exact I).
        rewrite V2 by done. unfold xget at 1. rewrite C1 by congruence. apply Hx.
Qed.
End switch.

(** ** Witnesses, in a machine without paging *)

(** Thread 1 is about to leave for thread 2, whose context is at 8192. *)
Definition switch_mem : memory := store64 (store64 ∅ 8192 0x80002000) 8200 0x90000.

Definition thread1 : mach :=
  Mach (Hart (fun r => match r with X A0 => 4096 | X A1 => 8192 | X Ra => 0x80001000 | X Sp => 0xa0000 | X S5 => 55 | _ => 0 end) SMode 0x80000000) switch_mem.

(** Thread 2 goes back to it, with its own context at 12288. *)
Definition thread2 (s : mach) : mach :=
  Mach (Hart (fun r => match r with X A0 => 12288 | X A1 => 4096 | X S5 => 99 | _ => 0 end) SMode 0x80000000) (m_mem s).

Lemma bare_can_switch s po pn : bare s -> pc s = 0x80000000 -> (forall r, is_u64 (xget r s)) -> xget A0 s = po -> xget A1 s = pn ->
  po mod 8 = 0 -> pn mod 8 = 0 -> 0 <= po < 2^32 -> 0 <= pn < 2^32 -> po + CTX_SIZE <= pn \/ pn + CTX_SIZE <= po -> can_switch (fun _ => 4) 0x80000000 s po pn.
Proof.
  intros Hb Hp Hr <- <- M1 M2 H1 H2 Ha. assert (Forall (fun q => 0 <= q.2 /\ q.2 + 8 <= CTX_SIZE /\ q.2 mod 8 = 0) context) as Hl.
  { apply (bool_decide_unpack _). vm_compute. exact I. }
  unfold CTX_SIZE in *. split; [rewrite <- Hp; apply bare_fetches; rewrite ?Hp; (done || vm_compute; done)|apply bare_window; unfold CTX_SIZE; (done || lia)|apply bare_window; unfold CTX_SIZE; (done || lia)
    |now apply bare_stable|done|done].
Qed.

Lemma thread2_can_switch s : can_switch (fun _ => 4) 0x80000000 (thread2 s) 12288 4096.
Proof. apply bare_can_switch; try done; [now right|intros []; vm_compute; split; discriminate || done|now right]. Qed.

Lemma swtch_resumes_witness : exists s1 s3,
  exec (fun _ => 4) 0x80000000 swtch thread1 = Some s1 /\ pc s1 = 0x80002000 /\
  exec (fun _ => 4) 0x80000000 swtch (thread2 s1) = Some s3 /\ pc s3 = 0x80001000 /\ xget S5 s3 = 55 /\ xget Sp s3 = 0xa0000.
Proof.
  destruct (swtch_resumes (fun _ => 4) ltac:(done) 0x80000000 thread1 4096 8192) as (s1 & E1 & P1 & _ & _ & H).
  { apply bare_can_switch; try done; [now right|intros []; vm_compute; split; discriminate || done|now left]. }
  destruct (H (thread2 s1) 12288) as (s3 & E3 & P3 & R3 & _); [intros x Hx; reflexivity|exact (thread2_can_switch s1)|].
  exists s1, s3. split; [exact E1|]. split; [exact P1|]. split; [exact E3|]. split; [exact P3|].
  split; [apply (R3 (S5, 56))|apply (R3 (Sp, 8))]; apply (bool_decide_unpack _); vm_compute; exact I.
Defined.

(** The kernel is interrupted with its stack pointer at 0xa0000. *)
Definition kernel_thread : mach :=
  Mach (Hart (fun r => match r with X Sp => 0xa0000 | X T3 => 33 | X S1 => 11 | Sstatus => 2 | Stvec => 0x80000000 | _ => 0 end) SMode 0x80005000) ∅.

(** [kerneltrap] has clobbered the registers that it may use. *)
Definition after_kerneltrap (s : mach) : mach :=
  Mach (Hart (fun r => match r with X Ra => 1 | X T3 => 2 | X A0 => 3 | X Tp => 1 | Satp => 0 | _ => h_reg (m_hart s) r end) SMode (xget Ra s)) (m_mem s).

Lemma kv_window s acc : bare s -> window s acc 0x9ff00 0x9ff00 256 kv_slots.
Proof. intros Hb. apply bare_window; try done. apply (bool_decide_unpack _). vm_compute. exact I. Qed.

Lemma kernelvec_transparent_witness : exists s1 s3,
  exec (fun _ => 4) 0x80000000 (kernelvec_entry 0x80003000) (take_trap 5 kernel_thread) = Some s1 /\
  exec (fun _ => 4) (pc (after_kerneltrap s1)) kernelvec_exit (after_kerneltrap s1) = Some s3 /\
  pc s3 = 0x80005000 /\ xget T3 s3 = 33 /\ xget S1 s3 = 11 /\ xget Tp s3 = 1.
Proof.
  destruct (kernelvec_transparent (fun _ => 4) ltac:(done) 0x80000000 0x80003000 5 kernel_thread 0x9ff00) as (s1 & E1 & P1 & Ra1 & _ & _ & H).
  - reflexivity.
  - intros []; vm_compute; split; discriminate || done.
  - split; vm_compute; done.
  - split; vm_compute; done.
  - vm_compute; discriminate.
  - apply (bare_fetches (take_trap 5 kernel_thread)); [now right|vm_compute; discriminate|vm_compute; done].
  - apply kv_window. now right.
  - apply bare_stable. now right.
  - destruct (H (after_kerneltrap s1) (pc (after_kerneltrap s1))) as (s3 & E3 & P3 & _ & _ & _ & R3).
    + split; try reflexivity; [intros []; reflexivity || discriminate|intros x Hx; reflexivity].
    + assert (pc (after_kerneltrap s1) = 0x80000000 + 84) as Ep by exact Ra1. apply bare_fetches; [right; reflexivity|rewrite Ep; vm_compute; discriminate|rewrite Ep; vm_compute; reflexivity].
    + apply kv_window. right. reflexivity.
    + exists s1, s3. split; [exact E1|]. split; [exact E3|]. split; [exact P3|]. split; [exact (R3 T3)|]. split; [exact (R3 S1)|exact (R3 Tp)].
Defined.
