(* ===== verification/Initcode.v ===== *)
(** * The code of the first process: initcode.S and the array in proc.c

    The bytes that [userinit] gives to the first process, decoded and run, against
    the assembly that they come from. *)

From stdpp Require Import base gmap list numbers functions strings option.
From S2P Require Import Prelude Mem StringC Riscv Csr Kalloc Vm PageTable UserMem UserCopy UserFork VmSpec Asm AsmSpec Proc Syscall.

Open Scope Z_scope.

(** ** Instructions in memory *)

Definition xreg_of (n : Z) : option xreg :=
  nth_error [Ra; Sp; Gp; Tp; T0; T1; T2; S0; S1; A0; A1; A2; A3; A4; A5; A6; A7; S2; S3; S4; S5; S6; S7; S8; S9; S10; S11; T3; T4; T5; T6] (Z.to_nat (n - 1)).

(** Sign extension of the lowest [n] bits. *)
Definition sext (n x : Z) : Z := if x <? 2^(n - 1) then x else x - 2^n.

(** The encodings that the array uses: auipc, addi, ecall and jal. *)
Definition decode (w : Z) : option ins :=
  let rd := Z.land (Z.shiftr w 7) 31 in
  let rs1 := Z.land (Z.shiftr w 15) 31 in
  match Z.land w 127 with
  | 0x17 => d ← xreg_of rd; Some (Auipc d (sext 32 (Z.shiftl (Z.shiftr w 12) 12)))
  | 0x13 =>
      if negb (Z.land (Z.shiftr w 12) 7 =? 0) then None else
      d ← xreg_of rd;
      let imm := sext 12 (Z.shiftr w 20) in
      if rs1 =? 0 then Some (Li d imm) else s ← xreg_of rs1; Some (Addi d s imm)
  | 0x73 => if w =? 0x73 then Some Ecall else None
  | 0x6f =>
      let imm := Z.lor (Z.lor (Z.lor (Z.shiftl (Z.shiftr w 31) 20) (Z.shiftl (Z.land (Z.shiftr w 12) 255) 12))
        (Z.shiftl (Z.land (Z.shiftr w 20) 1) 11)) (Z.shiftl (Z.land (Z.shiftr w 21) 1023) 1) in
      d ← xreg_of rd; Some (Jal d (sext 21 imm))
  | _ => None
  end.

(** One instruction of four bytes. *)
Definition istep (s : mach) : option mach :=
  pa ← tr s Fetch (pc s);
  i ← decode (load32 (m_mem s) pa);
  exec1 4 i s.

Fixpoint isteps (n : nat) (s : mach) : option mach :=
  match n with
  | O => Some s
  | S n' => s' ← istep s; isteps n' s'
  end.

(** ** initcode.S *)

(** The code, for the addresses of [init] and [argv]: [la] is two instructions
    relative to the program counter. *)
Definition initcode_S (init argv : Z) : list ins :=
  let la (pc : Z) (rd : xreg) (sym : Z) := [Auipc rd 0; Addi rd rd (sym - pc)] in
  la 0 A0 init ++
  la 8 A1 argv ++
  [Li A7 SYS_exec;
   Ecall;
   Li A7 SYS_exit;
   Ecall;
   Jal Ra (-8)].

(** [.string] adds a NUL to the one in the literal. *)
Definition init_str : list Z := [47; 105; 110; 105; 116; 0; 0].

Definition word_at (l : list Z) (k : nat) : Z := le_val (take 4 (drop (4 * k) l)).

(** The array is the code of initcode.S with its data behind; but [argv] is at 43
    and not at the multiple of 4 that [.p2align 2] asks for, and the array ends
    within its second word. *)
Lemma initcode_bytes_S :
  map (fun k => decode (word_at initcode_bytes k)) (seq 0 9) = map Some (initcode_S 36 43) /\
  take 7 (drop 36 initcode_bytes) = init_str /\ drop 43 initcode_bytes = le_bytes 8 36 ++ [0] /\ 43 mod 4 <> 0.
Proof. vm_compute. repeat split; discriminate || reflexivity. Qed.

(** ** The first page of the process *)

Definition UPERM : Z := Z.lor (Z.lor (Z.lor PTE_W PTE_R) PTE_X) PTE_U.

Section first.
Context {St : Type} `{PA : PageAllocator St} `{PS : !PageAllocatorSpec St}.

(** The user's first page. *)
Lemma user_page s root T mem acc o :
  pt_inv (St := St) (m_mem s) root T -> leaf T (m_mem s) 0 = perm_pte mem UPERM -> valid_page (S := St) mem -> h_mode (m_hart s) = UMode ->
  h_reg (m_hart s) Satp = MAKE_SATP root -> 0 <= o < PGSIZE -> tr s acc o = Some (mem + o).
Proof.
  intros Hi Hl Hv Hm Hs Ho. unfold tr. rewrite Hm, Hs. rewrite (translate_table _ _ T) by done. pose proof (vpage_pte _ Hv) as Hp.
  assert ((o <? 0) || (MAXVA <=? o) = false) as -> by (change MAXVA with (2^26 * 4096); unfold PGSIZE in Ho; lia).
  rewrite (leaf_page_eq T _ o 0), Hl by (change MAXVA with (2^26 * 4096); unfold PGSIZE in *; lia || dlia).
  rewrite perm_pte_valid, perm_pte_pa by (done || split; vm_compute; done).
  assert (perm_ok UMode acc (perm_pte mem UPERM) = true) as ->.
  { unfold perm_ok. destruct acc; rewrite !perm_pte_flags by (done || (split; vm_compute; done)); reflexivity. }
  cbn [andb]. now rewrite Z.mod_small.
Qed.

(** A byte that the user reads. *)
Definition ubyte (s : mach) (va : Z) : option Z := pa ← tr s Load va; Some (rd (m_mem s) pa).

(** The page of the array: an instruction of it. *)
Lemma istep_word s mem k w i :
  tr s Fetch (pc s) = Some (mem + 4 * k) -> load32 (m_mem s) (mem + 4 * k) = w -> decode w = Some i -> istep s = exec1 4 i s.
Proof. intros H1 H2 H3. unfold istep. rewrite H1. cbn. rewrite H2, H3. done. Qed.

Lemma page_word m mem k : (forall j, 0 <= j < PGSIZE -> rd m (mem + j) = nth (Z.to_nat j) initcode_bytes 0) -> 0 <= k < 9 ->
  load32 m (mem + 4 * k) = word_at initcode_bytes (Z.to_nat k).
Proof.
  intros Hb Hk. with_strategy transparent [load32] (unfold load32). unfold word_at. cbn [rd_bytes]. unfold PGSIZE in Hb.
  replace (mem + 4 * k + 1) with (mem + (4 * k + 1)) by lia. replace (mem + (4 * k + 1) + 1) with (mem + (4 * k + 2)) by lia.
  replace (mem + (4 * k + 2) + 1) with (mem + (4 * k + 3)) by lia. rewrite !Hb by lia.
  assert (k = 0 \/ k = 1 \/ k = 2 \/ k = 3 \/ k = 4 \/ k = 5 \/ k = 6 \/ k = 7 \/ k = 8) as [->|[->|[->|[->|[->|[->|[->|[->| ->]]]]]]]] by lia; reflexivity.
Qed.

(** The process has the array in its first page. *)
Record has_initcode (s : mach) (root : Z) (T : ptree) (mem : Z) : Prop := HasInitcode {
  hi_table : pt_inv (St := St) (m_mem s) root T;
  hi_leaf : leaf T (m_mem s) 0 = perm_pte mem UPERM;
  hi_page : valid_page (S := St) mem;
  hi_mode : h_mode (m_hart s) = UMode;
  hi_satp : h_reg (m_hart s) Satp = MAKE_SATP root;
  hi_bytes j : 0 <= j < PGSIZE -> rd (m_mem s) (mem + j) = nth (Z.to_nat j) initcode_bytes 0;
}.

Lemma has_initcode_step s root T mem k i : has_initcode s root T mem -> pc s = 4 * k -> 0 <= k < 9 ->
  decode (word_at initcode_bytes (Z.to_nat k)) = Some i -> istep s = exec1 4 i s.
Proof.
  intros [H1 H2 H3 H4 H5 H6] Hp Hk Hd. apply (istep_word s mem k (word_at initcode_bytes (Z.to_nat k))); [|now apply page_word|done].
  rewrite Hp. apply (user_page s root T); (done || unfold PGSIZE; lia).
Qed.

Lemma has_initcode_regs s root T mem r v p : has_initcode s root T mem -> has_initcode (put_pc p (put_reg (X r) v s)) root T mem.
Proof. intros [H1 H2 H3 H4 H5 H6]. split; done. Qed.

(** An instruction that sets a register. *)
Lemma run_reg u root T mem k i r v : has_initcode u root T mem -> pc u = 4 * k -> 0 <= k < 9 -> decode (word_at initcode_bytes (Z.to_nat k)) = Some i ->
  exec1 4 i u = Some (put_pc (pc u + 4) (put_reg (X r) v u)) ->
  exists u', istep u = Some u' /\ has_initcode u' root T mem /\ pc u' = 4 * (k + 1) /\ xget r u' = u64 v /\ (forall q, q <> r -> xget q u' = xget q u) /\ m_mem u' = m_mem u.
Proof.
  intros H P Hk D E. exists (put_pc (pc u + 4) (put_reg (X r) v u)). rewrite (has_initcode_step u root T mem k i) by done. split; [done|].
  split; [now apply has_initcode_regs|]. split; [unfold pc at 1; cbn; rewrite P; rewrite u64_small by (unfold is_u64; lia); lia|].
  unfold xget. cbn [put_pc put_reg m_hart h_reg m_mem]. split; [apply fn_lookup_insert|]. split; [|done]. intros q Hq. apply fn_lookup_insert_ne. congruence.
Qed.

Lemma initcode_runs u0 root T mem : has_initcode u0 root T mem -> pc u0 = 0 ->
  exists u, isteps 5 u0 = Some u /\ istep u = Some (take_trap 8 u) /\ xget A7 u = SYS_exec /\ xget A0 u = 36 /\ xget A1 u = 43 /\
    m_mem u = m_mem u0 /\ has_initcode u root T mem.
Proof.
  intros H0 P0. cbn [isteps].
  destruct (run_reg u0 root T mem 0 (Auipc A0 0) A0 (pc u0 + 0) H0 P0 ltac:(lia) eq_refl eq_refl) as (u1 & E1 & H1 & P1 & R1 & _ & M1).
  destruct (run_reg u1 root T mem 1 (Addi A0 A0 36) A0 (xget A0 u1 + 36) H1 P1 ltac:(lia) eq_refl eq_refl) as (u2 & E2 & H2 & P2 & R2 & _ & M2).
  destruct (run_reg u2 root T mem 2 (Auipc A1 0) A1 (pc u2 + 0) H2 P2 ltac:(lia) eq_refl eq_refl) as (u3 & E3 & H3 & P3 & R3 & O3 & M3).
  destruct (run_reg u3 root T mem 3 (Addi A1 A1 35) A1 (xget A1 u3 + 35) H3 P3 ltac:(lia) eq_refl eq_refl) as (u4 & E4 & H4 & P4 & R4 & O4 & M4).
  destruct (run_reg u4 root T mem 4 (Li A7 SYS_exec) A7 SYS_exec H4 P4 ltac:(lia) eq_refl ltac:(reflexivity)) as (u5 & E5 & H5 & P5 & R5 & O5 & M5).
  exists u5. rewrite E1. cbn. rewrite E2. cbn. rewrite E3. cbn. rewrite E4. cbn. rewrite E5. cbn. split; [done|].
  split. { rewrite (has_initcode_step u5 root T mem 5 Ecall H5 P5) by (done || lia). cbn [exec1]. unfold super. now rewrite (hi_mode _ _ _ _ H5). }
  split; [exact R5|]. split; [now rewrite O5, O4, O3, R2, R1, P0|]. split; [now rewrite O5, R4, R3, P2|]. split; [congruence|done].
Qed.

(** When [exec] has failed. *)
Lemma initcode_exits u0 root T mem : has_initcode u0 root T mem -> pc u0 = 24 ->
  exists u, isteps 1 u0 = Some u /\ istep u = Some (take_trap 8 u) /\ xget A7 u = SYS_exit.
Proof.
  intros H0 P0. cbn [isteps]. destruct (run_reg u0 root T mem 6 (Li A7 SYS_exit) A7 SYS_exit H0 P0 ltac:(lia) eq_refl ltac:(reflexivity)) as (u1 & E1 & H1 & P1 & R1 & _ & M1).
  exists u1. rewrite E1. cbn. split; [done|]. split; [|exact R1].
  rewrite (has_initcode_step u1 root T mem 7 Ecall H1 P1) by (done || lia). cbn [exec1]. unfold super. now rewrite (hi_mode _ _ _ _ H1).
Qed.

(** What the user reads at [va]. *)
Lemma initcode_data u root T mem l va : has_initcode u root T mem -> 0 <= va -> va + Z.of_nat (length l) <= PGSIZE ->
  map (fun j => nth (Z.to_nat j) initcode_bytes 0) (seqZ va (Z.of_nat (length l))) = l -> map (ubyte u) (seqZ va (Z.of_nat (length l))) = map Some l.
Proof.
  intros H H0 H1 E. rewrite <- E at 2. rewrite map_map. apply map_ext_in. intros j Hj. apply list_elem_of_In, elem_of_seqZ in Hj. unfold ubyte.
  destruct H as [H2 H3 H4 H5 H6 H7]. rewrite (user_page u root T mem) by (done || lia). cbn. now rewrite H7 by lia.
Qed.

(** What a hart in user mode does there: from 0 it comes to the system call [exec]
    with the arguments that initcode.S says, the path and [argv[0]] the string
    "/init", and [argv] ends after it, in bytes that the array does not have; when
    [exec] returns, the next system call is [exit]. *)
Definition execs_init (m : memory) (root : Z) : Prop :=
  forall h, h_mode h = UMode -> h_reg h Satp = MAKE_SATP root ->
    (h_pc h = 0 -> exists u, isteps 5 (Mach h m) = Some u /\ istep u = Some (take_trap 8 u) /\
       xget A7 u = SYS_exec /\ xget A0 u = 36 /\ map (ubyte u) (seqZ 36 7) = map Some init_str /\
       xget A1 u = 43 /\ map (ubyte u) (seqZ 43 16) = map Some (le_bytes 8 36 ++ le_bytes 8 0)) /\
    (h_pc h = 24 -> exists u, isteps 1 (Mach h m) = Some u /\ istep u = Some (take_trap 8 u) /\ xget A7 u = SYS_exit).

Lemma initcode_ok m root T mem : pt_inv (St := St) m root T -> leaf T m 0 = perm_pte mem UPERM -> valid_page (S := St) mem ->
  (forall j, 0 <= j < PGSIZE -> rd m (mem + j) = nth (Z.to_nat j) initcode_bytes 0) -> execs_init m root.
Proof.
  intros Hi Hl Hv Hb h Hm Hs. assert (has_initcode (Mach h m) root T mem) as HI by now split.
  split; [|intros Hp; now apply (initcode_exits _ root T mem)]. intros Hp.
  destruct (initcode_runs _ root T mem HI Hp) as (u & E1 & E2 & R7 & R0 & R1 & _ & HU). exists u.
  split; [done|]. split; [done|]. split; [done|]. split; [done|]. split; [apply (initcode_data u root T mem init_str); (done || vm_compute; discriminate)|].
  split; [done|]. apply (initcode_data u root T mem (le_bytes 8 36 ++ le_bytes 8 0)); (done || vm_compute; discriminate).
Qed.
End first.
