(* ===== verification/PageMap.v ===== *)
(** * Page tables made of regions

    A page table that is built by mapping regions one after the other: what its
    entries are, and which pages it takes.  The tables lie at the places [L] of the
    tree, so that a bound on the pages is known in advance and the calls of
    [mappages] do not fail. *)

From stdpp Require Import base gmap list numbers functions strings option.
From S2P Require Import Prelude Mem StringC Riscv Csr Kalloc Vm PageTable UserMem VmSpec Asm AsmSpec.

Open Scope Z_scope.

(** ** Regions *)

Record region := Region { r_va : Z; r_size : Z; r_pa : Z; r_perm : Z }.

Definition inside (r : region) (v : Z) : bool := (r_va r <=? v) && (v <? r_va r + r_size r).

(** The entry for [v]. *)
Fixpoint region_pte (rs : list region) (v : Z) : Z :=
  match rs with
  | [] => 0
  | r :: rs => if inside r v then perm_pte (r_pa r + (v / PGSIZE - r_va r / PGSIZE) * PGSIZE) (r_perm r) else region_pte rs v
  end.

Lemma region_pte_out rs v : Forall (fun r => inside r v = false) rs -> region_pte rs v = 0.
Proof. induction 1 as [|r rs H _ IH]; cbn; [done|]. now rewrite H. Qed.

Lemma PX2_eq v : 0 <= v < MAXVA -> PX 2 v = v / 2^30.
Proof. intros Hv. rewrite PX_eq by lia. change (12 + 9 * 2) with 30. apply Z.mod_small. rewrite MAXVA_eq in Hv. unfold PGSIZE in *. dlia. Qed.

Lemma PX1_eq v : PX 1 v = (v / 2^21) mod 512.
Proof. rewrite PX_eq by lia. done. Qed.

Lemma length_omap {A C} (f : A -> option C) l : (length (omap f l) <= length l)%nat.
Proof. induction l as [|a l IH]; cbn; [done|]. destruct (f a); cbn; lia. Qed.

Definition apart_from (F : gset Z) (x : Z) : Prop := forall q, q ∈ F -> x < q \/ q + PGSIZE <= x.

Section build.
Context {U : Type} `{PA : PageAllocator U} `{PS : !PageAllocatorSpec U}.
Context (L : list (list Z)).
Implicit Types (u : U) (T : ptree) (F : gset Z) (own : list Z) (rs : list region).

Definition in_tables (v : Z) : Prop := [PX 2 v] ∈ L /\ path v ∈ L.

(** What a call of [mappages] needs. *)
Record region_ok (r : region) : Prop := RegionOk {
  ro_va : r_va r mod PGSIZE = 0;
  ro_size : r_size r mod PGSIZE = 0;
  ro_pa : r_pa r mod PGSIZE = 0;
  ro_low : 0 <= r_va r;
  ro_pos : 0 < r_size r;
  ro_high : r_va r + r_size r <= MAXVA;
  ro_pa0 : 0 <= r_pa r;
  ro_pa1 : r_pa r + r_size r <= 2^54;
  ro_perm : pte_flags_ok (r_perm r);
  ro_tables v : inside r v = true -> in_tables v;
}.

Lemma region_page r v : region_ok r -> inside r v = true -> pte_page (r_pa r + (v / PGSIZE - r_va r / PGSIZE) * PGSIZE).
Proof.
  intros [] Hi. unfold inside in Hi. zbool. unfold pte_page, PGSIZE in *. repeat split; dlia.
Qed.

(** ** Building *)

(** From [u0] with the free pages [F0]: a page table has been made, and the pages
    [own] taken for other uses. *)
Record tpages u0 F0 u root T F own : Prop := TPages {
  tp_vm : vm_inv u root T F;
  tp_tables q : is_Some (T !! q) -> q ∈ L;
  tp_free : F ⊆ F0;
  tp_own p a : T !! p = Some a -> a ∈ F0;
  tp_stk a : a ∈ own -> a ∈ F0 /\ (a ∉ F) /\ valid_page (S := U) a /\ forall p, T !! p <> Some a;
  tp_nodup : NoDup own;
  tp_all a : a ∈ F0 -> a ∈ F \/ a ∈ own \/ exists p, T !! p = Some a;
  tp_bytes x : apart_from F0 x -> rd (mem_of u) x = rd (mem_of u0) x;
}.

(** It has the regions [rs]. *)
Record tspace u0 F0 u root T F rs own : Prop := TSpace {
  ts_pages : tpages u0 F0 u root T F own;
  ts_leaf v : 0 <= v < MAXVA -> leaf T (mem_of u) v = region_pte rs v;
  ts_rs : Forall region_ok rs;
}.

(** All pages that were free are accounted for. *)
Lemma tpages_size u0 F0 u root T F own :
  tpages u0 F0 u root T F own -> (size F0 <= size F + length own + length L)%nat.
Proof.
  intros [_ K2 _ _ _ _ K7 _]. assert (elements F0 ⊆+ elements F ++ own ++ omap (T !!.) L) as HI%submseteq_length.
  { apply NoDup_submseteq; [apply NoDup_elements|]. intros a Ha%elem_of_elements. rewrite !elem_of_app, elem_of_elements.
    destruct (K7 a Ha) as [?|[?|(p & Hp)]]; [by left|right; by left|right; right].
    apply list_elem_of_omap. exists p. split; [|done]. apply K2. rewrite Hp. done. }
  rewrite !length_app in HI. pose proof (length_omap (T !!.) L).
  change (size F0) with (length (elements F0)). change (size F) with (length (elements F)). lia.
Qed.

Lemma tpages_room u0 F0 u root T F own :
  tpages u0 F0 u root T F own -> (length own + length L < size F0)%nat -> F ≠ ∅.
Proof. intros HK%tpages_size Hn ->. rewrite size_empty in HK. lia. Qed.

Lemma tpages_grown u0 F0 u root T F own u' T' F' :
  tpages u0 F0 u root T F own -> grown root u T F u' T' F' -> (forall q, is_Some (T' !! q) -> is_Some (T !! q) \/ q ∈ L) ->
  tpages u0 F0 u' root T' F' own /\ (forall p, p ∈ own -> same_bytes (mem_of u) (mem_of u') p PGSIZE).
Proof.
  intros [K1 K4 K5 K6 K7 K8 K9 K10] [G1 G2 G3 G4 G5 G6] Hq. split; [split; try done|].
  - intros q [H|H]%Hq; auto.
  - set_solver.
  - intros p a [H|[H _]]%G4; [exact (K6 p a H)|set_solver].
  - intros a (A1 & A2 & A3 & A4)%K7. split; [done|]. split; [set_solver|]. split; [done|]. intros p [H|[H _]]%G4; [exact (A4 p H)|done].
  - intros a Ha. destruct (decide (a ∈ F')) as [|HF]; [now left|right]. destruct (K9 a Ha) as [H|[H|(p & H)]].
    + right. exact (G5 a H HF).
    + now left.
    + right. exists p. exact (lookup_weaken _ _ _ _ H G2).
  - intros y Hy. rewrite G6; [exact (K10 y Hy)| |]; intros q; [|intros q' Hq']; intros; apply Hy; [set_solver|eauto].
  - intros p Hp x Hx. destruct (K7 p Hp) as (_ & A2 & A3 & A4). destruct K1 as [V1 V2 V3]. apply G6.
    + intros q Hqf. pose proof (vpage_apart p q A3 (pa_free_valid _ _ _ V1 Hqf) ltac:(now intros ->)). lia.
    + intros r q Hr. pose proof (vpage_apart p q A3 (pt_page _ _ _ V2 r q Hr) ltac:(intros ->; exact (A4 r Hr))). lia.
Qed.

(** [mappages] of a region that is apart from those that are there. *)
Lemma map_region u0 F0 u root T F rs own r :
  tspace u0 F0 u root T F rs own -> (length own + length L < size F0)%nat -> region_ok r ->
  (forall v, inside r v = true -> region_pte rs v = 0) ->
  exists u' T' F', mappages root (r_va r) (r_size r) (r_pa r) (r_perm r) u = Ok 0 u' /\ tspace u0 F0 u' root T' F' (r :: rs) own /\
    (forall p, p ∈ own -> same_bytes (mem_of u) (mem_of u') p PGSIZE).
Proof.
  intros [HK K2 K3] Hn Hr Hd. pose proof Hr as [R1 R2 R3 R4 R5 R6 R7 R8 R9 R10].
  assert (forall v, r_va r <= v < r_va r + r_size r -> inside r v = true) as Hin by (intros v Hv; unfold inside; lia).
  destruct (mappages_ok u root T F (r_va r) (r_size r) (r_pa r) (r_perm r)) as (x & u' & T' & F' & k & E & Hg & Hq & Hl & Hx); try done.
  { exact (tp_vm _ _ _ _ _ _ _ HK). }
  { intros v Hv. rewrite K2, Hd by (auto || lia). done. }
  destruct (tpages_grown _ _ _ _ _ _ _ _ _ _ HK Hg) as [HK' Hs].
  { intros q [H|(v & Hv & H)]%Hq; [by left|right]. destruct (R10 v (Hin v Hv)). destruct H as [-> | ->]; done. }
  destruct Hx as [[-> Hk]|(-> & _ & _ & HF)]; [|now destruct (tpages_room _ _ _ _ _ _ _ HK' Hn)].
  exists u', T', F'. split; [done|]. split; [|done]. split; [done| |now constructor].
  intros v Hv. rewrite Hl by done. unfold mapped. cbn. unfold inside. now rewrite Hk, K2.
Qed.

(** A page for another use. *)
Lemma take_page u0 F0 u root T F rs own :
  tspace u0 F0 u root T F rs own -> (length own + length L < size F0)%nat ->
  exists p u' F', pa_kalloc u = Ok p u' /\ valid_page p /\ tspace u0 F0 u' root T F' rs (p :: own) /\ (forall q, q ∈ own -> same_bytes (mem_of u) (mem_of u') q PGSIZE).
Proof.
  intros [HK K2 K3] Hn. pose proof (tpages_room _ _ _ _ _ _ _ HK Hn) as HF. destruct HK as [[A1 A2 A3] K4 K5 K6 K7 K8 K9 K10].
  destruct (pa_kalloc_some u F A1 HF) as (p & u' & E & Hp & Hi & Hf). pose proof (pa_free_valid u F p A1 Hp) as Vp.
  exists p, u', (F ∖ {[p]}). split; [done|]. split; [done|].
  destruct (table_same (St := U) (mem_of u) (mem_of u') root T A2) as [A2' Hl].
  { intros q a Hq. apply (page_frame _ _ p); [exact Vp|exact (pt_page _ _ _ A2 q a Hq)| |exact Hf]. intros ->. exact (A3 q p Hq Hp). }
  assert (p ∉ own) as Hps by (intros H; now apply (K7 p H)). split.
  - split; [|intros v Hv; rewrite Hl; auto|done]. split; try done.
    + split; [done|done|]. intros q a Hq. pose proof (A3 q a Hq). set_solver.
    + set_solver.
    + intros a [-> |Ha]%elem_of_cons; [split; [set_solver|split; [set_solver|split; [done|]]]; intros q Hq; exact (A3 q p Hq Hp)|].
      destruct (K7 a Ha) as (B1 & B2 & B3 & B4). split; [done|]. split; [set_solver|done].
    + now constructor.
    + intros a Ha. destruct (decide (a = p)) as [-> |Hne]; [right; left; set_solver|]. destruct (K9 a Ha) as [H|[H|H]]; set_solver.
    + intros x Hx. rewrite <- (K10 x Hx). apply Hf. specialize (Hx p ltac:(set_solver)). lia.
  - intros q Hq. destruct (K7 q Hq) as (_ & _ & B3 & _). apply (page_frame _ _ p); [done|done| |done]. now intros ->.
Qed.

(** Its contents. *)
Lemma fill_page u0 F0 u root T F rs own p m :
  tspace u0 F0 u root T F rs own -> p ∈ own -> frame_bytes (mem_of u) m p PGSIZE -> tspace u0 F0 (set_mem m u) root T F rs own.
Proof.
  intros [[[A1 A2 A3] K4 K5 K6 K7 K8 K9 K10] K2 K3] Hp Hf. destruct (K7 p Hp) as (B1 & B2 & B3 & B4).
  destruct (table_same (St := U) (mem_of u) m root T A2) as [A2' Hl].
  { intros q a Hq. apply (page_frame _ _ p); [done|exact (pt_page _ _ _ A2 q a Hq)| |done]. intros ->. exact (B4 q Hq). }
  split; [|intros v Hv; rewrite mem_set_mem, Hl; auto|done]. split; try done.
  - split; [|rewrite mem_set_mem; done|done]. apply pa_set_mem; [done|]. intros q Hq.
    apply (page_frame _ _ p); [done|exact (pa_free_valid _ _ _ A1 Hq)| |done]. now intros ->.
  - intros x Hx. rewrite mem_set_mem, Hf; [exact (K10 x Hx)|]. specialize (Hx p B1). lia.
Qed.

(** Memory that is neither free nor a table. *)
Lemma vm_inv_mem u root T F m : vm_inv u root T F ->
  (forall q, q ∈ F \/ (exists p, T !! p = Some q) -> same_bytes (mem_of u) m q PGSIZE) ->
  vm_inv (set_mem m u) root T F /\ forall v, leaf T m v = leaf T (mem_of u) v.
Proof.
  intros [A1 A2 A3] Hs. destruct (table_same (St := U) (mem_of u) m root T A2) as [A2' Hl]; [intros p a Hp; apply Hs; right; now exists p|].
  split; [|exact Hl]. split; [|now rewrite mem_set_mem|done]. apply pa_set_mem; [done|]. intros q Hq. apply Hs. now left.
Qed.

(** An empty table. *)
Lemma new_root u F : [] ∈ L -> pa_inv u F -> F ≠ ∅ -> exists root u1,
  pa_kalloc u = Ok root u1 /\ root <> 0 /\ tspace u F (set_mem (memset (mem_of u1) root 0 PGSIZE) u1) root {[ [] := root ]} (F ∖ {[root]}) [] [].
Proof.
  intros HL Hi HF. destruct (uvmcreate_ok u F Hi HF) as (root & u' & E & Hr & Hu & Hl & Hf).
  destruct (pa_kalloc_some u F Hi HF) as (p & u1 & E1 & Hp & _). unfold uvmcreate in E. rewrite (bind_ok _ _ _ _ _ E1) in E.
  pose proof (vpage_pos p (pa_free_valid _ _ _ Hi Hp)). rewrite (proj2 (Z.eqb_neq p 0)) in E by lia. cbn in E. injection E as <- <-.
  exists p, u1. split; [done|]. split; [lia|].
  split; [|intros v _; apply Hl|constructor]. pose proof (us_vm _ _ _ _ _ Hu) as [A1 A2 A3]. split.
  - split; done.
  - intros q [a [<- _]%lookup_singleton_Some]. done.
  - set_solver.
  - intros q a [_ <-]%lookup_singleton_Some. done.
  - intros a Ha. now apply not_elem_of_nil in Ha.
  - constructor.
  - intros a Ha. destruct (decide (a = p)) as [-> |]; [right; right; exists []; apply lookup_singleton_eq|set_solver].
  - intros x Hx. apply Hf. specialize (Hx p Hr). lia.
Qed.
End build.
