(* ===== verification/KvmThms.v ===== *)
(** * The kernel's page table

    What kvmmake of vm.c and proc_mapstacks of proc.c build: the regions of
    memlayout.h, a stack and a guard page for every process, and nothing else;
    stated on the translation of the hardware. *)

From stdpp Require Import base gmap list numbers functions strings option.
From S2P Require Import Prelude Mem Trapframe Riscv Csr Kalloc Vm PageTable UserMem VmSpec Spinlock Locks Bio Log BlockIO Fs FsDemo UserVm Pipe File FileThms Proc Asm AsmSpec PageMap Trampoline.

Open Scope Z_scope.

(** ** The kernel's addresses *)

Definition allows (perm : Z) (acc : access) : bool :=
  truthy (Z.land perm (match acc with Load => PTE_R | Store => PTE_W | Fetch => PTE_X end)).

(** Where an access of the kernel goes. *)
Fixpoint space (rs : list region) (acc : access) (v : Z) : option Z :=
  match rs with
  | [] => None
  | r :: rs => if inside r v then if allows (r_perm r) acc then Some (r_pa r + (v - r_va r)) else None else space rs acc v
  end.

(** Stacks, the last one first. *)
Fixpoint stacks (stk : list Z) : list region :=
  match stk with
  | [] => []
  | pa :: stk => Region (KSTACK (Z.of_nat (length stk))) PGSIZE pa RW :: stacks stk
  end.

(** The page tables of the kernel: the root, three for the gigabytes at 0, 2 and
    255, and one for every 2 megabytes in use. *)
Definition kernel_tables : list (list Z) :=
  [[]; [0]; [2]; [255]; [255; 511]] ++ map (fun i => [0; i]) (seqZ 96 33) ++ map (fun i => [2; i]) (seqZ 0 64).

Lemma in_tables_low v : PLIC <= v < VIRTIO0 + PGSIZE -> in_tables kernel_tables v.
Proof.
  unfold PLIC, VIRTIO0, PGSIZE. intros Hv. unfold in_tables, path. rewrite PX2_eq, PX1_eq by (change MAXVA with (2^38); lia).
  replace (v / 2^30) with 0 by dlia. split; [apply (bool_decide_unpack _); vm_compute; exact I|]. apply elem_of_app. right. apply elem_of_app. left.
  apply list_elem_of_fmap. exists ((v / 2^21) mod 512). split; [done|]. apply elem_of_seqZ. dlia.
Qed.

Lemma in_tables_ram v : KERNBASE <= v < PHYSTOP -> in_tables kernel_tables v.
Proof.
  change PHYSTOP with 0x88000000. unfold KERNBASE. intros Hv. unfold in_tables, path. rewrite PX2_eq, PX1_eq by (change MAXVA with (2^38); lia).
  replace (v / 2^30) with 2 by dlia. split; [apply (bool_decide_unpack _); vm_compute; exact I|]. apply elem_of_app. right. apply elem_of_app. right.
  apply list_elem_of_fmap. exists ((v / 2^21) mod 512). split; [done|]. apply elem_of_seqZ. dlia.
Qed.

Lemma in_tables_top v : MAXVA - 2^21 <= v < MAXVA -> in_tables kernel_tables v.
Proof.
  change MAXVA with (2^38). intros Hv. unfold in_tables, path. rewrite PX2_eq, PX1_eq by (change MAXVA with (2^38); lia).
  replace (v / 2^30) with 255 by dlia. replace ((v / 2^21) mod 512) with 511 by dlia. split; apply (bool_decide_unpack _); vm_compute; exact I.
Qed.

Definition rx_or_rw (r : region) : Prop := r_perm r = RX \/ r_perm r = RW.

(** The hardware reads the entries as [space] says, and lets no user in. *)
Lemma region_translate {St} `{PS : PageAllocatorSpec St} m root T rs md acc v :
  pt_inv (St := St) m root T -> md <> MMode -> Forall (region_ok kernel_tables) rs -> Forall rx_or_rw rs -> (forall v, 0 <= v < MAXVA -> leaf T m v = region_pte rs v) ->
  translate m md (MAKE_SATP root) acc v = match md with SMode => space rs acc v | _ => None end.
Proof.
  intros Hi Hm Hrs Hpm Hl. rewrite (translate_table _ _ T) by done. destruct ((v <? 0) || (MAXVA <=? v)) eqn:Ev.
  { assert (space rs acc v = None) as ->; [|now destruct md]. clear -Hrs Ev. induction Hrs as [|r rs Hr _ IH]; [done|]. cbn.
    destruct (inside r v) eqn:E; [|done]. destruct Hr. unfold inside in E. lia. }
  rewrite Hl by lia. clear -Hrs Hm Hpm. induction Hrs as [|r rs Hr _ IH]; [now destruct md|]. apply Forall_cons_1 in Hpm as [Hpr Hpm]. specialize (IH Hpm). cbn [region_pte space].
  destruct (inside r v) eqn:E; [|done]. pose proof (region_page _ r v Hr E) as Hp. pose proof (ro_perm _ r Hr) as Hf.
  rewrite perm_pte_valid, perm_pte_pa by done. cbn [andb].
  assert (r_pa r + (v / PGSIZE - r_va r / PGSIZE) * PGSIZE + v mod PGSIZE = r_pa r + (v - r_va r)) as ->.
  { destruct Hr. unfold PGSIZE in *. dlia. }
  unfold perm_ok, allows. destruct Hpr as [E' |E']; rewrite E' in *;
    destruct md, acc; try done; rewrite !perm_pte_flags by (done || (vm_compute; split; discriminate || done)); reflexivity.
Qed.

(** Pages that [kvmmake] takes at most: its tables and 64 stacks. *)
Definition kvm_pages : nat := 166.

(** ** kvmmake *)

(** Below the stacks and the guard page of the last one. *)
Lemma stacks_out stk rs v : v < KSTACK (Z.of_nat (length stk)) + 2 * PGSIZE -> region_pte (stacks stk ++ rs) v = region_pte rs v.
Proof.
  induction stk as [|p stk IH]; [done|]. cbn [length stacks app region_pte]. intros Hv. unfold KSTACK, PGSIZE in *.
  rewrite IH by lia. unfold inside. cbn [r_va r_size]. case_goal; [|done]. zbool. unfold KSTACK, PGSIZE in *. lia.
Qed.

Lemma stacks_above stk rs v : TRAMPOLINE <= v -> region_pte (stacks stk ++ rs) v = region_pte rs v.
Proof.
  intros Hv. induction stk as [|p stk IH]; [done|]. cbn [stacks app region_pte]. unfold inside. cbn [r_va r_size]. unfold KSTACK, PGSIZE in *.
  case_goal; [|done]. zbool. lia.
Qed.

Section kvm.
Context {B U : Type} `{IO : BlockIO B} `{UI : UserIO U} `{PA : PageAllocator U} `{PS : !PageAllocatorSpec U}.
Local Abbreviation P := (pst B U).

(** As kernel.ld lays them out. *)
Context (trampoline etext : Z).
Hypothesis etext_page : etext mod PGSIZE = 0.
Hypothesis etext_ram : KERNBASE < etext < PHYSTOP.
Hypothesis tramp_page : trampoline mod PGSIZE = 0.
Hypothesis tramp_text : KERNBASE <= trampoline /\ trampoline + PGSIZE <= etext.

Definition uof (s : P) : U := f_user (k_fs (y_k s)).

Definition put_u (u : U) (s : P) : P :=
  let k := y_k s in let f := k_fs k in set_k (set_fs (FState (f_io f) u (f_held f) (f_pid f) (f_sb f) (f_inode f) (f_cwd f)) k) s.

Lemma put_u_same s : put_u (uof s) s = s.
Proof. now destruct s as [[[]]]. Qed.

Lemma vm_ok {A} (c : M U A) s u a u' : c u = Ok a u' -> vm c (put_u u s) = Ok a (put_u u' s).
Proof. intros E. unfold vm, kop, fs, user. cbn. now rewrite E. Qed.

Definition kernel_base : list region :=
  [Region TRAMPOLINE PGSIZE trampoline RX;
   Region etext (PHYSTOP - etext) etext RW;
   Region KERNBASE (etext - KERNBASE) KERNBASE RX;
   Region PLIC 0x4000000 PLIC RW;
   Region VIRTIO0 PGSIZE VIRTIO0 RW;
   Region UART0 PGSIZE UART0 RW].

Definition kernel_map (stk : list Z) : list region := stacks stk ++ kernel_base.

Lemma kernel_base_ok : Forall (region_ok kernel_tables) kernel_base.
Proof.
  unfold kernel_base. repeat apply Forall_cons_2; try apply Forall_nil_2; split; cbn [r_va r_size r_pa r_perm]; unfold RX, RW, PGSIZE, UART0, VIRTIO0, PLIC in *;
    change PHYSTOP with 0x88000000 in *; unfold KERNBASE in *; change MAXVA with (2^38) in *; change TRAMPOLINE with (2^38 - 4096); try (dlia || auto); try (split; vm_compute; discriminate || done).
  all: intros v Hv; unfold inside in Hv; cbn [r_va r_size] in Hv.
  - apply in_tables_top. change MAXVA with (2^38). lia.
  - apply in_tables_ram. change PHYSTOP with 0x88000000. unfold KERNBASE. lia.
  - apply in_tables_ram. change PHYSTOP with 0x88000000. unfold KERNBASE. lia.
  - apply in_tables_low. unfold PLIC, VIRTIO0, PGSIZE. lia.
  - apply in_tables_low. unfold PLIC, VIRTIO0, PGSIZE. lia.
  - apply in_tables_low. unfold PLIC, VIRTIO0, PGSIZE. lia.
Qed.

Lemma stack_ok i p : 0 <= i < NPROC -> valid_page p -> region_ok kernel_tables (Region (KSTACK i) PGSIZE p RW).
Proof.
  intros Hi (V1 & V2 & V3)%valid_page_range. unfold NPROC in Hi. assert (KSTACK i = 2^38 - 4096 - (i + 1) * 2 * 4096) as E by done.
  split; cbn [r_va r_size r_pa r_perm]; change MAXVA with (2^38); unfold PGSIZE in *; try (rewrite ?E; dlia || auto).
  { split; vm_compute; discriminate || done. }
  intros v Hv. apply in_tables_top. unfold inside in Hv. cbn [r_va r_size] in Hv. change MAXVA with (2^38). unfold PGSIZE in *. lia.
Qed.

Lemma kvmmap_ok u0 F0 u root T F rs stk r :
  tspace kernel_tables u0 F0 u root T F rs stk -> (length stk <= 64)%nat -> (kvm_pages < size F0)%nat -> region_ok kernel_tables r ->
  (forall v, inside r v = true -> region_pte rs v = 0) ->
  exists u' T' F', kvmmap root (r_va r) (r_pa r) (r_size r) (r_perm r) u = Ok tt u' /\ tspace kernel_tables u0 F0 u' root T' F' (r :: rs) stk.
Proof.
  intros HK Hs Hn Hr Hd. unfold kvm_pages in Hn. destruct (map_region _ _ _ _ _ _ _ _ _ r HK) as (u' & T' & F' & E & HK' & _);
    [change (length kernel_tables) with 102%nat; lia|done|done|].
  exists u', T', F'. unfold kvmmap. now rewrite (bind_ok _ _ _ _ _ E).
Qed.

(** The call of [kvmmap] for the region at the head of the list, which the rest
    does not meet. *)
Ltac map_next HK u T F :=
  match goal with
  | |- context [kvmmap ?root ?va ?pa ?sz ?perm] =>
    let u' := fresh u in let T' := fresh T in let F' := fresh F in let E := fresh in
    let HK' := fresh in
    edestruct (kvmmap_ok _ _ _ root _ _ _ _ (Region va sz pa perm) HK) as (u' & T' & F' & E & HK');
    [cbn; lia|assumption
    |apply (proj1 (Forall_forall _ _) kernel_base_ok); unfold kernel_base; set_solver
    |let v := fresh in let Hv := fresh in intros v Hv; apply region_pte_out; repeat apply Forall_cons_2; try apply Forall_nil_2;
     unfold inside in *; cbn [r_va r_size] in *; unfold UART0, VIRTIO0, PLIC, KERNBASE, PGSIZE in *;
     change PHYSTOP with 0x88000000 in *; change TRAMPOLINE with (2^38 - 4096) in *; lia|];
    cbn [r_va r_size r_pa r_perm] in E; rewrite (bind_ok _ _ _ _ _ (vm_ok _ _ _ _ _ E)); clear E; clear HK; rename HK' into HK
  end.

Lemma base_below v : v < TRAMPOLINE -> PHYSTOP <= v -> region_pte kernel_base v = 0.
Proof.
  intros Hv Hv'. apply region_pte_out. unfold kernel_base. repeat apply Forall_cons_2; try apply Forall_nil_2; unfold inside; cbn [r_va r_size];
    unfold UART0, VIRTIO0, PLIC, KERNBASE, PGSIZE in *; change PHYSTOP with 0x88000000 in *; change TRAMPOLINE with (2^38 - 4096) in *; lia.
Qed.

Lemma proc_mapstacks_ok s u0 F0 u root T F :
  tspace kernel_tables u0 F0 u root T F kernel_base [] -> (kvm_pages < size F0)%nat ->
  exists u' T' F' stk, proc_mapstacks root (put_u u s) = Ok tt (put_u u' s) /\ length stk = Z.to_nat NPROC /\
    tspace kernel_tables u0 F0 u' root T' F' (kernel_map stk) stk.
Proof.
  intros HK Hn. unfold proc_mapstacks.
  destruct (for_loop_ok (fun i x => exists u T F stk, x = put_u u s /\ Z.of_nat (length stk) = i /\ tspace kernel_tables u0 F0 u root T F (kernel_map stk) stk)
    (Z.to_nat NPROC) 0 (fun i => pa ← vm pa_kalloc; if pa =? 0 then panic "kalloc" else vm (kvmmap root (KSTACK i) pa PGSIZE (Z.lor PTE_R PTE_W))) (put_u u s))
    as (x & E & u' & T' & F' & stk & -> & Hl & HK').
  - exists u, T, F, []. done.
  - intros i x Hi (u1 & T1 & F1 & stk & -> & Hl & H1). change (Z.of_nat (Z.to_nat NPROC)) with 64 in Hi.
    destruct (take_page _ _ _ _ _ _ _ _ _ H1) as (p & u2 & F2 & E & Vp & H2 & _);
      [unfold kvm_pages in Hn; change (length kernel_tables) with 102%nat; lia|].
    rewrite (bind_ok _ _ _ _ _ (vm_ok _ _ _ _ _ E)). pose proof (vpage_pos p Vp). zdecide.
    destruct (kvmmap_ok _ _ _ _ _ _ _ _ (Region (KSTACK i) PGSIZE p RW) H2) as (u3 & T3 & F3 & E3 & H3); [cbn; lia|done|apply stack_ok; [unfold NPROC; lia|done]| |].
    { intros v Hv. unfold inside in Hv. cbn [r_va r_size] in Hv. assert (KSTACK i = 2^38 - 4096 - (i + 1) * 2 * 4096) as Ei by done.
      unfold kernel_map. rewrite stacks_out by (rewrite Hl; unfold PGSIZE in *; lia). unfold PGSIZE in *.
      apply base_below; [change TRAMPOLINE with (2^38 - 4096)|change PHYSTOP with 0x88000000]; lia. }
    exists (put_u u3 s). split; [exact (vm_ok _ _ _ _ _ E3)|]. exists u3, T3, F3, (p :: stk). split; [done|]. split; [cbn [length]; lia|].
    unfold kernel_map. cbn [stacks app]. now rewrite Hl.
  - exists u', T', F', stk. split; [exact E|]. split; [lia|done].
Qed.

Lemma kvm_root_ok s F : pa_inv (uof s) F -> (kvm_pages < size F)%nat ->
  exists root u, (kpgtbl ← vm pa_kalloc; vm (do_memset kpgtbl 0 PGSIZE);; mret kpgtbl) s = Ok root (put_u u s) /\
    tspace kernel_tables (uof s) F u root {[ [] := root ]} (F ∖ {[root]}) [] [].
Proof.
  intros Hi Hn. destruct (new_root kernel_tables (uof s) F) as (root & u1 & E & _ & HK); [left|done|intros ->; rewrite size_empty in Hn; lia|].
  exists root. eexists. split; [|exact HK]. rewrite <- (put_u_same s) at 1. rewrite (bind_ok _ _ _ _ _ (vm_ok _ _ _ _ _ E)).
  erewrite bind_ok by (apply vm_ok; reflexivity). done.
Qed.

Lemma kvmmake_ok s F : pa_inv (uof s) F -> (kvm_pages < size F)%nat ->
  exists root u T F' stk, kvmmake trampoline etext s = Ok root (put_u u s) /\ length stk = Z.to_nat NPROC /\
    tspace kernel_tables (uof s) F u root T F' (kernel_map stk) stk.
Proof.
  intros Hi Hn. destruct (kvm_root_ok s F Hi Hn) as (root & u & E & HK).
  apply bind_ok_inv in E as (r & s1 & E1 & E). apply bind_ok_inv in E as ([] & s2 & E2 & E). cbn in E. injection E as -> ->.
  unfold kvmmake. rewrite (bind_ok _ _ _ _ _ E1), (bind_ok _ _ _ _ _ E2). clear E1 E2.
  rewrite !u64_small by (unfold is_u64, KERNBASE in *; change PHYSTOP with 0x88000000 in *; lia).
  do 6 map_next HK u T F.
  destruct (proc_mapstacks_ok s _ _ _ _ _ _ HK Hn) as (u' & T' & F' & stk & E & Hl & HK'). rewrite (bind_ok _ _ _ _ _ E).
  exists root, u', T', F', stk. done.
Qed.

(** ** What the table allows *)

Lemma space_out rs acc v : Forall (fun r => inside r v = false) rs -> space rs acc v = None.
Proof. induction 1 as [|r rs H _ IH]; cbn; [done|]. now rewrite H. Qed.

(** No page is both writable and executable. *)
Lemma space_wx rs v : Forall rx_or_rw rs -> space rs Store v = None \/ space rs Fetch v = None.
Proof.
  induction 1 as [|r rs Hr _ IH]; cbn; [by left|]. destruct (inside r v); [|done].
  destruct Hr as [-> | ->]; [left|right]; reflexivity.
Qed.

Lemma stack_at stk r : r ∈ stacks stk -> exists j, 0 <= j < Z.of_nat (length stk) /\ r_va r = KSTACK j /\ r_size r = PGSIZE.
Proof.
  induction stk as [|p stk IH]; [intros []%not_elem_of_nil|]. cbn [stacks length]. intros [-> |Hr]%elem_of_cons.
  - exists (Z.of_nat (length stk)). cbn. split; [lia|done].
  - destruct (IH Hr) as (j & Hj & E). exists j. split; [lia|done].
Qed.

(** The pages next to the stacks. *)
Lemma guard_page stk acc i v : (length stk <= Z.to_nat NPROC)%nat -> 0 <= i < NPROC -> KSTACK i - PGSIZE <= v < KSTACK i -> space (kernel_map stk) acc v = None.
Proof.
  intros Hl Hi Hv. change (Z.to_nat NPROC) with 64%nat in Hl. unfold NPROC, KSTACK, PGSIZE in *. change TRAMPOLINE with (2^38 - 4096) in *.
  apply space_out, Forall_app. split.
  - apply Forall_forall. intros r Hr%list_elem_of_In. destruct (stack_at stk r Hr) as (j & Hj & E1 & E2). unfold inside. rewrite E1, E2. unfold KSTACK, PGSIZE. change TRAMPOLINE with (2^38 - 4096).
    assert (j = i \/ j < i \/ i < j) by lia. lia.
  - unfold kernel_base. repeat apply Forall_cons_2; try apply Forall_nil_2; unfold inside; cbn [r_va r_size];
      unfold UART0, VIRTIO0, PLIC, KERNBASE, PGSIZE in *; change PHYSTOP with 0x88000000 in *; change TRAMPOLINE with (2^38 - 4096) in *; lia.
Qed.

Lemma kernel_map_perm stk : Forall rx_or_rw (kernel_map stk).
Proof.
  apply Forall_app. split.
  - induction stk as [|p stk IH]; constructor; [now right|done].
  - unfold kernel_base. repeat apply Forall_cons_2; try apply Forall_nil_2; (by left) || (by right).
Qed.

(** C16: The kernel's page table.  With more than 166 free pages [kvmmake] succeeds,
    and an access of the kernel through the table that it returns goes where
    [kernel_map] says, for every address: devices, the text of the kernel and the
    rest of the memory to themselves, the trampoline and the 64 stacks at the top,
    and nowhere else.  So the text is not writable and nothing writable is
    executable, the page below each stack is not mapped, and user mode has no
    access.  The stacks are pages that were free, one for each process; and no
    byte outside the free pages changes. *)
Theorem kvmmake_maps s F : pa_inv (uof s) F -> (kvm_pages < size F)%nat ->
  exists root u T F' stk, kvmmake trampoline etext s = Ok root (put_u u s) /\ pa_inv u F' /\ has_tramp (St := U) trampoline (mem_of u) root T /\
    length stk = Z.to_nat NPROC /\ NoDup stk /\ (forall p, p ∈ stk -> p ∈ F /\ (p ∉ F') /\ forall q, T !! q <> Some p) /\
    (forall acc v, translate (mem_of u) SMode (MAKE_SATP root) acc v = space (kernel_map stk) acc v) /\
    (forall acc v, translate (mem_of u) UMode (MAKE_SATP root) acc v = None) /\
    (forall v, translate (mem_of u) SMode (MAKE_SATP root) Store v = None \/ translate (mem_of u) SMode (MAKE_SATP root) Fetch v = None) /\
    (forall acc i v, 0 <= i < NPROC -> KSTACK i - PGSIZE <= v < KSTACK i -> translate (mem_of u) SMode (MAKE_SATP root) acc v = None) /\
    (forall x, apart_from F x -> rd (mem_of u) x = rd (mem_of (uof s)) x).
Proof.
  intros Hi Hn. destruct (kvmmake_ok s F Hi Hn) as (root & u & T & F' & stk & E & Hl & [[[A1 A2 A3] K2 K3 K4 K5 K6 K7 K8] L R]).
  assert (forall md acc v, md <> MMode -> translate (mem_of u) md (MAKE_SATP root) acc v = match md with SMode => space (kernel_map stk) acc v | _ => None end) as Ht.
  { intros md acc v Hm. apply (region_translate (St := U) _ _ T); [done|done|done|apply kernel_map_perm|done]. }
  exists root, u, T, F', stk. split; [done|]. split; [done|]. split.
  { split; [done|]. rewrite L by (vm_compute; split; discriminate || done). unfold kernel_map. rewrite stacks_above by done.
    cbn [kernel_base region_pte inside r_va r_size r_pa r_perm]. rewrite Z.sub_diag, Z.add_0_r. done. }
  split; [done|]. split; [done|]. split; [intros p (A & B' & _ & C)%K5; done|]. split; [intros acc v; now rewrite Ht|]. split; [intros acc v; now rewrite Ht|].
  split; [intros v; rewrite !Ht by done; apply space_wx, kernel_map_perm|]. split; [|exact K8].
  intros acc i v Hi' Hv. rewrite Ht by done. apply (guard_page stk acc i v); [lia|done|done].
Qed.
End kvm.

(** ** A kernel of 136 KB, with the rest of the memory free *)

Definition kvm_end : Z := KERNBASE + 0x22000.
Definition kvm_etext : Z := KERNBASE + 0x8000.
Definition kvm_tramp : Z := KERNBASE + 0x7000.
#[local] Instance kvm_pa : PageAllocator kstate := kmem_allocator kvm_end.
#[local] Instance kvm_ps : PageAllocatorSpec kstate := kmem_allocator_spec kvm_end ltac:(done).

Definition kvm_state (k : kstate) : pst dview (uvm kstate) :=
  PSt (KSt (FState demo_disk (Uvm k 0) ∅ 0 demo_sb (f_inode demo_fs) 0) (fun _ => File FD_NONE 0 0 0 0 0 0 0) (fun _ => new_pipe)
    (UProc 0 0 (fun _ => NULL) false)) (fun _ => Proc UNUSED ChanNone 0 0 0 NULL 0 0 0 0 0 0 (fun _ => 0) 0) NULL 1 NULL 0.

Lemma kvm_boot : exists k fl, kinit kvm_end demo_kstate = Ok tt k /\ kinv kvm_end k fl /\ (kvm_pages < length fl)%nat.
Proof.
  destruct (kinit_room kvm_end ltac:(done) demo_kstate 166) as (k & fl & E & Hi & Hn & _); [done|done|vm_compute; discriminate|done|].
  exists k, fl. unfold kvm_pages. split; [exact E|]. split; [exact Hi|]. lia.
Qed.

Lemma space_ram tramp etext stk acc v : length stk = Z.to_nat NPROC -> v < PHYSTOP -> space (kernel_map tramp etext stk) acc v = space (kernel_base tramp etext) acc v.
Proof.
  intros Hl Hv. unfold kernel_map. assert (forall r, r ∈ stacks stk -> inside r v = false) as Ho.
  { intros r Hr. destruct (stack_at stk r Hr) as (j & Hj & E1 & E2). unfold inside. rewrite E1, E2, Hl in *. change (Z.of_nat (Z.to_nat NPROC)) with 64 in Hj.
    unfold KSTACK, PGSIZE. change TRAMPOLINE with (2^38 - 4096). change PHYSTOP with 0x88000000 in Hv. lia. }
  clear -Ho. induction (stacks stk) as [|r l IH]; [done|]. cbn [app space]. rewrite Ho by left. apply IH. intros r' Hr. apply Ho. now right.
Qed.

Lemma kvmmake_maps_witness : exists k root u,
  kinit kvm_end demo_kstate = Ok tt k /\ kvmmake kvm_tramp kvm_etext (kvm_state k) = Ok root (put_u u (kvm_state k)) /\
  translate (mem_of u) SMode (MAKE_SATP root) Fetch (KERNBASE + 100) = Some (KERNBASE + 100) /\
  translate (mem_of u) SMode (MAKE_SATP root) Store (KERNBASE + 100) = None /\
  translate (mem_of u) SMode (MAKE_SATP root) Store (KSTACK 63 - 8) = None.
Proof.
  assert (KERNBASE <= kvm_tramp /\ kvm_tramp + PGSIZE <= kvm_etext) as Ht by (vm_compute; split; discriminate).
  assert (0 <= 63 < NPROC /\ KSTACK 63 - PGSIZE <= KSTACK 63 - 8 < KSTACK 63) as [H63 Hb] by (vm_compute; repeat split; discriminate || done).
  assert (KERNBASE + 100 < PHYSTOP) as Hr by done.
  pose proof (kvmmake_maps (B := dview) (U := uvm kstate) kvm_tramp kvm_etext eq_refl (conj eq_refl eq_refl) eq_refl Ht) as HM.
  destruct kvm_boot as (k & fl & E & Hi & Hn).
  destruct (HM (kvm_state k) (list_to_set fl)) as (root & u & T & F' & stk & E' & _ & _ & Hl & _ & _ & Hm & _ & _ & Hg & _).
  { exists fl. split; [exact Hi|reflexivity]. }
  { rewrite size_list_to_set by exact (kinv_nodup _ _ _ Hi). exact Hn. }
  exists k, root, u. split; [exact E|]. split; [exact E'|]. clear E E'. rewrite !Hm, !space_ram by assumption.
  split; [reflexivity|]. split; [reflexivity|]. rewrite <- Hm. exact (Hg Store 63 _ H63 Hb).
Defined.
