(* ===== verification/UserinitThms.v ===== *)
(** * The first process

    [userinit] of proc.c with the functions it calls: [allocproc], [proc_pagetable]
    and [uvmfirst].  It leaves process 0 ready to run the code of initcode.S, which
    comes to [exec("/init")]. *)

From stdpp Require Import base gmap list numbers functions strings option.
From S2P Require Import Prelude Mem Trapframe StringC Riscv Csr Kalloc Vm PageTable UserMem VmSpec Spinlock Locks Bio Log BlockIO Fs FsBlocks FsTable FsDemo UserVm Pipe File FileThms Proc ProcThms Syscall Asm AsmSpec PageMap Trampoline Initcode.

Open Scope Z_scope.

Section userinit.
Context {B St : Type} `{IO : BlockIO B} `{PA : PageAllocator St} `{PS : !PageAllocatorSpec St}.
Local Abbreviation U := (uvm St).
Local Abbreviation P := (pst B U).
Implicit Types (s : P) (u : U) (t : Z -> proc) (it : Z -> inode).

(** ** The parts of the state that change *)

Definition at_ u (h : gset lockid) t (np ip : Z) it s : P :=
  let k := y_k s in let f := k_fs k in
  PSt (KSt (FState (f_io f) u h (f_pid f) (f_sb f) it (f_cwd f)) (k_file k) (k_pipe k) (k_proc k)) t (y_me s) np ip (y_ticks s).

Lemma vm_at {A} (c : M U A) u h t np ip it s a u' : c u = Ok a u' -> vm c (at_ u h t np ip it s) = Ok a (at_ u' h t np ip it s).
Proof. intros E. unfold vm, kop, fs, user. cbn. now rewrite E. Qed.

Lemma lock_at l u h t np ip it s : (l ∉ h) -> lock l (at_ u h t np ip it s) = Ok tt (at_ u ({[l]} ∪ h) t np ip it s).
Proof. intros Hl. rewrite plock_ok; [done|exact Hl]. Qed.

Lemma unlock_at l u h t np ip it s : l ∈ h -> unlock l (at_ u h t np ip it s) = Ok tt (at_ u (h ∖ {[l]}) t np ip it s).
Proof. intros Hl. rewrite punlock_ok; [done|exact Hl]. Qed.

Lemma upd_at i f u h t np ip it s : i <> y_me s -> upd_proc i f (at_ u h t np ip it s) = Ok tt (at_ u h (<[i := f (t i)]> t) np ip it s).
Proof. intros Hi. rewrite upd_proc_ok. unfold put_proc, the_proc, at_. cbn. now rewrite (proj2 (Z.eqb_neq _ _) Hi). Qed.

Lemma the_at i u h t np ip it s : i <> y_me s -> the_proc (at_ u h t np ip it s) i = t i.
Proof. intros Hi. unfold the_proc, at_. cbn. now rewrite (proj2 (Z.eqb_neq _ _) Hi). Qed.

Lemma mem_at g u h t np ip it s : mem_op g (at_ u h t np ip it s) = Ok tt (at_ (Kalloc.set_mem (g (mem_of u)) u) h t np ip it s).
Proof. done. Qed.

(** ** The page table of a process *)

Definition user_tables : list (list Z) := [[]; [255]; [255; 511]; [0]; [0; 0]].

Lemma in_user_top v : TRAPFRAME <= v < MAXVA -> in_tables user_tables v.
Proof.
  change TRAPFRAME with (2^38 - 8192). change MAXVA with (2^38). intros Hv. unfold in_tables, path. rewrite PX2_eq, PX1_eq by (change MAXVA with (2^38); lia).
  replace (v / 2^30) with 255 by dlia. replace ((v / 2^21) mod 512) with 511 by dlia. split; apply (bool_decide_unpack _); vm_compute; exact I.
Qed.

Lemma in_user_low v : 0 <= v < PGSIZE -> in_tables user_tables v.
Proof.
  unfold PGSIZE. intros Hv. unfold in_tables, path. rewrite PX2_eq, PX1_eq by (change MAXVA with (2^38); lia).
  replace (v / 2^30) with 0 by dlia. replace ((v / 2^21) mod 512) with 0 by dlia. split; apply (bool_decide_unpack _); vm_compute; exact I.
Qed.

Context (trampoline forkret_pc : Z) (name_addr : Z -> Z) (str_initcode str_root initcode : Z).
Hypothesis tramp_page : pte_page trampoline.

Definition tramp_region : region := Region TRAMPOLINE PGSIZE trampoline RX.
Definition tf_region (tf : Z) : region := Region TRAPFRAME PGSIZE tf RW.
Definition code_region (pg : Z) : region := Region 0 PGSIZE pg UPERM.

Lemma user_region_ok va pa perm : 0 <= va -> va + PGSIZE <= MAXVA -> va mod PGSIZE = 0 -> pte_page pa -> pte_flags_ok perm ->
  (forall v, va <= v < va + PGSIZE -> in_tables user_tables v) -> region_ok user_tables (Region va PGSIZE pa perm).
Proof.
  intros H1 H2 H3 (H4 & H5 & H6) Hf Ht. split; cbn [r_va r_size r_pa r_perm]; try done; try lia; [unfold PGSIZE in *; dlia|].
  intros v Hv. apply Ht. unfold inside in Hv. cbn [r_va r_size] in Hv. lia.
Qed.

Lemma tramp_region_ok : region_ok user_tables tramp_region.
Proof. apply user_region_ok; try done. intros v Hv. apply in_user_top. change TRAPFRAME with (2^38 - 8192). change TRAMPOLINE with (2^38 - 4096) in Hv. change MAXVA with (2^38). unfold PGSIZE in Hv. lia. Qed.

Lemma tf_region_ok tf : valid_page (S := St) tf -> region_ok user_tables (tf_region tf).
Proof.
  intros Hv. apply user_region_ok; try done; [exact (vpage_pte _ Hv)|]. intros v Hv'. apply in_user_top.
  change TRAPFRAME with (2^38 - 8192) in *. change MAXVA with (2^38). unfold PGSIZE in *. lia.
Qed.

Lemma code_region_ok pg : valid_page (S := St) pg -> region_ok user_tables (code_region pg).
Proof. intros Hv. apply user_region_ok; try done; [exact (vpage_pte _ Hv)|]. apply in_user_low. Qed.

Lemma page_apart_pte rs v w : Forall (fun r => r_size r = PGSIZE /\ r_va r mod PGSIZE = 0 /\ r_va r <> w) rs -> w mod PGSIZE = 0 -> w <= v < w + PGSIZE -> region_pte rs v = 0.
Proof.
  intros Hrs Hw Hv. apply region_pte_out. induction Hrs as [|r rs (E & Hr & Hne) _ IH]; constructor; [|done].
  unfold inside. rewrite E. unfold PGSIZE in *. dlia.
Qed.

Lemma proc_pagetable_ok u h t np ip it s i F : i <> y_me s -> valid_page (S := St) (p_trapframe (t i)) -> pa_inv u F -> (5 < size F)%nat ->
  exists root u' T F', proc_pagetable trampoline i (at_ u h t np ip it s) = Ok root (at_ u' h t np ip it s) /\ root <> 0 /\
    tspace user_tables u F u' root T F' [tf_region (p_trapframe (t i)); tramp_region] [].
Proof.
  intros Hi Hv Ha Hn. unfold proc_pagetable. set (tf := p_trapframe (t i)) in *.
  destruct (new_root user_tables u F) as (root & u1 & E1 & Hr & K0); [left|done|intros ->; rewrite size_empty in Hn; lia|].
  erewrite bind_ok. 2: { apply vm_at. unfold uvmcreate. rewrite (bind_ok _ _ _ _ _ E1), (proj2 (Z.eqb_neq _ _) Hr). reflexivity. }
  rewrite (proj2 (Z.eqb_neq _ _) Hr).
  destruct (map_region _ _ _ _ _ _ _ _ _ tramp_region K0) as (u2 & T2 & F2 & E2 & K2 & _); [cbn; lia|exact tramp_region_ok|done|].
  rewrite (bind_ok _ _ _ _ _ (vm_at _ _ _ _ _ _ _ _ _ _ E2)). cbn [Z.ltb Z.compare]. erewrite bind_ok by reflexivity. rewrite the_at by done. fold tf.
  destruct (map_region _ _ _ _ _ _ _ _ _ (tf_region tf) K2) as (u3 & T3 & F3 & E3 & K3 & _); [cbn; lia|now apply tf_region_ok| |].
  { intros v Hv'. apply (page_apart_pte _ _ TRAPFRAME); [repeat constructor; done|done|]. unfold inside in Hv'. cbn [tf_region r_va r_size] in Hv'. lia. }
  rewrite (bind_ok _ _ _ _ _ (vm_at _ _ _ _ _ _ _ _ _ _ E3)). exists root, u3, T3, F3. done.
Qed.

(** The entry of process [i] after [allocproc]. *)
Definition new_proc (pid tf root : Z) (p : proc) : proc :=
  set_context forkret_pc (p_kstack p + PGSIZE) (set_pagetable root (set_trapframe tf (set_state USED (set_pid pid p)))).

Definition no_locks (h : gset lockid) : Prop := (pid_lock ∉ h) /\ (itable_lock ∉ h) /\ forall i, proc_lock i ∉ h.

(** [allocproc] with entry 0 free. *)
Lemma allocproc_ok u h t np ip it s F : 0 <> y_me s -> no_locks h -> p_state (t 0) = UNUSED -> pa_inv u F -> (6 < size F)%nat ->
  exists tf root u0 u' T F' t', allocproc trampoline forkret_pc name_addr (at_ u h t np ip it s) = Ok 0 (at_ u' ({[proc_lock 0]} ∪ h) t' (i32 (np + 1)) ip it s) /\
    t' 0 = new_proc np tf root (t 0) /\ (forall j, j <> 0 -> t' j = t j) /\
    tf ∈ F /\ valid_page (S := St) tf /\ frame_bytes (mem_of u) (mem_of u0) tf PGSIZE /\ tspace user_tables u0 (F ∖ {[tf]}) u' root T F' [tf_region tf; tramp_region] [].
Proof.
  intros Hme (L1 & L2 & L3) Hu Ha Hn. unfold allocproc. change (Z.to_nat NPROC) with (S 63). cbn [find_unused].
  rewrite bind_assoc. rewrite (bind_ok _ _ _ _ _ (lock_at _ _ _ _ _ _ _ _ (L3 0))). rewrite bind_assoc. erewrite bind_ok by reflexivity.
  rewrite the_at, decide_True by done. erewrite bind_ok by reflexivity. change (0 =? NULL) with false. cbn iota.
  assert (allocpid (at_ u ({[proc_lock 0]} ∪ h) t np ip it s) = Ok np (at_ u ({[proc_lock 0]} ∪ h) t (i32 (np + 1)) ip it s)) as Ep.
  { unfold allocpid. assert (pid_lock ∉ {[proc_lock 0]} ∪ h) as Hl by (intros [H%elem_of_singleton|H]%elem_of_union; [discriminate|done]).
    rewrite (bind_ok _ _ _ _ _ (lock_at _ _ _ _ _ _ _ _ Hl)). do 2 erewrite bind_ok by reflexivity. cbn [y_nextpid at_].
    erewrite bind_ok by (apply (unlock_at _ u _ t (i32 (np + 1)) ip it s); set_solver). unfold mret, M_ret. do 2 f_equal. set_solver. }
  rewrite (bind_ok _ _ _ _ _ Ep), (bind_ok _ _ _ _ _ (upd_at _ _ _ _ _ _ _ _ _ Hme)).
  destruct (pa_kalloc_some u F Ha) as (tf & u0 & E0 & Htf & Ha0 & Hf0); [intros ->; rewrite size_empty in Hn; lia|].
  pose proof (pa_free_valid _ _ _ Ha Htf) as Vtf. pose proof (vpage_pos tf Vtf) as Ptf.
  rewrite (bind_ok _ _ _ _ _ (vm_at _ _ _ _ _ _ _ _ _ _ E0)), (bind_ok _ _ _ _ _ (upd_at _ _ _ _ _ _ _ _ _ Hme)), (proj2 (Z.eqb_neq tf 0)) by lia.
  set (t1 := <[0 := _]> _). assert (t1 0 = set_trapframe tf (set_state USED (set_pid np (t 0)))) as Et1 by (unfold t1; now rewrite !fn_lookup_insert).
  destruct (proc_pagetable_ok u0 ({[proc_lock 0]} ∪ h) t1 (i32 (np + 1)) ip it s 0 (F ∖ {[tf]})) as (root & u' & T & F' & E2 & Hr & HT);
    [done|rewrite Et1; done|done|rewrite size_difference, size_singleton by set_solver; lia|].
  rewrite (bind_ok _ _ _ _ _ E2), (bind_ok _ _ _ _ _ (upd_at _ _ _ _ _ _ _ _ _ Hme)), (proj2 (Z.eqb_neq root 0)) by done.
  rewrite (bind_ok _ _ _ _ _ (upd_at _ _ _ _ _ _ _ _ _ Hme)). rewrite Et1 in HT. eexists tf, root, u0, u', T, F', _. split; [reflexivity|].
  rewrite !fn_lookup_insert, Et1. split; [done|]. split; [|done]. intros j Hj. unfold t1. now rewrite !fn_lookup_insert_ne by done.
Qed.

(** [uvmfirst]: a page at address 0 with [sz] bytes from [src] and zeros. *)
Lemma uvmfirst_space u0 F0 u root T F rs src sz :
  tspace user_tables u0 F0 u root T F rs [] -> (6 < size F0)%nat -> 0 <= sz < PGSIZE -> (forall v, 0 <= v < PGSIZE -> region_pte rs v = 0) ->
  (forall i, 0 <= i < sz -> apart_from F0 (src + i)) ->
  exists pg u' T' F', uvmfirst root src sz u = Ok tt u' /\ tspace user_tables u0 F0 u' root T' F' (code_region pg :: rs) [pg] /\
    (forall i, 0 <= i < sz -> rd (mem_of u') (pg + i) = rd (mem_of u0) (src + i)) /\ (forall i, sz <= i < PGSIZE -> rd (mem_of u') (pg + i) = 0).
Proof.
  intros HK Hn Hsz Hrs Hsrc. unfold uvmfirst. zdecide.
  destruct (take_page _ _ _ _ _ _ _ _ _ HK) as (pg & u1 & F1 & E1 & Vp & K1 & _); [cbn; lia|]. rewrite (bind_ok _ _ _ _ _ E1). erewrite bind_ok by reflexivity.
  assert (pg ∈ [pg]) as Hin by left.
  pose proof (fill_page _ _ _ _ _ _ _ _ _ _ (memset (mem_of u1) pg 0 PGSIZE) K1 Hin) as K2. set (u2 := Kalloc.set_mem _ u1) in *.
  specialize (K2 ltac:(intros x Hx; apply memset_frame; [unfold PGSIZE; lia|done])).
  destruct (map_region _ _ _ _ _ _ _ _ _ (code_region pg) K2) as (u3 & T3 & F3 & E3 & K3 & S3); [cbn; lia|exact (code_region_ok pg Vp)| |].
  { intros v Hv. apply Hrs. unfold inside in Hv. cbn [code_region r_va r_size] in Hv. lia. }
  rewrite (bind_ok _ _ _ _ _ E3). exists pg. eexists _, T3, F3. split; [reflexivity|]. rewrite mem_set_mem. split; [|split].
  - apply (fill_page _ _ _ _ _ _ _ _ _ pg); [done|left|]. intros x Hx. apply memmove_frame; [lia|]. lia.
  - intros i Hi. rewrite memmove_in by done. apply (tp_bytes _ _ _ _ _ _ _ _ (ts_pages _ _ _ _ _ _ _ _ _ K3)). now apply Hsrc.
  - intros i Hi. rewrite (memmove_frame (mem_of u3) pg src sz) by lia. rewrite (S3 pg Hin) by lia.
    unfold u2. rewrite mem_set_mem. rewrite memset_in by (unfold PGSIZE in *; lia). done.
Qed.

Lemma skip_root m name : rd m str_root = slash -> rd m (str_root + 1) = 0 -> skipelem m str_root name = Some (0, m).
Proof.
  intros R0 R1. unfold skipelem. assert (skip_slashes path_fuel m str_root = Some (str_root + 1)) as ->; [|now rewrite R1].
  unfold path_fuel. assert (exists k, Z.to_nat MAXPATH = S (S k)) as (k & ->) by now exists 126%nat. cbn [skip_slashes]. rewrite R0, R1. done.
Qed.

(** [namei("/")] without other inodes in use. *)
Lemma namei_root u h t np ip it s : (itable_lock ∉ h) -> (forall i, 0 <= i < NINODE -> i_ref (it i) = 0) ->
  rd (mem_of u) str_root = slash -> rd (mem_of u) (str_root + 1) = 0 ->
  kop (fs (namei str_root)) (at_ u h t np ip it s) = Ok 0 (at_ u h t np ip (<[0 := Inode ROOTDEV ROOTINO 1 (i_lock (it 0)) 0 (i_dinode (it 0))]> it) s).
Proof.
  intros Hl Hit R0 R1. unfold kop, fs. cbn [y_k at_ k_fs].
  assert (iget_scan (Z.to_nat NINODE) 0 NULL ROOTDEV ROOTINO it = inr 0) as Es.
  { assert (forall k i e, 0 <= i -> i + Z.of_nat k <= NINODE -> iget_scan k i e ROOTDEV ROOTINO it = inr (if (e =? NULL) && (0 <? Z.of_nat k) then i else e)) as Hs.
    { induction k as [|k IH]; intros i e H0 H1; cbn [iget_scan]; [now rewrite andb_false_r|]. rewrite (Hit i), IH by lia. cbn [Z.ltb Z.compare andb Z.eqb].
      rewrite andb_true_r. destruct (Z.eqb_spec e NULL) as [-> |He]; cbn [andb].
      - rewrite (proj2 (Z.eqb_neq i NULL)) by (unfold NULL; lia). done.
      - rewrite (proj2 (Z.eqb_neq e NULL)) by done. done. }
    rewrite Hs by done. done. }
  unfold namei, namex. erewrite bind_ok by reflexivity. unfold f_mem at 1. cbn [f_user u_mem uvm_user]. change (mem_of (uv_st u)) with (mem_of u). rewrite R0. cbn [Z.eqb slash Pos.eqb].
  erewrite bind_ok.
  2: { unfold iget. rewrite lock_then by done. erewrite bind_ok by reflexivity. change (f_inode (fset Locks.held _ _)) with it. rewrite Es. change (0 =? NULL) with false. cbn iota.
       rewrite <- (lock_then itable_lock _) by done. apply upd_under_lock. done. }
  unfold namex_loop. cbn [f_inode]. erewrite bind_ok by reflexivity.
  unfold f_mem, with_io, set_entry. cbn [f_user u_mem uvm_user set_inodes]. change (mem_of (uv_st u)) with (mem_of u).
  rewrite (skip_root (mem_of u)) by done.
  erewrite bind_ok by reflexivity. cbn [Z.eqb]. unfold mret, M_ret, set_k. unfold set_mem. cbn. rewrite set_mem_mem. now destruct u.
Qed.

(** ** userinit *)

(** Data of the kernel, outside the pages of the allocator. *)
Definition kdata (a n : Z) : Prop := forall q, valid_page (S := St) q -> a + n <= q \/ q + PGSIZE <= a.

Definition disjoint (a n b m : Z) : Prop := a + n <= b \/ b + m <= a.

Hypothesis name_data : kdata (name_addr 0) 16.
Hypothesis initcode_data : kdata initcode (Z.of_nat (length initcode_bytes)).
Hypothesis root_data : kdata str_root 2.
Hypothesis name_str : disjoint (name_addr 0) 16 str_initcode 16.
Hypothesis name_root : disjoint (name_addr 0) 16 str_root 2.

Definition first_regions (tf pg : Z) : list region := [code_region pg; tf_region tf; tramp_region].

(** The address space of the first process, next to the free pages [F]. *)
Record first_space u (root : Z) (T : ptree) (F : gset Z) (tf pg : Z) : Prop := FirstSpace {
  fp_vm : vm_inv u root T F;
  fp_leaf v : 0 <= v < MAXVA -> leaf T (mem_of u) v = region_pte (first_regions tf pg) v;
  fp_code i : 0 <= i < PGSIZE -> rd (mem_of u) (pg + i) = nth (Z.to_nat i) initcode_bytes 0;
  fp_epc : tf_get (mem_of u) tf tf_epc = 0;
  fp_sp : tf_get (mem_of u) tf tf_sp = PGSIZE;
  fp_pages : valid_page (S := St) tf /\ valid_page (S := St) pg /\ tf <> pg /\ (tf ∉ F) /\ pg ∉ F;
}.

Definition first_proc (pid tf root : Z) (p : proc) : proc := set_state RUNNABLE (set_cwd 0 (set_sz PGSIZE (new_proc pid tf root p))).

Definition root_inode (x : inode) : inode := Inode ROOTDEV ROOTINO 1 (i_lock x) 0 (i_dinode x).

(** The last writes: the trapframe and the name. *)
Definition last_writes (m : memory) (tf : Z) : memory :=
  safestrcpy (tf_set (tf_set m tf tf_epc 0) tf tf_sp PGSIZE) (name_addr 0) str_initcode 16.

Lemma last_writes_ok m tf : valid_page (S := St) tf ->
  (forall x, ~ (tf <= x < tf + PGSIZE) -> (x < name_addr 0 \/ name_addr 0 + 16 <= x) -> rd (last_writes m tf) x = rd m x) /\
  tf_get (last_writes m tf) tf tf_epc = 0 /\ tf_get (last_writes m tf) tf tf_sp = PGSIZE.
Proof.
  intros Vtf. unfold last_writes. set (m1 := tf_set _ tf tf_sp PGSIZE). destruct (safestrcpy_spec m1 (name_addr 0) str_initcode 16 ltac:(lia) name_str) as [_ Hf].
  assert (forall f, tf_get (safestrcpy m1 (name_addr 0) str_initcode 16) tf f = tf_get m1 tf f) as Hg.
  { intros f. apply load64_ext. intros x Hx. apply Hf. destruct (tf_off_range f). change TF_SIZE with 288 in *. destruct (name_data tf Vtf); unfold PGSIZE in *; lia. }
  rewrite !Hg. unfold m1. split; [|split; [rewrite tf_get_set_ne by done|]; now rewrite tf_get_set].
  intros x Hx Hx'. rewrite Hf by done. unfold m1. rewrite !rd_tf_set by (change TF_SIZE with 288; unfold PGSIZE in Hx; lia). done.
Qed.

Lemma first_space_done u root T F tf pg rs u0 F0 m :
  tspace user_tables u0 F0 u root T F rs [pg] -> rs = first_regions tf pg -> valid_page (S := St) tf -> (tf ∉ F0) ->
  (forall i, 0 <= i < PGSIZE -> rd (mem_of u) (pg + i) = nth (Z.to_nat i) initcode_bytes 0) ->
  (forall x, ~ (tf <= x < tf + PGSIZE) -> (x < name_addr 0 \/ name_addr 0 + 16 <= x) -> rd m x = rd (mem_of u) x) ->
  tf_get m tf tf_epc = 0 -> tf_get m tf tf_sp = PGSIZE -> first_space (Kalloc.set_mem m u) root T F tf pg.
Proof.
  intros [[V K4 K5 K6 K7 K8 K9 K10] K2 K3] -> Vtf Htf Hc Hm Hepc Hsp. destruct (K7 pg ltac:(left)) as (P1 & P2 & P3 & P4).
  assert (forall q, valid_page (S := St) q -> q <> tf -> same_bytes (mem_of u) m q PGSIZE) as Hs.
  { intros q Vq Hq x Hx. pose proof (vpage_apart (St := St) tf q Vtf Vq ltac:(done)). apply Hm; [lia|]. destruct (name_data q Vq); lia. }
  pose proof V as [A1 A2 A3]. destruct (vm_inv_mem u root T F m V) as [V' Hl].
  { intros q [Hq|(p & Hq)]; apply Hs.
    - exact (pa_free_valid _ _ _ A1 Hq).
    - intros ->. apply Htf. set_solver.
    - exact (pt_page _ _ _ A2 p q Hq).
    - intros ->. exact (Htf (K6 p tf Hq)). }
  assert (tf <> pg) as Hne by now intros ->.
  assert (mem_of (Kalloc.set_mem m u) = m) as Em by apply mem_set_mem.
  split; rewrite ?Em; try done.
  - intros v Hv. rewrite Hl. auto.
  - intros i Hi. rewrite (Hs pg P3 ltac:(done)) by lia. auto.
  - split; [done|]. split; [done|]. split; [done|]. split; [set_solver|done].
Qed.

Lemma userinit_ok u h t np ip it s F : 0 <> y_me s -> no_locks h -> p_state (t 0) = UNUSED -> pa_inv u F -> (7 < size F)%nat ->
  (forall i, 0 <= i < NINODE -> i_ref (it i) = 0) -> rd (mem_of u) str_root = slash -> rd (mem_of u) (str_root + 1) = 0 ->
  (forall i, 0 <= i < 52 -> rd (mem_of u) (initcode + i) = nth (Z.to_nat i) initcode_bytes 0) ->
  exists tf pg root u' T F' t', userinit trampoline forkret_pc name_addr str_initcode str_root initcode (at_ u h t np ip it s) =
      Ok tt (at_ u' h t' (i32 (np + 1)) 0 (<[0 := root_inode (it 0)]> it) s) /\
    t' 0 = first_proc np tf root (t 0) /\ (forall j, j <> 0 -> t' j = t j) /\ first_space u' root T F' tf pg /\ F' ⊆ F /\
    (forall x, apart_from F x -> (x < name_addr 0 \/ name_addr 0 + 16 <= x) -> rd (mem_of u') x = rd (mem_of u) x).
Proof.
  intros Hme Hlk Hu Ha Hn Hit R0 R1 Hic. unfold userinit.
  destruct (allocproc_ok u h t np ip it s F Hme Hlk Hu Ha ltac:(lia)) as (tf & root & u0 & u1 & T1 & F1 & t1 & E1 & Ht0 & Htj & Htf & Vtf & Hf0 & K1).
  set (h1 := {[proc_lock 0]} ∪ h) in *. set (F0 := F ∖ {[tf]}) in *.
  rewrite (bind_ok _ _ _ _ _ E1). erewrite (bind_ok _ _ _ tt (at_ u1 h1 t1 (i32 (np + 1)) 0 it s)) by reflexivity. change (0 =? NULL) with false. cbn iota.
  erewrite (bind_ok _ _ _ (t1 0) (at_ u1 h1 t1 (i32 (np + 1)) 0 it s)) by (unfold gets; now rewrite the_at).
  assert (p_pagetable (t1 0) = root /\ p_trapframe (t1 0) = tf) as [-> ->] by now rewrite Ht0. 
  assert (forall q, q ∈ F -> valid_page (S := St) q) as HFv by (intros q; exact (pa_free_valid _ _ _ Ha)).
  assert (forall a n, kdata a n -> forall i, 0 <= i < n -> apart_from F0 (a + i) /\ ~ (tf <= a + i < tf + PGSIZE)) as Hkd.
  { intros a n Hk i Hi. split; [intros q Hq; destruct (Hk q (HFv q ltac:(set_solver))); lia|destruct (Hk tf Vtf); lia]. }
  assert (forall x, apart_from F0 x -> ~ (tf <= x < tf + PGSIZE) -> rd (mem_of u0) x = rd (mem_of u) x) as H0 by (intros x _ Hx; apply Hf0; lia).
  destruct (uvmfirst_space u0 F0 u1 root T1 F1 _ initcode 52 K1) as (pg & u2 & T2 & F2 & E2 & K2 & C2 & Z2);
    [unfold F0; rewrite size_difference, size_singleton by set_solver; lia|unfold PGSIZE; lia| |intros i Hi; now apply (Hkd _ _ initcode_data)|].
  { intros v Hv. apply (page_apart_pte _ _ 0); [repeat constructor; done|done|lia]. }
  rewrite (bind_ok _ _ _ _ _ (vm_at _ _ _ _ _ _ _ _ _ _ E2)), (bind_ok _ _ _ _ _ (upd_at _ _ _ _ _ _ _ _ _ Hme)), (bind_ok _ _ _ _ _ (mem_at _ _ _ _ _ _ _ _)), (bind_ok _ _ _ _ _ (mem_at _ _ _ _ _ _ _ _)).
  assert (forall m, mem_of (Kalloc.set_mem m u2) = m) as Em by (intros m; apply mem_set_mem). rewrite Em.
  change (safestrcpy _ _ _ _) with (last_writes (mem_of u2) tf). destruct (last_writes_ok (mem_of u2) tf Vtf) as (Hm4 & Hepc & Hsp). set (m4 := last_writes _ tf) in *.
  assert (Kalloc.set_mem m4 (Kalloc.set_mem (tf_set (tf_set (mem_of u2) tf tf_epc 0) tf tf_sp PGSIZE) u2) = Kalloc.set_mem m4 u2) as -> by apply set_set_mem.
  pose proof (tp_bytes _ _ _ _ _ _ _ _ (ts_pages _ _ _ _ _ _ _ _ _ K2)) as Hb2.
  assert (forall x, apart_from F0 x -> ~ (tf <= x < tf + PGSIZE) -> (x < name_addr 0 \/ name_addr 0 + 16 <= x) -> rd m4 x = rd (mem_of u) x) as Hout.
  { intros x H1 H2 H3. rewrite Hm4, Hb2 by done. now apply H0. }
  destruct Hlk as (L1 & L2 & L3).
  rewrite (bind_ok _ _ _ _ _ (namei_root _ h1 _ _ _ _ _ ltac:(unfold h1; intros [H%elem_of_singleton|H]%elem_of_union; [discriminate|done]) Hit
    ltac:(rewrite Em; destruct (Hkd _ _ root_data 0 ltac:(lia)) as [? ?]; rewrite Z.add_0_r in *; rewrite Hout; [done|done|done|unfold disjoint in *; lia])
    ltac:(rewrite Em; destruct (Hkd _ _ root_data 1 ltac:(lia)) as [? ?]; rewrite Hout; [done|done|done|unfold disjoint in *; lia]))).
  rewrite (bind_ok _ _ _ _ _ (upd_at _ _ _ _ _ _ _ _ _ Hme)), unlock_at by (unfold h1; set_solver).
  replace (h1 ∖ {[proc_lock 0]}) with h by (unfold h1; specialize (L3 0); set_solver).
  eexists tf, pg, root, _, T2, F2, _. split; [reflexivity|]. rewrite !fn_lookup_insert, Ht0. split; [done|]. split; [intros j Hj; rewrite !fn_lookup_insert_ne by done; now apply Htj|].
  split; [|split; [pose proof (tp_free _ _ _ _ _ _ _ _ (ts_pages _ _ _ _ _ _ _ _ _ K2)); set_solver|]].
  - apply (first_space_done u2 root T2 F2 tf pg _ u0 F0 m4 K2 eq_refl Vtf); [unfold F0; set_solver| |done|done|done].
    intros i Hi. destruct (Z.lt_ge_cases i 52); [|rewrite Z2 by lia; symmetry; apply nth_overflow; change (length initcode_bytes) with 52%nat; lia].
    destruct (Hkd _ _ initcode_data i ltac:(change (Z.of_nat (length initcode_bytes)) with 52; lia)). rewrite C2, H0, Hic by (done || lia). done.
  - intros x Hx Hx'. rewrite Em. apply Hout; [intros q Hq; apply Hx; set_solver|specialize (Hx tf Htf); lia|done].
Qed.

Lemma first_execs u root T F tf pg : first_space u root T F tf pg -> execs_init (mem_of u) root.
Proof.
  intros [[A1 A2 A3] L C _ _ (_ & Vp & _)]. apply (initcode_ok (St := U) _ _ T pg); [exact A2| |done|done].
  rewrite L by done. cbn [first_regions region_pte inside code_region r_va r_size r_pa r_perm]. now rewrite Z.add_0_r.
Qed.

(** C25: The first process.  [userinit], with entry 0 of the table free and more
    than 7 free pages, makes it: the process is runnable with the next pid, one
    page of memory, the root directory as its directory, and a context from which
    [swtch] goes to [forkret]; its trapframe starts it at 0 with the stack at the
    end of the page; its page table has that page, the trapframe and the trampoline
    and nothing else.  No other process and no memory but free pages and the name
    changes.  A hart that runs it in user mode executes the array of proc.c as
    initcode.S: it comes to [exec] of "/init", and to [exit] if [exec] returns. *)
Theorem userinit_first_process u h t np ip it s F : 0 <> y_me s -> no_locks h -> p_state (t 0) = UNUSED -> pa_inv u F -> (7 < size F)%nat ->
  (forall i, 0 <= i < NINODE -> i_ref (it i) = 0) -> rd (mem_of u) str_root = slash -> rd (mem_of u) (str_root + 1) = 0 ->
  (forall i, 0 <= i < 52 -> rd (mem_of u) (initcode + i) = nth (Z.to_nat i) initcode_bytes 0) ->
  exists tf pg root u' T F' t', userinit trampoline forkret_pc name_addr str_initcode str_root initcode (at_ u h t np ip it s) =
      Ok tt (at_ u' h t' (i32 (np + 1)) 0 (<[0 := root_inode (it 0)]> it) s) /\
    t' 0 = Proc RUNNABLE (p_chan (t 0)) (p_killed (t 0)) (p_xstate (t 0)) np (p_parent (t 0)) (p_kstack (t 0)) PGSIZE root tf
             forkret_pc (p_kstack (t 0) + PGSIZE) (p_ofile (t 0)) 0 /\
    (forall j, j <> 0 -> t' j = t j) /\ first_space u' root T F' tf pg /\ F' ⊆ F /\
    (forall x, apart_from F x -> (x < name_addr 0 \/ name_addr 0 + 16 <= x) -> rd (mem_of u') x = rd (mem_of u) x) /\
    execs_init (mem_of u') root.
Proof.
  intros Hme Hlk Hu Ha Hn Hit R0 R1 Hic.
  destruct (userinit_ok u h t np ip it s F Hme Hlk Hu Ha Hn Hit R0 R1 Hic) as (tf & pg & root & u' & T & F' & t' & E & Ht & Hj & HS & HF & Hb).
  exists tf, pg, root, u', T, F', t'. split; [exact E|]. split; [exact Ht|]. split; [done|]. split; [done|]. split; [done|]. split; [done|].
  exact (first_execs _ _ _ _ _ _ HS).
Qed.
End userinit.

(** ** The memory of a booted kernel *)

Definition first_end : Z := KERNBASE + 0x22000.
Definition first_code : Z := KERNBASE + 0x9000.
Definition first_str : Z := KERNBASE + 0xa000.
Definition first_name (i : Z) : Z := KERNBASE + 0xb000 + 16 * i.
Definition first_tramp : Z := KERNBASE + 0x7000.
Definition first_forkret : Z := KERNBASE + 0x1000.
#[local] Instance first_pa : PageAllocator kstate := kmem_allocator first_end.
#[local] Instance first_ps : PageAllocatorSpec kstate := kmem_allocator_spec first_end ltac:(done).

Definition first_mem : memory := wr_bytes (wr_bytes ∅ first_code initcode_bytes) first_str [47; 0].
Definition first_kstate : kstate := KState 0 (Cpu 0 false true) (initlock "") 0 first_mem.

Definition no_proc : proc := Proc UNUSED ChanNone 0 0 0 NULL (KSTACK 0) 0 0 0 0 0 (fun _ => 0) 0.

Definition first_state : pst dview (uvm kstate) :=
  PSt (KSt (FState demo_disk (Uvm first_kstate 0) ∅ 0 demo_sb (f_inode demo_fs) 0) (fun _ => File FD_NONE 0 0 0 0 0 0 0) (fun _ => new_pipe)
    (UProc 0 0 (fun _ => NULL) false)) (fun _ => no_proc) NULL 1 NULL 0.

Lemma first_data a n : a + n <= first_end -> kdata (St := kstate) a n.
Proof. intros Ha q [_ Hq]. left. lia. Qed.

Lemma first_bytes : (forallb (fun i => rd (k_mem first_kstate) (first_code + Z.of_nat i) =? nth i initcode_bytes 0) (seq 0 52)) && (rd (k_mem first_kstate) first_str =? 47) && (rd (k_mem first_kstate) (first_str + 1) =? 0) = true.
Proof. vm_compute. reflexivity. Qed.

Lemma first_boot : exists k F, kinit first_end first_kstate = Ok tt k /\ pa_inv k F /\ (7 < size F)%nat /\ forall x, x < first_end -> rd (k_mem k) x = rd (k_mem first_kstate) x.
Proof.
  destruct (kinit_room first_end ltac:(done) first_kstate 7) as (k & fl & E & Hi & Hn & Hm); [done|done|done|vm_compute; discriminate|].
  exists k, (list_to_set fl). split; [exact E|]. clear E. split; [exists fl; split; [exact Hi|reflexivity]|]. split; [|exact Hm]. rewrite size_list_to_set by exact (kinv_nodup _ _ _ Hi). lia.
Qed.

Lemma userinit_first_process_witness : exists k u' t' it' p,
  kinit first_end first_kstate = Ok tt k /\
  userinit first_tramp first_forkret first_name 0 first_str first_code (at_ (Uvm k 0) ∅ (fun _ => no_proc) 1 NULL (fun _ => Inode 0 0 0 (initsleeplock "inode") 0 (Dinode 0 0 0 0 0 [])) first_state) =
    Ok tt (at_ u' ∅ t' 2 0 it' first_state) /\ t' 0 = p /\ p_state p = RUNNABLE /\ p_pid p = 1 /\ execs_init (mem_of u') (p_pagetable p).
Proof.
  pose proof first_bytes as Hb. apply andb_true_iff in Hb as [Hb R1%Z.eqb_eq]. apply andb_true_iff in Hb as [Hb R0%Z.eqb_eq].
  pose proof (proj1 (forallb_forall _ _) Hb) as Hc. clear Hb.
  assert (forall i, 0 <= i < 52 -> rd (k_mem first_kstate) (first_code + i) = nth (Z.to_nat i) initcode_bytes 0) as Hc'.
  { intros i Hi. specialize (Hc (Z.to_nat i) ltac:(apply in_seq; lia)). apply Z.eqb_eq in Hc. now rewrite Z2Nat.id in Hc by lia. }
  clear Hc. pose proof (userinit_first_process (B := dview) (St := kstate) first_tramp first_forkret first_name 0 first_str first_code) as HM.
  specialize (HM ltac:(split; vm_compute; split; discriminate || done) ltac:(apply first_data; vm_compute; discriminate) ltac:(apply first_data; vm_compute; discriminate)
    ltac:(apply first_data; vm_compute; discriminate) ltac:(right; vm_compute; discriminate) ltac:(right; vm_compute; discriminate)).
  assert (0 <> y_me first_state) as H1 by done. assert (no_locks ∅) as H2 by (split; [|split]; intros; apply not_elem_of_empty).
  assert (first_str < first_end /\ first_str + 1 < first_end /\ forall i, 0 <= i < 52 -> first_code + i < first_end) as (B1 & B2 & B3).
  { split; [done|]. split; [done|]. intros i Hi. assert (first_code + 52 < first_end) by done. lia. }
  destruct first_boot as (k & F & E & Hi & Hn & Hm).
  destruct (HM (Uvm k 0) ∅ (fun _ => no_proc) 1 NULL (fun _ => Inode 0 0 0 (initsleeplock "inode") 0 (Dinode 0 0 0 0 0 [])) first_state F H1 H2 eq_refl Hi Hn (fun _ _ => eq_refl)
    (eq_trans (Hm _ B1) R0) (eq_trans (Hm _ B2) R1) (fun i Hi => eq_trans (Hm _ (B3 i Hi)) (Hc' i Hi)))
    as (tf & pg & root & u' & T & F' & t' & E' & Et & _ & _ & _ & _ & Hx).
  exists k, u', t'. eexists. exists (t' 0). split; [exact E|]. split; [exact E'|]. clear E E'. rewrite Et.
  split; [reflexivity|]. split; [reflexivity|]. split; [reflexivity|]. exact Hx.
Defined.
