(* ===== verification/Sleep.v ===== *)
(** * kernel/proc.c: sleep and wakeup interleaved

    Processes that wait for a condition with [sleep], processes that make it true
    and call [wakeup], and processes that call [kill], one step for each lock
    operation and each access to shared data.  The condition is guarded by the
    lock [lk] that is passed to [sleep], as in every use of it in the kernel. *)

From stdpp Require Import base numbers functions list relations.
From S2P Require Import Prelude Proc.

Local Open Scope nat_scope.

(** Where a thread is.  [while(!cond) sleep(chan, lk); cond = 0] between
    [acquire(lk)] and [release(lk)]: *)
Inductive pc :=
  | Idle
  | Enter | Test | Take | Leave
  | SleepAcq | SleepRel | SleepChan | SleepState | Sched | Asleep | Tidy | TidyRel
  (** [cond = 1; wakeup(chan)] between [acquire(lk)] and [release(lk)]; the
      argument is the loop variable of [wakeup] *)
  | WakeEnter | WakeSet | Scan (j : nat) | ScanTest (j : nat) | ScanRel (j : nat) | WakeLeave
  (** [kill], at the entry with the pid *)
  | KillAcq (j : nat) | KillSet (j : nat) | KillRel (j : nat).

Record sstate := SState {
  s_pc : nat -> pc;
  s_state : nat -> procstate;
  s_chan : nat -> pchan;
  s_plock : nat -> option nat;
  s_lk : option nat;
  s_cond : bool;
}.

Section protocol.
(** The number of processes and the channel. *)
Context (N : nat) (chan : pchan).

Definition goto (i : nat) (p : pc) (s : sstate) : sstate :=
  SState (<[i := p]> (s_pc s)) (s_state s) (s_chan s) (s_plock s) (s_lk s) (s_cond s).
Definition put_state (i : nat) (x : procstate) (s : sstate) : sstate :=
  SState (s_pc s) (<[i := x]> (s_state s)) (s_chan s) (s_plock s) (s_lk s) (s_cond s).
Definition put_chan (i : nat) (x : pchan) (s : sstate) : sstate :=
  SState (s_pc s) (s_state s) (<[i := x]> (s_chan s)) (s_plock s) (s_lk s) (s_cond s).
Definition put_plock (j : nat) (o : option nat) (s : sstate) : sstate :=
  SState (s_pc s) (s_state s) (s_chan s) (<[j := o]> (s_plock s)) (s_lk s) (s_cond s).
Definition put_lk (o : option nat) (s : sstate) : sstate :=
  SState (s_pc s) (s_state s) (s_chan s) (s_plock s) o (s_cond s).
Definition put_cond (b : bool) (s : sstate) : sstate :=
  SState (s_pc s) (s_state s) (s_chan s) (s_plock s) (s_lk s) b.

(** [if(p->state == SLEEPING && p->chan == chan) p->state = RUNNABLE;] *)
Definition wake (j : nat) (s : sstate) : sstate :=
  if decide (s_state s j = SLEEPING /\ s_chan s j = chan) then put_state j RUNNABLE s else s.

(** [if(p->state == SLEEPING) p->state = RUNNABLE;] *)
Definition kill_wake (j : nat) (s : sstate) : sstate :=
  if decide (s_state s j = SLEEPING) then put_state j RUNNABLE s else s.

(** The step of thread [i], which is at [s_pc s i]; [None] where it spins on a
    lock, sleeps, or has nothing to do. *)
Definition sleep_step (i : nat) (s : sstate) : option sstate :=
  match s_pc s i with
  | SleepAcq => if s_plock s i is Some _ then None else Some (goto i SleepRel (put_plock i (Some i) s))
  | SleepRel => Some (goto i SleepChan (put_lk None s))
  | SleepChan => Some (goto i SleepState (put_chan i chan s))
  | SleepState => Some (goto i Sched (put_state i SLEEPING s))
  | Tidy => Some (goto i TidyRel (put_chan i ChanNone s))
  | TidyRel => Some (goto i Enter (put_plock i None s))
  | _ => None
  end.

(** The scheduler's side: after the switch it releases [p->lock]; later it
    acquires the lock of a [RUNNABLE] process and switches to it. *)
Definition scheduler_step (i : nat) (s : sstate) : option sstate :=
  match s_pc s i with
  | Sched => Some (goto i Asleep (put_plock i None s))
  | Asleep =>
      if s_plock s i is Some _ then None else
      if decide (s_state s i = RUNNABLE) then Some (goto i Tidy (put_state i RUNNING (put_plock i (Some i) s))) else None
  | _ => None
  end.

Definition wakeup_step (i : nat) (s : sstate) : option sstate :=
  match s_pc s i with
  | Scan j =>
      if decide (N <= j) then Some (goto i WakeLeave s) else
      if decide (j = i) then Some (goto i (Scan (S j)) s) else
      if s_plock s j is Some _ then None else Some (goto i (ScanTest j) (put_plock j (Some i) s))
  | ScanTest j => Some (goto i (ScanRel j) (wake j s))
  | ScanRel j => Some (goto i (Scan (S j)) (put_plock j None s))
  | _ => None
  end.

Definition kill_step (i : nat) (s : sstate) : option sstate :=
  match s_pc s i with
  | KillAcq j => if s_plock s j is Some _ then None else Some (goto i (KillSet j) (put_plock j (Some i) s))
  | KillSet j => Some (goto i (KillRel j) (kill_wake j s))
  | KillRel j => Some (goto i Idle (put_plock j None s))
  | _ => None
  end.

(** The code around the calls. *)
Definition client_step (i : nat) (s : sstate) : option sstate :=
  match s_pc s i with
  | Enter => if s_lk s is Some _ then None else Some (goto i Test (put_lk (Some i) s))
  | Test => Some (goto i (if s_cond s then Take else SleepAcq) s)
  | Take => Some (goto i Leave (put_cond false s))
  | Leave | WakeLeave => Some (goto i Idle (put_lk None s))
  | WakeEnter => if s_lk s is Some _ then None else Some (goto i WakeSet (put_lk (Some i) s))
  | WakeSet => Some (goto i (Scan 0) (put_cond true s))
  | _ => None
  end.

Inductive step : sstate -> sstate -> Prop :=
  | step_call i p s :
      i < N -> s_pc s i = Idle ->
      p = Enter \/ p = WakeEnter \/ (exists j, j < N /\ p = KillAcq j) ->
      step s (goto i p s)
  | step_sleep i s s' : i < N -> sleep_step i s = Some s' -> step s s'
  | step_scheduler i s s' : i < N -> scheduler_step i s = Some s' -> step s s'
  | step_wakeup i s s' : i < N -> wakeup_step i s = Some s' -> step s s'
  | step_kill i s s' : i < N -> kill_step i s = Some s' -> step s s'
  | step_client i s s' : i < N -> client_step i s = Some s' -> step s s'.

(** Every process runs and is idle, and no lock is held. *)
Definition initial : sstate :=
  SState (fun _ => Idle) (fun _ => RUNNING) (fun _ => ChanNone) (fun _ => None) None false.

Definition reachable (s : sstate) : Prop := rtc step initial s.

(** ** The invariant *)

(** The thread holds [lk]. *)
Definition has_lk (p : pc) : bool :=
  match p with
  | Test | Take | Leave | SleepAcq | SleepRel | WakeSet | Scan _ | ScanTest _ | ScanRel _ | WakeLeave => true
  | _ => false
  end.

(** The process whose lock thread [i] holds. *)
Definition has_plock (i : nat) (p : pc) : option nat :=
  match p with
  | SleepRel | SleepChan | SleepState | Sched | Tidy | TidyRel => Some i
  | ScanTest j | ScanRel j | KillSet j | KillRel j => Some j
  | _ => None
  end.

(** It has set its channel and is to be woken. *)
Definition on_chan (p : pc) : bool := match p with SleepState | Sched | Asleep => true | _ => false end.

(** It has found the condition false and does not look at it again unless it
    is woken. *)
Definition committed (p : pc) : bool :=
  match p with SleepAcq | SleepRel | SleepChan | SleepState => true | _ => false end.

Definition waiting (s : sstate) (i : nat) : Prop := committed (s_pc s i) = true \/ s_state s i = SLEEPING.

(** The thread is in [wakeup] and has yet to look at process [i]. *)
Definition pending (p : pc) (i : nat) : bool :=
  match p with
  | Scan j | ScanTest j => j <=? i
  | ScanRel j => j <? i
  | _ => false
  end%nat.

Record sinv (s : sstate) : Prop := {
  si_lk i : s_lk s = Some i <-> has_lk (s_pc s i) = true;
  si_plock i j : s_plock s j = Some i <-> has_plock i (s_pc s i) = Some j;
  si_sleeping i : s_state s i = SLEEPING -> s_pc s i = Sched \/ s_pc s i = Asleep;
  si_chan i : on_chan (s_pc s i) = true -> s_chan s i = chan;
  si_wake i : i < N -> waiting s i -> s_cond s = true -> exists w, pending (s_pc s w) i = true;
}.

Lemma sinv_initial : sinv initial.
Proof. split; cbn; naive_solver. Qed.

(** Case analysis of a step: the thread's position, then its branches. *)
Ltac step_cases :=
  repeat match goal with
  | H : _ = Some _ |- _ => progress (unfold sleep_step, scheduler_step, wakeup_step, kill_step, client_step in H)
  | H : match s_pc ?s ?i with _ => _ end = Some _ |- _ => destruct (s_pc s i) eqn:?
  | H : match s_plock ?s ?i with _ => _ end = Some _ |- _ => destruct (s_plock s i) eqn:?
  | H : match s_lk ?s with _ => _ end = Some _ |- _ => destruct (s_lk s) eqn:?
  | H : (if decide ?P then _ else _) = Some _ |- _ => destruct (decide P)
  | H : None = Some _ |- _ => discriminate H
  | H : Some _ = Some _ |- _ => injection H as <-
  end.

(** Which entry of a table is read after a write. *)
Ltac entries := cbn; unfold wake, kill_wake; repeat case_decide; cbn; unfold insert, fn_insert; repeat case_decide; subst.

(** The cases of a step [Hs], with what [pre] adds for the thread [i] that
    takes it, and the positions known to be there. *)
Ltac by_step Hs pre :=
  destruct Hs as [i p s Hi Hp Hq|i s s' Hi E|i s s' Hi E|i s s' Hi E|i s s' Hi E|i s s' Hi E];
  [destruct Hq as [->|[->|(j & _ & ->)]]|step_cases..]; pre s i; entries;
  repeat match goal with H : s_pc _ _ = _ |- _ => rewrite H in * end; cbn in *;
  try match goal with |- context [if s_cond ?s then _ else _] => destruct (s_cond s); cbn in * end;
  try naive_solver congruence.

Lemma si_lk_step s s' : sinv s -> step s s' -> forall i, s_lk s' = Some i <-> has_lk (s_pc s' i) = true.
Proof. intros HI Hs k. by_step Hs ltac:(fun s i => pose proof (si_lk s HI i); pose proof (si_lk s HI k)). Qed.

Lemma si_plock_step s s' : sinv s -> step s s' -> forall i j, s_plock s' j = Some i <-> has_plock i (s_pc s' i) = Some j.
Proof.
  intros HI Hs k l.
  by_step Hs ltac:(fun s i =>
    pose proof (si_plock s HI i l); pose proof (si_plock s HI k l); pose proof (si_plock s HI i i);
    try match goal with H : s_pc s i = _ ?j |- _ => pose proof (si_plock s HI i j) end).
Qed.

Lemma si_sleeping_step s s' : sinv s -> step s s' -> forall i, s_state s' i = SLEEPING -> s_pc s' i = Sched \/ s_pc s' i = Asleep.
Proof. intros HI Hs k. by_step Hs ltac:(fun s i => pose proof (si_sleeping s HI k)). Qed.

Lemma si_chan_step s s' : sinv s -> step s s' -> forall i, on_chan (s_pc s' i) = true -> s_chan s' i = chan.
Proof. intros HI Hs k. by_step Hs ltac:(fun s i => pose proof (si_chan s HI k)). Qed.

(** A waiting process that a scan holds the lock of is asleep on the channel:
    it can no longer be on its way there. *)
Lemma scanned_asleep s i w :
  sinv s -> s_pc s w = ScanTest i -> waiting s i ->
  committed (s_pc s i) = false /\ s_state s i = SLEEPING /\ s_chan s i = chan.
Proof.
  intros HI Hw HW. pose proof (si_lk s HI w) as L1. pose proof (si_lk s HI i) as L2.
  pose proof (si_plock s HI w i) as P1. pose proof (si_plock s HI i i) as P2. rewrite Hw in L1, P1. cbn in L1, P1.
  destruct HW as [HW|HW].
  - destruct (s_pc s i) eqn:Hp; try done; cbn in *; naive_solver congruence.
  - pose proof (si_chan s HI i). destruct (si_sleeping s HI i HW) as [E|E]; rewrite E in *; auto.
Qed.

(** A waiting process is not in [wakeup] itself. *)
Lemma waiting_not_scanning s i : sinv s -> waiting s i -> forall k, pending (s_pc s i) k = false.
Proof. intros HI [HW|HW] k; [|apply (si_sleeping s HI) in HW]; destruct (s_pc s i); naive_solver. Qed.

(** A process starts to wait only when the condition is false, and the
    condition becomes true only at the start of a scan. *)
Lemma waiting_step s s' k :
  sinv s -> step s s' -> waiting s' k -> s_cond s' = true ->
  (waiting s k /\ s_cond s = true) \/ exists w, pending (s_pc s' w) k = true.
Proof.
  intros HI Hs. unfold waiting. by_step Hs ltac:(fun s j => idtac).
  all: intros _ _; right; eexists; rewrite decide_True by reflexivity; reflexivity.
Qed.

(** A scan that has yet to look at [k] still has to while [k] is waiting. *)
Lemma pending_step s s' k w :
  sinv s -> step s s' -> k < N -> waiting s k -> waiting s' k ->
  pending (s_pc s w) k = true -> pending (s_pc s' w) k = true.
Proof.
  intros HI Hs Hk HW HW' Hp. pose proof (waiting_not_scanning s k HI HW k) as Hnk.
  pose proof (scanned_asleep s k w HI) as Ha. revert HW HW' Ha Hp Hnk. unfold waiting.
  by_step Hs ltac:(fun s j => idtac).
  all: rewrite ?Nat.leb_le, ?Nat.ltb_lt in *; intros; try lia.
  all: try match goal with H : s_pc _ _ = ScanTest ?j |- _ => destruct (decide (j = k)) as [->|]; [naive_solver|] end.
  all: destruct k; [try lia|apply Nat.leb_le; lia].
Qed.

Lemma sinv_step s s' : sinv s -> step s s' -> sinv s'.
Proof.
  intros HI Hs. split; eauto using si_lk_step, si_plock_step, si_sleeping_step, si_chan_step.
  intros i Hi HW' Hc. destruct (waiting_step s s' i HI Hs HW' Hc) as [[HW Hc0]|?]; [|done].
  destruct (si_wake s HI i Hi HW Hc0) as [w Hw]. exists w. now apply (pending_step s s').
Qed.

Lemma reachable_sinv s : reachable s -> sinv s.
Proof. apply (rtc_ind_r sinv initial); eauto using sinv_initial, sinv_step. Qed.

(** The step of thread [i] that is in a call, and a schedule of such steps. *)
Definition thread_step (i : nat) (s : sstate) : option sstate :=
  match sleep_step i s, scheduler_step i s, wakeup_step i s, kill_step i s with
  | Some s', _, _, _ | None, Some s', _, _ | None, None, Some s', _ | None, None, None, Some s' => Some s'
  | _, _, _, _ => client_step i s
  end.

Fixpoint run (l : list nat) (s : sstate) : option sstate :=
  match l with
  | [] => Some s
  | i :: l' => if decide (i < N) then thread_step i s ≫= run l' else None
  end.

Lemma run_steps l s s' : run l s = Some s' -> rtc step s s'.
Proof.
  revert s. induction l as [|i l IH]; intros s E; cbn in E; [injection E as ->; constructor|].
  destruct (decide (i < N)) as [Hi|]; [|done]. destruct (thread_step i s) as [s1|] eqn:E1; [|done]. cbn in E.
  apply rtc_l with s1; [|now apply IH]. unfold thread_step in E1.
  destruct (sleep_step i s) eqn:?; [injection E1 as <-; apply (step_sleep i); assumption|].
  destruct (scheduler_step i s) eqn:?; [injection E1 as <-; apply (step_scheduler i); assumption|].
  destruct (wakeup_step i s) eqn:?; [injection E1 as <-; apply (step_wakeup i); assumption|].
  destruct (kill_step i s) eqn:?; [injection E1 as <-; apply (step_kill i); assumption|]. apply (step_client i); assumption.
Qed.

Lemma run_reachable l s :
  reachable s -> (if run l s is Some _ then true else false) = true -> reachable (default initial (run l s)).
Proof. intros Hr Hs. destruct (run l s) as [s'|] eqn:E; [|discriminate Hs]. exact (transitivity Hr (run_steps l s s' E)). Qed.

(** C31: No wakeup is lost.  However the processes, the scheduler and [kill]
    interleave, if process [i] sleeps although the condition is true, some
    process holds the condition's lock, is in [wakeup], and has yet to come to
    [i]; when it does, it finds [i] asleep on the channel and makes it runnable.
    So once the lock is free nobody sleeps through a true condition. *)
Theorem no_lost_wakeup s i :
  reachable s -> i < N -> s_state s i = SLEEPING -> s_cond s = true ->
  exists w, s_lk s = Some w /\ pending (s_pc s w) i = true /\
    forall s', s_pc s w = ScanTest i -> wakeup_step w s = Some s' -> s_state s' i = RUNNABLE.
Proof.
  intros Hr Hi Hst Hc. pose proof (reachable_sinv s Hr) as HI. assert (waiting s i) as HW by now right.
  destruct (si_wake s HI i Hi HW Hc) as [w Hw]. exists w. split; [|split; [done|]].
  - apply (si_lk s HI). now destruct (s_pc s w).
  - intros s' Hp E. destruct (scanned_asleep s i w HI Hp HW) as (_ & _ & Hch). unfold wakeup_step in E. rewrite Hp in E.
    injection E as <-. cbn. unfold wake. rewrite decide_True by done. cbn. apply fn_lookup_insert.
Qed.
End protocol.

(** Process 0 sleeps, and process 1 has made the condition true and is about to
    look at process 0. *)
Definition waker_comes : sstate :=
  default initial (run 2 (ChanAddr 8) [0; 0; 0; 0; 0; 0; 0; 1; 1; 1] (goto 1 WakeEnter (goto 0 Enter initial))).

Strategy expand [waker_comes].

Lemma waker_comes_reachable : reachable 2 (ChanAddr 8) waker_comes.
Proof.
  apply run_reachable; [|vm_compute; reflexivity].
  eapply rtc_l; [apply (step_call 2 _ 0 Enter); auto|]. eapply rtc_l; [apply (step_call 2 _ 1 WakeEnter); auto|]. constructor.
Qed.

Lemma no_lost_wakeup_witness :
  s_state waker_comes 0 = SLEEPING /\ s_pc waker_comes 1 = ScanTest 0 /\
  exists w, s_lk waker_comes = Some w /\ pending (s_pc waker_comes w) 0 = true.
Proof.
  assert (s_state waker_comes 0 = SLEEPING) as H1 by (vm_compute; reflexivity).
  assert (s_cond waker_comes = true) as H2 by (vm_compute; reflexivity).
  split; [exact H1|]. split; [vm_compute; reflexivity|].
  destruct (no_lost_wakeup 2 (ChanAddr 8) waker_comes 0 waker_comes_reachable ltac:(lia) H1 H2) as (w & Hl & Hp & _).
  exists w. split; assumption.
Defined.
