(* ===== verification/Grep.v ===== *)
(** * user/grep.c

    The regular-expression matcher and the loop over the lines of a file.  A
    NUL-terminated string is the list of the bytes before the NUL. *)

From stdpp Require Import base list numbers.
From S2P Require Import Prelude.

Open Scope Z_scope.

Definition nl : Z := 10.
Definition dollar : Z := 36.
Definition star : Z := 42.
Definition period : Z := 46.
Definition caret : Z := 94.

(** [matchstar], with [matchhere] on the rest of the expression as [m]. *)
Fixpoint matchstar (m : list Z -> bool) (c : Z) (text : list Z) : bool :=
  if m text then true else
  match text with
  | [] => false
  | t :: text' => if (t =? c) || (c =? period) then matchstar m c text' else false
  end.

Fixpoint matchhere (re text : list Z) : bool :=
  match re with
  | [] => true
  | c :: re1 =>
      let plain :=
        if (c =? dollar) && (match re1 with [] => true | _ => false end)
        then (match text with [] => true | _ => false end)
        else match text with
             | [] => false
             | t :: text' => if (c =? period) || (c =? t) then matchhere re1 text' else false
             end in
      match re1 with
      | c1 :: re2 => if c1 =? star then matchstar (matchhere re2) c text else plain
      | [] => plain
      end
  end.

(** The loop of [match] over the positions of [text]. *)
Fixpoint match_from (re text : list Z) : bool :=
  if matchhere re text then true else
  match text with
  | [] => false
  | _ :: text' => match_from re text'
  end.

Definition grep_match (re text : list Z) : bool :=
  match re with
  | c :: re1 => if c =? caret then matchhere re1 text else match_from re text
  | [] => match_from re text
  end.

(** ** The expressions it matches *)

Inductive item := One (c : Z) | Star (c : Z).

(** The items of an expression, and whether it ends in [$]. *)
Fixpoint parse (re : list Z) : list item * bool :=
  match re with
  | [] => ([], false)
  | c :: re1 =>
      let plain :=
        if (c =? dollar) && (match re1 with [] => true | _ => false end) then ([], true)
        else let r := parse re1 in (One c :: r.1, r.2) in
      match re1 with
      | c1 :: re2 => if c1 =? star then let r := parse re2 in (Star c :: r.1, r.2) else plain
      | [] => plain
      end
  end.

Definition char_ok (c t : Z) : Prop := c = period \/ c = t.

(** The strings an expression denotes. *)
Inductive lang : list item -> list Z -> Prop :=
  | lang_nil : lang [] []
  | lang_one c t l s : char_ok c t -> lang l s -> lang (One c :: l) (t :: s)
  | lang_star c l s1 s2 : Forall (char_ok c) s1 -> lang l s2 -> lang (Star c :: l) (s1 ++ s2).

Lemma char_ok_spec c t : (c =? period) || (c =? t) = true <-> char_ok c t.
Proof. unfold char_ok. rewrite orb_true_iff, !Z.eqb_eq. done. Qed.

Lemma matchstar_spec m c text :
  matchstar m c text = true <-> exists s1 rest, text = s1 ++ rest /\ Forall (char_ok c) s1 /\ m rest = true.
Proof.
  induction text as [|t text IH]; cbn [matchstar].
  - split.
    + destruct (m []) eqn:E; [|done]. intros _. exists [], []. auto.
    + intros (s1 & rest & E & _ & Hm). symmetry in E. apply app_nil in E as [-> ->]. now rewrite Hm.
  - destruct (m (t :: text)) eqn:E.
    { split; [|done]. intros _. exists [], (t :: text). auto. }
    rewrite orb_comm, (Z.eqb_sym t c). split.
    + destruct (_ || _) eqn:Ec; [|done]. intros (s1 & rest & -> & Hs & Hm)%IH. exists (t :: s1), rest.
      split; [done|]. split; [|done]. constructor; [now apply char_ok_spec|done].
    + intros ([|x s1] & rest & Et & Hs & Hm); cbn in Et; [subst rest; congruence|]. injection Et as <- ->.
      apply Forall_cons_1 in Hs as [Hx Hs]. apply char_ok_spec in Hx. rewrite Hx. apply IH. eauto.
Qed.

(** [text] starts with a string of the expression, up to its end if anchored. *)
Definition starts (p : list item * bool) (text : list Z) : Prop :=
  exists s rest, text = s ++ rest /\ lang p.1 s /\ (p.2 = true -> rest = []).

Lemma starts_one c p text :
  starts (One c :: p.1, p.2) text <-> exists t text', text = t :: text' /\ char_ok c t /\ starts p text'.
Proof.
  split.
  - intros (s & rest & -> & Hl & Hr). cbn in *. inversion Hl as [|? t ? s' Hc Hl'|]; subst. exists t, (s' ++ rest). split; [done|]. split; [done|].
    exists s', rest. auto.
  - intros (t & text' & -> & Hc & (s & rest & -> & Hl & Hr)). exists (t :: s), rest. split; [done|]. split; [now constructor|done].
Qed.

Lemma starts_star c p text :
  starts (Star c :: p.1, p.2) text <-> exists s1 rest, text = s1 ++ rest /\ Forall (char_ok c) s1 /\ starts p rest.
Proof.
  split.
  - intros (s & rest & -> & Hl & Hr). cbn in *. inversion Hl as [| |? ? s1 s2 Hc Hl']; subst. exists s1, (s2 ++ rest).
    split; [now rewrite app_assoc|]. split; [done|]. exists s2, rest. auto.
  - intros (s1 & r & -> & Hc & (s & rest & -> & Hl & Hr)). exists (s1 ++ s), rest. split; [now rewrite app_assoc|].
    split; [now constructor|done].
Qed.

Lemma starts_end text : starts ([], true) text <-> text = [].
Proof.
  split; [|intros ->; exists [], []; split; [done|]; split; [constructor|done]].
  intros (s & rest & -> & Hl & Hr). cbn in *. inversion Hl; subst. rewrite Hr; done.
Qed.

Lemma starts_nil text : starts ([], false) text.
Proof. exists [], text. split; [done|]. split; [constructor|done]. Qed.

(** By induction on the length of the expression: [matchhere] goes two bytes on
    at a star. *)
Lemma matchhere_spec n : forall re text, (length re <= n)%nat -> matchhere re text = true <-> starts (parse re) text.
Proof.
  induction n as [|n IH]; intros [|c re1] text Hn; cbn in Hn; try lia.
  1,2: cbn; split; [intros _; apply starts_nil|done].
  assert (forall re1, (length re1 <= n)%nat ->
    match text with [] => false | t :: text' => if (c =? period) || (c =? t) then matchhere re1 text' else false end = true <->
    starts (One c :: (parse re1).1, (parse re1).2) text) as Hone.
  { intros r Hr. rewrite starts_one. destruct text as [|t text]; [naive_solver|]. destruct (_ || _) eqn:Ec.
    - rewrite (IH r text Hr). apply char_ok_spec in Ec. naive_solver.
    - split; [done|]. intros (? & ? & [= <- <-] & Hc%char_ok_spec & _). congruence. }
  destruct re1 as [|c1 re2].
  - cbn [matchhere parse]. rewrite andb_true_r. destruct (c =? dollar); [rewrite starts_end; now destruct text|]. apply (Hone []). lia.
  - cbn [matchhere parse] in *. rewrite andb_false_r. destruct (c1 =? star) eqn:Es; [|apply (Hone (c1 :: re2)); cbn in *; lia].
    cbn in Hn. rewrite matchstar_spec, starts_star. setoid_rewrite (IH re2 _ ltac:(lia)). done.
Qed.

Lemma match_from_spec re text :
  match_from re text = true <-> exists pre rest, text = pre ++ rest /\ starts (parse re) rest.
Proof.
  induction text as [|t text IH]; cbn [match_from].
  - destruct (matchhere re []) eqn:E.
    + split; [|done]. intros _. exists [], []. split; [done|]. now apply (matchhere_spec (length re)).
    + split; [done|]. intros (pre & rest & Et & Hs). symmetry in Et. apply app_nil in Et as [-> ->].
      apply (matchhere_spec (length re)) in Hs; [congruence|lia].
  - destruct (matchhere re (t :: text)) eqn:E.
    + split; [|done]. intros _. exists [], (t :: text). split; [done|]. now apply (matchhere_spec (length re)).
    + rewrite IH. split.
      * intros (pre & rest & -> & Hs). now exists (t :: pre), rest.
      * intros ([|x pre] & rest & Et & Hs); cbn in Et.
        -- subst rest. apply (matchhere_spec (length re)) in Hs; [congruence|lia].
        -- injection Et as <- ->. eauto.
Qed.

(** C35: The matcher decides the language of the expression.  [match] returns 1
    exactly if the text is [pre ++ s ++ post] for a string [s] that the
    expression denotes, with [pre] empty if the expression starts with a caret
    and [post] empty if it ends with a dollar sign. *)
Theorem match_correct re text :
  let anchored := match re with c :: _ => c =? caret | [] => false end in
  let p := parse (if anchored then tail re else re) in
  grep_match re text = true <->
  exists pre s post, text = pre ++ s ++ post /\ lang p.1 s /\ (anchored = true -> pre = []) /\ (p.2 = true -> post = []).
Proof.
  cbn zeta. unfold grep_match. destruct re as [|c re]; [|destruct (c =? caret) eqn:Ec]; cbn [tail].
  2: { rewrite (matchhere_spec (length re)) by lia. split.
       - intros (s & rest & -> & Hl & Hr). now exists [], s, rest.
       - intros (pre & s & post & -> & Hl & Hp & Hr). rewrite Hp by done. now exists s, post. }
  all: rewrite match_from_spec; split;
    [intros (pre & rest & -> & (s & post & -> & Hl & Hr)); now exists pre, s, post|].
  all: intros (pre & s & post & -> & Hl & _ & Hr); exists pre, (s ++ post); split; [done|]; now exists s, post.
Qed.

(** ** The loop over the input *)

(** [strchr(p, '\n')], which stops at a NUL: the bytes before the newline and
    those after it. *)
Fixpoint cut_line (p : list Z) : option (list Z * list Z) :=
  match p with
  | [] => None
  | c :: p' =>
      if c =? 0 then None else
      if c =? nl then Some ([], p') else
      match cut_line p' with
      | Some (l, r) => Some (c :: l, r)
      | None => None
      end
  end.

(** The inner loop of [grep] on the buffer from [p] on: what it writes, and the
    bytes that are left. *)
Fixpoint scan_buf (fuel : nat) (re p : list Z) : list Z * list Z :=
  match fuel with
  | O => ([], p)
  | S fuel' =>
      match cut_line p with
      | Some (l, r) =>
          let o := scan_buf fuel' re r in
          ((if grep_match re l then l ++ [nl] else []) ++ o.1, o.2)
      | None => ([], p)
      end
  end.

Definition BUFSIZE : nat := 1024.

(** The lines that end in a newline, and what follows the last one. *)
Fixpoint lines (s : list Z) : list (list Z) * list Z :=
  match s with
  | [] => ([], [])
  | c :: s' =>
      let o := lines s' in
      if c =? nl then ([] :: o.1, o.2) else
      match o.1 with
      | l :: ls => ((c :: l) :: ls, o.2)
      | [] => ([], c :: o.2)
      end
  end.

Definition matching (re s : list Z) : list Z :=
  concat (map (fun l => l ++ [nl]) (filter (fun l => grep_match re l = true) (lines s).1)).

Lemma lines_none s : nl ∉ s -> lines s = ([], s).
Proof.
  induction s as [|c s IH]; intros Hs; [done|]. apply not_elem_of_cons in Hs as [Hc Hs]. cbn. rewrite IH by done.
  now rewrite (proj2 (Z.eqb_neq c nl)) by congruence.
Qed.

Lemma lines_cons l r : nl ∉ l -> lines (l ++ nl :: r) = (l :: (lines r).1, (lines r).2).
Proof.
  induction l as [|c l IH]; intros Hl; [done|]. apply not_elem_of_cons in Hl as [Hc Hl]. cbn [lines app]. rewrite IH by done.
  now rewrite (proj2 (Z.eqb_neq c nl)) by congruence.
Qed.

Lemma matching_none re s : nl ∉ s -> matching re s = [].
Proof. intros Hs. unfold matching. now rewrite lines_none. Qed.

Lemma matching_cons re l r :
  nl ∉ l -> matching re (l ++ nl :: r) = (if grep_match re l then l ++ [nl] else []) ++ matching re r.
Proof.
  intros Hl. unfold matching. rewrite lines_cons by done. cbn [fst]. rewrite filter_cons.
  destruct (grep_match re l); [now rewrite decide_True|now rewrite decide_False].
Qed.

Lemma cut_line_spec p :
  0 ∉ p ->
  match cut_line p with
  | Some (l, r) => p = l ++ nl :: r /\ nl ∉ l
  | None => nl ∉ p
  end.
Proof.
  induction p as [|c p IH]; intros H0; cbn [cut_line]; [apply not_elem_of_nil|]. apply not_elem_of_cons in H0 as [Hc0 H0].
  rewrite (proj2 (Z.eqb_neq c 0)) by congruence. specialize (IH H0). destruct (Z.eqb_spec c nl) as [->|Hc].
  - split; [done|apply not_elem_of_nil].
  - destruct (cut_line p) as [[l r]|].
    + destruct IH as [-> Hl]. split; [done|]. apply not_elem_of_cons. split; [congruence|done].
    + apply not_elem_of_cons. split; [congruence|done].
Qed.

(** The buffer's lines are done with, and what is left of it has no newline. *)
Lemma scan_buf_ok fuel : forall re p, (length p <= fuel)%nat -> 0 ∉ p ->
  let o := scan_buf fuel re p in
  exists pre, p = pre ++ o.2 /\ nl ∉ o.2 /\ forall rest, matching re (p ++ rest) = o.1 ++ matching re (o.2 ++ rest).
Proof.
  induction fuel as [|fuel IH]; intros re p Hf H0; cbn [scan_buf].
  { destruct p; [|cbn in Hf; lia]. exists []. split; [done|]. split; [apply not_elem_of_nil|done]. }
  pose proof (cut_line_spec p H0) as Hc. destruct (cut_line p) as [[l r]|]; [|now exists []].
  destruct Hc as [-> Hl]. rewrite length_app in Hf. cbn in Hf. apply not_elem_of_app in H0 as [_ [_ H0]%not_elem_of_cons].
  destruct (IH re r ltac:(lia) H0) as (pre & Er & Hr & Hm). cbn [fst snd].
  exists (l ++ nl :: pre). split; [rewrite <- app_assoc; cbn; now rewrite <- Er|]. split; [done|].
  intros rest. rewrite <- app_assoc. cbn [app]. rewrite matching_cons, Hm, app_assoc by done. done.
Qed.

Section input.
(** How many bytes [read] gives of the input that is left when it is asked for
    up to [max]: at least one if there is one and it is asked for any. *)
Context (read : list Z -> nat -> nat).

(** [grep] with the bytes [buf] kept from the last round.  Each round takes a
    byte of the input, so the length of the input is fuel enough. *)
Fixpoint grep_loop (fuel : nat) (re buf input : list Z) : list Z :=
  match fuel with
  | O => []
  | S fuel' =>
      let n := read input (BUFSIZE - length buf - 1)%nat in
      if (0 <? n)%nat then
        let b := buf ++ take n input in
        let o := scan_buf (length b) re b in
        o.1 ++ grep_loop fuel' re o.2 (drop n input)
      else []
  end.

Definition grep (re input : list Z) : list Z := grep_loop (S (length input)) re [] input.

Context (Hread : forall l max, (read l max <= max /\ read l max <= length l)%nat).
Context (Hsome : forall l max, l <> [] -> (0 < max)%nat -> (0 < read l max)%nat).

(** No line is longer than the buffer can hold. *)
Definition fits (s : list Z) : Prop :=
  forall a b c, s = a ++ b ++ c -> nl ∉ b -> (length b < BUFSIZE - 1)%nat.

Lemma fits_suffix a s : fits (a ++ s) -> fits s.
Proof. intros H a' b c -> Hb. apply (H (a ++ a') b c); [now rewrite <- app_assoc|done]. Qed.

Lemma grep_loop_ok fuel : forall re buf input,
  (length input < fuel)%nat -> nl ∉ buf -> 0 ∉ (buf ++ input) -> fits (buf ++ input) -> grep_loop fuel re buf input = matching re (buf ++ input).
Proof.
  induction fuel as [|fuel IH]; intros re buf input Hf Hb H0 Hfit; [lia|]. cbn [grep_loop].
  assert (length buf < BUFSIZE - 1)%nat as Hlb by (apply (Hfit [] buf input); done).
  set (n := read input _). destruct (Hread input (BUFSIZE - length buf - 1)) as [H1 H2]. fold n in H1, H2.
  destruct (Nat.ltb_spec 0 n) as [Hn|Hn].
  - set (b := buf ++ take n input).
    assert (buf ++ input = b ++ drop n input) as E by (unfold b; now rewrite <- app_assoc, take_drop).
    rewrite E in H0. pose proof H0 as [H0b H0d]%not_elem_of_app.
    destruct (scan_buf_ok (length b) re b (le_n _) H0b) as (pre & Epre & Hr & Hsp).
    rewrite E, Hsp. f_equal. rewrite Epre, <- app_assoc, not_elem_of_app in H0. apply IH; [rewrite length_drop; lia|done|apply H0|].
    apply (fits_suffix pre). now rewrite app_assoc, <- Epre, <- E.
  - assert (input = []) as ->.
    { destruct input as [|c input]; [done|]. exfalso. pose proof (Hsome (c :: input) (BUFSIZE - length buf - 1) ltac:(done) ltac:(lia)). fold n in H. lia. }
    rewrite app_nil_r. symmetry. now apply matching_none.
Qed.

(** C36: [grep] prints the lines that match and nothing else, however many bytes
    each [read] returns: for an input without NUL bytes whose lines fit the
    buffer the output is, in order, every line that ends in a newline and
    matches. *)
Theorem grep_prints_matching_lines re input :
  0 ∉ input -> fits input ->
  grep re input = concat (map (fun l => l ++ [nl]) (filter (fun l => grep_match re l = true) (lines input).1)).
Proof. intros H0 Hfit. unfold grep. rewrite grep_loop_ok; [done|lia|apply not_elem_of_nil|done|done]. Qed.
End input.

(** Two bytes for each [read], on the lines "ab" and "b". *)
Definition read2 (l : list Z) (max : nat) : nat := Nat.min (Nat.min 2 max) (length l).

Definition demo_input : list Z := [97; 98; nl; 98; nl].

Lemma grep_prints_matching_lines_witness : grep read2 [caret; 97; period] demo_input = [97; 98; nl].
Proof.
  rewrite (grep_prints_matching_lines read2 ltac:(unfold read2; lia)
    ltac:(intros [|c l] max Hl Hm; [contradiction|unfold read2; cbn [length]; lia]) [caret; 97; period] demo_input).
  - vm_compute. reflexivity.
  - unfold demo_input, nl. rewrite !not_elem_of_cons. repeat split; try discriminate. apply not_elem_of_nil.
  - intros a b c E _. apply (f_equal length) in E. rewrite !length_app in E. unfold demo_input in E. cbn [length] in E. unfold BUFSIZE. lia.
Defined.
