(* ===== verification/Printf.v ===== *)
(** * kernel/printf.c and user/printf.c

    Formatted output as the bytes that are printed.  [None] is a program that
    goes wrong: it writes past the end of [printint]'s buffer, or the format asks
    for an argument that is not there. *)

From stdpp Require Import base list numbers option.
From S2P Require Import Prelude.

Open Scope Z_scope.

Definition minus : Z := 45.
Definition percent : Z := 37.

(** [sizeof(buf)] of both [printint]s. *)
Definition PRINT_BUF : nat := 16.

(** [digits[x]], with [a] the first letter. *)
Definition digit (a x : Z) : Z := if x <? 10 then 48 + x else a + (x - 10).

(** The do-while loop: the digits of [x] from the last one on. *)
Fixpoint digits_of (fuel : nat) (a base x : Z) : list Z :=
  match fuel with
  | O => []
  | S fuel' => digit a (x mod base) :: (if x / base =? 0 then [] else digits_of fuel' a base (x / base))
  end.

(** A number of 64 bits has at most 64 digits in any base. *)
Definition DIGITS : nat := 64.

(** [buf] when the loop is done. *)
Definition int_buf (a : Z) (neg : bool) (base x : Z) : list Z :=
  digits_of DIGITS a base x ++ (if neg then [minus] else []).

(** [while(--i >= 0) putc(buf[i]);] if [buf] was large enough. *)
Definition put_buf (b : list Z) : option (list Z) := if (length b <=? PRINT_BUF)%nat then Some (reverse b) else None.

(** [for (i = 0; i < 16; i++, x <<= 4) putc(digits[x >> 60]);] *)
Fixpoint ptr_digits (n : nat) (a x : Z) : list Z :=
  match n with
  | O => []
  | S n' => digit a (Z.shiftr x 60) :: ptr_digits n' a (u64 (Z.shiftl x 4))
  end.

Inductive arg := ANum (z : Z) | AStr (s : option (list Z)).

Definition null_text : list Z := [40; 110; 117; 108; 108; 41].

(** Character codes of the conversions. *)
Definition ch_d : Z := 100.
Definition ch_l : Z := 108.
Definition ch_u : Z := 117.
Definition ch_x : Z := 120.
Definition ch_p : Z := 112.
Definition ch_s : Z := 115.

(** The conversion that starts at a format after the percent sign: what it
    prints with the next argument, how many bytes of the format it takes, and how
    many arguments. *)
Section format.
Context (printint : Z -> Z -> bool -> option (list Z)) (printptr : Z -> list Z).

Definition number (args : list arg) (f : Z -> option (list Z)) : option (list Z * list arg) :=
  match args with
  | ANum z :: args' => o ← f z; Some (o, args')
  | _ => None
  end.

Definition conversion (c0 c1 c2 : Z) (args : list arg) : option (list Z * list arg * nat) :=
  let num n f := r ← number args f; Some (r, n) in
  if c0 =? ch_d then num 1%nat (fun z => printint (i32 z) 10 true)
  else if (c0 =? ch_l) && (c1 =? ch_d) then num 2%nat (fun z => printint (i64 z) 10 true)
  else if (c0 =? ch_l) && (c1 =? ch_l) && (c2 =? ch_d) then num 3%nat (fun z => printint (i64 z) 10 true)
  else if c0 =? ch_u then num 1%nat (fun z => printint (i32 z) 10 false)
  else if (c0 =? ch_l) && (c1 =? ch_u) then num 2%nat (fun z => printint (i64 z) 10 false)
  else if (c0 =? ch_l) && (c1 =? ch_l) && (c2 =? ch_u) then num 3%nat (fun z => printint (i64 z) 10 false)
  else if c0 =? ch_x then num 1%nat (fun z => printint (i32 z) 16 false)
  else if (c0 =? ch_l) && (c1 =? ch_x) then num 2%nat (fun z => printint (i64 z) 16 false)
  else if (c0 =? ch_l) && (c1 =? ch_l) && (c2 =? ch_x) then num 3%nat (fun z => printint (i64 z) 16 false)
  else if c0 =? ch_p then num 1%nat (fun z => Some (printptr (u64 z)))
  else if c0 =? ch_s then
    match args with
    | AStr s :: args' => Some (default null_text s, args', 1%nat)
    | _ => None
    end
  else if c0 =? percent then Some ([percent], args, 1%nat)
  else Some ([percent; c0], args, 1%nat).

(** The loop over the format.  A percent sign at the end prints nothing. *)
Fixpoint format (fuel : nat) (fmt : list Z) (args : list arg) : option (list Z) :=
  match fuel with
  | O => Some []
  | S fuel' =>
      match fmt with
      | [] => Some []
      | c :: rest =>
          if c =? percent then
            match rest with
            | [] => Some []
            | c0 :: _ =>
                let c1 := nth 1 rest 0 in
                let c2 := nth 2 rest 0 in
                r ← conversion c0 c1 c2 args;
                o ← format fuel' (drop r.2 rest) r.1.2;
                Some (r.1.1 ++ o)
            end
          else
            o ← format fuel' rest args;
            Some (c :: o)
      end
  end.
End format.

(** ** kernel/printf.c *)

Definition kdigits : Z := 97.

Definition kprintint (xx base : Z) (sign : bool) : option (list Z) :=
  let neg := sign && (xx <? 0) in
  put_buf (int_buf kdigits neg base (u64 (if neg then - xx else xx))).

Definition kprintptr (x : Z) : list Z := [48; 120] ++ ptr_digits 16 kdigits x.

Definition kprintf (fmt : list Z) (args : list arg) : option (list Z) := format kprintint kprintptr (length fmt) fmt args.

(** ** user/printf.c *)

Definition udigits : Z := 65.

(** [xx] is converted to [int]. *)
Definition uprintint (xx base : Z) (sgn : bool) : option (list Z) :=
  let xx := i32 xx in
  let neg := sgn && (xx <? 0) in
  put_buf (int_buf udigits neg base (u32 (if neg then - xx else xx))).

Definition uprintptr (x : Z) : list Z := [48; 120] ++ ptr_digits 16 udigits x.

Definition vprintf (fmt : list Z) (args : list arg) : option (list Z) := format uprintint uprintptr (length fmt) fmt args.

(** ** Reading a number back *)

Definition digit_val (a c : Z) : Z := if c <? 58 then c - 48 else c - a + 10.

Definition read_digits (a base : Z) (l : list Z) : Z := fold_left (fun v c => v * base + digit_val a c) l 0.

Definition read_int (a base : Z) (l : list Z) : Z :=
  match l with
  | c :: l' => if c =? minus then - read_digits a base l' else read_digits a base l
  | [] => 0
  end.

Lemma digit_val_digit a d : 58 <= a -> 0 <= d -> digit_val a (digit a d) = d.
Proof. intros Ha Hd. unfold digit_val, digit. repeat case_goal; zbool; lia. Qed.

Lemma digit_not_minus a d : 58 <= a -> 0 <= d -> digit a d <> minus.
Proof. intros Ha Hd. unfold digit, minus. case_goal; zbool; lia. Qed.

Lemma read_digits_snoc a base l c : read_digits a base (l ++ [c]) = read_digits a base l * base + digit_val a c.
Proof. unfold read_digits. now rewrite fold_left_app. Qed.

(** The digits of a number of at most [fuel] digits. *)
Lemma digits_of_ok a base fuel : 58 <= a -> 2 <= base -> forall x, 0 <= x < base ^ Z.of_nat fuel -> (0 < fuel)%nat ->
  read_digits a base (reverse (digits_of fuel a base x)) = x /\
  (forall k, (0 < k)%nat -> (length (digits_of fuel a base x) <= k)%nat <-> x < base ^ Z.of_nat k) /\
  Forall (fun c => c <> minus) (digits_of fuel a base x) /\ digits_of fuel a base x <> [].
Proof.
  intros Ha Hb. induction fuel as [|fuel IH]; intros x Hx Hf; [lia|]. cbn [digits_of].
  pose proof (Z.mod_pos_bound x base ltac:(lia)) as Hm. pose proof (Z.div_mod x base ltac:(lia)) as Hdm.
  destruct (Z.eqb_spec (x / base) 0) as [Hz|Hz].
  - split; [rewrite reverse_singleton; unfold read_digits; cbn; rewrite digit_val_digit; lia|]. split.
    + intros k Hk. cbn. split; [|lia]. intros _. assert (base <= base ^ Z.of_nat k); [|nia].
      rewrite <- (Z.pow_1_r base) at 1. apply Z.pow_le_mono_r; lia.
    + split; [|done]. constructor; [apply digit_not_minus; lia|constructor].
  - rewrite Nat2Z.inj_succ, Z.pow_succ_r in Hx by lia.
    assert (0 <= x / base < base ^ Z.of_nat fuel) as Hq by (split; [apply Z.div_pos; lia|apply Z.div_lt_upper_bound; lia]).
    assert (0 < fuel)%nat as Hf' by (destruct fuel; [cbn in Hq; lia|lia]).
    destruct (IH (x / base) Hq Hf') as (H1 & H2 & H3 & H4).
    split; [rewrite reverse_cons, read_digits_snoc, H1, digit_val_digit; lia|]. split.
    + intros [|k] Hk; [lia|]. cbn [length]. rewrite Nat2Z.inj_succ, Z.pow_succ_r by lia. destruct k as [|k].
      * cbn [Z.of_nat Z.pow]. destruct (digits_of fuel a base (x / base)); [done|]. cbn. split; [lia|]. intros. exfalso. apply Hz. apply Z.div_small. lia.
      * rewrite <- Nat.succ_le_mono, H2 by lia. split; intros.
        -- assert (x / base + 1 <= base ^ Z.of_nat (S k)) by lia. nia.
        -- apply Z.div_lt_upper_bound; lia.
    + split; [|done]. constructor; [apply digit_not_minus; lia|done].
Qed.

Lemma read_int_buf a base neg x :
  58 <= a -> 2 <= base -> 0 <= x < 2 ^ 64 ->
  read_int a base (reverse (int_buf a neg base x)) = (if neg then - x else x) /\
  ((length (int_buf a neg base x) <= PRINT_BUF)%nat <-> x < base ^ (if neg then 15 else 16)).
Proof.
  intros Ha Hb Hx. unfold int_buf, PRINT_BUF.
  assert (0 <= x < base ^ Z.of_nat DIGITS) as Hx' by (split; [lia|]; change (Z.of_nat DIGITS) with 64; pose proof (Z.pow_le_mono_l 2 base 64 ltac:(lia)); lia).
  destruct (digits_of_ok a base DIGITS Ha Hb x Hx' ltac:(unfold DIGITS; lia)) as (H1 & H2 & H3 & H4).
  revert H1 H2 H3 H4. generalize (digits_of DIGITS a base x). intros l H1 H2 H3 H4.
  destruct neg; rewrite ?length_app, ?reverse_app; cbn [length].
  - split; [rewrite reverse_singleton; unfold read_int; cbn [app]; now rewrite Z.eqb_refl, H1|]. rewrite <- (H2 15%nat) by lia. lia.
  - rewrite reverse_nil, app_nil_l, Nat.add_0_r. split; [|apply (H2 16%nat); lia].
    unfold read_int. destruct (reverse l) as [|c r] eqn:E; [now rewrite <- (reverse_involutive l), E in H4|].
    rewrite (proj2 (Z.eqb_neq c minus)); [done|]. rewrite Forall_forall in H3. apply H3, list_elem_of_In, elem_of_reverse. rewrite E. apply list_elem_of_here.
Qed.

(** C37: What [printint] prints.  The kernel's prints the number it is given, in
    base 10 or 16, as long as it has at most 16 digits, counting the sign; a larger
    one does not fit its buffer and is written past the end, and so is a
    negative [int] printed with [%u], which is extended to 64 bits first.  The
    user library's always fits, because it prints the low 32 bits only. *)
Theorem printint_correct xx base (sign : bool) :
  base = 10 \/ base = 16 -> - 2^63 <= xx < 2^63 ->
  let v := if sign then xx else u64 xx in
  (forall o, kprintint xx base sign = Some o -> read_int kdigits base o = v) /\
  (is_Some (kprintint xx base sign) <-> Z.abs v < base ^ (if v <? 0 then 15 else 16)) /\
  kprintf [percent; ch_u] [ANum (2^32 - 1)] = None /\
  exists o, uprintint xx base sign = Some o /\ read_int udigits base o = (if sign then i32 xx else u32 (i32 xx)).
Proof.
  intros Hbase Hxx v. assert (2 <= base) as Hb by lia.
  pose proof (i32_range xx) as Hi. set (yy := i32 xx) in *.
  assert (forall neg, (neg : bool) = sign && (xx <? 0) -> 0 <= u64 (if neg then - xx else xx) < 2^64 /\
    (if neg then - u64 (- xx) else u64 xx) = v /\ (v <? 0) = neg /\ Z.abs v = u64 (if neg then - xx else xx)) as Hv.
  { intros neg ->. unfold v, u64. destruct sign; cbn [andb]; [destruct (Z.ltb_spec xx 0)|destruct (Z.ltb_spec (xx mod 2^64) 0)]; dlia. }
  destruct (Hv _ eq_refl) as (Hu & Hr & Hn & Habs). set (neg := sign && (xx <? 0)) in *.
  destruct (read_int_buf kdigits base neg (u64 (if neg then - xx else xx))) as [E1 E2]; [done|done|done|].
  assert (kprintint xx base sign = put_buf (int_buf kdigits neg base (u64 (if neg then - xx else xx)))) as Ek by done.
  rewrite Ek. unfold put_buf. split; [|split; [|split]].
  - intros o. case_goal; [|done]. intros [= <-]. rewrite E1. revert Hr. clear. now destruct neg.
  - rewrite Habs, Hn, <- E2. destruct (Nat.leb_spec (length (int_buf kdigits neg base (u64 (if neg then - xx else xx)))) PRINT_BUF).
    + split; [done|]. intros _. now eexists.
    + split; [intros [? ?]; done|lia].
  - vm_compute. reflexivity.
  - unfold uprintint, put_buf. fold yy. cbv zeta. set (n := sign && (yy <? 0)).
    assert (0 <= u32 (if n then - yy else yy) < 2^32) as H32 by apply u32_range.
    destruct (read_int_buf udigits base n (u32 (if n then - yy else yy))) as [F1 F2]; [done|done|lia|].
    rewrite (proj2 (Nat.leb_le _ _)).
    2: { apply F2. pose proof (Z.pow_le_mono_l 10 base (if n then 15 else 16) ltac:(lia)). destruct n; lia. }
    eexists. split; [reflexivity|]. rewrite F1. unfold n, u32 in *. destruct sign; cbn [andb]; [destruct (Z.ltb_spec yy 0)|]; dlia.
Qed.

Lemma printint_correct_witness : exists o, kprintint (-255) 16 true = Some o /\ read_int kdigits 16 o = -255.
Proof.
  destruct (printint_correct (-255) 16 true (or_intror eq_refl) ltac:(lia)) as (H1 & H2 & _).
  destruct (proj2 H2 ltac:(vm_compute; reflexivity)) as [o Ho]. exists o. split; [exact Ho|exact (H1 o Ho)].
Defined.
