(* ===== verification/Console.v ===== *)
(** * kernel/console.c and kernel/uart.c

    The input buffer of the console with its line editing, and the transmit
    buffer of the UART.  A function that sleeps ends there and is resumed with
    the same arguments; the status register of the UART and the characters it
    has received are arguments, and what is written to its transmit register is
    the output.  The process list that control-P prints is not part of the
    output, and the kernel has not panicked. *)

From stdpp Require Import base list numbers functions.
From S2P Require Import Prelude.

Open Scope Z_scope.

Definition BACKSPACE : Z := 0x100.

(** [C(x)] for a letter: [x - '@']. *)
Definition ctrl (x : Z) : Z := x - 64.
Definition CTRL_P : Z := ctrl 80.
Definition CTRL_U : Z := ctrl 85.
Definition CTRL_H : Z := ctrl 72.
Definition CTRL_D : Z := ctrl 68.
Definition DEL : Z := 0x7f.
Definition newline : Z := 10.
Definition return_ : Z := 13.

Definition INPUT_BUF_SIZE : Z := 128.

Record cons := Cons { c_buf : Z -> Z; c_r : Z; c_w : Z; c_e : Z }.

(** What [consputc] sends. *)
Definition consputc (c : Z) : list Z := if c =? BACKSPACE then [8; 32; 8] else [u8 c].

(** The loop that kills a line; [e - w] is at most the size of the buffer. *)
Fixpoint kill_line (fuel : nat) (s : cons) : cons * list Z :=
  match fuel with
  | O => (s, [])
  | S fuel' =>
      if negb (c_e s =? c_w s) && negb (c_buf s (u32 (c_e s - 1) mod INPUT_BUF_SIZE) =? newline) then
        let o := kill_line fuel' (Cons (c_buf s) (c_r s) (c_w s) (u32 (c_e s - 1))) in
        (o.1, consputc BACKSPACE ++ o.2)
      else (s, [])
  end.

(** The new state, the echo, and whether [consoleread] is woken. *)
Definition consoleintr (c : Z) (s : cons) : cons * list Z * bool :=
  if c =? CTRL_P then (s, [], false)
  else if c =? CTRL_U then (kill_line (Z.to_nat INPUT_BUF_SIZE) s, false)
  else if (c =? CTRL_H) || (c =? DEL) then
    if negb (c_e s =? c_w s) then
      (Cons (c_buf s) (c_r s) (c_w s) (u32 (c_e s - 1)), consputc BACKSPACE, false)
    else (s, [], false)
  else if negb (c =? 0) && (u32 (c_e s - c_r s) <? INPUT_BUF_SIZE) then
    let c := if c =? return_ then newline else c in
    let e := u32 (c_e s + 1) in
    let buf := <[c_e s mod INPUT_BUF_SIZE := u8 c]> (c_buf s) in
    if (c =? newline) || (c =? CTRL_D) || (u32 (e - c_r s) =? INPUT_BUF_SIZE) then
      (Cons buf (c_r s) e e, consputc c, true)
    else (Cons buf (c_r s) (c_w s) e, consputc c, false)
  else (s, [], false).

(** How [consoleread] ends: with its result, or asleep with [n] bytes to go; and
    the bytes it has copied. *)
Inductive rstop := RReturn (r : Z) | RSleep (n : Z).

Section read.
(** [either_copyout] of a byte to address [dst] succeeds. *)
Context (can_copy : Z -> bool) (killed : bool).

(** [consoleread] from its loop on, with [n] of [target] bytes to go. *)
Fixpoint consoleread (fuel : nat) (dst target n : Z) (s : cons) : rstop * list Z * cons :=
  match fuel with
  | O => (RReturn (target - n), [], s)
  | S fuel' =>
      if 0 <? n then
        if c_r s =? c_w s then
          (if killed then RReturn (-1) else RSleep n, [], s)
        else
          let c := c_buf s (c_r s mod INPUT_BUF_SIZE) in
          let s' := Cons (c_buf s) (u32 (c_r s + 1)) (c_w s) (c_e s) in
          if c =? CTRL_D then (RReturn (target - n), [], if n <? target then s else s')
          else if negb (can_copy dst) then (RReturn (target - n), [], s')
          else if c =? newline then (RReturn (target - (n - 1)), [c], s')
          else
            let o := consoleread fuel' (u64 (dst + 1)) target (n - 1) s' in
            (o.1.1, c :: o.1.2, o.2)
      else (RReturn (target - n), [], s)
  end.
End read.

(** ** The transmit buffer of the UART *)

Definition UART_TX_BUF_SIZE : Z := 32.

Record uart := Uart { tx_buf : Z -> Z; tx_w : Z; tx_r : Z }.

(** [idle] is what the successive reads of the status register find; the device
    is busy after them.  The result is the state and what is transmitted. *)
Fixpoint uartstart (idle : list bool) (s : uart) : uart * list Z :=
  if tx_w s =? tx_r s then (s, []) else
  match idle with
  | true :: idle' =>
      let o := uartstart idle' (Uart (tx_buf s) (tx_w s) (u64 (tx_r s + 1))) in
      (o.1, tx_buf s (tx_r s mod UART_TX_BUF_SIZE) :: o.2)
  | _ => (s, [])
  end.

(** [None] where it sleeps because the buffer is full. *)
Definition uartputc (idle : list bool) (c : Z) (s : uart) : option (uart * list Z) :=
  if tx_w s =? u64 (tx_r s + UART_TX_BUF_SIZE) then None else
  Some (uartstart idle (Uart (<[tx_w s mod UART_TX_BUF_SIZE := u8 c]> (tx_buf s)) (u64 (tx_w s + 1)) (tx_r s))).

(** How [consolewrite] ends: with its result, or asleep in [uartputc] with byte
    [i] read. *)
Inductive wstop := WReturn (r : Z) | WSleep (i : Z).

Section write.
(** What [either_copyin] reads at an address, and the readings of the status
    register during the call for byte [i]. *)
Context (user_byte : Z -> option Z) (idle : Z -> list bool).

(** From byte [i] on, with [k] bytes to go. *)
Fixpoint consolewrite (k : nat) (src i : Z) (s : uart) : wstop * list Z * uart :=
  match k with
  | O => (WReturn i, [], s)
  | S k' =>
      match user_byte (u64 (src + i)) with
      | None => (WReturn i, [], s)
      | Some c =>
          match uartputc (idle i) c s with
          | None => (WSleep i, [], s)
          | Some (s', out) =>
              let o := consolewrite k' src (i + 1) s' in
              (o.1.1, out ++ o.1.2, o.2)
          end
      end
  end.
End write.

(** The loop of [uartintr] over the characters received, and then [uartstart]. *)
Fixpoint uartintr_input (cs : list Z) (s : cons) : cons * list Z * bool :=
  match cs with
  | [] => (s, [], false)
  | c :: cs' =>
      let o := consoleintr c s in
      let o' := uartintr_input cs' o.1.1 in
      (o'.1.1, o.1.2 ++ o'.1.2, o.2 || o'.2)
  end.

Definition uartintr (cs : list Z) (idle : list bool) (s : cons) (t : uart) : cons * uart * list Z * bool :=
  let o := uartintr_input cs s in
  let u := uartstart idle t in
  (o.1.1, u.1, o.1.2 ++ u.2, o.2).

(** ** The line discipline

    The input that can be read, and the line being edited. *)

Record line := Line { l_ready : list Z; l_edit : list Z }.

Definition type_char (c : Z) (l : line) : line :=
  if c =? CTRL_P then l
  else if c =? CTRL_U then Line (l_ready l) []
  else if (c =? CTRL_H) || (c =? DEL) then Line (l_ready l) (take (length (l_edit l) - 1) (l_edit l))
  else if (c =? 0) || (INPUT_BUF_SIZE <=? Z.of_nat (length (l_ready l) + length (l_edit l))) then l
  else
    let c := if c =? return_ then newline else c in
    let edit := l_edit l ++ [c] in
    if (c =? newline) || (c =? CTRL_D) || (INPUT_BUF_SIZE =? Z.of_nat (length (l_ready l) + length edit))
    then Line (l_ready l ++ edit) []
    else Line (l_ready l) edit.

(** The buffer holds the bytes from [r] on: those to read, up to [w], and those
    being edited, up to [e].  A line being edited has no newline in it. *)
Record cons_rep (s : cons) (l : line) : Prop := ConsRep {
  cr_r : is_u32 (c_r s);
  cr_w : c_w s = u32 (c_r s + Z.of_nat (length (l_ready l)));
  cr_e : c_e s = u32 (c_r s + Z.of_nat (length (l_ready l) + length (l_edit l)));
  cr_size : Z.of_nat (length (l_ready l) + length (l_edit l)) <= INPUT_BUF_SIZE;
  cr_buf i x : (l_ready l ++ l_edit l) !! i = Some x -> c_buf s ((c_r s + Z.of_nat i) mod INPUT_BUF_SIZE) = x;
  cr_edit : newline ∉ l_edit l;
}.

Lemma u32_ring x : u32 x mod INPUT_BUF_SIZE = x mod INPUT_BUF_SIZE.
Proof. unfold u32, INPUT_BUF_SIZE. dlia. Qed.

Lemma u32_plus x k : u32 (u32 x + k) = u32 (x + k).
Proof. unfold u32. dlia. Qed.

Lemma u32_minus_eq x a b : 0 <= b -> b <= a -> a < 2^32 -> u32 (u32 (x + a) - u32 (x + b)) = a - b.
Proof. intros. unfold u32. dlia. Qed.

Lemma u32_same x a b : 0 <= a < 2^32 -> 0 <= b < 2^32 -> (u32 (x + a) =? u32 (x + b)) = (a =? b).
Proof. intros. unfold u32. destruct (Z.eqb_spec a b) as [->|]; [now rewrite Z.eqb_refl|]. apply Z.eqb_neq. dlia. Qed.

(** The line being edited is empty. *)
Lemma edit_empty s l : cons_rep s l -> (c_e s =? c_w s) = (match l_edit l with [] => true | _ => false end).
Proof.
  intros [Hr Hw He Hs _ _]. unfold INPUT_BUF_SIZE in Hs. rewrite He, Hw, u32_same by lia.
  destruct (l_edit l); cbn [length]; [apply Z.eqb_eq|apply Z.eqb_neq]; lia.
Qed.

(** Backspace takes the last byte off. *)
Lemma edit_back s q x l :
  cons_rep s (Line q (l ++ [x])) -> cons_rep (Cons (c_buf s) (c_r s) (c_w s) (u32 (c_e s - 1))) (Line q l) /\
  c_buf s (u32 (c_e s - 1) mod INPUT_BUF_SIZE) = x.
Proof.
  intros [Hr Hw He Hs Hb Hn]. cbn [l_ready l_edit] in *. rewrite length_app in *. cbn [length] in *. split.
  - split; cbn [c_buf c_r c_w c_e l_ready l_edit]; try done.
    + rewrite He. unfold u32. replace (Z.of_nat (length q + (length l + 1))) with (Z.of_nat (length q + length l) + 1) by lia. dlia.
    + lia.
    + intros i y Hi. apply Hb. rewrite app_assoc. now apply lookup_app_l_Some.
    + intros Hl. apply Hn. now apply elem_of_app; left.
  - rewrite u32_ring, He. replace ((u32 (c_r s + Z.of_nat (length q + (length l + 1))) - 1) mod INPUT_BUF_SIZE)
      with ((c_r s + Z.of_nat (length q + length l)) mod INPUT_BUF_SIZE) by (unfold u32, INPUT_BUF_SIZE; dlia).
    apply Hb. rewrite app_assoc. rewrite lookup_app_r by (rewrite length_app; lia). rewrite length_app, Nat.sub_diag. done.
Qed.

Lemma kill_line_ok fuel : forall s q l,
  cons_rep s (Line q l) -> (length l <= fuel)%nat -> cons_rep (kill_line fuel s).1 (Line q []).
Proof.
  induction fuel as [|fuel IH]; intros s q l Hrep Hf; cbn [kill_line]; [destruct l; [done|cbn in Hf; lia]|].
  rewrite (edit_empty _ _ Hrep). cbn [l_edit]. destruct l as [|x l _] using rev_ind; [done|].
  destruct (edit_back _ _ _ _ Hrep) as [Hrep' ->]. pose proof (cr_edit _ _ Hrep) as Hn. cbn [l_edit] in Hn.
  assert (x <> newline) as Hx by (intros ->; apply Hn, elem_of_app; right; apply list_elem_of_here).
  rewrite (proj2 (Z.eqb_neq x newline) Hx). rewrite length_app in Hf. cbn in Hf.
  replace (match l ++ [x] with [] => true | _ => false end) with false by (now destruct l). cbn [negb andb].
  apply (IH _ q l); [done|lia].
Qed.

(** A byte typed at the end of the line. *)
Lemma type_ok s l c :
  cons_rep s l -> Z.of_nat (length (l_ready l) + length (l_edit l)) < INPUT_BUF_SIZE -> 0 <= c < 256 ->
  let buf := <[c_e s mod INPUT_BUF_SIZE := u8 c]> (c_buf s) in
  let e := u32 (c_e s + 1) in
  cons_rep (Cons buf (c_r s) e e) (Line (l_ready l ++ l_edit l ++ [c]) []) /\
  (c <> newline -> cons_rep (Cons buf (c_r s) (c_w s) e) (Line (l_ready l) (l_edit l ++ [c]))).
Proof.
  intros [Hr Hw He Hs Hb Hn] Hlt Hc buf e. set (n := (length (l_ready l) + length (l_edit l))%nat) in *.
  assert (e = u32 (c_r s + Z.of_nat (n + 1))) as Ee.
  { unfold e. rewrite He, u32_plus. f_equal. lia. }
  assert (forall i x, (l_ready l ++ l_edit l ++ [c]) !! i = Some x -> buf ((c_r s + Z.of_nat i) mod INPUT_BUF_SIZE) = x) as Hbuf.
  { intros i x Hi. unfold buf. rewrite He, u32_ring. rewrite app_assoc in Hi. apply lookup_app_Some in Hi as [Hi|[Hge Hi]].
    - rewrite fn_lookup_insert_ne; [now apply Hb|]. apply lookup_lt_Some in Hi. rewrite length_app in Hi. unfold INPUT_BUF_SIZE in *. dlia.
    - rewrite length_app in Hge, Hi. fold n in Hge, Hi. destruct (i - n)%nat as [|k] eqn:Ek; [|done]. injection Hi as <-.
      replace i with n by lia. rewrite fn_lookup_insert. unfold u8. apply Z.mod_small. lia. }
  split; [|intros Hne]; split; cbn [c_buf c_r c_w c_e l_ready l_edit]; rewrite ?app_nil_r, ?length_app; cbn [length]; try done.
  1,2: rewrite Ee; do 2 f_equal; lia.
  1: lia.
  1: apply not_elem_of_nil.
  1: rewrite Ee; do 2 f_equal; lia.
  1: lia.
  rewrite elem_of_app, list_elem_of_singleton. intros [?|?]; [done|congruence].
Qed.

Lemma used_space s l : cons_rep s l -> u32 (c_e s - c_r s) = Z.of_nat (length (l_ready l) + length (l_edit l)).
Proof. intros [Hr _ He Hs _ _]. rewrite He. unfold is_u32, INPUT_BUF_SIZE, u32 in *. dlia. Qed.

Lemma consoleintr_ok s l c :
  cons_rep s l -> 0 <= c < 256 ->
  cons_rep (consoleintr c s).1.1 (type_char c l) /\
  ((consoleintr c s).2 = true <-> l_ready (type_char c l) <> l_ready l).
Proof.
  intros Hrep Hc. unfold consoleintr, type_char. destruct (c =? CTRL_P); [done|].
  destruct (c =? CTRL_U).
  { cbn [fst snd l_ready]. split; [|done]. apply (kill_line_ok _ _ _ (l_edit l)); [now destruct l|].
    pose proof (cr_size _ _ Hrep). unfold INPUT_BUF_SIZE in *. lia. }
  destruct ((c =? CTRL_H) || (c =? DEL)).
  { rewrite (edit_empty _ _ Hrep). destruct l as [q l]. cbn [l_ready l_edit]. destruct l as [|x l _] using rev_ind; [done|].
    replace (match l ++ [x] with [] => true | _ => false end) with false by (now destruct l). cbn [negb fst snd].
    rewrite length_app, Nat.add_sub, take_app_length. split; [now apply edit_back with x|done]. }
  rewrite (used_space _ _ Hrep), Z.ltb_antisym, <- negb_orb.
  destruct ((c =? 0) || (INPUT_BUF_SIZE <=? _)) eqn:Eg; cbn [negb]; [done|]. zbool.
  set (c' := if c =? return_ then newline else c).
  assert (0 <= c' < 256) as Hc' by (unfold c', newline; destruct (c =? return_); lia).
  destruct (type_ok s l c' Hrep) as [H1 H2]; [lia|done|].
  assert (u32 (u32 (c_e s + 1) - c_r s) = Z.of_nat (length (l_ready l) + length (l_edit l ++ [c']))) as Eu.
  { pose proof (used_space _ _ H1) as E. cbn [c_e c_r l_ready l_edit length] in E. rewrite E, !length_app. cbn. lia. }
  rewrite Eu, (Z.eqb_sym (Z.of_nat _) INPUT_BUF_SIZE).
  destruct ((c' =? newline) || _ || _) eqn:E; cbn [fst snd l_ready]; (split; [|]).
  - exact H1.
  - split; [|done]. intros _ Eq. apply (f_equal length) in Eq. rewrite !length_app in Eq. cbn in Eq. lia.
  - apply H2. zbool. done.
  - done.
Qed.

(** What a read of up to [n] bytes takes from the input that is ready: whether it
    waits for more, the bytes it returns, and what is left.  It stops after a
    newline; an end-of-file character stops it, and stays for the next read
    unless it is the first one. *)
Fixpoint read_list (n : nat) (first : bool) (q : list Z) : bool * list Z * list Z :=
  match n with
  | O => (false, [], q)
  | S n' =>
      match q with
      | [] => (true, [], [])
      | c :: q' =>
          if c =? CTRL_D then (false, [], if first then q' else q)
          else if c =? newline then (false, [c], q')
          else let o := read_list n' false q' in (o.1.1, c :: o.1.2, o.2)
      end
  end.

Lemma take_ready s c q l :
  cons_rep s (Line (c :: q) l) ->
  c_buf s (c_r s mod INPUT_BUF_SIZE) = c /\ cons_rep (Cons (c_buf s) (u32 (c_r s + 1)) (c_w s) (c_e s)) (Line q l).
Proof.
  intros [Hr Hw He Hs Hb Hn]. cbn [l_ready l_edit length] in *. split.
  - replace (c_r s) with (c_r s + Z.of_nat 0) by lia. now apply Hb.
  - split; cbn [c_buf c_r c_w c_e l_ready l_edit]; try done.
    + apply u32_range.
    + rewrite Hw, u32_plus. f_equal. lia.
    + rewrite He, u32_plus. f_equal. lia.
    + lia.
    + intros i x Hi. rewrite <- (Hb (S i) x Hi). f_equal. rewrite <- (u32_ring (c_r s + Z.of_nat (S i))).
      rewrite <- (u32_ring (u32 _ + _)), u32_plus. do 2 f_equal. lia.
Qed.

Lemma consoleread_ok n : forall fuel dst target s q l,
  (n < fuel)%nat -> cons_rep s (Line q l) -> Z.of_nat n <= target ->
  let o := read_list n (Z.of_nat n =? target) q in
  exists s', consoleread (fun _ => true) false fuel dst target (Z.of_nat n) s =
      (let left := Z.of_nat n - Z.of_nat (length o.1.2) in if o.1.1 then RSleep left else RReturn (target - left), o.1.2, s') /\
    cons_rep s' (Line o.2 l).
Proof.
  induction n as [|n IH]; intros [|fuel] dst target s q l Hf Hrep Ht; try lia.
  { exists s. split; [done|]. exact Hrep. }
  cbn zeta. cbn [consoleread read_list]. rewrite (proj2 (Z.ltb_lt 0 _)) by lia.
  assert ((c_r s =? c_w s) = (match q with [] => true | _ => false end)) as ->.
  { destruct Hrep as [Hr Hw _ Hs _ _]. cbn [l_ready l_edit] in *. rewrite Hw. unfold is_u32, INPUT_BUF_SIZE, u32 in *.
    destruct q; cbn [length] in *; [apply Z.eqb_eq|apply Z.eqb_neq]; dlia. }
  destruct q as [|c q]; [exists s; split; [cbn; f_equal; f_equal; f_equal; lia|exact Hrep]|].
  destruct (take_ready _ _ _ _ Hrep) as [-> Hrep']. set (s1 := Cons _ _ _ _) in *.
  destruct (c =? CTRL_D); [|destruct (c =? newline)]; cbn [negb fst snd length].
  - replace (Z.of_nat (S n) <? target) with (negb (Z.of_nat (S n) =? target)) by (destruct (Z.eqb_spec (Z.of_nat (S n)) target), (Z.ltb_spec (Z.of_nat (S n)) target); done || lia).
    exists (if Z.of_nat (S n) =? target then s1 else s). rewrite Z.sub_0_r. split; [now destruct (_ =? _)|]. now destruct (_ =? _).
  - exists s1. split; [do 3 f_equal; lia|done].
  - destruct (IH fuel (u64 (dst + 1)) target s1 q l ltac:(lia) Hrep' ltac:(lia)) as (s' & E & Hr').
    replace (Z.of_nat n =? target) with false in E, Hr' by (symmetry; apply Z.eqb_neq; lia).
    exists s'. replace (Z.of_nat (S n) - 1) with (Z.of_nat n) by lia. rewrite E. cbn [fst snd]. split; [|exact Hr'].
    cbn zeta. replace (Z.of_nat (S n) - Z.of_nat (S (length (read_list n false q).1.2))) with (Z.of_nat n - Z.of_nat (length (read_list n false q).1.2)) by lia.
    done.
Qed.

(** C38: The console is a line editor in front of a queue.  A typed character
    does to the circular buffer what [type_char] does to the line: it is
    appended, or edits the line that is not complete, and a newline, an
    end-of-file or a full buffer makes the line readable, exactly when the
    reader is woken.  A read takes bytes from the front of what is readable, as
    [read_list] does, and the line being edited stays as it is.  The buffer never
    holds more than it has room for, and all this holds when its 32-bit indices
    wrap around. *)
Theorem console_line_discipline s l c (n : nat) dst :
  cons_rep s l -> 0 <= c < 256 ->
  (cons_rep (consoleintr c s).1.1 (type_char c l) /\
   ((consoleintr c s).2 = true <-> l_ready (type_char c l) <> l_ready l)) /\
  let o := read_list n true (l_ready l) in
  exists s', consoleread (fun _ => true) false (S n) dst (Z.of_nat n) (Z.of_nat n) s =
      (let got := Z.of_nat (length o.1.2) in if o.1.1 then RSleep (Z.of_nat n - got) else RReturn got, o.1.2, s') /\
    cons_rep s' (Line o.2 (l_edit l)).
Proof.
  intros Hrep Hc. split; [now apply consoleintr_ok|]. destruct l as [q l].
  destruct (consoleread_ok n (S n) dst (Z.of_nat n) s q l ltac:(lia) Hrep (Z.le_refl _)) as (s' & E & Hr). rewrite Z.eqb_refl in E, Hr.
  exists s'. split; [|exact Hr]. rewrite E. cbn [l_ready]. cbn zeta. f_equal. f_equal.
  destruct (read_list n true q).1.1; [done|]. f_equal. lia.
Qed.

(** An empty buffer with indices about to wrap around, into which "a", newline is
    typed. *)
Definition fresh_cons : cons := Cons (fun _ => 0) (2^32 - 1) (2^32 - 1) (2^32 - 1).

Lemma fresh_cons_rep : cons_rep fresh_cons (Line [] []).
Proof. split; cbn; try done. apply not_elem_of_nil. Qed.

Lemma console_line_discipline_witness :
  exists s', consoleread (fun _ => true) false 11 0 10 10 (uartintr_input [97; 13] fresh_cons).1.1 = (RReturn 2, [97; 10], s') /\
    cons_rep s' (Line [] []).
Proof.
  destruct (console_line_discipline fresh_cons (Line [] []) 97 0 0 fresh_cons_rep ltac:(lia)) as [[H1 _] _].
  destruct (console_line_discipline (consoleintr 97 fresh_cons).1.1 (Line [] [97]) 13 0 0 H1 ltac:(lia)) as [[H2 _] _].
  destruct (console_line_discipline (consoleintr 13 (consoleintr 97 fresh_cons).1.1).1.1 (Line [97; 10] []) 0 10 0 H2 ltac:(lia)) as [_ (s' & E & Hr)].
  exists s'. split; [exact E|exact Hr].
Defined.

(** ** Output

    The transmit buffer is a queue: [l] waits in it. *)
Record uart_rep (s : uart) (l : list Z) : Prop := UartRep {
  ur_r : is_u64 (tx_r s);
  ur_w : tx_w s = u64 (tx_r s + Z.of_nat (length l));
  ur_size : Z.of_nat (length l) <= UART_TX_BUF_SIZE;
  ur_buf i x : l !! i = Some x -> tx_buf s ((tx_r s + Z.of_nat i) mod UART_TX_BUF_SIZE) = x;
}.

Lemma u64_tx x k : (u64 x + k) mod UART_TX_BUF_SIZE = (x + k) mod UART_TX_BUF_SIZE.
Proof. unfold u64, UART_TX_BUF_SIZE. dlia. Qed.

(** What is sent was at the front, in order. *)
Lemma uartstart_ok idle : forall s l,
  uart_rep s l -> exists l', uart_rep (uartstart idle s).1 l' /\ (uartstart idle s).2 ++ l' = l.
Proof.
  induction idle as [|[] idle IH]; intros s l Hrep; cbn [uartstart]; destruct (tx_w s =? tx_r s) eqn:E; try (now exists l).
  destruct Hrep as [Hr Hw Hs Hb]. destruct l as [|x l].
  { rewrite Z.add_0_r in Hw. unfold is_u64, u64 in *. apply Z.eqb_neq in E. rewrite Z.mod_small in Hw by lia. congruence. }
  destruct (IH (Uart (tx_buf s) (tx_w s) (u64 (tx_r s + 1))) l) as (l' & Hl & E').
  - split; cbn [tx_buf tx_w tx_r].
    + unfold is_u64, u64. apply Z.mod_pos_bound. lia.
    + rewrite Hw. cbn [length]. unfold u64. dlia.
    + cbn [length] in Hs. lia.
    + intros i y Hi. rewrite u64_tx, <- (Hb (S i) y Hi). do 2 f_equal. lia.
  - exists l'. split; [exact Hl|]. cbn [fst snd app]. rewrite E'. f_equal. rewrite <- (Hb 0%nat x eq_refl). do 2 f_equal. lia.
Qed.

Lemma uartputc_ok idle c s l :
  uart_rep s l -> 0 <= c < 256 ->
  match uartputc idle c s with
  | None => Z.of_nat (length l) = UART_TX_BUF_SIZE
  | Some (s', out) => exists l', uart_rep s' l' /\ out ++ l' = l ++ [c]
  end.
Proof.
  intros [Hr Hw Hs Hb] Hc. unfold uartputc. destruct (tx_w s =? u64 (tx_r s + UART_TX_BUF_SIZE)) eqn:E.
  - apply Z.eqb_eq in E. rewrite Hw in E. unfold u64, UART_TX_BUF_SIZE in *. dlia.
  - apply Z.eqb_neq in E. assert (Z.of_nat (length l) <> UART_TX_BUF_SIZE) as Hne by (intros El; rewrite El in Hw; congruence).
    destruct (uartstart idle _) as [s' out] eqn:Es. match type of Es with uartstart _ ?t = _ => assert (uart_rep t (l ++ [c])) as Hrep end.
    + split; cbn [tx_buf tx_w tx_r]; rewrite ?length_app; cbn [length]; [done| |lia|].
      * rewrite Hw. unfold u64. dlia.
      * intros i x Hi. rewrite Hw. replace (u64 (tx_r s + Z.of_nat (length l)) mod UART_TX_BUF_SIZE)
          with ((tx_r s + Z.of_nat (length l)) mod UART_TX_BUF_SIZE) by (unfold u64, UART_TX_BUF_SIZE; dlia).
        apply lookup_app_Some in Hi as [Hi|[Hge Hi]].
        -- pose proof (lookup_lt_Some _ _ _ Hi). rewrite fn_lookup_insert_ne by (unfold UART_TX_BUF_SIZE in *; dlia). now apply Hb.
        -- destruct (i - length l)%nat eqn:Ei; [|done]. injection Hi as <-. replace i with (length l) by lia.
           rewrite fn_lookup_insert. unfold u8. apply Z.mod_small. lia.
    + destruct (uartstart_ok idle _ _ Hrep) as (l' & Hl & El). rewrite Es in Hl, El. now exists l'.
Qed.

(** [consolewrite] ends with nothing more taken. *)
Ltac stop_here := rewrite app_nil_r; cbn; split; [done|split; [done|split; [done|try split; lia]]].

(** A write appends the bytes it has taken to the queue, in order: none is lost,
    repeated or overtaken. *)
Lemma consolewrite_fifo user_byte idle src k : forall i s l,
  uart_rep s l -> (forall a c, user_byte a = Some c -> 0 <= c < 256) ->
  let o := consolewrite user_byte idle k src i s in
  exists l' cs, uart_rep o.2 l' /\ o.1.2 ++ l' = l ++ cs /\
    (forall j c, cs !! j = Some c -> user_byte (u64 (src + i + Z.of_nat j)) = Some c) /\
    match o.1.1 with
    | WReturn r => r = i + Z.of_nat (length cs)
    | WSleep r => r = i + Z.of_nat (length cs) /\ Z.of_nat (length l') = UART_TX_BUF_SIZE
    end.
Proof.
  induction k as [|k IH]; intros i s l Hrep Hby; cbn [consolewrite].
  { exists l, []. stop_here. }
  destruct (user_byte (u64 (src + i))) as [c|] eqn:Eb; [|exists l, []; stop_here].
  pose proof (uartputc_ok (idle i) c s l Hrep (Hby _ _ Eb)) as Hp. destruct (uartputc (idle i) c s) as [[s' out]|]; [|exists l, []; stop_here].
  destruct Hp as (l1 & Hl1 & E1). destruct (IH (i + 1) s' l1 Hl1 Hby) as (l' & cs & Hl' & E' & Hcs & Hend).
  exists l', (c :: cs). cbn [fst snd]. split; [done|]. split; [|split].
  - rewrite <- app_assoc, E', app_assoc, E1, <- app_assoc. done.
  - intros [|j] x Hj; cbn in Hj; [injection Hj as <-; now rewrite Z.add_0_r|]. rewrite <- (Hcs j x Hj). do 2 f_equal. lia.
  - cbn [length]. destruct (consolewrite user_byte idle k src (i + 1) s').1.1; lia.
Qed.
