(* ===== verification/Virtio.v ===== *)
(** * kernel/virtio_disk.c

    The driver's descriptors and rings, the device as the virtio specification
    describes it, and requests that overlap.  A pointer in a descriptor is the
    thing it points to; a null buffer is -1.  [virtio_disk_rw] is split where it
    sleeps: a thread that sleeps goes on only after a [wakeup] of its channel.  The
    device looks at the avail ring only after a notification, and signals no
    further interrupt until the last one is acknowledged. *)

From stdpp Require Import base gmap list numbers functions strings relations.
From S2P Require Import Prelude Bio.

Open Scope Z_scope.

Definition NUM : Z := 8.
Definition VRING_DESC_F_NEXT : Z := 1.
Definition VRING_DESC_F_WRITE : Z := 2.
Definition VIRTIO_BLK_T_IN : Z := 0.
Definition VIRTIO_BLK_T_OUT : Z := 1.

(** A request header [&disk.ops[i]], the data of a buffer, or a status byte
    [&disk.info[i].status]. *)
Inductive vaddr := ANull | AReq (i : Z) | AData (b : Z) | AStatus (i : Z).

Record virtq_desc := Desc { d_addr : vaddr; d_len : Z; d_flags : Z; d_next : Z }.

Record virtio_blk_req := BlkReq { rq_type : Z; rq_reserved : Z; rq_sector : Z }.

(** What the driver sleeps on: [&disk.free[0]], or a buffer. *)
Inductive vchan := FreeChan | BufChan (b : Z).

#[export] Instance vchan_eq_dec : EqDecision vchan.
Proof. solve_decision. Defined.

(** The device's registers as the driver uses them after the initialization: whether
    [QUEUE_NOTIFY] has been written since the device last found nothing to do, and
    [INTERRUPT_STATUS]; and the channels passed to [wakeup]. *)
Record vregs := VRegs { g_notify : bool; g_status : Z; g_woken : list vchan }.

(** [v_bdisk] is the field [disk] of the buffers. *)
Record disk := Disk {
  v_desc : Z -> virtq_desc;
  v_avail_idx : Z;
  v_avail_ring : Z -> Z;
  v_used_ring_idx : Z;
  v_used_ring : Z -> Z;
  v_free : Z -> bool;
  v_used_idx : Z;
  v_info_b : Z -> Z;
  v_info_status : Z -> Z;
  v_ops : Z -> virtio_blk_req;
  v_bdisk : Z -> Z;
  v_regs : vregs;
}.

Definition put_free (i : Z) (x : bool) (s : disk) : disk :=
  Disk (v_desc s) (v_avail_idx s) (v_avail_ring s) (v_used_ring_idx s) (v_used_ring s) (<[i := x]> (v_free s)) (v_used_idx s)
    (v_info_b s) (v_info_status s) (v_ops s) (v_bdisk s) (v_regs s).
Definition put_desc (i : Z) (x : virtq_desc) (s : disk) : disk :=
  Disk (<[i := x]> (v_desc s)) (v_avail_idx s) (v_avail_ring s) (v_used_ring_idx s) (v_used_ring s) (v_free s) (v_used_idx s)
    (v_info_b s) (v_info_status s) (v_ops s) (v_bdisk s) (v_regs s).
Definition put_op (i : Z) (x : virtio_blk_req) (s : disk) : disk :=
  Disk (v_desc s) (v_avail_idx s) (v_avail_ring s) (v_used_ring_idx s) (v_used_ring s) (v_free s) (v_used_idx s)
    (v_info_b s) (v_info_status s) (<[i := x]> (v_ops s)) (v_bdisk s) (v_regs s).
Definition put_info_b (i b : Z) (s : disk) : disk :=
  Disk (v_desc s) (v_avail_idx s) (v_avail_ring s) (v_used_ring_idx s) (v_used_ring s) (v_free s) (v_used_idx s)
    (<[i := b]> (v_info_b s)) (v_info_status s) (v_ops s) (v_bdisk s) (v_regs s).
Definition put_status (i x : Z) (s : disk) : disk :=
  Disk (v_desc s) (v_avail_idx s) (v_avail_ring s) (v_used_ring_idx s) (v_used_ring s) (v_free s) (v_used_idx s)
    (v_info_b s) (<[i := x]> (v_info_status s)) (v_ops s) (v_bdisk s) (v_regs s).
Definition put_bdisk (b x : Z) (s : disk) : disk :=
  Disk (v_desc s) (v_avail_idx s) (v_avail_ring s) (v_used_ring_idx s) (v_used_ring s) (v_free s) (v_used_idx s)
    (v_info_b s) (v_info_status s) (v_ops s) (<[b := x]> (v_bdisk s)) (v_regs s).
Definition put_avail (i : Z) (s : disk) : disk :=
  Disk (v_desc s) (u16 (v_avail_idx s + 1)) (<[v_avail_idx s mod NUM := i]> (v_avail_ring s)) (v_used_ring_idx s) (v_used_ring s)
    (v_free s) (v_used_idx s) (v_info_b s) (v_info_status s) (v_ops s) (v_bdisk s) (v_regs s).
Definition put_used (i : Z) (s : disk) : disk :=
  Disk (v_desc s) (v_avail_idx s) (v_avail_ring s) (u16 (v_used_ring_idx s + 1)) (<[v_used_ring_idx s mod NUM := i]> (v_used_ring s))
    (v_free s) (v_used_idx s) (v_info_b s) (v_info_status s) (v_ops s) (v_bdisk s) (v_regs s).
Definition next_used (s : disk) : disk :=
  Disk (v_desc s) (v_avail_idx s) (v_avail_ring s) (v_used_ring_idx s) (v_used_ring s)
    (v_free s) (u16 (v_used_idx s + 1)) (v_info_b s) (v_info_status s) (v_ops s) (v_bdisk s) (v_regs s).

Definition put_regs (g : vregs) (s : disk) : disk :=
  Disk (v_desc s) (v_avail_idx s) (v_avail_ring s) (v_used_ring_idx s) (v_used_ring s)
    (v_free s) (v_used_idx s) (v_info_b s) (v_info_status s) (v_ops s) (v_bdisk s) g.

(** [*R(VIRTIO_MMIO_QUEUE_NOTIFY) = 0], and the device that has seen it. *)
Definition put_notify (x : bool) (s : disk) : disk := put_regs (VRegs x (g_status (v_regs s)) (g_woken (v_regs s))) s.

(** The device sets a bit of [INTERRUPT_STATUS]; a write to [INTERRUPT_ACK]
    clears the bits written. *)
Definition raise (bit : Z) (s : disk) : disk := put_regs (VRegs (g_notify (v_regs s)) (Z.lor (g_status (v_regs s)) bit) (g_woken (v_regs s))) s.
Definition put_ack (bits : Z) (s : disk) : disk :=
  put_regs (VRegs (g_notify (v_regs s)) (Z.land (g_status (v_regs s)) (Z.lnot bits)) (g_woken (v_regs s))) s.

Definition put_woken (c : vchan) (s : disk) : disk :=
  put_regs (VRegs (g_notify (v_regs s)) (g_status (v_regs s)) (g_woken (v_regs s) ++ [c])) s.

(** ** The driver *)

Definition wakeup (c : vchan) : M disk unit := modify (put_woken c).

(** The first free descriptor from [i] on; -1 if there is none. *)
Fixpoint find_free (k : nat) (i : Z) (free : Z -> bool) : Z :=
  match k with
  | O => -1
  | S k' => if free i then i else find_free k' (i + 1) free
  end.

Definition alloc_desc : M disk Z :=
  s ← gets (fun s => s);
  let i := find_free (Z.to_nat NUM) 0 (v_free s) in
  if i <? 0 then mret (-1) else
  modify (put_free i false);;
  mret i.

Definition free_desc (i : Z) : M disk unit :=
  if NUM <=? i then panic "free_desc 1" else
  s ← gets (fun s => s);
  if v_free s i then panic "free_desc 2" else
  modify (put_desc i (Desc ANull 0 0 0));;
  modify (put_free i true);;
  wakeup FreeChan.

(** A chain has at most [NUM] descriptors. *)
Fixpoint free_chain (fuel : nat) (i : Z) : M disk unit :=
  match fuel with
  | O => diverge
  | S fuel' =>
      d ← gets (fun s => v_desc s i);
      free_desc i;;
      if truthy (Z.land (d_flags d) VRING_DESC_F_NEXT) then free_chain fuel' (d_next d) else mret tt
  end.

(** The three descriptors, or [None] with none of them kept. *)
Definition alloc3_desc : M disk (option (Z * Z * Z)) :=
  i0 ← alloc_desc;
  if i0 <? 0 then mret None else
  i1 ← alloc_desc;
  if i1 <? 0 then free_desc i0;; mret None else
  i2 ← alloc_desc;
  if i2 <? 0 then free_desc i0;; free_desc i1;; mret None else
  mret (Some (i0, i1, i2)).

(** [virtio_disk_rw] up to the wait for the request to finish; [None] where it
    sleeps for descriptors. *)
Definition rw_start (b blockno : Z) (write : bool) : M disk (option (Z * Z * Z)) :=
  let sector := u32 (blockno * (BSIZE / 512)) in
  r ← alloc3_desc;
  match r with
  | None => mret None
  | Some (i0, i1, i2) =>
      modify (put_op i0 (BlkReq (if write then VIRTIO_BLK_T_OUT else VIRTIO_BLK_T_IN) 0 sector));;
      modify (put_desc i0 (Desc (AReq i0) 16 VRING_DESC_F_NEXT i1));;
      modify (put_desc i1 (Desc (AData b) BSIZE (Z.lor (if write then 0 else VRING_DESC_F_WRITE) VRING_DESC_F_NEXT) i2));;
      modify (put_status i0 0xff);;
      modify (put_desc i2 (Desc (AStatus i0) 1 VRING_DESC_F_WRITE 0));;
      modify (put_bdisk b 1);;
      modify (put_info_b i0 b);;
      modify (put_avail i0);;
      modify (put_notify true);;
      mret (Some (i0, i1, i2))
  end.

(** The rest of [virtio_disk_rw], when [b->disk] is 0. *)
Definition rw_end (i0 : Z) : M disk unit :=
  modify (put_info_b i0 (-1));;
  free_chain (Z.to_nat NUM) i0.

(** The loop of [virtio_disk_intr]: there are at most [NUM] new entries. *)
Fixpoint intr_loop (fuel : nat) : M disk unit :=
  match fuel with
  | O => diverge
  | S fuel' =>
      s ← gets (fun s => s);
      if v_used_idx s =? v_used_ring_idx s then mret tt else
      let id := v_used_ring s (v_used_idx s mod NUM) in
      if negb (v_info_status s id =? 0) then panic "virtio_disk_intr status" else
      modify (put_bdisk (v_info_b s id) 0);;
      wakeup (BufChan (v_info_b s id));;
      modify next_used;;
      intr_loop fuel'
  end.

(** [*R(VIRTIO_MMIO_INTERRUPT_ACK) = *R(VIRTIO_MMIO_INTERRUPT_STATUS) & 0x3]. *)
Definition intr_ack : M disk unit :=
  status ← gets (fun s => g_status (v_regs s));
  modify (put_ack (Z.land status 3)).

(** The used ring, after the acknowledgement. *)
Definition intr_used : M disk unit := intr_loop (Z.to_nat (NUM + 1)).

Definition virtio_disk_intr : M disk unit :=
  intr_ack;;
  intr_used.

(** The queues zeroed and the descriptors free, as [virtio_disk_init] leaves
    them. *)
Definition disk_init : disk :=
  Disk (fun _ => Desc ANull 0 0 0) 0 (fun _ => 0) 0 (fun _ => 0) (fun i => (0 <=? i) && (i <? NUM)) 0
    (fun _ => -1) (fun _ => 0) (fun _ => BlkReq 0 0 0) (fun _ => 0) (VRegs false 0 []).

(** ** The device and the requests in flight *)

(** How far a request has come: in the avail ring, taken by the device, in the
    used ring, or seen by the interrupt handler. *)
Inductive phase := Avail | Taken | Done | Seen.

#[export] Instance phase_eq_dec : EqDecision phase.
Proof. solve_decision. Defined.

Section device.
(** The contents of a block. *)
Context {D : Type}.

(** A request by its first descriptor: the buffer, the block, the direction, the
    other descriptors, and what is to be transferred: for a write the buffer's
    contents and for a read the block's, when the request was made. *)
Record flight := Flight {
  f_b : Z; f_no : Z; f_write : bool; f_i1 : Z; f_i2 : Z; f_data : D; f_phase : phase;
}.

Definition set_phase (p : phase) (f : flight) : flight :=
  Flight (f_b f) (f_no f) (f_write f) (f_i1 f) (f_i2 f) (f_data f) p.

(** A thread in [virtio_disk_rw] that has not got its descriptors yet, with
    whether it sleeps on [&disk.free[0]]. *)
Record request := Req { q_b : Z; q_no : Z; q_write : bool; q_asleep : bool }.

(** The threads: those of the requests in flight that sleep on their buffer, by
    the request's first descriptor; those that wait for descriptors; whether the
    disk's interrupt is pending, and whether its handler runs, between the
    acknowledgement and the end. *)
Record threads := Threads {
  t_asleep : Z -> bool;
  t_queue : gmap Z request;
  t_irq : bool;
  t_handler : bool;
}.

(** The driver, the blocks of the disk, the data of the buffers, and how far the
    device has looked in the avail ring; with the requests in flight and the
    threads. *)
Record sys := Sys {
  s_drv : disk;
  s_block : Z -> D;
  s_data : Z -> D;
  s_seen : Z;
  s_fl : gmap Z flight;
  s_thr : threads;
}.

(** The device carries out the request of the chain from [h]; [None] if the
    chain is not a request it understands.  The device is not part of the kernel:
    what the driver relies on is what the virtio specification says of a block
    device (Sections 2.6 and 5.2): a chain of header, data and status is carried
    out on the sectors the header names, the status 0 is stored, the head of the
    chain is put in the used ring, and bit 0 of [INTERRUPT_STATUS] is set. *)
Variable serve : Z -> sys -> option (disk * (Z -> D) * (Z -> D)).

Record device : Prop := Device {
  dev_out h s i b j i1 i2 no :
    v_desc (s_drv s) h = Desc (AReq i) 16 VRING_DESC_F_NEXT i1 ->
    v_desc (s_drv s) i1 = Desc (AData b) BSIZE VRING_DESC_F_NEXT i2 ->
    v_desc (s_drv s) i2 = Desc (AStatus j) 1 VRING_DESC_F_WRITE 0 ->
    v_ops (s_drv s) i = BlkReq VIRTIO_BLK_T_OUT 0 (no * 2) ->
    serve h s = Some (raise 1 (put_used h (put_status j 0 (s_drv s))), <[no := s_data s b]> (s_block s), s_data s);
  dev_in h s i b j i1 i2 no :
    v_desc (s_drv s) h = Desc (AReq i) 16 VRING_DESC_F_NEXT i1 ->
    v_desc (s_drv s) i1 = Desc (AData b) BSIZE (Z.lor VRING_DESC_F_WRITE VRING_DESC_F_NEXT) i2 ->
    v_desc (s_drv s) i2 = Desc (AStatus j) 1 VRING_DESC_F_WRITE 0 ->
    v_ops (s_drv s) i = BlkReq VIRTIO_BLK_T_IN 0 (no * 2) ->
    serve h s = Some (raise 1 (put_used h (put_status j 0 (s_drv s))), s_block s, <[b := s_block s no]> (s_data s));
}.

(** A request may be started if no other is in flight for the same buffer or
    block: the buffer cache has one locked buffer for a block. *)
Definition idle (b no : Z) (s : sys) : Prop := forall i f, s_fl s !! i = Some f -> f_b f <> b /\ f_no f <> no.

Definition see_done (f : flight) : flight := if decide (f_phase f = Done) then set_phase Seen f else f.

(** [wakeup] of the channels [w]. *)
Definition wake_queue (w : list vchan) (q : request) : request :=
  Req (q_b q) (q_no q) (q_write q) (if decide (FreeChan ∈ w) then false else q_asleep q).

Definition wake (w : list vchan) (fl : gmap Z flight) (t : threads) : threads :=
  Threads (fun i => match fl !! i with Some f => if decide (BufChan (f_b f) ∈ w) then false else t_asleep t i | None => t_asleep t i end)
    (wake_queue w <$> t_queue t) (t_irq t) (t_handler t).

(** The state after a stretch of the driver under [vdisk_lock] that left [d]. *)
Definition stretch (d : disk) (bl da : Z -> D) (seen : Z) (fl : gmap Z flight) (t : threads) : sys :=
  let g := v_regs d in Sys (put_regs (VRegs (g_notify g) (g_status g) []) d) bl da seen fl (wake (g_woken g) fl t).

Definition sleep_buf (i : Z) (x : bool) (t : threads) : threads := Threads (<[i := x]> (t_asleep t)) (t_queue t) (t_irq t) (t_handler t).
Definition set_queue (m : gmap Z request) (t : threads) : threads := Threads (t_asleep t) m (t_irq t) (t_handler t).
Definition set_irq (irq handler : bool) (t : threads) : threads := Threads (t_asleep t) (t_queue t) irq handler.
Definition with_thr (t : threads) (s : sys) : sys := Sys (s_drv s) (s_block s) (s_data s) (s_seen s) (s_fl s) t.

(** A thread calls [virtio_disk_rw] ([v_call]); gets its descriptors, makes its
    request and sleeps on its buffer ([v_start]); or finds too few descriptors and
    sleeps ([v_full]).  The device takes a request from the avail ring ([v_take]),
    or finds nothing more there and waits for a notification ([v_quiet]); it
    carries out a request and signals an interrupt, unless the last one has not
    been acknowledged ([v_serve]).  The interrupt handler acknowledges ([v_ack]) and
    then goes through the used ring ([v_intr]).  The thread of a request, when it
    is not asleep, sleeps again while [b->disk] is 1 ([v_wait]), and finishes
    otherwise ([v_finish]).  Buffers that are not in flight change ([v_modify]).
    The driver's steps, under [vdisk_lock], exclude each other and the handler. *)
Inductive vstep : sys -> sys -> Prop :=
  | v_call s k b no w :
      t_queue (s_thr s) !! k = None -> 0 <= no < 2^31 -> idle b no s ->
      (forall k' q, t_queue (s_thr s) !! k' = Some q -> q_b q <> b /\ q_no q <> no) ->
      vstep s (with_thr (set_queue (<[k := Req b no w false]> (t_queue (s_thr s))) (s_thr s)) s)
  | v_start s k q i0 i1 i2 d :
      t_queue (s_thr s) !! k = Some q -> q_asleep q = false -> t_handler (s_thr s) = false ->
      rw_start (q_b q) (q_no q) (q_write q) (s_drv s) = Ok (Some (i0, i1, i2)) d ->
      vstep s (stretch d (s_block s) (s_data s) (s_seen s)
        (<[i0 := Flight (q_b q) (q_no q) (q_write q) i1 i2 (if q_write q then s_data s (q_b q) else s_block s (q_no q)) Avail]> (s_fl s))
        (sleep_buf i0 true (set_queue (delete k (t_queue (s_thr s))) (s_thr s))))
  | v_full s k q d :
      t_queue (s_thr s) !! k = Some q -> q_asleep q = false -> t_handler (s_thr s) = false ->
      rw_start (q_b q) (q_no q) (q_write q) (s_drv s) = Ok None d ->
      let s' := stretch d (s_block s) (s_data s) (s_seen s) (s_fl s) (s_thr s) in
      vstep s (with_thr (set_queue (<[k := Req (q_b q) (q_no q) (q_write q) true]> (t_queue (s_thr s'))) (s_thr s')) s')
  | v_take s h f :
      g_notify (v_regs (s_drv s)) = true ->
      s_seen s <> v_avail_idx (s_drv s) -> h = v_avail_ring (s_drv s) (s_seen s mod NUM) -> s_fl s !! h = Some f ->
      vstep s (Sys (s_drv s) (s_block s) (s_data s) (u16 (s_seen s + 1)) (<[h := set_phase Taken f]> (s_fl s)) (s_thr s))
  | v_quiet s :
      s_seen s = v_avail_idx (s_drv s) ->
      vstep s (Sys (put_notify false (s_drv s)) (s_block s) (s_data s) (s_seen s) (s_fl s) (s_thr s))
  | v_serve s h f d bl da :
      s_fl s !! h = Some f -> f_phase f = Taken -> serve h s = Some (d, bl, da) ->
      vstep s (Sys d bl da (s_seen s) (<[h := set_phase Done f]> (s_fl s))
        (set_irq (t_irq (s_thr s) || (g_status (v_regs (s_drv s)) =? 0)) (t_handler (s_thr s)) (s_thr s)))
  | v_ack s d :
      t_irq (s_thr s) = true -> t_handler (s_thr s) = false -> intr_ack (s_drv s) = Ok tt d ->
      vstep s (Sys d (s_block s) (s_data s) (s_seen s) (s_fl s) (set_irq false true (s_thr s)))
  | v_intr s d :
      t_handler (s_thr s) = true -> intr_used (s_drv s) = Ok tt d ->
      vstep s (stretch d (s_block s) (s_data s) (s_seen s) (see_done <$> s_fl s) (set_irq (t_irq (s_thr s)) false (s_thr s)))
  | v_wait s i f :
      s_fl s !! i = Some f -> t_asleep (s_thr s) i = false -> t_handler (s_thr s) = false -> v_bdisk (s_drv s) (f_b f) = 1 ->
      vstep s (with_thr (sleep_buf i true (s_thr s)) s)
  | v_finish s i f d :
      s_fl s !! i = Some f -> t_asleep (s_thr s) i = false -> t_handler (s_thr s) = false ->
      v_bdisk (s_drv s) (f_b f) = 0 -> rw_end i (s_drv s) = Ok tt d ->
      vstep s (stretch d (s_block s) (s_data s) (s_seen s) (delete i (s_fl s)) (s_thr s))
  | v_modify s b x :
      (forall i f, s_fl s !! i = Some f -> f_b f <> b) ->
      vstep s (Sys (s_drv s) (s_block s) (<[b := x]> (s_data s)) (s_seen s) (s_fl s) (s_thr s)).

(** [kill] lets a thread go on that sleeps. *)
Inductive early : sys -> sys -> Prop :=
  | e_buf s i : early s (with_thr (sleep_buf i false (s_thr s)) s)
  | e_free s k q :
      t_queue (s_thr s) !! k = Some q ->
      early s (with_thr (set_queue (<[k := Req (q_b q) (q_no q) (q_write q) false]> (t_queue (s_thr s))) (s_thr s)) s).

Definition anystep (s s' : sys) : Prop := vstep s s' \/ early s s'.

(** ** The invariant *)

Definition descs (i : Z) (f : flight) : list Z := [i; f_i1 f; f_i2 f].

(** The descriptors of a request, as [rw_start] formats them. *)
Record formatted (d : disk) (i : Z) (f : flight) : Prop := Formatted {
  fm_op : v_ops d i = BlkReq (if f_write f then VIRTIO_BLK_T_OUT else VIRTIO_BLK_T_IN) 0 (f_no f * 2);
  fm_d0 : v_desc d i = Desc (AReq i) 16 VRING_DESC_F_NEXT (f_i1 f);
  fm_d1 : v_desc d (f_i1 f) =
    Desc (AData (f_b f)) BSIZE (Z.lor (if f_write f then 0 else VRING_DESC_F_WRITE) VRING_DESC_F_NEXT) (f_i2 f);
  fm_d2 : v_desc d (f_i2 f) = Desc (AStatus i) 1 VRING_DESC_F_WRITE 0;
  fm_info : v_info_b d i = f_b f;
  fm_status : f_phase f = Done -> v_info_status d i = 0;
  fm_bdisk : v_bdisk d (f_b f) = if decide (f_phase f = Seen) then 0 else 1;
}.

(** What has been transferred. *)
Definition transferred (s : sys) (f : flight) : Prop :=
  match f_phase f with
  | Avail | Taken => if f_write f then s_data s (f_b f) = f_data f else s_block s (f_no f) = f_data f
  | Done | Seen => s_data s (f_b f) = f_data f /\ s_block s (f_no f) = f_data f
  end.

(** A ring holds [l] from index [from] to index [to]. *)
Record window (ring : Z -> Z) (from to : Z) (l : list Z) : Prop := Window {
  wn_from : 0 <= from < 2^16;
  wn_to : to = u16 (from + Z.of_nat (length l));
  wn_ring k x : l !! k = Some x -> ring ((from + Z.of_nat k) mod NUM) = x;
}.

(** [l] lists the requests in phase [p]. *)
Definition lists (m : gmap Z flight) (p : phase) (l : list Z) : Prop :=
  NoDup l /\ forall i, i ∈ l <-> exists f, m !! i = Some f /\ f_phase f = p.

(** The requests in flight have their own descriptors, the others are free, and
    no two requests are for one buffer or one block. *)
Record shape (m : gmap Z flight) (free : Z -> bool) : Prop := Shape {
  vi_range i f k : m !! i = Some f -> k ∈ descs i f -> 0 <= k < NUM;
  vi_nodup i f : m !! i = Some f -> NoDup (descs i f);
  vi_apart i f j g k : m !! i = Some f -> m !! j = Some g -> k ∈ descs i f -> k ∈ descs j g -> i = j;
  vi_free k : free k = true <-> 0 <= k < NUM /\ forall i f, m !! i = Some f -> k ∉ descs i f;
  vi_b i f j g : m !! i = Some f -> m !! j = Some g -> f_b f = f_b g -> i = j;
  vi_no i f j g : m !! i = Some f -> m !! j = Some g -> f_no f = f_no g -> i = j;
}.

Record vinv (s : sys) : Prop := VInv {
  vi_shape : shape (s_fl s) (v_free (s_drv s));
  vi_form i f : s_fl s !! i = Some f -> formatted (s_drv s) i f;
  vi_data i f : s_fl s !! i = Some f -> transferred s f;
  vi_avail : exists l, window (v_avail_ring (s_drv s)) (s_seen s) (v_avail_idx (s_drv s)) l /\ lists (s_fl s) Avail l;
  vi_used : exists l, window (v_used_ring (s_drv s)) (v_used_idx (s_drv s)) (v_used_ring_idx (s_drv s)) l /\ lists (s_fl s) Done l;
}.

(** ** Allocating and freeing descriptors *)

Lemma find_free_spec k : forall i free,
  0 <= i ->
  (find_free k i free = -1 /\ forall j, i <= j < i + Z.of_nat k -> free j = false) \/
  (i <= find_free k i free < i + Z.of_nat k /\ free (find_free k i free) = true).
Proof.
  induction k as [|k IH]; intros i free Hi; cbn [find_free]; [left; split; [done|lia]|].
  destruct (free i) eqn:E; [right; split; [lia|done]|].
  destruct (IH (i + 1) free ltac:(lia)) as [[-> H]|[H1 H2]]; [left|right].
  - split; [done|]. intros j Hj. destruct (Z.eq_dec j i) as [->|]; [done|]. apply H. lia.
  - split; [lia|done].
Qed.

Lemma alloc_desc_ok s :
  (alloc_desc s = Ok (-1) s /\ forall i, 0 <= i < NUM -> v_free s i = false) \/
  exists i, alloc_desc s = Ok i (put_free i false s) /\ 0 <= i < NUM /\ v_free s i = true.
Proof.
  unfold alloc_desc. erewrite bind_ok by reflexivity. cbn zeta.
  destruct (find_free_spec (Z.to_nat NUM) 0 (v_free s) ltac:(lia)) as [[-> Hn]|[H1 H2]]; [left; split; [done|exact Hn]|right].
  change (0 + Z.of_nat (Z.to_nat NUM)) with NUM in H1. exists (find_free (Z.to_nat NUM) 0 (v_free s)).
  rewrite (proj2 (Z.ltb_ge _ 0)) by lia. done.
Qed.

Definition cleared (i : Z) (s : disk) : disk := put_woken FreeChan (put_free i true (put_desc i (Desc ANull 0 0 0) s)).

Lemma free_desc_ok i s : i < NUM -> v_free s i = false -> free_desc i s = Ok tt (cleared i s).
Proof. intros Hi Hf. unfold free_desc. rewrite (proj2 (Z.leb_gt NUM i)) by lia. erewrite bind_ok by reflexivity. now rewrite Hf. Qed.

(** Nothing has changed but the contents of free descriptors, and the channels
    woken. *)
Record same_used (s d : disk) : Prop := SameUsed {
  su_free k : v_free d k = v_free s k;
  su_desc k : v_free s k = false -> v_desc d k = v_desc s k;
  su_avail_idx : v_avail_idx d = v_avail_idx s;
  su_avail_ring : v_avail_ring d = v_avail_ring s;
  su_used_ring_idx : v_used_ring_idx d = v_used_ring_idx s;
  su_used_ring : v_used_ring d = v_used_ring s;
  su_used_idx : v_used_idx d = v_used_idx s;
  su_info_b : v_info_b d = v_info_b s;
  su_info_status : v_info_status d = v_info_status s;
  su_ops : v_ops d = v_ops s;
  su_bdisk : v_bdisk d = v_bdisk s;
  su_notify : g_notify (v_regs d) = g_notify (v_regs s);
  su_status : g_status (v_regs d) = g_status (v_regs s);
}.

Lemma same_used_refl s : same_used s s.
Proof. now split. Qed.

Definition take3 (i0 i1 i2 : Z) (s : disk) : disk := put_free i2 false (put_free i1 false (put_free i0 false s)).

(** Fewer than three descriptors are free. *)
Definition few (free : Z -> bool) : Prop :=
  forall l, NoDup l -> length l = 3%nat -> ~ forall k, k ∈ l -> 0 <= k < NUM /\ free k = true.

Lemma few_all free (l : list Z) : (length l < 3)%nat -> (forall k, 0 <= k < NUM -> k ∉ l -> free k = false) -> few free.
Proof.
  intros Hl Hf l' Hn Hl' Hk. assert (length l' <= length l)%nat; [|lia]. apply submseteq_length, NoDup_submseteq; [done|].
  intros k Hkl. destruct (Hk k Hkl) as [Hr Hfree]. destruct (decide (k ∈ l)) as [|Hno]; [done|]. rewrite (Hf k Hr Hno) in Hfree. done.
Qed.

Lemma few_less free free' : few free -> (forall k, free' k = true -> free k = true) -> few free'.
Proof. intros Hf Hle l Hn Hl Hk. apply (Hf l Hn Hl). intros k Hkl. destruct (Hk k Hkl). auto. Qed.

Lemma alloc3_desc_ok s :
  (exists d, alloc3_desc s = Ok None d /\ same_used s d /\ few (v_free s)) \/
  (exists i0 i1 i2, alloc3_desc s = Ok (Some (i0, i1, i2)) (take3 i0 i1 i2 s) /\ NoDup [i0; i1; i2] /\
     forall k, k ∈ [i0; i1; i2] -> 0 <= k < NUM /\ v_free s k = true).
Proof.
  unfold alloc3_desc.
  destruct (alloc_desc_ok s) as [[E0 N0]|(i0 & E0 & B0 & F0)]; rewrite (bind_ok _ _ _ _ _ E0).
  { left. exists s. split; [done|split; [apply same_used_refl|]]. apply (few_all (v_free s) []); [cbn; lia|auto]. }
  rewrite (proj2 (Z.ltb_ge i0 0)) by lia. set (s0 := put_free i0 false s).
  destruct (alloc_desc_ok s0) as [[E1 N1]|(i1 & E1 & B1 & F1)]; rewrite (bind_ok _ _ _ _ _ E1).
  { left. cbn [Z.ltb Z.compare]. rewrite (bind_ok _ _ _ _ _ (free_desc_ok i0 s0 ltac:(lia) ltac:(cbn; apply fn_lookup_insert))).
    eexists. split; [reflexivity|]. split; [split; try done; intros k; cbn; unfold insert, fn_insert; repeat case_decide; congruence|].
    apply (few_all (v_free s) [i0]); [cbn; lia|]. intros k Hk Hn. rewrite <- (N1 k Hk). cbn. rewrite fn_lookup_insert_ne; [done|set_solver]. }
  rewrite (proj2 (Z.ltb_ge i1 0)) by lia. set (s1 := put_free i1 false s0).
  assert (i1 <> i0) as H10 by (intros ->; cbn in F1; rewrite fn_lookup_insert in F1; done).
  cbn in F1. rewrite fn_lookup_insert_ne in F1 by done.
  destruct (alloc_desc_ok s1) as [[E2 N2]|(i2 & E2 & B2 & F2)]; rewrite (bind_ok _ _ _ _ _ E2).
  { left. cbn [Z.ltb Z.compare].
    rewrite (bind_ok _ _ _ _ _ (free_desc_ok i0 s1 ltac:(lia) ltac:(cbn; rewrite fn_lookup_insert_ne by done; apply fn_lookup_insert))).
    erewrite bind_ok.
    2: { apply free_desc_ok; [lia|]. cbn. rewrite fn_lookup_insert_ne by congruence. apply fn_lookup_insert. }
    eexists. split; [reflexivity|]. split; [split; try done; intros k; cbn; unfold insert, fn_insert; repeat case_decide; congruence|].
    apply (few_all (v_free s) [i0; i1]); [cbn; lia|]. intros k Hk Hn. rewrite <- (N2 k Hk). cbn. rewrite !fn_lookup_insert_ne; [done|set_solver..]. }
  rewrite (proj2 (Z.ltb_ge i2 0)) by lia. right. exists i0, i1, i2. split; [done|].
  assert (i2 <> i1) as H21 by (intros ->; cbn in F2; rewrite fn_lookup_insert in F2; done).
  cbn in F2. rewrite fn_lookup_insert_ne in F2 by done.
  assert (i2 <> i0) as H20 by (intros ->; rewrite fn_lookup_insert in F2; done). rewrite fn_lookup_insert_ne in F2 by done.
  split.
  - rewrite !NoDup_cons, !elem_of_cons, !elem_of_nil. split; [naive_solver|]. split; [naive_solver|]. split; [naive_solver|constructor].
  - intros k. rewrite !elem_of_cons, elem_of_nil. naive_solver.
Qed.

(** ** Rings *)

Lemma u16_ring x k : (u16 x + k) mod NUM = (x + k) mod NUM.
Proof. unfold u16, NUM. dlia. Qed.

Lemma u16_plus x k : u16 (u16 x + k) = u16 (x + k).
Proof. unfold u16. dlia. Qed.

Lemma window_push ring from to l x :
  window ring from to l -> (length l < 8)%nat -> window (<[to mod NUM := x]> ring) from (u16 (to + 1)) (l ++ [x]).
Proof.
  intros [Hf Ht Hr] Hl. split; [done| |].
  - rewrite Ht, u16_plus, length_app. cbn. f_equal. lia.
  - intros k y Hk. rewrite Ht. replace (u16 (from + Z.of_nat (length l)) mod NUM) with ((from + Z.of_nat (length l)) mod NUM) by (unfold u16, NUM; dlia).
    apply lookup_app_Some in Hk as [Hk|[Hge Hk]].
    + pose proof (lookup_lt_Some _ _ _ Hk). rewrite fn_lookup_insert_ne by (unfold NUM; dlia). now apply Hr.
    + destruct (k - length l)%nat eqn:E; [|done]. injection Hk as <-. replace k with (length l) by lia. apply fn_lookup_insert.
Qed.

Lemma window_pop ring from to x l :
  window ring from to (x :: l) -> ring (from mod NUM) = x /\ window ring (u16 (from + 1)) to l.
Proof.
  intros [Hf Ht Hr]. split; [rewrite <- (Hr 0%nat x eq_refl); f_equal; f_equal; lia|]. split.
  - unfold u16. apply Z.mod_pos_bound. lia.
  - rewrite Ht, u16_plus. cbn [length]. f_equal. lia.
  - intros k y Hk. rewrite u16_ring, <- (Hr (S k) y Hk). do 2 f_equal. lia.
Qed.

Lemma window_empty ring from to l :
  window ring from to l -> (length l <= 8)%nat -> (from =? to) = (match l with [] => true | _ => false end).
Proof.
  intros [Hf Ht _] Hl. rewrite Ht. unfold u16. destruct l; cbn [length] in *; [apply Z.eqb_eq|apply Z.eqb_neq]; dlia.
Qed.

(** Lists of requests are no longer than the rings. *)
Lemma NoDup_num (l : list Z) : NoDup l -> (forall i, i ∈ l -> 0 <= i < NUM) -> (length l <= 8)%nat.
Proof.
  intros Hn Hr. change 8%nat with (length (seqZ 0 8)). apply submseteq_length, NoDup_submseteq; [done|].
  intros i Hi. apply elem_of_seqZ. apply Hr in Hi. unfold NUM in Hi. lia.
Qed.

Implicit Types (m : gmap Z flight) (f g : flight).

Lemma lists_new m p l i f :
  m !! i = None -> lists m p l ->
  lists (<[i := f]> m) p (if decide (f_phase f = p) then l ++ [i] else l).
Proof.
  intros Hi [Hn Hl]. assert (i ∉ l) as Hil by (intros (? & ? & _)%Hl; congruence). split.
  - case_decide; [|done]. apply NoDup_app. split; [done|]. split; [|apply NoDup_singleton].
    intros x Hx Hx'%list_elem_of_singleton. congruence.
  - intros k. destruct (decide (k = i)) as [->|Hk].
    + rewrite lookup_insert_eq. case_decide; [|naive_solver]. rewrite elem_of_app, list_elem_of_singleton. naive_solver.
    + rewrite lookup_insert_ne by done. rewrite <- Hl. case_decide; [|done]. rewrite elem_of_app, list_elem_of_singleton. naive_solver.
Qed.

(** Request [h] goes from phase [p] to phase [q]. *)
Lemma lists_move m p q h f :
  m !! h = Some f -> f_phase f = p -> p <> q ->
  let m' := <[h := set_phase q f]> m in
  (forall l, lists m p (h :: l) -> lists m' p l) /\ (forall l, lists m q l -> lists m' q (l ++ [h])) /\
  (forall r l, r <> p -> r <> q -> lists m r l -> lists m' r l).
Proof.
  intros Hh Hp Hpq m'.
  assert (forall k r, k <> h -> (exists g, m' !! k = Some g /\ f_phase g = r) <-> (exists g, m !! k = Some g /\ f_phase g = r)) as Hne.
  { intros k r Hk. unfold m'. now rewrite lookup_insert_ne. }
  assert (m' !! h = Some (set_phase q f)) as Hh' by apply lookup_insert_eq.
  split; [|split].
  - intros l [[Hhl Hn]%NoDup_cons Hl]. split; [done|]. intros k. destruct (decide (k = h)) as [->|Hk].
    + rewrite Hh'. split; [done|]. intros (g & [= <-] & E). cbn in E. congruence.
    + rewrite Hne, <- Hl, elem_of_cons by done. naive_solver.
  - intros l [Hn Hl]. assert (h ∉ l) as Hhl by (rewrite Hl, Hh; naive_solver). split.
    + apply NoDup_app. split; [done|]. split; [|apply NoDup_singleton]. intros x Hx Hx'%list_elem_of_singleton. congruence.
    + intros k. rewrite elem_of_app, list_elem_of_singleton. destruct (decide (k = h)) as [->|Hk]; [rewrite Hh'; naive_solver|].
      rewrite Hne, Hl by done. naive_solver.
  - intros r l Hrp Hrq [Hn Hl]. split; [done|]. intros k. destruct (decide (k = h)) as [->|Hk]; [|now rewrite Hne, Hl].
    rewrite Hl, Hh, Hh'. cbn. naive_solver congruence.
Qed.

Lemma formatted_frame d d' i f :
  formatted d i f -> (forall k, k ∈ descs i f -> v_desc d' k = v_desc d k) -> v_ops d' i = v_ops d i ->
  v_info_b d' i = v_info_b d i -> v_info_status d' i = v_info_status d i -> v_bdisk d' (f_b f) = v_bdisk d (f_b f) ->
  formatted d' i f.
Proof.
  intros [] Hd Ho Hb Hs Hk. unfold descs in Hd.
  split; rewrite ?Hd, ?Ho, ?Hb, ?Hs, ?Hk; try done; rewrite !elem_of_cons; auto.
Qed.

Lemma sector_block no : 0 <= no < 2^31 -> u32 (no * (BSIZE / 512)) = no * 2.
Proof. intros H. unfold u32, BSIZE. change (1024 / 512) with 2. apply Z.mod_small. lia. Qed.

(** The driver's state after a request has been made. *)
Definition requested (i0 i1 i2 b no : Z) (w : bool) (s : disk) : disk :=
  put_notify true (put_avail i0 (put_info_b i0 b (put_bdisk b 1 (put_desc i2 (Desc (AStatus i0) 1 VRING_DESC_F_WRITE 0) (put_status i0 0xff
    (put_desc i1 (Desc (AData b) BSIZE (Z.lor (if w then 0 else VRING_DESC_F_WRITE) VRING_DESC_F_NEXT) i2)
      (put_desc i0 (Desc (AReq i0) 16 VRING_DESC_F_NEXT i1)
        (put_op i0 (BlkReq (if w then VIRTIO_BLK_T_OUT else VIRTIO_BLK_T_IN) 0 (u32 (no * (BSIZE / 512)))) (take3 i0 i1 i2 s))))))))).

Lemma rw_start_ok b no w s :
  (exists d, rw_start b no w s = Ok None d /\ same_used s d /\ few (v_free s)) \/
  (exists i0 i1 i2, rw_start b no w s = Ok (Some (i0, i1, i2)) (requested i0 i1 i2 b no w s) /\ NoDup [i0; i1; i2] /\
     forall k, k ∈ [i0; i1; i2] -> 0 <= k < NUM /\ v_free s k = true).
Proof.
  unfold rw_start. destruct (alloc3_desc_ok s) as [(d & E & Hs)|(i0 & i1 & i2 & E & Hn & Hf)]; [left; exists d|right; exists i0, i1, i2];
    rewrite (bind_ok _ _ _ _ _ E); done.
Qed.

(** ** The steps keep the invariant *)

(** The shape is about the requests, not their phases. *)
Lemma shape_phases m m' free :
  (forall i, exists p, m' !! i = set_phase p <$> m !! i) -> shape m free -> shape m' free.
Proof.
  intros Hm [H1 H2 H3 H4 H5 H6].
  assert (forall i g, m' !! i = Some g -> exists f, m !! i = Some f /\ descs i g = descs i f /\ f_b g = f_b f /\ f_no g = f_no f) as Hb.
  { intros i g Hg. destruct (Hm i) as [p Hp]. rewrite Hp in Hg. destruct (m !! i) as [f|]; [|done]. injection Hg as <-. eauto. }
  assert (forall i f, m !! i = Some f -> exists g, m' !! i = Some g /\ descs i g = descs i f) as Hf.
  { intros i f Hi. destruct (Hm i) as [p Hp]. rewrite Hi in Hp. eauto. }
  split.
  - intros i g k (f & Hi & -> & _)%Hb. eauto.
  - intros i g (f & Hi & -> & _)%Hb. eauto.
  - intros i g j g' k (f & Hi & -> & _)%Hb (f' & Hj & -> & _)%Hb. eauto.
  - intros k. rewrite H4. split; intros [Hk Hno]; (split; [done|]).
    + intros i g (f & Hi & -> & _)%Hb. eauto.
    + intros i f (g & Hi & <-)%Hf. eauto.
  - intros i g j g' (f & Hi & _ & -> & _)%Hb (f' & Hj & _ & -> & _)%Hb. eauto.
  - intros i g j g' (f & Hi & _ & _ & ->)%Hb (f' & Hj & _ & _ & ->)%Hb. eauto.
Qed.

Lemma shape_move m free h f q : m !! h = Some f -> shape m free -> shape (<[h := set_phase q f]> m) free.
Proof.
  intros Hh. apply shape_phases. intros i. destruct (decide (i = h)) as [->|Hi].
  - exists q. now rewrite lookup_insert_eq, Hh.
  - rewrite lookup_insert_ne by done. destruct (m !! i) as [[]|] eqn:E; [|now exists q]. eexists. unfold set_phase. cbn. reflexivity.
Qed.

Lemma flight_used m free i f k : shape m free -> m !! i = Some f -> k ∈ descs i f -> free k = false.
Proof. intros Hs Hi Hk. apply not_true_is_false. intros [_ H]%(vi_free _ _ Hs). exact (H i f Hi Hk). Qed.

Lemma head_in i f : i ∈ descs i f.
Proof. unfold descs. rewrite elem_of_cons. now left. Qed.

Lemma lists_short m free p l : shape m free -> lists m p l -> (length l <= 8)%nat.
Proof. intros Hs [Hn Hl]. apply NoDup_num; [done|]. intros i (f & Hi & _)%Hl. exact (vi_range _ _ Hs i f i Hi (head_in i f)). Qed.

(** A request that could be added leaves room in the ring. *)
Lemma lists_room m free p l i :
  shape m free -> lists m p l -> 0 <= i < NUM -> free i = true -> (length l < 8)%nat.
Proof.
  intros Hs [Hn Hl] Hi Hf. assert (i ∉ l) as Hil.
  { intros (f & Hm & _)%Hl. pose proof (flight_used m free i f i Hs Hm (head_in i f)). congruence. }
  change (length (i :: l) <= 8)%nat. apply NoDup_num; [now apply NoDup_cons|].
  intros k [->|(f & Hm & _)%Hl]%elem_of_cons; [done|]. exact (vi_range _ _ Hs k f k Hm (head_in k f)).
Qed.

Lemma shape_new m free free' i f :
  shape m free -> NoDup (descs i f) -> (forall k, k ∈ descs i f -> 0 <= k < NUM /\ free k = true) ->
  (forall j g, m !! j = Some g -> f_b g <> f_b f /\ f_no g <> f_no f) ->
  (forall k, free' k = if decide (k ∈ descs i f) then false else free k) ->
  m !! i = None /\ shape (<[i := f]> m) free'.
Proof.
  intros Hs Hn Hf Hid Hfree. pose proof Hs as [H1 H2 H3 H4 H5 H6].
  assert (forall j g k, m !! j = Some g -> k ∈ descs j g -> k ∉ descs i f) as Hd.
  { intros j g k Hj Hk Hk'. pose proof (flight_used _ _ _ _ _ Hs Hj Hk). destruct (Hf k Hk'). congruence. }
  assert (m !! i = None) as Hi by (destruct (m !! i) as [g|] eqn:E; [destruct (Hd i g i E (head_in i g) (head_in i f))|done]).
  split; [done|]. split.
  - intros j g k [[<- <-]|[_ Hj]]%lookup_insert_Some; [apply Hf|eauto].
  - intros j g [[<- <-]|[_ Hj]]%lookup_insert_Some; [done|eauto].
  - intros j g j' g' k [[<- <-]|[_ Hj]]%lookup_insert_Some [[<- <-]|[_ Hj']]%lookup_insert_Some; naive_solver.
  - intros k. rewrite Hfree. case_decide as Hk.
    + split; [done|]. intros [_ Hno]. destruct (Hno i f (lookup_insert_eq m i f) Hk).
    + rewrite H4. split; intros [Hr Hno]; (split; [done|]); intros j g.
      * intros [[<- <-]|[_ Hj]]%lookup_insert_Some; eauto.
      * intros Hj. apply Hno. rewrite lookup_insert_ne; [done|congruence].
  - intros j g j' g' [[<- <-]|[_ Hj]]%lookup_insert_Some [[<- <-]|[_ Hj']]%lookup_insert_Some E; [done| | |eauto].
    + destruct (Hid _ _ Hj'). congruence.
    + destruct (Hid _ _ Hj). congruence.
  - intros j g j' g' [[<- <-]|[_ Hj]]%lookup_insert_Some [[<- <-]|[_ Hj']]%lookup_insert_Some E; [done| | |eauto].
    + destruct (Hid _ _ Hj'). congruence.
    + destruct (Hid _ _ Hj). congruence.
Qed.

Lemma shape_drop m free free' i f :
  shape m free -> m !! i = Some f -> (forall k, free' k = if decide (k ∈ descs i f) then true else free k) ->
  shape (delete i m) free'.
Proof.
  intros Hs Hi Hfree. pose proof Hs as [H1 H2 H3 H4 H5 H6].
  split; [intros j g k [_ Hj]%lookup_delete_Some|intros j g [_ Hj]%lookup_delete_Some| | | |];
    try (intros j g j' g' * [_ Hj]%lookup_delete_Some [_ Hj']%lookup_delete_Some); eauto.
  intros k. rewrite Hfree. case_decide as Hk.
  - split; [|done]. intros _. split; [eauto|]. intros j g [Hj Hg]%lookup_delete_Some Hk'. apply Hj. eauto.
  - rewrite H4. split; intros [Hr Hno]; (split; [done|]); intros j g.
    + intros [_ Hj]%lookup_delete_Some. eauto.
    + intros Hj. destruct (decide (j = i)) as [->|]; [|apply Hno; now rewrite lookup_delete_ne].
      rewrite Hi in Hj. now injection Hj as <-.
Qed.

Lemma shape_free m free free' : shape m free -> (forall k, free' k = free k) -> shape m free'.
Proof. intros [H1 H2 H3 H4 H5 H6] Hf. split; eauto. intros k. now rewrite Hf. Qed.

Lemma inv_full s b no w d t :
  vinv s -> rw_start b no w (s_drv s) = Ok None d -> vinv (Sys d (s_block s) (s_data s) (s_seen s) (s_fl s) t).
Proof.
  intros [Hs Hf Hd Ha Hu] E. destruct (rw_start_ok b no w (s_drv s)) as [(d' & E' & Hsu & _)|(? & ? & ? & E' & _)]; rewrite E in E'; [|done].
  injection E' as <-. destruct Hsu. split; cbn; rewrite ?su_avail_idx0, ?su_avail_ring0, ?su_used_ring_idx0, ?su_used_ring0, ?su_used_idx0; try done.
  - now apply (shape_free _ (v_free (s_drv s))).
  - intros i f Hi. apply (formatted_frame (s_drv s)); [now apply Hf| |congruence..].
    intros k Hk. apply su_desc0. exact (flight_used _ _ _ _ _ Hs Hi Hk).
Qed.

(** What a new request changes for the others, and that its own descriptors are
    formatted. *)
Lemma requested_frame i0 i1 i2 b no w s :
  (forall k, v_free (requested i0 i1 i2 b no w s) k = if decide (k ∈ [i0; i1; i2]) then false else v_free s k) /\
  (forall i f, formatted s i f -> (forall k, k ∈ descs i f -> k ∉ [i0; i1; i2]) -> f_b f <> b ->
     formatted (requested i0 i1 i2 b no w s) i f).
Proof.
  split.
  - intros k. cbn. destruct (decide (k ∈ [i0; i1; i2])) as [Hk|Hk].
    + rewrite !elem_of_cons in Hk. unfold insert, fn_insert. repeat case_decide; try done. set_solver.
    + rewrite !not_elem_of_cons in Hk. now rewrite !fn_lookup_insert_ne by naive_solver.
  - intros i f Hf Hk Hb. pose proof (Hk i (head_in i f)) as Hi. rewrite !not_elem_of_cons in Hi. destruct Hi as (Hi & _).
    apply (formatted_frame s); [done| |cbn; now rewrite fn_lookup_insert_ne by congruence..].
    intros k Hkd. specialize (Hk k Hkd). rewrite !not_elem_of_cons in Hk. cbn. now rewrite !fn_lookup_insert_ne by naive_solver.
Qed.

Lemma requested_formatted i0 i1 i2 b no w s x :
  NoDup [i0; i1; i2] -> 0 <= no < 2^31 -> formatted (requested i0 i1 i2 b no w s) i0 (Flight b no w i1 i2 x Avail).
Proof.
  rewrite !NoDup_cons, !not_elem_of_cons. intros ((H01 & H02 & _) & (H12 & _) & _) Hno.
  split; cbn; rewrite ?fn_lookup_insert; try done.
  - now rewrite sector_block.
  - now rewrite (fn_lookup_insert_ne _ i2), (fn_lookup_insert_ne _ i1), fn_lookup_insert by congruence.
  - now rewrite (fn_lookup_insert_ne _ i2), fn_lookup_insert by congruence.
Qed.

Lemma inv_start s b no w i0 i1 i2 d t :
  vinv s -> idle b no s -> 0 <= no < 2^31 -> rw_start b no w (s_drv s) = Ok (Some (i0, i1, i2)) d ->
  vinv (Sys d (s_block s) (s_data s) (s_seen s)
    (<[i0 := Flight b no w i1 i2 (if w then s_data s b else s_block s no) Avail]> (s_fl s)) t).
Proof.
  intros [Hs Hf Hd (la & Hwa & Hla) (lu & Hwu & Hlu)] Hid Hno E.
  destruct (rw_start_ok b no w (s_drv s)) as [(d' & E' & _)|(j0 & j1 & j2 & E' & Hn & Hfr)]; rewrite E in E'; [done|].
  injection E' as <- <- <- ->. set (f := Flight b no w i1 i2 _ Avail).
  destruct (requested_frame i0 i1 i2 b no w (s_drv s)) as [Hfree Hother].
  destruct (shape_new _ _ _ i0 f Hs Hn Hfr Hid Hfree) as [Hnew Hshape].
  destruct (Hfr i0 (head_in i0 f)) as [Hr0 Hf0].
  split; cbn [s_drv s_fl s_seen].
  - exact Hshape.
  - intros i g [[<- <-]|[_ Hi]]%lookup_insert_Some; [now apply requested_formatted|].
    apply Hother; [now apply Hf| |apply (Hid i g Hi)].
    intros k Hk Hk'. pose proof (flight_used _ _ _ _ _ Hs Hi Hk). destruct (Hfr k Hk'). congruence.
  - intros i g [[<- <-]|[_ Hi]]%lookup_insert_Some; [unfold transferred; now destruct w|exact (Hd i g Hi)].
  - exists (la ++ [i0]). split; [|exact (lists_new _ Avail la i0 f Hnew Hla)].
    apply window_push; [done|]. exact (lists_room _ _ _ _ i0 Hs Hla Hr0 Hf0).
  - exists lu. split; [exact Hwu|exact (lists_new _ Done lu i0 f Hnew Hlu)].
Qed.

Lemma formatted_phase d i f p :
  formatted d i f -> (p = Done -> v_info_status d i = 0) -> (f_phase f = Seen <-> p = Seen) -> formatted d i (set_phase p f).
Proof. intros [] Hd Hp. split; try done. cbn. rewrite fm_bdisk0. repeat case_decide; naive_solver. Qed.

(** The head of the avail ring is a request the device has not taken. *)
Lemma avail_head s :
  vinv s -> s_seen s <> v_avail_idx (s_drv s) ->
  exists l f, window (v_avail_ring (s_drv s)) (u16 (s_seen s + 1)) (v_avail_idx (s_drv s)) l /\
    let h := v_avail_ring (s_drv s) (s_seen s mod NUM) in
    lists (s_fl s) Avail (h :: l) /\ s_fl s !! h = Some f /\ f_phase f = Avail.
Proof.
  intros [Hs _ _ (la & Hwa & Hla) _] Hne. pose proof (window_empty _ _ _ _ Hwa (lists_short _ _ _ _ Hs Hla)) as He.
  destruct la as [|h l]; [apply Z.eqb_eq in He; congruence|]. destruct (window_pop _ _ _ _ _ Hwa) as [Hh Hw].
  pose proof (proj1 (proj2 Hla h) ltac:(rewrite elem_of_cons; now left)) as (f & Hf & Hp).
  exists l, f. cbn zeta. now rewrite Hh.
Qed.

Lemma inv_take s h f t :
  vinv s -> s_seen s <> v_avail_idx (s_drv s) -> h = v_avail_ring (s_drv s) (s_seen s mod NUM) -> s_fl s !! h = Some f ->
  vinv (Sys (s_drv s) (s_block s) (s_data s) (u16 (s_seen s + 1)) (<[h := set_phase Taken f]> (s_fl s)) t).
Proof.
  intros Hi Hne -> Hh. destruct (avail_head s Hi Hne) as (l & f' & Hw & Hl & Hh' & Hp).
  rewrite Hh in Hh'. injection Hh' as <-. destruct Hi as [Hs Hf Hd _ (lu & Hwu & Hlu)].
  set (h := v_avail_ring _ _) in *. destruct (lists_move _ Avail Taken h f Hh Hp ltac:(done)) as (Hm1 & _ & Hm3).
  split; cbn [s_drv s_fl s_seen].
  - now apply shape_move.
  - intros i g [[<- <-]|[_ Hi]]%lookup_insert_Some; [|now apply Hf]. apply formatted_phase; [now apply Hf|done|].
    rewrite Hp. split; discriminate.
  - intros i g [[<- <-]|[_ Hi]]%lookup_insert_Some; [|exact (Hd i g Hi)]. pose proof (Hd h f Hh) as Ht. unfold transferred in *. now rewrite Hp in Ht.
  - exists l. split; [done|now apply Hm1].
  - exists lu. split; [done|now apply Hm3].
Qed.

(** What the device does for a request in flight. *)
Lemma serve_ok s h f :
  device -> vinv s -> s_fl s !! h = Some f -> f_phase f = Taken ->
  serve h s = Some (raise 1 (put_used h (put_status h 0 (s_drv s))),
    (if f_write f then <[f_no f := f_data f]> (s_block s) else s_block s),
    (if f_write f then s_data s else <[f_b f := f_data f]> (s_data s))).
Proof.
  intros Hdev [_ Hf Hd _ _] Hh Hp. pose proof (Hd h f Hh) as Ht. unfold transferred in Ht. rewrite Hp in Ht.
  destruct (Hf h f Hh) as [Hop H0 H1 H2 _ _ _]. destruct (f_write f); cbn [Z.lor VRING_DESC_F_NEXT] in H1; rewrite <- Ht.
  - exact (dev_out Hdev h s h (f_b f) h (f_i1 f) (f_i2 f) (f_no f) H0 H1 H2 Hop).
  - exact (dev_in Hdev h s h (f_b f) h (f_i1 f) (f_i2 f) (f_no f) H0 H1 H2 Hop).
Qed.

Lemma inv_serve s h f d bl da t :
  device -> vinv s -> s_fl s !! h = Some f -> f_phase f = Taken -> serve h s = Some (d, bl, da) ->
  vinv (Sys d bl da (s_seen s) (<[h := set_phase Done f]> (s_fl s)) t).
Proof.
  intros Hdev Hinv Hh Hp E. rewrite (serve_ok s h f Hdev Hinv Hh Hp) in E. injection E as <- <- <-.
  destruct Hinv as [Hs Hf Hd (la & Hwa & Hla) (lu & Hwu & Hlu)].
  destruct (lists_move _ Taken Done h f Hh Hp ltac:(done)) as (_ & Hm2 & Hm3).
  split; cbn [s_drv s_fl s_seen].
  - now apply shape_move.
  - intros i g [[<- <-]|[Hne Hi]]%lookup_insert_Some.
    + apply formatted_phase; [|intros _; cbn; now rewrite fn_lookup_insert|rewrite Hp; split; discriminate].
      destruct (Hf h f Hh). split; try done. now rewrite Hp.
    + apply (formatted_frame (s_drv s)); try done; [now apply Hf|]. cbn. now rewrite fn_lookup_insert_ne.
  - intros i g [[<- <-]|[Hne Hi]]%lookup_insert_Some; pose proof (Hd h f Hh) as Ht; unfold transferred in *; cbn.
    + rewrite Hp in Ht. destruct (f_write f); now rewrite fn_lookup_insert.
    + pose proof (Hd i g Hi) as Hg. unfold transferred in Hg. cbn.
      assert (f_b f <> f_b g) by (intros E; now apply Hne, (vi_b _ _ Hs h f i g)).
      assert (f_no f <> f_no g) by (intros E; now apply Hne, (vi_no _ _ Hs h f i g)).
      destruct (f_write f); now rewrite fn_lookup_insert_ne.
  - exists la. split; [exact Hwa|now apply Hm3].
  - exists (lu ++ [h]). split; [|now apply Hm2]. apply window_push; [done|]. change (length (h :: lu) <= 8)%nat. apply NoDup_num.
    + apply NoDup_cons. split; [|apply Hlu]. rewrite (proj2 Hlu), Hh. intros (g & [= <-] & E). congruence.
    + intros k Hk. assert (exists g, s_fl s !! k = Some g) as [g Hg].
      { apply elem_of_cons in Hk as [->|(g & Hg & _)%(proj2 Hlu)]; eauto. }
      exact (vi_range _ _ Hs k g k Hg (head_in k g)).
Qed.

Lemma inv_modify s b x t :
  vinv s -> (forall i f, s_fl s !! i = Some f -> f_b f <> b) ->
  vinv (Sys (s_drv s) (s_block s) (<[b := x]> (s_data s)) (s_seen s) (s_fl s) t).
Proof.
  intros [Hs Hf Hd Ha Hu] Hb. split; try done. intros i f Hi. pose proof (Hd i f Hi) as Ht. unfold transferred in *. cbn.
  rewrite fn_lookup_insert_ne; [done|]. intros ->. exact (Hb i f Hi eq_refl).
Qed.

(** ** The interrupt handler *)

(** The loop clears the flag of each buffer whose request is in the used ring, and
    wakes the thread that waits for it. *)
Definition see_one (d : disk) (id : Z) : disk := next_used (put_woken (BufChan (v_info_b d id)) (put_bdisk (v_info_b d id) 0 d)).
Definition see_all (l : list Z) (s : disk) : disk := foldl see_one s l.

Lemma intr_loop_ok l : forall fuel s,
  (length l < fuel)%nat -> (length l <= 8)%nat -> window (v_used_ring s) (v_used_idx s) (v_used_ring_idx s) l ->
  (forall i, i ∈ l -> v_info_status s i = 0) -> intr_loop fuel s = Ok tt (see_all l s).
Proof.
  induction l as [|id l IH]; intros [|fuel] s Hfu Hl Hw Hst; cbn in Hfu; try lia; cbn [intr_loop];
    erewrite bind_ok by reflexivity; rewrite (window_empty _ _ _ _ Hw Hl); [done|].
  destruct (window_pop _ _ _ _ _ Hw) as [Hid Hw']. cbn zeta. rewrite Hid, (Hst id) by (rewrite elem_of_cons; now left).
  cbn [negb Z.eqb]. do 3 erewrite bind_ok by reflexivity.
  rewrite IH; [done|lia|cbn in Hl; lia|exact Hw'|]. intros i Hi. apply Hst. rewrite elem_of_cons. now right.
Qed.

Record seen (l : list Z) (s d : disk) : Prop := SeenAll {
  se_desc : v_desc d = v_desc s; se_avail_idx : v_avail_idx d = v_avail_idx s; se_avail_ring : v_avail_ring d = v_avail_ring s;
  se_used_ring_idx : v_used_ring_idx d = v_used_ring_idx s; se_used_ring : v_used_ring d = v_used_ring s;
  se_free : v_free d = v_free s; se_info_b : v_info_b d = v_info_b s; se_info_status : v_info_status d = v_info_status s;
  se_ops : v_ops d = v_ops s;
  se_bdisk b : v_bdisk d b = if decide (b ∈ v_info_b s <$> l) then 0 else v_bdisk s b;
  se_window : window (v_used_ring d) (v_used_idx d) (v_used_ring_idx d) [];
  se_regs : v_regs d = VRegs (g_notify (v_regs s)) (g_status (v_regs s)) (g_woken (v_regs s) ++ (BufChan <$> (v_info_b s <$> l)));
}.

Lemma see_all_ok l : forall s, window (v_used_ring s) (v_used_idx s) (v_used_ring_idx s) l -> seen l s (see_all l s).
Proof.
  induction l as [|id l IH]; intros s Hw; [split; try done; cbn; rewrite app_nil_r; now destruct (v_regs s)|].
  destruct (window_pop _ _ _ _ _ Hw) as [_ Hw']. destruct (IH (see_one s id) Hw') as [? ? ? ? ? ? ? ? ? Hb ? Hr].
  split; try done; change (see_all (id :: l) s) with (see_all l (see_one s id)).
  - intros b. rewrite Hb. cbn. unfold insert, fn_insert. repeat case_decide; rewrite ?elem_of_cons in *; try done; naive_solver.
  - rewrite Hr. cbn. now rewrite <- app_assoc.
Qed.

(** The loop ends, without a panic, and has seen what is in the used ring. *)
Lemma intr_ok s :
  vinv s -> exists l d, lists (s_fl s) Done l /\ intr_used (s_drv s) = Ok tt d /\ seen l (s_drv s) d.
Proof.
  intros [Hs Hf _ _ (l & Hw & Hl)]. pose proof (lists_short _ _ _ _ Hs Hl) as Hsh.
  exists l, (see_all l (s_drv s)). split; [done|]. split; [|now apply see_all_ok].
  apply intr_loop_ok; [unfold NUM; lia|done|done|]. intros i (f & Hi & Hp)%(proj2 Hl). now apply (fm_status _ _ _ (Hf i f Hi)).
Qed.

Lemma see_done_Some m i g :
  (see_done <$> m) !! i = Some g -> exists f, m !! i = Some f /\ (f_phase f = Done /\ g = set_phase Seen f \/ f_phase f <> Done /\ g = f).
Proof.
  rewrite lookup_fmap. destruct (m !! i) as [f|]; [|done]. intros [= <-]. exists f. split; [done|]. unfold see_done. case_decide; eauto.
Qed.

Lemma lists_see m : (forall l, lists m Avail l -> lists (see_done <$> m) Avail l) /\ lists (see_done <$> m) Done [].
Proof.
  split.
  - intros l [Hn Hl]. split; [done|]. intros i. rewrite Hl. split.
    + intros (f & Hi & Hp). exists f. rewrite lookup_fmap, Hi. cbn. unfold see_done. now rewrite Hp.
    + intros (g & (f & Hi & [[_ ->]|[_ ->]])%see_done_Some & Hp); [done|eauto].
  - split; [apply NoDup_nil_2|]. intros i. split; [now intros ?%not_elem_of_nil|].
    now intros (g & (f & Hi & [[_ ->]|[? ->]])%see_done_Some & Hp).
Qed.

(** The buffers the handler is done with are those of the requests in the ring. *)
Lemma seen_buf s l i f :
  vinv s -> lists (s_fl s) Done l -> s_fl s !! i = Some f -> f_b f ∈ v_info_b (s_drv s) <$> l <-> f_phase f = Done.
Proof.
  intros [Hs Hf _ _ _] [_ Hl] Hi. split.
  - intros (j & Hb & (g & Hj & Hp)%Hl)%list_elem_of_fmap. rewrite (fm_info _ _ _ (Hf j g Hj)) in Hb.
    pose proof (vi_b _ _ Hs i f j g Hi Hj Hb) as <-. congruence.
  - intros Hp. rewrite <- (fm_info _ _ _ (Hf i f Hi)). apply list_elem_of_fmap_2, Hl. eauto.
Qed.

Lemma inv_intr s d t :
  vinv s -> intr_used (s_drv s) = Ok tt d -> vinv (Sys d (s_block s) (s_data s) (s_seen s) (see_done <$> s_fl s) t).
Proof.
  intros Hinv E. destruct (intr_ok s Hinv) as (l & d' & Hl & E' & Hse). rewrite E in E'. injection E' as <-.
  assert (forall i f, s_fl s !! i = Some f -> v_bdisk d (f_b f) = if decide (f_phase f = Done) then 0 else v_bdisk (s_drv s) (f_b f)) as Hb.
  { intros i f Hi. rewrite (se_bdisk _ _ _ Hse). pose proof (seen_buf s l i f Hinv Hl Hi). repeat case_decide; tauto. }
  destruct Hinv as [Hs Hf Hd (la & Hwa & Hla) _], Hse. destruct (lists_see (s_fl s)) as [Hla' Hlu'].
  split; cbn [s_drv s_fl s_seen].
  - rewrite se_free0. revert Hs. apply shape_phases. intros i. rewrite lookup_fmap.
    destruct (s_fl s !! i) as [f|]; [|now exists Seen]. cbn. unfold see_done. case_decide; [eauto|]. exists (f_phase f). now destruct f.
  - intros i g (f & Hi & [[Hp ->]|[Hp ->]])%see_done_Some; pose proof (Hb i f Hi) as Hbi.
    + rewrite decide_True in Hbi by done. destruct (Hf i f Hi). split; cbn; try done; congruence.
    + rewrite decide_False in Hbi by done. apply (formatted_frame (s_drv s)); [now apply Hf|congruence..].
  - intros i g (f & Hi & Hg)%see_done_Some. pose proof (Hd i f Hi) as Ht.
    destruct Hg as [[Hp ->]|[Hp ->]]; [|exact Ht]. unfold transferred in *. now rewrite Hp in Ht.
  - exists la. rewrite se_avail_idx0, se_avail_ring0. auto.
  - exists []. auto.
Qed.

(** The registers and the threads have no part in it. *)
Lemma vinv_regs s r t : vinv s -> vinv (Sys (put_regs r (s_drv s)) (s_block s) (s_data s) (s_seen s) (s_fl s) t).
Proof.
  intros [Hs Hf Hd Ha Hu]. split; try done. intros i f Hi. apply (formatted_frame (s_drv s)); try done. now apply Hf.
Qed.

(** ** The end of a request *)

Lemma free_chain_step n i s :
  i < NUM -> v_free s i = false ->
  free_chain (S n) i s =
    (if truthy (Z.land (d_flags (v_desc s i)) VRING_DESC_F_NEXT) then free_chain n (d_next (v_desc s i)) else mret tt) (cleared i s).
Proof. intros Hi Hf. cbn [free_chain]. erewrite bind_ok by reflexivity. now rewrite (bind_ok _ _ _ _ _ (free_desc_ok i s Hi Hf)). Qed.

Lemma cleared_free i k s : v_free (cleared i s) k = if decide (k = i) then true else v_free s k.
Proof. cbn. unfold insert, fn_insert. repeat case_decide; congruence. Qed.

Lemma cleared_desc i k s : k <> i -> v_desc (cleared i s) k = v_desc s k.
Proof. intros H. cbn. now rewrite fn_lookup_insert_ne by congruence. Qed.

Definition ended (i : Z) (f : flight) (s : disk) : disk := cleared (f_i2 f) (cleared (f_i1 f) (cleared i (put_info_b i (-1) s))).

Lemma rw_end_ok s i f : vinv s -> s_fl s !! i = Some f -> rw_end i (s_drv s) = Ok tt (ended i f (s_drv s)).
Proof.
  intros [Hs Hf _ _ _] Hi.
  assert (forall k, k ∈ descs i f -> k < NUM /\ v_free (s_drv s) k = false) as Hk.
  { intros k Hk. split; [apply (vi_range _ _ Hs i f k Hi Hk)|exact (flight_used _ _ _ _ _ Hs Hi Hk)]. }
  pose proof (vi_nodup _ _ Hs i f Hi) as Hn. unfold descs in *. rewrite !NoDup_cons, !not_elem_of_cons in Hn.
  destruct Hn as ((H01 & H02 & _) & (H12 & _) & _).
  destruct (Hk i ltac:(set_solver)) as [? ?], (Hk (f_i1 f) ltac:(set_solver)) as [? ?], (Hk (f_i2 f) ltac:(set_solver)) as [? ?].
  destruct (Hf i f Hi) as [_ Hd0 Hd1 Hd2 _ _ _].
  unfold rw_end. erewrite bind_ok by reflexivity. change (Z.to_nat NUM) with 8%nat.
  rewrite free_chain_step by done. cbn [v_desc put_info_b]. rewrite Hd0. change (truthy _) with true. cbv iota. cbn [d_next].
  rewrite free_chain_step by (rewrite ?cleared_free; try done; now rewrite decide_False).
  rewrite cleared_desc by done. cbn [v_desc put_info_b]. rewrite Hd1. cbn [d_next d_flags].
  replace (truthy _) with true by (now destruct (f_write f)).
  rewrite free_chain_step by (rewrite ?cleared_free; try done; now rewrite !decide_False).
  rewrite !cleared_desc by done. cbn [v_desc put_info_b]. now rewrite Hd2.
Qed.

Lemma seen_phase s i f : vinv s -> s_fl s !! i = Some f -> v_bdisk (s_drv s) (f_b f) = 0 -> f_phase f = Seen.
Proof. intros [_ Hf _ _ _] Hi. rewrite (fm_bdisk _ _ _ (Hf i f Hi)). now case_decide. Qed.

Lemma lists_drop m p l i f : lists m p l -> m !! i = Some f -> f_phase f <> p -> lists (delete i m) p l.
Proof.
  intros [Hn Hl] Hi Hp. split; [done|]. intros k. rewrite Hl. split; intros (g & Hg & Hq); exists g; rewrite lookup_delete_Some in *; naive_solver.
Qed.

Lemma inv_finish s i f d t :
  vinv s -> s_fl s !! i = Some f -> v_bdisk (s_drv s) (f_b f) = 0 -> rw_end i (s_drv s) = Ok tt d ->
  vinv (Sys d (s_block s) (s_data s) (s_seen s) (delete i (s_fl s)) t).
Proof.
  intros Hinv Hi Hb E. pose proof (seen_phase s i f Hinv Hi Hb) as Hp. rewrite (rw_end_ok s i f Hinv Hi) in E. injection E as <-.
  destruct Hinv as [Hs Hf Hd (la & Hwa & Hla) (lu & Hwu & Hlu)]. split; cbn [s_drv s_fl s_seen].
  - apply (shape_drop _ (v_free (s_drv s)) _ i f); [done..|]. intros k. unfold ended, descs. rewrite !cleared_free. cbn [v_free put_info_b].
    repeat case_decide; set_solver.
  - intros j g [Hji Hj]%lookup_delete_Some. apply (formatted_frame (s_drv s)); [now apply Hf| |done| |done..].
    + intros k Hk. assert (k ∉ descs i f) as Hki by (intros Hk'; now apply Hji, (vi_apart _ _ Hs i f j g k)).
      unfold descs in Hki. rewrite !not_elem_of_cons in Hki. unfold ended. now rewrite !cleared_desc by naive_solver.
    + cbn. now rewrite fn_lookup_insert_ne.
  - intros j g [_ Hj]%lookup_delete_Some. exact (Hd j g Hj).
  - exists la. split; [exact Hwa|]. apply (lists_drop _ _ _ _ f); [done..|]. now rewrite Hp.
  - exists lu. split; [exact Hwu|]. apply (lists_drop _ _ _ _ f); [done..|]. now rewrite Hp.
Qed.

(** ** Notifications, interrupts and wakeups *)

(** The device has been notified of what is in the avail ring; an interrupt that
    has not been acknowledged is pending; and what is in the used ring has an
    interrupt pending, or the handler at work. *)
Record rinv (d : disk) (x : Z) (t : threads) : Prop := RInv {
  ri_notify : x <> v_avail_idx d -> g_notify (v_regs d) = true;
  ri_status : g_status (v_regs d) = 0 \/ g_status (v_regs d) = 1 /\ t_irq t = true;
  ri_used : v_used_idx d <> v_used_ring_idx d -> t_irq t = true \/ t_handler t = true;
}.

(** No thread sleeps on what has happened: the thread of a request that is done is
    awake, and one sleeps for descriptors only while there are too few.  The
    requests that wait are apart from those in flight and from each other. *)
Record tinv (m : gmap Z flight) (free : Z -> bool) (t : threads) : Prop := TInv {
  ti_awake i f : m !! i = Some f -> f_phase f = Seen -> t_asleep t i = false;
  ti_few k q : t_queue t !! k = Some q -> q_asleep q = true -> few free;
  ti_range k q : t_queue t !! k = Some q -> 0 <= q_no q < 2^31;
  ti_idle k q i f : t_queue t !! k = Some q -> m !! i = Some f -> f_b f <> q_b q /\ f_no f <> q_no q;
  ti_apart k q k' q' : t_queue t !! k = Some q -> t_queue t !! k' = Some q' -> k <> k' -> q_b q <> q_b q' /\ q_no q <> q_no q';
}.

(** A stretch of the driver wakes those whose condition it has changed. *)
Lemma tinv_wake w m m' free free' t :
  tinv m free t ->
  (forall i f, m' !! i = Some f -> f_phase f = Seen -> t_asleep t i = false \/ BufChan (f_b f) ∈ w) ->
  (few free -> few free' \/ FreeChan ∈ w) ->
  (forall i f, m' !! i = Some f -> exists g, m !! i = Some g /\ f_b g = f_b f /\ f_no g = f_no f) ->
  tinv m' free' (wake w m' t).
Proof.
  intros [Ha Hf Hr Hi Hp] Ha' Hf' Hm.
  assert (forall k q, t_queue (wake w m' t) !! k = Some q -> exists q0, t_queue t !! k = Some q0 /\ q = wake_queue w q0) as Hq.
  { intros k q. cbn. rewrite lookup_fmap. destruct (t_queue t !! k) as [q0|]; [|done]. intros [= <-]. eauto. }
  split.
  - intros i f Hi' Hs. cbn. rewrite Hi'. case_decide; [done|]. now destruct (Ha' i f Hi' Hs).
  - intros k q (q0 & Hk & ->)%Hq. cbn. case_decide; [done|]. intros Hs. destruct (Hf' (Hf k q0 Hk Hs)); done.
  - intros k q (q0 & Hk & ->)%Hq. exact (Hr k q0 Hk).
  - intros k q i f (q0 & Hk & ->)%Hq (g & Hg & <- & <-)%Hm. exact (Hi k q0 i g Hk Hg).
  - intros k q k' q' (q0 & Hk & ->)%Hq (q0' & Hk' & ->)%Hq. exact (Hp k q0 k' q0' Hk Hk').
Qed.

Record linv (s : sys) : Prop := LInv {
  li_v : vinv s;
  li_r : rinv (s_drv s) (s_seen s) (s_thr s);
  li_t : tinv (s_fl s) (v_free (s_drv s)) (s_thr s);
}.

(** A phase that is not [Seen], and a thread that goes on. *)
Lemma tinv_phase m free t h f p : tinv m free t -> m !! h = Some f -> p <> Seen -> tinv (<[h := set_phase p f]> m) free t.
Proof.
  intros [Ha Hf Hr Hi Hp] Hh Hs. split; try done.
  - intros i g [[<- <-]|[_ Hg]]%lookup_insert_Some; [done|eauto].
  - intros k q i g Hk [[<- <-]|[_ Hg]]%lookup_insert_Some; [exact (Hi k q h f Hk Hh)|eauto].
Qed.

Lemma tinv_queue m free t k q q' :
  tinv m free t -> t_queue t !! k = Some q -> q_b q' = q_b q -> q_no q' = q_no q -> (q_asleep q' = true -> few free) ->
  tinv m free (set_queue (<[k := q']> (t_queue t)) t).
Proof.
  intros [Ha Hf Hr Hi Hp] Hk Eb En Hs.
  assert (forall k0 q0, <[k := q']> (t_queue t) !! k0 = Some q0 -> exists q1, t_queue t !! k0 = Some q1 /\ q_b q0 = q_b q1 /\ q_no q0 = q_no q1) as Hq.
  { intros k0 q0 [[<- <-]|[_ H]]%lookup_insert_Some; eauto. }
  split; cbn; [done|..].
  - intros k0 q0 [[<- <-]|[_ H]]%lookup_insert_Some; [done|eauto].
  - intros k0 q0 (q1 & H1 & _ & ->)%Hq. eauto.
  - intros k0 q0 i f (q1 & H1 & -> & ->)%Hq. eauto.
  - intros k0 q0 k1 q1 (q2 & H2 & -> & ->)%Hq (q3 & H3 & -> & ->)%Hq. eauto.
Qed.

Lemma linv_call s k b no w :
  linv s -> t_queue (s_thr s) !! k = None -> 0 <= no < 2^31 -> idle b no s ->
  (forall k' q, t_queue (s_thr s) !! k' = Some q -> q_b q <> b /\ q_no q <> no) ->
  linv (with_thr (set_queue (<[k := Req b no w false]> (t_queue (s_thr s))) (s_thr s)) s).
Proof.
  intros [Hv [] [Ha Hf Hr Hi Hp]] Hk Hno Hid Hq. split; [destruct Hv; now split|now split|]. split; cbn; [done|..].
  - intros k0 q0 [[<- <-]|[_ H]]%lookup_insert_Some; [done|eauto].
  - intros k0 q0 [[<- <-]|[_ H]]%lookup_insert_Some; [done|eauto].
  - intros k0 q0 i f [[<- <-]|[_ H]]%lookup_insert_Some; [apply Hid|eauto].
  - intros k0 q0 k1 q1 [[<- <-]|[_ H]]%lookup_insert_Some [[<- <-]|[_ H']]%lookup_insert_Some Hne; [done| | |eauto].
    + destruct (Hq k1 q1 H'). cbn. split; congruence.
    + exact (Hq k0 q0 H).
Qed.

(** What a request and its end do to the registers and the free descriptors. *)
Lemma rw_start_regs b no w s i0 i1 i2 d :
  rw_start b no w s = Ok (Some (i0, i1, i2)) d ->
  g_notify (v_regs d) = true /\ g_status (v_regs d) = g_status (v_regs s) /\
  v_used_idx d = v_used_idx s /\ v_used_ring_idx d = v_used_ring_idx s /\ forall k, v_free d k = true -> v_free s k = true.
Proof.
  intros E. destruct (rw_start_ok b no w s) as [(d' & E' & _)|(j0 & j1 & j2 & E' & _)]; rewrite E in E'; [done|].
  injection E' as <- <- <- ->. do 4 (split; [reflexivity|]). intros k.
  rewrite (proj1 (requested_frame i0 i1 i2 b no w s)). now case_decide.
Qed.

Lemma rw_end_regs s i f d :
  vinv s -> s_fl s !! i = Some f -> rw_end i (s_drv s) = Ok tt d ->
  g_notify (v_regs d) = g_notify (v_regs (s_drv s)) /\ g_status (v_regs d) = g_status (v_regs (s_drv s)) /\
  v_avail_idx d = v_avail_idx (s_drv s) /\ v_used_idx d = v_used_idx (s_drv s) /\ v_used_ring_idx d = v_used_ring_idx (s_drv s) /\
  FreeChan ∈ g_woken (v_regs d).
Proof.
  intros Hv Hi E. rewrite (rw_end_ok s i f Hv Hi) in E. injection E as <-. do 5 (split; [reflexivity|]).
  cbn. apply elem_of_app. right. now apply list_elem_of_singleton.
Qed.

Lemma linv_start s k q i0 i1 i2 d :
  linv s -> t_queue (s_thr s) !! k = Some q -> rw_start (q_b q) (q_no q) (q_write q) (s_drv s) = Ok (Some (i0, i1, i2)) d ->
  linv (stretch d (s_block s) (s_data s) (s_seen s)
    (<[i0 := Flight (q_b q) (q_no q) (q_write q) i1 i2 (if q_write q then s_data s (q_b q) else s_block s (q_no q)) Avail]> (s_fl s))
    (sleep_buf i0 true (set_queue (delete k (t_queue (s_thr s))) (s_thr s)))).
Proof.
  intros [Hv [Hn Hst Hu] [Ha Hf Hr Hi Hp]] Hk E. set (f := Flight _ _ _ _ _ _ Avail).
  assert (vinv (Sys d (s_block s) (s_data s) (s_seen s) (<[i0 := f]> (s_fl s)) (s_thr s))) as Hv'.
  { apply (inv_start s _ _ _ _ _ _ d _ Hv); [intros i g; exact (Hi k q i g Hk)|exact (Hr k q Hk)|done]. }
  destruct (rw_start_regs _ _ _ _ _ _ _ _ E) as (Rn & Rs & Ru & Rr & Hfree).
  split; [exact (vinv_regs _ _ _ Hv')|split; cbn; [auto|now rewrite Rs|now rewrite Ru, Rr]|]. clear Hv' E.
  apply (tinv_wake _ (<[i0 := f]> (s_fl s)) (<[i0 := f]> (s_fl s)) (v_free (s_drv s))).
  - split; cbn.
    + intros i g [[<- <-]|[Hne Hg]]%lookup_insert_Some; [done|]. intros Hs. rewrite fn_lookup_insert_ne by done. eauto.
    + intros k0 q0 [_ H]%lookup_delete_Some. eauto.
    + intros k0 q0 [_ H]%lookup_delete_Some. eauto.
    + intros k0 q0 i g [Hne H]%lookup_delete_Some [[<- <-]|[_ Hg]]%lookup_insert_Some; [exact (Hp k q k0 q0 Hk H Hne)|eauto].
    + intros k0 q0 k1 q1 [_ H]%lookup_delete_Some [_ H']%lookup_delete_Some. eauto.
  - intros i g [[<- <-]|[Hne Hg]]%lookup_insert_Some; [done|]. intros Hs. left. cbn. rewrite fn_lookup_insert_ne by done. eauto.
  - intros H. left. apply (few_less _ _ H). exact Hfree.
  - eauto.
Qed.

Lemma linv_full s k q d :
  linv s -> t_queue (s_thr s) !! k = Some q -> rw_start (q_b q) (q_no q) (q_write q) (s_drv s) = Ok None d ->
  let s' := stretch d (s_block s) (s_data s) (s_seen s) (s_fl s) (s_thr s) in
  linv (with_thr (set_queue (<[k := Req (q_b q) (q_no q) (q_write q) true]> (t_queue (s_thr s'))) (s_thr s')) s').
Proof.
  intros [Hv [Hn Hst Hu] Ht] Hk E. pose proof (inv_full s _ _ _ d (s_thr s) Hv E) as Hv'.
  destruct (rw_start_ok (q_b q) (q_no q) (q_write q) (s_drv s)) as [(d' & E' & Hsu & Hfew)|(? & ? & ? & E' & _)]; rewrite E in E'; [|done].
  injection E' as <-. assert (few (v_free d)) as Hfd by (apply (few_less _ _ Hfew); intros j; now rewrite (su_free _ _ Hsu)).
  split; [exact (vinv_regs _ _ _ Hv')|destruct Hsu; split; cbn; rewrite ?su_avail_idx0, ?su_notify0, ?su_status0, ?su_used_idx0, ?su_used_ring_idx0; assumption|].
  apply (tinv_queue _ _ _ k (wake_queue (g_woken (v_regs d)) q)); [|cbn; now rewrite lookup_fmap, Hk|done..].
  apply (tinv_wake _ (s_fl s) (s_fl s) (v_free (s_drv s))); [done| |auto|eauto].
  intros i f Hi Hs. left. exact (ti_awake _ _ _ Ht i f Hi Hs).
Qed.

Lemma intr_ack_ok s :
  linv s -> exists d, intr_ack (s_drv s) = Ok tt d /\ d = put_regs (VRegs (g_notify (v_regs (s_drv s))) 0 (g_woken (v_regs (s_drv s)))) (s_drv s).
Proof.
  intros [_ [_ Hst _] _]. eexists. split; [reflexivity|]. unfold put_ack. now destruct Hst as [->|[-> _]].
Qed.

(** The channels of the requests that are done are woken. *)
Lemma seen_woken s l d i f :
  vinv s -> lists (s_fl s) Done l -> seen l (s_drv s) d -> s_fl s !! i = Some f -> f_phase f = Done -> BufChan (f_b f) ∈ g_woken (v_regs d).
Proof.
  intros Hv Hl Hse Hi Hp. rewrite (se_regs _ _ _ Hse). cbn. apply elem_of_app. right. apply list_elem_of_fmap_2.
  now apply (seen_buf s l i f Hv Hl Hi).
Qed.

Lemma linv_intr s d :
  linv s -> intr_used (s_drv s) = Ok tt d ->
  linv (stretch d (s_block s) (s_data s) (s_seen s) (see_done <$> s_fl s) (set_irq (t_irq (s_thr s)) false (s_thr s))).
Proof.
  intros [Hv [Hn Hst Hu] Ht] E. pose proof (inv_intr s d (s_thr s) Hv E) as Hv'.
  destruct (intr_ok s Hv) as (l & d' & Hl & E' & Hse). rewrite E in E'. injection E' as <-.
  split; [exact (vinv_regs _ _ _ Hv')| |].
  - destruct Hse. split; cbn; rewrite ?se_regs0, ?se_avail_idx0; cbn; try done.
    intros Hne. destruct se_window0 as [Hfrom Hto _]. destruct Hne. rewrite Hto. cbn. unfold u16. rewrite Z.add_0_r, Z.mod_small; [done|lia].
  - apply (tinv_wake _ (s_fl s) (see_done <$> s_fl s) (v_free (s_drv s))); [destruct Ht; now split|..].
    + intros i g (f & Hi & [[Hp ->]|[Hp ->]])%see_done_Some Hs; [right; exact (seen_woken s l d i f Hv Hl Hse Hi Hp)|left].
      exact (ti_awake _ _ _ Ht i f Hi Hs).
    + intros H. left. cbn [s_drv stretch put_regs v_free]. now rewrite (se_free _ _ _ Hse).
    + intros i g (f & Hi & [[Hp ->]|[Hp ->]])%see_done_Some; eauto.
Qed.

Lemma linv_finish s i f d :
  linv s -> s_fl s !! i = Some f -> v_bdisk (s_drv s) (f_b f) = 0 -> rw_end i (s_drv s) = Ok tt d ->
  linv (stretch d (s_block s) (s_data s) (s_seen s) (delete i (s_fl s)) (s_thr s)).
Proof.
  intros [Hv [Hn Hst Hu] Ht] Hi Hb E. pose proof (inv_finish s i f d (s_thr s) Hv Hi Hb E) as Hv'.
  destruct (rw_end_regs s i f d Hv Hi E) as (Rn & Rs & Ra & Ru & Rr & Hw).
  split; [exact (vinv_regs _ _ _ Hv')|split; cbn; [now rewrite Ra, Rn|now rewrite Rs|now rewrite Ru, Rr]|]. clear Hv' E.
  apply (tinv_wake _ (s_fl s) (delete i (s_fl s)) (v_free (s_drv s))); [done|..].
  - intros j g [_ Hj]%lookup_delete_Some Hs. left. exact (ti_awake _ _ _ Ht j g Hj Hs).
  - intros _. right. exact Hw.
  - intros j g [_ Hj]%lookup_delete_Some. eauto.
Qed.

Lemma linv_serve s h f d bl da :
  device -> linv s -> s_fl s !! h = Some f -> f_phase f = Taken -> serve h s = Some (d, bl, da) ->
  linv (Sys d bl da (s_seen s) (<[h := set_phase Done f]> (s_fl s))
    (set_irq (t_irq (s_thr s) || (g_status (v_regs (s_drv s)) =? 0)) (t_handler (s_thr s)) (s_thr s))).
Proof.
  intros Hdev [Hv [Hn Hst Hu] Ht] Hh Hp E. pose proof (inv_serve s h f d bl da (s_thr s) Hdev Hv Hh Hp E) as Hv'.
  rewrite (serve_ok s h f Hdev Hv Hh Hp) in E. injection E as <- <- <-. split; cbn [s_drv s_seen s_thr s_fl].
  - destruct Hv'. now split.
  - split; cbn; [done|..]; destruct Hst as [->|[-> ->]]; cbn; rewrite ?orb_true_r; auto.
  - destruct (tinv_phase _ _ _ h f Done Ht Hh ltac:(done)). now split.
Qed.

Lemma linv_take s h f :
  linv s -> s_seen s <> v_avail_idx (s_drv s) -> h = v_avail_ring (s_drv s) (s_seen s mod NUM) -> s_fl s !! h = Some f ->
  linv (Sys (s_drv s) (s_block s) (s_data s) (u16 (s_seen s + 1)) (<[h := set_phase Taken f]> (s_fl s)) (s_thr s)).
Proof.
  intros [Hv [Hn Hst Hu] Ht] Hne Hh Hf. split; [now apply inv_take|split; auto|now apply tinv_phase].
Qed.

Lemma linv_wait s i f :
  linv s -> s_fl s !! i = Some f -> v_bdisk (s_drv s) (f_b f) = 1 -> linv (with_thr (sleep_buf i true (s_thr s)) s).
Proof.
  intros [Hv [] [Ha Hf Hr Hi Hp]] Hfl Hb. split; [destruct Hv; now split|now split|]. split; try done. cbn.
  intros j g Hj Hs. rewrite fn_lookup_insert_ne; [eauto|]. intros <-. rewrite Hfl in Hj. injection Hj as <-.
  pose proof (fm_bdisk _ _ _ (vi_form _ Hv i f Hfl)) as Hbd. rewrite decide_True in Hbd by done. lia.
Qed.
(** The driver as [virtio_disk_init] leaves it, with any disk and buffers. *)
Definition sys_init (bl da : Z -> D) : sys := Sys disk_init bl da 0 ∅ (Threads (fun _ => false) ∅ false false).

Lemma vinv_init bl da : vinv (sys_init bl da).
Proof.
  split; cbn; [split; cbn|..]; try (intros *; rewrite lookup_empty; discriminate).
  - intros k. rewrite andb_true_iff, Z.leb_le, Z.ltb_lt. split; [|tauto]. intros H. split; [done|]. intros i f. now rewrite lookup_empty.
  - exists []. split; [split; done|]. split; [apply NoDup_nil_2|]. intros i. rewrite lookup_empty. set_solver.
  - exists []. split; [split; done|]. split; [apply NoDup_nil_2|]. intros i. rewrite lookup_empty. set_solver.
Qed.

Lemma linv_init bl da : linv (sys_init bl da).
Proof.
  split; [apply vinv_init|split; cbn; auto; done|]. split; cbn; try (intros *; rewrite lookup_empty; discriminate).
Qed.

Lemma linv_step s s' : device -> linv s -> vstep s s' -> linv s'.
Proof.
  intros Hdev Hi Hst. destruct Hst.
  - now apply linv_call.
  - now apply linv_start.
  - now apply linv_full.
  - now apply linv_take.
  - destruct Hi as [Hv [Hn Hst Hu] Ht]. split; [exact (vinv_regs _ _ _ Hv)|split; cbn; [congruence|done..]|exact Ht].
  - now apply linv_serve.
  - destruct (intr_ack_ok s Hi) as (d' & E & Hd'). rewrite E in H1. injection H1 as <-. rewrite Hd'. destruct Hi as [Hv [Hn Hst Hu] Ht].
    split; [exact (vinv_regs _ _ _ Hv)|split; cbn; auto|destruct Ht; now split].
  - now apply linv_intr.
  - now apply (linv_wait s i f).
  - now apply (linv_finish s i f).
  - destruct Hi as [Hv [] Ht]. split; [now apply inv_modify|now split|exact Ht].
Qed.

Lemma linv_early s s' : linv s -> early s s' -> linv s'.
Proof.
  intros Hl He. destruct He as [s i|s k q Hk], Hl as [Hv [] Ht]; (split; [destruct Hv; now split|now split|]);
    [|now apply (tinv_queue _ _ _ k q)].
  destruct Ht as [Ha Hf Hr Hi Hp]. split; try done. intros j g Hj Hs. cbn. unfold insert, fn_insert. case_decide; eauto.
Qed.

Lemma linv_reachable bl da s : device -> rtc anystep (sys_init bl da) s -> linv s.
Proof.
  intros Hdev H. pose proof (linv_init bl da) as Hi. revert Hi. induction H as [|a b c Hs _ IH]; [done|].
  intros Hi. apply IH. destruct Hs as [Hs|Hs]; [exact (linv_step _ _ Hdev Hi Hs)|exact (linv_early _ _ Hi Hs)].
Qed.

Lemma linv_steps s s' : device -> linv s -> rtc vstep s s' -> linv s'.
Proof. intros Hdev Hi Hr. induction Hr as [|a b c Hs _ IH]; [done|]. apply IH. exact (linv_step _ _ Hdev Hi Hs). Qed.

(** ** Every request can finish *)

(** The steps left in all. *)
Definition steps_left (p : phase) : nat := match p with Avail => 4 | Taken => 3 | Done => 2 | Seen => 1 end.
Definition work (m : gmap Z flight) : nat := map_fold (fun _ f n => (steps_left (f_phase f) + n)%nat) 0%nat m.

Lemma work_delete m i f : m !! i = Some f -> work m = (steps_left (f_phase f) + work (delete i m))%nat.
Proof. intros Hi. unfold work. apply (map_fold_delete_L (fun _ f n => (steps_left (f_phase f) + n)%nat)); [|done]. intros. lia. Qed.

Lemma work_insert m i f : m !! i = None -> work (<[i := f]> m) = (steps_left (f_phase f) + work m)%nat.
Proof. intros Hi. unfold work. apply (map_fold_insert_L (fun _ f n => (steps_left (f_phase f) + n)%nat)); [|done]. intros. lia. Qed.

Lemma work_move m i f g :
  m !! i = Some f -> (steps_left (f_phase g) < steps_left (f_phase f))%nat -> (work (<[i := g]> m) < work m)%nat.
Proof.
  intros Hi Hlt. rewrite <- insert_delete_eq, work_insert by apply lookup_delete_eq. rewrite (work_delete m i f Hi). lia.
Qed.

Lemma work_see_le m : (work (see_done <$> m) <= work m)%nat.
Proof.
  induction m as [|i f m Hi IH] using map_ind; [done|]. rewrite fmap_insert, !work_insert by (rewrite ?lookup_fmap, ?Hi; done).
  assert (steps_left (f_phase (see_done f)) <= steps_left (f_phase f))%nat; [|lia]. unfold see_done. case_decide as E; [|lia]. rewrite E. cbn. lia.
Qed.

Lemma work_see m i f : m !! i = Some f -> f_phase f = Done -> (work (see_done <$> m) < work m)%nat.
Proof.
  intros Hi Hp. rewrite (work_delete m i f Hi), Hp. rewrite (work_delete (see_done <$> m) i (see_done f)) by (now rewrite lookup_fmap, Hi).
  rewrite <- fmap_delete. pose proof (work_see_le (delete i m)). unfold see_done at 1. rewrite decide_True by done. cbn. lia.
Qed.

(** The handler, once it has been entered, returns. *)
Lemma settle s :
  linv s -> exists s', rtc vstep s s' /\ t_handler (s_thr s') = false /\ dom (t_queue (s_thr s')) = dom (t_queue (s_thr s)).
Proof.
  intros Hi. destruct (t_handler (s_thr s)) eqn:Hh; [|exists s; split; [apply rtc_refl|done]].
  destruct (intr_ok s (li_v _ Hi)) as (l & d & _ & E & _). eexists. split; [exact (rtc_once _ _ (v_intr s d Hh E))|].
  split; [reflexivity|]. cbn. apply dom_fmap_L.
Qed.

(** A request in the used ring has an interrupt pending, and the handler sees it. *)
Lemma done_progress s i f :
  device -> linv s -> t_handler (s_thr s) = false -> s_fl s !! i = Some f -> f_phase f = Done ->
  exists s', rtc vstep s s' /\ t_handler (s_thr s') = false /\ dom (t_queue (s_thr s')) = dom (t_queue (s_thr s)) /\
    s_fl s' = see_done <$> s_fl s.
Proof.
  intros Hdev Hl Hh Hi Hp. assert (t_irq (s_thr s) = true) as Hirq.
  { destruct (ri_used _ _ _ (li_r _ Hl)) as [|H]; [|done|congruence]. destruct (li_v _ Hl) as [Hs _ _ _ (l & Hw & Hd)].
    pose proof (window_empty _ _ _ _ Hw (lists_short _ _ _ _ Hs Hd)) as He. destruct l; [|now apply Z.eqb_neq].
    destruct (not_elem_of_nil i). apply Hd. eauto. }
  destruct (intr_ack_ok s Hl) as (d & E & _). pose proof (v_ack s d Hirq Hh E) as Hst. clear E.
  set (s1 := Sys d _ _ _ _ _) in Hst. pose proof (linv_step _ _ Hdev Hl Hst) as Hl1.
  destruct (intr_ok s1 (li_v _ Hl1)) as (l & d1 & _ & E1 & _).
  eexists. split; [eapply rtc_l; [exact Hst|]; exact (rtc_once _ _ (v_intr s1 d1 eq_refl E1))|].
  split; [reflexivity|]. split; [cbn; apply dom_fmap_L|reflexivity].
Qed.

(** While a request is in flight, some steps bring one nearer to its end. *)
Lemma work_progress s i f :
  device -> linv s -> t_handler (s_thr s) = false -> s_fl s !! i = Some f ->
  exists s', rtc vstep s s' /\ t_handler (s_thr s') = false /\ dom (t_queue (s_thr s')) = dom (t_queue (s_thr s)) /\
    (work (s_fl s') < work (s_fl s))%nat.
Proof.
  intros Hdev Hl Hh Hi. pose proof (li_v _ Hl) as Hinv. destruct (f_phase f) eqn:Hp.
  - assert (s_seen s <> v_avail_idx (s_drv s)) as Hne.
    { destruct Hinv as [Hs _ _ (l & Hw & Ha) _]. pose proof (window_empty _ _ _ _ Hw (lists_short _ _ _ _ Hs Ha)) as He.
      destruct l; [|now apply Z.eqb_neq]. destruct (not_elem_of_nil i). apply Ha. eauto. }
    destruct (avail_head s Hinv Hne) as (l & g & _ & _ & Hg & Hpg). eexists.
    split; [exact (rtc_once _ _ (v_take s _ g (ri_notify _ _ _ (li_r _ Hl) Hne) Hne eq_refl Hg))|]. do 2 (split; [done|]).
    apply (work_move _ _ g); [done|]. rewrite Hpg. cbn. lia.
  - pose proof (serve_ok s i f Hdev Hinv Hi Hp) as E. eexists. split; [exact (rtc_once _ _ (v_serve s i f _ _ _ Hi Hp E))|].
    do 2 (split; [done|]). apply (work_move _ _ f); [done|]. rewrite Hp. cbn. lia.
  - destruct (done_progress s i f Hdev Hl Hh Hi Hp) as (s' & Hr & Hh' & Hd & Hfl). exists s'. do 3 (split; [done|]).
    rewrite Hfl. exact (work_see _ i f Hi Hp).
  - assert (v_bdisk (s_drv s) (f_b f) = 0) as Hb by now rewrite (fm_bdisk _ _ _ (vi_form _ Hinv i f Hi)), decide_True.
    eexists. split; [exact (rtc_once _ _ (v_finish s i f _ Hi (ti_awake _ _ _ (li_t _ Hl) i f Hi Hp) Hh Hb (rw_end_ok s i f Hinv Hi)))|].
    split; [done|]. split; [cbn; apply dom_fmap_L|]. cbn. rewrite (work_delete _ i f Hi), Hp. cbn. lia.
Qed.

Lemma drain_flight s :
  device -> linv s -> t_handler (s_thr s) = false ->
  exists s', rtc vstep s s' /\ t_handler (s_thr s') = false /\ dom (t_queue (s_thr s')) = dom (t_queue (s_thr s)) /\ s_fl s' = ∅.
Proof.
  intros Hdev. remember (work (s_fl s)) as n eqn:Hn. revert s Hn. induction n as [n IH] using lt_wf_ind. intros s -> Hl Hh.
  destruct (decide (s_fl s = ∅)) as [E|E]; [exists s; split; [apply rtc_refl|done]|].
  apply map_choose in E as (i & f & Hi). destruct (work_progress s i f Hdev Hl Hh Hi) as (s1 & Hst & Hh1 & Hd1 & Hlt).
  destruct (IH _ Hlt s1 eq_refl (linv_steps _ _ Hdev Hl Hst) Hh1) as (s' & Hr & Hh' & Hd' & He). exists s'.
  split; [exact (transitivity Hst Hr)|]. split; [done|]. split; [congruence|done].
Qed.

(** With no request in flight, all descriptors are free. *)
Lemma none_few s : vinv s -> s_fl s = ∅ -> ~ few (v_free (s_drv s)).
Proof.
  intros [Hs _ _ _ _] He Hf. apply (Hf [0; 1; 2]); [repeat constructor; set_solver|done|].
  intros k Hk. assert (0 <= k < NUM) as Hr by (unfold NUM; set_solver by lia). split; [done|].
  apply (vi_free _ _ Hs). split; [done|]. intros i f. now rewrite He, lookup_empty.
Qed.

(** A thread that waits for descriptors then makes its request. *)
Lemma start_progress s k q :
  device -> linv s -> t_handler (s_thr s) = false -> s_fl s = ∅ -> t_queue (s_thr s) !! k = Some q ->
  exists s', vstep s s' /\ t_handler (s_thr s') = false /\ dom (t_queue (s_thr s')) = dom (t_queue (s_thr s)) ∖ {[k]}.
Proof.
  intros Hdev Hl Hh He Hk. pose proof (none_few s (li_v _ Hl) He) as Hn.
  assert (q_asleep q = false) as Hq by (apply not_true_is_false; intros H; exact (Hn (ti_few _ _ _ (li_t _ Hl) k q Hk H))).
  destruct (rw_start_ok (q_b q) (q_no q) (q_write q) (s_drv s)) as [(d & _ & _ & Hf)|(i0 & i1 & i2 & E & _)]; [destruct (Hn Hf)|].
  eexists. split; [exact (v_start s k q i0 i1 i2 _ Hk Hq Hh E)|]. clear E. split; [done|]. cbn. now rewrite dom_fmap_L, dom_delete_L.
Qed.

Lemma drain s : device -> linv s -> exists s', rtc vstep s s' /\ s_fl s' = ∅ /\ t_queue (s_thr s') = ∅.
Proof.
  intros Hdev Hl. destruct (settle s Hl) as (s0 & Hr0 & Hh0 & _). pose proof (linv_steps _ _ Hdev Hl Hr0) as Hl0.
  assert (exists s', rtc vstep s0 s' /\ s_fl s' = ∅ /\ t_queue (s_thr s') = ∅) as (s' & Hr & H).
  2: { exists s'. split; [exact (transitivity Hr0 Hr)|done]. }
  clear s Hl Hr0. remember (size (dom (t_queue (s_thr s0)))) as n eqn:Hn. revert s0 Hn Hh0 Hl0.
  induction n as [n IH] using lt_wf_ind. intros s -> Hh Hl.
  destruct (drain_flight s Hdev Hl Hh) as (s1 & Hr1 & Hh1 & Hd1 & He1). pose proof (linv_steps _ _ Hdev Hl Hr1) as Hl1.
  destruct (decide (t_queue (s_thr s1) = ∅)) as [Eq|Eq]; [eauto|]. apply map_choose in Eq as (k & q & Hk).
  destruct (start_progress s1 k q Hdev Hl1 Hh1 He1 Hk) as (s2 & Hst & Hh2 & Hd2).
  destruct (IH (size (dom (t_queue (s_thr s2))))) with (s0 := s2) as (s' & Hr & H);
    [|reflexivity|done|exact (linv_step _ _ Hdev Hl1 Hst)|].
  - rewrite Hd2, <- Hd1. apply subset_size, (strict_spec_alt _ _). split; [set_solver|]. intros E.
    assert (k ∈ dom (t_queue (s_thr s1))) as Hin by (apply elem_of_dom; eauto). rewrite <- E in Hin. set_solver.
  - exists s'. split; [exact (transitivity Hr1 (rtc_l _ _ _ _ Hst Hr))|done].
Qed.

Lemma intr_whole s :
  linv s -> exists l d, lists (s_fl s) Done l /\ virtio_disk_intr (s_drv s) = Ok tt d /\ g_status (v_regs d) = 0 /\
    (forall b, v_bdisk d b = if decide (b ∈ v_info_b (s_drv s) <$> l) then 0 else v_bdisk (s_drv s) b) /\
    forall b, b ∈ v_info_b (s_drv s) <$> l -> BufChan b ∈ g_woken (v_regs d).
Proof.
  intros Hl. destruct (intr_ack_ok s Hl) as (d0 & E0 & Hd0). set (r := VRegs _ 0 _) in Hd0.
  pose proof (vinv_regs s r (s_thr s) (li_v _ Hl)) as Hv0. rewrite <- Hd0 in Hv0.
  destruct (intr_ok _ Hv0) as (l & d & Hdone & E & Hse). exists l, d. split; [done|].
  split; [unfold virtio_disk_intr; now rewrite (bind_ok _ _ _ _ _ E0)|]. cbn [s_drv] in Hse. clear E E0 Hv0. subst d0.
  split; [now rewrite (se_regs _ _ _ Hse)|]. split; [exact (se_bdisk _ _ _ Hse)|].
  intros b Hb. rewrite (se_regs _ _ _ Hse). cbn. apply elem_of_app. right. now apply list_elem_of_fmap_2.
Qed.

(** C39: with any interleaving of callers, device steps, interrupts, sleeps and
    wakeups, early ones included: the interrupt handler ends without a panic, has
    acknowledged the interrupt, and clears [b->disk] and wakes the thread of every
    request in the used ring; the device understands every request it has taken;
    when [b->disk] is 0 the buffer and the block hold the data that was to be
    transferred, whatever else was in flight, the request's thread is not asleep,
    and the rest of [virtio_disk_rw] returns the request's descriptors; a caller
    sleeps for descriptors only while fewer than three are free; and from every
    state, with the device working only when notified, interrupts only when
    signalled and threads going on only when woken, every call of
    [virtio_disk_rw] can finish, those that wait for descriptors included. *)
Theorem disk_requests_complete bl da s :
  device -> rtc anystep (sys_init bl da) s ->
  (exists d, virtio_disk_intr (s_drv s) = Ok tt d /\ g_status (v_regs d) = 0 /\
     forall i f, s_fl s !! i = Some f -> f_phase f = Done -> v_bdisk d (f_b f) = 0 /\ BufChan (f_b f) ∈ g_woken (v_regs d)) /\
  (forall i f, s_fl s !! i = Some f -> f_phase f = Taken -> is_Some (serve i s)) /\
  (forall i f, s_fl s !! i = Some f -> v_bdisk (s_drv s) (f_b f) = 0 ->
     s_data s (f_b f) = f_data f /\ s_block s (f_no f) = f_data f /\ t_asleep (s_thr s) i = false /\
     exists d, rw_end i (s_drv s) = Ok tt d /\ forall k, k ∈ descs i f -> v_free d k = true) /\
  (forall k q, t_queue (s_thr s) !! k = Some q -> q_asleep q = true -> few (v_free (s_drv s))) /\
  (exists s', rtc vstep s s' /\ s_fl s' = ∅ /\ t_queue (s_thr s') = ∅).
Proof.
  intros Hdev Hr. pose proof (linv_reachable bl da s Hdev Hr) as Hl. pose proof (li_v _ Hl) as Hinv.
  split; [|split; [|split; [|split]]].
  - destruct (intr_whole s Hl) as (l & d & Hd & E & Hs & Hb & Hw). exists d. split; [done|]. split; [done|]. intros i f Hi Hp.
    pose proof (proj2 (seen_buf s l i f Hinv Hd Hi) Hp) as Hin. rewrite Hb, decide_True by done. auto.
  - intros i f Hi Hp. rewrite (serve_ok s i f Hdev Hinv Hi Hp). eauto.
  - intros i f Hi Hb. pose proof (vi_data _ Hinv i f Hi) as Ht. unfold transferred in Ht. pose proof (seen_phase s i f Hinv Hi Hb) as Hp.
    rewrite Hp in Ht. destruct Ht as [H1 H2]. do 2 (split; [done|]). split; [exact (ti_awake _ _ _ (li_t _ Hl) i f Hi Hp)|].
    exists (ended i f (s_drv s)). split; [exact (rw_end_ok s i f Hinv Hi)|].
    intros k Hk. unfold ended, descs in *. rewrite !cleared_free. repeat case_decide; set_solver.
  - exact (ti_few _ _ _ (li_t _ Hl)).
  - now apply drain.
Qed.
End device.

(** ** A device *)

(** A device that carries out the requests one reads from the header's type. *)
Definition demo_serve (h : Z) (s : @sys Z) : option (disk * (Z -> Z) * (Z -> Z)) :=
  let d := s_drv s in
  let d0 := v_desc d h in
  let d1 := v_desc d (d_next d0) in
  let d2 := v_desc d (d_next d1) in
  match d_addr d0, d_addr d1, d_addr d2 with
  | AReq i, AData b, AStatus j =>
      let r := v_ops d i in
      let no := rq_sector r / 2 in
      let d' := raise 1 (put_used h (put_status j 0 d)) in
      if rq_type r =? VIRTIO_BLK_T_OUT then Some (d', <[no := s_data s b]> (s_block s), s_data s)
      else Some (d', s_block s, <[b := s_block s no]> (s_data s))
  | _, _, _ => None
  end.

Lemma demo_device : device demo_serve.
Proof.
  split; intros h s i b j i1 i2 no H0 H1 H2 Hop; unfold demo_serve; rewrite H0; cbn [d_next d_addr]; rewrite H1; cbn [d_next d_addr];
    rewrite H2; cbn [d_next d_addr]; rewrite Hop; cbn; now rewrite Z.div_mul.
Qed.

(** Three threads call the driver: buffer 1 is to be written to block 5, buffer 2
    read from block 9, and buffer 3 read from block 7; the third finds too few
    descriptors.  The device takes two requests and carries out the second. *)
Definition demo_write (p : phase) : flight := Flight 1 5 true 1 2 1 p.
Definition demo_read (p : phase) : flight := Flight 2 9 false 4 5 109 p.
Definition demo_reqs (k : Z) : request := if k =? 1 then Req 1 5 true false else if k =? 2 then Req 2 9 false false else Req 3 7 false false.
Definition demo_0 : @sys Z := sys_init (fun no => 100 + no) (fun b => b).
Definition demo_call (k : Z) (s : @sys Z) : sys := with_thr (set_queue (<[k := demo_reqs k]> (t_queue (s_thr s))) (s_thr s)) s.
Definition demo_3 : sys := demo_call 3 (demo_call 2 (demo_call 1 demo_0)).
Definition demo_4 : sys :=
  stretch (requested 0 1 2 1 5 true (s_drv demo_3)) (s_block demo_3) (s_data demo_3) 0 (<[0 := demo_write Avail]> (s_fl demo_3))
    (sleep_buf 0 true (set_queue (delete 1 (t_queue (s_thr demo_3))) (s_thr demo_3))).
Definition demo_5 : sys :=
  stretch (requested 3 4 5 2 9 false (s_drv demo_4)) (s_block demo_4) (s_data demo_4) 0 (<[3 := demo_read Avail]> (s_fl demo_4))
    (sleep_buf 3 true (set_queue (delete 2 (t_queue (s_thr demo_4))) (s_thr demo_4))).
Definition demo_short : disk := cleared 7 (cleared 6 (put_free 7 false (put_free 6 false (s_drv demo_5)))).
Definition demo_6 : sys :=
  let s' := stretch demo_short (s_block demo_5) (s_data demo_5) 0 (s_fl demo_5) (s_thr demo_5) in
  with_thr (set_queue (<[3 := Req 3 7 false true]> (t_queue (s_thr s'))) (s_thr s')) s'.
Definition demo_7 : sys := Sys (s_drv demo_6) (s_block demo_6) (s_data demo_6) 1 (<[0 := demo_write Taken]> (s_fl demo_6)) (s_thr demo_6).
Definition demo_8 : sys := Sys (s_drv demo_7) (s_block demo_7) (s_data demo_7) 2 (<[3 := demo_read Taken]> (s_fl demo_7)) (s_thr demo_7).
Definition demo_9 : sys :=
  Sys (raise 1 (put_used 3 (put_status 3 0 (s_drv demo_8)))) (s_block demo_8) (<[2 := s_block demo_8 9]> (s_data demo_8)) 2
    (<[3 := demo_read Done]> (s_fl demo_8)) (set_irq true false (s_thr demo_8)).

(** The handler acknowledges and sees the read, while the write is with the device. *)
Definition demo_10 : sys := Sys (put_ack 1 (s_drv demo_9)) (s_block demo_9) (s_data demo_9) 2 (s_fl demo_9) (set_irq false true (s_thr demo_9)).
Definition demo_11 : sys :=
  stretch (see_all [3] (s_drv demo_10)) (s_block demo_10) (s_data demo_10) 2 (see_done <$> s_fl demo_10) (set_irq false false (s_thr demo_10)).

Lemma demo_calls : rtc (anystep demo_serve) demo_0 demo_3.
Proof.
  apply (rtc_l _ _ (demo_call 1 demo_0)).
  { left. apply (v_call demo_serve demo_0 1 1 5 true); [done|lia|intros i f Hf; cbn in Hf; now rewrite lookup_empty in Hf|].
    intros k q Hq. cbn in Hq. now rewrite lookup_empty in Hq. }
  apply (rtc_l _ _ (demo_call 2 (demo_call 1 demo_0))).
  { left. apply (v_call demo_serve (demo_call 1 demo_0) 2 2 9 false); [done|lia|intros i f Hf; cbn in Hf; now rewrite lookup_empty in Hf|].
    intros k q Hq. cbn in Hq. apply lookup_insert_Some in Hq as [[_ <-]|[_ Hq]]; [cbn; lia|now rewrite lookup_empty in Hq]. }
  apply rtc_once. left.
  apply (v_call demo_serve (demo_call 2 (demo_call 1 demo_0)) 3 3 7 false); [done|lia|intros i f Hf; cbn in Hf; now rewrite lookup_empty in Hf|].
  intros k q Hq. cbn in Hq. apply lookup_insert_Some in Hq as [[_ <-]|[_ Hq]]; [cbn; lia|].
  apply lookup_insert_Some in Hq as [[_ <-]|[_ Hq]]; [cbn; lia|now rewrite lookup_empty in Hq].
Qed.

Lemma demo_run : rtc (anystep demo_serve) demo_0 demo_9.
Proof.
  refine (transitivity demo_calls _).
  apply (rtc_l _ _ demo_4); [left; apply (v_start demo_serve demo_3 1 (demo_reqs 1) 0 1 2); vm_compute; reflexivity|].
  apply (rtc_l _ _ demo_5); [left; apply (v_start demo_serve demo_4 2 (demo_reqs 2) 3 4 5); vm_compute; reflexivity|].
  apply (rtc_l _ _ demo_6); [left; apply (v_full demo_serve demo_5 3 (demo_reqs 3) demo_short); vm_compute; reflexivity|].
  apply (rtc_l _ _ demo_7); [left; apply (v_take demo_serve demo_6 0 (demo_write Avail)); [reflexivity|discriminate|vm_compute; reflexivity..]|].
  apply (rtc_l _ _ demo_8); [left; apply (v_take demo_serve demo_7 3 (demo_read Avail)); [reflexivity|discriminate|vm_compute; reflexivity..]|].
  apply rtc_once. left. apply (v_serve demo_serve demo_8 3 (demo_read Taken)); vm_compute; reflexivity.
Qed.

Lemma demo_handled : rtc (anystep demo_serve) demo_0 demo_11.
Proof.
  refine (transitivity demo_run _). apply (rtc_l _ _ demo_10).
  - left. apply (v_ack demo_serve demo_9); vm_compute; reflexivity.
  - apply rtc_once. left. apply (v_intr demo_serve demo_10); vm_compute; reflexivity.
Qed.

(** The read's thread is awake with its data, the third caller sleeps with too few
    descriptors, and all three calls can finish. *)
Lemma disk_requests_complete_witness :
  (exists d, virtio_disk_intr (s_drv demo_9) = Ok tt d /\ v_bdisk d 2 = 0) /\
  s_data demo_11 2 = 109 /\ t_asleep (s_thr demo_11) 3 = false /\ is_Some (demo_serve 0 demo_11) /\ few (v_free (s_drv demo_11)) /\
  exists s', rtc (vstep demo_serve) demo_11 s' /\ s_fl s' = ∅ /\ t_queue (s_thr s') = ∅.
Proof.
  destruct (disk_requests_complete demo_serve _ _ _ demo_device demo_run) as ((d & Ed & _ & Hd) & _).
  destruct (disk_requests_complete demo_serve _ _ _ demo_device demo_handled) as (_ & H2 & H3 & H4 & H5).
  split; [exists d; split; [exact Ed|exact (proj1 (Hd 3 (demo_read Done) eq_refl eq_refl))]|].
  destruct (H3 3 (demo_read Seen) eq_refl eq_refl) as (Hdata & _ & Hup & _).
  split; [exact Hdata|]. split; [exact Hup|]. split; [exact (H2 0 (demo_write Taken) eq_refl eq_refl)|].
  split; [exact (H4 3 (Req 3 7 false true) eq_refl eq_refl)|exact H5].
Defined.
