(* ===== verification/Umalloc.v ===== *)
(** * user/umalloc.c

    The allocator of the user library.  Pointers are byte addresses and a header
    takes 16 bytes; a memory is what a header at each address holds.  The system
    call [sbrk] is a parameter: whether the kernel grants a change of the break.
    The loops take fuel; the theorem says how much is enough. *)

From stdpp Require Import base list numbers functions sorting.
From S2P Require Import Prelude.

Open Scope Z_scope.

Record header := Hdr { h_ptr : Z; h_size : Z }.

(** [sizeof(Header)]. *)
Definition HDR : Z := 16.

Record um := Um { m_hdr : Z -> header; m_freep : Z; m_brk : Z }.

Definition set_ptr (a p : Z) (s : um) : um := Um (<[a := Hdr p (h_size (m_hdr s a))]> (m_hdr s)) (m_freep s) (m_brk s).
Definition set_size (a n : Z) (s : um) : um := Um (<[a := Hdr (h_ptr (m_hdr s a)) n]> (m_hdr s)) (m_freep s) (m_brk s).
Definition set_freep (p : Z) (s : um) : um := Um (m_hdr s) p (m_brk s).

(** [p + n] for a pointer to a header. *)
Definition hplus (p n : Z) : Z := u64 (p + HDR * n).

Definition ptr (a : Z) : M um Z := gets (fun s => h_ptr (m_hdr s a)).
Definition size (a : Z) : M um Z := gets (fun s => h_size (m_hdr s a)).

(** The loop of [free]: the node after which [bp] goes. *)
Fixpoint free_find (fuel : nat) (bp p : Z) : M um Z :=
  match fuel with
  | O => diverge
  | S fuel' =>
      next ← ptr p;
      if (p <? bp) && (bp <? next) then mret p else
      if (next <=? p) && ((p <? bp) || (bp <? next)) then mret p else
      free_find fuel' bp next
  end.

(** [bp] joined to the block after it, or linked to it. *)
Definition join_next (bp p : Z) : M um unit :=
  next ← ptr p;
  bsize ← size bp;
  if hplus bp bsize =? next then
    nsize ← size next;
    modify (set_size bp (u32 (bsize + nsize)));;
    nnext ← ptr next;
    modify (set_ptr bp nnext)
  else modify (set_ptr bp next).

(** [bp] joined to the block before it, or linked from it. *)
Definition join_prev (bp p : Z) : M um unit :=
  psize ← size p;
  if hplus p psize =? bp then
    bsize ← size bp;
    modify (set_size p (u32 (psize + bsize)));;
    bnext ← ptr bp;
    modify (set_ptr p bnext)
  else modify (set_ptr p bp).

Definition free (fuel : nat) (ap : Z) : M um unit :=
  let bp := hplus ap (-1) in
  freep ← gets m_freep;
  p ← free_find fuel bp freep;
  join_next bp p;;
  join_prev bp p;;
  modify (set_freep p).

Section malloc.
(** The address of the static [base], and whether the kernel lets the break [b]
    grow by [n]. *)
Context (base : Z) (grow : Z -> Z -> bool).

(** The break before the call, or -1. *)
Definition sbrk (n : Z) : M um Z :=
  s ← gets (fun s => s);
  if grow (m_brk s) n then
    modify (fun s => Um (m_hdr s) (m_freep s) (m_brk s + n));;
    mret (m_brk s)
  else mret (u64 (-1)).

(** The argument of [sbrk] is an [int]. *)
Definition morecore (fuel : nat) (nu : Z) : M um Z :=
  let nu := if nu <? 4096 then 4096 else nu in
  p ← sbrk (i32 (nu * HDR));
  if p =? u64 (-1) then mret 0 else
  modify (set_size p nu);;
  free fuel (hplus p 1);;
  gets m_freep.

(** A large enough block [p] after [prevp]: all of it or its end. *)
Definition take_block (nunits prevp p : Z) : M um Z :=
  n ← size p;
  p ← (if n =? nunits then
         next ← ptr p;
         modify (set_ptr prevp next);;
         mret p
       else
         modify (set_size p (u32 (n - nunits)));;
         let p' := hplus p (u32 (n - nunits)) in
         modify (set_size p' nunits);;
         mret p');
  modify (set_freep prevp);;
  mret (hplus p 1).

(** The loop of [malloc]. *)
Fixpoint malloc_loop (ffuel fuel : nat) (nunits prevp p : Z) : M um Z :=
  match fuel with
  | O => diverge
  | S fuel' =>
      n ← size p;
      if nunits <=? n then take_block nunits prevp p else
      freep ← gets m_freep;
      if p =? freep then
        p ← morecore ffuel nunits;
        if p =? 0 then mret 0 else
        next ← ptr p;
        malloc_loop ffuel fuel' nunits p next
      else
        next ← ptr p;
        malloc_loop ffuel fuel' nunits p next
  end.

(** The empty list, the first time. *)
Definition malloc_init (s : um) : um :=
  if m_freep s =? 0 then set_size base 0 (set_freep base (set_ptr base base s)) else s.

Definition malloc (fuel : nat) (nbytes : Z) : M um Z :=
  let nunits := u32 ((nbytes + HDR - 1) / HDR + 1) in
  modify malloc_init;;
  prevp ← gets m_freep;
  p ← ptr prevp;
  malloc_loop fuel fuel nunits prevp p.

(** ** The blocks *)

(** A block is its address and its size in headers.  How many of the blocks [l]
    the byte [u] is in. *)
Definition inside (u : Z) (b : Z * Z) : bool := (b.1 <=? u) && (u <? b.1 + HDR * b.2).
Definition cover (l : list (Z * Z)) (u : Z) : nat := length (filter (fun b => inside u b = true) l).

(** [xs] is linked from [p] to [q]. *)
Fixpoint seg (h : Z -> header) (p : Z) (xs : list (Z * Z)) (q : Z) : Prop :=
  match xs with
  | [] => p = q
  | (a, n) :: xs' => p = a /\ h_size (h a) = n /\ seg h (h_ptr (h a)) xs' q
  end.

(** Blocks in the order of their addresses, from [e] on, with a gap before
    each. *)
Fixpoint chain (e : Z) (r : list (Z * Z)) (hi : Z) : Prop :=
  match r with
  | [] => e <= hi
  | (a, n) :: r' => e < a /\ 0 < n /\ chain (a + HDR * n) r' hi
  end.

(** What the user library may have of memory: its sizes are 32 bits. *)
Definition LIMIT : Z := 2^36.

(** The free blocks [r] are linked in a ring with [base], ordered and not
    adjacent; with the blocks [al] that have been handed out they are disjoint and
    below the break. *)
Record heap (s : um) (r al : list (Z * Z)) : Prop := Heap {
  hp_base : 0 < base;
  hp_brk : base + HDR <= m_brk s <= LIMIT;
  hp_ring : seg (m_hdr s) base ((base, 0) :: r) base;
  hp_freep : m_freep s ∈ base :: r.*1;
  hp_chain : chain (base + HDR - 1) r (m_brk s);
  hp_low b : b ∈ al -> base + HDR <= b.1 /\ 0 < b.2 /\ b.1 + HDR * b.2 <= m_brk s;
  hp_alloc a n : (a, n) ∈ al -> h_size (m_hdr s a) = n;
  hp_once u : (cover (r ++ al) u <= 1)%nat;
}.

(** ** Covering *)

Lemma cover_nil u : cover [] u = 0%nat.
Proof. done. Qed.

Lemma cover_app l1 l2 u : cover (l1 ++ l2) u = (cover l1 u + cover l2 u)%nat.
Proof. unfold cover. now rewrite filter_app, length_app. Qed.

Lemma cover_cons b l u : cover (b :: l) u = ((if inside u b then 1 else 0) + cover l u)%nat.
Proof. unfold cover. rewrite filter_cons. case_decide as E; [now rewrite E|]. apply not_true_is_false in E. now rewrite E. Qed.

Lemma cover_elem b l u : b ∈ l -> inside u b = true -> (1 <= cover l u)%nat.
Proof. intros (l1 & l2 & ->)%list_elem_of_split E. rewrite cover_app, cover_cons, E. lia. Qed.

Lemma inside_true u b : inside u b = true <-> b.1 <= u < b.1 + HDR * b.2.
Proof. unfold inside. rewrite andb_true_iff, Z.leb_le, Z.ltb_lt. done. Qed.

(** Two blocks next to each other cover what their union does. *)
Lemma inside_join u a n m : 0 <= n -> 0 <= m ->
  ((if inside u (a, n) then 1 else 0) + (if inside u (a + HDR * n, m)%Z then 1 else 0) = (if inside u (a, n + m)%Z then 1 else 0))%nat.
Proof. intros Hn Hm. unfold inside, HDR. cbn [fst snd]. repeat case_goal; zbool; lia. Qed.

(** Blocks that no byte is in twice are apart. *)
Lemma cover_apart l1 l2 b c :
  (forall u, (cover (l1 ++ l2) u <= 1)%nat) -> b ∈ l1 -> c ∈ l2 -> 0 < b.2 -> 0 < c.2 ->
  b.1 + HDR * b.2 <= c.1 \/ c.1 + HDR * c.2 <= b.1.
Proof.
  intros Hc Hb Hcl H1 H2. destruct (Z.le_gt_cases (b.1 + HDR * b.2) c.1) as [?|G1]; [now left|].
  destruct (Z.le_gt_cases (c.1 + HDR * c.2) b.1) as [?|G2]; [now right|]. exfalso. specialize (Hc (Z.max b.1 c.1)). rewrite cover_app in Hc.
  unfold HDR in *. pose proof (cover_elem b l1 (Z.max b.1 c.1) Hb ltac:(apply inside_true; unfold HDR; lia)).
  pose proof (cover_elem c l2 (Z.max b.1 c.1) Hcl ltac:(apply inside_true; unfold HDR; lia)). lia.
Qed.

(** ** Linked segments and ordered blocks *)

Lemma seg_app h xs : forall p ys q, seg h p (xs ++ ys) q <-> exists m, seg h p xs m /\ seg h m ys q.
Proof.
  induction xs as [|[a n] xs IH]; intros p ys q; cbn; [split; [eauto|now intros (? & -> & ?)]|]. rewrite IH. naive_solver.
Qed.

Lemma seg_frame h h' xs : forall p q, (forall a, a ∈ xs.*1 -> h' a = h a) -> seg h p xs q -> seg h' p xs q.
Proof.
  induction xs as [|[a n] xs IH]; intros p q Hf; [done|]. cbn in *. intros (-> & Hs & Hr).
  rewrite (Hf a) by (rewrite elem_of_cons; now left). split; [done|]. split; [done|]. apply IH; [|done].
  intros b Hb. apply Hf. rewrite elem_of_cons. now right.
Qed.

Lemma seg_size h xs : forall p q a n, seg h p xs q -> (a, n) ∈ xs -> h_size (h a) = n.
Proof.
  induction xs as [|[b m] xs IH]; intros p q a n Hs Hin; [now apply not_elem_of_nil in Hin|].
  destruct Hs as (-> & Hm & Hr). apply elem_of_cons in Hin as [[= -> ->]|Hin]; [done|]. exact (IH _ _ _ _ Hr Hin).
Qed.

(** The node after [a]. *)
Lemma seg_next h p xs a n ys q : seg h p (xs ++ (a, n) :: ys) q -> seg h (h_ptr (h a)) ys q.
Proof. rewrite seg_app. cbn. now intros (m & _ & _ & _ & Hr). Qed.

Lemma seg_head h p xs q : seg h p xs q -> p = match xs with [] => q | b :: _ => b.1 end.
Proof. destruct xs as [|[a n] xs]; cbn; tauto. Qed.

Lemma chain_weaken r : forall e e' hi hi', chain e r hi -> e' <= e -> hi <= hi' -> chain e' r hi'.
Proof. induction r as [|[a n] r IH]; intros e e' hi hi'; cbn; [lia|]. intros (H1 & H2 & H3) He Hh. repeat split; [lia|lia|]. apply (IH _ (a + HDR * n) _ hi' H3); lia. Qed.

Lemma chain_mid r1 : forall e b r2 hi,
  chain e (r1 ++ b :: r2) hi <-> chain e r1 (b.1 - 1) /\ 0 < b.2 /\ chain (b.1 + HDR * b.2) r2 hi.
Proof.
  induction r1 as [|[a n] r1 IH]; intros e [b m] r2 hi; cbn [app chain fst snd]; [intuition lia|]. rewrite IH. cbn [fst snd]. tauto.
Qed.

Lemma chain_le r : forall e hi, chain e r hi -> e <= hi.
Proof. induction r as [|[a n] r IH]; intros e hi; cbn; [done|]. intros (H1 & H2 & H3). specialize (IH _ _ H3). unfold HDR in *. lia. Qed.

Lemma chain_bounds r : forall e hi b, chain e r hi -> b ∈ r -> e < b.1 /\ 0 < b.2 /\ b.1 + HDR * b.2 <= hi.
Proof.
  intros e hi b Hc (r1 & r2 & ->)%list_elem_of_split. apply chain_mid in Hc as (H1 & H2 & H3).
  apply chain_le in H1, H3. split; [lia|]. split; [done|lia].
Qed.

(** Cutting the list at a block that is apart from the others. *)
Lemma chain_split r : forall e hi bp sz,
  chain e r hi -> 0 < sz -> (forall b, b ∈ r -> b.1 + HDR * b.2 <= bp \/ bp + HDR * sz <= b.1) ->
  exists r1 r2, r = r1 ++ r2 /\ (forall b, b ∈ r1 -> b.1 + HDR * b.2 <= bp) /\ (forall b, b ∈ r2 -> bp + HDR * sz <= b.1).
Proof.
  induction r as [|[a n] r IH]; intros e hi bp sz Hc Hsz Ha.
  { exists [], []. split; [done|]. split; intros b Hb; now apply not_elem_of_nil in Hb. }
  pose proof Hc as (H1 & H2 & H3). destruct (Ha (a, n) ltac:(rewrite elem_of_cons; now left)) as [Hl|Hr]; cbn [fst snd] in *.
  - destruct (IH _ hi bp sz H3 Hsz) as (r1 & r2 & -> & G1 & G2); [intros b Hb; apply Ha; rewrite elem_of_cons; now right|].
    exists ((a, n) :: r1), r2. split; [done|]. split; [|done]. intros b [->|Hb]%elem_of_cons; auto.
  - exists [], ((a, n) :: r). split; [done|]. split; [intros b Hb; now apply not_elem_of_nil in Hb|].
    intros b [->|Hb]%elem_of_cons; [done|]. pose proof (chain_bounds r _ _ b H3 Hb). unfold HDR in *. lia.
Qed.

(** ** The place of a block *)

Lemma chain_sorted r : forall e x hi, chain e r hi -> x <= e -> StronglySorted Z.lt (x :: r.*1).
Proof.
  induction r as [|[a n] r IH]; intros e x hi Hc Hx; cbn; [repeat constructor|]. pose proof Hc as (H1 & H2 & H3).
  specialize (IH _ a hi H3 ltac:(unfold HDR; lia)). constructor; [exact IH|]. constructor; [lia|].
  apply Forall_fmap, Forall_forall. intros b Hb. pose proof (chain_bounds r _ _ b H3 Hb). cbn. unfold HDR in *. lia.
Qed.

Lemma walk_low s bp p n nx A : forall fuel x,
  StronglySorted Z.lt ((A ++ [(p, n)]).*1) -> p < bp -> bp < nx \/ nx <= p -> seg (m_hdr s) x (A ++ [(p, n)]) nx ->
  (length A < fuel)%nat -> free_find fuel bp x s = Ok p s.
Proof.
  induction A as [|[a m] A IH]; intros [|fuel] x Hso Hp Hnx Hs Hf; cbn in Hf; try lia; cbn [free_find]; erewrite bind_ok by reflexivity.
  - destruct Hs as (-> & _ & Hn). cbn in Hn. rewrite Hn. do 2 (case_goal; [done|]). zbool. lia.
  - destruct Hs as (-> & _ & Hs). cbn in Hso. apply StronglySorted_inv in Hso as [Hso Ha].
    assert (a < h_ptr (m_hdr s a) <= p) as Hb.
    { rewrite (seg_head _ _ _ _ Hs). destruct A as [|[a' m'] A]; cbn in *.
      - apply Forall_inv in Ha. lia.
      - split; [now apply Forall_inv in Ha|]. apply StronglySorted_inv in Hso as [_ Ha']. rewrite fmap_app in Ha'.
        apply Forall_app in Ha' as [_ Ha'%Forall_inv]. cbn [fst] in Ha'. lia. }
    zdecide. cbn [andb orb]. apply IH; [done..|lia].
Qed.

Lemma walk_high s bp B : forall fuel x,
  StronglySorted Z.lt (B.*1) -> (forall b, b ∈ B -> bp < b.1) -> base < bp -> B <> [] -> seg (m_hdr s) x B base ->
  free_find (length B + fuel) bp x s = free_find fuel bp base s.
Proof.
  induction B as [|[b m] B IH]; intros fuel x Hso Hb Hbase Hne Hs; [done|]. cbn [length Nat.add free_find]. erewrite bind_ok by reflexivity.
  destruct Hs as (-> & _ & Hs). cbn in Hso. apply StronglySorted_inv in Hso as [Hso Hlt].
  assert (bp < b) as Hbb by (apply (Hb (b, m)); rewrite elem_of_cons; now left). rewrite (proj2 (Z.ltb_ge b bp)) by lia. cbn [andb orb].
  pose proof (seg_head _ _ _ _ Hs) as Hh. destruct B as [|[b' m'] B]; cbn in Hh.
  - rewrite Hh. zdecide. done.
  - rewrite (proj2 (Z.leb_gt _ _)) by (rewrite Hh; now apply Forall_inv in Hlt). cbn [andb].
    apply IH; [done| |done|done|done]. intros c Hc. apply Hb. rewrite elem_of_cons. now right.
Qed.

(** A suffix of a list with a last element has it as well. *)
Lemma suffix_last {A} (P X Y : list A) p x : P ++ [p] = X ++ x :: Y -> exists Y', x :: Y = Y' ++ [p] /\ (length Y' <= length P)%nat.
Proof.
  intros E. pose proof (f_equal length E) as El. rewrite !length_app in El. cbn in El.
  destruct Y as [|y Y _] using rev_ind.
  - apply app_inj_tail in E as [_ ->]. exists []. cbn. split; [done|lia].
  - rewrite app_comm_cons, app_assoc in E. apply app_inj_tail in E as [_ ->]. exists (x :: Y). rewrite length_app in El. cbn in *. split; [done|lia].
Qed.

Lemma free_find_ok s r1 r2 P p n bp fuel :
  seg (m_hdr s) base ((base, 0) :: r1 ++ r2) base -> m_freep s ∈ base :: (r1 ++ r2).*1 ->
  StronglySorted Z.lt (base :: (r1 ++ r2).*1) -> (base, 0) :: r1 = P ++ [(p, n)] -> p < bp -> base < bp -> (forall b, b ∈ r2 -> bp < b.1) ->
  (length r1 + length r2 + 1 <= fuel)%nat -> free_find fuel bp (m_freep s) s = Ok p s.
Proof.
  intros Hring Hfp Hso HP Hp Hbase Hr2 Hf.
  assert (length P = length r1) as HlP by (apply (f_equal length) in HP; rewrite length_app in HP; cbn in HP; lia).
  change ((base, 0) :: r1 ++ r2) with (((base, 0) :: r1) ++ r2) in Hring. rewrite HP in Hring.
  change (base :: (r1 ++ r2).*1) with ((((base, 0) :: r1) ++ r2).*1) in Hfp, Hso. rewrite HP, fmap_app in Hfp, Hso.
  pose proof Hring as (nx & Hlow & Hhigh)%seg_app. apply StronglySorted_app in Hso as (_ & Hs1 & Hs2).
  assert (bp < nx \/ nx <= p) as Hnx.
  { rewrite (seg_head _ _ _ _ Hhigh). destruct r2 as [|b r2]; [right|left; apply Hr2; rewrite elem_of_cons; now left].
    destruct P as [|c P]; cbn [app] in HP; [injection HP as E1 _ _; cbn [fst]; lia|injection HP as <- _]. cbn in Hs1. apply StronglySorted_inv in Hs1 as [_ Hs1].
    rewrite fmap_app in Hs1. apply Forall_app in Hs1 as [_ Hs1%Forall_inv]. cbn [fst] in Hs1. lia. }
  apply elem_of_app in Hfp as [Hfp|Hfp]; apply list_elem_of_fmap in Hfp as ([x k] & Hx & Hin); cbn in Hx;
    apply list_elem_of_split in Hin as (X & Y & E).
  - destruct (suffix_last _ _ _ _ _ E) as (A & EA & HA). rewrite E, EA in Hlow, Hs1. rewrite fmap_app in Hs1.
    apply seg_app in Hlow as (y & _ & Hlow). assert (y = m_freep s) as ->.
    { rewrite (seg_head _ _ _ _ Hlow), <- EA. now rewrite Hx. }
    apply StronglySorted_app in Hs1 as (_ & _ & Hs1). now apply (walk_low s bp p n nx A); [..|lia].
  - rewrite E in Hhigh, Hs2. rewrite fmap_app in Hs2. apply StronglySorted_app in Hs2 as (_ & _ & Hs2). apply seg_app in Hhigh as (y & _ & Hhigh).
    assert (y = m_freep s) as -> by (rewrite (seg_head _ _ _ _ Hhigh); now rewrite Hx).
    replace fuel with (length ((x, k) :: Y) + (fuel - length ((x, k) :: Y)))%nat.
    2: { rewrite E, length_app in Hf. cbn in *. lia. }
    rewrite walk_high; [|done| |done|done|done].
    + apply (walk_low s bp p n nx P); [done..|]. rewrite E, length_app in Hf. cbn in *. lia.
    + intros b Hb. apply Hr2. rewrite E, elem_of_app. now right.
Qed.

(** ** Freeing *)

Lemma hplus_small p n : 0 <= p + HDR * n <= LIMIT + HDR -> hplus p n = p + HDR * n.
Proof. intros H. unfold hplus, LIMIT, HDR in *. apply u64_small. unfold is_u64. lia. Qed.

Lemma units_small n m a : 0 < a -> 0 <= n -> 0 <= m -> a + HDR * (n + m) <= LIMIT -> u32 (n + m) = n + m.
Proof. intros. unfold LIMIT, HDR in *. apply u32_small. unfold is_u32. lia. Qed.

Lemma join_next_ok s bp p sz r2 hi :
  0 < base -> base < bp -> 0 < sz -> h_size (m_hdr s bp) = sz -> seg (m_hdr s) (h_ptr (m_hdr s p)) r2 base ->
  bp ∉ r2.*1 -> chain (bp + HDR * sz - 1) r2 hi -> bp + HDR * sz <= hi <= LIMIT ->
  exists s1 sz' t, join_next bp p s = Ok tt s1 /\ (forall a, a <> bp -> m_hdr s1 a = m_hdr s a) /\
    m_freep s1 = m_freep s /\ m_brk s1 = m_brk s /\
    seg (m_hdr s1) bp ((bp, sz') :: t) base /\ chain (bp + HDR * sz') t hi /\ sz <= sz' /\
    (forall u, cover ((bp, sz') :: t) u = cover ((bp, sz) :: r2) u) /\ (forall b, b ∈ t -> b ∈ r2) /\ (length t <= length r2)%nat.
Proof.
  intros Hbase Hbp Hsz Hs Hseg Hni Hch Hhi. unfold join_next. do 2 erewrite bind_ok by reflexivity.
  rewrite Hs, hplus_small by (unfold HDR in *; lia). pose proof (seg_head _ _ _ _ Hseg) as Hh.
  destruct (Z.eqb_spec (bp + HDR * sz) (h_ptr (m_hdr s p))) as [E|E].
  - destruct r2 as [|[a m] t]; cbn [fst] in Hh; [unfold HDR in *; lia|].
    destruct Hseg as (Hpa & Hm & Hseg). destruct Hch as (Hc1 & Hc2 & Hc3). pose proof (chain_le _ _ _ Hc3) as Hle.
    cbn in Hni. apply not_elem_of_cons in Hni as [Hne Hni]. do 2 erewrite bind_ok by reflexivity. erewrite bind_ok by reflexivity.
    eexists _, (sz + m), t. split; [reflexivity|]. split; [intros b Hb; cbn; now rewrite !fn_lookup_insert_ne by congruence|].
    split; [done|]. split; [done|]. cbn [m_hdr set_ptr set_size]. rewrite Hh, Hm in *. rewrite (units_small sz m bp) by (unfold HDR in *; lia).
    split; [|split; [now replace (bp + HDR * (sz + m)) with (a + HDR * m) by (unfold HDR in *; lia)|split; [lia|split]]].
    + cbn. rewrite !fn_lookup_insert. cbn. rewrite fn_lookup_insert_ne by congruence. split; [done|]. split; [done|].
      revert Hseg. apply seg_frame. intros b Hb. now rewrite !fn_lookup_insert_ne by congruence.
    + intros u. rewrite !cover_cons, <- (inside_join u bp sz m), E by lia. lia.
    + split; [intros b Hb; rewrite elem_of_cons; now right|cbn; lia].
  - eexists _, sz, r2. split; [reflexivity|]. split; [intros b Hb; cbn; now rewrite fn_lookup_insert_ne by congruence|].
    split; [done|]. split; [done|]. cbn. rewrite fn_lookup_insert. cbn. split; [|split; [|split; [lia|done]]].
    + split; [done|]. split; [done|]. revert Hseg. apply seg_frame. intros b Hb. rewrite fn_lookup_insert_ne; [done|]. congruence.
    + destruct r2 as [|[a m] t]; cbn in *; [lia|]. intuition lia.
Qed.

Lemma join_prev_ok s bp p n sz t P :
  seg (m_hdr s) base P p -> h_size (m_hdr s p) = n -> seg (m_hdr s) bp ((bp, sz) :: t) base ->
  p ∉ P.*1 -> p <> bp -> p ∉ t.*1 -> 0 < p -> 0 <= n -> 0 <= sz -> p + HDR * n <= bp -> bp + HDR * sz <= LIMIT ->
  exists s2, join_prev bp p s = Ok tt s2 /\ (forall a, a <> p -> m_hdr s2 a = m_hdr s a) /\
    m_freep s2 = m_freep s /\ m_brk s2 = m_brk s /\
    seg (m_hdr s2) base (P ++ (if decide (p + HDR * n = bp) then (p, n + sz) :: t else (p, n) :: (bp, sz) :: t)) base.
Proof.
  intros HP Hn (_ & Hsz & Ht) HpP Hpb Hpt Hp Hn0 Hsz0 Hle Hlim. unfold join_prev. erewrite bind_ok by reflexivity.
  rewrite Hn, hplus_small by (unfold HDR in *; lia). case_decide as E.
  - rewrite (proj2 (Z.eqb_eq _ _) E). do 3 erewrite bind_ok by reflexivity. eexists. split; [reflexivity|].
    split; [intros a Ha; cbn; now rewrite !fn_lookup_insert_ne by congruence|]. split; [done|]. split; [done|].
    apply seg_app. exists p. cbn. rewrite !fn_lookup_insert. cbn. rewrite fn_lookup_insert_ne by congruence.
    rewrite Hsz, (units_small n sz p) by (unfold HDR in *; lia). split; [|split; [done|split; [done|]]].
    + revert HP. apply seg_frame. intros a Ha. now rewrite !fn_lookup_insert_ne by congruence.
    + revert Ht. apply seg_frame. intros a Ha. now rewrite !fn_lookup_insert_ne by congruence.
  - rewrite (proj2 (Z.eqb_neq _ _) E). eexists. split; [reflexivity|].
    split; [intros a Ha; cbn; now rewrite !fn_lookup_insert_ne by congruence|]. split; [done|]. split; [done|].
    apply seg_app. exists p. cbn. rewrite fn_lookup_insert. cbn. rewrite fn_lookup_insert_ne by congruence.
    split; [|split; [done|split; [done|split; [done|split; [done|]]]]].
    + revert HP. apply seg_frame. intros a Ha. now rewrite fn_lookup_insert_ne by congruence.
    + revert Ht. apply seg_frame. intros a Ha. now rewrite fn_lookup_insert_ne by congruence.
Qed.

Lemma last_node r1 : exists P p n, (base, 0) :: r1 = P ++ [(p, n)] /\
  (P = [] /\ r1 = [] /\ p = base /\ n = 0 \/ exists P', P = (base, 0) :: P' /\ r1 = P' ++ [(p, n)]).
Proof.
  destruct r1 as [|[p n] r0 _] using rev_ind; [exists [], base, 0; split; [done|now left]|]. exists ((base, 0) :: r0), p, n. eauto.
Qed.

(** The free blocks after one has been put in its place. *)
Lemma placed_ok r1 r2 P p n bp sz sz' t hi :
  chain (base + HDR - 1) (r1 ++ r2) hi -> (forall b, b ∈ r1 -> b.1 + HDR * b.2 <= bp) -> base + HDR <= bp -> 0 < sz -> sz <= sz' ->
  chain (bp + HDR * sz') t hi -> (forall u, cover ((bp, sz') :: t) u = cover ((bp, sz) :: r2) u) -> (length t <= length r2)%nat ->
  (base, 0) :: r1 = P ++ [(p, n)] ->
  (P = [] /\ r1 = [] /\ p = base /\ n = 0 \/ exists P', P = (base, 0) :: P' /\ r1 = P' ++ [(p, n)]) ->
  exists r', P ++ (if decide (p + HDR * n = bp) then (p, n + sz') :: t else (p, n) :: (bp, sz') :: t) = (base, 0) :: r' /\
    chain (base + HDR - 1) r' hi /\ (forall u, cover r' u = (cover (r1 ++ r2) u + cover [(bp, sz)] u)%nat) /\
    (exists b, b ∈ r' /\ sz <= b.2) /\ p ∈ base :: r'.*1 /\ (length r' <= length (r1 ++ r2) + 1)%nat.
Proof.
  intros Hch Hr1 Hbp Hsz Hsz' Ht Hcov Hlen HP [(-> & -> & -> & ->)|(P' & -> & ->)].
  - rewrite decide_False by (unfold HDR in *; lia). exists ((bp, sz') :: t). split; [done|]. split; [cbn; split; [lia|split; [lia|done]]|].
    split; [intros u; cbn [app]; rewrite Hcov, !cover_cons, cover_nil; lia|]. split; [exists (bp, sz'); split; [rewrite elem_of_cons; now left|done]|].
    split; [rewrite elem_of_cons; now left|cbn; lia].
  - rewrite <- app_assoc in Hch. cbn [app] in Hch. apply chain_mid in Hch as (Hc1 & Hn & _). cbn [fst snd] in *.
    pose proof (chain_le _ _ _ Hc1) as Hlp. pose proof (Hr1 (p, n) ltac:(rewrite elem_of_app, list_elem_of_singleton; now right)) as Hpn. cbn [fst snd] in Hpn.
    exists (P' ++ if decide (p + HDR * n = bp) then (p, n + sz') :: t else (p, n) :: (bp, sz') :: t). split; [done|].
    assert (forall u, cover (if decide (p + HDR * n = bp) then (p, n + sz') :: t else (p, n) :: (bp, sz') :: t) u =
      (cover [(p, n)] u + cover ((bp, sz') :: t) u)%nat) as Hj.
    { intros u. case_decide as E; rewrite !cover_cons, cover_nil; [|lia].
      rewrite <- (inside_join u p n sz'), E by lia. lia. }
    split; [|split; [|split; [|split; [|case_decide; rewrite !length_app; cbn; lia]]]].
    + case_decide as E; apply chain_mid; cbn [fst snd]; (split; [done|]).
      * split; [lia|]. replace (p + HDR * (n + sz')) with (bp + HDR * sz') by (unfold HDR in *; lia). done.
      * split; [lia|]. split; [lia|]. split; [lia|done].
    + intros u. rewrite !cover_app, Hj, Hcov, !cover_cons, cover_nil. lia.
    + case_decide; [exists (p, n + sz')|exists (bp, sz')]; rewrite elem_of_app, !elem_of_cons; cbn; split; auto; lia.
    + rewrite elem_of_cons, fmap_app, elem_of_app. right. right. case_decide; cbn; rewrite elem_of_cons; now left.
Qed.

Lemma chain_rest r1 r2 e e' hi : chain e (r1 ++ r2) hi -> (forall b, b ∈ r2 -> e' < b.1) -> e' <= hi -> chain e' r2 hi.
Proof.
  intros Hc Hb Hhi. destruct r2 as [|[a n] r2]; [done|]. apply chain_mid in Hc as (_ & Hn & Hc).
  split; [apply (Hb (a, n)); rewrite elem_of_cons; now left|done].
Qed.

(** The place of an allocated block among the free ones. *)
Lemma place_of s r al bp sz :
  heap s r al -> (bp, sz) ∈ al ->
  exists r1 r2 P p n, r = r1 ++ r2 /\ (base, 0) :: r1 = P ++ [(p, n)] /\
    (P = [] /\ r1 = [] /\ p = base /\ n = 0 \/ exists P', P = (base, 0) :: P' /\ r1 = P' ++ [(p, n)]) /\
    (forall b, b ∈ r1 -> b.1 + HDR * b.2 <= bp) /\ (forall b, b ∈ r2 -> bp + HDR * sz <= b.1) /\
    p + HDR * n <= bp /\ p < bp /\ (p ∉ P.*1) /\ (bp ∉ P.*1) /\ p ∉ r2.*1.
Proof.
  intros Hh Hin. destruct (hp_low _ _ _ Hh _ Hin) as (Hb1 & Hb2 & Hb3). cbn [fst snd] in *. pose proof (hp_chain _ _ _ Hh) as Hch.
  destruct (chain_split r _ _ bp sz Hch Hb2) as (r1 & r2 & -> & Hr1 & Hr2).
  { intros b Hb. destruct (chain_bounds _ _ _ b Hch Hb) as (_ & Hb0 & _). exact (cover_apart r al b (bp, sz) (hp_once _ _ _ Hh) Hb Hin Hb0 Hb2). }
  destruct (last_node r1) as (P & p & n & HP & Hcase). exists r1, r2, P, p, n.
  assert (p + HDR * n <= bp /\ p < bp) as [Hpn Hp].
  { destruct Hcase as [(-> & -> & -> & ->)|(P' & -> & ->)]; [unfold HDR in *; lia|].
    pose proof (Hr1 (p, n) ltac:(rewrite elem_of_app, list_elem_of_singleton; now right)) as Hpn.
    pose proof (chain_bounds _ _ _ (p, n) Hch ltac:(rewrite !elem_of_app, list_elem_of_singleton; tauto)). cbn [fst snd] in *. unfold HDR in *. lia. }
  assert (StronglySorted Z.lt (P.*1 ++ p :: r2.*1)) as Hso.
  { pose proof (chain_sorted _ _ base _ Hch ltac:(unfold HDR; lia)) as Hso. change (base :: (r1 ++ r2).*1) with ((((base, 0) :: r1) ++ r2).*1) in Hso.
    now rewrite HP, !fmap_app, <- app_assoc in Hso. }
  apply StronglySorted_app in Hso as (Hlt & _ & [_ Hr]%StronglySorted_inv). rewrite Forall_forall in Hr.
  split; [done|]. split; [done|]. split; [done|]. split; [done|]. split; [done|]. split; [done|]. split; [done|]. split; [|split].
  - intros H. pose proof (Hlt p p H ltac:(rewrite elem_of_cons; now left)). lia.
  - intros H. pose proof (Hlt bp p H ltac:(rewrite elem_of_cons; now left)). lia.
  - intros H. pose proof (Hr p H). lia.
Qed.

(** The block is in no other. *)
Lemma alloc_apart s r al1 bp sz al2 b :
  heap s r (al1 ++ (bp, sz) :: al2) -> b ∈ r ++ al1 ++ al2 -> 0 < b.2 -> b.1 + HDR * b.2 <= bp \/ bp + HDR * sz <= b.1.
Proof.
  intros Hh Hb Hb2. destruct (hp_low _ _ _ Hh (bp, sz)) as (_ & Hs & _); [rewrite elem_of_app, elem_of_cons; auto|].
  apply (cover_apart (r ++ al1 ++ al2) [(bp, sz)] b (bp, sz)); [|done|now apply list_elem_of_singleton|done|done].
  intros u. pose proof (hp_once _ _ _ Hh u) as H. rewrite !cover_app, !cover_cons, ?cover_nil in *. lia.
Qed.

(** What [free] does to the ring. *)
Lemma free_run s r al bp sz fuel :
  heap s r al -> (bp, sz) ∈ al -> (length r + 1 <= fuel)%nat ->
  exists s' r' p, free fuel (bp + HDR) s = Ok tt s' /\ seg (m_hdr s') base ((base, 0) :: r') base /\
    (forall a, a <> p -> a <> bp -> m_hdr s' a = m_hdr s a) /\ p ∈ base :: r.*1 /\ m_freep s' ∈ base :: r'.*1 /\ m_brk s' = m_brk s /\
    chain (base + HDR - 1) r' (m_brk s) /\ (forall u, cover r' u = (cover r u + cover [(bp, sz)] u)%nat) /\
    (exists b, b ∈ r' /\ sz <= b.2) /\ (length r' <= length r + 1)%nat.
Proof.
  intros Hh Hin Hf.
  destruct (place_of s r _ bp sz Hh Hin) as (r1 & r2 & P & p & n & -> & HP & Hcase & Hr1 & Hr2 & Hpn & Hp & HpP & HbP & Hpr).
  destruct (hp_low _ _ _ Hh _ Hin) as (Hb1 & Hb2 & Hb3). cbn [fst snd] in *. pose proof (hp_chain _ _ _ Hh) as Hch.
  pose proof (hp_ring _ _ _ Hh) as Hring. pose proof (hp_base _ _ _ Hh) as Hbase. pose proof (hp_brk _ _ _ Hh) as Hbrk.
  unfold free. rewrite hplus_small by (unfold HDR in *; lia). replace (bp + HDR + HDR * -1) with bp by (unfold HDR; lia). cbn zeta.
  erewrite bind_ok by reflexivity. rewrite (bind_ok _ _ _ p s).
  2: { apply (free_find_ok s r1 r2 P p n); [done|apply (hp_freep _ _ _ Hh)| |done|done|unfold HDR in *; lia| |rewrite length_app in Hf; lia].
    - apply (chain_sorted _ _ _ _ Hch). unfold HDR. lia.
    - intros b Hb. specialize (Hr2 b Hb). unfold HDR in *. lia. }
  rewrite app_comm_cons, HP, <- app_assoc in Hring. apply seg_app in Hring as (q & HsP & (-> & Hn & Hs2)).
  destruct (join_next_ok s bp p sz r2 (m_brk s)) as (s1 & sz' & t & E1 & Hs1 & Hf1 & Hk1 & Hst & Hct & Hsz & Hcov & Hsub & Hlen);
    [done|unfold HDR in *; lia|done|exact (hp_alloc _ _ _ Hh _ _ Hin)|done| | |lia|].
  { intros (b & E & Hb)%list_elem_of_fmap. specialize (Hr2 b Hb). unfold HDR in *. lia. }
  { apply (chain_rest r1 r2 (base + HDR - 1)); [done| |lia]. intros b Hb. specialize (Hr2 b Hb). lia. }
  rewrite (bind_ok _ _ _ _ _ E1). pose proof (chain_le _ _ _ Hct) as Hle.
  destruct (placed_ok r1 r2 P p n bp sz sz' t (m_brk s)) as (r' & ER & Hch' & Hcov' & Hfit & Hpin & Hlen'); [done..|].
  assert (0 <= n /\ 0 < p) as [Hn0 Hp0].
  { destruct Hcase as [(_ & _ & -> & ->)|(P' & _ & ->)]; [lia|].
    pose proof (chain_bounds _ _ _ (p, n) Hch ltac:(rewrite !elem_of_app, list_elem_of_singleton; tauto)). cbn [fst snd] in *. unfold HDR in *. lia. }
  destruct (join_prev_ok s1 bp p n sz' t P) as (s2 & E2 & Hs2' & Hf2 & Hk2 & Hseg2); try done; try lia.
  { revert HsP. apply seg_frame. intros a Ha. apply Hs1. congruence. }
  { now rewrite Hs1 by lia. }
  { intros (b & -> & Hb)%list_elem_of_fmap. apply Hpr, list_elem_of_fmap. eauto. }
  rewrite (bind_ok _ _ _ _ _ E2). rewrite ER in Hseg2. exists (set_freep p s2), r', p. split; [done|]. split; [exact Hseg2|].
  split; [intros a Ha Hab; cbn; now rewrite Hs2', Hs1 by done|]. split; [|cbn; rewrite Hk2, Hk1; done].
  change (base :: (r1 ++ r2).*1) with ((((base, 0) :: r1) ++ r2).*1). rewrite HP, !fmap_app, !elem_of_app. cbn. rewrite list_elem_of_singleton. auto.
Qed.

Lemma free_ok s r al1 bp sz al2 fuel :
  heap s r (al1 ++ (bp, sz) :: al2) -> (length r + 1 <= fuel)%nat ->
  exists s' r', free fuel (bp + HDR) s = Ok tt s' /\ heap s' r' (al1 ++ al2) /\ m_brk s' = m_brk s /\
    (forall u, cover r' u = (cover r u + cover [(bp, sz)] u)%nat) /\ (exists b, b ∈ r' /\ sz <= b.2) /\ (length r' <= length r + 1)%nat.
Proof.
  intros Hh Hf. assert ((bp, sz) ∈ al1 ++ (bp, sz) :: al2) as Hin by (rewrite elem_of_app, elem_of_cons; auto).
  destruct (free_run s r _ bp sz fuel Hh Hin Hf) as (s' & r' & p & E & Hseg & Hs' & Hp & Hfp & Hk & Hch & Hcov & Hfit & Hlen).
  exists s', r'. split; [done|]. split; [|done].
  assert (forall b, b ∈ al1 ++ al2 -> b ∈ al1 ++ (bp, sz) :: al2) as Hsub.
  { intros b. rewrite !elem_of_app, elem_of_cons. tauto. }
  destruct (hp_low _ _ _ Hh _ Hin) as (Hb1 & Hb2 & Hb3). pose proof Hh as [H1 H2 H3 H4 H5 H6 H7 H8].
  split; rewrite ?Hk; try done.
  - intros b Hb. auto.
  - intros a n Hb. destruct (H6 _ (Hsub _ Hb)) as (G1 & G2 & G3). cbn [fst snd] in *. rewrite Hs'; [now apply H7, Hsub| |].
    + intros ->. apply elem_of_cons in Hp as [->|((c & m) & -> & Hc)%list_elem_of_fmap]; [unfold HDR in *; lia|].
      destruct (chain_bounds _ _ _ _ H5 Hc) as (_ & Hm & _).
      destruct (cover_apart r _ (c, m) (c, n) H8 Hc (Hsub _ Hb) Hm G2); cbn [fst snd] in *; unfold HDR in *; lia.
    + intros ->. destruct (alloc_apart s r al1 bp sz al2 (bp, n) Hh); [rewrite elem_of_app; now right|done|..]; cbn [fst snd] in *; unfold HDR in *; lia.
  - intros u. specialize (H8 u). rewrite !cover_app, cover_cons in H8. rewrite !cover_app, Hcov, cover_cons, cover_nil. lia.
Qed.

(** ** Getting memory from the kernel *)

Lemma cover_zero l u : (forall b, b ∈ l -> b.1 + HDR * b.2 <= u) -> cover l u = 0%nat.
Proof.
  induction l as [|b l IH]; intros Hb; [done|]. rewrite cover_cons, IH by (intros c Hc; apply Hb; rewrite elem_of_cons; now right).
  destruct (inside u b) eqn:E; [|done]. apply inside_true in E. specialize (Hb b ltac:(rewrite elem_of_cons; now left)). lia.
Qed.

Lemma node_below s r al a : heap s r al -> a ∈ base :: r.*1 -> 0 < a < m_brk s.
Proof.
  intros [H1 H2 H3 H4 H5 _ _ _] [->|((c & m) & -> & Hc)%list_elem_of_fmap]%elem_of_cons; [unfold HDR in *; lia|].
  destruct (chain_bounds _ _ _ _ H5 Hc) as (? & ? & ?). cbn [fst snd] in *. unfold HDR in *. lia.
Qed.

(** A new block at the break is like one that has been handed out. *)
Lemma heap_grow s r al nu :
  heap s r al -> 0 < nu -> m_brk s + HDR * nu <= LIMIT ->
  heap (set_size (m_brk s) nu (Um (m_hdr s) (m_freep s) (m_brk s + HDR * nu))) r ((m_brk s, nu) :: al).
Proof.
  intros Hh Hnu Hlim. pose proof Hh as [H1 H2 H3 H4 H5 H6 H7 H8]. split; cbn [set_size m_hdr m_freep m_brk]; try done.
  - unfold HDR in *. lia.
  - revert H3. apply seg_frame. intros a Ha. pose proof (node_below s r al a Hh Ha). now rewrite fn_lookup_insert_ne by lia.
  - apply (chain_weaken _ (base + HDR - 1) _ (m_brk s)); [done|lia|unfold HDR; lia].
  - intros b [->|Hb]%elem_of_cons; cbn [fst snd]; [lia|]. specialize (H6 b Hb). unfold HDR in *. lia.
  - intros a n [[= -> ->]|Hb]%elem_of_cons; [now rewrite fn_lookup_insert|]. specialize (H6 _ Hb). cbn [fst snd] in H6.
    rewrite fn_lookup_insert_ne by (unfold HDR in *; lia). now apply H7.
  - intros u. specialize (H8 u). rewrite cover_app, cover_cons. rewrite cover_app in H8. destruct (inside u (m_brk s, nu)) eqn:E; [|lia].
    apply inside_true in E. cbn [fst snd] in E. rewrite !cover_zero; [lia| |].
    + intros b Hb. specialize (H6 b Hb). lia.
    + intros b Hb. destruct (chain_bounds _ _ _ b H5 Hb) as (_ & _ & ?). lia.
Qed.

Context (Hgrow : forall b n, grow b n = true -> b + n <= LIMIT).

(** How much [morecore] asks for. *)
Definition more (nu : Z) : Z := if nu <? 4096 then 4096 else nu.

Lemma morecore_ok s r al nu fuel :
  heap s r al -> 0 < nu -> HDR * nu < 2^31 -> (length r + 1 <= fuel)%nat ->
  (grow (m_brk s) (HDR * more nu) = false /\ morecore fuel nu s = Ok 0 s) \/
  (exists s' r', morecore fuel nu s = Ok (m_freep s') s' /\ heap s' r' al /\ m_brk s' = m_brk s + HDR * more nu /\
     (forall u, cover r' u = (cover r u + cover [(m_brk s, more nu)] u)%nat) /\ (exists b, b ∈ r' /\ nu <= b.2) /\
     (length r' <= length r + 1)%nat).
Proof.
  intros Hh Hnu Hsm Hf. unfold morecore. fold (more nu). assert (nu <= more nu /\ HDR * more nu < 2^31) as [Hm1 Hm2].
  { unfold more, HDR in *. case_goal; zbool; lia. }
  rewrite (Z.mul_comm (more nu)), i32_small by (unfold HDR in *; lia). destruct (grow (m_brk s) (HDR * more nu)) eqn:Eg; [right|left].
  - pose proof (hp_brk _ _ _ Hh) as Hb. pose proof (hp_base _ _ _ Hh) as Hb0. pose proof (Hgrow _ _ Eg) as Hl.
    erewrite bind_ok by (unfold sbrk; erewrite bind_ok by reflexivity; rewrite Eg; reflexivity). cbv zeta.
    rewrite (proj2 (Z.eqb_neq _ _)) by (change (u64 (-1)) with (2^64 - 1); unfold LIMIT in *; lia). erewrite bind_ok by reflexivity.
    rewrite hplus_small by (unfold HDR in *; lia). rewrite Z.mul_1_r.
    destruct (free_ok _ r [] (m_brk s) (more nu) al fuel (heap_grow s r al (more nu) Hh ltac:(lia) Hl) Hf) as (s' & r' & E & Hh' & Hk & Hc & (b & Hb1 & Hb2) & Hlen).
    rewrite (bind_ok _ _ _ _ _ E). exists s', r'. split; [done|]. split; [done|]. split; [done|]. split; [done|]. split; [|done].
    exists b. split; [done|lia].
  - split; [done|]. erewrite bind_ok by (unfold sbrk; erewrite bind_ok by reflexivity; rewrite Eg; reflexivity). reflexivity.
Qed.

(** ** Taking a block *)

Lemma chain_remove r1 b r2 e hi : chain e (r1 ++ b :: r2) hi -> chain e (r1 ++ r2) hi.
Proof.
  intros (H1 & H2 & H3)%chain_mid. pose proof (chain_le _ _ _ H3) as Hle. destruct r2 as [|[c m] r2].
  - rewrite app_nil_r. apply (chain_weaken _ e _ (b.1 - 1)); [done|lia|unfold HDR in *; lia].
  - destruct H3 as (G1 & G2 & G3). apply chain_mid. cbn [fst snd]. split; [|done]. apply (chain_weaken _ e _ (b.1 - 1)); [done|lia|unfold HDR in *; lia].
Qed.

(** A block of the ring and the node before it. *)
Lemma ring_at s r al prev a n :
  heap s r al -> prev ∈ base :: r.*1 -> h_ptr (m_hdr s prev) = a -> (a, n) ∈ r ->
  exists r1 r2 X k, r = r1 ++ (a, n) :: r2 /\ (base, 0) :: r1 = X ++ [(prev, k)] /\ StronglySorted Z.lt (X.*1 ++ prev :: a :: r2.*1) /\
    seg (m_hdr s) base X prev /\ h_size (m_hdr s prev) = k /\ seg (m_hdr s) (h_ptr (m_hdr s a)) r2 base.
Proof.
  intros [_ _ Hring _ Hch _ _ _] Hprev Hptr Ha.
  change (base :: r.*1) with (((base, 0) :: r).*1) in Hprev. apply list_elem_of_fmap in Hprev as ([x k] & E & Hin). cbn in E. subst x.
  apply list_elem_of_split in Hin as (X & Y & HR). pose proof (chain_sorted _ _ base _ Hch ltac:(unfold HDR; lia)) as Hso.
  change (base :: r.*1) with (((base, 0) :: r).*1) in Hso. rewrite HR in Hring, Hso. pose proof Hring as (q & HX & (-> & Hk & HY))%seg_app.
  pose proof (seg_head _ _ _ _ HY) as Hh. destruct Y as [|[a' n'] Y]; cbn [fst] in Hh.
  { destruct (chain_bounds _ _ _ _ Hch Ha) as (Hb & _). cbn [fst] in Hb. unfold HDR in *. lia. }
  assert (a' = a) as -> by congruence. destruct HY as (_ & Hn' & HY).
  assert (n' = n) as ->.
  { rewrite <- Hn'. apply (seg_size _ ((base, 0) :: r) base base); [rewrite HR; done|rewrite elem_of_cons; now right]. }
  exists (match X with [] => [] | _ :: X' => X' ++ [(prev, k)] end), Y, X, k.
  rewrite fmap_app in Hso. destruct X as [|c X]; cbn [app] in HR; injection HR.
  - intros -> -> ->. done.
  - intros -> <-. split; [now rewrite <- app_assoc|]. done.
Qed.

Lemma take_all_ok s r al prev a n :
  heap s r al -> prev ∈ base :: r.*1 -> h_ptr (m_hdr s prev) = a -> (a, n) ∈ r ->
  exists s' r', take_block n prev a s = Ok (a + HDR) s' /\ heap s' r' ((a, n) :: al) /\ m_brk s' = m_brk s /\
    (forall u, cover r u = (cover r' u + cover [(a, n)] u)%nat).
Proof.
  intros Hh Hprev Hptr Ha. destruct (ring_at s r al prev a n Hh Hprev Hptr Ha) as (r1 & r2 & X & k & -> & HX & Hso & HsX & Hk & Hs2).
  pose proof Hh as [H1 H2 H3 H4 H5 H6 H7 H8]. destruct (chain_bounds _ _ _ _ H5 Ha) as (B1 & B2 & B3). cbn [fst snd] in *.
  pose proof (seg_size _ _ _ _ a n H3 ltac:(rewrite elem_of_cons; now right)) as Hna.
  unfold take_block. erewrite bind_ok by reflexivity. rewrite Hna, Z.eqb_refl. erewrite bind_ok by reflexivity. erewrite bind_ok by reflexivity.
  rewrite hplus_small by (unfold HDR in *; lia). rewrite Z.mul_1_r. eexists _, (r1 ++ r2). split; [reflexivity|].
  apply StronglySorted_app in Hso as (Hlt & _ & [_ Hgt]%StronglySorted_inv). rewrite Forall_forall in Hgt.
  assert (prev ∉ X.*1) as HpX by (intros G; pose proof (Hlt prev prev G ltac:(rewrite elem_of_cons; now left)); lia).
  assert (prev ∉ r2.*1) as Hp2 by (intros G; pose proof (Hgt prev ltac:(rewrite elem_of_cons; now right)); lia).
  assert (forall x, h_size (m_hdr (set_freep prev (set_ptr prev (h_ptr (m_hdr s a)) s)) x) = h_size (m_hdr s x)) as Hsz.
  { intros x. cbn. destruct (decide (x = prev)) as [->|]; [now rewrite fn_lookup_insert|now rewrite fn_lookup_insert_ne by congruence]. }
  split; [|split; [done|intros u; rewrite !cover_app, !cover_cons, cover_nil; lia]]. split; try done.
  - rewrite app_comm_cons, HX, <- app_assoc. apply seg_app. exists prev. split; [|split; [done|split; [now rewrite Hsz|]]].
    + revert HsX. apply seg_frame. intros x Hx. cbn. now rewrite fn_lookup_insert_ne by congruence.
    + cbn. rewrite fn_lookup_insert. cbn. revert Hs2. apply seg_frame. intros x Hx. now rewrite fn_lookup_insert_ne by congruence.
  - cbn. change (base :: (r1 ++ r2).*1) with ((((base, 0) :: r1) ++ r2).*1). rewrite HX, !fmap_app, !elem_of_app. cbn. rewrite list_elem_of_singleton. auto.
  - cbn. exact (chain_remove _ _ _ _ _ H5).
  - cbn. intros b [->|Hb]%elem_of_cons; [cbn; unfold HDR in *; lia|auto].
  - intros x m. rewrite Hsz. intros [[= -> ->]|Hb]%elem_of_cons; auto.
  - intros u. specialize (H8 u). rewrite !cover_app, !cover_cons in *. lia.
Qed.

(** The end of a block is cut off. *)
Lemma heap_cut s r1 a n r2 al prev nunits :
  heap s (r1 ++ (a, n) :: r2) al -> prev ∈ base :: (r1 ++ (a, n) :: r2).*1 -> 0 < nunits < n ->
  let p := a + HDR * (n - nunits) in
  heap (set_freep prev (set_size p nunits (set_size a (n - nunits) s))) (r1 ++ (a, n - nunits) :: r2) ((p, nunits) :: al).
Proof.
  intros Hh Hprev Hn p. pose proof Hh as [H1 H2 H3 H4 H5 H6 H7 H8]. pose proof H5 as (C1 & C2 & C3)%chain_mid. cbn [fst snd] in *.
  pose proof (chain_le _ _ _ C1) as L1. pose proof (chain_le _ _ _ C3) as L3.
  assert (forall x, x <> a -> x <> p -> m_hdr (set_freep prev (set_size p nunits (set_size a (n - nunits) s))) x = m_hdr s x) as Hfr.
  { intros x Hxa Hxp. cbn. now rewrite !fn_lookup_insert_ne by congruence. }
  assert (a <> p) as Hap by (unfold p, HDR in *; lia). split; try done.
  - rewrite app_comm_cons in *. apply seg_app in H3 as (q & HX & (-> & Hk & HY)). apply seg_app. exists a. split; [|split; [done|]].
    + revert HX. apply seg_frame. intros x [->|(b & -> & Hb)%list_elem_of_fmap]%elem_of_cons; [apply Hfr; cbn [fst]; unfold p, HDR in *; lia|].
      destruct (chain_bounds _ _ _ _ C1 Hb) as (? & ? & ?). apply Hfr; unfold p, HDR in *; lia.
    + cbn. rewrite (fn_lookup_insert_ne _ p a) by congruence. rewrite fn_lookup_insert. cbn. split; [done|].
      revert HY. apply seg_frame. intros x (b & -> & Hb)%list_elem_of_fmap. destruct (chain_bounds _ _ _ _ C3 Hb) as (? & ? & ?).
      apply Hfr; unfold p, HDR in *; lia.
  - cbn. rewrite fmap_app in *. exact Hprev.
  - cbn. apply chain_mid. cbn [fst snd]. split; [done|]. split; [lia|]. apply (chain_weaken _ (a + HDR * n) _ (m_brk s)); [done|unfold HDR; lia|lia].
  - cbn. intros b [->|Hb]%elem_of_cons; [cbn; unfold p, HDR in *; lia|auto].
  - intros x m [[= -> ->]|Hb]%elem_of_cons; [cbn; now rewrite fn_lookup_insert|]. destruct (H6 _ Hb) as (_ & Hm & _).
    destruct (cover_apart _ _ (a, n) (x, m) H8 ltac:(rewrite elem_of_app, elem_of_cons; auto) Hb C2 Hm); cbn [fst snd] in *;
      rewrite Hfr by (unfold p, HDR in *; lia); now apply H7.
  - intros u. specialize (H8 u). rewrite !cover_app, !cover_cons in *. pose proof (inside_join u a (n - nunits) nunits ltac:(lia) ltac:(lia)) as Hj.
    replace (n - nunits + nunits) with n in Hj by lia. fold p in Hj. lia.
Qed.

Lemma take_ok s r al prev a n nunits :
  heap s r al -> prev ∈ base :: r.*1 -> h_ptr (m_hdr s prev) = a -> (a, n) ∈ r -> 0 < nunits <= n ->
  exists p s' r', take_block nunits prev a s = Ok (p + HDR) s' /\ heap s' r' ((p, nunits) :: al) /\ m_brk s' = m_brk s /\
    (forall u, cover r u = (cover r' u + cover [(p, nunits)] u)%nat).
Proof.
  intros Hh Hprev Hptr Ha Hn. destruct (Z.eq_dec n nunits) as [<-|Hne]; [exists a; exact (take_all_ok s r al prev a n Hh Hprev Hptr Ha)|].
  destruct (chain_bounds _ _ _ _ (hp_chain _ _ _ Hh) Ha) as (B1 & B2 & B3). cbn [fst snd] in *.
  pose proof (seg_size _ _ _ _ a n (hp_ring _ _ _ Hh) ltac:(rewrite elem_of_cons; now right)) as Hna.
  pose proof (hp_base _ _ _ Hh). pose proof (hp_brk _ _ _ Hh). apply list_elem_of_split in Ha as (r1 & r2 & ->).
  assert (u32 (n - nunits) = n - nunits) as Hu by (apply u32_small; unfold is_u32, LIMIT, HDR in *; lia).
  unfold take_block. erewrite bind_ok by reflexivity. rewrite Hna, (proj2 (Z.eqb_neq n nunits)) by lia. erewrite bind_ok by reflexivity.
  rewrite Hu, (hplus_small a) by (unfold HDR in *; lia). erewrite bind_ok by reflexivity.
  rewrite hplus_small by (unfold HDR in *; lia). rewrite Z.mul_1_r. eexists _, _, _. split; [reflexivity|].
  split; [exact (heap_cut s r1 a n r2 al prev nunits Hh Hprev ltac:(lia))|]. split; [done|]. intros u. rewrite !cover_app, !cover_cons, cover_nil.
  pose proof (inside_join u a (n - nunits) nunits ltac:(lia) ltac:(lia)) as Hj. replace (n - nunits + nunits) with n in Hj by lia. lia.
Qed.

(** ** Searching *)

(** What the loop does when it is back at [freep]. *)
Definition grow_and (ffuel k : nat) (nunits : Z) : M um Z :=
  p ← morecore ffuel nunits;
  if p =? 0 then mret 0 else
  next ← ptr p;
  malloc_loop ffuel k nunits p next.

Lemma scan s ffuel nunits k q (N : Z -> Prop) xs : forall fuel prev p,
  seg (m_hdr s) p (xs ++ [(m_freep s, k)]) q -> m_freep s ∉ xs.*1 -> (forall b, b ∈ xs ++ [(m_freep s, k)] -> N b.1) ->
  N prev -> h_ptr (m_hdr s prev) = p -> (length xs < fuel)%nat ->
  (exists prev' a n, N prev' /\ h_ptr (m_hdr s prev') = a /\ (a, n) ∈ xs ++ [(m_freep s, k)] /\ nunits <= n /\
     malloc_loop ffuel fuel nunits prev p s = take_block nunits prev' a s) \/
  ((forall b, b ∈ xs ++ [(m_freep s, k)] -> b.2 < nunits) /\
   malloc_loop ffuel fuel nunits prev p s = grow_and ffuel (fuel - length xs - 1) nunits s).
Proof.
  induction xs as [|[a n] xs IH]; intros [|fuel] prev p Hs Hni HN Hprev Hptr Hf; cbn in Hf; try lia;
    cbn [malloc_loop]; erewrite bind_ok by reflexivity; destruct Hs as (-> & Hn & Hs); rewrite Hn.
  - destruct (Z.leb_spec nunits k) as [Hle|Hlt]; [left|right].
    + exists prev, (m_freep s), k. split; [done|]. split; [done|]. split; [now apply list_elem_of_singleton|done].
    + split; [intros b Hb%list_elem_of_singleton; now subst|]. erewrite bind_ok by reflexivity. rewrite Z.eqb_refl. unfold grow_and.
      cbn [length]. replace (S fuel - 0 - 1)%nat with fuel by lia. done.
  - cbn in Hni. apply not_elem_of_cons in Hni as [Hne Hni]. destruct (Z.leb_spec nunits n) as [Hle|Hlt].
    + left. exists prev, a, n. split; [done|]. split; [done|]. split; [cbn; rewrite elem_of_cons; now left|done].
    + erewrite bind_ok by reflexivity. rewrite (proj2 (Z.eqb_neq a (m_freep s))) by congruence. erewrite bind_ok by reflexivity.
      destruct (IH fuel a (h_ptr (m_hdr s a)) Hs Hni) as [(prev' & a' & n' & H1 & H2 & H3 & H4 & E)|[Hall E]];
        [intros b Hb; apply HN; cbn; rewrite elem_of_cons; now right|apply (HN (a, n)); cbn; rewrite elem_of_cons; now left|done|lia|left|right]; rewrite E.
      * exists prev', a', n'. split; [done|]. split; [done|]. split; [cbn; rewrite elem_of_cons; now right|done].
      * split; [|f_equal; cbn; lia]. cbn. intros b [->|Hb]%elem_of_cons; [done|auto].
Qed.

(** The ring seen from [freep]. *)
Lemma rotate s r al :
  heap s r al -> exists xs k, seg (m_hdr s) (h_ptr (m_hdr s (m_freep s))) (xs ++ [(m_freep s, k)]) (h_ptr (m_hdr s (m_freep s))) /\
    (m_freep s ∉ xs.*1) /\ (forall b, b ∈ xs ++ [(m_freep s, k)] <-> b ∈ (base, 0) :: r) /\ length xs = length r.
Proof.
  intros [_ _ Hring Hfp Hch _ _ _]. change (base :: r.*1) with (((base, 0) :: r).*1) in Hfp.
  apply list_elem_of_fmap in Hfp as ([x k] & E & Hin). cbn in E. apply list_elem_of_split in Hin as (A & B & HR).
  pose proof (chain_sorted _ _ base _ Hch ltac:(unfold HDR; lia)) as Hso. change (base :: r.*1) with (((base, 0) :: r).*1) in Hso.
  rewrite HR in *. rewrite fmap_app in Hso. cbn in Hso. rewrite <- E in *. apply seg_app in Hring as (q & HA & (-> & Hk & HB)).
  apply StronglySorted_app in Hso as (Hlt & _ & [_ Hgt]%StronglySorted_inv). rewrite Forall_forall in Hgt.
  exists (B ++ A), k. split; [|split; [|split]].
  - rewrite <- app_assoc. apply seg_app. exists base. split; [done|]. apply seg_app. exists (m_freep s). done.
  - rewrite fmap_app, elem_of_app. intros [H|H]; [specialize (Hgt _ H); lia|]. specialize (Hlt _ (m_freep s) H ltac:(rewrite elem_of_cons; now left)). lia.
  - intros b. rewrite !elem_of_app, list_elem_of_singleton, elem_of_cons. tauto.
  - apply (f_equal length) in HR. cbn in HR. rewrite !length_app in *. cbn in HR. lia.
Qed.

(** The loop finds the first block that is large enough, if there is one. *)
Lemma search_ok s r al ffuel fuel nunits :
  heap s r al -> 0 < nunits -> (length r < fuel)%nat ->
  let loop := malloc_loop ffuel fuel nunits (m_freep s) (h_ptr (m_hdr s (m_freep s))) s in
  (exists p s' r', loop = Ok (p + HDR) s' /\ heap s' r' ((p, nunits) :: al) /\ m_brk s' = m_brk s /\
     (forall u, cover r u = (cover r' u + cover [(p, nunits)] u)%nat)) \/
  ((forall b, b ∈ r -> b.2 < nunits) /\ loop = grow_and ffuel (fuel - length r - 1) nunits s).
Proof.
  intros Hh Hn Hf loop. destruct (rotate s r al Hh) as (xs & k & Hseg & Hni & Hin & Hlen).
  assert (forall b, b ∈ xs ++ [(m_freep s, k)] -> b.1 ∈ base :: r.*1) as HN.
  { intros b Hb%Hin. change (base :: r.*1) with (((base, 0) :: r).*1). apply list_elem_of_fmap. eauto. }
  destruct (scan s ffuel nunits k _ (fun x => x ∈ base :: r.*1) xs fuel (m_freep s) _ Hseg Hni HN (hp_freep _ _ _ Hh) eq_refl ltac:(lia))
    as [(prev & a & n & H1 & H2 & H3 & H4 & E)|[Hall E]]; [left|right].
  - apply Hin, elem_of_cons in H3 as [[= -> ->]|H3]; [lia|].
    destruct (take_ok s r al prev a n nunits Hh H1 H2 H3 ltac:(lia)) as (p & s' & r' & E' & G). exists p, s', r'. unfold loop. now rewrite E, E'.
  - split; [intros b Hb; apply Hall, Hin; rewrite elem_of_cons; now right|]. unfold loop. now rewrite E, Hlen.
Qed.

Lemma heap_init s r al : heap s r al -> malloc_init s = s /\ m_freep s <> 0.
Proof.
  intros Hh. pose proof (node_below s r al _ Hh (hp_freep _ _ _ Hh)). unfold malloc_init. zdecide. split; [done|lia].
Qed.

(** How many units [malloc] takes. *)
Definition units (nbytes : Z) : Z := u32 ((nbytes + HDR - 1) / HDR + 1).

Lemma units_ok nbytes : 0 <= nbytes <= 2^31 - 32 -> 0 < units nbytes /\ nbytes <= HDR * (units nbytes - 1) /\ HDR * units nbytes < 2^31.
Proof. intros H. unfold units, u32, HDR. dlia. Qed.

Lemma inside_region u b n : 0 <= n -> cover [(b, n)] u = (if decide (b <= u < b + HDR * n)%Z then 1 else 0)%nat.
Proof.
  intros Hn. rewrite cover_cons, cover_nil. case_decide as E; destruct (inside u (b, n)) eqn:Ei; try done.
  - apply not_true_iff_false in Ei. destruct Ei. now apply inside_true.
  - apply inside_true in Ei. done.
Qed.

Lemma malloc_ok s r al nbytes fuel :
  heap s r al -> 0 <= nbytes <= 2^31 - 32 -> (2 * length r + 4 <= fuel)%nat ->
  exists p s', malloc fuel nbytes s = Ok p s' /\
    (p = 0 /\ s' = s /\ (forall b, b ∈ r -> b.2 < units nbytes) /\ grow (m_brk s) (HDR * more (units nbytes)) = false \/
     exists r', p <> 0 /\ heap s' r' ((p - HDR, units nbytes) :: al) /\
       forall u, cover (r' ++ (p - HDR, units nbytes) :: al) u =
         (cover (r ++ al) u + if decide (m_brk s <= u < m_brk s')%Z then 1 else 0)%nat).
Proof.
  intros Hh Hnb Hf. destruct (units_ok nbytes Hnb) as (U1 & U2 & U3). destruct (heap_init s r al Hh) as [Hi Hfp].
  unfold malloc. fold (units nbytes). erewrite bind_ok by reflexivity. rewrite Hi. do 2 erewrite bind_ok by reflexivity.
  assert (forall p s' r', heap s' r' ((p, units nbytes) :: al) -> p + HDR <> 0) as Hnz.
  { intros p s' r' Hh'. pose proof (hp_base _ _ _ Hh'). destruct (hp_low _ _ _ Hh' (p, units nbytes) ltac:(rewrite elem_of_cons; now left)).
    cbn [fst] in *. unfold HDR in *. lia. }
  destruct (search_ok s r al fuel fuel (units nbytes) Hh U1 ltac:(lia)) as [(p & s' & r' & E & Hh' & Hk & Hc)|[Hsmall E]]; rewrite E.
  - exists (p + HDR), s'. split; [done|]. right. exists r'. replace (p + HDR - HDR) with p by lia. split; [now apply (Hnz p s' r')|]. split; [done|].
    intros u. rewrite Hk, decide_False by lia. rewrite !cover_app, (Hc u), !cover_cons, cover_nil. lia.
  - unfold grow_and. destruct (morecore_ok s r al (units nbytes) fuel Hh U1 U3 ltac:(lia)) as [[Hg E']|(s1 & r1 & E' & Hh1 & Hk1 & Hc1 & (b & Hb & Hfit) & Hl)];
      rewrite (bind_ok _ _ _ _ _ E').
    + exists 0, s. split; [done|]. left. done.
    + destruct (heap_init s1 r1 al Hh1) as [_ Hfp1]. rewrite (proj2 (Z.eqb_neq _ _) Hfp1). erewrite bind_ok by reflexivity.
      destruct (search_ok s1 r1 al fuel (fuel - length r - 1) (units nbytes) Hh1 U1 ltac:(lia)) as [(p & s' & r' & E2 & Hh' & Hk & Hc)|[Hsm _]].
      2: { specialize (Hsm b Hb). lia. }
      rewrite E2. exists (p + HDR), s'. split; [done|]. right. exists r'. replace (p + HDR - HDR) with p by lia.
      split; [now apply (Hnz p s' r')|]. split; [done|]. intros u. rewrite Hk, Hk1.
      rewrite <- (inside_region u (m_brk s) (more (units nbytes))) by (unfold more; case_goal; zbool; lia).
      rewrite !cover_app, cover_cons. pose proof (Hc1 u) as G1. pose proof (Hc u) as G2. rewrite (cover_cons (p, units nbytes) []), cover_nil in G2. lia.
Qed.

(** What a program writes into its blocks, after their headers. *)
Lemma heap_client s r al h' :
  heap s r al -> (forall a, (forall b, b ∈ al -> ~ b.1 < a < b.1 + HDR * b.2) -> h' a = m_hdr s a) -> heap (Um h' (m_freep s) (m_brk s)) r al.
Proof.
  intros Hh Hw. pose proof Hh as [H1 H2 H3 H4 H5 H6 H7 H8]. split; cbn [m_hdr m_freep m_brk]; try done.
  - revert H3. apply seg_frame. intros a Ha. apply Hw. intros b Hb. destruct (H6 b Hb) as (B1 & B2 & _).
    apply elem_of_cons in Ha as [->|(c & -> & Hc)%list_elem_of_fmap]; [cbn; unfold HDR in *; lia|].
    destruct (chain_bounds _ _ _ _ H5 Hc) as (_ & C2 & _). destruct (cover_apart _ _ c b H8 Hc Hb C2 B2); unfold HDR in *; lia.
  - intros a n Hin. rewrite Hw; [now apply H7|]. intros b Hb Hab. destruct (H6 _ Hin) as (_ & N2 & _). destruct (H6 _ Hb) as (_ & B2 & _).
    cbn [fst snd] in *. specialize (H8 a). rewrite cover_app in H8. apply list_elem_of_split in Hb as (l1 & l2 & ->).
    rewrite cover_app, cover_cons, (proj2 (inside_true a b)) in H8 by (unfold HDR in *; lia).
    rewrite elem_of_app, elem_of_cons in Hin. destruct Hin as [Hin|[<-|Hin]]; [|cbn in *; lia|];
      pose proof (cover_elem _ _ a Hin ltac:(apply inside_true; cbn; unfold HDR in *; lia)); lia.
Qed.

Lemma heap_fresh s : m_freep s = 0 -> 0 < base -> base + HDR <= m_brk s <= LIMIT -> heap (malloc_init s) [] [].
Proof.
  intros Hf Hb Hk. unfold malloc_init. rewrite Hf. cbn [Z.eqb]. split; cbn; try done; try lia.
  - rewrite !fn_lookup_insert. done.
  - now apply list_elem_of_singleton.
  - intros b Hin. now apply not_elem_of_nil in Hin.
  - intros a n Hin. now apply not_elem_of_nil in Hin.
Qed.

(** C40: [malloc] of at most 2^31 - 32 bytes and [free] keep the heap in order;
    for more bytes it does not hold, see [malloc_too_large].  The first [malloc]
    sets up an empty ring.  In a heap whose free blocks are linked in address order, not
    adjacent, and disjoint from the blocks handed out and those from each other,
    [malloc] ends, and either changes nothing and returns 0, when no free block is
    large enough and the kernel refuses more memory, or returns a block of at least
    the size asked for; [free] of a block handed out ends and coalesces; each byte
    is afterwards in as many blocks, free or handed out, as before, one more if it
    is new memory; and what a program writes into its blocks disturbs nothing.
    The kernel grants no more memory than sizes of 32 bits can count, and requests
    are below 2 GB, since [sbrk] takes an [int]. *)
Theorem malloc_free_correct :
  (forall s, m_freep s = 0 -> 0 < base -> base + HDR <= m_brk s <= LIMIT ->
     heap (malloc_init s) [] [] /\ forall fuel nbytes, malloc fuel nbytes s = malloc fuel nbytes (malloc_init s)) /\
  (forall s r al nbytes fuel, heap s r al -> 0 <= nbytes <= 2^31 - 32 -> (2 * length r + 4 <= fuel)%nat ->
     exists p s' n, malloc fuel nbytes s = Ok p s' /\ nbytes <= HDR * (n - 1) /\
       (p = 0 /\ s' = s /\ (forall b, b ∈ r -> b.2 < n) /\ grow (m_brk s) (HDR * Z.max n 4096) = false \/
        exists r', p <> 0 /\ heap s' r' ((p - HDR, n) :: al) /\
          forall u, cover (r' ++ (p - HDR, n) :: al) u = (cover (r ++ al) u + if decide (m_brk s <= u < m_brk s')%Z then 1 else 0)%nat)) /\
  (forall s r al1 bp n al2 fuel, heap s r (al1 ++ (bp, n) :: al2) -> (length r + 1 <= fuel)%nat ->
     exists s' r', free fuel (bp + HDR) s = Ok tt s' /\ heap s' r' (al1 ++ al2) /\ m_brk s' = m_brk s /\
       forall u, cover (r' ++ al1 ++ al2) u = cover (r ++ al1 ++ (bp, n) :: al2) u) /\
  (forall s r al h', heap s r al -> (forall a, (forall b, b ∈ al -> ~ b.1 < a < b.1 + HDR * b.2) -> h' a = m_hdr s a) ->
     heap (Um h' (m_freep s) (m_brk s)) r al).
Proof.
  split; [|split; [|split]].
  - intros s Hf Hb Hk. pose proof (heap_fresh s Hf Hb Hk) as Hh. split; [done|]. intros fuel nbytes. unfold malloc.
    rewrite !(bind_ok (modify malloc_init) _ _ tt _ eq_refl). now rewrite (proj1 (heap_init _ _ _ Hh)).
  - intros s r al nbytes fuel Hh Hn Hf. destruct (malloc_ok s r al nbytes fuel Hh Hn Hf) as (p & s' & E & Hr).
    exists p, s', (units nbytes). split; [done|]. split; [apply (units_ok nbytes Hn)|].
    replace (Z.max (units nbytes) 4096) with (more (units nbytes)) by (unfold more; case_goal; zbool; lia). done.
  - intros s r al1 bp n al2 fuel Hh Hf. destruct (free_ok s r al1 bp n al2 fuel Hh Hf) as (s' & r' & E & Hh' & Hk & Hc & _).
    exists s', r'. split; [done|]. split; [done|]. split; [done|]. intros u. rewrite !cover_app, Hc, !cover_cons, cover_nil. lia.
  - exact heap_client.
Qed.
End malloc.

(** A program with its static data at 0x2000 and its break at 0x4000, in 128 MB
    of memory. *)
Definition demo_um : um := Um (fun _ => Hdr 0 0) 0 0x4000.
Definition demo_grow (b n : Z) : bool := b + n <=? 2^27.

Lemma demo_grow_ok b n : demo_grow b n = true -> b + n <= LIMIT.
Proof. unfold demo_grow, LIMIT. rewrite Z.leb_le. lia. Qed.

(** A block of 100 bytes is allocated and freed again. *)
Lemma malloc_free_correct_witness :
  exists p s r, malloc 0x2000 demo_grow 4 100 demo_um = Ok p s /\ heap 0x2000 s r [(p - HDR, 8)] /\
    exists s' r', free (length r + 1) p s = Ok tt s' /\ heap 0x2000 s' r' [].
Proof.
  destruct (malloc_free_correct 0x2000 demo_grow demo_grow_ok) as (Hi & Hm & Hf & _).
  destruct (Hi demo_um eq_refl ltac:(lia) ltac:(unfold HDR, LIMIT; cbn; lia)) as [Hh E0]. rewrite E0.
  destruct (Hm _ _ _ 100 4%nat Hh ltac:(lia) ltac:(cbn; lia)) as (p & s & n & E & Hn & [(-> & -> & _ & _)|(r & Hp & Hh' & _)]).
  - vm_compute in E. discriminate.
  - exists p, s, r. split; [done|]. assert (n = 8) as ->.
    { rewrite <- (hp_alloc _ _ _ _ Hh' (p - HDR) n) by (rewrite elem_of_cons; now left). vm_compute in E. injection E as <- <-. reflexivity. }
    split; [done|]. destruct (Hf s r [] (p - HDR) 8 [] (length r + 1)%nat Hh' ltac:(lia)) as (s' & r' & E' & Hh2 & _).
    exists s', r'. replace (p - HDR + HDR) with p in E' by lia. done.
Defined.

(** Larger requests wrap around: the kernel is asked for 16 bytes when a program
    asks for all that an unsigned number can say. *)
Lemma malloc_too_large :
  match malloc 0x2000 demo_grow 4 (2^32 - 1) demo_um with
  | Ok p s => p <> 0 /\ m_brk s = m_brk demo_um + 16
  | _ => False
  end.
Proof. vm_compute. split; [discriminate|reflexivity]. Qed.
