(* ===== verification/Sh.v ===== *)
(** * user/sh.c: the parser of the shell

    The string [s] is the bytes before the terminating NUL; pointers into it are
    offsets and [es] is its length.  The state is the offset [*ps].  A command is a
    tree whose words are pairs of pointers; the same type with words of bytes is
    what a command means.  [panic] prints a message and exits. *)

From stdpp Require Import base list numbers strings.
From S2P Require Import Prelude Sysfile.

Local Open Scope Z_scope.

Definition MAXARGS : nat := 10.

Inductive cmd (A : Type) :=
  | EXEC (argv : list A)
  | REDIR (c : cmd A) (file : A) (mode fd : Z)
  | PIPE (left right : cmd A)
  | LIST (left right : cmd A)
  | BACK (c : cmd A).
Arguments EXEC {A} argv.
Arguments REDIR {A} c file mode fd.
Arguments PIPE {A} left right.
Arguments LIST {A} left right.
Arguments BACK {A} c.

(** A word is [argv[i]] with [eargv[i]], or [file] with [efile]. *)
Definition pcmd : Type := cmd (nat * nat).

(** Space, tab, return, newline and vertical tab. *)
Definition whitespace : list Z := [32; 9; 13; 10; 11].
Definition ch_lt : Z := 60.
Definition ch_bar : Z := 124.
Definition ch_gt : Z := 62.
Definition ch_amp : Z := 38.
Definition ch_semi : Z := 59.
Definition ch_open : Z := 40.
Definition ch_close : Z := 41.
Definition ch_plus : Z := 43.
Definition ch_a : Z := 97.
Definition symbols : list Z := [ch_lt; ch_bar; ch_gt; ch_amp; ch_semi; ch_open; ch_close].

(** [strchr(l, c) != 0]. *)
Definition in_str (l : list Z) (c : Z) : bool := existsb (Z.eqb c) l.

(** How far a loop [while(s < es && ...) s++] goes. *)
Fixpoint span (f : Z -> bool) (t : list Z) : nat :=
  match t with
  | [] => O
  | c :: t' => if f c then S (span f t') else O
  end.

Definition is_ws : Z -> bool := in_str whitespace.
Definition in_word (c : Z) : bool := negb (in_str whitespace c) && negb (in_str symbols c).

Section parser.
Context (s : list Z).

(** [*p]: the NUL is at the end. *)
Definition at_ (i : nat) : Z := nth i s 0.

Definition skip (f : Z -> bool) (i : nat) : nat := (i + span f (drop i s))%nat.

(** The kind of token, and where it begins and ends. *)
Definition gettoken : M nat (Z * nat * nat) :=
  i ← gets (fun i => i);
  let q := skip is_ws i in
  let c := at_ q in
  let '(ret, eq) :=
    if c =? 0 then (c, q)
    else if in_str [ch_bar; ch_open; ch_close; ch_semi; ch_amp; ch_lt] c then (c, S q)
    else if c =? ch_gt then
      if at_ (S q) =? ch_gt then (ch_plus, S (S q)) else (c, S q)
    else (ch_a, skip in_word q) in
  modify (fun _ => skip is_ws eq);;
  mret (ret, q, eq).

Definition peek (toks : list Z) : M nat bool :=
  modify (skip is_ws);;
  i ← gets (fun i => i);
  mret (negb (at_ i =? 0) && in_str toks (at_ i)).

(** The switch of [parseredirs]. *)
Definition redir_cmd (tok : Z) (c : pcmd) (word : nat * nat) : pcmd :=
  if tok =? ch_lt then REDIR c word O_RDONLY 0
  else if tok =? ch_gt then REDIR c word (Z.lor (Z.lor O_WRONLY O_CREATE) O_TRUNC) 1
  else if tok =? ch_plus then REDIR c word (Z.lor O_WRONLY O_CREATE) 1
  else c.

(** Every round takes a token, so the length of the string is fuel enough here
    and in the other loops. *)
Fixpoint parseredirs (fuel : nat) (c : pcmd) : M nat pcmd :=
  match fuel with
  | O => diverge
  | S fuel' =>
      b ← peek [ch_lt; ch_gt];
      if negb b then mret c else
      t ← gettoken;
      w ← gettoken;
      if negb (w.1.1 =? ch_a) then panic "missing file for redirection" else
      parseredirs fuel' (redir_cmd t.1.1 c (w.1.2, w.2))
  end.

Definition redirs (c : pcmd) : M nat pcmd := parseredirs (S (length s)) c.

(** [cmd->argv[argc] = q] on the [struct execcmd] that [ret] is, or that its
    redirections lead to. *)
Fixpoint add_arg {A} (w : A) (ret : cmd A) : cmd A :=
  match ret with
  | EXEC argv => EXEC (argv ++ [w])
  | REDIR c f m d => REDIR (add_arg w c) f m d
  | _ => ret
  end.

(** The loop of [parseexec]. *)
Fixpoint parseargs (fuel argc : nat) (ret : pcmd) : M nat pcmd :=
  match fuel with
  | O => diverge
  | S fuel' =>
      b ← peek [ch_bar; ch_close; ch_amp; ch_semi];
      if (b : bool) then mret ret else
      t ← gettoken;
      if t.1.1 =? 0 then mret ret else
      if negb (t.1.1 =? ch_a) then panic "syntax" else
      let ret := add_arg (t.1.2, t.2) ret in
      if (MAXARGS <=? S argc)%nat then panic "too many args" else
      ret ← redirs ret;
      parseargs fuel' (S argc) ret
  end.

(** The loop of [parseline]. *)
Fixpoint parseback (fuel : nat) (c : pcmd) : M nat pcmd :=
  match fuel with
  | O => diverge
  | S fuel' =>
      b ← peek [ch_amp];
      if negb b then mret c else
      gettoken;;
      parseback fuel' (BACK c)
  end.

Fixpoint parseline (fuel : nat) : M nat pcmd :=
  match fuel with
  | O => diverge
  | S fuel' =>
      c ← parsepipe fuel';
      c ← parseback (S (length s)) c;
      b ← peek [ch_semi];
      if (b : bool) then
        gettoken;;
        r ← parseline fuel';
        mret (LIST c r)
      else mret c
  end
with parsepipe (fuel : nat) : M nat pcmd :=
  match fuel with
  | O => diverge
  | S fuel' =>
      c ← parseexec fuel';
      b ← peek [ch_bar];
      if (b : bool) then
        gettoken;;
        r ← parsepipe fuel';
        mret (PIPE c r)
      else mret c
  end
with parseexec (fuel : nat) : M nat pcmd :=
  match fuel with
  | O => diverge
  | S fuel' =>
      b ← peek [ch_open];
      if (b : bool) then parseblock fuel' else
      ret ← redirs (EXEC []);
      parseargs (S (length s)) 0 ret
  end
with parseblock (fuel : nat) : M nat pcmd :=
  match fuel with
  | O => diverge
  | S fuel' =>
      b ← peek [ch_open];
      if negb b then panic "parseblock" else
      gettoken;;
      c ← parseline fuel';
      b ← peek [ch_close];
      if negb b then panic "syntax - missing )" else
      gettoken;;
      redirs c
  end.
End parser.

(** NULs at the ends of the words. *)
Fixpoint nulterminate (c : pcmd) (buf : list Z) : list Z :=
  match c with
  | EXEC argv => foldl (fun b w => <[w.2 := 0]> b) buf argv
  | REDIR c w _ _ => <[w.2 := 0]> (nulterminate c buf)
  | PIPE l r | LIST l r => nulterminate r (nulterminate l buf)
  | BACK c => nulterminate c buf
  end.

(** The command, and the string with its NUL as it is then.  Four calls for each
    parenthesis are fuel enough. *)
Definition parsecmd (s : list Z) : outcome nat (pcmd * list Z) :=
  (c ← parseline s (4 * length s + 4);
   peek s [];;
   i ← gets (fun i => i);
   if negb (i =? length s)%nat then panic "syntax" else
   mret (c, nulterminate c (s ++ [0]))) O.

(** ** Tokens *)

Lemma span_le f t : (span f t <= length t)%nat.
Proof. induction t as [|c t IH]; cbn; [lia|]. destruct (f c); lia. Qed.

Lemma span_in f t : forall k, (k < span f t)%nat -> f (nth k t 0) = true.
Proof. induction t as [|c t IH]; intros k; cbn; [lia|]. destruct (f c) eqn:E; [|lia]. destruct k; [done|]. intros Hk. apply IH. lia. Qed.

Lemma span_end f t : (span f t < length t)%nat -> f (nth (span f t) t 0) = false.
Proof. induction t as [|c t IH]; cbn; [lia|]. destruct (f c) eqn:E; [|done]. intros H. apply IH. lia. Qed.

Lemma nth_drop (l : list Z) : forall i k, nth k (drop i l) 0 = nth (i + k) l 0.
Proof. induction l as [|c l IH]; intros [|i] k; cbn; try done. now destruct k. Qed.

Fixpoint words {A} (c : cmd A) : list A :=
  match c with
  | EXEC argv => argv
  | REDIR c w _ _ => words c ++ [w]
  | PIPE l r | LIST l r => words l ++ words r
  | BACK c => words c
  end.

Section tokens.
Context (s : list Z) (Hnul : 0 ∉ s).

Lemma nth_drop_at i k : nth k (drop i s) 0 = at_ s (i + k).
Proof. apply nth_drop. Qed.

Lemma skip_bounds f i : (i <= length s)%nat -> (i <= skip s f i <= length s)%nat.
Proof. intros Hi. unfold skip. pose proof (span_le f (drop i s)) as H. rewrite length_drop in H. lia. Qed.

Lemma skip_in f i j : (i <= j < skip s f i)%nat -> f (at_ s j) = true.
Proof. intros Hj. unfold skip in Hj. replace j with (i + (j - i))%nat by lia. rewrite <- nth_drop_at. apply span_in. lia. Qed.

Lemma skip_end f i : (skip s f i < length s)%nat -> f (at_ s (skip s f i)) = false.
Proof. unfold skip. intros H. rewrite <- nth_drop_at. apply span_end. rewrite length_drop. lia. Qed.

Lemma skip_stays f i : f (at_ s i) = false -> skip s f i = i.
Proof.
  intros E. pose proof (skip_in f i i) as H. unfold skip in *. destruct (span f (drop i s)); [lia|]. rewrite H in E by lia. done.
Qed.

Lemma at_zero i : at_ s i = 0 <-> (length s <= i)%nat.
Proof.
  unfold at_. split.
  - intros E. destruct (Nat.le_gt_cases (length s) i) as [|Hlt]; [done|]. destruct Hnul. rewrite <- E. apply list_elem_of_In, nth_In, Hlt.
  - intros H. now apply nth_overflow.
Qed.

(** A word of the string, as long as it can be. *)
Definition good (w : nat * nat) : Prop :=
  (w.1 < w.2 <= length s)%nat /\ (forall j, (w.1 <= j < w.2)%nat -> in_word (at_ s j) = true) /\
  ((w.2 < length s)%nat -> in_word (at_ s w.2) = false).

Lemma is_ws_zero : is_ws 0 = false.
Proof. done. Qed.

Lemma word_char c :
  c <> 0 -> in_str [ch_bar; ch_open; ch_close; ch_semi; ch_amp; ch_lt] c = false -> c <> ch_gt -> is_ws c = false -> in_word c = true.
Proof.
  intros H0 Hs Hg Hw. unfold in_word. fold (is_ws c). rewrite Hw. cbn [negb andb]. cbn in *.
  repeat match goal with H : (_ || _) = false |- _ => apply orb_false_iff in H as [? ?] end.
  repeat match goal with H : (c =? _) = false |- _ => rewrite H; clear H end. rewrite (proj2 (Z.eqb_neq c _) Hg). done.
Qed.

Lemma gettoken_ok i : (i <= length s)%nat ->
  exists ret q eq i', gettoken s i = Ok (ret, q, eq) i' /\ (i <= i' <= length s)%nat /\ (ret = ch_a -> good (q, eq)) /\
    (ret <> 0 -> (i < i')%nat) /\ (is_ws (at_ s i) = false -> at_ s i <> 0 -> (i < i')%nat).
Proof.
  intros Hi. unfold gettoken. erewrite bind_ok by reflexivity. cbv zeta. set (q := skip s is_ws i).
  pose proof (skip_bounds is_ws i Hi) as Hq. fold q in Hq.
  assert (is_ws (at_ s i) = false -> q = i) as Hsame by (intros E; unfold q; now apply skip_stays).
  assert (forall e, (q < e <= length s)%nat -> (i <= skip s is_ws e <= length s)%nat /\ (i < skip s is_ws e)%nat) as Hadv.
  { intros e He. pose proof (skip_bounds is_ws e ltac:(lia)). lia. }
  destruct (Z.eqb_spec (at_ s q) 0) as [E0|E0].
  { eexists _, _, _, _. split; [reflexivity|]. pose proof (skip_bounds is_ws q ltac:(lia)). rewrite E0. split; [lia|].
    split; [done|]. split; [done|]. intros Hw. rewrite <- (Hsame Hw). done. }
  assert (q < length s)%nat as Hql by (rewrite at_zero in E0; lia).
  destruct (in_str _ (at_ s q)) eqn:Es.
  { eexists _, _, _, _. split; [reflexivity|]. destruct (Hadv (S q) ltac:(lia)). split; [done|]. split; [|done].
    intros E. rewrite E in Es. done. }
  destruct (Z.eqb_spec (at_ s q) ch_gt) as [Eg|Eg].
  { destruct (Z.eqb_spec (at_ s (S q)) ch_gt) as [E2|E2].
    - assert (S q < length s)%nat by (destruct (Nat.le_gt_cases (length s) (S q)) as [H|]; [apply at_zero in H; rewrite E2 in H; done|done]).
      eexists _, _, _, _. split; [reflexivity|]. destruct (Hadv (S (S q)) ltac:(lia)). done.
    - eexists _, _, _, _. split; [reflexivity|]. destruct (Hadv (S q) ltac:(lia)). rewrite Eg. done. }
  pose proof (word_char _ E0 Es Eg (skip_end is_ws i Hql)) as Hwq. pose proof (skip_bounds in_word q ltac:(lia)) as He.
  assert (q < skip s in_word q)%nat as Hlt.
  { destruct (Nat.eq_dec (skip s in_word q) q) as [E|]; [|lia]. pose proof (skip_end in_word q) as H. rewrite E in H. rewrite H in Hwq by done. done. }
  eexists _, _, _, _. split; [reflexivity|]. destruct (Hadv (skip s in_word q) ltac:(lia)). split; [done|]. split; [|done].
  intros _. split; [cbn; lia|]. split; [intros j Hj; now apply (skip_in in_word q)|]. cbn. intros H'. now apply skip_end.
Qed.

Lemma peek_ok toks i : (i <= length s)%nat ->
  exists b i', peek s toks i = Ok b i' /\ (i <= i' <= length s)%nat /\ (b = true -> is_ws (at_ s i') = false /\ at_ s i' <> 0).
Proof.
  intros Hi. unfold peek. do 2 erewrite bind_ok by reflexivity. pose proof (skip_bounds is_ws i Hi). eexists _, _. split; [reflexivity|].
  split; [done|]. intros [H0 _]%andb_true_iff. apply negb_true_iff, Z.eqb_neq in H0. split; [|done].
  apply skip_end. rewrite at_zero in H0. lia.
Qed.

(** ** The parser ends *)

(** A command whose words are words of the string, further on; or a syntax
    error. *)
Definition safe (i : nat) (o : outcome nat pcmd) : Prop :=
  match o with
  | Ok c i' => (i <= i' <= length s)%nat /\ Forall good (words c)
  | Panic _ => True
  | Diverge => False
  end.

Lemma safe_weaken i i' o : (i' <= i)%nat -> safe i o -> safe i' o.
Proof. intros Hi. destruct o; cbn; [|done..]. intros [? ?]. split; [lia|done]. Qed.

Lemma safe_bind i (m : M nat pcmd) (k : pcmd -> M nat pcmd) :
  safe i (m i) -> (forall c i', (i <= i' <= length s)%nat -> Forall good (words c) -> safe i' (k c i')) -> safe i ((m ≫= k) i).
Proof.
  intros Hm Hk. unfold mbind, M_bind. destruct (m i) as [c i'| |]; [|done..]. destruct Hm as [Hi Hc].
  apply (safe_weaken i' i); [lia|]. now apply Hk.
Qed.

(** A token that [peek] has seen. *)
Lemma token_after toks i i' : (i <= length s)%nat -> peek s toks i = Ok true i' ->
  exists t i'', gettoken s i' = Ok t i'' /\ (i < i'' <= length s)%nat.
Proof.
  intros Hi E. destruct (peek_ok toks i Hi) as (b & j & E' & Hj & Hb). rewrite E in E'. injection E' as <- <-. destruct (Hb eq_refl) as [H1 H2].
  destruct (gettoken_ok i' ltac:(lia)) as (ret & q & eq & i'' & Et & Hi'' & _ & _ & Hlt). exists (ret, q, eq), i''. specialize (Hlt H1 H2). split; [done|lia].
Qed.

Lemma parseredirs_safe fuel : forall i c,
  (i <= length s)%nat -> (length s - i < fuel)%nat -> Forall good (words c) -> safe i (parseredirs s fuel c i).
Proof.
  induction fuel as [|fuel IH]; intros i c Hi Hf Hc; [lia|]. cbn [parseredirs].
  destruct (peek_ok [ch_lt; ch_gt] i Hi) as (b & j & E & Hj & _). rewrite (bind_ok _ _ _ _ _ E). destruct b; cbn [negb]; [|split; [lia|done]].
  destruct (token_after _ _ _ Hi E) as (t & k & Et & Hk). rewrite (bind_ok _ _ _ _ _ Et).
  destruct (gettoken_ok k ltac:(lia)) as (ret & q & eq & l & Ew & Hl & Hg & _). rewrite (bind_ok _ _ _ _ _ Ew). cbn [fst snd].
  destruct (Z.eqb_spec ret ch_a) as [Ea|]; [|done]. cbn [negb]. apply (safe_weaken l i); [lia|]. apply IH; [lia|lia|].
  specialize (Hg Ea). unfold redir_cmd. repeat case_goal; cbn [words]; try done; apply Forall_app; split; try done; now constructor.
Qed.

Lemma redirs_safe i c : (i <= length s)%nat -> Forall good (words c) -> safe i (redirs s c i).
Proof. intros Hi Hc. apply parseredirs_safe; [done|lia|done]. Qed.

Lemma words_add_arg {A} (P : A -> Prop) w (c : cmd A) : P w -> Forall P (words c) -> Forall P (words (add_arg w c)).
Proof.
  intros Hw. induction c; cbn; try done; intros Hc; [apply Forall_app; split; [done|now constructor]|].
  apply Forall_app in Hc as [H1 H2]. apply Forall_app. auto.
Qed.

Lemma parseargs_safe fuel : forall argc i c,
  (i <= length s)%nat -> (length s - i < fuel)%nat -> Forall good (words c) -> safe i (parseargs s fuel argc c i).
Proof.
  induction fuel as [|fuel IH]; intros argc i c Hi Hf Hc; [lia|]. cbn [parseargs].
  destruct (peek_ok [ch_bar; ch_close; ch_amp; ch_semi] i Hi) as (b & j & E & Hj & _). rewrite (bind_ok _ _ _ _ _ E).
  destruct b; [split; [lia|done]|]. destruct (gettoken_ok j ltac:(lia)) as (ret & q & eq & k & Et & Hk & Hg & Hlt & _).
  rewrite (bind_ok _ _ _ _ _ Et). cbn [fst snd]. destruct (Z.eqb_spec ret 0) as [|H0]; [split; [lia|done]|].
  destruct (Z.eqb_spec ret ch_a) as [Ea|]; [|done]. cbn [negb]. case_goal; [done|]. specialize (Hlt H0). specialize (Hg Ea).
  apply (safe_weaken k i); [lia|]. apply safe_bind; [apply redirs_safe; [lia|now apply words_add_arg]|].
  intros c' i' Hi' Hc'. apply IH; [lia|lia|done].
Qed.

Lemma parseback_safe fuel : forall i c,
  (i <= length s)%nat -> (length s - i < fuel)%nat -> Forall good (words c) -> safe i (parseback s fuel c i).
Proof.
  induction fuel as [|fuel IH]; intros i c Hi Hf Hc; [lia|]. cbn [parseback].
  destruct (peek_ok [ch_amp] i Hi) as (b & j & E & Hj & _). rewrite (bind_ok _ _ _ _ _ E). destruct b; cbn [negb]; [|split; [lia|done]].
  destruct (token_after _ _ _ Hi E) as (t & k & Et & Hk). rewrite (bind_ok _ _ _ _ _ Et). apply (safe_weaken k i); [lia|]. apply IH; [lia|lia|done].
Qed.

Lemma parse_safe fuel : forall i, (i <= length s)%nat ->
  ((4 * (length s - i) + 4 <= fuel)%nat -> safe i (parseline s fuel i)) /\
  ((4 * (length s - i) + 3 <= fuel)%nat -> safe i (parsepipe s fuel i)) /\
  ((4 * (length s - i) + 2 <= fuel)%nat -> safe i (parseexec s fuel i)) /\
  ((4 * (length s - i) + 1 <= fuel)%nat -> safe i (parseblock s fuel i)).
Proof.
  induction fuel as [|fuel IH]; intros i Hi; [split; [|split; [|split]]; lia|].
  split; [|split; [|split]]; intros Hf; cbn [parseline parsepipe parseexec parseblock].
  - apply safe_bind; [apply (IH i Hi); lia|]. intros c i1 H1 Hc. apply safe_bind; [apply parseback_safe; [lia|lia|done]|]. intros c2 i2 H2 Hc2.
    destruct (peek_ok [ch_semi] i2 ltac:(lia)) as (b & j & E & Hj & _). rewrite (bind_ok _ _ _ _ _ E). destruct b; [|split; [lia|done]].
    destruct (token_after _ i2 _ ltac:(lia) E) as (t & k & Et & Hk). rewrite (bind_ok _ _ _ _ _ Et). apply (safe_weaken k i2); [lia|].
    apply safe_bind; [apply (IH k); lia|]. intros c3 i3 H3 Hc3. split; [lia|]. cbn. now apply Forall_app.
  - apply safe_bind; [apply (IH i Hi); lia|]. intros c i1 H1 Hc.
    destruct (peek_ok [ch_bar] i1 ltac:(lia)) as (b & j & E & Hj & _). rewrite (bind_ok _ _ _ _ _ E). destruct b; [|split; [lia|done]].
    destruct (token_after _ i1 _ ltac:(lia) E) as (t & k & Et & Hk). rewrite (bind_ok _ _ _ _ _ Et). apply (safe_weaken k i1); [lia|].
    apply safe_bind; [apply (IH k); lia|]. intros c3 i3 H3 Hc3. split; [lia|]. cbn. now apply Forall_app.
  - destruct (peek_ok [ch_open] i Hi) as (b & j & E & Hj & _). rewrite (bind_ok _ _ _ _ _ E). apply (safe_weaken j i); [lia|].
    destruct b; [apply (IH j); lia|]. apply safe_bind; [apply redirs_safe; [lia|constructor]|]. intros c i1 H1 Hc. apply parseargs_safe; [lia|lia|done].
  - destruct (peek_ok [ch_open] i Hi) as (b & j & E & Hj & _). rewrite (bind_ok _ _ _ _ _ E). destruct b; cbn [negb]; [|done].
    destruct (token_after _ _ _ Hi E) as (t & k & Et & Hk). rewrite (bind_ok _ _ _ _ _ Et). apply (safe_weaken k i); [lia|].
    apply safe_bind; [apply (IH k); lia|]. intros c i1 H1 Hc.
    destruct (peek_ok [ch_close] i1 ltac:(lia)) as (b2 & j2 & E2 & Hj2 & _). rewrite (bind_ok _ _ _ _ _ E2). destruct b2; cbn [negb]; [|done].
    destruct (token_after _ i1 _ ltac:(lia) E2) as (t2 & k2 & Et2 & Hk2). rewrite (bind_ok _ _ _ _ _ Et2). apply (safe_weaken k2 i1); [lia|].
    apply redirs_safe; [lia|done].
Qed.

(** ** The words as strings *)

Lemma take_nth_eq n : forall l l' : list Z,
  (n <= length l)%nat -> (n <= length l')%nat -> (forall k, (k < n)%nat -> nth k l 0 = nth k l' 0) -> take n l = take n l'.
Proof.
  induction n as [|n IH]; intros [|c l] [|c' l'] H1 H2 H; cbn in *; try lia; try done.
  f_equal; [exact (H 0%nat ltac:(lia))|]. apply IH; [lia|lia|]. intros k Hk. exact (H (S k) ltac:(lia)).
Qed.

Lemma span_exact f (l : list Z) n :
  (n <= length l)%nat -> (forall k, (k < n)%nat -> f (nth k l 0) = true) -> (n = length l \/ f (nth n l 0) = false) -> span f l = n.
Proof.
  revert n. induction l as [|c l IH]; intros n Hn H1 H2; cbn in *; [lia|]. destruct n as [|n].
  - destruct H2 as [|H2]; [lia|]. cbn in H2. now rewrite H2.
  - rewrite (H1 0%nat ltac:(lia)). f_equal. apply IH; [lia|intros k Hk; exact (H1 (S k) ltac:(lia))|]. destruct H2 as [H2|H2]; [left; lia|right; exact H2].
Qed.

Lemma nth_nul (b : list Z) : forall e j, nth j (<[e := 0]> b) 0 = if decide (j = e) then 0 else nth j b 0.
Proof.
  induction b as [|c b IH]; intros [|e] [|j]; cbn; try done; try (now case_decide). fold (<[e := 0]> b).
  rewrite IH. repeat case_decide; congruence.
Qed.

(** The string at a pointer. *)
Definition cstr (b : list Z) (q : nat) : list Z := take (span (fun c => negb (c =? 0)) (drop q b)) (drop q b).

Definition text (w : nat * nat) : list Z := take (w.2 - w.1) (drop w.1 s).

Lemma nulterminate_nth c : forall b,
  length (nulterminate c b) = length b /\ forall j, nth j (nulterminate c b) 0 = if decide (j ∈ (words c).*2) then 0 else nth j b 0.
Proof.
  induction c as [argv|c IH w m d|l IHl r IHr|l IHl r IHr|c IH]; intros b; cbn [nulterminate words].
  - revert b. induction argv as [|w argv IH]; intros b; cbn [foldl]; [done|]. destruct (IH (<[w.2 := 0]> b)) as [L N].
    rewrite L, length_insert. split; [done|]. intros j. rewrite N, nth_nul. cbn. repeat case_decide; rewrite ?elem_of_cons in *; tauto.
  - destruct (IH b) as [L N]. rewrite length_insert. split; [done|]. intros j. rewrite nth_nul, N, fmap_app. cbn [fmap list_fmap].
    repeat case_decide; rewrite ?elem_of_app, ?list_elem_of_singleton in *; tauto.
  - destruct (IHl b) as [L1 N1]. destruct (IHr (nulterminate l b)) as [L2 N2]. split; [congruence|]. intros j. rewrite N2, N1, fmap_app.
    repeat case_decide; rewrite ?elem_of_app in *; tauto.
  - destruct (IHl b) as [L1 N1]. destruct (IHr (nulterminate l b)) as [L2 N2]. split; [congruence|]. intros j. rewrite N2, N1, fmap_app.
    repeat case_decide; rewrite ?elem_of_app in *; tauto.
  - apply IH.
Qed.

(** A NUL at the end of one word is not inside another. *)
Lemma nulterminate_words c w :
  Forall good (words c) -> w ∈ words c -> cstr (nulterminate c (s ++ [0])) w.1 = text w.
Proof.
  intros Hg Hw. rewrite Forall_forall in Hg. destruct (Hg w Hw) as (Hr & Hin & _). destruct (nulterminate_nth c (s ++ [0])) as [L N].
  rewrite length_app in L. cbn in L. unfold cstr, text. set (b := nulterminate c (s ++ [0])) in *.
  assert (forall k, (k < w.2 - w.1)%nat -> nth k (drop w.1 b) 0 = at_ s (w.1 + k)) as Hk.
  { intros k Hk. rewrite nth_drop, N. rewrite decide_False; [unfold at_; rewrite app_nth1 by lia; done|].
    intros ([q e] & E & He)%list_elem_of_fmap. cbn in E. destruct (Hg _ He) as (Hr' & _ & Hend). cbn in Hr', Hend.
    rewrite <- E in Hend, Hr'. rewrite Hin in Hend by lia. specialize (Hend ltac:(lia)). done. }
  assert (span (fun c => negb (c =? 0)) (drop w.1 b) = (w.2 - w.1)%nat) as ->.
  { apply span_exact; [rewrite length_drop; lia| |right].
    - intros k Hlt. rewrite Hk by done. apply negb_true_iff, Z.eqb_neq. rewrite at_zero. lia.
    - rewrite nth_drop, N. rewrite decide_True; [done|]. replace (w.1 + (w.2 - w.1))%nat with w.2 by lia. now apply list_elem_of_fmap_2. }
  apply take_nth_eq; [rewrite length_drop; lia..|]. intros k Hlt. rewrite Hk by done. now rewrite nth_drop.
Qed.
End tokens.

(** ** Printing a command *)

Definition tcmd : Type := cmd (list Z).

(** Words separated by spaces. *)
Fixpoint join (ws : list (list Z)) : list Z :=
  match ws with
  | [] => []
  | w :: ws' => w ++ match ws' with [] => [] | _ => 32 :: join ws' end
  end.

(** A redirection as the shell writes it. *)
Definition show_op (mode fd : Z) : list Z :=
  if mode =? O_RDONLY then [ch_lt]
  else if mode =? Z.lor (Z.lor O_WRONLY O_CREATE) O_TRUNC then [ch_gt]
  else [ch_gt; ch_gt].

(** What binds: lists, background commands, pipes, and commands that [parseexec]
    reads. *)
Definition level (t : tcmd) : nat :=
  match t with LIST _ _ => 0 | BACK _ => 1 | PIPE _ _ => 2 | _ => 3 end.

Definition paren (k : nat) (t : tcmd) (b : list Z) : list Z :=
  if (k <=? level t)%nat then b else ch_open :: b ++ [ch_close].

(** A command with no more parentheses than it needs. *)
Fixpoint show (t : tcmd) : list Z :=
  match t with
  | EXEC ws => join ws
  | REDIR c f m d => paren 3 c (show c) ++ show_op m d ++ f
  | PIPE l r => paren 3 l (show l) ++ ch_bar :: paren 2 r (show r)
  | BACK c => paren 1 c (show c) ++ [ch_amp]
  | LIST l r => paren 1 l (show l) ++ ch_semi :: show r
  end.

Definition word_ok (w : list Z) : Prop := w <> [] /\ Forall (fun c => in_word c = true /\ c <> 0) w.

Definition redir_ok (m d : Z) : Prop :=
  m = O_RDONLY /\ d = 0 \/ m = Z.lor (Z.lor O_WRONLY O_CREATE) O_TRUNC /\ d = 1 \/ m = Z.lor O_WRONLY O_CREATE /\ d = 1.

(** The commands the shell can hold: words without blanks and symbols, fewer than
    [MAXARGS] arguments, and the redirections it knows. *)
Fixpoint cmd_ok (t : tcmd) : Prop :=
  match t with
  | EXEC ws => Forall word_ok ws /\ (length ws < MAXARGS)%nat
  | REDIR c f m d => cmd_ok c /\ word_ok f /\ redir_ok m d
  | PIPE l r | LIST l r => cmd_ok l /\ cmd_ok r
  | BACK c => cmd_ok c
  end.

(** The words of a parsed command. *)
Fixpoint texts (s : list Z) (c : pcmd) : tcmd :=
  match c with
  | EXEC argv => EXEC (map (text s) argv)
  | REDIR c w m d => REDIR (texts s c) (text s w) m d
  | PIPE l r => PIPE (texts s l) (texts s r)
  | LIST l r => LIST (texts s l) (texts s r)
  | BACK c => BACK (texts s c)
  end.

Section roundtrip.
Context (s : list Z).

(** What is at an offset. *)
Definition from (i : nat) (l : list Z) : Prop := drop i s = l /\ (i <= length s)%nat.

Lemma from_at i c l : from i (c :: l) -> at_ s i = c /\ from (S i) l /\ (i < length s)%nat.
Proof.
  intros [E Hi]. assert (at_ s i = c) as Ha by (unfold at_; rewrite <- (Nat.add_0_r i), <- nth_drop, E; done).
  assert (i < length s)%nat by (pose proof (f_equal length E) as L; rewrite length_drop in L; cbn in L; lia).
  split; [done|]. split; [|done]. split; [|lia]. replace (S i) with (i + 1)%nat by lia. now rewrite <- drop_drop, E.
Qed.

Lemma from_nil i : from i [] -> at_ s i = 0 /\ i = length s.
Proof.
  intros [E Hi]. pose proof (f_equal length E) as L. rewrite length_drop in L. cbn in L. split; [|lia]. unfold at_. apply nth_overflow. lia.
Qed.

Lemma from_app i l l' : from i (l ++ l') -> from (i + length l) l'.
Proof.
  intros [E Hi]. split; [rewrite <- drop_drop, E; apply drop_app_length|].
  pose proof (f_equal length E) as L. rewrite length_drop, length_app in L. lia.
Qed.

(** The first byte, if there is one, is [f]. *)
Definition head_is (f : Z -> bool) (l : list Z) : Prop := match l with [] => True | c :: _ => f c = true end.

Lemma from_head i l f : from i l -> head_is f l -> f 0 = true -> f (at_ s i) = true.
Proof. destruct l; intros H1 H2 H3; [now rewrite (proj1 (from_nil _ H1))|now rewrite (proj1 (from_at _ _ _ H1))]. Qed.

Lemma skip_from f i l : from i l -> head_is (fun c => negb (f c)) l -> skip s f i = i.
Proof.
  intros Hl Hh. destruct l as [|c l].
  - destruct Hl as [E _]. unfold skip. rewrite E. cbn. lia.
  - cbn in Hh. destruct (f c) eqn:Ec; [done|]. unfold skip. destruct Hl as [-> _]. cbn. rewrite Ec. lia.
Qed.

Lemma peek_at toks i l : from i l -> head_is (fun c => negb (is_ws c)) l -> peek s toks i = Ok (negb (at_ s i =? 0) && in_str toks (at_ s i)) i.
Proof. intros Hl Hh. unfold peek. do 2 erewrite bind_ok by reflexivity. now rewrite (skip_from _ _ _ Hl Hh). Qed.

(** What can follow a command that [parseexec] reads. *)
Definition stop : Z -> bool := in_str [ch_bar; ch_close; ch_amp; ch_semi].
Definition clean (c : Z) : bool := negb (is_ws c).

Lemma head_mono (f g : Z -> bool) l : (forall c, f c = true -> g c = true) -> head_is f l -> head_is g l.
Proof. intros H. destruct l; cbn; auto. Qed.

(** A property of the bytes that can follow holds of each of them. *)
Ltac stop_cases :=
  intros ? ?; repeat match goal with
  | H : stop _ = true |- _ => unfold stop in H; cbn [in_str existsb] in H
  | H : (_ || _) = true |- _ => apply orb_true_iff in H as [H|H]
  | H : (_ =? _) = true |- _ => apply Z.eqb_eq in H; subst
  | H : false = true |- _ => discriminate H
  end; try reflexivity.

Lemma stop_clean c : stop c = true -> clean c = true.
Proof. revert c. stop_cases. Qed.

Lemma stop_no_redir c : stop c = true -> negb (in_str [ch_lt; ch_gt] c) = true.
Proof. revert c. stop_cases. Qed.

Lemma word_head w l : word_ok w -> head_is (fun c => in_word c && negb (c =? 0)) (w ++ l).
Proof.
  intros [Hne Hw]. destruct w as [|c w]; [done|]. cbn. apply Forall_inv in Hw as [H1 H2]. rewrite H1. now rewrite (proj2 (Z.eqb_neq c 0) H2).
Qed.

Lemma in_word_clean c : in_word c = true -> clean c = true /\ in_str symbols c = false.
Proof. unfold in_word, clean, is_ws. destruct (in_str whitespace c), (in_str symbols c); done. Qed.

Lemma gettoken_sym i c l :
  from i (c :: l) -> in_str [ch_bar; ch_open; ch_close; ch_semi; ch_amp; ch_lt] c = true -> head_is clean l ->
  gettoken s i = Ok (c, i, S i) (S i).
Proof.
  intros Hf Hc Hl. destruct (from_at _ _ _ Hf) as (Ha & Hf' & _). unfold gettoken. erewrite bind_ok by reflexivity. cbv zeta.
  assert (c <> 0 /\ clean c = true) as [H0 Hcl].
  { split; [intros ->; done|]. revert Hc. unfold clean. cbn [in_str existsb]. revert c Hf Ha. intros c _ _ Hc.
    repeat (apply orb_true_iff in Hc as [Hc|Hc]; [apply Z.eqb_eq in Hc; now subst|]). done. }
  rewrite (skip_from is_ws i (c :: l)) by done. rewrite Ha, (proj2 (Z.eqb_neq c 0) H0), Hc.
  erewrite bind_ok by reflexivity. now rewrite (skip_from is_ws (S i) l).
Qed.

Lemma gettoken_gt i l :
  from i (ch_gt :: l) -> head_is (fun c => clean c && negb (c =? ch_gt)) l -> gettoken s i = Ok (ch_gt, i, S i) (S i).
Proof.
  intros Hf Hl. destruct (from_at _ _ _ Hf) as (Ha & Hf' & _). unfold gettoken. erewrite bind_ok by reflexivity. cbv zeta.
  rewrite (skip_from is_ws i (ch_gt :: l)) by done. rewrite Ha. pose proof (from_head _ _ _ Hf' Hl eq_refl) as [_ Hg]%andb_true_iff.
  apply negb_true_iff in Hg. rewrite Hg. cbn -[skip is_ws]. erewrite bind_ok by reflexivity. rewrite (skip_from is_ws (S i) l); [done|done|].
  revert Hl. apply head_mono. now intros c [H _]%andb_true_iff.
Qed.

Lemma gettoken_gtgt i l :
  from i (ch_gt :: ch_gt :: l) -> head_is clean l -> gettoken s i = Ok (ch_plus, i, S (S i)) (S (S i)).
Proof.
  intros Hf Hl. destruct (from_at _ _ _ Hf) as (Ha & Hf' & _). destruct (from_at _ _ _ Hf') as (Ha' & Hf'' & _).
  unfold gettoken. erewrite bind_ok by reflexivity. cbv zeta. rewrite (skip_from is_ws i (ch_gt :: ch_gt :: l)) by done. rewrite Ha, Ha'.
  cbn -[skip is_ws]. erewrite bind_ok by reflexivity. now rewrite (skip_from is_ws (S (S i)) l).
Qed.

Lemma gettoken_word i w l :
  word_ok w -> from i (w ++ l) -> head_is (fun c => negb (in_word c)) l ->
  gettoken s i = Ok (ch_a, i, (i + length w)%nat) (skip s is_ws (i + length w)) /\ text s (i, (i + length w)%nat) = w.
Proof.
  intros Hok Hf Hl. pose proof (word_head w l Hok) as Hh. pose proof Hok as [Hne Hw]. destruct w as [|c w]; [done|]. cbn in Hh.
  apply andb_true_iff in Hh as [Hc H0]. apply negb_true_iff in H0. destruct (in_word_clean c Hc) as [Hcl Hsym].
  destruct (from_at _ _ _ Hf) as (Ha & _ & _). split.
  - unfold gettoken. erewrite bind_ok by reflexivity. cbv zeta. rewrite (skip_from is_ws i ((c :: w) ++ l)) by done. rewrite Ha, H0.
    cbn [in_str symbols existsb] in Hsym. repeat (apply orb_false_iff in Hsym as [? Hsym]).
    replace (in_str _ c) with false by (cbn [in_str existsb]; repeat match goal with H : (c =? _) = false |- _ => rewrite H; clear H end; done).
    replace (c =? ch_gt) with false by done. erewrite bind_ok by reflexivity.
    replace (skip s in_word i) with (i + length (c :: w))%nat; [done|]. unfold skip. rewrite (proj1 Hf). f_equal. symmetry.
    apply span_exact; [rewrite length_app; lia| |].
    + intros k Hk. rewrite app_nth1 by done. rewrite Forall_forall in Hw. apply (Hw (nth k (c :: w) 0)), list_elem_of_In, nth_In, Hk.
    + destruct l as [|d l]; [left; rewrite length_app; cbn; lia|right]. rewrite app_nth2, Nat.sub_diag by lia. cbn in *. now apply negb_true_iff.
  - unfold text. cbn [fst snd]. rewrite (proj1 Hf). replace (i + length (c :: w) - i)%nat with (length (c :: w)) by lia. apply take_app_length.
Qed.

(** ** Redirections and arguments *)

Definition redir : Type := list Z * Z * Z.
Definition rok (r : redir) : Prop := word_ok r.1.1 /\ redir_ok r.1.2 r.2.
Definition show_redirs (rs : list redir) : list Z := concat (map (fun r => show_op r.1.2 r.2 ++ r.1.1) rs).
Definition wrap (c : tcmd) (rs : list redir) : tcmd := foldl (fun c r => REDIR c r.1.1 r.1.2 r.2) c rs.

(** Redirections, and what may follow, do not continue a word. *)
Lemma redirs_head (f : Z -> bool) rs l :
  f ch_lt = true -> f ch_gt = true -> head_is f l -> head_is f (show_redirs rs ++ l).
Proof.
  intros H1 H2 Hl. destruct rs as [|[[w m] d] rs]; [done|]. cbn. unfold show_op. repeat case_goal; done.
Qed.

Lemma peek_head toks i l b :
  from i l -> head_is (fun c => clean c && negb (c =? 0) && Bool.eqb (in_str toks c) b) l -> (l = [] -> b = false) -> peek s toks i = Ok b i.
Proof.
  intros Hf Hh He. rewrite (peek_at toks i l); [|done|revert Hh; apply head_mono; intros c H; apply andb_true_iff in H as [[H _]%andb_true_iff _]; exact H].
  destruct l as [|c l].
  - rewrite (proj1 (from_nil _ Hf)), He by done. done.
  - cbn in Hh. apply andb_true_iff in Hh as [[_ H0]%andb_true_iff Hb]. rewrite (proj1 (from_at _ _ _ Hf)), H0. cbn [andb].
    apply Bool.eqb_prop in Hb. now rewrite Hb.
Qed.

Lemma parseredirs_none fuel i l c :
  from i l -> head_is (fun c => clean c && negb (c =? 0) && Bool.eqb (in_str [ch_lt; ch_gt] c) false) l -> (0 < fuel)%nat ->
  parseredirs s fuel c i = Ok c i.
Proof. intros Hf Hh Hfu. destruct fuel; [lia|]. cbn [parseredirs]. now rewrite (bind_ok _ _ _ _ _ (peek_head _ _ _ false Hf Hh (fun _ => eq_refl))). Qed.

Lemma stop_head l (f : Z -> bool) : head_is stop l -> (forall c, stop c = true -> f c = true) -> head_is f l.
Proof. intros H Hf. now apply (head_mono stop). Qed.

Lemma text_step i w l : from i (w ++ l) -> head_is clean l -> skip s is_ws (i + length w) = (i + length w)%nat /\ from (i + length w) l.
Proof. intros Hf Hl. pose proof (from_app _ _ _ Hf) as Hf'. split; [now apply (skip_from is_ws _ l)|done]. Qed.

Lemma op_token m d i l :
  redir_ok m d -> from i (show_op m d ++ l) -> head_is (fun c => in_word c && negb (c =? 0)) l ->
  peek s [ch_lt; ch_gt] i = Ok true i /\
  exists tok eq, gettoken s i = Ok (tok, i, eq) (i + length (show_op m d))%nat /\ forall c w, redir_cmd tok c w = REDIR c w m d.
Proof.
  intros Hr Hf Hl.
  assert (head_is clean l /\ head_is (fun c => clean c && negb (c =? ch_gt)) l) as [H1 H2].
  { split; revert Hl; apply head_mono; intros c [Hc _]%andb_true_iff; destruct (in_word_clean c Hc) as [Hcl Hs]; [done|]. rewrite Hcl. cbn [andb].
    destruct (Z.eqb_spec c ch_gt) as [->|]; done. }
  split; [apply (peek_head _ i (show_op m d ++ l)); [done|destruct Hr as [[-> ->]|[[-> ->]|[-> ->]]]; done..]|].
  destruct Hr as [[-> ->]|[[-> ->]|[-> ->]]]; cbn in Hf |- *.
  - exists ch_lt, (S i). rewrite Nat.add_1_r. split; [now apply (gettoken_sym i _ l)|done].
  - exists ch_gt, (S i). rewrite Nat.add_1_r. split; [now apply (gettoken_gt i l)|done].
  - exists ch_plus, (S (S i)). rewrite Nat.add_comm. split; [now apply (gettoken_gtgt i l)|done].
Qed.

Lemma parseredirs_show rs : forall fuel i c l,
  Forall rok rs -> from i (show_redirs rs ++ l) -> head_is stop l -> (length rs < fuel)%nat ->
  exists c', parseredirs s fuel c i = Ok c' (i + length (show_redirs rs))%nat /\ texts s c' = wrap (texts s c) rs.
Proof.
  induction rs as [|[[w m] d] rs IH]; intros [|fuel] i c l Hrs Hf Hl Hfu; cbn in Hfu; try lia.
  - exists c. rewrite (parseredirs_none (S fuel) i l c); [cbn; now rewrite Nat.add_0_r|done| |lia]. apply (stop_head l); [done|]. stop_cases.
  - apply Forall_cons_1 in Hrs as [[Hw Hr] Hrs]. cbn [fst snd] in *. unfold show_redirs in Hf |- *. cbn [map concat fst snd] in Hf |- *.
    fold (show_redirs rs) in Hf |- *. rewrite <- !app_assoc in Hf.
    destruct (op_token m d i _ Hr Hf (word_head w _ Hw)) as (Ep & tok & eq & Et & Hred).
    cbn [parseredirs]. rewrite (bind_ok _ _ _ _ _ Ep). cbn [negb]. rewrite (bind_ok _ _ _ _ _ Et). apply from_app in Hf.
    assert (head_is (fun c => negb (in_word c) && clean c) (show_redirs rs ++ l)) as Hend.
    { apply redirs_head; [done|done|]. apply (stop_head l); [done|]. stop_cases. }
    destruct (gettoken_word _ w _ Hw Hf) as [Ew Hx]; [revert Hend; apply head_mono; now intros ? [? _]%andb_true_iff|].
    destruct (text_step _ w _ Hf) as [Esk Hf']; [revert Hend; apply head_mono; now intros ? [_ ?]%andb_true_iff|].
    rewrite (bind_ok _ _ _ _ _ Ew). cbn [fst snd Z.eqb]. rewrite Z.eqb_refl. cbn [negb]. rewrite Hred, Esk.
    destruct (IH fuel _ (REDIR c ((i + length (show_op m d))%nat, (i + length (show_op m d) + length w)%nat) m d) l Hrs Hf' Hl ltac:(lia)) as (c' & E & Ht).
    exists c'. rewrite E, !length_app. split; [f_equal; lia|]. rewrite Ht. cbn [texts wrap foldl]. now rewrite Hx.
Qed.

Lemma redirs_short rs : Forall rok rs -> (length rs <= length (show_redirs rs))%nat.
Proof.
  induction rs as [|[[w m] d] rs IH]; intros H; [done|]. apply Forall_cons_1 in H as [[[Hne _] _] H]. cbn [fst snd] in *.
  unfold show_redirs. cbn [map concat fst snd]. fold (show_redirs rs). rewrite !length_app. specialize (IH H).
  destruct w; [done|]. cbn. lia.
Qed.

Lemma redirs_show rs i c l :
  Forall rok rs -> from i (show_redirs rs ++ l) -> head_is stop l ->
  exists c', redirs s c i = Ok c' (i + length (show_redirs rs))%nat /\ texts s c' = wrap (texts s c) rs.
Proof.
  intros Hrs Hf Hl. apply (parseredirs_show rs _ _ _ l); [done..|]. pose proof (redirs_short rs Hrs) as H. destruct Hf as [E Hi].
  pose proof (f_equal length E) as L. rewrite length_drop, length_app in L. lia.
Qed.

Lemma gettoken_end i : from i [] -> gettoken s i = Ok (0, i, i) i.
Proof.
  intros Hf. unfold gettoken. erewrite bind_ok by reflexivity. cbv zeta. rewrite (skip_from is_ws i []) by done.
  rewrite (proj1 (from_nil _ Hf)). cbn -[skip is_ws]. erewrite bind_ok by reflexivity. now rewrite (skip_from is_ws i []).
Qed.

(** [peek] when what follows is known. *)
Lemma peek_stop toks i x l : from i (x :: l) -> stop x = true -> peek s toks i = Ok (in_str toks x) i.
Proof.
  intros Hf Hx. apply (peek_head toks i (x :: l)); [done| |done]. cbn. rewrite Bool.eqb_reflx, andb_true_r. revert x Hx Hf. intros x Hx _.
  revert x Hx. stop_cases.
Qed.

Lemma parseargs_stop fuel argc c i l : from i l -> head_is stop l -> parseargs s (S fuel) argc c i = Ok c i.
Proof.
  intros Hf Hl. cbn [parseargs]. destruct l as [|x l].
  - rewrite (bind_ok _ _ _ _ _ (peek_head _ i [] false Hf I (fun _ => eq_refl))). now rewrite (bind_ok _ _ _ _ _ (gettoken_end i Hf)).
  - rewrite (bind_ok _ _ _ _ _ (peek_stop _ i x l Hf Hl)). cbn in Hl. unfold stop in Hl.
    replace (in_str [ch_bar; ch_close; ch_amp; ch_semi] x) with true. done.
Qed.

Lemma skip_space i l : from i (32 :: l) -> head_is clean l -> skip s is_ws i = S i.
Proof.
  intros [E Hi] Hl. unfold skip. rewrite E. destruct l as [|c l]; cbn [span]; [cbn; lia|].
  change (is_ws 32) with true. cbn in Hl. unfold clean in Hl. destruct (is_ws c); [done|]. lia.
Qed.

Lemma word_no_redir l :
  head_is (fun c => in_word c && negb (c =? 0)) l -> head_is (fun c => clean c && negb (c =? 0) && Bool.eqb (in_str [ch_lt; ch_gt] c) false) l.
Proof.
  apply head_mono. intros c [Hc H0]%andb_true_iff. destruct (in_word_clean c Hc) as [-> Hs]. rewrite H0. cbn [andb]. cbn in Hs |- *.
  repeat (apply orb_false_iff in Hs as [? Hs]). repeat match goal with H : (c =? _) = false |- _ => rewrite H; clear H end. done.
Qed.

Lemma parseargs_show ws : forall fuel argc i args rs l,
  ws <> [] -> Forall word_ok ws -> Forall rok rs -> from i (join ws ++ show_redirs rs ++ l) -> head_is stop l ->
  (length ws < fuel)%nat -> (argc + length ws < MAXARGS)%nat ->
  exists c, parseargs s fuel argc (EXEC args) i = Ok c (i + length (join ws ++ show_redirs rs))%nat /\
    texts s c = wrap (EXEC (map (text s) args ++ ws)) rs.
Proof.
  induction ws as [|w ws IH]; intros [|fuel] argc i args rs l Hne Hws Hrs Hf Hl Hfu Hargs; [done..|cbn in Hfu; lia|].
  clear Hne. apply Forall_cons_1 in Hws as [Hw Hws]. cbn [length] in *.
  assert (from i (w ++ (match ws with [] => [] | _ => 32 :: join ws end) ++ show_redirs rs ++ l)) as Hf1 by (cbn [join] in Hf; now rewrite <- app_assoc in Hf).
  assert (head_is (fun c => negb (in_word c)) ((match ws with [] => [] | _ => 32 :: join ws end) ++ show_redirs rs ++ l)) as Hend.
  { destruct ws; [|done]. apply redirs_head; [done..|]. apply (stop_head l); [done|]. stop_cases. }
  destruct (gettoken_word _ w _ Hw Hf1 Hend) as [Ew Hx]. cbn [parseargs].
  rewrite (bind_ok _ _ _ false i).
  2: { apply (peek_head _ i _ false Hf1); [|done]. apply (head_mono (fun c => in_word c && negb (c =? 0))); [|now apply word_head].
    intros c [Hc H0]%andb_true_iff. destruct (in_word_clean c Hc) as [-> Hs]. rewrite H0. cbn [andb]. cbn in Hs |- *.
    repeat (apply orb_false_iff in Hs as [? Hs]). repeat match goal with H : (c =? _) = false |- _ => rewrite H; clear H end. done. }
  rewrite (bind_ok _ _ _ _ _ Ew). cbn [fst snd]. change (ch_a =? 0) with false. change (ch_a =? ch_a) with true. cbn [negb].
  rewrite (proj2 (Nat.leb_gt _ _)) by lia. cbn [add_arg]. pose proof (from_app _ _ _ Hf1) as Hf2. destruct ws as [|w' ws].
  - cbn [app] in Hf2. rewrite (skip_from is_ws _ _ Hf2).
    2: { apply redirs_head; [done..|]. apply (stop_head l); [done|]. stop_cases. }
    destruct (redirs_show rs _ (EXEC (args ++ [(i, (i + length w)%nat)])) l Hrs Hf2 Hl) as (c & Er & Ht). rewrite (bind_ok _ _ _ _ _ Er).
    destruct fuel as [|fuel]; [cbn in Hfu; lia|]. apply from_app in Hf2. rewrite (parseargs_stop fuel _ c _ l Hf2 Hl).
    exists c. cbn [join]. rewrite app_nil_r, length_app. split; [f_equal; lia|]. rewrite Ht. cbn [texts]. rewrite map_app. cbn [map]. now rewrite Hx.
  - pose proof Hf2 as (_ & Hf3 & _)%from_at. change (from (S (i + length w)) (join (w' :: ws) ++ show_redirs rs ++ l)) in Hf3.
    assert (head_is (fun c => in_word c && negb (c =? 0)) (join (w' :: ws) ++ show_redirs rs ++ l)) as Hh.
    { cbn [join]. rewrite <- app_assoc. apply word_head. now apply Forall_inv in Hws. }
    rewrite (skip_space _ _ Hf2); [|revert Hh; apply head_mono; intros c [Hc _]%andb_true_iff; now apply in_word_clean].
    unfold redirs. rewrite (bind_ok _ _ _ _ _ (parseredirs_none (S (length s)) _ _ _ Hf3 (word_no_redir _ Hh) ltac:(lia))).
    destruct (IH fuel (S argc) _ (args ++ [(i, (i + length w)%nat)]) rs l ltac:(done) Hws Hrs Hf3 Hl ltac:(cbn in *; lia) ltac:(cbn in *; lia)) as (c & E & Ht).
    exists c. rewrite E. split; [f_equal; change (join (w :: w' :: ws)) with (w ++ 32 :: join (w' :: ws)); rewrite !length_app; cbn [length]; lia|].
    rewrite Ht, map_app, <- app_assoc. cbn [map app]. now rewrite Hx.
Qed.

(** ** Commands *)

Lemma paren_clean k t l : (forall l, head_is clean l -> head_is clean (show t ++ l)) -> head_is clean l -> head_is clean (paren k t (show t) ++ l).
Proof. intros H Hl. unfold paren. case_goal; [now apply H|done]. Qed.

Lemma show_clean t : cmd_ok t -> forall l, head_is clean l -> head_is clean (show t ++ l).
Proof.
  induction t as [ws|c IH f m d|t1 IH1 t2 IH2|t1 IH1 t2 IH2|c IH]; intros Hok l Hl; cbn [show]; rewrite <- ?app_assoc.
  - destruct ws as [|w ws]; [done|]. cbn [join]. rewrite <- app_assoc. apply (head_mono (fun c => in_word c && negb (c =? 0))).
    + intros c [Hc _]%andb_true_iff. now apply in_word_clean.
    + apply word_head. destruct Hok as [Hws _]. now apply Forall_inv in Hws.
  - apply paren_clean; [apply IH, Hok|]. unfold show_op. repeat case_goal; done.
  - apply paren_clean; [apply IH1, Hok|done].
  - apply paren_clean; [apply IH1, Hok|done].
  - apply paren_clean; [apply IH, Hok|done].
Qed.

(** What can follow a pipe, a background command, and a line. *)
Definition stop2 : Z -> bool := in_str [ch_close; ch_amp; ch_semi].
Definition stop1 : Z -> bool := in_str [ch_close; ch_semi].
Definition stop0 : Z -> bool := in_str [ch_close].

Lemma stop2_stop c : stop2 c = true -> stop c = true.
Proof. unfold stop2, stop. cbn [in_str existsb]. destruct (c =? ch_bar), (c =? ch_close), (c =? ch_amp), (c =? ch_semi); done. Qed.
Lemma stop1_stop2 c : stop1 c = true -> stop2 c = true.
Proof. unfold stop1, stop2. cbn [in_str existsb]. destruct (c =? ch_close), (c =? ch_amp), (c =? ch_semi); done. Qed.
Lemma stop0_stop1 c : stop0 c = true -> stop1 c = true.
Proof. unfold stop0, stop1. cbn [in_str existsb]. destruct (c =? ch_close), (c =? ch_semi); done. Qed.

(** [peek] at something that may follow. *)
Lemma peek_false toks i l (f : Z -> bool) :
  from i l -> head_is f l -> (forall c, f c = true -> stop c = true /\ in_str toks c = false) -> peek s toks i = Ok false i.
Proof.
  intros Hf Hl H. destruct l as [|x l]; [apply (peek_head _ i [] false); done|]. cbn in Hl. destruct (H x Hl) as [Hs <-]. exact (peek_stop toks i x l Hf Hs).
Qed.

Lemma peek_bar i l : from i l -> head_is stop2 l -> peek s [ch_bar] i = Ok false i.
Proof.
  intros Hf Hl. apply (peek_false _ i l stop2 Hf Hl). intros x Hx. split; [now apply stop2_stop|]. cbn [in_str existsb].
  destruct (Z.eqb_spec x ch_bar) as [->|]; done.
Qed.

Lemma peek_amp i l : from i l -> head_is stop1 l -> peek s [ch_amp] i = Ok false i.
Proof.
  intros Hf Hl. apply (peek_false _ i l stop1 Hf Hl). intros x Hx. split; [now apply stop2_stop, stop1_stop2|]. cbn [in_str existsb].
  destruct (Z.eqb_spec x ch_amp) as [->|]; done.
Qed.

Lemma peek_semi i l : from i l -> head_is stop0 l -> peek s [ch_semi] i = Ok false i.
Proof.
  intros Hf Hl. apply (peek_false _ i l stop0 Hf Hl). intros x Hx. split; [now apply stop2_stop, stop1_stop2, stop0_stop1|]. cbn [in_str existsb].
  destruct (Z.eqb_spec x ch_semi) as [->|]; done.
Qed.

Definition K3 (t : tcmd) : Prop := forall f i rs l,
  Forall rok rs -> from i (paren 3 t (show t) ++ show_redirs rs ++ l) -> head_is stop l -> (4 * (length s - i) + 2 <= f)%nat ->
  exists c, parseexec s f i = Ok c (i + length (paren 3 t (show t) ++ show_redirs rs))%nat /\ texts s c = wrap t rs.
Definition K2 (t : tcmd) : Prop := forall f i l,
  from i (paren 2 t (show t) ++ l) -> head_is stop2 l -> (4 * (length s - i) + 3 <= f)%nat ->
  exists c, parsepipe s f i = Ok c (i + length (paren 2 t (show t)))%nat /\ texts s c = t.
Definition K1 (t : tcmd) : Prop := forall f n i l,
  from i (paren 1 t (show t) ++ l) -> head_is stop2 l -> (4 * (length s - i) + 3 <= f)%nat -> (length s < n)%nat ->
  exists c m, (c ← parsepipe s f; parseback s n c) i = parseback s (n - m) c (i + length (paren 1 t (show t)))%nat /\
    (m <= length (paren 1 t (show t)))%nat /\ texts s c = t.
Definition K0 (t : tcmd) : Prop := forall f i l,
  from i (show t ++ l) -> head_is stop0 l -> (4 * (length s - i) + 4 <= f)%nat ->
  exists c, parseline s f i = Ok c (i + length (show t))%nat /\ texts s c = t.

Lemma K3_K2 t : level t <> 2%nat -> K3 t -> K2 t.
Proof.
  intros Hlv H f i l Hf Hl Hfu. assert (paren 2 t (show t) = paren 3 t (show t)) as Ep by (unfold paren; now destruct t).
  rewrite Ep in *. destruct f as [|f]; [lia|]. cbn [parsepipe].
  destruct (H f i [] l ltac:(constructor) Hf) as (c & E & Ht); [apply (head_mono stop2); [apply stop2_stop|done]|lia|]. cbn [show_redirs map concat] in E.
  rewrite app_nil_r in E. rewrite (bind_ok _ _ _ _ _ E). apply from_app in Hf. rewrite (bind_ok _ _ _ _ _ (peek_bar _ l Hf Hl)). now exists c.
Qed.

Lemma K2_K1 t : level t <> 1%nat -> K2 t -> K1 t.
Proof.
  intros Hlv H f n i l Hf Hl Hfu Hn. assert (paren 1 t (show t) = paren 2 t (show t)) as Ep by (unfold paren; now destruct t).
  rewrite Ep in *. destruct (H f i l Hf Hl Hfu) as (c & E & Ht). exists c, O. rewrite (bind_ok _ _ _ _ _ E), Nat.sub_0_r. split; [done|]. split; [lia|done].
Qed.

Lemma parseback_end n c i l : (0 < n)%nat -> from i l -> head_is stop1 l -> parseback s n c i = Ok c i.
Proof.
  intros Hn Hf Hl. destruct n as [|n]; [lia|]. cbn [parseback]. now rewrite (bind_ok _ _ _ _ _ (peek_amp _ l Hf Hl)).
Qed.

Lemma K1_K0 t : level t <> 0%nat -> K1 t -> K0 t.
Proof.
  intros Hlv H f i l Hf Hl Hfu. assert (paren 1 t (show t) = show t) as Ep by (unfold paren; now destruct t). unfold K1 in H. rewrite Ep in H.
  destruct f as [|f]; [lia|]. cbn [parseline]. pose proof (head_mono stop0 stop1 l stop0_stop1 Hl) as Hl1. pose proof (head_mono stop1 stop2 l stop1_stop2 Hl1) as Hl2.
  destruct (H f (S (length s)) i l Hf Hl2 ltac:(lia) ltac:(lia)) as (c & m & E & Hm & Ht). exists c. split; [|done]. rewrite <- bind_assoc.
  pose proof (proj2 (from_app _ _ _ Hf)) as Hlen. apply from_app in Hf. rewrite (parseback_end _ c _ l) in E; [|lia|done|done]. rewrite (bind_ok _ _ _ _ _ E).
  now rewrite (bind_ok _ _ _ _ _ (peek_semi _ l Hf Hl)).
Qed.

Lemma peek_sym toks i x l : from i (x :: l) -> in_str symbols x = true -> in_str toks x = true -> peek s toks i = Ok true i.
Proof.
  intros Hf Hx Ht. apply (peek_head toks i (x :: l)); [done| |done]. cbn [head_is]. rewrite Ht. cbn [Bool.eqb]. rewrite andb_true_r.
  clear Hf Ht. unfold symbols in Hx. cbn [in_str existsb] in Hx. repeat (apply orb_true_iff in Hx as [Hx|Hx]; [apply Z.eqb_eq in Hx; now subst|]). done.
Qed.

Lemma K0_K3 t : (level t < 3)%nat -> cmd_ok t -> K0 t -> K3 t.
Proof.
  intros Hlv Hok H f i rs l Hrs Hf Hl Hfu. assert (paren 3 t (show t) = ch_open :: show t ++ [ch_close]) as Ep by (unfold paren; destruct t; cbn in *; try done; lia).
  rewrite Ep in *. cbn [app] in Hf. rewrite <- app_assoc in Hf. cbn [app] in Hf.
  destruct f as [|[|f]]; [lia|pose proof (from_at _ _ _ Hf) as (_ & _ & ?); lia|]. cbn [parseexec].
  pose proof (peek_sym [ch_open] i _ _ Hf eq_refl eq_refl) as Ep1. rewrite (bind_ok _ _ _ _ _ Ep1). cbn [parseblock]. rewrite (bind_ok _ _ _ _ _ Ep1). cbn [negb].
  assert (head_is clean (show t ++ ch_close :: show_redirs rs ++ l)) as Hc1 by (apply show_clean; done).
  rewrite (bind_ok _ _ _ _ _ (gettoken_sym i _ _ Hf eq_refl Hc1)). destruct (from_at _ _ _ Hf) as (_ & Hf1 & Hlt).
  destruct (H f (S i) (ch_close :: show_redirs rs ++ l) Hf1 eq_refl ltac:(lia)) as (c & E & Ht). rewrite (bind_ok _ _ _ _ _ E). apply from_app in Hf1.
  rewrite (bind_ok _ _ _ _ _ (peek_sym [ch_close] _ _ _ Hf1 eq_refl eq_refl)). cbn [negb].
  assert (head_is clean (show_redirs rs ++ l)) as Hc2 by (apply redirs_head; [done..|]; apply (stop_head l); [done|exact stop_clean]).
  rewrite (bind_ok _ _ _ _ _ (gettoken_sym _ _ _ Hf1 eq_refl Hc2)). destruct (from_at _ _ _ Hf1) as (_ & Hf2 & _).
  destruct (redirs_show rs _ c l Hrs Hf2 Hl) as (c' & Er & Ht'). exists c'. rewrite Er, Ht', Ht. split; [|done].
  f_equal. cbn [app length]. rewrite !length_app. cbn [length]. lia.
Qed.

Lemma join_short ws : Forall word_ok ws -> (length ws <= length (join ws))%nat.
Proof.
  induction ws as [|w ws IH]; intros H; [done|]. apply Forall_cons_1 in H as [[Hne _] H]. specialize (IH H). cbn [join length]. rewrite length_app.
  destruct w; [done|]. destruct ws; cbn [length] in *; lia.
Qed.

Lemma peek_open i ws rs l :
  Forall word_ok ws -> from i (join ws ++ show_redirs rs ++ l) -> head_is stop l -> peek s [ch_open] i = Ok false i.
Proof.
  intros Hws Hf Hl. apply (peek_head _ i _ false Hf); [|done]. destruct ws as [|w ws].
  - apply redirs_head; [done..|]. apply (stop_head l); [done|]. stop_cases.
  - cbn [join]. rewrite <- app_assoc. apply (head_mono (fun c => in_word c && negb (c =? 0))); [|apply word_head; now apply Forall_inv in Hws].
    intros c [Hc H0]%andb_true_iff. destruct (in_word_clean c Hc) as [-> Hs]. rewrite H0. cbn [andb]. cbn in Hs |- *.
    repeat (apply orb_false_iff in Hs as [? Hs]). repeat match goal with H : (c =? _) = false |- _ => rewrite H; clear H end. done.
Qed.

Lemma K3_exec ws : cmd_ok (EXEC ws) -> K3 (EXEC ws).
Proof.
  intros [Hws Hmax] f i rs l Hrs Hf Hl Hfu. change (paren 3 (EXEC ws) (show (EXEC ws))) with (join ws) in *.
  destruct f as [|f]; [lia|]. cbn [parseexec]. rewrite (bind_ok _ _ _ _ _ (peek_open i ws rs l Hws Hf Hl)). destruct ws as [|w ws].
  - cbn [join app] in *. destruct (redirs_show rs i (EXEC []) l Hrs Hf Hl) as (c & E & Ht). rewrite (bind_ok _ _ _ _ _ E).
    apply from_app in Hf. rewrite (parseargs_stop _ _ c _ l Hf Hl). now exists c.
  - assert (head_is (fun c => in_word c && negb (c =? 0)) (join (w :: ws) ++ show_redirs rs ++ l)) as Hh.
    { cbn [join]. rewrite <- app_assoc. apply word_head. now apply Forall_inv in Hws. }
    unfold redirs. rewrite (bind_ok _ _ _ _ _ (parseredirs_none (S (length s)) _ _ _ Hf (word_no_redir _ Hh) ltac:(lia))).
    pose proof (join_short _ Hws) as Hj. pose proof (proj2 (from_app _ _ _ Hf)) as Hle. 
    exact (parseargs_show (w :: ws) (S (length s)) 0 i [] rs l ltac:(done) Hws Hrs Hf Hl ltac:(lia) ltac:(lia)).
Qed.

Lemma K3_redir c w m d : cmd_ok (REDIR c w m d) -> K3 c -> K3 (REDIR c w m d).
Proof.
  intros (_ & Hw & Hr) H f i rs l Hrs Hf Hl Hfu. change (paren 3 (REDIR c w m d) (show (REDIR c w m d))) with (paren 3 c (show c) ++ show_op m d ++ w) in *.
  assert ((paren 3 c (show c) ++ show_op m d ++ w) ++ show_redirs rs = paren 3 c (show c) ++ show_redirs ((w, m, d) :: rs)) as E.
  { unfold show_redirs. cbn [map concat fst snd]. now rewrite <- !app_assoc. }
  rewrite app_assoc, E, <- app_assoc in Hf. rewrite E. apply (H f i ((w, m, d) :: rs) l); [|done..]. constructor; done.
Qed.

Lemma K2_pipe t1 t2 : cmd_ok t2 -> K3 t1 -> K2 t2 -> K2 (PIPE t1 t2).
Proof.
  intros Hok H1 H2 f i l Hf Hl Hfu. change (paren 2 (PIPE t1 t2) (show (PIPE t1 t2))) with (paren 3 t1 (show t1) ++ ch_bar :: paren 2 t2 (show t2)) in *.
  rewrite <- app_assoc in Hf. cbn [app] in Hf. destruct f as [|f]; [lia|]. cbn [parsepipe].
  destruct (H1 f i [] (ch_bar :: paren 2 t2 (show t2) ++ l) ltac:(constructor) Hf eq_refl ltac:(lia)) as (c1 & E1 & Ht1). cbn [show_redirs map concat] in E1.
  rewrite app_nil_r in E1. rewrite (bind_ok _ _ _ _ _ E1). apply from_app in Hf. rewrite (bind_ok _ _ _ _ _ (peek_sym [ch_bar] _ _ _ Hf eq_refl eq_refl)).
  assert (head_is clean (paren 2 t2 (show t2) ++ l)) as Hc.
  { apply paren_clean; [now apply show_clean|]. revert Hl. apply head_mono. intros x Hx. now apply stop_clean, stop2_stop. }
  rewrite (bind_ok _ _ _ _ _ (gettoken_sym _ _ _ Hf eq_refl Hc)). destruct (from_at _ _ _ Hf) as (_ & Hf2 & Hlt).
  destruct (H2 f _ l Hf2 Hl ltac:(lia)) as (c2 & E2 & Ht2). rewrite (bind_ok _ _ _ _ _ E2). exists (PIPE c1 c2). cbn [texts]. rewrite Ht1, Ht2.
  split; [|done]. unfold mret, M_ret. f_equal. rewrite length_app. cbn [length]. lia.
Qed.

Lemma K1_back t : K1 t -> K1 (BACK t).
Proof.
  intros H f n i l Hf Hl Hfu Hn. change (paren 1 (BACK t) (show (BACK t))) with (paren 1 t (show t) ++ [ch_amp]) in *.
  rewrite <- app_assoc in Hf. cbn [app] in Hf. destruct (H f n i (ch_amp :: l) Hf eq_refl Hfu Hn) as (c & m & E & Hm & Ht).
  apply from_app in Hf. destruct (from_at _ _ _ Hf) as (_ & _ & Hlt). exists (BACK c), (S m). rewrite E, length_app. cbn [length texts].
  destruct (n - m)%nat as [|k] eqn:Ek; [lia|]. cbn [parseback]. rewrite (bind_ok _ _ _ _ _ (peek_sym [ch_amp] _ _ _ Hf eq_refl eq_refl)). cbn [negb].
  rewrite (bind_ok _ _ _ _ _ (gettoken_sym _ _ _ Hf eq_refl (head_mono stop2 clean l (fun x Hx => stop_clean x (stop2_stop x Hx)) Hl))).
  replace (n - S m)%nat with k by lia. split; [f_equal; lia|]. split; [lia|now rewrite Ht].
Qed.

Lemma K0_list t1 t2 : cmd_ok t2 -> K1 t1 -> K0 t2 -> K0 (LIST t1 t2).
Proof.
  intros Hok H1 H2 f i l Hf Hl Hfu. cbn [show] in *. rewrite <- app_assoc in Hf. cbn [app] in Hf. destruct f as [|f]; [lia|]. cbn [parseline].
  destruct (H1 f (S (length s)) i (ch_semi :: show t2 ++ l) Hf eq_refl ltac:(lia) ltac:(lia)) as (c1 & m & E1 & Hm & Ht1).
  apply from_app in Hf. destruct (from_at _ _ _ Hf) as (_ & Hf2 & Hlt). rewrite (parseback_end _ c1 _ (ch_semi :: show t2 ++ l)) in E1; [|lia|done|done].
  rewrite <- bind_assoc, (bind_ok _ _ _ _ _ E1), (bind_ok _ _ _ _ _ (peek_sym [ch_semi] _ _ _ Hf eq_refl eq_refl)).
  assert (head_is clean (show t2 ++ l)) as Hc.
  { apply show_clean; [done|]. revert Hl. apply head_mono. intros x Hx. now apply stop_clean, stop2_stop, stop1_stop2, stop0_stop1. }
  rewrite (bind_ok _ _ _ _ _ (gettoken_sym _ _ _ Hf eq_refl Hc)). destruct (H2 f _ l Hf2 Hl ltac:(lia)) as (c2 & E2 & Ht2).
  rewrite (bind_ok _ _ _ _ _ E2). exists (LIST c1 c2). cbn [texts]. rewrite Ht1, Ht2. split; [|done]. unfold mret, M_ret. f_equal.
  rewrite length_app. cbn [length]. lia.
Qed.

(** Each level of the parser reads what is printed for it. *)
Lemma parse_show t : cmd_ok t -> K3 t /\ K2 t /\ K1 t /\ K0 t.
Proof.
  assert (forall t, level t = 3%nat -> K3 t -> K3 t /\ K2 t /\ K1 t /\ K0 t) as Hexec.
  { intros t0 Hl H3. assert (K2 t0) as H2 by (apply K3_K2; [lia|done]). assert (K1 t0) as H1 by (apply K2_K1; [lia|done]).
    split; [done|split; [done|split; [done|apply K1_K0; [lia|done]]]]. }
  induction t as [ws|c IH f m d|t1 IH1 t2 IH2|t1 IH1 t2 IH2|c IH]; intros Hok.
  - apply Hexec; [done|]. now apply K3_exec.
  - destruct (IH (proj1 Hok)) as (Hc & _). apply Hexec; [done|]. now apply K3_redir.
  - destruct (IH1 (proj1 Hok)) as (G3 & _). destruct (IH2 (proj2 Hok)) as (_ & G2 & _). pose proof (K2_pipe t1 t2 (proj2 Hok) G3 G2) as H2.
    assert (K1 (PIPE t1 t2)) as H1 by (apply K2_K1; [cbn; lia|done]). assert (K0 (PIPE t1 t2)) as H0 by (apply K1_K0; [cbn; lia|done]).
    split; [apply K0_K3; [cbn; lia|done|done]|done].
  - destruct (IH1 (proj1 Hok)) as (_ & _ & G1 & _). destruct (IH2 (proj2 Hok)) as (_ & _ & _ & G0). pose proof (K0_list t1 t2 (proj2 Hok) G1 G0) as H0.
    assert (K3 (LIST t1 t2)) as H3 by (apply K0_K3; [cbn; lia|done|done]). assert (K2 (LIST t1 t2)) as H2 by (apply K3_K2; [cbn; lia|done]).
    split; [done|split; [done|split; [apply K2_K1; [cbn; lia|done]|done]]].
  - destruct (IH Hok) as (_ & _ & G1 & _). pose proof (K1_back c G1) as H1. assert (K0 (BACK c)) as H0 by (apply K1_K0; [cbn; lia|done]).
    assert (K3 (BACK c)) as H3 by (apply K0_K3; [cbn; lia|done|done]). split; [done|split; [apply K3_K2; [cbn; lia|done]|done]].
Qed.
End roundtrip.

(** ** What the parser guarantees *)

Lemma parsecmd_show t : cmd_ok t -> exists c buf i, parsecmd (show t) = Ok (c, buf) i /\ texts (show t) c = t.
Proof.
  intros Hok. destruct (parse_show (show t) t Hok) as (_ & _ & _ & H0).
  destruct (H0 (4 * length (show t) + 4)%nat 0%nat []) as (c & E & Ht); [split; [now rewrite app_nil_r|lia]|done|lia|].
  unfold parsecmd. rewrite (bind_ok _ _ _ _ _ E).
  assert (from (show t) (0 + length (show t)) []) as Hf by (split; [apply drop_ge; lia|lia]).
  rewrite (bind_ok _ _ _ false (0 + length (show t))%nat) by (apply (peek_head (show t) [] _ []); done).
  erewrite bind_ok by reflexivity. cbn [Nat.add]. rewrite Nat.eqb_refl. cbn [negb]. eexists _, _, _. split; [reflexivity|done].
Qed.

Lemma parsecmd_safe s : 0 ∉ s ->
  match parsecmd s with
  | Ok (c, buf) _ => Forall (good s) (words c) /\ buf = nulterminate c (s ++ [0])
  | Panic _ => True
  | Diverge => False
  end.
Proof.
  intros Hn. unfold parsecmd. pose proof (proj1 (parse_safe s Hn (4 * length s + 4) 0 ltac:(lia)) ltac:(lia)) as H.
  unfold mbind at 1, M_bind at 1. destruct (parseline s (4 * length s + 4) 0%nat) as [c i|msg|]; [|done|done]. destruct H as [Hi Hc].
  destruct (peek_ok s Hn [] i ltac:(lia)) as (b & j & E & Hj & _). rewrite (bind_ok _ _ _ _ _ E). erewrite bind_ok by reflexivity.
  case_goal; [done|]. done.
Qed.

(** C7: The parser of the shell.  On every line it returns a command or stops with
    a message; it does not loop.  The words of the command are then NUL-terminated
    strings in the line, none of them cut short by the NUL of another.  And every
    command of the shell, printed with no more parentheses than the binding of
    pipes, background commands and lists needs, is read back. *)
Theorem shell_parser_correct :
  (forall s, 0 ∉ s ->
     match parsecmd s with
     | Ok (c, buf) _ => forall w, w ∈ words c -> text s w <> [] /\ Forall (fun x => in_word x = true) (text s w) /\ cstr buf w.1 = text s w
     | Panic _ => True
     | Diverge => False
     end) /\
  (forall t, cmd_ok t -> exists c buf i, parsecmd (show t) = Ok (c, buf) i /\ texts (show t) c = t).
Proof.
  split; [|exact parsecmd_show]. intros s Hn. pose proof (parsecmd_safe s Hn) as H. destruct (parsecmd s) as [[c buf] i|msg|]; [|done|done].
  destruct H as [Hg ->]. intros w Hw. pose proof Hg as Hg'. rewrite Forall_forall in Hg'. destruct (Hg' w Hw) as (Hr & Hin & _).
  split; [|split; [|now apply nulterminate_words]].
  - intros E%(f_equal length). unfold text in E. rewrite length_take, length_drop in E. cbn in E. lia.
  - unfold text. apply Forall_lookup. intros k x [Hk Hlt]%lookup_take_Some. rewrite lookup_drop in Hk.
    apply (nth_lookup_Some _ _ 0) in Hk. rewrite <- Hk. apply Hin. lia.
Qed.

(** "ls a|wc>f&;echo": a pipe in the background with a redirection, and another
    command. *)
Definition demo_cmd : tcmd :=
  LIST (BACK (PIPE (EXEC [[108; 115]; [97]]) (REDIR (EXEC [[119; 99]]) [102] 0x601 1))) (EXEC [[101; 99; 104; 111]]).

Lemma demo_cmd_ok : cmd_ok demo_cmd.
Proof.
  assert (forall w, (negb (bool_decide (w = [])) && forallb (fun c => in_word c && negb (c =? 0)) w) = true -> word_ok w) as Hw.
  { intros w [Hne Hc]%andb_true_iff. apply negb_true_iff, bool_decide_eq_false in Hne. split; [done|]. rewrite forallb_forall in Hc.
    apply Forall_forall. intros c Hin%list_elem_of_In%Hc%andb_true_iff. destruct Hin as [H1 H2]. apply negb_true_iff, Z.eqb_neq in H2. done. }
  assert (forall ws, forallb (fun w => negb (bool_decide (w = [])) && forallb (fun c => in_word c && negb (c =? 0)) w) ws = true ->
    (length ws < MAXARGS)%nat -> cmd_ok (EXEC ws)) as He.
  { intros ws H Hl. split; [|done]. apply Forall_forall. intros w Hin%list_elem_of_In. rewrite forallb_forall in H. auto. }
  split; [split; [now apply He; [|unfold MAXARGS; cbn; lia]|]|now apply He; [|unfold MAXARGS; cbn; lia]].
  split; [now apply He; [|unfold MAXARGS; cbn; lia]|]. split; [now apply Hw|]. right. left. done.
Qed.

Lemma shell_parser_correct_witness :
  exists c buf i, parsecmd (show demo_cmd) = Ok (c, buf) i /\ texts (show demo_cmd) c = demo_cmd /\
    forall w, w ∈ words c -> cstr buf w.1 = text (show demo_cmd) w.
Proof.
  destruct shell_parser_correct as [Hs Hr]. destruct (Hr demo_cmd demo_cmd_ok) as (c & buf & i & E & Ht).
  exists c, buf, i. split; [done|]. split; [done|]. specialize (Hs (show demo_cmd)). rewrite E in Hs. intros w Hw. apply Hs; [|done].
  apply (bool_decide_unpack _). vm_compute. exact I.
Defined.
