(* ===== verification/User.v ===== *)
(** * user: programs

    A program is a tree of system calls: what it does next depends on the answer
    of the call before.  Strings are lists of bytes without their NUL; a buffer
    that [read] fills is the bytes that it returns.  Loops that depend on answers
    have fuel, and [Stuck] is a program whose fuel is used up, or whose format
    string asks for an argument that is not there.  [printf] and [fprintf] write
    one byte at a time, as their [putc] does. *)

From stdpp Require Import base list numbers strings.
From S2P Require Import Prelude Printf Block Fs FsDir Sysfile Sh.

Local Open Scope Z_scope.

(** ** System calls *)

Inductive call :=
  | SFork
  | SWait
  | SPipe
  | SWrite (fd : Z) (buf : list Z)
  | SRead (fd n : Z)
  | SClose (fd : Z)
  | SKill (pid : Z)
  | SExec (path : list Z) (argv : list (list Z))
  | SOpen (path : list Z) (mode : Z)
  | SMknod (path : list Z) (major minor : Z)
  | SUnlink (path : list Z)
  | SFstat (fd : Z)
  | SLink (old new : list Z)
  | SMkdir (path : list Z)
  | SChdir (path : list Z)
  | SDup (fd : Z)
  | SSleep (n : Z).

(** The result, and what the call stores for the program: the two descriptors of
    a pipe, the bytes read, the status of a file. *)
Definition ans (c : call) : Type :=
  match c with
  | SPipe => Z * (Z * Z)
  | SRead _ _ => Z * list Z
  | SFstat _ => Z * stat
  | _ => Z
  end.

Inductive prog (A : Type) :=
  | Ret (a : A)
  | Do (c : call) (k : ans c -> prog A)
  | Exit (status : Z)
  | Stuck.
Arguments Ret {A} a.
Arguments Do {A} c k.
Arguments Exit {A} status.
Arguments Stuck {A}.

Fixpoint pbind {A B} (p : prog A) (f : A -> prog B) : prog B :=
  match p with
  | Ret a => f a
  | Do c k => Do c (fun r => pbind (k r) f)
  | Exit status => Exit status
  | Stuck => Stuck
  end.

#[export] Instance prog_ret : MRet prog := fun A a => Ret a.
#[export] Instance prog_bind : MBind prog := fun A B f p => pbind p f.

Definition sys (c : call) : prog (ans c) := Do c Ret.

(** ** The library *)

(** The bytes of a literal. *)
Fixpoint bytes (s : string) : list Z :=
  match s with
  | EmptyString => []
  | String a s' => Z.of_N (Ascii.N_of_ascii a) :: bytes s'
  end.

Definition newline : Z := 10.
Definition line (s : string) : list Z := bytes s ++ [newline].

Fixpoint putbytes (fd : Z) (l : list Z) : prog unit :=
  match l with
  | [] => mret tt
  | c :: l' => sys (SWrite fd [c]);; putbytes fd l'
  end.

Definition fprintf (fd : Z) (fmt : list Z) (args : list arg) : prog unit :=
  match vprintf fmt args with
  | Some l => putbytes fd l
  | None => Stuck
  end.

Definition printf (fmt : list Z) (args : list arg) : prog unit := fprintf 1 fmt args.

Definition str (s : list Z) : arg := AStr (Some s).

(** [buf] when [gets] returns, without its NUL: the loop at [i] bytes. *)
Fixpoint gets_loop (fuel : nat) (max i : Z) : prog (list Z) :=
  match fuel with
  | O => Stuck
  | S fuel' =>
      if i + 1 <? max then
        r ← sys (SRead 0 1);
        if r.1 <? 1 then mret [] else
        let c := nth 0 r.2 0 in
        if (c =? newline) || (c =? 13) then mret [c] else
        l ← gets_loop fuel' max (i + 1);
        mret (c :: l)
      else mret []
  end.

Definition gets (max : Z) : prog (list Z) := gets_loop (S (Z.to_nat max)) max 0.

Definition stat (n : list Z) : prog (Z * Fs.stat) :=
  fd ← sys (SOpen n O_RDONLY);
  if fd <? 0 then mret (-1, Stat 0 0 0 0 0) else
  r ← sys (SFstat fd);
  sys (SClose fd);;
  mret r.

Fixpoint atoi_loop (n : Z) (s : list Z) : Z :=
  match s with
  | c :: s' => if (48 <=? c) && (c <=? 57) then atoi_loop (i32 (n * 10 + c - 48)) s' else n
  | [] => n
  end.

Definition atoi (s : list Z) : Z := atoi_loop 0 s.

(** [start]: a [main] that returns exits with 0. *)
Definition start {A} (main : prog A) : prog A := main;; Exit 0.

(** ** cat *)

Fixpoint cat (fuel : nat) (fd : Z) : prog unit :=
  match fuel with
  | O => Stuck
  | S fuel' =>
      r ← sys (SRead fd 512);
      if 0 <? r.1 then
        w ← sys (SWrite 1 (take (Z.to_nat r.1) r.2));
        if negb (w =? r.1) then fprintf 2 (line "cat: write error") [];; Exit 1 else
        cat fuel' fd
      else if r.1 <? 0 then fprintf 2 (line "cat: read error") [];; Exit 1
      else mret tt
  end.

Fixpoint cat_files (fuel : nat) (argv : list (list Z)) : prog unit :=
  match argv with
  | [] => mret tt
  | name :: argv' =>
      fd ← sys (SOpen name O_RDONLY);
      if fd <? 0 then fprintf 2 (line "cat: cannot open %s") [str name];; Exit 1 else
      cat fuel fd;;
      sys (SClose fd);;
      cat_files fuel argv'
  end.

(** [argv] without the name of the program, here and below. *)
Definition cat_main (fuel : nat) (argv : list (list Z)) : prog unit :=
  match argv with
  | [] => cat fuel 0;; Exit 0
  | _ => cat_files fuel argv;; Exit 0
  end.

(** ** echo *)

Fixpoint echo_args (argv : list (list Z)) : prog unit :=
  match argv with
  | [] => mret tt
  | a :: argv' =>
      sys (SWrite 1 a);;
      sys (SWrite 1 (match argv' with [] => [newline] | _ => [32] end));;
      echo_args argv'
  end.

Definition echo_main (argv : list (list Z)) : prog unit := echo_args argv;; Exit 0.

(** ** wc *)

Record counts := Counts { wc_l : Z; wc_w : Z; wc_c : Z; wc_in : bool }.

(** The body of the [for] loop. *)
Definition wc_char (s : counts) (c : Z) : counts :=
  let l := if c =? newline then i32 (wc_l s + 1) else wc_l s in
  if in_str whitespace c then Counts l (wc_w s) (i32 (wc_c s + 1)) false
  else if negb (wc_in s) then Counts l (i32 (wc_w s + 1)) (i32 (wc_c s + 1)) true
  else Counts l (wc_w s) (i32 (wc_c s + 1)) (wc_in s).

Fixpoint wc_loop (fuel : nat) (fd : Z) (s : counts) : prog (Z * counts) :=
  match fuel with
  | O => Stuck
  | S fuel' =>
      r ← sys (SRead fd 512);
      if 0 <? r.1 then wc_loop fuel' fd (foldl wc_char s (take (Z.to_nat r.1) r.2))
      else mret (r.1, s)
  end.

Definition wc (fuel : nat) (fd : Z) (name : list Z) : prog unit :=
  r ← wc_loop fuel fd (Counts 0 0 0 false);
  if r.1 <? 0 then printf (line "wc: read error") [];; Exit 1 else
  printf (line "%d %d %d %s") [ANum (wc_l r.2); ANum (wc_w r.2); ANum (wc_c r.2); str name].

Fixpoint wc_files (fuel : nat) (argv : list (list Z)) : prog unit :=
  match argv with
  | [] => mret tt
  | name :: argv' =>
      fd ← sys (SOpen name O_RDONLY);
      if fd <? 0 then printf (line "wc: cannot open %s") [str name];; Exit 1 else
      wc fuel fd name;;
      sys (SClose fd);;
      wc_files fuel argv'
  end.

Definition wc_main (fuel : nat) (argv : list (list Z)) : prog unit :=
  match argv with
  | [] => wc fuel 0 [];; Exit 0
  | _ => wc_files fuel argv;; Exit 0
  end.

(** ** kill, ln, mkdir, rm, zombie *)

Fixpoint kill_args (argv : list (list Z)) : prog unit :=
  match argv with
  | [] => mret tt
  | a :: argv' => sys (SKill (atoi a));; kill_args argv'
  end.

Definition kill_main (argv : list (list Z)) : prog unit :=
  match argv with
  | [] => fprintf 2 (line "usage: kill pid...") [];; Exit 1
  | _ => kill_args argv;; Exit 0
  end.

Definition ln_main (argv : list (list Z)) : prog unit :=
  match argv with
  | [old; new] =>
      r ← sys (SLink old new);
      (if r <? 0 then fprintf 2 (line "link %s %s: failed") [str old; str new] else mret tt);;
      Exit 0
  | _ => fprintf 2 (line "Usage: ln old new") [];; Exit 1
  end.

Fixpoint mkdir_args (argv : list (list Z)) : prog unit :=
  match argv with
  | [] => mret tt
  | a :: argv' =>
      r ← sys (SMkdir a);
      if r <? 0 then fprintf 2 (line "mkdir: %s failed to create") [str a] else mkdir_args argv'
  end.

Definition mkdir_main (argv : list (list Z)) : prog unit :=
  match argv with
  | [] => fprintf 2 (line "Usage: mkdir files...") [];; Exit 1
  | _ => mkdir_args argv;; Exit 0
  end.

Fixpoint rm_args (argv : list (list Z)) : prog unit :=
  match argv with
  | [] => mret tt
  | a :: argv' =>
      r ← sys (SUnlink a);
      if r <? 0 then fprintf 2 (line "rm: %s failed to delete") [str a] else rm_args argv'
  end.

Definition rm_main (argv : list (list Z)) : prog unit :=
  match argv with
  | [] => fprintf 2 (line "Usage: rm files...") [];; Exit 1
  | _ => rm_args argv;; Exit 0
  end.

Definition zombie_main : prog unit :=
  pid ← sys SFork;
  (if 0 <? pid then sys (SSleep 5);; mret tt else mret tt);;
  Exit 0.

(** ** ls *)

(** The name after the last slash, by the loop from the end of [path]; [name] is
    what the pointer has passed. *)
Fixpoint after_slash (rev_path name : list Z) : list Z :=
  match rev_path with
  | [] => name
  | c :: p => if c =? slash then name else after_slash p (c :: name)
  end.

Definition base_name (path : list Z) : list Z := after_slash (reverse path) [].

Definition fmtname (path : list Z) : list Z :=
  let p := base_name path in
  if DIRSIZ <=? Z.of_nat (length p) then p else p ++ replicate (Z.to_nat DIRSIZ - length p) 32.

Definition print_stat (path : list Z) (st : Fs.stat) : prog unit :=
  printf (line "%s %d %d %d") [str (fmtname path); ANum (st_type st); ANum (st_ino st); ANum (i32 (st_size st))].

(** The loop over the entries of a directory; [buf] is the path and a slash. *)
Fixpoint ls_entries (fuel : nat) (fd : Z) (buf : list Z) : prog unit :=
  match fuel with
  | O => Stuck
  | S fuel' =>
      r ← sys (SRead fd 16);
      if negb (r.1 =? 16) then mret tt else
      if de_inum r.2 =? 0 then ls_entries fuel' fd buf else
      let path := buf ++ de_name r.2 in
      st ← stat path;
      (if st.1 <? 0 then printf (line "ls: cannot stat %s") [str path] else print_stat path st.2);;
      ls_entries fuel' fd buf
  end.

Definition ls (fuel : nat) (path : list Z) : prog unit :=
  fd ← sys (SOpen path O_RDONLY);
  if fd <? 0 then fprintf 2 (line "ls: cannot open %s") [str path] else
  r ← sys (SFstat fd);
  if r.1 <? 0 then fprintf 2 (line "ls: cannot stat %s") [str path];; sys (SClose fd);; mret tt else
  let type := st_type r.2 in
  (if (type =? T_DEVICE) || (type =? T_FILE) then print_stat path r.2
   else if type =? T_DIR then
     if 512 <? Z.of_nat (length path) + 1 + DIRSIZ + 1 then printf (line "ls: path too long") []
     else ls_entries fuel fd (path ++ [slash])
   else mret tt);;
  sys (SClose fd);;
  mret tt.

Fixpoint ls_args (fuel : nat) (argv : list (list Z)) : prog unit :=
  match argv with
  | [] => mret tt
  | a :: argv' => ls fuel a;; ls_args fuel argv'
  end.

Definition ls_main (fuel : nat) (argv : list (list Z)) : prog unit :=
  match argv with
  | [] => ls fuel (bytes ".");; Exit 0
  | _ => ls_args fuel argv;; Exit 0
  end.

(** ** init *)

Definition CONSOLE : Z := 1.

(** The inner loop: wait until the shell [pid] exits. *)
Fixpoint init_wait (fuel : nat) (pid : Z) : prog unit :=
  match fuel with
  | O => Stuck
  | S fuel' =>
      wpid ← sys SWait;
      if wpid =? pid then mret tt
      else if wpid <? 0 then printf (line "init: wait returned an error") [];; Exit 1
      else init_wait fuel' pid
  end.

Fixpoint init_loop (fuel : nat) : prog unit :=
  match fuel with
  | O => Stuck
  | S fuel' =>
      printf (line "init: starting sh") [];;
      pid ← sys SFork;
      if pid <? 0 then printf (line "init: fork failed") [];; Exit 1 else
      if pid =? 0 then
        sys (SExec (bytes "sh") [bytes "sh"]);;
        printf (line "init: exec sh failed") [];;
        Exit 1
      else
      init_wait fuel' pid;;
      init_loop fuel'
  end.

Definition init_main (fuel : nat) : prog unit :=
  r ← sys (SOpen (bytes "console") O_RDWR);
  (if r <? 0 then
     sys (SMknod (bytes "console") CONSOLE 0);;
     sys (SOpen (bytes "console") O_RDWR);;
     mret tt
   else mret tt);;
  sys (SDup 0);;
  sys (SDup 0);;
  init_loop fuel.

(** ** sh: running a command *)

Definition panic (s : list Z) : prog unit := fprintf 2 (line "%s") [str s];; Exit 1.

Definition fork1 : prog Z :=
  pid ← sys SFork;
  (if pid =? -1 then panic (bytes "fork") else mret tt);;
  mret pid.

(** The words of the command are strings; a null command and a type that is none
    of the five cannot be written. *)
Fixpoint runcmd (cmd : tcmd) : prog unit :=
  match cmd with
  | EXEC [] => Exit 1
  | EXEC (arg0 :: args) =>
      sys (SExec arg0 (arg0 :: args));;
      fprintf 2 (line "exec %s failed") [str arg0];;
      Exit 0
  | REDIR c file mode fd =>
      sys (SClose fd);;
      r ← sys (SOpen file mode);
      if r <? 0 then fprintf 2 (line "open %s failed") [str file];; Exit 1 else
      runcmd c
  | LIST lcmd rcmd =>
      pid ← fork1;
      if pid =? 0 then runcmd lcmd else
      sys SWait;;
      runcmd rcmd
  | PIPE lcmd rcmd =>
      p ← sys SPipe;
      (if p.1 <? 0 then panic (bytes "pipe") else mret tt);;
      let '(p0, p1) := p.2 in
      pid ← fork1;
      if pid =? 0 then
        sys (SClose 1);;
        sys (SDup p1);;
        sys (SClose p0);;
        sys (SClose p1);;
        runcmd lcmd
      else
      pid ← fork1;
      if pid =? 0 then
        sys (SClose 0);;
        sys (SDup p0);;
        sys (SClose p0);;
        sys (SClose p1);;
        runcmd rcmd
      else
      sys (SClose p0);;
      sys (SClose p1);;
      sys SWait;;
      sys SWait;;
      Exit 0
  | BACK c =>
      pid ← fork1;
      if pid =? 0 then runcmd c else
      Exit 0
  end.

(** [buf] is 0 after the bytes read.  [None] at the end of the input. *)
Definition getcmd (nbuf : Z) : prog (option (list Z)) :=
  sys (SWrite 2 (bytes "$ "));;
  l ← gets nbuf;
  let buf := l ++ replicate (Z.to_nat nbuf - length l) 0 in
  mret (if nth 0 buf 0 =? 0 then None else Some buf).

(** The command with the strings that its pointers lead to. *)
Fixpoint read_words (buf : list Z) (c : pcmd) : tcmd :=
  match c with
  | EXEC argv => EXEC (map (fun w => cstr buf w.1) argv)
  | REDIR c w m d => REDIR (read_words buf c) (cstr buf w.1) m d
  | PIPE l r => PIPE (read_words buf l) (read_words buf r)
  | LIST l r => LIST (read_words buf l) (read_words buf r)
  | BACK c => BACK (read_words buf c)
  end.

(** What [parsecmd] prints before it panics: the text after the command. *)
Definition leftovers (s : list Z) : prog unit :=
  match (parseline s (4 * length s + 4);; peek s [];; Prelude.gets (fun i => i)) O with
  | Ok i _ => if (i =? length s)%nat then mret tt else fprintf 2 (line "leftovers: %s") [str (drop i s)]
  | _ => mret tt
  end.

(** [runcmd(parsecmd(buf))]. *)
Definition run_line (s : list Z) : prog unit :=
  leftovers s;;
  match parsecmd s with
  | Ok (c, buf) _ => runcmd (read_words buf c)
  | Panic msg => panic (bytes msg)
  | Diverge => Stuck
  end.

Fixpoint open_console (fuel : nat) : prog unit :=
  match fuel with
  | O => Stuck
  | S fuel' =>
      fd ← sys (SOpen (bytes "console") O_RDWR);
      if 0 <=? fd then
        if 3 <=? fd then sys (SClose fd);; mret tt else open_console fuel'
      else mret tt
  end.

Fixpoint sh_loop (fuel : nat) : prog unit :=
  match fuel with
  | O => Stuck
  | S fuel' =>
      r ← getcmd 100;
      match r with
      | None => Exit 0
      | Some buf =>
          let s := cut buf in
          if (nth 0 buf 0 =? 99) && (nth 1 buf 0 =? 100) && (nth 2 buf 0 =? 32) then
            let dir := drop 3 (take (length s - 1) s) in
            r ← sys (SChdir dir);
            (if r <? 0 then fprintf 2 (line "cannot cd %s") [str dir] else mret tt);;
            sh_loop fuel'
          else
          pid ← fork1;
          if pid =? 0 then run_line s else
          sys SWait;;
          sh_loop fuel'
      end
  end.

Definition sh_main (fuel : nat) : prog unit :=
  open_console fuel;;
  sh_loop fuel.

(** ** forktest, stressfs *)

Definition FORKS : nat := 1000.

Definition print (s : list Z) : prog unit := sys (SWrite 1 s);; mret tt.

(** The first loop, with [k] rounds left: the number of children. *)
Fixpoint fork_loop (k : nat) (n : Z) : prog Z :=
  match k with
  | O => mret n
  | S k' =>
      pid ← sys SFork;
      if pid <? 0 then mret n else
      if pid =? 0 then Exit 0 else
      fork_loop k' (n + 1)
  end.

Fixpoint wait_loop (n : nat) : prog unit :=
  match n with
  | O => mret tt
  | S n' =>
      r ← sys SWait;
      if r <? 0 then print (line "wait stopped early");; Exit 1 else
      wait_loop n'
  end.

Definition forktest : prog unit :=
  print (line "fork test");;
  n ← fork_loop FORKS 0;
  if n =? Z.of_nat FORKS then print (line "fork claimed to work N times!");; Exit 1 else
  wait_loop (Z.to_nat n);;
  r ← sys SWait;
  if negb (r =? -1) then print (line "wait got too many");; Exit 1 else
  print (line "fork test OK").

Definition forktest_main : prog unit := forktest;; Exit 0.

(** The loop that forks: [i] when it ends. *)
Fixpoint stress_fork (k : nat) (i : Z) : prog Z :=
  match k with
  | O => mret i
  | S k' =>
      pid ← sys SFork;
      if 0 <? pid then mret i else stress_fork k' (i + 1)
  end.

Fixpoint repeat_call (k : nat) (c : call) : prog unit :=
  match k with
  | O => mret tt
  | S k' => sys c;; repeat_call k' c
  end.

Definition stressfs_main : prog unit :=
  printf (line "stressfs starting") [];;
  let data := replicate 512 97 in
  i ← stress_fork 4 0;
  printf (line "write %d") [ANum i];;
  let path := bytes "stressfs" ++ [48 + i] in
  fd ← sys (SOpen path (Z.lor O_CREATE O_RDWR));
  repeat_call 20 (SWrite fd data);;
  sys (SClose fd);;
  printf (line "read") [];;
  fd ← sys (SOpen path O_RDONLY);
  repeat_call 20 (SRead fd 512);;
  sys (SClose fd);;
  sys SWait;;
  Exit 0.
