(* ===== verification/UserThms.v ===== *)
(** * user: what the programs do

    [cat] and [wc] on a kernel that hands out the input in pieces of its choice
    and takes all output. *)

From stdpp Require Import base list numbers strings.
From Stdlib Require Import ZifyBool.
From S2P Require Import Prelude Printf Sysfile Sh User.

Local Open Scope Z_scope.

(** The end of a program. *)
Inductive result (A : Type) := Returned (a : A) | Exited (status : Z) | NoFuel.
Arguments Returned {A} a.
Arguments Exited {A} status.
Arguments NoFuel {A}.

(** A run of [p] on a kernel that answers calls by [h]. *)
Fixpoint exec {S A} (h : forall c, S -> ans c * S) (p : prog A) (s : S) : result A * S :=
  match p with
  | Ret a => (Returned a, s)
  | Do c k => let r := h c s in exec h (k r.1) r.2
  | Exit status => (Exited status, s)
  | Stuck => (NoFuel, s)
  end.

Lemma exec_bind {S A B} (h : forall c, S -> ans c * S) (p : prog A) (f : A -> prog B) : forall s,
  exec h (p ≫= f) s = match exec h p s with
                      | (Returned a, s') => exec h (f a) s'
                      | (Exited st, s') => (Exited st, s')
                      | (NoFuel, s') => (NoFuel, s')
                      end.
Proof. unfold mbind, prog_bind. induction p as [a|c k IH|st|]; intros s; cbn; [done|apply IH|done|done]. Qed.

(** The number of lines, words and bytes of a text.  A word begins at a byte that
    is not white space and does not follow such a byte. *)
Definition lines (l : list Z) : Z := zsum (fun c => if c =? newline then 1 else 0) l.

Definition begins (l : list Z) (i : nat) : bool :=
  negb (in_str whitespace (nth i l 0)) && match i with O => true | S j => in_str whitespace (nth j l 0) end.

Definition words_of (l : list Z) : Z := zsum (fun i => if begins l i then 1 else 0) (seq 0 (length l)).

(** The state after [l] has been counted. *)
Definition counted (l : list Z) : counts :=
  Counts (lines l) (words_of l) (Z.of_nat (length l)) (match last l with Some c => negb (in_str whitespace c) | None => false end).

Lemma words_of_snoc l c :
  words_of (l ++ [c]) = words_of l + (if negb (in_str whitespace c) && match last l with Some d => in_str whitespace d | None => true end then 1 else 0).
Proof.
  unfold words_of. rewrite length_app. cbn [length]. rewrite Nat.add_1_r, seq_S, zsum_app. cbn [zsum Nat.add]. rewrite Z.add_0_r. f_equal.
  - apply zsum_ext. intros i Hi%elem_of_seq. unfold begins. rewrite app_nth1 by lia. destruct i as [|i]; [done|]. now rewrite app_nth1 by lia.
  - unfold begins. rewrite nth_middle. destruct (length l) as [|n] eqn:En; [destruct l; done|].
    rewrite app_nth1 by lia. rewrite last_lookup, En. cbn [pred]. destruct (lookup_lt_is_Some_2 l n) as [d Hd]; [lia|]. rewrite Hd. now rewrite (nth_lookup_Some _ _ 0 d Hd).
Qed.

Lemma words_of_bound l : 0 <= words_of l <= Z.of_nat (length l).
Proof.
  unfold words_of. split; [apply zsum_nonneg; intros; destruct (begins _ _); lia|].
  rewrite <- (length_seq (length l) 0) at 2. generalize (seq 0 (length l)) as k. induction k as [|i k IH]; cbn [zsum length]; [lia|]. destruct (begins l i); lia.
Qed.

Lemma lines_bound l : 0 <= lines l <= Z.of_nat (length l).
Proof. unfold lines. induction l as [|c l IH]; cbn [zsum length]; [lia|]. destruct (c =? newline); lia. Qed.

Lemma wc_char_counted l c : Z.of_nat (length l) < 2^31 - 1 -> wc_char (counted l) c = counted (l ++ [c]).
Proof.
  intros Hl. pose proof (words_of_bound l) as Hw. pose proof (lines_bound l) as Hn. unfold wc_char, counted.
  cbn [wc_l wc_w wc_c wc_in]. rewrite words_of_snoc, last_snoc, length_app. unfold lines. rewrite zsum_app. fold (lines l). cbn [zsum length].
  rewrite !i32_small by lia. replace (Z.of_nat (length l + 1)) with (Z.of_nat (length l) + 1) by lia.
  destruct (c =? newline), (in_str whitespace c), (last l) as [d|]; cbn [negb andb]; try (destruct (in_str whitespace d); cbn [negb]); f_equal; lia.
Qed.

Lemma foldl_counted l2 : forall l1, Z.of_nat (length (l1 ++ l2)) < 2^31 -> foldl wc_char (counted l1) l2 = counted (l1 ++ l2).
Proof.
  induction l2 as [|c l2 IH]; intros l1 H; cbn [foldl]; [now rewrite app_nil_r|]. rewrite length_app in H. cbn [length] in H.
  rewrite wc_char_counted by lia. rewrite IH by (rewrite !length_app; cbn [length]; lia). now rewrite <- app_assoc.
Qed.

Section stream.
Context {S : Type} (h : forall c, S -> ans c * S) (input output : S -> list Z).

(** [read] of [fd] returns some of the bytes that are left, at least one if there
    is one; [write] to descriptor 1 takes all bytes. *)
Definition reads (fd : Z) : Prop := forall n s, 0 < n -> let '((r, l), s') := h (SRead fd n) s in
  output s' = output s /\ input s = l ++ input s' /\ r = Z.of_nat (length l) /\ r <= n /\ (input s <> [] -> 0 < r).

Definition writes : Prop := forall b s, let '(r, s') := h (SWrite 1 b) s in
  r = Z.of_nat (length b) /\ input s' = input s /\ output s' = output s ++ b.

Context (fd : Z) (Hr : reads fd) (Hw : writes).

(** [cat] copies its input to its output. *)
Theorem cat_copies fuel : forall s, (length (input s) < fuel)%nat ->
  exists s', exec h (cat fuel fd) s = (Returned tt, s') /\ input s' = [] /\ output s' = output s ++ input s.
Proof.
  induction fuel as [|fuel IH]; intros s Hf; [lia|]. cbn [cat]. rewrite exec_bind. cbn [sys exec]. pose proof (Hr 512 s ltac:(lia)) as H.
  destruct (h (SRead fd 512) s) as [[r l] s1]. destruct H as (Ho & Hi & -> & _ & Hpos). cbn [fst snd].
  destruct (Z.ltb_spec 0 (Z.of_nat (length l))) as [Hl|Hl].
  - rewrite exec_bind. cbn [sys exec]. rewrite Nat2Z.id, take_ge by lia. pose proof (Hw l s1) as H. destruct (h (SWrite 1 l) s1) as [w s2]. destruct H as (-> & Hi2 & Ho2).
    cbn [fst snd]. rewrite Z.eqb_refl. cbn [negb]. destruct (IH s2) as (s' & H1 & H2 & H3); [rewrite Hi2; rewrite Hi, length_app in Hf; lia|].
    exists s'. split; [exact H1|]. split; [done|]. now rewrite H3, Ho2, Ho, Hi, Hi2, <- app_assoc.
  - rewrite (proj2 (Z.ltb_ge (Z.of_nat (length l)) 0)) by lia. assert (l = []) as -> by (destruct l; [done|cbn in Hl; lia]).
    exists s1. split; [done|]. assert (input s = []) as E by (destruct (input s); [done|exfalso; cbn in Hpos; specialize (Hpos ltac:(done)); lia]).
    rewrite E in *. cbn in Hi. split; [done|]. now rewrite app_nil_r.
Qed.

(** The loop of [wc]. *)
Lemma wc_loop_ok fuel : forall l0 s, (length (input s) < fuel)%nat -> Z.of_nat (length (l0 ++ input s)) < 2^31 ->
  exists s', exec h (wc_loop fuel fd (counted l0)) s = (Returned (0, counted (l0 ++ input s)), s') /\ input s' = [] /\ output s' = output s.
Proof.
  induction fuel as [|fuel IH]; intros l0 s Hf Hb; [lia|]. cbn [wc_loop]. rewrite exec_bind. cbn [sys exec]. pose proof (Hr 512 s ltac:(lia)) as H.
  destruct (h (SRead fd 512) s) as [[r l] s1]. destruct H as (Ho & Hi & -> & _ & Hpos). cbn [fst snd].
  destruct (Z.ltb_spec 0 (Z.of_nat (length l))) as [Hl|Hl].
  - rewrite Nat2Z.id, take_ge by lia. rewrite Hi in Hb. rewrite foldl_counted by (rewrite !length_app in *; lia).
    destruct (IH (l0 ++ l) s1) as (s' & H1 & H2 & H3); [rewrite Hi, length_app in Hf; lia|now rewrite <- app_assoc|].
    exists s'. rewrite Hi, app_assoc. split; [exact H1|]. split; [done|congruence].
  - assert (l = []) as -> by (destruct l; [done|cbn in Hl; lia]). exists s1.
    assert (input s = []) as E by (destruct (input s); [done|exfalso; cbn in Hpos; specialize (Hpos ltac:(done)); lia]).
    rewrite E in *. cbn in Hi. rewrite app_nil_r. done.
Qed.

Lemma putbytes_ok l : forall s, exists s', exec h (putbytes 1 l) s = (Returned tt, s') /\ input s' = input s /\ output s' = output s ++ l.
Proof.
  induction l as [|c l IH]; intros s; cbn [putbytes]; [exists s; now rewrite app_nil_r|]. rewrite exec_bind. cbn [sys exec]. pose proof (Hw [c] s) as H.
  destruct (h (SWrite 1 [c]) s) as [w s1]. destruct H as (_ & Hi & Ho). cbn [fst snd]. destruct (IH s1) as (s' & H1 & H2 & H3).
  exists s'. split; [exact H1|]. split; [congruence|]. now rewrite H3, Ho, <- app_assoc.
Qed.

(** [wc] prints the number of lines, words and bytes of its input, as [printf]
    prints numbers. *)
Theorem wc_counts fuel s name out : (length (input s) < fuel)%nat -> Z.of_nat (length (input s)) < 2^31 ->
  vprintf (line "%d %d %d %s") [ANum (lines (input s)); ANum (words_of (input s)); ANum (Z.of_nat (length (input s))); str name] = Some out ->
  exists s', exec h (wc fuel fd name) s = (Returned tt, s') /\ input s' = [] /\ output s' = output s ++ out.
Proof.
  intros Hf Hb Hv. unfold wc. rewrite exec_bind. destruct (wc_loop_ok fuel [] s Hf Hb) as (s1 & H1 & H2 & H3).
  change (counted []) with (Counts 0 0 0 false) in H1. rewrite H1. cbn [fst snd app counted wc_l wc_w wc_c]. change (0 <? 0) with false. cbn iota.
  unfold printf, fprintf. rewrite Hv. destruct (putbytes_ok out s1) as (s' & H4 & H5 & H6). exists s'. split; [exact H4|]. split; [congruence|]. now rewrite H6, H3.
Qed.
End stream.
