(* ===== verification/ShRun.v ===== *)
(** * user/sh.c: the processes of a command

    [runcmd] as a system of processes: the system calls it makes, with
    descriptor tables, pipes, forks and waits, in every interleaving.  A command
    describes which programs are to run and what their descriptors are; the
    processes carry out just that. *)

From stdpp Require Import base list numbers strings functions relations.
From S2P Require Import Prelude Printf Sysfile File Sh User.

Local Open Scope Z_scope.

(** ** Descriptors *)

(** What a descriptor leads to: something that the shell was started with, a
    file, or an end of a pipe.  Pipes have names in [I]. *)
Inductive obj (I : Type) := Std (n : Z) | OFile (path : list Z) (mode : Z) | PipeR (i : I) | PipeW (i : I).
Arguments Std {I} n.
Arguments OFile {I} path mode.
Arguments PipeR {I} i.
Arguments PipeW {I} i.

Abbreviation fdt I := (list (option (obj I))).

Section fds.
Context {I : Type}.
Implicit Types F : fdt I.

(** The descriptor that [fdalloc] takes. *)
Fixpoint lowest F : option nat :=
  match F with
  | [] => None
  | None :: _ => Some O
  | Some _ :: F' => S <$> lowest F'
  end.

(** [argfd] *)
Definition get_fd (fd : Z) F : option (obj I) := if fd <? 0 then None else (F !! Z.to_nat fd) ≫= id.
End fds.

Definition omap_obj {I J} (f : I -> J) (o : obj I) : obj J :=
  match o with
  | Std n => Std n
  | OFile path mode => OFile path mode
  | PipeR i => PipeR (f i)
  | PipeW i => PipeW (f i)
  end.

Definition map_fds {I J} (f : I -> J) : fdt I -> fdt J := map (option_map (omap_obj f)).

(** ** Processes *)

Inductive code := Running (p : prog unit) | Other | Zombie | Gone.

Record proc := Proc { p_code : code; p_fds : fdt nat; p_parent : option nat }.

(** The processes, whose numbers are their places in the list; the number of
    pipes so far; the calls of [exec], with the descriptors; and whether a fork, a
    pipe or an open has failed. *)
Record os := Os { o_procs : list proc; o_pipes : nat; o_execs : list (list (list Z) * fdt nat); o_failed : bool }.

Definition pid_of (i : nat) : Z := Z.of_nat i + 2.

Definition set_proc (i : nat) (p : proc) (s : os) : os := Os (<[i := p]> (o_procs s)) (o_pipes s) (o_execs s) (o_failed s).

Definition fail (s : os) : os := Os (o_procs s) (o_pipes s) (o_execs s) true.

(** The children of [i] that have not been waited for. *)
Definition is_kid (i : nat) (q : proc) : bool :=
  match p_parent q, p_code q with
  | Some j, Gone => false
  | Some j, _ => (i =? j)%nat
  | None, _ => false
  end.

Definition kids (i : nat) (ps : list proc) : Z := zsum (fun q => if is_kid i q then 1 else 0) ps.

(** The children of [i] are given to init. *)
Definition orphan (i : nat) (q : proc) : proc := if is_kid i q then Proc (p_code q) (p_fds q) None else q.

(** Process [i], with descriptors [F] and parent [u], makes the call [c] and goes
    on with [k]. *)
Inductive do_call (i : nat) (F : fdt nat) (u : option nat) : forall c, (ans c -> prog unit) -> os -> os -> Prop :=
  | DFork k s : do_call i F u SFork k s
      (let s' := set_proc i (Proc (Running (k (pid_of (length (o_procs s))))) F u) s in
       Os (o_procs s' ++ [Proc (Running (k 0)) F (Some i)]) (o_pipes s') (o_execs s') (o_failed s'))
  | DForkFail k s : do_call i F u SFork k s (fail (set_proc i (Proc (Running (k (-1))) F u) s))
  | DWait k s j q : o_procs s !! j = Some q -> is_kid i q = true -> p_code q = Zombie ->
      do_call i F u SWait k s (set_proc j (Proc Gone (p_fds q) (p_parent q)) (set_proc i (Proc (Running (k (pid_of j))) F u) s))
  | DWaitNone k s : kids i (o_procs s) = 0 -> do_call i F u SWait k s (set_proc i (Proc (Running (k (-1))) F u) s)
  | DPipe k s a b : lowest F = Some a -> let F1 := <[a := Some (PipeR (o_pipes s))]> F in lowest F1 = Some b ->
      do_call i F u SPipe k s
        (let s' := set_proc i (Proc (Running (k (0, (Z.of_nat a, Z.of_nat b)))) (<[b := Some (PipeW (o_pipes s))]> F1) u) s in
         Os (o_procs s') (S (o_pipes s')) (o_execs s') (o_failed s'))
  | DPipeFail k s r : do_call i F u SPipe k s (fail (set_proc i (Proc (Running (k (-1, r))) F u) s))
  | DClose fd k s o : get_fd fd F = Some o -> do_call i F u (SClose fd) k s (set_proc i (Proc (Running (k 0)) (<[Z.to_nat fd := None]> F) u) s)
  | DCloseBad fd k s : get_fd fd F = None -> do_call i F u (SClose fd) k s (set_proc i (Proc (Running (k (-1))) F u) s)
  | DDup fd k s o a : get_fd fd F = Some o -> lowest F = Some a ->
      do_call i F u (SDup fd) k s (set_proc i (Proc (Running (k (Z.of_nat a))) (<[a := Some o]> F) u) s)
  | DDupBad fd k s : get_fd fd F = None \/ lowest F = None -> do_call i F u (SDup fd) k s (set_proc i (Proc (Running (k (-1))) F u) s)
  | DOpen path mode k s a : lowest F = Some a ->
      do_call i F u (SOpen path mode) k s (set_proc i (Proc (Running (k (Z.of_nat a))) (<[a := Some (OFile path mode)]> F) u) s)
  | DOpenFail path mode k s : do_call i F u (SOpen path mode) k s (fail (set_proc i (Proc (Running (k (-1))) F u) s))
  | DExec path argv k s :
      do_call i F u (SExec path argv) k s (let s' := set_proc i (Proc Other F u) s in Os (o_procs s') (o_pipes s') (o_execs s' ++ [(argv, F)]) (o_failed s'))
  | DExecFail path argv k s :
      do_call i F u (SExec path argv) k s
        (let s' := set_proc i (Proc (Running (k (-1))) F u) s in Os (o_procs s') (o_pipes s') (o_execs s' ++ [(argv, F)]) (o_failed s'))
  | DWrite fd buf k s r : do_call i F u (SWrite fd buf) k s (set_proc i (Proc (Running (k r)) F u) s).

(** A step of process [i]: a call, or its end.  A program that has replaced the
    shell ends at some point. *)
Inductive step (i : nat) : os -> os -> Prop :=
  | Call s c k F u s' : o_procs s !! i = Some (Proc (Running (Do c k)) F u) -> do_call i F u c k s s' -> step i s s'
  | End s p F u : o_procs s !! i = Some (Proc p F u) -> (exists st, p = Running (Exit st)) \/ p = Other ->
      step i s (Os (<[i := Proc Zombie [] u]> (orphan i <$> o_procs s)) (o_pipes s) (o_execs s) (o_failed s)).

Definition steps : os -> os -> Prop := rtc (fun s s' => exists i, step i s s').

(** A process starts to run [c]. *)
Definition begin (c : tcmd) (F : fdt nat) : os := Os [Proc (Running (runcmd c)) F None] 0 [] false.

Definition ended (q : proc) : Prop := p_code q = Zombie \/ p_code q = Gone.

(** ** What a command asks for *)

(** Places in a command. *)
Definition place : Type := list bool.

(** The programs of [c], at place [pi], started with descriptors [F]; the pipe of a
    [PIPE] has the name of its place. *)
Fixpoint wires (pi : place) (c : tcmd) (F : fdt place) : list (list (list Z) * fdt place) :=
  match c with
  | EXEC [] => []
  | EXEC argv => [(argv, F)]
  | REDIR c file mode fd => wires (pi ++ [false]) c (<[Z.to_nat fd := Some (OFile file mode)]> F)
  | PIPE l r => wires (pi ++ [false]) l (<[1%nat := Some (PipeW pi)]> F) ++ wires (pi ++ [true]) r (<[0%nat := Some (PipeR pi)]> F)
  | LIST l r => wires (pi ++ [false]) l F ++ wires (pi ++ [true]) r F
  | BACK c => wires (pi ++ [false]) c F
  end.

(** The pipes of [c]. *)
Fixpoint pipes (pi : place) (c : tcmd) : list place :=
  match c with
  | EXEC _ => []
  | REDIR c _ _ _ | BACK c => pipes (pi ++ [false]) c
  | PIPE l r => pi :: pipes (pi ++ [false]) l ++ pipes (pi ++ [true]) r
  | LIST l r => pipes (pi ++ [false]) l ++ pipes (pi ++ [true]) r
  end.

(** Redirections are of descriptors 0 and 1, as the parser makes them. *)
Fixpoint redirs_ok (c : tcmd) : Prop :=
  match c with
  | EXEC _ => True
  | REDIR c _ _ fd => (fd = 0 \/ fd = 1) /\ redirs_ok c
  | PIPE l r | LIST l r => redirs_ok l /\ redirs_ok r
  | BACK c => redirs_ok c
  end.

(** Descriptors 0 and 1 are open. *)
Definition std {I} (F : fdt I) : Prop := exists a b F', F = Some a :: Some b :: F'.

(** ** A process that does its part *)

Definition job : Type := list (list Z) * fdt place.

(** The program [p], with descriptors [F] and [n] children, starts the programs
    [W] and makes the pipes [N], itself or through its children; or something has
    failed. *)
Fixpoint does (failed : bool) (p : prog unit) (W : list job) (N : list place) (F : fdt place) (n : nat) {struct p} : Prop :=
  match p with
  | Ret _ | Stuck => False
  | Exit _ => failed = true \/ W = []
  | Do c k =>
      match c return (ans c -> prog unit) -> Prop with
      | SFork => fun k =>
          (exists W1 W2 N1 N2, W ≡ₚ W1 ++ W2 /\ N ≡ₚ N1 ++ N2 /\ does failed (k 0) W1 N1 F 0 /\ forall pid, 0 < pid -> does failed (k pid) W2 N2 F (S n)) /\
          does true (k (-1)) W N F n
      | SWait => fun k =>
          match n with
          | O => does failed (k (-1)) W N F O
          | S n' => forall pid, 0 < pid -> does failed (k pid) W N F n'
          end
      | SPipe => fun k =>
          (exists pi N', N ≡ₚ pi :: N' /\ forall a b, lowest F = Some a -> lowest (<[a := Some (PipeR pi)]> F) = Some b ->
             does failed (k (0, (Z.of_nat a, Z.of_nat b))) W N' (<[b := Some (PipeW pi)]> (<[a := Some (PipeR pi)]> F)) n) /\
          forall r, does true (k (-1, r)) W N F n
      | SClose fd => fun k =>
          match get_fd fd F with
          | Some _ => does failed (k 0) W N (<[Z.to_nat fd := None]> F) n
          | None => does failed (k (-1)) W N F n
          end
      | SDup fd => fun k =>
          match get_fd fd F, lowest F with
          | Some o, Some a => does failed (k (Z.of_nat a)) W N (<[a := Some o]> F) n
          | _, _ => does failed (k (-1)) W N F n
          end
      | SOpen path mode => fun k =>
          (forall a, lowest F = Some a -> does failed (k (Z.of_nat a)) W N (<[a := Some (OFile path mode)]> F) n) /\ does true (k (-1)) W N F n
      | SExec path argv => fun k =>
          exists W', W ≡ₚ (argv, F) :: W' /\ (failed = true \/ W' = []) /\ does failed (k (-1)) W' N F n
      | SWrite _ _ => fun k => forall r, does failed (k r) W N F n
      | _ => fun _ => False
      end k
  end.

Lemma does_mono p : forall W N F n, does false p W N F n -> does true p W N F n.
Proof.
  induction p as [a|c k IH|st|]; intros W N F n; cbn [does]; [done| |tauto|done].
  destruct c; try done.
  - intros [(W1 & W2 & N1 & N2 & H1 & H2 & H3 & H4) H5]. split; [|done]. exists W1, W2, N1, N2. split; [done|]. split; [done|]. split; [now apply IH|]. intros pid Hp. apply IH. auto.
  - destruct n; [apply IH|]. intros H pid Hp. apply IH. auto.
  - intros [(pi & N' & H1 & H2) H3]. split; [|done]. exists pi, N'. split; [done|]. intros a b Ha Hb. apply IH. auto.
  - intros H r. apply IH. auto.
  - destruct (get_fd _ _); apply IH.
  - intros (W' & H1 & H2 & H3). exists W'. split; [done|]. split; [now left|]. now apply IH.
  - intros [H1 H2]. split; [|done]. intros a Ha. apply IH. auto.
  - destruct (get_fd _ _), (lowest F); apply IH.
Qed.

(** The order of binds does not matter. *)
Lemma does_assoc {A B} (p : prog A) (f : A -> prog B) (g : B -> prog unit) : forall failed W N F n,
  does failed (p ≫= (fun a => f a ≫= g)) W N F n -> does failed ((p ≫= f) ≫= g) W N F n.
Proof.
  unfold mbind, prog_bind. induction p as [a|c k IH|st|]; intros failed W N F n; cbn [pbind does]; [done| |done|done]. destruct c; try done.
  - intros [(W1 & W2 & N1 & N2 & H1 & H2 & H3 & H4) H5]. split; [|now apply IH]. exists W1, W2, N1, N2. split; [done|]. split; [done|]. split; [now apply IH|]. intros pid Hp. apply IH. auto.
  - destruct n; [apply IH|]. intros H pid Hp. apply IH. auto.
  - intros [(pi & N' & H1 & H2) H3]. split; [|intros r; apply IH, H3]. exists pi, N'. split; [done|]. intros a b Ha Hb. apply IH. auto.
  - intros H r. apply IH. auto.
  - destruct (get_fd _ _); apply IH.
  - intros (W' & H1 & H2 & H3). exists W'. split; [done|]. split; [done|]. now apply IH.
  - intros [H1 H2]. split; [|now apply IH]. intros a Ha. apply IH. auto.
  - destruct (get_fd _ _), (lowest F); apply IH.
Qed.

Lemma does_putbytes failed fd l p W N F n : does failed p W N F n -> does failed (putbytes fd l;; p) W N F n.
Proof. intros H. induction l as [|c l IH]; [exact H|]. cbn. intros _. exact IH. Qed.

Lemma does_message failed fd fmt x p W N F n :
  vprintf fmt [str x] <> None -> does failed p W N F n -> does failed (fprintf fd fmt [str x];; p) W N F n.
Proof. intros Hv H. unfold fprintf. destruct (vprintf fmt [str x]); [now apply does_putbytes|done]. Qed.

(** A failure. *)
Lemma does_panic msg (p : unit -> prog unit) W N F n : does true (panic msg ≫= p) W N F n.
Proof. unfold panic. apply does_assoc, does_message; [done|]. cbn. now left. Qed.

(** The two ways that [fork1] goes. *)
Lemma does_fork1 failed (k : Z -> prog unit) W N F n W1 W2 N1 N2 :
  W ≡ₚ W1 ++ W2 -> N ≡ₚ N1 ++ N2 -> does failed (k 0) W1 N1 F 0 -> (forall pid, 0 < pid -> does failed (k pid) W2 N2 F (S n)) ->
  does failed (fork1 ≫= k) W N F n.
Proof.
  intros HW HN H0 H1. unfold fork1. apply does_assoc. cbn [mbind prog_bind sys pbind does]. split.
  - exists W1, W2, N1, N2. split; [done|]. split; [done|]. split; [exact H0|]. intros pid Hp. specialize (H1 pid Hp).
    rewrite (proj2 (Z.eqb_neq pid (-1))) by lia. exact H1.
  - apply (does_assoc (panic (bytes "fork")) (fun _ => Ret (-1)) k), does_panic.
Qed.

(** ** runcmd *)

Lemma lowest_some {I} (F : fdt I) a : lowest F = Some a -> F !! a = Some None.
Proof.
  revert a. induction F as [|[o|] F IH]; intros a H; cbn in H; [done| |injection H as <-; done].
  destruct (lowest F) as [b|] eqn:E; [|done]. injection H as <-. apply IH. done.
Qed.

(** The table of a process that has one end of the pipe [a], [b] on descriptor
    [d]. *)
Lemma close_pipe {I} (F : fdt I) a b d R W o :
  F !! a = Some None -> F !! b = Some None -> a <> b -> d <> a -> d <> b ->
  <[b := None]> (<[a := None]> (<[d := Some o]> (<[d := None]> (<[b := Some W]> (<[a := Some R]> F))))) = <[d := Some o]> F.
Proof.
  intros Ha Hb Hab Hda Hdb. rewrite list_insert_insert_eq. rewrite (list_insert_insert_ne _ a d) by done. rewrite (list_insert_insert_ne _ b d) by done. f_equal.
  rewrite (list_insert_insert_ne _ a b) by done. rewrite list_insert_insert_eq. rewrite list_insert_insert_eq. rewrite (list_insert_id _ a) by done. now rewrite list_insert_id.
Qed.

Lemma std_insert {I} (F : fdt I) i o : std F -> std (<[i := Some o]> F).
Proof. intros (a & b & F' & ->). destruct i as [|[|i]]; cbn; eexists _, _, _; reflexivity. Qed.

Lemma get_fd_nat {I} (F : fdt I) (a : nat) : get_fd (Z.of_nat a) F = (F !! a) ≫= id.
Proof. unfold get_fd. rewrite (proj2 (Z.ltb_ge (Z.of_nat a) 0)) by lia. now rewrite Nat2Z.id. Qed.

Lemma lowest_ge {I} (F : fdt I) a : std F -> lowest F = Some a -> (2 <= a)%nat.
Proof. intros (x & y & F' & ->) H. cbn in H. destruct (lowest F'); [|done]. cbn in H. injection H as <-. lia. Qed.

(** Closing, duplicating and closing: descriptor [d] becomes the end [e] of the
    pipe. *)
Lemma does_end failed (d a b e : nat) (k : prog unit) W N F n pi :
  std F -> (d < 2)%nat -> F !! a = Some None -> F !! b = Some None -> a <> b -> (2 <= a)%nat -> (2 <= b)%nat -> e = a \/ e = b ->
  let o := if decide (e = a) then PipeR pi else PipeW pi in
  does failed k W N (<[d := Some o]> F) n ->
  does failed (sys (SClose (Z.of_nat d));; sys (SDup (Z.of_nat e));; sys (SClose (Z.of_nat a));; sys (SClose (Z.of_nat b));; k) W N
    (<[b := Some (PipeW pi)]> (<[a := Some (PipeR pi)]> F)) n.
Proof.
  intros (x & y & F' & HF) Hd Ha Hb Hab H2a H2b He o Hk. pose proof (lookup_lt_Some _ _ _ Ha) as La. pose proof (lookup_lt_Some _ _ _ Hb) as Lb.
  set (G := <[b := Some (PipeW pi)]> (<[a := Some (PipeR pi)]> F)).
  assert (forall i, (i < 2)%nat -> exists z, G !! i = Some (Some z)) as HG.
  { intros i Hi. unfold G. rewrite !list_lookup_insert_ne by lia. rewrite HF. destruct i as [|[|i]]; [eexists; reflexivity..|lia]. }
  assert (G !! a = Some (Some (PipeR pi)) /\ G !! b = Some (Some (PipeW pi))) as [Ga Gb].
  { unfold G. rewrite (list_lookup_insert_ne _ b a), list_lookup_insert_eq, list_lookup_insert_eq by (rewrite ?length_insert; done || lia). done. }
  assert (G !! e = Some (Some o)) as Ge. { unfold o. destruct (decide (e = a)) as [->|Hne]; [done|]. destruct He as [->| ->]; done. }
  assert (lowest (<[d := None]> G) = Some d) as Hlow.
  { unfold G. rewrite HF. destruct a as [|[|a]]; [lia..|]. destruct b as [|[|b]]; [lia..|]. destruct d as [|[|d]]; [done|done|lia]. }
  cbn [sys mbind prog_bind pbind does]. rewrite get_fd_nat. destruct (HG d Hd) as [z ->]. cbn [mbind option_bind id]. rewrite Nat2Z.id.
  rewrite get_fd_nat, list_lookup_insert_ne by (destruct He as [->| ->]; lia). rewrite Ge. cbn [mbind option_bind id]. rewrite Hlow.
  rewrite get_fd_nat, !list_lookup_insert_ne by lia. rewrite Ga. cbn [mbind option_bind id]. rewrite Nat2Z.id.
  rewrite get_fd_nat, !list_lookup_insert_ne by lia. rewrite Gb. cbn [mbind option_bind id]. rewrite Nat2Z.id.
  unfold G. rewrite close_pipe by (done || lia). exact Hk.
Qed.

Lemma does_runcmd failed c : forall pi F, redirs_ok c -> std F -> does failed (runcmd c) (wires pi c F) (pipes pi c) F 0.
Proof.
  induction c as [argv|c IH file mode fd|l IHl r IHr|l IHl r IHr|c IH]; intros pi F HR HS; cbn [runcmd wires pipes redirs_ok] in *.
  - destruct argv as [|a argv]; [cbn; now right|]. cbn [sys mbind prog_bind pbind does]. exists []. split; [done|]. split; [now right|].
    apply (does_message failed 2 _ a (Exit 0)); [done|]. cbn. now right.
  - destruct HR as [Hfd HR]. cbn [sys mbind prog_bind pbind does]. destruct HS as (x & y & F' & ->).
    assert (exists d, (d < 2)%nat /\ fd = Z.of_nat d) as (d & Hd & ->) by (destruct Hfd as [->| ->]; [exists 0%nat|exists 1%nat]; split; done || lia).
    rewrite get_fd_nat, Nat2Z.id. set (F := Some x :: Some y :: F') in *.
    assert (exists z, F !! d = Some (Some z)) as [z ->] by (destruct d as [|[|d]]; [eexists; reflexivity..|lia]). cbn [mbind option_bind id]. split.
    + intros a Ha. assert (a = d) as -> by (destruct d as [|[|d]]; cbn in Ha; [congruence..|lia]).
      rewrite (proj2 (Z.ltb_ge (Z.of_nat d) 0)) by lia. rewrite list_insert_insert_eq. apply IH; [done|]. apply std_insert. now exists x, y, F'.
    + change (-1 <? 0) with true. apply (does_message true 2 _ file (Exit 1)); [done|]. cbn. now left.
  - destruct HR as [HRl HRr]. cbn [sys]. unfold mbind at 1, prog_bind at 1. cbn [pbind does]. split.
    2: { intros [p0 p1]. cbn [fst snd]. change (-1 <? 0) with true. apply does_panic. }
    exists pi, (pipes (pi ++ [false]) l ++ pipes (pi ++ [true]) r). split; [done|]. intros a b Ha Hb.
    pose proof (lowest_ge _ _ HS Ha) as H2a. pose proof (lowest_ge _ _ (std_insert _ _ _ HS) Hb) as H2b.
    pose proof (lowest_some _ _ Ha) as Fa. pose proof (lowest_some _ _ Hb) as Fb. pose proof (lookup_lt_Some _ _ _ Fa) as La.
    assert (a <> b) as Hab by (intros <-; rewrite list_lookup_insert_eq in Fb by done; done). rewrite list_lookup_insert_ne in Fb by done.
    cbn [fst snd]. change (0 <? 0) with false. cbn iota. unfold mbind at 1, prog_bind at 1, mret at 1, prog_ret at 1. cbn [pbind].
    apply (does_fork1 _ _ _ _ _ _ (wires (pi ++ [false]) l (<[1%nat := Some (PipeW pi)]> F)) (wires (pi ++ [true]) r (<[0%nat := Some (PipeR pi)]> F)) (pipes (pi ++ [false]) l) (pipes (pi ++ [true]) r)); [done|done| |].
    + cbn [Z.eqb]. apply (does_end _ 1 a b b); try done; [lia|now right|]. rewrite decide_False by done. apply IHl; [done|]. now apply std_insert.
    + intros pid Hpid. rewrite (proj2 (Z.eqb_neq pid 0)) by lia.
      apply (does_fork1 _ _ _ _ _ _ (wires (pi ++ [true]) r (<[0%nat := Some (PipeR pi)]> F)) [] (pipes (pi ++ [true]) r) []); [by rewrite app_nil_r|by rewrite app_nil_r| |].
      * cbn [Z.eqb]. apply (does_end _ 0 a b a); try done; [lia|now left|]. rewrite decide_True by done. apply IHr; [done|]. now apply std_insert.
      * intros pid' Hpid'. rewrite (proj2 (Z.eqb_neq pid' 0)) by lia. cbn [sys mbind prog_bind pbind does].
        rewrite get_fd_nat, (list_lookup_insert_ne _ b a), list_lookup_insert_eq by (done || lia). cbn [mbind option_bind id]. rewrite Nat2Z.id, get_fd_nat.
        rewrite list_lookup_insert_ne, list_lookup_insert_eq by (done || rewrite ?length_insert; eapply lookup_lt_Some; exact Fb). cbn [mbind option_bind id].
        intros _ _ _ _. now right.
  - destruct HR as [HRl HRr].
    apply (does_fork1 _ _ _ _ _ _ (wires (pi ++ [false]) l F) (wires (pi ++ [true]) r F) (pipes (pi ++ [false]) l) (pipes (pi ++ [true]) r)); [done|done| |].
    + cbn [Z.eqb]. now apply IHl.
    + intros pid Hpid. rewrite (proj2 (Z.eqb_neq pid 0)) by lia. cbn [sys mbind prog_bind pbind does]. intros _ _. now apply IHr.
  - apply (does_fork1 _ _ _ _ _ _ (wires (pi ++ [false]) c F) [] (pipes (pi ++ [false]) c) []); [by rewrite app_nil_r|by rewrite app_nil_r| |].
    + cbn [Z.eqb]. now apply IH.
    + intros pid Hpid. rewrite (proj2 (Z.eqb_neq pid 0)) by lia. cbn. now right.
Qed.

(** ** Names of pipes *)

Definition obj_in (U : list place) (o : obj place) : Prop :=
  match o with PipeR p | PipeW p => p ∈ U | _ => True end.

Definition fds_in (U : list place) (F : fdt place) : Prop := forall i o, F !! i = Some (Some o) -> obj_in U o.

Lemma map_fds_ext (f g : place -> nat) U F : fds_in U F -> (forall p, p ∈ U -> f p = g p) -> map_fds f F = map_fds g F.
Proof.
  intros HF E. unfold map_fds. induction F as [|x F IH]; [done|]. cbn [map]. f_equal.
  - destruct x as [o|]; [|done]. cbn. f_equal. pose proof (HF O o eq_refl) as Ho. destruct o; cbn in *; rewrite ?E by done; done.
  - apply IH. intros i o Hi. exact (HF (S i) o Hi).
Qed.

Lemma fds_in_mono U U' F : fds_in U F -> U ⊆ U' -> fds_in U' F.
Proof. intros H HU i o Ho. specialize (H i o Ho). destruct o; cbn in *; auto. Qed.

Lemma fds_in_insert U F i x : fds_in U F -> (forall o, x = Some o -> obj_in U o) -> fds_in U (<[i := x]> F).
Proof.
  intros H Hx j o Ho. destruct (decide (i = j)) as [->|Hne]; [|rewrite list_lookup_insert_ne in Ho by done; eauto].
  destruct (decide (j < length F)%nat) as [Hl|Hl]; [rewrite list_lookup_insert_eq in Ho by done; injection Ho as ->; auto|].
  rewrite list_insert_ge in Ho by lia. eauto.
Qed.

Section maps.
Context {I J : Type} (f : I -> J).

Lemma lowest_map (F : fdt I) : lowest (map_fds f F) = lowest F.
Proof. unfold map_fds. induction F as [|[o|] F IH]; cbn; [done| |done]. now rewrite IH. Qed.

Lemma get_map fd (F : fdt I) : get_fd fd (map_fds f F) = omap_obj f <$> get_fd fd F.
Proof.
  unfold get_fd. destruct (fd <? 0); [done|]. unfold map_fds. rewrite list_lookup_fmap. destruct (F !! Z.to_nat fd) as [[o|]|]; done.
Qed.

Lemma lowest_insert_map x y (F : fdt I) : forall a, lowest (<[a := Some x]> (map_fds f F)) = lowest (<[a := Some y]> F).
Proof.
  induction F as [|[o|] F IH]; intros [|a]; try done.
  - cbn. f_equal. apply lowest_map.
  - change (S <$> lowest (<[a := Some x]> (map_fds f F)) = S <$> lowest (<[a := Some y]> F)). now rewrite IH.
  - cbn. f_equal. apply lowest_map.
Qed.

Lemma insert_map (F : fdt I) i x : map_fds f (<[i := x]> F) = <[i := option_map (omap_obj f) x]> (map_fds f F).
Proof. exact (list_fmap_insert (option_map (omap_obj f)) F i x). Qed.
End maps.

(** ** The system *)

(** The part of a process: jobs to do, pipes to make, and its descriptors. *)
Record part := Part { t_jobs : list job; t_pipes : list place; t_fds : fdt place }.

Definition part_ok (failed : bool) (f : place -> nat) (U : list place) (n : Z) (q : proc) (g : part) : Prop :=
  match p_code q with
  | Running p => does failed p (t_jobs g) (t_pipes g) (t_fds g) (Z.to_nat n) /\ p_fds q = map_fds f (t_fds g) /\ fds_in U (t_fds g)
  | _ => failed = true \/ t_jobs g = []
  end.

Definition real (f : place -> nat) (j : job) : list (list Z) * fdt nat := (j.1, map_fds f j.2).

(** The jobs [A] are shared out: those started, [E], and the parts of the
    processes; the pipes made are [U]. *)
Record shared (A : list job) (f : place -> nat) (U : list place) (E : list job) (gs : list part) (s : os) : Prop := Shared {
  sh_parts : length gs = length (o_procs s);
  sh_part i q g : o_procs s !! i = Some q -> gs !! i = Some g -> part_ok (o_failed s) f U (kids i (o_procs s)) q g;
  sh_execs : o_execs s = map (real f) E;
  sh_jobs : E ++ concat (t_jobs <$> gs) ≡ₚ A;
  sh_names : NoDup (U ++ concat (t_pipes <$> gs));
  sh_inj p q : p ∈ U -> q ∈ U -> f p = f q -> p = q;
  sh_new p : p ∈ U -> (f p < o_pipes s)%nat;
  sh_in j : j ∈ E -> fds_in U j.2;
  sh_parent i q u : o_procs s !! i = Some q -> p_parent q = Some u -> (u < i)%nat;
}.

Lemma concat_insert {A} (h : part -> list A) gs : forall i g g', gs !! i = Some g -> concat (h <$> <[i := g']> gs) ++ h g ≡ₚ concat (h <$> gs) ++ h g'.
Proof.
  induction gs as [|x gs IH]; intros [|i] g g' H; [done|done| |].
  - injection H as ->. cbn. solve_Permutation.
  - change (<[S i := g']> (x :: gs)) with (x :: <[i := g']> gs). cbn. rewrite <- !app_assoc. f_equiv. now apply IH.
Qed.

Lemma kids_insert k ps i q q' : ps !! i = Some q -> is_kid k q' = is_kid k q -> kids k (<[i := q']> ps) = kids k ps.
Proof. intros H E. unfold kids. rewrite (zsum_insert _ _ _ _ _ H), E. lia. Qed.

Lemma kids_nonneg k ps : 0 <= kids k ps.
Proof. apply zsum_nonneg. intros q _. destruct (is_kid k q); lia. Qed.

Lemma part_ok_mono b b' f U n q g : b' = b \/ b' = true -> part_ok b f U n q g -> part_ok b' f U n q g.
Proof.
  intros [->| ->]; [done|]. unfold part_ok. destruct (p_code q); try (intros _; now left). intros (H1 & H2 & H3). split; [|done].
  destruct b; [done|now apply does_mono].
Qed.

Section steps.
Context (A : list job) (f : place -> nat) (U : list place) (E : list job) (gs : list part) (s : os) (i : nat) (co0 : code) (F : fdt nat) (u : option nat) (g : part).
Context (HS : shared A f U E gs s) (Hco0 : co0 <> Gone) (Hq : o_procs s !! i = Some (Proc co0 F u)) (Hg : gs !! i = Some g).

(** A call that concerns the process alone. *)
Lemma shared_set (co : code) (G : fdt nat) J (H : fdt place) X b :
  co <> Gone -> X ++ J ≡ₚ t_jobs g -> (forall j, j ∈ X -> fds_in U j.2) -> b = o_failed s \/ b = true ->
  part_ok b f U (kids i (o_procs s)) (Proc co G u) (Part J (t_pipes g) H) ->
  shared A f U (E ++ X) (<[i := Part J (t_pipes g) H]> gs) (Os (<[i := Proc co G u]> (o_procs s)) (o_pipes s) (o_execs s ++ map (real f) X) b).
Proof.
  intros Hco HJ HX Hb HP. destruct HS as [S1 S2 S3 S4 S5 S6 S7 S8 S9]. pose proof (lookup_lt_Some _ _ _ Hg) as Hl.
  assert (forall k, kids k (<[i := Proc co G u]> (o_procs s)) = kids k (o_procs s)) as Hk.
  { intros k. apply (kids_insert k _ i _ _ Hq). unfold is_kid. cbn. destruct u; [|done]. now destruct co, co0. }
  split; cbn [o_procs o_pipes o_execs o_failed].
  - now rewrite !length_insert.
  - intros k q g' Hkq Hkg. rewrite Hk. destruct (decide (k = i)) as [->|Hne].
    + rewrite list_lookup_insert_eq in Hkq by lia. rewrite list_lookup_insert_eq in Hkg by lia. injection Hkq as <-. injection Hkg as <-. done.
    + rewrite list_lookup_insert_ne in Hkq by done. rewrite list_lookup_insert_ne in Hkg by done. eapply part_ok_mono; [exact Hb|]. now apply S2.
  - now rewrite S3, map_app.
  - rewrite <- S4, <- app_assoc. f_equiv. pose proof (concat_insert t_jobs gs i g (Part J (t_pipes g) H) Hg) as Hc. cbn [t_jobs] in Hc.
    rewrite <- HJ in Hc. apply (Permutation_app_inv_r J). rewrite <- Hc. solve_Permutation.
  - pose proof (concat_insert t_pipes gs i g (Part J (t_pipes g) H) Hg) as Hc. cbn [t_pipes] in Hc. apply Permutation_app_inv_r in Hc. now rewrite Hc.
  - done.
  - done.
  - intros j [Hj|Hj]%elem_of_app; auto.
  - intros k q v Hkq Hv. destruct (decide (k = i)) as [->|Hne]; [|rewrite list_lookup_insert_ne in Hkq by done; eauto].
    rewrite list_lookup_insert_eq in Hkq by lia. injection Hkq as <-. exact (S9 i _ v Hq Hv).
Qed.

(** The end of a process. *)
Lemma shared_end c : c = o_failed s \/ c = true -> c = true \/ t_jobs g = [] ->
  shared A f U E gs (Os (<[i := Proc Zombie [] u]> (orphan i <$> o_procs s)) (o_pipes s) (o_execs s) c).
Proof.
  intros Hc Hj. destruct HS as [S1 S2 S3 S4 S5 S6 S7 S8 S9]. pose proof (lookup_lt_Some _ _ _ Hq) as Hl.
  assert (forall k, k <> i -> kids k (<[i := Proc Zombie [] u]> (orphan i <$> o_procs s)) = kids k (o_procs s)) as Hk.
  { intros k Hne. unfold kids. rewrite (zsum_insert _ _ _ (orphan i (Proc co0 F u))) by (now rewrite list_lookup_fmap, Hq).
    assert (forall q, is_kid k (orphan i q) = is_kid k q) as Ho.
    { intros q. unfold orphan. destruct (is_kid i q) eqn:Eq; [|done]. unfold is_kid in *. cbn. destruct (p_parent q) as [v|]; [|done].
      destruct (p_code q); [..|done]; apply Nat.eqb_eq in Eq as <-; symmetry; now apply Nat.eqb_neq. }
    rewrite Ho. assert (zsum (fun q => if is_kid k q then 1 else 0) (orphan i <$> o_procs s) = zsum (fun q => if is_kid k q then 1 else 0) (o_procs s)) as ->.
    { clear -Ho. induction (o_procs s) as [|q l IH]; [done|]. cbn. now rewrite Ho, IH. }
    assert (is_kid k (Proc Zombie [] u) = is_kid k (Proc co0 F u)) as -> by (unfold is_kid; cbn; destruct u; [|done]; now destruct co0). lia. }
  split; cbn [o_procs o_pipes o_execs o_failed]; try done.
  - now rewrite length_insert, length_fmap.
  - intros k q g' Hkq Hkg. destruct (decide (k = i)) as [->|Hne].
    + rewrite list_lookup_insert_eq in Hkq by (now rewrite length_fmap). injection Hkq as <-. rewrite Hg in Hkg. injection Hkg as <-. exact Hj.
    + rewrite Hk by done. rewrite list_lookup_insert_ne, list_lookup_fmap in Hkq by done. destruct (o_procs s !! k) as [q0|] eqn:Eq; [|done]. injection Hkq as <-.
      pose proof (S2 k q0 g' Eq Hkg) as HP. eapply part_ok_mono in HP; [|exact Hc]. unfold orphan. destruct (is_kid i q0); done.
  - intros k q v Hkq Hv. destruct (decide (k = i)) as [->|Hne].
    + rewrite list_lookup_insert_eq in Hkq by (now rewrite length_fmap). injection Hkq as <-. exact (S9 i _ v Hq Hv).
    + rewrite list_lookup_insert_ne, list_lookup_fmap in Hkq by done. destruct (o_procs s !! k) as [q0|] eqn:Eq; [|done]. injection Hkq as <-.
      apply (S9 k q0 v Eq). unfold orphan in Hv. now destruct (is_kid i q0).
Qed.

Lemma kids_new : kids (length (o_procs s)) (o_procs s) = 0.
Proof.
  unfold kids. rewrite (zsum_ext _ (fun _ => 0)); [apply zsum_zero|]. intros q [k Hk]%list_elem_of_lookup. unfold is_kid.
  destruct (p_parent q) as [v|] eqn:Ev; [|done]. pose proof (sh_parent _ _ _ _ _ _ HS k q v Hk Ev). pose proof (lookup_lt_Some _ _ _ Hk).
  destruct (p_code q); try done; now rewrite (proj2 (Nat.eqb_neq (length (o_procs s)) v)) by lia.
Qed.

Lemma shared_fork p0 p1 W1 W2 N1 N2 : t_jobs g ≡ₚ W1 ++ W2 -> t_pipes g ≡ₚ N1 ++ N2 -> F = map_fds f (t_fds g) -> fds_in U (t_fds g) ->
  does (o_failed s) p0 W1 N1 (t_fds g) 0 -> does (o_failed s) p1 W2 N2 (t_fds g) (S (Z.to_nat (kids i (o_procs s)))) ->
  shared A f U E (<[i := Part W2 N2 (t_fds g)]> gs ++ [Part W1 N1 (t_fds g)])
    (Os (<[i := Proc (Running p1) F u]> (o_procs s) ++ [Proc (Running p0) F (Some i)]) (o_pipes s) (o_execs s) (o_failed s)).
Proof.
  intros HW HN HF HI H0 H1. pose proof kids_new as Hnew. destruct HS as [S1 S2 S3 S4 S5 S6 S7 S8 S9]. pose proof (lookup_lt_Some _ _ _ Hg) as Hl.
  set (ps := <[i := Proc (Running p1) F u]> (o_procs s)). assert (length ps = length (o_procs s)) as Lps by (unfold ps; now rewrite length_insert).
  assert (forall k, kids k (ps ++ [Proc (Running p0) F (Some i)]) = kids k (o_procs s) + (if (k =? i)%nat then 1 else 0)) as Hk.
  { intros k. unfold kids at 1. rewrite zsum_app. fold (kids k ps). unfold ps. rewrite (kids_insert k _ i _ _ Hq).
    - cbn. destruct (k =? i)%nat; lia.
    - unfold is_kid. cbn. destruct u; [|done]. now destruct co0. }
  split; cbn [o_procs o_pipes o_execs o_failed]; try done.
  - rewrite !length_app, Lps, length_insert. cbn. lia.
  - intros k q g' Hkq Hkg. rewrite Hk. pose proof (kids_nonneg k (o_procs s)). destruct (decide (k < length ps)%nat) as [Hlt|Hge].
    + rewrite lookup_app_l in Hkq by done. rewrite lookup_app_l in Hkg by (rewrite length_insert; lia). destruct (decide (k = i)) as [->|Hne].
      * unfold ps in Hkq. rewrite list_lookup_insert_eq in Hkq by lia. rewrite list_lookup_insert_eq in Hkg by lia. injection Hkq as <-. injection Hkg as <-.
        rewrite Nat.eqb_refl. unfold part_ok. cbn [p_code p_fds t_jobs t_pipes t_fds]. split; [|done]. now rewrite Z2Nat.inj_add, Nat.add_1_r by lia.
      * unfold ps in Hkq. rewrite list_lookup_insert_ne in Hkq by done. rewrite list_lookup_insert_ne in Hkg by done.
        rewrite (proj2 (Nat.eqb_neq k i) Hne), Z.add_0_r. now apply S2.
    + rewrite lookup_app_r in Hkq by lia. rewrite lookup_app_r in Hkg by (rewrite length_insert; lia). rewrite length_insert in Hkg.
      destruct (k - length ps)%nat as [|x] eqn:Ek; [|done]. assert (k = length (o_procs s)) as -> by lia. injection Hkq as <-.
      rewrite S1, Nat.sub_diag in Hkg. injection Hkg as <-. rewrite Hnew, (proj2 (Nat.eqb_neq _ i)) by lia. done.
  - rewrite fmap_app, concat_app. cbn. rewrite app_nil_r. rewrite <- S4. f_equiv.
    pose proof (concat_insert t_jobs gs i g (Part W2 N2 (t_fds g)) Hg) as Hc. cbn [t_jobs] in Hc. rewrite HW in Hc. apply (Permutation_app_inv_r W2). rewrite <- Hc. solve_Permutation.
  - rewrite fmap_app, concat_app. cbn. rewrite app_nil_r. pose proof (concat_insert t_pipes gs i g (Part W2 N2 (t_fds g)) Hg) as Hc. cbn [t_pipes] in Hc. rewrite HN in Hc.
    assert (concat (t_pipes <$> <[i := Part W2 N2 (t_fds g)]> gs) ++ N1 ≡ₚ concat (t_pipes <$> gs)) as ->; [|done].
    apply (Permutation_app_inv_r N2). rewrite <- Hc. solve_Permutation.
  - intros k q v Hkq Hv. destruct (decide (k < length ps)%nat) as [Hlt|Hge].
    + rewrite lookup_app_l in Hkq by done. unfold ps in Hkq. destruct (decide (k = i)) as [->|Hne].
      * rewrite list_lookup_insert_eq in Hkq by lia. injection Hkq as <-. exact (S9 i _ v Hq Hv).
      * rewrite list_lookup_insert_ne in Hkq by done. eauto.
    + rewrite lookup_app_r in Hkq by lia. destruct (k - length ps)%nat as [|x] eqn:Ek; [|done]. injection Hkq as <-. injection Hv as <-. lia.
Qed.

(** Waiting for [j]. *)
Lemma shared_wait p1 j q : o_procs s !! j = Some q -> is_kid i q = true -> p_code q = Zombie -> F = map_fds f (t_fds g) -> fds_in U (t_fds g) ->
  does (o_failed s) p1 (t_jobs g) (t_pipes g) (t_fds g) (Z.to_nat (kids i (o_procs s) - 1)) ->
  shared A f U E gs (Os (<[j := Proc Gone (p_fds q) (p_parent q)]> (<[i := Proc (Running p1) F u]> (o_procs s))) (o_pipes s) (o_execs s) (o_failed s)).
Proof.
  intros Hj Hkid Hz HF HI H1. destruct HS as [S1 S2 S3 S4 S5 S6 S7 S8 S9]. pose proof (lookup_lt_Some _ _ _ Hg) as Hl.
  assert (p_parent q = Some i) as Hp. { unfold is_kid in Hkid. rewrite Hz in Hkid. destruct (p_parent q); [|done]. apply Nat.eqb_eq in Hkid as <-. done. }
  pose proof (S9 j q i Hj Hp) as Hij. set (ps := <[i := Proc (Running p1) F u]> (o_procs s)).
  assert (forall k, kids k (<[j := Proc Gone (p_fds q) (p_parent q)]> ps) = kids k (o_procs s) - (if (k =? i)%nat then 1 else 0)) as Hk.
  { intros k. unfold kids. rewrite (zsum_insert _ _ _ q) by (unfold ps; now rewrite list_lookup_insert_ne by lia). fold (kids k ps). unfold ps.
    rewrite (kids_insert k _ i _ _ Hq) by (unfold is_kid; cbn; destruct u; [|done]; now destruct co0). fold (kids k (o_procs s)).
    unfold is_kid. rewrite Hp, Hz. cbn. destruct (k =? i)%nat; lia. }
  split; cbn [o_procs o_pipes o_execs o_failed]; try done.
  - unfold ps. now rewrite !length_insert.
  - intros k q' g' Hkq Hkg. rewrite Hk. destruct (decide (k = j)) as [->|Hne].
    + rewrite list_lookup_insert_eq in Hkq by (unfold ps; rewrite length_insert; eapply lookup_lt_Some; exact Hj). injection Hkq as <-.
      pose proof (S2 j q g' Hj Hkg) as HP. unfold part_ok in *. rewrite Hz in HP. exact HP.
    + rewrite list_lookup_insert_ne in Hkq by done. unfold ps in Hkq. destruct (decide (k = i)) as [->|Hni].
      * rewrite list_lookup_insert_eq in Hkq by lia. injection Hkq as <-. rewrite Hg in Hkg. injection Hkg as <-. rewrite Nat.eqb_refl. split; done.
      * rewrite list_lookup_insert_ne in Hkq by done. rewrite (proj2 (Nat.eqb_neq k i) Hni), Z.sub_0_r. now apply S2.
  - intros k q' v Hkq Hv. destruct (decide (k = j)) as [->|Hne].
    + rewrite list_lookup_insert_eq in Hkq by (unfold ps; rewrite length_insert; eapply lookup_lt_Some; exact Hj). injection Hkq as <-. exact (S9 j q v Hj Hv).
    + rewrite list_lookup_insert_ne in Hkq by done. unfold ps in Hkq. destruct (decide (k = i)) as [->|Hni].
      * rewrite list_lookup_insert_eq in Hkq by lia. injection Hkq as <-. exact (S9 i _ v Hq Hv).
      * rewrite list_lookup_insert_ne in Hkq by done. eauto.
Qed.

(** A new pipe. *)
Lemma shared_pipe p1 a b pi N' : t_pipes g ≡ₚ pi :: N' -> F = map_fds f (t_fds g) -> fds_in U (t_fds g) ->
  let G := <[b := Some (PipeW pi)]> (<[a := Some (PipeR pi)]> (t_fds g)) in
  does (o_failed s) p1 (t_jobs g) N' G (Z.to_nat (kids i (o_procs s))) ->
  shared A (<[pi := o_pipes s]> f) (U ++ [pi]) E (<[i := Part (t_jobs g) N' G]> gs)
    (Os (<[i := Proc (Running p1) (<[b := Some (PipeW (o_pipes s))]> (<[a := Some (PipeR (o_pipes s))]> F)) u]> (o_procs s)) (S (o_pipes s)) (o_execs s) (o_failed s)).
Proof.
  intros HN HF HI G H1. destruct HS as [S1 S2 S3 S4 S5 S6 S7 S8 S9]. pose proof (lookup_lt_Some _ _ _ Hg) as Hl. set (f' := <[pi := o_pipes s]> f : place -> nat).
  pose proof (concat_insert t_pipes gs i g (Part (t_jobs g) N' G) Hg) as Hc. cbn [t_pipes] in Hc. rewrite HN in Hc.
  assert (concat (t_pipes <$> gs) ≡ₚ pi :: concat (t_pipes <$> <[i := Part (t_jobs g) N' G]> gs)) as Hp.
  { apply (Permutation_app_inv_r N'). rewrite <- Hc. solve_Permutation. }
  rewrite Hp in S5. assert (pi ∉ U) as HU. { intros Hin. apply NoDup_app in S5 as (_ & Hd & _). apply (Hd pi Hin). now left. }
  assert (forall x, x ∈ U -> f' x = f x) as Ef by (intros x Hx; unfold f'; rewrite fn_lookup_insert_ne; [done|]; intros ->; done).
  assert (f' pi = o_pipes s) as Epi by (unfold f'; apply fn_lookup_insert).
  assert (forall T, fds_in U T -> map_fds f' T = map_fds f T) as EF by (intros T HT; now apply (map_fds_ext f' f U)).
  assert (U ⊆ U ++ [pi]) as HUU by (intros x Hx; apply elem_of_app; now left).
  assert (forall k, kids k (<[i := Proc (Running p1) (<[b := Some (PipeW (o_pipes s))]> (<[a := Some (PipeR (o_pipes s))]> F)) u]> (o_procs s)) = kids k (o_procs s)) as Hk.
  { intros k. apply (kids_insert k _ i _ _ Hq). unfold is_kid. cbn. destruct u; [|done]. now destruct co0. }
  split; cbn [o_procs o_pipes o_execs o_failed].
  - now rewrite !length_insert.
  - intros k q g' Hkq Hkg. rewrite Hk. destruct (decide (k = i)) as [->|Hne].
    + rewrite list_lookup_insert_eq in Hkq by lia. rewrite list_lookup_insert_eq in Hkg by lia. injection Hkq as <-. injection Hkg as <-.
      unfold part_ok. cbn [p_code p_fds t_jobs t_pipes t_fds]. split; [done|]. unfold G. rewrite !insert_map. cbn [option_map omap_obj]. rewrite Epi, EF, HF by done. split; [done|].
      apply fds_in_insert; [apply fds_in_insert; [now apply (fds_in_mono U)|]|]; intros o [= <-]; cbn; apply elem_of_app; right; now left.
    + rewrite list_lookup_insert_ne in Hkq by done. rewrite list_lookup_insert_ne in Hkg by done. pose proof (S2 k q g' Hkq Hkg) as HP. unfold part_ok in *.
      destruct (p_code q); try done. destruct HP as (P1 & P2 & P3). split; [done|]. rewrite EF by done. split; [done|]. now apply (fds_in_mono U).
  - rewrite S3. apply map_ext_in. intros j Hj%list_elem_of_In. unfold real. now rewrite EF by auto.
  - rewrite <- S4. f_equiv. pose proof (concat_insert t_jobs gs i g (Part (t_jobs g) N' G) Hg) as Hcj. cbn [t_jobs] in Hcj. now apply Permutation_app_inv_r in Hcj.
  - rewrite <- app_assoc. exact S5.
  - intros x y Hx Hy E'. apply elem_of_app in Hx as [Hx|Hx%list_elem_of_singleton], Hy as [Hy|Hy%list_elem_of_singleton]; subst.
    + rewrite !Ef in E' by done. auto.
    + rewrite Ef, Epi in E' by done. pose proof (S7 x Hx). lia.
    + rewrite Epi, Ef in E' by done. pose proof (S7 y Hy). lia.
    + done.
  - intros x [Hx|Hx%list_elem_of_singleton]%elem_of_app; [rewrite Ef by done; pose proof (S7 x Hx); lia|subst; rewrite Epi; lia].
  - intros j Hj. apply (fds_in_mono U); [auto|done].
  - intros k q v Hkq Hv. destruct (decide (k = i)) as [->|Hne]; [|rewrite list_lookup_insert_ne in Hkq by done; eauto].
    rewrite list_lookup_insert_eq in Hkq by lia. injection Hkq as <-. exact (S9 i _ v Hq Hv).
Qed.
End steps.

(** Every step keeps the jobs shared out. *)
Lemma shared_call A f U E gs s i c k F u s' :
  shared A f U E gs s -> o_procs s !! i = Some (Proc (Running (Do c k)) F u) -> do_call i F u c k s s' ->
  exists f' U' E' gs', shared A f' U' E' gs' s'.
Proof.
  intros HS Hq HD. destruct (lookup_lt_is_Some_2 gs i) as [g Hg]; [rewrite (sh_parts _ _ _ _ _ _ HS); now apply lookup_lt_Some in Hq|].
  pose proof (sh_part _ _ _ _ _ _ HS i _ g Hq Hg) as (HP & HF & HI). cbn [p_code p_fds] in HF. pose proof (kids_nonneg i (o_procs s)) as Hn.
  assert (forall p, Running p <> Gone) as Hrun by done.
  assert (forall co G T b, co <> Gone -> b = o_failed s \/ b = true -> part_ok b f U (kids i (o_procs s)) (Proc co G u) (Part (t_jobs g) (t_pipes g) T) ->
    exists f' U' E' gs', shared A f' U' E' gs' (Os (<[i := Proc co G u]> (o_procs s)) (o_pipes s) (o_execs s) b)) as Hset.
  { intros co G T b Hco Hb HT. exists f, U, (E ++ []), (<[i := Part (t_jobs g) (t_pipes g) T]> gs). rewrite <- (app_nil_r (o_execs s)).
    apply (shared_set A f U E gs s i (Running (Do c k)) F u g HS (Hrun _) Hq Hg co G (t_jobs g) T [] b); try done. now intros j Hj%elem_of_nil. }
  destruct HD as [k s|k s|k s j q Hj Hkid Hz|k s H|k s a b Ha F1 Hb|k s r|fd k s o H|fd k s H|fd k s o a H H0|fd k s H|path mode k s a H|path mode k s|path argv k s|path argv k s|fd buf k s r]; cbn [does] in HP.
  - destruct HP as [(W1 & W2 & N1 & N2 & P1 & P2 & P3 & P4) _]. exists f, U, E. eexists.
    apply (shared_fork A f U E gs s i _ F u g HS (Hrun _) Hq Hg (k 0) _ W1 W2 N1 N2 P1 P2 HF HI P3). apply P4. unfold pid_of. lia.
  - destruct HP as [_ HP]. apply (Hset _ _ (t_fds g)); [done|now right|]. split; done.
  - destruct (Z.to_nat (kids i (o_procs s))) as [|n] eqn:En.
    + exfalso. unfold kids in *. assert (1 <= zsum (fun q => if is_kid i q then 1 else 0) (o_procs s)) as Hge.
      { pose proof (zsum_insert (fun q => if is_kid i q then 1 else 0) (o_procs s) j q (Proc Gone [] None) Hj) as Hs. cbn beta in Hs. rewrite Hkid in Hs. cbn in Hs.
        pose proof (kids_nonneg i (<[j := Proc Gone [] None]> (o_procs s))) as Hk. unfold kids in Hk. lia. }
      lia.
    + exists f, U, E, gs. apply (shared_wait A f U E gs s i _ F u g HS (Hrun _) Hq Hg _ j q); try done.
      replace (Z.to_nat (kids i (o_procs s) - 1)) with n by lia. apply HP. unfold pid_of. lia.
  - rewrite H in HP. apply (Hset _ _ (t_fds g)); [done|now left|]. rewrite H. split; done.
  - destruct HP as [(pi & N' & P1 & P2) _]. eexists _, _, E, _. eapply (shared_pipe A f U E gs s i _ F u g HS (Hrun _) Hq Hg _ a b pi N' P1 HF HI).
    apply P2; [now rewrite HF, lowest_map in Ha|]. unfold F1 in Hb. rewrite HF in Hb. rewrite <- Hb. symmetry. apply lowest_insert_map.
  - destruct HP as [_ HP]. apply (Hset _ _ (t_fds g)); [done|now right|]. split; [apply HP|done].
  - rewrite HF, get_map in H. destruct (get_fd fd (t_fds g)) as [o'|]; [|done]. apply (Hset _ _ (<[Z.to_nat fd := None]> (t_fds g))); [done|now left|].
    split; [done|]. cbn [p_fds t_fds]. rewrite insert_map, HF. split; [done|]. apply fds_in_insert; done.
  - rewrite HF, get_map in H. destruct (get_fd fd (t_fds g)) as [o'|]; [done|]. apply (Hset _ _ (t_fds g)); [done|now left|]. split; done.
  - rewrite HF, get_map in H. rewrite HF, lowest_map in H0. rewrite H0 in HP. destruct (get_fd fd (t_fds g)) as [o'|] eqn:Eo; [|done]. injection H as <-.
    apply (Hset _ _ (<[a := Some o']> (t_fds g))); [done|now left|]. split; [done|]. cbn [p_fds t_fds]. rewrite insert_map, HF. split; [done|].
    apply fds_in_insert; [done|]. intros o [= <-]. unfold get_fd in Eo. destruct (fd <? 0); [done|]. destruct (t_fds g !! Z.to_nat fd) as [[z|]|] eqn:Ez; try done. injection Eo as ->. eauto.
  - apply (Hset _ _ (t_fds g)); [done|now left|]. split; [|done]. cbn [t_jobs t_pipes t_fds]. rewrite HF, get_map, lowest_map in H.
    destruct (get_fd fd (t_fds g)), (lowest (t_fds g)); try done. destruct H; done.
  - destruct HP as [HP _]. rewrite HF, lowest_map in H. apply (Hset _ _ (<[a := Some (OFile path mode)]> (t_fds g))); [done|now left|]. split; [now apply HP|].
    cbn [p_fds t_fds]. rewrite insert_map, HF. split; [done|]. apply fds_in_insert; [done|]. now intros o [= <-].
  - destruct HP as [_ HP]. apply (Hset _ _ (t_fds g)); [done|now right|]. split; done.
  - destruct HP as (W' & P1 & P2 & _). exists f, U, (E ++ [(argv, t_fds g)]), (<[i := Part W' (t_pipes g) (t_fds g)]> gs).
    assert ((argv, F) = real f (argv, t_fds g)) as -> by (unfold real; cbn; now rewrite HF).
    apply (shared_set A f U E gs s i _ F u g HS (Hrun _) Hq Hg Other F W' (t_fds g) [(argv, t_fds g)] (o_failed s)); [done|now rewrite P1| |now left|exact P2].
    intros j ->%list_elem_of_singleton. exact HI.
  - destruct HP as (W' & P1 & _ & P3). exists f, U, (E ++ [(argv, t_fds g)]), (<[i := Part W' (t_pipes g) (t_fds g)]> gs).
    assert ((argv, F) = real f (argv, t_fds g)) as -> by (unfold real; cbn; now rewrite HF).
    apply (shared_set A f U E gs s i _ F u g HS (Hrun _) Hq Hg (Running (k (-1))) F W' (t_fds g) [(argv, t_fds g)] (o_failed s)); [done|now rewrite P1| |now left|split; done].
    intros j ->%list_elem_of_singleton. exact HI.
  - apply (Hset _ _ (t_fds g)); [done|now left|]. split; [apply HP|done].
Qed.

Lemma shared_step A f U E gs s i s' : shared A f U E gs s -> step i s s' -> exists f' U' E' gs', shared A f' U' E' gs' s'.
Proof.
  intros HS HT. destruct HT as [s c k F u s' Hq HD|s co F u Hq Hco]; [eapply shared_call; eassumption|].
  destruct (lookup_lt_is_Some_2 gs i) as [g Hg]; [rewrite (sh_parts _ _ _ _ _ _ HS); now apply lookup_lt_Some in Hq|].
  exists f, U, E, gs. apply (shared_end A f U E gs s i co F u g); [done|destruct Hco as [[st ->]| ->]; done|done|done|now left|].
  pose proof (sh_part _ _ _ _ _ _ HS i _ g Hq Hg) as HP. destruct Hco as [[st ->]| ->]; [exact (proj1 HP)|exact HP].
Qed.

(** ** The start *)

Lemma pipes_below pi c p : p ∈ pipes pi c -> exists q, p = pi ++ q.
Proof.
  revert pi. induction c as [argv|c IH file mode fd|l IHl r IHr|l IHl r IHr|c IH]; intros pi Hp; cbn in Hp.
  - now apply elem_of_nil in Hp.
  - apply IH in Hp as [q ->]. rewrite <- app_assoc. eauto.
  - apply elem_of_cons in Hp as [->|Hp]; [exists []; now rewrite app_nil_r|]. apply elem_of_app in Hp as [[q ->]%IHl|[q ->]%IHr]; rewrite <- app_assoc; eauto.
  - apply elem_of_app in Hp as [[q ->]%IHl|[q ->]%IHr]; rewrite <- app_assoc; eauto.
  - apply IH in Hp as [q ->]. rewrite <- app_assoc. eauto.
Qed.

Lemma pipes_NoDup c : forall pi, NoDup (pipes pi c).
Proof.
  assert (forall pi l r, NoDup (pipes (pi ++ [false]) l) -> NoDup (pipes (pi ++ [true]) r) -> NoDup (pipes (pi ++ [false]) l ++ pipes (pi ++ [true]) r)) as Happ.
  { intros pi l r Hl Hr. apply NoDup_app. split; [done|]. split; [|done]. intros p [q ->]%pipes_below [q' E]%pipes_below.
    rewrite <- !app_assoc in E. apply app_inv_head in E. done. }
  induction c as [argv|c IH file mode fd|l IHl r IHr|l IHl r IHr|c IH]; intros pi; cbn; [apply NoDup_nil_2|apply IH| |now apply Happ|apply IH].
  apply NoDup_cons. split; [|now apply Happ]. intros [Hp|Hp]%elem_of_app; apply pipes_below in Hp as [q E]; apply (f_equal length) in E; rewrite !length_app in E; cbn in E; lia.
Qed.

(** The descriptors that the shell was started with. *)
Definition std_fds {I} (l : list (option Z)) : fdt I := map (option_map Std) l.

Lemma shared_begin c l : redirs_ok c -> std (std_fds (I := place) l) ->
  shared (wires [] c (std_fds l)) (fun _ => O) [] [] [Part (wires [] c (std_fds l)) (pipes [] c) (std_fds l)] (begin c (std_fds l)).
Proof.
  intros HR HS. split; cbn [begin o_procs o_pipes o_execs o_failed]; try done.
  - intros [|i] q g Hq Hg; [|done]. injection Hq as <-. injection Hg as <-. split; [now apply does_runcmd|]. cbn [p_fds t_fds]. split.
    + unfold std_fds, map_fds. rewrite map_map. apply map_ext. now intros [z|].
    + intros i o Ho. unfold std_fds in Ho. rewrite list_lookup_fmap in Ho. destruct (l !! i) as [[z|]|]; try done. now injection Ho as <-.
  - cbn. now rewrite app_nil_r.
  - cbn. rewrite app_nil_r. apply pipes_NoDup.
  - intros p q Hp. now apply elem_of_nil in Hp.
  - intros p Hp. now apply elem_of_nil in Hp.
  - intros j Hj. now apply elem_of_nil in Hj.
  - intros [|i] q u Hq Hu; [|done]. injection Hq as <-. done.
Qed.

Lemma shared_steps A f U E gs s s' : shared A f U E gs s -> steps s s' -> exists f' U' E' gs', shared A f' U' E' gs' s'.
Proof.
  intros HS HT. revert f U E gs HS. induction HT as [s|s s1 s' [i H1] _ IH]; intros f U E gs HS; [eauto|].
  destruct (shared_step _ _ _ _ _ _ _ _ HS H1) as (f1 & U1 & E1 & gs1 & HS1). eauto.
Qed.

(** ** Progress *)

Definition endedb (q : proc) : bool := match p_code q with Zombie | Gone => true | _ => false end.

Lemma endedb_ok q : endedb q = true <-> ended q.
Proof. unfold endedb, ended. destruct (p_code q); split; try done; try tauto; intros [?|?]; done. Qed.

(** The last process that has not ended. *)
Lemma last_running ps : Forall ended ps \/ exists i q, ps !! i = Some q /\ ~ ended q /\ forall j q', (i < j)%nat -> ps !! j = Some q' -> ended q'.
Proof.
  induction ps as [|q ps IH]; [now left|]. destruct IH as [IH|(i & q' & H1 & H2 & H3)].
  - destruct (endedb q) eqn:Eq; [left; constructor; [now apply endedb_ok|done]|]. right. exists O, q. split; [done|].
    split; [rewrite <- endedb_ok; now rewrite Eq|]. intros [|j] q' Hj Hq'; [lia|]. exact (proj1 (Forall_lookup _ _) IH j q' Hq').
  - right. exists (S i), q'. split; [done|]. split; [done|]. intros [|j] q'' Hj Hq''; [lia|]. apply (H3 j q''); [lia|done].
Qed.

Lemma shared_progress A f U E gs s : shared A f U E gs s -> Forall ended (o_procs s) \/ exists i s', step i s s'.
Proof.
  intros HS. destruct (last_running (o_procs s)) as [|(i & [co F u] & Hq & He & Hl)]; [now left|]. right. exists i.
  destruct (lookup_lt_is_Some_2 gs i) as [g Hg]; [rewrite (sh_parts _ _ _ _ _ _ HS); now apply lookup_lt_Some in Hq|].
  pose proof (sh_part _ _ _ _ _ _ HS i _ g Hq Hg) as HP. destruct co as [p| | |]; [|eexists; eapply End; [exact Hq|now right]|destruct He; now left|destruct He; now right].
  destruct HP as (HP & _ & _). destruct p as [a|c k|st|]; [done| |eexists; eapply End; [exact Hq|left; eauto]|done].
  destruct c; try done; cbn [does] in HP.
  - eexists. eapply Call; [exact Hq|apply DFork].
  - destruct (Z.eq_dec (kids i (o_procs s)) 0) as [E0|E0]; [eexists; eapply Call; [exact Hq|now apply DWaitNone]|].
    pose proof (kids_nonneg i (o_procs s)). destruct (zsum_pos (fun q => if is_kid i q then 1 else 0) (o_procs s)) as (q & [j Hj]%list_elem_of_lookup & Hpos); [unfold kids in *; lia|].
    cbn in Hpos. destruct (is_kid i q) eqn:Ek; [|lia]. eexists. eapply Call; [exact Hq|]. eapply (DWait i F u k s j q Hj Ek).
    unfold is_kid in Ek. destruct (p_parent q) as [v|] eqn:Ev; [|done]. pose proof (sh_parent _ _ _ _ _ _ HS j q v Hj Ev) as Hv.
    destruct (Hl j q) as [Hz|Hz]; [|done|done|now rewrite Hz in Ek]. destruct (p_code q); try done; apply Nat.eqb_eq in Ek; lia.
  - eexists. eapply Call; [exact Hq|]. apply (DPipeFail i F u k s (0, 0)).
  - eexists. eapply Call; [exact Hq|]. apply (DWrite i F u _ _ k s 0).
  - destruct (get_fd fd F) as [o|] eqn:Eo; eexists; eapply Call; [exact Hq|eapply DClose; exact Eo|exact Hq|now apply DCloseBad].
  - eexists. eapply Call; [exact Hq|apply DExec].
  - eexists. eapply Call; [exact Hq|apply DOpenFail].
  - destruct (get_fd fd F) as [o|] eqn:Eo; [destruct (lowest F) as [a|] eqn:Ea|].
    + eexists. eapply Call; [exact Hq|]. eapply DDup; eassumption.
    + eexists. eapply Call; [exact Hq|]. apply DDupBad. now right.
    + eexists. eapply Call; [exact Hq|]. apply DDupBad. now left.
Qed.

(** C5: [runcmd] carries out a command.  In every interleaving of its processes
    each program that they start is one that the command asks for, with just the
    descriptors that it asks for, and none is started twice; different pipes of
    the command are different pipes, and no other end of them stays open.  When
    all processes have ended and no fork, pipe or open has failed, every program
    of the command has been started.  And until then some process can go on. *)
Theorem runcmd_carries_out c l s :
  redirs_ok c -> std (std_fds (I := place) l) -> steps (begin c (std_fds l)) s ->
  let A := wires [] c (std_fds l) in
  (exists f U E, o_execs s = map (real f) E /\ E ⊆+ A /\ (forall j, j ∈ E -> fds_in U j.2) /\ (forall p q, p ∈ U -> q ∈ U -> f p = f q -> p = q) /\
     (Forall ended (o_procs s) -> o_failed s = false -> E ≡ₚ A)) /\
  (Forall ended (o_procs s) \/ exists i s', step i s s').
Proof.
  intros HR HS HT A. destruct (shared_steps _ _ _ _ _ _ _ (shared_begin c l HR HS) HT) as (f & U & E & gs & H).
  split; [|exact (shared_progress _ _ _ _ _ _ H)]. exists f, U, E. pose proof H as [S1 S2 S3 S4 S5 S6 S7 S8 S9]. split; [done|].
  split; [fold A in S4; rewrite <- S4; apply submseteq_inserts_r; done|]. split; [done|]. split; [done|]. intros He Hf. fold A in S4. rewrite <- S4.
  assert (concat (t_jobs <$> gs) = []) as ->; [|now rewrite app_nil_r]. apply concat_nil_Forall, Forall_fmap, Forall_lookup. intros i g Hg. cbn.
  destruct (lookup_lt_is_Some_2 (o_procs s) i) as [q Hq]; [rewrite <- S1; now apply lookup_lt_Some in Hg|].
  pose proof (S2 i q g Hq Hg) as HP. unfold part_ok in HP. rewrite Hf in HP.
  destruct (proj1 (Forall_lookup _ _) He i q Hq) as [E1|E1]; rewrite E1 in HP; destruct HP; done.
Qed.

(** ** A run *)

Definition zombie_kid (i : nat) (q : proc) : Prop := is_kid i q = true /\ match p_code q with Zombie => true | _ => false end = true.

#[export] Instance zombie_kid_dec i q : Decision (zombie_kid i q).
Proof. unfold zombie_kid. apply _. Defined.

(** Process [i] goes on, and every call succeeds that can. *)
Definition go (i : nat) (s : os) : option os :=
  match o_procs s !! i with
  | Some (Proc (Running (Do c k)) F u) =>
      match c return (ans c -> prog unit) -> option os with
      | SFork => fun k => Some (Os (<[i := Proc (Running (k (pid_of (length (o_procs s))))) F u]> (o_procs s) ++ [Proc (Running (k 0)) F (Some i)]) (o_pipes s) (o_execs s) (o_failed s))
      | SWait => fun k =>
          match list_find (zombie_kid i) (o_procs s) with
          | Some (j, q) => Some (set_proc j (Proc Gone (p_fds q) (p_parent q)) (set_proc i (Proc (Running (k (pid_of j))) F u) s))
          | None => None
          end
      | SPipe => fun k =>
          match lowest F with
          | Some a =>
              let F1 := <[a := Some (PipeR (o_pipes s))]> F in
              match lowest F1 with
              | Some b => Some (Os (<[i := Proc (Running (k (0, (Z.of_nat a, Z.of_nat b)))) (<[b := Some (PipeW (o_pipes s))]> F1) u]> (o_procs s)) (S (o_pipes s)) (o_execs s) (o_failed s))
              | None => None
              end
          | None => None
          end
      | SClose fd => fun k =>
          match get_fd fd F with
          | Some _ => Some (set_proc i (Proc (Running (k 0)) (<[Z.to_nat fd := None]> F) u) s)
          | None => None
          end
      | SDup fd => fun k =>
          match get_fd fd F, lowest F with
          | Some o, Some a => Some (set_proc i (Proc (Running (k (Z.of_nat a))) (<[a := Some o]> F) u) s)
          | _, _ => None
          end
      | SOpen path mode => fun k =>
          match lowest F with
          | Some a => Some (set_proc i (Proc (Running (k (Z.of_nat a))) (<[a := Some (OFile path mode)]> F) u) s)
          | None => None
          end
      | SExec path argv => fun k => Some (Os (<[i := Proc Other F u]> (o_procs s)) (o_pipes s) (o_execs s ++ [(argv, F)]) (o_failed s))
      | SWrite fd buf => fun k => Some (set_proc i (Proc (Running (k (Z.of_nat (length buf)))) F u) s)
      | _ => fun _ => None
      end k
  | Some (Proc (Running (Exit _)) _ u) | Some (Proc Other _ u) =>
      Some (Os (<[i := Proc Zombie [] u]> (orphan i <$> o_procs s)) (o_pipes s) (o_execs s) (o_failed s))
  | _ => None
  end.

Lemma go_step i s s' : go i s = Some s' -> step i s s'.
Proof.
  unfold go. destruct (o_procs s !! i) as [[co F u]|] eqn:Eq; [|done]. destruct co as [[a|c k|st|]| | |]; try done.
  - destruct c; try done; intros H.
    + injection H as <-. eapply Call; [exact Eq|]. exact (DFork i F u k s).
    + destruct (list_find (zombie_kid i) (o_procs s)) as [[j q]|] eqn:Ef; [|done]. injection H as <-. apply list_find_Some in Ef as (Hj & [H1 H2] & _).
      eapply Call; [exact Eq|]. apply DWait; [done|done|]. now destruct (p_code q).
    + destruct (lowest F) as [a|] eqn:Ea; [|done]. destruct (lowest (<[a := _]> F)) as [b|] eqn:Eb; [|done]. injection H as <-.
      eapply Call; [exact Eq|]. exact (DPipe i F u k s a b Ea Eb).
    + injection H as <-. eapply Call; [exact Eq|]. apply DWrite.
    + destruct (get_fd fd F) as [o|] eqn:Eo; [|done]. injection H as <-. eapply Call; [exact Eq|]. now apply (DClose i F u fd k s o).
    + injection H as <-. eapply Call; [exact Eq|]. exact (DExec i F u path argv k s).
    + destruct (lowest F) as [a|] eqn:Ea; [|done]. injection H as <-. eapply Call; [exact Eq|]. now apply DOpen.
    + destruct (get_fd fd F) as [o|] eqn:Eo; [|done]. destruct (lowest F) as [a|] eqn:Ea; [|done]. injection H as <-.
      eapply Call; [exact Eq|]. now apply DDup.
  - intros [= <-]. eapply End; [exact Eq|left; eauto].
  - intros [= <-]. eapply End; [exact Eq|now right].
Qed.

(** The processes of [sched] go on in turn; one that cannot is passed over. *)
Definition run (sched : list nat) (s : os) : os := foldl (fun s i => default s (go i s)) s sched.

Lemma run_sched_steps sched : forall s, steps s (run sched s).
Proof.
  induction sched as [|i sched IH]; intros s; [apply rtc_refl|]. cbn. destruct (go i s) as [s1|] eqn:E; [|apply IH].
  eapply rtc_l; [exists i; exact (go_step _ _ _ E)|apply IH].
Qed.

(** [ls | wc >f ; echo] *)
Definition demo_line : tcmd :=
  LIST (PIPE (EXEC [bytes "ls"]) (REDIR (EXEC [bytes "wc"]) (bytes "f") 0x601 1)) (EXEC [bytes "echo"]).

Definition demo_fds : list (option Z) := [Some 0; Some 1; Some 2] ++ replicate 13 None.

Definition demo_end : os := run (concat (replicate 30 [0; 1; 2; 3; 4]%nat)) (begin demo_line (std_fds demo_fds)).

Lemma runcmd_carries_out_witness :
  Forall ended (o_procs demo_end) /\ o_failed demo_end = false /\ length (o_execs demo_end) = 3%nat /\
  exists f E, o_execs demo_end = map (real f) E /\ E ≡ₚ wires [] demo_line (std_fds demo_fds).
Proof.
  assert (Forall ended (o_procs demo_end)) as He.
  { assert (forallb endedb (o_procs demo_end) = true) as Hb by (vm_compute; reflexivity). apply Forall_forall. intros q Hq%list_elem_of_In.
    apply endedb_ok. exact (proj1 (forallb_forall _ _) Hb q Hq). }
  assert (o_failed demo_end = false) as Hf by (vm_compute; reflexivity). split; [exact He|]. split; [exact Hf|]. split; [vm_compute; reflexivity|].
  destruct (runcmd_carries_out demo_line demo_fds demo_end) as [(f & U & E & H1 & _ & _ & _ & H2) _].
  - vm_compute. repeat split; auto.
  - eexists _, _, _. reflexivity.
  - apply run_sched_steps.
  - exists f, E. split; [exact H1|]. now apply H2.
Defined.
