(* ===== verification/Devices.v ===== *)
(** * Memory-mapped devices: plic.c, the initialisation of uart.c and virtio_disk.c

    A device register is loaded and stored through the page table of the hart that
    runs; where there is no translation the access is a fault, which ends in the
    panic of [kerneltrap].  The devices themselves are not part of the sources:
    [Devices] says what their manuals promise of the registers that the kernel
    programs.  Locks are the set of those that are held, so that [initlock] of a lock
    that nobody holds has nothing to do. *)

From stdpp Require Import base gmap list numbers functions strings option.
From S2P Require Import Prelude Mem StringC Riscv Csr Kalloc Vm Asm Trap Proc Virtio.

Open Scope Z_scope.

(** ** The board *)

(** The globals [disk.desc], [disk.avail], [disk.used] and [disk.free]. *)
Record vqueue := VQueue { q_desc : Z; q_avail : Z; q_used : Z; q_free : Z -> Z }.

(** The kernel's data, the devices, the harts and the one that runs. *)
Record board (K D : Type) := Board { b_k : K; b_dev : D; b_hart : Z -> hart; b_cpu : Z; b_disk : vqueue }.
Arguments Board {K D}.
Arguments b_k {K D}.
Arguments b_dev {K D}.
Arguments b_hart {K D}.
Arguments b_cpu {K D}.
Arguments b_disk {K D}.

(** Loads and stores of [n] bytes at a physical address. *)
Class Mmio (D : Type) := {
  dev_load : Z -> Z -> D -> Z * D;
  dev_store : Z -> Z -> Z -> D -> D;
}.

Section ops.
Context {K D : Type} `{PageAllocator K} `{Mmio D}.
Local Abbreviation Bd := (board K D).

Definition set_kern (k : K) (s : Bd) : Bd := Board k (b_dev s) (b_hart s) (b_cpu s) (b_disk s).
Definition set_dev (d : D) (s : Bd) : Bd := Board (b_k s) d (b_hart s) (b_cpu s) (b_disk s).
Definition set_hart (h : hart) (s : Bd) : Bd := Board (b_k s) (b_dev s) (<[b_cpu s := h]> (b_hart s)) (b_cpu s) (b_disk s).
Definition set_disk (q : vqueue) (s : Bd) : Bd := Board (b_k s) (b_dev s) (b_hart s) (b_cpu s) q.

Definition the_hart (s : Bd) : hart := b_hart s (b_cpu s).

Definition kern {A} (c : M K A) : M Bd A := fun s =>
  match c (b_k s) with
  | Ok a k => Ok a (set_kern k s)
  | Panic msg => Panic msg
  | Diverge => Diverge
  end.

Definition on_hart {A} (c : M hart A) : M Bd A := fun s =>
  match c (the_hart s) with
  | Ok a h => Ok a (set_hart h s)
  | Panic msg => Panic msg
  | Diverge => Diverge
  end.

(** A register of the hart. *)
Definition peek {A} (c : M hart A) : M Bd A := fun s =>
  match c (the_hart s) with
  | Ok a _ => Ok a s
  | Panic msg => Panic msg
  | Diverge => Diverge
  end.

Definition access_dev {A} (acc : access) (va : Z) (f : Z -> D -> A * D) : M Bd A := fun s =>
  match translate (mem_of (b_k s)) (h_mode (the_hart s)) (h_reg (the_hart s) Satp) acc va with
  | Some pa => let r := f pa (b_dev s) in Ok r.1 (set_dev r.2 s)
  | None => Panic "kerneltrap"
  end.

Definition mmio_load (n va : Z) : M Bd Z := access_dev Load va (dev_load n).
Definition mmio_store (n va v : Z) : M Bd unit := access_dev Store va (fun pa d => (tt, dev_store n pa (v mod 2^(8 * n)) d)).

Definition cpuid : M Bd Z := id ← peek r_tp; mret (i32 id).

(** ** plic.c *)

Definition PLIC_SENABLE (hart : Z) : Z := PLIC + 0x2080 + hart * 0x100.
Definition PLIC_SPRIORITY (hart : Z) : Z := PLIC + 0x201000 + hart * 0x2000.
Definition PLIC_SCLAIM (hart : Z) : Z := PLIC + 0x201004 + hart * 0x2000.

Definition plicinit : M Bd unit :=
  mmio_store 4 (PLIC + UART0_IRQ * 4) 1;;
  mmio_store 4 (PLIC + VIRTIO0_IRQ * 4) 1.

Definition plicinithart : M Bd unit :=
  hart ← cpuid;
  mmio_store 4 (PLIC_SENABLE hart) (Z.lor (Z.shiftl 1 UART0_IRQ) (Z.shiftl 1 VIRTIO0_IRQ));;
  mmio_store 4 (PLIC_SPRIORITY hart) 0.

Definition plic_claim : M Bd Z :=
  hart ← cpuid;
  irq ← mmio_load 4 (PLIC_SCLAIM hart);
  mret (i32 irq).

Definition plic_complete (irq : Z) : M Bd unit :=
  hart ← cpuid;
  mmio_store 4 (PLIC_SCLAIM hart) irq.

(** ** uart.c *)

Definition IER : Z := 1.
Definition IER_RX_ENABLE : Z := Z.shiftl 1 0.
Definition IER_TX_ENABLE : Z := Z.shiftl 1 1.
Definition FCR : Z := 2.
Definition FCR_FIFO_ENABLE : Z := Z.shiftl 1 0.
Definition FCR_FIFO_CLEAR : Z := Z.shiftl 3 1.
Definition LCR : Z := 3.
Definition LCR_EIGHT_BITS : Z := Z.shiftl 3 0.
Definition LCR_BAUD_LATCH : Z := Z.shiftl 1 7.

Definition WriteReg (reg v : Z) : M Bd unit := mmio_store 1 (UART0 + reg) v.

Definition uartinit : M Bd unit :=
  WriteReg IER 0x00;;
  WriteReg LCR LCR_BAUD_LATCH;;
  WriteReg 0 0x03;;
  WriteReg 1 0x00;;
  WriteReg LCR LCR_EIGHT_BITS;;
  WriteReg FCR (Z.lor FCR_FIFO_ENABLE FCR_FIFO_CLEAR);;
  WriteReg IER (Z.lor IER_TX_ENABLE IER_RX_ENABLE).

(** ** virtio.h and virtio_disk.c *)

Inductive vreg :=
  | MAGIC_VALUE | VERSION | DEVICE_ID | VENDOR_ID | DEVICE_FEATURES | DRIVER_FEATURES | QUEUE_SEL | QUEUE_NUM_MAX | QUEUE_NUM
  | QUEUE_READY | QUEUE_NOTIFY | INTERRUPT_STATUS | INTERRUPT_ACK | STATUS | QUEUE_DESC_LOW | QUEUE_DESC_HIGH
  | DRIVER_DESC_LOW | DRIVER_DESC_HIGH | DEVICE_DESC_LOW | DEVICE_DESC_HIGH.

Definition VIRTIO_MMIO (r : vreg) : Z :=
  match r with
  | MAGIC_VALUE => 0x000 | VERSION => 0x004 | DEVICE_ID => 0x008 | VENDOR_ID => 0x00c
  | DEVICE_FEATURES => 0x010 | DRIVER_FEATURES => 0x020
  | QUEUE_SEL => 0x030 | QUEUE_NUM_MAX => 0x034 | QUEUE_NUM => 0x038 | QUEUE_READY => 0x044 | QUEUE_NOTIFY => 0x050
  | INTERRUPT_STATUS => 0x060 | INTERRUPT_ACK => 0x064 | STATUS => 0x070
  | QUEUE_DESC_LOW => 0x080 | QUEUE_DESC_HIGH => 0x084 | DRIVER_DESC_LOW => 0x090 | DRIVER_DESC_HIGH => 0x094
  | DEVICE_DESC_LOW => 0x0a0 | DEVICE_DESC_HIGH => 0x0a4
  end.

Definition S_ACKNOWLEDGE : Z := 1.
Definition S_DRIVER : Z := 2.
Definition S_DRIVER_OK : Z := 4.
Definition S_FEATURES_OK : Z := 8.

Inductive feature := BLK_F_RO | BLK_F_SCSI | BLK_F_CONFIG_WCE | BLK_F_MQ | F_ANY_LAYOUT | RING_F_INDIRECT_DESC | RING_F_EVENT_IDX.

Definition VIRTIO (f : feature) : Z :=
  match f with
  | BLK_F_RO => 5 | BLK_F_SCSI => 7 | BLK_F_CONFIG_WCE => 11 | BLK_F_MQ => 12
  | F_ANY_LAYOUT => 27 | RING_F_INDIRECT_DESC => 28 | RING_F_EVENT_IDX => 29
  end.

Definition rd_reg (r : vreg) : M Bd Z := mmio_load 4 (VIRTIO0 + VIRTIO_MMIO r).
Definition wr_reg (r : vreg) (v : Z) : M Bd unit := mmio_store 4 (VIRTIO0 + VIRTIO_MMIO r) v.

(** [features &= ~(1 << f)]: the [int] is extended to 64 bits. *)
Definition without (f : feature) (features : Z) : Z := Z.land features (u64 (Z.lnot (Z.shiftl 1 (VIRTIO f)))).

(** The four tests are done from left to right until one of them fails. *)
Definition virtio_probe : M Bd bool :=
  m ← rd_reg MAGIC_VALUE;
  if negb (m =? 0x74726976) then mret false else
  v ← rd_reg VERSION;
  if negb (v =? 2) then mret false else
  d ← rd_reg DEVICE_ID;
  if negb (d =? 2) then mret false else
  w ← rd_reg VENDOR_ID;
  mret (w =? 0x554d4551).

Definition virtio_negotiate : M Bd Z :=
  let status := 0 in
  wr_reg STATUS status;;
  let status := Z.lor status S_ACKNOWLEDGE in
  wr_reg STATUS status;;
  let status := Z.lor status S_DRIVER in
  wr_reg STATUS status;;
  features ← rd_reg DEVICE_FEATURES;
  let features := without BLK_F_RO features in
  let features := without BLK_F_SCSI features in
  let features := without BLK_F_CONFIG_WCE features in
  let features := without BLK_F_MQ features in
  let features := without F_ANY_LAYOUT features in
  let features := without RING_F_EVENT_IDX features in
  let features := without RING_F_INDIRECT_DESC features in
  wr_reg DRIVER_FEATURES features;;
  let status := Z.lor status S_FEATURES_OK in
  wr_reg STATUS status;;
  status ← rd_reg STATUS;
  if Z.land status S_FEATURES_OK =? 0 then panic "virtio disk FEATURES_OK unset" else mret status.

Definition virtio_queue : M Bd unit :=
  wr_reg QUEUE_SEL 0;;
  r ← rd_reg QUEUE_READY;
  if truthy r then panic "virtio disk should not be ready" else
  max ← rd_reg QUEUE_NUM_MAX;
  if max =? 0 then panic "virtio disk has no queue 0" else
  if max <? NUM then panic "virtio disk max queue too short" else
  desc ← kern pa_kalloc;
  avail ← kern pa_kalloc;
  used ← kern pa_kalloc;
  modify (fun s => set_disk (VQueue desc avail used (q_free (b_disk s))) s);;
  if (desc =? 0) || (avail =? 0) || (used =? 0) then panic "virtio disk kalloc" else
  kern (do_memset desc 0 PGSIZE);;
  kern (do_memset avail 0 PGSIZE);;
  kern (do_memset used 0 PGSIZE);;
  wr_reg QUEUE_NUM NUM;;
  wr_reg QUEUE_DESC_LOW desc;;
  wr_reg QUEUE_DESC_HIGH (Z.shiftr desc 32);;
  wr_reg DRIVER_DESC_LOW avail;;
  wr_reg DRIVER_DESC_HIGH (Z.shiftr avail 32);;
  wr_reg DEVICE_DESC_LOW used;;
  wr_reg DEVICE_DESC_HIGH (Z.shiftr used 32);;
  wr_reg QUEUE_READY 0x1.

Definition virtio_disk_init : M Bd unit :=
  found ← virtio_probe;
  if negb found then panic "could not find virtio disk" else
  status ← virtio_negotiate;
  virtio_queue;;
  for_loop (Z.to_nat NUM) 0 (fun i => modify (fun s =>
    let q := b_disk s in set_disk (VQueue (q_desc q) (q_avail q) (q_used q) (<[i := 1]> (q_free q))) s));;
  wr_reg STATUS (Z.lor status S_DRIVER_OK).
End ops.
