(* ===== verification/DeviceThms.v ===== *)
(** * What the initialisation leaves in the devices

    The registers of the interrupt controller, the UART and the disk as their
    manuals describe them, and what plic.c, [uartinit] and [virtio_disk_init] do to
    them. *)

From stdpp Require Import base gmap list numbers functions strings option.
From S2P Require Import Prelude Mem StringC Riscv Csr Kalloc Vm PageTable Asm AsmSpec Trap Proc Virtio Devices.

Open Scope Z_scope.

(** ** The manuals *)

(** The 16550: interrupt enable, line control, divisor and FIFO control. *)
Record uart_regs := UartRegs { ua_ier : Z; ua_lcr : Z; ua_dll : Z; ua_dlm : Z; ua_fcr : Z }.

(** Bit 7 of the line control register: registers 0 and 1 are the divisor. *)
Definition dlab (u : uart_regs) : bool := Z.testbit (ua_lcr u) 7.

(** A write of register [r]; of register 0 when it is the divisor. *)
Definition uart_put (r v : Z) (u : uart_regs) : uart_regs :=
  if r =? 0 then UartRegs (ua_ier u) (ua_lcr u) v (ua_dlm u) (ua_fcr u)
  else if r =? 1 then if dlab u then UartRegs (ua_ier u) (ua_lcr u) (ua_dll u) v (ua_fcr u) else UartRegs (Z.land v 15) (ua_lcr u) (ua_dll u) (ua_dlm u) (ua_fcr u)
  else if r =? 2 then UartRegs (ua_ier u) (ua_lcr u) (ua_dll u) (ua_dlm u) v
  else UartRegs (ua_ier u) v (ua_dll u) (ua_dlm u) (ua_fcr u).

(** The virtio device, with queue 0 selected or not. *)
Record vio_regs := Vio {
  vi_status : Z;
  vi_features : Z;
  vi_sel : Z;
  vi_ready : Z;
  vi_num : Z;
  vi_desc : Z * Z;
  vi_avail : Z * Z;
  vi_used : Z * Z;
}.

Definition vi_set_status (x : Z) (v : vio_regs) : vio_regs := Vio x (vi_features v) (vi_sel v) (vi_ready v) (vi_num v) (vi_desc v) (vi_avail v) (vi_used v).
Definition vi_set_features (x : Z) (v : vio_regs) : vio_regs := Vio (vi_status v) x (vi_sel v) (vi_ready v) (vi_num v) (vi_desc v) (vi_avail v) (vi_used v).

(** What a register of the queue is set to. *)
Definition vi_queue (r : vreg) (x : Z) (v : vio_regs) : vio_regs :=
  let q := Vio (vi_status v) (vi_features v) (vi_sel v) in
  match r with
  | QUEUE_READY => q x (vi_num v) (vi_desc v) (vi_avail v) (vi_used v)
  | QUEUE_NUM => q (vi_ready v) x (vi_desc v) (vi_avail v) (vi_used v)
  | QUEUE_DESC_LOW => q (vi_ready v) (vi_num v) (x, (vi_desc v).2) (vi_avail v) (vi_used v)
  | QUEUE_DESC_HIGH => q (vi_ready v) (vi_num v) ((vi_desc v).1, x) (vi_avail v) (vi_used v)
  | DRIVER_DESC_LOW => q (vi_ready v) (vi_num v) (vi_desc v) (x, (vi_avail v).2) (vi_used v)
  | DRIVER_DESC_HIGH => q (vi_ready v) (vi_num v) (vi_desc v) ((vi_avail v).1, x) (vi_used v)
  | DEVICE_DESC_LOW => q (vi_ready v) (vi_num v) (vi_desc v) (vi_avail v) (x, (vi_used v).2)
  | DEVICE_DESC_HIGH => q (vi_ready v) (vi_num v) (vi_desc v) (vi_avail v) ((vi_used v).1, x)
  | _ => v
  end.

Definition queue_reg (r : vreg) : bool :=
  match r with
  | QUEUE_READY | QUEUE_NUM | QUEUE_DESC_LOW | QUEUE_DESC_HIGH | DRIVER_DESC_LOW | DRIVER_DESC_HIGH | DEVICE_DESC_LOW | DEVICE_DESC_HIGH => true
  | _ => false
  end.

Definition in_range (base size a : Z) : Prop := base <= a < base + size.

(** The registers of the context [ctx] of the PLIC. *)
Definition plic_enable_at (ctx : Z) : Z := PLIC + 0x2000 + 0x80 * ctx.
Definition plic_threshold_at (ctx : Z) : Z := PLIC + 0x200000 + 0x1000 * ctx.
Definition plic_claim_at (ctx : Z) : Z := PLIC + 0x200004 + 0x1000 * ctx.

(** The PLIC, a 16550 at [UART0] and a legacy-free virtio disk at [VIRTIO0].  An
    interrupt that is not wired cannot be enabled; [vio_accepts] are the sets of
    features that the disk agrees to, and its queue 0 has room for [vio_max]
    descriptors. *)
Class Devices (D : Type) `{Mmio D} := {
  plic_prio : D -> Z -> Z;
  plic_enabled : D -> Z -> Z -> bool;
  plic_threshold : D -> Z -> Z;
  plic_pending : D -> Z -> bool;
  plic_wired : Z -> bool;
  uart : D -> uart_regs;
  vio : D -> vio_regs;
  vio_offered : Z;
  vio_accepts : Z -> bool;
  vio_max : Z;
  (* separate devices; reading a register does not configure anything *)
  other_plic n a v d : ~ in_range PLIC 0x4000000 a ->
    plic_prio (dev_store n a v d) = plic_prio d /\ plic_enabled (dev_store n a v d) = plic_enabled d /\ plic_threshold (dev_store n a v d) = plic_threshold d;
  other_uart n a v d : ~ in_range UART0 PGSIZE a -> uart (dev_store n a v d) = uart d;
  other_vio n a v d : ~ in_range VIRTIO0 PGSIZE a -> vio (dev_store n a v d) = vio d;
  load_keeps n a d : let d' := (dev_load n a d).2 in
    plic_prio d' = plic_prio d /\ plic_enabled d' = plic_enabled d /\ plic_threshold d' = plic_threshold d /\ uart d' = uart d /\ vio d' = vio d;
  (* the PLIC *)
  store_prio irq v d : 0 < irq < 1024 -> 0 <= v <= 7 -> let d' := dev_store 4 (PLIC + 4 * irq) v d in
    (forall i, plic_prio d' i = if i =? irq then v else plic_prio d i) /\ plic_enabled d' = plic_enabled d /\ plic_threshold d' = plic_threshold d;
  store_enable ctx v d : 0 <= ctx < 15872 -> is_u32 v -> let d' := dev_store 4 (plic_enable_at ctx) v d in
    (forall c i, plic_enabled d' c i = if (c =? ctx) && (i <? 32) then Z.testbit v i && plic_wired i else plic_enabled d c i) /\
    plic_prio d' = plic_prio d /\ plic_threshold d' = plic_threshold d;
  store_threshold ctx v d : 0 <= ctx < 15872 -> 0 <= v <= 7 -> let d' := dev_store 4 (plic_threshold_at ctx) v d in
    (forall c, plic_threshold d' c = if c =? ctx then v else plic_threshold d c) /\ plic_prio d' = plic_prio d /\ plic_enabled d' = plic_enabled d;
  load_claim ctx d : 0 <= ctx < 15872 -> let r := (dev_load 4 (plic_claim_at ctx) d).1 in
    let ready i := 0 < i < 1024 /\ plic_pending d i = true /\ plic_enabled d ctx i = true /\ plic_threshold d ctx < plic_prio d i in
    r = 0 /\ (forall i, ~ ready i) \/ ready r;
  uart_wired : plic_wired UART0_IRQ = true;
  virtio_wired : plic_wired VIRTIO0_IRQ = true;
  (* the UART *)
  store_uart r v d : 0 <= r <= 3 -> is_u8 v -> (r = 0 -> dlab (uart d) = true) -> uart (dev_store 1 (UART0 + r) v d) = uart_put r v (uart d);
  (* the disk *)
  load_vio r d : let x := (dev_load 4 (VIRTIO0 + VIRTIO_MMIO r) d).1 in
    match r with
    | MAGIC_VALUE => x = 0x74726976 | VERSION => x = 2 | DEVICE_ID => x = 2 | VENDOR_ID => x = 0x554d4551
    | DEVICE_FEATURES => x = vio_offered
    | STATUS => x = vi_status (vio d)
    | QUEUE_READY => vi_sel (vio d) = 0 -> x = vi_ready (vio d)
    | QUEUE_NUM_MAX => vi_sel (vio d) = 0 -> x = vio_max
    | _ => True
    end;
  reset_vio d : let v := vio (dev_store 4 (VIRTIO0 + VIRTIO_MMIO STATUS) 0 d) in vi_status v = 0 /\ vi_ready v = 0;
  store_status x d : 0 < x < 256 -> Z.land (vi_status (vio d)) x = vi_status (vio d) ->
    (Z.testbit x 3 = true -> Z.testbit (vi_status (vio d)) 3 = true \/ vio_accepts (vi_features (vio d)) = true) ->
    vio (dev_store 4 (VIRTIO0 + VIRTIO_MMIO STATUS) x d) = vi_set_status x (vio d);
  store_features x d : is_u32 x -> Z.testbit (vi_status (vio d)) 1 = true -> Z.testbit (vi_status (vio d)) 3 = false ->
    vio (dev_store 4 (VIRTIO0 + VIRTIO_MMIO DRIVER_FEATURES) x d) = vi_set_features x (vio d);
  store_sel x d : 0 <= x -> let v := vio d in
    vio (dev_store 4 (VIRTIO0 + VIRTIO_MMIO QUEUE_SEL) x d) = Vio (vi_status v) (vi_features v) x (vi_ready v) (vi_num v) (vi_desc v) (vi_avail v) (vi_used v);
  store_queue r x d : queue_reg r = true -> is_u32 x -> vi_sel (vio d) = 0 -> vi_ready (vio d) = 0 -> Z.testbit (vi_status (vio d)) 3 = true ->
    (r = QUEUE_NUM -> 0 < x <= vio_max) ->
    vio (dev_store 4 (VIRTIO0 + VIRTIO_MMIO r) x d) = vi_queue r x (vio d);
  vio_offered_u32 : is_u32 vio_offered;
  vio_max_ok : NUM <= vio_max;
  (* it works without the features that the driver turns down *)
  vio_agrees : vio_accepts (foldr without vio_offered [RING_F_INDIRECT_DESC; RING_F_EVENT_IDX; F_ANY_LAYOUT; BLK_F_MQ; BLK_F_CONFIG_WCE; BLK_F_SCSI; BLK_F_RO]) = true;
}.

Section thms.
Context {K D : Type} `{PA : PageAllocator K} `{PS : !PageAllocatorSpec K} `{MM : Mmio D} `{DV : !Devices D}.
Local Abbreviation Bd := (board K D).
Implicit Types (s : Bd) (d : D).

Definition device_addr (va : Z) : Prop := in_range PLIC 0x4000000 va \/ in_range UART0 PGSIZE va \/ in_range VIRTIO0 PGSIZE va.

(** The hart reaches the registers of the devices at their addresses. *)
Definition io_ready s : Prop := forall acc va, acc <> Fetch -> device_addr va ->
  translate (mem_of (b_k s)) (h_mode (the_hart s)) (h_reg (the_hart s) Satp) acc va = Some va.

Definition stored n va v s : Bd := set_dev (dev_store n va (v mod 2^(8 * n)) (b_dev s)) s.

Lemma mmio_store_ok n va v s : io_ready s -> device_addr va -> mmio_store n va v s = Ok tt (stored n va v s) /\ io_ready (stored n va v s).
Proof. intros Hi Ha. unfold mmio_store, access_dev. rewrite (Hi Store va) by done. done. Qed.

Lemma mmio_load_ok n va s : io_ready s -> device_addr va ->
  mmio_load n va s = Ok (dev_load n va (b_dev s)).1 (set_dev (dev_load n va (b_dev s)).2 s) /\ io_ready (set_dev (dev_load n va (b_dev s)).2 s).
Proof. intros Hi Ha. unfold mmio_load, access_dev. rewrite (Hi Load va) by done. done. Qed.

Lemma cpuid_ok s h : h_reg (the_hart s) (X Tp) = h -> 0 <= h < 2^31 -> cpuid s = Ok h s.
Proof. intros E Hh. unfold cpuid, peek, mbind, M_bind, r_tp, csrr, gets. rewrite E. unfold mret, M_ret. now rewrite i32_small by lia. Qed.

(** ** plic.c *)

(** The context of the supervisor mode of hart [h]: each hart has one for machine
    mode and one for supervisor mode. *)
Definition s_context (h : Z) : Z := 2 * h + 1.

Lemma plic_macros h : PLIC_SENABLE h = plic_enable_at (s_context h) /\ PLIC_SPRIORITY h = plic_threshold_at (s_context h) /\
  PLIC_SCLAIM h = plic_claim_at (s_context h).
Proof. unfold PLIC_SENABLE, PLIC_SPRIORITY, PLIC_SCLAIM, plic_enable_at, plic_threshold_at, plic_claim_at, s_context. lia. Qed.

(** Only the PLIC has changed. *)
Definition same_but_plic d d' : Prop := uart d' = uart d /\ vio d' = vio d.

Lemma plic_store_other n a v d : in_range PLIC 0x4000000 a -> same_but_plic d (dev_store n a v d).
Proof. unfold in_range, PLIC. intros Ha. split; [apply other_uart|apply other_vio]; unfold in_range, UART0, VIRTIO0, PGSIZE; lia. Qed.

Lemma plicinit_ok s : io_ready s -> exists d, plicinit s = Ok tt (set_dev d s) /\ same_but_plic (b_dev s) d /\
  (forall i, plic_prio d i = if (i =? UART0_IRQ) || (i =? VIRTIO0_IRQ) then 1 else plic_prio (b_dev s) i) /\
  plic_enabled d = plic_enabled (b_dev s) /\ plic_threshold d = plic_threshold (b_dev s).
Proof.
  intros Hi. unfold plicinit. destruct (mmio_store_ok 4 (PLIC + UART0_IRQ * 4) 1 s Hi) as [E1 Hi1]; [left; unfold in_range, PLIC, UART0_IRQ; lia|].
  rewrite (bind_ok _ _ _ _ _ E1). destruct (mmio_store_ok 4 (PLIC + VIRTIO0_IRQ * 4) 1 _ Hi1) as [E2 _]; [left; unfold in_range, PLIC, VIRTIO0_IRQ; lia|].
  rewrite E2. eexists. split; [reflexivity|]. unfold stored. cbn [b_dev set_dev]. change (1 mod 2 ^ (8 * 4)) with 1.
  rewrite !(Z.mul_comm _ 4). destruct (store_prio UART0_IRQ 1 (b_dev s) ltac:(done) ltac:(done)) as (P1 & P2 & P3).
  set (d1 := dev_store 4 (PLIC + 4 * UART0_IRQ) 1 (b_dev s)) in *. destruct (store_prio VIRTIO0_IRQ 1 d1 ltac:(done) ltac:(done)) as (Q1 & Q2 & Q3).
  destruct (plic_store_other 4 (PLIC + 4 * UART0_IRQ) 1 (b_dev s)) as [O1 O2]; [unfold in_range, PLIC, UART0_IRQ; lia|]. fold d1 in O1, O2.
  destruct (plic_store_other 4 (PLIC + 4 * VIRTIO0_IRQ) 1 d1) as [O3 O4]; [unfold in_range, PLIC, VIRTIO0_IRQ; lia|].
  split; [split; congruence|]. split; [|split; congruence]. intros i. rewrite Q1, P1. destruct (i =? VIRTIO0_IRQ), (i =? UART0_IRQ); done.
Qed.

(** Hart [h] gets the interrupts of the two devices, whatever their priority. *)
Definition hart_enabled (h : Z) d : Prop :=
  (forall i, i < 32 -> plic_enabled d (s_context h) i = (i =? UART0_IRQ) || (i =? VIRTIO0_IRQ)) /\ plic_threshold d (s_context h) = 0.

Lemma irq_bits i : i < 32 -> Z.testbit (Z.lor (Z.shiftl 1 UART0_IRQ) (Z.shiftl 1 VIRTIO0_IRQ)) i && plic_wired (D := D) i = (i =? UART0_IRQ) || (i =? VIRTIO0_IRQ).
Proof.
  intros Hi. change (Z.lor (Z.shiftl 1 UART0_IRQ) (Z.shiftl 1 VIRTIO0_IRQ)) with 1026. unfold UART0_IRQ, VIRTIO0_IRQ.
  destruct (Z.eqb_spec i 10) as [-> |H1]; [exact uart_wired|]. destruct (Z.eqb_spec i 1) as [-> |H2]; [exact virtio_wired|].
  destruct (Z.ltb_spec i 0); [now rewrite Z.testbit_neg_r|]. change 1026 with (2^10 + 2^1). rewrite Z.add_nocarry_lxor by done.
  rewrite Z.lxor_spec, !Z.pow2_bits_false by lia. done.
Qed.

Lemma plicinithart_ok s h : io_ready s -> h_reg (the_hart s) (X Tp) = h -> 0 <= h < 8 -> exists d, plicinithart s = Ok tt (set_dev d s) /\
  same_but_plic (b_dev s) d /\ hart_enabled h d /\ plic_prio d = plic_prio (b_dev s) /\
  (forall c, c <> s_context h -> (forall i, plic_enabled d c i = plic_enabled (b_dev s) c i) /\ plic_threshold d c = plic_threshold (b_dev s) c) /\
  (forall i, 32 <= i -> plic_enabled d (s_context h) i = plic_enabled (b_dev s) (s_context h) i).
Proof.
  intros Hi Ht Hh. unfold plicinithart. rewrite (bind_ok _ _ _ _ _ (cpuid_ok s h Ht ltac:(lia))). destruct (plic_macros h) as (-> & -> & _).
  assert (in_range PLIC 0x4000000 (plic_enable_at (s_context h)) /\ in_range PLIC 0x4000000 (plic_threshold_at (s_context h))) as [R1 R2]
    by (unfold in_range, plic_enable_at, plic_threshold_at, s_context, PLIC; lia).
  destruct (mmio_store_ok 4 (plic_enable_at (s_context h)) (Z.lor (Z.shiftl 1 UART0_IRQ) (Z.shiftl 1 VIRTIO0_IRQ)) s Hi) as [E1 Hi1]; [now left|].
  rewrite (bind_ok _ _ _ _ _ E1). destruct (mmio_store_ok 4 (plic_threshold_at (s_context h)) 0 _ Hi1) as [E2 _]; [now left|].
  rewrite E2. eexists. split; [reflexivity|]. unfold stored. cbn [b_dev set_dev]. rewrite Z.mod_small by done. change (0 mod 2 ^ (8 * 4)) with 0.
  destruct (store_enable (s_context h) (Z.lor (Z.shiftl 1 UART0_IRQ) (Z.shiftl 1 VIRTIO0_IRQ)) (b_dev s)) as (P1 & P2 & P3); [unfold s_context; lia|done|].
  destruct (plic_store_other 4 _ (Z.lor (Z.shiftl 1 UART0_IRQ) (Z.shiftl 1 VIRTIO0_IRQ)) (b_dev s) R1) as [O1 O2].
  set (d1 := dev_store 4 (plic_enable_at (s_context h)) _ (b_dev s)) in *.
  destruct (store_threshold (s_context h) 0 d1) as (Q1 & Q2 & Q3); [unfold s_context; lia|lia|].
  destruct (plic_store_other 4 _ 0 d1 R2) as [O3 O4]. split; [split; congruence|]. split; [|split; [congruence|split]].
  - split; [|now rewrite Q1, Z.eqb_refl]. intros i Hl. rewrite Q3, P1, Z.eqb_refl. cbn [andb]. destruct (Z.ltb_spec i 32); [now apply irq_bits|lia].
  - intros c Hc. rewrite Q1, Q3, (proj2 (Z.eqb_neq c _)) by done. split; [|congruence]. intros i. now rewrite P1, (proj2 (Z.eqb_neq c _)) by done.
  - intros i Hl. rewrite Q3, P1, Z.eqb_refl. cbn [andb]. now rewrite (proj2 (Z.ltb_ge i 32)) by lia.
Qed.

(** [plic_claim] on a hart that has no other interrupts: none, or one of the two
    that [devintr] knows, and none only if neither waits. *)
Lemma plic_claim_ok s h : io_ready s -> h_reg (the_hart s) (X Tp) = h -> 0 <= h < 8 -> hart_enabled h (b_dev s) ->
  (forall i, 32 <= i -> plic_enabled (b_dev s) (s_context h) i = false) -> plic_prio (b_dev s) UART0_IRQ = 1 -> plic_prio (b_dev s) VIRTIO0_IRQ = 1 ->
  exists irq d, plic_claim s = Ok irq (set_dev d s) /\
    (irq = 0 /\ plic_pending (b_dev s) UART0_IRQ = false /\ plic_pending (b_dev s) VIRTIO0_IRQ = false \/
     (irq = UART0_IRQ \/ irq = VIRTIO0_IRQ) /\ plic_pending (b_dev s) irq = true).
Proof.
  intros Hi Ht Hh [He Hth] Hhi Hu Hv. unfold plic_claim. rewrite (bind_ok _ _ _ _ _ (cpuid_ok s h Ht ltac:(lia))). destruct (plic_macros h) as (_ & _ & ->).
  destruct (mmio_load_ok 4 (plic_claim_at (s_context h)) s Hi) as [E1 _]; [left; unfold in_range, plic_claim_at, s_context, PLIC; lia|].
  rewrite (bind_ok _ _ _ _ _ E1). eexists _, _. split; [reflexivity|].
  destruct (load_claim (s_context h) (b_dev s)) as [[-> Hn]|(H1 & H2 & H3 & H4)]; [unfold s_context; lia| |].
  - left. split; [done|]. split; apply not_true_is_false; intros Hp.
    + apply (Hn UART0_IRQ). rewrite Hth, He, Hu by done. done.
    + apply (Hn VIRTIO0_IRQ). rewrite Hth, He, Hv by done. done.
  - right. rewrite i32_small by lia. split; [|done]. destruct (Z.lt_ge_cases (dev_load 4 (plic_claim_at (s_context h)) (b_dev s)).1 32) as [Hl|Hl].
    + rewrite He in H3 by done. unfold UART0_IRQ, VIRTIO0_IRQ in *. zbool. lia.
    + rewrite Hhi in H3 by done. done.
Qed.

(** ** uart.c *)

(** 38400 baud, 8 bits, FIFOs on, interrupts on. *)
Definition uart_ready : uart_regs := UartRegs 3 3 3 0 7.

Definition same_but_uart d d' : Prop :=
  vio d' = vio d /\ plic_prio d' = plic_prio d /\ plic_enabled d' = plic_enabled d /\ plic_threshold d' = plic_threshold d.

Lemma WriteReg_ok s d r v u : io_ready s -> uart d = u -> 0 <= r <= 3 -> is_u8 v -> (r = 0 -> dlab u = true) ->
  exists d', WriteReg r v (set_dev d s) = Ok tt (set_dev d' s) /\ same_but_uart d d' /\ uart d' = uart_put r v u.
Proof.
  intros Hi <- Hr Hv Hd. exists (dev_store 1 (UART0 + r) v d). split.
  - destruct (mmio_store_ok 1 (UART0 + r) v (set_dev d s) Hi) as [E _]; [right; left; unfold in_range, PGSIZE; lia|].
    unfold WriteReg. rewrite E. unfold stored. now rewrite Z.mod_small by exact Hv.
  - split; [|now apply store_uart]. split; [apply other_vio|apply other_plic]; unfold in_range, UART0, VIRTIO0, PLIC, PGSIZE; lia.
Qed.

Lemma set_dev_same s : set_dev (b_dev s) s = s.
Proof. now destruct s. Qed.

Lemma uartinit_ok s : io_ready s -> exists d, uartinit s = Ok tt (set_dev d s) /\ uart d = uart_ready /\ same_but_uart (b_dev s) d.
Proof.
  intros Hi. unfold uartinit.
  destruct (WriteReg_ok s (b_dev s) IER 0 _ Hi eq_refl) as (d1 & E1 & S1 & _); [done..|]. rewrite set_dev_same in E1. rewrite (bind_ok _ _ _ _ _ E1).
  destruct (WriteReg_ok s d1 LCR LCR_BAUD_LATCH _ Hi eq_refl) as (d2 & E2 & S2 & U2); [done..|]. rewrite (bind_ok _ _ _ _ _ E2).
  destruct (WriteReg_ok s d2 0 3 _ Hi U2) as (d3 & E3 & S3 & U3); [done..|]. rewrite (bind_ok _ _ _ _ _ E3).
  destruct (WriteReg_ok s d3 1 0 _ Hi U3) as (d4 & E4 & S4 & U4); [done..|]. rewrite (bind_ok _ _ _ _ _ E4).
  destruct (WriteReg_ok s d4 LCR LCR_EIGHT_BITS _ Hi U4) as (d5 & E5 & S5 & U5); [done..|]. rewrite (bind_ok _ _ _ _ _ E5).
  destruct (WriteReg_ok s d5 FCR (Z.lor FCR_FIFO_ENABLE FCR_FIFO_CLEAR) _ Hi U5) as (d6 & E6 & S6 & U6); [done..|]. rewrite (bind_ok _ _ _ _ _ E6).
  destruct (WriteReg_ok s d6 IER (Z.lor IER_TX_ENABLE IER_RX_ENABLE) _ Hi U6) as (d7 & E7 & S7 & U7); [done..|].
  exists d7. split; [exact E7|]. split; [exact U7|]. clear - S1 S2 S3 S4 S5 S6 S7. unfold same_but_uart in *. intuition congruence.
Qed.

(** ** virtio_disk.c *)

Definition same_but_vio d d' : Prop :=
  uart d' = uart d /\ plic_prio d' = plic_prio d /\ plic_enabled d' = plic_enabled d /\ plic_threshold d' = plic_threshold d.

Lemma same_but_vio_trans d1 d2 d3 : same_but_vio d1 d2 -> same_but_vio d2 d3 -> same_but_vio d1 d3.
Proof. unfold same_but_vio. intuition congruence. Qed.

Lemma vreg_range r : 0 <= VIRTIO_MMIO r < 256.
Proof. destruct r; done. Qed.

Lemma rd_reg_ok s d r : io_ready s -> exists d', rd_reg r (set_dev d s) = Ok (dev_load 4 (VIRTIO0 + VIRTIO_MMIO r) d).1 (set_dev d' s) /\
  same_but_vio d d' /\ vio d' = vio d.
Proof.
  intros Hi. pose proof (vreg_range r). destruct (mmio_load_ok 4 (VIRTIO0 + VIRTIO_MMIO r) (set_dev d s) Hi) as [E _]; [right; right; unfold in_range, PGSIZE; lia|].
  eexists. split; [exact E|]. cbn [b_dev set_dev]. destruct (load_keeps 4 (VIRTIO0 + VIRTIO_MMIO r) d) as (? & ? & ? & ? & ?). done.
Qed.

Lemma wr_reg_ok s d r v w : io_ready s -> v mod 2^32 = w -> let d' := dev_store 4 (VIRTIO0 + VIRTIO_MMIO r) w d in
  wr_reg r v (set_dev d s) = Ok tt (set_dev d' s) /\ same_but_vio d d'.
Proof.
  intros Hi <- d'. pose proof (vreg_range r). destruct (mmio_store_ok 4 (VIRTIO0 + VIRTIO_MMIO r) v (set_dev d s) Hi) as [E _]; [right; right; unfold in_range, PGSIZE; lia|].
  split; [exact E|]. split; [apply other_uart|apply other_plic]; unfold in_range, UART0, VIRTIO0, PLIC, PGSIZE; lia.
Qed.

Lemma virtio_probe_ok s d : io_ready s -> exists d', virtio_probe (set_dev d s) = Ok true (set_dev d' s) /\ same_but_vio d d' /\ vio d' = vio d.
Proof.
  intros Hi. unfold virtio_probe.
  destruct (rd_reg_ok s d MAGIC_VALUE Hi) as (d1 & E1 & S1 & V1). rewrite (load_vio MAGIC_VALUE d) in E1. rewrite (bind_ok _ _ _ _ _ E1).
  destruct (rd_reg_ok s d1 VERSION Hi) as (d2 & E2 & S2 & V2). rewrite (load_vio VERSION d1) in E2. cbn [negb Z.eqb Pos.eqb]. rewrite (bind_ok _ _ _ _ _ E2).
  destruct (rd_reg_ok s d2 DEVICE_ID Hi) as (d3 & E3 & S3 & V3). rewrite (load_vio DEVICE_ID d2) in E3. cbn [negb Z.eqb Pos.eqb]. rewrite (bind_ok _ _ _ _ _ E3).
  destruct (rd_reg_ok s d3 VENDOR_ID Hi) as (d4 & E4 & S4 & V4). rewrite (load_vio VENDOR_ID d3) in E4. cbn [negb Z.eqb Pos.eqb]. rewrite (bind_ok _ _ _ _ _ E4).
  exists d4. split; [done|]. split; [eauto using same_but_vio_trans|congruence].
Qed.

(** What the driver asks for. *)
Definition driver_features : Z := foldr without (vio_offered (D := D)) [RING_F_INDIRECT_DESC; RING_F_EVENT_IDX; F_ANY_LAYOUT; BLK_F_MQ; BLK_F_CONFIG_WCE; BLK_F_SCSI; BLK_F_RO].

Lemma without_u32 f x : is_u32 x -> is_u32 (without f x).
Proof.
  unfold is_u32, without. intros Hx. split; [apply Z.land_nonneg; lia|]. destruct (Z.eq_dec x 0) as [-> |]; [now rewrite Z.land_0_l|].
  destruct (Z.le_gt_cases (Z.land x (u64 (Z.lnot (Z.shiftl 1 (VIRTIO f))))) 0); [lia|]. apply Z.log2_lt_pow2; [done|].
  pose proof (Z.log2_land x (u64 (Z.lnot (Z.shiftl 1 (VIRTIO f)))) ltac:(lia) ltac:(apply u64_range)). assert (Z.log2 x < 32) by (apply Z.log2_lt_pow2; lia). lia.
Qed.

Lemma driver_features_u32 : is_u32 driver_features.
Proof. unfold driver_features. cbn [foldr]. do 7 apply without_u32. apply vio_offered_u32. Qed.

Lemma virtio_negotiate_ok s d : io_ready s -> exists d', virtio_negotiate (set_dev d s) = Ok 11 (set_dev d' s) /\ same_but_vio d d' /\
  vi_status (vio d') = 11 /\ vi_features (vio d') = driver_features /\ vi_ready (vio d') = 0.
Proof.
  intros Hi. unfold virtio_negotiate.
  destruct (wr_reg_ok s d STATUS 0 0 Hi eq_refl) as [E1 S1]. rewrite (bind_ok _ _ _ _ _ E1). destruct (reset_vio d) as [V1 R1].
  set (d1 := dev_store _ _ _ d) in *. change (Z.lor 0 S_ACKNOWLEDGE) with 1. change (Z.lor 1 S_DRIVER) with 3. change (Z.lor 3 S_FEATURES_OK) with 11.
  destruct (wr_reg_ok s d1 STATUS 1 1 Hi eq_refl) as [E2 S2]. rewrite (bind_ok _ _ _ _ _ E2).
  pose proof (store_status 1 d1 ltac:(lia) ltac:(now rewrite V1) ltac:(done)) as V2. set (d2 := dev_store _ _ _ d1) in *.
  destruct (wr_reg_ok s d2 STATUS 3 3 Hi eq_refl) as [E3 S3]. rewrite (bind_ok _ _ _ _ _ E3).
  pose proof (store_status 3 d2 ltac:(lia) ltac:(now rewrite V2) ltac:(done)) as V3. set (d3 := dev_store _ _ _ d2) in *.
  destruct (rd_reg_ok s d3 DEVICE_FEATURES Hi) as (d4 & E4 & S4 & V4). rewrite (load_vio DEVICE_FEATURES d3) in E4. rewrite (bind_ok _ _ _ _ _ E4).
  match goal with |- context [wr_reg DRIVER_FEATURES ?x] => change x with driver_features end. pose proof driver_features_u32 as Hf.
  destruct (wr_reg_ok s d4 DRIVER_FEATURES driver_features driver_features Hi) as [E5 S5]; [now apply Z.mod_small|]. rewrite (bind_ok _ _ _ _ _ E5).
  pose proof (store_features driver_features d4 Hf ltac:(now rewrite V4, V3) ltac:(now rewrite V4, V3)) as V5. set (d5 := dev_store _ _ _ d4) in *.
  destruct (wr_reg_ok s d5 STATUS 11 11 Hi eq_refl) as [E6 S6]. rewrite (bind_ok _ _ _ _ _ E6).
  pose proof (store_status 11 d5 ltac:(lia) ltac:(now rewrite V5, V4, V3) ltac:(intros _; right; rewrite V5; exact vio_agrees)) as V6. set (d6 := dev_store _ _ _ d5) in *.
  destruct (rd_reg_ok s d6 STATUS Hi) as (d7 & E7 & S7 & V7). rewrite (load_vio STATUS d6), V6 in E7. rewrite (bind_ok _ _ _ _ _ E7).
  exists d7. split; [done|]. split; [eauto 10 using same_but_vio_trans|]. rewrite V7, V6, V5, V4, V3, V2. done.
Qed.

(** ** Pages for the queue, with paging on *)

(** The hart runs on the page table [T], next to the free pages [F]. *)
Record on_table s (root : Z) (T : ptree) (F : gset Z) : Prop := OnTable {
  ot_mode : h_mode (the_hart s) = SMode;
  ot_satp : h_reg (the_hart s) Satp = MAKE_SATP root;
  ot_vm : vm_inv (b_k s) root T F;
  ot_io : io_ready s;
}.

(** Memory changes but in the tables. *)
Lemma on_table_mem s root T F k F' : on_table s root T F -> pa_inv k F' -> F' ⊆ F -> (forall p a, T !! p = Some a -> same_bytes (mem_of (b_k s)) (mem_of k) a PGSIZE) ->
  on_table (set_kern k s) root T F'.
Proof.
  intros [H1 H2 [A1 A2 A3] H4] Hi HF Hs. destruct (table_same (St := K) _ (mem_of k) _ _ A2 Hs) as [A2' Hl].
  split; [done|done| |].
  - split; [done|exact A2'|]. intros p a Hp. pose proof (A3 p a Hp). set_solver.
  - intros acc va Ha Hd. specialize (H4 acc va Ha Hd). revert H4. unfold the_hart in *. cbn [set_kern b_k b_hart b_cpu] in *. rewrite H1, H2.
    rewrite !(translate_table (St := K) _ _ T) by done. now rewrite Hl.
Qed.

(** Nothing but memory and the free list changes. *)
Inductive by_pages (k : K) : K -> Prop :=
  | by_refl : by_pages k k
  | by_mem m k' : by_pages k k' -> by_pages k (set_mem m k')
  | by_kalloc k' a k'' : by_pages k k' -> pa_kalloc k' = Ok a k'' -> by_pages k k''.

Lemma by_trans k k1 k2 : by_pages k k1 -> by_pages k1 k2 -> by_pages k k2.
Proof. induction 2; [done|now constructor|eapply by_kalloc; eauto]. Qed.

Lemma kalloc_table s root T F : on_table s root T F -> F ≠ ∅ -> exists p k, kern pa_kalloc s = Ok p (set_kern k s) /\ p ∈ F /\
  valid_page p /\ (forall q, T !! q <> Some p) /\ on_table (set_kern k s) root T (F ∖ {[p]}) /\ frame_bytes (mem_of (b_k s)) (mem_of k) p PGSIZE /\ by_pages (b_k s) k.
Proof.
  intros Ho HF. pose proof Ho as [H1 H2 [A1 A2 A3] H4]. destruct (pa_kalloc_some (b_k s) F A1 HF) as (p & k & E & Hp & Hi & Hf).
  pose proof (pa_free_valid _ _ p A1 Hp) as Hv. assert (forall q, T !! q <> Some p) as Hq by (intros q Hq; exact (A3 q p Hq Hp)).
  exists p, k. split; [unfold kern; now rewrite E|]. split; [done|]. split; [done|]. split; [done|]. split; [|split; [done|exact (by_kalloc _ _ _ _ (by_refl _) E)]].
  apply (on_table_mem _ _ _ F); [done|done|set_solver|]. intros q a Ha. apply (page_frame _ _ p); [done|exact (pt_page _ _ _ A2 q a Ha)| |done].
  intros ->. exact (Hq q Ha).
Qed.

Lemma zero_table s root T F p : on_table s root T F -> valid_page p -> (p ∉ F) -> (forall q, T !! q <> Some p) ->
  exists k, kern (do_memset p 0 PGSIZE) s = Ok tt (set_kern k s) /\ on_table (set_kern k s) root T F /\
    frame_bytes (mem_of (b_k s)) (mem_of k) p PGSIZE /\ (forall x, p <= x < p + PGSIZE -> rd (mem_of k) x = 0) /\ by_pages (b_k s) k.
Proof.
  intros Ho Hv Hp Hq. pose proof Ho as [H1 H2 [A1 A2 A3] H4].
  assert (frame_bytes (mem_of (b_k s)) (memset (mem_of (b_k s)) p 0 PGSIZE) p PGSIZE) as Hf by (intros x Hx; apply memset_frame; [unfold PGSIZE; lia|done]).
  exists (set_mem (memset (mem_of (b_k s)) p 0 PGSIZE) (b_k s)). rewrite mem_set_mem. split; [done|]. split; [|split; [done|split; [|apply by_mem, by_refl]]].
  - apply (on_table_mem _ _ _ F); [done| |done|].
    + apply pa_set_mem; [done|]. intros q HqF. apply (page_frame _ _ p); [done|exact (pa_free_valid _ _ _ A1 HqF)| |done]. intros ->. done.
    + rewrite mem_set_mem. intros q a Ha. apply (page_frame _ _ p); [done|exact (pt_page _ _ _ A2 q a Ha)| |done]. intros ->. exact (Hq q Ha).
  - intros x Hx. rewrite memset_in by (done || (unfold PGSIZE; lia)). done.
Qed.

(** The queue may be set up. *)
Definition queue_open (v : vio_regs) : Prop := vi_sel v = 0 /\ vi_ready v = 0 /\ Z.testbit (vi_status v) 3 = true.

Lemma queue_write_ok s d r v w q : io_ready s -> v mod 2^32 = w -> queue_reg r = true -> vio d = q -> queue_open q -> (r = QUEUE_NUM -> 0 < w <= vio_max (D := D)) ->
  exists d', wr_reg r v (set_dev d s) = Ok tt (set_dev d' s) /\ same_but_vio d d' /\ vio d' = vi_queue r w q.
Proof.
  intros Hi Hw Hr <- (O1 & O2 & O3) Hn. destruct (wr_reg_ok s d r v w Hi Hw) as [E S]. eexists. split; [exact E|]. split; [exact S|].
  apply store_queue; try done. subst w. unfold is_u32. apply Z.mod_pos_bound. done.
Qed.

Definition halves (a : Z) : Z * Z := (a mod 2^32, Z.shiftr a 32 mod 2^32).

(** The queue with its three pages. *)
Definition queue_ready (desc avail used : Z) (v : vio_regs) : vio_regs :=
  Vio (vi_status v) (vi_features v) 0 1 NUM (halves desc) (halves avail) (halves used).

(** The writes after the pages have been taken. *)
Lemma queue_writes_ok s d desc avail used : io_ready s -> queue_open (vio d) -> exists d', (
    wr_reg QUEUE_NUM NUM;;
    wr_reg QUEUE_DESC_LOW desc;;
    wr_reg QUEUE_DESC_HIGH (Z.shiftr desc 32);;
    wr_reg DRIVER_DESC_LOW avail;;
    wr_reg DRIVER_DESC_HIGH (Z.shiftr avail 32);;
    wr_reg DEVICE_DESC_LOW used;;
    wr_reg DEVICE_DESC_HIGH (Z.shiftr used 32);;
    wr_reg QUEUE_READY 0x1) (set_dev d s) = Ok tt (set_dev d' s) /\ same_but_vio d d' /\ vio d' = queue_ready desc avail used (vio d).
Proof.
  intros Hi (O1 & O2 & O3).
  destruct (queue_write_ok s d QUEUE_NUM NUM NUM _ Hi eq_refl eq_refl eq_refl) as (d1 & E1 & S1 & V1); [done|intros _; pose proof vio_max_ok; unfold NUM in *; lia|]. rewrite (bind_ok _ _ _ _ _ E1).
  destruct (queue_write_ok s d1 QUEUE_DESC_LOW desc _ _ Hi eq_refl eq_refl V1) as (d2 & E2 & S2 & V2); [done..|]. rewrite (bind_ok _ _ _ _ _ E2).
  destruct (queue_write_ok s d2 QUEUE_DESC_HIGH (Z.shiftr desc 32) _ _ Hi eq_refl eq_refl V2) as (d3 & E3 & S3 & V3); [done..|]. rewrite (bind_ok _ _ _ _ _ E3).
  destruct (queue_write_ok s d3 DRIVER_DESC_LOW avail _ _ Hi eq_refl eq_refl V3) as (d4 & E4 & S4 & V4); [done..|]. rewrite (bind_ok _ _ _ _ _ E4).
  destruct (queue_write_ok s d4 DRIVER_DESC_HIGH (Z.shiftr avail 32) _ _ Hi eq_refl eq_refl V4) as (d5 & E5 & S5 & V5); [done..|]. rewrite (bind_ok _ _ _ _ _ E5).
  destruct (queue_write_ok s d5 DEVICE_DESC_LOW used _ _ Hi eq_refl eq_refl V5) as (d6 & E6 & S6 & V6); [done..|]. rewrite (bind_ok _ _ _ _ _ E6).
  destruct (queue_write_ok s d6 DEVICE_DESC_HIGH (Z.shiftr used 32) _ _ Hi eq_refl eq_refl V6) as (d7 & E7 & S7 & V7); [done..|]. rewrite (bind_ok _ _ _ _ _ E7).
  destruct (queue_write_ok s d7 QUEUE_READY 1 1 _ Hi eq_refl eq_refl V7) as (d8 & E8 & S8 & V8); [done..|].
  exists d8. split; [exact E8|]. split; [eauto 12 using same_but_vio_trans|]. rewrite V8. cbn. unfold queue_ready, halves. now rewrite O1.
Qed.

Lemma on_table_dev s root T F d : on_table s root T F -> on_table (set_dev d s) root T F.
Proof. intros []. now split. Qed.

Lemma on_table_disk s root T F q : on_table s root T F -> on_table (set_disk q s) root T F.
Proof. intros []. now split. Qed.

(** A byte outside the pages that were free. *)
Definition kept (F : gset Z) (k k' : K) : Prop := by_pages k k' /\ forall x, (forall q, q ∈ F -> x < q \/ q + PGSIZE <= x) -> rd (mem_of k') x = rd (mem_of k) x.

Lemma kept_frame F k k' p : p ∈ F -> frame_bytes (mem_of k) (mem_of k') p PGSIZE -> by_pages k k' -> kept F k k'.
Proof. intros Hp Hf Hb. split; [done|]. intros x Hx. apply Hf. specialize (Hx p Hp). lia. Qed.

Lemma pages_kept_trans F k k1 k2 : kept F k k1 -> kept F k1 k2 -> kept F k k2.
Proof. intros [B1 H1] [B2 H2]. split; [eauto using by_trans|]. intros x Hx. now rewrite H2, H1. Qed.

Definition zeroed (k : K) (p : Z) : Prop := forall x, p <= x < p + PGSIZE -> rd (mem_of k) x = 0.

Lemma zeroed_frame k k' p q : valid_page p -> valid_page q -> q <> p -> frame_bytes (mem_of k) (mem_of k') p PGSIZE -> zeroed k q -> zeroed k' q.
Proof. intros Hp Hq Hne Hf Hz x Hx. pose proof (vpage_apart p q Hp Hq ltac:(done)). rewrite Hf by lia. now apply Hz. Qed.

(** Three pages, allocated and cleared. *)
Lemma three_pages s root T F : on_table s root T F -> (3 <= size F)%nat -> exists p1 p2 p3 k1 k2 k3 k,
  kern pa_kalloc s = Ok p1 (set_kern k1 s) /\ kern pa_kalloc (set_kern k1 s) = Ok p2 (set_kern k2 s) /\ kern pa_kalloc (set_kern k2 s) = Ok p3 (set_kern k3 s) /\
  (forall q (rest : M Bd unit), (kern (do_memset p1 0 PGSIZE);; kern (do_memset p2 0 PGSIZE);; kern (do_memset p3 0 PGSIZE);; rest) (set_disk q (set_kern k3 s)) =
    rest (set_disk q (set_kern k s))) /\
  NoDup [p1; p2; p3] /\ Forall (fun p => p ∈ F /\ 0 < p /\ valid_page p /\ zeroed k p) [p1; p2; p3] /\ on_table (set_kern k s) root T (F ∖ {[p1; p2; p3]}) /\ kept F (b_k s) k.
Proof.
  intros Ho Hn. assert (forall X : gset Z, (1 <= size X)%nat -> X ≠ ∅) as Hne by (intros X HX ->; rewrite size_empty in HX; lia).
  assert (forall (X : gset Z) p, p ∈ X -> size (X ∖ {[p]}) = (size X - 1)%nat) as Hsz by (intros X p Hp; rewrite size_difference, size_singleton by set_solver; done).
  destruct (kalloc_table s root T F Ho) as (p1 & k1 & E1 & I1 & V1 & Q1 & O1 & F1 & B1); [apply Hne; lia|].
  destruct (kalloc_table _ root T _ O1) as (p2 & k2 & E2 & I2 & V2 & Q2 & O2 & F2 & B2); [apply Hne; rewrite Hsz by done; lia|].
  destruct (kalloc_table _ root T _ O2) as (p3 & k3 & E3 & I3 & V3 & Q3 & O3 & F3 & B3); [apply Hne; rewrite !Hsz by done; lia|].
  destruct (zero_table _ root T _ p1 O3 V1) as (k4 & E4 & O4 & F4 & Z1 & B4); [set_solver|done|].
  destruct (zero_table _ root T _ p2 O4 V2) as (k5 & E5 & O5 & F5 & Z2 & B5); [set_solver|done|].
  destruct (zero_table _ root T _ p3 O5 V3) as (k6 & E6 & O6 & F6 & Z3 & B6); [set_solver|done|].
  cbn [b_k set_kern] in F2, F3, F4, F5, F6, B2, B3, B4, B5, B6. assert (p2 <> p1 /\ p3 <> p1 /\ p3 <> p2) as (N1 & N2 & N3) by set_solver.
  exists p1, p2, p3, k1, k2, k3, k6. split; [exact E1|]. split; [exact E2|]. split; [exact E3|]. split; [|split; [|split; [|split]]].
  - intros q rest. unfold kern in *. cbn [set_disk set_kern b_k] in *. unfold mbind, M_bind. cbn [set_disk set_kern b_k do_memset modify] in *.
    injection E4 as <-. injection E5 as <-. injection E6 as <-. done.
  - repeat constructor; set_solver.
  - pose proof (vpage_pos p1 V1). pose proof (vpage_pos p2 V2). pose proof (vpage_pos p3 V3).
    repeat (apply Forall_cons_2 || apply Forall_nil_2); (split; [set_solver|split; [done|split; [done|]]]).
    + apply (zeroed_frame k5 k6 p3); [done|done|done|done|]. apply (zeroed_frame k4 k5 p2); done.
    + apply (zeroed_frame k5 k6 p3); done.
    + done.
  - replace (F ∖ {[p1; p2; p3]}) with (F ∖ {[p1]} ∖ {[p2]} ∖ {[p3]}) by set_solver. exact O6.
  - assert (p1 ∈ F /\ p2 ∈ F /\ p3 ∈ F) as (H1 & H2 & H3) by set_solver. do 5 (eapply pages_kept_trans; [eapply kept_frame; [|eassumption|eassumption]; assumption|]). eapply kept_frame; [|eassumption|eassumption]; assumption.
Qed.

Lemma virtio_queue_ok s d root T F : on_table s root T F -> (3 <= size F)%nat -> Z.testbit (vi_status (vio d)) 3 = true -> vi_ready (vio d) = 0 ->
  exists d' k p1 p2 p3, virtio_queue (set_dev d s) = Ok tt (set_disk (VQueue p1 p2 p3 (q_free (b_disk s))) (set_kern k (set_dev d' s))) /\
    same_but_vio d d' /\ vio d' = queue_ready p1 p2 p3 (vio d) /\ NoDup [p1; p2; p3] /\ Forall (fun p => p ∈ F /\ 0 < p /\ valid_page p /\ zeroed k p) [p1; p2; p3] /\
    on_table (set_kern k s) root T (F ∖ {[p1; p2; p3]}) /\ kept F (b_k s) k.
Proof.
  intros Ho Hn Hs Hr. pose proof (ot_io _ _ _ _ Ho) as Hi. unfold virtio_queue.
  destruct (wr_reg_ok s d QUEUE_SEL 0 0 Hi eq_refl) as [E1 S1]. rewrite (bind_ok _ _ _ _ _ E1). pose proof (store_sel 0 d ltac:(done)) as V1. set (d1 := dev_store _ _ _ d) in *.
  destruct (rd_reg_ok s d1 QUEUE_READY Hi) as (d2 & E2 & S2 & V2). rewrite (load_vio QUEUE_READY d1), V1 in E2 by now rewrite V1. cbn [vi_ready] in E2. rewrite Hr in E2.
  rewrite (bind_ok _ _ _ _ _ E2). cbn [truthy Z.eqb negb].
  destruct (rd_reg_ok s d2 QUEUE_NUM_MAX Hi) as (d3 & E3 & S3 & V3). rewrite (load_vio QUEUE_NUM_MAX d2) in E3 by now rewrite V2, V1. rewrite (bind_ok _ _ _ _ _ E3).
  pose proof vio_max_ok as Hm. unfold NUM in Hm |- * at 1. rewrite (proj2 (Z.eqb_neq _ 0)), (proj2 (Z.ltb_ge _ 8)) by lia.
  destruct (three_pages _ root T F (on_table_dev s root T F d3 Ho) Hn) as (p1 & p2 & p3 & k1 & k2 & k3 & k & K1 & K2 & K3 & K4 & Hd & Hp & Hot & Hk).
  rewrite (bind_ok _ _ _ _ _ K1), (bind_ok _ _ _ _ _ K2), (bind_ok _ _ _ _ _ K3). erewrite bind_ok by reflexivity.
  assert ((p1 =? 0) || (p2 =? 0) || (p3 =? 0) = false) as ->.
  { pose proof (Forall_cons_1 _ _ _ Hp) as [(_ & ? & _) Hp2]. pose proof (Forall_cons_1 _ _ _ Hp2) as [(_ & ? & _) Hp3].
    pose proof (Forall_cons_1 _ _ _ Hp3) as [(_ & ? & _) _]. lia. }
  rewrite K4. assert (on_table (set_kern k s) root T (F ∖ {[p1; p2; p3]})) as Ho' by (destruct Hot; now split).
  destruct (queue_writes_ok (set_disk (VQueue p1 p2 p3 (q_free (b_disk s))) (set_kern k s)) d3 p1 p2 p3) as (d4 & E4 & S4 & V4);
    [exact (ot_io _ _ _ _ (on_table_disk _ _ _ _ _ Ho'))|unfold queue_open; rewrite V3, V2, V1; done|].
  exists d4, k, p1, p2, p3. split; [exact E4|]. split; [eauto using same_but_vio_trans|]. split; [rewrite V4, V3, V2, V1; done|]. done.
Qed.

(** What [virtio_disk_init] leaves: the driver and the device agree, and queue 0
    has three clear pages of its own. *)
Record disk_ready (F : gset Z) (k : K) (d : D) (q : vqueue) : Prop := DiskReady {
  dr_vio : vio d = Vio 15 driver_features 0 1 NUM (halves (q_desc q)) (halves (q_avail q)) (halves (q_used q));
  dr_nodup : NoDup [q_desc q; q_avail q; q_used q];
  dr_pages : Forall (fun p => p ∈ F /\ 0 < p /\ valid_page p /\ zeroed k p) [q_desc q; q_avail q; q_used q];
  dr_free i : 0 <= i < NUM -> q_free q i = 1;
}.

Lemma free_all s : exists q, for_loop (Z.to_nat NUM) 0 (fun i => modify (fun s => let q := b_disk s in set_disk (VQueue (q_desc q) (q_avail q) (q_used q) (<[i := 1]> (q_free q))) s)) s
    = Ok tt (set_disk q s) /\ q_desc q = q_desc (b_disk s) /\ q_avail q = q_avail (b_disk s) /\ q_used q = q_used (b_disk s) /\ forall i, 0 <= i < NUM -> q_free q i = 1.
Proof.
  eexists. split; [reflexivity|]. split; [done|]. split; [done|]. split; [done|]. intros i Hi. unfold NUM in Hi.
  assert (i = 0 \/ i = 1 \/ i = 2 \/ i = 3 \/ i = 4 \/ i = 5 \/ i = 6 \/ i = 7) as Hi' by lia. cbn [q_free]. naive_solver.
Qed.

Lemma virtio_disk_init_ok s root T F : on_table s root T F -> (3 <= size F)%nat -> exists d k q, virtio_disk_init s = Ok tt (set_disk q (set_kern k (set_dev d s))) /\
  same_but_vio (b_dev s) d /\ disk_ready F k d q /\ on_table (set_kern k s) root T (F ∖ {[q_desc q; q_avail q; q_used q]}) /\ kept F (b_k s) k.
Proof.
  intros Ho Hn. pose proof (ot_io _ _ _ _ Ho) as Hi. unfold virtio_disk_init.
  destruct (virtio_probe_ok s (b_dev s) Hi) as (d1 & E1 & S1 & V1). rewrite set_dev_same in E1. rewrite (bind_ok _ _ _ _ _ E1). cbn [negb].
  destruct (virtio_negotiate_ok s d1 Hi) as (d2 & E2 & S2 & V2 & V2' & V2''). rewrite (bind_ok _ _ _ _ _ E2).
  destruct (virtio_queue_ok s d2 root T F Ho Hn) as (d3 & k & p1 & p2 & p3 & E3 & S3 & V3 & Hd & Hp & Hot & Hk); [now rewrite V2|done|]. rewrite (bind_ok _ _ _ _ _ E3).
  set (s3 := set_disk _ _). destruct (free_all s3) as (q & E4 & Q1 & Q2 & Q3 & Qf). rewrite (bind_ok _ _ _ _ _ E4). cbn in Q1, Q2, Q3.
  destruct (wr_reg_ok (set_disk q (set_kern k s)) d3 STATUS 15 15) as [E5 S5]; [exact (ot_io _ _ _ _ (on_table_disk _ _ _ _ _ Hot))|done|].
  change (Z.lor 11 S_DRIVER_OK) with 15. eexists _, k, q. split; [exact E5|]. split; [eauto using same_but_vio_trans|]. rewrite <- Q1, <- Q2, <- Q3 in *.
  split; [|done]. split; [|done|done|done].
  rewrite store_status; [rewrite V3; unfold queue_ready, vi_set_status; cbn; now rewrite V2'|lia|now rewrite V3; cbn; rewrite V2|intros _; left; rewrite V3; cbn; now rewrite V2].
Qed.
End thms.
