(* ===== verification/Boot.v ===== *)
(** * Start-up: start.c and main.c

    A hart comes from entry.S to [start] in machine mode and from there to [main] in
    supervisor mode.  Hart 0 initialises the kernel and the devices while the others
    wait for [started]; then they turn on paging and interrupts for themselves. *)

From stdpp Require Import base gmap list numbers functions strings relations.
From Stdlib Require Import ZifyBool.
From S2P Require Import Prelude Mem Trapframe Block StringC Riscv Csr Kalloc Vm PageTable VmSpec Spinlock Locks Bio Bcache BcacheSpec Log BlockIO Fs FsTable UserVm Pipe File Proc ProcThms Trap Asm AsmSpec PageMap Trampoline Initcode KvmThms UserinitThms Printf Virtio Devices DeviceThms.

Open Scope Z_scope.

Local Abbreviation H := (M hart).

(** ** start.c *)

Definition timerinit : H unit :=
  x ← r_mie; w_mie (Z.lor x MIE_STIE);;
  x ← r_menvcfg; w_menvcfg (Z.lor x (Z.shiftl 1 63));;
  x ← r_mcounteren; w_mcounteren (Z.lor x 2);;
  x ← r_time; w_stimecmp (x + 1000000).

(** [main] is the address of the function. *)
Definition start (main : Z) : H unit :=
  x ← r_mstatus;
  let x := Z.land x (u64 (Z.lnot MSTATUS_MPP_MASK)) in
  let x := Z.lor x MSTATUS_MPP_S in
  w_mstatus x;;
  w_mepc main;;
  w_satp 0;;
  w_medeleg 0xffff;;
  w_mideleg 0xffff;;
  x ← r_sie; w_sie (Z.lor (Z.lor (Z.lor x SIE_SEIE) SIE_STIE) SIE_SSIE);;
  w_pmpaddr0 0x3fffffffffffff;;
  w_pmpcfg0 0xf;;
  timerinit;;
  x ← r_mhartid;
  let id := i32 x in
  w_tp id;;
  mret_.

(** [main] is entered in supervisor mode with paging off, the hart's number in
    [tp], interrupts and exceptions delegated, and the timer set. *)
Definition booted (main : Z) (h h' : hart) : Prop :=
  h_mode h' = SMode /\ h_pc h' = main /\ h_reg h' Satp = 0 /\ h_reg h' (X Tp) = h_reg h Mhartid /\
  h_reg h' Medeleg = 0xffff /\ h_reg h' Mideleg = 0xffff /\ h_reg h' Stimecmp = u64 (h_reg h Time + 1000000) /\
  Z.testbit (h_reg h' Mie) 5 = true /\ Z.testbit (h_reg h' Menvcfg) 63 = true /\ Z.testbit (h_reg h' Mcounteren) 1 = true /\
  Forall (fun i => Z.testbit (h_reg h' Sie) i = true) [9; 5; 1] /\
  h_reg h' Sstatus = h_reg h Sstatus /\ h_reg h' Stvec = h_reg h Stvec.

Lemma mpp_set x : Z.land (Z.shiftr (u64 (Z.lor (Z.land x (u64 (Z.lnot MSTATUS_MPP_MASK))) MSTATUS_MPP_S)) 11) 3 = 1.
Proof.
  apply Z.bits_inj'. intros i Hi. rewrite Z.land_spec, Z.shiftr_spec by done. change 3 with (Z.ones 2). rewrite Z.testbit_ones_nonneg by lia.
  destruct (Z.ltb_spec i 2) as [Hlt|Hge]; [|rewrite andb_false_r; change 1 with (Z.ones 1); rewrite Z.testbit_ones_nonneg by lia; symmetry; apply Z.ltb_ge; lia].
  rewrite andb_true_r. unfold u64. rewrite Z.mod_pow2_bits_low by lia. rewrite Z.lor_spec, Z.land_spec.
  assert (i = 0 \/ i = 1) as [->| ->] by lia; [now rewrite orb_true_r|]. now rewrite andb_false_r.
Qed.

Lemma u64_bit x i : 0 <= i < 64 -> Z.testbit (u64 x) i = Z.testbit x i.
Proof. intros Hi. unfold u64. now rewrite Z.mod_pow2_bits_low by lia. Qed.

Ltac reg_step := erewrite bind_ok by reflexivity; cbv beta zeta; cbn [h_reg h_mode h_pc].

Lemma timerinit_ok h : exists h', timerinit h = Ok tt h' /\ h_mode h' = h_mode h /\ h_pc h' = h_pc h /\
  h_reg h' = <[Stimecmp := u64 (h_reg h Time + 1000000)]> (<[Mcounteren := u64 (Z.lor (h_reg h Mcounteren) 2)]>
    (<[Menvcfg := u64 (Z.lor (h_reg h Menvcfg) (Z.shiftl 1 63))]> (<[Mie := u64 (Z.lor (h_reg h Mie) MIE_STIE)]> (h_reg h)))).
Proof. unfold timerinit. do 7 reg_step. unfold w_stimecmp, csrw, modify. eexists. split; [reflexivity|]. done. Qed.

Lemma start_ok main h : is_u64 main -> 0 <= h_reg h Mhartid < 2^31 -> exists h', start main h = Ok tt h' /\ booted main h h'.
Proof.
  intros Hm Hid. unfold start. do 10 reg_step.
  match goal with |- context [(timerinit ≫= _) ?x] => destruct (timerinit_ok x) as (h1 & H1 & M1 & P1 & R1) end.
  rewrite (bind_ok _ _ _ _ _ H1). do 2 reg_step. unfold mret_, modify. eexists. split; [reflexivity|]. unfold booted. cbn [h_reg h_mode h_pc]. rewrite R1. cbn [h_reg].
  match goal with |- context [Z.land (Z.shiftr (?f Mstatus) 11) 3] => set (g := f) end.
  assert (g Mstatus = u64 (Z.lor (Z.land (h_reg h Mstatus) (u64 (Z.lnot MSTATUS_MPP_MASK))) MSTATUS_MPP_S) /\ g Mepc = u64 main /\ g Satp = u64 0 /\
    g (X Tp) = u64 (i32 (h_reg h Mhartid)) /\ g Mie = u64 (Z.lor (h_reg h Mie) MIE_STIE) /\ g Stimecmp = u64 (h_reg h Time + 1000000) /\
    g Menvcfg = u64 (Z.lor (h_reg h Menvcfg) (Z.shiftl 1 63)) /\ g Mcounteren = u64 (Z.lor (h_reg h Mcounteren) 2) /\
    g Sie = u64 (Z.lor (Z.lor (Z.lor (h_reg h Sie) SIE_SEIE) SIE_STIE) SIE_SSIE) /\ g Medeleg = u64 0xffff /\ g Mideleg = u64 0xffff /\
    g Sstatus = h_reg h Sstatus /\ g Stvec = h_reg h Stvec) as (E1 & E2 & E3 & E4 & E5 & E6 & E7 & E8 & E9 & E10 & E11 & E12 & E13) by (repeat split; reflexivity).
  rewrite E1, E2, E3, E4, E5, E6, E7, E8, E9, E10, E11, E12, E13, mpp_set, i32_small, (u64_small main), (u64_small (h_reg h Mhartid)) by (done || unfold is_u64; lia).
  repeat (split; [reflexivity || (rewrite u64_bit by lia; rewrite Z.lor_spec; apply orb_true_r)|]).
  split; [|split; reflexivity]. repeat (apply Forall_cons; split; [rewrite u64_bit by lia; rewrite !Z.lor_spec; cbn; now rewrite ?orb_true_r|]). apply Forall_nil_2.
Qed.

(** ** main.c *)

Definition bytes (s : string) : list Z := map (fun a => Z.of_N (Ascii.N_of_ascii a)) (String.list_ascii_of_string s).

(** [kernel_pagetable], [pr.locking], which entries of [devsw] are connected, and
    what has been printed, next to the state of the process table. *)
Record kernel := Kernel {
  g_p : pst (lstate bstate) (uvm kstate);
  g_pagetable : Z;
  g_locking : Z;
  g_devsw : Z -> bool;
  g_out : list Z;
}.

Definition put_p (p : pst (lstate bstate) (uvm kstate)) (g : kernel) : kernel := Kernel p (g_pagetable g) (g_locking g) (g_devsw g) (g_out g).

Definition CONSOLE : Z := 1.

Section main.
(** As the linker lays out the kernel: the end of its memory and of its code, the
    trampoline, kernelvec.S, [forkret], the names of the processes, the strings
    "initcode" and "/", and the array [initcode]. *)
Context (kend : Z) (kend_pos : 0 < kend).
Context (etext trampoline kernelvec forkret_pc : Z) (name_addr : Z -> Z) (str_initcode str_root initcode : Z).
Context {D : Type} `{MM : Mmio D}.

#[local] Instance boot_pa : PageAllocator kstate := kmem_allocator kend.
#[local] Instance boot_ps : PageAllocatorSpec kstate := kmem_allocator_spec kend kend_pos.

#[local] Instance kernel_pages : PageAllocator kernel :=
  {| mem_of g := mem_of (uof (g_p g)); Kalloc.set_mem m g := put_p (put_u (Kalloc.set_mem m (uof (g_p g))) (g_p g)) g;
     pa_kalloc := fun g => match pa_kalloc (uof (g_p g)) with Ok a u => Ok a (put_p (put_u u (g_p g)) g) | Panic m => Panic m | Diverge => Diverge end;
     pa_kfree a := fun g => match pa_kfree a (uof (g_p g)) with Ok x u => Ok x (put_p (put_u u (g_p g)) g) | Panic m => Panic m | Diverge => Diverge end |}.

Local Abbreviation Bd := (board kernel D).

(** Calls into proc.c and below, into kalloc.c, fs.c and bio.c. *)
Definition procs {A} (c : M (pst (lstate bstate) (uvm kstate)) A) : M Bd A := kern (fun g =>
  match c (g_p g) with
  | Ok a p => Ok a (put_p p g)
  | Panic msg => Panic msg
  | Diverge => Diverge
  end).

Definition upd_kernel (f : kernel -> kernel) : M Bd unit := kern (modify f).

(** A number too long for the buffer of [printint] has no meaning; see
    Printf.v. *)
Definition printf (fmt : list Z) (args : list arg) : M Bd unit :=
  match kprintf fmt args with
  | Some o => upd_kernel (fun g => Kernel (g_p g) (g_pagetable g) (g_locking g) (g_devsw g) (g_out g ++ o))
  | None => diverge
  end.

Definition consoleinit : M Bd unit :=
  uartinit;;
  upd_kernel (fun g => Kernel (g_p g) (g_pagetable g) (g_locking g) (<[CONSOLE := true]> (g_devsw g)) (g_out g)).

Definition printfinit : M Bd unit :=
  upd_kernel (fun g => Kernel (g_p g) (g_pagetable g) 1 (g_devsw g) (g_out g)).

Definition kvminit : M Bd unit :=
  pt ← procs (kvmmake trampoline etext);
  upd_kernel (fun g => Kernel (g_p g) pt (g_locking g) (g_devsw g) (g_out g)).

(** There is no TLB: [sfence_vma] has nothing to do. *)
Definition kvminithart : M Bd unit :=
  pt ← kern (gets g_pagetable);
  on_hart (w_satp (MAKE_SATP pt)).

(** [initlock] of a lock that nobody holds. *)
Definition trapinit : M Bd unit := mret tt.
Definition fileinit : M Bd unit := mret tt.

Definition trapinithart : M Bd unit := on_hart (w_stvec kernelvec).

(** What a statement of [main] does: call a function, or set [started]. *)
Inductive stmt := Call (c : M Bd unit) | Started.

(** The branch of hart 0. *)
Definition main_boot : list stmt := [
  Call consoleinit;
  Call printfinit;
  Call (printf [10] []);
  Call (printf (bytes "xv6 kernel is booting" ++ [10]) []);
  Call (printf [10] []);
  Call (procs (vm (on_st (kinit kend))));
  Call kvminit;
  Call kvminithart;
  Call (procs procinit);
  Call trapinit;
  Call trapinithart;
  Call plicinit;
  Call plicinithart;
  Call (procs (kop (fs (io (bio binit)))));
  Call (procs (kop (fs iinit)));
  Call fileinit;
  Call virtio_disk_init;
  Call (procs (userinit trampoline forkret_pc name_addr str_initcode str_root initcode));
  Started].

(** The other harts, from when they see [started]. *)
Definition main_join : list stmt := [
  Call (h ← cpuid; printf (bytes "hart %d starting" ++ [10]) [ANum h]);
  Call kvminithart;
  Call trapinithart;
  Call plicinithart].

(** Where a hart is in [main]: at the test of [cpuid], in one of the branches,
    waiting, in [scheduler], or stopped by a panic. *)
Inductive place := AtEntry | Booting (n : nat) | Waiting | Joining (n : nat) | Scheduling | Stopped (msg : string).

(** The harts, the variable [started], and the rest of the machine. *)
Record cfg := Cfg { c_b : Bd; c_started : Z; c_at : Z -> place }.

Definition goto (h : Z) (p : place) (c : cfg) : cfg := Cfg (c_b c) (c_started c) (<[h := p]> (c_at c)).

Definition on_cpu (h : Z) (b : Bd) : Bd := Board (b_k b) (Devices.b_dev b) (b_hart b) h (b_disk b).

Definition run_stmt (l : list stmt) (n : nat) (next : nat -> place) (h : Z) (c : cfg) : cfg :=
  match l !! n with
  | None => goto h Scheduling c
  | Some Started => Cfg (c_b c) 1 (<[h := next (S n)]> (c_at c))
  | Some (Call f) =>
      match f (on_cpu h (c_b c)) with
      | Ok _ b => Cfg b (c_started c) (<[h := next (S n)]> (c_at c))
      | Panic msg => goto h (Stopped msg) c
      | Diverge => goto h (Stopped "diverge") c
      end
  end.

(** A step of hart [h]. *)
Definition main_step (h : Z) (c : cfg) : cfg :=
  match c_at c h with
  | AtEntry =>
      match cpuid (on_cpu h (c_b c)) with
      | Ok id _ => goto h (if id =? 0 then Booting 0 else Waiting) c
      | _ => c
      end
  | Booting n => run_stmt main_boot n Booting h c
  | Waiting => if c_started c =? 0 then c else goto h (Joining 0) c
  | Joining n => run_stmt main_join n Joining h c
  | Scheduling | Stopped _ => c
  end.
End main.
