(* ===== verification/BootThms.v ===== *)
(** * What start-up achieves

    From the state in which [start] enters [main] on every hart: hart 0 brings up
    the kernel, the others join it, and nothing panics. *)

From stdpp Require Import base gmap list numbers functions strings relations.
From Stdlib Require Import ZifyBool.
From S2P Require Import Prelude Mem Trapframe Block StringC Riscv Csr Kalloc Vm PageTable VmSpec Spinlock Locks Bio Bcache BcacheSpec Log BlockIO Fs FsTable FsDemo UserVm Pipe File FileThms Proc ProcThms Trap Asm AsmSpec PageMap Trampoline Initcode KvmThms UserinitThms Printf Virtio Devices DeviceThms Boot.

Open Scope Z_scope.

Section boot.
Context (kend : Z) (kend_pos : 0 < kend).
Context (etext trampoline kernelvec forkret_pc : Z) (name_addr : Z -> Z) (str_initcode str_root initcode : Z).
Context {D : Type} `{MM : Mmio D} `{DV : !Devices D}.

#[local] Instance bt_pa : PageAllocator kstate := kmem_allocator kend.
#[local] Instance bt_ps : PageAllocatorSpec kstate := kmem_allocator_spec kend kend_pos.
#[local] Instance bt_kpa : PageAllocator kernel := kernel_pages kend.

Local Abbreviation P := (pst (lstate bstate) (uvm kstate)).
Local Abbreviation Bd := (board kernel D).
Implicit Types (g : kernel) (b : Bd) (d : D) (p : P) (u : uvm kstate).

Lemma put_u_put u u' p : put_u u (put_u u' p) = put_u u p.
Proof. done. Qed.

Lemma put_p_same g : put_p (g_p g) g = g.
Proof. now destruct g. Qed.

#[local] Instance bt_kps : PageAllocatorSpec kernel.
Proof.
  refine {| valid_page := valid_page (S := kstate); pa_inv := fun g F => pa_inv (uof (g_p g)) F |}.
  - apply valid_page_range.
  - done.
  - intros g. change (put_p (put_u (Kalloc.set_mem (mem_of (uof (g_p g))) (uof (g_p g))) (g_p g)) g = g). now rewrite set_mem_mem, put_u_same, put_p_same.
  - done.
  - intros g F q Hi Hq. exact (pa_free_valid (S := uvm kstate) (uof (g_p g)) F q Hi Hq).
  - intros g F m Hi Hs. exact (pa_set_mem (S := uvm kstate) (uof (g_p g)) F m Hi Hs).
  - intros g Hi. destruct (pa_kalloc_none (uof (g_p g)) Hi) as (u & E & Hi' & Hm). exists (put_p (put_u u (g_p g)) g). split; [|done]. cbn in *. now rewrite E.
  - intros g F Hi HF. destruct (pa_kalloc_some (uof (g_p g)) F Hi HF) as (q & u & E & Hq & Hi' & Hm). exists q, (put_p (put_u u (g_p g)) g). split; [|done]. cbn in *. now rewrite E.
  - intros g F q Hi Hv Hq. destruct (pa_kfree_ok (uof (g_p g)) F q Hi Hv Hq) as (u & E & Hi' & Hm). exists (put_p (put_u u (g_p g)) g). split; [|done]. cbn in *. now rewrite E.
Defined.

(** A page table of the one is one of the other. *)
Lemma pt_kernel (m : memory) (root : Z) (T : ptree) : pt_inv (St := uvm kstate) m root T -> pt_inv (St := kernel) m root T.
Proof. intros []. now split. Qed.

Lemma vm_kernel g (root : Z) (T : ptree) (F : gset Z) : vm_inv (uof (g_p g)) root T F -> vm_inv g root T F.
Proof. intros [A1 A2 A3]. split; [done|now apply pt_kernel|done]. Qed.

(** ** The image and the state at the entry of [main] *)

(** kernel.ld: code, the trampoline among it, data, and at least 200 pages of
    memory behind it. *)
Record layout : Prop := Layout {
  ly_end : kend + 202 * PGSIZE <= PHYSTOP;
  ly_etext : etext mod PGSIZE = 0 /\ KERNBASE < etext < PHYSTOP;
  ly_tramp : trampoline mod PGSIZE = 0 /\ KERNBASE <= trampoline /\ trampoline + PGSIZE <= etext;
  ly_vec : is_u64 kernelvec;
  ly_data : name_addr 0 + 16 <= kend /\ initcode + 52 <= kend /\ str_root + 2 <= kend;
  ly_name : disjoint (name_addr 0) 16 str_initcode 16 /\ disjoint (name_addr 0) 16 str_root 2;
}.

(** The data of the kernel as it is loaded: zero where it has no initial value. *)
Record loaded g : Prop := Loaded {
  ld_me : y_me (g_p g) = NULL;
  ld_pid : y_nextpid (g_p g) = 1;
  ld_procs i : 0 <= i < NPROC -> p_state (y_proc (g_p g) i) = UNUSED;
  ld_locks : locks (g_p g) = ∅;
  ld_inodes i : 0 <= i < NINODE -> i_ref (f_inode (k_fs (y_k (g_p g))) i) = 0;
  ld_free : k_freelist (uv_st (uof (g_p g))) = 0 /\ noff (k_cpu (uv_st (uof (g_p g)))) = 0;
  ld_bufs i : bs_buf (l_bc (f_io (k_fs (y_k (g_p g))))) i = zero_buf;
  ld_cache : bs_held (l_bc (f_io (k_fs (y_k (g_p g))))) = ∅ /\ bs_writes (l_bc (f_io (k_fs (y_k (g_p g))))) = [];
  ld_root : rd (mem_of g) str_root = slash /\ rd (mem_of g) (str_root + 1) = 0;
  ld_code i : 0 <= i < 52 -> rd (mem_of g) (initcode + i) = nth (Z.to_nat i) initcode_bytes 0;
}.

(** A hart that [start] has sent to [main]. *)
Record at_main (h : Z) (x : hart) : Prop := AtMain {
  am_mode : h_mode x = SMode;
  am_satp : h_reg x Satp = 0;
  am_tp : h_reg x (X Tp) = h;
}.

(** ** Calls of [main] *)

(** A call of hart [h] leaves the registers of the others alone. *)
Definition others (h : Z) b b' : Prop := forall h', h' <> h -> b_hart b' h' = b_hart b h'.

Inductive runs (h : Z) : list (stmt (D := D)) -> Bd -> Bd -> Prop :=
  | runs_nil b : runs h [] b b
  | runs_call f l b b1 b' : f (on_cpu h b) = Ok tt b1 -> others h b b1 -> runs h l b1 b' -> runs h (Call f :: l) b b'
  | runs_started l b b' : runs h l b b' -> runs h (Started :: l) b b'.

Lemma runs_app h l l' b b1 b' : runs h l b b1 -> runs h l' b1 b' -> runs h (l ++ l') b b'.
Proof. induction 1; intros Hr; [done|econstructor; eauto|constructor; eauto]. Qed.

Lemma runs_cpu h f l b b' : runs h (Call f :: l) (on_cpu h b) b' -> runs h (Call f :: l) b b'.
Proof. inversion 1; subst. eapply runs_call; eauto. Qed.

Lemma others_same h b b' : b_hart b' = b_hart b -> others h b b'.
Proof. intros E h' _. now rewrite E. Qed.

Lemma others_set h b b' x : b_hart b' = <[h := x]> (b_hart b) -> others h b b'.
Proof. intros E h' Hh. rewrite E. now apply fn_lookup_insert_ne. Qed.

Ltac oth := first [apply others_same; reflexivity|eapply others_set; reflexivity].

Lemma procs_ok {A} (c : M P A) b a p : c (g_p (b_k b)) = Ok a p -> procs c b = Ok a (set_kern (put_p p (b_k b)) b).
Proof. intros E. unfold procs, kern. now rewrite E. Qed.

(** Without paging all addresses are physical. *)
Lemma bare_io b : h_reg (the_hart b) Satp = 0 -> io_ready b.
Proof. intros E acc va _ _. rewrite E. unfold translate. now destruct (h_mode _). Qed.

Local Abbreviation boot_calls := (main_boot kend etext trampoline kernelvec forkret_pc name_addr str_initcode str_root initcode).
Local Abbreviation join_calls := (main_join kend kernelvec).

Definition mk p (pt : Z) (dv : Z -> bool) (out : list Z) d (f : Z -> hart) (q : vqueue) : Bd := Board (Kernel p pt 1 dv out) d f 0 q.

(** The part of the devices that a stage does not touch. *)
Definition same_plic d d' : Prop := plic_prio d' = plic_prio d /\ plic_enabled d' = plic_enabled d /\ plic_threshold d' = plic_threshold d.

(** Data below [kend]. *)
Definition data_kept (m m' : memory) : Prop := forall x, x < kend -> (x < name_addr 0 \/ name_addr 0 + 16 <= x) -> rd m' x = rd m x.

Lemma stage_console (b : Bd) : layout -> loaded (b_k b) -> b_cpu b = 0 -> at_main 0 (b_hart b 0) ->
  exists d k F dv out, runs 0 (take 6 boot_calls) b (mk (put_u (Uvm k (uv_pt (uof (g_p (b_k b))))) (g_p (b_k b))) (g_pagetable (b_k b)) dv out d (b_hart b) (b_disk b)) /\
    uart d = uart_ready /\ same_plic (Devices.b_dev b) d /\ dv CONSOLE = true /\
    out = g_out (b_k b) ++ [10] ++ bytes "xv6 kernel is booting" ++ [10; 10] /\
    pa_inv (Uvm k (uv_pt (uof (g_p (b_k b))))) F /\ (200 < size F)%nat /\ (forall x, x < kend -> rd (k_mem k) x = rd (mem_of (b_k b)) x).
Proof.
  intros [Y1 Y2 Y3 Y4 Y5 Y6] HL Hc HH. destruct b as [[p pt lk dv0 out0] d0 f c q]. cbn [b_cpu b_hart b_k g_p] in *. subst c.
  destruct (uartinit_ok (Board (Kernel p pt lk dv0 out0) d0 f 0 q)) as (d1 & E1 & U1 & S1); [apply bare_io; apply HH|].
  destruct (ld_free _ HL) as [L1 L2].
  destruct (kinit_room kend kend_pos (uv_st (uof p)) 200) as (k & fl & E2 & Hi & Hn & Hm); [done|done|lia|unfold PGSIZE in *; lia|].
  exists d1, k, (list_to_set fl), (<[CONSOLE := true]> dv0), (((out0 ++ [10]) ++ (bytes "xv6 kernel is booting" ++ [10])) ++ [10]). split.
  - cbn [take main_boot]. eapply runs_call; [unfold consoleinit; rewrite (bind_ok _ _ _ _ _ E1); reflexivity|oth|].
    eapply runs_call; [reflexivity|oth|]. eapply runs_call; [reflexivity|oth|]. eapply runs_call; [reflexivity|oth|]. eapply runs_call; [reflexivity|oth|].
    eapply runs_call; [|shelve|apply runs_nil]. etransitivity; [apply procs_ok|reflexivity]. cbn [b_k set_kern on_cpu g_p]. rewrite <- (put_u_same p) at 1. apply vm_ok. unfold on_st. rewrite E2. reflexivity.
    Unshelve. oth.
  - cbn [Devices.b_dev g_out g_pagetable b_k b_disk]. split; [exact U1|]. split; [destruct S1 as (_ & ? & ? & ?); done|]. split; [apply fn_lookup_insert|].
    split; [rewrite <- !app_assoc; reflexivity|]. split; [exists fl; done|]. split; [|exact Hm].
    rewrite size_list_to_set by exact (kinv_nodup _ _ _ Hi). lia.
Qed.

(** The kernel's page table is in memory, next to the free pages [F]. *)
Record kernel_table g (root : Z) (T : ptree) (F : gset Z) (stk : list Z) : Prop := KernelTable {
  kt_vm : vm_inv g root T F;
  kt_stk : length stk = Z.to_nat NPROC /\ NoDup stk;
  kt_map acc v : translate (mem_of g) SMode (MAKE_SATP root) acc v = space (kernel_map trampoline etext stk) acc v;
}.

Lemma device_space stk acc v : layout -> length stk = Z.to_nat NPROC -> acc <> Fetch -> device_addr v -> space (kernel_map trampoline etext stk) acc v = Some v.
Proof.
  intros [Y1 [Y2 Y2'] [Y3 Y3'] Y4 Y5 Y6] Hl Ha Hv. rewrite space_ram.
  2: done. 2: { unfold device_addr, in_range, PLIC, UART0, VIRTIO0, PGSIZE in Hv. change PHYSTOP with 0x88000000. lia. }
  unfold kernel_base, space, inside, device_addr, in_range, PLIC, UART0, VIRTIO0, PGSIZE, KERNBASE in *. cbn [r_va r_size r_pa r_perm]. change PHYSTOP with 0x88000000 in *. change TRAMPOLINE with (2^38 - 4096) in *.
  assert (allows RW acc = true) as Hrw by now destruct acc. rewrite !Hrw.
  repeat case_goal; zbool; try lia; f_equal; lia.
Qed.

Lemma table_io b root T F stk : layout -> kernel_table (b_k b) root T F stk -> h_mode (the_hart b) = SMode -> h_reg (the_hart b) Satp = MAKE_SATP root -> on_table b root T F.
Proof.
  intros HY [K1 [K2 _] K3] Hm Hs. split; [done|done|done|]. intros acc va Ha Hd. rewrite Hm, Hs, K3. now apply device_space.
Qed.

Lemma stage_paging p pt dv out d f q F : layout -> pa_inv (uof p) F -> (200 < size F)%nat -> at_main 0 (f 0) ->
  exists root u T F' stk f', runs 0 [Call (kvminit kend etext trampoline); Call kvminithart] (mk p pt dv out d f q) (mk (put_u u p) root dv out d f' q) /\
    kernel_table (Kernel (put_u u p) root 1 dv out) root T F' stk /\ F' ⊆ F /\ (34 < size F')%nat /\ (forall x, x < kend -> rd (mem_of u) x = rd (mem_of (uof p)) x) /\
    (forall h, h <> 0 -> f' h = f h) /\ h_mode (f' 0) = SMode /\ h_reg (f' 0) Satp = MAKE_SATP root /\ h_reg (f' 0) (X Tp) = 0.
Proof.
  intros [Y1 [Y2 Y2'] [Y3 Y3'] Y4 Y5 Y6] Hi Hn [H1 H2 H3].
  destruct (kvmmake_ok trampoline etext Y2 Y2' Y3 Y3' p F Hi ltac:(unfold kvm_pages; lia)) as (root & u & T & F' & stk & E & Hl & [HP HL HR]).
  pose proof (tpages_size _ _ _ _ _ _ _ _ HP) as Hsz. destruct HP as [V K2 K3 K4 K5 K6 K7 K8]. rewrite Hl in Hsz.
  change (length kernel_tables) with 102%nat in Hsz. change (Z.to_nat NPROC) with 64%nat in Hsz.
  set (h0 := f 0) in *. exists root, u, T, F', stk, (<[0 := Csr.Hart (<[Satp := u64 (MAKE_SATP root)]> (h_reg h0)) (h_mode h0) (h_pc h0)]> f). split.
  - eapply runs_call; [etransitivity; [exact (bind_ok _ _ _ _ _ (procs_ok _ (mk p pt dv out d f q) _ _ E))|reflexivity]|oth|].
    eapply runs_call; [reflexivity|oth|]. apply runs_nil.
  - assert (valid_page (S := uvm kstate) root) as Vr by exact (pt_page _ _ _ (vm_pt _ _ _ _ V) _ _ (pt_root _ _ _ (vm_pt _ _ _ _ V))).
    split; [split|].
    + apply vm_kernel. exact V.
    + done.
    + intros acc v. apply (region_translate (St := uvm kstate) (mem_of u) root T (kernel_map trampoline etext stk) SMode); [exact (vm_pt _ _ _ _ V)|done|done|apply kernel_map_perm|done].
    + split; [done|]. split; [lia|]. split; [intros x Hx; apply K8; intros r Hr; destruct (pa_free_valid _ _ _ Hi Hr) as [_ Hk]; lia|].
      split; [intros h Hh; now rewrite fn_lookup_insert_ne|]. rewrite !fn_lookup_insert. cbn [h_mode h_reg].
      split; [done|]. rewrite fn_lookup_insert, fn_lookup_insert_ne by done. split; [|done]. apply u64_small. exact (satp_u64 (St := uvm kstate) root Vr).
Qed.

(** ** The tables of the kernel *)

Definition inodes p : Z -> inode := f_inode (k_fs (y_k p)).

Lemma at_same p : at_ (uof p) (locks p) (y_proc p) (y_nextpid p) (y_initproc p) (inodes p) p = p.
Proof. now destruct p as [[[]]]. Qed.

Definition fresh_proc (i : Z) (x : proc) : proc := set_kstack (KSTACK i) (set_state UNUSED x).

Lemma procinit_ok p : y_me p = NULL -> exists t, procinit p = Ok tt (at_ (uof p) (locks p) t (y_nextpid p) (y_initproc p) (inodes p) p) /\
  forall j, t j = if in_table j then fresh_proc j (y_proc p j) else y_proc p j.
Proof.
  intros Hme. unfold procinit. destruct (for_loop_ok (fun k x => exists t, x = at_ (uof p) (locks p) t (y_nextpid p) (y_initproc p) (inodes p) p /\
    forall j, t j = if (0 <=? j) && (j <? k) then fresh_proc j (y_proc p j) else y_proc p j) (Z.to_nat NPROC) 0 (fun i => upd_proc i (fun x => set_kstack (KSTACK i) (set_state UNUSED x))) p)
    as (x & E & t & -> & Ht).
  - exists (y_proc p). split; [symmetry; apply at_same|]. intros j. destruct (Z.leb_spec 0 j), (Z.ltb_spec j 0); done || lia.
  - intros k x Hk (t & -> & Ht). eexists. split; [apply upd_at; rewrite Hme; unfold NULL; lia|]. eexists. split; [reflexivity|]. intros j.
    destruct (Z.eq_dec j k) as [-> |Hj].
    + rewrite fn_lookup_insert, Ht. destruct (Z.ltb_spec k k); [lia|]. rewrite andb_false_r. destruct (Z.leb_spec 0 k), (Z.ltb_spec k (k + 1)); done || lia.
    + rewrite fn_lookup_insert_ne, Ht by done. destruct (Z.leb_spec 0 j), (Z.ltb_spec j k), (Z.ltb_spec j (k + 1)); done || lia.
  - exists t. split; [exact E|]. exact Ht.
Qed.

Definition put_io (x : lstate bstate) p : P :=
  let k := y_k p in let f := k_fs k in set_k (set_fs (FState x (f_user f) (f_held f) (f_pid f) (f_sb f) (f_inode f) (f_cwd f)) k) p.

Definition the_io p : lstate bstate := f_io (k_fs (y_k p)).

(** The buffer cache is empty. *)
Lemma binit_call p : (forall i, bs_buf (l_bc (the_io p)) i = zero_buf) -> bs_held (l_bc (the_io p)) = ∅ /\ bs_writes (l_bc (the_io p)) = [] ->
  exists x, kop (fs (io (bio binit))) p = Ok tt (put_io x p) /\ brep ROOTDEV (l_bc x) (v_init (bs_disk (l_bc (the_io p)))).
Proof.
  intros H1 [H2 H3]. destruct (binit_ok ROOTDEV (l_bc (the_io p)) ltac:(done) H1 H2 H3) as (c & E & HR & _).
  exists (LState c (l_held (the_io p)) (l_pid (the_io p)) (l_log (the_io p))). split; [|exact HR].
  unfold kop, fs, io, bio. fold (the_io p). now rewrite E.
Qed.

(** The locks of the inodes do not matter to their references. *)
Lemma iinit_call p : exists it, kop (fs iinit) p = Ok tt (at_ (uof p) (locks p) (y_proc p) (y_nextpid p) (y_initproc p) it p) /\ forall i, i_ref (it i) = i_ref (inodes p i).
Proof.
  assert (exists it, iinit (k_fs (y_k p)) = Ok tt (set_inodes it (k_fs (y_k p))) /\ forall i, i_ref (it i) = i_ref (inodes p i)) as (it & E & Hr).
  { unfold iinit. destruct (for_loop_ok (fun k x => exists it, x = set_inodes it (k_fs (y_k p)) /\ forall i, i_ref (it i) = i_ref (inodes p i)) (Z.to_nat NINODE) 0
      (fun i => modify (fset (inode_lock i) (initsleeplock "inode"))) (k_fs (y_k p))) as (x & E & it & -> & Hr).
    - exists (inodes p). split; [unfold inodes; now destruct (k_fs (y_k p))|done].
    - intros k x Hk (it & -> & Hr). eexists. split; [reflexivity|]. eexists. split; [reflexivity|]. intros i. cbn.
      destruct (Z.eq_dec i k) as [-> |Hi]; [rewrite fn_lookup_insert|rewrite fn_lookup_insert_ne by done]; apply Hr.
    - exists it. split; [exact E|exact Hr]. }
  exists it. split; [|exact Hr]. unfold kop, fs. rewrite E. reflexivity.
Qed.

Lemma kernel_table_ext g g' root T F stk : uof (g_p g') = uof (g_p g) -> kernel_table g root T F stk -> kernel_table g' root T F stk.
Proof.
  intros E [[A1 A2 A3] K2 K3]. assert (mem_of g' = mem_of g) as Em by (change (mem_of (uof (g_p g')) = mem_of (uof (g_p g))); now rewrite E).
  split; [split; [|now rewrite Em|done]|done|intros acc v; rewrite Em; auto]. change (pa_inv (uof (g_p g')) F). rewrite E. exact A1.
Qed.

(** A hart on the kernel's page table. *)
Record paged (root : Z) (h : Z) (x : hart) : Prop := Paged {
  pg_mode : h_mode x = SMode;
  pg_satp : h_reg x Satp = MAKE_SATP root;
  pg_tp : h_reg x (X Tp) = h;
}.

Lemma stage_tables p root dv out d f q T F stk : layout -> y_me p = NULL ->
  (forall i, bs_buf (l_bc (the_io p)) i = zero_buf) -> bs_held (l_bc (the_io p)) = ∅ /\ bs_writes (l_bc (the_io p)) = [] ->
  kernel_table (Kernel p root 1 dv out) root T F stk -> paged root 0 (f 0) ->
  exists t it x d' f', runs 0 (take 8 (drop 8 boot_calls)) (mk p root dv out d f q) (mk (at_ (uof p) (locks p) t (y_nextpid p) (y_initproc p) it (put_io x p)) root dv out d' f' q) /\
    (forall j, t j = if in_table j then fresh_proc j (y_proc p j) else y_proc p j) /\ (forall i, i_ref (it i) = i_ref (inodes p i)) /\
    brep ROOTDEV (l_bc x) (v_init (bs_disk (l_bc (the_io p)))) /\ uart d' = uart d /\
    plic_prio d' UART0_IRQ = 1 /\ plic_prio d' VIRTIO0_IRQ = 1 /\ hart_enabled 0 d' /\
    (forall h, h <> 0 -> f' h = f h) /\ paged root 0 (f' 0) /\ h_reg (f' 0) Stvec = kernelvec.
Proof.
  intros HY Hme Hb1 Hb2 HT [P1 P2 P3].
  destruct (procinit_ok p Hme) as (t & E1 & Ht). set (p1 := at_ (uof p) (locks p) t _ _ _ p) in *.
  set (f1 := <[0 := Csr.Hart (<[Stvec := u64 kernelvec]> (h_reg (f 0))) (h_mode (f 0)) (h_pc (f 0))]> f).
  assert (paged root 0 (f1 0) /\ h_reg (f1 0) Stvec = kernelvec) as [HP HS].
  { unfold f1. rewrite fn_lookup_insert. split; [split|]; cbn [h_mode h_reg]; rewrite ?fn_lookup_insert, ?fn_lookup_insert_ne by done; try done. apply u64_small, (ly_vec HY). }
  set (b3 := mk p1 root dv out d f1 q). assert (kernel_table (b_k b3) root T F stk) as HT3 by (apply (kernel_table_ext (Kernel p root 1 dv out)); [reflexivity|exact HT]).
  pose proof (ot_io _ _ _ _ (table_io b3 root T F stk HY HT3 (pg_mode _ _ _ HP) (pg_satp _ _ _ HP))) as Hio.
  destruct (plicinit_ok b3 Hio) as (d1 & E4 & [S4 S4'] & Q4 & Q4' & Q4'').
  destruct (plicinithart_ok (set_dev d1 b3) 0 Hio (pg_tp _ _ _ HP) ltac:(lia)) as (d2 & E5 & [S5 S5'] & Q5 & Q5' & _).
  destruct (binit_call p1 Hb1 Hb2) as (x & E6 & HR). destruct (iinit_call (put_io x p1)) as (it & E7 & Hr).
  exists t, it, x, d2, f1. split.
  - cbn [drop take main_boot]. eapply runs_call; [exact (procs_ok _ (mk p root dv out d f q) _ _ E1)|oth|]. eapply runs_call; [reflexivity|oth|].
    eapply (runs_call _ _ _ _ b3); [reflexivity|oth|]. eapply runs_call; [exact E4|oth|]. eapply runs_call; [exact E5|oth|].
    eapply runs_call; [exact (procs_ok _ (set_dev d2 b3) _ _ E6)|oth|]. eapply runs_call; [exact (procs_ok _ (mk (put_io x p1) root dv out d2 f1 q) _ _ E7)|oth|]. eapply runs_call; [reflexivity|oth|]. apply runs_nil.
  - split; [exact Ht|]. split; [exact Hr|]. split; [exact HR|]. cbn [set_dev Devices.b_dev b3 mk] in *. split; [congruence|].
    rewrite Q5', !Q4. split; [done|]. split; [done|]. split; [exact Q5|]. split; [intros h Hh; unfold f1; now rewrite fn_lookup_insert_ne|]. split; [exact HP|exact HS].
Qed.

(** ** The disk and the first process *)

Lemma by_pages_kernel g k : by_pages g k -> exists u, k = put_p (put_u u (g_p g)) g.
Proof.
  induction 1 as [|m k' _ (u & ->)|k' a k'' _ (u & ->) E].
  - exists (uof (g_p g)). now rewrite put_u_same, put_p_same.
  - eexists. reflexivity.
  - cbn in E. destruct (on_st kalloc u) as [x u'| |] eqn:Eu; simplify_eq. exists u'. reflexivity.
Qed.

(** Bytes that are neither in a free page nor in the name of process 0. *)
Definition kept_data (F : gset Z) (m m' : memory) : Prop := forall x, apart_from F x -> (x < name_addr 0 \/ name_addr 0 + 16 <= x) -> rd m' x = rd m x.

Lemma page_kept F m m' a : layout -> kept_data F m m' -> (forall q, q ∈ F -> valid_page (S := kstate) q) -> valid_page (S := kstate) a -> (a ∉ F) -> same_bytes m m' a PGSIZE.
Proof.
  intros HY Hk HF Va Ha x Hx. apply Hk.
  - intros q Hq. assert (a <> q) as Hne by now intros ->. pose proof (vpage_apart (St := kstate) a q Va (HF q Hq) Hne). lia.
  - destruct Va as [_ Hv]. destruct (ly_data HY) as [Hn _]. lia.
Qed.

Lemma kernel_table_kept g g' root T F F' stk : layout -> kernel_table g root T F stk -> pa_inv (uof (g_p g')) F' -> F' ⊆ F ->
  kept_data F (mem_of g) (mem_of g') -> kernel_table g' root T F' stk.
Proof.
  intros HY [[A1 A2 A3] K2 K3] Hi HF Hk.
  destruct (table_same (St := kernel) _ (mem_of g') _ _ A2) as [A2' Hl].
  { intros p a Hp. apply (page_kept F); [done|done|intros q Hq; exact (pa_free_valid _ _ _ A1 Hq)|exact (pt_page _ _ _ A2 p a Hp)|exact (A3 p a Hp)]. }
  split; [split; [exact Hi|exact A2'|intros p a Hp; pose proof (A3 p a Hp); set_solver]|done|].
  intros acc v. rewrite <- K3. rewrite !(translate_table (St := kernel) _ _ T) by done. now rewrite Hl.
Qed.

Lemma stage_disk p root dv out d f q T F stk : layout -> kernel_table (Kernel p root 1 dv out) root T F stk -> (10 < size F)%nat -> paged root 0 (f 0) ->
  exists u d' q', runs 0 [Call virtio_disk_init] (mk p root dv out d f q) (mk (put_u u p) root dv out d' f q') /\
    let F' := F ∖ {[q_desc q'; q_avail q'; q_used q']} in
    kernel_table (Kernel (put_u u p) root 1 dv out) root T F' stk /\ (7 < size F')%nat /\ same_but_vio d d' /\
    disk_ready F (Kernel (put_u u p) root 1 dv out) d' q' /\ (forall x, apart_from F x -> rd (mem_of u) x = rd (mem_of (uof p)) x).
Proof.
  intros HY HT Hn [P1 P2 P3]. set (b := mk p root dv out d f q).
  destruct (virtio_disk_init_ok b root T F (table_io b root T F stk HY HT P1 P2) ltac:(lia)) as (d' & k & q' & E & S & HD & Ho & Hb & Hk).
  destruct (by_pages_kernel _ _ Hb) as (u & ->). exists u, d', q'. split; [eapply runs_call; [exact E|oth|apply runs_nil]|].
  cbv zeta. split; [|split; [|split; [exact S|split; [exact HD|exact Hk]]]].
  - apply (kernel_table_kept (Kernel p root 1 dv out) _ root T F); [done|done|exact (vm_alloc _ _ _ _ (ot_vm _ _ _ _ Ho))|set_solver|intros x Hx _; exact (Hk x Hx)].
  - destruct HD as [_ Hnd Hp _]. rewrite size_difference.
    + replace ({[q_desc q'; q_avail q'; q_used q']} : gset Z) with (list_to_set [q_desc q'; q_avail q'; q_used q'] : gset Z) by set_solver. rewrite size_list_to_set by done. cbn [length]. lia.
    + intros x Hx. rewrite Forall_forall in Hp. apply Hp. set_solver.
Qed.

Lemma below_kdata a n : a + n <= kend -> kdata (St := kstate) a n.
Proof. intros Ha q [_ Hq]. left. lia. Qed.

Lemma layout_tramp : layout -> pte_page trampoline.
Proof. intros [Y1 [Y2 Y2'] [Y3 Y3'] Y4 Y5 Y6]. split; [done|]. change PHYSTOP with 0x88000000 in *. unfold KERNBASE, PGSIZE in *. lia. Qed.

Lemma stage_first p root dv out d f q T F stk : layout -> y_me p = NULL -> locks p = ∅ -> p_state (y_proc p 0) = UNUSED ->
  (forall i, 0 <= i < NINODE -> i_ref (inodes p i) = 0) -> rd (mem_of (uof p)) str_root = slash -> rd (mem_of (uof p)) (str_root + 1) = 0 ->
  (forall i, 0 <= i < 52 -> rd (mem_of (uof p)) (initcode + i) = nth (Z.to_nat i) initcode_bytes 0) ->
  kernel_table (Kernel p root 1 dv out) root T F stk -> (7 < size F)%nat ->
  exists tf pg r u T' F' t', let p' := at_ u (locks p) t' (i32 (y_nextpid p + 1)) 0 (<[0 := root_inode (inodes p 0)]> (inodes p)) p in
    runs 0 (drop 17 boot_calls) (mk p root dv out d f q) (mk p' root dv out d f q) /\ kernel_table (Kernel p' root 1 dv out) root T F' stk /\ F' ⊆ F /\
    t' 0 = first_proc forkret_pc (y_nextpid p) tf r (y_proc p 0) /\ (forall j, j <> 0 -> t' j = y_proc p j) /\ first_space trampoline u r T' F' tf pg /\
    kept_data F (mem_of (uof p)) (mem_of u).
Proof.
  intros HY Hme Hlk Hu Hit R0 R1 Hic HT Hn. destruct (ly_data HY) as (Y1 & Y2 & Y3). destruct (ly_name HY) as [Y4 Y5].
  destruct (userinit_ok (B := lstate bstate) (St := kstate) trampoline forkret_pc name_addr str_initcode str_root initcode (layout_tramp HY) (below_kdata _ _ Y1) (below_kdata _ _ Y2) (below_kdata _ _ Y3) Y4 Y5
    (uof p) (locks p) (y_proc p) (y_nextpid p) (y_initproc p) (inodes p) p F) as (tf & pg & r & u & T' & F' & t' & E & Ht & Hj & HS & HF & Hb);
    [rewrite Hme; done|rewrite Hlk; split; [|split]; intros; apply not_elem_of_empty|exact Hu|exact (vm_alloc _ _ _ _ (kt_vm _ _ _ _ _ HT))|exact Hn|exact Hit|exact R0|exact R1|exact Hic|].
  rewrite at_same in E. exists tf, pg, r, u, T', F', t'. cbv zeta. split; [|split; [|done]].
  - cbn [drop main_boot]. eapply runs_call; [exact (procs_ok _ (mk p root dv out d f q) _ _ E)|oth|]. apply runs_started, runs_nil.
  - apply (kernel_table_kept (Kernel p root 1 dv out) _ root T F); [done|done|exact (vm_alloc _ _ _ _ (fp_vm _ _ _ _ _ _ _ HS))|done|exact Hb].
Qed.

(** ** The kernel that hart 0 leaves *)

(** The kernel is up: its page table [T] next to the free pages [F], the devices
    and the queue of the disk, an empty buffer cache over the disk [dk], the first
    process and no other, the root directory and no other inode. *)
Record kernel_up (dk : Z -> block) b (T : ptree) (F : gset Z) (stk : list Z) (r : Z) (T1 : ptree) (tf pg : Z) : Prop := KernelUp {
  ku_table : kernel_table (b_k b) (g_pagetable (b_k b)) T F stk;
  ku_console : uart (Devices.b_dev b) = uart_ready /\ g_devsw (b_k b) CONSOLE = true /\ g_locking (b_k b) = 1;
  ku_prio : plic_prio (Devices.b_dev b) UART0_IRQ = 1 /\ plic_prio (Devices.b_dev b) VIRTIO0_IRQ = 1;
  ku_disk : exists Q, disk_ready Q (b_k b) (Devices.b_dev b) (b_disk b) /\ Q ## F;
  ku_cache : brep ROOTDEV (l_bc (the_io (g_p (b_k b)))) (v_init dk);
  ku_first : exists x, y_proc (g_p (b_k b)) 0 = first_proc forkret_pc 1 tf r (fresh_proc 0 x);
  ku_init : y_initproc (g_p (b_k b)) = 0 /\ y_nextpid (g_p (b_k b)) = 2;
  ku_space : first_space trampoline (uof (g_p (b_k b))) r T1 F tf pg;
  ku_exec : execs_init (mem_of (b_k b)) r;
  ku_rest i : 0 < i < NPROC -> p_state (y_proc (g_p (b_k b)) i) = UNUSED /\ p_kstack (y_proc (g_p (b_k b)) i) = KSTACK i;
  ku_root : exists x, inodes (g_p (b_k b)) 0 = root_inode x;
  ku_inodes i : 0 < i < NINODE -> i_ref (inodes (g_p (b_k b)) i) = 0;
}.

Definition up (dk : Z -> block) b : Prop := exists T F stk r T1 tf pg, kernel_up dk b T F stk r T1 tf pg.

(** A hart that may enter [scheduler]: on the kernel's page table, traps go to
    kernelvec, and the PLIC sends it the interrupts of the devices. *)
Definition hart_up (h : Z) b : Prop :=
  paged (g_pagetable (b_k b)) h (b_hart b h) /\ h_reg (b_hart b h) Stvec = kernelvec /\ hart_enabled h (Devices.b_dev b).

Lemma disk_ready_kept F F' g g' d q : layout -> disk_ready F g d q -> (forall a, a ∈ F' -> valid_page (S := kstate) a) ->
  F' ## {[q_desc q; q_avail q; q_used q]} -> kept_data F' (mem_of g) (mem_of g') -> exists Q, disk_ready Q g' d q /\ Q ## F'.
Proof.
  intros HY [D1 D2 D3 D4] HF Hd Hk. exists {[q_desc q; q_avail q; q_used q]}. split; [|set_solver]. split; [done|done| |done].
  apply list.Forall_forall. intros a Ha. rewrite list.Forall_forall in D3. destruct (D3 a Ha) as (_ & H1 & H2 & H3).
  assert (a ∈ ({[q_desc q; q_avail q; q_used q]} : gset Z)) as Hin by set_solver.
  split; [done|]. split; [done|]. split; [done|]. intros x Hx.
  rewrite (page_kept F' (mem_of g) (mem_of g') a); [now apply H3|done|done|done|done|set_solver|done].
Qed.

(** The statements of hart 0 up to the disk. *)
Lemma boot_front b : layout -> loaded (b_k b) -> b_cpu b = 0 -> at_main 0 (b_hart b 0) -> exists u t it x root dv out d f T F stk,
  let p := at_ u ∅ t 1 (y_initproc (g_p (b_k b))) it (put_io x (g_p (b_k b))) in runs 0 (take 16 boot_calls) b (mk p root dv out d f (b_disk b)) /\
    kernel_table (Kernel p root 1 dv out) root T F stk /\ (34 < size F)%nat /\ (forall a, a < kend -> rd (mem_of u) a = rd (mem_of (b_k b)) a) /\
    (forall j, in_table j = true -> t j = fresh_proc j (y_proc (g_p (b_k b)) j)) /\ (forall i, 0 <= i < NINODE -> i_ref (it i) = 0) /\
    brep ROOTDEV (l_bc x) (v_init (bs_disk (l_bc (the_io (g_p (b_k b)))))) /\ dv CONSOLE = true /\ uart d = uart_ready /\
    plic_prio d UART0_IRQ = 1 /\ plic_prio d VIRTIO0_IRQ = 1 /\ hart_enabled 0 d /\ paged root 0 (f 0) /\ h_reg (f 0) Stvec = kernelvec.
Proof.
  intros HY HL Hc HH. destruct (stage_console b HY HL Hc HH) as (d1 & k & F1 & dv & out & R1 & U1 & _ & V1 & _ & I1 & N1 & M1).
  set (p0 := g_p (b_k b)) in *. set (p1 := put_u (Uvm k (uv_pt (uof p0))) p0) in *.
  destruct (stage_paging p1 (g_pagetable (b_k b)) dv out d1 (b_hart b) (b_disk b) F1 HY I1 N1 HH) as (root & u & T & F & stk & f1 & R2 & HT & HF & N2 & M2 & O2 & Hm & Hs & Ht).
  destruct (stage_tables (put_u u p1) root dv out d1 f1 (b_disk b) T F stk HY (ld_me _ HL) (ld_bufs _ HL) (ld_cache _ HL) HT (Paged _ _ _ Hm Hs Ht))
    as (t & it & x & d & f & R3 & Et & Ei & HR & U2 & Q1 & Q2 & HE & O3 & HP & HS).
  exists u, t, it, x, root, dv, out, d, f, T, F, stk. cbv zeta.
  assert (at_ (uof (put_u u p1)) (locks (put_u u p1)) t (y_nextpid (put_u u p1)) (y_initproc (put_u u p1)) it (put_io x (put_u u p1)) = at_ u ∅ t 1 (y_initproc p0) it (put_io x p0)) as Ep.
  { change (at_ u (locks p0) t (y_nextpid p0) (y_initproc p0) it (put_io x p0) = at_ u ∅ t 1 (y_initproc p0) it (put_io x p0)). now rewrite (ld_locks _ HL : locks p0 = ∅), (ld_pid _ HL : y_nextpid p0 = 1). }
  rewrite Ep in R3. split; [exact (runs_app _ _ _ _ _ _ R1 (runs_app _ _ _ _ _ _ R2 R3))|]. clear R1 R2 R3.
  split; [apply (kernel_table_ext (Kernel (put_u u p1) root 1 dv out)); [reflexivity|exact HT]|]. split; [exact N2|].
  split; [intros a Ha; rewrite M2 by done; exact (M1 a Ha)|]. split; [intros j Hj; rewrite Et, Hj; reflexivity|].
  split; [intros i Hi; rewrite Ei; exact (ld_inodes _ HL i Hi)|]. split; [exact HR|]. split; [exact V1|]. split; [congruence|].
  split; [exact Q1|]. split; [exact Q2|]. split; [exact HE|]. split; [exact HP|exact HS].
Qed.

(** All statements of hart 0. *)
Lemma boot_runs b : layout -> loaded (b_k b) -> b_cpu b = 0 -> at_main 0 (b_hart b 0) -> exists b', runs 0 boot_calls b b' /\
  up (bs_disk (l_bc (the_io (g_p (b_k b))))) b' /\ hart_up 0 b'.
Proof.
  intros HY HL Hc HH.
  destruct (boot_front b HY HL Hc HH) as (u & t & it & x & root & dv & out & d & f & T & F & stk & R1 & HT & Hn & Hm & Et & Ei & HR & V & U1 & Q1 & Q2 & HE & HP & HS).
  set (p0 := g_p (b_k b)) in *. set (p1 := at_ u ∅ t 1 _ it _) in *.
  destruct (stage_disk p1 root dv out d f (b_disk b) T F stk HY HT ltac:(lia) HP) as (u2 & d2 & q & R2 & HT2 & Hn2 & (S1 & S2 & S3 & S4) & HD & Hk).
  set (F2 := F ∖ _) in *. pose proof (vm_alloc _ _ _ _ (kt_vm _ _ _ _ _ HT)) as Ha.
  assert (forall a, a ∈ F -> valid_page (S := kstate) a) as HFv by (intros a; exact (pa_free_valid _ _ _ Ha)).
  assert (forall a, a < kend -> rd (mem_of u2) a = rd (mem_of (b_k b)) a) as Hm2.
  { intros a Hlt. rewrite Hk; [exact (Hm a Hlt)|]. intros r Hr. destruct (HFv r Hr) as [_ Hv]. lia. }
  destruct (ly_data HY) as (Y1 & Y2 & Y3). destruct (ld_root _ HL) as [L1 L2]. pose proof (Et 0 eq_refl) as E0.
  destruct (stage_first (put_u u2 p1) root dv out d2 f q T F2 stk HY (ld_me _ HL) eq_refl (f_equal p_state E0) Ei) as (tf & pg & r & u3 & T1 & F3 & t3 & R3 & HT3 & HF & Ht & Hj & HSp & Hk3);
    [exact (eq_trans (Hm2 str_root ltac:(lia)) L1)|exact (eq_trans (Hm2 (str_root + 1) ltac:(lia)) L2)|intros i Hi; exact (eq_trans (Hm2 (initcode + i) ltac:(lia)) (ld_code _ HL i Hi))|exact HT2|exact Hn2|].
  eexists. split; [exact (runs_app _ _ _ _ _ _ R1 (runs_app _ _ _ _ _ _ R2 R3))|]. clear R1 R2 R3. split.
  - exists T, F3, stk, r, T1, tf, pg.
    destruct (disk_ready_kept F F2 (Kernel (put_u u2 p1) root 1 dv out) (Kernel (put_u u3 p1) root 1 dv out) d2 q HY HD ltac:(intros a Hin; apply HFv; set_solver) ltac:(set_solver) Hk3) as (Q & HQ & HQF).
    split; try reflexivity.
    + exact HT3.
    + split; [exact (eq_trans S1 U1)|]. split; [exact V|reflexivity].
    + cbn [Devices.b_dev mk]. rewrite S2. split; [exact Q1|exact Q2].
    + exists Q. split; [destruct HQ as [G1 G2 G3 G4]; split; assumption|set_solver].
    + exact HR.
    + exists (y_proc p0 0). rewrite <- E0. exact Ht.
    + split; reflexivity.
    + exact HSp.
    + exact (first_execs _ _ _ _ _ _ _ HSp).
    + intros i Hi. assert (in_table i = true) as Hin by (unfold in_table; unfold NPROC in *; lia).
      change (p_state (t3 i) = UNUSED /\ p_kstack (t3 i) = KSTACK i). rewrite Hj by lia. change (p_state (t i) = UNUSED /\ p_kstack (t i) = KSTACK i). rewrite (Et i Hin). split; reflexivity.
    + exists (it 0). apply fn_lookup_insert.
    + intros i Hi. change (i_ref (<[0 := root_inode (it 0)]> it i) = 0). rewrite fn_lookup_insert_ne by lia. apply Ei. lia.
  - split; [exact HP|]. split; [exact HS|]. unfold hart_enabled in *. cbn [Devices.b_dev mk]. rewrite S3, S4. exact HE.
Qed.

(** ** The other harts *)

(** What another hart changes while it joins: its own registers, its context of
    the PLIC, and the output. *)
Record joins (h : Z) b b' : Prop := Joins {
  jn_k : g_p (b_k b') = g_p (b_k b) /\ g_pagetable (b_k b') = g_pagetable (b_k b) /\ g_locking (b_k b') = g_locking (b_k b) /\ g_devsw (b_k b') = g_devsw (b_k b);
  jn_dev : uart (Devices.b_dev b') = uart (Devices.b_dev b) /\ vio (Devices.b_dev b') = vio (Devices.b_dev b) /\ plic_prio (Devices.b_dev b') = plic_prio (Devices.b_dev b);
  jn_disk : b_disk b' = b_disk b;
  jn_hart : others h b b';
  jn_plic h' : h' <> h -> hart_enabled h' (Devices.b_dev b) -> hart_enabled h' (Devices.b_dev b');
}.

Lemma up_joins dk h b b' : joins h b b' -> up dk b -> up dk b'.
Proof.
  intros [(J1 & J2 & J3 & J4) (J5 & J6 & J7) J8 _ _] (T & F & stk & r & T1 & tf & pg & [K1 K2 K3 (Q & K4 & K4') K5 K6 K7 K8 K9 K10 K11 K12]).
  assert (mem_of (b_k b') = mem_of (b_k b)) as Em by (change (mem_of (uof (g_p (b_k b'))) = mem_of (uof (g_p (b_k b)))); now rewrite J1).
  exists T, F, stk, r, T1, tf, pg. split; rewrite ?J1, ?J2, ?J3, ?J4, ?J5, ?J7; try assumption.
  - apply (kernel_table_ext (b_k b)); [now rewrite J1|exact K1].
  - exists Q. split; [|exact K4']. rewrite J8. destruct K4 as [G1 G2 G3 G4]. split; [congruence|exact G2| |exact G4].
    unfold zeroed in *. rewrite Em. exact G3.
  - rewrite Em. exact K9.
Qed.

Lemma hart_up_joins h h' b b' : joins h b b' -> h' <> h -> hart_up h' b -> hart_up h' b'.
Proof. intros [(J1 & J2 & _) _ _ J4 J5] Hne (P1 & P2 & P3). unfold hart_up. rewrite J2, (J4 h' Hne). split; [exact P1|]. split; [exact P2|exact (J5 h' Hne P3)]. Qed.

(** How far a hart is after [k] statements. *)
Definition joined (k : nat) (h : Z) b : Prop :=
  match k with
  | 0 | 1 => at_main h (b_hart b h)
  | 2 => paged (g_pagetable (b_k b)) h (b_hart b h)
  | 3 => paged (g_pagetable (b_k b)) h (b_hart b h) /\ h_reg (b_hart b h) Stvec = kernelvec
  | _ => hart_up h b
  end%nat.

Lemma hart_msg h : 0 <= h < 8 -> exists o, kprintf (bytes "hart %d starting" ++ [10]) [ANum h] = Some o.
Proof.
  intros Hh. assert (h = 0 \/ h = 1 \/ h = 2 \/ h = 3 \/ h = 4 \/ h = 5 \/ h = 6 \/ h = 7) as Hc by lia.
  destruct Hc as [-> |[-> |[-> |[-> |[-> |[-> |[-> | ->]]]]]]]; eexists; vm_compute; reflexivity.
Qed.

(** Each statement of [main_join]. *)
Lemma join_step dk k h b : layout -> (k < 4)%nat -> 0 <= h < 8 -> joined k h b -> up dk b ->
  exists f b', join_calls !! k = Some (Call f) /\ f (on_cpu h b) = Ok tt b' /\ joined (S k) h b' /\ joins h b b'.
Proof.
  intros HY Hk Hh HJ HU. destruct b as [g d f c q]. destruct HU as (T & F & stk & r & T1 & tf & pg & HU). pose proof (ku_table _ _ _ _ _ _ _ _ _ HU) as HT. cbn [b_k] in HT. clear HU.
  destruct k as [|[|[|[|k]]]]; [| | | |lia]; cbn [joined b_hart b_k] in HJ; cbn [lookup list_lookup main_join].
  - destruct (hart_msg h Hh) as (o & Eo). eexists _, (Board (Kernel (g_p g) (g_pagetable g) (g_locking g) (g_devsw g) (g_out g ++ o)) d f h q). split; [reflexivity|].
    split; [rewrite (bind_ok _ _ _ _ _ (cpuid_ok (on_cpu h (Board g d f c q)) h (am_tp _ _ HJ) ltac:(lia))); unfold printf; rewrite Eo; reflexivity|].
    split; [exact HJ|]. split; [repeat split|repeat split|reflexivity|apply others_same; reflexivity|intros h' _ He; exact He].
  - destruct HJ as [M1 M2 M3]. assert (valid_page (S := kernel) (g_pagetable g)) as Vr by exact (pt_page _ _ _ (vm_pt _ _ _ _ (kt_vm _ _ _ _ _ HT)) _ _ (pt_root _ _ _ (vm_pt _ _ _ _ (kt_vm _ _ _ _ _ HT)))).
    eexists _, (Board g d (<[h := Csr.Hart (<[Satp := u64 (MAKE_SATP (g_pagetable g))]> (h_reg (f h))) (h_mode (f h)) (h_pc (f h))]> f) h q). split; [reflexivity|]. split; [reflexivity|].
    split; [|split; [repeat split|repeat split|reflexivity|eapply others_set; reflexivity|intros h' _ He; exact He]].
    cbn [joined b_hart b_k]. rewrite fn_lookup_insert. split; cbn [h_mode h_reg]; [exact M1| |rewrite fn_lookup_insert_ne by done; exact M3].
    rewrite fn_lookup_insert. apply u64_small. exact (satp_u64 (St := kernel) _ Vr).
  - destruct HJ as [M1 M2 M3].
    eexists _, (Board g d (<[h := Csr.Hart (<[Stvec := u64 kernelvec]> (h_reg (f h))) (h_mode (f h)) (h_pc (f h))]> f) h q). split; [reflexivity|]. split; [reflexivity|].
    split; [|split; [repeat split|repeat split|reflexivity|eapply others_set; reflexivity|intros h' _ He; exact He]].
    cbn [joined b_hart b_k]. rewrite fn_lookup_insert. split; [split; cbn [h_mode h_reg]; rewrite ?fn_lookup_insert_ne by done; assumption|].
    cbn [h_reg]. rewrite fn_lookup_insert. apply u64_small, (ly_vec HY).
  - destruct HJ as [[M1 M2 M3] M4]. set (b := Board g d f h q).
    destruct (plicinithart_ok b h (ot_io _ _ _ _ (table_io b _ T F stk HY HT M1 M2)) M3 Hh) as (d' & E & [S1 S2] & He & Hp & Ho & _).
    eexists _, (set_dev d' b). split; [reflexivity|]. split; [exact E|]. split; [split; [split; assumption|split; [exact M4|exact He]]|].
    split; [repeat split|split; [exact S1|split; [exact S2|exact Hp]]|reflexivity|apply others_same; reflexivity|].
    intros h' Hne [G1 G2]. destruct (Ho (s_context h') ltac:(unfold s_context; lia)) as [O1 O2]. split; [intros i Hi; exact (eq_trans (O1 i) (G1 i Hi))|exact (eq_trans O2 G2)].
Qed.

(** ** All harts together *)

Local Abbreviation step_of := (main_step kend etext trampoline kernelvec forkret_pc name_addr str_initcode str_root initcode).

(** A step of one of the [n] harts. *)
Definition step (n : Z) (c c' : cfg) : Prop := exists h, 0 <= h < n /\ c' = step_of h c.

Definition other_ok (h : Z) b (pl : place) : Prop :=
  match pl with
  | AtEntry | Waiting => at_main h (b_hart b h)
  | Joining k => (k <= 4)%nat /\ joined k h b
  | Scheduling => hart_up h b
  | Booting _ | Stopped _ => False
  end.

(** Hart 0 has statements to go, and the others wait; or the kernel is up. *)
Inductive inv (n : Z) (dk : Z -> block) (c : cfg (D := D)) : Prop :=
  | inv_before k bf : c_started c = 0 -> (forall h, 0 < h < n -> (c_at c h = AtEntry \/ c_at c h = Waiting) /\ at_main h (b_hart (c_b c) h)) ->
      c_at c 0 = AtEntry /\ k = 0%nat /\ h_reg (b_hart (c_b c) 0) (X Tp) = 0 \/ c_at c 0 = Booting k -> (k < 19)%nat ->
      runs 0 (drop k boot_calls) (c_b c) bf -> up dk bf -> hart_up 0 bf -> inv n dk c
  | inv_after : c_started c = 1 -> up dk (c_b c) -> c_at c 0 = Booting 19 \/ c_at c 0 = Scheduling -> hart_up 0 (c_b c) ->
      (forall h, 0 < h < n -> other_ok h (c_b c) (c_at c h)) -> inv n dk c.

Lemma boot_started k : boot_calls !! k = Some Started <-> k = 18%nat.
Proof.
  split; [|now intros ->]. intros E. do 18 (destruct k as [|k]; [discriminate E|]). destruct k as [|k]; [done|]. destruct k; discriminate E.
Qed.

Lemma entry_cpuid h b : h_reg (b_hart b h) (X Tp) = h -> 0 <= h < 8 -> cpuid (on_cpu h b) = Ok h (on_cpu h b).
Proof. intros E Hh. apply cpuid_ok; [exact E|lia]. Qed.

(** Hart 0, before the others start. *)
Lemma inv_boot n dk c : n <= 8 -> c_started c = 0 -> inv n dk c -> inv n dk (step_of 0 c).
Proof.
  intros Hn Hs [k bf _ Ho H0 Hk HR HU HH|Hs' _ _ _ _]; [|rewrite Hs in Hs'; discriminate Hs'].
  assert (forall pl h, 0 < h < n -> (<[0 := pl]> (c_at c) h = AtEntry \/ <[0 := pl]> (c_at c) h = Waiting) /\ at_main h (b_hart (c_b c) h)) as Ho'
    by (intros pl h Hh; rewrite fn_lookup_insert_ne by lia; now apply Ho).
  unfold main_step. destruct H0 as [(E & -> & Ht)|E]; rewrite E.
  - rewrite entry_cpuid by (done || lia). cbn [Z.eqb]. apply (inv_before n dk _ 0 bf); try assumption; [exact (Ho' _)|right; apply fn_lookup_insert].
  - unfold run_stmt. destruct (boot_calls !! k) as [s|] eqn:El; [|apply lookup_ge_None in El; cbn in El; lia].
    rewrite (drop_S _ _ _ El) in HR. destruct s as [f|].
    + assert (k <> 18%nat) by (intros ->; discriminate El). inversion HR as [|f' l b b1 b' E1 O1 R1|]; subst. rewrite E1.
      apply (inv_before n dk _ (S k) bf); cbn [c_started c_at c_b]; try assumption; [|right; apply fn_lookup_insert|lia].
      intros h Hh. rewrite (O1 h) by lia. now apply Ho'.
    + apply boot_started in El as ->. inversion HR as [| |l b b' R1]; subst. inversion R1; subst.
      apply inv_after; cbn [c_started c_at c_b]; try assumption; [reflexivity|left; apply fn_lookup_insert|].
      intros h Hh. destruct (Ho' (Booting 19) h Hh) as [[-> | ->] Ha]; exact Ha.
Qed.

(** The others, before they start. *)
Lemma inv_wait n dk c h : 0 < h < n -> n <= 8 -> c_started c = 0 -> inv n dk c -> inv n dk (step_of h c).
Proof.
  intros Hh Hn Hs Hi. destruct Hi as [k bf S Ho H0 Hk HR HU HH|Hs' _ _ _ _]; [|rewrite Hs in Hs'; discriminate Hs'].
  destruct (Ho h Hh) as [[E|E] Ha]; unfold main_step; rewrite E; [|rewrite Hs; cbn [Z.eqb]; exact (inv_before n dk c k bf S Ho H0 Hk HR HU HH)].
  rewrite entry_cpuid by (apply (am_tp _ _ Ha) || lia). rewrite (proj2 (Z.eqb_neq h 0)) by lia.
  apply (inv_before n dk _ k bf); cbn [goto c_started c_at c_b]; rewrite ?fn_lookup_insert_ne by lia; try assumption.
  intros h' Hh'. destruct (Z.eq_dec h' h) as [-> |Hne]; [rewrite fn_lookup_insert; auto|rewrite fn_lookup_insert_ne by done; now apply Ho].
Qed.

(** Hart [h] moves, and nothing but what it may change changes. *)
Lemma inv_moves n dk c h b pl : 0 < h < n -> c_started c = 1 -> up dk (c_b c) -> c_at c 0 = Booting 19 \/ c_at c 0 = Scheduling -> hart_up 0 (c_b c) ->
  (forall h, 0 < h < n -> other_ok h (c_b c) (c_at c h)) -> joins h (c_b c) b -> other_ok h b pl -> inv n dk (Cfg b (c_started c) (<[h := pl]> (c_at c))).
Proof.
  intros Hh Hs HU H0 HH Ho HJ Hpl. apply inv_after; cbn [c_started c_at c_b].
  - exact Hs.
  - exact (up_joins dk h _ _ HJ HU).
  - rewrite fn_lookup_insert_ne by lia. exact H0.
  - exact (hart_up_joins h 0 _ _ HJ ltac:(lia) HH).
  - intros h' Hh'. destruct (Z.eq_dec h' h) as [-> |Hne]; [rewrite fn_lookup_insert; exact Hpl|]. rewrite fn_lookup_insert_ne by done.
    pose proof (Ho h' Hh') as Hp. pose proof (hart_up_joins h h' _ _ HJ Hne) as Hu. destruct HJ as [(_ & J2 & _) _ _ J4 J5].
    destruct (c_at c h') as [|k| |k| |msg]; cbn [other_ok] in *; rewrite ?(J4 h' Hne); try assumption; [|exact (Hu Hp)].
    destruct Hp as [Hk Hp]. split; [exact Hk|]. destruct k as [|[|[|[|k]]]]; cbn [joined] in *; rewrite ?J2, ?(J4 h' Hne); try assumption. exact (Hu Hp).
Qed.

Lemma joins_refl h b : joins h b b.
Proof. split; [repeat split|repeat split|reflexivity|intros h' _; reflexivity|intros h' _ He; exact He]. Qed.

(** All harts, once the kernel is up. *)
Lemma inv_join n dk c h : layout -> 0 <= h < n -> n <= 8 -> c_started c = 1 -> inv n dk c -> inv n dk (step_of h c).
Proof.
  intros HY Hh Hn Hs Hi. destruct Hi as [k bf Hs' _ _ _ _ _ _|_ HU H0 HH Ho]; [rewrite Hs in Hs'; discriminate Hs'|].
  unfold main_step. destruct (Z.eq_dec h 0) as [-> |Hne].
  - destruct H0 as [E|E]; rewrite E; [|apply inv_after; try assumption; now right].
    unfold run_stmt. cbn [lookup list_lookup main_boot]. apply inv_after; cbn [goto c_started c_at c_b]; try assumption; [right; apply fn_lookup_insert|].
    intros h Hh'. rewrite fn_lookup_insert_ne by lia. now apply Ho.
  - assert (0 < h < n) as Hp by lia. pose proof (Ho h Hp) as Hq. pose proof (fun b pl => inv_moves n dk c h b pl Hp Hs HU H0 HH Ho) as Hmv.
    destruct (c_at c h) as [|k| |k| |msg]; cbn [other_ok] in Hq; try contradiction.
    + rewrite entry_cpuid by (apply (am_tp _ _ Hq) || lia). rewrite (proj2 (Z.eqb_neq h 0)) by lia. apply Hmv; [apply joins_refl|exact Hq].
    + rewrite Hs. cbn [Z.eqb]. apply Hmv; [apply joins_refl|split; [lia|exact Hq]].
    + destruct Hq as [Hk Hq]. unfold run_stmt. destruct (Nat.eq_dec k 4%nat) as [-> |Hk4].
      * cbn [lookup list_lookup main_join]. apply Hmv; [apply joins_refl|exact Hq].
      * destruct (join_step dk k h (c_b c) HY ltac:(lia) ltac:(lia) Hq HU) as (f & b & El & E & Hq' & HJ). rewrite El, E. apply Hmv; [exact HJ|split; [lia|exact Hq']].
    + apply inv_after; assumption.
Qed.

Lemma inv_step n dk c c' : layout -> n <= 8 -> step n c c' -> inv n dk c -> inv n dk c'.
Proof.
  intros HY Hn (h & Hh & ->) Hi. assert (c_started c = 0 \/ c_started c = 1) as [Hs|Hs] by (destruct Hi; auto).
  - destruct (Z.eq_dec h 0) as [-> |Hne]; [now apply inv_boot|apply inv_wait; [lia|done..]].
  - now apply inv_join.
Qed.

(** *** Every hart gets there *)

Definition rank (pl : place) : nat :=
  match pl with
  | AtEntry => 40
  | Booting k => S (30 - k)
  | Waiting => 8
  | Joining k => S (4 - k)
  | Scheduling | Stopped _ => 0
  end.

Lemma step_others h h' c : h' <> h -> c_at (step_of h c) h' = c_at c h'.
Proof.
  intros Hne. unfold main_step, run_stmt. repeat case_match; cbn [goto c_at]; rewrite ?fn_lookup_insert_ne by done; reflexivity.
Qed.

Lemma step_rank n dk h c : 0 <= h < n -> n <= 8 -> inv n dk c -> inv n dk (step_of h c) -> h = 0 \/ c_started c = 1 -> c_at c h <> Scheduling ->
  (rank (c_at (step_of h c) h) < rank (c_at c h))%nat /\ (c_started c = 1 -> c_started (step_of h c) = 1).
Proof.
  intros Hh Hn Hi Hi' Hs Hns.
  assert (forall msg, c_at (step_of h c) h <> Stopped msg) as Hst.
  { intros msg E. destruct (Z.eq_dec h 0) as [-> |Hne]; [destruct Hi' as [k bf _ _ [(G & _)|G] _ _ _ _|_ _ [G|G] _ _]; rewrite G in E; discriminate E|].
    destruct Hi' as [k bf _ Ho _ _ _ _ _|_ _ _ _ Ho].
    - destruct (Ho h ltac:(lia)) as [[G|G] _]; rewrite G in E; discriminate E.
    - specialize (Ho h ltac:(lia)). rewrite E in Ho. exact Ho. }
  assert (c_at c h = AtEntry -> cpuid (on_cpu h (c_b c)) = Ok h (on_cpu h (c_b c))) as Hid.
  { intros E. apply entry_cpuid; [|lia]. destruct (Z.eq_dec h 0) as [-> |Hne]; [destruct Hi as [k bf _ _ [(_ & _ & G)|G] _ _ _ _|_ _ [G|G] _ _]; [exact G|rewrite G in E; discriminate E..]|].
    destruct Hi as [k bf _ Ho _ _ _ _ _|_ _ _ _ Ho]; [exact (am_tp _ _ (proj2 (Ho h ltac:(lia))))|]. specialize (Ho h ltac:(lia)). rewrite E in Ho. exact (am_tp _ _ Ho). }
  assert (c_at c h = Waiting -> c_started c = 1) as Hw.
  { intros E. destruct Hs as [-> |Hs]; [|exact Hs]. destruct Hi as [k bf _ _ [(G & _)|G] _ _ _ _|G _ _ _ _]; [rewrite G in E; discriminate E..|exact G]. }
  assert (forall msg, c_at c h <> Stopped msg) as Hst0 by (intros msg E; apply (Hst msg); unfold main_step; rewrite E; exact E).
  revert Hst. unfold main_step, run_stmt. destruct (c_at c h) as [|k| |k| |msg] eqn:E; intros Hst; try contradiction.
  - rewrite Hid by reflexivity. cbn [goto c_at c_started]. rewrite fn_lookup_insert. split; [destruct (h =? 0); cbn; lia|auto].
  - destruct (boot_calls !! k) as [[f|]|] eqn:El; [destruct (f (on_cpu h (c_b c))) eqn:Ef| |]; cbn [goto c_at c_started] in *; rewrite ?fn_lookup_insert in *;
      try (exfalso; eapply Hst; reflexivity); (split; [cbn [rank]|auto]); try (apply lookup_lt_Some in El; cbn in El); lia.
  - rewrite Hw by reflexivity. cbn [Z.eqb goto c_at c_started]. rewrite fn_lookup_insert. split; [cbn; lia|auto].
  - destruct (join_calls !! k) as [[f|]|] eqn:El; [destruct (f (on_cpu h (c_b c))) eqn:Ef| |]; cbn [goto c_at c_started] in *; rewrite ?fn_lookup_insert in *;
      try (exfalso; eapply Hst; reflexivity); (split; [cbn [rank]|auto]); try (apply lookup_lt_Some in El; cbn in El); lia.
  - exfalso. exact (Hst0 msg eq_refl).
Qed.

(** Hart [h] alone goes on until it is in [scheduler]. *)
Lemma hart_arrives n dk h : layout -> 0 <= h < n -> n <= 8 -> forall r c, (rank (c_at c h) <= r)%nat -> inv n dk c -> h = 0 \/ c_started c = 1 ->
  exists c', rtc (step n) c c' /\ inv n dk c' /\ c_at c' h = Scheduling /\ forall h', h' <> h -> c_at c' h' = c_at c h'.
Proof.
  intros HY Hh Hn. induction r as [|r IH]; intros c Hr Hi Hs.
  all: assert (c_at c h = Scheduling \/ c_at c h <> Scheduling) as [E|E] by (destruct (c_at c h); auto; right; discriminate).
  all: try (exists c; split; [apply rtc_refl|]; split; [exact Hi|]; split; [exact E|reflexivity]).
  all: assert (step n c (step_of h c)) as St by (exists h; split; [exact Hh|reflexivity]).
  all: pose proof (inv_step n dk c _ HY Hn St Hi) as Hi'.
  all: destruct (step_rank n dk h c Hh Hn Hi Hi' Hs E) as [Hd Hst].
  1: lia.
  destruct (IH (step_of h c) ltac:(lia) Hi') as (c' & R & I & A & O); [destruct Hs as [Hs|Hs]; [left; exact Hs|right; exact (Hst Hs)]|].
  exists c'. split; [exact (rtc_l _ _ _ _ St R)|]. split; [exact I|]. split; [exact A|]. intros h' Hne. rewrite O by done. now apply step_others.
Qed.

Lemma scheduling_up n dk c h : 0 <= h < n -> inv n dk c -> c_at c h = Scheduling -> c_started c = 1 /\ up dk (c_b c) /\ hart_up h (c_b c).
Proof.
  intros Hh Hi E. destruct Hi as [k bf _ Ho H0 _ _ _ _|Hs HU H0 HH Ho].
  - destruct (Z.eq_dec h 0) as [-> |Hne]; [destruct H0 as [(G & _)|G]; rewrite G in E; discriminate E|]. destruct (Ho h ltac:(lia)) as [[G|G] _]; rewrite G in E; discriminate E.
  - split; [exact Hs|]. split; [exact HU|]. destruct (Z.eq_dec h 0) as [-> |Hne]; [exact HH|]. specialize (Ho h ltac:(lia)). rewrite E in Ho. exact Ho.
Qed.

Lemma all_arrive n dk c : layout -> 0 < n <= 8 -> inv n dk c -> exists c', rtc (step n) c c' /\ forall h, 0 <= h < n -> c_at c' h = Scheduling.
Proof.
  intros HY Hn Hi. assert (forall m : nat, Z.of_nat m <= n -> exists c', rtc (step n) c c' /\ inv n dk c' /\ forall h, 0 <= h < Z.of_nat m -> c_at c' h = Scheduling) as Hm.
  { induction m as [|m IH]; intros Hle; [exists c; split; [apply rtc_refl|]; split; [exact Hi|lia]|].
    destruct (IH ltac:(lia)) as (c1 & R1 & I1 & A1).
    destruct (hart_arrives n dk (Z.of_nat m) HY ltac:(lia) ltac:(lia) _ c1 (Nat.le_refl _) I1) as (c2 & R2 & I2 & A2 & O2).
    { destruct (Nat.eq_dec m 0%nat) as [-> |Hne]; [now left|right]. exact (proj1 (scheduling_up n dk c1 0 ltac:(lia) I1 (A1 0 ltac:(lia)))). }
    exists c2. split; [etransitivity; [exact R1|exact R2]|]. split; [exact I2|]. intros h Hh. destruct (Z.eq_dec h (Z.of_nat m)) as [-> |Hne]; [exact A2|]. rewrite O2 by done. apply A1. lia. }
  destruct (Hm (Z.to_nat n) ltac:(lia)) as (c' & R & _ & A). exists c'. split; [exact R|]. intros h Hh. apply A. lia.
Qed.

(** The machine when [start] has sent [n] harts to [main]. *)
Record entry (n : Z) (c : cfg (D := D)) : Prop := Entry {
  en_started : c_started c = 0;
  en_loaded : loaded (b_k (c_b c));
  en_harts h : 0 <= h < n -> at_main h (b_hart (c_b c) h) /\ c_at c h = AtEntry;
}.

Definition the_disk (c : cfg (D := D)) : Z -> block := bs_disk (l_bc (the_io (g_p (b_k (c_b c))))).

Lemma inv_init n c : layout -> 0 < n -> entry n c -> inv n (the_disk c) c.
Proof.
  intros HY Hn [E1 E2 E3]. destruct (E3 0 ltac:(lia)) as [H0 A0].
  destruct (boot_runs (on_cpu 0 (c_b c)) HY E2 eq_refl H0) as (bf & R & HU & HH). apply (inv_before n _ c 0 bf); try assumption.
  - intros h Hh. destruct (E3 h ltac:(lia)) as [G1 G2]. split; [left; exact G2|exact G1].
  - left. split; [exact A0|]. split; [reflexivity|exact (am_tp _ _ H0)].
  - lia.
  - exact (runs_cpu _ _ _ _ _ R).
Qed.

(** C20: Start-up.  However the harts take turns in [main], from where [start]
    leaves them: none of them panics or gets stuck; a hart other than hart 0 does
    nothing before the kernel is up; a hart enters [scheduler] only when the kernel
    is up and the hart itself is, on the kernel's page table, with its traps going to
    kernelvec and its interrupts enabled at the PLIC; and all harts can still get
    there.  The kernel is up when its page table maps what [kvmmake] says, the UART,
    the PLIC and the queue of the disk are set up, the buffer cache is empty over the
    disk as it was, and the process table has just the first process, which comes to
    exec("/init"). *)
Theorem main_starts_kernel n c0 c : layout -> 0 < n <= 8 -> entry n c0 -> rtc (step n) c0 c ->
  (forall h msg, 0 <= h < n -> c_at c h <> Stopped msg) /\
  (forall h k, 0 < h < n -> c_at c h = Joining k -> up (the_disk c0) (c_b c)) /\
  (forall h, 0 <= h < n -> c_at c h = Scheduling -> up (the_disk c0) (c_b c) /\ hart_up h (c_b c)) /\
  exists c', rtc (step n) c c' /\ forall h, 0 <= h < n -> c_at c' h = Scheduling.
Proof.
  intros HY Hn HE HR. pose proof (inv_init n c0 HY ltac:(lia) HE) as Hi. set (dk := the_disk c0) in *. clearbody dk.
  assert (inv n dk c) as HI by (clear HE; induction HR as [|x y z Hs HR IH]; [exact Hi|apply IH; exact (inv_step n dk x y HY ltac:(lia) Hs Hi)]).
  split; [|split; [|split; [|exact (all_arrive n dk c HY Hn HI)]]].
  - intros h msg Hh E. destruct HI as [k bf _ Ho H0 _ _ _ _|_ _ H0 _ Ho].
    + destruct (Z.eq_dec h 0) as [-> |Hne]; [destruct H0 as [(G & _)|G]; rewrite G in E; discriminate E|]. destruct (Ho h ltac:(lia)) as [[G|G] _]; rewrite G in E; discriminate E.
    + destruct (Z.eq_dec h 0) as [-> |Hne]; [destruct H0 as [G|G]; rewrite G in E; discriminate E|]. specialize (Ho h ltac:(lia)). rewrite E in Ho. exact Ho.
  - intros h k Hh E. destruct HI as [k' bf _ Ho _ _ _ _ _|_ HU _ _ _]; [|exact HU]. destruct (Ho h Hh) as [[G|G] _]; rewrite G in E; discriminate E.
  - intros h Hh E. exact (proj2 (scheduling_up n dk c h Hh HI E)).
Qed.
End boot.

(** ** A board *)

(** Devices that keep what is written, with nothing pending. *)
Record sim := Sim { sm_prio : Z -> Z; sm_enabled : Z -> Z -> bool; sm_threshold : Z -> Z; sm_uart : uart_regs; sm_vio : vio_regs }.

Definition sim_wired (i : Z) : bool := (i =? UART0_IRQ) || (i =? VIRTIO0_IRQ).

Definition sim_plic (o v : Z) (s : sim) : sim :=
  if o <? 0x2000 then Sim (fun i => if i =? o / 4 then v else sm_prio s i) (sm_enabled s) (sm_threshold s) (sm_uart s) (sm_vio s)
  else if o <? 0x200000 then
    if (o - 0x2000) mod 0x80 =? 0 then
      Sim (sm_prio s) (fun c i => if (c =? (o - 0x2000) / 0x80) && (i <? 32) then Z.testbit v i && sim_wired i else sm_enabled s c i) (sm_threshold s) (sm_uart s) (sm_vio s)
    else s
  else if (o - 0x200000) mod 0x1000 =? 0 then Sim (sm_prio s) (sm_enabled s) (fun c => if c =? (o - 0x200000) / 0x1000 then v else sm_threshold s c) (sm_uart s) (sm_vio s)
  else s.

Definition vregs : list vreg := [MAGIC_VALUE; VERSION; DEVICE_ID; VENDOR_ID; DEVICE_FEATURES; DRIVER_FEATURES; QUEUE_SEL; QUEUE_NUM_MAX; QUEUE_NUM; QUEUE_READY; QUEUE_NOTIFY;
  INTERRUPT_STATUS; INTERRUPT_ACK; STATUS; QUEUE_DESC_LOW; QUEUE_DESC_HIGH; DRIVER_DESC_LOW; DRIVER_DESC_HIGH; DEVICE_DESC_LOW; DEVICE_DESC_HIGH].

Definition vreg_at (o : Z) : option vreg := List.find (fun r => VIRTIO_MMIO r =? o) vregs.

Lemma vreg_at_reg r : vreg_at (VIRTIO_MMIO r) = Some r.
Proof. now destruct r. Qed.

Definition no_vio : vio_regs := Vio 0 0 0 0 0 (0, 0) (0, 0) (0, 0).

Definition sim_put (r : vreg) (x : Z) (v : vio_regs) : vio_regs :=
  match r with
  | STATUS => if x =? 0 then no_vio else vi_set_status x v
  | DRIVER_FEATURES => vi_set_features x v
  | QUEUE_SEL => Vio (vi_status v) (vi_features v) x (vi_ready v) (vi_num v) (vi_desc v) (vi_avail v) (vi_used v)
  | _ => vi_queue r x v
  end.

Definition sim_offered : Z := 0x30006e54.

Definition sim_get (r : vreg) (v : vio_regs) : Z :=
  match r with
  | MAGIC_VALUE => 0x74726976 | VERSION => 2 | DEVICE_ID => 2 | VENDOR_ID => 0x554d4551
  | DEVICE_FEATURES => sim_offered | STATUS => vi_status v | QUEUE_READY => vi_ready v | QUEUE_NUM_MAX => 1024
  | _ => 0
  end.

Definition within (base size a : Z) : bool := (base <=? a) && (a <? base + size).

Definition sim_store (n a v : Z) (s : sim) : sim :=
  if within UART0 PGSIZE a then
    if (a - UART0 <? 4) && ((0 <? a - UART0) || dlab (sm_uart s)) then Sim (sm_prio s) (sm_enabled s) (sm_threshold s) (uart_put (a - UART0) v (sm_uart s)) (sm_vio s) else s
  else if within VIRTIO0 PGSIZE a then
    match vreg_at (a - VIRTIO0) with
    | Some r => Sim (sm_prio s) (sm_enabled s) (sm_threshold s) (sm_uart s) (sim_put r v (sm_vio s))
    | None => s
    end
  else if within PLIC 0x4000000 a then sim_plic (a - PLIC) v s
  else s.

Definition sim_load (n a : Z) (s : sim) : Z * sim :=
  (if within VIRTIO0 PGSIZE a then match vreg_at (a - VIRTIO0) with Some r => sim_get r (sm_vio s) | None => 0 end else 0, s).

#[local] Instance sim_mmio : Mmio sim := {| dev_load := sim_load; dev_store := sim_store |}.

Lemma within_spec base size a : within base size a = true <-> in_range base size a.
Proof. unfold within, in_range. rewrite andb_true_iff, Z.leb_le, Z.ltb_lt. done. Qed.

Lemma not_within base size a : ~ in_range base size a -> within base size a = false.
Proof. intros H. apply not_true_is_false. now rewrite within_spec. Qed.

Lemma store_plic n a v s : in_range PLIC 0x4000000 a -> sim_store n a v s = sim_plic (a - PLIC) v s.
Proof.
  intros Ha. unfold sim_store. rewrite (not_within UART0), (not_within VIRTIO0) by (unfold in_range, PLIC, UART0, VIRTIO0, PGSIZE in *; lia).
  now rewrite (proj2 (within_spec _ _ _) Ha).
Qed.

Lemma store_virtio n r v s : sim_store n (VIRTIO0 + VIRTIO_MMIO r) v s = Sim (sm_prio s) (sm_enabled s) (sm_threshold s) (sm_uart s) (sim_put r v (sm_vio s)).
Proof.
  pose proof (vreg_range r). unfold sim_store. rewrite (not_within UART0) by (unfold in_range, UART0, VIRTIO0, PGSIZE; lia).
  rewrite (proj2 (within_spec VIRTIO0 PGSIZE (VIRTIO0 + VIRTIO_MMIO r))) by (unfold in_range, VIRTIO0, PGSIZE; lia).
  replace (VIRTIO0 + VIRTIO_MMIO r - VIRTIO0) with (VIRTIO_MMIO r) by lia. now rewrite vreg_at_reg.
Qed.

Lemma store_not_plic n a v s : ~ in_range PLIC 0x4000000 a -> sm_prio (sim_store n a v s) = sm_prio s /\ sm_enabled (sim_store n a v s) = sm_enabled s /\ sm_threshold (sim_store n a v s) = sm_threshold s.
Proof. intros Ha. unfold sim_store. rewrite (not_within PLIC _ a Ha). repeat case_match; done. Qed.

Lemma sim_plic_other o v s : sm_uart (sim_plic o v s) = sm_uart s /\ sm_vio (sim_plic o v s) = sm_vio s.
Proof. unfold sim_plic. repeat case_match; done. Qed.

#[local] Instance sim_devices : Devices sim.
Proof.
  refine {| plic_prio := sm_prio; plic_enabled := sm_enabled; plic_threshold := sm_threshold; plic_pending := fun _ _ => false; plic_wired := sim_wired; uart := sm_uart; vio := sm_vio;
    vio_offered := sim_offered; vio_accepts := fun x => Z.land x sim_offered =? x; vio_max := 1024 |}; cbn [dev_load dev_store sim_mmio].
  - intros n a v s Ha. now apply store_not_plic.
  - intros n a v s Ha. unfold sim_store. rewrite (not_within UART0 _ a Ha). repeat case_match; try done. apply sim_plic_other.
  - intros n a v s Ha. unfold sim_store. rewrite (not_within VIRTIO0 _ a Ha). repeat case_match; try done. apply sim_plic_other.
  - done.
  - intros irq v s Hi Hv. rewrite store_plic by (unfold in_range, PLIC; lia). unfold sim_plic. replace (PLIC + 4 * irq - PLIC) with (irq * 4) by lia.
    rewrite (proj2 (Z.ltb_lt _ 0x2000)), Z.div_mul by lia. done.
  - intros ctx v s Hc Hv. rewrite store_plic by (unfold in_range, plic_enable_at, PLIC; lia). unfold sim_plic, plic_enable_at.
    rewrite (proj2 (Z.ltb_ge _ 0x2000)), (proj2 (Z.ltb_lt _ 0x200000)) by (unfold PLIC; lia). replace (PLIC + 0x2000 + 0x80 * ctx - PLIC - 0x2000) with (ctx * 0x80) by lia.
    rewrite Z.mod_mul, Z.div_mul by lia. done.
  - intros ctx v s Hc Hv. rewrite store_plic by (unfold in_range, plic_threshold_at, PLIC; lia). unfold sim_plic, plic_threshold_at.
    rewrite (proj2 (Z.ltb_ge _ 0x2000)), (proj2 (Z.ltb_ge _ 0x200000)) by (unfold PLIC; lia). replace (PLIC + 0x200000 + 0x1000 * ctx - PLIC - 0x200000) with (ctx * 0x1000) by lia.
    rewrite Z.mod_mul, Z.div_mul by lia. done.
  - intros ctx s Hc. left. unfold sim_load. rewrite (not_within VIRTIO0) by (unfold in_range, plic_claim_at, PLIC, VIRTIO0, PGSIZE; lia). split; [done|]. now intros i (_ & ? & _).
  - done.
  - done.
  - intros r v s Hr Hv Hd. unfold sim_store. rewrite (proj2 (within_spec UART0 PGSIZE (UART0 + r))) by (unfold in_range, PGSIZE; lia). replace (UART0 + r - UART0) with r by lia.
    rewrite (proj2 (Z.ltb_lt r 4)) by lia. destruct (Z.ltb_spec 0 r) as [|Hz]; [done|]. rewrite Hd by lia. done.
  - intros r s. pose proof (vreg_range r). unfold sim_load. rewrite (proj2 (within_spec VIRTIO0 PGSIZE (VIRTIO0 + VIRTIO_MMIO r))) by (unfold in_range, VIRTIO0, PGSIZE; lia).
    replace (VIRTIO0 + VIRTIO_MMIO r - VIRTIO0) with (VIRTIO_MMIO r) by lia. rewrite vreg_at_reg. now destruct r.
  - intros s. now rewrite store_virtio.
  - intros x s Hx _ _. rewrite store_virtio. cbn [sm_vio sim_put]. now rewrite (proj2 (Z.eqb_neq x 0)) by lia.
  - intros x s _ _ _. now rewrite store_virtio.
  - intros x s _. now rewrite store_virtio.
  - intros r x s Hr _ _ _ _ _. rewrite store_virtio. now destruct r.
  - done.
  - done.
  - done.
Defined.

Definition boot_etext : Z := KERNBASE + 0x8000.
Definition boot_kernelvec : Z := KERNBASE + 0x5000.
Definition boot_str : Z := KERNBASE + 0xa010.

Definition boot_data : pst (lstate bstate) (uvm kstate) :=
  PSt (KSt (FState (LState file_cache0 ∅ 1 (Log 0 0 0 0 0 0 (fun _ => 0))) (Uvm first_kstate 0) ∅ 0 demo_sb (fun _ => Inode 0 0 0 (initsleeplock "") 0 (Dinode 0 0 0 0 0 [])) 0)
      (fun _ => File FD_NONE 0 0 0 0 0 0 0) (fun _ => new_pipe) (UProc 0 0 (fun _ => NULL) false))
    (fun _ => no_proc) NULL 1 NULL 0.

Definition boot_board : board kernel sim :=
  Board (Kernel boot_data 0 0 (fun _ => false) []) (Sim (fun _ => 0) (fun _ _ => false) (fun _ => 0) (UartRegs 0 0 0 0 0) no_vio)
    (fun h => Csr.Hart (<[X Tp := h]> (fun _ => 0)) SMode 0) 0 (VQueue 0 0 0 (fun _ => 0)).

Definition boot_cfg : cfg := Cfg boot_board 0 (fun _ => AtEntry).

Lemma boot_layout : layout first_end boot_etext first_tramp boot_kernelvec first_name boot_str first_str first_code.
Proof. split; unfold disjoint; vm_compute; intuition congruence. Qed.

Lemma boot_entry : entry first_end first_str first_code 2 boot_cfg.
Proof.
  split; [reflexivity| |intros h Hh; split; [split; reflexivity|reflexivity]].
  pose proof first_bytes as Hb. apply andb_true_iff in Hb as [Hb _]. apply andb_true_iff in Hb as [Hb _].
  pose proof (proj1 (forallb_forall _ _) Hb) as Hc. clear Hb.
  split; try reflexivity; try (split; reflexivity).
  intros i Hi. specialize (Hc (Z.to_nat i) ltac:(apply in_seq; lia)). apply Z.eqb_eq in Hc. rewrite Z2Nat.id in Hc by lia. exact Hc.
Qed.

Lemma main_starts_kernel_witness : exists c,
  rtc (step first_end boot_etext first_tramp boot_kernelvec first_forkret first_name boot_str first_str first_code 2) boot_cfg c /\
  (c_at c 0 = Scheduling /\ c_at c 1 = Scheduling) /\ up first_end ltac:(done) boot_etext first_tramp first_forkret (bs_disk file_cache0) (c_b c) /\
  hart_up boot_kernelvec 0 (c_b c) /\ hart_up boot_kernelvec 1 (c_b c).
Proof.
  pose proof (main_starts_kernel first_end ltac:(done) boot_etext first_tramp boot_kernelvec first_forkret first_name boot_str first_str first_code 2 boot_cfg) as HM.
  destruct (HM boot_cfg boot_layout ltac:(done) boot_entry (rtc_refl _ _)) as (_ & _ & _ & c & HR & Hc).
  destruct (HM c boot_layout ltac:(done) boot_entry HR) as (_ & _ & HU & _).
  exists c. split; [exact HR|]. split; [split; apply Hc; lia|].
  split; [exact (proj1 (HU 0 ltac:(lia) (Hc 0 ltac:(lia))))|]. split; [exact (proj2 (HU 0 ltac:(lia) (Hc 0 ltac:(lia))))|exact (proj2 (HU 1 ltac:(lia) (Hc 1 ltac:(lia))))].
Defined.
